(* ===== verification/_CoqProject ===== *)
-Q . S2P
Prelude.v
CString.v
Kalloc.v
Locks.v
Arch.v
Vm.v
VmTable.v
VmSpace.v
VmUser.v
Mmu.v
VmFork.v
VmFree.v
Hal.v
Proc.v
ProcSched.v
ProcLife.v
ProcFair.v
VmSys.v
Sysarg.v
Exec.v
ExecStack.v
ExecImage.v
ExecOk.v
Sysproc.v
Sbrk.v
Irq.v
Trap.v
Boot.v
Uart.v
Disk.v
Ramdisk.v
Virtio.v
VirtioOk.v
VirtioInit.v
Bio.v
Log.v
Block.v
Umem.v
Fs.v
FsAlloc.v
FsFile.v
FsTrunc.v
FsInode.v
FsDir.v
Mkfs.v
MkfsOk.v
MkfsImage.v
MkfsMain.v
Pipe.v
Console.v
FatNames.v
Fat32.v
FatTable.v
FatFile.v
FatDir.v
Ext2.v
Ext2Dir.v
Ext2Alloc.v
Vfs.v
VfsPath.v
Kern.v
Xv6fs.v
FatVfs.v
FatVnodes.v
ExtVfs.v
File.v
Sysfile.v
Kernel.v
Printf.v
Ulib.v
Uprintf.v
Filters.v
Umalloc.v
Grep.v
Tools.v
Init.v
Sh.v
ShParse.v
ShRun.v
