(* ===== verification/Prelude.v ===== *)
(** * A verification of the xv6-vfs-hal kernel

    The program is a teaching kernel derived from xv6: processes with paged
    virtual memory, a hardware abstraction layer with a RISC-V and a LoongArch
    implementation, a virtual file system with three file systems behind it
    (the logged xv6 file system, FAT32 with long names, ext2), pipes, a
    console, drivers for disks and the serial line, and user programs: a shell,
    a library and a few tools.  The sources are under src/xv6-riscv-xv6-riscv-rev5/; paths below
    are relative to it.

    ** How code is modelled

    A C function is a Rocq function with the same name in the monad [M S]: it
    takes a state [S] and gives [Ok (result, state)], or [Fault e] where the C
    code would panic, sleep for ever, dereference a null pointer, read an
    unassigned local, or leave an array.  The early returns, gotos and guards of
    the source are the branches of the definition, in order.  C integers are
    [Z] with their wrap-around written out ([u32], [u64], [s32], ...); memory
    and disk blocks are bytes; structures that live in memory or on disk are
    read from and written to those bytes ([rd], [le_enc]).  A pointer into a
    table (process, buffer, inode, vnode, file) is the index in that table.
    Loops are [loop fuel body], where the body either continues with new values
    of the loop's locals or leaves with a result; running out of fuel is the
    fault [FFuel], so a theorem that a function returns [Ok] also says that its
    fuel was enough.  The fuel is a bound computed from the arguments (the
    number of pages, blocks, sectors or characters the loop can visit, plus one
    turn for the final test), never a constant chosen for a proof; where the
    code itself does not end on some input, this is a finding and the theorem
    has a hypothesis that excludes it.

    Code that gives up the CPU is cut there: a function that sleeps is a
    sequence of sections, each running from an entry or a wakeup to a return or
    the next sleep, and the interleavings of all CPUs and processes are step
    relations over those sections.

    ** Files

    Shared
    - Prelude: the monad, loops and their rules, integers of C, bytes, bitmaps.
    - CString: kernel/string.c.
    - Locks: kernel/spinlock.c ([Spin]) and kernel/sleeplock.c ([Sleep]), with
      the step relations of their interleavings.

    Memory
    - Kalloc: kernel/kalloc.c; the free list is threaded through the pages.
    - Arch: the page-table entry formats and address-space layouts of
      hal/riscv/arch.h and hal/loongarch/arch.h, behind the class [Arch] with
      the laws [ArchOk] and an instance for each machine.
    - Vm: kernel/vm.c.  VmTable gives the meaning of a page table in memory,
      VmSpace that of an address space (a finite map from page numbers to
      frames and permissions) and of mapping, growing and shrinking it, VmUser
      that of copyin and copyout with lazily allocated pages, VmFork two address
      spaces side by side, VmFree taking them apart.
    - Hal: hal/riscv/hal_vm.c and hal/loongarch/hal_vm.c behind the class [Hal],
      kvmmake, proc_mapstacks and the kernel stacks.
    - Mmu: hal_vm_enable of both machines, LoongArch's TLB refill handler
      (hal/loongarch/hal_tlbrefill.S) and the address translation of the
      hardware, as the manuals define it.
    - VmSys: the pages above user memory, proc_pagetable, proc_freepagetable.

    Processes
    - Proc: kernel/proc.c.  ProcSched and ProcLife: its invariant over all CPUs
      and locks, a Hoare logic for its sections, and their interleavings.
      ProcFair: the scheduler's loops and its fairness.
    - Sysarg: argument fetching of kernel/syscall.c.  Sysproc: kernel/sysproc.c
      and the dispatch of system calls.  Sbrk: the break of a process.
    - Exec: kernel/exec.c and sys_exec.  ExecStack, ExecImage, ExecOk: the
      stack, the image, and exec as a transaction.
    - Trap: kernel/trap.c and LoongArch's exception state.
    - Boot: hal/riscv/hal_start.c, hal/loongarch/hal_start.c, kernel/main.c, and
      forkret of kernel/proc.c.
    - Printf: kernel/printf.c.

    Storage
    - Bio: kernel/bio.c.  Log: kernel/log.c with crashes.  Block: the interface
      the file systems are proved against, with its refinement by the log.
    - Umem: the interface to user memory of readi, writei, pipes, console.
    - Fs: kernel/fs.c.  FsAlloc, FsFile, FsTrunc, FsInode, FsDir: its block
      allocator, file contents, truncation, inode table and directories.
    - Mkfs: mkfs/mkfs.c.  MkfsOk, MkfsImage, MkfsMain: appending to a file, the
      invariant of the image under construction, the finished image.
    - FatNames, Fat32, FatVfs: kernel/fat32.c.  FatTable, FatFile, FatDir,
      FatVnodes: the table as a map, contents, directories, vnodes.
    - Ext2, ExtVfs: kernel/ext2.c.  Ext2Dir, Ext2Alloc: directories, allocation.
    - Vfs: kernel/vfs.c.  VfsPath: path resolution.  Xv6fs: kernel/xv6fs.c.
    - Pipe, Console: kernel/pipe.c, kernel/console.c.
    - Kern: the state the file systems share.  File, Sysfile: kernel/file.c,
      kernel/sysfile.c.  Kernel: all of them put together, with runs of system
      calls on small disks.

    Devices
    - Irq: the interrupt controllers, hal/riscv/hal_plic.c and
      hal/loongarch/hal_intr.c.
    - Uart: the serial driver of both machines.
    - Disk: what a disk driver promises, as an abstract disk with calls,
      transfers and returns.  Ramdisk: hal/loongarch/hal_ramdisk.c.  Virtio:
      hal/riscv/hal_virtio.c and the device behind it; VirtioOk: its invariant
      and its simulation by the abstract disk; VirtioInit: its initialisation
      through the registers.

    User programs
    - Ulib: user/ulib.c.  Uprintf: user/printf.c.  Umalloc: user/umalloc.c.
    - Filters: user/cat.c, wc.c and echo.c.  Grep: user/grep.c.  Tools:
      user/ls.c, rm.c, mkdir.c, ln.c, kill.c, mount.c, umount.c, and grep's main.
    - Init: user/init.c.
    - Sh: user/sh.c.  ShParse: the parser against a printer of commands.  ShRun:
      the processes, files and pipes of a command against its meaning.

    ** Interfaces

    - [Arch]/[ArchOk], [Hal], [HalVmOk]: what vm.c and proc.c need of the
      machine; both machines are instances.
    - [UserMem]/[UserMemOk]: what the I/O paths need of copyin and copyout.  The
      instance is a flat memory with unreadable addresses; VmUser proves the
      corresponding facts for page tables under the invariant of an address
      space.
    - [OpenFiles], [ExecFiles], [FileCalls]: what proc.c, exec.c and syscall.c
      call of the file layers; the theorems about processes hold for every file
      layer that meets the laws stated beside them ([QuietFiles],
      [ExecFilesOk]: it does not touch the process table, and reads may fail at
      any time).
    - [TrapHal]: interrupt controller, console and disk handlers and the timer.
    - [Backends], [Destroys]: the operation tables of the file systems behind
      the VFS; Kernel has the instance with all three.  [NameOps]: what path
      resolution needs of them.
    - [Devices]: the device switch of file.c.
    - [Unix]/[StreamOk]: the system calls as a user program sees them, and a
      descriptor that is a stream; [UnixFs]/[DirOk] and [UnixDev]/[Descriptors]
      add what ls and init use.

    ** What is proved

    - Crash safety: a commit interrupted at any block write, and any number of
      interrupted recoveries, leaves all of a transaction or none of it; begin_op
      reserves enough log space for all concurrent operations; the log
      implements the block interface.
    - Processes: in every interleaving of the sections of proc.c no process is on
      two CPUs and none of the checks of the lock and scheduling code fails;
      a return to user code finds the registers it needs; no RUNNABLE process is
      passed over for more than one scan of the table (ProcFair).
    - Memory: allocation, fork, exec, sbrk and exit account for every page,
      in success and failure; copyout and copyin move exactly the bytes they
      should; kernel stacks are disjoint and guarded; spin and sleep locks
      exclude; the allocator is a stack.  The hardware sees exactly the address
      spaces that the kernel builds: the walk of Sv39, and LoongArch's refill
      handler with the registers that the kernel sets (Mmu).
    - Startup: in every interleaving of the harts each part is initialised after
      what it needs; the file system is set up once, before any user code.
    - Files: contents, truncation, allocation and directories of the xv6 file
      system against byte sequences and entry lists; the FAT as a map and its
      chains; long names; ext2's directories and bitmap; vnode reference counts
      across path resolution and mounts; the buffer cache against a flat disk;
      the image of mkfs holds exactly the files it was given.
    - Streams: pipes are FIFO in every interleaving; the console's line editor;
      number formatting.
    - Devices: the virtio driver and the RAM disks are disks, whatever the
      interleaving of processes, interrupts and device; the serial driver loses
      no character and no wakeup; the initialisation of the virtio disks keeps to
      the protocol and ends in live disks or in the panic that fits; no interrupt
      is lost or served twice by the PLIC.
    - User programs: malloc and free keep objects apart and join free blocks
      again; the shell's parser inverts the writing of commands and ends on every
      line, and its processes are wired as the command says; grep's matcher
      agrees with the language of its patterns; the user's printf prints what the
      kernel's does; wc, cat, echo and ls against reference definitions; init
      keeps one shell running.
    - Defects: lemmas that run the code into a wrong result (a descriptor left
      after a failed open, appends that overwrite, kill(0), directory entries
      that are lost, ...), each named where it is proved.

    ** Not modelled

    - Assembly (entry, context switch, trap vectors) other than the TLB refill
      handler, and the accessors of control registers: where a register matters,
      it is a field of the state of the component that uses it.
    - hal_stack_overflow_panic, the serial output after a panic, and the registers
      that notify a virtio device and acknowledge its interrupt.  What a device
      does with the memory and the registers it shares with its driver is part of
      Uart, Virtio, VirtioInit and Irq.
    - Memory ordering: steps of different CPUs interleave, and the sequential
      parts of the kernel run under the locks the code takes.
    - The messages printed by trap.c, procdump, and #if 0 code of fs.c.
    - The host side of mkfs, and the test programs (usertests, ext2test, grind,
      ...): they exercise the kernel from outside and have no contract of their
      own. *)

From stdpp Require Export base list gmap strings numbers sorting.
From Stdlib Require Export ZArith Lia ZifyBool.

Open Scope Z_scope.

(** ** Faults, outcomes and the kernel monad *)

(** The ways in which kernel code stops instead of returning: a [panic],
    a sleep that nobody can end, a null dereference, a read of a local
    that was never assigned, an access outside an array, and a loop that ran
    out of the fuel its model was given. *)
Inductive fault : Type :=
| FPanic (msg : string)
| FDeadlock
| FNull
| FUninit
| FBounds
| FFuel.

Inductive outcome (A : Type) : Type :=
| Ok (a : A)
| Fault (e : fault).
Arguments Ok {A} a.
Arguments Fault {A} e.

(** A kernel operation over a state [S]. *)
Definition M (S A : Type) : Type := S -> outcome (A * S).

Definition ret {S A} (a : A) : M S A := fun s => Ok (a, s).

Definition bind {S A B} (m : M S A) (k : A -> M S B) : M S B :=
  fun s => match m s with
           | Ok (a, s') => k a s'
           | Fault e => Fault e
           end.

Definition fail {S A} (e : fault) : M S A := fun _ => Fault e.
Definition panic {S A} (msg : string) : M S A := fail (FPanic msg).
Definition gets {S A} (f : S -> A) : M S A := fun s => Ok (f s, s).
Definition modify {S} (f : S -> S) : M S unit := fun s => Ok (tt, f s).

Declare Scope kernel_scope.
Delimit Scope kernel_scope with kernel.
Notation "x <- m ;; k" := (bind m (fun x => k))
  (at level 95, m at next level, right associativity) : kernel_scope.
Notation "m ;;; k" := (bind m (fun _ => k))
  (at level 95, right associativity) : kernel_scope.
Notation "' p <- m ;; k" := (bind m (fun x => let p := x in k))
  (at level 95, p strict pattern, m at next level, right associativity) : kernel_scope.
Open Scope kernel_scope.

(** [if(c) m;] *)
Definition when {S} (c : bool) (m : M S unit) : M S unit :=
  if c then m else ret tt.

(** A C loop: the body either continues with a new value of the loop's
    locals ([inl]) or leaves the loop with a result ([inr]). *)
Fixpoint loop {S X R} (fuel : nat) (body : X -> M S (X + R)) (x : X) : M S R :=
  match fuel with
  | O => fail FFuel
  | S fuel' =>
      r <- body x ;;
      match r with
      | inl x' => loop fuel' body x'
      | inr v => ret v
      end
  end.

(** [for(i = i0; i < i0 + n; i++)] with an early exit: the body returns
    [None] to go on and [Some r] to leave the loop with [r]. *)
Fixpoint for_upto {S R} (n : nat) (i : Z) (body : Z -> M S (option R)) :
  M S (option R) :=
  match n with
  | O => ret None
  | S n' =>
      r <- body i ;;
      match r with
      | None => for_upto n' (i + 1) body
      | Some v => ret (Some v)
      end
  end.

(** A [for] loop with no early exit. *)
Fixpoint for_each {S X} (l : list X) (body : X -> M S unit) : M S unit :=
  match l with
  | [] => ret tt
  | x :: l' => body x ;;; for_each l' body
  end.

(** Running a component's operation inside a larger state. *)
Definition zoom {S T A} (get : S -> T) (put : T -> S -> S) (m : M T A) : M S A :=
  fun s => match m (get s) with
           | Ok (a, t) => Ok (a, put t s)
           | Fault e => Fault e
           end.

(** ** Fixed-width integers *)

Definition u8 (x : Z) : Z := x mod 2 ^ 8.
Definition u16 (x : Z) : Z := x mod 2 ^ 16.
Definition u32 (x : Z) : Z := x mod 2 ^ 32.
Definition u64 (x : Z) : Z := x mod 2 ^ 64.
Definition s16 (x : Z) : Z := (x + 2 ^ 15) mod 2 ^ 16 - 2 ^ 15.
Definition s32 (x : Z) : Z := (x + 2 ^ 31) mod 2 ^ 32 - 2 ^ 31.

Definition is_byte (x : Z) : Prop := 0 <= x < 256.

(** ** Arrays: byte buffers are lists of [Z], indexed by C integers *)

Definition zlen {A} (l : list A) : Z := Z.of_nat (length l).

Definition getz (l : list Z) (i : Z) : Z := default 0 (l !! Z.to_nat i).
Definition putz (l : list Z) (i v : Z) : list Z := <[Z.to_nat i := v]> l.

(** [n] elements of [l] from index [off]; the same range overwritten by [d]
    ([memmove] into a buffer). *)
Definition slice (l : list Z) (off n : Z) : list Z :=
  take (Z.to_nat n) (drop (Z.to_nat off) l).
Definition splice (l : list Z) (off : Z) (d : list Z) : list Z :=
  take (Z.to_nat off) l ++ d ++ drop (Z.to_nat off + length d) l.

(** Little-endian integers inside byte buffers. *)
Fixpoint le_dec (l : list Z) : Z :=
  match l with
  | [] => 0
  | b :: l' => b + 256 * le_dec l'
  end.

Fixpoint le_enc (n : nat) (v : Z) : list Z :=
  match n with
  | O => []
  | S n' => v mod 256 :: le_enc n' (v / 256)
  end.

Definition rd (w : nat) (l : list Z) (off : Z) : Z :=
  le_dec (slice l off (Z.of_nat w)).
Definition wr (w : nat) (l : list Z) (off v : Z) : list Z :=
  splice l off (le_enc w v).

Abbreviation rd16 := (rd 2).
Abbreviation rd32 := (rd 4).
Abbreviation wr16 := (wr 2).
Abbreviation wr32 := (wr 4).

(** Bit [i] of a bitmap held in a byte buffer: [data[i/8] & (1 << (i%8))],
    [data[i/8] |= m] and [data[i/8] &= ~m]. *)
Definition bm_get (l : list Z) (i : Z) : bool :=
  negb (Z.land (getz l (i / 8)) (Z.shiftl 1 (i mod 8)) =? 0).
Definition bm_set (l : list Z) (i : Z) : list Z :=
  putz l (i / 8) (Z.lor (getz l (i / 8)) (Z.shiftl 1 (i mod 8))).
Definition bm_clear (l : list Z) (i : Z) : list Z :=
  putz l (i / 8) (Z.ldiff (getz l (i / 8)) (Z.shiftl 1 (i mod 8))).

Definition BSIZE : Z := 1024.
Definition zero_block : list Z := replicate 1024 0.

(** ** Automation *)

Create Rewrite HintDb len.

#[export] Hint Rewrite @length_app @length_take @length_drop @length_replicate
  @length_insert @length_fmap @length_cons @length_nil : len.

(** Normalise list lengths, then arithmetic. *)
Ltac len := autorewrite with len in *; try lia.

(** Arithmetic with division and remainder by constants. *)
Ltac dlia := Z.to_euclidean_division_equations; lia.

(** One symbolic step of a monadic computation in the goal. *)
Ltac mstep :=
  unfold bind, ret, gets, modify, fail, panic; cbn beta iota.

(** Invert a computation hypothesis one bind at a time. *)
Ltac minv H :=
  unfold bind, ret, gets, modify, fail, panic in H; cbn beta iota in H.

(** ** Lemmas: the monad *)

Lemma bind_ok {S A B} (m : M S A) (k : A -> M S B) s a s' :
  m s = Ok (a, s') -> bind m k s = k a s'.
Proof. intros H. unfold bind. by rewrite H. Qed.

Lemma bind_inv {S A B} (m : M S A) (k : A -> M S B) s b s'' :
  bind m k s = Ok (b, s'') -> exists a s', m s = Ok (a, s') /\ k a s' = Ok (b, s'').
Proof.
  unfold bind. destruct (m s) as [[a s']|e]; [|discriminate]. eauto.
Qed.

Lemma bind_assoc {S A B C} (m : M S A) (k : A -> M S B) (h : B -> M S C) s :
  bind (bind m k) h s = bind m (fun a => bind (k a) h) s.
Proof. unfold bind. by destruct (m s) as [[a s']|e]. Qed.

Lemma ret_bind {S A B} (a : A) (k : A -> M S B) s : bind (ret a) k s = k a s.
Proof. done. Qed.

(** The total-correctness rule for loops: an invariant that the body keeps,
    with a measure that each continued iteration decreases and that the
    fuel bounds, makes the loop return and gives the exit condition. *)
Lemma loop_rule {S X R} (body : X -> M S (X + R)) (I : X -> S -> Prop)
    (Q : R -> S -> Prop) (mu : X -> S -> nat) :
  (forall x s, I x s ->
     exists r s', body x s = Ok (r, s') /\
       match r with
       | inl x' => I x' s' /\ (mu x' s' < mu x s)%nat
       | inr v => Q v s'
       end) ->
  forall fuel x s, I x s -> (mu x s < fuel)%nat ->
  exists v s', loop fuel body x s = Ok (v, s') /\ Q v s'.
Proof.
  intros Hb fuel. induction fuel as [|fuel IH]; intros x s Hi Hf; [lia|].
  destruct (Hb x s Hi) as (r & s' & Hr & Hq). cbn [loop].
  rewrite (bind_ok _ _ _ _ _ Hr). destruct r as [x'|v].
  - destruct Hq as [Hi' Hm]. apply IH; [done|lia].
  - eauto.
Qed.

(** The rule for counted loops. *)
Lemma for_upto_rule {S R} (body : Z -> M S (option R)) (I : Z -> S -> Prop)
    (Q : R -> S -> Prop) (lo : Z) (n : nat) (s0 : S) :
  I lo s0 ->
  (forall i s, lo <= i < lo + Z.of_nat n -> I i s ->
     exists r s', body i s = Ok (r, s') /\
       match r with None => I (i + 1) s' | Some v => Q v s' end) ->
  exists r s', for_upto n lo body s0 = Ok (r, s') /\
    match r with None => I (lo + Z.of_nat n) s' | Some v => Q v s' end.
Proof.
  revert lo s0. induction n as [|n IH]; intros lo s0 Hi Hb.
  - exists None, s0. split; [done|]. by rewrite Z.add_0_r.
  - destruct (Hb lo s0) as (r & s' & Hr & Hq); [lia|done|].
    cbn [for_upto]. rewrite (bind_ok _ _ _ _ _ Hr). destruct r as [v|].
    + eauto.
    + destruct (IH (lo + 1) s') as (r & s'' & Hr' & Hq'); [done| |].
      * intros i s Hr'. apply Hb. lia.
      * exists r, s''. split; [done|]. destruct r; [done|].
        by replace (lo + Z.of_nat (Datatypes.S n)) with (lo + 1 + Z.of_nat n) by lia.
Qed.

(** A search loop: iterations that do not stop leave the state alone. *)
Lemma for_upto_find {S R} (body : Z -> M S (option R)) (p : Z -> bool)
    (f : Z -> R) (g : Z -> S) (s : S) (n : nat) : forall lo,
  (forall i, lo <= i < lo + Z.of_nat n ->
     body i s = if p i then Ok (Some (f i), g i) else Ok (None, s)) ->
  (exists i, lo <= i < lo + Z.of_nat n /\ p i = true /\
     (forall j, lo <= j < i -> p j = false) /\ for_upto n lo body s = Ok (Some (f i), g i)) \/
  ((forall i, lo <= i < lo + Z.of_nat n -> p i = false) /\ for_upto n lo body s = Ok (None, s)).
Proof.
  induction n as [|n IH]; intros lo Hb.
  - right. split; [intros; lia|done].
  - cbn [for_upto]. pose proof (Hb lo ltac:(lia)) as H0. destruct (p lo) eqn:Ep.
    + left. exists lo. rewrite (bind_ok _ _ _ _ _ H0). split_and!; try done; try lia.
    + rewrite (bind_ok _ _ _ _ _ H0).
      destruct (IH (lo + 1)) as [(i & Hi & Hp & Hm & E)|[Hm E]].
      * intros i Hi. apply Hb. lia.
      * left. exists i. split_and!; try done; try lia.
        intros j Hj. destruct (decide (j = lo)) as [->|]; [done|]. apply Hm. lia.
      * right. split; [|done]. intros i Hi.
        destruct (decide (i = lo)) as [->|]; [done|]. apply Hm. lia.
Qed.

(** The rule for loops with no early exit. *)
Lemma for_each_rule {S X} (body : X -> M S unit) (I : list X -> S -> Prop)
    (l : list X) (s0 : S) :
  I l s0 ->
  (forall x l' s, I (x :: l') s -> exists s', body x s = Ok (tt, s') /\ I l' s') ->
  exists s', for_each l body s0 = Ok (tt, s') /\ I [] s'.
Proof.
  revert s0. induction l as [|x l IH]; intros s0 Hi Hb; [by exists s0|].
  destruct (Hb x l s0 Hi) as (s' & Hs & Hi'). cbn [for_each].
  rewrite (bind_ok _ _ _ _ _ Hs). by apply IH.
Qed.

Lemma for_each_app {S X} (body : X -> M S unit) (l1 l2 : list X) : forall s,
  for_each (l1 ++ l2) body s = (for_each l1 body ;;; for_each l2 body) s.
Proof.
  induction l1 as [|x l1 IH]; intros s; [done|]. cbn [app for_each]. rewrite bind_assoc.
  unfold bind. destruct (body x s) as [[[] t]|]; [apply IH|done].
Qed.

(** ** Lemmas: integers *)

Lemma u8_small x : 0 <= x < 256 -> u8 x = x.
Proof. intros. unfold u8. by rewrite Z.mod_small. Qed.
Lemma u16_small x : 0 <= x < 65536 -> u16 x = x.
Proof. intros. unfold u16. by rewrite Z.mod_small. Qed.
Lemma u32_small x : 0 <= x < 2 ^ 32 -> u32 x = x.
Proof. intros. unfold u32. by rewrite Z.mod_small. Qed.
Lemma u32_range x : 0 <= u32 x < 2 ^ 32.
Proof. apply Z.mod_pos_bound. lia. Qed.
Lemma u8_range x : 0 <= u8 x < 256.
Proof. apply Z.mod_pos_bound. lia. Qed.
Lemma s32_small x : - 2 ^ 31 <= x < 2 ^ 31 -> s32 x = x.
Proof. intros. unfold s32. rewrite Z.mod_small; lia. Qed.

(** ** Lemmas: arrays *)

Lemma lookup_getz l i x : l !! Z.to_nat i = Some x -> getz l i = x.
Proof. unfold getz. by intros ->. Qed.

Lemma getz_lookup l i : 0 <= i < zlen l -> l !! Z.to_nat i = Some (getz l i).
Proof.
  unfold zlen, getz. intros H.
  destruct (lookup_lt_is_Some_2 l (Z.to_nat i)) as [x Hx]; [lia|].
  by rewrite Hx.
Qed.

Lemma getz_putz_eq l i v : 0 <= i < zlen l -> getz (putz l i v) i = v.
Proof.
  intros. unfold getz, putz, zlen in *. rewrite list_lookup_insert_eq; [done|lia].
Qed.

Lemma getz_putz_ne l i j v :
  0 <= i -> 0 <= j -> i <> j -> getz (putz l i v) j = getz l j.
Proof.
  intros. unfold getz, putz. rewrite list_lookup_insert_ne; [done|lia].
Qed.

Lemma length_putz l i v : length (putz l i v) = length l.
Proof. apply length_insert. Qed.
#[export] Hint Rewrite length_putz : len.

Lemma zlen_putz l i v : zlen (putz l i v) = zlen l.
Proof. unfold zlen. by rewrite length_putz. Qed.

Lemma zlen_app {A} (l1 l2 : list A) : zlen (l1 ++ l2) = zlen l1 + zlen l2.
Proof. unfold zlen. rewrite length_app. lia. Qed.

Lemma length_le_enc n v : length (le_enc n v) = n.
Proof. revert v. induction n as [|n IH]; intros v; cbn; [done|by rewrite IH]. Qed.
#[export] Hint Rewrite length_le_enc : len.

Lemma le_dec_enc n v : le_dec (le_enc n v) = v mod 256 ^ Z.of_nat n.
Proof.
  revert v. induction n as [|n IH]; intros v; cbn [le_enc le_dec].
  - by rewrite Z.mod_1_r.
  - rewrite IH, Nat2Z.inj_succ, Z.pow_succ_r by lia.
    rewrite Z.rem_mul_r by lia. lia.
Qed.

Lemma le_enc_bytes n v : Forall is_byte (le_enc n v).
Proof.
  revert v. induction n as [|n IH]; intros v; cbn; constructor; [|apply IH].
  apply Z.mod_pos_bound. lia.
Qed.

Lemma le_dec_range l : Forall is_byte l -> 0 <= le_dec l < 256 ^ zlen l.
Proof.
  unfold zlen. induction 1 as [|b l Hb Hl IH]; cbn [le_dec length]; [done|].
  rewrite Nat2Z.inj_succ, Z.pow_succ_r by lia. unfold is_byte in Hb. lia.
Qed.

Lemma length_splice l off d :
  0 <= off -> off + zlen d <= zlen l -> length (splice l off d) = length l.
Proof. unfold splice, zlen. intros. len. Qed.

Lemma length_slice l off n :
  0 <= off -> 0 <= n -> off + n <= zlen l -> length (slice l off n) = Z.to_nat n.
Proof. unfold slice, zlen. intros. len. Qed.

Lemma getz_slice l o n k : 0 <= o -> 0 <= k < n -> getz (slice l o n) k = getz l (o + k).
Proof. intros Ho Hk. unfold getz, slice. rewrite lookup_take_lt, lookup_drop by lia. do 2 f_equal. lia. Qed.

Lemma lookup_splice_in l off d i :
  0 <= off -> off + zlen d <= zlen l ->
  (Z.to_nat off <= i < Z.to_nat off + length d)%nat ->
  splice l off d !! i = d !! (i - Z.to_nat off)%nat.
Proof.
  unfold splice, zlen. intros.
  rewrite lookup_app_r by len. rewrite lookup_app_l by len.
  f_equal. len.
Qed.

Lemma lookup_splice_out l off d i :
  0 <= off -> off + zlen d <= zlen l ->
  (i < Z.to_nat off \/ Z.to_nat off + length d <= i)%nat ->
  splice l off d !! i = l !! i.
Proof.
  unfold splice, zlen. intros Ho Hl [Hi|Hi].
  - rewrite lookup_app_l by len. by rewrite lookup_take_lt by lia.
  - rewrite lookup_app_r by len. rewrite lookup_app_r by len.
    rewrite lookup_drop. f_equal. len.
Qed.

Lemma slice_splice_eq l off d :
  0 <= off -> off + zlen d <= zlen l -> slice (splice l off d) off (zlen d) = d.
Proof.
  intros Ho Hl. unfold slice, splice, zlen in *. rewrite Nat2Z.id.
  rewrite drop_app_length' by len. by rewrite take_app_length.
Qed.

Lemma slice_splice_ne l off d off' n :
  0 <= off -> off + zlen d <= zlen l -> 0 <= off' -> 0 <= n ->
  off' + n <= off \/ off + zlen d <= off' ->
  slice (splice l off d) off' n = slice l off' n.
Proof.
  intros Ho Hl Ho' Hn Hd. unfold slice. apply list_eq. intros i.
  destruct (decide (i < Z.to_nat n)%nat).
  - rewrite !lookup_take_lt, !lookup_drop by lia.
    apply lookup_splice_out; [done..|]. unfold zlen in *. lia.
  - rewrite !lookup_take_ge by lia. done.
Qed.

Lemma rd_wr_eq w l off v :
  0 <= off -> off + Z.of_nat w <= zlen l ->
  rd w (wr w l off v) off = v mod 256 ^ Z.of_nat w.
Proof.
  intros. unfold rd, wr.
  replace (Z.of_nat w) with (zlen (le_enc w v)) at 1
    by (unfold zlen; by rewrite length_le_enc).
  rewrite slice_splice_eq; [apply le_dec_enc|done|].
  unfold zlen in *. rewrite length_le_enc. lia.
Qed.

Lemma rd_splice_ne w l off d off' :
  0 <= off -> off + zlen d <= zlen l -> 0 <= off' ->
  off' + Z.of_nat w <= off \/ off + zlen d <= off' ->
  rd w (splice l off d) off' = rd w l off'.
Proof. intros. unfold rd. by rewrite slice_splice_ne by lia. Qed.

Lemma rd_wr_ne w w' l off off' v :
  0 <= off -> off + Z.of_nat w <= zlen l -> 0 <= off' ->
  off' + Z.of_nat w' <= off \/ off + Z.of_nat w <= off' ->
  rd w' (wr w l off v) off' = rd w' l off'.
Proof.
  intros. unfold wr. apply rd_splice_ne; unfold zlen in *;
    rewrite ?length_le_enc; lia.
Qed.

Lemma length_wr w l off v :
  0 <= off -> off + Z.of_nat w <= zlen l -> length (wr w l off v) = length l.
Proof.
  intros. unfold wr. apply length_splice; [done|].
  unfold zlen in *. rewrite length_le_enc. lia.
Qed.

Lemma zlen_wr w l off v :
  0 <= off -> off + Z.of_nat w <= zlen l -> zlen (wr w l off v) = zlen l.
Proof. intros. unfold zlen. by rewrite length_wr. Qed.

Lemma rd_range w l off :
  Forall is_byte l -> 0 <= rd w l off < 256 ^ Z.of_nat w.
Proof.
  intros H. unfold rd.
  assert (Forall is_byte (slice l off (Z.of_nat w))) as Hb
    by (unfold slice; auto using Forall_take, Forall_drop).
  apply le_dec_range in Hb. split; [lia|].
  eapply Z.lt_le_trans; [apply Hb|]. apply Z.pow_le_mono_r; [lia|].
  unfold zlen, slice. len.
Qed.

(** ** Lemmas: bitmaps *)

Lemma bm_get_testbit l i : 0 <= i -> bm_get l i = Z.testbit (getz l (i / 8)) (i mod 8).
Proof.
  intros Hi. unfold bm_get. set (x := getz l (i / 8)). set (k := i mod 8).
  assert (0 <= k) by (apply Z.mod_pos_bound; lia).
  rewrite Z.shiftl_1_l. destruct (Z.testbit x k) eqn:E.
  - apply negb_true_iff, Z.eqb_neq. intros H0.
    assert (Z.testbit (Z.land x (2 ^ k)) k = false) as Hf by (rewrite H0; apply Z.bits_0).
    rewrite Z.land_spec, E, Z.pow2_bits_true in Hf by done. done.
  - apply negb_false_iff, Z.eqb_eq. apply Z.bits_inj'. intros n Hn.
    rewrite Z.land_spec, Z.bits_0. destruct (decide (n = k)) as [->|Hne].
    + by rewrite E.
    + by rewrite (Z.pow2_bits_false k n) by lia; rewrite andb_false_r.
Qed.

Lemma bm_get_set_eq l i : 0 <= i -> i / 8 < zlen l -> bm_get (bm_set l i) i = true.
Proof.
  intros Hi Hl. rewrite bm_get_testbit by done. unfold bm_set.
  rewrite getz_putz_eq by (split; [apply Z.div_pos; lia|done]).
  assert (0 <= i mod 8) by (apply Z.mod_pos_bound; lia).
  rewrite Z.lor_spec, Z.shiftl_1_l, Z.pow2_bits_true by done. apply orb_true_r.
Qed.

Lemma bm_get_clear_eq l i : 0 <= i -> i / 8 < zlen l -> bm_get (bm_clear l i) i = false.
Proof.
  intros Hi Hl. rewrite bm_get_testbit by done. unfold bm_clear.
  rewrite getz_putz_eq by (split; [apply Z.div_pos; lia|done]).
  assert (0 <= i mod 8) by (apply Z.mod_pos_bound; lia).
  rewrite Z.ldiff_spec, Z.shiftl_1_l, Z.pow2_bits_true by done. apply andb_false_r.
Qed.

Lemma bm_ne i j : 0 <= i -> 0 <= j -> i <> j -> i / 8 = j / 8 -> i mod 8 <> j mod 8.
Proof. intros ?? Hne Hd Hm. apply Hne. rewrite (Z.div_mod i 8), (Z.div_mod j 8); lia. Qed.

Lemma bm_get_set_ne l i j :
  0 <= i -> 0 <= j -> i <> j -> i / 8 < zlen l -> bm_get (bm_set l i) j = bm_get l j.
Proof.
  intros Hi Hj Hne Hl. rewrite !bm_get_testbit by done. unfold bm_set.
  assert (0 <= i / 8) by (apply Z.div_pos; lia).
  assert (0 <= j / 8) by (apply Z.div_pos; lia).
  destruct (decide (i / 8 = j / 8)) as [E|E].
  - rewrite <-E, getz_putz_eq by done.
    pose proof (bm_ne i j Hi Hj Hne E).
    pose proof (Z.mod_pos_bound i 8). pose proof (Z.mod_pos_bound j 8).
    rewrite Z.lor_spec, Z.shiftl_1_l, (Z.pow2_bits_false (i mod 8)) by lia.
    by rewrite orb_false_r.
  - by rewrite getz_putz_ne.
Qed.

Lemma bm_get_clear_ne l i j :
  0 <= i -> 0 <= j -> i <> j -> i / 8 < zlen l -> bm_get (bm_clear l i) j = bm_get l j.
Proof.
  intros Hi Hj Hne Hl. rewrite !bm_get_testbit by done. unfold bm_clear.
  assert (0 <= i / 8) by (apply Z.div_pos; lia).
  assert (0 <= j / 8) by (apply Z.div_pos; lia).
  destruct (decide (i / 8 = j / 8)) as [E|E].
  - rewrite <-E, getz_putz_eq by done.
    pose proof (bm_ne i j Hi Hj Hne E).
    pose proof (Z.mod_pos_bound i 8). pose proof (Z.mod_pos_bound j 8).
    rewrite Z.ldiff_spec, Z.shiftl_1_l, (Z.pow2_bits_false (i mod 8)) by lia.
    by rewrite andb_true_r.
  - by rewrite getz_putz_ne.
Qed.

Lemma length_bm_set l i : length (bm_set l i) = length l.
Proof. apply length_putz. Qed.
Lemma length_bm_clear l i : length (bm_clear l i) = length l.
Proof. apply length_putz. Qed.
#[export] Hint Rewrite length_bm_set length_bm_clear : len.
