(* ===== verification/CString.v ===== *)
(** CString: kernel/string.c.

    The [mem*] routines run on a byte-addressed memory, since what makes
    [memmove] interesting is that source and destination may overlap; the
    [str*] routines run on character arrays.  A C string is the part of an
    array before its first NUL ([cstr]); reading past the end of an array of
    the model yields NUL. *)

From S2P Require Import Prelude.

Definition memory : Type := Z -> Z.

Definition upd (m : memory) (a v : Z) : memory :=
  fun x => if x =? a then v else m x.

(** [for(i = 0; i < n; i++) cdst[i] = c;] *)
Fixpoint memset_loop (n : nat) (i dst c : Z) (m : memory) : memory :=
  match n with
  | O => m
  | S n' => memset_loop n' (i + 1) dst c (upd m (dst + i) (u8 c))
  end.

Definition memset (dst c : Z) (n : nat) (m : memory) : memory :=
  memset_loop n 0 dst c m.

Fixpoint memcmp (n : nat) (s1 s2 : Z) (m : memory) : Z :=
  match n with
  | O => 0
  | S n' =>
      if negb (m s1 =? m s2) then m s1 - m s2
      else memcmp n' (s1 + 1) (s2 + 1) m
  end.

(** [while(n-- > 0) *--d = *--s;] with [s] and [d] past the end. *)
Fixpoint copy_backward (n : nat) (d s : Z) (m : memory) : memory :=
  match n with
  | O => m
  | S n' => copy_backward n' (d - 1) (s - 1) (upd m (d - 1) (m (s - 1)))
  end.

(** [while(n-- > 0) *d++ = *s++;] *)
Fixpoint copy_forward (n : nat) (d s : Z) (m : memory) : memory :=
  match n with
  | O => m
  | S n' => copy_forward n' (d + 1) (s + 1) (upd m d (m s))
  end.

Definition memmove (dst src : Z) (n : nat) (m : memory) : memory :=
  if Nat.eqb n 0 then m
  else if (src <? dst) && (src + Z.of_nat n >? dst)
  then copy_backward n (dst + Z.of_nat n) (src + Z.of_nat n) m
  else copy_forward n dst src m.

Definition memcpy (dst src : Z) (n : nat) (m : memory) : memory :=
  memmove dst src n m.

(** *** Strings *)

Fixpoint strncmp (p q : list Z) (n : nat) : Z :=
  match n with
  | O => 0
  | S n' =>
      let a := hd 0 p in
      let b := hd 0 q in
      if negb (a =? 0) && (a =? b) then strncmp (tl p) (tl q) n'
      else a - b
  end.

(** The copying loop [while(n-- > 0 && ( *s++ = *t++ ) != 0);] followed by
    the padding loop [while(n-- > 0) *s++ = 0;], as the characters stored
    from [s] on. *)
Fixpoint strncpy_chars (t : list Z) (n : nat) : list Z :=
  match n with
  | O => []
  | S n' =>
      let c := hd 0 t in
      c :: (if c =? 0 then replicate n' 0 else strncpy_chars (tl t) n')
  end.

Definition strncpy (s t : list Z) (n : nat) : list Z :=
  strncpy_chars t n ++ drop n s.

(** [while(--n > 0 && ( *s++ = *t++ ) != 0); *s = 0;], again as the
    characters stored from [s] on; [n] is the value before the loop. *)
Fixpoint safestrcpy_chars (t : list Z) (n : nat) : list Z :=
  match n with
  | O => []
  | S O => [0]
  | S n' =>
      let c := hd 0 t in
      if c =? 0 then [0; 0] else c :: safestrcpy_chars (tl t) n'
  end.

Definition safestrcpy (s t : list Z) (n : nat) : list Z :=
  let cs := safestrcpy_chars t n in cs ++ drop (length cs) s.

Fixpoint strlen (s : list Z) : Z :=
  match s with
  | [] => 0
  | c :: s' => if c =? 0 then 0 else 1 + strlen s'
  end.

(** The C string held by an array. *)
Fixpoint cstr (s : list Z) : list Z :=
  match s with
  | [] => []
  | c :: s' => if c =? 0 then [] else c :: cstr s'
  end.

(** *** Lemmas *)

Lemma upd_eq m a v : upd m a v a = v.
Proof. unfold upd. by rewrite Z.eqb_refl. Qed.
Lemma upd_ne m a v x : x <> a -> upd m a v x = m x.
Proof. intros. unfold upd. by apply Z.eqb_neq in H as ->. Qed.

Lemma memset_loop_spec n : forall i dst c m a,
  memset_loop n i dst c m a =
  if (dst + i <=? a) && (a <? dst + i + Z.of_nat n) then u8 c else m a.
Proof.
  induction n as [|n IH]; intros i dst c m a; cbn [memset_loop].
  - destruct (_ && _) eqn:E; [lia|done].
  - rewrite IH. destruct (decide (a = dst + i)) as [->|Hne].
    + rewrite upd_eq.
      destruct ((dst + (i + 1) <=? dst + i) && _) eqn:E1;
        destruct ((dst + i <=? dst + i) && _) eqn:E2; try done; lia.
    + rewrite upd_ne by done.
      destruct ((dst + (i + 1) <=? a) && _) eqn:E1;
        destruct ((dst + i <=? a) && _) eqn:E2; try done; lia.
Qed.

Lemma copy_forward_spec n : forall d s m a,
  d <= s \/ s + Z.of_nat n <= d ->
  copy_forward n d s m a =
  if (d <=? a) && (a <? d + Z.of_nat n) then m (s + (a - d)) else m a.
Proof.
  induction n as [|n IH]; intros d s m a Hov; cbn [copy_forward].
  - destruct (_ && _) eqn:E; [lia|done].
  - rewrite IH by lia.
    destruct ((d + 1 <=? a) && _) eqn:E1; destruct ((d <=? a) && _) eqn:E2; try lia.
    + rewrite upd_ne by lia. f_equal. lia.
    + assert (a = d) as -> by lia. rewrite upd_eq. f_equal. lia.
    + by rewrite upd_ne by lia.
Qed.

Lemma copy_backward_spec n : forall d s m a,
  s <= d ->
  copy_backward n d s m a =
  if (d - Z.of_nat n <=? a) && (a <? d) then m (s - (d - a)) else m a.
Proof.
  induction n as [|n IH]; intros d s m a Hov; cbn [copy_backward].
  - destruct (_ && _) eqn:E; [lia|done].
  - rewrite IH by lia.
    destruct ((d - 1 - Z.of_nat n <=? a) && _) eqn:E1;
      destruct ((d - Z.of_nat (S n) <=? a) && _) eqn:E2; try lia.
    + rewrite upd_ne by lia. f_equal. lia.
    + assert (a = d - 1) as -> by lia. rewrite upd_eq. f_equal. lia.
    + by rewrite upd_ne by lia.
Qed.

Lemma memmove_spec dst src n m a :
  memmove dst src n m a =
  if (dst <=? a) && (a <? dst + Z.of_nat n) then m (src + (a - dst)) else m a.
Proof.
  unfold memmove. destruct (Nat.eqb_spec n 0) as [->|Hn].
  - destruct (_ && _) eqn:E; [lia|done].
  - destruct ((src <? dst) && _) eqn:E.
    + rewrite copy_backward_spec by lia.
      replace (dst + Z.of_nat n - Z.of_nat n) with dst by lia.
      by replace (src + Z.of_nat n - (dst + Z.of_nat n - a)) with (src + (a - dst)) by lia.
    + apply copy_forward_spec. lia.
Qed.

Lemma cstr_cons_nz c s : c <> 0 -> cstr (c :: s) = c :: cstr s.
Proof. intros H. cbn. by apply Z.eqb_neq in H as ->. Qed.

Lemma cstr_hd_tl p : hd 0 p <> 0 -> cstr p = hd 0 p :: cstr (tl p).
Proof. destruct p; [done|]. apply cstr_cons_nz. Qed.

Lemma cstr_hd_0 p : hd 0 p = 0 -> cstr p = [].
Proof. destruct p; [done|]. cbn. by intros ->. Qed.

Lemma strncmp_eq_iff n : forall p q,
  strncmp p q n = 0 <-> take n (cstr p) = take n (cstr q).
Proof.
  induction n as [|n IH]; intros p q; cbn [strncmp]; [done|].
  destruct (decide (hd 0 p = 0)) as [Hp|Hp].
  - rewrite Hp. cbn [negb andb Z.eqb]. rewrite (cstr_hd_0 _ Hp), take_nil.
    destruct (decide (hd 0 q = 0)) as [Hq|Hq].
    + rewrite Hq, (cstr_hd_0 _ Hq). done.
    + rewrite (cstr_hd_tl _ Hq). cbn [take]. split; [lia|done].
  - rewrite (cstr_hd_tl _ Hp). destruct (decide (hd 0 p = hd 0 q)) as [E|E].
    + rewrite (cstr_hd_tl q) by congruence. rewrite <-E, Z.eqb_refl.
      rewrite (proj2 (Z.eqb_neq _ _) Hp). cbn [negb andb take].
      rewrite IH. split; congruence.
    + rewrite (proj2 (Z.eqb_neq _ _) E), andb_false_r.
      destruct (decide (hd 0 q = 0)) as [Hq|Hq].
      * rewrite (cstr_hd_0 _ Hq). cbn [take]. split; [lia|done].
      * rewrite (cstr_hd_tl _ Hq). cbn [take]. split; [lia|congruence].
Qed.

Lemma strncpy_chars_spec n : forall t,
  strncpy_chars t n =
  take n (cstr t) ++ replicate (n - length (cstr t))%nat 0.
Proof.
  induction n as [|n IH]; intros t; cbn [strncpy_chars]; [done|].
  destruct (decide (hd 0 t = 0)) as [H|H].
  - rewrite (cstr_hd_0 _ H), H. done.
  - rewrite (cstr_hd_tl _ H). apply Z.eqb_neq in H as ->. cbn. by rewrite IH.
Qed.

Lemma safestrcpy_chars_cstr n : forall t,
  cstr (safestrcpy_chars t (S n)) = take n (cstr t).
Proof.
  induction n as [|n IH]; intros t; [done|].
  change (safestrcpy_chars t (S (S n))) with
    (let c := hd 0 t in
     if c =? 0 then [0; 0] else c :: safestrcpy_chars (tl t) (S n)).
  cbv zeta. destruct (decide (hd 0 t = 0)) as [H|H].
  - rewrite (cstr_hd_0 _ H), H. done.
  - rewrite (cstr_hd_tl _ H), (proj2 (Z.eqb_neq _ _) H), (cstr_cons_nz _ _ H).
    cbn [take]. by rewrite IH.
Qed.

Lemma cstr_app_0 s t : Exists (eq 0) s -> cstr (s ++ t) = cstr s.
Proof. induction 1 as [x l <-|x l _ IH]; cbn; [done|]. by rewrite IH. Qed.

Lemma safestrcpy_chars_nul n : forall t, Exists (eq 0) (safestrcpy_chars t (S n)).
Proof.
  induction n as [|n IH]; intros t; [by constructor|].
  change (safestrcpy_chars t (S (S n))) with
    (let c := hd 0 t in
     if c =? 0 then [0; 0] else c :: safestrcpy_chars (tl t) (S n)).
  cbv zeta. destruct (_ =? _); [by constructor|by constructor 2].
Qed.

Lemma safestrcpy_chars_length n : forall t, (length (safestrcpy_chars t n) <= n)%nat.
Proof.
  induction n as [|n IH]; intros t; [done|].
  destruct n as [|n]; [done|].
  change (safestrcpy_chars t (S (S n))) with
    (let c := hd 0 t in
     if c =? 0 then [0; 0] else c :: safestrcpy_chars (tl t) (S n)).
  cbv zeta. destruct (_ =? _); cbn [length]; [lia|]. specialize (IH (tl t)). lia.
Qed.

Lemma strlen_cstr s : strlen s = zlen (cstr s).
Proof.
  induction s as [|c s IH]; [done|]. cbn [strlen cstr]. destruct (c =? 0); [done|].
  rewrite IH. unfold zlen. cbn [length]. lia.
Qed.

Lemma strlen_nonneg s : 0 <= strlen s.
Proof. rewrite strlen_cstr. unfold zlen. lia. Qed.

Lemma cstr_nz s : Forall (fun c => c <> 0) (cstr s).
Proof.
  induction s as [|c s IH]; cbn; [done|].
  destruct (Z.eqb_spec c 0); by constructor.
Qed.

Lemma cstr_id s : Forall (fun c => c <> 0) s -> cstr s = s.
Proof. induction 1 as [|c s Hc _ IH]; [done|]. by rewrite cstr_cons_nz, IH. Qed.

Lemma cstr_app_nz s t : Forall (fun c => c <> 0) s -> cstr (s ++ t) = s ++ cstr t.
Proof. induction 1 as [|c s Hc _ IH]; [done|]. cbn. by rewrite (proj2 (Z.eqb_neq c 0) Hc), IH. Qed.

(** *** Properties *)

(** Memmove copies a snapshot of the source even when the two ranges
    overlap: after it, every destination byte holds what the corresponding
    source byte held before, and no other byte changed. *)
Theorem memmove_overlap dst src n m a :
  memmove dst src n m a =
  if (dst <=? a) && (a <? dst + Z.of_nat n) then m (src + (a - dst)) else m a.
Proof. apply memmove_spec. Qed.

(** The string routines: strncmp compares the C strings up to n characters,
    strncpy stores exactly n characters, NUL-padded and possibly not
    terminated, and safestrcpy always leaves a terminated string, the first
    n-1 characters of its source, within the n bytes it may write. *)
Theorem string_routines_spec :
  (forall p q n, strncmp p q n = 0 <-> take n (cstr p) = take n (cstr q)) /\
  (forall s t n, strncpy s t n =
     take n (cstr t) ++ replicate (n - length (cstr t))%nat 0 ++ drop n s) /\
  (forall s t n, cstr (safestrcpy s t (S n)) = take n (cstr t)) /\
  (forall s t n, drop n (safestrcpy s t n) = drop n s \/ (length s < n)%nat) /\
  (forall s, strlen s = zlen (cstr s)).
Proof.
  split_and!.
  - intros. apply strncmp_eq_iff.
  - intros. unfold strncpy. by rewrite strncpy_chars_spec, <-app_assoc.
  - intros. unfold safestrcpy. cbv zeta.
    rewrite cstr_app_0 by apply safestrcpy_chars_nul. apply safestrcpy_chars_cstr.
  - intros. unfold safestrcpy. cbv zeta.
    destruct (decide (length s < n)%nat); [by right|left].
    pose proof (safestrcpy_chars_length n t).
    rewrite drop_app_ge by lia. rewrite drop_drop. f_equal. lia.
  - intros. apply strlen_cstr.
Qed.
