(* ===== verification/Kalloc.v ===== *)
(** Kalloc: kernel/kalloc.c, the physical page allocator.

    The free list lives inside the free pages themselves, so the state is the
    physical memory plus the head pointer; [kinv] says which list of pages a
    state represents, and the operations refine push and pop on that list. *)

From S2P Require Import Prelude CString.

Definition PGSIZE : Z := 4096.
Definition PGROUNDUP (sz : Z) : Z := Z.land (sz + PGSIZE - 1) (Z.lnot (PGSIZE - 1)).
Definition PGROUNDDOWN (a : Z) : Z := Z.land a (Z.lnot (PGSIZE - 1)).

(** 64-bit loads and stores ([r->next]). *)
Definition load64 (m : memory) (p : Z) : Z :=
  le_dec ((fun i => m (p + i)) <$> [0; 1; 2; 3; 4; 5; 6; 7]).

Definition store64 (m : memory) (p v : Z) : memory :=
  fun a => if (p <=? a) && (a <? p + 8) then getz (le_enc 8 v) (a - p) else m a.

Record kmem : Type := Kmem { km_mem : memory; km_freelist : Z }.

Lemma PGROUNDDOWN_div a : PGROUNDDOWN a = a / PGSIZE * PGSIZE.
Proof.
  unfold PGROUNDDOWN. change (PGSIZE - 1) with (Z.ones 12).
  rewrite <-Z.ldiff_land, Z.ldiff_ones_r, Z.shiftl_mul_pow2, Z.shiftr_div_pow2 by lia.
  done.
Qed.

Lemma PGROUNDUP_div a : PGROUNDUP a = (a + PGSIZE - 1) / PGSIZE * PGSIZE.
Proof. apply PGROUNDDOWN_div. Qed.

Section kalloc.

(** The linker's first address after the kernel, and the top of memory. *)
Context (kend PHYSTOP : Z).

Definition kfree (pa : Z) : M kmem unit :=
  fun s =>
    if negb (pa mod PGSIZE =? 0) || (pa <? kend) || (pa >=? PHYSTOP)
    then Fault (FPanic "kfree")
    else
      let m := memset pa 1 (Z.to_nat PGSIZE) (km_mem s) in
      Ok (tt, Kmem (store64 m pa (km_freelist s)) pa).

Definition kalloc : M kmem Z :=
  fun s =>
    let r := km_freelist s in
    if r =? 0 then Ok (r, s)
    else
      let s' := Kmem (km_mem s) (load64 (km_mem s) r) in
      Ok (r, Kmem (memset r 5 (Z.to_nat PGSIZE) (km_mem s')) (km_freelist s')).

(** [for(; p + PGSIZE <= pa_end; p += PGSIZE) kfree(p);] *)
Definition freerange_body (pa_end : Z) (p : Z) : M kmem (Z + unit) :=
  if p + PGSIZE <=? pa_end
  then kfree p ;;; ret (inl (p + PGSIZE))
  else ret (inr tt).

Definition freerange (pa_start pa_end : Z) : M kmem unit :=
  loop (S (Z.to_nat ((pa_end - pa_start) / PGSIZE + 1)))
       (freerange_body pa_end) (PGROUNDUP pa_start).

Definition kinit : M kmem unit := freerange kend PHYSTOP.

(** *** The list of free pages a state represents *)

Definition page_ok (p : Z) : Prop := p mod PGSIZE = 0 /\ kend <= p < PHYSTOP.

Fixpoint chain (m : memory) (p : Z) (l : list Z) : Prop :=
  match l with
  | [] => p = 0
  | a :: l' => p = a /\ chain m (load64 m a) l'
  end.

Definition kinv (s : kmem) (l : list Z) : Prop :=
  chain (km_mem s) (km_freelist s) l /\ NoDup l /\ Forall page_ok l.

Definition in_page (p a : Z) : bool := (p <=? a) && (a <? p + PGSIZE).

Context (kend_pos : 0 < kend) (phystop_64 : PHYSTOP < 2 ^ 64).

Lemma load64_ext m m' p :
  (forall a, p <= a < p + 8 -> m a = m' a) -> load64 m p = load64 m' p.
Proof. intros H. unfold load64. cbn [fmap list_fmap le_dec]. rewrite !H by lia. done. Qed.

Lemma store64_in m p v i : 0 <= i < 8 -> store64 m p v (p + i) = getz (le_enc 8 v) i.
Proof.
  intros. unfold store64. replace (p + i - p) with i by lia.
  destruct (_ && _) eqn:E; [done|lia].
Qed.

Lemma load64_store64 m p v : 0 <= v < 2 ^ 64 -> load64 (store64 m p v) p = v.
Proof.
  intros Hv. transitivity (le_dec (le_enc 8 v)).
  - unfold load64. f_equal. cbn [fmap list_fmap]. by rewrite !store64_in by lia.
  - rewrite le_dec_enc. by rewrite Z.mod_small.
Qed.

Lemma pages_disjoint p q :
  p mod PGSIZE = 0 -> q mod PGSIZE = 0 -> p <> q ->
  p + PGSIZE <= q \/ q + PGSIZE <= p.
Proof. unfold PGSIZE. intros. dlia. Qed.

Lemma chain_frame m m' l : forall p,
  (forall q a, q ∈ l -> q <= a < q + 8 -> m a = m' a) ->
  chain m p l -> chain m' p l.
Proof.
  induction l as [|q l IH]; intros p Hm Hc; cbn [chain] in *; [done|].
  destruct Hc as [-> Hc]. split; [done|].
  rewrite <-(load64_ext m m' q); [|intros a Ha; apply (Hm q); [left|done]].
  apply IH; [|done]. intros q' a Hq. apply Hm. by right.
Qed.

Lemma chain_head_range m p l :
  chain m p l -> Forall page_ok l -> 0 <= p < 2 ^ 64.
Proof.
  destruct l as [|q l]; cbn; [lia|]. intros [-> _].
  inversion 1 as [|?? [_ Hr]]. lia.
Qed.

Lemma chain_outside m f q l p :
  p mod PGSIZE = 0 -> p ∉ l -> Forall page_ok l ->
  (forall a, in_page p a = false -> f a = m a) ->
  chain m q l -> chain f q l.
Proof.
  intros Hp Hni Hok Hf. apply chain_frame. intros r a Hr Ha.
  rewrite Hf; [done|]. rewrite Forall_forall in Hok.
  destruct (Hok r Hr) as [Hmod _].
  assert (p <> r) by (intros ->; contradiction).
  destruct (pages_disjoint p r) as [?|?]; try done; unfold in_page, PGSIZE in *; lia.
Qed.

Lemma memset_page p c m a :
  memset p c (Z.to_nat PGSIZE) m a = if in_page p a then u8 c else m a.
Proof.
  unfold memset. rewrite memset_loop_spec. unfold in_page, PGSIZE.
  replace (p + 0) with p by lia. by rewrite Z2Nat.id by lia.
Qed.

Lemma kfree_ok s l pa :
  kinv s l -> page_ok pa -> pa ∉ l ->
  exists s', kfree pa s = Ok (tt, s') /\ kinv s' (pa :: l) /\
    forall a, in_page pa a = false -> km_mem s' a = km_mem s a.
Proof.
  intros (Hc & Hnd & Hok) [Hmod Hr] Hni. unfold kfree.
  assert (negb (pa mod PGSIZE =? 0) || (pa <? kend) || (pa >=? PHYSTOP) = false) as ->
    by (rewrite Hmod; lia).
  assert (forall a, in_page pa a = false ->
    store64 (memset pa 1 (Z.to_nat PGSIZE) (km_mem s)) pa (km_freelist s) a = km_mem s a)
    as Hout.
  { intros a Ha. unfold store64.
    destruct (_ && _) eqn:E; [unfold in_page, PGSIZE in Ha; lia|].
    by rewrite memset_page, Ha. }
  eexists. split; [reflexivity|]. split; [|done]. split; [|split].
  - cbn [chain km_mem km_freelist]. split; [done|]. rewrite load64_store64 by eauto using chain_head_range.
    by apply (chain_outside (km_mem s) _ _ _ pa).
  - by constructor.
  - by constructor.
Qed.

Lemma kalloc_ok s l :
  kinv s l ->
  match l with
  | [] => kalloc s = Ok (0, s)
  | p :: l' => exists s', kalloc s = Ok (p, s') /\ kinv s' l' /\
      forall a, km_mem s' a = if in_page p a then 5 else km_mem s a
  end.
Proof.
  intros (Hc & Hnd & Hok). unfold kalloc. destruct l as [|p l]; cbn [chain] in Hc.
  - destruct s as [m fl]; cbn in *. by rewrite Hc.
  - destruct Hc as [E Hc]. rewrite E. apply Forall_cons in Hok as [[Hm Hr] Hok].
    apply NoDup_cons in Hnd as [Hni Hnd].
    assert ((p =? 0) = false) as -> by lia.
    eexists. split; [reflexivity|]. cbn [km_mem km_freelist]. split.
    + split; [|done]. cbn [km_mem km_freelist]. apply (chain_outside (km_mem s) _ _ _ p); try done.
      intros a Ha. by rewrite memset_page, Ha.
    + intros a. by rewrite memset_page.
Qed.

(** The pages of a range, in the order [freerange] frees them. *)
Fixpoint pages (n : nat) (p : Z) : list Z :=
  match n with O => [] | S n' => p :: pages n' (p + PGSIZE) end.

Lemma freerange_loop n : forall fuel p e s l,
  (n < fuel)%nat -> p mod PGSIZE = 0 -> kend <= p -> e <= PHYSTOP ->
  Z.of_nat n = (e - p) / PGSIZE -> p <= e + PGSIZE - 1 ->
  kinv s l -> (forall q, q ∈ l -> q < p) ->
  exists s', loop fuel (freerange_body e) p s = Ok (tt, s') /\
    kinv s' (reverse (pages n p) ++ l).
Proof.
  induction n as [|n IH]; intros fuel p e s l Hf Hp Hk He Hn Hle Hinv Hlt;
    (destruct fuel as [|fuel]; [lia|]); cbn [loop]; unfold freerange_body at 1.
  - assert ((p + PGSIZE <=? e) = false) as -> by (unfold PGSIZE in *; dlia).
    cbn. eauto.
  - assert ((p + PGSIZE <=? e) = true) as -> by (unfold PGSIZE in *; dlia).
    destruct (kfree_ok s l p) as (s1 & H1 & Hi1 & _);
      [done|split; [done|unfold PGSIZE in *; dlia]|intros Hin; specialize (Hlt _ Hin); lia|].
    rewrite bind_assoc, (bind_ok _ _ _ _ _ H1), ret_bind.
    destruct (IH fuel (p + PGSIZE) e s1 (p :: l)) as (s2 & H2 & Hi2);
      unfold PGSIZE in *; try done; try dlia.
    + intros q Hq. apply elem_of_cons in Hq as [->|Hq]; [lia|].
      specialize (Hlt _ Hq). lia.
    + exists s2. split; [done|]. cbn [pages]. unfold PGSIZE.
      by rewrite reverse_cons, <-app_assoc.
Qed.

Lemma elem_of_pages n : forall p q,
  q ∈ pages n p <-> exists k, 0 <= k < Z.of_nat n /\ q = p + k * PGSIZE.
Proof.
  induction n as [|n IH]; intros p q; cbn [pages].
  - rewrite elem_of_nil. split; [done|]. intros (k & Hk & _). lia.
  - rewrite elem_of_cons, IH. split.
    + intros [->|(k & Hk & ->)]; [exists 0; lia|exists (k + 1); lia].
    + intros (k & Hk & ->). destruct (decide (k = 0)) as [->|]; [left; lia|].
      right. exists (k - 1). lia.
Qed.

Lemma pages_range p e n q :
  p mod PGSIZE = 0 -> p <= e + PGSIZE - 1 -> Z.of_nat n = (e - p) / PGSIZE ->
  q ∈ pages n p <-> q mod PGSIZE = 0 /\ p <= q /\ q + PGSIZE <= e.
Proof.
  intros Hp Hle Hn. rewrite elem_of_pages. unfold PGSIZE in *. split.
  - intros (k & Hk & ->). dlia.
  - intros (Hq & Hpq & He). exists ((q - p) / 4096). dlia.
Qed.

Lemma kinit_ok m :
  kend <= PHYSTOP ->
  exists s' l, kinit (Kmem m 0) = Ok (tt, s') /\ kinv s' l /\
    forall q, q ∈ l <-> q mod PGSIZE = 0 /\ kend <= q /\ q + PGSIZE <= PHYSTOP.
Proof.
  intros Hle. set (p := PGROUNDUP kend).
  assert (p mod PGSIZE = 0 /\ kend <= p <= kend + PGSIZE - 1) as (Hp & Hk & Hk')
    by (unfold p; rewrite PGROUNDUP_div; unfold PGSIZE; dlia).
  set (n := Z.to_nat ((PHYSTOP - p) / PGSIZE)).
  destruct (decide (p <= PHYSTOP)) as [Hp1|Hp1].
  - destruct (freerange_loop n
      (S (Z.to_nat ((PHYSTOP - kend) / PGSIZE + 1))) p PHYSTOP (Kmem m 0) [])
      as (s' & Hs & Hi); unfold PGSIZE in *; try done; try (subst n; dlia).
    { split; [done|]. split; [apply NoDup_nil_2|constructor]. }
    { intros q Hq. by apply elem_of_nil in Hq. }
    exists s', (reverse (pages n p)). rewrite app_nil_r in Hi. split_and!; [done..|].
    intros q. rewrite elem_of_reverse, (pages_range p PHYSTOP n q);
      unfold PGSIZE; try done; try (subst n; dlia).
  - exists (Kmem m 0), []. split_and!.
    + unfold kinit, freerange. cbn [loop]. unfold freerange_body at 1. fold p.
      by rewrite (proj2 (Z.leb_gt _ _)) by (unfold PGSIZE in *; lia).
    + split; [done|]. split; [apply NoDup_nil_2|constructor].
    + intros q. rewrite elem_of_nil. unfold PGSIZE in *. split; [done|]. dlia.
Qed.

(** *** Properties *)

(** Kinit hands the allocator every whole page between the end of the
    kernel and PHYSTOP, each exactly once, and nothing else. *)
Theorem kinit_frees_all m :
  kend <= PHYSTOP ->
  exists s' l, kinit (Kmem m 0) = Ok (tt, s') /\ kinv s' l /\
    forall q, q ∈ l <-> q mod PGSIZE = 0 /\ kend <= q /\ q + PGSIZE <= PHYSTOP.
Proof. apply kinit_ok. Qed.

(** On a state that represents the free list [l], kfree of a valid page
    not in [l] pushes it and touches no byte outside the page; kalloc pops
    the head, a page that is then no longer free, filled with 5s, and
    returns 0 exactly when [l] is empty; so no page is ever handed out
    twice. *)
Theorem kalloc_refines_stack s l :
  kinv s l ->
  (forall pa, page_ok pa -> pa ∉ l ->
     exists s', kfree pa s = Ok (tt, s') /\ kinv s' (pa :: l) /\
       forall a, in_page pa a = false -> km_mem s' a = km_mem s a) /\
  match l with
  | [] => kalloc s = Ok (0, s)
  | p :: l' => exists s', kalloc s = Ok (p, s') /\ kinv s' l' /\ p ∉ l' /\ p <> 0 /\
      forall a, km_mem s' a = if in_page p a then 5 else km_mem s a
  end.
Proof.
  intros Hinv. split; [intros; by apply kfree_ok|].
  pose proof (kalloc_ok s l Hinv) as Ha. destruct l as [|p l]; [done|].
  destruct Hinv as (Hc & Hnd & Hok). destruct Ha as (s' & ? & ? & ?).
  apply NoDup_cons in Hnd as [Hni _]. apply Forall_cons in Hok as [[_ Hr] _].
  exists s'. split_and!; try done. lia.
Qed.

(** kfree rejects everything that is not a page of the managed range. *)
Lemma kfree_rejects pa s : ~ page_ok pa -> kfree pa s = Fault (FPanic "kfree").
Proof.
  intros Hn. unfold kfree. destruct (_ || _) eqn:E; [done|].
  exfalso. apply Hn. unfold page_ok. lia.
Qed.

End kalloc.

(** The premises of [kinit_frees_all] hold for a small machine. *)
Lemma kinit_frees_all_witness :
  0 < 5000 /\ exists s' l, kinit 5000 20480 (Kmem (fun _ => 0) 0) = Ok (tt, s') /\
    kinv 5000 20480 s' l /\
    forall q, q ∈ l <-> q mod PGSIZE = 0 /\ 5000 <= q /\ q + PGSIZE <= 20480.
Proof.
  split; [lia|]. apply (kinit_frees_all 5000 20480); lia.
Defined.

Lemma kalloc_refines_stack_witness :
  (forall pa, page_ok 5000 20480 pa -> pa ∉ ([] : list Z) ->
     exists s', kfree 5000 20480 pa (Kmem (fun _ => 0) 0) = Ok (tt, s') /\
       kinv 5000 20480 s' [pa] /\
       forall a, in_page pa a = false -> km_mem s' a = 0) /\
  kalloc (Kmem (fun _ => 0) 0) = Ok (0, Kmem (fun _ => 0) 0).
Proof.
  apply (kalloc_refines_stack 5000 20480 ltac:(lia) ltac:(lia) (Kmem (fun _ => 0) 0) []).
  split; [reflexivity|]. split; [apply NoDup_nil_2|constructor].
Defined.
