(* ===== verification/Locks.v ===== *)
(** Locks: kernel/spinlock.c and kernel/sleeplock.c.

    The operations are run on the state of one CPU and one lock; the
    interleaving of several CPUs (respectively processes) is a step relation
    whose atomic actions are the ones the code performs atomically, and the
    mutual-exclusion properties are invariants of its reachable states. *)

From S2P Require Import Prelude.

(** *** Spin locks *)

Module Spin.

(** struct cpu's interrupt bookkeeping, with the hardware's enable flag. *)
Record cpu : Type := Cpu { c_noff : Z; c_intena : bool; c_intr : bool }.

(** struct spinlock: [cpu] is the holder, [None] for the null pointer. *)
Record spinlock : Type := Spinlock { lk_locked : bool; lk_cpu : option nat }.

Record st : Type := St { st_cpu : cpu; st_lk : spinlock }.

Definition initlock : spinlock := Spinlock false None.

Definition push_off : M st unit :=
  fun s =>
    let c := st_cpu s in
    let old := c_intr c in
    let intena := if c_noff c =? 0 then old else c_intena c in
    Ok (tt, St (Cpu (c_noff c + 1) intena false) (st_lk s)).

Definition pop_off : M st unit :=
  fun s =>
    let c := st_cpu s in
    if c_intr c then Fault (FPanic "pop_off - interruptible")
    else if c_noff c <? 1 then Fault (FPanic "pop_off")
    else
      let n := c_noff c - 1 in
      let intr := if (n =? 0) && c_intena c then true else c_intr c in
      Ok (tt, St (Cpu n (c_intena c) intr) (st_lk s)).

Definition holding_lk (id : nat) (lk : spinlock) : bool :=
  lk_locked lk && bool_decide (lk_cpu lk = Some id).

Definition holding (id : nat) : M st bool := gets (fun s => holding_lk id (st_lk s)).

(** acquire on CPU [id]: the spin on [__sync_lock_test_and_set] never ends
    when no other CPU runs, so a lock that is held is a deadlock here; the
    interleaved version is [step] below. *)
Definition acquire (id : nat) : M st unit :=
  push_off ;;;
  h <- holding id ;;
  if (h : bool) then panic "acquire"
  else fun s =>
    if lk_locked (st_lk s) then Fault FDeadlock
    else Ok (tt, St (st_cpu s) (Spinlock true (Some id))).

Definition release (id : nat) : M st unit :=
  h <- holding id ;;
  if negb h then panic "release"
  else modify (fun s => St (st_cpu s) (Spinlock false None)) ;;; pop_off.

(** *** Interleavings of several CPUs on one lock *)

(** Where a CPU is: outside, spinning in acquire, past the test-and-set but
    before [lk->cpu = mycpu()], in the critical section, and in release
    after [lk->cpu = 0] but before [__sync_lock_release]. *)
Inductive pc : Type := Outside | Spinning | Taken | Critical | Leaving.

#[export] Instance pc_eq_dec : EqDecision pc.
Proof. solve_decision. Defined.

Record mach : Type := Mach { m_lk : spinlock; m_pc : nat -> pc }.

Definition setpc (f : nat -> pc) (c : nat) (p : pc) : nat -> pc :=
  fun x => if Nat.eqb x c then p else f x.

Inductive step : mach -> mach -> Prop :=
| step_enter lk f c :
    f c = Outside -> holding_lk c lk = false ->
    step (Mach lk f) (Mach lk (setpc f c Spinning))
| step_spin lk f c :
    f c = Spinning -> lk_locked lk = true -> step (Mach lk f) (Mach lk f)
| step_take lk f c :
    f c = Spinning -> lk_locked lk = false ->
    step (Mach lk f) (Mach (Spinlock true (lk_cpu lk)) (setpc f c Taken))
| step_record lk f c :
    f c = Taken ->
    step (Mach lk f) (Mach (Spinlock (lk_locked lk) (Some c)) (setpc f c Critical))
| step_clear lk f c :
    f c = Critical -> holding_lk c lk = true ->
    step (Mach lk f) (Mach (Spinlock (lk_locked lk) None) (setpc f c Leaving))
| step_release lk f c :
    f c = Leaving ->
    step (Mach lk f) (Mach (Spinlock false (lk_cpu lk)) (setpc f c Outside)).

Definition init : mach := Mach initlock (fun _ => Outside).

Definition owns (p : pc) : bool :=
  match p with Taken | Critical | Leaving => true | _ => false end.

Definition inv (m : mach) : Prop :=
  (lk_locked (m_lk m) = false -> forall c, owns (m_pc m c) = false) /\
  (forall c d, owns (m_pc m c) = true -> owns (m_pc m d) = true -> c = d) /\
  (forall c, m_pc m c = Critical <-> lk_cpu (m_lk m) = Some c).

Lemma setpc_eq f c p : setpc f c p c = p.
Proof. unfold setpc. by rewrite Nat.eqb_refl. Qed.
Lemma setpc_ne f c p d : d <> c -> setpc f c p d = f d.
Proof. intros. unfold setpc. by rewrite (proj2 (Nat.eqb_neq _ _)). Qed.

Ltac setpc_cases c d :=
  destruct (decide (d = c)) as [->|?];
  [rewrite setpc_eq in *|rewrite setpc_ne in * by done].

Lemma inv_init : inv init.
Proof. split_and!; cbn; [done|done|]. intros c. split; discriminate. Qed.

Lemma inv_enter lk f c :
  inv (Mach lk f) -> f c = Outside -> inv (Mach lk (setpc f c Spinning)).
Proof.
  intros (H1 & H2 & H3) Hc. split_and!; cbn in *.
  - intros Hl d. setpc_cases c d; [done|by apply H1].
  - intros d e. setpc_cases c d; [done|]. setpc_cases c e; [done|]. apply H2.
  - intros d. setpc_cases c d; [|apply H3]. split; [done|].
    intros Hx. apply H3 in Hx. congruence.
Qed.

Lemma inv_take lk f c :
  inv (Mach lk f) -> f c = Spinning -> lk_locked lk = false ->
  inv (Mach (Spinlock true (lk_cpu lk)) (setpc f c Taken)).
Proof.
  intros (H1 & H2 & H3) Hc Hl. cbn in *. specialize (H1 Hl). split_and!; cbn.
  - done.
  - intros d e. setpc_cases c d; setpc_cases c e; try done; rewrite H1; done.
  - intros d. setpc_cases c d; [|apply H3]. split; [done|].
    intros Hx. apply H3 in Hx. congruence.
Qed.

Lemma inv_owner lk f c p o :
  inv (Mach lk f) -> owns (f c) = true -> owns p = true ->
  (p = Critical <-> o = Some c) -> (o = None \/ o = Some c) ->
  inv (Mach (Spinlock (lk_locked lk) o) (setpc f c p)).
Proof.
  intros (H1 & H2 & H3) Hc Hp Ho Ho'. cbn in *. split_and!; cbn.
  - intros Hl. exfalso. specialize (H1 Hl c). congruence.
  - intros d e. setpc_cases c d; setpc_cases c e; try done; intros; by apply H2.
  - intros d. setpc_cases c d; [done|]. split.
    + intros Hd. exfalso. apply n, H2; [by rewrite Hd|done].
    + intros ->. destruct Ho' as [?|?]; congruence.
Qed.

Lemma inv_release lk f c :
  inv (Mach lk f) -> f c = Leaving ->
  inv (Mach (Spinlock false (lk_cpu lk)) (setpc f c Outside)).
Proof.
  intros (H1 & H2 & H3) Hc. cbn in *.
  assert (forall d, d <> c -> owns (f d) = false) as Hd.
  { intros d Hne. destruct (owns (f d)) eqn:E; [|done].
    exfalso. apply Hne, H2; [done|by rewrite Hc]. }
  split_and!; cbn.
  - intros _ d. setpc_cases c d; [done|by apply Hd].
  - intros d e. setpc_cases c d; [done|]. rewrite Hd; done.
  - intros d. setpc_cases c d; [|apply H3]. split; [done|].
    intros Hx. apply H3 in Hx. congruence.
Qed.

Lemma inv_step m m' : inv m -> step m m' -> inv m'.
Proof.
  intros Hi Hs. destruct Hs.
  - by apply inv_enter.
  - done.
  - by apply inv_take.
  - apply inv_owner; try done; [by rewrite H|by right].
  - apply inv_owner; try done; [by rewrite H|by left].
  - by apply inv_release.
Qed.

Lemma inv_reachable m : rtc step init m -> inv m.
Proof.
  apply (rtc_ind_r inv); [apply inv_init|]. intros y z _ Hs Hy. by apply (inv_step y).
Qed.

(** *** Nesting of push_off and pop_off *)

(** Well-matched sequences of push_off ([true]) and pop_off ([false]). *)
Inductive balanced : list bool -> Prop :=
| bal_nil : balanced []
| bal_nest l : balanced l -> balanced (true :: l ++ [false])
| bal_app l1 l2 : balanced l1 -> balanced l2 -> balanced (l1 ++ l2).

Fixpoint run_ops (l : list bool) : M st unit :=
  match l with
  | [] => ret tt
  | b :: l' => (if (b : bool) then push_off else pop_off) ;;; run_ops l'
  end.

Lemma run_ops_app l1 l2 s :
  run_ops (l1 ++ l2) s = bind (run_ops l1) (fun _ => run_ops l2) s.
Proof.
  revert s. induction l1 as [|b l1 IH]; intros s; cbn [run_ops app].
  - by rewrite ret_bind.
  - rewrite bind_assoc. unfold bind at 1 2.
    destruct ((if b then push_off else pop_off) s) as [[[] s']|]; [apply IH|done].
Qed.

Definition cpu_wf (c : cpu) : Prop := 0 <= c_noff c /\ (0 < c_noff c -> c_intr c = false).

Lemma run_balanced l : balanced l -> forall c lk,
  cpu_wf c ->
  exists b, run_ops l (St c lk) = Ok (tt, St (Cpu (c_noff c) b (c_intr c)) lk) /\
    (0 < c_noff c -> b = c_intena c).
Proof.
  induction 1 as [|l _ IH|l1 l2 _ IH1 _ IH2]; intros c lk Hwf.
  - exists (c_intena c). by destruct c.
  - destruct c as [n ie i]. destruct Hwf as [Hn Hi]. cbn in Hn, Hi.
    cbn [run_ops]. erewrite bind_ok by reflexivity. rewrite run_ops_app.
    cbn [st_cpu c_noff c_intena c_intr st_lk].
    destruct (IH (Cpu (n + 1) (if n =? 0 then i else ie) false) lk) as (b & Hb & Hb');
      [split; [cbn; lia|done]|].
    rewrite (bind_ok _ _ _ _ _ Hb). cbn [c_noff c_intr] in *.
    rewrite Hb' by lia. cbn. unfold bind, pop_off. cbn.
    destruct (Z.ltb_spec (n + 1) 1); [lia|]. cbn.
    replace (n + 1 - 1) with n by lia.
    exists (if n =? 0 then i else ie).
    split; [|intros Hp; cbn in *; by rewrite (proj2 (Z.eqb_neq n 0)) by lia].
    destruct (Z.eqb_spec n 0) as [->|Hn0]; [by destruct i|].
    cbn. by rewrite Hi by lia.
  - destruct (IH1 c lk Hwf) as (b1 & H1 & Hb1). rewrite run_ops_app, (bind_ok _ _ _ _ _ H1).
    destruct (IH2 (Cpu (c_noff c) b1 (c_intr c)) lk) as (b2 & H2 & Hb2).
    { destruct Hwf. by split. }
    exists b2. split; [done|]. intros Hp. cbn in *. rewrite Hb2, Hb1; done.
Qed.

(** *** Properties *)

(** In every reachable interleaving of acquire and release on one spin
    lock, at most one CPU is between its test-and-set and its release, and
    [lk->cpu] names the CPU in the critical section. *)
Theorem spinlock_mutual_exclusion m :
  rtc step init m ->
  (forall c d, m_pc m c = Critical -> m_pc m d = Critical -> c = d) /\
  (forall c, m_pc m c = Critical -> holding_lk c (m_lk m) = true).
Proof.
  intros Hr. destruct (inv_reachable m Hr) as (H1 & H2 & H3). split.
  - intros c d Hc Hd. apply H2; [by rewrite Hc|by rewrite Hd].
  - intros c Hc. unfold holding_lk. apply andb_true_iff. split.
    + destruct (lk_locked (m_lk m)) eqn:E; [done|]. specialize (H1 eq_refl c).
      rewrite Hc in H1. done.
    + apply bool_decide_eq_true_2. by apply H3.
Qed.

Lemma spinlock_mutual_exclusion_witness :
  let m := Mach (Spinlock true (Some 1%nat))
             (setpc (setpc (setpc (fun _ => Outside) 1 Spinning) 1 Taken) 1 Critical) in
  (forall c d, m_pc m c = Critical -> m_pc m d = Critical -> c = d) /\
  (forall c, m_pc m c = Critical -> holding_lk c (m_lk m) = true).
Proof.
  apply spinlock_mutual_exclusion.
  eapply rtc_l; [apply (step_enter _ _ 1%nat); reflexivity|].
  eapply rtc_l; [apply (step_take _ _ 1%nat); reflexivity|].
  eapply rtc_l; [apply (step_record _ _ 1%nat); reflexivity|].
  apply rtc_refl.
Defined.

(** Push_off and pop_off nest: from any consistent CPU state every
    well-matched sequence of them runs without a panic and restores the
    nesting depth and the interrupt-enable flag. *)
Theorem push_pop_balanced l c lk :
  balanced l -> cpu_wf c ->
  exists b, run_ops l (St c lk) = Ok (tt, St (Cpu (c_noff c) b (c_intr c)) lk).
Proof.
  intros Hl Hc. destruct (run_balanced l Hl c lk Hc) as (b & Hb & _). eauto.
Qed.

Lemma push_pop_balanced_witness :
  exists b, run_ops [true; true; false; false] (St (Cpu 0 false true) initlock) =
    Ok (tt, St (Cpu 0 b true) initlock).
Proof.
  apply (push_pop_balanced [true; true; false; false] (Cpu 0 false true)).
  - apply (bal_nest [true; false]). apply (bal_nest []). apply bal_nil.
  - split; [cbn; lia|cbn; lia].
Defined.

End Spin.

(** *** Sleep locks *)

Module Sleep.

(** struct sleeplock; [pid] 0 is no process. *)
Record sleeplock : Type := Sleeplock { sl_locked : bool; sl_pid : Z }.

Definition initsleeplock : sleeplock := Sleeplock false 0.

(** [mypid] is [myproc()->pid].  The sleep on a held lock is never ended when
    no other process runs. *)
Definition acquiresleep (mypid : Z) : M sleeplock unit :=
  fun lk => if sl_locked lk then Fault FDeadlock else Ok (tt, Sleeplock true mypid).

Definition releasesleep : M sleeplock unit :=
  fun _ => Ok (tt, Sleeplock false 0).

Definition holdingsleep (mypid : Z) : M sleeplock bool :=
  gets (fun lk => sl_locked lk && (sl_pid lk =? mypid)).

(** Interleavings: a process that finds the lock held sleeps on it, and
    releasesleep wakes every sleeper, which then retries the loop test. *)
Inductive pstate : Type := Away | Trying | Asleep | Holds.

#[export] Instance pstate_eq_dec : EqDecision pstate.
Proof. solve_decision. Defined.

Record sys : Type := Sys { s_lk : sleeplock; s_ps : Z -> pstate }.

Definition setps (f : Z -> pstate) (p : Z) (x : pstate) : Z -> pstate :=
  fun q => if q =? p then x else f q.

Definition wake_all (f : Z -> pstate) : Z -> pstate :=
  fun q => match f q with Asleep => Trying | x => x end.

Inductive sstep : sys -> sys -> Prop :=
| s_call lk f p :
    f p = Away -> sstep (Sys lk f) (Sys lk (setps f p Trying))
| s_sleep lk f p :
    f p = Trying -> sl_locked lk = true ->
    sstep (Sys lk f) (Sys lk (setps f p Asleep))
| s_lock lk f p lk' :
    f p = Trying -> acquiresleep p lk = Ok (tt, lk') ->
    sstep (Sys lk f) (Sys lk' (setps f p Holds))
| s_unlock lk f p lk' :
    f p = Holds -> releasesleep lk = Ok (tt, lk') ->
    sstep (Sys lk f) (Sys lk' (setps (wake_all f) p Away)).

Definition sinit : sys := Sys initsleeplock (fun _ => Away).

Definition sinv (s : sys) : Prop :=
  (forall p, s_ps s p = Holds <-> sl_locked (s_lk s) = true /\ sl_pid (s_lk s) = p) /\
  (forall p, s_ps s p = Asleep -> sl_locked (s_lk s) = true).

Lemma setps_eq f c p : setps f c p c = p.
Proof. unfold setps. by rewrite Z.eqb_refl. Qed.
Lemma setps_ne f c p d : d <> c -> setps f c p d = f d.
Proof. intros. unfold setps. by rewrite (proj2 (Z.eqb_neq _ _)). Qed.

Ltac setps_cases p q :=
  destruct (decide (q = p)) as [->|?];
  [rewrite setps_eq in *|rewrite setps_ne in * by done].

Lemma wake_all_holds f q : wake_all f q = Holds <-> f q = Holds.
Proof. unfold wake_all. destruct (f q); split; congruence. Qed.
Lemma wake_all_asleep f q : wake_all f q <> Asleep.
Proof. unfold wake_all. destruct (f q); congruence. Qed.

Lemma sinv_step s s' : sinv s -> sstep s s' -> sinv s'.
Proof.
  intros [H1 H2] Hs. destruct Hs as [lk f p Hp|lk f p Hp Hl|lk f p lk' Hp Ha|lk f p lk' Hp Hr];
    cbn in *.
  - split; cbn; intros q; setps_cases p q; [|apply H1|done|apply H2].
    rewrite <-H1. split; [done|congruence].
  - split; cbn; intros q; setps_cases p q; [|apply H1|done|apply H2].
    rewrite <-H1. split; [done|congruence].
  - unfold acquiresleep in Ha. destruct (sl_locked lk) eqn:E; [done|].
    injection Ha as <-. split; cbn; intros q; setps_cases p q; try done.
    split; [|intros [_ ?]; congruence]. intros Hq. apply H1 in Hq as [? _]. done.
  - injection Hr as <-. split; cbn; intros q; setps_cases p q.
    + split; [done|intros [? _]; done].
    + rewrite wake_all_holds, H1. apply H1 in Hp as [_ Hp].
      split; [intros [_ ?]; congruence|intros [? _]; done].
    + done.
    + intros Hq. by apply wake_all_asleep in Hq.
Qed.

Lemma sinv_reachable s : rtc sstep sinit s -> sinv s.
Proof.
  apply (rtc_ind_r sinv); [|intros y z _ Hs Hy; by apply (sinv_step y)].
  split; cbn; intros p; [split; [done|intros [? _]; done]|done].
Qed.

(** In every reachable interleaving of acquiresleep and releasesleep, two
    processes never hold the sleep lock at once, holdingsleep answers for
    exactly the holder, and no wakeup is lost: a process is asleep on the
    lock only while the lock is held. *)
Theorem sleeplock_mutual_exclusion s :
  rtc sstep sinit s ->
  (forall p q, s_ps s p = Holds -> s_ps s q = Holds -> p = q) /\
  (forall p, holdingsleep p (s_lk s) = Ok (true, s_lk s) <-> s_ps s p = Holds) /\
  (forall p, s_ps s p = Asleep -> sl_locked (s_lk s) = true).
Proof.
  intros Hr. destruct (sinv_reachable s Hr) as [H1 H2]. split_and!; [| |done].
  - intros p q Hp Hq. apply H1 in Hp as [_ <-]. apply H1 in Hq as [_ <-]. done.
  - intros p. rewrite H1. unfold holdingsleep, gets.
    destruct (s_lk s) as [l pid]; cbn. destruct l; cbn.
    + destruct (Z.eqb_spec pid p); (split; [intros; simplify_eq; by split|]);
        intros [_ ?]; congruence.
    + split; [congruence|]. intros [? _]. done.
Qed.

Lemma sleeplock_mutual_exclusion_witness :
  let s := Sys (Sleeplock true 7) (setps (setps (fun _ => Away) 7 Trying) 7 Holds) in
  (forall p q, s_ps s p = Holds -> s_ps s q = Holds -> p = q) /\
  (forall p, holdingsleep p (s_lk s) = Ok (true, s_lk s) <-> s_ps s p = Holds) /\
  (forall p, s_ps s p = Asleep -> sl_locked (s_lk s) = true).
Proof.
  apply sleeplock_mutual_exclusion.
  eapply rtc_l; [apply (s_call _ _ 7); reflexivity|].
  eapply rtc_l; [eapply (s_lock _ _ 7); reflexivity|].
  apply rtc_refl.
Defined.

End Sleep.
