(* ===== verification/Arch.v ===== *)
(** Arch: what the kernel's memory management takes from the hardware
    abstraction layer: the page-table format of hal/riscv and of
    hal/loongarch, as a class with the laws vm.c relies on and an instance
    for each machine. *)

From S2P Require Import Prelude CString Kalloc.

(** Bits of a 64-bit word. *)
Definition bits (x mask : Z) : bool := negb (Z.land x mask =? 0).

Class Arch : Type := {
  PT_LEVELS : nat;
  MAXVA : Z;
  TRAMPOLINE : Z;
  TRAPFRAME : Z;
  KSTACK : Z -> Z;
  PTE_V : Z; PTE_R : Z; PTE_W : Z; PTE_X : Z; PTE_U : Z;
  PTE_V_CACHE : Z;
  PA2PTE : Z -> Z;
  PTE2PA : Z -> Z;
  PTE_FLAGS : Z -> Z;
  hal_pte_encode_perm : Z -> Z;
  hal_pte_is_leaf : Z -> bool;
  hal_pagetable_va_valid : Z -> bool
}.

(** [PX(level, va)] *)
Definition PX (level : nat) (va : Z) : Z := Z.land (Z.shiftr va (12 + 9 * Z.of_nat level)) 511.

(** [USER_TOP]: one byte past the largest user address. *)
Definition USER_TOP `{Arch} : Z := TRAPFRAME.

(** The entry mappages stores. *)
Definition leaf_pte `{Arch} (pa perm : Z) : Z :=
  Z.lor (Z.lor (PA2PTE pa) (hal_pte_encode_perm perm)) PTE_V_CACHE.
(** The entry walk stores for a page-table page. *)
Definition dir_pte `{Arch} (pa : Z) : Z := Z.lor (PA2PTE pa) PTE_V.

(** A page-aligned physical address that both formats can hold. *)
Definition frame (pa : Z) : Prop := pa mod PGSIZE = 0 /\ 0 < pa < 2 ^ 56.

(** The permissions the kernel passes: a combination of R, W, X and U. *)
Definition mk_perm `{Arch} (r w x u : bool) : Z :=
  Z.lor (Z.lor (if r then PTE_R else 0) (if w then PTE_W else 0))
        (Z.lor (if x then PTE_X else 0) (if u then PTE_U else 0)).

Class ArchOk `{Arch} : Prop := {
  levels_pos : (0 < PT_LEVELS)%nat;
  levels_max : (PT_LEVELS <= 5)%nat;
  maxva_pos : 0 < MAXVA;
  maxva_fits : MAXVA <= 2 ^ (12 + 9 * Z.of_nat PT_LEVELS);
  maxva_int : MAXVA <= 2 ^ 42;
  maxva_page : MAXVA mod PGSIZE = 0;
  trapframe_top : TRAPFRAME mod PGSIZE = 0 /\ 0 < TRAPFRAME <= MAXVA;
  va_valid_low : forall va, 0 <= va < MAXVA -> hal_pagetable_va_valid va = true;
  leaf_range : forall pa r w x u, frame pa -> 0 <= leaf_pte pa (mk_perm r w x u) < 2 ^ 64;
  leaf_pa : forall pa r w x u, frame pa -> PTE2PA (leaf_pte pa (mk_perm r w x u)) = pa;
  leaf_valid : forall pa r w x u, frame pa -> bits (leaf_pte pa (mk_perm r w x u)) PTE_V = true;
  leaf_w : forall pa r w x u, frame pa -> bits (leaf_pte pa (mk_perm r w x u)) PTE_W = w;
  leaf_u : forall pa r w x u, frame pa -> bits (leaf_pte pa (mk_perm r w x u)) PTE_U = u;
  leaf_copy : forall pa pa' r w x u, frame pa -> frame pa' ->
    leaf_pte pa' (PTE_FLAGS (leaf_pte pa (mk_perm r w x u))) = leaf_pte pa' (mk_perm r w x u);
  leaf_clear_u : forall pa r w x u, frame pa ->
    Z.ldiff (leaf_pte pa (mk_perm r w x u)) PTE_U = leaf_pte pa (mk_perm r w x false);
  leaf_flags : forall pa r w x u, frame pa ->
    u32 (PTE_FLAGS (leaf_pte pa (mk_perm r w x u))) = PTE_FLAGS (leaf_pte pa (mk_perm r w x u));
  leaf_leaf : forall pa r w x u, frame pa -> r || w || x = true ->
    hal_pte_is_leaf (leaf_pte pa (mk_perm r w x u)) = true;
  dir_range : forall pa, frame pa -> 0 <= dir_pte pa < 2 ^ 64;
  dir_pa : forall pa, frame pa -> PTE2PA (dir_pte pa) = pa;
  dir_valid : forall pa, frame pa -> bits (dir_pte pa) PTE_V = true;
  dir_not_leaf : forall pa, frame pa -> hal_pte_is_leaf (dir_pte pa) = false;
  zero_invalid : bits 0 PTE_V = false
}.

(** *** RISC-V Sv39 *)

Module Riscv.

Definition MAXVA : Z := 2 ^ 38.
Definition TRAMPOLINE : Z := MAXVA - PGSIZE.
Definition KSTACK (p : Z) : Z := TRAMPOLINE - (p + 1) * 3 * PGSIZE.
Definition hal_pte_is_leaf (pte : Z) : bool := bits pte (Z.lor (Z.lor 2 4) 8).
Definition PA2PTE (pa : Z) : Z := u64 (Z.shiftl (Z.shiftr pa 12) 10).
Definition PTE2PA (pte : Z) : Z := u64 (Z.shiftl (Z.shiftr pte 10) 12).
Definition hal_pagetable_va_valid (va : Z) : bool := va <? MAXVA.

Definition arch : Arch := {|
  Arch.PT_LEVELS := 3;
  Arch.MAXVA := MAXVA;
  Arch.TRAMPOLINE := TRAMPOLINE;
  Arch.TRAPFRAME := TRAMPOLINE - PGSIZE;
  Arch.KSTACK := KSTACK;
  Arch.PTE_V := 1; Arch.PTE_R := 2; Arch.PTE_W := 4; Arch.PTE_X := 8; Arch.PTE_U := 16;
  Arch.PTE_V_CACHE := 1;
  Arch.PA2PTE := PA2PTE;
  Arch.PTE2PA := PTE2PA;
  Arch.PTE_FLAGS := fun pte => Z.land pte 1023;
  Arch.hal_pte_encode_perm := fun perm => perm;
  Arch.hal_pte_is_leaf := hal_pte_is_leaf;
  Arch.hal_pagetable_va_valid := hal_pagetable_va_valid
|}.

End Riscv.

(** *** LoongArch *)

Module Loongarch.

Definition PTE_W : Z := Z.lor (2 ^ 1) (2 ^ 8).       (* PTE_D | PTE_HW_W *)
Definition PTE_U : Z := 3 * 2 ^ 2.                   (* PLV 3 *)
Definition PTE_G : Z := 2 ^ 6.
Definition PTE_P : Z := 2 ^ 7.
Definition PTE_R : Z := 2 ^ 9.
Definition PTE_X : Z := 2 ^ 10.
Definition PTE_NR : Z := 2 ^ 61.
Definition PTE_NX : Z := 2 ^ 62.
Definition MAXVA : Z := 2 ^ 38.
Definition KSTACK_TOP : Z := 2 ^ 64 - PGSIZE.
Definition KSTACK_REGION_BOTTOM : Z := KSTACK_TOP - 64 * 3 * PGSIZE.
Definition KSTACK (p : Z) : Z := KSTACK_TOP - (p * 3 + 2) * PGSIZE.
Definition PA2PTE (pa : Z) : Z := Z.land pa (2 ^ 56 - 2 ^ 12).
Definition PTE2PA (pte : Z) : Z := Z.land pte (2 ^ 56 - 2 ^ 12).

Definition hal_pte_encode_perm (perm : Z) : Z :=
  let native := Z.land perm (Z.lor (Z.lor PTE_W PTE_U) PTE_G) in
  let native := if bits perm PTE_R then native else Z.lor native PTE_NR in
  if bits perm PTE_X then native else Z.lor native PTE_NX.

Definition hal_pte_decode_perm (pte : Z) : Z :=
  let perm := Z.land pte (Z.lor (Z.lor PTE_W PTE_U) PTE_G) in
  let perm := if bits pte PTE_NR then perm else Z.lor perm PTE_R in
  if bits pte PTE_NX then perm else Z.lor perm PTE_X.

Definition hal_pte_is_leaf (pte : Z) : bool := bits pte PTE_P.
Definition hal_pagetable_va_valid (va : Z) : bool :=
  (va <? MAXVA) || ((va >=? KSTACK_REGION_BOTTOM) && (va <? KSTACK_TOP)).

Definition arch : Arch := {|
  Arch.PT_LEVELS := 4;
  Arch.MAXVA := MAXVA;
  Arch.TRAMPOLINE := 469798912;                      (* 0x1C009000 *)
  Arch.TRAPFRAME := MAXVA - 2 * PGSIZE;
  Arch.KSTACK := KSTACK;
  Arch.PTE_V := 1; Arch.PTE_R := PTE_R; Arch.PTE_W := PTE_W; Arch.PTE_X := PTE_X;
  Arch.PTE_U := PTE_U;
  Arch.PTE_V_CACHE := Z.lor (Z.lor 1 (2 ^ 4)) PTE_P;
  Arch.PA2PTE := PA2PTE;
  Arch.PTE2PA := PTE2PA;
  Arch.PTE_FLAGS := hal_pte_decode_perm;
  Arch.hal_pte_encode_perm := hal_pte_encode_perm;
  Arch.hal_pte_is_leaf := hal_pte_is_leaf;
  Arch.hal_pagetable_va_valid := hal_pagetable_va_valid
|}.

End Loongarch.

(** *** The laws *)

Lemma land_low k n m : 0 <= n -> 0 <= m < 2 ^ n -> Z.land (k * 2 ^ n) m = 0.
Proof.
  intros Hn Hm. replace m with (Z.land (Z.ones n) m).
  - rewrite Z.land_assoc, Z.land_ones, Z.mod_mul by lia. done.
  - rewrite Z.land_comm, Z.land_ones, Z.mod_small; lia.
Qed.

Lemma land_high x n m : 0 <= n -> 0 <= x < 2 ^ n -> Z.land (Z.ones n) m = 0 -> Z.land x m = 0.
Proof.
  intros Hn Hx Hm. replace x with (Z.land x (Z.ones n)).
  - by rewrite <-Z.land_assoc, Hm, Z.land_0_r.
  - rewrite Z.land_ones, Z.mod_small; lia.
Qed.

Lemma land_frame k : 0 <= k < 2 ^ 44 -> Z.land (k * 2 ^ 12) (2 ^ 56 - 2 ^ 12) = k * 2 ^ 12.
Proof.
  intros Hk. change (2 ^ 56 - 2 ^ 12) with (Z.land (Z.ones 56) (Z.lnot (Z.ones 12))).
  rewrite Z.land_assoc, (Z.land_ones _ 56), Z.mod_small by lia.
  rewrite <-Z.ldiff_land, Z.ldiff_ones_r, Z.shiftr_div_pow2, Z.shiftl_mul_pow2 by lia.
  by rewrite Z.div_mul by lia.
Qed.

Lemma lor_add x n m : 0 <= n -> 0 <= m < 2 ^ n -> Z.lor (x * 2 ^ n) m = x * 2 ^ n + m.
Proof. intros Hn Hm. rewrite <-Z.lxor_lor, <-Z.add_nocarry_lxor; try done; by apply land_low. Qed.

Lemma bits_lor x y m : Z.land x m = 0 -> bits (Z.lor x y) m = bits y m.
Proof. intros Hx. unfold bits. by rewrite Z.land_lor_distr_l, Hx. Qed.

Lemma ldiff_lor x y m : Z.land x m = 0 -> Z.ldiff (Z.lor x y) m = Z.lor x (Z.ldiff y m).
Proof.
  intros Hx. rewrite !Z.ldiff_land, Z.land_lor_distr_l. f_equal.
  apply Z.bits_inj'. intros n Hn. rewrite Z.land_spec, Z.lnot_spec by done.
  assert (Z.testbit (Z.land x m) n = false) as Hb by (by rewrite Hx, Z.bits_0).
  rewrite Z.land_spec in Hb. by destruct (Z.testbit x n), (Z.testbit m n).
Qed.

Lemma frame_mul pa : frame pa -> exists k, 0 < k < 2 ^ 44 /\ pa = k * 2 ^ 12.
Proof. intros [Hm Hr]. exists (pa / PGSIZE). unfold PGSIZE in *. dlia. Qed.

(** RISC-V entries are the frame number above ten flag bits. *)
Lemma riscv_pa2pte k : 0 < k < 2 ^ 44 -> Riscv.PA2PTE (k * 2 ^ 12) = k * 2 ^ 10.
Proof.
  intros Hk. unfold Riscv.PA2PTE. rewrite Z.shiftr_div_pow2, Z.shiftl_mul_pow2, Z.div_mul by lia.
  unfold u64. apply Z.mod_small. lia.
Qed.

Lemma riscv_pte2pa k f : 0 < k < 2 ^ 44 -> 0 <= f < 2 ^ 10 ->
  Riscv.PTE2PA (Z.lor (k * 2 ^ 10) f) = k * 2 ^ 12.
Proof.
  intros Hk Hf. unfold Riscv.PTE2PA. rewrite lor_add by lia.
  rewrite Z.shiftr_div_pow2, Z.shiftl_mul_pow2 by lia.
  replace ((k * 2 ^ 10 + f) / 2 ^ 10) with k by dlia. unfold u64. apply Z.mod_small. lia.
Qed.

(** Open an entry for a frame and bring it to the frame number over flags. *)
Ltac riscv_entry :=
  repeat match goal with |- forall pa : Z, _ => intros pa | |- bool -> _ => intros ? end;
  repeat match goal with
         | |- frame _ -> _ => let k := fresh "k" in let Hk := fresh "Hk" in
             intros (k & Hk & ->)%frame_mul
         end;
  intros; unfold leaf_pte, dir_pte;
  cbn [PA2PTE PTE2PA PTE_FLAGS PTE_V PTE_R PTE_W PTE_X PTE_U PTE_V_CACHE hal_pte_encode_perm
       hal_pte_is_leaf Riscv.arch];
  rewrite ?riscv_pa2pte by done; rewrite <-?Z.lor_assoc.

Ltac flag_cases := repeat match goal with b : bool |- _ => destruct b end.

#[export] Instance riscv_ok : @ArchOk Riscv.arch.
Proof.
  split.
  - cbn. lia.
  - cbn. lia.
  - done.
  - done.
  - done.
  - done.
  - done.
  - intros va Hva. cbn in *. unfold Riscv.hal_pagetable_va_valid. lia.
  - riscv_entry. match goal with |- context [Z.lor (k * _) ?f] => assert (0 <= f < 2 ^ 10) by (by flag_cases) end.
    rewrite lor_add; lia.
  - riscv_entry. apply riscv_pte2pa; [done|]. by flag_cases.
  - riscv_entry. rewrite bits_lor by (apply land_low; lia). by flag_cases.
  - riscv_entry. rewrite bits_lor by (apply land_low; lia). by flag_cases.
  - riscv_entry. rewrite bits_lor by (apply land_low; lia). by flag_cases.
  - riscv_entry. rewrite Z.land_lor_distr_l, land_low by lia. by flag_cases.
  - riscv_entry. rewrite ldiff_lor by (apply land_low; lia). by flag_cases.
  - riscv_entry. rewrite Z.land_lor_distr_l, land_low by lia. by flag_cases.
  - riscv_entry. unfold Riscv.hal_pte_is_leaf. rewrite bits_lor by (apply land_low; [done|by split]). by flag_cases.
  - riscv_entry. rewrite lor_add; lia.
  - riscv_entry. by apply riscv_pte2pa.
  - riscv_entry. by rewrite bits_lor by (apply land_low; lia).
  - riscv_entry. unfold Riscv.hal_pte_is_leaf. by rewrite bits_lor by (apply land_low; [done|by split]).
  - done.
Qed.

(** LoongArch entries keep the frame address in place, with flags in the low
    twelve and the top eight bits. *)
Lemma loongarch_pa2pte k : 0 < k < 2 ^ 44 -> Loongarch.PA2PTE (k * 2 ^ 12) = k * 2 ^ 12.
Proof. intros Hk. apply land_frame. lia. Qed.

Lemma loongarch_pte2pa k f : 0 < k < 2 ^ 44 -> Z.land f (2 ^ 56 - 2 ^ 12) = 0 ->
  Loongarch.PTE2PA (Z.lor (k * 2 ^ 12) f) = k * 2 ^ 12.
Proof.
  intros Hk Hf. unfold Loongarch.PTE2PA. rewrite Z.land_lor_distr_l, Hf, Z.lor_0_r.
  apply land_frame. lia.
Qed.

(** No flag is in the frame field. *)
Lemma land_flags k f : 0 < k < 2 ^ 44 -> Z.land (2 ^ 56 - 2 ^ 12) f = 0 -> Z.land (k * 2 ^ 12) f = 0.
Proof.
  intros Hk Hf. rewrite <-(land_frame k) by lia. by rewrite <-Z.land_assoc, Hf, Z.land_0_r.
Qed.

Lemma lor_flags_range k f : 0 < k < 2 ^ 44 -> 0 <= f < 2 ^ 64 -> 0 <= Z.lor (k * 2 ^ 12) f < 2 ^ 64.
Proof.
  intros Hk Hf. split; [apply Z.lor_nonneg; lia|].
  assert (Z.log2 (Z.lor (k * 2 ^ 12) f) < 64).
  { rewrite Z.log2_lor by lia. apply Z.max_lub_lt; [apply Z.log2_lt_pow2; lia|].
    destruct (decide (f = 0)) as [->|]; [done|]. apply Z.log2_lt_pow2; lia. }
  apply Z.log2_lt_pow2; [|done].
  assert (0 <= Z.lor (k * 2 ^ 12) f) by (apply Z.lor_nonneg; lia).
  destruct (decide (Z.lor (k * 2 ^ 12) f = 0)) as [E|]; [|lia].
  apply Z.lor_eq_0_iff in E. lia.
Qed.

Ltac loongarch_entry :=
  repeat match goal with |- forall pa : Z, _ => intros pa | |- bool -> _ => intros ? end;
  repeat match goal with
         | |- frame _ -> _ => let k := fresh "k" in let Hk := fresh "Hk" in
             intros (k & Hk & ->)%frame_mul
         end;
  intros; unfold leaf_pte, dir_pte;
  cbn [PA2PTE PTE2PA PTE_FLAGS PTE_V PTE_R PTE_W PTE_X PTE_U PTE_V_CACHE hal_pte_encode_perm
       hal_pte_is_leaf Loongarch.arch];
  rewrite ?loongarch_pa2pte by done; rewrite <-?Z.lor_assoc.

(** The permissions recovered from an entry are those it was made with. *)
Lemma loongarch_decode k r w x u : 0 < k < 2 ^ 44 ->
  Loongarch.hal_pte_decode_perm
    (Z.lor (k * 2 ^ 12) (Z.lor (Loongarch.hal_pte_encode_perm (@mk_perm Loongarch.arch r w x u))
                               (Z.lor (Z.lor 1 (2 ^ 4)) Loongarch.PTE_P))) =
  @mk_perm Loongarch.arch r w x u.
Proof.
  intros Hk. unfold Loongarch.hal_pte_decode_perm.
  rewrite (bits_lor (k * 2 ^ 12) _ Loongarch.PTE_NX), (bits_lor (k * 2 ^ 12) _ Loongarch.PTE_NR)
    by (by apply land_flags).
  rewrite Z.land_lor_distr_l, (land_flags k) by done. by destruct r, w, x, u.
Qed.

#[export] Instance loongarch_ok : @ArchOk Loongarch.arch.
Proof.
  split.
  - cbn. lia.
  - cbn. lia.
  - done.
  - done.
  - done.
  - done.
  - done.
  - intros va Hva. cbn in *. unfold Loongarch.hal_pagetable_va_valid. lia.
  - loongarch_entry. apply lor_flags_range; [done|]. by flag_cases.
  - loongarch_entry. apply loongarch_pte2pa; [done|]. by flag_cases.
  - loongarch_entry. rewrite bits_lor by (by apply land_flags). by flag_cases.
  - loongarch_entry. rewrite bits_lor by (by apply land_flags). by flag_cases.
  - loongarch_entry. rewrite bits_lor by (by apply land_flags). by flag_cases.
  - loongarch_entry. by rewrite loongarch_decode.
  - loongarch_entry. rewrite ldiff_lor by (by apply land_flags). by flag_cases.
  - loongarch_entry. rewrite loongarch_decode by done. by flag_cases.
  - loongarch_entry. unfold Loongarch.hal_pte_is_leaf. rewrite bits_lor by (by apply land_flags). by flag_cases.
  - loongarch_entry. by apply lor_flags_range.
  - loongarch_entry. by apply loongarch_pte2pa.
  - loongarch_entry. by rewrite bits_lor by (by apply land_flags).
  - loongarch_entry. unfold Loongarch.hal_pte_is_leaf. by rewrite bits_lor by (by apply land_flags).
  - done.
Qed.
