(* ===== verification/Vm.v ===== *)
(** Vm: kernel/vm.c, page tables and user memory, over the physical memory and
    free list of Kalloc and the page-table format of Arch.

    A page table is the physical address of its root page; an entry is loaded
    and stored through the byte memory, so a wrong walk would be visible as a
    corrupted table, user page or free list.  [walk] returns the address of an
    entry, or 0. *)

From S2P Require Import Prelude CString Kalloc Arch.

(** The fields of the current process that vmfault reads. *)
Record uproc : Type := Uproc { up_pagetable : Z; up_sz : Z }.

Section Vm.
  Context `{Arch} (kend PHYSTOP : Z).
  Local Abbreviation MV := (M kmem).

Definition set_mem (m : memory) (s : kmem) : kmem := Kmem m (km_freelist s).
Definition ld64 (a : Z) : MV Z := gets (fun s => load64 (km_mem s) a).
Definition st64 (a v : Z) : MV unit := modify (fun s => set_mem (store64 (km_mem s) a v) s).
(** [memset(pa, 0, PGSIZE)] *)
Definition zero_page (pa : Z) : MV unit :=
  modify (fun s => set_mem (memset pa 0 (Z.to_nat PGSIZE) (km_mem s)) s).
Definition move (dst src : Z) (n : nat) : MV unit :=
  modify (fun s => set_mem (memmove dst src n (km_mem s)) s).

(** The address of the entry for [va] in a table of the given level. *)
Definition pte_addr (level : nat) (pagetable va : Z) : Z := pagetable + 8 * PX level va.

(** The loop of walk, from [level] down to 1. *)
Fixpoint walk_from (level : nat) (pagetable va : Z) (alloc : bool) : MV Z :=
  match level with
  | O => ret (pte_addr 0 pagetable va)
  | S l =>
      pte <- ld64 (pte_addr level pagetable va) ;;
      if bits pte PTE_V then walk_from l (PTE2PA pte) va alloc
      else if negb alloc then ret 0
      else
        pt <- kalloc ;;
        if pt =? 0 then ret 0
        else
          zero_page pt ;;;
          st64 (pte_addr level pagetable va) (dir_pte pt) ;;;
          walk_from l pt va alloc
  end.

Definition walk (pagetable va : Z) (alloc : bool) : MV Z :=
  if negb (hal_pagetable_va_valid va) then panic "walk"
  else walk_from (PT_LEVELS - 1) pagetable va alloc.

Definition walkaddr (pagetable va : Z) : MV Z :=
  if va >=? MAXVA then ret 0
  else
    pte <- walk pagetable va false ;;
    if pte =? 0 then ret 0
    else
      v <- ld64 pte ;;
      if negb (bits v PTE_V) then ret 0
      else if negb (bits v PTE_U) then ret 0
      else ret (PTE2PA v).

(** Locals of mappages' loop: a and pa. *)
Definition mappages_body (pagetable last perm : Z) (x : Z * Z) : MV (Z * Z + Z) :=
  let '(a, pa) := x in
  pte <- walk pagetable a true ;;
  if pte =? 0 then ret (inr (-1))
  else
    v <- ld64 pte ;;
    if bits v PTE_V then panic "mappages: remap"
    else
      st64 pte (leaf_pte pa perm) ;;;
      if a =? last then ret (inr 0) else ret (inl (u64 (a + PGSIZE), u64 (pa + PGSIZE))).

Definition mappages (pagetable va size pa perm : Z) : MV Z :=
  if negb (va mod PGSIZE =? 0) then panic "mappages: va not aligned"
  else if negb (size mod PGSIZE =? 0) then panic "mappages: size not aligned"
  else if size =? 0 then panic "mappages: size"
  else loop (Z.to_nat (size / PGSIZE)) (mappages_body pagetable (u64 (va + size - PGSIZE)) perm)
            (va, pa).

Definition kvmmap (kpgtbl va pa sz perm : Z) : MV unit :=
  r <- mappages kpgtbl va sz pa perm ;; if negb (r =? 0) then panic "kvmmap" else ret tt.

Definition uvmcreate : MV Z :=
  pagetable <- kalloc ;;
  if pagetable =? 0 then ret 0 else zero_page pagetable ;;; ret pagetable.

Definition unmap_body (pagetable last : Z) (do_free : bool) (a : Z) : MV (Z + unit) :=
  if negb (a <? last) then ret (inr tt)
  else
    pte <- walk pagetable a false ;;
    (if pte =? 0 then ret tt
     else
       v <- ld64 pte ;;
       if negb (bits v PTE_V) then ret tt
       else when do_free (kfree kend PHYSTOP (PTE2PA v)) ;;; st64 pte 0) ;;;
    ret (inl (u64 (a + PGSIZE))).

Definition uvmunmap (pagetable va npages : Z) (do_free : bool) : MV unit :=
  if negb (va mod PGSIZE =? 0) then panic "uvmunmap: not aligned"
  else loop (S (Z.to_nat npages)) (unmap_body pagetable (u64 (va + npages * PGSIZE)) do_free) va.

(** [PGROUNDUP] on a 64-bit size: it wraps to 0 in the last page. *)
Definition pgroundup64 (sz : Z) : Z := u64 (PGROUNDUP sz).

Definition uvmdealloc (pagetable oldsz newsz : Z) : MV Z :=
  if newsz >=? oldsz then ret oldsz
  else
    when (pgroundup64 newsz <? pgroundup64 oldsz)
      (let npages := s32 (u64 (pgroundup64 oldsz - pgroundup64 newsz) / PGSIZE) in
       uvmunmap pagetable (pgroundup64 newsz) (u64 npages) true) ;;;
    ret newsz.

Definition uvmalloc_body (pagetable oldsz newsz xperm : Z) (a : Z) : MV (Z + Z) :=
  if negb (a <? newsz) then ret (inr newsz)
  else
    mem <- kalloc ;;
    if mem =? 0 then uvmdealloc pagetable a oldsz ;;; ret (inr 0)
    else
      zero_page mem ;;;
      r <- mappages pagetable a PGSIZE mem (Z.lor (Z.lor PTE_R PTE_U) xperm) ;;
      if negb (r =? 0)
      then kfree kend PHYSTOP mem ;;; uvmdealloc pagetable a oldsz ;;; ret (inr 0)
      else ret (inl (u64 (a + PGSIZE))).

Definition uvmalloc (pagetable oldsz newsz xperm : Z) : MV Z :=
  if newsz <? oldsz then ret oldsz
  else
    let oldsz := pgroundup64 oldsz in
    loop (Z.to_nat ((newsz - oldsz) / PGSIZE) + 2) (uvmalloc_body pagetable oldsz newsz xperm) oldsz.

(** freewalk; [level] bounds the recursion, and one that goes deeper than
    the tables the kernel makes is not modelled (it would be a cycle). *)
Fixpoint freewalk (level : nat) (pagetable : Z) : MV unit :=
  for_each (seqZ 0 512)
    (fun i =>
       pte <- ld64 (pagetable + 8 * i) ;;
       if bits pte PTE_V
       then
         if hal_pte_is_leaf pte then panic "freewalk: leaf"
         else
           match level with
           | O => fail FFuel
           | S l => freewalk l (PTE2PA pte) ;;; st64 (pagetable + 8 * i) 0
           end
       else ret tt) ;;;
  kfree kend PHYSTOP pagetable.

Definition uvmfree (pagetable sz : Z) : MV unit :=
  when (sz >? 0) (uvmunmap pagetable 0 (pgroundup64 sz / PGSIZE) true) ;;;
  freewalk (PT_LEVELS - 1) pagetable.

Definition uvmcopy_body (old new sz : Z) (i : Z) : MV (Z + Z) :=
  if negb (i <? sz) then ret (inr 0)
  else
    let next := u64 (i + PGSIZE) in
    pte <- walk old i false ;;
    if pte =? 0 then ret (inl next)
    else
      v <- ld64 pte ;;
      if negb (bits v PTE_V) then ret (inl next)
      else
        mem <- kalloc ;;
        if mem =? 0 then uvmunmap new 0 (i / PGSIZE) true ;;; ret (inr (-1))
        else
          move mem (PTE2PA v) (Z.to_nat PGSIZE) ;;;
          r <- mappages new i PGSIZE mem (u32 (PTE_FLAGS v)) ;;
          if negb (r =? 0)
          then kfree kend PHYSTOP mem ;;; uvmunmap new 0 (i / PGSIZE) true ;;; ret (inr (-1))
          else ret (inl next).

Definition uvmcopy (old new sz : Z) : MV Z :=
  loop (Z.to_nat (sz / PGSIZE) + 2) (uvmcopy_body old new sz) 0.

Definition uvmclear (pagetable va : Z) : MV unit :=
  pte <- walk pagetable va false ;;
  if pte =? 0 then panic "uvmclear"
  else v <- ld64 pte ;; st64 pte (Z.ldiff v PTE_U).

Definition ismapped (pagetable va : Z) : MV bool :=
  pte <- walk pagetable va false ;;
  if pte =? 0 then ret false else v <- ld64 pte ;; ret (bits v PTE_V).

(** *** Copying between the kernel and user space *)

Context (p : uproc).

Definition vmfault (pagetable va : Z) (read : bool) : MV Z :=
  if va >=? MAXVA then ret 0
  else if va >=? up_sz p then ret 0
  else
    let va := PGROUNDDOWN va in
    pte <- walk pagetable va false ;;
    v <- (if pte =? 0 then ret 0 else ld64 pte) ;;
    if negb (pte =? 0) && bits v PTE_V
    then
      if negb (bits v PTE_U) then ret 0
      else if negb read && negb (bits v PTE_W) then ret 0
      else ret 1
    else
      mem <- kalloc ;;
      if mem =? 0 then ret 0
      else
        zero_page mem ;;;
        r <- mappages (up_pagetable p) va PGSIZE mem (Z.lor (Z.lor PTE_W PTE_U) PTE_R) ;;
        if negb (r =? 0) then kfree kend PHYSTOP mem ;;; ret 0 else ret mem.

(** The page behind [va0], faulted in when needed; 0 when there is none. *)
Definition user_page (pagetable va0 : Z) : MV Z :=
  if va0 >=? MAXVA then ret 0
  else
    pa0 <- walkaddr pagetable va0 ;;
    if pa0 =? 0 then vmfault pagetable va0 false else ret pa0.

Definition mem_bytes (m : memory) (a : Z) (n : nat) : list Z := (fun i => m (a + Z.of_nat i)) <$> seq 0 n.
Fixpoint put_bytes (m : memory) (a : Z) (l : list Z) : memory :=
  match l with [] => m | c :: l' => put_bytes (upd m a c) (a + 1) l' end.

(** Locals: dstva and the bytes still to copy. *)
Definition copyout_body (pagetable : Z) (x : Z * list Z) : MV (Z * list Z + bool) :=
  let '(dstva, src) := x in
  match src with
  | [] => ret (inr true)
  | _ =>
      let va0 := PGROUNDDOWN dstva in
      pa0 <- user_page pagetable va0 ;;
      if pa0 =? 0 then ret (inr false)
      else
        pte <- walk pagetable va0 false ;;
        v <- (if pte =? 0 then fail FNull else ld64 pte) ;;
        if negb (bits v PTE_W) then ret (inr false)
        else
          let n := Z.min (PGSIZE - (dstva - va0)) (zlen src) in
          modify (fun s => set_mem (put_bytes (km_mem s) (pa0 + (dstva - va0)) (take (Z.to_nat n) src)) s) ;;;
          ret (inl (u64 (va0 + PGSIZE), drop (Z.to_nat n) src))
  end.

Definition copyout (pagetable dstva : Z) (src : list Z) : MV bool :=
  loop (length src + 1) (copyout_body pagetable) (dstva, src).

(** Locals: srcva, the bytes left to copy, the bytes copied. *)
Definition copyin_body (pagetable : Z) (x : Z * Z * list Z) : MV (Z * Z * list Z + bool * list Z) :=
  let '(srcva, len, dst) := x in
  if len <=? 0 then ret (inr (true, dst))
  else
    let va0 := PGROUNDDOWN srcva in
    pa0 <- user_page pagetable va0 ;;
    if pa0 =? 0 then ret (inr (false, dst))
    else
      let n := Z.min (PGSIZE - (srcva - va0)) len in
      b <- gets (fun s => mem_bytes (km_mem s) (pa0 + (srcva - va0)) (Z.to_nat n)) ;;
      ret (inl (u64 (va0 + PGSIZE), len - n, dst ++ b)).

Definition copyin (pagetable srcva len : Z) : MV (bool * list Z) :=
  loop (Z.to_nat len + 1) (copyin_body pagetable) (srcva, len, []).

(** Up to [n] bytes from [a]: those before a NUL, and whether one was seen. *)
Fixpoint scan_nul (m : memory) (a : Z) (n : nat) : list Z * bool :=
  match n with
  | O => ([], false)
  | S n' => if m a =? 0 then ([0], true)
            else let '(l, got) := scan_nul m (a + 1) n' in (m a :: l, got)
  end.

Definition copyinstr_body (pagetable : Z) (x : Z * Z * list Z) :
  MV (Z * Z * list Z + bool * list Z) :=
  let '(srcva, max, dst) := x in
  if max <=? 0 then ret (inr (false, dst))
  else
    let va0 := PGROUNDDOWN srcva in
    if va0 >=? MAXVA then ret (inr (false, dst))
    else
      pa0 <- walkaddr pagetable va0 ;;
      if pa0 =? 0 then ret (inr (false, dst))
      else
        let n := Z.min (PGSIZE - (srcva - va0)) max in
        '(b, got) <- gets (fun s => scan_nul (km_mem s) (pa0 + (srcva - va0)) (Z.to_nat n)) ;;
        if (got : bool) then ret (inr (true, dst ++ b))
        else ret (inl (u64 (va0 + PGSIZE), max - n, dst ++ b)).

Definition copyinstr (pagetable srcva max : Z) : MV (bool * list Z) :=
  loop (Z.to_nat max + 1) (copyinstr_body pagetable) (srcva, max, []).

End Vm.
