(* ===== verification/VmTable.v ===== *)
(** VmTable: what a page table in memory stands for.  A ghost map gives the
    page of every table by its level and the part of the address above it; the
    entry of an address is then a load from one page.  walk finds that entry,
    with [alloc] it adds the missing tables and changes no entry, and storing
    an entry changes that one only. *)

From S2P Require Import Prelude CString Kalloc Arch Vm.

(** *** Loads, stores and pages *)

Lemma load64_store_ne m a v b :
  b + 8 <= a \/ a + 8 <= b -> load64 (store64 m a v) b = load64 m b.
Proof.
  intros Hd. apply load64_ext. intros x Hx. unfold store64.
  by destruct ((a <=? x) && (x <? a + 8)) eqn:E; [lia|].
Qed.

Lemma load64_zero m : (forall x, m x = 0) -> forall a, load64 m a = 0.
Proof. intros Hm a. unfold load64. cbn [fmap list_fmap le_dec]. by rewrite !Hm. Qed.

(** An entry of a table page. *)
Lemma entry_in_page pt i : 0 <= i < 512 ->
  forall a, pt + 8 * i <= a < pt + 8 * i + 8 -> in_page pt a = true.
Proof. intros Hi a Ha. unfold in_page, PGSIZE. lia. Qed.

Lemma load64_page_ext m m' pt i : 0 <= i < 512 ->
  (forall a, in_page pt a = true -> m' a = m a) -> load64 m' (pt + 8 * i) = load64 m (pt + 8 * i).
Proof. intros Hi Hm. apply load64_ext. intros a Ha. apply Hm. by eapply entry_in_page. Qed.

Lemma in_page_ne p q a : p mod PGSIZE = 0 -> q mod PGSIZE = 0 -> p <> q ->
  in_page p a = true -> in_page q a = false.
Proof.
  intros Hp Hq Hne Ha. destruct (pages_disjoint p q Hp Hq Hne); unfold in_page, PGSIZE in *; lia.
Qed.

Lemma store_out_page m pt i v a : 0 <= i < 512 -> in_page pt a = false ->
  store64 m (pt + 8 * i) v a = m a.
Proof.
  intros Hi Ha. unfold store64. destruct (_ && _) eqn:E; [|done].
  unfold in_page, PGSIZE in Ha. lia.
Qed.

(** *** Indices of an address *)

(** The number of the level-[k] entry of [va], counted from address 0. *)
Definition idx (k : nat) (va : Z) : Z := va / 2 ^ (12 + 9 * Z.of_nat k).

Lemma idx_S k va : idx (S k) va = idx k va / 512.
Proof.
  unfold idx. rewrite Z.div_div by (try apply Z.pow_nonzero; lia). f_equal.
  replace (12 + 9 * Z.of_nat (S k)) with (12 + 9 * Z.of_nat k + 9) by lia.
  rewrite (Z.pow_add_r 2 _ 9) by lia. done.
Qed.

Lemma PX_idx k va : PX k va = idx k va mod 512.
Proof.
  unfold PX, idx. rewrite Z.shiftr_div_pow2 by lia. change 511 with (Z.ones 9).
  by rewrite Z.land_ones by lia.
Qed.

Lemma PX_range k va : 0 <= PX k va < 512.
Proof. rewrite PX_idx. apply Z.mod_pos_bound. lia. Qed.

Lemma idx_split k va : idx k va = idx (S k) va * 512 + PX k va.
Proof. rewrite idx_S, PX_idx. pose proof (Z.div_mod (idx k va) 512). lia. Qed.

Lemma idx_nonneg k va : 0 <= va -> 0 <= idx k va.
Proof. intros. apply Z.div_pos; [done|]. apply Z.pow_pos_nonneg; lia. Qed.

Lemma idx_0 va : idx 0 va = va / PGSIZE.
Proof. done. Qed.

Section Table.
  Context {HA : Arch} {HAO : ArchOk} (kend PHYSTOP : Z).
  Context (kend_pos : 0 < kend) (phystop_56 : PHYSTOP <= 2 ^ 56).
  Implicit Types s : kmem.

(** Levels of tables: 0 to [top]. *)
Definition top : nat := (PT_LEVELS - 1)%nat.

(** The page of the level-[k] table for addresses whose part above it is [q]. *)
Abbreviation tables := (gmap (nat * Z) Z).

Record pt_wf (m : memory) (T : tables) (root : Z) : Prop := Pt_wf {
  tw_root : T !! (top, 0) = Some root;
  tw_dom : forall k q pt, T !! (k, q) = Some pt -> (k <= top)%nat /\ (k = top -> q = 0);
  tw_inj : forall x y pt, T !! x = Some pt -> T !! y = Some pt -> x = y;
  tw_up : forall k q pt, T !! (k, q) = Some pt -> (k < top)%nat -> is_Some (T !! (S k, q / 512));
  tw_link : forall k q pt i, T !! (S k, q) = Some pt -> 0 <= i < 512 ->
    match T !! (k, q * 512 + i) with
    | Some c => load64 m (pt + 8 * i) = dir_pte c
    | None => bits (load64 m (pt + 8 * i)) PTE_V = false
    end
}.

(** The tables' pages. *)
Definition is_tab (T : tables) (pt : Z) : Prop := exists x, T !! x = Some pt.

(** Allocator and page table together; [l] is the free list. *)
Record vm_ok (s : kmem) (T : tables) (root : Z) (l : list Z) : Prop := Vm_ok {
  vo_free : kinv kend PHYSTOP s l;
  vo_wf : pt_wf (km_mem s) T root;
  vo_tab : forall pt, is_tab T pt -> page_ok kend PHYSTOP pt /\ pt ∉ l
}.

(** The entry of [va]; 0 when its table does not exist. *)
Definition pte_at (s : kmem) (T : tables) (va : Z) : Z :=
  match T !! (0%nat, idx 1 va) with
  | Some pt => load64 (km_mem s) (pt + 8 * PX 0 va)
  | None => 0
  end.

Lemma page_frame pt : page_ok kend PHYSTOP pt -> frame pt.
Proof. intros [Hm Hr]. split; [done|]. lia. Qed.

Lemma tab_aligned s T root l pt : vm_ok s T root l -> is_tab T pt -> pt mod PGSIZE = 0.
Proof. intros Hok Ht. by destruct (vo_tab _ _ _ _ Hok pt Ht) as [[? _] _]. Qed.

(** All tables above an existing one exist. *)
Lemma up_closed m T root k va : pt_wf m T root -> (k <= top)%nat ->
  is_Some (T !! (0%nat, idx 1 va)) -> is_Some (T !! (k, idx (S k) va)).
Proof.
  intros Hw Hk H0. induction k as [|k IH]; [done|].
  destruct IH as [pt Hpt]; [lia|]. rewrite idx_S. by eapply tw_up; [..|lia].
Qed.

Lemma root_key m T root va : pt_wf m T root -> 0 <= va < MAXVA -> T !! (top, idx (S top) va) = Some root.
Proof.
  intros Hw Hva. replace (idx (S top) va) with 0; [by eapply tw_root|].
  symmetry. apply Z.div_small. pose proof maxva_fits. pose proof levels_pos.
  replace (Z.of_nat (S top)) with (Z.of_nat PT_LEVELS) by (unfold top; lia). lia.
Qed.

Lemma child_key k va : idx (S (S k)) va * 512 + PX (S k) va = idx (S k) va.
Proof. symmetry. apply idx_split. Qed.

(** *** walk without allocation *)

Lemma walk_from_look s T root va : pt_wf (km_mem s) T root ->
  (forall pt, is_tab T pt -> frame pt) ->
  forall k pt, (k <= top)%nat -> T !! (k, idx (S k) va) = Some pt ->
  walk_from k pt va false s =
  Ok (match T !! (0%nat, idx 1 va) with Some p0 => p0 + 8 * PX 0 va | None => 0 end, s).
Proof.
  intros Hw Hf. induction k as [|k IH]; intros pt Hk Hpt; cbn [walk_from].
  - by rewrite Hpt.
  - unfold ld64, gets. rewrite (bind_ok _ _ s (load64 (km_mem s) (pte_addr (S k) pt va)) s) by done.
    pose proof (tw_link _ _ _ Hw k _ pt (PX (S k) va) Hpt (PX_range _ _)) as Hl.
    rewrite child_key in Hl. unfold pte_addr. destruct (T !! (k, idx (S k) va)) as [c|] eqn:Ec.
    + assert (frame c) as Hc by (apply Hf; by eexists). rewrite Hl, dir_valid, dir_pa by done.
      apply IH; [lia|done].
    + rewrite Hl. cbn [negb]. destruct (T !! (0%nat, idx 1 va)) as [p0|] eqn:E0; [|done].
      destruct (up_closed _ T root k va Hw ltac:(lia)) as [c Hc]; [by eexists|]. congruence.
Qed.

Lemma walk_look s T root l va : vm_ok s T root l -> 0 <= va < MAXVA ->
  walk root va false s =
  Ok (match T !! (0%nat, idx 1 va) with Some p0 => p0 + 8 * PX 0 va | None => 0 end, s).
Proof.
  intros Hok Hva. unfold walk. rewrite va_valid_low by done. cbn [negb]. fold top.
  apply (walk_from_look s T root); [by apply Hok| |done|].
  - intros pt Ht. by apply page_frame, (vo_tab _ _ _ _ Hok).
  - by eapply root_key; [apply Hok|].
Qed.

Lemma pte_addr_pos s T root l pt va : vm_ok s T root l -> is_tab T pt -> pt + 8 * PX 0 va <> 0.
Proof.
  intros Hok Ht. destruct (vo_tab _ _ _ _ Hok pt Ht) as [[_ ?] _]. pose proof (PX_range 0 va). lia.
Qed.

(** *** Storing an entry *)

(** Page tables only depend on the bytes of their own pages. *)
Lemma pt_wf_ext m m' T root :
  (forall pt a, is_tab T pt -> in_page pt a = true -> m' a = m a) -> pt_wf m T root -> pt_wf m' T root.
Proof.
  intros Hm [W1 W2 W3 W4 W5]. constructor; try done.
  intros k q pt i Hpt Hi. specialize (W5 k q pt i Hpt Hi).
  rewrite (load64_page_ext m m') by (try done; intros a; apply Hm; by eexists). done.
Qed.

Lemma pte_at_ext s s' T va :
  (forall pt a, is_tab T pt -> in_page pt a = true -> km_mem s' a = km_mem s a) ->
  pte_at s' T va = pte_at s T va.
Proof.
  intros Hm. unfold pte_at. destruct (T !! (0%nat, idx 1 va)) as [pt|] eqn:E; [|done].
  apply load64_page_ext; [apply PX_range|]. intros a. apply Hm. by eexists.
Qed.

(** A change outside the free pages and the tables keeps everything. *)
Lemma vm_ok_ext s m' T root l :
  (forall q a, q ∈ l -> in_page q a = true -> m' a = km_mem s a) ->
  (forall pt a, is_tab T pt -> in_page pt a = true -> m' a = km_mem s a) ->
  vm_ok s T root l -> vm_ok (set_mem m' s) T root l.
Proof.
  intros Hl Ht [(Hc & Hn & Hp) Hw Htab]. constructor; [|by eapply pt_wf_ext|done].
  split; [|done]. cbn. eapply chain_frame; [|exact Hc]. intros q a Hq Ha. symmetry.
  apply (Hl q); [done|]. unfold in_page, PGSIZE. lia.
Qed.

Lemma store_leaf s T root l va pt v :
  vm_ok s T root l -> 0 <= va -> T !! (0%nat, idx 1 va) = Some pt -> 0 <= v < 2 ^ 64 ->
  let s' := set_mem (store64 (km_mem s) (pt + 8 * PX 0 va) v) s in
  vm_ok s' T root l /\
  (forall va', pte_at s' T va' = if idx 0 va' =? idx 0 va then v else pte_at s T va') /\
  (forall a, in_page pt a = false -> km_mem s' a = km_mem s a).
Proof.
  intros Hok Hva Hpt Hv s'. pose proof (PX_range 0 va) as Hpx.
  assert (is_tab T pt) as Ht by (by eexists).
  pose proof (tab_aligned _ _ _ _ _ Hok Ht) as Hal.
  assert (forall a, in_page pt a = false -> km_mem s' a = km_mem s a) as Hout
    by (intros a Ha; by apply store_out_page).
  destruct (vo_tab _ _ _ _ Hok pt Ht) as [Hpo Hni].
  assert (forall x p a, T !! x = Some p -> x <> (0%nat, idx 1 va) -> in_page p a = true ->
    km_mem s' a = km_mem s a) as Hne.
  { intros x p a Hx Hxn Ha. apply Hout. apply (in_page_ne p); [|done| |done].
    - eapply tab_aligned; [done|by eexists].
    - intros ->. apply Hxn. by eapply tw_inj; [apply Hok|..]. }
  split_and!; [|intros va'|done].
  - destruct Hok as [(Hc & Hn & Hp) Hw Htab]. constructor; [|destruct Hw as [W1 W2 W3 W4 W5]|done].
    + split; [|done]. cbn. eapply chain_outside; [exact Hal|done|done| |exact Hc]. apply Hout.
    + constructor; try done. intros k q p i Hp' Hi. specialize (W5 k q p i Hp' Hi).
      rewrite (load64_page_ext (km_mem s) (km_mem s')); [done|done|]. intros a.
      by apply (Hne (S k, q)).
  - unfold pte_at. destruct (T !! (0%nat, idx 1 va')) as [p|] eqn:E.
    + destruct (decide (idx 1 va' = idx 1 va)) as [E1|E1].
      * rewrite E1, Hpt in E. injection E as <-. rewrite (idx_split 0 va'), (idx_split 0 va), E1.
        destruct (Z.eqb_spec (idx 1 va * 512 + PX 0 va') (idx 1 va * 512 + PX 0 va)) as [E2|E2].
        -- replace (PX 0 va') with (PX 0 va) by lia. by apply load64_store64.
        -- apply load64_store_ne. lia.
      * rewrite (load64_page_ext (km_mem s) (km_mem s')); [|apply PX_range|].
        -- destruct (Z.eqb_spec (idx 0 va') (idx 0 va)) as [E2|]; [|done].
           exfalso. apply E1. by rewrite !idx_S, E2.
        -- intros a. apply (Hne (0%nat, idx 1 va')); [done|]. congruence.
    + destruct (Z.eqb_spec (idx 0 va') (idx 0 va)) as [E2|]; [|done].
      rewrite idx_S, E2, <-idx_S, Hpt in E. done.
Qed.

(** *** walk with allocation *)

(** [s'] and [T'] have more tables, taken from the front of the free list,
    and the same entries. *)
Record grows (s : kmem) (T : tables) (l : list Z) (s' : kmem) (T' : tables) (l' : list Z) : Prop := Grows {
  gr_sub : T ⊆ T';
  gr_pte : forall va, pte_at s' T' va = pte_at s T va;
  gr_new : exists new, l = new ++ l' /\ (forall pt, is_tab T' pt <-> is_tab T pt \/ pt ∈ new);
  gr_mem : forall a, (forall pt, is_tab T' pt -> in_page pt a = false) -> km_mem s' a = km_mem s a
}.

Lemma grows_refl s T l : grows s T l s T l.
Proof.
  constructor; try done. exists []. split; [done|]. intros pt. rewrite elem_of_nil. tauto.
Qed.

Lemma grows_trans s T l s1 T1 l1 s2 T2 l2 :
  grows s T l s1 T1 l1 -> grows s1 T1 l1 s2 T2 l2 -> grows s T l s2 T2 l2.
Proof.
  intros [A1 A2 (n1 & -> & A3) A4] [B1 B2 (n2 & -> & B3) B4]. constructor.
  - by trans T1.
  - intros va. by rewrite B2.
  - exists (n1 ++ n2). rewrite app_assoc. split; [done|]. intros pt. rewrite B3, A3, elem_of_app. tauto.
  - intros a Ha. rewrite B4 by done. apply A4. intros pt Hpt. apply Ha. apply B3. by left.
Qed.

(** Adding an empty table page [p] for [va] at level [k]. *)
Lemma add_table s T root p l va k pt :
  vm_ok s T root (p :: l) -> 0 <= va -> (k < top)%nat ->
  T !! (S k, idx (S (S k)) va) = Some pt -> T !! (k, idx (S k) va) = None ->
  exists s', (p0 <- kalloc ;; if p0 =? 0 then ret 0 else
       zero_page p0 ;;; st64 (pte_addr (S k) pt va) (dir_pte p0) ;;; ret p0) s = Ok (p, s') /\
    let T' := <[(k, idx (S k) va) := p]> T in
    vm_ok s' T' root l /\ grows s T (p :: l) s' T' l.
Proof.
  intros Hok Hva Hk Hpt Hno. pose proof Hok as [(Hch & Hnd & Hpg) Hw Htab].
  pose proof (PX_range (S k) va) as Hpx.
  apply Forall_cons in Hpg as [Hpp Hpl]. apply NoDup_cons in Hnd as [Hpn Hnd].
  assert (is_tab T pt) as Ht by (by eexists). destruct (Htab pt Ht) as [Hppt Hptn].
  assert (forall x, T !! x <> Some p) as Hpnt.
  { intros x Hx. destruct (Htab p) as [_ Hn]; [by eexists|]. apply Hn. by left. }
  destruct (kalloc_ok kend PHYSTOP kend_pos s (p :: l)) as (s1 & E1 & (Hch1 & _) & Hm1);
    [split_and!; [done|by constructor|by constructor]|].
  set (s2 := set_mem (memset p 0 (Z.to_nat PGSIZE) (km_mem s1)) s1).
  set (s3 := set_mem (store64 (km_mem s2) (pt + 8 * PX (S k) va) (dir_pte p)) s2).
  assert (forall a, km_mem s2 a = if in_page p a then 0 else km_mem s a) as Hm2.
  { intros a. cbn. rewrite memset_page, Hm1. by destruct (in_page p a). }
  assert (forall a, in_page pt a = false -> km_mem s3 a = if in_page p a then 0 else km_mem s a) as Hm3.
  { intros a Ha. rewrite <-Hm2. by apply store_out_page. }
  assert (forall q a, q ∈ l -> in_page q a = true -> km_mem s3 a = km_mem s a) as Hml.
  { intros q a Hq Ha. rewrite Forall_forall in Hpl. destruct (Hpl q Hq) as [Hqm _].
    rewrite Hm3; [rewrite (in_page_ne q p); [done|done|apply Hpp|congruence|done]|].
    apply (in_page_ne q pt); [done|apply Hppt| |done]. intros ->. apply Hptn. by right. }
  assert (forall x p' a, T !! x = Some p' -> x <> (S k, idx (S (S k)) va) -> in_page p' a = true ->
    km_mem s3 a = km_mem s a) as Hmt.
  { intros x p' a Hx Hxn Ha. destruct (Htab p') as [[Hp'm _] _]; [by eexists|].
    rewrite Hm3; [rewrite (in_page_ne p' p); [done|done|apply Hpp|intros ->; by eapply Hpnt|done]|].
    apply (in_page_ne p' pt); [done|apply Hppt| |done]. intros ->. apply Hxn. by eapply tw_inj. }
  assert (forall a, in_page p a = true -> km_mem s3 a = 0) as Hmp.
  { intros a Ha. rewrite Hm3, Ha; [done|]. apply (in_page_ne p pt); [apply Hpp|apply Hppt| |done].
    intros ->. by eapply Hpnt. }
  exists s3. split.
  { rewrite (bind_ok _ _ _ _ _ E1). assert (p =? 0 = false) as -> by (destruct Hpp; lia). done. }
  assert (forall q k', (k', q) <> (k, idx (S k) va) ->
    <[(k, idx (S k) va) := p]> T !! (k', q) = T !! (k', q)) as Hins.
  { intros q k' Hne. by apply lookup_insert_ne. }
  cbn zeta. split.
  - constructor.
    + split; [|by split]. apply (chain_frame (km_mem s1)); [|exact Hch1]. intros q a Hq Ha.
      assert (in_page q a = true) as Hin by (unfold in_page, PGSIZE; lia).
      rewrite (Hml q a Hq Hin), Hm1, (in_page_ne q p); [done| |apply Hpp|congruence|done].
      rewrite Forall_forall in Hpl. by apply Hpl.
    + constructor.
      * rewrite Hins by (intros [= ? ?]; lia). by eapply tw_root.
      * intros k' q pt' Hk'. apply lookup_insert_Some in Hk' as [[[= <- <-] _]|[_ Hk']]; [lia|].
        by eapply tw_dom.
      * intros x y pt' Hx Hy. apply lookup_insert_Some in Hx as [[<- ->]|[Hx1 Hx]],
          Hy as [[<- Ep]|[Hy1 Hy]]; subst; try done; [by destruct (Hpnt y)|by destruct (Hpnt x)|].
        by eapply tw_inj.
      * intros k' q pt' Hk' Hlt. rewrite lookup_insert_is_Some'. right.
        apply lookup_insert_Some in Hk' as [[[= <- <-] _]|[_ Hk']].
        -- rewrite <-idx_S. by eexists.
        -- by eapply tw_up.
      * intros k' q pt' i Hk' Hi. apply lookup_insert_Some in Hk' as [[Hkey ->]|[Hkn Hk']].
        -- injection Hkey as -> <-. rewrite Hins by (intros [= ? ?]; lia).
           destruct (T !! (k', idx (S (S k')) va * 512 + i)) as [c|] eqn:Ec.
           ++ destruct (tw_up _ _ _ Hw _ _ _ Ec) as [x Hx]; [lia|].
              replace ((idx (S (S k')) va * 512 + i) / 512) with (idx (S (S k')) va) in Hx by dlia.
              congruence.
           ++ rewrite (load64_page_ext (fun _ => 0) (km_mem s3)); [|done|done].
              rewrite load64_zero by done. apply zero_invalid.
        -- destruct (decide ((k', q * 512 + i) = (k, idx (S k) va))) as [[= -> Hq]|Hne].
           ++ rewrite Hq, lookup_insert_eq.
              assert (q = idx (S (S k)) va /\ i = PX (S k) va) as [-> ->].
              { rewrite (idx_split (S k) va) in Hq. dlia. }
              rewrite Hpt in Hk'. injection Hk' as <-. apply load64_store64.
              by apply dir_range, page_frame.
           ++ rewrite Hins by done. pose proof (tw_link _ _ _ Hw k' q pt' i Hk' Hi) as Hl.
              replace (load64 (km_mem s3) (pt' + 8 * i)) with (load64 (km_mem s) (pt' + 8 * i)); [done|].
              destruct (decide ((S k', q) = (S k, idx (S (S k)) va))) as [[= -> ->]|Hkne].
              ** rewrite Hpt in Hk'. injection Hk' as <-. symmetry. etransitivity.
                 { apply load64_store_ne. assert (i <> PX (S k) va); [|lia]. intros ->.
                   apply Hne. by rewrite child_key. }
                 apply load64_page_ext; [done|]. intros a Ha. rewrite Hm2, (in_page_ne pt p);
                   [done|apply Hppt|apply Hpp|intros ->; by eapply Hpnt|done].
              ** symmetry. apply load64_page_ext; [done|]. intros a. by apply (Hmt (S k', q)).
    + intros pt' [x Hx]. apply lookup_insert_Some in Hx as [[_ <-]|[_ Hx]]; [done|].
      destruct (Htab pt') as [? Hn]; [by eexists|]. split; [done|]. intros Hin. apply Hn. by right.
  - constructor.
    + by apply insert_subseteq.
    + intros va'. unfold pte_at.
      destruct (decide ((0%nat, idx 1 va') = (k, idx (S k) va))) as [E|E].
      * rewrite E, lookup_insert_eq, Hno.
        rewrite (load64_page_ext (fun _ => 0) (km_mem s3)); [|apply PX_range|done]. by apply load64_zero.
      * rewrite Hins by done. destruct (T !! (0%nat, idx 1 va')) as [p'|] eqn:Ep'; [|done].
        apply load64_page_ext; [apply PX_range|]. intros a. apply (Hmt (0%nat, idx 1 va')); [done|].
        congruence.
    + exists [p]. split; [done|]. intros pt'. unfold is_tab. setoid_rewrite list_elem_of_singleton.
      split.
      * intros [x [[_ <-]|[_ Hx]]%lookup_insert_Some]; eauto.
      * intros [[x Hx]| ->]; [|exists (k, idx (S k) va); apply lookup_insert_eq].
        exists x. rewrite lookup_insert_ne; [done|]. intros <-. congruence.
    + intros a Ha. rewrite Hm3.
      * rewrite (Ha p); [done|]. exists (k, idx (S k) va). apply lookup_insert_eq.
      * apply Ha. exists (S k, idx (S (S k)) va). rewrite Hins; [done|]. intros [= ? ?]; lia.
Qed.

Lemma walk_from_alloc root va : 0 <= va ->
  forall k pt s T l, (k <= top)%nat -> vm_ok s T root l -> T !! (k, idx (S k) va) = Some pt ->
  exists r s' T' l', walk_from k pt va true s = Ok (r, s') /\ vm_ok s' T' root l' /\
    grows s T l s' T' l' /\
    ((r = 0 /\ l' = []) \/ exists p0, T' !! (0%nat, idx 1 va) = Some p0 /\ r = p0 + 8 * PX 0 va).
Proof.
  intros Hva. induction k as [|k IH]; intros pt s T l Hk Hok Hpt; cbn [walk_from].
  - exists (pt + 8 * PX 0 va), s, T, l. split_and!; [done|done|apply grows_refl|]. eauto.
  - pose proof (vo_wf _ _ _ _ Hok) as Hw.
    unfold ld64, gets. rewrite (bind_ok _ _ s (load64 (km_mem s) (pte_addr (S k) pt va)) s) by done.
    pose proof (tw_link _ _ _ Hw k _ pt (PX (S k) va) Hpt (PX_range _ _)) as Hl.
    rewrite child_key in Hl. change (pte_addr (S k) pt va) with (pt + 8 * PX (S k) va).
    destruct (T !! (k, idx (S k) va)) as [c|] eqn:Ec.
    + assert (frame c) as Hc by (eapply page_frame, (vo_tab _ _ _ _ Hok); by eexists).
      rewrite Hl, dir_valid, dir_pa by done. by apply IH; [lia|..].
    + rewrite Hl. cbn [negb]. destruct l as [|p l].
      * pose proof (kalloc_ok kend PHYSTOP kend_pos s [] (vo_free _ _ _ _ Hok)) as E. cbn in E.
        rewrite (bind_ok _ _ _ _ _ E). exists 0, s, T, []. split_and!; [done|done|apply grows_refl|].
        by left.
      * destruct (add_table s T root p l va k pt) as (s1 & E & Hok1 & Hg1); [done|done|lia|done|done|].
        destruct (IH p s1 (<[(k, idx (S k) va):=p]> T) l) as (r & s' & T' & l' & E' & Hok' & Hg' & Hr);
          [lia|done|apply lookup_insert_eq|].
        exists r, s', T', l'. split_and!; [|done|by eapply grows_trans|done].
        revert E. unfold bind, zero_page, st64, modify, ret.
        destruct (kalloc s) as [[p0 s0]|]; [|done].
        destruct (p0 =? 0) eqn:E0.
        { intros [= <- <-]. destruct Hok as [(_ & _ & [[_ ?] _]%Forall_cons) _ _]. lia. }
        intros [= -> <-]. exact E'.
Qed.

Lemma walk_alloc root va s T l : 0 <= va < MAXVA -> vm_ok s T root l ->
  exists r s' T' l', walk root va true s = Ok (r, s') /\ vm_ok s' T' root l' /\
    grows s T l s' T' l' /\
    ((r = 0 /\ l' = []) \/ exists p0, T' !! (0%nat, idx 1 va) = Some p0 /\ r = p0 + 8 * PX 0 va).
Proof.
  intros Hva Hok. unfold walk. rewrite va_valid_low by done. cbn [negb]. fold top.
  apply walk_from_alloc; [lia|done|done|]. by eapply root_key; [apply Hok|].
Qed.

End Table.
