(* ===== verification/VmSpace.v ===== *)
(** VmSpace: user address spaces.  An address space is a finite map from page
    numbers to frames with permissions; the operations of vm.c on page tables
    implement insertion and deletion in that map, keep it apart from the free
    list and the tables, and give back what they took when they fail. *)

From S2P Require Import Prelude CString Kalloc Arch Vm VmTable.

(** Readable, writable, executable, accessible to the user. *)
Record uperm : Type := Uperm { pr : bool; pw : bool; px : bool; pu : bool }.

Section Space.
  Context {HA : Arch} {HAO : ArchOk} (kend PHYSTOP : Z).
  Context (kend_pos : 0 < kend) (phystop_56 : PHYSTOP <= 2 ^ 56).
  (** The pages in use for something else and what they hold; the entries of
      the pages above user memory, 0 for none. *)
  Context (F : Z -> Prop) (mF : memory) (sysent : Z -> Z).
  Implicit Types s : kmem.

Local Abbreviation tables := (gmap (nat * Z) Z).
Local Abbreviation vm_ok := (vm_ok kend PHYSTOP).
Local Abbreviation page_ok := (page_ok kend PHYSTOP).

Definition perm_bits (f : uperm) : Z := mk_perm (pr f) (pw f) (px f) (pu f).
Definition leaf_of (e : Z * uperm) : Z := leaf_pte (fst e) (perm_bits (snd e)).

(** Page numbers below the top of user memory. *)
Definition UT : Z := USER_TOP / PGSIZE.

(** The address space of a page table. *)
Abbreviation space := (gmap Z (Z * uperm)).

Record as_ok (s : kmem) (T : tables) (root : Z) (l : list Z) (U : space) : Prop := As_ok {
  ao_vm : vm_ok s T root l;
  ao_dom : forall n e, U !! n = Some e -> 0 <= n < UT;
  ao_map : forall n e, U !! n = Some e -> pte_at s T (n * PGSIZE) = leaf_of e;
  ao_none : forall n, 0 <= n < UT -> U !! n = None -> bits (pte_at s T (n * PGSIZE)) PTE_V = false;
  ao_page : forall n pa f, U !! n = Some (pa, f) -> page_ok pa /\ pa ∉ l /\ ~ is_tab T pa;
  ao_inj : forall n n' pa f f', U !! n = Some (pa, f) -> U !! n' = Some (pa, f') -> n = n';
  ao_sys : forall n, UT <= n -> pte_at s T (n * PGSIZE) = sysent n;
  ao_other : forall pa, F pa -> page_ok pa /\ pa ∉ l /\ ~ is_tab T pa /\
    (forall n f, U !! n <> Some (pa, f)) /\ (forall a, in_page pa a = true -> km_mem s a = mF a);
  ao_sysu : forall n, UT <= n -> bits (sysent n) PTE_V = false \/ bits (sysent n) PTE_U = false
}.

Lemma UT_range : 0 < UT /\ UT * PGSIZE <= MAXVA.
Proof.
  clear F mF sysent.
  pose proof trapframe_top as [Hm Ht]. unfold UT, USER_TOP. unfold PGSIZE in *. split; [|dlia].
  pose proof (Z.div_mod TRAPFRAME 4096 ltac:(lia)). lia.
Qed.

Lemma va_range n : 0 <= n < UT -> 0 <= n * PGSIZE < MAXVA.
Proof. pose proof UT_range. unfold PGSIZE in *. lia. Qed.

Lemma idx0_page n : idx 0 (n * PGSIZE) = n.
Proof. rewrite idx_0. apply Z.div_mul. done. Qed.

(** The bytes of the address space's frames are the same. *)
Definition same_frames (U : space) (s s' : kmem) : Prop :=
  forall n pa f a, U !! n = Some (pa, f) -> in_page pa a = true -> km_mem s' a = km_mem s a.

Lemma same_frames_refl U s : same_frames U s s.
Proof. done. Qed.
Lemma same_frames_trans U s1 s2 s3 : same_frames U s1 s2 -> same_frames U s2 s3 -> same_frames U s1 s3.
Proof. intros H1 H2 n pa f a Hn Ha. rewrite (H2 n pa f a Hn Ha). by eapply H1. Qed.
Lemma same_frames_sub U U' s s' : U ⊆ U' -> same_frames U' s s' -> same_frames U s s'.
Proof. intros Hs H1 n pa f a Hn. eapply H1. by eapply lookup_weaken. Qed.

(** The free list lost a prefix, and the tables are those there were and the
    pages of that prefix. *)
Definition took (T : tables) (l : list Z) (T' : tables) (l' : list Z) : Prop :=
  T ⊆ T' /\ exists new, l = new ++ l' /\ forall pt, is_tab T' pt <-> is_tab T pt \/ pt ∈ new.

Lemma took_refl T l : took T l T l.
Proof. clear. split; [done|]. exists []. split; [done|]. intros pt. rewrite elem_of_nil. tauto. Qed.

Lemma grows_took s T l s' T' l' : grows s T l s' T' l' -> took T l T' l'.
Proof. intros [? _ ? _]. done. Qed.

(** An aligned page is either a given page or apart from it. *)
Lemma page_apart p q a : page_ok p -> page_ok q -> p <> q -> in_page p a = true -> in_page q a = false.
Proof. intros [? _] [? _]. by apply in_page_ne. Qed.

(** Growing the tables of an address space. *)
Lemma as_grows s T root l U s' T' l' :
  as_ok s T root l U -> vm_ok s' T' root l' -> grows s T l s' T' l' ->
  as_ok s' T' root l' U /\ same_frames U s s'.
Proof.
  intros [A1 A2 A3 A4 A5 A6 A7 A8 A9] Hvm [G1 G2 (new & -> & G3) G4].
  assert (forall n pa f, U !! n = Some (pa, f) -> page_ok pa /\ pa ∉ l' /\ ~ is_tab T' pa) as Hpg.
  { intros n pa f Hn. destruct (A5 n pa f Hn) as (Hp & Hl & Ht). rewrite elem_of_app in Hl.
    split_and!; [done|tauto|]. rewrite G3. tauto. }
  assert (forall pa a, page_ok pa -> ~ is_tab T' pa -> in_page pa a = true -> km_mem s' a = km_mem s a) as Hmem.
  { intros pa a Hp Ht Ha. apply G4. intros pt Hpt.
    destruct (vo_tab _ _ _ _ _ _ Hvm pt Hpt) as [Hpo _]. apply (page_apart pa pt); auto. congruence. }
  split.
  - constructor; try done; try (setoid_rewrite G2; done).
    intros pa Hpa. destruct (A8 pa Hpa) as (Hp & Hl & Ht & Hu & Hm). rewrite elem_of_app in Hl.
    assert (~ is_tab T' pa) by (rewrite G3; tauto). split_and!; [done|tauto|done|done|].
    intros a Ha. rewrite (Hmem pa); auto.
  - intros n pa f a Hn Ha. destruct (Hpg n pa f Hn) as (Hp & _ & Ht). by apply (Hmem pa).
Qed.

(** Storing the entry of page [n]. *)
Lemma as_store s T root l U n pt v :
  as_ok s T root l U -> 0 <= n < UT -> T !! (0%nat, idx 1 (n * PGSIZE)) = Some pt -> 0 <= v < 2 ^ 64 ->
  let s' := set_mem (store64 (km_mem s) (pt + 8 * PX 0 (n * PGSIZE)) v) s in
  vm_ok s' T root l /\ same_frames U s s' /\
  (forall pa a, page_ok pa -> ~ is_tab T pa -> in_page pa a = true -> km_mem s' a = km_mem s a) /\
  forall k, pte_at s' T (k * PGSIZE) = if k =? n then v else pte_at s T (k * PGSIZE).
Proof.
  intros Hok Hn Hpt Hv s'. pose proof (va_range n Hn) as Hva.
  destruct (store_leaf kend PHYSTOP s T root l (n * PGSIZE) pt v) as (Hvm & Hpte & Hmem);
    [apply Hok|lia|done|done|]. fold s' in Hvm, Hpte, Hmem.
  assert (is_tab T pt) as Ht by (by eexists).
  destruct (vo_tab _ _ _ _ _ _ Hvm pt Ht) as [Hpo _].
  assert (forall pa a, page_ok pa -> ~ is_tab T pa -> in_page pa a = true -> km_mem s' a = km_mem s a) as Hf.
  { intros pa a Hpa Hnt Ha. apply Hmem. apply (page_apart pa pt); auto. congruence. }
  split_and!; [done| |done|].
  - intros k pa f a Hk Ha. destruct (ao_page _ _ _ _ _ Hok k pa f Hk) as (? & _ & ?). by eapply Hf.
  - intros k. rewrite Hpte, !idx0_page. done.
Qed.

(** *** Mapping one page *)

Lemma mappages_one s T root l U n pa f :
  as_ok s T root l U -> 0 <= n < UT -> U !! n = None -> page_ok pa ->
  pa ∉ l -> ~ is_tab T pa -> (forall n' f', U !! n' <> Some (pa, f')) -> ~ F pa ->
  exists r s' T' l', mappages root (n * PGSIZE) PGSIZE pa (perm_bits f) s = Ok (r, s') /\
    took T l T' l' /\ same_frames U s s' /\
    (forall a, in_page pa a = true -> km_mem s' a = km_mem s a) /\
    ((r = 0 /\ as_ok s' T' root l' (<[n := (pa, f)]> U)) \/
     (r = -1 /\ l' = [] /\ as_ok s' T' root l' U /\ ~ is_tab T' pa)).
Proof.
  intros Hok Hn Hfree Hpa Hpl Hpt Hpu HpF. pose proof (va_range n Hn) as Hva.
  unfold mappages. assert ((n * PGSIZE) mod PGSIZE =? 0 = true) as -> by (unfold PGSIZE; dlia).
  cbn [negb Z.eqb Z.modulo Z.div_eucl]. change (PGSIZE mod PGSIZE =? 0) with true.
  change (PGSIZE =? 0) with false. change (Z.to_nat (PGSIZE / PGSIZE)) with 1%nat. cbn [negb loop].
  unfold mappages_body at 1.
  destruct (walk_alloc kend PHYSTOP kend_pos phystop_56 root (n * PGSIZE) s T l Hva (ao_vm _ _ _ _ _ Hok))
    as (r & s1 & T1 & l1 & Ew & Hvm & Hg & Hr).
  destruct (as_grows _ _ _ _ _ _ _ _ Hok Hvm Hg) as [Hok1 Hsf1].
  pose proof (grows_took _ _ _ _ _ _ Hg) as Htk.
  assert (~ is_tab T1 pa) as Hpt1.
  { destruct Htk as (_ & new & -> & ->). rewrite elem_of_app in Hpl. tauto. }
  assert (pa ∉ l1) as Hpl1.
  { destruct Htk as (_ & new & -> & _). rewrite elem_of_app in Hpl. tauto. }
  assert (forall a, in_page pa a = true -> km_mem s1 a = km_mem s a) as Hm1.
  { intros a Ha. apply (gr_mem _ _ _ _ _ _ Hg). intros pt Ht.
    destruct (vo_tab _ _ _ _ _ _ Hvm pt Ht) as [Hpo _]. apply (page_apart pa pt); auto. congruence. }
  rewrite bind_assoc, (bind_ok _ _ _ _ _ Ew).
  destruct Hr as [[-> ->]|(p0 & Hp0 & ->)].
  { exists (-1), s1, T1, []. split_and!; [done|done|done|done|]. right. by split_and!. }
  assert (is_tab T1 p0) as Ht0 by (by eexists).
  assert (p0 + 8 * PX 0 (n * PGSIZE) =? 0 = false) as ->.
  { apply Z.eqb_neq. by eapply (pte_addr_pos kend PHYSTOP). }
  assert (load64 (km_mem s1) (p0 + 8 * PX 0 (n * PGSIZE)) = pte_at s T (n * PGSIZE)) as Ev.
  { rewrite <-(gr_pte _ _ _ _ _ _ Hg). unfold pte_at. by rewrite Hp0. }
  unfold ld64 at 1, gets at 1. rewrite bind_assoc, (bind_ok _ _ s1 _ s1) by reflexivity. rewrite Ev.
  rewrite (ao_none _ _ _ _ _ Hok n Hn Hfree).
  assert (frame pa) as Hfr by (by eapply page_frame).
  assert (0 <= leaf_pte pa (perm_bits f) < 2 ^ 64) as Hlr by (by apply leaf_range).
  unfold st64, modify. rewrite bind_assoc, (bind_ok _ _ s1 tt _) by reflexivity.
  destruct (as_store s1 T1 root l1 U n p0 (leaf_pte pa (perm_bits f)))
    as (Hvm2 & Hsf2 & Hm2 & Hpte2); [done..|].
  set (s2 := set_mem _ s1) in *.
  replace (u64 (n * PGSIZE + PGSIZE - PGSIZE)) with (n * PGSIZE).
  2: { unfold u64. rewrite Z.mod_small; [lia|]. pose proof maxva_fits. pose proof levels_max.
       assert (2 ^ (12 + 9 * Z.of_nat PT_LEVELS) <= 2 ^ 57) by (apply Z.pow_le_mono_r; lia). lia. }
  rewrite Z.eqb_refl. exists 0, s2, T1, l1. split; [done|].
  split_and!; [done|by eapply same_frames_trans| |].
  { intros a Ha. rewrite <-Hm1 by done. by eapply Hm2. }
  left. split; [done|]. destruct Hok1 as [B1 B2 B3 B4 B5 B6 B7 B8 B9]. constructor; [done|..].
  - intros k e [[-> _]|[_ Hk]]%lookup_insert_Some; [done|by eapply B2].
  - intros k e [[-> <-]|[Hne Hk]]%lookup_insert_Some.
    + by rewrite Hpte2, Z.eqb_refl.
    + rewrite Hpte2. rewrite (proj2 (Z.eqb_neq k n)) by done. by apply B3.
  - intros k Hk [Hno Hne]%lookup_insert_None. rewrite Hpte2.
    rewrite (proj2 (Z.eqb_neq k n)) by done. by apply B4.
  - intros k pa' f' [[-> [= <- <-]]|[_ Hk]]%lookup_insert_Some; [done|by eapply B5].
  - intros k k' pa' f1 f2 [[<- [= <- <-]]|[Hne Hk]]%lookup_insert_Some
      [[<- Hk']|[Hne' Hk']]%lookup_insert_Some; try done.
    + by destruct (Hpu k' f2).
    + injection Hk' as <- _. by destruct (Hpu k f1).
    + by eapply B6.
  - intros k Hk. rewrite Hpte2, (proj2 (Z.eqb_neq k n)) by lia. by apply B7.
  - intros q Hq. destruct (B8 q Hq) as (Hqp & Hql & Hqt & Hqu & Hqm). split_and!; [done..| |].
    + intros k f' [[_ [= -> _]]|[_ Hk]]%lookup_insert_Some; [done|by eapply Hqu].
    + intros a Ha. rewrite (Hm2 q) by done. by apply Hqm.
  - done.
Qed.

(** *** Pages from and to the allocator *)

(** A page that belongs to nobody: not free, not a table, not mapped. *)
Definition spare (T : tables) (l : list Z) (U : space) (pa : Z) : Prop :=
  page_ok pa /\ pa ∉ l /\ ~ is_tab T pa /\ (forall n f, U !! n <> Some (pa, f)) /\ ~ F pa.

(** A change of memory outside free pages and tables. *)
Lemma as_mem s T root l U m' :
  as_ok s T root l U ->
  (forall q a, q ∈ l \/ is_tab T q \/ F q -> in_page q a = true -> m' a = km_mem s a) ->
  as_ok (set_mem m' s) T root l U.
Proof.
  intros [A1 A2 A3 A4 A5 A6 A7 A8 A9] Hm.
  assert (forall va, pte_at (set_mem m' s) T va = pte_at s T va) as Hpte.
  { intros va. apply pte_at_ext. intros pt a Ht. apply Hm. tauto. }
  constructor; try done; [|by setoid_rewrite Hpte..|].
  - apply vm_ok_ext; [..|done]; intros q a Hq; apply Hm; tauto.
  - intros pa Hpa. destruct (A8 pa Hpa) as (? & ? & ? & ? & Hma). split_and!; try done.
    intros a Ha. cbn. rewrite (Hm pa) by tauto. by apply Hma.
Qed.

Lemma as_kalloc s T root l U :
  as_ok s T root l U ->
  match l with
  | [] => kalloc s = Ok (0, s)
  | p :: l' => exists s0 s', kalloc s = Ok (p, s0) /\ zero_page p s0 = Ok (tt, s') /\ p <> 0 /\
      as_ok s' T root l' U /\ spare T l' U p /\ same_frames U s s' /\
      (forall a, in_page p a = true -> km_mem s' a = 0)
  end.
Proof.
  intros [A1 A2 A3 A4 A5 A6 A7 A8 A9]. pose proof (vo_free _ _ _ _ _ _ A1) as Hk.
  pose proof (kalloc_ok kend PHYSTOP kend_pos s l Hk) as Ha. destruct l as [|p l]; [done|].
  destruct Ha as (s1 & E1 & Hk1 & Hm1). destruct Hk as (_ & Hnd & Hpg).
  apply Forall_cons in Hpg as [Hpp Hpl]. apply NoDup_cons in Hnd as [Hpn Hnd].
  assert (~ is_tab T p) as Hpt.
  { intros Ht. destruct (vo_tab _ _ _ _ _ _ A1 p Ht) as [_ Hn]. apply Hn. by left. }
  assert (forall n f, U !! n <> Some (p, f)) as Hpu.
  { intros n f Hn. destruct (A5 n p f Hn) as (_ & Hnl & _). apply Hnl. by left. }
  set (s2 := set_mem (memset p 0 (Z.to_nat PGSIZE) (km_mem s1)) s1).
  assert (forall a, km_mem s2 a = if in_page p a then 0 else km_mem s a) as Hm2.
  { intros a. cbn. rewrite memset_page, Hm1. by destruct (in_page p a). }
  assert (forall q a, page_ok q -> q <> p -> in_page q a = true -> km_mem s2 a = km_mem s a) as Hq2.
  { intros q a Hq Hne Ha. rewrite Hm2, (page_apart q p); auto. }
  assert (forall pt a, is_tab T pt -> in_page pt a = true -> km_mem s2 a = km_mem s a) as Ht2.
  { intros pt a Ht. apply Hq2; [by apply (vo_tab _ _ _ _ _ _ A1)|congruence]. }
  assert (forall va, pte_at s2 T va = pte_at s T va) as Hpte by (intros; by apply pte_at_ext).
  exists s1, s2. split; [done|]. split; [done|]. split; [destruct Hpp; lia|]. split_and!.
  - constructor; try done; [|by setoid_rewrite Hpte|by setoid_rewrite Hpte| |by setoid_rewrite Hpte|].
    + constructor.
      * destruct Hk1 as (Hc1 & _ & _). split; [|done]. apply (chain_frame (km_mem s1)); [|exact Hc1].
        intros q a Hq Ha. rewrite Forall_forall in Hpl.
        rewrite Hq2 with (q := q); [|by apply Hpl|congruence|unfold in_page, PGSIZE; lia].
        rewrite Hm1, (page_apart q p); [done|by apply Hpl|done|congruence|unfold in_page, PGSIZE; lia].
      * eapply pt_wf_ext; [exact Ht2|apply A1].
      * intros pt Ht. destruct (vo_tab _ _ _ _ _ _ A1 pt Ht) as [? Hn]. split; [done|].
        intros Hin. apply Hn. by right.
    + intros n pa f Hn. destruct (A5 n pa f Hn) as (? & Hnl & ?). split_and!; [done| |done].
      intros Hin. apply Hnl. by right.
    + intros pa Hpa. destruct (A8 pa Hpa) as (Hp & Hl & Ht & Hu & Hm). rewrite not_elem_of_cons in Hl.
      split_and!; try tauto. intros a Ha. rewrite (Hq2 pa) by tauto. by apply Hm.
  - split_and!; try done. intros HF. destruct (A8 p HF) as (_ & Hl & _). apply Hl. by left.
  - intros n pa f a Hn. apply Hq2; [by eapply A5|]. intros ->. by eapply Hpu.
  - intros a Ha. by rewrite Hm2, Ha.
Qed.

Lemma as_kfree s T root l U pa :
  as_ok s T root l U -> spare T l U pa ->
  exists s', kfree kend PHYSTOP pa s = Ok (tt, s') /\ as_ok s' T root (pa :: l) U /\ same_frames U s s'.
Proof.
  intros [A1 A2 A3 A4 A5 A6 A7 A8 A9] (Hpp & Hpl & Hpt & Hpu & HpF).
  destruct (kfree_ok kend PHYSTOP kend_pos ltac:(lia) s l pa (vo_free _ _ _ _ _ _ A1) Hpp Hpl)
    as (s' & E & Hk & Hm).
  assert (forall q a, page_ok q -> q <> pa -> in_page q a = true -> km_mem s' a = km_mem s a) as Hq.
  { intros q a Hq Hne Ha. apply Hm. by apply (page_apart q pa). }
  assert (forall pt a, is_tab T pt -> in_page pt a = true -> km_mem s' a = km_mem s a) as Ht2.
  { intros pt a Ht. apply Hq; [by apply (vo_tab _ _ _ _ _ _ A1)|congruence]. }
  assert (forall va, pte_at s' T va = pte_at s T va) as Hpte by (intros; by apply pte_at_ext).
  exists s'. split; [done|]. split.
  - constructor; try done; [|by setoid_rewrite Hpte|by setoid_rewrite Hpte| |by setoid_rewrite Hpte|].
    + constructor; [done|eapply pt_wf_ext; [exact Ht2|apply A1]|].
      intros pt Ht. destruct (vo_tab _ _ _ _ _ _ A1 pt Ht) as [? Hn]. split; [done|].
      intros [->|Hin]%elem_of_cons; done.
    + intros n q f Hn. destruct (A5 n q f Hn) as (? & Hnl & ?). split_and!; [done| |done].
      intros [->|Hin]%elem_of_cons; [by eapply Hpu|done].
    + intros q HF. destruct (A8 q HF) as (Hp & Hl & Ht & Hu & Hm'). assert (q <> pa) by congruence.
      split_and!; try done; [by intros [->|?]%elem_of_cons|].
      intros a Ha. rewrite (Hq q) by done. by apply Hm'.
  - intros n q f a Hn. apply Hq; [by eapply A5|]. intros ->. by eapply Hpu.
Qed.

(** *** Unmapping *)

(** The entry of a mapped page. *)
Lemma mapped_entry s T root l U n e :
  as_ok s T root l U -> U !! n = Some e ->
  exists pt, T !! (0%nat, idx 1 (n * PGSIZE)) = Some pt /\
    load64 (km_mem s) (pt + 8 * PX 0 (n * PGSIZE)) = leaf_of e /\ frame (fst e).
Proof.
  intros Hok Hn. pose proof (ao_map _ _ _ _ _ Hok n e Hn) as Hm. destruct e as [pa f].
  destruct (ao_page _ _ _ _ _ Hok n pa f Hn) as (Hp & _ & _).
  assert (frame pa) as Hf by (by eapply page_frame).
  unfold pte_at in Hm. destruct (T !! (0%nat, idx 1 (n * PGSIZE))) as [pt|]; [eauto|].
  pose proof (leaf_valid pa (pr f) (pw f) (px f) (pu f) Hf) as Hv.
  unfold leaf_of, perm_bits in Hm. cbn in Hm. rewrite <-Hm, zero_invalid in Hv. done.
Qed.

(** walk and the load of the entry, for a page of user memory. *)
Lemma walk_entry s T root l U n :
  as_ok s T root l U -> 0 <= n < UT ->
  exists a, walk root (n * PGSIZE) false s = Ok (a, s) /\
    match U !! n with
    | Some e => a <> 0 /\ load64 (km_mem s) a = leaf_of e /\
                exists pt, T !! (0%nat, idx 1 (n * PGSIZE)) = Some pt /\ a = pt + 8 * PX 0 (n * PGSIZE)
    | None => a = 0 \/ bits (load64 (km_mem s) a) PTE_V = false
    end.
Proof.
  intros Hok Hn. pose proof (va_range n Hn) as Hva.
  pose proof (walk_look kend PHYSTOP kend_pos phystop_56 s T root l _ (ao_vm _ _ _ _ _ Hok) Hva) as Ew.
  eexists. split; [exact Ew|]. destruct (U !! n) as [e|] eqn:Eu.
  - destruct (mapped_entry _ _ _ _ _ _ _ Hok Eu) as (pt & Hpt & Hl & _). rewrite Hpt.
    split_and!; [|done|eauto]. eapply (pte_addr_pos kend PHYSTOP kend_pos); [apply Hok|by eexists].
  - pose proof (ao_none _ _ _ _ _ Hok n Hn Eu) as Hv. unfold pte_at in Hv.
    destruct (T !! (0%nat, idx 1 (n * PGSIZE))); [by right|by left].
Qed.

Lemma u64_va n : 0 <= n < UT -> u64 (n * PGSIZE + PGSIZE) = (n + 1) * PGSIZE.
Proof.
  intros Hn. unfold u64. pose proof UT_range as [_ Hu]. pose proof maxva_fits. pose proof levels_max.
  assert (2 ^ (12 + 9 * Z.of_nat PT_LEVELS) <= 2 ^ 57) by (apply Z.pow_le_mono_r; lia).
  unfold PGSIZE in *. rewrite Z.mod_small; lia.
Qed.

Lemma unmap_step s T root l U n last :
  as_ok s T root l U -> 0 <= n < UT -> n * PGSIZE < last ->
  exists s', unmap_body kend PHYSTOP root last true (n * PGSIZE) s = Ok (inl ((n + 1) * PGSIZE), s') /\
    as_ok s' T root (match U !! n with Some (pa, _) => [pa] | None => [] end ++ l) (delete n U) /\
    same_frames (delete n U) s s'.
Proof.
  intros Hok Hn Hlt. unfold unmap_body. rewrite (proj2 (Z.ltb_lt _ _)) by done. cbn [negb].
  destruct (walk_entry _ _ _ _ _ n Hok Hn) as (a & Ew & Ha).
  rewrite (bind_ok _ _ _ _ _ Ew), u64_va by done. destruct (U !! n) as [[pa f]|] eqn:Eu.
  - destruct Ha as (Ha0 & Hla & pt & Hpt & Ea). rewrite (proj2 (Z.eqb_neq a 0)) by done.
    unfold ld64, gets. rewrite bind_assoc, (bind_ok _ _ s (load64 (km_mem s) a) s) by done. rewrite Hla.
    destruct (ao_page _ _ _ _ _ Hok n pa f Eu) as (Hp & Hpl & Hnt).
    assert (frame pa) as Hf by (by eapply page_frame). unfold leaf_of, perm_bits. cbn [fst snd].
    rewrite leaf_valid, leaf_pa by done. cbn [negb when].
    (* the entry is cleared while the frame is already free *)
    destruct (kfree_ok kend PHYSTOP kend_pos ltac:(lia) s l pa (vo_free _ _ _ _ _ _ (ao_vm _ _ _ _ _ Hok)) Hp Hpl)
      as (s1 & E1 & Hk1 & Hm1).
    assert (forall q x, page_ok q -> q <> pa -> in_page q x = true -> km_mem s1 x = km_mem s x) as Hq.
    { intros q x Hq Hne Hx. apply Hm1. by apply (page_apart q pa). }
    assert (forall t x, is_tab T t -> in_page t x = true -> km_mem s1 x = km_mem s x) as Ht1.
    { intros t x Ht. apply Hq; [by apply (vo_tab _ _ _ _ _ _ (ao_vm _ _ _ _ _ Hok))|congruence]. }
    assert (forall va, pte_at s1 T va = pte_at s T va) as Hpte by (intros; by apply pte_at_ext).
    assert (vm_ok s1 T root (pa :: l)) as Hvm1.
    { constructor; [done|eapply pt_wf_ext; [exact Ht1|apply Hok]|]. intros t Ht.
      destruct (vo_tab _ _ _ _ _ _ (ao_vm _ _ _ _ _ Hok) t Ht) as [? Hnl]. split; [done|].
      intros [->|Hin]%elem_of_cons; done. }
    rewrite !bind_assoc, (bind_ok _ _ _ _ _ E1).
    destruct (store_leaf kend PHYSTOP s1 T root (pa :: l) (n * PGSIZE) pt 0 Hvm1) as (Hvm2 & Hpte2 & Hm2);
      [pose proof (va_range n Hn); lia|done|lia|].
    unfold st64, modify. rewrite Ea, (bind_ok _ _ s1 tt _) by reflexivity.
    set (s2 := set_mem _ s1) in *. exists s2. split; [done|].
    assert (is_tab T pt) as Htp by (by eexists).
    destruct (vo_tab _ _ _ _ _ _ Hvm1 pt Htp) as [Hpo _].
    destruct Hok as [A1 A2 A3 A4 A5 A6 A7 A8 A9]. split.
    + constructor; [done|..].
      * intros k e [_ Hk]%lookup_delete_Some. by eapply A2.
      * intros k e [Hne Hk]%lookup_delete_Some. rewrite Hpte2, Hpte, !idx0_page.
        rewrite (proj2 (Z.eqb_neq k n)) by done. by apply A3.
      * intros k Hk Hno. rewrite Hpte2, Hpte, !idx0_page. destruct (Z.eqb_spec k n) as [->|Hne].
        -- apply zero_invalid.
        -- apply A4; [done|]. by rewrite lookup_delete_ne in Hno.
      * intros k q f' [Hne Hk]%lookup_delete_Some. destruct (A5 k q f' Hk) as (? & Hql & ?).
        split_and!; [done| |done]. intros [->|Hin]%elem_of_cons; [|done]. apply Hne. by eapply A6.
      * intros k k' q f1 f2 [_ Hk]%lookup_delete_Some [_ Hk']%lookup_delete_Some. by eapply A6.
      * intros k Hk. rewrite Hpte2, Hpte, !idx0_page, (proj2 (Z.eqb_neq k n)) by lia. by apply A7.
      * intros q HF. destruct (A8 q HF) as (Hqp & Hql & Hqt & Hqu & Hqm).
        assert (q <> pa) by (intros ->; by eapply Hqu). split_and!; try done.
        -- by intros [->|?]%elem_of_cons.
        -- intros k f' [_ Hk]%lookup_delete_Some. by eapply Hqu.
        -- intros x Hx. rewrite Hm2; [rewrite (Hq q); auto|]. apply (page_apart q pt); auto. congruence.
      * done.
    + intros k q f' x [Hne Hk]%lookup_delete_Some Hx. destruct (A5 k q f' Hk) as (Hqo & _ & Hqt).
      rewrite Hm2; [apply (Hq q); [done| |done]|].
      * intros ->. apply Hne. by eapply A6.
      * apply (page_apart q pt); auto. congruence.
  - assert ((if a =? 0 then ret tt
       else v <- ld64 a;; (if negb (bits v PTE_V) then ret tt
            else when true (kfree kend PHYSTOP (PTE2PA v)) ;;; st64 a 0)) s = Ok (tt, s)) as E0.
    { destruct (Z.eqb_spec a 0) as [|Ha0]; [done|]. destruct Ha as [|Ha]; [done|].
      unfold ld64, gets, bind. by rewrite Ha. }
    rewrite (bind_ok _ _ _ _ _ E0). exists s. rewrite delete_id by done. by split_and!.
Qed.

(** [k] pages from page [n] on removed, and the frames they had. *)
Fixpoint del_range (U : space) (n : Z) (k : nat) : space :=
  match k with O => U | S k' => del_range (delete n U) (n + 1) k' end.
Fixpoint frames (U : space) (n : Z) (k : nat) : list Z :=
  match k with
  | O => []
  | S k' => match U !! n with Some (pa, _) => [pa] | None => [] end ++ frames U (n + 1) k'
  end.

Lemma lookup_del_range k : forall U n i,
  del_range U n k !! i = if bool_decide (n <= i < n + Z.of_nat k) then None else U !! i.
Proof.
  induction k as [|k IH]; intros U n i; cbn [del_range].
  - by rewrite bool_decide_eq_false_2 by lia.
  - rewrite IH. case_bool_decide as E1.
    + by rewrite bool_decide_eq_true_2 by lia.
    + destruct (decide (i = n)) as [->|Hne].
      * by rewrite lookup_delete_eq, bool_decide_eq_true_2 by lia.
      * by rewrite lookup_delete_ne, bool_decide_eq_false_2 by lia.
Qed.

Lemma frames_delete k : forall U n i, i < n -> frames (delete i U) n k = frames U n k.
Proof.
  induction k as [|k IH]; intros U n i Hi; cbn [frames]; [done|].
  rewrite lookup_delete_ne, IH by lia. done.
Qed.

Lemma del_range_sub k U n : del_range U n k ⊆ U.
Proof.
  apply map_subseteq_spec. intros i x. rewrite lookup_del_range. by case_bool_decide.
Qed.

Lemma unmap_run k : forall s T root l U n fuel,
  as_ok s T root l U -> 0 <= n -> n + Z.of_nat k <= UT -> (k < fuel)%nat ->
  exists s' fr, loop fuel (unmap_body kend PHYSTOP root ((n + Z.of_nat k) * PGSIZE) true) (n * PGSIZE) s
      = Ok (tt, s') /\
    fr ≡ₚ frames U n k /\ as_ok s' T root (fr ++ l) (del_range U n k) /\
    same_frames (del_range U n k) s s'.
Proof.
  induction k as [|k IH]; intros s T root l U n fuel Hok Hn Hk Hf;
    (destruct fuel as [|fuel]; [lia|]); cbn [loop].
  - exists s, []. unfold unmap_body. rewrite (proj2 (Z.ltb_ge _ _)) by lia. by split_and!.
  - destruct (unmap_step s T root l U n ((n + Z.of_nat (S k)) * PGSIZE) Hok) as (s1 & E1 & Hok1 & Hs1);
      [lia|unfold PGSIZE; lia|].
    rewrite (bind_ok _ _ _ _ _ E1).
    destruct (IH s1 T root _ (delete n U) (n + 1) fuel Hok1) as (s' & fr & E & Hp & Hok' & Hs');
      [lia..|].
    replace (n + 1 + Z.of_nat k) with (n + Z.of_nat (S k)) in E by lia.
    eexists s', (fr ++ match U !! n with Some (pa, _) => [pa] | None => [] end).
    rewrite <-app_assoc. split_and!; [done| |done|].
    + cbn [frames]. rewrite Hp, frames_delete by lia. apply Permutation_app_comm.
    + eapply same_frames_trans; [|done]. apply (same_frames_sub _ (delete n U)); [apply (del_range_sub k)|done].
Qed.

Lemma u64_user n : 0 <= n <= UT -> u64 (n * PGSIZE) = n * PGSIZE.
Proof.
  intros Hn. unfold u64. pose proof UT_range as [_ Hu]. pose proof maxva_fits. pose proof levels_max.
  assert (2 ^ (12 + 9 * Z.of_nat PT_LEVELS) <= 2 ^ 57) by (apply Z.pow_le_mono_r; lia).
  unfold PGSIZE in *. rewrite Z.mod_small; lia.
Qed.

Lemma uvmunmap_run s T root l U n k :
  as_ok s T root l U -> 0 <= n -> 0 <= k -> n + k <= UT ->
  exists s' fr, uvmunmap kend PHYSTOP root (n * PGSIZE) k true s = Ok (tt, s') /\
    fr ≡ₚ frames U n (Z.to_nat k) /\ as_ok s' T root (fr ++ l) (del_range U n (Z.to_nat k)) /\
    same_frames (del_range U n (Z.to_nat k)) s s'.
Proof.
  intros Hok Hn Hk Hu. unfold uvmunmap.
  assert ((n * PGSIZE) mod PGSIZE =? 0 = true) as -> by (unfold PGSIZE; dlia). cbn [negb].
  destruct (unmap_run (Z.to_nat k) s T root l U n (S (Z.to_nat k))) as (s' & fr & E & Hr); [done|lia..|].
  replace ((n + Z.of_nat (Z.to_nat k)) * PGSIZE) with (u64 (n * PGSIZE + k * PGSIZE)) in E.
  - eauto.
  - rewrite <-Z.mul_add_distr_r, u64_user by lia. f_equal. lia.
Qed.

(** The number of pages a size takes. *)
Definition npages (sz : Z) : Z := (sz + PGSIZE - 1) / PGSIZE.

Lemma pgroundup64_npages sz : 0 <= sz <= MAXVA -> pgroundup64 sz = npages sz * PGSIZE.
Proof.
  clear F mF sysent. intros Hs. unfold pgroundup64. rewrite PGROUNDUP_div. change (u64 (npages sz * PGSIZE) = npages sz * PGSIZE).
  pose proof maxva_int. unfold u64. apply Z.mod_small. unfold npages, PGSIZE. dlia.
Qed.

Lemma npages_le a b : a <= b -> npages a <= npages b.
Proof. intros. apply Z.div_le_mono; unfold PGSIZE; lia. Qed.

Lemma npages_user sz : sz <= USER_TOP -> npages sz <= UT.
Proof.
  clear F mF sysent. intros Hs. unfold npages, UT. pose proof trapframe_top as [Hm _]. unfold USER_TOP in *.
  unfold PGSIZE in *. dlia.
Qed.

Lemma npages_nonneg sz : 0 <= sz -> 0 <= npages sz.
Proof. intros. apply Z.div_pos; unfold PGSIZE; lia. Qed.

(** The page count survives the [int] it is held in. *)
Lemma npages_int n o : 0 <= n <= o -> o < 2 ^ 31 ->
  u64 (s32 (u64 (o * PGSIZE - n * PGSIZE) / PGSIZE)) = o - n.
Proof.
  intros Hn Ho. assert (u64 (o * PGSIZE - n * PGSIZE) = (o - n) * PGSIZE) as ->.
  { unfold u64, PGSIZE. rewrite Z.mod_small; lia. }
  rewrite Z.div_mul by done. rewrite s32_small by lia. unfold u64. rewrite Z.mod_small; lia.
Qed.

Lemma uvmdealloc_run s T root l U oldsz newsz :
  as_ok s T root l U -> 0 <= newsz -> 0 <= oldsz <= USER_TOP ->
  let k := Z.to_nat (npages oldsz - npages newsz) in
  exists s' fr, uvmdealloc kend PHYSTOP root oldsz newsz s = Ok (Z.min oldsz newsz, s') /\
    fr ≡ₚ frames U (npages newsz) k /\ as_ok s' T root (fr ++ l) (del_range U (npages newsz) k) /\
    same_frames (del_range U (npages newsz) k) s s'.
Proof.
  intros Hok Hn Ho k. unfold uvmdealloc.
  assert (oldsz <= MAXVA) by (pose proof trapframe_top; unfold USER_TOP in Ho; lia).
  pose proof maxva_int.
  pose proof (npages_nonneg newsz Hn). pose proof (npages_user oldsz ltac:(lia)).
  destruct (newsz >=? oldsz) eqn:E.
  - pose proof (npages_le oldsz newsz ltac:(lia)). exists s, [].
    assert (k = 0%nat) as -> by lia. rewrite Z.min_l by lia. by split_and!.
  - rewrite Z.min_r by lia. pose proof (npages_le newsz oldsz ltac:(lia)).
    rewrite !pgroundup64_npages by lia.
    destruct (npages newsz * PGSIZE <? npages oldsz * PGSIZE) eqn:E2; cbn [when].
    + cbv zeta. rewrite npages_int by (unfold npages in *; unfold PGSIZE in *; dlia).
      destruct (uvmunmap_run s T root l U (npages newsz) (npages oldsz - npages newsz) Hok)
        as (s' & fr & E' & Hr); [lia..|].
      rewrite (bind_ok _ _ _ _ _ E'). eauto.
    + assert (k = 0%nat) as -> by (unfold PGSIZE in *; lia). exists s, []. by split_and!.
Qed.

(** *** Growing *)

Lemma npages_mul n : npages (n * PGSIZE) = n.
Proof. clear F mF sysent. unfold npages, PGSIZE. dlia. Qed.

Lemma frames_app j : forall U n k, frames U n (j + k) = frames U n j ++ frames U (n + Z.of_nat j) k.
Proof.
  induction j as [|j IH]; intros U n k; cbn [frames Nat.add].
  - by rewrite Z.add_0_r.
  - rewrite IH, app_assoc. do 2 f_equal. lia.
Qed.

Lemma frames_insert k : forall U n i e, ~ (n <= i < n + Z.of_nat k) ->
  frames (<[i := e]> U) n k = frames U n k.
Proof.
  induction k as [|k IH]; intros U n i e Hi; cbn [frames]; [done|].
  rewrite lookup_insert_ne, IH by lia. done.
Qed.

Lemma frames_ext k : forall U U' n, (forall i, n <= i < n + Z.of_nat k -> U' !! i = U !! i) ->
  frames U' n k = frames U n k.
Proof.
  induction k as [|k IH]; intros U U' n Hi; cbn [frames]; [done|].
  rewrite Hi by lia. f_equal. apply IH. intros. apply Hi. lia.
Qed.

Lemma elem_of_frames k : forall U n p,
  p ∈ frames U n k <-> exists i f, n <= i < n + Z.of_nat k /\ U !! i = Some (p, f).
Proof.
  induction k as [|k IH]; intros U n p; cbn [frames].
  - rewrite elem_of_nil. split; [done|]. intros (i & f & ? & _). lia.
  - rewrite elem_of_app, IH. split.
    + intros [Hp|(i & f & Hi & Hu)]; [|exists i, f; split; [lia|done]].
      destruct (U !! n) as [[pa f]|] eqn:E; [|by apply not_elem_of_nil in Hp].
      apply list_elem_of_singleton in Hp as ->. exists n, f. split; [lia|done].
    + intros (i & f & Hi & Hu). destruct (decide (i = n)) as [->|Hne].
      * left. rewrite Hu. by left.
      * right. exists i, f. split; [lia|done].
Qed.

(** The tables are those of [T] and the pages [tabs]. *)
Definition more_tabs (T T' : tables) (tabs : list Z) : Prop :=
  T ⊆ T' /\ forall pt, is_tab T' pt <-> is_tab T pt \/ pt ∈ tabs.

Lemma more_tabs_refl T : more_tabs T T [].
Proof. clear. split; [done|]. intros pt. rewrite elem_of_nil. tauto. Qed.

Lemma more_tabs_trans T1 T2 T3 a b : more_tabs T1 T2 a -> more_tabs T2 T3 b -> more_tabs T1 T3 (a ++ b).
Proof.
  clear. intros [A1 A2] [B1 B2]. split; [by trans T2|]. intros pt. rewrite B2, A2, elem_of_app. tauto.
Qed.

Section Grow.
  Context (root oldsz newsz n0 : Z) (f : uperm) (xperm : Z).
  Context (Hperm : Z.lor (Z.lor PTE_R PTE_U) xperm = perm_bits f).
  Context (Hnew : newsz <= USER_TOP) (Hn0 : 0 <= n0).

(** What the pages [n, n + k) of [U'] are after a successful growth. *)
Definition grown (n : Z) (k : nat) (U : space) (s' : kmem) (U' : space) : Prop :=
  (forall i, n <= i < n + Z.of_nat k -> exists pa, U' !! i = Some (pa, f) /\
     forall a, in_page pa a = true -> km_mem s' a = 0) /\
  (forall i, ~ (n <= i < n + Z.of_nat k) -> U' !! i = U !! i).

Definition grow_ok (n : Z) (k : nat) (s : kmem) (T : tables) (l : list Z) (U : space)
    (r : Z) (s' : kmem) (T' : tables) (l' : list Z) (U' : space) : Prop :=
  exists tabs, more_tabs T T' tabs /\ as_ok s' T' root l' U' /\
    ((r = newsz /\ grown n k U s' U' /\ l ≡ₚ tabs ++ frames U' n k ++ l' /\ same_frames U s s') \/
     (r = 0 /\ U' = del_range U n0 (Z.to_nat (n - n0)) /\
      frames U n0 (Z.to_nat (n - n0)) ++ l ≡ₚ tabs ++ l' /\ same_frames U' s s')).

Lemma roll_back s T l U n :
  as_ok s T root l U -> n0 <= n <= UT ->
  exists s' l', (uvmdealloc kend PHYSTOP root (n * PGSIZE) (n0 * PGSIZE) ;;; ret (inr 0)) s
      = Ok ((inr 0 : Z + Z), s') /\
    as_ok s' T root l' (del_range U n0 (Z.to_nat (n - n0))) /\
    frames U n0 (Z.to_nat (n - n0)) ++ l ≡ₚ l' /\
    same_frames (del_range U n0 (Z.to_nat (n - n0))) s s'.
Proof.
  intros Hok Hn.
  destruct (uvmdealloc_run s T root l U (n * PGSIZE) (n0 * PGSIZE)) as (s' & fr & E & Hp & Hok' & Hs');
    [done|unfold PGSIZE; lia| |].
  { pose proof trapframe_top as [Hm _]. unfold UT, USER_TOP in *. unfold PGSIZE in *. dlia. }
  rewrite !npages_mul in Hp, Hok', Hs'. exists s', (fr ++ l).
  rewrite (bind_ok _ _ _ _ _ E). split_and!; [done..| |done]. by rewrite Hp.
Qed.

Lemma uvmalloc_loop k : forall s T l U n fuel,
  as_ok s T root l U -> n0 <= n -> n + Z.of_nat k = Z.max n (npages newsz) ->
  (forall i, n <= i < npages newsz -> U !! i = None) -> (k < fuel)%nat ->
  exists r s' T' l' U',
    loop fuel (uvmalloc_body kend PHYSTOP root (n0 * PGSIZE) newsz xperm) (n * PGSIZE) s = Ok (r, s') /\
    grow_ok n k s T l U r s' T' l' U'.
Proof.
  pose proof (npages_user newsz Hnew) as HU.
  induction k as [|k IH]; intros s T l U n fuel Hok Hn Hk Hno Hf;
    (destruct fuel as [|fuel]; [lia|]); cbn [loop]; unfold uvmalloc_body at 1.
  - assert (n * PGSIZE <? newsz = false) as -> by (unfold npages, PGSIZE in *; dlia).
    exists newsz, s, T, l, U. split; [done|]. exists []. split; [apply more_tabs_refl|]. split; [done|].
    left. cbn. split_and!; try done. split; [lia|done].
  - assert (n * PGSIZE <? newsz = true) as -> by (unfold npages, PGSIZE in *; dlia). cbn [negb].
    assert (0 <= n < UT) as HnU by lia.
    pose proof (as_kalloc s T root l U Hok) as Hka. destruct l as [|p l].
    { rewrite bind_assoc, (bind_ok _ _ _ _ _ Hka). cbn [Z.eqb].
      destruct (roll_back s T [] U n Hok) as (s' & l' & E & Hok' & Hp & Hs); [lia|].
      rewrite (bind_ok _ _ _ _ _ E). exists 0, s', T, l', (del_range U n0 (Z.to_nat (n - n0))).
      split; [done|]. exists []. split; [apply more_tabs_refl|]. split; [done|]. right. by split_and!. }
    destruct Hka as (s0 & s1 & E0 & E1 & Hp0 & Hok1 & (Hpp & Hpl & Hpt & Hpu & HpF) & Hs1 & Hz1).
    rewrite bind_assoc, (bind_ok _ _ _ _ _ E0), (proj2 (Z.eqb_neq p 0)) by done.
    rewrite bind_assoc, (bind_ok _ _ _ _ _ E1), Hperm, bind_assoc.
    destruct (mappages_one s1 T root l U n p f Hok1 HnU (Hno n ltac:(lia)) Hpp Hpl Hpt Hpu HpF)
      as (r & s2 & T2 & l2 & E2 & (Hsub & new & Hl2 & Htab) & Hs2 & Hz2 & Hcase).
    rewrite (bind_ok _ _ _ _ _ E2).
    assert (more_tabs T T2 new) as Hmt by (by split).
    destruct Hcase as [[-> Hok2]|(-> & -> & Hok2 & Hpt2)]; cbn [Z.eqb negb].
    + rewrite ret_bind, u64_va by done.
      destruct (IH s2 T2 l2 (<[n := (p, f)]> U) (n + 1) fuel Hok2)
        as (r & s' & T' & l' & U' & E & tabs & Hmt' & Hok' & Hres); [lia|lia| |lia|].
      { intros i Hi. rewrite lookup_insert_ne by lia. apply Hno. lia. }
      exists r, s', T', l', U'. split; [done|]. exists (new ++ tabs).
      split; [by eapply more_tabs_trans|]. split; [done|]. subst l.
      destruct Hres as [(-> & [Hg1 Hg2] & Hp & Hs)|(-> & -> & Hp & Hs)]; [left|right].
      * assert (U' !! n = Some (p, f)) as Hn' by (rewrite Hg2 by lia; apply lookup_insert_eq).
        split_and!; [done| | |].
        -- split.
           ++ intros i Hi. destruct (decide (i = n)) as [->|Hne]; [|apply Hg1; lia].
              exists p. split; [done|]. intros a Ha.
              rewrite (Hs n p f a); [by rewrite Hz2, Hz1|apply lookup_insert_eq|done].
           ++ intros i Hi. rewrite Hg2 by lia. apply lookup_insert_ne. lia.
        -- cbn [frames]. rewrite Hn', Hp. cbn [app]. rewrite <-!app_assoc. cbn.
           solve_Permutation.
        -- eapply same_frames_trans; [exact Hs1|]. eapply same_frames_trans; [exact Hs2|].
           eapply same_frames_sub; [|exact Hs]. apply insert_subseteq, Hno. lia.
      * replace (Z.to_nat (n + 1 - n0)) with (Z.to_nat (n - n0) + 1)%nat in * by lia.
        assert (del_range (<[n := (p, f)]> U) n0 (Z.to_nat (n - n0) + 1) =
                del_range U n0 (Z.to_nat (n - n0))) as Ed.
        { apply map_eq. intros i. rewrite !lookup_del_range.
          destruct (decide (i = n)) as [->|Hne].
          - rewrite bool_decide_eq_true_2, bool_decide_eq_false_2 by lia. symmetry. apply Hno. lia.
          - rewrite lookup_insert_ne by done. repeat case_bool_decide; try done; lia. }
        rewrite Ed in *. split_and!; [done|done| |].
        -- rewrite frames_app, frames_insert in Hp by lia. cbn [frames] in Hp.
           replace (n0 + Z.of_nat (Z.to_nat (n - n0))) with n in Hp by lia.
           rewrite lookup_insert_eq in Hp. cbn [app] in Hp. rewrite <-!app_assoc in Hp. cbn [app] in Hp.
           rewrite <-!app_assoc, <-Hp. cbn. solve_Permutation.
        -- eapply same_frames_trans; [eapply same_frames_sub; [apply del_range_sub|exact Hs1]|].
           eapply same_frames_trans; [eapply same_frames_sub; [apply del_range_sub|exact Hs2]|done].
    + rewrite app_nil_r in Hl2. subst l.
      destruct (as_kfree s2 T2 root [] U p Hok2) as (s3 & E3 & Hok3 & Hs3).
      { split_and!; [done|apply not_elem_of_nil|done|done|done]. }
      rewrite bind_assoc, (bind_ok _ _ _ _ _ E3).
      destruct (roll_back s3 T2 [p] U n Hok3) as (s' & l' & E & Hok' & Hp & Hs); [lia|].
      rewrite (bind_ok _ _ _ _ _ E). exists 0, s', T2, l', (del_range U n0 (Z.to_nat (n - n0))).
      split; [done|]. exists new. split; [done|]. split; [done|]. right. split_and!; [done|done| |].
      * rewrite <-Hp. solve_Permutation.
      * eapply same_frames_trans; [|exact Hs]. eapply same_frames_sub; [apply del_range_sub|].
        eapply same_frames_trans; [exact Hs1|]. by eapply same_frames_trans.
Qed.

End Grow.

(** uvmalloc, in the form the callers use. *)
Lemma uvmalloc_run s T root l U oldsz newsz f xperm :
  as_ok s T root l U -> Z.lor (Z.lor PTE_R PTE_U) xperm = perm_bits f ->
  0 <= oldsz <= newsz -> newsz <= USER_TOP ->
  (forall i, npages oldsz <= i < npages newsz -> U !! i = None) ->
  let k := Z.to_nat (npages newsz - npages oldsz) in
  exists r s' T' l' U' tabs,
    uvmalloc kend PHYSTOP root oldsz newsz xperm s = Ok (r, s') /\
    more_tabs T T' tabs /\ as_ok s' T' root l' U' /\ same_frames U s s' /\
    ((r = newsz /\ grown f (npages oldsz) k U s' U' /\ l ≡ₚ tabs ++ frames U' (npages oldsz) k ++ l') \/
     (r = 0 /\ U' = U /\ l ≡ₚ tabs ++ l')).
Proof.
  intros Hok Hp Ho Hn Hno k. unfold uvmalloc. rewrite (proj2 (Z.ltb_ge _ _)) by lia.
  assert (newsz <= MAXVA) by (pose proof trapframe_top; unfold USER_TOP in Hn; lia).
  rewrite pgroundup64_npages by lia. pose proof (npages_le oldsz newsz ltac:(lia)).
  pose proof (npages_nonneg oldsz ltac:(lia)).
  destruct (uvmalloc_loop root newsz (npages oldsz) f xperm Hp Hn ltac:(lia) k s T l U (npages oldsz)
    (Z.to_nat ((newsz - npages oldsz * PGSIZE) / PGSIZE) + 2))
    as (r & s' & T' & l' & U' & E & tabs & Hm & Hok' & Hr); [done|lia|lia|done| |].
  { unfold k, npages, PGSIZE in *. dlia. }
  exists r, s', T', l', U', tabs. split_and!; [done|done|done| |].
  - destruct Hr as [(_ & _ & _ & ?)|(_ & -> & _ & Hs)]; [done|].
    rewrite Z.sub_diag in Hs. done.
  - rewrite Z.sub_diag in Hr. destruct Hr as [(? & ? & ? & _)|(? & ? & ? & _)]; [by left|by right].
Qed.

(** *** A new page table *)

Lemma uvmcreate_run s p l : kinv kend PHYSTOP s (p :: l) ->
  (forall pa, F pa -> page_ok pa /\ pa ∉ p :: l /\ forall a, in_page pa a = true -> km_mem s a = mF a) ->
  (forall n, sysent n = 0) ->
  exists s', uvmcreate s = Ok (p, s') /\ as_ok s' {[(top, 0) := p]} p l ∅.
Proof.
  intros Hk HF Hsys. pose proof (kalloc_ok kend PHYSTOP kend_pos s (p :: l) Hk) as (s1 & E1 & Hk1 & Hm1).
  destruct Hk as (_ & Hnd & Hpg). apply Forall_cons in Hpg as [Hpp Hpl].
  apply NoDup_cons in Hnd as [Hpn Hnd].
  set (s2 := set_mem (memset p 0 (Z.to_nat PGSIZE) (km_mem s1)) s1).
  assert (forall a, in_page p a = true -> km_mem s2 a = 0) as Hz.
  { intros a Ha. cbn. by rewrite memset_page, Ha. }
  assert (forall i, 0 <= i < 512 -> load64 (km_mem s2) (p + 8 * i) = 0) as Hl0.
  { intros i Hi. rewrite (load64_page_ext (fun _ => 0) (km_mem s2)); [by apply load64_zero|done|done]. }
  assert (forall va, pte_at s2 {[(top, 0) := p]} va = 0) as Hpte.
  { intros va. unfold pte_at. destruct (_ !! _) as [pt|] eqn:E; [|done].
    apply lookup_singleton_Some in E as [_ <-]. apply Hl0, PX_range. }
  exists s2. split.
  { unfold uvmcreate. rewrite (bind_ok _ _ _ _ _ E1).
    rewrite (proj2 (Z.eqb_neq p 0)) by (destruct Hpp; lia). done. }
  constructor; try (intros; by rewrite ?lookup_empty in * ).
  - constructor.
    + destruct Hk1 as (Hc1 & _ & _). split; [|done]. apply (chain_frame (km_mem s1)); [|exact Hc1].
      intros q a Hq Ha. cbn. rewrite memset_page, (page_apart q p); [done| |done|congruence|].
      * rewrite Forall_forall in Hpl. by apply Hpl.
      * unfold in_page, PGSIZE. lia.
    + constructor.
      * apply lookup_singleton_eq.
      * intros k q pt [[= <- <-] _]%lookup_singleton_Some. done.
      * intros x y pt [<- _]%lookup_singleton_Some [<- _]%lookup_singleton_Some. done.
      * intros k q pt [[= <- <-] _]%lookup_singleton_Some Hlt. lia.
      * intros k q pt i [[= Ek <-] <-]%lookup_singleton_Some Hi.
        rewrite lookup_singleton_ne by (intros [= Ek' _]; lia). rewrite Hl0 by done. apply zero_invalid.
    + intros pt [x [_ <-]%lookup_singleton_Some]. done.
  - intros n Hn _. rewrite Hpte. apply zero_invalid.
  - intros n _. by rewrite Hpte, Hsys.
  - intros pa Hpa. destruct (HF pa Hpa) as (Hp & Hl & Hm). rewrite not_elem_of_cons in Hl.
    split_and!; try tauto.
    + intros [x [_ ->]%lookup_singleton_Some]. tauto.
    + intros n f. by rewrite lookup_empty.
    + intros a Ha. cbn. rewrite memset_page, Hm1, (page_apart pa p) by tauto. by apply Hm.
  - intros n _. left. rewrite Hsys. apply zero_invalid.
Qed.

(** C11: growing a process is all or nothing.  On an address space that has no
    page in the range to be added, uvmalloc returns the new size and exactly the
    pages of the range have been added, zeroed, readable by the user and with
    the requested permissions; or it returns 0 and the address space is as it
    was.  Either way the old pages keep their contents, and every page of the
    free list is still free, or mapped, or one of the new table pages, none
    lost and none used twice. *)
Theorem uvmalloc_all_or_nothing s T root l U oldsz newsz f xperm
    (Hok : as_ok s T root l U) (Hp : Z.lor (Z.lor PTE_R PTE_U) xperm = perm_bits f)
    (Ho : 0 <= oldsz <= newsz) (Hn : newsz <= USER_TOP)
    (Hno : forall i, npages oldsz <= i < npages newsz -> U !! i = None) :
  let k := Z.to_nat (npages newsz - npages oldsz) in
  exists r s' T' l' U' tabs,
    uvmalloc kend PHYSTOP root oldsz newsz xperm s = Ok (r, s') /\
    more_tabs T T' tabs /\ as_ok s' T' root l' U' /\ same_frames U s s' /\
    ((r = newsz /\ grown f (npages oldsz) k U s' U' /\ l ≡ₚ tabs ++ frames U' (npages oldsz) k ++ l') \/
     (r = 0 /\ U' = U /\ l ≡ₚ tabs ++ l')).
Proof. by apply uvmalloc_run. Qed.

End Space.

(** A machine with eight free pages and an empty page table. *)
Lemma wit_space (A : Arch) (HA : ArchOk) : exists s p l, as_ok 4096 40960 (fun _ => False) (fun _ => 0) (fun _ => 0) s {[(top, 0) := p]} p l ∅.
Proof.
  destruct (kinit_ok 4096 40960 ltac:(lia) ltac:(lia) (fun _ => 0) ltac:(lia)) as (s & l & E & Hk & Hl).
  destruct l as [|p l].
  - exfalso. apply (not_elem_of_nil 8192), Hl. split_and!; [done|lia|unfold PGSIZE; lia].
  - destruct (uvmcreate_run 4096 40960 ltac:(lia) (fun _ => False) (fun _ => 0) (fun _ => 0) s p l Hk ltac:(done) ltac:(done)) as (s' & _ & Hok). eauto.
Qed.

Lemma uvmalloc_all_or_nothing_witness :
  exists s root l r s' T' l' U', @as_ok Riscv.arch 4096 40960 (fun _ => False) (fun _ => 0) (fun _ => 0) s {[(@top Riscv.arch, 0) := root]} root l ∅ /\
    @uvmalloc Riscv.arch 4096 40960 root 0 5000 4 s = Ok (r, s') /\
    @as_ok Riscv.arch 4096 40960 (fun _ => False) (fun _ => 0) (fun _ => 0) s' T' root l' U' /\ (r = 5000 \/ U' = ∅).
Proof.
  destruct (wit_space Riscv.arch riscv_ok) as (s & p & l & Hok).
  destruct (uvmalloc_all_or_nothing 4096 40960 ltac:(lia) ltac:(lia) _ _ _ s _ p l ∅ 0 5000
    (Uperm true true false true) 4 Hok) as (r & s' & T' & l' & U' & tabs & E & _ & Hok' & _ & Hr);
    [done|lia|by vm_compute|done|].
  exists s, p, l, r, s', T', l', U'. split_and!; [done..|]. tauto.
Defined.
