(* ===== verification/VmUser.v ===== *)
(** VmUser: user memory as the kernel sees it through copyin and copyout.  A
    page that was promised by sbrk but not yet allocated reads as zeroes, so
    faulting it in changes nothing; copyout stores exactly its bytes, copyin
    returns what is there, and no other byte of the address space changes. *)

From S2P Require Import Prelude CString Kalloc Arch Vm VmTable VmSpace.

Lemma put_bytes_out l : forall m a x, x < a \/ a + zlen l <= x -> put_bytes m a l x = m x.
Proof.
  induction l as [|c l IH]; intros m a x Hx; cbn [put_bytes]; [done|].
  unfold zlen in *. cbn [length] in Hx. rewrite IH by lia. apply upd_ne. lia.
Qed.

Lemma put_bytes_in l : forall m a x, a <= x < a + zlen l -> put_bytes m a l x = getz l (x - a).
Proof.
  induction l as [|c l IH]; intros m a x Hx; unfold zlen in *; cbn [put_bytes length] in *; [lia|].
  destruct (decide (x = a)) as [->|Hne].
  - rewrite put_bytes_out by (unfold zlen; lia). rewrite upd_eq, Z.sub_diag. done.
  - rewrite IH by lia. unfold getz.
    replace (Z.to_nat (x - a)) with (S (Z.to_nat (x - (a + 1)))) by lia. done.
Qed.

Lemma page_split va : 0 <= va -> PGROUNDDOWN va = va / PGSIZE * PGSIZE /\ 0 <= va / PGSIZE /\
  0 <= va - va / PGSIZE * PGSIZE < PGSIZE.
Proof. intros. rewrite PGROUNDDOWN_div. unfold PGSIZE. split; [done|dlia]. Qed.

Section User.
  Context {HA : Arch} {HAO : ArchOk} (kend PHYSTOP : Z).
  Context (kend_pos : 0 < kend) (phystop_56 : PHYSTOP <= 2 ^ 56).
  Context (F : Z -> Prop) (mF : memory) (sysent : Z -> Z).
  Context (root sz : Z) (Hsz : 0 <= sz <= USER_TOP).
  Implicit Types s : kmem.

Local Abbreviation tables := (gmap (nat * Z) Z).
Local Abbreviation space := (gmap Z (Z * uperm)).
Local Abbreviation as_ok := (as_ok kend PHYSTOP F mF sysent).
Local Abbreviation proc := (Uproc root sz).

Definition rwu : uperm := Uperm true true false true.

(** The byte at a user address; memory not yet allocated is zero. *)
Definition ub (s : kmem) (U : space) (va : Z) : Z :=
  match U !! (va / PGSIZE) with Some (pa, _) => km_mem s (pa + va mod PGSIZE) | None => 0 end.

(** Pages promised by the size have been allocated, and nothing else. *)
Definition faulted (U U' : space) : Prop :=
  forall n, U' !! n = U !! n \/ (U !! n = None /\ n * PGSIZE < sz /\ exists pa, U' !! n = Some (pa, rwu)).

Lemma faulted_refl U : faulted U U.
Proof. by left. Qed.

Lemma faulted_trans U1 U2 U3 : faulted U1 U2 -> faulted U2 U3 -> faulted U1 U3.
Proof.
  intros H1 H2 n. destruct (H1 n) as [E1|(E1 & Hl & pa & E2)], (H2 n) as [E3|(E3 & Hl' & pa' & E4)].
  - left. congruence.
  - right. split_and!; eauto. congruence.
  - right. split_and!; eauto. exists pa. congruence.
  - congruence.
Qed.

Lemma faulted_sub U U' n e : faulted U U' -> U !! n = Some e -> U' !! n = Some e.
Proof. intros H1 Hn. destruct (H1 n) as [E|(E & _)]; congruence. Qed.


(** *** The page behind a user address *)

Lemma walkaddr_run s T l U n : as_ok s T root l U -> 0 <= n -> n * PGSIZE < MAXVA ->
  walkaddr root (n * PGSIZE) s =
  Ok (match U !! n with Some (pa, f) => if pu f then pa else 0 | None => 0 end, s).
Proof.
  intros Hok Hn Hva. unfold walkaddr. assert (n * PGSIZE >=? MAXVA = false) as -> by lia.
  destruct (decide (n < UT)) as [Hu|Hu].
  - destruct (walk_entry kend PHYSTOP kend_pos phystop_56 F mF sysent s T root l U n Hok) as (a & Ew & Ha); [lia|].
    rewrite (bind_ok _ _ _ _ _ Ew). destruct (U !! n) as [[pa f]|] eqn:Eu.
    + destruct Ha as (Ha0 & Hl & _). rewrite (proj2 (Z.eqb_neq a 0)) by done.
      unfold ld64, gets. rewrite (bind_ok _ _ s (load64 (km_mem s) a) s) by done. rewrite Hl.
      destruct (ao_page _ _ _ _ _ _ _ _ _ _ Hok n pa f Eu) as (Hp & _ & _).
      assert (frame pa) as Hf by (by eapply page_frame). unfold leaf_of, perm_bits. cbn [fst snd].
      rewrite leaf_valid, leaf_u, leaf_pa by done. cbn [negb]. by destruct (pu f).
    + destruct (Z.eqb_spec a 0) as [|Ha0]; [done|]. destruct Ha as [|Ha]; [done|].
      unfold ld64, gets, bind. by rewrite Ha.
  - assert (U !! n = None) as Eu.
    { destruct (U !! n) eqn:E; [|done]. pose proof (ao_dom _ _ _ _ _ _ _ _ _ _ Hok _ _ E). lia. }
    rewrite Eu.
    pose proof (walk_look kend PHYSTOP kend_pos phystop_56 s T root l (n * PGSIZE)
                  (ao_vm _ _ _ _ _ _ _ _ _ _ Hok) ltac:(unfold PGSIZE in *; lia)) as Ew.
    rewrite (bind_ok _ _ _ _ _ Ew).
    pose proof (ao_sysu _ _ _ _ _ _ _ _ _ _ Hok n ltac:(lia)) as Hsys.
    rewrite <-(ao_sys _ _ _ _ _ _ _ _ _ _ Hok n) in Hsys by lia. unfold pte_at in Hsys.
    destruct (T !! (0%nat, idx 1 (n * PGSIZE))) as [pt|]; [|done].
    destruct (_ =? 0); [done|]. unfold ld64, gets, bind.
    destruct Hsys as [Hv|Hv]; [by rewrite Hv|]. rewrite Hv. by destruct (bits _ PTE_V).
Qed.

Lemma vmfault_run s T l U n : as_ok s T root l U -> 0 <= n -> n * PGSIZE < MAXVA ->
  (forall pa f, U !! n = Some (pa, f) -> pu f = false) ->
  exists r s' T' l' U', vmfault kend PHYSTOP proc root (n * PGSIZE) false s = Ok (r, s') /\
    as_ok s' T' root l' U' /\ same_frames U s s' /\
    ((r = 0 /\ U' = U) \/
     (r <> 0 /\ n * PGSIZE < sz /\ U !! n = None /\ U' = <[n := (r, rwu)]> U /\
      forall a, in_page r a = true -> km_mem s' a = 0)).
Proof.
  intros Hok Hn Hva Hno. unfold vmfault. assert (n * PGSIZE >=? MAXVA = false) as -> by lia. cbn [up_sz].
  destruct (n * PGSIZE >=? sz) eqn:Es.
  { exists 0, s, T, l, U. split_and!; auto. apply same_frames_refl. }
  assert (0 <= n < UT) as HnU.
  { pose proof trapframe_top as [Hm _]. unfold UT, USER_TOP, PGSIZE in *. dlia. }
  replace (PGROUNDDOWN (n * PGSIZE)) with (n * PGSIZE)
    by (rewrite PGROUNDDOWN_div; unfold PGSIZE; dlia).
  destruct (walk_entry kend PHYSTOP kend_pos phystop_56 F mF sysent s T root l U n Hok HnU) as (a & Ew & Ha).
  rewrite (bind_ok _ _ _ _ _ Ew). destruct (U !! n) as [[pa f]|] eqn:Eu.
  - destruct Ha as (Ha0 & Hl & _). rewrite (proj2 (Z.eqb_neq a 0)) by done.
    unfold ld64, gets. rewrite (bind_ok _ _ s (load64 (km_mem s) a) s) by done. rewrite Hl.
    destruct (ao_page _ _ _ _ _ _ _ _ _ _ Hok n pa f Eu) as (Hp & _ & _).
    assert (frame pa) as Hf by (by eapply page_frame). unfold leaf_of, perm_bits. cbn [fst snd].
    rewrite leaf_valid, leaf_u, (Hno pa f) by done. cbn [negb andb].
    exists 0, s, T, l, U. split_and!; auto. apply same_frames_refl.
  - set (v := if a =? 0 then 0 else load64 (km_mem s) a).
    assert ((if a =? 0 then ret 0 else ld64 a) s = Ok (v, s)) as Ev by (unfold v; by destruct (a =? 0)).
    rewrite (bind_ok _ _ _ _ _ Ev).
    assert (negb (a =? 0) && bits v PTE_V = false) as ->.
    { unfold v. destruct (Z.eqb_spec a 0) as [|Ha0]; [done|]. by destruct Ha as [|Ha]. }
    pose proof (as_kalloc kend PHYSTOP kend_pos F mF sysent s T root l U Hok) as Hka. destruct l as [|p l].
    { rewrite (bind_ok _ _ _ _ _ Hka). exists 0, s, T, [], U. split_and!; auto. apply same_frames_refl. }
    destruct Hka as (s0 & s1 & E0 & E1 & Hp0 & Hok1 & (Hpp & Hpl & Hpt & Hpu & HpF) & Hs1 & Hz1).
    rewrite (bind_ok _ _ _ _ _ E0), (proj2 (Z.eqb_neq p 0)) by done.
    rewrite (bind_ok _ _ _ _ _ E1). cbn [up_pagetable].
    replace (Z.lor (Z.lor PTE_W PTE_U) PTE_R) with (perm_bits rwu).
    2: { unfold perm_bits, mk_perm. cbn. rewrite Z.lor_0_l. apply Z.bits_inj'. intros i _.
         rewrite !Z.lor_spec. by destruct (Z.testbit PTE_R i), (Z.testbit PTE_W i), (Z.testbit PTE_U i). }
    destruct (mappages_one kend PHYSTOP kend_pos phystop_56 F mF sysent s1 T root l U n p rwu Hok1 HnU Eu Hpp Hpl Hpt Hpu HpF)
      as (r & s2 & T2 & l2 & E2 & _ & Hs2 & Hz2 & Hcase).
    rewrite (bind_ok _ _ _ _ _ E2).
    destruct Hcase as [[-> Hok2]|(-> & -> & Hok2 & Hpt2)]; cbn [Z.eqb negb].
    + exists p, s2, T2, l2, (<[n := (p, rwu)]> U). split_and!; [done|done|by eapply same_frames_trans|].
      right. split_and!; [done|lia|done|done|]. intros x Hx. by rewrite Hz2, Hz1.
    + destruct (as_kfree kend PHYSTOP kend_pos phystop_56 F mF sysent s2 T2 root [] U p Hok2) as (s3 & E3 & Hok3 & Hs3).
      { split_and!; [done|apply not_elem_of_nil|done|done|done]. }
      rewrite (bind_ok _ _ _ _ _ E3). exists 0, s3, T2, [p], U. split_and!; auto.
      eapply same_frames_trans; [exact Hs1|]. by eapply same_frames_trans.
Qed.

(** Faulting a page in leaves every byte as it reads. *)
Lemma ub_same s s' U va : 0 <= va -> same_frames U s s' -> ub s' U va = ub s U va.
Proof.
  clear. intros Hva Hs. unfold ub. destruct (U !! (va / PGSIZE)) as [[pa f]|] eqn:E; [|done].
  apply (Hs _ _ _ _ E). unfold in_page, PGSIZE in *. dlia.
Qed.

Lemma user_page_run s T l U n : as_ok s T root l U -> 0 <= n ->
  exists r s' T' l' U', user_page kend PHYSTOP proc root (n * PGSIZE) s = Ok (r, s') /\
    as_ok s' T' root l' U' /\ faulted U U' /\
    (forall va, 0 <= va -> ub s' U' va = ub s U va) /\
    (r <> 0 -> exists f, U' !! n = Some (r, f) /\ pu f = true) /\
    (forall pa f, U !! n = Some (pa, f) -> pu f = true -> r <> 0 /\ U' = U).
Proof.
  intros Hok Hn. unfold user_page. destruct (n * PGSIZE >=? MAXVA) eqn:Em.
  { exists 0, s, T, l, U. split_and!; try done; [apply faulted_refl|].
    intros pa f Hu. pose proof (ao_dom _ _ _ _ _ _ _ _ _ _ Hok _ _ Hu). pose proof UT_range.
    unfold PGSIZE in *. lia. }
  rewrite (bind_ok _ _ _ _ _ (walkaddr_run s T l U n Hok Hn ltac:(lia))).
  destruct (U !! n) as [[pa f]|] eqn:Eu.
  - destruct (pu f) eqn:Ep.
    + destruct (ao_page _ _ _ _ _ _ _ _ _ _ Hok n pa f Eu) as ([_ Hp] & _ & _).
      rewrite (proj2 (Z.eqb_neq pa 0)) by lia.
      exists pa, s, T, l, U. split_and!; try done; [apply faulted_refl|eauto|].
      intros pa' f' [= <- <-] _. split; [lia|done].
    + cbn [Z.eqb]. destruct (vmfault_run s T l U n Hok Hn ltac:(lia)) as (r & s' & T' & l' & U' & E & Hok' & Hs & Hr).
      { intros pa' f'. rewrite Eu. by intros [= <- <-]. }
      destruct Hr as [[-> ->]|(_ & _ & Hne & _)]; [|congruence].
      exists 0, s', T', l', U. split_and!; try done; [apply faulted_refl| |].
      * intros va Hva. by apply ub_same.
      * intros pa' f' [= <- <-]. congruence.
  - cbn [Z.eqb]. destruct (vmfault_run s T l U n Hok Hn ltac:(lia)) as (r & s' & T' & l' & U' & E & Hok' & Hs & Hr).
    { by rewrite Eu. }
    exists r, s', T', l', U'. split; [done|]. split; [done|].
    destruct Hr as [[-> ->]|(Hr & Hlt & _ & -> & Hz)].
    + split_and!; try done; [apply faulted_refl|]. intros va Hva. by apply ub_same.
    + split_and!; try done.
      * intros k. destruct (decide (k = n)) as [->|Hne]; [|left; by apply lookup_insert_ne].
        right. split_and!; [done|done|]. exists r. apply lookup_insert_eq.
      * intros va Hva. rewrite <-(ub_same s s' U va Hva Hs). unfold ub.
        destruct (decide (va / PGSIZE = n)) as [<-|Hne]; [|by rewrite lookup_insert_ne].
        rewrite lookup_insert_eq, Eu. apply Hz. unfold in_page, PGSIZE in *. dlia.
      * intros _. exists rwu. split; [apply lookup_insert_eq|done].
Qed.

(** *** copyout *)

Definition writable (U : space) (va : Z) : Prop :=
  exists pa f, U !! (va / PGSIZE) = Some (pa, f) /\ pu f = true /\ pw f = true.
Definition readable (U : space) (va : Z) : Prop :=
  exists pa f, U !! (va / PGSIZE) = Some (pa, f) /\ pu f = true.

(** [k] bytes of [src] overlaid at [a]. *)
Definition patched (a : Z) (src : list Z) (k : Z) (va old : Z) : Z :=
  if (a <=? va) && (va <? a + k) then getz src (va - a) else old.

Lemma same_page a va : 0 <= a -> a <= va < (a / PGSIZE + 1) * PGSIZE -> va / PGSIZE = a / PGSIZE.
Proof. unfold PGSIZE. intros. dlia. Qed.

(** Bytes stored in a frame of the address space. *)
Lemma frame_store s T l U n pa f off bs :
  as_ok s T root l U -> U !! n = Some (pa, f) -> 0 <= off -> off + zlen bs <= PGSIZE ->
  let s' := set_mem (put_bytes (km_mem s) (pa + off) bs) s in
  as_ok s' T root l U /\
  forall va, 0 <= va -> ub s' U va = patched (n * PGSIZE + off) bs (zlen bs) va (ub s U va).
Proof.
  intros Hok Hn Ho Hb s'. destruct (ao_page _ _ _ _ _ _ _ _ _ _ Hok n pa f Hn) as (Hp & Hpl & Hpt).
  pose proof (ao_dom _ _ _ _ _ _ _ _ _ _ Hok _ _ Hn) as Hnr.
  assert (forall a, in_page pa a = false -> km_mem s' a = km_mem s a) as Hout.
  { intros a Ha. apply put_bytes_out. unfold in_page, PGSIZE in *. lia. }
  split.
  - apply as_mem; [done|]. intros q a Hq Ha. apply Hout.
    apply (page_apart kend PHYSTOP q pa); [|done| |done].
    + destruct Hq as [Hq|[Hq|Hq]]; [|by apply (vo_tab _ _ _ _ _ _ (ao_vm _ _ _ _ _ _ _ _ _ _ Hok))|
        by apply (ao_other _ _ _ _ _ _ _ _ _ _ Hok)].
      destruct (vo_free _ _ _ _ _ _ (ao_vm _ _ _ _ _ _ _ _ _ _ Hok)) as (_ & _ & Hf).
      rewrite Forall_forall in Hf. by apply Hf.
    + intros ->. destruct Hq as [?|[?|HF]]; [done..|].
      destruct (ao_other _ _ _ _ _ _ _ _ _ _ Hok pa HF) as (_ & _ & _ & Hu & _). by eapply Hu.
  - intros va Hva. unfold ub, patched.
    assert (0 <= va mod PGSIZE < PGSIZE /\ va = va / PGSIZE * PGSIZE + va mod PGSIZE) as [Hm Hd]
      by (unfold PGSIZE; dlia).
    destruct (decide (va / PGSIZE = n)) as [<-|Hne].
    + rewrite Hn. destruct (_ && _) eqn:E.
      * cbn. rewrite put_bytes_in by lia. f_equal. lia.
      * apply put_bytes_out. unfold PGSIZE in *. lia.
    + assert ((n * PGSIZE + off <=? va) && (va <? n * PGSIZE + off + zlen bs) = false) as ->.
      { destruct (_ && _) eqn:E; [|done]. exfalso. apply Hne. unfold PGSIZE in *. dlia. }
      destruct (U !! (va / PGSIZE)) as [[pa' f']|] eqn:E; [|done]. apply Hout.
      destruct (ao_page _ _ _ _ _ _ _ _ _ _ Hok _ pa' f' E) as (Hp' & _ & _).
      apply (page_apart kend PHYSTOP pa' pa); [done|done| |unfold in_page, PGSIZE in *; lia].
      intros ->. apply Hne. by eapply (ao_inj _ _ _ _ _ _ _ _ _ _ Hok).
Qed.

Lemma zlen_take_min k (l : list Z) : 0 <= k -> zlen (take (Z.to_nat (Z.min k (zlen l))) l) = Z.min k (zlen l).
Proof. intros. unfold zlen. rewrite length_take. lia. Qed.

Lemma copyout_step s T l U a src :
  as_ok s T root l U -> 0 <= a -> src <> [] ->
  let n := a / PGSIZE in
  let m := Z.min (PGSIZE - (a - n * PGSIZE)) (zlen src) in
  exists r s' T' l' U', copyout_body kend PHYSTOP proc root (a, src) s = Ok (r, s') /\
    as_ok s' T' root l' U' /\ faulted U U' /\
    ((r = inr false /\ (forall va, 0 <= va -> ub s' U' va = ub s U va) /\ ~ writable U a) \/
     (r = inl ((n + 1) * PGSIZE, drop (Z.to_nat m) src) /\ writable U' a /\ (writable U a -> U' = U) /\
      forall va, 0 <= va -> ub s' U' va = patched a src m va (ub s U va))).
Proof.
  intros Hok Ha Hsrc n m. destruct (page_split a Ha) as (Epg & Hn & Hoff). fold n in Epg, Hn, Hoff.
  unfold copyout_body. destruct src as [|c src']; [done|]. set (src := c :: src') in *. rewrite Epg.
  destruct (user_page_run s T l U n Hok Hn) as (r & s1 & T1 & l1 & U1 & E1 & Hok1 & Hf1 & Hub1 & Hr & Hm).
  rewrite (bind_ok _ _ _ _ _ E1). destruct (Z.eqb_spec r 0) as [->|Hr0].
  { exists (inr false), s1, T1, l1, U1. split_and!; [done..|]. left. split_and!; [done..|].
    intros (pa & f & Hu & Hpu & _). fold n in Hu. by destruct (Hm pa f Hu Hpu). }
  destruct (Hr Hr0) as (f & Hu1 & Hpu).
  assert (0 <= n < UT) as HnU by (by eapply ao_dom).
  destruct (walk_entry kend PHYSTOP kend_pos phystop_56 F mF sysent s1 T1 root l1 U1 n Hok1 HnU) as (x & Ew & Hx).
  rewrite Hu1 in Hx. destruct Hx as (Hx0 & Hlx & _).
  rewrite (bind_ok _ _ _ _ _ Ew), (proj2 (Z.eqb_neq x 0)) by done.
  unfold ld64, gets. rewrite (bind_ok _ _ s1 (load64 (km_mem s1) x) s1) by done. rewrite Hlx.
  destruct (ao_page _ _ _ _ _ _ _ _ _ _ Hok1 n r f Hu1) as (Hp & _ & _).
  assert (frame r) as Hfr by (by eapply page_frame). unfold leaf_of, perm_bits. cbn [fst snd].
  rewrite leaf_w by done. destruct (pw f) eqn:Epw; cbn [negb].
  - assert (0 <= m <= zlen src) as Hmr by (unfold m, PGSIZE, zlen in *; lia).
    assert (zlen (take (Z.to_nat m) src) = m) as Hzm by (unfold zlen in *; rewrite length_take; lia).
    destruct (frame_store s1 T1 l1 U1 n r f (a - n * PGSIZE) (take (Z.to_nat m) src) Hok1 Hu1)
      as [Hok2 Hub2]; [lia|rewrite Hzm; unfold m; lia|].
    unfold modify. rewrite (bind_ok _ _ s1 tt _) by reflexivity. fold m.
    set (s2 := set_mem _ s1) in *. rewrite (u64_va n HnU).
    exists (inl ((n + 1) * PGSIZE, drop (Z.to_nat m) src)), s2, T1, l1, U1. split_and!; [done..|].
    right. split_and!; [done| | |].
    + exists r, f. by fold n.
    + intros (pa & f' & Hu & Hpu' & _). by apply (Hm pa f').
    + intros va Hva. rewrite Hub2, Hub1 by done. rewrite Hzm.
      replace (n * PGSIZE + (a - n * PGSIZE)) with a by lia. unfold patched.
      destruct (_ && _) eqn:E; [|done]. unfold getz. rewrite lookup_take_lt; [done|]. lia.
  - exists (inr false), s1, T1, l1, U1. split_and!; [done..|]. left. split_and!; [done..|].
    intros (pa & f' & Hu & Hpu' & Hpw'). fold n in Hu. pose proof (faulted_sub _ _ _ _ Hf1 Hu). congruence.
Qed.

Lemma patched_comp a src m k va old :
  0 <= m <= zlen src -> 0 <= k ->
  patched (a + m) (drop (Z.to_nat m) src) k va (patched a src m va old) = patched a src (m + k) va old.
Proof.
  intros Hm Hk. unfold patched.
  destruct ((a + m <=? va) && (va <? a + m + k)) eqn:E1, ((a <=? va) && (va <? a + m)) eqn:E2,
    ((a <=? va) && (va <? a + (m + k))) eqn:E3; try lia; try done.
  unfold getz. rewrite lookup_drop. do 2 f_equal. lia.
Qed.

Lemma copyout_loop fuel : forall src a s T l U,
  as_ok s T root l U -> 0 <= a -> (length src < fuel)%nat ->
  exists ok s' T' l' U' k, loop fuel (copyout_body kend PHYSTOP proc root) (a, src) s = Ok (ok, s') /\
    as_ok s' T' root l' U' /\ faulted U U' /\ 0 <= k <= zlen src /\ (ok = true -> k = zlen src) /\
    (forall va, 0 <= va -> ub s' U' va = patched a src k va (ub s U va)) /\
    (ok = true -> forall va, a <= va < a + zlen src -> writable U' va) /\
    ((forall va, a <= va < a + zlen src -> writable U va) -> ok = true /\ U' = U).
Proof.
  induction fuel as [|fuel IH]; intros src a s T l U Hok Ha Hf; [lia|]. cbn [loop].
  destruct (decide (src = [])) as [->|Hne].
  { exists true, s, T, l, U, 0. cbn. split_and!; try done; [apply faulted_refl| |].
    - intros va Hva. unfold patched. by destruct (_ && _) eqn:E; [lia|].
    - intros _ va Hva. unfold zlen in Hva. cbn in Hva. lia. }
  destruct (copyout_step s T l U a src Hok Ha Hne) as (r & s1 & T1 & l1 & U1 & E1 & Hok1 & Hf1 & Hr).
  assert (0 < zlen src) as Hlen by (unfold zlen; destruct src; [done|cbn; lia]).
  destruct (page_split a Ha) as (_ & Hn & Hoff).
  rewrite (bind_ok _ _ _ _ _ E1). destruct Hr as [(-> & Hub & Hnw)|(-> & Hw & Hsame & Hub)].
  { exists false, s1, T1, l1, U1, 0. split_and!; try done; [lia| |].
    - intros va Hva. rewrite Hub by done. unfold patched. by destruct (_ && _) eqn:E; [lia|].
    - intros Hall. destruct Hnw. apply Hall. lia. }
  set (n := a / PGSIZE) in *. set (m := Z.min (PGSIZE - (a - n * PGSIZE)) (zlen src)) in *.
  assert (0 < m <= zlen src) as Hmr by (unfold m; lia).
  assert (zlen (drop (Z.to_nat m) src) = zlen src - m) as Hzd
    by (unfold zlen in *; rewrite length_drop; lia).
  destruct (IH (drop (Z.to_nat m) src) ((n + 1) * PGSIZE) s1 T1 l1 U1)
    as (ok & s' & T' & l' & U' & k & E & Hok' & Hf' & Hk & Hkt & Hub' & Hw' & Hall'); [done|lia| |].
  { unfold zlen in *. rewrite length_drop. lia. }
  rewrite Hzd in *.
  (* either the rest is empty, or the chunk ended at the page boundary *)
  assert (m < zlen src -> (n + 1) * PGSIZE = a + m) as Hnext by (unfold m; lia).
  assert (forall va, 0 <= va -> ub s' U' va = patched a src (m + k) va (ub s U va)) as Hub2.
  { intros va Hva. rewrite Hub', Hub by done. destruct (decide (m < zlen src)) as [Hlt|Hge].
    - rewrite Hnext by done. apply patched_comp; lia.
    - replace k with 0 by lia. rewrite Z.add_0_r. unfold patched at 1.
      by destruct (_ && _) eqn:E0; [lia|]. }
  exists ok, s', T', l', U', (m + k). split_and!; try done; try lia.
  - by eapply faulted_trans.
  - intros Hok2 va Hva. destruct (decide (va < a + m)) as [Hlt|Hge].
    + destruct Hw as (pa & f & Hu & Hpp). exists pa, f. split; [|done].
      assert (va / PGSIZE = n) as ->; [|by eapply faulted_sub].
      apply same_page; [done|]. fold n. unfold m in *. lia.
    + apply Hw'; [done|]. rewrite Hnext by lia. lia.
  - intros Hall. assert (U1 = U) as -> by (apply Hsame, Hall; lia). apply Hall'.
    intros va Hva. destruct (decide (m < zlen src)) as [Hlt|Hge]; [|lia]. apply Hall.
    rewrite Hnext in Hva by done. lia.
Qed.

(** *** copyin *)

(** [k] bytes of user memory from [a] on. *)
Definition user_bytes (s : kmem) (U : space) (a k : Z) : list Z := ub s U <$> seqZ a k.

Lemma user_bytes_app s U a j k : 0 <= j -> 0 <= k ->
  user_bytes s U a (j + k) = user_bytes s U a j ++ user_bytes s U (a + j) k.
Proof. intros. unfold user_bytes. by rewrite seqZ_app, fmap_app by done. Qed.

Lemma user_bytes_ext s s' U U' a k : 0 <= a -> (forall va, 0 <= va -> ub s' U' va = ub s U va) ->
  user_bytes s' U' a k = user_bytes s U a k.
Proof. intros Ha Hub. apply list_fmap_ext. intros i x [-> _]%lookup_seqZ. apply Hub. lia. Qed.

(** A piece of a page read from its frame. *)
Lemma frame_bytes s U n pa f off m :
  U !! n = Some (pa, f) -> 0 <= off -> 0 <= m -> off + m <= PGSIZE ->
  mem_bytes (km_mem s) (pa + off) (Z.to_nat m) = user_bytes s U (n * PGSIZE + off) m.
Proof.
  intros Hn Ho Hm Hl. apply list_eq. intros i. unfold mem_bytes, user_bytes. rewrite !list_lookup_fmap.
  destruct (decide (i < Z.to_nat m)%nat) as [Hi|Hi].
  - rewrite lookup_seq_lt, lookup_seqZ_lt by lia. cbn. f_equal. unfold ub.
    replace ((n * PGSIZE + off + Z.of_nat i) / PGSIZE) with n by (unfold PGSIZE in *; dlia).
    rewrite Hn. f_equal. unfold PGSIZE in *. dlia.
  - rewrite lookup_seq_ge, lookup_seqZ_ge by lia. done.
Qed.

Lemma copyin_loop fuel : forall len a acc s T l U,
  as_ok s T root l U -> 0 <= a -> 0 <= len -> (Z.to_nat len < fuel)%nat ->
  exists ok s' T' l' U' k, loop fuel (copyin_body kend PHYSTOP proc root) (a, len, acc) s
      = Ok ((ok, acc ++ user_bytes s U a k), s') /\
    as_ok s' T' root l' U' /\ faulted U U' /\ 0 <= k <= len /\ (ok = true -> k = len) /\
    (forall va, 0 <= va -> ub s' U' va = ub s U va) /\
    (ok = true -> forall va, a <= va < a + len -> readable U' va) /\
    ((forall va, a <= va < a + len -> readable U va) -> ok = true /\ U' = U).
Proof.
  induction fuel as [|fuel IH]; intros len a acc s T l U Hok Ha Hlen Hf; [lia|]. cbn [loop].
  unfold copyin_body at 1. destruct (len <=? 0) eqn:E0.
  { assert (len = 0) as -> by lia. exists true, s, T, l, U, 0. unfold user_bytes. cbn. rewrite app_nil_r.
    split_and!; try done; [apply faulted_refl|]. intros _ va Hva. lia. }
  destruct (page_split a Ha) as (Epg & Hn & Hoff). rewrite Epg. set (n := a / PGSIZE) in *.
  destruct (user_page_run s T l U n Hok Hn) as (r & s1 & T1 & l1 & U1 & E1 & Hok1 & Hf1 & Hub1 & Hr & Hm).
  rewrite bind_assoc, (bind_ok _ _ _ _ _ E1). destruct (Z.eqb_spec r 0) as [->|Hr0].
  { exists false, s1, T1, l1, U1, 0. unfold user_bytes. cbn. rewrite app_nil_r.
    split_and!; try done. intros Hall. destruct (Hall a ltac:(lia)) as (pa & f & Hu & Hpu).
    fold n in Hu. by destruct (Hm pa f Hu Hpu). }
  destruct (Hr Hr0) as (f & Hu1 & Hpu). assert (0 <= n < UT) as HnU by (by eapply ao_dom).
  set (m := Z.min (PGSIZE - (a - n * PGSIZE)) len). assert (0 < m <= len) as Hmr by (unfold m; lia).
  unfold gets. rewrite bind_assoc, (bind_ok _ _ s1 _ s1) by reflexivity. fold m.
  rewrite ret_bind, (u64_va n HnU).
  rewrite (frame_bytes s1 U1 n r f) by (done || unfold m in *; lia).
  replace (n * PGSIZE + (a - n * PGSIZE)) with a by lia.
  rewrite (user_bytes_ext s s1 U U1) by done.
  destruct (IH (len - m) ((n + 1) * PGSIZE) (acc ++ user_bytes s U a m) s1 T1 l1 U1)
    as (ok & s' & T' & l' & U' & k & E & Hok' & Hf' & Hk & Hkt & Hub' & Hw' & Hall'); [done|lia..|].
  assert (m < len -> (n + 1) * PGSIZE = a + m) as Hnext by (unfold m; lia).
  exists ok, s', T', l', U', (m + k). split_and!; try done; try lia.
  - rewrite E, <-app_assoc, (user_bytes_app s U a m k), (user_bytes_ext s s1 U U1) by (done || lia).
    do 4 f_equal. destruct (decide (m < len)) as [Hlt|Hge]; [by rewrite Hnext|].
    replace k with 0 by lia. done.
  - by eapply faulted_trans.
  - intros va Hva. by rewrite Hub', Hub1.
  - intros Hok2 va Hva. destruct (decide (va < a + m)) as [Hlt|Hge].
    + exists r, f. split; [|done]. assert (va / PGSIZE = n) as ->; [|by eapply faulted_sub].
      apply same_page; [done|]. fold n. unfold m in *. lia.
    + apply Hw'; [done|]. rewrite Hnext by lia. lia.
  - intros Hall. destruct (Hall a ltac:(lia)) as (pa & f' & Hu & Hpu'). fold n in Hu.
    destruct (Hm pa f' Hu Hpu') as [_ ->]. apply Hall'.
    intros va Hva. destruct (decide (m < len)) as [Hlt|Hge]; [|lia]. apply Hall.
    rewrite Hnext in Hva by done. lia.
Qed.

Lemma user_bytes_patched s U s' U' a src :
  0 <= a -> (forall va, 0 <= va -> ub s' U' va = patched a src (zlen src) va (ub s U va)) ->
  user_bytes s' U' a (zlen src) = src.
Proof.
  intros Ha Hub. apply list_eq. intros i. unfold user_bytes. rewrite list_lookup_fmap.
  destruct (decide (i < length src)%nat) as [Hi|Hi].
  - rewrite lookup_seqZ_lt by (unfold zlen; lia). cbn. rewrite Hub by lia. unfold patched.
    destruct (_ && _) eqn:E; [|unfold zlen in *; lia]. replace (a + Z.of_nat i - a) with (Z.of_nat i) by lia.
    rewrite <-(getz_lookup src (Z.of_nat i)) by (unfold zlen; lia). by rewrite Nat2Z.id.
  - rewrite lookup_seqZ_ge by (unfold zlen; lia). symmetry. apply lookup_ge_None. lia.
Qed.


End User.

