(* ===== verification/Mmu.v ===== *)
(** Mmu: what the machines make of the page tables.  hal_vm_enable of
    hal/riscv/hal_vm.c and hal/loongarch/hal_vm.c, the TLB refill handler of
    hal/loongarch/hal_tlbrefill.S, and the address translation of the hardware as
    its manuals define it: the walk of Sv39, and on LoongArch the instructions
    lddir and ldpte, which the registers that hal_vm_enable sets direct. *)

From S2P Require Import Prelude CString Kalloc Arch Vm VmTable VmSpace VmUser.

Inductive access : Type := Load | Store | Fetch.

(** What user code may do with a page. *)
Definition allowed (f : uperm) (k : access) : bool := pu f && match k with Load => pr f | Store => pw f | Fetch => px f end.

(** ** RISC-V *)

Module Sv39.

Definition SATP_SV39 : Z := Z.shiftl 8 60.
Definition MAKE_SATP (pagetable : Z) : Z := Z.lor SATP_SV39 (Z.shiftr pagetable 12).

(** The register, and the translations that the hart may have kept. *)
Record hart : Type := Hart { satp : Z; cached : list (Z * Z) }.

Definition hal_tlb_flush_all (h : hart) : hart := Hart (satp h) [].
Definition hal_write_satp (x : Z) (h : hart) : hart := Hart x (cached h).
Definition hal_vm_enable (kpgtbl : Z) (h : hart) : hart :=
  let h := hal_tlb_flush_all h in
  let h := hal_write_satp (MAKE_SATP kpgtbl) h in
  hal_tlb_flush_all h.

Definition vpn (level : nat) (va : Z) : Z := Z.land (Z.shiftr va (12 + 9 * Z.of_nat level)) 511.
Definition ppn (pte : Z) : Z := Z.land (Z.shiftr pte 10) (Z.ones 44).

(** The walk: the leaf entry and its level. *)
Fixpoint sv39 (m : memory) (level : nat) (a va : Z) : option (nat * Z) :=
  let pte := load64 m (a + 8 * vpn level va) in
  if negb (bits pte 1) || (negb (bits pte 2) && bits pte 4) then None
  else if bits pte 2 || bits pte 8 then Some (level, pte)
  else match level with O => None | S l => sv39 m l (ppn pte * 4096) va end.

(** An access of user code. *)
Definition translate (m : memory) (h : hart) (k : access) (va : Z) : option Z :=
  if negb (Z.shiftr (satp h) 60 =? 8) then None
  else if negb ((Z.shiftr va 38 =? 0) || (Z.shiftr va 38 =? Z.ones 26)) then None
  else match sv39 m 2 (Z.land (satp h) (Z.ones 44) * 4096) va with
    | Some (l, pte) =>
        let size := 4096 * 512 ^ Z.of_nat l in
        if bits pte 16 && bits pte (match k with Load => 2 | Store => 4 | Fetch => 8 end) && (ppn pte * 4096 mod size =? 0)
        then Some (ppn pte * 4096 + va mod size) else None
    | None => None
    end.
End Sv39.

(** ** LoongArch *)

Module Tlb.

Inductive reg : Type :=
  | T0 | T1 | CRMD | PGDL | PGDH | PWCL | PWCH | RVACFG | DMW0 | DMW1 | KSAVE2
  | TLBRENTRY | TLBRBADV | TLBRSAVE | TLBRELO0 | TLBRELO1 | TLBREHI.

Definition reg_num (r : reg) : nat :=
  match r with
  | T0 => 0 | T1 => 1 | CRMD => 2 | PGDL => 3 | PGDH => 4 | PWCL => 5 | PWCH => 6 | RVACFG => 7 | DMW0 => 8 | DMW1 => 9 | KSAVE2 => 10
  | TLBRENTRY => 11 | TLBRBADV => 12 | TLBRSAVE => 13 | TLBRELO0 => 14 | TLBRELO1 => 15 | TLBREHI => 16
  end.

(** An entry of the TLB is a pair of pages: the number of the pair, the binary
    logarithm of the page size, and the entries of the even and the odd page. *)
Record tlbe : Type := Tlbe { e_vppn : Z; e_ps : Z; e_even : Z; e_odd : Z }.

Record cpu : Type := Cpu { rg : reg -> Z; tlb : list tlbe }.

Definition set (r : reg) (v : Z) (c : cpu) : cpu := Cpu (fun x => if Nat.eqb (reg_num x) (reg_num r) then v else rg c x) (tlb c).

Definition CRMD_DA : Z := Z.shiftl 1 3.
Definition CRMD_PG : Z := Z.shiftl 1 4.

Definition hal_tlb_flush_all (c : cpu) : cpu := Cpu (rg c) [].
Definition hal_vm_enable (tlb_refill_entry kpgtbl : Z) (c : cpu) : cpu :=
  let c := hal_tlb_flush_all c in
  let c := set PGDL kpgtbl c in
  let c := set PGDH kpgtbl c in
  let c := hal_tlb_flush_all c in
  let c := set DMW0 17 c in
  let c := set DMW1 0 c in
  let c := hal_tlb_flush_all c in
  let c := set PWCL (Z.lor (Z.lor (Z.lor (Z.lor (Z.lor (Z.shiftl 12 0) (Z.shiftl 9 5)) (Z.shiftl 21 10)) (Z.shiftl 9 15)) (Z.shiftl 30 20)) (Z.shiftl 9 25)) c in
  let c := set PWCH (Z.lor (Z.shiftl 39 0) (Z.shiftl 9 6)) c in
  let c := set RVACFG 8 c in
  let c := set TLBRENTRY tlb_refill_entry c in
  let crmd := rg c CRMD in
  let crmd := Z.land crmd (Z.lnot CRMD_DA) in
  let crmd := Z.lor crmd CRMD_PG in
  set CRMD crmd c.

(** *** The instructions *)

(** csrwr exchanges; PGD is PGDL or PGDH by the half of the faulting address. *)
Definition csrwr (r s : reg) (c : cpu) : cpu := set r (rg c s) (set s (rg c r) c).
Definition csrrd (r s : reg) (c : cpu) : cpu := set r (rg c s) c.
Definition csrrd_pgd (r : reg) (c : cpu) : cpu := set r (rg c (if Z.testbit (rg c TLBRBADV) 63 then PGDH else PGDL)) c.

Definition field (x lo n : Z) : Z := Z.land (Z.shiftr x lo) (Z.ones n).

(** Where an address's index in the directories of [level] is: its first bit
    and its width. *)
Definition dir_base_width (c : cpu) (level : Z) : Z * Z :=
  if level =? 1 then (field (rg c PWCL) 10 5, field (rg c PWCL) 15 5)
  else if level =? 2 then (field (rg c PWCL) 20 5, field (rg c PWCL) 25 5)
  else if level =? 3 then (field (rg c PWCH) 0 6, field (rg c PWCH) 6 6)
  else (field (rg c PWCH) 12 6, field (rg c PWCH) 18 6).

(** The entry of the faulting address in the directory at [rg c r]; a base with
    the bit of a huge page is left alone. *)
Definition lddir (m : memory) (r : reg) (level : Z) (c : cpu) : cpu :=
  let base := rg c r in
  if Z.testbit base 6 then c
  else
    let '(lo, n) := dir_base_width c level in
    set r (load64 m (Z.lor base (Z.shiftl (field (rg c TLBRBADV) lo n) 3))) c.

(** The entry of the even or the odd page of the faulting address's pair. *)
Definition ldpte (m : memory) (r : reg) (odd : bool) (c : cpu) : cpu :=
  let index := Z.ldiff (field (rg c TLBRBADV) (field (rg c PWCL) 0 5) (field (rg c PWCL) 5 5)) 1 in
  set (if odd then TLBRELO1 else TLBRELO0) (load64 m (Z.lor (rg c r) (Z.shiftl (if odd then index + 1 else index) 3))) c.

Definition tlbfill (c : cpu) : cpu :=
  Cpu (rg c) (Tlbe (Z.shiftr (rg c TLBREHI) 13) (field (rg c TLBREHI) 0 6) (rg c TLBRELO0) (rg c TLBRELO1) :: tlb c).

(** *** The handler *)

(** The end of both paths. *)
Definition fill_and_return (c : cpu) : cpu := csrrd T0 TLBRSAVE (tlbfill c).

(** .Ltlbr_invalid *)
Definition tlbr_invalid (c : cpu) : cpu := fill_and_return (set TLBRELO1 0 (set TLBRELO0 0 c)).
(** .Ltlbr_kern_bad *)
Definition tlbr_kern_bad (c : cpu) : cpu := tlbr_invalid (csrrd T1 KSAVE2 c).

(** The directory that the levels [up], from the root, lead to. *)
Definition descend (m : memory) (up : list Z) (c : cpu) : cpu :=
  foldl (fun c level => let c := lddir m T0 level c in set T0 (u64 (rg c T0 - 1)) c) (csrrd_pgd T0 c) up.

(** The test of one level: the directories above it, then andi and beqz. *)
Definition present (m : memory) (up : list Z) (level : Z) (c : cpu) : cpu :=
  let c := lddir m T0 level (descend m up c) in set T0 (Z.land (rg c T0) 1) c.

(** .Lrefill_ok *)
Definition refill_ok (m : memory) (c : cpu) : cpu :=
  let c := present m [] 3 c in
  if rg c T0 =? 0 then tlbr_invalid c
  else
    let c := present m [3] 2 c in
    if rg c T0 =? 0 then tlbr_invalid c
    else
      let c := present m [3; 2] 1 c in
      if rg c T0 =? 0 then tlbr_invalid c
      else
        let c := descend m [3; 2; 1] c in
        let c := ldpte m T0 false c in
        let c := ldpte m T0 true c in
        fill_and_return c.

Definition HAL_VA_BITS : Z := 38.

Definition tlb_refill_entry (m : memory) (c : cpu) : cpu :=
  let c := csrwr T0 TLBRSAVE c in
  let c := csrrd T0 TLBREHI c in
  let c := set T0 (Z.shiftr (rg c T0) 6) c in
  let c := set T0 (u64 (Z.shiftl (rg c T0) 6)) c in
  let c := set T0 (Z.lor (rg c T0) 12) c in
  let c := csrwr T0 TLBREHI c in
  let c := csrrd T0 TLBRBADV c in
  if Z.testbit (rg c T0) 63 then
    let c := csrwr T1 KSAVE2 c in
    let c := set T1 Loongarch.KSTACK_REGION_BOTTOM c in
    if rg c T0 <? rg c T1 then tlbr_kern_bad c
    else
      let c := set T1 Loongarch.KSTACK_TOP c in
      if rg c T1 <=? rg c T0 then tlbr_kern_bad c
      else refill_ok m (csrrd T1 KSAVE2 c)
  else
    let c := set T0 (Z.shiftr (rg c T0) HAL_VA_BITS) c in
    if negb (rg c T0 =? 0) then tlbr_invalid c else refill_ok m c.

(** *** Translation *)

(** What the hardware does before it enters the handler. *)
Definition miss (va : Z) (c : cpu) : cpu := set TLBREHI (Z.shiftl (Z.shiftr va 13) 13) (set TLBRBADV va c).

(** An access of user code that hits: the entry must be valid, open to level 3,
    and allow the access; a page that is not dirty must not be written. *)
Definition hit (e : tlbe) (k : access) (va : Z) : option Z :=
  let pte := if Z.testbit va 12 then e_odd e else e_even e in
  if bits pte 1 && (field pte 2 2 =? 3) &&
     match k with Load => negb (bits pte (2 ^ 61)) | Store => bits pte 2 | Fetch => negb (bits pte (2 ^ 62)) end
  then Some (field pte 12 44 * 4096 + va mod 4096) else None.

Definition matches (va : Z) (e : tlbe) : bool := (e_ps e =? 12) && (e_vppn e =? Z.shiftr va 13).

(** An access of user code at an address that the TLB does not hold: the
    handler, and the access again. *)
Definition translate (m : memory) (c : cpu) (k : access) (va : Z) : option Z :=
  let c := tlb_refill_entry m (miss va c) in
  match List.find (matches va) (tlb c) with Some e => hit e k va | None => None end.
End Tlb.

(** ** Entries *)

Section Entries.
  Context {HA : Arch} {HAO : ArchOk} (kend PHYSTOP : Z).
  Context (kend_pos : 0 < kend) (phystop_56 : PHYSTOP <= 2 ^ 56).
  Context (F : Z -> Prop) (mF : memory) (sysent : Z -> Z).

Lemma pte_at_page s T va : pte_at s T va = pte_at s T (va / PGSIZE * PGSIZE).
Proof.
  unfold pte_at. rewrite !idx_S, !PX_idx, idx0_page, idx_0. done.
Qed.

(** The entry of an address in an address space. *)
Lemma space_entry s T root l U va : as_ok kend PHYSTOP F mF sysent s T root l U -> 0 <= va < MAXVA ->
  match U !! (va / PGSIZE) with
  | Some (pa, f) => pte_at s T va = leaf_pte pa (mk_perm (pr f) (pw f) (px f) (pu f)) /\ frame pa
  | None => bits (pte_at s T va) PTE_V = false \/ bits (pte_at s T va) PTE_U = false
  end.
Proof.
  intros Hok Hva. rewrite pte_at_page. set (n := va / PGSIZE). assert (0 <= n) as Hn by (apply Z.div_pos; [lia|done]).
  destruct (U !! n) as [[pa f]|] eqn:Eu.
  - split; [by rewrite (ao_map _ _ _ _ _ _ _ _ _ _ Hok n _ Eu)|]. destruct (ao_page _ _ _ _ _ _ _ _ _ _ Hok n pa f Eu) as (Hp & _ & _). by eapply page_frame.
  - destruct (decide (n < UT)) as [Hlt|Hge]; [left; by apply (ao_none _ _ _ _ _ _ _ _ _ _ Hok)|].
    rewrite (ao_sys _ _ _ _ _ _ _ _ _ _ Hok) by lia. apply (ao_sysu _ _ _ _ _ _ _ _ _ _ Hok). lia.
Qed.
End Entries.

(** ** Sv39 finds the entries *)

Section Sv39Ok.
  #[local] Existing Instance Riscv.arch.

Lemma sv39_dir c : frame c ->
  bits (dir_pte c) 1 = true /\ bits (dir_pte c) 2 = false /\ bits (dir_pte c) 4 = false /\ bits (dir_pte c) 8 = false /\ Sv39.ppn (dir_pte c) * 4096 = c.
Proof.
  intros (k & Hk & ->)%frame_mul. unfold dir_pte. cbn [PA2PTE PTE_V Riscv.arch]. rewrite riscv_pa2pte by done.
  split_and!; [by rewrite bits_lor by (apply land_low; lia)..|]. unfold Sv39.ppn. rewrite lor_add by lia. rewrite Z.shiftr_div_pow2, Z.land_ones by lia. replace ((k * 2 ^ 10 + 1) / 2 ^ 10) with k by dlia.
  rewrite Z.mod_small by lia. lia.
Qed.

Lemma sv39_leaf pa r w x u : frame pa ->
  let e := leaf_pte pa (mk_perm r w x u) in
  bits e 1 = true /\ bits e 2 = r /\ bits e 4 = w /\ bits e 8 = x /\ bits e 16 = u /\ Sv39.ppn e * 4096 = pa.
Proof.
  intros (k & Hk & ->)%frame_mul e. unfold e, leaf_pte. cbn [PA2PTE PTE_V_CACHE hal_pte_encode_perm Riscv.arch]. rewrite riscv_pa2pte, <-Z.lor_assoc by done.
  split_and!; [rewrite bits_lor by (apply land_low; lia); by destruct r, w, x, u..|]. unfold Sv39.ppn.
  assert (0 <= Z.lor (mk_perm r w x u) 1 < 2 ^ 10) as Hf by (by destruct r, w, x, u). rewrite lor_add by (lia || done). rewrite Z.shiftr_div_pow2, Z.land_ones by lia.
  replace ((k * 2 ^ 10 + Z.lor (mk_perm r w x u) 1) / 2 ^ 10) with k by dlia. rewrite Z.mod_small by lia. lia.
Qed.

Lemma sv39_down m T root va : pt_wf m T root -> (forall pt, is_tab T pt -> frame pt) -> forall k pt, (k <= 2)%nat -> T !! (k, idx (S k) va) = Some pt ->
  Sv39.sv39 m k pt va = match T !! (0%nat, idx 1 va) with Some p0 => Sv39.sv39 m 0 p0 va | None => None end.
Proof.
  intros Hw Hf. induction k as [|k IH]; intros pt Hk Hpt; [by rewrite Hpt|]. cbn [Sv39.sv39]. change (Sv39.vpn (S k) va) with (PX (S k) va).
  pose proof (tw_link _ _ _ Hw k _ pt (PX (S k) va) Hpt (PX_range _ _)) as Hl. rewrite child_key in Hl. destruct (T !! (k, idx (S k) va)) as [c|] eqn:Ec.
  - rewrite Hl. destruct (sv39_dir c) as (-> & -> & -> & -> & ->); [apply Hf; by eexists|]. cbn [negb andb orb]. apply IH; [lia|done].
  - change PTE_V with 1 in Hl. rewrite Hl. cbn [negb orb]. destruct (T !! (0%nat, idx 1 va)) as [p0|] eqn:E0; [|done].
    destruct (up_closed m T root k va Hw) as [c Hc]; [change top with 2%nat; lia|by eexists|]. congruence.
Qed.

Lemma satp_fields root : frame root -> Z.shiftr (Sv39.MAKE_SATP root) 60 = 8 /\ Z.land (Sv39.MAKE_SATP root) (Z.ones 44) * 4096 = root.
Proof.
  intros (k & Hk & ->)%frame_mul. unfold Sv39.MAKE_SATP, Sv39.SATP_SV39. rewrite (Z.shiftr_div_pow2 (k * 2 ^ 12)), Z.div_mul by lia.
  change (Z.shiftl 8 60) with (8 * 2 ^ 60). rewrite lor_add by lia. rewrite Z.shiftr_div_pow2, Z.land_ones by lia. dlia.
Qed.

(** The outcome of the walk, from the entry alone. *)
Lemma sv39_entry s T root va h k : pt_wf (km_mem s) T root -> (forall pt, is_tab T pt -> frame pt) -> 0 <= va < MAXVA -> Sv39.satp h = Sv39.MAKE_SATP root ->
  let e := pte_at s T va in
  Sv39.translate (km_mem s) h k va =
    if bits e 1 && negb (negb (bits e 2) && bits e 4) && (bits e 2 || bits e 8) && bits e 16 && bits e (match k with Load => 2 | Store => 4 | Fetch => 8 end)
    then Some (Sv39.ppn e * 4096 + va mod 4096) else None.
Proof.
  intros Hw Hf Hva Es e. unfold Sv39.translate. rewrite Es. destruct (satp_fields root) as [-> ->]; [apply Hf; eexists; by apply (tw_root _ _ _ Hw)|].
  change MAXVA with (2 ^ 38) in Hva. rewrite (Z.shiftr_div_pow2 va 38), Z.div_small by lia. cbn [negb Z.eqb Pos.eqb orb].
  rewrite (sv39_down _ T root va Hw Hf 2 root); [|done|change 2%nat with top; by apply (root_key (km_mem s))]. unfold e, pte_at. destruct (T !! (0%nat, idx 1 va)) as [p0|]; [|done].
  cbn [Sv39.sv39]. change (Sv39.vpn 0 va) with (PX 0 va). set (x := load64 (km_mem s) (p0 + 8 * PX 0 va)).
  destruct (bits x 1); [|done]. destruct (negb (bits x 2) && bits x 4); [done|]. cbn [negb orb andb]. destruct (bits x 2 || bits x 8); [|done]. cbn [andb Z.of_nat].
  rewrite Z.pow_0_r, Z.mul_1_r, Z.mod_mul by lia. change (0 =? 0) with true. by rewrite andb_true_r.
Qed.

(** User code on RISC-V. *)
Lemma sv39_space kend PHYSTOP F mF sysent s T root l U h k va :
  0 < kend -> PHYSTOP <= 2 ^ 56 -> as_ok kend PHYSTOP F mF sysent s T root l U -> (forall n pa f, U !! n = Some (pa, f) -> pw f = true -> pr f = true) ->
  Sv39.satp h = Sv39.MAKE_SATP root -> 0 <= va < MAXVA ->
  Sv39.translate (km_mem s) h k va = match U !! (va / PGSIZE) with Some (pa, f) => if allowed f k then Some (pa + va mod PGSIZE) else None | None => None end.
Proof.
  intros Hk Hp Hok Hrw Es Hva. pose proof (ao_vm _ _ _ _ _ _ _ _ _ _ Hok) as Hvm.
  rewrite (sv39_entry s T root va h k); [|by apply Hvm|intros pt Ht; eapply page_frame; [done|done|by apply (vo_tab _ _ _ _ _ _ Hvm)]|done|done].
  pose proof (space_entry kend PHYSTOP Hk Hp F mF sysent s T root l U va Hok Hva) as He. destruct (U !! (va / PGSIZE)) as [[pa f]|] eqn:Eu.
  - destruct He as [-> Hf]. destruct (sv39_leaf pa (pr f) (pw f) (px f) (pu f) Hf) as (-> & E2 & E4 & E8 & -> & ->). rewrite E2, E4, E8. specialize (Hrw _ _ _ Eu). unfold allowed. change PGSIZE with 4096.
    destruct k; rewrite ?E2, ?E4, ?E8; destruct (pr f), (pw f), (px f), (pu f); try done; specialize (Hrw eq_refl); done.
  - change PTE_V with 1 in He. change PTE_U with 16 in He. destruct He as [-> | ->]; [done|]. by rewrite andb_false_r.
Qed.
End Sv39Ok.

(** ** The refill handler finds the entries *)

Section TlbOk.
  #[local] Existing Instance Loongarch.arch.
  Import Tlb.
  Context (m : memory) (T : gmap (nat * Z) Z) (root va : Z).
  Context (Hwf : pt_wf m T root) (Hframe : forall pt, is_tab T pt -> frame pt) (Hva : 0 <= va < MAXVA).

Definition vpwcl : Z := 12 + 9 * 2 ^ 5 + 21 * 2 ^ 10 + 9 * 2 ^ 15 + 30 * 2 ^ 20 + 9 * 2 ^ 25.
Definition vpwch : Z := 39 + 9 * 2 ^ 6.

(** The registers that the walk depends on. *)
Record ready (c : cpu) : Prop := Ready {
  rd_pwcl : rg c PWCL = vpwcl; rd_pwch : rg c PWCH = vpwch; rd_badv : rg c TLBRBADV = va; rd_pgdl : rg c PGDL = root
}.

(** From [c] to [c'] only $t0 changed, to [v]. *)
Definition only_t0 (c c' : cpu) (v : Z) : Prop := rg c' T0 = v /\ (forall x, x <> T0 -> rg c' x = rg c x) /\ tlb c' = tlb c.

Lemma set_t0 c v : only_t0 c (set T0 v c) v.
Proof. split_and!; [done| |done]. intros x Hx. by destruct x. Qed.

Lemma only_t0_trans c c1 c2 v1 v2 : only_t0 c c1 v1 -> only_t0 c1 c2 v2 -> only_t0 c c2 v2.
Proof. intros (H1 & H2 & H3) (H4 & H5 & H6). split_and!; [done| |congruence]. intros x Hx. by rewrite H5, H2. Qed.

Lemma ready_t0 c c' v : ready c -> only_t0 c c' v -> ready c'.
Proof. intros [H1 H2 H3 H4] (_ & H & _). split; by rewrite H. Qed.

Lemma testbit_high x n : 0 <= n -> 0 <= x < 2 ^ n -> Z.testbit x n = false.
Proof. intros Hn Hx. rewrite Z.testbit_eqb, Z.div_small by lia. done. Qed.

Lemma frame_or pt i : frame pt -> 0 <= i < 512 -> Z.testbit pt 6 = false /\ Z.lor pt (Z.shiftl i 3) = pt + 8 * i.
Proof.
  intros (k & Hk & ->)%frame_mul Hi. split; [by rewrite Z.mul_pow2_bits_low by lia|]. rewrite Z.shiftl_mul_pow2, lor_add by lia. lia.
Qed.

Lemma dir_pte_add c : frame c -> dir_pte c = c + 1.
Proof. intros (k & Hk & ->)%frame_mul. unfold dir_pte. cbn [PA2PTE PTE_V Loongarch.arch]. rewrite loongarch_pa2pte by done. by rewrite lor_add by lia. Qed.

(** A directory's entry. *)
Lemma lddir_run c k pt : ready c -> rg c T0 = pt -> frame pt -> (1 <= k <= 3)%nat ->
  lddir m T0 (Z.of_nat k) c = set T0 (load64 m (pt + 8 * PX k va)) c.
Proof.
  intros [H1 H2 H3 H4] E Hf Hk. unfold lddir, dir_base_width. rewrite E, H1, H2, H3. destruct (frame_or pt (PX k va) Hf (PX_range k va)) as [-> Eor].
  assert (k = 1 \/ k = 2 \/ k = 3)%nat as Hc by lia. destruct_or! Hc; subst k; by rewrite <-Eor.
Qed.

(** The handler's way down. *)
Definition path (k : nat) : list Z := take (3 - k) [3; 2; 1].

Lemma path_S k : (k < 3)%nat -> path k = path (S k) ++ [Z.of_nat (S k)].
Proof. intros Hk. assert (k = 0 \/ k = 1 \/ k = 2)%nat as Hc by lia. destruct_or! Hc; by subst k. Qed.

Lemma descend_run c j : ready c -> forall k pt, (k + j = 3)%nat -> T !! (k, idx (S k) va) = Some pt -> only_t0 c (descend m (path k) c) pt.
Proof.
  intros Hr. induction j as [|j IH]; intros k pt Hk Hpt.
  - assert (k = 3%nat) as -> by lia. pose proof (root_key m T root va Hwf Hva) as Hroot. change top with 3%nat in Hroot. rewrite Hroot in Hpt. injection Hpt as <-.
    unfold path, descend. cbn [Nat.sub take foldl]. unfold csrrd_pgd. destruct Hr as [H1 H2 H3 H4]. rewrite H3, (testbit_high va 63) by (change MAXVA with (2 ^ 38) in Hva; lia). rewrite H4. apply set_t0.
  - destruct (tw_up _ _ _ Hwf k _ pt Hpt) as [up Hup]; [change top with 3%nat; lia|]. rewrite <-idx_S in Hup. specialize (IH (S k) up ltac:(lia) Hup).
    rewrite path_S by lia. unfold descend in *. rewrite foldl_app. cbn [foldl]. set (c1 := foldl _ _ _) in *.
    rewrite (lddir_run c1 (S k) up); [|by eapply ready_t0|by apply IH|apply Hframe; by eexists|lia].
    pose proof (tw_link _ _ _ Hwf k _ up (PX (S k) va) Hup (PX_range _ _)) as Hl. rewrite child_key, Hpt in Hl. rewrite Hl.
    assert (frame pt) as Hf by (apply Hframe; by eexists). rewrite dir_pte_add by done. eapply only_t0_trans; [exact IH|]. eapply only_t0_trans; [apply set_t0|].
    cbn [rg set reg_num Nat.eqb]. replace (u64 (pt + 1 - 1)) with pt; [apply set_t0|]. destruct Hf as [_ Hf]. unfold u64. rewrite Z.mod_small; lia.
Qed.

Lemma present_run c k pt : ready c -> (1 <= k <= 3)%nat -> T !! (k, idx (S k) va) = Some pt ->
  only_t0 c (present m (path k) (Z.of_nat k) c) (match T !! ((k - 1)%nat, idx k va) with Some _ => 1 | None => 0 end).
Proof.
  intros Hr Hk Hpt. pose proof (descend_run c (3 - k) Hr k pt ltac:(lia) Hpt) as Hd. unfold present. set (c1 := descend _ _ _) in *.
  rewrite (lddir_run c1 k pt); [|by eapply ready_t0|by apply Hd|apply Hframe; by eexists|done]. eapply only_t0_trans; [exact Hd|].
  refine (only_t0_trans _ _ _ _ _ (set_t0 c1 (load64 m (pt + 8 * PX k va))) _). cbn [rg set reg_num Nat.eqb]. destruct k as [|k]; [lia|]. replace (S k - 1)%nat with k by lia.
  pose proof (tw_link _ _ _ Hwf k _ pt (PX (S k) va) Hpt (PX_range _ _)) as Hl. rewrite child_key in Hl. destruct (T !! (k, idx (S k) va)) as [c'|] eqn:Ec.
  - rewrite Hl, dir_pte_add by (apply Hframe; by eexists). assert (frame c') as (q & Hq & ->)%frame_mul by (apply Hframe; by eexists).
    replace (Z.land (q * 2 ^ 12 + 1) 1) with 1; [apply set_t0|]. change 1 with (Z.ones 1) at 3. rewrite Z.land_ones by lia. dlia.
  - unfold bits in Hl. change PTE_V with 1 in Hl. destruct (Z.land (load64 m (pt + 8 * PX (S k) va)) 1 =? 0) eqn:E; [|done]. apply Z.eqb_eq in E. rewrite E. apply set_t0.
Qed.

(** What the handler installs. *)
Definition filled (c : cpu) (even odd : Z) (c' : cpu) : Prop :=
  tlb c' = Tlbe (Z.shiftr (rg c TLBREHI) 13) (field (rg c TLBREHI) 0 6) even odd :: tlb c /\ rg c' T0 = rg c TLBRSAVE /\ rg c' T1 = rg c T1.

Lemma filled_t0 c c1 v even odd c' : only_t0 c c1 v -> filled c1 even odd c' -> filled c even odd c'.
Proof. intros (_ & H1 & H2) (H3 & H4 & H5). unfold filled. rewrite H3, H4, H5, !H1, H2 by done. done. Qed.

Lemma invalid_run c : filled c 0 0 (tlbr_invalid c).
Proof. done. Qed.

(** The pair of the address's page. *)
Definition even_pte : Z := match T !! (0%nat, idx 1 va) with Some p0 => load64 m (p0 + 8 * Z.ldiff (PX 0 va) 1) | None => 0 end.
Definition odd_pte : Z := match T !! (0%nat, idx 1 va) with Some p0 => load64 m (p0 + 8 * (Z.ldiff (PX 0 va) 1 + 1)) | None => 0 end.

Lemma ldiff_1 i : Z.ldiff i 1 = i - i mod 2.
Proof. change 1 with (Z.ones 1). rewrite Z.ldiff_ones_r, Z.shiftl_mul_pow2, Z.shiftr_div_pow2 by lia. change (2 ^ 1) with 2. dlia. Qed.

Lemma pair_run c p0 : ready c -> T !! (0%nat, idx 1 va) = Some p0 -> filled c even_pte odd_pte (fill_and_return (ldpte m T0 true (ldpte m T0 false (descend m [3; 2; 1] c)))).
Proof.
  intros Hr Hp. pose proof (descend_run c 3 Hr 0 p0 eq_refl Hp) as Hd. change (path 0) with [3; 2; 1] in Hd. eapply filled_t0; [exact Hd|]. pose proof (ready_t0 _ _ _ Hr Hd) as [H1 _ H3 _].
  destruct Hd as (H0 & _ & _). set (c1 := descend m [3; 2; 1] c) in *. unfold even_pte, odd_pte. rewrite Hp.
  assert (frame p0) as Hf by (apply Hframe; by eexists). pose proof (PX_range 0 va) as Hx. assert (0 <= Z.ldiff (PX 0 va) 1 < 511) as Hi by (rewrite ldiff_1; dlia).
  destruct (frame_or p0 (Z.ldiff (PX 0 va) 1) Hf ltac:(lia)) as [_ <-]. destruct (frame_or p0 (Z.ldiff (PX 0 va) 1 + 1) Hf ltac:(lia)) as [_ <-].
  unfold fill_and_return, filled, ldpte. cbn [rg tlb set csrrd tlbfill reg_num Nat.eqb]. rewrite H0, H1, H3. done.
Qed.

(** From a table to the next, and none below a missing one. *)
Lemma below k : (k < 3)%nat -> T !! (k, idx (S k) va) = None -> T !! (0%nat, idx 1 va) = None.
Proof.
  intros Hk Hn. destruct (T !! (0%nat, idx 1 va)) eqn:E; [|done]. destruct (up_closed m T root k va Hwf) as [c Hc]; [change top with 3%nat; lia|by eexists|]. congruence.
Qed.

(** One level of the handler. *)
Lemma level_run c k pt K : ready c -> (k < 3)%nat -> T !! (S k, idx (S (S k)) va) = Some pt ->
  (forall c1 p, ready c1 -> T !! (k, idx (S k) va) = Some p -> filled c1 even_pte odd_pte (K c1)) ->
  filled c even_pte odd_pte (let c1 := present m (path (S k)) (Z.of_nat (S k)) c in if rg c1 T0 =? 0 then tlbr_invalid c1 else K c1).
Proof.
  intros Hr Hk Hpt HK. pose proof (present_run c (S k) pt Hr ltac:(lia) Hpt) as H. replace (S k - 1)%nat with k in H by lia. cbv zeta. set (c1 := present _ _ _ _) in *.
  eapply filled_t0; [exact H|]. rewrite (proj1 H). destruct (T !! (k, idx (S k) va)) as [p|] eqn:E.
  - apply (HK c1 p); [by eapply ready_t0|done].
  - unfold even_pte, odd_pte. rewrite (below k Hk E). apply invalid_run.
Qed.

Lemma refill_ok_run c : ready c -> filled c even_pte odd_pte (refill_ok m c).
Proof.
  intros Hr. pose proof (root_key m T root va Hwf Hva) as Hroot. change top with 3%nat in Hroot. unfold refill_ok.
  pose (test k K c := let c1 := present m (path (S k)) (Z.of_nat (S k)) c in if rg c1 T0 =? 0 then tlbr_invalid c1 else K c1).
  pose (K0 c := fill_and_return (ldpte m T0 true (ldpte m T0 false (descend m [3; 2; 1] c)))).
  change (filled c even_pte odd_pte (test 2%nat (test 1%nat (test 0%nat K0)) c)).
  apply (level_run c 2 root); [done|lia|done|]. intros c3 p2 Hr3 E2. apply (level_run c3 1 p2); [done|lia|done|]. intros c2 p1 Hr2 E1.
  apply (level_run c2 0 p1); [done|lia|done|]. intros c1 p0 Hr1 E0. by apply (pair_run c1 p0).
Qed.

(** The whole handler, for a user address: the pair is installed for pages of
    4096 bytes, and $t0 and $t1 are as they were. *)
Lemma refill_run c : rg c PWCL = vpwcl -> rg c PWCH = vpwch -> rg c PGDL = root ->
  let c' := tlb_refill_entry m (miss va c) in
  tlb c' = Tlbe (Z.shiftr va 13) 12 even_pte odd_pte :: tlb c /\ rg c' T0 = rg c T0 /\ rg c' T1 = rg c T1.
Proof.
  intros H1 H2 H4 c'. assert (0 <= va < 2 ^ 38) as Hv by done. unfold c', tlb_refill_entry. cbv zeta.
  set (c0 := set T0 _ _). set (c1 := csrrd T0 TLBRBADV _).
  assert (rg c1 T0 = va) as -> by done. rewrite (testbit_high va 63) by lia.
  set (c2 := set T0 (Z.shiftr va HAL_VA_BITS) c1). assert (rg c2 T0 = 0) as -> by (unfold c2; cbn [rg set reg_num Nat.eqb]; rewrite Z.shiftr_div_pow2 by done; by apply Z.div_small).
  change (negb (0 =? 0)) with false. cbv iota.
  destruct (refill_ok_run c2) as (E1 & E2 & E3); [by split|]. rewrite E1, E2, E3.
  assert (rg c2 TLBREHI = Z.shiftr va 13 * 2 ^ 13 + 12) as ->.
  { unfold c2, c1, c0. cbn [rg set csrrd csrwr miss reg_num Nat.eqb]. rewrite (Z.shiftl_mul_pow2 _ 13) by lia. rewrite !Z.shiftr_div_pow2, Z.shiftl_mul_pow2 by lia.
    set (x := va / 2 ^ 13). assert (0 <= x < 2 ^ 25) as Hx by (unfold x; dlia). replace (x * 2 ^ 13 / 2 ^ 6 * 2 ^ 6) with (x * 2 ^ 13) by dlia. unfold u64. rewrite Z.mod_small by lia. by rewrite lor_add by lia. }
  assert (0 <= Z.shiftr va 13) as Hs by (apply Z.shiftr_nonneg; lia). split_and!; [|done|done]. f_equal. f_equal.
  - rewrite (Z.shiftr_div_pow2 (_ + _)) by lia. dlia.
  - unfold field. rewrite Z.shiftr_0_r, Z.land_ones by lia. dlia.
Qed.

(** The entry of the address is the one of its half of the pair. *)
Lemma pair_entry s : km_mem s = m -> (if Z.testbit va 12 then odd_pte else even_pte) = pte_at s T va.
Proof.
  intros Em. unfold odd_pte, even_pte, pte_at. rewrite Em. destruct (T !! (0%nat, idx 1 va)) as [p0|]; [|by destruct (Z.testbit va 12)].
  rewrite Z.testbit_odd, Z.shiftr_div_pow2 by lia. rewrite ldiff_1, PX_idx, idx_0. change PGSIZE with (2 ^ 12). set (n := va / 2 ^ 12).
  pose proof (Zmod_odd n) as Ho. replace (n mod 512 mod 2) with (n mod 2) by dlia. rewrite Ho. destruct (Z.odd n); f_equal; lia.
Qed.
End TlbOk.

Section TlbSpace.
  #[local] Existing Instance Loongarch.arch.
  Import Tlb.

Lemma tlb_leaf pa r w x u : frame pa ->
  let e := leaf_pte pa (mk_perm r w x u) in
  bits e 1 = true /\ field e 2 2 = (if u then 3 else 0) /\ bits e 2 = w /\ bits e (2 ^ 61) = negb r /\ bits e (2 ^ 62) = negb x /\ field e 12 44 * 4096 = pa.
Proof.
  intros (k & Hk & ->)%frame_mul e. unfold e, leaf_pte. cbn [PA2PTE PTE_V_CACHE hal_pte_encode_perm Loongarch.arch]. rewrite loongarch_pa2pte, <-Z.lor_assoc by done.
  split_and!.
  - rewrite bits_lor by (by apply land_flags). by destruct r, w, x, u.
  - unfold field. rewrite Z.shiftr_lor, Z.land_lor_distr_l. replace (Z.land (Z.shiftr (k * 2 ^ 12) 2) (Z.ones 2)) with 0; [by destruct r, w, x, u|].
    rewrite Z.shiftr_div_pow2, Z.land_ones by lia. dlia.
  - rewrite bits_lor by (by apply land_flags). by destruct r, w, x, u.
  - rewrite bits_lor by (by apply land_flags). by destruct r, w, x, u.
  - rewrite bits_lor by (by apply land_flags). by destruct r, w, x, u.
  - unfold field. rewrite Z.shiftr_lor, Z.land_lor_distr_l. rewrite (Z.shiftr_div_pow2 (k * 2 ^ 12)), Z.div_mul, Z.land_ones, Z.mod_small by lia.
    match goal with |- Z.lor k ?f * 4096 = _ => replace f with 0 by (by destruct r, w, x, u) end. rewrite Z.lor_0_r. lia.
Qed.

(** User code on LoongArch, after a miss. *)
Lemma tlb_space kend PHYSTOP F mF sysent s T root l U c k va :
  0 < kend -> PHYSTOP <= 2 ^ 56 -> as_ok kend PHYSTOP F mF sysent s T root l U ->
  rg c PWCL = vpwcl -> rg c PWCH = vpwch -> rg c PGDL = root -> 0 <= va < MAXVA ->
  translate (km_mem s) c k va = match U !! (va / PGSIZE) with Some (pa, f) => if allowed f k then Some (pa + va mod PGSIZE) else None | None => None end.
Proof.
  intros Hk Hp Hok H1 H2 H4 Hva. pose proof (ao_vm _ _ _ _ _ _ _ _ _ _ Hok) as Hvm.
  destruct (refill_run (km_mem s) T root va) with (c := c) as (E & _ & _); [by apply Hvm|intros pt Ht; eapply page_frame; [done|done|by apply (vo_tab _ _ _ _ _ _ Hvm)]|done..|].
  unfold translate. rewrite E. cbn [List.find]. unfold matches. cbn [e_ps e_vppn]. rewrite !Z.eqb_refl. cbn [andb]. unfold hit. cbn [e_even e_odd].
  rewrite (pair_entry (km_mem s) T va Hva s eq_refl). pose proof (space_entry kend PHYSTOP Hk Hp F mF sysent s T root l U va Hok Hva) as He. change PGSIZE with 4096.
  change PGSIZE with 4096 in He. destruct (U !! (va / 4096)) as [[pa f]|].
  - destruct He as [-> Hf]. destruct (tlb_leaf pa (pr f) (pw f) (px f) (pu f) Hf) as (-> & -> & -> & -> & -> & ->). unfold allowed.
    destruct k, (pr f), (pw f), (px f), (pu f); done.
  - change PTE_V with 1 in He. destruct He as [-> | He]; [done|]. replace (field (pte_at s T va) 2 2) with 0; [by rewrite andb_false_r|].
    unfold bits in He. apply negb_false_iff, Z.eqb_eq in He. unfold field. change (Z.ones 2) with (Z.shiftr PTE_U 2). by rewrite <-Z.shiftr_land, He.
Qed.
End TlbSpace.


