(* ===== verification/VmFork.v ===== *)
(** VmFork: two address spaces in one memory.  What is done to one of them
    leaves the other alone, and uvmcopy gives the child of a fork the pages of
    its parent, in frames of its own, or gives everything back. *)

From S2P Require Import Prelude CString Kalloc Arch Vm VmTable VmSpace VmUser.

Section Fork.
  Context {HA : Arch} {HAO : ArchOk} (kend PHYSTOP : Z).
  Context (kend_pos : 0 < kend) (phystop_56 : PHYSTOP <= 2 ^ 56).
  (** The other pages in use, and the parent's tables and pages. *)
  Context (O : Z -> Prop) (mO : memory).
  Local Abbreviation tables := (gmap (nat * Z) Z).
  Local Abbreviation space := (gmap Z (Z * uperm)).
  Context (T1 : tables) (r1 : Z) (U1 : space) (e1 e2 : Z -> Z) (s0 : kmem).
  Implicit Types s : kmem.

Definition own (T : tables) (U : space) (pa : Z) : Prop :=
  is_tab T pa \/ exists n f, U !! n = Some (pa, f).

(** The parent, among the others. *)
Definition parent_ok (s : kmem) (l : list Z) : Prop := as_ok kend PHYSTOP O mO e1 s T1 r1 l U1.

(** The child: for it, the parent's pages are in use for something else and
    hold what they held at the beginning. *)
Definition child_ok (s : kmem) (T : tables) (root : Z) (l : list Z) (U : space) : Prop :=
  as_ok kend PHYSTOP (fun pa => own T1 U1 pa \/ O pa) (km_mem s0) e2 s T root l U.

(** Isolation: an address space that is kept apart survives. *)
Lemma as_beside s T2 r2 l0 l U2 :
  parent_ok s0 l0 -> child_ok s T2 r2 l U2 -> parent_ok s l.
Proof.
  intros [A1 A2 A3 A4 A5 A6 A7 A8 A9] Hc. pose proof (ao_other _ _ _ _ _ _ _ _ _ _ Hc) as Ho.
  assert (forall pt, is_tab T1 pt -> page_ok kend PHYSTOP pt /\ pt ∉ l /\
    forall a, in_page pt a = true -> km_mem s a = km_mem s0 a) as Ht.
  { intros pt Ht. destruct (Ho pt) as (? & ? & _ & _ & ?); [by left; left|]. done. }
  assert (forall va, pte_at s T1 va = pte_at s0 T1 va) as Hpte.
  { intros va. apply pte_at_ext. intros pt a Hp. by apply Ht. }
  constructor; try done; [|by setoid_rewrite Hpte|by setoid_rewrite Hpte| |by setoid_rewrite Hpte|].
  - constructor; [apply (ao_vm _ _ _ _ _ _ _ _ _ _ Hc)| |intros pt Hp; by destruct (Ht pt Hp) as (? & ? & _)].
    eapply pt_wf_ext; [|apply A1]. intros pt a Hp. by apply Ht.
  - intros n pa f Hn. destruct (Ho pa) as (? & ? & _); [left; right; eauto|].
    destruct (A5 n pa f Hn) as (_ & _ & ?). done.
  - intros pa Hpa. destruct (A8 pa Hpa) as (? & _ & ? & ? & Hm).
    destruct (Ho pa) as (_ & ? & _ & _ & Hm'); [by right|]. split_and!; try done.
    intros a Ha. by rewrite Hm', Hm.
Qed.

(** A page with the contents another one had at the beginning. *)
Definition page_copy (pa : Z) (s : kmem) (pa' : Z) : Prop :=
  forall off, 0 <= off < PGSIZE -> km_mem s (pa' + off) = km_mem s0 (pa + off).

(** [U] holds copies of the parent's pages below [n] and nothing else. *)
Definition copy_upto (n : Z) (s : kmem) (U : space) : Prop :=
  forall i, match (if i <? n then U1 !! i else None) with
            | Some (pa, f) => exists pa', U !! i = Some (pa', f) /\ page_copy pa s pa'
            | None => U !! i = None
            end.

Lemma copy_upto_same n s s' U : copy_upto n s U -> same_frames U s s' -> copy_upto n s' U.
Proof.
  intros Hc Hs i. specialize (Hc i). destruct (if i <? n then _ else _) as [[pa f]|]; [|done].
  destruct Hc as (pa' & Hu & Hp). exists pa'. split; [done|]. intros off Ho.
  rewrite (Hs i pa' f (pa' + off) Hu) by (unfold in_page, PGSIZE in *; lia). by apply Hp.
Qed.

Lemma copy_upto_skip n s U : U1 !! n = None -> copy_upto n s U -> copy_upto (n + 1) s U.
Proof.
  intros Hn Hc i. specialize (Hc i). destruct (decide (i = n)) as [->|Hne].
  - rewrite Z.ltb_irrefl in Hc. by destruct (n <? n + 1); rewrite ?Hn.
  - replace (i <? n + 1) with (i <? n) by lia. done.
Qed.

Lemma copy_upto_add n s U pa f pa' : U1 !! n = Some (pa, f) -> page_copy pa s pa' ->
  copy_upto n s U -> copy_upto (n + 1) s (<[n := (pa', f)]> U).
Proof.
  intros Hn Hp Hc i. specialize (Hc i). destruct (decide (i = n)) as [->|Hne].
  - rewrite (proj2 (Z.ltb_lt n (n + 1))) by lia. rewrite Hn, lookup_insert_eq. eauto.
  - replace (i <? n + 1) with (i <? n) by lia. by rewrite lookup_insert_ne.
Qed.

Lemma frames_snoc U n : 0 <= n ->
  frames U 0 (Z.to_nat (n + 1)) =
  frames U 0 (Z.to_nat n) ++ match U !! n with Some (pa, _) => [pa] | None => [] end.
Proof.
  intros Hn. replace (Z.to_nat (n + 1)) with (Z.to_nat n + 1)%nat by lia. rewrite frames_app.
  cbn [frames]. rewrite app_nil_r. by replace (0 + Z.of_nat (Z.to_nat n)) with n by lia.
Qed.

(** mappages of one page depends on the permissions through the entry only. *)
Lemma mappages_entry pt va pa p1 p2 s :
  leaf_pte pa p1 = leaf_pte pa p2 -> mappages pt va PGSIZE pa p1 s = mappages pt va PGSIZE pa p2 s.
Proof.
  intros E. unfold mappages. destruct (negb _); [done|]. destruct (negb _); [done|].
  destruct (_ =? 0); [done|]. change (Z.to_nat (PGSIZE / PGSIZE)) with 1%nat. cbn [loop].
  unfold mappages_body. by rewrite E.
Qed.

(** kalloc and a copy of a page of the parent into the new page. *)
Lemma alloc_copy s T root l U pa :
  child_ok s T root l U -> own T1 U1 pa ->
  match l with
  | [] => kalloc s = Ok (0, s)
  | p :: l' => exists sa sb, kalloc s = Ok (p, sa) /\ move p pa (Z.to_nat PGSIZE) sa = Ok (tt, sb) /\
      p <> 0 /\ child_ok sb T root l' U /\ spare kend PHYSTOP (fun q => own T1 U1 q \/ O q) T l' U p /\
      same_frames U s sb /\ page_copy pa sb p
  end.
Proof.
  intros Hok Hpa. pose proof (as_kalloc kend PHYSTOP kend_pos _ _ _ s T root l U Hok) as Hka.
  destruct l as [|p l]; [done|].
  destruct Hka as (sa & sz & E0 & Ez & Hp0 & Hokz & Hsp & Hsz & _).
  unfold zero_page, modify in Ez. injection Ez as Ez.
  assert (forall q a, page_ok kend PHYSTOP q -> q <> p -> in_page q a = true -> in_page p a = false) as Hap.
  { intros q a Hq Hne. apply (page_apart kend PHYSTOP q p); [done|apply Hsp|done]. }
  assert (forall a, in_page p a = false -> km_mem sz a = km_mem sa a) as Hza.
  { intros a Ha. rewrite <-Ez. cbn. by rewrite memset_page, Ha. }
  set (m' := memmove p pa (Z.to_nat PGSIZE) (km_mem sa)).
  assert (forall a, m' a = if in_page p a then km_mem sa (pa + (a - p)) else km_mem sz a) as Hm'.
  { intros a. unfold m'. rewrite memmove_spec. unfold in_page in *.
    replace (Z.of_nat (Z.to_nat PGSIZE)) with PGSIZE by done.
    destruct ((p <=? a) && (a <? p + PGSIZE)) eqn:E; [done|]. by rewrite Hza by (unfold in_page; by rewrite E). }
  assert (set_mem m' sz = set_mem m' sa) as Esb by (rewrite <-Ez; done).
  assert (forall q a, page_ok kend PHYSTOP q -> q <> p -> in_page q a = true -> m' a = km_mem sz a) as Hout.
  { intros q a Hq Hne Ha. by rewrite Hm', (Hap q a). }
  destruct Hsp as (Hpp & Hpl & Hpt & Hpu & HpF).
  exists sa, (set_mem m' sa). split; [done|]. split; [done|]. split; [done|]. rewrite <-Esb. split_and!.
  - apply as_mem; [done|]. intros q a Hq. apply Hout; [|intros ->; tauto].
    destruct Hq as [Hq|[Hq|Hq]]; [|by apply (vo_tab _ _ _ _ _ _ (ao_vm _ _ _ _ _ _ _ _ _ _ Hokz))|
      by apply (ao_other _ _ _ _ _ _ _ _ _ _ Hokz)].
    destruct (vo_free _ _ _ _ _ _ (ao_vm _ _ _ _ _ _ _ _ _ _ Hokz)) as (_ & _ & Hf).
    rewrite Forall_forall in Hf. by apply Hf.
  - by split_and!.
  - intros n q f a Hn Ha. rewrite <-(Hsz n q f a Hn Ha). cbn. apply (Hout q); [|intros ->; by eapply Hpu|done].
    by destruct (ao_page _ _ _ _ _ _ _ _ _ _ Hokz n q f Hn).
  - intros off Ho. cbn. rewrite Hm'.
    assert (in_page p (p + off) = true) as -> by (unfold in_page in *; lia).
    replace (pa + (p + off - p)) with (pa + off) by lia.
    destruct (ao_other _ _ _ _ _ _ _ _ _ _ Hokz pa) as (Hq & _ & _ & _ & Hmq); [by left|].
    assert (in_page pa (pa + off) = true) as Hin by (unfold in_page in *; lia).
    rewrite <-Hmq, Hza; [done| |done]. apply (Hap pa); [done| |done]. intros ->. apply HpF. by left.
Qed.

(** *** The loop of uvmcopy *)

Context (r2 sz : Z) (Hsz : 0 <= sz <= USER_TOP) (l0 : list Z) (Hpar0 : parent_ok s0 l0).

(** What uvmcopy leaves, from a state where the child has copies of the pages
    below [n]: all copies, or an empty address space. *)
Definition copy_ok (n : Z) (T : tables) (l : list Z) (U : space) (r : Z) (s' : kmem) (T' : tables)
    (l' : list Z) (U' : space) : Prop :=
  exists tabs, more_tabs T T' tabs /\ child_ok s' T' r2 l' U' /\
    ((r = 0 /\ copy_upto (Z.max n (npages sz)) s' U' /\
      frames U 0 (Z.to_nat n) ++ l ≡ₚ tabs ++ frames U' 0 (Z.to_nat (Z.max n (npages sz))) ++ l') \/
     (r = -1 /\ U' = ∅ /\ frames U 0 (Z.to_nat n) ++ l ≡ₚ tabs ++ l')).

Lemma copy_undo s T l U n :
  child_ok s T r2 l U -> 0 <= n <= UT -> copy_upto n s U ->
  exists s' l', (uvmunmap kend PHYSTOP r2 0 (n * PGSIZE / PGSIZE) true ;;; ret (inr (-1))) s
      = Ok ((inr (-1) : Z + Z), s') /\
    child_ok s' T r2 l' ∅ /\ frames U 0 (Z.to_nat n) ++ l ≡ₚ l'.
Proof.
  intros Hok Hn Hc. rewrite Z.div_mul by done.
  destruct (uvmunmap_run kend PHYSTOP kend_pos phystop_56 _ _ _ s T r2 l U 0 n Hok)
    as (s' & fr & E & Hp & Hok' & _); [lia..|].
  change (0 * PGSIZE) with 0 in E. exists s', (fr ++ l). rewrite (bind_ok _ _ _ _ _ E).
  split_and!; [done| |by rewrite Hp].
  replace (del_range U 0 (Z.to_nat n)) with (∅ : space) in Hok'; [done|]. symmetry. apply map_eq.
  intros i. rewrite lookup_del_range, lookup_empty. case_bool_decide as Ei; [done|].
  specialize (Hc i). destruct (i <? n) eqn:El; [|done]. destruct (U1 !! i) as [[pa f]|] eqn:Eu; [|done].
  destruct Hc as (pa' & Hu & _). pose proof (ao_dom _ _ _ _ _ _ _ _ _ _ Hok i _ Hu). lia.
Qed.

(** One page of the parent is copied, or there was not enough memory. *)
Lemma copy_page s T l U n pa f :
  parent_ok s l -> child_ok s T r2 l U -> 0 <= n < UT -> n * PGSIZE < sz -> U1 !! n = Some (pa, f) ->
  copy_upto n s U ->
  exists r s' T' l' U' tabs, uvmcopy_body kend PHYSTOP r1 r2 sz (n * PGSIZE) s = Ok (r, s') /\
    more_tabs T T' tabs /\ child_ok s' T' r2 l' U' /\
    ((r = inl ((n + 1) * PGSIZE) /\ copy_upto (n + 1) s' U' /\
      frames U 0 (Z.to_nat n) ++ l ≡ₚ tabs ++ frames U' 0 (Z.to_nat (n + 1)) ++ l') \/
     (r = inr (-1) /\ U' = ∅ /\ frames U 0 (Z.to_nat n) ++ l ≡ₚ tabs ++ l')).
Proof.
  intros Hpar Hok Hn Hlt Hu Hc. unfold uvmcopy_body. rewrite (proj2 (Z.ltb_lt _ _)) by done. cbn [negb].
  cbv zeta. rewrite u64_va by done.
  destruct (walk_entry kend PHYSTOP kend_pos phystop_56 _ _ _ _ _ _ _ _ n Hpar Hn) as (a & Ew & Ha).
  rewrite Hu in Ha. destruct Ha as (Ha0 & Hla & _). rewrite (bind_ok _ _ _ _ _ Ew).
  rewrite (proj2 (Z.eqb_neq a 0)) by done. unfold ld64, gets.
  rewrite (bind_ok _ _ s (load64 (km_mem s) a) s) by done. rewrite Hla.
  assert (frame pa) as Hf.
  { destruct (ao_page _ _ _ _ _ _ _ _ _ _ Hpar n pa f Hu) as (Hp & _). by eapply page_frame. }
  unfold leaf_of, perm_bits. cbn [fst snd]. rewrite leaf_valid, leaf_pa, leaf_flags by done. cbn [negb].
  assert (U !! n = None) as Hno. { specialize (Hc n). by rewrite Z.ltb_irrefl in Hc. }
  pose proof (alloc_copy s T r2 l U pa Hok) as Hka. destruct l as [|p l].
  { rewrite (bind_ok _ _ _ _ _ (Hka ltac:(right; eauto))). cbn [Z.eqb].
    destruct (copy_undo s T [] U n Hok ltac:(lia) Hc) as (s' & l' & E & Hok' & Hp).
    rewrite E. exists (inr (-1)), s', T, l', ∅, []. split; [done|]. split; [apply more_tabs_refl|].
    split; [done|]. right. by split_and!. }
  destruct Hka as (sa & sb & E1 & E2 & Hp0 & Hok2 & (Hpp & Hpl & Hpt & Hpu & HpF) & Hs2 & Hcp);
    [right; eauto|].
  rewrite (bind_ok _ _ _ _ _ E1), (proj2 (Z.eqb_neq p 0)) by done.
  rewrite (bind_ok _ _ _ _ _ E2).
  pose proof (copy_upto_same _ _ _ _ Hc Hs2) as Hc2.
  destruct (mappages_one kend PHYSTOP kend_pos phystop_56 _ _ _ sb T r2 l U n p f Hok2 Hn Hno Hpp Hpl Hpt Hpu HpF)
    as (r & s3 & T3 & l3 & E3 & Htk & Hs3 & Hm3 & Hcase).
  rewrite <-(mappages_entry _ _ _ (PTE_FLAGS (leaf_pte pa (mk_perm (pr f) (pw f) (px f) (pu f))))) in E3
    by (apply leaf_copy; [done|by eapply page_frame]).
  rewrite (bind_ok _ _ _ _ _ E3). destruct Htk as (HT & new & -> & Hnew).
  pose proof (copy_upto_same _ _ _ _ Hc2 Hs3) as Hc3.
  assert (page_copy pa s3 p) as Hcp3.
  { intros off Ho. rewrite Hm3 by (unfold in_page in *; lia). by apply Hcp. }
  destruct Hcase as [[-> Hok3]|(-> & -> & Hok3 & Hpt3)]; cbn [Z.eqb negb].
  - exists (inl ((n + 1) * PGSIZE)), s3, T3, l3, (<[n := (p, f)]> U), new.
    do 2 (split; [done|]). split; [done|]. left. split_and!; [done|by eapply copy_upto_add|].
    rewrite frames_snoc, lookup_insert_eq, frames_insert by lia. solve_Permutation.
  - rewrite app_nil_r in *.
    destruct (as_kfree kend PHYSTOP kend_pos phystop_56 _ _ _ s3 T3 r2 [] U p Hok3) as (s4 & E4 & Hok4 & Hs4).
    { split_and!; [done|apply not_elem_of_nil|done|done|done]. }
    rewrite (bind_ok _ _ _ _ _ E4).
    destruct (copy_undo s4 T3 [p] U n Hok4 ltac:(lia)) as (s' & l' & E & Hok' & Hp);
      [by eapply copy_upto_same|].
    rewrite E. exists (inr (-1)), s', T3, l', ∅, new. do 2 (split; [done|]). split; [done|]. right.
    split_and!; [done..|]. rewrite <-Hp. solve_Permutation.
Qed.

Lemma uvmcopy_loop k : forall s T l U n fuel,
  child_ok s T r2 l U -> 0 <= n -> n + Z.of_nat k = Z.max n (npages sz) ->
  copy_upto n s U -> (k < fuel)%nat ->
  exists r s' T' l' U', loop fuel (uvmcopy_body kend PHYSTOP r1 r2 sz) (n * PGSIZE) s = Ok (r, s') /\
    copy_ok n T l U r s' T' l' U'.
Proof.
  pose proof (npages_user sz (proj2 Hsz)) as HU.
  induction k as [|k IH]; intros s T l U n fuel Hok Hn Hk Hc Hf;
    (destruct fuel as [|fuel]; [lia|]); cbn [loop]; pose proof (as_beside _ _ _ _ _ _ Hpar0 Hok) as Hpar.
  - unfold uvmcopy_body. assert (n * PGSIZE <? sz = false) as -> by (unfold npages, PGSIZE in *; dlia).
    exists 0, s, T, l, U. split; [done|]. exists []. split; [apply more_tabs_refl|]. split; [done|].
    left. replace (Z.max n (npages sz)) with n by lia. by split_and!.
  - assert (n * PGSIZE < sz) as Hlt by (unfold npages, PGSIZE in *; dlia).
    assert (0 <= n < UT) as HnU by lia.
    destruct (U1 !! n) as [[pa f]|] eqn:Eu.
    + destruct (copy_page s T l U n pa f Hpar Hok HnU Hlt Eu Hc)
        as (r & s1 & T1' & l1 & U1' & tabs & E & Hm & Hok1 & [(-> & Hc1 & Hp)|(-> & -> & Hp)]);
        rewrite (bind_ok _ _ _ _ _ E).
      * destruct (IH s1 T1' l1 U1' (n + 1) fuel) as (r & s' & T' & l' & U' & E' & tabs' & Hm' & Hok' & Hr);
          [done|lia|lia|done|lia|].
        exists r, s', T', l', U'. split; [done|]. exists (tabs ++ tabs').
        split; [by eapply more_tabs_trans|]. split; [done|].
        replace (Z.max (n + 1) (npages sz)) with (Z.max n (npages sz)) in Hr by lia.
        destruct Hr as [(-> & ? & Hp')|(-> & -> & Hp')]; [left|right]; split_and!; try done;
          rewrite Hp, Hp', app_assoc; done.
      * exists (-1), s1, T1', l1, ∅. split; [done|]. exists tabs. do 2 (split; [done|]). by right.
    + assert (uvmcopy_body kend PHYSTOP r1 r2 sz (n * PGSIZE) s = Ok (inl ((n + 1) * PGSIZE), s)) as E.
      { unfold uvmcopy_body. rewrite (proj2 (Z.ltb_lt _ _)) by done. cbn [negb]. cbv zeta.
        destruct (walk_entry kend PHYSTOP kend_pos phystop_56 _ _ _ _ _ _ _ _ n Hpar HnU) as (a & Ew & Ha).
        rewrite Eu in Ha. rewrite (bind_ok _ _ _ _ _ Ew), u64_va by done.
        destruct (Z.eqb_spec a 0) as [|Ha0]; [done|]. destruct Ha as [|Ha]; [done|].
        unfold ld64, gets. rewrite (bind_ok _ _ s (load64 (km_mem s) a) s) by done. by rewrite Ha. }
      rewrite (bind_ok _ _ _ _ _ E).
      destruct (IH s T l U (n + 1) fuel) as (r & s' & T' & l' & U' & E' & Hr);
        [done|lia|lia|by apply copy_upto_skip|lia|].
      exists r, s', T', l', U'. split; [done|].
      assert (U !! n = None) as Hno. { specialize (Hc n). by rewrite Z.ltb_irrefl in Hc. }
      unfold copy_ok in *. rewrite frames_snoc, Hno, app_nil_r in Hr by done.
      by replace (Z.max (n + 1) (npages sz)) with (Z.max n (npages sz)) in Hr by lia.
Qed.

Lemma uvmcopy_run T l :
  child_ok s0 T r2 l ∅ ->
  exists r s' T' l' U', uvmcopy kend PHYSTOP r1 r2 sz s0 = Ok (r, s') /\ copy_ok 0 T l ∅ r s' T' l' U'.
Proof.
  intros Hok. pose proof (npages_nonneg sz ltac:(lia)) as Hn.
  apply (uvmcopy_loop (Z.to_nat (npages sz)) s0 T l ∅ 0); [done|lia|lia| |].
  - intros i. destruct (Z.ltb_spec i 0) as [Hi|Hi]; [|done].
    destruct (U1 !! i) as [e|] eqn:Eu; [|done]. pose proof (ao_dom _ _ _ _ _ _ _ _ _ _ Hpar0 i e Eu). lia.
  - unfold npages, PGSIZE. dlia.
Qed.

(** The bytes of a copied address space. *)
Lemma copy_upto_bytes n s U va : copy_upto n s U -> 0 <= va -> va / PGSIZE < n -> ub s U va = ub s0 U1 va.
Proof.
  intros Hc Hva Hn. specialize (Hc (va / PGSIZE)). rewrite (proj2 (Z.ltb_lt _ _)) in Hc by done.
  unfold ub. destruct (U1 !! (va / PGSIZE)) as [[pa f]|]; [|by rewrite Hc].
  destruct Hc as (pa' & -> & Hp). apply Hp. apply Z.mod_pos_bound. done.
Qed.

End Fork.

(** The pages set aside may be described by the memory as it is. *)
Lemma as_rebase `{HA : Arch} kend PHYSTOP F mF e s T root l U :
  as_ok kend PHYSTOP F mF e s T root l U -> as_ok kend PHYSTOP F (km_mem s) e s T root l U.
Proof.
  intros [A1 A2 A3 A4 A5 A6 A7 A8 A9]. constructor; try done.
  intros pa Hpa. destruct (A8 pa Hpa) as (? & ? & ? & ? & _). by split_and!.
Qed.

(** C9: fork copies all of the parent's memory or nothing.  For a child with an
    empty page table of its own, uvmcopy returns 0 and every page of the parent
    below [sz] has a copy in the child with the same permissions and the same
    bytes, in a frame of its own, and pages the parent does not have yet are
    not in the child either; or it returns -1 and the child is empty again.
    Either way the parent's address space, its contents and every other page in
    use are as they were, and every page that was free is free, or one of the
    child's frames or tables: none is lost. *)
Theorem uvmcopy_copies_or_nothing {HA : Arch} {HAO : ArchOk} kend PHYSTOP O mO e1 e2 s T1 r1 U1 T2 r2 l sz
    (Hk : 0 < kend) (Hph : PHYSTOP <= 2 ^ 56) (Hsz : 0 <= sz <= USER_TOP)
    (Hpar : as_ok kend PHYSTOP O mO e1 s T1 r1 l U1)
    (Hch : as_ok kend PHYSTOP (fun pa => own T1 U1 pa \/ O pa) (km_mem s) e2 s T2 r2 l ∅) :
  exists r s' T' l' U' tabs, uvmcopy kend PHYSTOP r1 r2 sz s = Ok (r, s') /\
    as_ok kend PHYSTOP O mO e1 s' T1 r1 l' U1 /\ same_frames U1 s s' /\
    as_ok kend PHYSTOP (fun pa => own T1 U1 pa \/ O pa) (km_mem s) e2 s' T' r2 l' U' /\
    more_tabs T2 T' tabs /\
    ((r = 0 /\ (forall va, 0 <= va < sz -> ub s' U' va = ub s U1 va) /\
      (forall n, 0 <= n < npages sz -> snd <$> U' !! n = snd <$> U1 !! n) /\
      l ≡ₚ tabs ++ frames U' 0 (Z.to_nat (npages sz)) ++ l') \/
     (r = -1 /\ U' = ∅ /\ l ≡ₚ tabs ++ l')).
Proof.
  destruct (uvmcopy_run kend PHYSTOP Hk Hph O mO T1 r1 U1 e1 e2 s r2 sz Hsz l Hpar T2 l Hch)
    as (r & s' & T' & l' & U' & E & tabs & Hm & Hok & Hr).
  exists r, s', T', l', U', tabs. split; [done|]. split; [by eapply as_beside|]. split.
  { intros n pa f a Hn Ha. apply (ao_other _ _ _ _ _ _ _ _ _ _ Hok pa); [left; right; eauto|done]. }
  do 2 (split; [done|]). pose proof (npages_nonneg sz ltac:(lia)).
  replace (Z.max 0 (npages sz)) with (npages sz) in Hr by lia.
  destruct Hr as [(-> & Hc & Hp)|(-> & -> & Hp)]; [left|by right]. split_and!; [done| | |done].
  - intros va Hva. eapply copy_upto_bytes; [done|lia|]. unfold npages, PGSIZE. dlia.
  - intros n Hn. specialize (Hc n). rewrite (proj2 (Z.ltb_lt _ _)) in Hc by lia.
    destruct (U1 !! n) as [[pa f]|]; [|by rewrite Hc]. by destruct Hc as (pa' & -> & _).
Qed.

(** A parent that has grown lazily, and a new page table beside it. *)
Lemma wit_two : exists s r1 r2 l,
  @as_ok Riscv.arch 4096 40960 (fun _ => False) (fun _ => 0) (fun _ => 0) s {[(@top Riscv.arch, 0) := r1]} r1 l ∅ /\
  @as_ok Riscv.arch 4096 40960 (fun pa => own {[(@top Riscv.arch, 0) := r1]} ∅ pa \/ False) (km_mem s)
    (fun _ => 0) s {[(@top Riscv.arch, 0) := r2]} r2 l ∅.
Proof.
  destruct (kinit_ok 4096 40960 ltac:(lia) ltac:(lia) (fun _ => 0) ltac:(lia)) as (s0 & l0 & E & Hk & Hl).
  assert (8192 ∈ l0 /\ 12288 ∈ l0) as [Ha Hb].
  { split; apply Hl; (split; [done|lia || (split; [lia|unfold PGSIZE; lia])]). }
  destruct l0 as [|r1 l0]; [by apply not_elem_of_nil in Ha|].
  destruct l0 as [|r2 l]; [rewrite list_elem_of_singleton in Ha, Hb; lia|].
  destruct (@uvmcreate_run Riscv.arch riscv_ok 4096 40960 ltac:(lia) (fun _ => False) (fun _ => 0) (fun _ => 0) s0 r1 _ Hk
    ltac:(done) ltac:(done)) as (s1 & _ & H1).
  destruct (@uvmcreate_run Riscv.arch riscv_ok 4096 40960 ltac:(lia)
    (fun pa => own {[(@top Riscv.arch, 0) := r1]} ∅ pa \/ False) (km_mem s1) (fun _ => 0) s1 r2 l) as (s2 & _ & H2).
  - apply (ao_vm _ _ _ _ _ _ _ _ _ _ H1).
  - intros pa [[Ht|(n & f & Hn)]|[]]; [|by rewrite lookup_empty in Hn].
    destruct (vo_tab _ _ _ _ _ _ (ao_vm _ _ _ _ _ _ _ _ _ _ H1) pa Ht). by split_and!.
  - done.
  - exists s2, r1, r2, l. split; [|by eapply as_rebase]. by eapply as_beside.
Qed.

Lemma uvmcopy_copies_or_nothing_witness :
  exists s r1 r2 l r s' l' U',
    @as_ok Riscv.arch 4096 40960 (fun _ => False) (fun _ => 0) (fun _ => 0) s {[(@top Riscv.arch, 0) := r1]} r1 l ∅ /\
    @uvmcopy Riscv.arch 4096 40960 r1 r2 5000 s = Ok (r, s') /\
    @as_ok Riscv.arch 4096 40960 (fun _ => False) (fun _ => 0) (fun _ => 0) s' {[(@top Riscv.arch, 0) := r1]} r1 l' ∅ /\
    (r = 0 -> ub s' U' 4500 = 0) /\ (r <> 0 -> U' = ∅).
Proof.
  destruct wit_two as (s & r1 & r2 & l & H1 & H2).
  destruct (@uvmcopy_copies_or_nothing Riscv.arch riscv_ok 4096 40960 _ _ _ _ s _ r1 ∅ _ r2 l 5000 ltac:(lia)
    ltac:(lia) ltac:(split; by vm_compute) H1 H2)
    as (r & s' & T' & l' & U' & tabs & E & Hp & _ & _ & Hm & Hr).
  exists s, r1, r2, l, r, s', l', U'. do 3 (split; [done|]).
  destruct Hr as [(-> & Hb & _)|(-> & -> & _)]; split; try done.
  intros _. by rewrite Hb.
Defined.
