(* ===== verification/VmFree.v ===== *)
(** VmFree: taking a page table apart.  freewalk ends on every page table the
    kernel makes and gives back each of its pages once; with uvmunmap before
    it, uvmfree gives back all the memory of a process. *)

From S2P Require Import Prelude CString Kalloc Arch Vm VmTable VmSpace.

Section Free.
  Context {HA : Arch} {HAO : ArchOk} (kend PHYSTOP : Z).
  Context (kend_pos : 0 < kend) (phystop_56 : PHYSTOP <= 2 ^ 56).
  Local Abbreviation tables := (gmap (nat * Z) Z).
  Context (T : tables) (root : Z) (m0 : memory) (Hw : pt_wf m0 T root).
  Context (Hpages : forall pt, is_tab T pt -> page_ok kend PHYSTOP pt).
  (** All leaf mappings have been removed. *)
  Context (Hempty : forall q pt i, T !! (0%nat, q) = Some pt -> 0 <= i < 512 ->
    bits (load64 m0 (pt + 8 * i)) PTE_V = false).
  Implicit Types s : kmem.

(** The pages of the subtree of the level-[k] table [q]. *)
Definition below (k : nat) (q p : Z) : Prop :=
  exists k' q', T !! (k', q') = Some p /\ (k' <= k)%nat /\ q' / 512 ^ Z.of_nat (k - k') = q.

Lemma div_pow_S q j : q / 512 ^ Z.of_nat (S j) = q / 512 ^ Z.of_nat j / 512.
Proof.
  rewrite Nat2Z.inj_succ, Z.pow_succ_r, Z.mul_comm by lia.
  rewrite Z.div_div; [done|apply Z.pow_nonzero; lia|lia].
Qed.

Lemma below_self k q p : T !! (k, q) = Some p -> below k q p.
Proof. intros Hp. exists k, q. rewrite Nat.sub_diag, Z.div_1_r. split_and!; [done|lia|done]. Qed.

Lemma below_child k q i p : 0 <= i < 512 -> below k (q * 512 + i) p -> below (S k) q p.
Proof.
  intros Hi (k' & q' & Hp & Hk & Hq). exists k', q'. split_and!; [done|lia|].
  replace (S k - k')%nat with (S (k - k')) by lia. rewrite div_pow_S, Hq. dlia.
Qed.

Lemma below_inv k q p : below (S k) q p ->
  T !! (S k, q) = Some p \/ exists i, 0 <= i < 512 /\ below k (q * 512 + i) p.
Proof.
  intros (k' & q' & Hp & Hk & Hq). destruct (decide (k' = S k)) as [->|Hne].
  - left. rewrite Nat.sub_diag, Z.div_1_r in Hq. by subst.
  - right. replace (S k - k')%nat with (S (k - k')) in Hq by lia. rewrite div_pow_S in Hq.
    exists ((q' / 512 ^ Z.of_nat (k - k')) mod 512). split; [apply Z.mod_pos_bound; lia|].
    exists k', q'. split_and!; [done|lia|]. dlia.
Qed.

Lemma below_0 q p : below 0 q p -> T !! (0%nat, q) = Some p.
Proof.
  intros (k' & q' & Hp & Hk & Hq). replace k' with 0%nat in * by lia.
  cbn [Nat.sub] in Hq. rewrite Z.div_1_r in Hq. by subst.
Qed.

(** Different tables of a level have different pages below them. *)
Lemma below_inj k q q' p : below k q p -> below k q' p -> q = q'.
Proof.
  intros (k1 & q1 & H1 & _ & <-) (k2 & q2 & H2 & _ & <-).
  pose proof (tw_inj _ _ _ Hw _ _ _ H1 H2) as [= -> ->]. done.
Qed.

Lemma below_level k q q' p : below k q p -> T !! (S k, q') = Some p -> False.
Proof.
  intros (k1 & q1 & H1 & Hk & _) H2. pose proof (tw_inj _ _ _ Hw _ _ _ H1 H2) as [= -> _]. lia.
Qed.

Lemma below_tab k q p : below k q p -> is_tab T p.
Proof. intros (k' & q' & Hp & _). by eexists. Qed.

(** A subtree with a page has a root. *)
Lemma below_root k : forall q p, (k <= top)%nat -> below k q p -> is_Some (T !! (k, q)).
Proof.
  induction k as [|k IH]; intros q p Hk Hb.
  - apply below_0 in Hb. by eexists.
  - apply below_inv in Hb as [Hp|(i & Hi & Hb)]; [by eexists|].
    destruct (IH _ p ltac:(lia) Hb) as [pt Hpt].
    destruct (tw_up _ _ _ Hw _ _ _ Hpt ltac:(lia)) as [x Hx].
    replace ((q * 512 + i) / 512) with q in Hx by dlia. by eexists.
Qed.

Lemma below_top p : is_tab T p <-> below top 0 p.
Proof.
  split; [|apply below_tab]. intros [[k q] Hp]. destruct (tw_dom _ _ _ Hw _ _ _ Hp) as [Hk _].
  exists k, q. split_and!; [done|done|].
  remember (top - k)%nat as d eqn:Hd. revert k q p Hp Hk Hd. induction d as [|d IH]; intros k q p Hp Hk Hd.
  - rewrite Z.div_1_r. eapply tw_dom; [exact Hw|exact Hp|lia].
  - destruct (tw_up _ _ _ Hw _ _ _ Hp ltac:(lia)) as [x Hx].
    pose proof (IH (S k) (q / 512) x Hx ltac:(lia) ltac:(lia)) as E.
    rewrite Nat2Z.inj_succ, Z.pow_succ_r by lia. rewrite <-Z.div_div by (try apply Z.pow_pos_nonneg; lia).
    done.
Qed.

(** What freewalk needs of a subtree, and what it leaves. *)
Definition intact (s : kmem) (l : list Z) (P : Z -> Prop) : Prop :=
  forall p, P p -> p ∉ l /\ forall a, in_page p a = true -> km_mem s a = m0 a.

Definition freed (P : Z -> Prop) (s : kmem) (l : list Z) (s' : kmem) (l' : list Z) : Prop :=
  kinv kend PHYSTOP s' l' /\ (forall p, p ∈ l' <-> p ∈ l \/ P p) /\
  (forall a, (forall p, P p -> in_page p a = false) -> km_mem s' a = km_mem s a).

Lemma kinv_page s l m' pt : kinv kend PHYSTOP s l -> page_ok kend PHYSTOP pt -> pt ∉ l ->
  (forall a, in_page pt a = false -> m' a = km_mem s a) -> kinv kend PHYSTOP (set_mem m' s) l.
Proof.
  intros (Hc & Hn & Hp) Hpt Hni Hm. split; [|done]. cbn.
  eapply chain_outside; [apply Hpt|done|done|exact Hm|exact Hc].
Qed.

Section Children.
  Context (k : nat) (q pt : Z) (Hk : (S k <= top)%nat) (Hpt : T !! (S k, q) = Some pt).
  Context (IH : forall q pt s l, T !! (k, q) = Some pt -> kinv kend PHYSTOP s l ->
    intact s l (below k q) ->
    exists s' l', freewalk kend PHYSTOP k pt s = Ok (tt, s') /\ freed (below k q) s l s' l').

Definition under (js : list Z) (p : Z) : Prop := exists i, i ∈ js /\ below k (q * 512 + i) p.

Definition child_body (i : Z) : M kmem unit :=
  pte <- ld64 (pt + 8 * i) ;;
  if bits pte PTE_V
  then if hal_pte_is_leaf pte then panic "freewalk: leaf"
       else freewalk kend PHYSTOP k (PTE2PA pte) ;;; st64 (pt + 8 * i) 0
  else ret tt.

Lemma child_page : page_ok kend PHYSTOP pt.
Proof. apply Hpages. by eexists. Qed.

Lemma under_ne js p : under js p -> page_ok kend PHYSTOP p /\ p <> pt.
Proof.
  intros (i & Hi & Hb). split; [by eapply Hpages, below_tab|]. intros ->. by eapply below_level.
Qed.

Lemma child_step j js s l :
  j ∉ js -> 0 <= j < 512 -> kinv kend PHYSTOP s l -> pt ∉ l ->
  load64 (km_mem s) (pt + 8 * j) = load64 m0 (pt + 8 * j) -> intact s l (under (j :: js)) ->
  exists s' l', child_body j s = Ok (tt, s') /\ kinv kend PHYSTOP s' l' /\
    (forall p, p ∈ l' <-> p ∈ l \/ below k (q * 512 + j) p) /\
    (forall i, 0 <= i < 512 -> i <> j -> load64 (km_mem s') (pt + 8 * i) = load64 (km_mem s) (pt + 8 * i)) /\
    (forall a, in_page pt a = false -> (forall p, below k (q * 512 + j) p -> in_page p a = false) ->
       km_mem s' a = km_mem s a).
Proof.
  intros Hj Hr Hkv Hpl He Hin. unfold child_body, ld64, gets.
  rewrite (bind_ok _ _ s (load64 (km_mem s) (pt + 8 * j)) s) by done. rewrite He.
  pose proof (tw_link _ _ _ Hw k q pt j Hpt Hr) as Hl.
  destruct (T !! (k, q * 512 + j)) as [c|] eqn:Ec.
  - assert (frame c) as Hf by (apply (page_frame kend PHYSTOP); [done..|]; apply Hpages; by eexists).
    rewrite Hl, dir_valid, dir_not_leaf, dir_pa by done.
    destruct (IH (q * 512 + j) c s l Ec Hkv) as (s1 & l1 & E1 & Hk1 & Hl1 & Hm1).
    { intros p Hp. apply Hin. exists j. split; [by left|done]. }
    rewrite (bind_ok _ _ _ _ _ E1). unfold st64, modify.
    assert (forall a, in_page pt a = true -> km_mem s1 a = km_mem s a) as Hp1.
    { intros a Ha. apply Hm1. intros p Hp.
      destruct (under_ne [j] p) as [? ?]; [exists j; split; [by left|done]|].
      apply (page_apart kend PHYSTOP pt p); [apply child_page|done|done|done]. }
    assert (pt ∉ l1) as Hpl1.
    { rewrite Hl1. intros [?|Hb]; [done|]. by eapply below_level. }
    eexists _, l1. split; [reflexivity|]. split_and!; [|done| |].
    + apply (kinv_page s1 l1 _ pt Hk1 child_page Hpl1). intros a Ha. by apply store_out_page.
    + intros i Hi Hne. cbn [km_mem set_mem]. rewrite load64_store_ne by lia. by apply load64_page_ext.
    + intros a Ha Hb. cbn [km_mem set_mem]. rewrite store_out_page by done. by apply Hm1.
  - rewrite Hl. exists s, l. split_and!; try done. intros p. split; [by left|].
    intros [?|Hb]; [done|]. destruct (below_root k _ p ltac:(lia) Hb) as [x Hx]. congruence.
Qed.

Lemma children_run js : forall s l,
  NoDup js -> (forall i, i ∈ js -> 0 <= i < 512) -> kinv kend PHYSTOP s l -> pt ∉ l ->
  (forall i, i ∈ js -> load64 (km_mem s) (pt + 8 * i) = load64 m0 (pt + 8 * i)) ->
  intact s l (under js) ->
  exists s' l', for_each js child_body s = Ok (tt, s') /\ kinv kend PHYSTOP s' l' /\ pt ∉ l' /\
    (forall p, p ∈ l' <-> p ∈ l \/ under js p) /\
    (forall a, in_page pt a = false -> (forall p, under js p -> in_page p a = false) ->
       km_mem s' a = km_mem s a).
Proof.
  induction js as [|j js IHj]; intros s l Hnd Hrg Hkv Hpl He Hin; cbn [for_each].
  - exists s, l. split_and!; try done. intros p. split; [by left|].
    intros [?|(i & Hi & _)]; [done|]. by apply not_elem_of_nil in Hi.
  - apply NoDup_cons in Hnd as [Hj Hnd].
    destruct (child_step j js s l Hj (Hrg j ltac:(by left)) Hkv Hpl (He j ltac:(by left)) Hin)
      as (s1 & l1 & E1 & Hk1 & Hl1 & He1 & Hm1).
    assert (forall i p, i ∈ js -> below k (q * 512 + i) p -> ~ below k (q * 512 + j) p) as Hdis.
    { intros i p Hi Hb Hb'. apply Hj. pose proof (below_inj _ _ _ _ Hb Hb').
      by replace j with i by lia. }
    assert (pt ∉ l1) as Hpl1.
    { rewrite Hl1. intros [?|Hb]; [done|]. by eapply below_level. }
    destruct (IHj s1 l1 Hnd) as (s' & l' & E' & Hk' & Hp' & Hl' & Hm').
    + intros i Hi. apply Hrg. by right.
    + done.
    + done.
    + intros i Hi. rewrite He1; [by apply He; right|apply Hrg; by right|congruence].
    + intros p (i & Hi & Hb). destruct (Hin p) as [Hpn Hpm]; [exists i; split; [by right|done]|].
      split.
      * rewrite Hl1. intros [?|Hb']; [done|]. by eapply Hdis.
      * intros a Ha. rewrite <-Hpm by done. destruct (under_ne js p) as [Hpo Hne]; [by exists i|].
        apply Hm1; [apply (page_apart kend PHYSTOP p pt); auto using child_page|].
        intros p' Hp'. apply (page_apart kend PHYSTOP p p'); [done| | |done].
        -- by eapply Hpages, below_tab.
        -- intros ->. by eapply Hdis.
    + rewrite (bind_ok _ _ _ _ _ E1). exists s', l'. split_and!; try done.
      * intros p. rewrite Hl', Hl1. unfold under. setoid_rewrite elem_of_cons. split.
        -- intros [[?|?]|(i & ? & ?)]; eauto 6.
        -- intros [?|(i & [->|?] & ?)]; eauto 6.
      * intros a Ha Hu. rewrite Hm'.
        -- apply Hm1; [done|]. intros p Hp. apply Hu. exists j. split; [by left|done].
        -- done.
        -- intros p (i & Hi & Hb). apply Hu. exists i. split; [by right|done].
Qed.

End Children.

(** The page of a table whose children have been freed is freed. *)
Lemma free_self k q pt s l s1 l1 :
  T !! (k, q) = Some pt -> kinv kend PHYSTOP s1 l1 -> pt ∉ l1 ->
  (forall p, p ∈ l1 <-> p ∈ l \/ (below k q p /\ p <> pt)) ->
  (forall a, in_page pt a = false -> (forall p, below k q p /\ p <> pt -> in_page p a = false) ->
     km_mem s1 a = km_mem s a) ->
  exists s' l', kfree kend PHYSTOP pt s1 = Ok (tt, s') /\ freed (below k q) s l s' l'.
Proof.
  intros Hpt Hk1 Hp1 Hl1 Hm1. assert (page_ok kend PHYSTOP pt) as Hpo by (apply Hpages; by eexists).
  destruct (kfree_ok kend PHYSTOP kend_pos ltac:(lia) s1 l1 pt Hk1 Hpo Hp1) as (s' & E & Hk' & Hm').
  exists s', (pt :: l1). split; [done|]. split_and!; [done| |].
  - intros p. rewrite elem_of_cons, Hl1. destruct (decide (p = pt)) as [->|Hne].
    + split; [|by left]. right. by apply below_self.
    + split; [intros [?|[?|[? ?]]]; eauto; done|]. intros [?|?]; eauto.
  - intros a Ha. assert (in_page pt a = false) by (by apply Ha, below_self).
    rewrite Hm', Hm1; [done|done| |done]. intros p [Hp _]. by apply Ha.
Qed.

Lemma freewalk_run k : forall q pt s l,
  (k <= top)%nat -> T !! (k, q) = Some pt -> kinv kend PHYSTOP s l -> intact s l (below k q) ->
  exists s' l', freewalk kend PHYSTOP k pt s = Ok (tt, s') /\ freed (below k q) s l s' l'.
Proof.
  induction k as [|k IH]; intros q pt s l Hk Hpt Hkv Hin; cbn [freewalk];
    destruct (Hin pt (below_self _ _ _ Hpt)) as [Hpl Hpm];
    assert (forall i, 0 <= i < 512 -> load64 (km_mem s) (pt + 8 * i) = load64 m0 (pt + 8 * i)) as He
      by (intros i Hi; by apply load64_page_ext).
  - assert (forall js, (forall i, i ∈ js -> 0 <= i < 512) -> for_each js (fun i =>
      pte <- ld64 (pt + 8 * i) ;;
      if bits pte PTE_V then if hal_pte_is_leaf pte then panic "freewalk: leaf" else fail FFuel
      else ret tt) s = Ok (tt, s)) as E.
    { induction js as [|j js IHj]; intros Hj; cbn [for_each]; [done|].
      rewrite (bind_ok _ _ s tt s); [apply IHj; intros; apply Hj; by right|].
      unfold ld64, gets. rewrite (bind_ok _ _ s (load64 (km_mem s) (pt + 8 * j)) s) by done.
      rewrite He, (Hempty q) by (try done; apply Hj; by left). done. }
    rewrite (bind_ok _ _ _ _ _ (E (seqZ 0 512) ltac:(intros i Hi; apply elem_of_seqZ in Hi; lia))).
    apply (free_self 0 q pt s l s l Hpt Hkv Hpl); [|done].
    intros p. split; [by left|]. intros [?|[Hb Hne]]; [done|]. apply below_0 in Hb. congruence.
  - destruct (children_run k q pt Hk Hpt) with (js := seqZ 0 512) (s := s) (l := l)
      as (s1 & l1 & E & Hk1 & Hp1 & Hl1 & Hm1).
    + intros. by apply IH; [lia|..].
    + apply NoDup_seqZ.
    + intros i Hi. apply elem_of_seqZ in Hi. lia.
    + done.
    + done.
    + intros i Hi. apply elem_of_seqZ in Hi. by apply He.
    + intros p (i & Hi & Hb). apply elem_of_seqZ in Hi. apply Hin. by eapply below_child.
    + rewrite (bind_ok _ _ _ _ _ E).
      assert (forall p, under k q (seqZ 0 512) p <-> below (S k) q p /\ p <> pt) as Hu.
      { intros p. split.
        - intros (i & Hi & Hb). apply elem_of_seqZ in Hi. split; [by eapply below_child|].
          intros ->. by eapply below_level.
        - intros [[Hp|(i & Hi & Hb)]%below_inv Hne]; [congruence|].
          exists i. split; [by apply elem_of_seqZ|done]. }
      apply (free_self (S k) q pt s l s1 l1 Hpt Hk1 Hp1).
      * intros p. by rewrite Hl1, Hu.
      * intros a Ha Hb. apply Hm1; [done|]. intros p Hp. apply Hb. by apply Hu.
Qed.

End Free.

(** The pages of the process go first. *)
Lemma uvmfree_unmap {HA : Arch} {HAO : ArchOk} kend PHYSTOP F mF e s T root l U sz :
  0 < kend -> PHYSTOP <= 2 ^ 56 -> 0 <= sz <= USER_TOP -> as_ok kend PHYSTOP F mF e s T root l U ->
  (forall n x, U !! n = Some x -> n < npages sz) ->
  exists s' l', when (sz >? 0) (uvmunmap kend PHYSTOP root 0 (pgroundup64 sz / PGSIZE) true) s = Ok (tt, s') /\
    as_ok kend PHYSTOP F mF e s' T root l' ∅ /\
    (forall p, p ∈ l' <-> p ∈ l \/ exists n f, U !! n = Some (p, f)).
Proof.
  intros Hk Hph Hsz Hok Hin. pose proof (npages_nonneg sz ltac:(lia)) as Hn0.
  pose proof (npages_user sz (proj2 Hsz)) as Hnu.
  assert (forall n x, U !! n = Some x -> 0 <= n < npages sz) as Hd.
  { intros n x Hx. pose proof (ao_dom _ _ _ _ _ _ _ _ _ _ Hok n x Hx). split; [lia|by eapply Hin]. }
  destruct (uvmunmap_run kend PHYSTOP Hk Hph F mF e s T root l U 0 (npages sz) Hok) as (s' & fr & E & Hp & Hok' & _);
    [lia..|].
  assert (del_range U 0 (Z.to_nat (npages sz)) = ∅) as Ee.
  { apply map_eq. intros i. rewrite lookup_del_range, lookup_empty. case_bool_decide; [done|].
    destruct (U !! i) eqn:Eu; [|done]. apply Hd in Eu. lia. }
  rewrite Ee in Hok'. destruct (sz >? 0) eqn:E0; cbn [when].
  - rewrite pgroundup64_npages by (pose proof trapframe_top; unfold USER_TOP in *; lia).
    rewrite Z.div_mul by done.
    exists s', (fr ++ l). split_and!; [done|done|]. intros p. rewrite elem_of_app, Hp, elem_of_frames.
    split.
    + intros [(n & f & _ & ?)|?]; eauto.
    + intros [?|(n & f & Hn)]; [by right|]. left. exists n, f. split; [|done]. apply Hd in Hn. lia.
  - exists s, l. assert (U = ∅) as ->.
    { apply map_empty. intros i. destruct (U !! i) eqn:Eu; [|done]. apply Hd in Eu.
      replace sz with 0 in Eu by lia. change (npages 0) with 0 in Eu. lia. }
    split_and!; [done|done|]. intros p. split; [by left|]. intros [?|(n & f & Hn)]; [done|].
    by rewrite lookup_empty in Hn.
Qed.

(** The entries of the lowest tables are those of the addresses. *)
Lemma leaf_entry {HA : Arch} s T root q pt i : pt_wf (km_mem s) T root ->
  T !! (0%nat, q) = Some pt -> 0 <= i < 512 ->
  0 <= q * 512 + i /\ pte_at s T ((q * 512 + i) * PGSIZE) = load64 (km_mem s) (pt + 8 * i).
Proof.
  intros Hw Hq Hi. split.
  - assert (is_tab T pt) as Ht by (by eexists). apply (below_top T root (km_mem s) Hw) in Ht.
    destruct Ht as (k & q' & Hp & _ & E). pose proof (tw_inj _ _ _ Hw _ _ _ Hq Hp) as [= <- <-].
    assert (0 < 512 ^ Z.of_nat (top - 0)) by (apply Z.pow_pos_nonneg; lia).
    apply Z.div_small_iff in E; lia.
  - unfold pte_at. rewrite idx_S, PX_idx, idx0_page.
    replace ((q * 512 + i) / 512) with q by dlia. replace ((q * 512 + i) mod 512) with i by dlia.
    by rewrite Hq.
Qed.

(** uvmfree, in the form its callers use. *)
Lemma uvmfree_run {HA : Arch} {HAO : ArchOk} kend PHYSTOP F mF e s T root l U sz
    (Hk : 0 < kend) (Hph : PHYSTOP <= 2 ^ 56) (Hsz : 0 <= sz <= USER_TOP)
    (Hok : as_ok kend PHYSTOP F mF e s T root l U)
    (Hin : forall n x, U !! n = Some x -> n < npages sz)
    (Hsys : forall n, UT <= n -> bits (e n) PTE_V = false) :
  exists s' l', uvmfree kend PHYSTOP root sz s = Ok (tt, s') /\ kinv kend PHYSTOP s' l' /\
    (forall p, p ∈ l' <-> p ∈ l \/ is_tab T p \/ exists n f, U !! n = Some (p, f)) /\
    (forall pa a, F pa -> in_page pa a = true -> km_mem s' a = mF a).
Proof.
  destruct (uvmfree_unmap kend PHYSTOP F mF e s T root l U sz Hk Hph Hsz Hok Hin)
    as (s1 & l1 & E1 & Hok1 & Hl1).
  pose proof (ao_vm _ _ _ _ _ _ _ _ _ _ Hok1) as [Hk1 Hw1 Ht1].
  destruct (freewalk_run kend PHYSTOP Hk Hph T root (km_mem s1) Hw1 ltac:(apply Ht1)) with (k := top)
    (q := 0) (pt := root) (s := s1) (l := l1) as (s' & l' & E & Hk' & Hl' & Hm').
  - intros q pt i Hq Hi. destruct (leaf_entry s1 T root q pt i Hw1 Hq Hi) as [Hp <-].
    destruct (Z.lt_ge_cases (q * 512 + i) UT).
    + apply (ao_none _ _ _ _ _ _ _ _ _ _ Hok1); [lia|]. apply lookup_empty.
    + rewrite (ao_sys _ _ _ _ _ _ _ _ _ _ Hok1) by done. by apply Hsys.
  - done.
  - eapply tw_root, Hw1.
  - done.
  - intros p Hp. split; [|done]. by apply Ht1, (below_tab T top 0).
  - exists s', l'. unfold uvmfree. rewrite (bind_ok _ _ _ _ _ E1). split_and!; [done|done| |].
    + intros p. rewrite Hl', Hl1, <-(below_top T root (km_mem s1) Hw1). tauto.
    + intros pa a Hpa Ha. destruct (ao_other _ _ _ _ _ _ _ _ _ _ Hok1 pa Hpa) as (Hpo & _ & Hnt & _ & <-);
        [|done]. apply Hm'. intros p Hp. apply below_tab in Hp.
      apply (page_apart kend PHYSTOP pa p); [done|by apply Ht1| |done]. congruence.
Qed.

(** C13: freeing an address space ends and gives back all of it.  For a page
    table with no mapping above the user's memory, uvmfree with a size that
    covers every page the process has returns; the free list then holds exactly
    the pages it held and the frames and table pages of the process, each once,
    and the pages in use for something else keep their contents. *)
Theorem uvmfree_returns_all {HA : Arch} {HAO : ArchOk} kend PHYSTOP F mF e s T root l U sz
    (Hk : 0 < kend) (Hph : PHYSTOP <= 2 ^ 56) (Hsz : 0 <= sz <= USER_TOP)
    (Hok : as_ok kend PHYSTOP F mF e s T root l U)
    (Hin : forall n x, U !! n = Some x -> n < npages sz)
    (Hsys : forall n, UT <= n -> bits (e n) PTE_V = false) :
  exists s' l', uvmfree kend PHYSTOP root sz s = Ok (tt, s') /\ kinv kend PHYSTOP s' l' /\
    (forall p, p ∈ l' <-> p ∈ l \/ is_tab T p \/ exists n f, U !! n = Some (p, f)) /\
    (forall pa a, F pa -> in_page pa a = true -> km_mem s' a = mF a).
Proof. by apply (uvmfree_run kend PHYSTOP F mF e). Qed.

(** A process that grew to 5000 bytes and is freed. *)
Lemma uvmfree_returns_all_witness :
  exists s1 root T l U s' (l' : list Z), @as_ok Riscv.arch 4096 40960 (fun _ => False) (fun _ => 0) (fun _ => 0) s1 T root l U /\
    @uvmfree Riscv.arch 4096 40960 root 5000 s1 = Ok (tt, s') /\ root ∈ l'.
Proof.
  destruct (wit_space Riscv.arch riscv_ok) as (s & root & l & Hok).
  destruct (@uvmalloc_run Riscv.arch riscv_ok 4096 40960 ltac:(lia) ltac:(lia) _ _ _ s _ root l ∅ 0 5000
    (Uperm true true false true) 4 Hok) as (r & s1 & T & l1 & U & tabs & E & _ & Hok1 & _ & Hr);
    [done|lia|by vm_compute|done|].
  destruct (@uvmfree_returns_all Riscv.arch riscv_ok 4096 40960 _ _ _ s1 T root l1 U 5000 ltac:(lia) ltac:(lia)
    ltac:(split; by vm_compute) Hok1) as (s' & l' & E' & _ & Hl' & _).
  - intros n x Hx. destruct Hr as [(_ & [_ Hg] & _)|(_ & -> & _)]; [|by rewrite lookup_empty in Hx].
    destruct (Z.lt_ge_cases n (npages 5000)) as [|Hge]; [done|]. rewrite Hg, lookup_empty in Hx; [done|].
    change (npages 5000) with 2 in *. change (npages 0) with 0. lia.
  - done.
  - exists s1, root, T, l1, U, s', l'. split_and!; [done|done|]. apply Hl'. right. left.
    exists (@top Riscv.arch, 0). eapply tw_root, (ao_vm _ _ _ _ _ _ _ _ _ _ Hok1).
Defined.
