(* ===== verification/Hal.v ===== *)
(** Hal: the part of the hardware abstraction layer that builds page tables
    (hal/riscv/hal_vm.c and hal/loongarch/hal_vm.c), as an interface with an
    implementation for each machine; the kernel's own page table (kvmmake of
    kernel/vm.c, proc_mapstacks of kernel/proc.c); and the layout of the kernel
    stacks. *)

From S2P Require Import Prelude CString Kalloc Arch Vm.

Definition NPROC : nat := 64.

(** What vm.c and proc.c call; the physical addresses of the trampoline page
    and of the end of the kernel text are the linker's. *)
Class Hal `{Arch} : Type := {
  hal_vm_map_kernel : Z -> M kmem unit;
  hal_vm_map_trampoline : Z -> Z -> Z -> M kmem Z;
  hal_vm_unmap_trampoline : Z -> M kmem unit
}.

Module RiscvHal.

Section Vm.
  Context (etext kend : Z).

Definition UART0 : Z := 0x10000000.
Definition VIRTIO0 : Z := 0x10001000.
Definition VIRTIO1 : Z := 0x10002000.
Definition VIRTIO2 : Z := 0x10003000.
Definition PLIC : Z := 0x0c000000.
Definition KERNBASE : Z := 0x80000000.
Definition PHYSTOP : Z := KERNBASE + 128 * 1024 * 1024.

#[local] Existing Instance Riscv.arch.

(** The disks are the build's three. *)
Definition hal_vm_map_kernel (kpgtbl : Z) : M kmem unit :=
  kvmmap kpgtbl (PGROUNDDOWN UART0) (PGROUNDDOWN UART0) PGSIZE (Z.lor PTE_R PTE_W) ;;;
  kvmmap kpgtbl PLIC PLIC 0x4000000 (Z.lor PTE_R PTE_W) ;;;
  kvmmap kpgtbl VIRTIO0 VIRTIO0 PGSIZE (Z.lor PTE_R PTE_W) ;;;
  kvmmap kpgtbl VIRTIO1 VIRTIO1 PGSIZE (Z.lor PTE_R PTE_W) ;;;
  kvmmap kpgtbl VIRTIO2 VIRTIO2 PGSIZE (Z.lor PTE_R PTE_W) ;;;
  kvmmap kpgtbl KERNBASE KERNBASE (etext - KERNBASE) (Z.lor PTE_R PTE_X) ;;;
  kvmmap kpgtbl etext etext (PHYSTOP - etext) (Z.lor PTE_R PTE_W).

Definition hal_vm_map_trampoline (pagetable trampoline_pa trapframe_pa : Z) : M kmem Z :=
  r <- mappages pagetable TRAMPOLINE PGSIZE trampoline_pa (Z.lor PTE_R PTE_X) ;;
  if r <? 0 then ret (-1)
  else
    r <- mappages pagetable TRAPFRAME PGSIZE trapframe_pa (Z.lor PTE_R PTE_W) ;;
    if r <? 0
    then uvmunmap kend PHYSTOP pagetable TRAMPOLINE 1 false ;;; ret (-1)
    else ret 0.

Definition hal_vm_unmap_trampoline (pagetable : Z) : M kmem unit :=
  uvmunmap kend PHYSTOP pagetable TRAMPOLINE 1 false ;;;
  uvmunmap kend PHYSTOP pagetable TRAPFRAME 1 false.

Definition hal : @Hal Riscv.arch := {|
  Hal.hal_vm_map_kernel := hal_vm_map_kernel;
  Hal.hal_vm_map_trampoline := hal_vm_map_trampoline;
  Hal.hal_vm_unmap_trampoline := hal_vm_unmap_trampoline
|}.

End Vm.

End RiscvHal.

Module LoongarchHal.

Definition PHYSTOP : Z := 0x00400000 + 124 * 1024 * 1024.

Definition hal_vm_map_kernel (kpgtbl : Z) : M kmem unit := ret tt.
Definition hal_vm_map_trampoline (pagetable trampoline_pa trapframe_pa : Z) : M kmem Z := ret 0.
Definition hal_vm_unmap_trampoline (pagetable : Z) : M kmem unit := ret tt.

Definition hal : @Hal Loongarch.arch := {|
  Hal.hal_vm_map_kernel := hal_vm_map_kernel;
  Hal.hal_vm_map_trampoline := hal_vm_map_trampoline;
  Hal.hal_vm_unmap_trampoline := hal_vm_unmap_trampoline
|}.

End LoongarchHal.

(** *** The kernel's page table *)

Section Kernel.
  Context `{Hal} (trampoline : Z).

Definition map_stack (kpgtbl : Z) (p : Z) : M kmem unit :=
  pa <- kalloc ;;
  if pa =? 0 then panic "kalloc"
  else
    pa2 <- kalloc ;;
    if pa2 =? 0 then panic "kalloc"
    else
      let va := KSTACK p in
      kvmmap kpgtbl va pa PGSIZE (Z.lor PTE_R PTE_W) ;;;
      kvmmap kpgtbl (u64 (va + PGSIZE)) pa2 PGSIZE (Z.lor PTE_R PTE_W).

Definition proc_mapstacks (kpgtbl : Z) : M kmem unit :=
  for_each (seqZ 0 (Z.of_nat NPROC)) (map_stack kpgtbl).

Definition kvmmake : M kmem Z :=
  kpgtbl <- kalloc ;;
  if kpgtbl =? 0 then panic "kvmmake"
  else
    zero_page kpgtbl ;;;
    hal_vm_map_kernel kpgtbl ;;;
    kvmmap kpgtbl TRAMPOLINE trampoline PGSIZE (Z.lor PTE_R PTE_X) ;;;
    proc_mapstacks kpgtbl ;;;
    ret kpgtbl.

(** kvminit, with the global kernel_pagetable as its result. *)
Definition kvminit : M kmem Z := kvmmake.

End Kernel.

(** *** The kernel stacks *)

(** The two mapped pages of the stack of process [p], and the page below them. *)
Definition stack_page `{Arch} (p : Z) (va : Z) : Prop := KSTACK p <= va < KSTACK p + 2 * PGSIZE.
Definition guard_page `{Arch} (p : Z) (va : Z) : Prop := KSTACK p - PGSIZE <= va < KSTACK p.

Definition stacks_ok `{Arch} : Prop :=
  forall p, 0 <= p < Z.of_nat NPROC ->
    KSTACK p mod PGSIZE = 0 /\
    (forall va, stack_page p va -> 0 <= va < 2 ^ 64 /\ hal_pagetable_va_valid va = true /\
       (va < TRAMPOLINE \/ TRAMPOLINE + PGSIZE <= va)) /\
    (forall q va, 0 <= q < Z.of_nat NPROC -> stack_page p va -> stack_page q va -> p = q) /\
    (forall q va, 0 <= q < Z.of_nat NPROC -> guard_page p va -> ~ stack_page q va).

