(* ===== verification/Proc.v ===== *)
(** Proc: kernel/proc.c, the process table and everything done to it.

    Functions that give up the CPU are cut where hal_switch is called: what runs
    before it, up to the switch into the scheduler, and what the process does
    when it is switched to again ([resume]).  [me] is the CPU that runs the
    code.  Locks are those of Locks.Spin, with the interrupt bookkeeping of each
    CPU, so that every check of sched is there.  Files and directories are
    reached through the interface [OpenFiles]. *)

From S2P Require Import Prelude CString Kalloc Locks Arch Vm Hal.

Definition NOFILE : nat := 16.

Inductive procstate : Type := UNUSED | USED | SLEEPING | RUNNABLE | RUNNING | ZOMBIE.
#[export] Instance procstate_eq_dec : EqDecision procstate.
Proof. solve_decision. Defined.

(** What a sleep waits for: the address of a process, of ticks, or another. *)
Inductive chan : Type := ChProc (p : nat) | ChTicks | ChOther (a : Z).
#[export] Instance chan_eq_dec : EqDecision chan.
Proof. solve_decision. Defined.

Inductive lockid : Type := LProc (p : nat) | LWait | LPid | LTicks | LOther (k : nat).
#[export] Instance lockid_eq_dec : EqDecision lockid.
Proof. solve_decision. Defined.

(** Where a saved context continues: forkret for a new process; behind the
    hal_switch of sched, called by yield, by sleep with its condition lock, or
    by exit, with the value of intena that sched keeps on the kernel stack. *)
Inductive caller : Type := FromYield | FromSleep (lk : lockid) | FromExit.
Inductive context : Type := NoContext | AtForkret (sp : Z) | InSched (w : caller) (intena : bool).

Record proc : Type := Proc {
  p_lock : Spin.spinlock;
  p_state : procstate; p_chan : option chan; p_killed : Z; p_xstate : Z; p_pid : Z;
  p_parent : option nat;
  p_kstack : Z; p_sz : Z; p_pagetable : Z; p_trapframe : Z; p_context : context;
  p_ofile : list (option nat); p_cwd : option nat; p_name : list Z
}.

Record cpu : Type := Cpu { c_int : Spin.cpu; c_proc : option nat }.

(** The interface to file.c and vfs.c. *)
Class OpenFiles (X : Type) : Type := {
  filedup : nat -> M X nat;
  fileclose : nat -> M X unit;
  vget : nat -> M X nat;
  vput : nat -> M X unit
}.

Record pst (X : Type) : Type := Pst {
  ps_proc : list proc; ps_cpus : list cpu;
  wait_lock : Spin.spinlock; pid_lock : Spin.spinlock; tickslock : Spin.spinlock;
  ps_locks : list Spin.spinlock;       (* the other locks that processes sleep under *)
  nextpid : Z; initproc : option nat;
  ps_km : kmem; ps_x : X
}.
Arguments Pst {X}.
Arguments ps_proc {X}.
Arguments ps_cpus {X}.
Arguments wait_lock {X}.
Arguments pid_lock {X}.
Arguments tickslock {X}.
Arguments ps_locks {X}.
Arguments nextpid {X}.
Arguments initproc {X}.
Arguments ps_km {X}.
Arguments ps_x {X}.

(** *** Fields *)

Definition set_plock (x : Spin.spinlock) (p : proc) : proc :=
  Proc x (p_state p) (p_chan p) (p_killed p) (p_xstate p) (p_pid p) (p_parent p) (p_kstack p) (p_sz p)
    (p_pagetable p) (p_trapframe p) (p_context p) (p_ofile p) (p_cwd p) (p_name p).
Definition set_state (x : procstate) (p : proc) : proc :=
  Proc (p_lock p) x (p_chan p) (p_killed p) (p_xstate p) (p_pid p) (p_parent p) (p_kstack p) (p_sz p)
    (p_pagetable p) (p_trapframe p) (p_context p) (p_ofile p) (p_cwd p) (p_name p).
Definition set_chan (x : option chan) (p : proc) : proc :=
  Proc (p_lock p) (p_state p) x (p_killed p) (p_xstate p) (p_pid p) (p_parent p) (p_kstack p) (p_sz p)
    (p_pagetable p) (p_trapframe p) (p_context p) (p_ofile p) (p_cwd p) (p_name p).
Definition set_killed (x : Z) (p : proc) : proc :=
  Proc (p_lock p) (p_state p) (p_chan p) x (p_xstate p) (p_pid p) (p_parent p) (p_kstack p) (p_sz p)
    (p_pagetable p) (p_trapframe p) (p_context p) (p_ofile p) (p_cwd p) (p_name p).
Definition set_xstate (x : Z) (p : proc) : proc :=
  Proc (p_lock p) (p_state p) (p_chan p) (p_killed p) x (p_pid p) (p_parent p) (p_kstack p) (p_sz p)
    (p_pagetable p) (p_trapframe p) (p_context p) (p_ofile p) (p_cwd p) (p_name p).
Definition set_pid (x : Z) (p : proc) : proc :=
  Proc (p_lock p) (p_state p) (p_chan p) (p_killed p) (p_xstate p) x (p_parent p) (p_kstack p) (p_sz p)
    (p_pagetable p) (p_trapframe p) (p_context p) (p_ofile p) (p_cwd p) (p_name p).
Definition set_parent (x : option nat) (p : proc) : proc :=
  Proc (p_lock p) (p_state p) (p_chan p) (p_killed p) (p_xstate p) (p_pid p) x (p_kstack p) (p_sz p)
    (p_pagetable p) (p_trapframe p) (p_context p) (p_ofile p) (p_cwd p) (p_name p).
Definition set_kstack (x : Z) (p : proc) : proc :=
  Proc (p_lock p) (p_state p) (p_chan p) (p_killed p) (p_xstate p) (p_pid p) (p_parent p) x (p_sz p)
    (p_pagetable p) (p_trapframe p) (p_context p) (p_ofile p) (p_cwd p) (p_name p).
Definition set_mm (sz pagetable trapframe : Z) (p : proc) : proc :=
  Proc (p_lock p) (p_state p) (p_chan p) (p_killed p) (p_xstate p) (p_pid p) (p_parent p) (p_kstack p) sz
    pagetable trapframe (p_context p) (p_ofile p) (p_cwd p) (p_name p).
Definition set_context (x : context) (p : proc) : proc :=
  Proc (p_lock p) (p_state p) (p_chan p) (p_killed p) (p_xstate p) (p_pid p) (p_parent p) (p_kstack p) (p_sz p)
    (p_pagetable p) (p_trapframe p) x (p_ofile p) (p_cwd p) (p_name p).
Definition set_files (ofile : list (option nat)) (cwd : option nat) (p : proc) : proc :=
  Proc (p_lock p) (p_state p) (p_chan p) (p_killed p) (p_xstate p) (p_pid p) (p_parent p) (p_kstack p) (p_sz p)
    (p_pagetable p) (p_trapframe p) (p_context p) ofile cwd (p_name p).
Definition set_name (x : list Z) (p : proc) : proc :=
  Proc (p_lock p) (p_state p) (p_chan p) (p_killed p) (p_xstate p) (p_pid p) (p_parent p) (p_kstack p) (p_sz p)
    (p_pagetable p) (p_trapframe p) (p_context p) (p_ofile p) (p_cwd p) x.

Section Fields.
  Context {X : Type}.
  Implicit Types s : pst X.

Definition set_proc (i : nat) (p : proc) s : pst X :=
  Pst (<[i := p]> (ps_proc s)) (ps_cpus s) (wait_lock s) (pid_lock s) (tickslock s) (ps_locks s)
    (nextpid s) (initproc s) (ps_km s) (ps_x s).
Definition set_cpu (i : nat) (c : cpu) s : pst X :=
  Pst (ps_proc s) (<[i := c]> (ps_cpus s)) (wait_lock s) (pid_lock s) (tickslock s) (ps_locks s)
    (nextpid s) (initproc s) (ps_km s) (ps_x s).
Definition set_locks (w p t : Spin.spinlock) (l : list Spin.spinlock) s : pst X :=
  Pst (ps_proc s) (ps_cpus s) w p t l (nextpid s) (initproc s) (ps_km s) (ps_x s).
Definition set_nextpid (n : Z) s : pst X :=
  Pst (ps_proc s) (ps_cpus s) (wait_lock s) (pid_lock s) (tickslock s) (ps_locks s) n (initproc s) (ps_km s) (ps_x s).
Definition set_init (i : option nat) s : pst X :=
  Pst (ps_proc s) (ps_cpus s) (wait_lock s) (pid_lock s) (tickslock s) (ps_locks s) (nextpid s) i (ps_km s) (ps_x s).
Definition set_km (k : kmem) s : pst X :=
  Pst (ps_proc s) (ps_cpus s) (wait_lock s) (pid_lock s) (tickslock s) (ps_locks s) (nextpid s) (initproc s) k (ps_x s).
Definition set_x (x : X) s : pst X :=
  Pst (ps_proc s) (ps_cpus s) (wait_lock s) (pid_lock s) (tickslock s) (ps_locks s) (nextpid s) (initproc s)
    (ps_km s) x.

Definition get_lock (l : lockid) s : option Spin.spinlock :=
  match l with
  | LProc p => p_lock <$> ps_proc s !! p
  | LWait => Some (wait_lock s)
  | LPid => Some (pid_lock s)
  | LTicks => Some (tickslock s)
  | LOther k => ps_locks s !! k
  end.
Definition set_lock (l : lockid) (x : Spin.spinlock) s : pst X :=
  match l with
  | LProc p => match ps_proc s !! p with Some q => set_proc p (set_plock x q) s | None => s end
  | LWait => set_locks x (pid_lock s) (tickslock s) (ps_locks s) s
  | LPid => set_locks (wait_lock s) x (tickslock s) (ps_locks s) s
  | LTicks => set_locks (wait_lock s) (pid_lock s) x (ps_locks s) s
  | LOther k => set_locks (wait_lock s) (pid_lock s) (tickslock s) (<[k := x]> (ps_locks s)) s
  end.

End Fields.

Section Proc.
  Context {X : Type} `{OpenFiles X} `{Hal}.
  Context (kend PHYSTOP trampoline : Z) (me : nat).
  Local Abbreviation MP := (M (pst X)).

Definition getp (i : nat) : MP proc :=
  fun s => match ps_proc s !! i with Some p => Ok (p, s) | None => Fault FBounds end.
Definition updp (i : nat) (f : proc -> proc) : MP unit :=
  fun s => match ps_proc s !! i with Some p => Ok (tt, set_proc i (f p) s) | None => Fault FBounds end.
Definition onkm {A} (m : M kmem A) : MP A := zoom ps_km set_km m.
Definition onx {A} (m : M X A) : MP A := zoom ps_x set_x m.

(** *** CPUs and locks *)

Definition mycpu : MP cpu :=
  fun s => match ps_cpus s !! me with Some c => Ok (c, s) | None => Fault FBounds end.
Definition updcpu (f : cpu -> cpu) : MP unit :=
  fun s => match ps_cpus s !! me with Some c => Ok (tt, set_cpu me (f c) s) | None => Fault FBounds end.
Definition set_cproc (p : option nat) (c : cpu) : cpu := Cpu (c_int c) p.
(** hal_intr_on and hal_intr_off *)
Definition set_intr (b : bool) : MP unit :=
  updcpu (fun c => Cpu (Spin.Cpu (Spin.c_noff (c_int c)) (Spin.c_intena (c_int c)) b) (c_proc c)).

(** An operation of spinlock.c on this CPU and a lock. *)
Definition onlock {A} (l : lockid) (op : M Spin.st A) : MP A :=
  c <- mycpu ;;
  fun s => match get_lock l s with
           | None => Fault FBounds
           | Some x =>
               match op (Spin.St (c_int c) x) with
               | Ok (a, t) => Ok (a, set_cpu me (Cpu (Spin.st_cpu t) (c_proc c)) (set_lock l (Spin.st_lk t) s))
               | Fault e => Fault e
               end
           end.
Definition acquire (l : lockid) : MP unit := onlock l (Spin.acquire me).
Definition release (l : lockid) : MP unit := onlock l (Spin.release me).
Definition holding (l : lockid) : MP bool :=
  c <- mycpu ;;
  fun s => match get_lock l s with
           | None => Fault FBounds
           | Some x => match Spin.holding me (Spin.St (c_int c) x) with
                       | Ok (b, _) => Ok (b, s)
                       | Fault e => Fault e
                       end
           end.
(** push_off and pop_off touch no lock. *)
Definition oncpu (op : M Spin.st unit) : MP unit :=
  c <- mycpu ;;
  fun s => match op (Spin.St (c_int c) Spin.initlock) with
           | Ok (_, t) => Ok (tt, set_cpu me (Cpu (Spin.st_cpu t) (c_proc c)) s)
           | Fault e => Fault e
           end.

Definition myproc : MP (option nat) :=
  oncpu Spin.push_off ;;; c <- mycpu ;; oncpu Spin.pop_off ;;; ret (c_proc c).
(** [myproc()] where the code dereferences it. *)
Definition curproc : MP nat :=
  o <- myproc ;; match o with Some p => ret p | None => fail FNull end.

(** *** Creating and destroying processes *)

Definition all_procs : list nat := seq 0 NPROC.

Definition procinit : MP unit :=
  modify (fun s => set_locks Spin.initlock Spin.initlock (tickslock s) (ps_locks s) s) ;;;
  for_each all_procs (fun i =>
    updp i (fun p => set_kstack (KSTACK (Z.of_nat i)) (set_state UNUSED (set_plock Spin.initlock p)))).

Definition allocpid : MP Z :=
  acquire LPid ;;;
  pid <- gets nextpid ;;
  modify (fun s => set_nextpid (s32 (nextpid s + 1)) s) ;;;
  release LPid ;;;
  ret pid.

(** proc_pagetable, given [p->trapframe]. *)
Definition proc_pagetable (trapframe : Z) : M kmem Z :=
  pagetable <- uvmcreate ;;
  if pagetable =? 0 then ret 0
  else
    r <- hal_vm_map_trampoline pagetable trampoline trapframe ;;
    if r <? 0 then uvmfree kend PHYSTOP pagetable 0 ;;; ret 0
    else ret pagetable.

Definition proc_freepagetable (pagetable sz : Z) : M kmem unit :=
  hal_vm_unmap_trampoline pagetable ;;; uvmfree kend PHYSTOP pagetable sz.

(** The assignments at the end of freeproc. *)
Definition cleared (p : proc) : proc :=
  set_state UNUSED (set_xstate 0 (set_killed 0 (set_chan None
    (set_name (putz (p_name p) 0 0) (set_parent None (set_pid 0 p)))))).

Definition freeproc (i : nat) : MP unit :=
  p <- getp i ;;
  when (negb (p_trapframe p =? 0)) (onkm (kfree kend PHYSTOP (p_trapframe p))) ;;;
  updp i (fun p => set_mm (p_sz p) (p_pagetable p) 0 p) ;;;
  when (negb (p_pagetable p =? 0)) (onkm (proc_freepagetable (p_pagetable p) (p_sz p))) ;;;
  updp i (set_mm 0 0 0) ;;;
  updp i cleared.

(** The loop that looks for an unused slot; it leaves with the lock held. *)
Definition find_unused : MP (option nat) :=
  for_upto NPROC 0 (fun z =>
    let i := Z.to_nat z in
    acquire (LProc i) ;;;
    p <- getp i ;;
    if bool_decide (p_state p = UNUSED) then ret (Some i)
    else release (LProc i) ;;; ret None).

Definition allocproc : MP (option nat) :=
  o <- find_unused ;;
  match o with
  | None => ret None
  | Some i =>
      pid <- allocpid ;;
      updp i (fun p => set_state USED (set_pid pid p)) ;;;
      tf <- onkm kalloc ;;
      updp i (fun p => set_mm (p_sz p) (p_pagetable p) tf p) ;;;
      if tf =? 0 then freeproc i ;;; release (LProc i) ;;; ret None
      else
        pt <- onkm (proc_pagetable tf) ;;
        updp i (fun p => set_mm (p_sz p) pt (p_trapframe p) p) ;;;
        if pt =? 0 then freeproc i ;;; release (LProc i) ;;; ret None
        else
          updp i (fun p => set_context (AtForkret (p_kstack p + 2 * PGSIZE)) p) ;;;
          ret (Some i)
  end.

Definition userinit : MP unit :=
  o <- allocproc ;;
  modify (set_init o) ;;;
  match o with
  | None => fail FNull
  | Some i => updp i (fun p => set_state RUNNABLE (set_files (p_ofile p) None p)) ;;; release (LProc i)
  end.

Definition growproc (n : Z) : MP Z :=
  i <- curproc ;;
  p <- getp i ;;
  let sz := p_sz p in
  if n >? 0
  then
    if (u64 (sz + n) <? sz) || (u64 (sz + n) >? USER_TOP) then ret (-1)
    else
      sz' <- onkm (uvmalloc kend PHYSTOP (p_pagetable p) sz (u64 (sz + n)) PTE_W) ;;
      if sz' =? 0 then ret (-1)
      else updp i (fun p => set_mm sz' (p_pagetable p) (p_trapframe p) p) ;;; ret 0
  else if n <? 0
  then
    let shrink := - n in
    if shrink >? sz then ret 0
    else
      sz' <- onkm (uvmdealloc kend PHYSTOP (p_pagetable p) sz (sz - shrink)) ;;
      updp i (fun p => set_mm sz' (p_pagetable p) (p_trapframe p) p) ;;; ret 0
  else ret 0.

(** Offset of a0 in the trapframe, and its size. *)
Definition TF_A0 : Z := 112.
Definition TF_SIZE : nat := 288.

(** The loop over the descriptors in kfork. *)
Definition dup_files (np : nat) (ofile : list (option nat)) : MP unit :=
  for_each (seq 0 NOFILE) (fun fd =>
    match default None (ofile !! fd) with
    | None => ret tt
    | Some f =>
        f' <- onx (filedup f) ;;
        updp np (fun q => set_files (<[fd := Some f']> (p_ofile q)) (p_cwd q) q)
    end).

(** kfork in its three critical sections: the new slot, filled under its lock;
    the parent pointer; the start. *)
Definition fork_copy (i : nat) : MP (option (nat * Z)) :=
  o <- allocproc ;;
  match o with
  | None => ret None
  | Some np =>
      p <- getp i ;;
      q <- getp np ;;
      r <- onkm (uvmcopy kend PHYSTOP (p_pagetable p) (p_pagetable q) (p_sz p)) ;;
      if r <? 0 then freeproc np ;;; release (LProc np) ;;; ret None
      else
        updp np (fun q => set_mm (p_sz p) (p_pagetable q) (p_trapframe q) q) ;;;
        onkm (move (p_trapframe q) (p_trapframe p) TF_SIZE) ;;;
        onkm (st64 (p_trapframe q + TF_A0) 0) ;;;
        dup_files np (p_ofile p) ;;;
        d <- match p_cwd p with None => fail FNull | Some d => onx (vget d) end ;;
        updp np (fun q => set_files (p_ofile q) (Some d) q) ;;;
        updp np (fun q => set_name (safestrcpy (p_name q) (p_name p) 16) q) ;;;
        q <- getp np ;;
        let pid := p_pid q in
        release (LProc np) ;;;
        ret (Some (np, pid))
  end.

Definition fork_adopt (i np : nat) : MP unit :=
  acquire LWait ;;; updp np (set_parent (Some i)) ;;; release LWait.

Definition fork_start (np : nat) : MP unit :=
  acquire (LProc np) ;;; updp np (set_state RUNNABLE) ;;; release (LProc np).

Definition kfork : MP Z :=
  i <- curproc ;;
  o <- fork_copy i ;;
  match o with
  | None => ret (-1)
  | Some (np, pid) => fork_adopt i np ;;; fork_start np ;;; ret pid
  end.

(** *** Sleeping and waking *)

Definition wakeup1 (ch : option chan) (i : nat) : MP unit :=
  o <- myproc ;;
  if bool_decide (o = Some i) then ret tt
  else
    acquire (LProc i) ;;;
    p <- getp i ;;
    when (bool_decide (p_state p = SLEEPING) && bool_decide (p_chan p = ch)) (updp i (set_state RUNNABLE)) ;;;
    release (LProc i).

Definition wakeup (ch : option chan) : MP unit := for_each all_procs (wakeup1 ch).

(** sched, up to hal_switch. *)
Definition sched (w : caller) : MP unit :=
  i <- curproc ;;
  h <- holding (LProc i) ;;
  if negb h then panic "sched p->lock"
  else
    c <- mycpu ;;
    if negb (Spin.c_noff (c_int c) =? 1) then panic "sched locks"
    else
      p <- getp i ;;
      if bool_decide (p_state p = RUNNING) then panic "sched RUNNING"
      else
        c <- mycpu ;;
        if Spin.c_intr (c_int c) then panic "sched interruptible"
        else updp i (set_context (InSched w (Spin.c_intena (c_int c)))).

Definition yield : MP unit :=
  i <- curproc ;;
  acquire (LProc i) ;;; updp i (set_state RUNNABLE) ;;; sched FromYield.

Definition sleep (ch : option chan) (lk : lockid) : MP unit :=
  i <- curproc ;;
  acquire (LProc i) ;;;
  release lk ;;;
  updp i (fun p => set_state SLEEPING (set_chan ch p)) ;;;
  sched (FromSleep lk).

(** What a process does when the scheduler has switched to it: the end of
    sched and of its caller, up to the release of its lock; sleep then takes
    its condition lock again. *)
Definition set_intena (b : bool) (c : cpu) : cpu :=
  Cpu (Spin.Cpu (Spin.c_noff (c_int c)) b (Spin.c_intr (c_int c))) (c_proc c).

Definition resume (i : nat) : MP (option lockid) :=
  p <- getp i ;;
  match p_context p with
  | NoContext => fail FNull
  | AtForkret _ => j <- curproc ;; release (LProc j) ;;; ret None
  | InSched w intena =>
      updcpu (set_intena intena) ;;;
      match w with
      | FromYield => release (LProc i) ;;; ret None
      | FromSleep lk => updp i (set_chan None) ;;; release (LProc i) ;;; ret (Some lk)
      | FromExit => panic "zombie exit"
      end
  end.

(** One turn of the scheduler's loop: whether it switches to process [i], and
    what it does when the process has switched back. *)
Definition scheduler_pick (i : nat) : MP bool :=
  acquire (LProc i) ;;;
  p <- getp i ;;
  if bool_decide (p_state p = RUNNABLE)
  then updp i (set_state RUNNING) ;;; updcpu (set_cproc (Some i)) ;;; ret true
  else release (LProc i) ;;; ret false.

Definition scheduler_return (i : nat) : MP unit :=
  updcpu (set_cproc None) ;;; release (LProc i).

(** The top of the scheduler's outer loop. *)
Definition scheduler_top : MP unit := set_intr true ;;; set_intr false.

(** *** Exit and wait *)

Definition reparent (i : nat) : MP unit :=
  for_each all_procs (fun j =>
    q <- getp j ;;
    if bool_decide (p_parent q = Some i)
    then
      o <- gets initproc ;;
      updp j (set_parent o) ;;;
      wakeup (ChProc <$> o)
    else ret tt).

Definition close_files (i : nat) : MP unit :=
  for_each (seq 0 NOFILE) (fun fd =>
    p <- getp i ;;
    match default None (p_ofile p !! fd) with
    | None => ret tt
    | Some f => onx (fileclose f) ;;; updp i (fun p => set_files (<[fd := None]> (p_ofile p)) (p_cwd p) p)
    end).

(** The end of kexit, with wait_lock held, up to the switch. *)
Definition exit_sched (i : nat) (status : Z) : MP unit :=
  acquire (LProc i) ;;;
  updp i (fun p => set_state ZOMBIE (set_xstate status p)) ;;;
  release LWait ;;;
  sched FromExit.

Definition kexit (status : Z) : MP unit :=
  i <- curproc ;;
  o <- gets initproc ;;
  if bool_decide (o = Some i) then panic "init exiting"
  else
    close_files i ;;;
    p <- getp i ;;
    match p_cwd p with None => fail FNull | Some d => onx (vput d) end ;;;
    updp i (fun p => set_files (p_ofile p) None p) ;;;
    acquire LWait ;;;
    reparent i ;;;
    p <- getp i ;;
    wakeup (ChProc <$> p_parent p) ;;;
    exit_sched i status.

Definition killed (i : nat) : MP Z :=
  acquire (LProc i) ;;; p <- getp i ;; release (LProc i) ;;; ret (p_killed p).

Definition setkilled (i : nat) : MP unit :=
  acquire (LProc i) ;;; updp i (set_killed 1) ;;; release (LProc i).

(** The copyout of the current process. *)
Definition pcopyout (p : proc) (a : Z) (l : list Z) : MP bool :=
  onkm (copyout kend PHYSTOP (Uproc (p_pagetable p) (p_sz p)) (p_pagetable p) a l).

(** The scan of kwait's loop over the table, with wait_lock held: the result
    of kwait, or else whether there are children. *)
Definition reap_body (i : nat) (addr : Z) (j : nat) (havekids : bool) : MP (bool + Z) :=
  q <- getp j ;;
  if negb (bool_decide (p_parent q = Some i)) then ret (inl havekids)
  else
    acquire (LProc j) ;;;
    q <- getp j ;;
    if bool_decide (p_state q = ZOMBIE)
    then
      p <- getp i ;;
      ok <- (if addr =? 0 then ret true else pcopyout p addr (le_enc 4 (p_xstate q))) ;;
      if negb ok then release (LProc j) ;;; release LWait ;;; ret (inr (-1))
      else freeproc j ;;; release (LProc j) ;;; release LWait ;;; ret (inr (p_pid q))
    else release (LProc j) ;;; ret (inl true).

Fixpoint reap (i : nat) (addr : Z) (js : list nat) (havekids : bool) : MP (bool + Z) :=
  match js with
  | [] => ret (inl havekids)
  | j :: js' =>
      r <- reap_body i addr j havekids ;;
      match r with inl h => reap i addr js' h | inr v => ret (inr v) end
  end.

(** One round of kwait's loop: it returns ([Some]) or goes to sleep ([None]);
    when it wakes, it takes wait_lock again and starts another round. *)
Definition kwait_round (i : nat) (addr : Z) : MP (option Z) :=
  r <- reap i addr all_procs false ;;
  match r with
  | inr v => ret (Some v)
  | inl havekids =>
      k <- (if havekids : bool then killed i else ret 1) ;;
      if negb havekids || negb (k =? 0) then release LWait ;;; ret (Some (-1))
      else sleep (Some (ChProc i)) LWait ;;; ret None
  end.

Definition kwait (addr : Z) : MP (option Z) :=
  i <- curproc ;; acquire LWait ;;; kwait_round i addr.

Definition kkill_body (pid : Z) (z : Z) : MP (option Z) :=
  let i := Z.to_nat z in
  acquire (LProc i) ;;;
  p <- getp i ;;
  if p_pid p =? pid
  then
    updp i (set_killed 1) ;;;
    when (bool_decide (p_state p = SLEEPING)) (updp i (set_state RUNNABLE)) ;;;
    release (LProc i) ;;; ret (Some 0)
  else release (LProc i) ;;; ret None.

Definition kkill (pid : Z) : MP Z :=
  r <- for_upto NPROC 0 (kkill_body pid) ;;
  match r with Some v => ret v | None => ret (-1) end.

End Proc.
