(* ===== verification/ProcSched.v ===== *)
(** ProcSched: the processors and the process table.  Each CPU runs the
    scheduler or a process, and the sections of proc.c between two switches
    interleave.  The invariant says which CPU holds which lock, what the table
    says of the processes that are running, and where a switch leads; the
    sections are proved against it with a small Hoare logic whose triples also
    exclude the panics of the lock and scheduling code. *)

From S2P Require Import Prelude CString Kalloc Locks Arch Vm Hal Proc.

(** What a CPU is doing: scanning the table; having switched to a process
    that has not released its lock yet; running a process, which may be in the
    middle of a fork that has allocated a slot; having switched back to the
    scheduler from a process. *)
Inductive ctl : Type :=
| CScan
| CEnter (p : nat)
| CRun (p : nat) (child : option nat)
| CLeave (p : nat).

#[export] Instance ctl_eq_dec : EqDecision ctl.
Proof. solve_decision. Defined.

Definition on (k : ctl) : option nat :=
  match k with CScan => None | CEnter p | CRun p _ | CLeave p => Some p end.

(** The locks held between sections: the process's, across the switch. *)
Definition held_of (k : ctl) : list lockid :=
  match k with CEnter p | CLeave p => [LProc p] | _ => [] end.

(** The locks each CPU holds while [me] is inside a section. *)
Definition holds (c : nat -> ctl) (me : nat) (held : list lockid) (i : nat) : list lockid :=
  if decide (i = me) then held else held_of (c i).

Definition setctl (c : nat -> ctl) (i : nat) (k : ctl) : nat -> ctl :=
  fun j => if decide (j = i) then k else c j.

(** A context a process can be resumed from. *)
Definition good_ctx (x : context) : Prop :=
  match x with AtForkret _ => True | InSched FromExit _ => False | InSched _ _ => True | NoContext => False end.

(** The entry of process [p] agrees with what the CPUs do. *)
Record settled (c : nat -> ctl) (p : nat) (P : proc) : Prop := Settled {
  st_run : p_state P = RUNNING <-> exists i, c i = CEnter p \/ exists o, c i = CRun p o;
  st_ctx : p_state P = RUNNABLE \/ p_state P = SLEEPING -> good_ctx (p_context P);
  st_enter : forall i, c i = CEnter p -> good_ctx (p_context P);
  st_child : forall i q, c i = CRun q (Some p) -> p_state P = USED /\ good_ctx (p_context P)
}.

(** No process is on two CPUs, and no slot is filled by two forks. *)
Record apart (c : nat -> ctl) : Prop := Apart {
  ap_on : forall i j p, on (c i) = Some p -> on (c j) = Some p -> i = j;
  ap_child : forall i j p q n, c i = CRun p (Some n) -> c j = CRun q (Some n) -> i = j
}.

Definition mk_lock (o : option nat) : Spin.spinlock :=
  match o with None => Spin.initlock | Some c => Spin.Spinlock true (Some c) end.

Section Inv.
  Context {X : Type}.
  Implicit Types s : pst X.

(** [D] is a process whose lock is held and whose entry is being changed. *)
Record inv (c : nat -> ctl) (H : nat -> list lockid) (D : option (nat * (proc -> Prop))) s : Prop := Inv {
  in_apart : apart c;
  in_lock : forall l y, get_lock l s = Some y -> exists o, y = mk_lock o /\ forall i, l ∈ H i <-> o = Some i;
  in_held : forall i l, l ∈ H i -> is_Some (get_lock l s);
  in_nodup : forall i, NoDup (H i);
  in_cpu : forall i x, ps_cpus s !! i = Some x -> c_proc x = on (c i) /\
    Spin.c_noff (c_int x) = zlen (H i) /\ (H i <> [] -> Spin.c_intr (c_int x) = false);
  in_proc : forall p P, ps_proc s !! p = Some P ->
    match D with Some (i, Phi) => if decide (p = i) then Phi P else settled c p P | None => settled c p P end
}.

(** Between two sections. *)
Definition rest (c : nat -> ctl) s : Prop := inv c (fun i => held_of (c i)) None s.

(** *** Fields *)

Lemma get_set_lock_eq l x s : is_Some (get_lock l s) -> get_lock l (set_lock l x s) = Some x.
Proof.
  destruct l as [p| | | |k]; cbn; try done.
  - intros [y Hy]. destruct (ps_proc s !! p) as [P|] eqn:E; [|done]. cbn.
    rewrite list_lookup_insert_eq by (by eapply lookup_lt_Some). done.
  - intros [y Hy]. rewrite list_lookup_insert_eq by (by eapply lookup_lt_Some). done.
Qed.

Lemma get_set_lock_ne l l' x s : l' <> l -> get_lock l' (set_lock l x s) = get_lock l' s.
Proof.
  intros Hne. destruct l as [p| | | |k], l' as [p'| | | |k']; cbn; try done;
    try (by destruct (ps_proc s !! p)).
  - destruct (ps_proc s !! p) eqn:E; [|done]. cbn. rewrite list_lookup_insert_ne; [done|congruence].
  - rewrite list_lookup_insert_ne; [done|congruence].
Qed.

Lemma set_lock_cpus l x s : ps_cpus (set_lock l x s) = ps_cpus s.
Proof. destruct l as [p| | | |k]; cbn; try done. by destruct (ps_proc s !! p). Qed.

(** A lock is the only field set_lock changes. *)
Lemma set_lock_proc l x s p P : ps_proc (set_lock l x s) !! p = Some P ->
  exists P0, ps_proc s !! p = Some P0 /\ (P = P0 \/ (l = LProc p /\ P = set_plock x P0)).
Proof.
  destruct l as [q| | | |k]; cbn; eauto. destruct (ps_proc s !! q) as [Q|] eqn:E; eauto. cbn.
  destruct (decide (p = q)) as [->|Hne].
  - rewrite list_lookup_insert_eq by (by eapply lookup_lt_Some). intros [= <-]. eauto.
  - rewrite list_lookup_insert_ne by done. eauto.
Qed.

Lemma get_lock_cpu l i x s : get_lock l (set_cpu i x s) = get_lock l s.
Proof. by destruct l. Qed.

Lemma settled_plock c p P x : settled c p P -> settled c p (set_plock x P).
Proof. intros [? ? ? ?]. by constructor. Qed.

(** Changing locks and the interrupt state of a CPU. *)
Lemma inv_relock c H D s me x ci l y (H' : nat -> list lockid) :
  inv c H D s -> ps_cpus s !! me = Some x -> is_Some (get_lock l s) ->
  (match D with Some (i, _) => l <> LProc i | None => True end) ->
  (forall i, i <> me -> H' i = H i) -> (forall i, NoDup (H' i)) ->
  (forall l', l' <> l -> l' ∈ H' me <-> l' ∈ H me) ->
  (exists o, y = mk_lock o /\ forall i, l ∈ H' i <-> o = Some i) ->
  Spin.c_noff ci = zlen (H' me) -> (H' me <> [] -> Spin.c_intr ci = false) ->
  inv c H' D (set_cpu me (Cpu ci (c_proc x)) (set_lock l y s)).
Proof.
  intros [I1 I2 I3 I4 I5 I6] Hx Hl HD HH Hnd Hl' Hy Hno Hin.
  assert (forall l' i, l' <> l -> l' ∈ H' i <-> l' ∈ H i) as Hsame.
  { intros l' i Hne. destruct (decide (i = me)) as [->|Hi]; [by apply Hl'|by rewrite HH]. }
  constructor; try done.
  - intros l' y'. rewrite get_lock_cpu. destruct (decide (l' = l)) as [->|Hne].
    + rewrite get_set_lock_eq by done. intros [= <-]. done.
    + rewrite get_set_lock_ne by done. intros Hy'. destruct (I2 l' y' Hy') as (o & -> & Ho).
      exists o. split; [done|]. intros i. by rewrite Hsame.
  - intros i l' Hi. rewrite get_lock_cpu. destruct (decide (l' = l)) as [->|Hne].
    + by rewrite get_set_lock_eq.
    + rewrite get_set_lock_ne by done. apply (I3 i). by apply Hsame.
  - intros i x'. cbn [ps_cpus set_cpu]. rewrite set_lock_cpus. destruct (decide (i = me)) as [->|Hi].
    + rewrite list_lookup_insert_eq by (by eapply lookup_lt_Some). intros [= <-]. cbn.
      split_and!; try done. by apply I5.
    + rewrite list_lookup_insert_ne by done. rewrite HH by done. apply I5.
  - intros p P HP. cbn [ps_proc set_cpu] in HP. apply set_lock_proc in HP as (P0 & HP0 & HP).
    specialize (I6 p P0 HP0). destruct D as [[i Phi]|].
    + destruct (decide (p = i)) as [->|Hpi].
      * by destruct HP as [->|[-> _]].
      * destruct HP as [->|[_ ->]]; [done|by apply settled_plock].
    + destruct HP as [->|[_ ->]]; [done|by apply settled_plock].
Qed.

End Inv.

Lemma inv_H_ext {X} (c : nat -> ctl) H1 H2 D (s : pst X) :
  (forall i, H1 i = H2 i) -> inv c H1 D s -> inv c H2 D s.
Proof.
  intros E [I1 I2 I3 I4 I5 I6]. constructor; try done.
  - intros l y Hy. destruct (I2 l y Hy) as (o & ? & Ho). exists o. split; [done|]. intros i. by rewrite <-E.
  - intros i l. rewrite <-E. apply I3.
  - intros i. rewrite <-E. apply I4.
  - intros i x. rewrite <-E. apply I5.
Qed.

(** *** Triples *)

(** The panics of the lock and scheduling code. *)
Definition lock_msgs : list string :=
  ["acquire"; "release"; "pop_off"; "pop_off - interruptible"; "sched p->lock"; "sched locks";
   "sched RUNNING"; "sched interruptible"; "zombie exit"].

Definition quiet_fault (e : fault) : Prop := match e with FPanic m => m ∉ lock_msgs | _ => True end.

(** [m] returns in a state with [Q], or stops without such a panic: it waits
    for a lock that another CPU holds, or other code it called stopped. *)
Definition triple {S A} (P : S -> Prop) (m : M S A) (Q : A -> S -> Prop) : Prop :=
  forall s, P s -> match m s with Ok (a, s') => Q a s' | Fault e => quiet_fault e end.

(** Operations of other components, of which only this is needed. *)
Definition quiet {S A} (m : M S A) : Prop := forall s, match m s with Ok _ => True | Fault e => quiet_fault e end.

Lemma triple_bind {S A B} (P : S -> Prop) (m : M S A) (k : A -> M S B) Q R :
  triple P m Q -> (forall a, triple (Q a) (k a) R) -> triple P (bind m k) R.
Proof.
  intros Hm Hk s Hs. specialize (Hm s Hs). unfold bind. destruct (m s) as [[a s']|e]; [|done].
  by apply Hk.
Qed.

Lemma triple_ret {S A} (P : S -> Prop) (a : A) : triple P (ret a) (fun b s => b = a /\ P s).
Proof. intros s Hs. by split. Qed.

Lemma triple_conseq {S A} (P P' : S -> Prop) (m : M S A) Q Q' :
  triple P m Q -> (forall s, P' s -> P s) -> (forall a s, Q a s -> Q' a s) -> triple P' m Q'.
Proof.
  intros Hm HP HQ s Hs. specialize (Hm s (HP s Hs)). destruct (m s) as [[a s']|e]; [|done]. by apply HQ.
Qed.

Lemma triple_post {S A} (P : S -> Prop) (m : M S A) Q Q' :
  triple P m Q -> (forall a s, Q a s -> Q' a s) -> triple P m Q'.
Proof. intros Hm HQ. by eapply triple_conseq. Qed.

Lemma triple_when {S} (P : S -> Prop) (b : bool) (m : M S unit) :
  triple P m (fun _ => P) -> triple P (when b m) (fun _ => P).
Proof. intros Hm. destruct b; [done|]. by intros s Hs. Qed.

Lemma triple_for_each {S Y} (I : S -> Prop) (l : list Y) (body : Y -> M S unit) :
  (forall y, triple I (body y) (fun _ => I)) -> triple I (for_each l body) (fun _ => I).
Proof.
  intros Hb. induction l as [|y l IH]; cbn [for_each]; [by intros s Hs|].
  eapply triple_bind; [apply Hb|done].
Qed.

Lemma triple_for_upto {S R} (I : S -> Prop) (Q : R -> S -> Prop) (n : nat) (body : Z -> M S (option R)) :
  (forall z, triple I (body z) (fun o s => match o with None => I s | Some r => Q r s end)) ->
  forall z, triple I (for_upto n z body) (fun o s => match o with None => I s | Some r => Q r s end).
Proof.
  intros Hb. induction n as [|n IH]; intros z; cbn [for_upto]; [by intros s Hs|].
  eapply triple_bind; [apply Hb|]. intros [r|]; [by intros s Hs|apply IH].
Qed.

(** Facts that do not depend on the state. *)
Lemma triple_pure {S A} (F : Prop) (P : S -> Prop) (m : M S A) Q :
  (F -> triple P m Q) -> triple (fun s => F /\ P s) m Q.
Proof. intros Hm s [HF Hs]. by apply Hm. Qed.

(** The next operation, by rule [t]; its result is introduced or forgotten. *)
Tactic Notation "tstep" tactic3(t) :=
  eapply triple_bind; [t|let a := fresh "a" in intros a; cbn beta; clear a].
Tactic Notation "tstep" tactic3(t) "as" simple_intropattern(x) :=
  eapply triple_bind; [t|intros x; cbn beta].

Section Rules.
  Context {X : Type} `{OpenFiles X} `{Hal}.
  Context (kend PHYSTOP trampoline : Z) (me : nat) (c : nat -> ctl).
  Implicit Types s : pst X.

Local Abbreviation sect held D := (inv (X:=X) c (holds c me held) D).

Lemma holds_me held : holds c me held me = held.
Proof. unfold holds. by rewrite decide_True. Qed.
Lemma holds_ne held i : i <> me -> holds c me held i = held_of (c i).
Proof. intros. unfold holds. by rewrite decide_False. Qed.

Definition spare_lock (l : lockid) (D : option (nat * (proc -> Prop))) : Prop :=
  match D with Some (i, _) => l <> LProc i | None => True end.

Lemma acquire_rule l held D : l ∉ held -> spare_lock l D ->
  triple (sect held D) (acquire me l) (fun _ => sect (l :: held) D).
Proof.
  intros Hl HD s Hs. unfold acquire, onlock, bind, mycpu.
  destruct (ps_cpus s !! me) as [x|] eqn:Ex; [|done].
  destruct (get_lock l s) as [y|] eqn:Ey; [|done].
  destruct (in_lock _ _ _ _ Hs l y Ey) as (o & -> & Ho).
  destruct (in_cpu _ _ _ _ Hs me x Ex) as (Hp & Hn & Hi). rewrite holds_me in Hn.
  unfold Spin.acquire, Spin.push_off, Spin.holding, bind, gets. cbn [Spin.st_lk Spin.st_cpu].
  destruct o as [j|]; cbn [mk_lock Spin.holding_lk Spin.lk_locked Spin.lk_cpu Spin.initlock andb].
  - rewrite bool_decide_eq_false_2; [done|]. intros [= ->].
    apply Hl. rewrite <-(holds_me held). by apply Ho.
  - cbn. eapply inv_relock; [exact Hs|exact Ex|by eexists|done| | | | | |].
    + intros i Hi'. by rewrite !holds_ne.
    + intros i. destruct (decide (i = me)) as [->|Hi'].
      * rewrite holds_me. constructor; [done|]. pose proof (in_nodup _ _ _ _ Hs me) as Hnd.
        by rewrite holds_me in Hnd.
      * rewrite holds_ne by done. pose proof (in_nodup _ _ _ _ Hs i) as Hnd. by rewrite holds_ne in Hnd.
    + intros l' Hne. rewrite !holds_me, elem_of_cons. tauto.
    + exists (Some me). split; [done|]. intros i. destruct (decide (i = me)) as [->|Hi'].
      * rewrite holds_me, elem_of_cons. tauto.
      * rewrite holds_ne by done. pose proof (Ho i) as Hoi. rewrite holds_ne in Hoi by done.
        rewrite Hoi. split; congruence.
    + cbn. rewrite Hn, holds_me. unfold zlen. cbn. lia.
    + done.
Qed.

(** What a CPU that holds a lock finds in it. *)
Lemma held_lock l held D s : sect held D s -> l ∈ held ->
  get_lock l s = Some (mk_lock (Some me)).
Proof.
  intros Hs Hl. destruct (in_held _ _ _ _ Hs me l) as [y Ey]; [by rewrite holds_me|].
  rewrite Ey. destruct (in_lock _ _ _ _ Hs l y Ey) as (o & -> & Ho).
  specialize (Ho me). rewrite holds_me in Ho. by rewrite (proj1 Ho Hl).
Qed.

Lemma release_rule l held1 held2 D : spare_lock l D ->
  triple (sect (held1 ++ l :: held2) D) (release me l) (fun _ => sect (held1 ++ held2) D).
Proof.
  intros HD s Hs. unfold release, onlock, bind, mycpu.
  destruct (ps_cpus s !! me) as [x|] eqn:Ex; [|done].
  rewrite (held_lock l _ _ _ Hs) by (rewrite elem_of_app, elem_of_cons; tauto).
  destruct (in_cpu _ _ _ _ Hs me x Ex) as (Hp & Hn & Hi). rewrite holds_me in Hn, Hi.
  specialize (Hi ltac:(by destruct held1)).
  pose proof (in_nodup _ _ _ _ Hs me) as Hnd. rewrite holds_me in Hnd.
  apply NoDup_app in Hnd as (Hn1 & Hn12 & Hn2). apply NoDup_cons in Hn2 as [Hl2 Hn2].
  unfold Spin.release, Spin.holding, Spin.pop_off, bind, gets, modify.
  cbn [Spin.st_lk Spin.st_cpu mk_lock Spin.holding_lk Spin.lk_locked Spin.lk_cpu andb].
  rewrite bool_decide_eq_true_2 by done. cbn [negb Spin.st_lk Spin.st_cpu]. rewrite Hi. unfold zlen in Hn. rewrite length_app in Hn.
  cbn [length] in Hn. rewrite (proj2 (Z.ltb_ge (Spin.c_noff (c_int x)) 1)) by lia.
  eapply inv_relock; [exact Hs|exact Ex| |done| | | | | |]; cbn [Spin.st_lk Spin.st_cpu].
  - rewrite (held_lock l _ _ _ Hs) by (rewrite elem_of_app, elem_of_cons; tauto). by eexists.
  - intros i Hi'. by rewrite !holds_ne.
  - intros i. destruct (decide (i = me)) as [->|Hi'].
    + rewrite holds_me. apply NoDup_app. split_and!; [done| |done].
      intros l' Hl'. specialize (Hn12 l' Hl'). rewrite not_elem_of_cons in Hn12. tauto.
    + rewrite holds_ne by done. pose proof (in_nodup _ _ _ _ Hs i) as Hnd. by rewrite holds_ne in Hnd.
  - intros l' Hne. rewrite !holds_me, !elem_of_app, elem_of_cons. tauto.
  - exists None. split; [done|]. intros i. split; [|done]. destruct (decide (i = me)) as [->|Hi'].
    + rewrite holds_me, elem_of_app. intros [Hl|Hl]; [|done]. destruct (Hn12 l Hl). by left.
    + rewrite holds_ne by done. intros Hl.
      pose proof (held_lock l _ _ _ Hs ltac:(rewrite elem_of_app, elem_of_cons; tauto)) as Ey.
      destruct (in_lock _ _ _ _ Hs l _ Ey) as (o & Eo & Ho).
      assert (o = Some me) as -> by (apply Ho; rewrite holds_me, elem_of_app, elem_of_cons; tauto).
      pose proof (proj1 (Ho i)) as Hoi. rewrite holds_ne in Hoi by done. specialize (Hoi Hl). congruence.
  - cbn. rewrite holds_me. unfold zlen. rewrite length_app. lia.
  - rewrite holds_me. cbn. intros Hne. destruct (_ && _) eqn:Eb; [|done].
    exfalso. apply Hne. assert (length (held1 ++ held2) = 0%nat) as E0 by (rewrite length_app; lia).
    by apply nil_length_inv in E0.
Qed.

(** Changes of anything but processes, CPUs and locks. *)
Lemma inv_ext H' D s s' : inv c H' D s -> ps_proc s' = ps_proc s -> ps_cpus s' = ps_cpus s ->
  (forall l, get_lock l s' = get_lock l s) -> inv c H' D s'.
Proof.
  intros [I1 I2 I3 I4 I5 I6] Ep Ec El. constructor; try done.
  - intros l y. rewrite El. apply I2.
  - intros i l. rewrite El. apply I3.
  - intros i x. rewrite Ec. apply I5.
  - intros p P. rewrite Ep. apply I6.
Qed.

Lemma onkm_rule {A} (m : M kmem A) H' D : quiet m -> triple (inv (X:=X) c H' D) (onkm m) (fun _ => inv c H' D).
Proof.
  intros Hm s Hs. unfold onkm, zoom. specialize (Hm (ps_km s)). destruct (m (ps_km s)) as [[a k]|e]; [|done].
  eapply inv_ext; [exact Hs|done..|]. intros []; done.
Qed.

Lemma onx_rule {A} (m : M X A) H' D : quiet m -> triple (inv (X:=X) c H' D) (onx m) (fun _ => inv c H' D).
Proof.
  intros Hm s Hs. unfold onx, zoom. specialize (Hm (ps_x s)). destruct (m (ps_x s)) as [[a k]|e]; [|done].
  eapply inv_ext; [exact Hs|done..|]. intros []; done.
Qed.

Lemma getp_rule i H' D :
  triple (inv (X:=X) c H' D) (getp i) (fun P s => ps_proc s !! i = Some P /\ inv c H' D s).
Proof. intros s Hs. unfold getp. by destruct (ps_proc s !! i) eqn:E. Qed.

Lemma gets_rule {A} (f : pst X -> A) H' D : triple (inv c H' D) (gets f) (fun _ => inv c H' D).
Proof. by intros s Hs. Qed.

(** An update of one entry that keeps its lock. *)
Lemma inv_setp i P f H' D D' s : inv (X:=X) c H' D s -> ps_proc s !! i = Some P -> p_lock (f P) = p_lock P ->
  (match D' with Some (j, Phi) => if decide (i = j) then Phi (f P) else settled c i (f P)
                | None => settled c i (f P) end) ->
  (forall p Q, p <> i -> ps_proc s !! p = Some Q ->
     match D with Some (j, Phi) => if decide (p = j) then Phi Q else settled c p Q | None => settled c p Q end ->
     match D' with Some (j, Phi) => if decide (p = j) then Phi Q else settled c p Q | None => settled c p Q end) ->
  inv c H' D' (set_proc i (f P) s).
Proof.
  intros [I1 I2 I3 I4 I5 I6] HP Hl Hi Ho.
  assert (forall l, get_lock l (set_proc i (f P) s) = get_lock l s) as El.
  { intros [p| | | |k]; cbn; try done. destruct (decide (p = i)) as [->|Hne].
    - rewrite list_lookup_insert_eq by (by eapply lookup_lt_Some). rewrite HP. cbn. by rewrite Hl.
    - by rewrite list_lookup_insert_ne. }
  constructor; try done.
  - intros l y. rewrite El. apply I2.
  - intros j l. rewrite El. apply I3.
  - intros p Q. cbn [ps_proc set_proc]. destruct (decide (p = i)) as [->|Hne].
    + rewrite list_lookup_insert_eq by (by eapply lookup_lt_Some). intros [= <-]. done.
    + rewrite list_lookup_insert_ne by done. intros HQ. by apply Ho, I6.
Qed.

(** An entry whose lock is held and that is being changed. *)
Lemma updp_dirty i f held (Phi Psi : proc -> Prop) :
  (forall P, Phi P -> p_lock (f P) = p_lock P /\ Psi (f P)) ->
  triple (sect held (Some (i, Phi))) (updp i f) (fun _ => sect held (Some (i, Psi))).
Proof.
  intros Hf s Hs. unfold updp. destruct (ps_proc s !! i) as [P|] eqn:E; [|done].
  pose proof (in_proc _ _ _ _ Hs i P E) as HP. cbn in HP. rewrite decide_True in HP by done.
  eapply inv_setp; [exact Hs|exact E|by apply Hf| |].
  - rewrite decide_True by done. by apply Hf.
  - intros p Q Hne HQ. by rewrite !decide_False.
Qed.

(** A change that agrees with what the CPUs do. *)
Lemma updp_clean i f H' D :
  (match D with Some (j, _) => i <> j | None => True end) ->
  triple (fun s => inv (X:=X) c H' D s /\ forall P, ps_proc s !! i = Some P ->
    settled c i P -> p_lock (f P) = p_lock P /\ settled c i (f P)) (updp i f) (fun _ => inv c H' D).
Proof.
  intros HD s [Hs Hf]. unfold updp. destruct (ps_proc s !! i) as [P|] eqn:E; [|done].
  pose proof (in_proc _ _ _ _ Hs i P E) as HP.
  assert (settled c i P) as HS.
  { destruct D as [[j Phi]|]; [|done]. by rewrite decide_False in HP. }
  destruct (Hf P eq_refl HS) as [Hl HS']. eapply inv_setp; [exact Hs|exact E|done| |by intros].
  destruct D as [[j Phi]|]; [|done]. by rewrite decide_False.
Qed.

Lemma open_entry held i s : sect held None s ->
  forall P, ps_proc s !! i = Some P -> sect held (Some (i, eq P)) s.
Proof.
  intros [I1 I2 I3 I4 I5 I6] P HP. constructor; try done.
  intros p Q HQ. destruct (decide (p = i)) as [->|Hne]; [congruence|]. by apply I6.
Qed.

Lemma close_entry held i (Phi : proc -> Prop) s : sect held (Some (i, Phi)) s ->
  (forall P, Phi P -> settled c i P) -> sect held None s.
Proof.
  intros [I1 I2 I3 I4 I5 I6] HP. constructor; try done.
  intros p Q HQ. specialize (I6 p Q HQ). cbn in I6. destruct (decide (p = i)) as [->|Hne]; [by apply HP|done].
Qed.

(** push_off and pop_off around the read of [c->proc]. *)
Lemma myproc_rule held D :
  triple (sect held D) (myproc me) (fun o s => o = on (c me) /\ sect held D s).
Proof.
  intros s Hs. unfold myproc, oncpu, bind, mycpu, ret.
  destruct (ps_cpus s !! me) as [x|] eqn:Ex; [|done]. cbn [Spin.push_off].
  destruct (in_cpu _ _ _ _ Hs me x Ex) as (Hp & Hn & Hi). rewrite holds_me in Hn, Hi.
  unfold Spin.push_off. cbn [Spin.st_cpu Spin.st_lk ps_cpus set_cpu].
  rewrite !list_lookup_insert_eq by (by eapply lookup_lt_Some). cbn [c_int c_proc ps_cpus set_cpu].
  rewrite !list_lookup_insert_eq by (by eapply lookup_lt_Some).
  unfold Spin.pop_off. cbn [c_int c_proc Spin.st_cpu Spin.st_lk Spin.c_intr Spin.c_noff Spin.c_intena].
  assert (0 <= Spin.c_noff (c_int x)) by (rewrite Hn; unfold zlen; lia).
  rewrite (proj2 (Z.ltb_ge (Spin.c_noff (c_int x) + 1) 1)) by lia. split; [done|].
  destruct Hs as [I1 I2 I3 I4 I5 I6]. constructor; try done.
  intros i y. cbn [ps_cpus set_cpu]. destruct (decide (i = me)) as [->|Hne].
  - rewrite list_lookup_insert_eq by (rewrite length_insert; by eapply lookup_lt_Some). intros [= <-].
    cbn. rewrite holds_me. split_and!; [done|lia|]. intros Hh. specialize (Hi Hh).
    destruct (Z.eqb_spec (Spin.c_noff (c_int x) + 1 - 1) 0) as [E0|E0]; [|done]. exfalso.
    apply Hh, nil_length_inv. unfold zlen in Hn. lia.
  - rewrite !list_lookup_insert_ne by done. apply I5.
Qed.

Lemma curproc_rule held D :
  triple (sect held D) (curproc me) (fun p s => on (c me) = Some p /\ sect held D s).
Proof.
  unfold curproc. eapply triple_bind; [apply myproc_rule|]. intros o s [-> Hs].
  by destruct (on (c me)).
Qed.

Lemma settled_ext p P Q : p_state Q = p_state P -> p_context Q = p_context P ->
  settled c p P -> settled c p Q.
Proof. intros E1 E2 [? ? ? ?]. constructor; by rewrite ?E1, ?E2. Qed.

Lemma settled_wake p P Q : p_state P = SLEEPING -> p_state Q = RUNNABLE -> p_context Q = p_context P ->
  settled c p P -> settled c p Q.
Proof.
  intros E1 E2 E3 [S1 S2 S3 S4]. constructor; rewrite ?E2, ?E3.
  - rewrite <-S1, E1. split; congruence.
  - intros _. apply S2. by right.
  - done.
  - intros i q Hi. destruct (S4 i q Hi). congruence.
Qed.

(** *** Sections that change one entry under its lock *)

Lemma release_head l held D : spare_lock l D ->
  triple (sect (l :: held) D) (release me l) (fun _ => sect held D).
Proof. apply (release_rule l [] held). Qed.

(** Reading an entry in order to change it. *)
Lemma take_entry i held :
  triple (sect held None) (getp i) (fun P s => settled c i P /\ sect held (Some (i, eq P)) s).
Proof.
  intros s Hs. unfold getp. destruct (ps_proc s !! i) as [P|] eqn:E; [|done].
  split; [by apply (in_proc _ _ _ _ Hs)|by apply open_entry].
Qed.

Lemma put_entry {A} i P held (m : M (pst X) A) Q :
  settled c i P -> triple (sect held None) m Q -> triple (sect held (Some (i, eq P))) m Q.
Proof.
  intros HS Hm. eapply triple_conseq; [exact Hm| |done]. intros s Hs. eapply close_entry; [done|].
  by intros ? <-.
Qed.

Lemma updp_eq i f P held : p_lock (f P) = p_lock P ->
  triple (sect held (Some (i, eq P))) (updp i f) (fun _ => sect held (Some (i, eq (f P)))).
Proof. intros Hl. apply updp_dirty. by intros ? <-. Qed.

Lemma updp_when i f P held (b : bool) : p_lock (f P) = p_lock P ->
  triple (sect held (Some (i, eq P))) (when b (updp i f))
    (fun _ => sect held (Some (i, eq (if b then f P else P)))).
Proof. intros Hl. destruct b; [by apply updp_eq|by intros s Hs]. Qed.

(** Updates that change neither state nor context nor lock. *)
Lemma updp_mild i f H' D :
  (forall P, p_lock (f P) = p_lock P /\ p_state (f P) = p_state P /\ p_context (f P) = p_context P) ->
  (match D with Some (j, _) => i <> j | None => True end) ->
  triple (inv (X:=X) c H' D) (updp i f) (fun _ => inv c H' D).
Proof.
  intros Hf HD s Hs. apply updp_clean; [done|]. split; [done|]. intros P _ HS.
  destruct (Hf P) as (? & ? & ?). split; [done|]. by eapply settled_ext.
Qed.

Lemma wakeup1_rule ch i held : LProc i ∉ held ->
  triple (sect held None) (wakeup1 me ch i) (fun _ => sect held None).
Proof.
  intros Hl. unfold wakeup1. tstep (apply myproc_rule) as o. apply triple_pure. intros _.
  case_bool_decide; [by intros s Hs|].
  tstep (by apply acquire_rule). tstep (apply take_entry) as P. apply triple_pure. intros HS.
  tstep (by apply updp_when). apply put_entry; [|by apply release_head].
  case_bool_decide; [|done]. case_bool_decide; [|done]. by apply (settled_wake _ P).
Qed.

Lemma wakeup_rule ch held : (forall i, LProc i ∉ held) ->
  triple (sect held None) (wakeup me ch) (fun _ => sect held None).
Proof. intros Hl. apply triple_for_each. intros i. by apply wakeup1_rule. Qed.

Lemma setkilled_rule i : triple (sect [] None) (setkilled me i) (fun _ => sect [] None).
Proof.
  unfold setkilled. tstep (apply acquire_rule; [apply not_elem_of_nil|done]).
  tstep (by apply updp_mild). by apply release_head.
Qed.

Lemma killed_rule i held : LProc i ∉ held -> triple (sect held None) (killed me i) (fun _ => sect held None).
Proof.
  intros Hl. unfold killed. tstep (by apply acquire_rule). tstep (apply take_entry) as P.
  apply triple_pure. intros HS. apply put_entry; [done|]. tstep (by apply release_head). by intros s Hs.
Qed.

Lemma kkill_rule pid : triple (sect [] None) (kkill me pid) (fun _ => sect [] None).
Proof.
  unfold kkill. eapply triple_bind.
  - apply (triple_for_upto (sect [] None) (fun _ => sect [] None)). intros z. unfold kkill_body. cbv zeta.
    tstep (apply acquire_rule; [apply not_elem_of_nil|done]). tstep (apply take_entry) as P.
    apply triple_pure. intros HS. destruct (p_pid P =? pid).
    + tstep (by apply updp_eq). tstep (by apply updp_when). apply put_entry.
      * case_bool_decide; [by apply (settled_wake _ P)|by apply (settled_ext _ P)].
      * tstep (by apply release_head). by intros s Hs.
    + apply put_entry; [done|]. tstep (by apply release_head). by intros s Hs.
  - intros [v|]; by intros s Hs.
Qed.

(** *** The switch to the scheduler *)

(** The CPUs after [me] has changed what it does. *)
Lemma apart_set k : apart c -> on k = on (c me) \/ on k = None \/ (forall i p, on k = Some p -> on (c i) <> Some p) ->
  (forall q n, k = CRun q (Some n) -> c me = k \/ forall j q', c j <> CRun q' (Some n)) ->
  apart (setctl c me k).
Proof.
  intros [Ha1 Ha2] Hk Hn. split.
  - intros i j p. unfold setctl. destruct (decide (i = me)) as [->|Hi], (decide (j = me)) as [->|Hj]; try done.
    + intros Hp Hq. destruct Hk as [Hk|[Hk|Hk]]; [|congruence|by destruct (Hk j p Hp)].
      exfalso. apply Hj. apply (Ha1 j me p); congruence.
    + intros Hp Hq. destruct Hk as [Hk|[Hk|Hk]]; [|congruence|by destruct (Hk i p Hq)].
      exfalso. apply Hi. apply (Ha1 i me p); congruence.
    + apply Ha1.
  - intros i j p q n. unfold setctl. destruct (decide (i = me)) as [->|Hi], (decide (j = me)) as [->|Hj]; try done.
    + intros Ek Hq. destruct (Hn _ _ Ek) as [Hm|Hno]; [|by destruct (Hno j q)].
      symmetry. eapply Ha2; [exact Hq|]. by rewrite Hm.
    + intros Hq Ek. destruct (Hn _ _ Ek) as [Hm|Hno]; [|by destruct (Hno i p)].
      eapply Ha2; [exact Hq|]. by rewrite Hm.
    + apply Ha2.
Qed.

Lemma holds_set k i : holds c me (held_of k) i = held_of (setctl c me k i).
Proof. unfold holds, setctl. by destruct (decide (i = me)). Qed.

(** A section that ends with [me] in another place. *)
Lemma switch_rest k D s : sect (held_of k) D s -> apart (setctl c me k) ->
  (forall x, ps_cpus s !! me = Some x -> c_proc x = on k) ->
  (forall p P, ps_proc s !! p = Some P ->
     match D with Some (i, Phi) => if decide (p = i) then Phi P else settled c p P | None => settled c p P end ->
     settled (setctl c me k) p P) ->
  rest (setctl c me k) s.
Proof.
  intros [I1 I2 I3 I4 I5 I6] Ha Hc Hp. constructor; [done|..].
  - intros l y Hy. destruct (I2 l y Hy) as (o & -> & Ho). exists o. split; [done|]. intros i.
    by rewrite <-holds_set.
  - intros i l. rewrite <-holds_set. apply I3.
  - intros i. rewrite <-holds_set. apply I4.
  - intros i x Hx. rewrite <-holds_set. destruct (I5 i x Hx) as (H1' & H2' & H3'). split; [|done].
    unfold setctl. destruct (decide (i = me)) as [->|]; [by apply Hc|done].
  - intros p P HP. by apply Hp, I6.
Qed.

Lemma setctl_me k : setctl c me k me = k.
Proof. unfold setctl. by rewrite decide_True. Qed.
Lemma setctl_ne k i : i <> me -> setctl c me k i = c i.
Proof. intros. unfold setctl. by rewrite decide_False. Qed.

(** Entries of other processes, when [me] stops or starts running [i]. *)
Lemma settled_other i k p P : p <> i -> on (c me) = Some i \/ c me = CScan -> on k = Some i \/ k = CScan ->
  (forall q, c me <> CRun q (Some p)) -> (forall q, k <> CRun q (Some p)) ->
  settled c p P -> settled (setctl c me k) p P.
Proof.
  intros Hne Hon Hk Hc1 Hk1 [S1 S2 S3 S4].
  assert (forall j, (c j = CEnter p \/ exists o, c j = CRun p o) <->
    (setctl c me k j = CEnter p \/ exists o, setctl c me k j = CRun p o)) as Hj.
  { intros j. unfold setctl. destruct (decide (j = me)) as [->|]; [|done]. split; intros [E|[o E]].
    - rewrite E in Hon. destruct Hon as [[= ->]|?]; done.
    - rewrite E in Hon. destruct Hon as [[= ->]|?]; done.
    - rewrite E in Hk. destruct Hk as [[= ->]|?]; done.
    - rewrite E in Hk. destruct Hk as [[= ->]|?]; done. }
  constructor; [|done| |].
  - rewrite S1. split; intros [j Hj']; exists j; by apply Hj.
  - intros j. unfold setctl. destruct (decide (j = me)) as [->|]; [|apply S3].
    intros ->. destruct Hk as [[= ->]|?]; done.
  - intros j q. unfold setctl. destruct (decide (j = me)) as [->|]; [|apply S4]. intros ->. by destruct (Hk1 q).
Qed.

Lemma mycpu_rule held D : triple (sect held D) (mycpu me) (fun x s =>
  (c_proc x = on (c me) /\ Spin.c_noff (c_int x) = zlen held /\ (held <> [] -> Spin.c_intr (c_int x) = false)) /\
  sect held D s).
Proof.
  intros s Hs. unfold mycpu. destruct (ps_cpus s !! me) as [x|] eqn:Ex; [|done]. split; [|done].
  pose proof (in_cpu _ _ _ _ Hs me x Ex) as Hx. by rewrite holds_me in Hx.
Qed.

Lemma holding_rule l held D : l ∈ held ->
  triple (sect held D) (holding me l) (fun b s => b = true /\ sect held D s).
Proof.
  intros Hl s Hs. unfold holding, bind, mycpu. destruct (ps_cpus s !! me) as [x|] eqn:Ex; [|done].
  rewrite (held_lock l held D s Hs Hl). unfold Spin.holding, gets. cbn. by rewrite bool_decide_eq_true_2.
Qed.

Lemma getp_dirty i P held :
  triple (sect held (Some (i, eq P))) (getp i) (fun Q s => Q = P /\ sect held (Some (i, eq P)) s).
Proof.
  intros s Hs. unfold getp. destruct (ps_proc s !! i) as [Q|] eqn:E; [|done]. split; [|done].
  pose proof (in_proc _ _ _ _ Hs i Q E) as HQ. cbn in HQ. by rewrite decide_True in HQ.
Qed.

(** The state in which a process may call sched. *)
Record may_sched (i : nat) (w : caller) (P : proc) : Prop := May_sched {
  ms_run : c me = CRun i None;
  ms_child : forall j q, c j <> CRun q (Some i);
  ms_state : p_state P <> RUNNING;
  ms_good : p_state P = RUNNABLE \/ p_state P = SLEEPING -> w <> FromExit
}.

Lemma sched_rule i w P : may_sched i w P ->
  triple (sect [LProc i] (Some (i, eq P))) (sched me w) (fun _ => rest (setctl c me (CLeave i))).
Proof.
  intros [Hr Hc Hst Hw]. unfold sched.
  tstep (apply curproc_rule) as j. apply triple_pure. rewrite Hr. intros [= <-].
  tstep (apply holding_rule; by left) as b. apply triple_pure. intros ->. cbn [negb].
  tstep (apply mycpu_rule) as x. apply triple_pure. intros (_ & Hn & _). rewrite Hn. cbn [negb zlen length Z.of_nat Z.eqb Pos.eqb].
  tstep (apply getp_dirty) as Q. apply triple_pure. intros ->.
  rewrite bool_decide_eq_false_2 by done.
  tstep (apply mycpu_rule) as x2. apply triple_pure. intros (_ & _ & Hi). rewrite Hi by done.
  eapply triple_post; [by apply updp_eq|]. intros [] s Hs.
  apply (switch_rest (CLeave i) _ s Hs).
  - apply apart_set; [apply Hs|left; by rewrite Hr|done].
  - intros y Hy. destruct (in_cpu _ _ _ _ Hs me y Hy) as [-> _]. by rewrite Hr.
  - intros p Q HQ. destruct (decide (p = i)) as [->|Hne]; intros HS.
    + subst Q. constructor; cbn [p_state p_context set_context].
      * split; [done|]. intros [j Hj]. exfalso. destruct (decide (j = me)) as [->|Hjm].
        -- rewrite setctl_me in Hj. destruct Hj as [?|[? ?]]; done.
        -- rewrite setctl_ne in Hj by done. apply Hjm, (ap_on _ (in_apart _ _ _ _ Hs) j me i); [|by rewrite Hr].
           by destruct Hj as [->|[? ->]].
      * intros Hs'. specialize (Hw Hs'). by destruct w.
      * intros j Hj. exfalso. destruct (decide (j = me)) as [->|Hjm].
        -- by rewrite setctl_me in Hj.
        -- rewrite setctl_ne in Hj by done. apply Hjm, (ap_on _ (in_apart _ _ _ _ Hs) j me i); [by rewrite Hj|by rewrite Hr].
      * intros j q Hj. exfalso. destruct (decide (j = me)) as [->|Hjm].
        -- by rewrite setctl_me in Hj.
        -- rewrite setctl_ne in Hj by done. by eapply Hc.
    + apply (settled_other i); try done; [left; by rewrite Hr|by left|]. intros q. rewrite Hr. done.
Qed.

(** A running process is not a slot that is being filled. *)
Lemma running_not_child i P o : settled c i P -> c me = CRun i o -> forall j q, c j <> CRun q (Some i).
Proof.
  intros HS Hr j q Hj. destruct (st_child _ _ _ HS j q Hj) as [HU _].
  assert (p_state P = RUNNING) as HR by (apply HS; exists me; right; by exists o). congruence.
Qed.

(** A change that starts with an assignment. *)
Lemma take_updp {A} i f held (m : M (pst X) A) Q : (forall P, p_lock (f P) = p_lock P) ->
  (forall P, settled c i P -> triple (sect held (Some (i, eq (f P)))) m Q) ->
  triple (sect held None) (updp i f ;;; m) Q.
Proof.
  intros Hl Hm s Hs. unfold bind, updp. destruct (ps_proc s !! i) as [P|] eqn:E; [|done].
  pose proof (updp_eq i f P held (Hl P) s (open_entry _ _ _ Hs P E)) as Hu. unfold updp in Hu. rewrite E in Hu.
  apply (Hm P); [by apply (in_proc _ _ _ _ Hs i P E)|done].
Qed.

Lemma yield_rule i : c me = CRun i None ->
  triple (sect [] None) (yield me) (fun _ => rest (setctl c me (CLeave i))).
Proof.
  intros Hr. unfold yield. tstep (apply curproc_rule) as j. apply triple_pure. rewrite Hr. intros [= <-].
  tstep (apply acquire_rule; [apply not_elem_of_nil|done]).
  apply take_updp; [done|]. intros P HS. apply sched_rule. constructor; try done. by apply (running_not_child i P None).
Qed.

(** sleep, called with the condition lock and no other. *)
Lemma sleep_rule i ch lk : c me = CRun i None -> (forall p, lk <> LProc p) ->
  triple (sect [lk] None) (sleep me ch lk) (fun _ => rest (setctl c me (CLeave i))).
Proof.
  intros Hr Hlk. unfold sleep. tstep (apply curproc_rule) as j. apply triple_pure. rewrite Hr. intros [= <-].
  tstep (apply acquire_rule; [|done]; intros E%list_elem_of_singleton; by destruct (Hlk i)).
  tstep (by apply (release_rule lk [LProc i] [])).
  apply take_updp; [done|]. intros P HS. apply sched_rule. constructor; try done. by apply (running_not_child i P None).
Qed.

(** The end of exit, called with wait_lock and no other. *)
Lemma exit_sched_rule i status : c me = CRun i None ->
  triple (sect [LWait] None) (exit_sched me i status) (fun _ => rest (setctl c me (CLeave i))).
Proof.
  intros Hr. unfold exit_sched. tstep (apply acquire_rule; [|done]; by intros ?%list_elem_of_singleton).
  apply take_updp; [done|]. intros P HS. tstep (by apply (release_rule LWait [LProc i] [])).
  apply sched_rule. constructor; try done; [by apply (running_not_child i P None)|]. cbn. by intros [?|?].
Qed.

(** *** The scheduler *)

Lemma updcpu_same f held D s : (forall x, c_int (f x) = c_int x) -> sect held D s ->
  match updcpu me f s with
  | Ok (_, s') => ps_proc s' = ps_proc s /\ (forall l, get_lock l s' = get_lock l s) /\
      exists x, ps_cpus s !! me = Some x /\ ps_cpus s' = <[me := f x]> (ps_cpus s)
  | Fault e => quiet_fault e
  end.
Proof.
  intros Hf Hs. unfold updcpu. destruct (ps_cpus s !! me) as [x|] eqn:E; [|done].
  split; [done|]. split; [by intros []|]. by exists x.
Qed.

(** A CPU that starts or stops running a process. *)
Lemma set_cproc_sect k held D s x : sect held D s -> ps_cpus s !! me = Some x ->
  apart (setctl c me k) ->
  (forall p P, ps_proc s !! p = Some P ->
     match D with Some (i, Phi) => if decide (p = i) then Phi P else settled c p P | None => settled c p P end ->
     settled (setctl c me k) p P) ->
  inv (setctl c me k) (holds c me held) None (set_cpu me (set_cproc (on k) x) s).
Proof.
  intros [I1 I2 I3 I4 I5 I6] Hx Ha Hp. constructor; [done|..].
  - intros l y. rewrite get_lock_cpu. apply I2.
  - intros i l. rewrite get_lock_cpu. apply I3.
  - apply I4.
  - intros i y. cbn [ps_cpus set_cpu]. destruct (decide (i = me)) as [->|Hi].
    + rewrite list_lookup_insert_eq by (by eapply lookup_lt_Some). intros [= <-]. rewrite setctl_me.
      cbn. destruct (I5 me x Hx) as (_ & ? & ?). by split_and!.
    + rewrite list_lookup_insert_ne, setctl_ne by done. apply I5.
  - intros p P HP. by apply Hp, I6.
Qed.

Lemma lock_exclusive i held D s j : sect held D s -> LProc i ∈ held -> LProc i ∈ held_of (c j) -> j = me.
Proof.
  intros Hs Hl Hj. destruct (decide (j = me)) as [|Hne]; [done|].
  destruct (in_lock _ _ _ _ Hs _ _ (held_lock _ _ _ _ Hs Hl)) as (o & _ & Ho).
  pose proof (proj1 (Ho me)) as Hm. rewrite holds_me in Hm. pose proof (proj1 (Ho j)) as Hj'.
  rewrite holds_ne in Hj' by done. specialize (Hm Hl). specialize (Hj' Hj). congruence.
Qed.

(** A process that is not running, and whose lock is held here, is nowhere. *)
Lemma nowhere i P held D s : sect held D s -> LProc i ∈ held -> settled c i P -> p_state P <> RUNNING ->
  on (c me) <> Some i -> forall j, on (c j) <> Some i.
Proof.
  intros Hs Hl HS Hst Hme j Hj. destruct (c j) as [|p|p o|p] eqn:E; cbn in Hj; simplify_eq.
  - apply Hst, HS. exists j. by left.
  - apply Hst, HS. exists j. right. by exists o.
  - assert (j = me) as -> by (eapply lock_exclusive; [done|done|rewrite E; by left]).
    apply Hme. by rewrite E.
Qed.

Lemma pick_rule i : c me = CScan ->
  triple (sect [] None) (scheduler_pick me i)
    (fun b s => if (b : bool) then rest (setctl c me (CEnter i)) s else sect [] None s).
Proof.
  intros Hc. unfold scheduler_pick. tstep (apply acquire_rule; [apply not_elem_of_nil|done]).
  tstep (apply take_entry) as P. apply triple_pure. intros HS. case_bool_decide as E.
  - tstep (by apply updp_eq). intros s Hs.
    assert (forall j, on (c j) <> Some i) as Hno.
    { eapply nowhere; [exact Hs|by left|exact HS|congruence|by rewrite Hc]. }
    unfold bind, updcpu. destruct (ps_cpus s !! me) as [x|] eqn:Ex; [|done].
    apply (inv_H_ext _ (holds c me (held_of (CEnter i)))); [apply holds_set|].
    apply (set_cproc_sect (CEnter i) _ _ s x Hs Ex).
    + apply apart_set; [apply Hs| |done]. right. right. intros j p [= <-]. apply Hno.
    + intros p Q HQ. destruct (decide (p = i)) as [->|Hne]; intros HQ'.
      * subst Q. constructor; cbn [p_state p_context set_state].
        -- split; [|done]. intros _. exists me. left. apply setctl_me.
        -- by intros [?|?].
        -- intros j _. apply HS. by left.
        -- intros j q Hj. destruct (decide (j = me)) as [->|Hjm]; [by rewrite setctl_me in Hj|].
           rewrite setctl_ne in Hj by done. destruct (st_child _ _ _ HS j q Hj). congruence.
      * apply (settled_other i); try done; [by right|by left|]. intros q. by rewrite Hc.
  - apply put_entry; [done|]. tstep (by apply release_head). by intros s Hs.
Qed.

Lemma rest_sect s : rest c s -> sect (held_of (c me)) None s.
Proof.
  apply inv_H_ext. intros i. unfold holds. by destruct (decide (i = me)) as [->|].
Qed.

Lemma intena_rule b held D : triple (sect held D) (updcpu me (set_intena b)) (fun _ => sect held D).
Proof.
  intros s Hs. unfold updcpu. destruct (ps_cpus s !! me) as [x|] eqn:Ex; [|done].
  destruct Hs as [I1 I2 I3 I4 I5 I6]. constructor; try done.
  intros i y. cbn [ps_cpus set_cpu]. destruct (decide (i = me)) as [->|Hi].
  - rewrite list_lookup_insert_eq by (by eapply lookup_lt_Some). intros [= <-]. by apply (I5 me x).
  - rewrite list_lookup_insert_ne by done. apply I5.
Qed.

(** A CPU that goes on without a lock. *)
Lemma rest_switch k i s : sect [] None s -> held_of k = [] -> on (c me) = Some i -> on k = Some i \/ k = CScan ->
  (forall x, ps_cpus s !! me = Some x -> c_proc x = on k) ->
  (forall q o, c me <> CRun q (Some o)) -> (forall q o, k <> CRun q (Some o)) ->
  (forall P, settled c i P -> settled (setctl c me k) i P) ->
  rest (setctl c me k) s.
Proof.
  intros Hs Hh Hon Hk Hc Hc1 Hk1 Hi. apply (switch_rest k None s); [by rewrite Hh| |done|].
  - apply apart_set; [apply Hs| |intros q n Hq; by destruct (Hk1 q n)].
    destruct Hk as [Hk| ->]; [left; congruence|by right; left].
  - intros p P HP HS. destruct (decide (p = i)) as [->|Hne]; [by apply Hi|].
    apply (settled_other i); auto.
Qed.

(** The process switched to releases its lock; where it was decides how. *)
Lemma resume_rule i : c me = CEnter i ->
  triple (rest (X:=X) c) (resume me i) (fun _ => rest (setctl c me (CRun i None))).
Proof.
  intros Hc. eapply (triple_conseq (sect [LProc i] None)).
  2: { intros s Hs. apply rest_sect in Hs. by rewrite Hc in Hs. }
  2: { intros a s Hs. exact Hs. }
  assert (forall s, sect [] None s -> rest (setctl c me (CRun i None)) s) as Hend.
  { intros s Hs. apply (rest_switch (CRun i None) i s Hs); try done; [by rewrite Hc|by left| |by rewrite Hc|].
    - intros x Hx. destruct (in_cpu _ _ _ _ Hs me x Hx) as [-> _]. by rewrite Hc.
    - intros P [S1 S2 S3 S4]. constructor; [|done| |].
      + rewrite S1. split; intros _; exists me; [right; exists None; apply setctl_me|by left].
      + intros j. destruct (decide (j = me)) as [->|Hj]; [by rewrite setctl_me|].
        rewrite setctl_ne by done. apply S3.
      + intros j q. destruct (decide (j = me)) as [->|Hj]; [by rewrite setctl_me|].
        rewrite setctl_ne by done. apply S4. }
  assert (forall A (a : A), triple (sect [LProc i] None) (release me (LProc i) ;;; ret a)
    (fun _ => rest (setctl c me (CRun i None)))) as Hrel.
  { intros A a. tstep (by apply release_head). intros s Hs. by apply Hend. }
  unfold resume. tstep (apply take_entry) as P. apply triple_pure. intros HS.
  pose proof (st_enter _ _ _ HS me Hc) as Hg. destruct (p_context P) as [|sp|w b]; [done| |].
  - apply put_entry; [done|]. tstep (apply curproc_rule) as j. apply triple_pure. rewrite Hc. intros [= <-].
    apply Hrel.
  - apply put_entry; [done|]. tstep (apply intena_rule). destruct w as [|lk|]; [apply Hrel| |done].
    tstep (by apply updp_mild). apply Hrel.
Qed.

End Rules.

(** The scheduler, when a process has switched back to it: the CPU stops
    running the process before it releases the lock. *)
Lemma return_rule {X} me (c : nat -> ctl) i : c me = CLeave i ->
  triple (rest (X:=X) c) (scheduler_return me i) (fun _ => rest (setctl c me CScan)).
Proof.
  intros Hc s Hs. apply (rest_sect me) in Hs. rewrite Hc in Hs. cbn [held_of] in Hs.
  unfold scheduler_return, bind at 1, updcpu. destruct (ps_cpus s !! me) as [x|] eqn:Ex; [|done].
  set (c' := setctl c me CScan).
  assert (inv c' (holds c' me [LProc i]) None (set_cpu me (set_cproc None x) s)) as Hs'.
  { apply (inv_H_ext _ (holds c me [LProc i])).
    { intros j. unfold holds. destruct (decide (j = me)); [done|]. unfold c'. by rewrite setctl_ne. }
    apply (set_cproc_sect me c CScan _ None s x Hs Ex).
    - apply apart_set; [apply Hs|by right; left|done].
    - intros p P HP [S1 S2 S3 S4].
      assert (forall j, c' j = c j \/ (j = me /\ c' j = CScan)) as Hj.
      { intros j. unfold c', setctl. destruct (decide (j = me)); auto. }
      constructor; [|done| |].
      + rewrite S1. fold c'. split; intros [j Hj']; exists j; destruct (Hj j) as [E|[-> E]].
        * by rewrite E.
        * rewrite Hc in Hj'. by destruct Hj' as [?|[? ?]].
        * by rewrite <-E.
        * rewrite E in Hj'. by destruct Hj' as [?|[? ?]].
      + intros j Hj'. destruct (Hj j) as [E|[-> E]]; unfold c' in *; rewrite E in Hj'; [by eapply S3|done].
      + intros j q Hj'. destruct (Hj j) as [E|[-> E]]; unfold c' in *; rewrite E in Hj'; [by eapply S4|done]. }
  pose proof (release_head me c' (LProc i) [] None I _ Hs') as Hr.
  destruct (release me (LProc i) _) as [[[] s']|e]; [|done].
  eapply inv_H_ext; [|exact Hr]. intros j. unfold holds. destruct (decide (j = me)) as [->|]; [|done].
  unfold c'. by rewrite setctl_me.
Qed.
