(* ===== verification/ProcLife.v ===== *)
(** ProcLife: the life of a process.  Fork, exit and wait keep the invariant of
    ProcSched; the interleaving of all sections of proc.c on all CPUs is a step
    relation, and in its reachable states no process runs on two CPUs and no
    check of the lock and scheduling code fails. *)

From S2P Require Import Prelude CString Kalloc Locks Arch Vm Hal Proc ProcSched.

(** *** Operations on memory do not panic in the name of the scheduler *)

Create HintDb quiet discriminated.

Lemma quiet_ret {S A} (a : A) : quiet (S:=S) (ret a).
Proof. done. Qed.
Lemma quiet_gets {S A} (f : S -> A) : quiet (gets f).
Proof. done. Qed.
Lemma quiet_modify {S} (f : S -> S) : quiet (modify f).
Proof. done. Qed.
Lemma quiet_fail {S A} e : quiet_fault e -> quiet (S:=S) (A:=A) (fail e).
Proof. intros He s. done. Qed.
Lemma quiet_panic {S A} m : bool_decide (m ∈ lock_msgs) = false -> quiet (S:=S) (A:=A) (panic m).
Proof. intros Hm s. by apply bool_decide_eq_false in Hm. Qed.

Lemma quiet_bind {S A B} (m : M S A) (k : A -> M S B) : quiet m -> (forall a, quiet (k a)) -> quiet (bind m k).
Proof.
  intros Hm Hk s. specialize (Hm s). unfold bind. destruct (m s) as [[a s']|e]; [apply Hk|done].
Qed.

Lemma quiet_when {S} b (m : M S unit) : quiet m -> quiet (when b m).
Proof. by destruct b. Qed.

Lemma quiet_loop {S Y R} n (body : Y -> M S (Y + R)) : (forall y, quiet (body y)) -> forall y, quiet (loop n body y).
Proof.
  intros Hb. induction n as [|n IH]; intros y; cbn [loop]; [by apply quiet_fail|].
  apply quiet_bind; [done|]. intros [y'|r]; [apply IH|done].
Qed.

Lemma quiet_for_each {S Y} (l : list Y) (body : Y -> M S unit) : (forall y, quiet (body y)) -> quiet (for_each l body).
Proof.
  intros Hb. induction l as [|y l IH]; cbn [for_each]; [done|]. by apply quiet_bind.
Qed.

#[export] Hint Resolve quiet_ret quiet_gets quiet_modify quiet_when quiet_loop quiet_for_each : quiet.

Ltac quiet_step :=
  match goal with
  | |- forall _, _ => intros ?
  | |- quiet (bind _ _) => apply quiet_bind
  | |- quiet (panic _) => apply quiet_panic; by vm_compute
  | |- quiet (fail _) => by apply quiet_fail
  | |- quiet (if ?b then _ else _) => destruct b
  | |- quiet (match ?x with _ => _ end) => destruct x
  | |- quiet (let _ := _ in _) => cbv zeta
  | |- _ => solve [auto with quiet]
  | |- quiet (when _ _) => apply quiet_when
  | |- quiet (loop _ _ _) => apply quiet_loop
  | |- quiet (for_each _ _) => apply quiet_for_each
  end.
Ltac quiet := repeat quiet_step.

Section Quiet.
  Context {HA : Arch} (kend PHYSTOP : Z).

Lemma quiet_kfree pa : quiet (kfree kend PHYSTOP pa).
Proof.
  intros s. unfold kfree. destruct (_ || _); [|done]. cbn. apply (bool_decide_eq_false_1 ("kfree" ∈ lock_msgs)).
  by vm_compute.
Qed.
Lemma quiet_kalloc : quiet kalloc.
Proof. intros s. unfold kalloc. by destruct (_ =? 0). Qed.
#[local] Hint Resolve quiet_kfree quiet_kalloc : quiet.

Lemma quiet_ld64 a : quiet (ld64 a).
Proof. unfold ld64. quiet. Qed.
Lemma quiet_st64 a v : quiet (st64 a v).
Proof. unfold st64. quiet. Qed.
Lemma quiet_move d a n : quiet (move d a n).
Proof. unfold move. quiet. Qed.
Lemma quiet_zero_page pa : quiet (zero_page pa).
Proof. unfold zero_page. quiet. Qed.
#[local] Hint Resolve quiet_ld64 quiet_st64 quiet_move quiet_zero_page : quiet.

Lemma quiet_walk_from l : forall pt va b, quiet (walk_from l pt va b).
Proof. induction l as [|l IH]; intros pt va b; cbn [walk_from]; quiet. Qed.
Lemma quiet_walk pt va b : quiet (walk pt va b).
Proof. unfold walk. pose proof quiet_walk_from. quiet. Qed.
#[local] Hint Resolve quiet_walk : quiet.
Lemma quiet_walkaddr pt va : quiet (walkaddr pt va).
Proof. unfold walkaddr. quiet. Qed.
Lemma quiet_mappages pt va sz pa perm : quiet (mappages pt va sz pa perm).
Proof. unfold mappages, mappages_body. quiet. Qed.
#[local] Hint Resolve quiet_walkaddr quiet_mappages : quiet.
Lemma quiet_uvmcreate : quiet uvmcreate.
Proof. unfold uvmcreate. quiet. Qed.
Lemma quiet_uvmunmap pt va n b : quiet (uvmunmap kend PHYSTOP pt va n b).
Proof. unfold uvmunmap, unmap_body. quiet. Qed.
#[local] Hint Resolve quiet_uvmunmap : quiet.
Lemma quiet_freewalk l : forall pt, quiet (freewalk kend PHYSTOP l pt).
Proof. induction l as [|l IH]; intros pt; cbn [freewalk]; quiet. Qed.
Lemma quiet_uvmfree pt sz : quiet (uvmfree kend PHYSTOP pt sz).
Proof. unfold uvmfree. pose proof quiet_freewalk. quiet. Qed.
Lemma quiet_uvmcopy a b sz : quiet (uvmcopy kend PHYSTOP a b sz).
Proof. unfold uvmcopy, uvmcopy_body. quiet. Qed.
Lemma quiet_vmfault p pt va b : quiet (vmfault kend PHYSTOP p pt va b).
Proof. unfold vmfault. quiet. Qed.
#[local] Hint Resolve quiet_vmfault : quiet.
Lemma quiet_copyout p pt a l : quiet (copyout kend PHYSTOP p pt a l).
Proof. unfold copyout, copyout_body, user_page. quiet. Qed.

End Quiet.

(** What is assumed of the calls out of proc.c: they do not panic with the
    messages of the lock and scheduling code. *)
Class QuietFiles (X : Type) `{OpenFiles X} : Prop := {
  quiet_filedup : forall f, quiet (filedup (X:=X) f);
  quiet_fileclose : forall f, quiet (fileclose (X:=X) f);
  quiet_vget : forall v, quiet (vget (X:=X) v);
  quiet_vput : forall v, quiet (vput (X:=X) v)
}.
Class QuietHal `{Hal} : Prop := {
  quiet_map : forall pt a b, quiet (hal_vm_map_trampoline pt a b);
  quiet_unmap : forall pt, quiet (hal_vm_unmap_trampoline pt)
}.
#[export] Hint Resolve quiet_filedup quiet_fileclose quiet_vget quiet_vput quiet_map quiet_unmap
  quiet_kfree quiet_kalloc quiet_st64 quiet_move quiet_uvmcreate quiet_uvmfree quiet_uvmcopy quiet_copyout : quiet.

(** Another view of what [me] does, while it is inside a section. *)
Lemma reshape {X} me (c c' : nat -> ctl) held D (s : pst X) :
  inv c (holds c me held) D s -> apart c' -> (forall j, j <> me -> c' j = c j) -> on (c' me) = on (c me) ->
  (forall p P, ps_proc s !! p = Some P ->
     match D with Some (i, Phi) => if decide (p = i) then Phi P else settled c p P | None => settled c p P end ->
     settled c' p P) ->
  inv c' (holds c' me held) None s.
Proof.
  intros [I1 I2 I3 I4 I5 I6] Ha Hj Hon Hp. apply (inv_H_ext _ (holds c me held)).
  { intros i. unfold holds. destruct (decide (i = me)); [done|]. by rewrite Hj. }
  constructor; [done|done|done|done| |intros p P HP; by apply Hp, I6].
  intros i x Hx. destruct (I5 i x Hx) as (-> & ? & ?). split; [|done].
  destruct (decide (i = me)) as [->|]; [done|]. by rewrite Hj.
Qed.

Section Life.
  Context {X : Type} `{OpenFiles X} `{Hal} `{!QuietFiles X} `{!QuietHal}.
  Context (kend PHYSTOP trampoline : Z) (me : nat) (c : nat -> ctl).
  Implicit Types s : pst X.
  Local Abbreviation sect held D := (inv (X:=X) c (holds c me held) D).

(** Not running, and not a slot that is being filled by a fork. *)
Definition quiescent (i : nat) : Prop :=
  (forall j, c j <> CEnter i) /\ (forall j o, c j <> CRun i o) /\ forall j q, c j <> CRun q (Some i).

Lemma quiescent_of i P : settled c i P -> p_state P <> RUNNING -> p_state P <> USED -> quiescent i.
Proof.
  intros HS Hr Hu. split_and!.
  - intros j Hj. apply Hr, HS. exists j. by left.
  - intros j o Hj. apply Hr, HS. exists j. right. by exists o.
  - intros j q Hj. apply Hu. by destruct (st_child _ _ _ HS j q Hj).
Qed.

Lemma settled_idle i P : quiescent i -> p_state P = UNUSED \/ p_state P = USED -> settled c i P.
Proof.
  intros (Q1 & Q2 & Q3) HP. constructor.
  - split; [destruct HP; congruence|]. intros [j [Hj|[o Hj]]]; exfalso; [by eapply Q1|by eapply Q2].
  - intros [?|?]; destruct HP; congruence.
  - intros j Hj. by destruct (Q1 j).
  - intros j q Hj. by destruct (Q3 j q).
Qed.

Lemma getp_any i H' D : triple (inv (X:=X) c H' D) (getp i) (fun _ => inv c H' D).
Proof. eapply triple_post; [apply getp_rule|]. by intros P s [_ Hs]. Qed.

(** Closing an entry that is unused, or reserved for a fork. *)
Lemma put_idle {A} i (Phi : proc -> Prop) held (m : M (pst X) A) Q :
  quiescent i -> (forall P, Phi P -> p_state P = UNUSED \/ p_state P = USED) ->
  triple (sect held None) m Q -> triple (sect held (Some (i, Phi))) m Q.
Proof.
  intros Hq HP Hm. eapply triple_conseq; [exact Hm| |done]. intros s Hs. eapply close_entry; [done|].
  intros P HPhi. apply settled_idle; [done|by apply HP].
Qed.

Local Abbreviation freed_entry := (fun P => p_state P = UNUSED).

Lemma freeproc_rule i Phi held :
  triple (sect held (Some (i, Phi))) (freeproc kend PHYSTOP i) (fun _ => sect held (Some (i, freed_entry))).
Proof.
  unfold freeproc, proc_freepagetable. tstep (apply getp_any) as P.
  tstep (apply triple_when, onkm_rule; quiet). tstep (by apply (updp_dirty me c _ _ _ Phi (fun _ => True))).
  tstep (apply triple_when, onkm_rule; quiet). tstep (by apply (updp_dirty me c _ _ _ _ (fun _ => True))).
  by apply updp_dirty.
Qed.

Lemma find_unused_rule : triple (sect [] None) (find_unused me) (fun o s =>
  match o with None => sect [] None s | Some i => quiescent i /\ sect [LProc i] (Some (i, fun _ => True)) s end).
Proof.
  unfold find_unused.
  apply (triple_for_upto (sect [] None) (fun i s => quiescent i /\ sect [LProc i] (Some (i, fun _ => True)) s)).
  intros z. cbv zeta. tstep (apply acquire_rule; [apply not_elem_of_nil|done]).
  tstep (apply take_entry) as P. apply triple_pure. intros HS. case_bool_decide as E.
  - intros s Hs. split; [by apply (quiescent_of _ P); [done|congruence..]|].
    destruct Hs as [I1 I2 I3 I4 I5 I6]. constructor; try done. intros p Q HQ. specialize (I6 p Q HQ). cbn in *.
    by destruct (decide (p = Z.to_nat z)).
  - apply put_entry; [done|]. tstep (by apply release_head). by intros s Hs.
Qed.

Lemma allocpid_rule held D : LPid ∉ held -> spare_lock LPid D ->
  triple (sect held D) (allocpid me) (fun _ => sect held D).
Proof.
  intros Hl HD. unfold allocpid. tstep (by apply acquire_rule). tstep (apply gets_rule) as pid.
  eapply (triple_bind _ _ _ (fun _ => sect (LPid :: held) D)).
  { intros s Hs. eapply inv_ext; [exact Hs|done..|]. by intros []. }
  intros _. tstep (by apply release_head). by intros s Hs.
Qed.

Local Abbreviation used_entry := (fun P => p_state P = USED).
Local Abbreviation new_entry := (fun P => p_state P = USED /\ good_ctx (p_context P)).

Lemma give_back {A} i Phi : quiescent i ->
  triple (sect [LProc i] (Some (i, Phi)))
    (freeproc kend PHYSTOP i ;;; release me (LProc i) ;;; ret (@None A))
    (fun o s => match o with None => sect [] None s | Some _ => False end).
Proof.
  intros Hq. tstep (apply freeproc_rule). apply put_idle; [done|by left|].
  tstep (by apply release_head). by intros s Hs.
Qed.

Lemma allocproc_rule : triple (sect [] None) (allocproc kend PHYSTOP trampoline me) (fun o s =>
  match o with None => sect [] None s | Some i => quiescent i /\ sect [LProc i] (Some (i, new_entry)) s end).
Proof.
  unfold allocproc. tstep (apply find_unused_rule) as o. destruct o as [i|]; [|by intros s Hs].
  apply triple_pure. intros Hq. tstep (by apply allocpid_rule; [intros ?%list_elem_of_singleton|]) as pid.
  tstep (by apply (updp_dirty me c _ _ _ _ used_entry)). tstep (apply onkm_rule; quiet) as tf.
  tstep (by apply (updp_dirty me c _ _ _ _ used_entry)). destruct (tf =? 0).
  { eapply triple_post; [by apply give_back|]. by intros [?|]. }
  unfold proc_pagetable. tstep (apply onkm_rule; quiet) as pt.
  tstep (by apply (updp_dirty me c _ _ _ _ used_entry)). destruct (pt =? 0).
  { eapply triple_post; [by apply give_back|]. by intros [?|]. }
  tstep (by apply (updp_dirty me c _ _ _ _ new_entry)). by intros s Hs.
Qed.

(** Updates of the new entry that keep its state and context. *)
Lemma updp_new i f held :
  (forall P, p_lock (f P) = p_lock P /\ p_state (f P) = p_state P /\ p_context (f P) = p_context P) ->
  triple (sect held (Some (i, new_entry))) (updp i f) (fun _ => sect held (Some (i, new_entry))).
Proof.
  intros Hf. apply updp_dirty. intros P [? ?]. destruct (Hf P) as (? & E2 & E3). rewrite E2, E3. done.
Qed.

Lemma dup_files_rule i fs held :
  triple (sect held (Some (i, new_entry))) (dup_files i fs) (fun _ => sect held (Some (i, new_entry))).
Proof.
  apply triple_for_each. intros fd. destruct (default None (fs !! fd)) as [f|]; [|by intros s Hs].
  tstep (apply onx_rule; quiet) as f'. by apply updp_new.
Qed.

(** *** Fork *)

(** Everything but the end of a fork that has got a slot. *)
Lemma settled_start i np p P : c me = CRun i None -> p <> np ->
  settled c p P -> settled (setctl c me (CRun i (Some np))) p P.
Proof.
  intros Hc Hne [S1 S2 S3 S4]. constructor; [|done| |].
  - rewrite S1. split; intros [j Hj]; exists j; destruct (decide (j = me)) as [->|Hjm].
    + rewrite setctl_me, Hc in *. destruct Hj as [?|[o [= ->]]]; [done|]. right. eauto.
    + by rewrite setctl_ne.
    + rewrite setctl_me in Hj. rewrite Hc. destruct Hj as [?|[o [= -> _]]]; [done|]. right. eauto.
    + by rewrite setctl_ne in Hj.
  - intros j. destruct (decide (j = me)) as [->|Hj]; [by rewrite setctl_me|rewrite setctl_ne by done; apply S3].
  - intros j q. destruct (decide (j = me)) as [->|Hj]; [|rewrite setctl_ne by done; apply S4].
    rewrite setctl_me. congruence.
Qed.

Lemma settled_new i np P : quiescent np -> i <> np -> p_state P = USED -> good_ctx (p_context P) ->
  settled (setctl c me (CRun i (Some np))) np P.
Proof.
  intros (Q1 & Q2 & Q3) Hne HU Hg. constructor; [|by intros [?|?]; congruence|done|done].
  split; [congruence|]. intros [j Hj]. exfalso. destruct (decide (j = me)) as [->|Hjm].
  - rewrite setctl_me in Hj. destruct Hj as [?|[o [= -> _]]]; done.
  - rewrite setctl_ne in Hj by done. destruct Hj as [?|[o ?]]; [by eapply Q1|by eapply Q2].
Qed.

Lemma fork_copy_rule i : c me = CRun i None ->
  triple (sect [] None) (fork_copy kend PHYSTOP trampoline me i) (fun o s =>
    match o with None => sect [] None s | Some (np, _) => rest (setctl c me (CRun i (Some np))) s end).
Proof.
  intros Hc. unfold fork_copy. tstep (apply allocproc_rule) as o. destruct o as [np|]; [|by intros s Hs].
  apply triple_pure. intros Hq. tstep (apply getp_any) as p. tstep (apply getp_any) as q.
  tstep (apply onkm_rule; quiet) as r. destruct (r <? 0).
  { eapply triple_post; [by apply give_back|]. by intros [?|]. }
  tstep (by apply updp_new). tstep (apply onkm_rule; quiet). tstep (apply onkm_rule; quiet).
  tstep (apply dup_files_rule).
  eapply (triple_bind _ _ _ (fun _ => sect [LProc np] (Some (np, new_entry)))).
  { destruct (p_cwd p); [apply onx_rule; quiet|by intros s Hs]. }
  intros d. tstep (by apply updp_new). tstep (by apply updp_new). tstep (apply getp_any) as q'.
  assert (i <> np) as Hne by (intros ->; by eapply (proj1 (proj2 Hq))).
  set (c' := setctl c me (CRun i (Some np))).
  eapply (triple_conseq (inv c' (holds c' me [LProc np]) None)); [| |intros a s Hs; exact Hs].
  - tstep (by apply (release_head me c')). intros s Hs. eapply inv_H_ext; [|exact Hs].
    intros j. unfold holds. destruct (decide (j = me)) as [->|]; [|done]. unfold c'. by rewrite setctl_me.
  - intros s Hs. eapply reshape; [exact Hs| |intros; by apply setctl_ne|unfold c'; by rewrite setctl_me, Hc|].
    + apply apart_set; [apply Hs|left; by rewrite Hc|].
      intros q0 n [= <- <-]. right. intros j q1. apply Hq.
    + intros p' P HP. destruct (decide (p' = np)) as [->|Hpn].
      * cbn beta iota. rewrite decide_True by done. intros [HU Hg]. by apply settled_new.
      * cbn beta iota. rewrite decide_False by done. by apply settled_start.
Qed.

Lemma fork_adopt_rule i np : triple (sect [] None) (fork_adopt me i np) (fun _ => sect [] None).
Proof.
  unfold fork_adopt. tstep (apply acquire_rule; [apply not_elem_of_nil|done]).
  tstep (by apply updp_mild). by apply release_head.
Qed.

Lemma fork_start_rule i np : c me = CRun i (Some np) ->
  triple (sect [] None) (fork_start me np) (fun _ => rest (setctl c me (CRun i None))).
Proof.
  intros Hc. unfold fork_start. tstep (apply acquire_rule; [apply not_elem_of_nil|done]).
  apply take_updp; [done|]. intros P HS. destruct (st_child _ _ _ HS me i Hc) as [HU Hg].
  set (c' := setctl c me (CRun i None)).
  eapply (triple_conseq (inv c' (holds c' me [LProc np]) None)); [| |intros a s Hs; exact Hs].
  - eapply triple_post; [by apply (release_head me c')|]. intros a s Hs. eapply inv_H_ext; [|exact Hs].
    intros j. unfold holds. destruct (decide (j = me)) as [->|]; [|done]. unfold c'. by rewrite setctl_me.
  - intros s Hs. eapply reshape; [exact Hs| |intros; by apply setctl_ne|unfold c'; by rewrite setctl_me, Hc|].
    + apply apart_set; [apply Hs|left; by rewrite Hc|done].
    + assert (forall p j, (c j = CEnter p \/ exists o, c j = CRun p o) <->
        (c' j = CEnter p \/ exists o, c' j = CRun p o)) as Hj.
      { intros p j. unfold c', setctl. destruct (decide (j = me)) as [->|]; [|done]. rewrite Hc.
        split; intros [?|[o [= ->]]]; try done; right; eauto. }
      intros p' Q HQ. destruct (decide (p' = np)) as [->|Hpn].
      * cbn beta iota. rewrite decide_True by done. intros <-. destruct HS as [S1 S2 S3 S4]. constructor; cbn [p_state p_context set_state]; [|done|done|].
        -- split; [done|]. intros [j Hj']. apply Hj in Hj'. assert (p_state P = RUNNING); [|congruence].
           apply S1. by exists j.
        -- intros j q Hj'. exfalso. unfold c', setctl in Hj'. destruct (decide (j = me)) as [->|Hjm]; [done|].
           apply Hjm. eapply (ap_child _ (in_apart _ _ _ _ Hs)); [exact Hj'|exact Hc].
      * cbn beta iota. rewrite decide_False by done. intros [S1 S2 S3 S4]. constructor; [|done| |].
        -- rewrite S1. split; intros [j Hj']; exists j; by apply Hj.
        -- intros j Hj'. unfold c', setctl in Hj'. destruct (decide (j = me)); [done|by eapply S3].
        -- intros j q Hj'. unfold c', setctl in Hj'. destruct (decide (j = me)); [done|by eapply S4].
Qed.

(** *** Exit *)

Lemma close_files_rule i held : triple (sect held None) (close_files i) (fun _ => sect held None).
Proof.
  apply triple_for_each. intros fd. tstep (apply getp_any) as p.
  destruct (default None (p_ofile p !! fd)) as [f|]; [|by intros s Hs].
  tstep (apply onx_rule; quiet). by apply updp_mild.
Qed.

Lemma reparent_rule i held : (forall p, LProc p ∉ held) ->
  triple (sect held None) (reparent me i) (fun _ => sect held None).
Proof.
  intros Hl. apply triple_for_each. intros j. tstep (apply getp_any) as q.
  case_bool_decide; [|by intros s Hs]. tstep (apply gets_rule) as o.
  tstep (by apply updp_mild). by apply wakeup_rule.
Qed.

Lemma wait_no_proc p : LProc p ∉ [LWait].
Proof. by intros ?%list_elem_of_singleton. Qed.

(** Exiting init stops the machine with a message of its own. *)
Lemma kexit_rule i status : c me = CRun i None ->
  triple (sect [] None) (kexit me status) (fun _ => rest (setctl c me (CLeave i))).
Proof.
  intros Hc. unfold kexit. tstep (apply curproc_rule) as j. apply triple_pure. rewrite Hc. intros [= <-].
  tstep (apply gets_rule) as o. case_bool_decide.
  { intros s Hs. by apply (bool_decide_eq_false_1 ("init exiting" ∈ lock_msgs)); vm_compute. }
  tstep (apply close_files_rule). tstep (apply getp_any) as p.
  eapply (triple_bind _ _ _ (fun _ => sect [] None)).
  { destruct (p_cwd p); [apply onx_rule; quiet|by intros s Hs]. }
  intros _. tstep (by apply updp_mild). tstep (apply acquire_rule; [apply not_elem_of_nil|done]).
  tstep (apply reparent_rule; apply wait_no_proc). tstep (apply getp_any) as p2.
  tstep (apply wakeup_rule; apply wait_no_proc). by apply exit_sched_rule.
Qed.

(** *** Wait *)

Definition reaped (r : bool + Z) s : Prop :=
  match r with inl _ => sect [LWait] None s | inr _ => sect [] None s end.

Lemma reap_body_rule i addr j h : triple (sect [LWait] None) (reap_body kend PHYSTOP me i addr j h) reaped.
Proof.
  unfold reap_body. tstep (apply getp_any) as q. destruct (negb _); [by intros s Hs|].
  tstep (by apply acquire_rule; [apply wait_no_proc|]). tstep (apply take_entry) as q2.
  apply triple_pure. intros HS. case_bool_decide as E.
  - tstep (apply getp_any) as p.
    eapply (triple_bind _ _ _ (fun _ => sect [LProc j; LWait] (Some (j, eq q2)))).
    { destruct (addr =? 0); [by intros s Hs|]. unfold pcopyout. apply onkm_rule. quiet. }
    intros ok. destruct (negb ok).
    + apply put_entry; [done|]. tstep (by apply release_head). tstep (by apply release_head). by intros s Hs.
    + tstep (apply freeproc_rule). apply put_idle; [by apply (quiescent_of j q2); [done|congruence..]|by left|].
      tstep (by apply release_head). tstep (by apply release_head). by intros s Hs.
  - apply put_entry; [done|]. tstep (by apply release_head). by intros s Hs.
Qed.

Lemma reap_rule i addr js : forall h, triple (sect [LWait] None) (reap kend PHYSTOP me i addr js h) reaped.
Proof.
  induction js as [|j js IH]; intros h; cbn [reap]; [by intros s Hs|].
  tstep (apply reap_body_rule) as r. destruct r as [h'|v]; [apply IH|by intros s Hs].
Qed.

Lemma kwait_round_rule i addr : c me = CRun i None ->
  triple (sect [LWait] None) (kwait_round kend PHYSTOP me i addr) (fun o s =>
    match o with Some _ => sect [] None s | None => rest (setctl c me (CLeave i)) s end).
Proof.
  intros Hc. unfold kwait_round. tstep (apply reap_rule) as r. destruct r as [h|v]; [|by intros s Hs]. cbn [reaped].
  eapply (triple_bind _ _ _ (fun _ => sect [LWait] None)).
  { destruct h; [apply killed_rule, wait_no_proc|by intros s Hs]. }
  intros k. destruct (_ || _).
  - tstep (by apply release_head). by intros s Hs.
  - tstep (by apply (sleep_rule me c i)). by intros s Hs.
Qed.

Lemma kwait_rule i addr : c me = CRun i None ->
  triple (sect [] None) (kwait kend PHYSTOP me addr) (fun o s =>
    match o with Some _ => sect [] None s | None => rest (setctl c me (CLeave i)) s end).
Proof.
  intros Hc. unfold kwait. tstep (apply curproc_rule) as j. apply triple_pure. rewrite Hc. intros [= <-].
  tstep (apply acquire_rule; [apply not_elem_of_nil|done]). by apply kwait_round_rule.
Qed.

(** A process that waits under a lock of its own. *)
Lemma lock_sleep_rule i ch lk : c me = CRun i None -> (forall p, lk <> LProc p) ->
  triple (sect [] None) (acquire me lk ;;; sleep me ch lk) (fun _ => rest (setctl c me (CLeave i))).
Proof.
  intros Hc Hl. tstep (apply acquire_rule; [apply not_elem_of_nil|done]). by apply sleep_rule.
Qed.

End Life.

(** *** All CPUs *)

Section Steps.
  Context {X : Type} `{OpenFiles X} `{Hal}.
  Context (kend PHYSTOP trampoline : Z).

(** CPU [i] goes on from [k] by running a section: what it does and where it
    is afterwards. *)
Inductive section (i : nat) : ctl -> M (pst X) ctl -> Prop :=
| sc_pick p : section i CScan (b <- scheduler_pick i p ;; ret (if b : bool then CEnter p else CScan))
| sc_return p : section i (CLeave p) (scheduler_return i p ;;; ret CScan)
| sc_resume p : section i (CEnter p) (_ <- resume i p ;; ret (CRun p None))
| sc_yield p : section i (CRun p None) (yield i ;;; ret (CLeave p))
| sc_sleep p ch lk : (forall q, lk <> LProc q) ->
    section i (CRun p None) ((acquire i lk ;;; sleep i ch lk) ;;; ret (CLeave p))
| sc_exit p status : section i (CRun p None) (kexit i status ;;; ret (CLeave p))
| sc_wait p addr : section i (CRun p None)
    (o <- kwait kend PHYSTOP i addr ;; ret (match o with Some _ => CRun p None | None => CLeave p end))
| sc_fork p : section i (CRun p None)
    (o <- fork_copy kend PHYSTOP trampoline i p ;;
     ret (match o with Some (np, _) => CRun p (Some np) | None => CRun p None end))
| sc_adopt p np : section i (CRun p (Some np)) (fork_adopt i p np ;;; ret (CRun p (Some np)))
| sc_start p np : section i (CRun p (Some np)) (fork_start i np ;;; ret (CRun p None))
| sc_kill p o pid : section i (CRun p o) (kkill i pid ;;; ret (CRun p o))
| sc_setkilled p o q : section i (CRun p o) (setkilled i q ;;; ret (CRun p o))
| sc_wake_run p o ch : section i (CRun p o) (wakeup i ch ;;; ret (CRun p o))
| sc_wake_intr ch : section i CScan (wakeup i ch ;;; ret CScan).

Definition mach : Type := (nat -> ctl) * pst X.

Inductive step : mach -> mach -> Prop :=
| step_section c s i m k s' :
    section i (c i) m -> m s = Ok (k, s') -> step (c, s) (setctl c i k, s').

(** The machine when the CPUs enter the scheduler. *)
Record boot (s : pst X) : Prop := Boot {
  bo_proc : forall p P, ps_proc s !! p = Some P -> p_lock P = Spin.initlock /\
    (p_state P = UNUSED \/ p_state P = USED \/ (p_state P = RUNNABLE /\ good_ctx (p_context P)));
  bo_locks : forall l y, (forall p, l <> LProc p) -> get_lock l s = Some y -> y = Spin.initlock;
  bo_cpu : forall i x, ps_cpus s !! i = Some x -> c_proc x = None /\ Spin.c_noff (c_int x) = 0
}.

Lemma boot_rest s : boot s -> rest (fun _ => CScan) s.
Proof.
  intros [B1 B2 B3]. constructor.
  - split; intros; done.
  - intros l y Hy. exists None. split; [|intros i; split; [by intros ?%not_elem_of_nil|done]].
    change (y = Spin.initlock). destruct l as [p| | | |k]; [|apply (B2 _ y) in Hy; done..]. cbn in Hy.
    destruct (ps_proc s !! p) as [P|] eqn:E; [|done]. injection Hy as <-. by apply (B1 p).
  - by intros i l ?%not_elem_of_nil.
  - intros i. constructor.
  - intros i x Hx. destruct (B3 i x Hx) as [-> ->]. done.
  - intros p P HP. destruct (B1 p P HP) as [_ HS]. constructor; try done.
    + split; [destruct HS as [?|[?|[? _]]]; congruence|]. by intros [i [?|[o ?]]].
    + destruct HS as [?|[?|[? ?]]]; [intros [?|?]; congruence..|done].
Qed.

Context `{!QuietFiles X} `{!QuietHal}.

Lemma rest_sect_nil i (c : nat -> ctl) s : held_of (c i) = [] -> rest c s -> inv (X:=X) c (holds c i []) None s.
Proof. intros Hh Hs. apply (rest_sect i) in Hs. by rewrite Hh in Hs. Qed.

Lemma sect_rest_nil i (c : nat -> ctl) k s : c i = k -> held_of k = [] -> inv (X:=X) c (holds c i []) None s ->
  rest (setctl c i k) s.
Proof.
  intros Hk Hh Hs.
  assert (forall j, setctl c i k j = c j) as E by (intros j; unfold setctl; by destruct (decide (j = i)) as [->|]).
  destruct Hs as [[J1 J2] I2 I3 I4 I5 I6].
  assert (forall j, holds c i [] j = held_of (setctl c i k j)) as Eh.
  { intros j. unfold holds. rewrite E. destruct (decide (j = i)) as [->|]; [by rewrite Hk, Hh|done]. }
  apply (inv_H_ext _ _ _ _ _ Eh). constructor; try done.
  - split; setoid_rewrite E; done.
  - intros j x Hx. rewrite E. by apply I5.
  - intros p P HP. destruct (I6 p P HP) as [S1 S2 S3 S4]. constructor; try done; by setoid_rewrite E.
Qed.

(** Every section keeps the invariant. *)
Lemma section_rule i (c : nat -> ctl) m : section i (c i) m ->
  triple (rest (X:=X) c) m (fun k => rest (setctl c i k)).
Proof.
  intros Hs. remember (c i) as k0 eqn:Ek. symmetry in Ek.
  assert (forall A (m : M (pst X) A) (f : A -> ctl) Q, held_of k0 = [] ->
    triple (inv c (holds c i []) None) m Q -> (forall a s, Q a s -> rest (setctl c i (f a)) s) ->
    triple (rest c) (a <- m ;; ret (f a)) (fun k => rest (setctl c i k))) as Hgo.
  { intros A m0 f Q Hh Hm HQ. eapply triple_bind.
    - eapply triple_conseq; [exact Hm| |intros a s Ha; exact Ha].
      intros s Hr. apply rest_sect_nil; [by rewrite Ek|done].
    - intros a s Ha. by apply HQ. }
  assert (forall s, held_of k0 = [] -> inv (X:=X) c (holds c i []) None s -> rest (setctl c i k0) s) as Hback
    by (intros s Hh; by apply sect_rest_nil).
  destruct Hs as [p|p|p|p|p ch lk Hl|p st|p a|p|p np|p np|p o pid|p o q|p o ch|ch].
  - apply (Hgo _ _ _ _ eq_refl (pick_rule i c p Ek)). intros [] s Hr; first [exact Hr|by apply Hback].
  - eapply triple_bind; [by apply return_rule|]. by intros a s Hr.
  - eapply triple_bind; [by apply resume_rule|]. by intros a s Hr.
  - apply (Hgo _ _ (fun _ => CLeave p) _ eq_refl (yield_rule i c p Ek)). by intros a s Hr.
  - apply (Hgo _ _ (fun _ => CLeave p) _ eq_refl (lock_sleep_rule i c p ch lk Ek Hl)). by intros a s Hr.
  - apply (Hgo _ _ (fun _ => CLeave p) _ eq_refl (kexit_rule i c p st Ek)). by intros a s Hr.
  - apply (Hgo _ _ _ _ eq_refl (kwait_rule kend PHYSTOP i c p a Ek)). intros [v|] s Hr; first [exact Hr|by apply Hback].
  - apply (Hgo _ _ _ _ eq_refl (fork_copy_rule kend PHYSTOP trampoline i c p Ek)). intros [[np pid]|] s Hr; first [exact Hr|by apply Hback].
  - apply (Hgo _ _ (fun _ => _) _ eq_refl (fork_adopt_rule i c p np)). intros a s Hr. first [exact Hr|by apply Hback].
  - apply (Hgo _ _ (fun _ => _) _ eq_refl (fork_start_rule i c p np Ek)). intros a s Hr. first [exact Hr|by apply Hback].
  - apply (Hgo _ _ (fun _ => _) _ eq_refl (kkill_rule i c pid)). intros a s Hr. first [exact Hr|by apply Hback].
  - apply (Hgo _ _ (fun _ => _) _ eq_refl (setkilled_rule i c q)). intros a s Hr. first [exact Hr|by apply Hback].
  - apply (Hgo _ _ (fun _ => _) _ eq_refl (wakeup_rule i c ch [] ltac:(intros; apply not_elem_of_nil))). intros a s Hr. first [exact Hr|by apply Hback].
  - apply (Hgo _ _ (fun _ => _) _ eq_refl (wakeup_rule i c ch [] ltac:(intros; apply not_elem_of_nil))). intros a s Hr. first [exact Hr|by apply Hback].
Qed.

Definition start (s : pst X) : mach := ((fun _ => CScan), s).

Lemma rest_reachable s0 m : boot s0 -> rtc step (start s0) m -> rest m.1 m.2.
Proof.
  intros Hb. apply (rtc_ind_r (fun m => rest m.1 m.2)); [by apply boot_rest|].
  intros m1 m2 _ Hs IH. destruct Hs as [c s i op k s' Hm Er]. cbn in *.
  pose proof (section_rule i c op Hm s IH) as Ht. by rewrite Er in Ht.
Qed.

(** C3: in every interleaving of the sections of proc.c on any number of CPUs
    (scheduling, yield, sleep, wakeup, fork, exit, wait, kill), starting when
    the CPUs enter the scheduler: no process is on two CPUs, so no kernel stack
    is used twice; the table says RUNNING exactly of the processes that a CPU
    has switched to and that have not called sched; each CPU's current process
    is the one it runs; a process lock is held between sections only across
    the switch, by the CPU that switches; and whatever a CPU does next, none of
    the checks in acquire, release, pop_off and sched panics and no process
    returns from exit: it waits for a lock at most. *)
Theorem one_cpu_per_process s0 m (Hb : boot s0) (Hr : rtc step (start s0) m) :
  let '(c, s) := m in
  (forall i j p, on (c i) = Some p -> on (c j) = Some p -> i = j) /\
  (forall p P, ps_proc s !! p = Some P ->
     (p_state P = RUNNING <-> exists i, c i = CEnter p \/ exists o, c i = CRun p o) /\
     (Spin.lk_locked (p_lock P) = true <-> exists i, c i = CEnter p \/ c i = CLeave p)) /\
  (forall i x, ps_cpus s !! i = Some x -> c_proc x = on (c i)) /\
  (forall i a, section i (c i) a -> match a s with Fault (FPanic msg) => msg ∉ lock_msgs | _ => True end).
Proof.
  pose proof (rest_reachable s0 m Hb Hr) as Hs. destruct m as [c s]. cbn in Hs. split_and!.
  - apply Hs.
  - intros p P HP. split; [apply (in_proc _ _ _ _ Hs p P HP)|].
    destruct (in_lock _ _ _ _ Hs (LProc p) (p_lock P)) as (o & -> & Ho); [cbn; by rewrite HP|].
    assert (forall i, LProc p ∈ held_of (c i) <-> c i = CEnter p \/ c i = CLeave p) as Hh.
    { intros i. destruct (c i) as [|q|q oq|q]; cbn [held_of]; rewrite ?elem_of_nil, ?list_elem_of_singleton;
        split; try done; try (intros [= ->]; auto); intros [?|?]; congruence. }
    setoid_rewrite <-Hh. setoid_rewrite Ho. destruct o as [i|]; cbn; split; try done; eauto.
    by intros [i ?].
  - intros i x Hx. by destruct (in_cpu _ _ _ _ Hs i x Hx).
  - intros i a Ha. pose proof (section_rule i c a Ha s Hs) as Ht.
    destruct (a s) as [[k s']|e]; [done|]. by destruct e.
Qed.

End Steps.

(** Both machines' page-table code is quiet. *)
#[export] Instance riscv_quiet etext kend : @QuietHal Riscv.arch (RiscvHal.hal etext kend).
Proof.
  pose proof (@quiet_mappages Riscv.arch) as Hm. pose proof (@quiet_uvmunmap Riscv.arch) as Hu.
  split; cbn [hal_vm_map_trampoline hal_vm_unmap_trampoline RiscvHal.hal];
    unfold RiscvHal.hal_vm_map_trampoline, RiscvHal.hal_vm_unmap_trampoline; quiet.
Qed.
#[export] Instance loongarch_quiet : @QuietHal Loongarch.arch LoongarchHal.hal.
Proof. split; done. Qed.

(** *** A machine with two CPUs and one process that is ready to run *)

Module Example.

#[local] Instance no_files : OpenFiles unit := {|
  filedup := ret; fileclose := fun _ => ret tt; vget := ret; vput := fun _ => ret tt |}.
#[local] Instance no_files_quiet : QuietFiles unit.
Proof. split; done. Qed.

Definition p0 : proc :=
  Proc Spin.initlock RUNNABLE None 0 0 1 None 0 0 0 0 (AtForkret 0) [] None [].
Definition p1 : proc := Proc Spin.initlock UNUSED None 0 0 0 None 0 0 0 0 NoContext [] None [].
Definition idle : cpu := Cpu (Spin.Cpu 0 true true) None.
Definition s0 : pst unit :=
  Pst [p0; p1] [idle; idle] Spin.initlock Spin.initlock Spin.initlock [] 2 (Some 0%nat) (Kmem (fun _ => 0) 0) tt.

Lemma boot_s0 : boot s0.
Proof.
  constructor.
  - intros [|[|p]] P [= <-]; (split; [done|]); [right; by right|by left].
  - intros [p| | | |k] y Hl Hy; [by destruct (Hl p)|by injection Hy as <-..|by destruct k].
  - intros [|[|i]] x [= <-]; done.
Qed.

End Example.

Tactic Notation "go" constr(i) uconstr(r) :=
  eapply rtc_l; [eapply (step_section _ _ _ _ _ i); [refine r|vm_compute; reflexivity]|].

(** CPU 0 picks the process, which runs, yields, and is picked by CPU 1. *)
Lemma one_cpu_per_process_witness :
  exists c s, rtc (@step unit Example.no_files Loongarch.arch LoongarchHal.hal 4096 40960 0) (start Example.s0) (c, s) /\
    c 1%nat = CEnter 0 /\ (forall j, on (c j) = Some 0%nat -> j = 1%nat) /\
    (forall P, ps_proc s !! 0%nat = Some P -> p_state P = RUNNING).
Proof.
  assert (exists m, rtc (@step unit Example.no_files Loongarch.arch LoongarchHal.hal 4096 40960 0) (start Example.s0) m /\
    m.1 1%nat = CEnter 0) as ([c s] & Hr & Hc).
  { eexists. split.
    - go 0%nat (sc_pick 4096 40960 0 0%nat 0%nat).
      go 0%nat (sc_resume 4096 40960 0 0%nat 0%nat).
      go 0%nat (sc_yield 4096 40960 0 0%nat 0%nat).
      go 0%nat (sc_return 4096 40960 0 0%nat 0%nat).
      go 1%nat (sc_pick 4096 40960 0 1%nat 0%nat).
      apply rtc_refl.
    - reflexivity. }
  exists c, s. cbn in Hc. pose proof Example.no_files_quiet. pose proof (one_cpu_per_process 4096 40960 0 _ _ Example.boot_s0 Hr) as (H1 & H2 & _).
  split_and!; [done|done| |].
  - intros j Hj. apply (H1 j 1%nat 0%nat); [done|by rewrite Hc].
  - intros P HP. apply (H2 _ _ HP). exists 1%nat. by left.
Defined.

(** kill(0) is accepted: it finds an unused slot, whose pid is 0, and marks it
    killed.  Nothing clears the mark when the slot is given to a new process, so
    the next child made in that slot is killed before it runs. *)
Definition after_kill_zero : outcome (Z * pst unit) :=
  match kinit 4096 20480 (Kmem (fun _ => 0) 0) with
  | Ok (_, k) => kkill 0%nat 0 (set_km k Example.s0)
  | Fault e => Fault e
  end.

Lemma kill_zero_marks_next_process :
  match after_kill_zero with
  | Ok (r, s) =>
      r = 0 /\
      match @allocproc unit Loongarch.arch LoongarchHal.hal 4096 20480 0 0%nat s with
      | Ok (o, s') => ((fun p => (p_state p, p_pid p, p_killed p)) <$> (o ≫= fun i => ps_proc s' !! i)) = Some (USED, 2, 1)
      | Fault _ => False
      end
  | Fault _ => False
  end.
Proof. vm_compute. done. Qed.
