(* ===== verification/ProcFair.v ===== *)
(** ProcFair: the scheduler is fair.  A process that is RUNNABLE stays so until
    a CPU switches to it, and a CPU that scans the table reaches it after
    visiting at most NPROC - 1 other slots.  The steps are those of ProcLife,
    with the place in the table where one CPU's scheduler is. *)

From S2P Require Import Prelude CString Kalloc Locks Arch Vm Hal Proc ProcSched ProcLife.

Definition waiting {X} (q : nat) (s : pst X) : Prop :=
  exists P, ps_proc s !! q = Some P /\ p_state P = RUNNABLE.

(** *** What leaves a waiting process waiting *)

Section Keeps.
  Context {X : Type} `{OpenFiles X} `{Hal}.
  Context (kend PHYSTOP trampoline : Z) (me q : nat).
  Implicit Types s : pst X.

(** Process [q] waits, and is not the one that [me] runs. *)
Definition aside s : Prop :=
  waiting q s /\ forall x, ps_cpus s !! me = Some x -> c_proc x <> Some q.

(** [m] keeps this, and its result has [Q]. *)
Definition keeps {A} (m : M (pst X) A) (Q : A -> Prop) : Prop :=
  forall s a s', aside s -> m s = Ok (a, s') -> aside s' /\ Q a.

Local Abbreviation any := (fun _ => True).

Lemma keeps_bind {A B} (m : M (pst X) A) (k : A -> M (pst X) B) Q R :
  keeps m Q -> (forall a, Q a -> keeps (k a) R) -> keeps (bind m k) R.
Proof.
  intros Hm Hk s b s' Hs E. apply bind_inv in E as (a & s1 & E1 & E2).
  destruct (Hm _ _ _ Hs E1) as [Hs1 Ha]. by eapply Hk.
Qed.

Lemma keeps_ret {A} (a : A) (Q : A -> Prop) : Q a -> keeps (ret a) Q.
Proof. intros Ha s b s' Hs [= <- <-]. done. Qed.
Lemma keeps_weaken {A} (m : M (pst X) A) (Q R : A -> Prop) : keeps m Q -> (forall a, Q a -> R a) -> keeps m R.
Proof. intros Hm HQ s a s' Hs E. destruct (Hm _ _ _ Hs E). auto. Qed.
Lemma keeps_fail {A} e (Q : A -> Prop) : keeps (fail e) Q.
Proof. by intros s a s' _ [=]. Qed.
Lemma keeps_panic {A} msg (Q : A -> Prop) : keeps (panic msg) Q.
Proof. apply keeps_fail. Qed.
Lemma keeps_gets {A} (f : pst X -> A) : keeps (gets f) any.
Proof. intros s a s' Hs [= <- <-]. done. Qed.
Lemma keeps_when b (m : M (pst X) unit) : keeps m any -> keeps (when b m) any.
Proof. intros Hm. destruct b; [done|by apply keeps_ret]. Qed.

Lemma keeps_for_each {Y} (l : list Y) body : (forall y, keeps (body y) any) -> keeps (for_each l body) any.
Proof.
  intros Hb. induction l as [|y l IH]; cbn [for_each]; [by apply keeps_ret|].
  eapply keeps_bind; [apply Hb|done].
Qed.

Lemma keeps_for_upto {R} n (body : Z -> M (pst X) (option R)) (Q : R -> Prop) :
  (forall z, keeps (body z) (fun o => forall r, o = Some r -> Q r)) ->
  forall z, keeps (for_upto n z body) (fun o => forall r, o = Some r -> Q r).
Proof.
  intros Hb. induction n as [|n IH]; intros z; cbn [for_upto]; [by apply keeps_ret|].
  eapply keeps_bind; [apply Hb|]. intros [r|] Hr; [by apply keeps_ret|apply IH].
Qed.

(** Reads, with what they say of [q]. *)
Lemma keeps_getp i : keeps (getp i) (fun P => i = q -> p_state P = RUNNABLE).
Proof.
  intros s a s' Hs. unfold getp. destruct (ps_proc s !! i) as [P|] eqn:E; [|done]. intros [= <- <-].
  split; [done|]. intros ->. destruct Hs as [(P' & E' & HP) _]. congruence.
Qed.

Lemma keeps_mycpu : keeps (mycpu me) (fun x => c_proc x <> Some q).
Proof.
  intros s a s' Hs. unfold mycpu. destruct (ps_cpus s !! me) as [x|] eqn:E; [|done]. intros [= <- <-].
  split; [done|]. by apply Hs.
Qed.

(** Writes. *)
Lemma aside_cpu s x : aside s -> c_proc x <> Some q -> aside (set_cpu me x s).
Proof.
  intros [Hw Hc] Hx. split; [done|]. intros y. cbn. destruct (ps_cpus s !! me) as [z|] eqn:E.
  - rewrite list_lookup_insert_eq by (by eapply lookup_lt_Some). by intros [= <-].
  - rewrite list_insert_ge by (by apply lookup_ge_None). by rewrite E.
Qed.

Lemma keeps_updp i f : (i <> q \/ (forall P, p_state P = RUNNABLE -> p_state (f P) = RUNNABLE)) -> keeps (updp i f) any.
Proof.
  intros Hf s a s' [(P & HP & HR) Hc]. unfold updp. destruct (ps_proc s !! i) as [P'|] eqn:E; [|done].
  intros [= <- <-]. split; [|done]. split; [|done]. unfold waiting. cbn.
  destruct (decide (i = q)) as [->|Hne].
  - rewrite list_lookup_insert_eq by (by eapply lookup_lt_Some). eexists. split; [done|].
    replace P' with P by congruence. destruct Hf as [|Hf]; [done|]. by apply Hf.
  - rewrite list_lookup_insert_ne by done. eauto.
Qed.

Lemma keeps_updcpu f : (forall x, c_proc x <> Some q -> c_proc (f x) <> Some q) -> keeps (updcpu me f) any.
Proof.
  intros Hf s a s' Hs. unfold updcpu. destruct (ps_cpus s !! me) as [x|] eqn:E; [|done]. intros [= <- <-].
  split; [|done]. apply aside_cpu; [done|]. apply Hf. by apply Hs.
Qed.

Lemma aside_lock l y s : aside s -> aside (set_lock l y s).
Proof.
  intros [(P & HP & HR) Hc]. split; [|by rewrite set_lock_cpus].
  destruct l as [i| | | |k]; try (by exists P). unfold waiting. cbn.
  destruct (ps_proc s !! i) as [P'|] eqn:E; [|by exists P]. cbn. destruct (decide (i = q)) as [->|Hne].
  - rewrite list_lookup_insert_eq by (by eapply lookup_lt_Some). eexists. split; [done|]. cbn. congruence.
  - rewrite list_lookup_insert_ne by done. eauto.
Qed.

Lemma keeps_onlock {A} l (op : M Spin.st A) : keeps (onlock me l op) any.
Proof.
  unfold onlock. eapply keeps_bind; [apply keeps_mycpu|]. intros x Hx s a s' Hs.
  destruct (get_lock l s) as [y|]; [|done]. destruct (op _) as [[b t]|]; [|done]. intros [= <- <-].
  split; [|done]. apply aside_cpu; [by apply aside_lock|done].
Qed.

Lemma keeps_oncpu op : keeps (oncpu me op) any.
Proof.
  unfold oncpu. eapply keeps_bind; [apply keeps_mycpu|]. intros x Hx s a s' Hs.
  destruct (op _) as [[b t]|]; [|done]. intros [= <- <-]. split; [|done]. by apply aside_cpu.
Qed.

Lemma keeps_holding l : keeps (holding me l) any.
Proof.
  unfold holding. eapply keeps_bind; [apply keeps_mycpu|]. intros x Hx s a s' Hs.
  destruct (get_lock l s) as [y|]; [|done]. destruct (Spin.holding _ _) as [[b t]|]; [|done]. by intros [= <- <-].
Qed.

Lemma keeps_onkm {A} (m : M kmem A) : keeps (onkm m) any.
Proof. intros s a s' Hs. unfold onkm, zoom. destruct (m _) as [[b k]|]; [|done]. by intros [= <- <-]. Qed.
Lemma keeps_onx {A} (m : M X A) : keeps (onx m) any.
Proof. intros s a s' Hs. unfold onx, zoom. destruct (m _) as [[b k]|]; [|done]. by intros [= <- <-]. Qed.
Lemma keeps_nextpid n : keeps (modify (fun s => set_nextpid (n s) s)) any.
Proof. intros s a s' Hs [= <- <-]. done. Qed.

Lemma keeps_myproc : keeps (myproc me) (fun o => o <> Some q).
Proof.
  unfold myproc. eapply keeps_bind; [apply keeps_oncpu|]. intros _ _. eapply keeps_bind; [apply keeps_mycpu|].
  intros x Hx. eapply keeps_bind; [apply keeps_oncpu|]. intros _ _. by apply keeps_ret.
Qed.
Lemma keeps_curproc : keeps (curproc me) (fun i => i <> q).
Proof.
  unfold curproc. eapply keeps_bind; [apply keeps_myproc|]. intros [i|] Hi; [|apply keeps_fail].
  apply keeps_ret. congruence.
Qed.

End Keeps.

(** *** The operations of proc.c *)

Ltac keep_step :=
  match goal with
  | |- forall _, _ => intros ?
  | |- keeps _ _ (bind (getp _) _) _ => eapply keeps_bind; [apply keeps_getp|intros ? ?]
  | |- keeps _ _ (bind (mycpu _) _) _ => eapply keeps_bind; [apply keeps_mycpu|intros ? ?]
  | |- keeps _ _ (bind (curproc _) _) _ => eapply keeps_bind; [apply keeps_curproc|intros ? ?]
  | |- keeps _ _ (bind (myproc _) _) _ => eapply keeps_bind; [apply keeps_myproc|intros ? ?]
  | |- keeps _ _ (bind _ _) _ => eapply keeps_bind with (Q := fun _ => True); [|intros ? _]
  | |- keeps _ _ (ret _) _ => by apply keeps_ret
  | |- keeps _ _ (fail _) _ => apply keeps_fail
  | |- keeps _ _ (panic _) _ => apply keeps_panic
  | |- keeps _ _ (when _ _) _ => apply keeps_when
  | |- keeps _ _ (for_each _ _) _ => apply keeps_for_each
  | |- keeps _ _ (updp _ _) _ => apply keeps_updp; first [right; done|left; congruence]
  | |- keeps _ _ (if bool_decide (?a = ?b) then _ else _) _ => destruct (bool_decide_reflect (a = b))
  | |- keeps _ _ (if ?b then _ else _) _ => destruct b
  | |- keeps _ _ (match ?x with _ => _ end) _ => destruct x
  | |- keeps _ _ (let _ := _ in _) _ => cbv zeta
  | |- keeps _ _ (onlock _ _ _) _ => apply keeps_onlock
  | |- keeps _ _ (acquire _ _) _ => apply keeps_onlock
  | |- keeps _ _ (release _ _) _ => apply keeps_onlock
  | |- keeps _ _ (holding _ _) _ => apply keeps_holding
  | |- keeps _ _ (onkm _) _ => apply keeps_onkm
  | |- keeps _ _ (onx _) _ => apply keeps_onx
  | |- keeps _ _ (gets _) _ => apply keeps_gets
  | |- keeps _ _ (modify _) _ => apply keeps_nextpid
  end.
Ltac keep := repeat keep_step.

Section Ops.
  Context {X : Type} `{OpenFiles X} `{Hal}.
  Context (kend PHYSTOP trampoline : Z) (me q : nat).
  Local Abbreviation any := (fun _ => True).
  Local Abbreviation keeps := (keeps (X:=X) me q).

Lemma keeps_freeproc i : i <> q -> keeps (freeproc kend PHYSTOP i) any.
Proof. intros Hi. unfold freeproc. keep. Qed.

Lemma keeps_find_unused : keeps (find_unused me) (fun o => forall i, o = Some i -> i <> q).
Proof.
  apply keeps_for_upto. intros z. cbv zeta. eapply keeps_bind; [apply keeps_onlock|]. intros _ _.
  eapply keeps_bind; [apply keeps_getp|]. intros P HP. destruct (bool_decide_reflect (p_state P = UNUSED)) as [E|_].
  - apply keeps_ret. intros i [= <-] Hi. specialize (HP Hi). congruence.
  - eapply keeps_bind; [apply keeps_onlock|]. intros _ _. by apply keeps_ret.
Qed.

Lemma keeps_allocproc : keeps (allocproc kend PHYSTOP trampoline me) (fun o => forall i, o = Some i -> i <> q).
Proof.
  unfold allocproc. eapply keeps_bind; [apply keeps_find_unused|]. intros [i|] Hi; [|by apply keeps_ret].
  specialize (Hi i eq_refl). pose proof (keeps_freeproc i Hi) as Hf. unfold allocpid. keep; try done.
  apply keeps_ret. congruence.
Qed.

Lemma keeps_fork_copy i : keeps (fork_copy kend PHYSTOP trampoline me i) any.
Proof.
  unfold fork_copy. eapply keeps_bind; [apply keeps_allocproc|]. intros [np|] Hi; [|by apply keeps_ret].
  specialize (Hi np eq_refl). pose proof (keeps_freeproc np Hi) as Hf. unfold dup_files. keep; done.
Qed.

Lemma keeps_wakeup ch : keeps (wakeup me ch) any.
Proof. unfold wakeup, wakeup1. keep. Qed.

Lemma keeps_sched w : keeps (sched me w) any.
Proof. unfold sched. keep. Qed.

Lemma keeps_yield : keeps (yield me) any.
Proof. unfold yield. pose proof keeps_sched. keep; done. Qed.

Lemma keeps_sleep ch lk : keeps (sleep me ch lk) any.
Proof. unfold sleep. pose proof keeps_sched. keep; done. Qed.

Lemma keeps_resume i : keeps (resume me i) any.
Proof. unfold resume. keep. by apply keeps_updcpu. Qed.

Lemma keeps_kexit st : keeps (kexit me st) any.
Proof.
  unfold kexit, exit_sched, reparent, close_files. pose proof keeps_sched. pose proof keeps_wakeup. keep; done.
Qed.

Lemma keeps_reap i addr js : forall h, keeps (reap kend PHYSTOP me i addr js h) any.
Proof.
  induction js as [|j js IH]; intros h; cbn [reap]; [by apply keeps_ret|].
  eapply keeps_bind with (Q := any); [|intros [?|?] _; [apply IH|by apply keeps_ret]].
  unfold reap_body, pcopyout. keep. apply keeps_freeproc. cbn beta in *. intros ->. intuition congruence.
Qed.

Lemma keeps_kwait addr : keeps (kwait kend PHYSTOP me addr) any.
Proof.
  unfold kwait, kwait_round, killed. pose proof keeps_reap. pose proof keeps_sleep. keep; done.
Qed.

Lemma keeps_kkill pid : keeps (kkill me pid) any.
Proof.
  unfold kkill. eapply keeps_bind with (Q := any); [|intros [?|] _; by apply keeps_ret].
  eapply keeps_weaken; [apply keeps_for_upto with (Q := any)|done]. intros z. unfold kkill_body.
  eapply keeps_weaken with (Q := any); [|done]. keep.
Qed.

End Ops.

(** *** Every step *)

Section Fair.
  Context {X : Type} `{OpenFiles X} `{Hal}.
  Context (kend PHYSTOP trampoline : Z).
  Context `{!QuietFiles X} `{!QuietHal}.
  Implicit Types (s : pst X) (c : nat -> ctl).

(** What a CPU runs between two switches is not a process that waits. *)
Lemma running_aside c s i q : rest c s -> waiting q s -> (forall p, c i <> CLeave p) -> aside i q s.
Proof.
  intros Hr Hw Hc. split; [done|]. intros x Hx. destruct (in_cpu _ _ _ _ Hr i x Hx) as [-> _].
  destruct Hw as (P & HP & HR). pose proof (st_run _ _ _ (in_proc _ _ _ _ Hr q P HP)) as Hq.
  destruct (c i) as [|p|p o|p] eqn:E; cbn [on]; [done| | |by destruct (Hc p)]; intros [= ->];
    (assert (p_state P = RUNNING) by (apply Hq; eauto)); congruence.
Qed.

Lemma pick_other i p q : p <> q -> keeps i q (scheduler_pick (X:=X) i p) (fun _ => True).
Proof.
  intros Hp. unfold scheduler_pick. keep. apply keeps_updcpu. intros x Hx [= ->]. done.
Qed.

Lemma pick_self i q s b s' : waiting q s -> scheduler_pick i q s = Ok (b, s') -> b = true.
Proof.
  intros Hw E. unfold scheduler_pick in E. apply bind_inv in E as ([] & s1 & E1 & E).
  assert (waiting q s1) as (P & HP & HR).
  { unfold acquire, onlock in E1. apply bind_inv in E1 as (x & s2 & E2 & E1).
    unfold mycpu in E2. destruct (ps_cpus s !! i); [|done]. injection E2 as <- <-.
    destruct (get_lock _ s) as [y|]; [|done]. destruct (Spin.acquire _ _) as [[[] t]|]; [|done].
    injection E1 as <-. destruct Hw as (P & HP & HR). unfold waiting. cbn. rewrite HP. cbn.
    rewrite list_lookup_insert_eq by (by eapply lookup_lt_Some). eexists. by split. }
  apply bind_inv in E as (P' & s2 & E2 & E). unfold getp in E2. rewrite HP in E2. injection E2 as <- <-.
  rewrite bool_decide_eq_true_2 in E by done.
  apply bind_inv in E as ([] & s3 & _ & E). apply bind_inv in E as ([] & s4 & _ & E). by injection E as <- _.
Qed.

(** The return to the scheduler changes no state but that of a lock. *)
Lemma return_waiting i p q s s' : waiting q s -> scheduler_return i p s = Ok (tt, s') -> waiting q s'.
Proof.
  intros (P & HP & HR) E. unfold scheduler_return in E. apply bind_inv in E as ([] & s1 & E1 & E).
  unfold updcpu in E1. destruct (ps_cpus s !! i) as [x|] eqn:Ex; [|done]. injection E1 as <-.
  assert (aside i q (set_cpu i (set_cproc None x) s)) as Ha.
  { split; [by exists P|]. intros y. cbn. rewrite list_lookup_insert_eq by (by eapply lookup_lt_Some). by intros [= <-]. }
  by apply (keeps_onlock i q _ _ _ _ _ Ha E).
Qed.

(** A waiting process waits on, or some CPU switches to it. *)
Lemma section_waiting c s i a k s' q : rest c s -> waiting q s ->
  section kend PHYSTOP trampoline i (c i) a -> a s = Ok (k, s') -> k = CEnter q \/ waiting q s'.
Proof.
  intros Hr Hw Ha E. remember (c i) as k0 eqn:Ek. symmetry in Ek.
  assert (forall (m : M (pst X) ctl), (forall p, k0 <> CLeave p) -> keeps i q m (fun _ => True) ->
    m s = Ok (k, s') -> waiting q s') as Hkeep.
  { intros m Hc Hm Em. eapply Hm; [|exact Em]. eapply running_aside; [done..|]. by rewrite Ek. }
  pose proof (keeps_yield i q (X:=X)) as K1. pose proof (keeps_sleep i q (X:=X)) as K2.
  pose proof (keeps_kexit i q (X:=X)) as K3. pose proof (keeps_kwait kend PHYSTOP i q (X:=X)) as K4.
  pose proof (keeps_fork_copy kend PHYSTOP trampoline i q (X:=X)) as K5. pose proof (keeps_kkill i q (X:=X)) as K6.
  pose proof (keeps_wakeup i q (X:=X)) as K7. pose proof (keeps_resume i q (X:=X)) as K8.
  destruct Ha as [p|p|p|p|p ch lk Hl|p st|p ad|p|p np|p np|p o pid|p o p'|p o ch|ch];
    try (right; eapply Hkeep; [done| |exact E]; unfold fork_adopt, fork_start, setkilled; keep; done).
  - destruct (decide (p = q)) as [->|Hne].
    + apply bind_inv in E as (b & s1 & E1 & E). injection E as <- <-. left.
      by rewrite (pick_self i q s b s1 Hw E1).
    + right. eapply Hkeep; [done| |exact E]. pose proof (pick_other i p q Hne). keep; done.
  - right. apply bind_inv in E as ([] & s1 & E1 & E). injection E as <- <-. by eapply return_waiting.
Qed.

(** *** The scheduler of one CPU *)

(** The locals of the scheduler of CPU [i]: the slot p it is at, and found. *)
Record sched_loc : Type := Loc { sl_p : nat; sl_found : bool }.

(** The steps of the machine, with the scheduler of CPU [i] at its place in the
    loops; the flag says that it visits a slot.  The other steps are those of
    the other CPUs, of the process that CPU [i] runs, and of an interrupt. *)
Inductive sched_step (i : nat) : sched_loc * mach (X:=X) -> bool -> sched_loc * mach (X:=X) -> Prop :=
| ss_other l c s j a k s' :
    j <> i -> section kend PHYSTOP trampoline j (c j) a -> a s = Ok (k, s') ->
    sched_step i (l, (c, s)) false (l, (setctl c j k, s'))
| ss_process l c s a k s' :
    c i <> CScan -> (forall p, c i <> CLeave p) ->
    section kend PHYSTOP trampoline i (c i) a -> a s = Ok (k, s') ->
    sched_step i (l, (c, s)) false (l, (setctl c i k, s'))
| ss_intr l c s ch s' :
    c i = CScan -> wakeup i ch s = Ok (tt, s') ->
    sched_step i (l, (c, s)) false (l, (setctl c i CScan, s'))
| ss_visit p found c s b s' :
    c i = CScan -> (p < NPROC)%nat -> scheduler_pick i p s = Ok (b, s') ->
    sched_step i (Loc p found, (c, s)) true
      (if b : bool then (Loc p found, (setctl c i (CEnter p), s'))
       else (Loc (S p) found, (setctl c i CScan, s')))
| ss_back p found c s r s' :
    c i = CLeave r -> scheduler_return i p s = Ok (tt, s') ->
    sched_step i (Loc p found, (c, s)) false (Loc (S p) true, (setctl c i CScan, s'))
| ss_top p found c s s' :
    c i = CScan -> (NPROC <= p)%nat -> scheduler_top i s = Ok (tt, s') ->
    sched_step i (Loc p found, (c, s)) false (Loc 0 false, (setctl c i CScan, s')).

(** The scheduler is at the process it switched to. *)
Record sched_inv (i : nat) (x : sched_loc * mach (X:=X)) : Prop := SchedInv {
  si_rest : rest x.2.1 x.2.2;
  si_at : forall p, on (x.2.1 i) = Some p -> sl_p x.1 = p;
  si_p : (sl_p x.1 <= NPROC)%nat;
  si_on : x.2.1 i <> CScan -> (sl_p x.1 < NPROC)%nat
}.

(** Slots that the scheduler visits before it comes to [q]. *)
Definition ahead (p q : nat) : nat := if (p <=? q)%nat then q - p else NPROC - p + q.
Definition before (i q : nat) (x : sched_loc * mach (X:=X)) : nat :=
  if decide (x.2.1 i = CScan) then ahead (sl_p x.1) q else ahead (S (sl_p x.1)) q.

(** A run with [n] visits, in which no CPU switches to [q]. *)
Inductive passed_over (i q : nat) : nat -> sched_loc * mach (X:=X) -> sched_loc * mach (X:=X) -> Prop :=
| po_refl x : passed_over i q 0 x x
| po_step n x y b z :
    passed_over i q n x y -> sched_step i y b z -> (forall j, z.2.1 j <> CEnter q) ->
    passed_over i q (if b : bool then S n else n) x z.

(** A process that runs stays on its CPU until it calls sched. *)
Lemma process_stays i k0 a s k s' : section kend PHYSTOP trampoline i k0 a -> k0 <> CScan -> (forall p, k0 <> CLeave p) ->
  a s = Ok (k, s') -> k <> CScan /\ on k = on k0.
Proof.
  intros Ha Hn1 Hn2 E. destruct Ha; try done; try (by destruct (Hn2 p)); apply bind_inv in E as (b & s1 & _ & E);
    injection E as <- _; try done; by (destruct b as [[]|] || destruct b).
Qed.

Lemma top_rest i c s s' : c i = CScan -> rest c s -> scheduler_top i s = Ok (tt, s') -> rest c s' /\ ps_proc s' = ps_proc s.
Proof.
  intros Hc Hr E. unfold scheduler_top, set_intr in E. apply bind_inv in E as ([] & s1 & E1 & E2).
  assert (forall f (t t' : pst X), (forall x, c_proc (f x) = c_proc x /\ Spin.c_noff (c_int (f x)) = Spin.c_noff (c_int x)) ->
    rest c t -> updcpu i f t = Ok (tt, t') -> rest c t' /\ ps_proc t' = ps_proc t) as Hstep.
  { clear -Hc. intros f t t' Hf Ht E. unfold updcpu in E. destruct (ps_cpus t !! i) as [x|] eqn:Ex; [|done].
    injection E as <-. split; [|done]. destruct Ht as [I1 I2 I3 I4 I5 I6]. constructor; try done.
    intros j y. cbn. destruct (decide (j = i)) as [->|Hj].
    - rewrite list_lookup_insert_eq by (by eapply lookup_lt_Some). intros [= <-].
      destruct (Hf x) as [-> ->]. destruct (I5 i x Ex) as (? & ? & _). rewrite Hc in *. done.
    - rewrite list_lookup_insert_ne by done. apply I5. }
  apply Hstep in E1 as [Hr1 Ep1]; [|done..]. apply Hstep in E2 as [Hr2 Ep2]; [|done..].
  split; [done|congruence].
Qed.

Lemma rest_section i c s a k s' : rest c s -> section kend PHYSTOP trampoline i (c i) a -> a s = Ok (k, s') -> rest (setctl c i k) s'.
Proof.
  intros Hr Ha E. pose proof (section_rule kend PHYSTOP trampoline i c a Ha s Hr) as Ht. by rewrite E in Ht.
Qed.

(** Every step, seen as a section of ProcLife. *)
Lemma sched_step_inv i x b y : sched_inv i x -> sched_step i x b y -> sched_inv i y.
Proof.
  intros [Hr Hat Hp Hon] Hs. destruct Hs as [l c s j a k s' Hj Ha E|l c s a k s' Hn1 Hn2 Ha E|l c s ch s' Hc E
    |p found c s v s' Hc Hlt E|p found c s r s' Hc E|p found c s s' Hc Hge E]; cbn [fst snd sl_p] in *.
  - constructor; cbn [fst snd sl_p]; rewrite ?(setctl_ne j c k i) by done; try done. by eapply rest_section.
  - destruct (process_stays _ _ _ _ _ _ Ha Hn1 Hn2 E) as [Hk Ek].
    constructor; cbn [fst snd sl_p]; rewrite ?setctl_me; [by eapply rest_section|by rewrite Ek|done|auto].
  - constructor; cbn [fst snd sl_p]; rewrite ?setctl_me; try done. eapply (rest_section i c s); [done|rewrite Hc; apply sc_wake_intr|].
    unfold bind. by rewrite E.
  - assert (rest (setctl c i (if v then CEnter p else CScan)) s') as Hr'.
    { eapply (rest_section i c s); [done|rewrite Hc; apply sc_pick|]. unfold bind. by rewrite E. }
    destruct v; constructor; cbn [fst snd sl_p]; rewrite ?setctl_me; try done. by intros ? [= <-].
  - rewrite Hc in Hat. specialize (Hat r eq_refl) as ->.
    constructor; cbn [fst snd sl_p]; rewrite ?setctl_me; try done.
    + eapply (rest_section i c s); [done|rewrite Hc; apply sc_return|]. unfold bind. by rewrite E.
    + specialize (Hon ltac:(by rewrite Hc)). lia.
  - destruct (top_rest i c s s' Hc Hr E) as [Hr' _]. constructor; cbn [fst snd sl_p]; rewrite ?setctl_me; try done; [|lia].
    apply sect_rest_nil; [done|done|]. apply rest_sect_nil; [by rewrite Hc|done].
Qed.

Lemma sched_step_waiting i q x b y : sched_inv i x -> waiting q x.2.2 -> sched_step i x b y ->
  (forall j, y.2.1 j <> CEnter q) -> waiting q y.2.2.
Proof.
  intros [Hr Hat _ _] Hw Hs Hno. destruct Hs as [l c s j a k s' Hj Ha E|l c s a k s' Hn1 Hn2 Ha E|l c s ch s' Hc E
    |p found c s v s' Hc Hlt E|p found c s r s' Hc E|p found c s s' Hc Hge E]; cbn [fst snd sl_p] in *.
  - destruct (section_waiting c s j a k s' q Hr Hw Ha E) as [->|]; [|done].
    destruct (Hno j). by rewrite setctl_me.
  - destruct (section_waiting c s i a k s' q Hr Hw Ha E) as [->|]; [|done].
    destruct (Hno i). by rewrite setctl_me.
  - eapply (keeps_wakeup i q); [|exact E]. eapply running_aside; [done..|]. by rewrite Hc.
  - destruct (decide (p = q)) as [->|Hne].
    + rewrite (pick_self i q s v s' Hw E) in Hno. destruct (Hno i). cbn. by rewrite setctl_me.
    + assert (waiting q s') by (eapply (pick_other i p q Hne); [|exact E]; eapply running_aside; [done..|]; by rewrite Hc).
      by destruct v.
  - by eapply return_waiting.
  - destruct Hw as (P & HP & HR). destruct (top_rest i c s s' Hc Hr E) as [_ Ep]. exists P. by rewrite Ep.
Qed.

Lemma sched_step_before i q x b y : (q < NPROC)%nat -> sched_inv i x -> waiting q x.2.2 -> sched_step i x b y ->
  (forall j, y.2.1 j <> CEnter q) -> before i q x = ((if b then 1 else 0) + before i q y)%nat.
Proof.
  intros Hq [Hr Hat Hp Hon] Hw Hs Hno. unfold before.
  destruct Hs as [l c s j a k s' Hj Ha E|l c s a k s' Hn1 Hn2 Ha E|l c s ch s' Hc E
    |p found c s v s' Hc Hlt E|p found c s r s' Hc E|p found c s s' Hc Hge E]; cbn [fst snd sl_p] in *; rewrite ?setctl_me.
  - by rewrite setctl_ne by done.
  - destruct (process_stays _ _ _ _ _ _ Ha Hn1 Hn2 E) as [Hk _]. by rewrite !decide_False.
  - by rewrite Hc.
  - assert (p <> q) as Hne.
    { intros ->. rewrite (pick_self i q s v s' Hw E) in Hno. destruct (Hno i). cbn. by rewrite setctl_me. }
    assert (ahead p q = S (ahead (S p) q)) as ->.
    { unfold ahead. destruct (Nat.leb_spec p q), (Nat.leb_spec (S p) q); lia. }
    rewrite decide_True by done. destruct v; cbn; rewrite setctl_me; [by rewrite decide_False|by rewrite decide_True].
  - rewrite Hc. by rewrite decide_False, decide_True.
  - rewrite Hc, !decide_True by done. replace p with NPROC by lia. unfold ahead.
    destruct (Nat.leb_spec NPROC q); cbn; lia.
Qed.

(** A scanning CPU is not held up at a slot, unless another CPU is switching to
    or from its process. *)
Lemma visit_progress i p c s x P : rest c s -> c i = CScan -> ps_cpus s !! i = Some x -> ps_proc s !! p = Some P ->
  (exists b s', scheduler_pick i p s = Ok (b, s')) \/ exists j, j <> i /\ (c j = CEnter p \/ c j = CLeave p).
Proof.
  intros Hr Hc Hx HP.
  destruct (in_lock _ _ _ _ Hr (LProc p) (p_lock P)) as ([j|] & El & Ho); [cbn; by rewrite HP| |].
  - right. exists j. pose proof (proj2 (Ho j) eq_refl) as Hj. split; [intros ->; rewrite Hc in Hj; by apply not_elem_of_nil in Hj|].
    destruct (c j) as [|r|r o|r]; cbn [held_of] in Hj; try (by apply not_elem_of_nil in Hj);
      apply list_elem_of_singleton in Hj as [= ->]; auto.
  - left. destruct (in_cpu _ _ _ _ Hr i x Hx) as (_ & Hn & _). rewrite Hc in Hn. cbn in Hn.
    unfold scheduler_pick, acquire, release, onlock, mycpu, getp, updp, updcpu, bind.
    rewrite Hx. cbn [get_lock]. rewrite HP. cbn [fmap option_fmap option_map]. rewrite El.
    unfold Spin.acquire, Spin.push_off, Spin.holding, bind, gets. cbn.
    rewrite HP. cbn. rewrite list_lookup_insert_eq by (by eapply lookup_lt_Some). cbn.
    destruct (bool_decide _); cbn;
      repeat (rewrite list_lookup_insert_eq by (rewrite ?length_insert; by eapply lookup_lt_Some); cbn); [by eauto|].
    unfold Spin.holding_lk, Spin.pop_off, modify, bind, gets. cbn.
    rewrite bool_decide_eq_true_2 by done. cbn. rewrite Hn. cbn. eauto.
Qed.

Lemma passed_over_inv i q n x y : (q < NPROC)%nat -> sched_inv i x -> waiting q x.2.2 -> passed_over i q n x y ->
  sched_inv i y /\ waiting q y.2.2 /\ before i q x = (n + before i q y)%nat.
Proof.
  intros Hq Hi Hw Hp. induction Hp as [x|n x y b z Hp IH Hs Hno]; [done|].
  destruct (IH Hi Hw) as (Hiy & Hwy & E). split_and!; [by eapply sched_step_inv|by eapply sched_step_waiting|].
  rewrite E, (sched_step_before i q y b z Hq Hiy Hwy Hs Hno). destruct b; lia.
Qed.

Definition sched_start (s : pst X) : sched_loc * mach := (Loc 0 false, start s).

Lemma sched_inv_reachable i s0 x : boot s0 -> rtc (fun a b => exists v, sched_step i a v b) (sched_start s0) x -> sched_inv i x.
Proof.
  intros Hb. apply (rtc_ind_r (sched_inv i)).
  - constructor; cbn; try done; [by apply boot_rest|unfold NPROC; lia].
  - intros y z _ [v Hs] Hy. by eapply sched_step_inv.
Qed.

(** C4: the scheduler starves nobody.  In every interleaving of the sections of
    proc.c on all CPUs, with the scheduler of one CPU in its loops over the
    table: a process that is RUNNABLE stays RUNNABLE until some CPU switches to
    it.  Until then the CPU visits at most NPROC - 1 slots, each visit brings
    it closer, and when it is at the process's slot it switches to it: the only
    other thing that can happen there is that another CPU holds the process's
    lock because it is just switching from it. *)
Theorem runnable_is_chosen i q s0 x n y (Hb : boot s0) (Hq : (q < NPROC)%nat)
    (Hx : rtc (fun a b => exists v, sched_step i a v b) (sched_start s0) x)
    (Hw : waiting q x.2.2) (Hp : passed_over i q n x y) :
  waiting q y.2.2 /\ (n < NPROC)%nat /\ before i q x = (n + before i q y)%nat /\
  (y.2.1 i = CScan -> sl_p y.1 = q -> is_Some (ps_cpus y.2.2 !! i) ->
     (exists s', scheduler_pick i q y.2.2 = Ok (true, s')) \/ exists j, j <> i /\ y.2.1 j = CLeave q).
Proof.
  pose proof (sched_inv_reachable i s0 x Hb Hx) as Hi.
  destruct (passed_over_inv i q n x y Hq Hi Hw Hp) as (Hiy & Hwy & E). split_and!; [done| |done|].
  - assert (before i q x < NPROC)%nat; [|lia]. pose proof (si_p _ _ Hi) as Hle. pose proof (si_on _ _ Hi) as Hlt.
    unfold before, ahead. destruct (decide _) as [Ec|Ec].
    + destruct (Nat.leb_spec (sl_p x.1) q); lia.
    + specialize (Hlt Ec). destruct (Nat.leb_spec (S (sl_p x.1)) q); lia.
  - intros Hc _ [z Hz]. destruct Hwy as (P & HP & HR). destruct Hiy as [Hr _ _ _].
    destruct (visit_progress i q _ _ z P Hr Hc Hz HP) as [(b & s' & Ep)|(j & Hj & [Hjc|Hjc])].
    + left. exists s'. rewrite <-(pick_self i q _ b s' (ex_intro _ P (conj HP HR)) Ep). done.
    + pose proof (proj2 (st_run _ _ _ (in_proc _ _ _ _ Hr q P HP)) (ex_intro _ j (or_introl Hjc))). congruence.
    + eauto.
Qed.

End Fair.

(** *** Two processes on one CPU *)

Module TwoProcs.

Definition s0 : pst unit :=
  Pst [Example.p0; Example.p0] [Example.idle] Spin.initlock Spin.initlock Spin.initlock [] 2 (Some 0%nat)
    (Kmem (fun _ => 0) 0) tt.

Lemma boot_two : boot s0.
Proof.
  constructor.
  - intros [|[|p]] P [= <-]; (split; [done|]); right; by right.
  - intros [p| | | |k] y Hl Hy; [by destruct (Hl p)|by injection Hy as <-..|by destruct k].
  - intros [|i] x [= <-]. done.
Qed.

End TwoProcs.

(** The first process is chosen, runs, and yields; the second is chosen next. *)
Lemma runnable_is_chosen_witness :
  exists y, @passed_over unit Example.no_files Loongarch.arch LoongarchHal.hal 4096 40960 0 0 1 1 (sched_start TwoProcs.s0) y /\
    waiting 1 y.2.2 /\ sl_p y.1 = 1%nat /\ exists s', scheduler_pick 0 1 y.2.2 = Ok (true, s').
Proof.
  pose proof Example.no_files_quiet as Hqf.
  assert (exists y, @passed_over unit Example.no_files Loongarch.arch LoongarchHal.hal 4096 40960 0 0 1 1 (sched_start TwoProcs.s0) y /\
    y.2.1 0%nat = CScan /\ sl_p y.1 = 1%nat /\ is_Some (ps_cpus y.2.2 !! 0%nat) /\ forall j, y.2.1 j = CScan) as (y & Hp & Hc & Hl & Hx & Hall).
  { eexists. split.
    - eapply (po_step _ _ _ 0 1 1 _ _ false);
        [eapply (po_step _ _ _ 0 1 1 _ _ false);
          [eapply (po_step _ _ _ 0 1 1 _ _ false);
            [eapply (po_step _ _ _ 0 1 0 _ _ true);
              [apply po_refl
              |eapply (ss_visit _ _ _ _ _ _ _ _ true); [reflexivity|unfold NPROC; lia|vm_compute; reflexivity]
              |by intros [|j]]
            |eapply ss_process; [done|done|apply (sc_resume 4096 40960 0 0 0)|vm_compute; reflexivity]
            |by intros [|j]]
          |eapply ss_process; [done|done|apply (sc_yield 4096 40960 0 0 0)|vm_compute; reflexivity]
          |by intros [|j]]
        |eapply (ss_back _ _ _ _ _ _ _ _ 0); [reflexivity|vm_compute; reflexivity]
        |by intros [|j]].
    - split_and!; [done..|by eexists|by intros [|j]]. }
  destruct (@runnable_is_chosen unit Example.no_files Loongarch.arch LoongarchHal.hal 4096 40960 0 Hqf loongarch_quiet 0 1 TwoProcs.s0 _ 1 y TwoProcs.boot_two ltac:(unfold NPROC; lia) (rtc_refl _ _)
    (ex_intro _ Example.p0 (conj eq_refl eq_refl)) Hp) as (Hw & _ & _ & Hch).
  exists y. split_and!; [done..|]. destruct (Hch Hc Hl Hx) as [Hs|(j & _ & Hj)]; [done|]. by rewrite Hall in Hj.
Defined.
