(* ===== verification/VmSys.v ===== *)
(** VmSys: the pages above user memory (the trampoline and the trapframe) and
    the life of a page table: proc_pagetable and proc_freepagetable of
    kernel/proc.c.  What they need of the machine is an interface with an
    instance for each. *)

From S2P Require Import Prelude CString Kalloc Arch Vm VmTable VmSpace VmUser VmFork VmFree Hal Proc.

Section Sys.
  Context {HA : Arch} {HAO : ArchOk} (kend PHYSTOP : Z).
  Context (kend_pos : 0 < kend) (phystop_56 : PHYSTOP <= 2 ^ 56).
  Context (F : Z -> Prop) (mF : memory).
  Local Abbreviation tables := (gmap (nat * Z) Z).
  Local Abbreviation space := (gmap Z (Z * uperm)).
  Local Abbreviation as_ok := (as_ok kend PHYSTOP F mF).
  Implicit Types s : kmem.

(** Only the entries above user memory count. *)
Lemma as_ents e e' s T root l U :
  (forall n, UT <= n -> e' n = e n) -> as_ok e s T root l U -> as_ok e' s T root l U.
Proof.
  intros He [A1 A2 A3 A4 A5 A6 A7 A8 A9]. constructor; try done.
  - intros n Hn. by rewrite He, A7.
  - intros n Hn. rewrite He by done. by apply A9.
Qed.

Definition set_ent (n v : Z) (e : Z -> Z) (k : Z) : Z := if k =? n then v else e k.

(** Storing the entry of a page above user memory. *)
Lemma sys_store e s T root l U n pt v :
  as_ok e s T root l U -> UT <= n -> T !! (0%nat, idx 1 (n * PGSIZE)) = Some pt -> 0 <= v < 2 ^ 64 ->
  bits v PTE_V = false \/ bits v PTE_U = false ->
  let s' := set_mem (store64 (km_mem s) (pt + 8 * PX 0 (n * PGSIZE)) v) s in
  as_ok (set_ent n v e) s' T root l U /\ same_frames U s s'.
Proof.
  intros [A1 A2 A3 A4 A5 A6 A7 A8 A9] Hn Hpt Hv Hu s'.
  assert (0 < UT) as H0 by apply UT_range.
  destruct (store_leaf kend PHYSTOP s T root l (n * PGSIZE) pt v) as (Hvm & Hpte & Hmem);
    [done|unfold PGSIZE; lia|done|done|]. fold s' in Hvm, Hpte, Hmem.
  assert (is_tab T pt) as Ht by (by eexists).
  destruct (vo_tab _ _ _ _ _ _ Hvm pt Ht) as [Hpo _].
  assert (forall pa a, page_ok kend PHYSTOP pa -> ~ is_tab T pa -> in_page pa a = true -> km_mem s' a = km_mem s a) as Hf.
  { intros pa a Hpa Hnt Ha. apply Hmem. apply (page_apart kend PHYSTOP pa pt); auto. congruence. }
  assert (forall k, pte_at s' T (k * PGSIZE) = if k =? n then v else pte_at s T (k * PGSIZE)) as Hk.
  { intros k. by rewrite Hpte, !idx0_page. }
  split.
  - constructor; try done.
    + intros k x Hx. pose proof (A2 k x Hx). rewrite Hk, (proj2 (Z.eqb_neq k n)) by lia. by apply A3.
    + intros k Hkr Hx. rewrite Hk, (proj2 (Z.eqb_neq k n)) by lia. by apply A4.
    + intros k Hkr. rewrite Hk. unfold set_ent. destruct (k =? n); [done|]. by apply A7.
    + intros pa Hpa. destruct (A8 pa Hpa) as (Hp & Hl & Hnt & Huu & Hm). split_and!; try done.
      intros a Ha. rewrite (Hf pa) by done. by apply Hm.
    + intros k Hkr. unfold set_ent. destruct (k =? n); [done|]. by apply A9.
  - intros k pa f a Hx Ha. destruct (A5 k pa f Hx) as (? & _ & ?). by eapply Hf.
Qed.

Lemma sys_va n : UT <= n -> n * PGSIZE < MAXVA -> 0 <= n * PGSIZE < MAXVA /\ u64 (n * PGSIZE) = n * PGSIZE /\
  u64 (n * PGSIZE + PGSIZE) = (n + 1) * PGSIZE.
Proof.
  intros Hn Hm. pose proof UT_range as [H0 _]. pose proof maxva_int. unfold u64, PGSIZE in *.
  split_and!; [lia|lia| |]; rewrite Z.mod_small; lia.
Qed.

(** mappages of one page there. *)
Lemma mappages_sys e s T root l U n pa f :
  as_ok e s T root l U -> UT <= n -> n * PGSIZE < MAXVA -> bits (e n) PTE_V = false -> frame pa ->
  pu f = false ->
  exists r s' T' l', mappages root (n * PGSIZE) PGSIZE pa (perm_bits f) s = Ok (r, s') /\
    took T l T' l' /\ same_frames U s s' /\
    ((r = 0 /\ as_ok (set_ent n (leaf_of (pa, f)) e) s' T' root l' U) \/
     (r = -1 /\ as_ok e s' T' root l' U)).
Proof.
  intros Hok Hn Hva Hfree Hpa Hpu. destruct (sys_va n Hn Hva) as (Hva' & Hu & _).
  unfold mappages. assert ((n * PGSIZE) mod PGSIZE =? 0 = true) as -> by (unfold PGSIZE; dlia).
  change (PGSIZE mod PGSIZE =? 0) with true. change (PGSIZE =? 0) with false.
  change (Z.to_nat (PGSIZE / PGSIZE)) with 1%nat. cbn [negb loop]. unfold mappages_body at 1.
  destruct (walk_alloc kend PHYSTOP kend_pos phystop_56 root (n * PGSIZE) s T l Hva' (ao_vm _ _ _ _ _ _ _ _ _ _ Hok))
    as (r & s1 & T1 & l1 & Ew & Hvm & Hg & Hr).
  destruct (as_grows kend PHYSTOP F mF e _ _ _ _ _ _ _ _ Hok Hvm Hg) as [Hok1 Hsf1].
  pose proof (grows_took _ _ _ _ _ _ Hg) as Htk.
  rewrite bind_assoc, (bind_ok _ _ _ _ _ Ew). destruct Hr as [[-> ->]|(p0 & Hp0 & ->)].
  { exists (-1), s1, T1, []. split_and!; [done..|]. by right. }
  assert (is_tab T1 p0) as Ht0 by (by eexists).
  rewrite (proj2 (Z.eqb_neq _ 0)) by (by eapply (pte_addr_pos kend PHYSTOP)).
  unfold ld64 at 1, gets at 1. rewrite bind_assoc, (bind_ok _ _ s1 _ s1) by reflexivity.
  assert (load64 (km_mem s1) (p0 + 8 * PX 0 (n * PGSIZE)) = e n) as ->.
  { rewrite <-(ao_sys _ _ _ _ _ _ _ _ _ _ Hok1 n Hn). unfold pte_at. by rewrite Hp0. }
  rewrite Hfree. unfold st64, modify. rewrite bind_assoc, (bind_ok _ _ s1 tt _) by reflexivity.
  replace (n * PGSIZE + PGSIZE - PGSIZE) with (n * PGSIZE) by lia. rewrite Hu, Z.eqb_refl.
  destruct (sys_store e s1 T1 root l1 U n p0 (leaf_of (pa, f))) as [Hok2 Hs2];
    [done|done|done|by apply leaf_range|right; unfold leaf_of, perm_bits; cbn; by rewrite leaf_u|].
  exists 0. eexists _, T1, l1. split; [done|]. split_and!; [done|by eapply same_frames_trans|]. by left.
Qed.

(** uvmunmap of one page there, which is not freed; so the bounds of the
    allocator do not matter. *)
Lemma unmap_sys kd ph e s T root l U n :
  as_ok e s T root l U -> UT <= n -> n * PGSIZE < MAXVA -> bits (e n) PTE_V = true \/ e n = 0 ->
  exists s', uvmunmap kd ph root (n * PGSIZE) 1 false s = Ok (tt, s') /\
    as_ok (set_ent n 0 e) s' T root l U /\ same_frames U s s'.
Proof.
  intros Hok Hn Hva Hv. destruct (sys_va n Hn Hva) as (Hva' & Hu & Hu').
  unfold uvmunmap. assert ((n * PGSIZE) mod PGSIZE =? 0 = true) as -> by (unfold PGSIZE; dlia). cbn [negb].
  change (Z.to_nat 1) with 1%nat. rewrite Z.mul_1_l, Hu'.
  assert (exists s', unmap_body kd ph root ((n + 1) * PGSIZE) false (n * PGSIZE) s = Ok (inl ((n + 1) * PGSIZE), s') /\
    as_ok (set_ent n 0 e) s' T root l U /\ same_frames U s s') as (s' & E & Hok' & Hs).
  { unfold unmap_body. rewrite (proj2 (Z.ltb_lt _ _)) by (unfold PGSIZE; lia). cbn [negb].
    pose proof (walk_look kend PHYSTOP kend_pos phystop_56 s T root l _ (ao_vm _ _ _ _ _ _ _ _ _ _ Hok) Hva') as Ew.
    rewrite (bind_ok _ _ _ _ _ Ew), Hu'.
    pose proof (ao_sys _ _ _ _ _ _ _ _ _ _ Hok n Hn) as He. unfold pte_at in He.
    destruct (T !! (0%nat, idx 1 (n * PGSIZE))) as [pt|] eqn:Ept.
    - rewrite (proj2 (Z.eqb_neq _ 0)) by (eapply (pte_addr_pos kend PHYSTOP); [done|apply Hok|by eexists]).
      unfold ld64, gets. rewrite bind_assoc, (bind_ok _ _ s _ s) by reflexivity. rewrite He.
      destruct Hv as [Hv|Hv].
      + rewrite Hv. cbn [negb when]. rewrite bind_assoc, ret_bind. unfold st64, modify.
        rewrite (bind_ok _ _ s tt _) by reflexivity.
        destruct (sys_store e s T root l U n pt 0) as [Hok2 Hs2]; [done|done|done|lia|left; apply zero_invalid|]. eauto.
      + rewrite Hv, zero_invalid. cbn [negb]. rewrite ret_bind. exists s. split_and!; [done| |done].
        apply (as_ents e); [|done]. intros k _. unfold set_ent. destruct (Z.eqb_spec k n) as [->|]; [by rewrite Hv|done].
    - cbn [Z.eqb]. rewrite ret_bind. exists s. split_and!; [done| |done].
      apply (as_ents e); [|done]. intros k _. unfold set_ent. destruct (Z.eqb_spec k n) as [->|]; [by rewrite He|done]. }
  cbn [loop]. rewrite (bind_ok _ _ _ _ _ E). cbn [loop]. unfold unmap_body.
  rewrite (proj2 (Z.ltb_ge _ _)) by lia. cbn [negb]. eauto.
Qed.

End Sys.

(** *** The machine's part *)

Local Abbreviation no_ents := (fun _ : Z => 0).

(** What hal_vm_map_trampoline and hal_vm_unmap_trampoline do to a page table:
    [ents tf] are the entries above user memory of a process with trapframe
    [tf].  A failed mapping may keep new tables. *)
Class HalVmOk `{Hal} (trampoline : Z) (ents : Z -> Z -> Z) : Prop := {
  map_trampoline_ok : forall kend PHYSTOP F mF s T root l tf, 0 < kend -> PHYSTOP <= 2 ^ 56 -> frame tf ->
    as_ok kend PHYSTOP F mF no_ents s T root l ∅ ->
    exists r s' T' l', hal_vm_map_trampoline root trampoline tf s = Ok (r, s') /\ took T l T' l' /\
      ((r = 0 /\ as_ok kend PHYSTOP F mF (ents tf) s' T' root l' ∅) \/
       (r < 0 /\ as_ok kend PHYSTOP F mF no_ents s' T' root l' ∅));
  unmap_trampoline_ok : forall kend PHYSTOP F mF s T root l U tf, 0 < kend -> PHYSTOP <= 2 ^ 56 -> frame tf ->
    as_ok kend PHYSTOP F mF (ents tf) s T root l U ->
    exists s', hal_vm_unmap_trampoline root s = Ok (tt, s') /\
      as_ok kend PHYSTOP F mF no_ents s' T root l U /\ same_frames U s s'
}.

Lemma took_trans T1 l1 T2 l2 T3 l3 : took T1 l1 T2 l2 -> took T2 l2 T3 l3 -> took T1 l1 T3 l3.
Proof.
  intros (A1 & a & -> & A2) (B1 & b & -> & B2). split; [by trans T2|]. exists (a ++ b).
  split; [by rewrite app_assoc|]. intros pt. rewrite B2, A2, elem_of_app. tauto.
Qed.

(** LoongArch reaches both pages through a direct-mapped window. *)
#[export] Instance loongarch_vm trampoline : @HalVmOk _ LoongarchHal.hal trampoline (fun _ _ => 0).
Proof.
  constructor.
  - intros. exists 0, s, T, l. split; [done|]. split; [apply took_refl|]. by left.
  - intros. exists s. split_and!; [done..|]. apply same_frames_refl.
Qed.

Module RiscvVm.
Import Riscv.

Definition tramp_page : Z := 2 ^ 26 - 1.
Definition frame_page : Z := 2 ^ 26 - 2.
Definition tramp_perm : uperm := Uperm true false true false.
Definition frame_perm : uperm := Uperm true true false false.

Definition ents (trampoline tf : Z) : Z -> Z :=
  set_ent frame_page (@leaf_of arch (tf, frame_perm))
    (set_ent tramp_page (@leaf_of arch (trampoline, tramp_perm)) no_ents).

End RiscvVm.

#[export] Instance riscv_vm etext kd trampoline (Htr : frame trampoline) :
  @HalVmOk _ (RiscvHal.hal etext kd) trampoline (RiscvVm.ents trampoline).
Proof.
  assert (@UT Riscv.arch = RiscvVm.frame_page) as EUT by by vm_compute.
  assert (@TRAMPOLINE Riscv.arch = RiscvVm.tramp_page * PGSIZE) as Etr by by vm_compute.
  assert (@TRAPFRAME Riscv.arch = RiscvVm.frame_page * PGSIZE) as Etf by by vm_compute.
  assert (RiscvVm.frame_page * PGSIZE < @MAXVA Riscv.arch /\ RiscvVm.tramp_page * PGSIZE < @MAXVA Riscv.arch) as [Hm1 Hm2]
    by by vm_compute.
  assert (@UT Riscv.arch <= RiscvVm.frame_page /\ @UT Riscv.arch <= RiscvVm.tramp_page) as [Hn1 Hn2] by by vm_compute.
  constructor.
  - intros kend PHYSTOP F mF s T root l tf Hk Hph Htf Hok.
    cbn [hal_vm_map_trampoline RiscvHal.hal]. unfold RiscvHal.hal_vm_map_trampoline. rewrite Etr, Etf.
    destruct (@mappages_sys Riscv.arch _ kend PHYSTOP Hk Hph F mF no_ents s T root l ∅ RiscvVm.tramp_page trampoline
      RiscvVm.tramp_perm Hok Hn2 Hm2) as (r & s1 & T1 & l1 & E1 & Htk1 & Hs1 & Hr); [done..|].
    change (Z.lor PTE_R PTE_X) with (@perm_bits Riscv.arch RiscvVm.tramp_perm).
    rewrite (bind_ok _ _ _ _ _ E1). destruct Hr as [[-> Hok1]|[-> Hok1]]; cbn [Z.ltb Z.compare].
    + destruct (@mappages_sys Riscv.arch _ kend PHYSTOP Hk Hph F mF _ s1 T1 root l1 ∅ RiscvVm.frame_page tf
        RiscvVm.frame_perm Hok1 Hn1 Hm1) as (r & s2 & T2 & l2 & E2 & Htk2 & Hs2 & Hr); [done..|].
      change (Z.lor PTE_R PTE_W) with (@perm_bits Riscv.arch RiscvVm.frame_perm).
      rewrite (bind_ok _ _ _ _ _ E2). destruct Hr as [[-> Hok2]|[-> Hok2]]; cbn [Z.ltb Z.compare].
      * exists 0, s2, T2, l2. split; [done|]. split; [by eapply took_trans|]. by left.
      * destruct (@unmap_sys Riscv.arch _ kend PHYSTOP Hk Hph F mF kd RiscvHal.PHYSTOP _ s2 T2 root l2 ∅ RiscvVm.tramp_page
          Hok2 Hn2 Hm2) as (s3 & E3 & Hok3 & _).
        { left. unfold set_ent. rewrite Z.eqb_refl. by apply leaf_valid. }
        rewrite (bind_ok _ _ _ _ _ E3). exists (-1), s3, T2, l2. split; [done|]. split; [by eapply took_trans|].
        right. split; [done|]. eapply as_ents; [|exact Hok3]. intros n _. unfold set_ent. by destruct (n =? _).
    + exists (-1), s1, T1, l1. split; [done|]. split; [done|]. by right.
  - intros kend PHYSTOP F mF s T root l U tf Hk Hph Htf Hok.
    cbn [hal_vm_unmap_trampoline RiscvHal.hal]. unfold RiscvHal.hal_vm_unmap_trampoline. rewrite Etr, Etf.
    destruct (@unmap_sys Riscv.arch _ kend PHYSTOP Hk Hph F mF kd RiscvHal.PHYSTOP _ s T root l U RiscvVm.tramp_page
      Hok Hn2 Hm2) as (s1 & E1 & Hok1 & Hs1).
    { left. unfold RiscvVm.ents, set_ent. cbn [Z.eqb]. by apply leaf_valid. }
    destruct (@unmap_sys Riscv.arch _ kend PHYSTOP Hk Hph F mF kd RiscvHal.PHYSTOP _ s1 T root l U RiscvVm.frame_page
      Hok1 Hn1 Hm1) as (s2 & E2 & Hok2 & Hs2).
    { left. unfold RiscvVm.ents, set_ent. by apply leaf_valid. }
    rewrite (bind_ok _ _ _ _ _ E1). exists s2. split_and!; [done| |by eapply same_frames_trans].
    eapply as_ents; [|exact Hok2]. intros n _. unfold RiscvVm.ents, set_ent.
    by repeat destruct (n =? _).
Qed.

(** *** Making and freeing the page table of a process *)

Section Life.
  Context `{HH : Hal} {HAO : ArchOk} (kend PHYSTOP trampoline : Z) (ents : Z -> Z -> Z).
  Context {HV : HalVmOk trampoline ents}.
  Context (kend_pos : 0 < kend) (phystop_56 : PHYSTOP <= 2 ^ 56).
  Context (F : Z -> Prop) (mF : memory).
  Local Abbreviation as_ok := (as_ok kend PHYSTOP F mF).
  Local Abbreviation tables := (gmap (nat * Z) Z).
  Local Abbreviation space := (gmap Z (Z * uperm)).
  Implicit Types s : kmem.

(** An allocator with free list [l], with the pages set aside untouched. *)
Definition free_ok s (l : list Z) : Prop :=
  kinv kend PHYSTOP s l /\
  forall pa, F pa -> page_ok kend PHYSTOP pa /\ pa ∉ l /\ forall a, in_page pa a = true -> km_mem s a = mF a.

(** Nothing of an address space is left over. *)
Lemma proc_freepagetable_run s T root l U tf sz :
  frame tf -> 0 <= sz <= USER_TOP -> as_ok (ents tf) s T root l U ->
  (forall n x, U !! n = Some x -> n < npages sz) ->
  exists s' l', proc_freepagetable kend PHYSTOP root sz s = Ok (tt, s') /\ free_ok s' l' /\
    forall p, p ∈ l' <-> p ∈ l \/ own T U p.
Proof.
  intros Htf Hsz Hok Hin. unfold proc_freepagetable.
  destruct (unmap_trampoline_ok kend PHYSTOP F mF s T root l U tf kend_pos phystop_56 Htf Hok) as (s1 & E1 & Hok1 & _).
  rewrite (bind_ok _ _ _ _ _ E1).
  destruct (uvmfree_run kend PHYSTOP F mF (fun _ => 0) s1 T root l U sz kend_pos phystop_56 Hsz Hok1 Hin)
    as (s2 & l2 & E2 & Hk & Hl & Hm); [intros; apply zero_invalid|].
  exists s2, l2. split_and!; [done|split; [done|]|done].
  intros pa Hpa. destruct (ao_other _ _ _ _ _ _ _ _ _ _ Hok1 pa Hpa) as (Hp & Hnl & Hnt & Hnu & _).
  split_and!; [done| |intros a; by apply Hm]. rewrite Hl. intros [?|[?|(n & f & Hn)]]; [done..|by eapply Hnu].
Qed.

Lemma proc_pagetable_run s l tf : frame tf -> free_ok s l ->
  exists r s', proc_pagetable kend PHYSTOP trampoline tf s = Ok (r, s') /\
    ((r <> 0 /\ exists T l', as_ok (ents tf) s' T r l' ∅ /\ forall p, p ∈ l <-> p ∈ l' \/ own T ∅ p) \/
     (r = 0 /\ exists l', free_ok s' l' /\ forall p, p ∈ l' <-> p ∈ l)).
Proof.
  intros Htf [Hk HF]. unfold proc_pagetable. destruct l as [|p l].
  { pose proof (kalloc_ok kend PHYSTOP kend_pos s [] Hk) as Ek. unfold uvmcreate.
    rewrite bind_assoc, (bind_ok _ _ _ _ _ Ek). exists 0, s. split; [done|]. right. split; [done|].
    exists []. by split. }
  destruct (uvmcreate_run kend PHYSTOP kend_pos F mF (fun _ => 0) s p l Hk HF) as (s1 & E1 & Hok1); [done|].
  assert (p <> 0) as Hp0 by (destruct Hk as (_ & _ & [[_ ?] _]%Forall_cons); lia).
  rewrite (bind_ok _ _ _ _ _ E1), (proj2 (Z.eqb_neq p 0)) by done.
  destruct (map_trampoline_ok kend PHYSTOP F mF s1 _ p l tf kend_pos phystop_56 Htf Hok1)
    as (r & s2 & T2 & l2 & E2 & (_ & new & -> & Ht) & Hr).
  assert (forall q, is_tab T2 q <-> q = p \/ q ∈ new) as Ht2.
  { intros q. rewrite Ht. split; intros [H0|H0]; auto; left.
    - by destruct H0 as [x [_ ->]%lookup_singleton_Some].
    - subst. exists (top, 0). apply lookup_singleton_eq. }
  assert (forall q, own T2 ∅ q <-> q = p \/ q ∈ new) as Ho.
  { intros q. unfold own. rewrite Ht2. split; [intros [?|(n & f & Hn)]; [done|by rewrite lookup_empty in Hn]|auto]. }
  rewrite (bind_ok _ _ _ _ _ E2). destruct Hr as [[-> Hok2]|[Hr Hok2]].
  - exists p, s2. split; [done|]. left. split; [done|]. exists T2, l2. split; [done|].
    intros q. rewrite Ho, elem_of_cons, elem_of_app. tauto.
  - rewrite (proj2 (Z.ltb_lt r 0)) by done.
    pose proof UT_range as [H0 _]. pose proof trapframe_top.
    destruct (uvmfree_run kend PHYSTOP F mF (fun _ => 0) s2 T2 p l2 ∅ 0 kend_pos phystop_56)
      as (s3 & l3 & E3 & Hk3 & Hl3 & Hm3); [unfold USER_TOP; lia|exact Hok2|done|intros; apply zero_invalid|].
    rewrite (bind_ok _ _ _ _ _ E3). exists 0, s3. split; [done|]. right. split; [done|].
    assert (forall q, q ∈ l3 <-> q ∈ p :: new ++ l2) as Hl.
    { intros q. rewrite Hl3, Ht2, elem_of_cons, elem_of_app. split; [|tauto].
      intros [?|[?|(n & f & Hn)]]; [tauto..|by rewrite lookup_empty in Hn]. }
    exists l3. split; [|done]. split; [done|]. intros pa Hpa. destruct (HF pa Hpa) as (? & ? & _).
    split_and!; [done|by rewrite Hl|intros a; by apply Hm3].
Qed.

End Life.
