(* ===== verification/Sysarg.v ===== *)
(** Sysarg: the fetching of system-call arguments in kernel/syscall.c: registers
    from the trapframe, words and strings from user memory. *)

From S2P Require Import Prelude CString Kalloc Locks Arch Vm Hal Proc.

(** Offsets in the trapframe. *)
Definition TF_KERNEL_SATP : Z := 0.
Definition TF_KERNEL_SP : Z := 8.
Definition TF_KERNEL_TRAP : Z := 16.
Definition TF_EPC : Z := 24.
Definition TF_KERNEL_HARTID : Z := 32.
Definition TF_SP : Z := 48.
Definition TF_A1 : Z := 120.
Definition TF_A7 : Z := 168.

Section Args.
  Context {X : Type} `{OpenFiles X} `{Hal}.
  Context (kend PHYSTOP trampoline : Z) (me : nat).
  Local Abbreviation MP := (M (pst X)).

(** [myproc()->trapframe->f], and a store to it. *)
Definition ldtf (off : Z) : MP Z :=
  i <- curproc me ;; p <- getp i ;; onkm (ld64 (p_trapframe p + off)).
Definition sttf (off v : Z) : MP unit :=
  i <- curproc me ;; p <- getp i ;; onkm (st64 (p_trapframe p + off) (u64 v)).

Definition uproc_of (p : proc) : uproc := Uproc (p_pagetable p) (p_sz p).

(** The word at [addr], or [None] for -1. *)
Definition fetchaddr (addr : Z) : MP (option Z) :=
  i <- curproc me ;;
  p <- getp i ;;
  if (addr >=? p_sz p) || (u64 (addr + 8) >? p_sz p) then ret None
  else
    '(ok, b) <- onkm (copyin kend PHYSTOP (uproc_of p) (p_pagetable p) addr 8) ;;
    if (ok : bool) then ret (Some (le_dec b)) else ret None.

(** The result and what is stored in [buf] (when the result is not -1, the
    string with its NUL). *)
Definition fetchstr (addr max : Z) : MP (Z * list Z) :=
  i <- curproc me ;;
  p <- getp i ;;
  '(ok, b) <- onkm (copyinstr (p_pagetable p) addr max) ;;
  if (ok : bool) then ret (strlen b, b) else ret (-1, b).

Definition argraw (n : Z) : MP Z :=
  i <- curproc me ;;
  p <- getp i ;;
  if (0 <=? n) && (n <=? 5) then onkm (ld64 (p_trapframe p + TF_A0 + 8 * n))
  else panic "argraw".

Definition argint (n : Z) : MP Z := v <- argraw n ;; ret (s32 v).
Definition argaddr (n : Z) : MP Z := argraw n.
Definition argstr (n max : Z) : MP (Z * list Z) := addr <- argaddr n ;; fetchstr addr max.

End Args.

(** *** The current process *)

Lemma curproc_eq {X} me (s : pst X) c : ps_cpus s !! me = Some c ->
  curproc me s =
  match Spin.push_off (Spin.St (c_int c) Spin.initlock) with
  | Fault e => Fault e
  | Ok (_, t) =>
      match Spin.pop_off (Spin.St (Spin.st_cpu t) Spin.initlock) with
      | Fault e => Fault e
      | Ok (_, t') =>
          match c_proc c with
          | Some j => Ok (j, set_cpu me (Cpu (Spin.st_cpu t') (c_proc c)) s)
          | None => Fault FNull
          end
      end
  end.
Proof.
  intros Hc. unfold curproc, myproc, oncpu, mycpu, bind. rewrite Hc.
  destruct (Spin.push_off _) as [[u t]|]; [|done].
  set (s1 := set_cpu me (Cpu (Spin.st_cpu t) (c_proc c)) s).
  assert (ps_cpus s1 !! me = Some (Cpu (Spin.st_cpu t) (c_proc c))) as E1.
  { cbn. apply list_lookup_insert_eq. by eapply lookup_lt_Some. }
  rewrite !E1. cbn [c_int c_proc]. destruct (Spin.pop_off _) as [[u' t']|]; [|done].
  unfold ret. destruct (c_proc c); [|done]. do 2 f_equal. unfold s1, set_cpu. cbn. by rewrite list_insert_insert_eq.
Qed.

(** Finding the current process depends on the CPUs only; in a state where
    myproc has run before, it leaves no trace. *)
Lemma curproc_frame {X} me (s s' : pst X) i : curproc me s = Ok (i, s) -> ps_cpus s' = ps_cpus s -> curproc me s' = Ok (i, s').
Proof.
  intros Hc E. destruct (ps_cpus s !! me) as [c|] eqn:Ec.
  2: { unfold curproc, myproc, oncpu, mycpu, bind in Hc. by rewrite Ec in Hc. }
  rewrite (curproc_eq me s c Ec) in Hc. rewrite (curproc_eq me s' c) by (by rewrite E).
  destruct (Spin.push_off _) as [[u t]|]; [|done]. destruct (Spin.pop_off _) as [[u' t']|]; [|done].
  destruct (c_proc c); [|done]. injection Hc as -> Hs. do 2 f_equal.
  destruct s, s'. unfold set_cpu in *. cbn in *. subst. injection Hs as Hs. by rewrite Hs.
Qed.

(** With interrupts off, they stay off. *)
Lemma curproc_inv {X} me (s s' : pst X) i : curproc me s = Ok (i, s') ->
  exists c c', ps_cpus s !! me = Some c /\ c_proc c = Some i /\ s' = set_cpu me (Cpu c' (Some i)) s /\
    (Spin.c_intr (c_int c) = false -> Spin.c_intr c' = false).
Proof.
  intros Hc. destruct (ps_cpus s !! me) as [c|] eqn:Ec.
  2: { unfold curproc, myproc, oncpu, mycpu, bind in Hc. by rewrite Ec in Hc. }
  rewrite (curproc_eq me s c Ec) in Hc. exists c. destruct c as [[noff ena intr] o].
  unfold Spin.push_off, Spin.pop_off in Hc. cbn in Hc.
  destruct (noff + 1 <? 1); [done|]. destruct o as [j|]; [|done]. injection Hc as <- <-.
  eexists. split_and!; [done|done|reflexivity|]. cbn. intros ->. destruct (noff =? 0) eqn:E0.
  - by rewrite andb_false_r.
  - assert (noff + 1 - 1 =? 0 = false) as -> by lia. done.
Qed.
