(* ===== verification/Exec.v ===== *)
(** Exec: kernel/exec.c, which replaces the memory of a process by a program
    read from a file, and sys_exec of kernel/sysfile.c.  The file is reached
    through the interface [ExecFiles] to vfs.c; [argv] is the array of the
    kernel pages that hold the argument strings. *)

From S2P Require Import Prelude CString Kalloc Locks Arch Vm Hal Proc Sysarg.

Definition MAXARG : nat := 32.
Definition MAXPATH : Z := 128.
Definition USERSTACK : Z := 1.
Definition ELF_MAGIC : Z := 0x464C457F.
Definition ELF_PROG_LOAD : Z := 1.

Record elfhdr : Type := Elfhdr { e_magic : Z; e_entry : Z; e_phoff : Z; e_phnum : Z }.
Record proghdr : Type := Proghdr {
  ph_type : Z; ph_flags : Z; ph_off : Z; ph_vaddr : Z; ph_filesz : Z; ph_memsz : Z
}.
Definition sizeof_elfhdr : Z := 64.
Definition sizeof_proghdr : Z := 56.
(** The fields that kexec uses, at their offsets. *)
Definition elf_of (b : list Z) : elfhdr := Elfhdr (rd 4 b 0) (rd 8 b 24) (rd 8 b 32) (rd 2 b 56).
Definition ph_of (b : list Z) : proghdr :=
  Proghdr (rd 4 b 0) (rd 4 b 4) (rd 8 b 8) (rd 8 b 16) (rd 8 b 32) (rd 8 b 40).

(** What kexec calls of vfs.c: the vnode of a path; the result of a read
    into kernel memory, with the bytes it stored there. *)
Class ExecFiles (X : Type) : Type := {
  vfs_namei : list Z -> M X (option nat);
  vfs_read_kernel : nat -> Z -> Z -> M X (Z * list Z)
}.

Definition flags2perm `{Arch} (flags : Z) : Z :=
  let perm := if bits flags 1 then PTE_X else 0 in
  if bits flags 2 then Z.lor perm PTE_W else perm.

Section Exec.
  Context {X : Type} `{OpenFiles X} `{ExecFiles X} `{Hal}.
  Context (kend PHYSTOP trampoline : Z) (me : nat).
  Local Abbreviation MP := (M (pst X)).

(** Bytes stored at a physical address. *)
Definition store_at (pa : Z) (l : list Z) : M kmem unit :=
  modify (fun s => set_mem (put_bytes (km_mem s) pa l) s).

Definition loadseg_body (pagetable va : Z) (vp : nat) (offset sz : Z) (i : Z) : MP (Z + Z) :=
  if negb (i <? sz) then ret (inr 0)
  else
    pa <- onkm (walkaddr pagetable (u64 (va + i))) ;;
    if pa =? 0 then panic "loadseg: address should exist"
    else
      let n := if u32 (sz - i) <? PGSIZE then u32 (sz - i) else PGSIZE in
      '(r, b) <- onx (vfs_read_kernel vp n (u32 (offset + i))) ;;
      onkm (store_at pa b) ;;;
      if negb (u32 r =? n) then ret (inr (-1)) else ret (inl (u32 (i + PGSIZE))).

Definition loadseg (pagetable va : Z) (vp : nat) (offset sz : Z) : MP Z :=
  loop (Z.to_nat (sz / PGSIZE) + 2) (loadseg_body pagetable va vp offset sz) 0.

(** One turn of the loop over the program headers: whether to go on, and sz. *)
Definition load_segment (pagetable : Z) (vp : nat) (sz off : Z) : MP (bool * Z) :=
  '(r, b) <- onx (vfs_read_kernel vp sizeof_proghdr (u32 off)) ;;
  if negb (r =? sizeof_proghdr) then ret (false, sz)
  else
    let ph := ph_of b in
    if negb (ph_type ph =? ELF_PROG_LOAD) then ret (true, sz)
    else if ph_memsz ph <? ph_filesz ph then ret (false, sz)
    else if u64 (ph_vaddr ph + ph_memsz ph) <? ph_vaddr ph then ret (false, sz)
    else if negb (ph_vaddr ph mod PGSIZE =? 0) then ret (false, sz)
    else
      let sz := if ph_vaddr ph >? sz then ph_vaddr ph else sz in
      sz1 <- onkm (uvmalloc kend PHYSTOP pagetable sz (u64 (ph_vaddr ph + ph_memsz ph)) (flags2perm (ph_flags ph))) ;;
      if sz1 =? 0 then ret (false, sz)
      else
        r <- loadseg pagetable (ph_vaddr ph) vp (u32 (ph_off ph)) (u32 (ph_filesz ph)) ;;
        if r <? 0 then ret (false, sz1) else ret (true, sz1).

(** The loop, with [n] headers left; off is an int. *)
Fixpoint load_segments (n : nat) (pagetable : Z) (vp : nat) (sz off : Z) : MP (bool * Z) :=
  match n with
  | O => ret (true, sz)
  | S n' =>
      '(ok, sz) <- load_segment pagetable vp sz off ;;
      if (ok : bool) then load_segments n' pagetable vp sz (s32 (off + sizeof_proghdr))
      else ret (false, sz)
  end.

(** The guard page and the stack above the program. *)
Definition make_stack (pagetable sz : Z) : M kmem (bool * Z) :=
  let sz := pgroundup64 sz in
  sz1 <- uvmalloc kend PHYSTOP pagetable sz (u64 (sz + (USERSTACK + 1) * PGSIZE)) PTE_W ;;
  if sz1 =? 0 then ret (false, sz)
  else uvmclear pagetable (u64 (sz1 - (USERSTACK + 1) * PGSIZE)) ;;; ret (true, sz1).

(** The string at a kernel address, with its NUL. *)
Definition string_at (a : Z) : M kmem (list Z) :=
  '(l, got) <- gets (fun s => scan_nul (km_mem s) a (Z.to_nat PGSIZE)) ;;
  if (got : bool) then ret l else fail FFuel.

(** The next stack pointer for [n] bytes. *)
Definition sp_below (sp n : Z) : Z :=
  let sp := u64 (sp - n) in u64 (sp - sp mod 16).

(** The loop over argv from index [length ustack] on; [None] is bad. *)
Fixpoint push_args (up : uproc) (pagetable stackbase : Z) (argv : list Z) (sp : Z) (ustack : list Z) :
  M kmem (option (Z * list Z)) :=
  match argv with
  | [] => fail FBounds
  | a :: argv' =>
      if a =? 0 then ret (Some (sp, ustack))
      else if (MAXARG <=? length ustack)%nat then ret None
      else
        str <- string_at a ;;
        let sp := sp_below sp (zlen str) in
        if sp <? stackbase then ret None
        else
          ok <- copyout kend PHYSTOP up pagetable sp str ;;
          if negb ok then ret None
          else push_args up pagetable stackbase argv' sp (ustack ++ [sp])
  end.

(** The array of argument pointers; the result is the final sp and argc. *)
Definition push_ustack (up : uproc) (pagetable stackbase sp : Z) (ustack : list Z) : M kmem (option (Z * Z)) :=
  if (MAXARG <=? length ustack)%nat then fail FBounds
  else
    let argc := zlen ustack in
    let sp := sp_below sp ((argc + 1) * 8) in
    if sp <? stackbase then ret None
    else
      ok <- copyout kend PHYSTOP up pagetable sp (concat (le_enc 8 <$> (ustack ++ [0]))) ;;
      if negb ok then ret None else ret (Some (sp, argc)).

Definition push_all (up : uproc) (pagetable sz : Z) (argv : list Z) : M kmem (option (Z * Z)) :=
  let stackbase := u64 (sz - USERSTACK * PGSIZE) in
  r <- push_args up pagetable stackbase argv sz [] ;;
  match r with
  | None => ret None
  | Some (sp, ustack) => push_ustack up pagetable stackbase sp ustack
  end.

(** The part of a path behind its last '/'. *)
Fixpoint last_elem (last s : list Z) : list Z :=
  match s with
  | [] => last
  | c :: s' => last_elem (if c =? 47 then s' else last) s'
  end.

(** The label bad. *)
Definition exec_bad (pagetable sz : Z) (vp : option nat) : MP Z :=
  when (negb (pagetable =? 0)) (onkm (proc_freepagetable kend PHYSTOP pagetable sz)) ;;;
  match vp with Some v => onx (vput v) | None => ret tt end ;;;
  ret (-1).

(** The end of kexec: the process gets the new image. *)
Definition exec_commit (i : nat) (path : list Z) (pagetable sz entry sp argc oldsz : Z) : MP Z :=
  p <- getp i ;;
  onkm (st64 (p_trapframe p + TF_A1) sp) ;;;
  updp i (fun p => set_name (safestrcpy (p_name p) (last_elem (cstr path) (cstr path) ++ [0]) 16) p) ;;;
  p <- getp i ;;
  let oldpagetable := p_pagetable p in
  updp i (fun p => set_mm sz pagetable (p_trapframe p) p) ;;;
  onkm (st64 (p_trapframe p + TF_EPC) entry) ;;;
  onkm (st64 (p_trapframe p + TF_SP) sp) ;;;
  onkm (proc_freepagetable kend PHYSTOP oldpagetable oldsz) ;;;
  ret (s32 argc).

(** kexec from the new page table on. *)
Definition exec_image (i : nat) (path argv : list Z) (vp : nat) (elf : elfhdr) (pagetable : Z) : MP Z :=
  '(ok, sz) <- load_segments (Z.to_nat (e_phnum elf)) pagetable vp 0 (s32 (e_phoff elf)) ;;
  if negb ok then exec_bad pagetable sz (Some vp)
  else
    onx (vput vp) ;;;
    p <- getp i ;;
    let oldsz := p_sz p in
    '(ok, sz) <- onkm (make_stack pagetable sz) ;;
    if negb ok then exec_bad pagetable sz None
    else
      r <- onkm (push_all (uproc_of p) pagetable sz argv) ;;
      match r with
      | None => exec_bad pagetable sz None
      | Some (sp, argc) => exec_commit i path pagetable sz (e_entry elf) sp argc oldsz
      end.

Definition kexec (path argv : list Z) : MP Z :=
  i <- curproc me ;;
  o <- onx (vfs_namei path) ;;
  match o with
  | None => ret (-1)
  | Some vp =>
      '(r, b) <- onx (vfs_read_kernel vp sizeof_elfhdr 0) ;;
      if negb (r =? sizeof_elfhdr) then exec_bad 0 0 (Some vp)
      else
        let elf := elf_of b in
        if negb (e_magic elf =? ELF_MAGIC) then exec_bad 0 0 (Some vp)
        else
          p <- getp i ;;
          pagetable <- onkm (proc_pagetable kend PHYSTOP trampoline (p_trapframe p)) ;;
          if pagetable =? 0 then exec_bad 0 0 (Some vp)
          else exec_image i path argv vp elf pagetable
  end.

(** *** sys_exec *)

(** The loops that free the argument pages. *)
Definition free_args (argv : list Z) : MP unit :=
  for_each argv (fun a => onkm (kfree kend PHYSTOP a)).

(** The loop that fetches the arguments; [argv] holds the pages so far.  The
    result is the pages to free, and whether the end of the array was found. *)
Fixpoint fetch_args (n : nat) (uargv i : Z) (argv : list Z) : MP (bool * list Z) :=
  match n with
  | O => ret (false, argv)
  | S n' =>
      o <- fetchaddr kend PHYSTOP me (u64 (uargv + 8 * i)) ;;
      match o with
      | None => ret (false, argv)
      | Some uarg =>
          if uarg =? 0 then ret (true, argv)
          else
            a <- onkm kalloc ;;
            if a =? 0 then ret (false, argv)
            else
              '(r, b) <- fetchstr me uarg PGSIZE ;;
              onkm (store_at a b) ;;;
              if r <? 0 then ret (false, argv ++ [a])
              else fetch_args n' uargv (i + 1) (argv ++ [a])
      end
  end.

Definition sys_exec : MP Z :=
  uargv <- argaddr me 1 ;;
  '(r, path) <- argstr me 0 MAXPATH ;;
  if r <? 0 then ret (-1)
  else
    '(ok, argv) <- fetch_args MAXARG uargv 0 [] ;;
    if negb ok then free_args argv ;;; ret (-1)
    else
      v <- kexec path (argv ++ replicate (MAXARG - length argv) 0) ;;
      free_args argv ;;;
      ret v.

End Exec.
