(* ===== verification/ExecStack.v ===== *)
(** ExecStack: the user stack that kexec prepares: the guard page, the
    argument strings and the array of pointers to them. *)

From S2P Require Import Prelude CString Kalloc Arch Vm VmTable VmSpace VmUser VmFork Hal Proc Sysarg Exec.

Section Stack.
  Context {HA : Arch} {HAO : ArchOk} (kend PHYSTOP : Z).
  Context (kend_pos : 0 < kend) (phystop_56 : PHYSTOP <= 2 ^ 56).
  Context (F : Z -> Prop) (mF : memory) (sysent : Z -> Z) (root : Z).
  Local Abbreviation tables := (gmap (nat * Z) Z).
  Local Abbreviation space := (gmap Z (Z * uperm)).
  Local Abbreviation as_ok := (as_ok kend PHYSTOP F mF sysent).
  Implicit Types s : kmem.

(** *** uvmclear *)

Definition no_user (f : uperm) : uperm := Uperm (pr f) (pw f) (px f) false.

(** Changing the permissions of a page. *)
Lemma as_chmod s T l U n pa f f' pt :
  as_ok s T root l U -> U !! n = Some (pa, f) -> T !! (0%nat, idx 1 (n * PGSIZE)) = Some pt ->
  let s' := set_mem (store64 (km_mem s) (pt + 8 * PX 0 (n * PGSIZE)) (leaf_of (pa, f'))) s in
  as_ok s' T root l (<[n := (pa, f')]> U) /\ same_frames U s s'.
Proof.
  intros Hok Hn Hpt s'. pose proof (ao_dom _ _ _ _ _ _ _ _ _ _ Hok _ _ Hn) as Hnr.
  destruct (ao_page _ _ _ _ _ _ _ _ _ _ Hok n pa f Hn) as (Hp & Hpl & Hpnt).
  assert (frame pa) as Hfr by (by apply (page_frame kend PHYSTOP)).
  destruct (as_store kend PHYSTOP F mF sysent s T root l U n pt (leaf_of (pa, f')) Hok Hnr Hpt) as (Hvm & Hs & Hm & Hpte);
    [by apply leaf_range|]. fold s' in Hvm, Hs, Hm, Hpte. split; [|done].
  destruct Hok as [A1 A2 A3 A4 A5 A6 A7 A8 A9]. constructor; try done.
  - intros k e [[<- _]|[_ Hk]]%lookup_insert_Some; [done|by eapply A2].
  - intros k e [[<- <-]|[Hne Hk]]%lookup_insert_Some; rewrite Hpte.
    + by rewrite Z.eqb_refl.
    + rewrite (proj2 (Z.eqb_neq k n)) by done. by apply A3.
  - intros k Hk [Hno Hne]%lookup_insert_None. rewrite Hpte, (proj2 (Z.eqb_neq k n)) by done. by apply A4.
  - intros k q g [[<- [= <- <-]]|[_ Hk]]%lookup_insert_Some; [done|by eapply A5].
  - intros k k' q g g' [[<- E1]|[Hne Hk]]%lookup_insert_Some [[<- E2]|[Hne' Hk']]%lookup_insert_Some;
      simplify_eq; try done; by eapply A6.
  - intros k Hk. rewrite Hpte, (proj2 (Z.eqb_neq k n)) by lia. by apply A7.
  - intros q HF. destruct (A8 q HF) as (? & ? & ? & Hu & Hc). split_and!; try done.
    + intros k g [[<- E1]|[_ Hk]]%lookup_insert_Some; simplify_eq; by eapply Hu.
    + intros a Ha. rewrite (Hm q) by done. by apply Hc.
Qed.

Lemma uvmclear_run s T l U n pa f : as_ok s T root l U -> U !! n = Some (pa, f) ->
  exists s', uvmclear root (n * PGSIZE) s = Ok (tt, s') /\
    as_ok s' T root l (<[n := (pa, no_user f)]> U) /\ same_frames U s s'.
Proof.
  intros Hok Hn. pose proof (ao_dom _ _ _ _ _ _ _ _ _ _ Hok _ _ Hn) as Hnr. unfold uvmclear.
  destruct (walk_entry kend PHYSTOP kend_pos phystop_56 F mF sysent s T root l U n Hok Hnr) as (a & Ew & Ha).
  rewrite Hn in Ha. destruct Ha as (Ha0 & Hl & pt & Hpt & ->).
  rewrite (bind_ok _ _ _ _ _ Ew), (proj2 (Z.eqb_neq _ 0)) by done.
  unfold ld64, gets. rewrite (bind_ok _ _ s _ s) by reflexivity. rewrite Hl.
  destruct (ao_page _ _ _ _ _ _ _ _ _ _ Hok n pa f Hn) as (Hp & _ & _).
  assert (frame pa) as Hfr by (by apply (page_frame kend PHYSTOP)). unfold leaf_of, perm_bits. cbn [fst snd].
  rewrite leaf_clear_u by done. eexists. split; [done|]. by apply (as_chmod s T l U n pa f (no_user f) pt).
Qed.

(** *** copyout to mapped pages *)

(** Neither the process nor the allocator matter then. *)
Lemma copyout_mapped up fuel : forall src a s T l U,
  as_ok s T root l U -> 0 <= a -> (length src < fuel)%nat ->
  (forall va, a <= va < a + zlen src -> writable U va) ->
  exists s', loop fuel (copyout_body kend PHYSTOP up root) (a, src) s = Ok (true, s') /\
    as_ok s' T root l U /\
    forall va, 0 <= va -> ub s' U va = patched a src (zlen src) va (ub s U va).
Proof.
  induction fuel as [|fuel IH]; intros src a s T l U Hok Ha Hf Hw; [lia|]. cbn [loop].
  unfold copyout_body at 1. destruct src as [|c src'].
  { exists s. cbn. split_and!; try done. intros va Hva. unfold patched, zlen; cbn [length]. by destruct (_ && _) eqn:E; [lia|]. }
  set (src := c :: src') in *. assert (0 < zlen src) as Hlen by (unfold zlen; cbn; lia).
  destruct (page_split a Ha) as (Epg & Hn & Hoff). rewrite Epg. set (n := a / PGSIZE) in *.
  destruct (Hw a ltac:(lia)) as (pa & f & Hu & Hpu & Hpw). fold n in Hu.
  pose proof (ao_dom _ _ _ _ _ _ _ _ _ _ Hok _ _ Hu) as Hnr.
  assert (n * PGSIZE < MAXVA) as Hva by (pose proof UT_range; unfold PGSIZE in *; lia).
  destruct (ao_page _ _ _ _ _ _ _ _ _ _ Hok n pa f Hu) as (Hp & _ & _).
  assert (user_page kend PHYSTOP up root (n * PGSIZE) s = Ok (pa, s)) as E1.
  { unfold user_page. assert (n * PGSIZE >=? MAXVA = false) as -> by lia.
    rewrite (bind_ok _ _ _ _ _ (walkaddr_run kend PHYSTOP kend_pos phystop_56 F mF sysent root s T l U n Hok Hn Hva)).
    rewrite Hu, Hpu. rewrite (proj2 (Z.eqb_neq pa 0)) by (destruct Hp; lia). done. }
  rewrite bind_assoc, (bind_ok _ _ _ _ _ E1), (proj2 (Z.eqb_neq pa 0)) by (destruct Hp; lia).
  destruct (walk_entry kend PHYSTOP kend_pos phystop_56 F mF sysent s T root l U n Hok Hnr) as (x & Ew & Hx).
  rewrite Hu in Hx. destruct Hx as (Hx0 & Hlx & _).
  rewrite bind_assoc, (bind_ok _ _ _ _ _ Ew), (proj2 (Z.eqb_neq x 0)) by done.
  unfold ld64, gets. rewrite bind_assoc, (bind_ok _ _ s _ s) by reflexivity. rewrite Hlx.
  assert (frame pa) as Hfr by (by apply (page_frame kend PHYSTOP)). unfold leaf_of, perm_bits. cbn [fst snd].
  rewrite leaf_w, Hpw by done. cbn [negb].
  set (m := Z.min (PGSIZE - (a - n * PGSIZE)) (zlen src)). assert (0 < m <= zlen src) as Hmr by (unfold m; lia).
  assert (zlen (take (Z.to_nat m) src) = m) as Hzm by (unfold zlen in *; rewrite length_take; lia).
  destruct (frame_store kend PHYSTOP F mF sysent root s T l U n pa f (a - n * PGSIZE) (take (Z.to_nat m) src) Hok Hu)
    as [Hok1 Hub1]; [lia|rewrite Hzm; unfold m; lia|].
  unfold modify. rewrite bind_assoc, (bind_ok _ _ s tt _) by reflexivity.
  set (s1 := set_mem _ s) in *. rewrite ret_bind, (u64_va n Hnr).
  assert (m < zlen src -> (n + 1) * PGSIZE = a + m) as Hnext by (unfold m; lia).
  assert (zlen (drop (Z.to_nat m) src) = zlen src - m) as Hzd by (unfold zlen in *; rewrite length_drop; lia).
  destruct (IH (drop (Z.to_nat m) src) ((n + 1) * PGSIZE) s1 T l U) as (s' & E & Hok' & Hub'); [done|lia| | |].
  { unfold zlen in *. rewrite length_drop. lia. }
  { intros va Hv. rewrite Hzd in Hv. apply Hw. destruct (decide (m < zlen src)) as [Hlt|]; [|lia].
    rewrite Hnext in Hv by done. lia. }
  exists s'. split_and!; [done|done|]. intros va Hv. rewrite Hub', Hub1, Hzm, Hzd by done.
  replace (n * PGSIZE + (a - n * PGSIZE)) with a by lia.
  assert (forall old, patched a (take (Z.to_nat m) src) m va old = patched a src m va old) as ->.
  { intros old. unfold patched. destruct (_ && _) eqn:E0; [|done]. unfold getz. rewrite lookup_take_lt; [done|lia]. }
  destruct (decide (m < zlen src)) as [Hlt|Hge].
  - rewrite Hnext, patched_comp by (done || lia). f_equal. lia.
  - replace (zlen src - m) with 0 by lia. unfold patched at 1. destruct (_ && _) eqn:E0; [lia|].
    f_equal. lia.
Qed.

(** *** The arguments *)

(** The string [str], with its NUL, in user memory at [p]. *)
Definition holds_at s (U : space) (p : Z) (str : list Z) : Prop :=
  forall k, 0 <= k < zlen str -> ub s U (p + k) = getz str k.

Lemma holds_at_ext s s' U p str :
  holds_at s U p str -> (forall va, p <= va < p + zlen str -> ub s' U va = ub s U va) -> holds_at s' U p str.
Proof. intros Hh He k Hk. rewrite He by lia. by apply Hh. Qed.

Lemma holds_at_patched s s' U p str : 0 <= p ->
  (forall va, 0 <= va -> ub s' U va = patched p str (zlen str) va (ub s U va)) -> holds_at s' U p str.
Proof.
  intros Hp Hub k Hk. rewrite Hub by lia. unfold patched. destruct (_ && _) eqn:E; [|lia]. f_equal. lia.
Qed.

Lemma scan_nul_ext n : forall m m' a, (forall x, a <= x < a + Z.of_nat n -> m' x = m x) -> scan_nul m' a n = scan_nul m a n.
Proof.
  induction n as [|n IH]; intros m m' a Hm; cbn [scan_nul]; [done|].
  rewrite Hm by lia. destruct (m a =? 0); [done|]. rewrite (IH m m'); [done|]. intros x Hx. apply Hm. lia.
Qed.

Lemma scan_nul_length n : forall m a l, scan_nul m a n = (l, true) -> 1 <= zlen l <= Z.of_nat n.
Proof.
  induction n as [|n IH]; intros m a l; cbn [scan_nul]; [done|].
  destruct (m a =? 0); [intros [= <-]; unfold zlen; cbn; lia|].
  destruct (scan_nul m (a + 1) n) as [l' got] eqn:E. intros [= <- ->]. apply IH in E.
  unfold zlen in *. cbn. lia.
Qed.

(** A page of the kernel that holds an argument string. *)
Definition arg_at (a : Z) (str : list Z) : Prop :=
  a <> 0 /\ F a /\ scan_nul mF a (Z.to_nat PGSIZE) = (str, true).

Lemma string_at_run s T l U a str : as_ok s T root l U -> arg_at a str -> string_at a s = Ok (str, s).
Proof.
  intros Hok (_ & HF & Hs). unfold string_at, gets. rewrite (bind_ok _ _ s _ s) by reflexivity.
  rewrite (scan_nul_ext _ mF), Hs; [done|]. intros x Hx.
  apply (ao_other _ _ _ _ _ _ _ _ _ _ Hok a HF). unfold in_page, PGSIZE in *. lia.
Qed.

Lemma sp_below_small sp n : 0 <= n <= sp -> sp < 2 ^ 64 ->
  0 <= sp_below sp n <= sp - n /\ sp_below sp n mod 16 = 0.
Proof.
  intros Hn Hs. unfold sp_below, u64. rewrite (Z.mod_small (sp - n)) by lia.
  pose proof (Z.mod_pos_bound (sp - n) 16 ltac:(lia)). pose proof (Z.mod_le (sp - n) 16 ltac:(lia) ltac:(lia)).
  rewrite Z.mod_small by lia. split; [lia|]. dlia.
Qed.

Context (up : uproc) (sz : Z) (Hsz : 2 * PGSIZE <= sz <= USER_TOP).
Local Abbreviation stackbase := (sz - PGSIZE).

(** The stack of [U] is mapped. *)
Definition stack_ok (U : space) : Prop := forall va, stackbase <= va < sz -> writable U va.

Lemma sz_64 : sz < 2 ^ 64.
Proof. pose proof trapframe_top. pose proof maxva_int. unfold USER_TOP in Hsz. lia. Qed.

(** One push on the stack. *)
Lemma push_run s T l U sp src : as_ok s T root l U -> stack_ok U ->
  stackbase <= sp_below sp (zlen src) -> sp <= sz -> 0 <= zlen src <= sp ->
  exists s', copyout kend PHYSTOP up root (sp_below sp (zlen src)) src s = Ok (true, s') /\ as_ok s' T root l U /\
    holds_at s' U (sp_below sp (zlen src)) src /\
    forall va, 0 <= va -> va < sp_below sp (zlen src) \/ sp <= va -> ub s' U va = ub s U va.
Proof.
  intros Hok Hst Hb Hsp Hl. pose proof sz_64. destruct (sp_below_small sp (zlen src) ltac:(lia) ltac:(lia)) as [Hr _].
  set (p := sp_below sp (zlen src)) in *.
  destruct (copyout_mapped up (length src + 1) src p s T l U Hok) as (s' & E & Hok' & Hub); [lia|lia| |].
  { intros va Hva. apply Hst. lia. }
  exists s'. split_and!; [done|done|by apply (holds_at_patched s); [lia|]|].
  intros va Hva Hout. rewrite Hub by done. unfold patched. destruct (_ && _) eqn:E0; [lia|done].
Qed.

Lemma push_args_run T l U rest : stack_ok U -> forall args strs sp ustack s,
  as_ok s T root l U -> Forall2 arg_at args strs -> stackbase <= sp <= sz ->
  exists r s', push_args kend PHYSTOP up root stackbase (args ++ 0 :: rest) sp ustack s = Ok (r, s') /\
    as_ok s' T root l U /\
    (forall va, 0 <= va -> va < stackbase \/ sp <= va -> ub s' U va = ub s U va) /\
    match r with
    | None => True
    | Some (sp', us) => stackbase <= sp' <= sp /\ exists ps, us = ustack ++ ps /\
        Forall2 (fun p str => sp' <= p /\ p + zlen str <= sp /\ holds_at s' U p str) ps strs
    end.
Proof.
  intros Hst. induction args as [|a args IH]; intros strs sp ustack s Hok Ha Hsp;
    inversion Ha as [|? str ? strs' Hstr Hargs]; subst; cbn [app push_args].
  { exists (Some (sp, ustack)), s. split_and!; [done..|lia|lia|]. exists []. by rewrite app_nil_r. }
  destruct Hstr as (Ha0 & HF & Hscan). rewrite (proj2 (Z.eqb_neq a 0)) by done.
  destruct (MAXARG <=? length ustack)%nat eqn:Em; [by exists None, s|].
  rewrite (bind_ok _ _ _ _ _ (string_at_run s T l U a str Hok ltac:(done))).
  apply scan_nul_length in Hscan as Hl. pose proof sz_64.
  destruct (sp_below sp (zlen str) <? stackbase) eqn:Eb; [by exists None, s|].
  destruct (push_run s T l U sp str Hok Hst) as (s1 & E1 & Hok1 & Hh1 & Hub1); [lia|lia|unfold PGSIZE in *; lia|].
  destruct (sp_below_small sp (zlen str)) as [Hr _]; [unfold PGSIZE in *; lia|lia|].
  set (p := sp_below sp (zlen str)) in *.
  rewrite (bind_ok _ _ _ _ _ E1). cbn [negb].
  destruct (IH strs' p (ustack ++ [p]) s1 Hok1 Hargs ltac:(lia)) as (r & s' & E & Hok' & Hub' & Hr').
  exists r, s'. split_and!; [done|done| |].
  { intros va Hva Hout. rewrite Hub' by lia. apply Hub1; lia. }
  destruct r as [[sp' us]|]; [|done]. destruct Hr' as (Hsp' & ps & -> & Hps).
  split; [lia|]. exists (p :: ps). rewrite <-app_assoc. split; [done|]. constructor.
  - split_and!; [lia|lia|]. eapply holds_at_ext; [exact Hh1|]. intros va Hva. apply Hub'; lia.
  - eapply Forall2_impl; [exact Hps|]. intros q st (? & ? & ?). split_and!; [done|lia|done].
Qed.

(** The whole stack: the strings, and below them the array of their addresses. *)
Definition args_at s (U : space) (sp : Z) (strs : list (list Z)) : Prop :=
  sp mod 16 = 0 /\ stackbase <= sp <= sz /\
  exists ps, holds_at s U sp (concat (le_enc 8 <$> (ps ++ [0]))) /\
    Forall2 (fun p str => sp < p /\ p + zlen str <= sz /\ holds_at s U p str) ps strs.

Lemma zlen_ustack ps : zlen (concat (le_enc 8 <$> (ps ++ [0]))) = (zlen ps + 1) * 8.
Proof.
  clear. unfold zlen. induction ps as [|p ps IH]; [done|].
  cbn [app]. rewrite fmap_cons. cbn [concat]. rewrite length_app, length_le_enc. cbn [length]. lia.
Qed.

Lemma push_all_run s T l U args strs rest : as_ok s T root l U -> stack_ok U ->
  Forall2 arg_at args strs -> (length args < MAXARG)%nat ->
  exists r s', push_all kend PHYSTOP up root sz (args ++ 0 :: rest) s = Ok (r, s') /\ as_ok s' T root l U /\
    (forall va, 0 <= va < stackbase -> ub s' U va = ub s U va) /\
    match r with
    | None => True
    | Some (sp, argc) => argc = zlen args /\ args_at s' U sp strs
    end.
Proof.
  intros Hok Hst Ha Hlen. unfold push_all, USERSTACK. pose proof sz_64. rewrite Z.mul_1_l.
  replace (u64 (sz - PGSIZE)) with stackbase by (unfold u64; rewrite Z.mod_small; unfold PGSIZE in *; lia).
  destruct (push_args_run T l U rest Hst args strs sz [] s Hok Ha) as (r & s1 & E1 & Hok1 & Hub1 & Hr);
    [unfold PGSIZE; lia|].
  rewrite (bind_ok _ _ _ _ _ E1). destruct r as [[sp us]|].
  2: { exists None, s1. split_and!; [done|done| |done]. intros va Hva. apply Hub1; lia. }
  destruct Hr as (Hsp & ps & -> & Hps). cbn [app].
  assert (length ps = length args) as Elen by (apply Forall2_length in Hps, Ha; lia).
  unfold push_ustack. rewrite (proj2 (Nat.leb_gt _ _)) by lia.
  assert (0 <= zlen ps /\ (zlen ps + 1) * 8 <= 256) as Hz by (unfold MAXARG, zlen in *; lia).
  pose proof (zlen_ustack ps) as Ez. rewrite <-Ez.
  destruct (sp_below sp _ <? stackbase) eqn:Eb.
  { exists None, s1. split_and!; [done|done| |done]. intros va Hva. apply Hub1; lia. }
  destruct (push_run s1 T l U sp (concat (le_enc 8 <$> (ps ++ [0]))) Hok1 Hst) as (s2 & E2 & Hok2 & Hh2 & Hub2);
    [lia|lia|unfold PGSIZE in *; lia|].
  destruct (sp_below_small sp (zlen (concat (le_enc 8 <$> (ps ++ [0]))))) as [Hr Hm]; [unfold PGSIZE in *; lia|lia|].
  rewrite (bind_ok _ _ _ _ _ E2). cbn [negb]. eexists (Some (_, zlen ps)), s2. split; [done|]. split_and!; [done| | |].
  - intros va Hva. rewrite Hub2, Hub1 by lia. done.
  - unfold zlen. by rewrite Elen.
  - split_and!; [done|lia|lia|]. exists ps. split; [done|]. eapply Forall2_impl; [exact Hps|].
    intros q st (? & ? & ?). split_and!; [lia|lia|]. eapply holds_at_ext; [done|].
    intros va Hva. apply Hub2; lia.
Qed.

End Stack.
