(* ===== verification/ExecImage.v ===== *)
(** ExecImage: the address space that kexec builds.  The image of a program is
    a function from addresses to bytes, computed from the file alone; loading
    the segments and making the stack either produce it or leave an address
    space that can be freed, and no page is lost on the way. *)

From S2P Require Import Prelude CString Kalloc Arch Vm VmTable VmSpace VmUser VmFork VmFree Hal Proc Sysarg VmSys Exec ExecStack.

Section Build.
  Context {HA : Arch} {HAO : ArchOk} (kend PHYSTOP : Z).
  Context (kend_pos : 0 < kend) (phystop_56 : PHYSTOP <= 2 ^ 56).
  Context (F : Z -> Prop) (mF : memory) (sysent : Z -> Z) (root : Z).
  Local Abbreviation tables := (gmap (nat * Z) Z).
  Local Abbreviation space := (gmap Z (Z * uperm)).
  Local Abbreviation as_ok := (as_ok kend PHYSTOP F mF sysent).
  (** The pages that were free when the page table did not exist. *)
  Context (l0 : list Z).
  Implicit Types s : kmem.

(** An address space under construction, of size [sz], with contents [base]. *)
Record img_ok (s : kmem) (T : tables) (l : list Z) (U : space) (sz : Z) (base : Z -> Z) : Prop := Img_ok {
  im_as : as_ok s T root l U;
  im_sz : 0 <= sz <= USER_TOP;
  im_dom : forall n x, U !! n = Some x -> n < npages sz;
  im_ub : forall va, 0 <= va -> ub s U va = base va;
  im_pages : forall p, p ∈ l0 <-> p ∈ l \/ own T U p
}.

Lemma img_size s T l U sz sz' base : img_ok s T l U sz base -> sz <= sz' <= USER_TOP -> img_ok s T l U sz' base.
Proof.
  intros [I1 I2 I3 I4 I5] Hs. constructor; try done; [lia|].
  intros n x Hx. pose proof (npages_le sz sz' ltac:(lia)). specialize (I3 n x Hx). lia.
Qed.

(** The same frames in the same places with other contents. *)
Lemma img_contents s s' T l U sz base base' : img_ok s T l U sz base -> as_ok s' T root l U ->
  (forall va, 0 <= va -> ub s' U va = base' va) -> img_ok s' T l U sz base'.
Proof. intros [I1 I2 I3 I4 I5] Hok Hub. by constructor. Qed.

Lemma img_ext s T l U sz base base' : img_ok s T l U sz base -> (forall a, 0 <= a -> base' a = base a) ->
  img_ok s T l U sz base'.
Proof. intros [I1 I2 I3 I4 I5] Hb. constructor; try done. intros va Hva. by rewrite Hb, I4. Qed.

(** Growth with empty pages. *)
Lemma grow_image s T l U sz base oldsz newsz f xperm :
  img_ok s T l U sz base -> Z.lor (Z.lor PTE_R PTE_U) xperm = perm_bits f ->
  sz <= oldsz <= newsz -> newsz <= USER_TOP ->
  exists r s' T' l' U', uvmalloc kend PHYSTOP root oldsz newsz xperm s = Ok (r, s') /\
    ((r = newsz /\ img_ok s' T' l' U' newsz base /\
      (forall i, npages oldsz <= i < npages newsz -> exists pa, U' !! i = Some (pa, f))) \/
     (r = 0 /\ img_ok s' T' l' U' oldsz base)).
Proof.
  intros [I1 I2 I3 I4 I5] Hp Ho Hn. pose proof (npages_le sz oldsz ltac:(lia)) as Hle.
  pose proof (npages_le oldsz newsz ltac:(lia)) as Hle2.
  assert (forall i, npages oldsz <= i < npages newsz -> U !! i = None) as Hno.
  { intros i Hi. destruct (U !! i) as [x|] eqn:Ex; [|done]. apply I3 in Ex. lia. }
  destruct (uvmalloc_run kend PHYSTOP kend_pos phystop_56 F mF sysent s T root l U oldsz newsz f xperm I1 Hp
    ltac:(lia) Hn Hno) as (r & s' & T' & l' & U' & tabs & E & [_ Ht] & Hok & Hs & Hr).
  exists r, s', T', l', U'. split; [done|].
  destruct Hr as [(-> & [Hg1 Hg2] & Hl)|(-> & -> & Hl)]; [left; split_and!; [done| |]|right; split; [done|]].
  - constructor; [done|lia| | |].
    + intros n x Hx. destruct (decide (npages oldsz <= n < npages newsz)) as [|Hout]; [lia|].
      rewrite Hg2 in Hx by lia. apply I3 in Hx. lia.
    + intros va Hva. rewrite <-I4 by done. unfold ub.
      destruct (decide (npages oldsz <= va / PGSIZE < npages newsz)) as [Hin|Hout].
      * rewrite Hno by done. destruct (Hg1 (va / PGSIZE)) as (pa & -> & Hz); [lia|].
        apply Hz. pose proof (Z.mod_pos_bound va PGSIZE ltac:(done)). unfold in_page, PGSIZE in *. lia.
      * rewrite Hg2 by lia. destruct (U !! (va / PGSIZE)) as [[pa g]|] eqn:Eu; [|done].
        apply (Hs _ _ _ _ Eu). pose proof (Z.mod_pos_bound va PGSIZE ltac:(done)). unfold in_page, PGSIZE in *. lia.
    + intros p. rewrite I5, Hl, !elem_of_app. unfold own. rewrite Ht, elem_of_frames. split.
      * intros [[?|[(n & g & ? & ?)|?]]|[?|(n & g & Hx)]]; [tauto|eauto 10|tauto|tauto|].
        right. right. exists n, g. rewrite Hg2; [done|]. apply I3 in Hx. lia.
      * intros [?|[[?|?]|(n & g & Hx)]]; [tauto..|].
        destruct (decide (npages oldsz <= n < npages newsz)) as [Hin|Hout].
        -- left. right. left. exists n, g. split; [lia|done].
        -- right. right. exists n, g. by rewrite Hg2 in Hx by lia.
  - intros i Hi. destruct (Hg1 i) as (pa & Hx & _); [lia|]. eauto.
  - constructor; [done|lia| | |].
    + intros n x Hx. apply I3 in Hx. lia.
    + intros va Hva. rewrite <-I4 by done. by apply ub_same.
    + intros p. rewrite I5, Hl, elem_of_app. unfold own. rewrite Ht. tauto.
Qed.

(** Permissions of a page do not matter for what it holds. *)
Lemma img_chmod s s' T l U sz base n pa f f' : img_ok s T l U sz base -> U !! n = Some (pa, f) ->
  as_ok s' T root l (<[n := (pa, f')]> U) -> same_frames U s s' ->
  img_ok s' T l (<[n := (pa, f')]> U) sz base.
Proof.
  intros [I1 I2 I3 I4 I5] Hn Hok Hs. constructor; try done.
  - intros k x [[<- _]|[_ Hk]]%lookup_insert_Some; by eapply I3.
  - intros va Hva. rewrite <-I4, <-(ub_same s s' U) by done. unfold ub.
    destruct (decide (va / PGSIZE = n)) as [->|Hne]; [by rewrite lookup_insert_eq, Hn|by rewrite lookup_insert_ne].
  - intros p. rewrite I5. unfold own. split; (intros [?|[?|(k & g & Hk)]]; [tauto..|]); right; right.
    + destruct (decide (k = n)) as [->|Hne].
      * rewrite Hn in Hk. injection Hk as -> ->. exists n, f'. apply lookup_insert_eq.
      * exists k, g. by rewrite lookup_insert_ne.
    + apply lookup_insert_Some in Hk as [[<- [= <- _]]|[_ Hk]]; eauto.
Qed.

Lemma flags2perm_bits flags :
  Z.lor (Z.lor PTE_R PTE_U) (flags2perm flags) = perm_bits (Uperm true (bits flags 2) (bits flags 1) true).
Proof.
  clear. unfold flags2perm, perm_bits, mk_perm. cbn [pr pw px pu]. apply Z.bits_inj'. intros i _.
  destruct (bits flags 2), (bits flags 1); rewrite ?Z.lor_spec, ?Z.bits_0;
    destruct (Z.testbit PTE_R i), (Z.testbit PTE_W i), (Z.testbit PTE_X i), (Z.testbit PTE_U i); done.
Qed.

Lemma pgroundup_page sz : 0 <= sz <= USER_TOP -> pgroundup64 sz = npages sz * PGSIZE /\ sz <= npages sz * PGSIZE.
Proof.
  clear - HAO. intros Hs. pose proof trapframe_top. unfold USER_TOP in Hs. split; [apply pgroundup64_npages; lia|].
  unfold npages, PGSIZE. dlia.
Qed.

(** The guard page and the stack. *)
Lemma make_stack_run s T l U sz base : img_ok s T l U sz base -> pgroundup64 sz + 2 * PGSIZE <= USER_TOP ->
  exists ok sz' s' T' l' U', make_stack kend PHYSTOP root sz s = Ok ((ok, sz'), s') /\
    img_ok s' T' l' U' sz' base /\
    (ok = true -> sz' = pgroundup64 sz + 2 * PGSIZE /\ stack_ok sz' U' /\
       exists pa f, U' !! npages sz = Some (pa, f) /\ pu f = false).
Proof.
  intros Hi Htop. destruct (pgroundup_page sz (im_sz _ _ _ _ _ _ Hi)) as [Ep Hle]. set (n := npages sz) in *.
  assert (0 <= n) as Hn by (apply npages_nonneg, Hi). rewrite Ep in *. unfold make_stack, USERSTACK. rewrite Ep.
  pose proof trapframe_top as [Hmod _]. pose proof maxva_int. pose proof trapframe_top as [_ Htf].
  unfold USER_TOP in Htop.
  change ((1 + 1) * PGSIZE) with (2 * PGSIZE).
  replace (u64 (n * PGSIZE + 2 * PGSIZE)) with ((n + 2) * PGSIZE)
    by (unfold u64; rewrite Z.mod_small; unfold PGSIZE in *; lia).
  assert (PTE_W = flags2perm 2) as -> by (unfold flags2perm; cbn; done).
  destruct (grow_image s T l U sz base (n * PGSIZE) ((n + 2) * PGSIZE) _ _ Hi (flags2perm_bits 2))
    as (r & s1 & T1 & l1 & U1 & E1 & Hr); [unfold PGSIZE in *; lia|unfold USER_TOP, PGSIZE in *; lia|].
  rewrite (bind_ok _ _ _ _ _ E1). destruct Hr as [(-> & Hi1 & Hg)|(-> & Hi1)].
  2: { exists false, (n * PGSIZE), s1, T1, l1, U1. by split_and!. }
  rewrite (proj2 (Z.eqb_neq _ 0)) by (unfold PGSIZE; lia). rewrite !npages_mul in Hg.
  replace (u64 ((n + 2) * PGSIZE - 2 * PGSIZE)) with (n * PGSIZE)
    by (unfold u64; rewrite Z.mod_small; unfold PGSIZE in *; lia).
  destruct (Hg n ltac:(lia)) as [pa Hpa]. destruct (Hg (n + 1) ltac:(lia)) as [pa2 Hpa2].
  destruct (uvmclear_run kend PHYSTOP kend_pos phystop_56 F mF sysent root s1 T1 l1 U1 n _ _ (im_as _ _ _ _ _ _ Hi1) Hpa)
    as (s2 & E2 & Hok2 & Hs2).
  rewrite (bind_ok _ _ _ _ _ E2).
  exists true, ((n + 2) * PGSIZE), s2, T1, l1, (<[n := (pa, no_user (Uperm true (bits 2 2) (bits 2 1) true))]> U1).
  split; [done|]. split; [by eapply img_chmod|]. intros _. split; [lia|]. split.
  - intros va Hva. assert (va / PGSIZE = n + 1) as Ev by (unfold PGSIZE in *; dlia).
    unfold writable. rewrite Ev, lookup_insert_ne by lia. eexists _, _. split; [exact Hpa2|done].
  - eexists _, _. split; [apply lookup_insert_eq|done].
Qed.

End Build.

(** *** Files and the state of the kernel *)

(** What kexec relies on: [xinv (Some v)] says that it holds vnode [v], whose
    contents are [exe v].  A read may fail, or return less. *)
Class ExecFilesOk (X : Type) `{OpenFiles X} `{ExecFiles X} (xinv : option nat -> X -> Prop) (exe : nat -> list Z) : Prop := {
  namei_ok : forall path x, xinv None x -> exists o x', vfs_namei path x = Ok (o, x') /\ xinv o x';
  read_ok : forall v n off x, xinv (Some v) x -> 0 <= n -> 0 <= off ->
    exists r b x', vfs_read_kernel v n off x = Ok ((r, b), x') /\ xinv (Some v) x' /\
      zlen b <= n /\ - 2 ^ 31 <= r < 2 ^ 31 /\ (r = n -> b = slice (exe v) off n /\ zlen b = n);
  exe_bytes : forall v, Forall is_byte (exe v);
  vput_ok : forall v x, xinv (Some v) x -> exists x', vput v x = Ok (tt, x') /\ xinv None x'
}.

(** The memory and the files of a state replaced. *)
Definition st {X} (s : pst X) (k : kmem) (x : X) : pst X := set_x x (set_km k s).

Lemma st_eq {X} (s : pst X) : st s (ps_km s) (ps_x s) = s.
Proof. by destruct s. Qed.
Lemma onkm_st {X A} (m : M kmem A) (s : pst X) k x a k' : m k = Ok (a, k') -> onkm m (st s k x) = Ok (a, st s k' x).
Proof. intros E. unfold onkm, zoom. cbn. by rewrite E. Qed.
Lemma onx_st {X A} (m : M X A) (s : pst X) k x a x' : m x = Ok (a, x') -> onx m (st s k x) = Ok (a, st s k x').
Proof. intros E. unfold onx, zoom. cbn. by rewrite E. Qed.
Lemma getp_st {X} i p (s : pst X) k x : ps_proc s !! i = Some p -> getp i (st s k x) = Ok (p, st s k x).
Proof. intros E. unfold getp. cbn. by rewrite E. Qed.

(** Steps in memory and in the files. *)
Ltac kstep E := rewrite (bind_ok _ _ _ _ _ (onkm_st _ _ _ _ _ _ E)).
Ltac xstep E := rewrite (bind_ok _ _ _ _ _ (onx_st _ _ _ _ _ _ E)).

Section Load.
  Context {X : Type} `{HO : OpenFiles X} `{HE : ExecFiles X} `{HH : Hal} {HAO : ArchOk}.
  Context (xinv : option nat -> X -> Prop) (exe : nat -> list Z) {HX : ExecFilesOk X xinv exe}.
  Context (kend PHYSTOP : Z) (kend_pos : 0 < kend) (phystop_56 : PHYSTOP <= 2 ^ 56).
  Context (F : Z -> Prop) (mF : memory) (sysent : Z -> Z) (root : Z) (l0 : list Z).
  Local Abbreviation tables := (gmap (nat * Z) Z).
  Local Abbreviation space := (gmap Z (Z * uperm)).
  Local Abbreviation img_ok := (img_ok kend PHYSTOP F mF sysent root l0).
  Context (s : pst X) (v : nat).

(** [len] bytes of the file, from [off] on, at address [va]. *)
Definition overlay (base : Z -> Z) (va off len : Z) (a : Z) : Z :=
  if (va <=? a) && (a <? va + len) then getz (exe v) (off + (a - va)) else base a.

(** One page of a segment. *)
Lemma loadseg_step k x T l U sz base n0 off fsz i :
  img_ok k T l U sz (overlay base (n0 * PGSIZE) off (i * PGSIZE)) -> xinv (Some v) x ->
  0 <= n0 -> 0 <= i -> i * PGSIZE < fsz <= 2 ^ 32 - PGSIZE -> 0 <= off -> off + fsz < 2 ^ 32 ->
  (exists pa f, U !! (n0 + i) = Some (pa, f) /\ pu f = true) ->
  exists r k' x' base', loadseg_body root (n0 * PGSIZE) v off fsz (i * PGSIZE) (st s k x) = Ok (r, st s k' x') /\
    xinv (Some v) x' /\ img_ok k' T l U sz base' /\
    (r = inr (-1) \/ r = inl ((i + 1) * PGSIZE) /\
     forall a, 0 <= a -> base' a = overlay base (n0 * PGSIZE) off (Z.min ((i + 1) * PGSIZE) fsz) a).
Proof.
  intros Hi Hx Hn0 Hi0 Hlt Ho Hof (pa & f & Hu & Hpu). pose proof (im_as _ _ _ _ _ _ _ _ _ _ _ _ _ Hi) as Hok.
  pose proof (ao_dom _ _ _ _ _ _ _ _ _ _ Hok _ _ Hu) as Hnr. pose proof UT_range as [_ Hut]. pose proof maxva_int.
  assert ((n0 + i) * PGSIZE < MAXVA) as Hva by (unfold PGSIZE in *; lia).
  unfold loadseg_body. rewrite (proj2 (Z.ltb_lt _ _)) by lia. cbn [negb].
  replace (u64 (n0 * PGSIZE + i * PGSIZE)) with ((n0 + i) * PGSIZE)
    by (unfold u64; rewrite Z.mod_small; unfold PGSIZE in *; lia).
  kstep (walkaddr_run kend PHYSTOP kend_pos phystop_56 F mF sysent root k T l U (n0 + i) Hok ltac:(lia) Hva).
  rewrite Hu, Hpu. destruct (ao_page _ _ _ _ _ _ _ _ _ _ Hok _ pa f Hu) as ([_ Hp] & _ & _).
  rewrite (proj2 (Z.eqb_neq pa 0)) by lia.
  rewrite (u32_small (fsz - i * PGSIZE)), (u32_small (off + i * PGSIZE)), (u32_small (i * PGSIZE + PGSIZE))
    by (unfold PGSIZE in *; lia).
  set (n := if fsz - i * PGSIZE <? PGSIZE then fsz - i * PGSIZE else PGSIZE).
  assert (n = Z.min (fsz - i * PGSIZE) PGSIZE) as En by (unfold n; destruct (Z.ltb_spec (fsz - i * PGSIZE) PGSIZE); lia).
  destruct (read_ok v n (off + i * PGSIZE) x Hx) as (r & b & x' & Er & Hx' & Hb & Hr & Hrn);
    [unfold PGSIZE in *; lia..|].
  xstep Er. destruct (frame_store kend PHYSTOP F mF sysent root k T l U (n0 + i) pa f 0 b Hok Hu ltac:(lia))
    as [Hok1 Hub1]; [lia|]. rewrite Z.add_0_r in Hok1, Hub1.
  set (k1 := set_mem (put_bytes (km_mem k) pa b) k) in *.
  assert (store_at pa b k = Ok (tt, k1)) as E1 by done. kstep E1.
  assert (forall base', (forall a, 0 <= a -> base' a = patched ((n0 + i) * PGSIZE) b (zlen b) a
    (overlay base (n0 * PGSIZE) off (i * PGSIZE) a)) -> img_ok k1 T l U sz base') as Hi1.
  { intros base' Hbase. eapply img_contents; [done|done|]. intros a Ha. rewrite Hub1, Hbase, Z.add_0_r by done. f_equal.
    by apply (im_ub _ _ _ _ _ _ _ _ _ _ _ _ _ Hi). }
  destruct (Z.eqb_spec (u32 r) n) as [E|E]; cbn [negb].
  - assert (r = n) as Ern by (unfold u32, PGSIZE in *; dlia). destruct (Hrn Ern) as [-> Hbn].
    exists (inl (i * PGSIZE + PGSIZE)), k1, x', (overlay base (n0 * PGSIZE) off (Z.min ((i + 1) * PGSIZE) fsz)).
    split; [done|]. split; [done|]. split; [|right; split; [f_equal; lia|done]]. apply Hi1. intros a Ha.
    unfold patched, overlay. rewrite Hbn. clearbody n. unfold PGSIZE in *.
    destruct ((n0 * 4096 <=? a) && (a <? n0 * 4096 + (Z.min ((i + 1) * 4096) fsz))) eqn:E2.
    + destruct (((n0 + i) * 4096 <=? a) && (a <? (n0 + i) * 4096 + n)) eqn:E3.
      * rewrite getz_slice by lia. f_equal. lia.
      * by destruct ((n0 * 4096 <=? a) && (a <? n0 * 4096 + i * 4096)) eqn:E4; [|lia].
    + destruct (((n0 + i) * 4096 <=? a) && (a <? (n0 + i) * 4096 + n)) eqn:E3; [lia|].
      by destruct ((n0 * 4096 <=? a) && (a <? n0 * 4096 + i * 4096)) eqn:E4; [lia|].
  - eexists (inr (-1)), k1, x', _. split; [done|]. split; [done|]. split; [by apply Hi1|by left].
Qed.

Lemma loadseg_loop T l U sz base n0 off fsz : 0 <= n0 -> 0 <= fsz <= 2 ^ 32 - PGSIZE -> 0 <= off -> off + fsz < 2 ^ 32 ->
  (forall i, 0 <= i -> i * PGSIZE < fsz -> exists pa f, U !! (n0 + i) = Some (pa, f) /\ pu f = true) ->
  forall m fuel k x i, 0 <= i -> fsz <= (i + Z.of_nat m) * PGSIZE -> (m < fuel)%nat -> xinv (Some v) x ->
  img_ok k T l U sz (overlay base (n0 * PGSIZE) off (Z.min (i * PGSIZE) fsz)) ->
  exists r k' x' base', loop fuel (loadseg_body root (n0 * PGSIZE) v off fsz) (i * PGSIZE) (st s k x) = Ok (r, st s k' x') /\
    xinv (Some v) x' /\ img_ok k' T l U sz base' /\
    (r = -1 \/ r = 0 /\ forall a, 0 <= a -> base' a = overlay base (n0 * PGSIZE) off fsz a).
Proof.
  intros Hn0 Hf Ho Hof Hmap m. induction m as [|m IH]; intros fuel k x i Hi Hm Hfuel Hx Him;
    (destruct fuel as [|fuel]; [lia|]); cbn [loop]; destruct (Z.lt_ge_cases (i * PGSIZE) fsz) as [Hlt|Hge]; try lia.
  1, 3: exists 0, k, x, (overlay base (n0 * PGSIZE) off (Z.min (i * PGSIZE) fsz)); unfold loadseg_body;
    rewrite (proj2 (Z.ltb_ge _ _)) by lia; cbn [negb];
    (split_and!; [done..|right; split; [done|]]); intros a _; by rewrite Z.min_r by lia.
  rewrite Z.min_l in Him by lia.
  destruct (loadseg_step k x T l U sz base n0 off fsz i) as (r & k1 & x1 & base1 & E1 & Hx1 & Him1 & Hr); [auto; lia..|].
  rewrite (bind_ok _ _ _ _ _ E1). destruct Hr as [->|[-> Hb1]].
  { exists (-1), k1, x1, base1. split_and!; [done..|]. by left. }
  apply (IH fuel k1 x1 (i + 1)); [lia|lia|lia|done|]. eapply img_ext; [exact Him1|].
  intros a Ha. by rewrite Hb1.
Qed.

(** *** Program headers *)

Definition hdr (off : Z) : proghdr := ph_of (slice (exe v) (u32 off) sizeof_proghdr).

(** A header that kexec loads. *)
Definition loads (ph : proghdr) : bool :=
  (ph_type ph =? ELF_PROG_LOAD) && (ph_filesz ph <=? ph_memsz ph) && (ph_vaddr ph mod PGSIZE =? 0).

(** What kexec does not check: segments in the order of their addresses, in
    user memory, and file offsets of 32 bits. *)
Definition seg_ok (ph : proghdr) (sz : Z) : Prop :=
  loads ph = true -> sz <= ph_vaddr ph /\ ph_vaddr ph + ph_memsz ph <= USER_TOP /\
    ph_filesz ph <= 2 ^ 32 - PGSIZE /\ u32 (ph_off ph) + ph_filesz ph < 2 ^ 32.

(** Size and contents after one more header. *)
Definition image_step (ph : proghdr) (im : Z * (Z -> Z)) : Z * (Z -> Z) :=
  if loads ph
  then (ph_vaddr ph + ph_memsz ph, overlay (snd im) (ph_vaddr ph) (u32 (ph_off ph)) (ph_filesz ph))
  else im.

Lemma hdr_range off : let ph := hdr off in 0 <= ph_vaddr ph < 2 ^ 64 /\ 0 <= ph_filesz ph /\ 0 <= ph_memsz ph < 2 ^ 64.
Proof.
  assert (Forall is_byte (slice (exe v) (u32 off) sizeof_proghdr)) as Hb.
  { unfold slice. apply Forall_take, Forall_drop, exe_bytes. }
  cbn. split_and!; apply (rd_range 8 _ _ Hb).
Qed.

Lemma load_segment_run k x T l U sz base off : img_ok k T l U sz base -> xinv (Some v) x -> seg_ok (hdr off) sz ->
  exists ok sz' k' x' T' l' U' base',
    load_segment kend PHYSTOP root v sz off (st s k x) = Ok ((ok, sz'), st s k' x') /\
    xinv (Some v) x' /\ img_ok k' T' l' U' sz' base' /\
    (ok = true -> sz' = fst (image_step (hdr off) (sz, base)) /\
       forall a, 0 <= a -> base' a = snd (image_step (hdr off) (sz, base)) a).
Proof.
  intros Hi Hx Hseg. unfold load_segment.
  destruct (read_ok v sizeof_proghdr (u32 off) x Hx) as (r & b & x1 & Er & Hx1 & _ & _ & Hrn);
    [done|apply u32_range|]. xstep Er.
  assert (forall sz', sz <= sz' <= USER_TOP -> exists ok sz1 k' x' T' l' U' base',
    ret (false, sz') (st s k x1) = Ok ((ok, sz1), st s k' x') /\
    xinv (Some v) x' /\ img_ok k' T' l' U' sz1 base' /\
    (ok = true -> sz1 = fst (image_step (hdr off) (sz, base)) /\
       forall a, 0 <= a -> base' a = snd (image_step (hdr off) (sz, base)) a)) as Hbad.
  { intros sz' Hs. exists false, sz', k, x1, T, l, U, base. split_and!; [done..| |done]. by eapply img_size. }
  pose proof (im_sz _ _ _ _ _ _ _ _ _ _ _ _ _ Hi) as Hsz.
  destruct (Z.eqb_spec r sizeof_proghdr) as [->|_]; cbn [negb]; [|apply Hbad; lia].
  destruct (Hrn eq_refl) as [-> _]. fold (hdr off). destruct (hdr_range off) as (Hv & Hfs & Hms).
  unfold seg_ok, image_step, loads in *. set (ph := hdr off) in *.
  destruct (ph_type ph =? ELF_PROG_LOAD); cbn [negb andb] in *.
  2: { exists true, sz, k, x1, T, l, U, base. by split_and!. }
  destruct (Z.ltb_spec (ph_memsz ph) (ph_filesz ph)) as [|Hfm]; [apply Hbad; lia|].
  rewrite (proj2 (Z.leb_le _ _)) in * by lia. cbn [andb] in *.
  destruct (_ <? ph_vaddr ph); [apply Hbad; lia|].
  destruct (Z.eqb_spec (ph_vaddr ph mod PGSIZE) 0) as [Hal|_]; cbn [negb] in *; [|apply Hbad; lia].
  destruct Hseg as (Hs & Ht & Hf32 & Ho32); [done|].
  replace (if ph_vaddr ph >? sz then ph_vaddr ph else sz) with (ph_vaddr ph) by (destruct (Z.gtb_spec (ph_vaddr ph) sz); lia).
  pose proof trapframe_top as [_ Htf]. pose proof maxva_int. unfold USER_TOP in Ht.
  replace (u64 (ph_vaddr ph + ph_memsz ph)) with (ph_vaddr ph + ph_memsz ph) by (unfold u64; rewrite Z.mod_small; lia).
  destruct (grow_image kend PHYSTOP kend_pos phystop_56 F mF sysent root l0 k T l U sz base (ph_vaddr ph)
    (ph_vaddr ph + ph_memsz ph) _ _ Hi (flags2perm_bits (ph_flags ph))) as (r1 & k1 & T1 & l1 & U1 & E1 & Hr1); [lia|done|].
  kstep E1. destruct (Z.eqb_spec r1 0) as [->|Hr10].
  { exists false, (ph_vaddr ph), k1, x1, T1, l1, U1, base. split_and!; [done..| |done].
    destruct Hr1 as [(E0 & Hi1 & _)|(_ & Hi1)]; [|done]. eapply img_size; [exact Hi1|]. unfold USER_TOP. lia. }
  destruct Hr1 as [(-> & Hi1 & Hg)|(-> & _)]; [|done].
  set (n0 := ph_vaddr ph / PGSIZE) in *.
  assert (ph_vaddr ph = n0 * PGSIZE) as En by (unfold n0, PGSIZE in *; dlia).
  rewrite (u32_small (ph_filesz ph)) by (unfold PGSIZE in *; lia). unfold loadseg.
  destruct (loadseg_loop T1 l1 U1 (ph_vaddr ph + ph_memsz ph) base n0 (u32 (ph_off ph)) (ph_filesz ph)) with
    (m := (Z.to_nat (ph_filesz ph / PGSIZE) + 1)%nat) (fuel := (Z.to_nat (ph_filesz ph / PGSIZE) + 2)%nat)
    (k := k1) (x := x1) (i := 0) as (r2 & k2 & x2 & base2 & E2 & Hx2 & Hi2 & Hr2).
  - unfold PGSIZE in *; lia.
  - unfold PGSIZE in *; lia.
  - apply u32_range.
  - done.
  - intros i Hi0 Hlt. destruct (Hg (n0 + i)) as [pa Hpa]; [|eauto]. rewrite En. rewrite npages_mul. unfold npages, PGSIZE in *. dlia.
  - done.
  - unfold PGSIZE. dlia.
  - lia.
  - done.
  - eapply img_ext; [exact Hi1|]. intros a Ha. unfold overlay. destruct (_ && _) eqn:E0; [|done].
    unfold PGSIZE in *. lia.
  - rewrite Z.mul_0_l, <-En in E2. rewrite (bind_ok _ _ _ _ _ E2). destruct Hr2 as [->|[-> Hb2]]; cbn [Z.ltb Z.compare].
    + exists false, (ph_vaddr ph + ph_memsz ph), k2, x2, T1, l1, U1, base2. by split_and!.
    + exists true, (ph_vaddr ph + ph_memsz ph), k2, x2, T1, l1, U1, base2. split_and!; [done..|].
      intros _. split; [done|]. cbn [snd]. rewrite En. done.
Qed.

(** Size and contents after [n] headers. *)
Fixpoint image (n : nat) (off : Z) (im : Z * (Z -> Z)) : Z * (Z -> Z) :=
  match n with
  | O => im
  | S n' => image n' (s32 (off + sizeof_proghdr)) (image_step (hdr off) im)
  end.
Fixpoint segs_ok (n : nat) (off sz : Z) : Prop :=
  match n with
  | O => True
  | S n' => seg_ok (hdr off) sz /\ segs_ok n' (s32 (off + sizeof_proghdr)) (fst (image_step (hdr off) (sz, fun _ => 0)))
  end.

Lemma image_ext n : forall off sz base base', (forall a, 0 <= a -> base' a = base a) ->
  fst (image n off (sz, base')) = fst (image n off (sz, base)) /\
  forall a, 0 <= a -> snd (image n off (sz, base')) a = snd (image n off (sz, base)) a.
Proof.
  induction n as [|n IH]; intros off sz base base' Hb; cbn [image]; [done|].
  unfold image_step. destruct (loads (hdr off)); [|by apply IH]. cbn [fst snd]. apply IH.
  intros a Ha. unfold overlay. destruct (_ && _); [done|by apply Hb].
Qed.

Lemma load_segments_run n : forall k x T l U sz base off,
  img_ok k T l U sz base -> xinv (Some v) x -> segs_ok n off sz ->
  exists ok sz' k' x' T' l' U' base',
    load_segments kend PHYSTOP n root v sz off (st s k x) = Ok ((ok, sz'), st s k' x') /\
    xinv (Some v) x' /\ img_ok k' T' l' U' sz' base' /\
    (ok = true -> sz' = fst (image n off (sz, base)) /\ forall a, 0 <= a -> base' a = snd (image n off (sz, base)) a).
Proof.
  induction n as [|n IH]; intros k x T l U sz base off Hi Hx Hseg; cbn [load_segments image segs_ok] in *.
  { exists true, sz, k, x, T, l, U, base. by split_and!. }
  destruct Hseg as [Hs Hrest].
  destruct (load_segment_run k x T l U sz base off Hi Hx Hs)
    as (ok & sz1 & k1 & x1 & T1 & l1 & U1 & base1 & E1 & Hx1 & Hi1 & Hok1).
  rewrite (bind_ok _ _ _ _ _ E1). destruct ok.
  2: { exists false, sz1, k1, x1, T1, l1, U1, base1. by split_and!. }
  destruct (Hok1 eq_refl) as [Es Eb].
  assert (fst (image_step (hdr off) (sz, fun _ => 0)) = sz1) as Es'.
  { rewrite Es. unfold image_step. by destruct (loads (hdr off)). }
  rewrite Es' in Hrest.
  destruct (IH k1 x1 T1 l1 U1 sz1 base1 _ Hi1 Hx1 Hrest) as (ok & sz2 & k2 & x2 & T2 & l2 & U2 & base2 & E2 & Hx2 & Hi2 & Hok2).
  exists ok, sz2, k2, x2, T2, l2, U2, base2. split_and!; [done..|]. intros Ht. destruct (Hok2 Ht) as [-> Hb2].
  destruct (image_step (hdr off) (sz, base)) as [sz' base'] eqn:Ei. cbn [fst snd] in *. subst sz'.
  destruct (image_ext n (s32 (off + sizeof_proghdr)) sz1 base' base1 Eb) as [Ef Es2].
  split; [done|]. intros a Ha. rewrite Hb2, Es2 by done. done.
Qed.

End Load.
