(* ===== verification/ExecOk.v ===== *)
(** ExecOk: exec is a transaction.  A process that calls exec either keeps its
    memory, with the call failing and every page it took given back, or has the
    memory of the new program, with its arguments on the stack, and the pages
    of the old one are free. *)

From S2P Require Import Prelude CString Kalloc Locks Arch Vm VmTable VmSpace VmUser VmFork VmFree Hal Proc Sysarg VmSys Exec ExecStack ExecImage.

(** *** Two address spaces side by side *)

Section Beside.
  Context {HA : Arch} {HAO : ArchOk} (kend PHYSTOP : Z).
  Local Abbreviation tables := (gmap (nat * Z) Z).
  Local Abbreviation space := (gmap Z (Z * uperm)).
  Implicit Types s : kmem.

(** The pages of an address space and those set aside. *)
Definition with_own (T : tables) (U : space) (F : Z -> Prop) (pa : Z) : Prop := own T U pa \/ F pa.

Lemma as_free F mF e s T root l U : as_ok kend PHYSTOP F mF e s T root l U -> free_ok kend PHYSTOP F mF s l.
Proof.
  intros [A1 A2 A3 A4 A5 A6 A7 A8 A9]. split; [apply A1|]. intros pa Hpa.
  by destruct (A8 pa Hpa) as (? & ? & _ & _ & ?).
Qed.

(** An address space and the pages set aside, seen by another one. *)
Lemma as_others F mF e s T root l U : as_ok kend PHYSTOP F mF e s T root l U ->
  free_ok kend PHYSTOP (with_own T U F) (km_mem s) s l.
Proof.
  intros [A1 A2 A3 A4 A5 A6 A7 A8 A9]. split; [apply A1|]. intros pa [[Ht|(n & f & Hn)]|HF].
  - destruct (vo_tab _ _ _ _ _ _ A1 pa Ht). by split_and!.
  - destruct (A5 n pa f Hn) as (? & ? & _). by split_and!.
  - destruct (A8 pa HF) as (? & ? & _). by split_and!.
Qed.

(** It survives whatever leaves those pages alone. *)
Lemma as_survives F mF e s s' T root l l' U : as_ok kend PHYSTOP F mF e s T root l U ->
  free_ok kend PHYSTOP (with_own T U F) (km_mem s) s' l' ->
  as_ok kend PHYSTOP F mF e s' T root l' U /\ same_frames U s s'.
Proof.
  intros [A1 A2 A3 A4 A5 A6 A7 A8 A9] [Hk Ho].
  assert (forall pt, is_tab T pt -> page_ok kend PHYSTOP pt /\ pt ∉ l' /\
    forall a, in_page pt a = true -> km_mem s' a = km_mem s a) as Ht by (intros pt Ht; apply Ho; left; by left).
  assert (forall va, pte_at s' T va = pte_at s T va) as Hpte.
  { intros va. apply pte_at_ext. intros pt a Hp. by apply Ht. }
  split; [constructor; try done; [|by setoid_rewrite Hpte|by setoid_rewrite Hpte| |by setoid_rewrite Hpte|]|].
  - constructor; [done| |intros pt Hp; by destruct (Ht pt Hp) as (? & ? & _)].
    eapply pt_wf_ext; [|apply A1]. intros pt a Hp. by apply Ht.
  - intros n pa f Hn. destruct (Ho pa) as (? & ? & _); [left; right; eauto|].
    destruct (A5 n pa f Hn) as (_ & _ & ?). done.
  - intros pa Hpa. destruct (A8 pa Hpa) as (? & _ & ? & ? & Hm).
    destruct (Ho pa) as (_ & ? & Hm'); [by right|]. split_and!; try done.
    intros a Ha. by rewrite Hm', Hm.
  - intros n pa f a Hn. apply Ho. left. right. eauto.
Qed.

(** The pages set aside may change, and be others. *)
Lemma as_move F mF F' e s m' T root l U : as_ok kend PHYSTOP F mF e s T root l U ->
  (forall q a, q ∈ l \/ is_tab T q -> in_page q a = true -> m' a = km_mem s a) ->
  (forall pa, F' pa -> page_ok kend PHYSTOP pa /\ pa ∉ l /\ ~ own T U pa) ->
  as_ok kend PHYSTOP F' m' e (set_mem m' s) T root l U.
Proof.
  intros [A1 A2 A3 A4 A5 A6 A7 A8 A9] Hm HF.
  assert (forall va, pte_at (set_mem m' s) T va = pte_at s T va) as Hpte.
  { intros va. apply pte_at_ext. intros pt a Ht. apply Hm. tauto. }
  constructor; try done; [|by setoid_rewrite Hpte..|].
  - apply vm_ok_ext; [..|done]; intros q a Hq; apply Hm; tauto.
  - intros pa Hpa. destruct (HF pa Hpa) as (? & ? & Hno). unfold own in Hno. split_and!; [done|done|tauto| |done].
    intros n f Hn. apply Hno. right. eauto.
Qed.

End Beside.

Section Exec.
  Context {X : Type} `{HO : OpenFiles X} `{HE : ExecFiles X} `{HH : Hal} {HAO : ArchOk}.
  Context (xinv : option nat -> X -> Prop) (exe : nat -> list Z) {HX : ExecFilesOk X xinv exe}.
  Context (kend PHYSTOP trampoline : Z) (ents : Z -> Z -> Z) {HV : HalVmOk trampoline ents}.
  Context (kend_pos : 0 < kend) (phystop_56 : PHYSTOP <= 2 ^ 56) (me : nat).
  Local Abbreviation tables := (gmap (nat * Z) Z).
  Local Abbreviation space := (gmap Z (Z * uperm)).
  Local Abbreviation as_ok := (as_ok kend PHYSTOP).
  (** The process, its memory, and the other pages in use: among them its
      trapframe and the pages of the argument strings. *)
  Context (F : Z -> Prop) (mF : memory) (s : pst X) (i : nat) (p : proc).
  Context (T1 : tables) (l1 : list Z) (U1 : space).
  Local Abbreviation tf := (p_trapframe p).
  Local Abbreviation old_ok := (fun mF k l => as_ok F mF (ents tf) k T1 (p_pagetable p) l U1).
  Context (Hp : ps_proc s !! i = Some p) (Hold : old_ok mF (ps_km s) l1) (Htf : F tf).
  Context (Hsz : 0 <= p_sz p <= USER_TOP) (Hdom : forall n x, U1 !! n = Some x -> n < npages (p_sz p)).
  Local Abbreviation F' := (with_own T1 U1 F).
  Local Abbreviation mF' := (km_mem (ps_km s)).
  Local Abbreviation img_ok root := (img_ok kend PHYSTOP F' mF' (ents tf) root l1).

Lemma tf_page : page_ok kend PHYSTOP tf.
Proof. by apply (ao_other _ _ _ _ _ _ _ _ _ _ Hold tf). Qed.
Lemma tf_frame : frame tf.
Proof. apply (page_frame kend PHYSTOP); [done..|]. apply tf_page. Qed.

(** The caller's memory is what it was. *)
Definition unchanged (k : kmem) : Prop :=
  exists l, old_ok mF k l /\ same_frames U1 (ps_km s) k /\ forall q, q ∈ l <-> q ∈ l1.

Lemma unchanged_free k l : free_ok kend PHYSTOP F' mF' k l -> (forall q, q ∈ l <-> q ∈ l1) -> unchanged k.
Proof. intros Hf Hl. exists l. destruct (as_survives kend PHYSTOP _ _ _ _ _ _ _ _ _ _ Hold Hf). done. Qed.

(** *** The label bad *)

Definition released (o : option nat) : Prop := forall x, xinv o x -> exists x',
  match o with Some v => vput v | None => ret tt end x = Ok (tt, x') /\ xinv None x'.

Lemma released_all o : released o.
Proof. destruct o as [v|]; intros x Hx; [by apply vput_ok|by exists x]. Qed.

Lemma exec_bad_image root k x T l U sz base o : img_ok root k T l U sz base -> root <> 0 -> xinv o x ->
  exists k' x', exec_bad kend PHYSTOP root sz o (st s k x) = Ok (-1, st s k' x') /\ unchanged k' /\ xinv None x'.
Proof.
  intros [I1 I2 I3 I4 I5] Hr Hx. unfold exec_bad. rewrite (proj2 (Z.eqb_neq root 0)) by done. cbn [negb when].
  destruct (proc_freepagetable_run kend PHYSTOP trampoline ents kend_pos phystop_56 F' mF' k T root l U tf sz
    tf_frame I2 I1 I3) as (k' & l' & E1 & Hf & Hl). kstep E1.
  destruct (released_all o x Hx) as (x' & E2 & Hx').
  exists k', x'. split_and!; [|eapply unchanged_free; [done|]; intros q; by rewrite Hl, I5|done].
  destruct o as [v|]; [by xstep E2|]. unfold ret in E2. injection E2 as <-. done.
Qed.

Lemma exec_bad_none k x l o : free_ok kend PHYSTOP F' mF' k l -> (forall q, q ∈ l <-> q ∈ l1) -> xinv o x ->
  exists k' x', exec_bad kend PHYSTOP 0 0 o (st s k x) = Ok (-1, st s k' x') /\ unchanged k' /\ xinv None x'.
Proof.
  intros Hf Hl Hx. unfold exec_bad. cbn [Z.eqb negb when]. rewrite ret_bind.
  destruct (released_all o x Hx) as (x' & E2 & Hx').
  exists k, x'. split_and!; [|by eapply unchanged_free|done].
  destruct o as [v|]; [by xstep E2|]. unfold ret in E2. injection E2 as <-. done.
Qed.

(** *** The end *)

(** The process after exec. *)
Definition exec_proc (path : list Z) (root sz : Z) : proc :=
  set_mm sz root tf (set_name (safestrcpy (p_name p) (last_elem (cstr path) (cstr path) ++ [0]) 16) p).

(** The pages of the new address space and of the old one can change places. *)
Lemma swap_spaces root k T l U sz base m' : img_ok root k T l U sz base ->
  (forall a, in_page tf a = false -> m' a = km_mem k a) ->
  as_ok (with_own T U F) m' (ents tf) (set_mem m' k) T1 (p_pagetable p) l U1 /\
  as_ok F m' (ents tf) (set_mem m' k) T root l U /\
  forall va, 0 <= va -> ub (set_mem m' k) U va = base va.
Proof.
  intros [I1 I2 I3 I4 I5] Hm. pose proof (ao_other _ _ _ _ _ _ _ _ _ _ I1) as Ho.
  destruct (as_survives kend PHYSTOP _ _ _ _ _ _ _ _ _ _ Hold (as_free kend PHYSTOP _ _ _ _ _ _ _ _ I1)) as [Hold' _].
  assert (forall q, with_own T1 U1 F q -> page_ok kend PHYSTOP q /\ q ∉ l /\ ~ own T U q) as Hdisj.
  { intros q Hq. destruct (Ho q Hq) as (? & ? & Ht & Hu & _). split_and!; [done..|].
    intros [?|(n & f & Hn)]; [done|by eapply Hu]. }
  assert (forall q, own T U q -> page_ok kend PHYSTOP q /\ q ∉ l) as Hown.
  { intros q Hq. by destruct (proj2 (as_others kend PHYSTOP _ _ _ _ _ _ _ _ I1) q) as (? & ? & _); [by left|]. }
  assert (forall q a, page_ok kend PHYSTOP q -> q <> tf -> in_page q a = true -> m' a = km_mem k a) as Hq.
  { intros q a Hqp Hne Ha. apply Hm. apply (page_apart kend PHYSTOP q tf); auto. apply tf_page. }
  destruct (ao_other _ _ _ _ _ _ _ _ _ _ Hold' tf Htf) as (_ & Htl & Htt & Htu & _).
  assert (forall q, q ∈ l -> page_ok kend PHYSTOP q) as Hfree.
  { intros q Hin. destruct (vo_free _ _ _ _ _ _ (ao_vm _ _ _ _ _ _ _ _ _ _ I1)) as (_ & _ & Hf).
    rewrite Forall_forall in Hf. by apply Hf. }
  split_and!.
  - eapply as_move; [exact Hold'| |].
    + intros q a [Hin|Ht]; apply Hq; [by apply Hfree|congruence| |congruence].
      by apply (vo_tab _ _ _ _ _ _ (ao_vm _ _ _ _ _ _ _ _ _ _ Hold')).
    + intros q [Hown'|HF].
      * destruct (Hown q Hown') as [? ?]. split_and!; [done..|]. intros Ho1.
        by destruct (Hdisj q) as (_ & _ & ?); [left|].
      * destruct (ao_other _ _ _ _ _ _ _ _ _ _ Hold' q HF) as (? & ? & Ht & Hu & _). split_and!; [done..|].
        intros [?|(n & f & Hn)]; [done|by eapply Hu].
  - eapply as_move; [exact I1| |].
    + intros q a Hin. destruct (Hdisj tf) as (_ & _ & Hno); [by right|].
      apply Hq; [destruct Hin as [|Ht]; [by apply Hfree|by apply Hown; left]|].
      intros ->. destruct Hin; [done|]. apply Hno. by left.
    + intros q HF. apply Hdisj. by right.
  - intros va Hva. rewrite <-I4 by done. apply ub_same; [done|]. intros n q f a Hn.
    apply Hq; [by apply (ao_page _ _ _ _ _ _ _ _ _ _ I1 n q f)|].
    intros ->. destruct (Hdisj tf) as (_ & _ & Hno); [by right|]. apply Hno. right. eauto.
Qed.

(** The registers that the process starts with. *)
Definition starts_at (k : kmem) (entry sp : Z) : Prop :=
  load64 (km_mem k) (tf + TF_EPC) = entry /\ load64 (km_mem k) (tf + TF_SP) = sp /\
  load64 (km_mem k) (tf + TF_A1) = sp.

(** The new address space is the process's, and the old one is free. *)
Definition replaced (k : kmem) (T : tables) (root : Z) (U : space) : Prop :=
  exists m l, as_ok F m (ents tf) k T root l U /\
    (forall pa a, F pa -> pa <> tf -> in_page pa a = true -> km_mem k a = mF a) /\
    forall q, q ∈ l \/ own T U q <-> q ∈ l1 \/ own T1 U1 q.

Definition committed (k : kmem) (entry sp : Z) : memory :=
  store64 (store64 (store64 (km_mem k) (tf + TF_A1) sp) (tf + TF_EPC) entry) (tf + TF_SP) sp.

Lemma committed_out k entry sp a : in_page tf a = false -> committed k entry sp a = km_mem k a.
Proof.
  clear. intros Ha. unfold committed. change (tf + TF_A1) with (tf + 8 * 15).
  change (tf + TF_EPC) with (tf + 8 * 3). change (tf + TF_SP) with (tf + 8 * 6).
  by rewrite !store_out_page by done.
Qed.

Lemma committed_regs k m entry sp : 0 <= entry < 2 ^ 64 -> 0 <= sp < 2 ^ 64 ->
  (forall a, in_page tf a = true -> km_mem k a = committed m entry sp a) -> starts_at k entry sp.
Proof.
  clear. intros He Hs Hm.
  assert (forall off, 0 <= off < 512 -> load64 (km_mem k) (tf + off) = load64 (committed m entry sp) (tf + off)) as Hl.
  { intros off Ho. apply load64_ext. intros a Ha. apply Hm. unfold in_page, PGSIZE. lia. }
  unfold starts_at. rewrite !Hl by (unfold TF_EPC, TF_SP, TF_A1; lia).
  unfold committed, TF_EPC, TF_SP, TF_A1. split_and!.
  - rewrite load64_store_ne, load64_store64 by lia. done.
  - by rewrite load64_store64.
  - rewrite !load64_store_ne, load64_store64 by lia. done.
Qed.

Lemma exec_commit_run root k x T l U sz base path entry sp argc :
  img_ok root k T l U sz base -> 0 <= entry < 2 ^ 64 -> 0 <= sp < 2 ^ 64 -> 0 <= argc < 2 ^ 31 ->
  exists k', exec_commit kend PHYSTOP i path root sz entry sp argc (p_sz p) (st s k x) =
      Ok (argc, st (set_proc i (exec_proc path root sz) s) k' x) /\
    replaced k' T root U /\ starts_at k' entry sp /\ forall va, 0 <= va -> ub k' U va = base va.
Proof.
  intros Hi He Hs Hc. set (m3 := committed k entry sp).
  destruct (swap_spaces root k T l U sz base m3 Hi (committed_out k entry sp)) as (Ho & Hn & Hub).
  destruct (proc_freepagetable_run kend PHYSTOP trampoline ents kend_pos phystop_56 (with_own T U F) m3
    (set_mem m3 k) T1 (p_pagetable p) l U1 tf (p_sz p) tf_frame Hsz Ho Hdom) as (k' & l' & E & Hf & Hl).
  destruct (as_survives kend PHYSTOP _ _ _ _ k' _ _ _ l' _ Hn) as [Hn' Hs'].
  { destruct Hf as [Hk Hf]. split; [done|]. intros q Hq. by apply Hf. }
  exists k'. split_and!.
  - unfold exec_commit. rewrite (bind_ok _ _ _ _ _ (getp_st i p s k x Hp)).
    assert (st64 (tf + TF_A1) sp k = Ok (tt, set_mem (store64 (km_mem k) (tf + TF_A1) sp) k)) as E1 by done.
    kstep E1. set (k1 := set_mem _ k). set (nm := safestrcpy (p_name p) (last_elem (cstr path) (cstr path) ++ [0]) 16).
    assert (updp i (fun p => set_name (safestrcpy (p_name p) (last_elem (cstr path) (cstr path) ++ [0]) 16) p) (st s k1 x) =
      Ok (tt, st (set_proc i (set_name nm p) s) k1 x)) as E2 by (unfold updp; cbn; by rewrite Hp).
    rewrite (bind_ok _ _ _ _ _ E2). assert (ps_proc (set_proc i (set_name nm p) s) !! i = Some (set_name nm p)) as Hp1.
    { cbn. apply list_lookup_insert_eq. by eapply lookup_lt_Some. }
    rewrite (bind_ok _ _ _ _ _ (getp_st i _ _ k1 x Hp1)).
    assert (updp i (fun p => set_mm sz root (p_trapframe p) p) (st (set_proc i (set_name nm p) s) k1 x) =
      Ok (tt, st (set_proc i (exec_proc path root sz) s) k1 x)) as E3.
    { unfold updp. cbn in Hp1 |- *. rewrite Hp1. unfold st, set_proc, set_x, set_km. cbn.
      by rewrite list_insert_insert_eq. }
    rewrite (bind_ok _ _ _ _ _ E3). set (s3 := set_proc i (exec_proc path root sz) s).
    assert (st64 (tf + TF_EPC) entry k1 = Ok (tt, set_mem (store64 (km_mem k1) (tf + TF_EPC) entry) k1)) as E4 by done.
    cbn [p_trapframe p_pagetable set_name]. kstep E4. set (k2 := set_mem _ k1).
    assert (st64 (tf + TF_SP) sp k2 = Ok (tt, set_mem m3 k)) as E5 by done. kstep E5. kstep E.
    by rewrite s32_small by lia.
  - exists m3, l'. split; [done|]. split.
    + intros pa a HF Hne Ha. destruct (proj2 Hf pa ltac:(by right)) as (Hpo & _ & ->); [|done].
      unfold m3. rewrite committed_out by (apply (page_apart kend PHYSTOP pa tf); auto; apply tf_page).
      destruct (ao_other _ _ _ _ _ _ _ _ _ _ (im_as _ _ _ _ _ _ _ _ _ _ _ _ _ Hi) pa ltac:(by right)) as (_ & _ & _ & _ & ->); [|done].
      by apply (ao_other _ _ _ _ _ _ _ _ _ _ Hold pa).
    + intros q. rewrite Hl, (im_pages _ _ _ _ _ _ _ _ _ _ _ _ _ Hi q). tauto.
  - apply (committed_regs k' k); [done..|]. intros a Ha. apply (proj2 Hf tf); [by right|done].
  - intros va Hva. rewrite <-Hub by done. by apply ub_same.
Qed.

(** *** The whole *)

Definition elf_hdr (v : nat) : elfhdr := elf_of (slice (exe v) 0 sizeof_elfhdr).
(** Size and contents of the program in file [v]. *)
Definition program (v : nat) : Z * (Z -> Z) :=
  image exe v (Z.to_nat (e_phnum (elf_hdr v))) (s32 (e_phoff (elf_hdr v))) (0, fun _ => 0).
(** What kexec does not check of an executable: see [seg_ok]; and the stack
    has to fit above it. *)
Definition exe_fits (v : nat) : Prop :=
  segs_ok exe v (Z.to_nat (e_phnum (elf_hdr v))) (s32 (e_phoff (elf_hdr v))) 0 /\
  pgroundup64 (fst (program v)) + 2 * PGSIZE <= USER_TOP.

Definition failed (s' : pst X) : Prop := exists k x, s' = st s k x /\ unchanged k /\ xinv None x.

(** The process runs the program [v] with the arguments [strs]. *)
Definition runs (path : list Z) (v : nat) (strs : list (list Z)) (s' : pst X) : Prop :=
  exists k x T U root sp, let sz := pgroundup64 (fst (program v)) + 2 * PGSIZE in
    s' = st (set_proc i (exec_proc path root sz) s) k x /\ xinv None x /\ replaced k T root U /\
    (forall n y, U !! n = Some y -> n < npages sz) /\
    starts_at k (e_entry (elf_hdr v)) sp /\
    (forall va, 0 <= va < sz - PGSIZE -> ub k U va = snd (program v) va) /\
    (exists pa f, U !! npages (fst (program v)) = Some (pa, f) /\ pu f = false) /\
    args_at sz k U sp strs.

Definition exec_end (path : list Z) (strs : list (list Z)) (r : Z) (s' : pst X) : Prop :=
  (r = -1 /\ failed s') \/ exists v, r = zlen strs /\ runs path v strs s'.

Lemma args_at_ext sz k k' U sp strs : PGSIZE <= sz -> args_at sz k U sp strs ->
  (forall va, 0 <= va -> ub k' U va = ub k U va) -> args_at sz k' U sp strs.
Proof.
  clear. intros Hz (Hm & Hb & ps & Ha & Hps) Hub.
  assert (forall q str, 0 <= q -> holds_at k U q str -> holds_at k' U q str) as Hh.
  { intros q str Hq H. eapply holds_at_ext; [exact H|]. intros va Hva. apply Hub. lia. }
  split; [done|]. split; [done|]. exists ps. split; [apply Hh; [lia|done]|].
  eapply Forall2_impl; [exact Hps|]. intros q str (? & ? & ?). split_and!; [done..|]. apply Hh; [lia|done].
Qed.

Lemma arg_at_aside a str : arg_at F mF a str -> arg_at F' mF' a str.
Proof.
  intros (? & HF & Hs). split_and!; [done|by right|]. rewrite (scan_nul_ext _ mF); [done|].
  intros x Hx. apply (ao_other _ _ _ _ _ _ _ _ _ _ Hold a HF). unfold in_page, PGSIZE in *. lia.
Qed.

Section Args.
  Context (path args : list Z) (strs : list (list Z)) (rest : list Z).
  Context (Hargs : Forall2 (arg_at F mF) args strs) (Hlen : (length args < MAXARG)%nat).

Lemma exec_image_run v k x T l root : exe_fits v -> xinv (Some v) x -> root <> 0 ->
  img_ok root k T l ∅ 0 (fun _ => 0) ->
  exists r s', exec_image kend PHYSTOP i path (args ++ 0 :: rest) v (elf_hdr v) root (st s k x) = Ok (r, s') /\
    exec_end path strs r s'.
Proof.
  intros [Hseg Hfit] Hx Hroot Hi.
  assert (forall k' x' T' l' U' sz' base' o, img_ok root k' T' l' U' sz' base' -> xinv o x' ->
    exists r s', exec_bad kend PHYSTOP root sz' o (st s k' x') = Ok (r, s') /\ exec_end path strs r s') as Hbad.
  { intros k' x' T' l' U' sz' base' o Hi' Hx'.
    destruct (exec_bad_image root k' x' T' l' U' sz' base' o Hi' Hroot Hx') as (k2 & x2 & E & Hu & Hx2).
    exists (-1), (st s k2 x2). split; [done|]. left. split; [done|]. by exists k2, x2. }
  unfold exec_image.
  destruct (load_segments_run xinv exe kend PHYSTOP kend_pos phystop_56 F' mF' (ents tf) root l1 s v _ k x T l ∅ 0 _ _ Hi Hx Hseg)
    as (ok & sz1 & k1 & x1 & T2 & l2 & U2 & base2 & E1 & Hx1 & Hi1 & Hok1).
  rewrite (bind_ok _ _ _ _ _ E1). destruct ok; cbn [negb]; [|by eapply Hbad].
  destruct (Hok1 eq_refl) as [Esz Ebase]. fold (program v) in Esz, Ebase.
  destruct (vput_ok v x1 Hx1) as (x2 & E2 & Hx2). xstep E2.
  rewrite (bind_ok _ _ _ _ _ (getp_st i p s k1 x2 Hp)). rewrite <-Esz in Hfit.
  destruct (make_stack_run kend PHYSTOP kend_pos phystop_56 F' mF' (ents tf) root l1 k1 T2 l2 U2 sz1 base2 Hi1 Hfit)
    as (ok & sz3 & k3 & T3 & l3 & U3 & E3 & Hi3 & Hok3).
  kstep E3. destruct ok; cbn [negb]; [|by eapply Hbad]. destruct (Hok3 eq_refl) as (-> & Hst & Hguard).
  pose proof (im_sz _ _ _ _ _ _ _ _ _ _ _ _ _ Hi3) as Hsz3.
  destruct (pgroundup_page sz1 (im_sz _ _ _ _ _ _ _ _ _ _ _ _ _ Hi1)) as [Epg Hpg].
  pose proof (im_sz _ _ _ _ _ _ _ _ _ _ _ _ _ Hi1) as Hsz1.
  set (sz := pgroundup64 sz1 + 2 * PGSIZE) in *.
  assert (2 * PGSIZE <= sz) as Hsz2 by (unfold sz, PGSIZE in *; lia).
  destruct (push_all_run kend PHYSTOP kend_pos phystop_56 F' mF' (ents tf) root (uproc_of p) sz (conj Hsz2 (proj2 Hsz3)) k3 T3 l3 U3
    args strs rest (im_as _ _ _ _ _ _ _ _ _ _ _ _ _ Hi3) Hst) as (r & k4 & E4 & Hok4 & Hub4 & Hr4).
  { eapply Forall2_impl; [exact Hargs|]. intros a str. apply arg_at_aside. }
  { done. }
  kstep E4. assert (img_ok root k4 T3 l3 U3 sz (ub k4 U3)) as Hi4 by (by eapply img_contents).
  destruct r as [[sp argc]|]; [|by eapply Hbad]. destruct Hr4 as [-> Hargs4].
  assert (0 <= sp < 2 ^ 64) as Hsp.
  { destruct Hargs4 as (_ & Hlo & _). pose proof trapframe_top. pose proof maxva_int. unfold USER_TOP, PGSIZE in *. lia. }
  assert (0 <= zlen args < 2 ^ 31) as Hc by (unfold zlen, MAXARG in *; lia).
  assert (0 <= e_entry (elf_hdr v) < 2 ^ 64) as He.
  { apply (rd_range 8). unfold slice. apply Forall_take, Forall_drop, exe_bytes. }
  destruct (exec_commit_run root k4 x2 T3 l3 U3 sz _ path _ sp (zlen args) Hi4 He Hsp Hc) as (k5 & E5 & Hrep & Hregs & Hub5).
  exists (zlen args). eexists. split; [exact E5|]. right. exists v. apply Forall2_length in Hargs as El.
  split; [unfold zlen; by rewrite El|]. exists k5, x2, T3, U3, root, sp. cbn zeta. rewrite <-Esz. fold sz.
  split_and!; [done..|apply (im_dom _ _ _ _ _ _ _ _ _ _ _ _ _ Hi3)|done| |done|].
  - intros va Hva. rewrite Hub5, Hub4, (im_ub _ _ _ _ _ _ _ _ _ _ _ _ _ Hi3) by lia. apply Ebase. lia.
  - eapply args_at_ext; [unfold PGSIZE in *; lia|exact Hargs4|done].
Qed.


End Args.

End Exec.

(** *** What kexec does not check *)

(** A segment at an address the walker refuses brings the kernel down: with a
    page to spare, the growth to it ends in walk's panic. *)
Lemma segment_out_of_range_panics {HA : Arch} kend PHYSTOP root va newsz xperm k q l :
  0 < kend -> kinv kend PHYSTOP k (q :: l) -> 0 <= va -> va mod PGSIZE = 0 -> va < newsz < 2 ^ 64 ->
  hal_pagetable_va_valid va = false ->
  uvmalloc kend PHYSTOP root va newsz xperm k = Fault (FPanic "walk").
Proof.
  intros Hk0 Hk Hva Hal Hn Hbad. unfold uvmalloc. rewrite (proj2 (Z.ltb_ge _ _)) by lia.
  replace (pgroundup64 va) with va.
  2: { unfold pgroundup64. replace (PGROUNDUP va) with va; [unfold u64; rewrite Z.mod_small; lia|].
       rewrite PGROUNDUP_div. unfold PGSIZE in *. dlia. }
  rewrite Nat.add_comm. cbn [Nat.add loop]. unfold uvmalloc_body at 1.
  rewrite (proj2 (Z.ltb_lt _ _)) by lia. cbn [negb].
  destruct (kalloc_ok kend PHYSTOP Hk0 k _ Hk) as (k1 & E1 & _ & _).
  destruct Hk as (_ & _ & [[_ Hq] _]%Forall_cons).
  rewrite bind_assoc, (bind_ok _ _ _ _ _ E1), (proj2 (Z.eqb_neq q 0)) by lia.
  unfold zero_page, modify. rewrite bind_assoc, (bind_ok _ _ k1 tt _) by reflexivity.
  unfold mappages. rewrite (proj2 (Z.eqb_eq (va mod PGSIZE) 0)) by done.
  change (PGSIZE mod PGSIZE =? 0) with true. change (PGSIZE =? 0) with false.
  change (Z.to_nat (PGSIZE / PGSIZE)) with 1%nat. cbn [negb loop]. unfold mappages_body, walk. rewrite Hbad. done.
Qed.

(** *** A run *)

(** One executable, with a header and no segments. *)
Definition wit_exe (_ : nat) : list Z := [127; 69; 76; 70] ++ replicate 60 0.

#[local] Instance wit_open : OpenFiles unit := {|
  filedup := fun f => ret f; fileclose := fun _ => ret tt; vget := fun v => ret v; vput := fun _ => ret tt
|}.
#[local] Instance wit_files : ExecFiles unit := {|
  vfs_namei := fun _ => ret (Some 0%nat);
  vfs_read_kernel := fun v n off => ret (zlen (slice (wit_exe v) off n), slice (wit_exe v) off n)
|}.
#[local] Instance wit_files_ok : ExecFilesOk unit (fun _ _ => True) wit_exe.
Proof.
  constructor.
  - intros path x _. by exists (Some 0%nat), x.
  - intros v n off x _ Hn Ho. eexists _, _, x. split; [done|].
    assert (zlen (slice (wit_exe v) off n) <= Z.min n 64).
    { unfold zlen, slice. rewrite length_take, length_drop. cbn. lia. }
    assert (0 <= zlen (slice (wit_exe v) off n)) by (unfold zlen; lia). split_and!; [done|lia|lia|lia|done].
  - intros v. unfold wit_exe. apply Forall_app. split; [|apply Forall_replicate]; repeat constructor; lia.
  - intros v x _. by exists x.
Qed.

Definition wit_proc (root tf : Z) : proc :=
  Proc Spin.initlock RUNNING None 0 0 1 None 0 0 root tf NoContext (replicate NOFILE None) None (replicate 16 0).
Definition wit_pst (root tf : Z) (k : kmem) : pst unit :=
  Pst [wit_proc root tf] [Cpu (Spin.Cpu 0 true true) (Some 0%nat)] Spin.initlock Spin.initlock Spin.initlock []
    2 (Some 0%nat) k tt.

