(* ===== verification/Sysproc.v ===== *)
(** Sysproc: kernel/sysproc.c, the system calls on processes and memory, and
    the dispatch of system calls in kernel/syscall.c.

    A call gives [Some] value when it returns, and [None] when it has given up
    the CPU: it sleeps, and goes on with another round when it is woken, or the
    process is gone.  The calls of sysfile.c are reached through an interface. *)

From S2P Require Import Prelude CString Kalloc Locks Arch Vm Hal Proc Sysarg Exec.

Definition SBRK_EAGER : Z := 1.
Definition NSYSCALLS : Z := 24.

(** The kernel with its clock. *)
Record kst (X : Type) : Type := Kst { ks_p : pst X; ks_ticks : Z }.
Arguments Kst {X}.
Arguments ks_p {X}.
Arguments ks_ticks {X}.

(** The calls of sysfile.c, by number, but exec. *)
Class FileCalls (X : Type) : Type := { file_call : Z -> M (pst X) (option Z) }.

Section Sysproc.
  Context {X : Type} `{OpenFiles X} `{ExecFiles X} `{FileCalls X} `{Hal}.
  Context (kend PHYSTOP trampoline : Z) (me : nat).
  Local Abbreviation MP := (M (pst X)).
  Local Abbreviation MK := (M (kst X)).

Definition onp {A} (m : MP A) : MK A := zoom ks_p (fun p s => Kst p (ks_ticks s)) m.
Definition returns {A} (m : MK A) : MK (option A) := a <- m ;; ret (Some a).

Definition sys_exit : MP (option Z) :=
  n <- argint me 0 ;; kexit me n ;;; ret None.

Definition sys_getpid : MP (option Z) :=
  i <- curproc me ;; p <- getp i ;; ret (Some (p_pid p)).

Definition sys_fork : MP (option Z) := v <- kfork kend PHYSTOP trampoline me ;; ret (Some v).

Definition sys_wait : MP (option Z) := p <- argaddr me 0 ;; kwait kend PHYSTOP me p.

Definition sys_sbrk : MP (option Z) :=
  n <- argint me 0 ;;
  t <- argint me 1 ;;
  i <- curproc me ;;
  p <- getp i ;;
  let addr := p_sz p in
  if (t =? SBRK_EAGER) || (n <? 0)
  then r <- growproc kend PHYSTOP me n ;; if r <? 0 then ret (Some (-1)) else ret (Some addr)
  else if u64 (addr + n) <? addr then ret (Some (-1))
  else if u64 (addr + n) >? USER_TOP then ret (Some (-1))
  else
    i <- curproc me ;;
    updp i (fun p => set_mm (u64 (p_sz p + n)) (p_pagetable p) (p_trapframe p) p) ;;;
    ret (Some addr).

(** One round of the loop of sys_pause, with tickslock held. *)
Definition pause_round (i : nat) (ticks0 n : Z) : MK (option Z) :=
  ticks <- gets ks_ticks ;;
  if u32 (ticks - ticks0) <? n
  then
    k <- onp (killed me i) ;;
    if negb (k =? 0) then onp (release me LTicks) ;;; ret (Some (-1))
    else onp (sleep me (Some ChTicks) LTicks) ;;; ret None
  else onp (release me LTicks) ;;; ret (Some 0).

Definition sys_pause : MK (option Z) :=
  n <- onp (argint me 0) ;;
  let n := if n <? 0 then 0 else n in
  onp (acquire me LTicks) ;;;
  ticks0 <- gets ks_ticks ;;
  i <- onp (curproc me) ;;
  pause_round i ticks0 n.

Definition sys_kill : MP (option Z) := pid <- argint me 0 ;; v <- kkill me pid ;; ret (Some v).

Definition sys_uptime : MK (option Z) :=
  onp (acquire me LTicks) ;;; xticks <- gets ks_ticks ;; onp (release me LTicks) ;;; ret (Some xticks).

(** The table of handlers. *)
Definition syscalls (num : Z) : option (MK (option Z)) :=
  if num =? 1 then Some (onp sys_fork)
  else if num =? 2 then Some (onp sys_exit)
  else if num =? 3 then Some (onp sys_wait)
  else if num =? 6 then Some (onp sys_kill)
  else if num =? 7 then Some (onp (v <- sys_exec kend PHYSTOP trampoline me ;; ret (Some v)))
  else if num =? 11 then Some (onp sys_getpid)
  else if num =? 12 then Some (onp sys_sbrk)
  else if num =? 13 then Some sys_pause
  else if num =? 14 then Some sys_uptime
  else if (1 <=? num) && (num <=? 23) then Some (onp (file_call num))
  else None.

(** What happens to the value of a call that has returned; a call that has
    given up the CPU does it when it returns. *)
Definition sys_ret (i : nat) (r : option Z) : MK (option unit) :=
  match r with
  | None => ret None
  | Some v => onp (p <- getp i ;; onkm (st64 (p_trapframe p + TF_A0) (u64 v))) ;;; ret (Some tt)
  end.

(** The message about an unknown call is not part of the state. *)
Definition syscall : MK (option unit) :=
  i <- onp (curproc me) ;;
  a7 <- onp (p <- getp i ;; onkm (ld64 (p_trapframe p + TF_A7))) ;;
  let num := s32 a7 in
  match (if (0 <? num) && (num <? NSYSCALLS) then syscalls num else None) with
  | Some h => r <- h ;; sys_ret i r
  | None => sys_ret i (Some (-1))
  end.

End Sysproc.
