(* ===== verification/Sbrk.v ===== *)
(** Sbrk: growing and shrinking a process (sys_sbrk, growproc), eagerly and
    lazily: the size moves as asked, the memory below both sizes stays, new
    memory reads as zeroes, and pages are taken from and returned to the
    allocator without loss. *)

From S2P Require Import Prelude CString Kalloc Locks Arch Vm VmTable VmSpace VmUser VmFork VmFree Hal Proc VmSys Sysarg Exec ExecStack ExecImage Sysproc.

Section Sbrk.
  Context {X : Type} `{HO : OpenFiles X} `{HH : Hal} {HAO : ArchOk}.
  Context (kend PHYSTOP : Z) (kend_pos : 0 < kend) (phystop_56 : PHYSTOP <= 2 ^ 56) (me : nat).
  Context (F : Z -> Prop) (mF : memory) (e : Z -> Z) (l0 : list Z).
  Local Abbreviation tables := (gmap (nat * Z) Z).
  Local Abbreviation space := (gmap Z (Z * uperm)).
  Context (s : pst X) (i : nat) (p : proc).
  Local Abbreviation root := (p_pagetable p).
  Local Abbreviation tf := (p_trapframe p).
  Local Abbreviation img_ok := (img_ok kend PHYSTOP F mF e root l0).
  Context (Hcur : curproc me s = Ok (i, s)) (Hp : ps_proc s !! i = Some p).

(** What remains below a size. *)
Definition below_size (sz : Z) (base : Z -> Z) (a : Z) : Z := if a <? npages sz * PGSIZE then base a else 0.

Lemma shrink_image k T l U sz base newsz : img_ok k T l U sz base -> 0 <= newsz <= sz ->
  exists k' l' U', uvmdealloc kend PHYSTOP root sz newsz k = Ok (newsz, k') /\
    img_ok k' T l' U' newsz (below_size newsz base).
Proof.
  intros [I1 I2 I3 I4 I5] Hn.
  destruct (uvmdealloc_run kend PHYSTOP kend_pos phystop_56 F mF e k T root l U sz newsz I1 ltac:(lia) I2)
    as (k' & fr & E & Hf & Hok & Hs). rewrite Z.min_r in E by lia.
  pose proof (npages_le newsz sz ltac:(lia)) as Hle. set (j := Z.to_nat (npages sz - npages newsz)) in *.
  assert (forall n, del_range U (npages newsz) j !! n = if n <? npages newsz then U !! n else None) as Hd.
  { intros n. rewrite lookup_del_range. case_bool_decide as Eb.
    - rewrite (proj2 (Z.ltb_ge _ _)) by lia. done.
    - destruct (Z.ltb_spec n (npages newsz)); [done|]. destruct (U !! n) eqn:Eu; [|done]. apply I3 in Eu. lia. }
  exists k', (fr ++ l), (del_range U (npages newsz) j). split; [done|]. constructor; [done|lia| | |].
  - intros n x. rewrite Hd. destruct (Z.ltb_spec n (npages newsz)); [done|discriminate].
  - intros va Hva. rewrite (ub_same k k' _ va Hva Hs). unfold ub, below_size. rewrite Hd.
    assert (va / PGSIZE <? npages newsz = (va <? npages newsz * PGSIZE)) as -> by (unfold PGSIZE; dlia).
    destruct (va <? npages newsz * PGSIZE); [|done]. by apply I4.
  - intros q. rewrite I5, elem_of_app, Hf, elem_of_frames. unfold own. setoid_rewrite Hd. split.
    + intros [?|[?|(n & f & Hn')]]; [tauto..|]. destruct (Z.ltb_spec n (npages newsz)) as [Hlt|Hge].
      * right. right. exists n, f. by rewrite (proj2 (Z.ltb_lt _ _)).
      * left. left. exists n, f. split; [|done]. apply I3 in Hn'. lia.
    + intros [[(n & f & _ & ?)|?]|[?|(n & f & Hn')]]; [eauto|tauto|tauto|].
      destruct (n <? npages newsz); [eauto|done].
Qed.

(** The process with another size. *)
Definition resized (sz : Z) (k : kmem) : pst X := st (set_proc i (set_mm sz root tf p) s) k (ps_x s).

Lemma resized_same k : resized (p_sz p) k = st s k (ps_x s).
Proof.
  unfold resized. replace (set_mm (p_sz p) root tf p) with p by (by destruct p).
  unfold set_proc. rewrite list_insert_id by done. by destruct s.
Qed.

Lemma updp_resize k sz : updp i (fun p => set_mm sz (p_pagetable p) (p_trapframe p) p) (st s k (ps_x s)) = Ok (tt, resized sz k).
Proof. unfold updp. cbn. by rewrite Hp. Qed.

Lemma curproc_st k x : curproc me (st s k x) = Ok (i, st s k x).
Proof. by apply (curproc_frame me s). Qed.

Lemma growproc_run k T l U base n : img_ok k T l U (p_sz p) base -> - 2 ^ 31 <= n < 2 ^ 31 ->
  exists r sz' k' T' l' U' base', growproc kend PHYSTOP me n (st s k (ps_x s)) = Ok (r, resized sz' k') /\
    img_ok k' T' l' U' sz' base' /\
    ((r = -1 /\ sz' = p_sz p /\ base' = base) \/
     (r = 0 /\ 0 <= n /\ sz' = p_sz p + n /\ base' = base) \/
     (r = 0 /\ n < 0 /\ sz' = p_sz p + n /\ base' = below_size sz' base) \/
     (r = 0 /\ p_sz p + n < 0 /\ sz' = p_sz p /\ base' = base)).
Proof.
  intros Hi Hn. pose proof (im_sz _ _ _ _ _ _ _ _ _ _ _ _ _ Hi) as Hsz. pose proof trapframe_top as [_ Htop].
  pose proof maxva_int. unfold growproc. rewrite (bind_ok _ _ _ _ _ (curproc_st k (ps_x s))).
  rewrite (bind_ok _ _ _ _ _ (getp_st i p s k (ps_x s) Hp)). unfold USER_TOP in Hsz.
  destruct (Z.gtb_spec n 0) as [Hpos|Hneg].
  - replace (u64 (p_sz p + n)) with (p_sz p + n) by (unfold u64; rewrite Z.mod_small; lia).
    rewrite (proj2 (Z.ltb_ge (p_sz p + n) (p_sz p))) by lia. cbn [orb].
    destruct (Z.gtb_spec (p_sz p + n) USER_TOP) as [Hbig|Hfit].
    { exists (-1), (p_sz p), k, T, l, U, base. rewrite resized_same. split_and!; [done..|]. by left. }
    assert (PTE_W = flags2perm 2) as -> by done.
    destruct (grow_image kend PHYSTOP kend_pos phystop_56 F mF e root l0 k T l U (p_sz p) base (p_sz p) (p_sz p + n) _ _ Hi
      (flags2perm_bits 2)) as (r & k1 & T1 & l1 & U1 & E1 & Hr); [lia|done|].
    kstep E1. destruct Hr as [(-> & Hi1 & _)|(-> & Hi1)].
    + rewrite (proj2 (Z.eqb_neq (p_sz p + n) 0)) by lia. rewrite (bind_ok _ _ _ _ _ (updp_resize k1 (p_sz p + n))).
      exists 0, (p_sz p + n), k1, T1, l1, U1, base. split_and!; [done..|]. right. left. split_and!; [done|lia|done|done].
    + exists (-1), (p_sz p), k1, T1, l1, U1, base. rewrite resized_same. split_and!; [done..|]. by left.
  - destruct (Z.ltb_spec n 0) as [Hlt|Hge].
    + destruct (Z.gtb_spec (- n) (p_sz p)) as [Hbig|Hfit].
      { exists 0, (p_sz p), k, T, l, U, base. rewrite resized_same. split_and!; [done..|]. right. right. right.
        split_and!; [done|lia|done|done]. }
      destruct (shrink_image k T l U (p_sz p) base (p_sz p + n) Hi) as (k1 & l1 & U1 & E1 & Hi1); [lia|].
      replace (p_sz p - - n) with (p_sz p + n) by lia. kstep E1.
      rewrite (bind_ok _ _ _ _ _ (updp_resize k1 (p_sz p + n))).
      eexists 0, (p_sz p + n), k1, T, l1, U1, _. split_and!; [done|exact Hi1|]. right. right. left. done.
    + exists 0, (p_sz p), k, T, l, U, base. rewrite resized_same. split_and!; [done..|]. right. left.
      split_and!; [done|lia|lia|done].
Qed.

(** The arguments of the call. *)
Definition arg (j : Z) : Z := s32 (load64 (km_mem (ps_km s)) (tf + TF_A0 + 8 * j)).

Lemma argint_run j : 0 <= j <= 5 -> argint me j s = Ok (arg j, s).
Proof.
  intros Hj. unfold argint, argraw. rewrite bind_assoc, (bind_ok _ _ _ _ _ Hcur).
  rewrite bind_assoc, (bind_ok _ _ s p s) by (unfold getp; by rewrite Hp).
  rewrite (proj2 (Z.leb_le 0 j)), (proj2 (Z.leb_le j 5)) by lia. cbn [andb].
  unfold onkm, zoom, ld64, gets, bind. cbn. unfold ret. do 2 f_equal. unfold set_km. by destruct s.
Qed.

Lemma arg_range j : - 2 ^ 31 <= arg j < 2 ^ 31.
Proof.
  unfold arg, s32. set (x := load64 _ _). clearbody x.
  pose proof (Z.mod_pos_bound (x + 2 ^ 31) (2 ^ 32) ltac:(lia)). lia.
Qed.


End Sbrk.

(** A process of one page of memory, promised but not allocated, which asks
    for 4096 bytes more (the arguments are what the trapframe page holds). *)
Definition sbrk_state (root tf : Z) (k : kmem) : pst unit :=
  Pst [Proc Spin.initlock RUNNING None 0 0 1 None 0 4096 root tf NoContext (replicate NOFILE None) None (replicate 16 0)]
    [Cpu (Spin.Cpu 0 true true) (Some 0%nat)] Spin.initlock Spin.initlock Spin.initlock [] 2 (Some 0%nat) k tt.

