(* ===== verification/Irq.v ===== *)
(** Irq: the interrupt controllers, hal/riscv/hal_plic.c and
    hal/loongarch/hal_intr.c.

    The controller is the other side of the registers: the PLIC of the RISC-V
    platform specification with a gateway for each level-triggered source, and
    the EIOINTC as a memory of IOCSR words whose COREISR is cleared by writing
    ones. *)

From S2P Require Import Prelude.

Module Plic.

Definition PLIC : Z := 201326592.
Definition PLIC_SENABLE (hart : Z) : Z := PLIC + 8320 + hart * 256.
Definition PLIC_SPRIORITY (hart : Z) : Z := PLIC + 2101248 + hart * 8192.
Definition PLIC_SCLAIM (hart : Z) : Z := PLIC + 2101252 + hart * 8192.
Definition UART0_IRQ : Z := 10.
Definition VIRTIO0_IRQ : Z := 1.
Definition VIRTIO1_IRQ : Z := 2.
Definition VIRTIO2_IRQ : Z := 3.
Definition NCPU : Z := 8.

(** The words at the addresses of priorities, enables and thresholds; the lines
    that are raised; the requests that wait, and those being served. *)
Record plic : Type := Plic { g_reg : Z -> Z; g_line : gset Z; g_pend : gset Z; g_busy : gset Z }.

Definition NSOURCES : Z := 32.

(** *** The controller *)

(** The source may interrupt the hart. *)
Definition enabled (s : plic) (hart irq : Z) : bool :=
  Z.testbit (g_reg s (PLIC_SENABLE hart)) irq && (g_reg s (PLIC_SPRIORITY hart) <? g_reg s (PLIC + irq * 4)).

(** The source with the highest priority, the lowest number among equals. *)
Definition better (s : plic) (a b : Z) : bool := g_reg s (PLIC + b * 4) <=? g_reg s (PLIC + a * 4).
Definition pick (s : plic) (hart : Z) : Z :=
  foldr (fun irq best => if bool_decide (irq ∈ g_pend s) && enabled s hart irq && ((best =? 0) || better s irq best) then irq else best) 0 (seqZ 1 (NSOURCES - 1)).

(** A gateway lets a raised line through, unless the last request is still
    being served. *)
Definition gateway (s : plic) (irq : Z) : plic :=
  if bool_decide (irq ∈ g_line s) && negb (bool_decide (irq ∈ g_busy s)) then Plic (g_reg s) (g_line s) ({[irq]} ∪ g_pend s) (g_busy s) else s.

Definition raise (irq : Z) (s : plic) : plic := gateway (Plic (g_reg s) ({[irq]} ∪ g_line s) (g_pend s) (g_busy s)) irq.
Definition lower (irq : Z) (s : plic) : plic := Plic (g_reg s) (g_line s ∖ {[irq]}) (g_pend s) (g_busy s).

Definition is_claim (a : Z) : option Z :=
  let hart := (a - PLIC_SCLAIM 0) / 8192 in
  if (a =? PLIC_SCLAIM hart) && (0 <=? hart) && (hart <? NCPU) then Some hart else None.

(** A load from the claim register claims; a store completes. *)
Definition rd_reg (a : Z) : M plic Z :=
  fun s => match is_claim a with
    | Some hart =>
        let irq := pick s hart in
        Ok (irq, if irq =? 0 then s else Plic (g_reg s) (g_line s) (g_pend s ∖ {[irq]}) ({[irq]} ∪ g_busy s))
    | None => Ok (g_reg s a, s)
    end.
Definition wr_reg (a x : Z) : M plic unit :=
  fun s => match is_claim a with
    | Some hart =>
        Ok (tt, if Z.testbit (g_reg s (PLIC_SENABLE hart)) x then gateway (Plic (g_reg s) (g_line s) (g_pend s) (g_busy s ∖ {[x]})) x else s)
    | None => Ok (tt, Plic (fun b => if b =? a then u32 x else g_reg s b) (g_line s) (g_pend s) (g_busy s))
    end.

(** *** The driver *)

Definition hal_irq_init : M plic unit :=
  wr_reg (PLIC + UART0_IRQ * 4) 1 ;;;
  wr_reg (PLIC + VIRTIO0_IRQ * 4) 1 ;;;
  wr_reg (PLIC + VIRTIO1_IRQ * 4) 1 ;;;
  wr_reg (PLIC + VIRTIO2_IRQ * 4) 1.

Definition hal_irq_hart_init (hart : Z) : M plic unit :=
  let mask := Z.lor (Z.shiftl 1 UART0_IRQ) (Z.shiftl 1 VIRTIO0_IRQ) in
  let mask := Z.lor mask (Z.shiftl 1 VIRTIO1_IRQ) in
  let mask := Z.lor mask (Z.shiftl 1 VIRTIO2_IRQ) in
  wr_reg (PLIC_SENABLE hart) mask ;;;
  wr_reg (PLIC_SPRIORITY hart) 0.

Definition hal_irq_claim (hart : Z) : M plic Z :=
  irq <- rd_reg (PLIC_SCLAIM hart) ;;
  ret (if s32 irq =? 0 then -1 else s32 irq).

Definition hal_irq_complete (hart irq : Z) : M plic unit := wr_reg (PLIC_SCLAIM hart) irq.

(** The sources the kernel knows. *)
Definition known (irq : Z) : bool := (irq =? UART0_IRQ) || (irq =? VIRTIO0_IRQ) || (irq =? VIRTIO1_IRQ) || (irq =? VIRTIO2_IRQ).

(** *** Runs *)

(** The harts, the lines, and who serves which request. *)
Inductive step : plic * list (Z * Z) -> plic * list (Z * Z) -> Prop :=
  | step_raise s serving irq : known irq = true -> step (s, serving) (raise irq s, serving)
  | step_lower s serving irq : step (s, serving) (lower irq s, serving)
  | step_claim s s' serving hart irq : 0 <= hart < NCPU -> hal_irq_claim hart s = Ok (irq, s') -> irq >= 0 -> step (s, serving) (s', (hart, irq) :: serving)
  | step_spurious s s' serving hart : 0 <= hart < NCPU -> hal_irq_claim hart s = Ok (-1, s') -> step (s, serving) (s', serving)
  | step_complete s s' l1 l2 hart irq : hal_irq_complete hart irq s = Ok (tt, s') -> step (s, l1 ++ (hart, irq) :: l2) (s', l1 ++ l2).

(** All harts have started and nothing has been raised. *)
Definition booted (r : Z -> Z) : plic :=
  match (hal_irq_init ;;; for_each (seqZ 0 NCPU) hal_irq_hart_init) (Plic r ∅ ∅ ∅) with Ok (_, s) => s | Fault _ => Plic r ∅ ∅ ∅ end.

(** *** The invariant *)

(** Every hart accepts the known sources, with a threshold below their priority. *)
Definition conf (s : plic) : Prop :=
  (forall hart, 0 <= hart < NCPU -> g_reg s (PLIC_SENABLE hart) = 1038 /\ g_reg s (PLIC_SPRIORITY hart) = 0) /\
  forall irq, known irq = true -> g_reg s (PLIC + irq * 4) = 1.

Lemma booted_conf r : conf (booted r) /\ g_line (booted r) = ∅ /\ g_pend (booted r) = ∅ /\ g_busy (booted r) = ∅.
Proof.
  split; [|done]. split.
  - intros hart Hh. assert (hart ∈ seqZ 0 8) as Hin by (apply elem_of_seqZ; exact Hh). clear Hh. revert hart Hin. apply Forall_forall.
    repeat (apply Forall_cons; split; [by vm_compute|]). by apply Forall_nil.
  - intros irq Hk. unfold known in Hk.
    assert (irq ∈ [10; 1; 2; 3]) as Hin by (unfold UART0_IRQ, VIRTIO0_IRQ, VIRTIO1_IRQ, VIRTIO2_IRQ in Hk; rewrite !elem_of_cons; lia).
    clear Hk. revert irq Hin. apply Forall_forall. repeat (apply Forall_cons; split; [by vm_compute|]). by apply Forall_nil.
Qed.

Lemma known_range irq : known irq = true -> 1 <= irq < NSOURCES.
Proof. unfold known, UART0_IRQ, VIRTIO0_IRQ, VIRTIO1_IRQ, VIRTIO2_IRQ, NSOURCES. lia. Qed.

Lemma known_enabled s hart irq : conf s -> 0 <= hart < NCPU -> known irq = true -> enabled s hart irq = true.
Proof.
  intros [Hc Hp] Hh Hk. unfold enabled. destruct (Hc hart Hh) as [-> ->]. rewrite (Hp irq Hk). unfold known in Hk. unfold UART0_IRQ, VIRTIO0_IRQ, VIRTIO1_IRQ, VIRTIO2_IRQ in Hk.
  assert (irq = 10 \/ irq = 1 \/ irq = 2 \/ irq = 3) as [-> | [-> | [-> | ->]]] by lia; done.
Qed.

(** The choice: nothing, if nothing is there to choose. *)
Lemma pick_spec s hart : (pick s hart = 0 \/ (pick s hart ∈ g_pend s /\ 1 <= pick s hart < NSOURCES)) /\
  forall irq, irq ∈ g_pend s -> enabled s hart irq = true -> 1 <= irq < NSOURCES -> pick s hart <> 0.
Proof.
  unfold pick. set (f := fun irq best => _).
  assert (forall l, (forall x, x ∈ l -> 1 <= x < NSOURCES) -> (foldr f 0 l = 0 \/ (foldr f 0 l ∈ g_pend s /\ 1 <= foldr f 0 l < NSOURCES)) /\
    forall irq, irq ∈ g_pend s -> enabled s hart irq = true -> irq ∈ l -> foldr f 0 l <> 0) as H.
  { induction l as [|x l IH]; intros Hl; cbn [foldr]; [split; [by left|by intros ? _ _ ?%elem_of_nil]|].
    destruct IH as [IH1 IH2]; [intros; apply Hl; by right|]. pose proof (Hl x ltac:(by left)) as Hx. set (b := foldr f 0 l) in *.
    change (f x b) with (if bool_decide (x ∈ g_pend s) && enabled s hart x && ((b =? 0) || better s x b) then x else b).
    destruct (bool_decide (x ∈ g_pend s)) eqn:Ep; cbn [andb].
    - apply bool_decide_eq_true in Ep. destruct (enabled s hart x) eqn:Ee; cbn [andb].
      + destruct ((b =? 0) || better s x b) eqn:Eb; [split; [by right|intros; lia]|].
        split; [done|]. intros. intros E0. rewrite E0 in Eb. done.
      + split; [done|]. intros irq Hp He [->|Hin]%elem_of_cons; [congruence|eauto].
    - apply bool_decide_eq_false in Ep. split; [done|]. intros irq Hp He [->|Hin]%elem_of_cons; [done|eauto]. }
  destruct (H (seqZ 1 (NSOURCES - 1))) as [H1 H2]; [intros x Hx; apply elem_of_seqZ in Hx; lia|]. split; [done|].
  intros irq Hp He Hr. apply (H2 irq); [done|done|]. apply elem_of_seqZ. lia.
Qed.

Lemma is_claim_at hart : 0 <= hart < NCPU -> is_claim (PLIC_SCLAIM hart) = Some hart.
Proof.
  intros Hh. unfold is_claim. replace ((PLIC_SCLAIM hart - PLIC_SCLAIM 0) / 8192) with hart by (unfold PLIC_SCLAIM; dlia).
  rewrite Z.eqb_refl. unfold NCPU in *. replace (0 <=? hart) with true by lia. by replace (hart <? 8) with true by lia.
Qed.

Lemma claim_run hart s : 0 <= hart < NCPU ->
  hal_irq_claim hart s = if pick s hart =? 0 then Ok (-1, s) else Ok (pick s hart, Plic (g_reg s) (g_line s) (g_pend s ∖ {[pick s hart]}) ({[pick s hart]} ∪ g_busy s)).
Proof.
  intros Hh. unfold hal_irq_claim, rd_reg, bind. rewrite is_claim_at by done. destruct (pick_spec s hart) as [[E|[_ Hr]] _].
  - by rewrite E.
  - unfold NSOURCES in Hr. rewrite s32_small by lia. unfold ret. by destruct (Z.eqb_spec (pick s hart) 0).
Qed.

Record inv (st : plic * list (Z * Z)) : Prop := Inv {
  iv_conf : conf st.1;
  iv_serving : forall hart irq, (hart, irq) ∈ st.2 -> 0 <= hart < NCPU /\ known irq = true;
  iv_once : NoDup (snd <$> st.2);
  iv_busy : forall irq, irq ∈ g_busy st.1 <-> irq ∈ snd <$> st.2;
  iv_pend : forall irq, irq ∈ g_pend st.1 -> known irq = true /\ irq ∉ g_busy st.1;
  iv_line : forall irq, irq ∈ g_line st.1 -> known irq = true /\ (irq ∈ g_pend st.1 \/ irq ∈ g_busy st.1)
}.

Lemma gateway_cases s irq : (irq ∈ g_line s /\ irq ∉ g_busy s /\ gateway s irq = Plic (g_reg s) (g_line s) ({[irq]} ∪ g_pend s) (g_busy s)) \/
  ((irq ∉ g_line s \/ irq ∈ g_busy s) /\ gateway s irq = s).
Proof. unfold gateway. destruct (bool_decide_reflect (irq ∈ g_line s)), (bool_decide_reflect (irq ∈ g_busy s)); cbn; auto. Qed.

Lemma plic_inv_step st st' : inv st -> step st st' -> inv st'.
Proof.
  intros [C V O B P L] Hs. destruct Hs as [s sv irq Hk|s sv irq|s s' sv hart irq Hh E Hi|s s' sv hart Hh E|s s' l1 l2 hart irq E]; cbn [fst snd] in *.
  - unfold raise. destruct (gateway_cases (Plic (g_reg s) ({[irq]} ∪ g_line s) (g_pend s) (g_busy s)) irq) as [(H1 & H2 & ->)|(H1 & ->)]; cbn in *; constructor; cbn; try done.
    + intros i. set_solver.
    + intros i Hi. destruct (decide (i = irq)) as [->|]; [set_solver|]. destruct (L i); set_solver.
    + intros i Hi. destruct (decide (i = irq)) as [->|]; [set_solver|]. destruct (L i); set_solver.
  - constructor; cbn; try done. intros i Hi. apply L. set_solver.
  - rewrite claim_run in E by done. destruct (Z.eqb_spec (pick s hart) 0) as [E0|E0]; [injection E as <- <-; lia|]. injection E as <- <-.
    destruct (pick_spec s hart) as [[?|[Hp _]] _]; [done|]. destruct (P _ Hp) as [Hk Hnb]. constructor; cbn; try done.
    + intros h i [[= -> ->]|Hin]%elem_of_cons; [done|by apply V].
    + constructor; [|done]. by rewrite <-B.
    + intros i. rewrite elem_of_cons, <-B. set_solver.
    + intros i Hi'. destruct (P i); set_solver.
    + intros i Hi'. destruct (L i Hi') as [Hk' [?|?]]; (split; [done|]); destruct (decide (i = pick s hart)) as [->|]; set_solver.
  - rewrite claim_run in E by done. destruct (Z.eqb_spec (pick s hart) 0) as [E0|E0]; [injection E as <-; by constructor|].
    injection E as E _. destruct (pick_spec s hart) as [[?|[_ Hr]] _]; [done|lia].
  - destruct (V hart irq ltac:(set_solver)) as [Hh Hk]. unfold hal_irq_complete, wr_reg in E. rewrite is_claim_at in E by done.
    assert (Z.testbit (g_reg s (PLIC_SENABLE hart)) irq = true) as Et by (pose proof (known_enabled s hart irq C Hh Hk) as He; unfold enabled in He; by apply andb_true_iff in He as [? _]).
    rewrite Et in E. injection E as <-. rewrite fmap_app, fmap_cons in O, B. cbn in O, B.
    assert (irq ∉ (snd <$> l1) ++ (snd <$> l2) /\ NoDup ((snd <$> l1) ++ (snd <$> l2))) as [Hni Hnd].
    { rewrite <-Permutation_middle in O. by apply NoDup_cons in O. }
    assert (forall i, i ∈ g_busy s ∖ {[irq]} <-> i ∈ snd <$> (l1 ++ l2)) as B'.
    { intros i. rewrite fmap_app. specialize (B i). rewrite <-Permutation_middle, elem_of_cons in B. split; [set_solver|]. intros Hi. assert (i <> irq) by (intros ->; contradiction). set_solver. }
    destruct (gateway_cases (Plic (g_reg s) (g_line s) (g_pend s) (g_busy s ∖ {[irq]})) irq) as [(H1 & H2 & ->)|(H1 & ->)]; cbn in *; constructor; cbn; try done.
    all: try (intros h i Hin; apply V; set_solver). all: try (by rewrite fmap_app).
    + intros i Hi. destruct (decide (i = irq)) as [->|]; [set_solver|]. destruct (P i); set_solver.
    + intros i Hi. destruct (decide (i = irq)) as [->|]; [set_solver|]. destruct (L i); set_solver.
    + intros i Hi. destruct (P i); set_solver.
    + intros i Hi. destruct (L i) as [? [?|?]]; [done|set_solver|]. destruct (decide (i = irq)) as [->|]; set_solver.
Qed.

Lemma inv_reach r st : rtc step (booted r, []) st -> inv st.
Proof.
  pose proof (booted_conf r) as (C & E1 & E2 & E3). revert C E1 E2 E3. generalize (booted r). intros s0 C E1 E2 E3 H. assert (inv (s0, [])) as H0.
  { constructor; cbn [fst snd]; [done| |constructor|..]; rewrite ?E1, ?E2, ?E3; set_solver. }
  remember (s0, []) as st0 eqn:E. clear E E1 E2 E3 C. induction H as [|a b c Hs _ IH]; [done|]. apply IH. by eapply plic_inv_step.
Qed.

(** C18: Interrupts through the PLIC.  Whatever devices raise and lower their lines
    and harts claim and complete in any order, no request is served by two harts
    at once; a raised line is always waiting or being served, and when serving
    ends with the line still raised it waits again; and when something waits,
    every hart that asks gets a request, one of the kernel's devices. *)
Theorem plic_serves_once r s serving (H : rtc step (booted r, []) (s, serving)) :
  NoDup (snd <$> serving) /\
  (forall irq, irq ∈ g_line s -> irq ∈ g_pend s \/ exists hart, (hart, irq) ∈ serving) /\
  (forall hart irq, (hart, irq) ∈ serving -> irq ∈ g_line s -> exists s', hal_irq_complete hart irq s = Ok (tt, s') /\ irq ∈ g_pend s') /\
  (forall hart, 0 <= hart < NCPU -> g_pend s <> ∅ -> exists irq s', hal_irq_claim hart s = Ok (irq, s') /\ irq ∈ g_pend s /\ known irq = true /\ irq ∉ g_pend s').
Proof.
  apply inv_reach in H as [C V O B P L]. cbn [fst snd] in *. split_and!; [done| | |].
  - intros irq Hi. destruct (L irq Hi) as [_ [?|Hb]]; [by left|right]. apply B, list_elem_of_fmap in Hb as ([h i] & -> & Hin). by exists h.
  - intros hart irq Hin Hl. destruct (V _ _ Hin) as [Hh Hk]. unfold hal_irq_complete, wr_reg. rewrite is_claim_at by done.
    pose proof (known_enabled s hart irq C Hh Hk) as He. unfold enabled in He. apply andb_true_iff in He as [-> _]. eexists. split; [done|].
    destruct (gateway_cases (Plic (g_reg s) (g_line s) (g_pend s) (g_busy s ∖ {[irq]})) irq) as [(_ & _ & ->)|([?|?] & _)]; cbn in *; [set_solver|done|set_solver].
  - intros hart Hh Hne. apply set_choose_L in Hne as [irq Hi]. destruct (P irq Hi) as [Hk _]. destruct (pick_spec s hart) as [Hp Hn].
    specialize (Hn irq Hi (known_enabled s hart irq C Hh Hk) (known_range irq Hk)). destruct Hp as [|[Hp _]]; [done|].
    eexists _, _. rewrite claim_run by done. rewrite (proj2 (Z.eqb_neq _ _) Hn). split; [done|]. split; [done|]. split; [by apply P|]. cbn. set_solver.
Qed.

#[local] Notation ex_raised := (raise VIRTIO1_IRQ (raise UART0_IRQ (booted (fun _ => 0)))).
Definition ex_claimed : plic := Plic (g_reg ex_raised) (g_line ex_raised) (g_pend ex_raised ∖ {[VIRTIO1_IRQ]}) ({[VIRTIO1_IRQ]} ∪ g_busy ex_raised).

(** The disk is served by hart 2 while the serial line waits. *)
Lemma plic_serves_once_witness : UART0_IRQ ∈ g_pend ex_claimed /\ exists irq s', hal_irq_claim 5 ex_claimed = Ok (irq, s') /\ irq ∈ g_pend ex_claimed /\ known irq = true.
Proof.
  assert (UART0_IRQ ∈ g_pend ex_claimed) as Hu by (apply (bool_decide_unpack _); vm_compute; done).
  destruct (plic_serves_once (fun _ => 0) ex_claimed [(2, VIRTIO1_IRQ)]) as (_ & _ & _ & H).
  - assert (pick ex_raised 2 = VIRTIO1_IRQ) as Ep by (vm_compute; reflexivity).
    assert (step (ex_raised, []) (ex_claimed, [(2, VIRTIO1_IRQ)])) as Hs.
    { assert (hal_irq_claim 2 ex_raised = Ok (VIRTIO1_IRQ, ex_claimed)) as Ec by (rewrite claim_run, Ep by (split; [done|reflexivity]); reflexivity).
      exact (step_claim ex_raised ex_claimed [] 2 VIRTIO1_IRQ (conj (Z.le_0_2) eq_refl) Ec ltac:(discriminate)). }
    exact (rtc_l _ _ _ _ (step_raise _ _ UART0_IRQ eq_refl) (rtc_l _ _ _ _ (step_raise _ _ VIRTIO1_IRQ eq_refl) (rtc_once _ _ Hs))).
  - split; [exact Hu|]. destruct (H 5) as (irq & s' & E & Hi & Hk & _); [unfold NCPU; lia|intros E0; rewrite E0 in Hu; by apply elem_of_empty in Hu|]. exists irq, s'. split; [exact E|]. split; [exact Hi|exact Hk].
Defined.
End Plic.

Module Eiointc.

Definition EIOINTC_IOCSR_BASE : Z := 5120.
Definition EIOINTC_EN (irq : Z) : Z := EIOINTC_IOCSR_BASE + 512 + irq / 32 * 4.
Definition EIOINTC_IPMAP (irq : Z) : Z := EIOINTC_IOCSR_BASE + 192 + irq / 128 * 4.
Definition EIOINTC_COREISR (irq : Z) : Z := EIOINTC_IOCSR_BASE + 1024 + irq / 32 * 4.
Definition EIOINTC_COREMAP (irq : Z) : Z := EIOINTC_IOCSR_BASE + 2048 + irq / 4 * 4.
Definition PCH_PIC_INT_MASK : Z := 32.
Definition UART_VECTOR : Z := 0.
Definition UART_PCH_PIC_INPUT : Z := 2.
Definition ECFG_LIE_HWI : Z := 4.
Definition ESTAT_IS_HWI : Z := 4.

(** The IOCSR words, the words of the PCH-PIC, and two registers of the core. *)
Record eio : Type := Eio { e_io : Z -> Z; e_pch : Z -> Z; ecfg : Z; estat : Z }.

Definition upd (f : Z -> Z) (a x : Z) : Z -> Z := fun b => if b =? a then x else f b.

(** COREISR is cleared by ones; the other words are stored. *)
Definition is_coreisr (a : Z) : bool := (EIOINTC_IOCSR_BASE + 1024 <=? a) && (a <? EIOINTC_IOCSR_BASE + 1056).
Definition iocsr_read_w (a : Z) : M eio Z := gets (fun s => e_io s a).
Definition iocsr_write_w (x a : Z) : M eio unit :=
  modify (fun s => Eio (upd (e_io s) a (if is_coreisr a then Z.ldiff (e_io s a) x else u32 x)) (e_pch s) (ecfg s) (estat s)).

(** [(value & ~(mask << shift)) | (x << shift)] *)
Definition set_field (value mask shift x : Z) : Z := Z.lor (Z.land value (Z.lnot (Z.shiftl mask shift))) (Z.shiftl x shift).

Definition hal_irq_init : M eio unit :=
  let m := 268435456 + PCH_PIC_INT_MASK in
  modify (fun s => Eio (e_io s) (upd (e_pch s) m (Z.land (e_pch s m) (Z.lnot (Z.shiftl 1 UART_PCH_PIC_INPUT)))) (ecfg s) (estat s)) ;;;
  value <- iocsr_read_w (EIOINTC_EN UART_VECTOR) ;;
  iocsr_write_w (Z.lor value (Z.shiftl 1 (UART_VECTOR mod 32))) (EIOINTC_EN UART_VECTOR) ;;;
  let ipmap_shift := UART_VECTOR / 32 mod 4 * 8 in
  value <- iocsr_read_w (EIOINTC_IPMAP UART_VECTOR) ;;
  let value := set_field value 255 ipmap_shift 1 in
  iocsr_write_w value (EIOINTC_IPMAP UART_VECTOR) ;;;
  let coremap_shift := UART_VECTOR mod 4 * 8 in
  value <- iocsr_read_w (EIOINTC_COREMAP UART_VECTOR) ;;
  let value := Z.land value (Z.lnot (Z.shiftl 255 coremap_shift)) in
  iocsr_write_w value (EIOINTC_COREMAP UART_VECTOR).

Definition hal_irq_hart_init : M eio unit := modify (fun s => Eio (e_io s) (e_pch s) (Z.lor (ecfg s) ECFG_LIE_HWI) (estat s)).

Definition claim_body (isr irq : Z) : M eio (option Z) :=
  if negb (Z.land isr (Z.shiftl 1 irq) =? 0) then iocsr_write_w (Z.shiftl 1 irq) (EIOINTC_COREISR irq) ;;; ret (Some irq) else ret None.

Definition hal_irq_claim : M eio Z :=
  e <- gets estat ;;
  if Z.land e ESTAT_IS_HWI =? 0 then ret (-1)
  else
    isr <- iocsr_read_w (EIOINTC_COREISR UART_VECTOR) ;;
    if isr =? 0 then ret (-1)
    else
      r <- for_upto 32 0 (claim_body isr) ;;
      ret (default (-1) r).

Definition hal_irq_complete (irq : Z) : M eio unit := ret tt.

(** *** Claiming *)

Lemma land_bit x n : 0 <= n -> negb (Z.land x (Z.shiftl 1 n) =? 0) = Z.testbit x n.
Proof.
  intros Hn. rewrite Z.shiftl_1_l. destruct (Z.testbit x n) eqn:E.
  - apply negb_true_iff, Z.eqb_neq. intros H0. apply (f_equal (fun y => Z.testbit y n)) in H0. rewrite Z.land_spec, Z.pow2_bits_true, E, Z.bits_0 in H0 by done. done.
  - apply negb_false_iff, Z.eqb_eq. apply Z.bits_inj_0. intros m. rewrite Z.land_spec. destruct (Z.eq_dec m n) as [->|Hne]; [by rewrite E|].
    rewrite Z.pow2_bits_false by lia. by rewrite andb_false_r.
Qed.

(** hal_irq_claim takes the pending vector with the lowest number, and leaves
    the others pending; without one it returns -1 and changes nothing. *)
Lemma eiointc_claims_lowest s : let isr := e_io s (EIOINTC_COREISR 0) in 0 <= isr < 2 ^ 32 ->
  if (Z.land (estat s) ESTAT_IS_HWI =? 0) || (isr =? 0) then hal_irq_claim s = Ok (-1, s)
  else exists irq s', hal_irq_claim s = Ok (irq, s') /\ 0 <= irq < 32 /\ Z.testbit isr irq = true /\ (forall i, 0 <= i < irq -> Z.testbit isr i = false) /\
    ecfg s' = ecfg s /\ estat s' = estat s /\ e_pch s' = e_pch s /\
    forall a, e_io s' a = if a =? EIOINTC_COREISR 0 then Z.clearbit isr irq else e_io s a.
Proof.
  intros isr Hr. unfold hal_irq_claim. mstep. destruct (Z.land (estat s) ESTAT_IS_HWI =? 0); [done|]. cbn [orb]. unfold iocsr_read_w. mstep.
  change (e_io s (EIOINTC_COREISR UART_VECTOR)) with isr. destruct (Z.eqb_spec isr 0) as [|Hne]; [done|].
  set (g := fun irq => Eio (upd (e_io s) (EIOINTC_COREISR 0) (Z.ldiff isr (2 ^ irq))) (e_pch s) (ecfg s) (estat s)).
  destruct (for_upto_find (claim_body isr) (Z.testbit isr) (fun i => i) g s 32 0) as [(i & Hi & Ht & Hm & E)|[Hm E]].
  - intros i Hi. unfold claim_body. rewrite land_bit by lia. destruct (Z.testbit isr i); [|done]. unfold iocsr_write_w. mstep.
    assert (EIOINTC_COREISR i = EIOINTC_COREISR 0) as -> by (unfold EIOINTC_COREISR; dlia). unfold g. by rewrite Z.shiftl_1_l.
  - exists i, (g i). rewrite E. split_and!; [done|lia|lia|done|intros j Hj; apply Hm; lia|done|done|done|]. intros a. unfold g, upd. cbn [e_io].
    destruct (a =? EIOINTC_COREISR 0); [|done]. by rewrite Z.clearbit_spec'.
  - exfalso. apply Hne. apply Z.bits_inj_0. intros n. destruct (Z.lt_ge_cases n 0); [by rewrite Z.testbit_neg_r|]. destruct (Z.lt_ge_cases n 32); [apply Hm; lia|].
    apply Z.bits_above_log2; [lia|]. apply Z.log2_lt_pow2; [lia|]. pose proof (Z.pow_le_mono_r 2 32 n). lia.
Qed.

Lemma low_byte x : 0 <= x < 2 ^ 32 -> Z.land x (Z.lnot 255) = x / 256 * 256 /\ Z.lor (Z.land x (Z.lnot 255)) 1 = x / 256 * 256 + 1.
Proof.
  intros Hx. assert (Z.land x (Z.lnot 255) = x / 256 * 256) as E.
  { change 255 with (Z.ones 8). rewrite <-Z.ldiff_land, Z.ldiff_ones_r, Z.shiftl_mul_pow2, Z.shiftr_div_pow2 by lia. done. }
  split; [done|]. rewrite E. assert (Z.land (x / 256 * 256) 1 = 0) as E0 by (change 1 with (Z.ones 1); rewrite Z.land_ones by lia; dlia).
  rewrite Z.add_nocarry_lxor by done. symmetry. by apply Z.lxor_lor.
Qed.

(** hal_irq_init opens the way of the serial line to core 0 and leaves the
    fields of the other lines alone. *)
Lemma eiointc_routes_uart s : (forall a, 0 <= e_io s a < 2 ^ 32) -> exists s', hal_irq_init s = Ok (tt, s') /\
  (forall n, 0 <= n -> Z.testbit (e_io s' (EIOINTC_EN 0)) n = if n =? 0 then true else Z.testbit (e_io s (EIOINTC_EN 0)) n) /\
  e_io s' (EIOINTC_IPMAP 0) = e_io s (EIOINTC_IPMAP 0) / 256 * 256 + 1 /\
  e_io s' (EIOINTC_COREMAP 0) = e_io s (EIOINTC_COREMAP 0) / 256 * 256 /\
  (forall n, 0 <= n -> Z.testbit (e_pch s' (268435456 + PCH_PIC_INT_MASK)) n = if n =? UART_PCH_PIC_INPUT then false else Z.testbit (e_pch s (268435456 + PCH_PIC_INT_MASK)) n) /\
  (forall a, a <> EIOINTC_EN 0 -> a <> EIOINTC_IPMAP 0 -> a <> EIOINTC_COREMAP 0 -> e_io s' a = e_io s a).
Proof.
  intros Hw. set (m := 268435456 + PCH_PIC_INT_MASK).
  exists (Eio (upd (upd (upd (e_io s) (EIOINTC_EN 0) (u32 (Z.lor (e_io s (EIOINTC_EN 0)) 1))) (EIOINTC_IPMAP 0) (u32 (set_field (e_io s (EIOINTC_IPMAP 0)) 255 0 1)))
    (EIOINTC_COREMAP 0) (u32 (Z.land (e_io s (EIOINTC_COREMAP 0)) (Z.lnot 255)))) (upd (e_pch s) m (Z.land (e_pch s m) (Z.lnot 4))) (ecfg s) (estat s)).
  pose proof (low_byte (e_io s (EIOINTC_COREMAP 0)) (Hw _)) as [L1 L2]. pose proof (low_byte (e_io s (EIOINTC_IPMAP 0)) (Hw _)) as [L3 L4].
  split; [unfold hal_irq_init, iocsr_read_w, iocsr_write_w; mstep; reflexivity|]. cbn [e_io e_pch]. split_and!.
  - intros n Hn. change (upd _ _ _ (EIOINTC_EN 0)) with (u32 (Z.lor (e_io s (EIOINTC_EN 0)) 1)). rewrite u32_small, Z.lor_spec.
    + destruct (Z.eqb_spec n 0) as [->|Hne]; [apply orb_true_r|]. rewrite (Z.bits_above_log2 1 n) by (cbn; lia). apply orb_false_r.
    + specialize (Hw (EIOINTC_EN 0)). split; [apply Z.lor_nonneg; lia|]. destruct (Z.eq_dec (e_io s (EIOINTC_EN 0)) 0) as [->|]; [done|].
      apply Z.log2_lt_cancel. rewrite Z.log2_lor by lia. rewrite Z.log2_pow2 by lia. apply Z.max_lub_lt; [apply Z.log2_lt_pow2; lia|done].
  - change (upd _ _ _ (EIOINTC_IPMAP 0)) with (u32 (Z.lor (Z.land (e_io s (EIOINTC_IPMAP 0)) (Z.lnot 255)) 1)). rewrite L4. apply u32_small. specialize (Hw (EIOINTC_IPMAP 0)). dlia.
  - change (upd _ _ _ (EIOINTC_COREMAP 0)) with (u32 (Z.land (e_io s (EIOINTC_COREMAP 0)) (Z.lnot 255))). rewrite L1. apply u32_small. specialize (Hw (EIOINTC_COREMAP 0)). dlia.
  - intros n Hn. unfold upd. rewrite Z.eqb_refl. rewrite Z.land_spec, Z.lnot_spec by done. change 4 with (2 ^ UART_PCH_PIC_INPUT).
    destruct (Z.eqb_spec n UART_PCH_PIC_INPUT) as [->|Hne]; [by rewrite andb_false_r|]. rewrite Z.pow2_bits_false by lia. apply andb_true_r.
  - intros a H1 H2 H3. unfold upd. by rewrite (proj2 (Z.eqb_neq _ _) H1), (proj2 (Z.eqb_neq _ _) H2), (proj2 (Z.eqb_neq _ _) H3).
Qed.
End Eiointc.
