(* ===== verification/Trap.v ===== *)
(** Trap: kernel/trap.c, the entry to the kernel from user code and from
    devices, and the return; and the translation of LoongArch's exception state
    into the one trap.c works with (hal/loongarch/arch.h).

    The trap registers of the CPU that runs the code are part of the state.
    What gives up the CPU ends a section, as in Proc and Sysproc. *)

From S2P Require Import Prelude CString Kalloc Locks Arch Vm VmTable VmSpace VmUser Hal Proc Sysarg Exec Sysproc.

(** The registers that trap.c reaches through the HAL. *)
Record csr : Type := Csr {
  sstatus : Z; sepc : Z; scause : Z; stval : Z; stvec : Z; satp : Z;
  hartid : Z; user_frame : Z             (* LoongArch: KSave1 *)
}.
Definition SSTATUS_SPP : Z := 2 ^ 8.
Definition SSTATUS_SPIE : Z := 2 ^ 5.
Definition SCAUSE_EXTERNAL : Z := 0x8000000000000009.
Definition SCAUSE_TIMER : Z := 0x8000000000000005.

(** What the machine adds: how a page table is named in satp, whether the
    trapframe is bound to a register, and the device interrupts. *)
Class TrapHal (X : Type) : Type := {
  MAKE_SATP : Z -> Z;
  binds_frame : bool;
  UART0_IRQ : Z;
  disk_irqs : list Z;
  hal_irq_claim : M X Z;
  hal_irq_complete : Z -> M X unit;
  hal_console_intr : M X unit;
  hal_disk_intr : M X unit;
  hal_timer_ack : M X unit
}.

(** The two machines' page-table registers. *)
Definition riscv_satp (pagetable : Z) : Z := Z.lor (Z.shiftl 8 60) (Z.shiftr pagetable 12).
Definition loongarch_satp (pagetable : Z) : Z := u64 pagetable.

Record tst (X : Type) : Type := Tst { t_k : kst X; t_csr : csr }.
Arguments Tst {X}.
Arguments t_k {X}.
Arguments t_csr {X}.

(** How a trap ends: on the way to user code with the value for satp; inside
    a system call or a yield that goes on later; or the process is gone. *)
Inductive trap_end : Type := ToUser (satp : Z) | InSyscall | AfterYield | Gone.

Section Trap.
  Context {X : Type} `{OpenFiles X} `{ExecFiles X} `{FileCalls X} `{Hal} `{TrapHal X}.
  Context (kend PHYSTOP trampoline : Z) (me : nat).
  (** Addresses of kernelvec, of uservec in the trampoline page, of usertrap. *)
  Context (kernelvec uservec_off usertrap_addr : Z).
  Local Abbreviation MT := (M (tst X)).

Definition onk {A} (m : M (kst X) A) : MT A := zoom t_k (fun k s => Tst k (t_csr s)) m.
Definition onpp {A} (m : M (pst X) A) : MT A := onk (onp m).
Definition ondev {A} (m : M X A) : MT A := onpp (onx m).
Definition updcsr (f : csr -> csr) : MT unit := modify (fun s => Tst (t_k s) (f (t_csr s))).

Definition set_stvec (v : Z) (c : csr) : csr :=
  Csr (sstatus c) (sepc c) (scause c) (stval c) v (satp c) (hartid c) (user_frame c).
Definition set_sstatus (v : Z) (c : csr) : csr :=
  Csr v (sepc c) (scause c) (stval c) (stvec c) (satp c) (hartid c) (user_frame c).
Definition set_sepc (v : Z) (c : csr) : csr :=
  Csr (sstatus c) v (scause c) (stval c) (stvec c) (satp c) (hartid c) (user_frame c).
Definition set_frame (v : Z) (c : csr) : csr :=
  Csr (sstatus c) (sepc c) (scause c) (stval c) (stvec c) (satp c) (hartid c) v.

(** A store to the trapframe of process [i]. *)
Definition sttfi (i : nat) (off v : Z) : M (pst X) unit :=
  p <- getp i ;; onkm (st64 (p_trapframe p + off) (u64 v)).

Definition prepare_return : MT unit :=
  i <- onpp (curproc me) ;;
  onpp (set_intr me false) ;;;
  updcsr (set_stvec (u64 (TRAMPOLINE + uservec_off))) ;;;
  c <- gets t_csr ;;
  onpp (sttfi i TF_KERNEL_SATP (satp c)) ;;;
  p <- onpp (getp i) ;;
  onpp (sttfi i TF_KERNEL_SP (p_kstack p + 2 * PGSIZE)) ;;;
  onpp (sttfi i TF_KERNEL_TRAP usertrap_addr) ;;;
  onpp (sttfi i TF_KERNEL_HARTID (hartid c)) ;;;
  (if binds_frame then updcsr (set_frame (p_trapframe p)) else ret tt) ;;;
  updcsr (fun c => set_sstatus (Z.lor (Z.ldiff (sstatus c) SSTATUS_SPP) SSTATUS_SPIE) c) ;;;
  epc <- onpp (onkm (ld64 (p_trapframe p + TF_EPC))) ;;
  updcsr (set_sepc epc).

Definition clockintr : MT unit :=
  (if (me =? 0)%nat
   then
     onpp (acquire me LTicks) ;;;
     onk (modify (fun k => Kst (ks_p k) (u32 (ks_ticks k + 1)))) ;;;
     onpp (wakeup me (Some ChTicks)) ;;;
     onpp (release me LTicks)
   else ret tt) ;;;
  ondev hal_timer_ack.

(** The message about an unexpected interrupt is not part of the state. *)
Definition devintr : MT Z :=
  c <- gets t_csr ;;
  if scause c =? SCAUSE_EXTERNAL
  then
    irq <- ondev hal_irq_claim ;;
    (if irq =? UART0_IRQ then ondev hal_console_intr
     else if bool_decide (irq ∈ disk_irqs) then ondev hal_disk_intr
     else ret tt) ;;;
    (if irq >=? 0 then ondev (hal_irq_complete irq) else ret tt) ;;;
    ret 1
  else if scause c =? SCAUSE_TIMER then clockintr ;;; ret 2
  else ret 0.

(** usertrap from the second check for a kill on, and behind the yield. *)
Definition trap_return : MT trap_end :=
  prepare_return ;;;
  i <- onpp (curproc me) ;;
  p <- onpp (getp i) ;;
  ret (ToUser (MAKE_SATP (p_pagetable p))).

Definition trap_tail (i : nat) (which_dev : Z) : MT trap_end :=
  k <- onpp (killed me i) ;;
  if negb (k =? 0) then onpp (kexit me (-1)) ;;; ret Gone
  else if which_dev =? 2 then onpp (yield me) ;;; ret AfterYield
  else trap_return.

Definition is_page_fault (cause : Z) : bool := (cause =? 15) || (cause =? 13) || (cause =? 12).
Definition is_read_fault (cause : Z) : bool := (cause =? 13) || (cause =? 12).

(** The page fault handler's view of the process. *)
Definition fault_in (i : nat) (va : Z) (read : bool) : M (pst X) Z :=
  p <- getp i ;; onkm (vmfault kend PHYSTOP (uproc_of p) (p_pagetable p) va read).

(** The branch for what is neither a system call nor a device. *)
Definition trap_fault (i : nat) : MT unit :=
  c <- gets t_csr ;;
  v <- (if is_page_fault (scause c) then onpp (fault_in i (stval c) (is_read_fault (scause c))) else ret 0) ;;
  if negb (v =? 0) then ret tt else onpp (setkilled me i).

Definition trap_syscall (i : nat) : MT trap_end :=
  k <- onpp (killed me i) ;;
  if negb (k =? 0) then onpp (kexit me (-1)) ;;; ret Gone
  else
    onpp (p <- getp i ;; epc <- onkm (ld64 (p_trapframe p + TF_EPC)) ;; sttfi i TF_EPC (epc + 4)) ;;;
    onpp (set_intr me true) ;;;
    r <- onk (syscall kend PHYSTOP trampoline me) ;;
    match r with
    | None => ret InSyscall
    | Some _ => trap_tail i 0
    end.

Definition usertrap : MT trap_end :=
  c <- gets t_csr ;;
  if negb (Z.land (sstatus c) SSTATUS_SPP =? 0) then panic "usertrap: not from user mode"
  else
    updcsr (set_stvec kernelvec) ;;;
    i <- onpp (curproc me) ;;
    onpp (sttfi i TF_EPC (sepc c)) ;;;
    if scause c =? 8 then trap_syscall i
    else
      which_dev <- devintr ;;
      if negb (which_dev =? 0) then trap_tail i which_dev
      else trap_fault i ;;; trap_tail i 0.

(** kerneltrap, up to the yield ([true]: it yields) or the end; behind the
    yield it restores the registers it read. *)
Definition kerneltrap : MT bool :=
  c <- gets t_csr ;;
  cp <- onpp (mycpu me) ;;
  if Z.land (sstatus c) SSTATUS_SPP =? 0 then panic "kerneltrap: not from supervisor mode"
  else if Spin.c_intr (c_int cp) then panic "kerneltrap: interrupts enabled"
  else
    which_dev <- devintr ;;
    if which_dev =? 0 then panic "kerneltrap"
    else
      o <- (if which_dev =? 2 then onpp (myproc me) else ret None) ;;
      match o with
      | Some _ => onpp (yield me) ;;; ret true
      | None => updcsr (fun c' => set_sstatus (sstatus c) (set_sepc (sepc c) c')) ;;; ret false
      end.

Definition trapinit : MT unit :=
  onpp (modify (fun s => set_locks (wait_lock s) (pid_lock s) Spin.initlock (ps_locks s) s)).
Definition trapinithart : MT unit := updcsr (set_stvec kernelvec).

End Trap.

(** *** The way back to user code *)

Section Ready.
  Context {X : Type} `{HO : OpenFiles X} `{HE : ExecFiles X} `{HC : FileCalls X} `{HH : Hal} `{HT : TrapHal X}.
  Context (kend PHYSTOP trampoline : Z) (me : nat) (kernelvec uservec_off usertrap_addr : Z).
  Local Abbreviation usertrap := (usertrap kend PHYSTOP trampoline me kernelvec uservec_off usertrap_addr).
  Local Abbreviation trap_return := (trap_return me uservec_off usertrap_addr).
  Implicit Types s : tst X.

Lemma tail_return i w s v s' : trap_tail me uservec_off usertrap_addr i w s = Ok (ToUser v, s') ->
  exists s1, trap_return s1 = Ok (ToUser v, s').
Proof.
  unfold trap_tail. intros (k & s1 & _ & E)%bind_inv. destruct (negb (k =? 0)).
  - apply bind_inv in E as (u & s2 & _ & [=]).
  - destruct (w =? 2); [|by exists s1]. apply bind_inv in E as (u & s2 & _ & [=]).
Qed.

(** Every way from a trap back to user code goes through trap_return. *)
Lemma usertrap_return s v s' : usertrap s = Ok (ToUser v, s') -> exists s1, trap_return s1 = Ok (ToUser v, s').
Proof.
  unfold Trap.usertrap. intros (c & s1 & _ & E)%bind_inv. destruct (negb (_ =? 0)); [done|].
  apply bind_inv in E as (u & s2 & _ & E). apply bind_inv in E as (i & s3 & _ & E).
  apply bind_inv in E as (u' & s4 & _ & E). destruct (scause c =? 8).
  - unfold trap_syscall in E. apply bind_inv in E as (k & s5 & _ & E). destruct (negb (k =? 0)).
    + apply bind_inv in E as (? & ? & _ & [=]).
    + do 2 apply bind_inv in E as (? & ? & _ & E). apply bind_inv in E as (r & s6 & _ & E).
      destruct r; [by eapply tail_return|done].
  - apply bind_inv in E as (w & s5 & _ & E). destruct (negb (w =? 0)); [by eapply tail_return|].
    apply bind_inv in E as (? & ? & _ & E). by eapply tail_return.
Qed.

(** A CPU about to run user code of process [i]. *)
Record ready (v : Z) (s : tst X) (i : nat) (p : proc) (c : cpu) : Prop := Ready {
  rd_cpu : ps_cpus (ks_p (t_k s)) !! me = Some c;
  rd_proc : c_proc c = Some i /\ ps_proc (ks_p (t_k s)) !! i = Some p;
  rd_intr : Spin.c_intr (c_int c) = false;
  rd_satp : v = MAKE_SATP (p_pagetable p);
  rd_mode : Z.land (sstatus (t_csr s)) SSTATUS_SPP = 0 /\ Z.land (sstatus (t_csr s)) SSTATUS_SPIE <> 0;
  rd_stvec : stvec (t_csr s) = u64 (TRAMPOLINE + uservec_off);
  rd_sepc : sepc (t_csr s) = load64 (km_mem (ps_km (ks_p (t_k s)))) (p_trapframe p + TF_EPC);
  rd_stack : load64 (km_mem (ps_km (ks_p (t_k s)))) (p_trapframe p + TF_KERNEL_SP) = u64 (p_kstack p + 2 * PGSIZE);
  rd_trap : load64 (km_mem (ps_km (ks_p (t_k s)))) (p_trapframe p + TF_KERNEL_TRAP) = u64 usertrap_addr;
  rd_frame : binds_frame = true -> user_frame (t_csr s) = p_trapframe p
}.

Lemma onpp_inv {A} (m : M (pst X) A) s a s' : onpp m s = Ok (a, s') ->
  exists p', m (ks_p (t_k s)) = Ok (a, p') /\ s' = Tst (Kst p' (ks_ticks (t_k s))) (t_csr s).
Proof.
  unfold onpp, onk, onp, zoom. destruct (m _) as [[b p']|]; [|done]. cbn. intros [= <- <-]. eauto.
Qed.

Lemma onpp_ok {A} (m : M (pst X) A) P tk cs a P' : m P = Ok (a, P') ->
  onpp m (Tst (Kst P tk) cs) = Ok (a, Tst (Kst P' tk) cs).
Proof. intros E. unfold onpp, onk, onp, zoom. cbn. by rewrite E. Qed.

(** The memory of a state replaced. *)
Definition memset_to (m : memory) (P : pst X) : pst X := set_km (set_mem m (ps_km P)) P.

Lemma sttfi_run i off v (P : pst X) p : ps_proc P !! i = Some p ->
  sttfi i off v P = Ok (tt, memset_to (store64 (km_mem (ps_km P)) (p_trapframe p + off) (u64 v)) P).
Proof. intros Hp. unfold sttfi. by rewrite (bind_ok _ _ P p P) by (unfold getp; by rewrite Hp). Qed.

Lemma sttfi_again i off v m (P : pst X) p : ps_proc P !! i = Some p ->
  sttfi i off v (memset_to m P) = Ok (tt, memset_to (store64 m (p_trapframe p + off) (u64 v)) P).
Proof. intros Hp. by rewrite (sttfi_run i off v (memset_to m P) p). Qed.

Lemma sttfi_none i off v (P : pst X) : ps_proc P !! i = None -> sttfi i off v P = Fault FBounds.
Proof. intros Hp. unfold sttfi, getp, bind. by rewrite Hp. Qed.

Lemma user_sstatus x : Z.land (Z.lor (Z.ldiff x SSTATUS_SPP) SSTATUS_SPIE) SSTATUS_SPP = 0 /\
  Z.land (Z.lor (Z.ldiff x SSTATUS_SPP) SSTATUS_SPIE) SSTATUS_SPIE <> 0.
Proof.
  split.
  - apply Z.bits_inj'. intros n Hn. rewrite Z.bits_0, Z.land_spec, Z.lor_spec, Z.ldiff_spec.
    unfold SSTATUS_SPP, SSTATUS_SPIE. rewrite !Z.pow2_bits_eqb by lia.
    destruct (Z.eqb_spec 8 n) as [<-|]; [|by rewrite andb_false_r]. by rewrite andb_false_r.
  - intros E. apply (f_equal (fun y => Z.testbit y 5)) in E.
    rewrite Z.bits_0, Z.land_spec, Z.lor_spec in E. change (Z.testbit SSTATUS_SPIE 5) with true in E.
    by rewrite orb_true_r in E.
Qed.

Lemma u64_range x : 0 <= u64 x < 2 ^ 64.
Proof. by apply Z.mod_pos_bound. Qed.

(** The words that prepare_return stores in the trapframe. *)
Definition frame_words (m : memory) (tf sp kp trap hart : Z) : memory :=
  store64 (store64 (store64 (store64 m (tf + TF_KERNEL_SATP) (u64 kp)) (tf + TF_KERNEL_SP) (u64 sp))
    (tf + TF_KERNEL_TRAP) (u64 trap)) (tf + TF_KERNEL_HARTID) (u64 hart).

Lemma frame_words_load m tf sp kp trap hart : let m' := frame_words m tf sp kp trap hart in
  load64 m' (tf + TF_EPC) = load64 m (tf + TF_EPC) /\ load64 m' (tf + TF_KERNEL_SP) = u64 sp /\
  load64 m' (tf + TF_KERNEL_TRAP) = u64 trap.
Proof.
  cbn zeta. unfold frame_words, TF_EPC, TF_KERNEL_SP, TF_KERNEL_TRAP, TF_KERNEL_SATP, TF_KERNEL_HARTID.
  split_and!.
  - by rewrite !load64_store_ne by lia.
  - rewrite !load64_store_ne by lia. apply load64_store64, u64_range.
  - rewrite load64_store_ne by lia. apply load64_store64, u64_range.
Qed.

(** prepare_return, when the current process is [i]. *)
Lemma prepare_return_run P tk cs c i p : ps_cpus P !! me = Some c -> c_proc c = Some i -> ps_proc P !! i = Some p ->
  forall s', prepare_return me uservec_off usertrap_addr (Tst (Kst P tk) cs) = Ok (tt, s') ->
  exists n ena kp hart, let m := frame_words (km_mem (ps_km P)) (p_trapframe p) (p_kstack p + 2 * PGSIZE) kp usertrap_addr hart in
    ks_p (t_k s') = memset_to m (set_cpu me (Cpu (Spin.Cpu n ena false) (Some i)) P) /\
    sstatus (t_csr s') = Z.lor (Z.ldiff (sstatus cs) SSTATUS_SPP) SSTATUS_SPIE /\
    stvec (t_csr s') = u64 (TRAMPOLINE + uservec_off) /\ sepc (t_csr s') = load64 m (p_trapframe p + TF_EPC) /\
    (binds_frame = true -> user_frame (t_csr s') = p_trapframe p).
Proof.
  intros Hc Hcp Hp s' E. unfold prepare_return in E.
  apply bind_inv in E as (j & s2 & (P2 & Ec & ->)%onpp_inv & E). cbn [t_k ks_p ks_ticks t_csr] in *.
  apply curproc_inv in Ec as (c0 & c' & Hc0 & Hcp0 & -> & _). rewrite Hc in Hc0. injection Hc0 as <-.
  rewrite Hcp in Hcp0. injection Hcp0 as <-.
  assert (set_intr me false (set_cpu me (Cpu c' (Some i)) P) =
    Ok (tt, set_cpu me (Cpu (Spin.Cpu (Spin.c_noff c') (Spin.c_intena c') false) (Some i)) P)) as Ei.
  { unfold set_intr, updcpu. cbn. rewrite list_lookup_insert_eq by (by eapply lookup_lt_Some). cbn.
    unfold set_cpu. cbn. by rewrite list_insert_insert_eq. }
  rewrite (bind_ok _ _ _ _ _ (onpp_ok _ _ _ _ _ _ Ei)) in E. set (Q := set_cpu me _ P) in E.
  assert (forall m, ps_proc (memset_to m Q) !! i = Some p) as HpQ by done.
  unfold updcsr at 1, modify in E. rewrite (bind_ok _ _ _ tt _) in E by reflexivity.
  unfold gets in E. rewrite (bind_ok _ _ _ _ _ eq_refl) in E. cbn [t_k t_csr set_stvec satp hartid] in E.
  rewrite (bind_ok _ _ _ _ _ (onpp_ok _ _ _ _ _ _ (sttfi_run i _ _ Q p Hp))) in E.
  rewrite (bind_ok _ _ _ _ _ (onpp_ok (getp i) _ _ _ p _ ltac:(unfold getp; by rewrite HpQ))) in E.
  do 3 rewrite (bind_ok _ _ _ _ _ (onpp_ok _ _ _ _ _ _ (sttfi_again i _ _ _ Q p Hp))) in E.
  exists (Spin.c_noff c'), (Spin.c_intena c'), (satp cs), (hartid cs). cbn zeta.
  destruct binds_frame; unfold updcsr, modify, onpp, onk, onp, onkm, zoom, ld64, gets, bind, ret in E; cbn in E;
    injection E as <-; cbn; done.
Qed.

Lemma prepare_return_proc P tk cs s' : prepare_return me uservec_off usertrap_addr (Tst (Kst P tk) cs) = Ok (tt, s') ->
  exists c i p, ps_cpus P !! me = Some c /\ c_proc c = Some i /\ ps_proc P !! i = Some p.
Proof.
  intros E. unfold prepare_return in E. apply bind_inv in E as (i & s2 & (P2 & Ec & ->)%onpp_inv & E).
  cbn [t_k ks_p ks_ticks t_csr] in *. apply curproc_inv in Ec as (c & c' & Hc & Hcp & -> & _).
  apply bind_inv in E as (u & s3 & (P3 & Ei & ->)%onpp_inv & E). cbn [t_k ks_p ks_ticks t_csr] in *.
  assert (ps_proc P3 = ps_proc P) as Ep.
  { unfold set_intr, updcpu in Ei. cbn in Ei. rewrite list_lookup_insert_eq in Ei by (by eapply lookup_lt_Some). by inversion Ei. }
  destruct (ps_proc P !! i) as [p|] eqn:Hp; [by exists c, i, p|].
  unfold updcsr at 1, modify in E. rewrite (bind_ok _ _ _ tt _) in E by reflexivity.
  unfold gets in E. rewrite (bind_ok _ _ _ _ _ eq_refl) in E.
  apply bind_inv in E as (u' & s4 & (P4 & Es & _)%onpp_inv & _). cbn in Es.
  rewrite sttfi_none in Es; [done|]. by rewrite Ep.
Qed.

Lemma trap_return_ready s v s' : trap_return s = Ok (ToUser v, s') -> exists i p c, ready v s' i p c.
Proof.
  destruct s as [[P tk] cs]. unfold Trap.trap_return. intros ([] & s1 & E1 & E)%bind_inv.
  destruct (prepare_return_proc P tk cs s1 E1) as (c & i & p & Hc & Hcp & Hp).
  destruct (prepare_return_run P tk cs c i p Hc Hcp Hp s1 E1) as (n & ena & kp & hart & Hs1 & Hst & Hv & Hpc & Hfr).
  set (m := frame_words _ _ _ _ _ _) in *.
  apply bind_inv in E as (j & s2 & (P2 & Ec & ->)%onpp_inv & E). rewrite Hs1 in Ec.
  apply curproc_inv in Ec as (c1 & c2 & Hc1 & Hcp1 & -> & Hoff). cbn in Hc1.
  rewrite list_lookup_insert_eq in Hc1 by (by eapply lookup_lt_Some). injection Hc1 as <-. injection Hcp1 as <-.
  apply bind_inv in E as (q & s3 & (P3 & Eg & ->)%onpp_inv & E). cbn in Eg, E. unfold getp in Eg. cbn in Eg.
  rewrite Hp in Eg. injection Eg as <- <-. injection E as <- <-.
  exists i, p, (Cpu c2 (Some i)). destruct (frame_words_load (km_mem (ps_km P)) (p_trapframe p) (p_kstack p + 2 * PGSIZE)
    kp usertrap_addr hart) as (_ & Hsp & Htr).
  constructor; cbn; try done.
  - apply list_lookup_insert_eq. rewrite length_insert. by eapply lookup_lt_Some.
  - by apply Hoff.
  - rewrite Hst. apply user_sstatus.
Qed.


End Ready.

(** An instruction fetch from a page that is mapped but not executable: usertrap
    calls vmfault as for a read, which reports success and changes nothing, so
    the process is neither killed nor can it go on; it faults for ever. *)
Lemma nx_fault_retried {HA : Arch} {HAO : ArchOk} kend PHYSTOP F mF e up s T root l U n pa f :
  0 < kend -> PHYSTOP <= 2 ^ 56 -> as_ok kend PHYSTOP F mF e s T root l U -> U !! n = Some (pa, f) ->
  pu f = true -> px f = false -> n * PGSIZE < up_sz up ->
  vmfault kend PHYSTOP up root (n * PGSIZE) true s = Ok (1, s).
Proof.
  intros Hk Hph Hok Hn Hpu _ Hsz. pose proof (ao_dom _ _ _ _ _ _ _ _ _ _ Hok _ _ Hn) as Hr. pose proof UT_range as [_ Hut].
  unfold vmfault. rewrite (Z.geb_leb (n * PGSIZE)), (proj2 (Z.leb_gt _ _)) by (unfold PGSIZE in *; lia).
  rewrite Z.geb_leb, (proj2 (Z.leb_gt _ _)) by lia.
  replace (PGROUNDDOWN (n * PGSIZE)) with (n * PGSIZE) by (rewrite PGROUNDDOWN_div; unfold PGSIZE; dlia).
  destruct (walk_entry kend PHYSTOP Hk Hph F mF e s T root l U n Hok Hr) as (a & Ew & Ha). rewrite Hn in Ha.
  destruct Ha as (Ha0 & Hl & _). rewrite (bind_ok _ _ _ _ _ Ew), (proj2 (Z.eqb_neq a 0)) by done.
  unfold ld64, gets. rewrite (bind_ok _ _ s _ s) by reflexivity. rewrite Hl.
  destruct (ao_page _ _ _ _ _ _ _ _ _ _ Hok n pa f Hn) as (Hp & _ & _).
  assert (frame pa) as Hf by (by apply (page_frame kend PHYSTOP)). unfold leaf_of, perm_bits. cbn [fst snd].
  by rewrite leaf_valid, leaf_u, Hpu by done.
Qed.

(** *** A device interrupt during user code *)

#[local] Instance wit_open : OpenFiles unit := {|
  filedup := fun f => ret f; fileclose := fun _ => ret tt; vget := fun v => ret v; vput := fun _ => ret tt
|}.
#[local] Instance wit_files : ExecFiles unit := {|
  vfs_namei := fun _ => ret None; vfs_read_kernel := fun _ _ _ => ret (-1, [])
|}.
#[local] Instance wit_calls : FileCalls unit := {| file_call := fun _ => ret (Some (-1)) |}.
#[local] Instance wit_trap : TrapHal unit := {|
  MAKE_SATP := riscv_satp; binds_frame := false; UART0_IRQ := 10; disk_irqs := [1; 2; 3];
  hal_irq_claim := ret 10; hal_irq_complete := fun _ => ret tt; hal_console_intr := ret tt;
  hal_disk_intr := ret tt; hal_timer_ack := ret tt
|}.

Definition wit_state : tst unit :=
  Tst (Kst (Pst [Proc Spin.initlock RUNNING None 0 0 1 None 8192 0 0x87000000 0x87001000 NoContext [] None []]
              [Cpu (Spin.Cpu 0 true false) (Some 0%nat)] Spin.initlock Spin.initlock Spin.initlock [] 2 (Some 0%nat)
              (Kmem (fun _ => 0) 0) tt) 0)
      (Csr 0 0x1000 SCAUSE_EXTERNAL 0 0 0 0 0).

Definition to_user {A} (o : outcome (trap_end * A)) : bool :=
  match o with Ok (ToUser _, _) => true | _ => false end.


(** *** LoongArch's exception state *)

Module LoongarchTrap.

Definition PRMD_PIE : Z := 2 ^ 2.
Definition ESTAT_IS_TIMER : Z := 2 ^ 11.
Definition ESTAT_IS_HWI : Z := 2 ^ 2.

(** [estat_to_scause]; the codes are EXCCODE_INT = 0, PIL, PIS, PIF, PME, PNR,
    PNX, PPI, ADE = 8, SYS = 11, BP, INE, IPE. *)
Definition estat_to_scause (estat : Z) : Z :=
  let ecode := Z.land (Z.shiftr estat 16) 0x3F in
  let is_bits := Z.land estat 0x1FFF in
  let esubcode := Z.land (Z.shiftr estat 22) 0x1FF in
  if ecode =? 0
  then
    if bits is_bits ESTAT_IS_TIMER then SCAUSE_TIMER
    else if bits is_bits ESTAT_IS_HWI then SCAUSE_EXTERNAL
    else Z.lor 0x8000000000000000 ecode
  else if ecode =? 11 then 8
  else if ecode =? 1 then 13
  else if ecode =? 2 then 15
  else if ecode =? 3 then 12
  else if ecode =? 4 then 15
  else if ecode =? 5 then 13
  else if ecode =? 6 then 12
  else if ecode =? 7 then 13
  else if ecode =? 8 then (if esubcode =? 0 then 12 else 13)
  else if ecode =? 13 then 2
  else if ecode =? 14 then 12
  else if ecode =? 12 then 3
  else Z.lor 0x100 ecode.

(** sstatus as trap.c sees it, from PRMD, and back. *)
Definition r_sstatus_compat (prmd : Z) : Z :=
  Z.lor (if negb (Z.land prmd 3 =? 3) then SSTATUS_SPP else 0) (if bits prmd PRMD_PIE then SSTATUS_SPIE else 0).
Definition w_sstatus_compat (x : Z) : Z :=
  Z.lor (if Z.land x SSTATUS_SPP =? 0 then 3 else 0) (if bits x SSTATUS_SPIE then PRMD_PIE else 0).

(** trap.c takes a trap for a system call exactly when the machine says so, and
    for an interrupt exactly when the exception code is that of interrupts. *)
Lemma estat_faithful estat : 0 <= estat ->
  let ecode := Z.land (Z.shiftr estat 16) 0x3F in
  (estat_to_scause estat = 8 <-> ecode = 11) /\ (2 ^ 63 <= estat_to_scause estat <-> ecode = 0).
Proof.
  intros He ecode. assert (0 <= ecode < 64) as Hr.
  { unfold ecode. change 0x3F with (Z.ones 6). rewrite Z.land_ones by lia. by apply Z.mod_pos_bound. }
  assert (256 <= Z.lor 0x100 ecode < 2 ^ 63) as Hlor.
  { assert (forallb (fun e => (256 <=? Z.lor 0x100 e) && (Z.lor 0x100 e <? 2 ^ 63)) (seqZ 0 64) = true) as Hf by reflexivity.
    rewrite forallb_forall in Hf. specialize (Hf ecode). rewrite <-list_elem_of_In, elem_of_seqZ in Hf. lia. }
  unfold estat_to_scause, SCAUSE_TIMER, SCAUSE_EXTERNAL. fold ecode. clearbody ecode.
  destruct (Z.eqb_spec ecode 0) as [->|H0]; [change (Z.lor 0x8000000000000000 0) with (2 ^ 63); repeat case_match; lia|].
  repeat match goal with |- context [ecode =? ?k] => destruct (Z.eqb_spec ecode k) as [->|?]; [try (case_match; lia)|] end; lia.
Qed.

Lemma land_pow2 x k : 0 <= k -> Z.land x (2 ^ k) = if Z.testbit x k then 2 ^ k else 0.
Proof.
  intros Hk. apply Z.bits_inj'. intros n Hn. rewrite Z.land_spec, Z.pow2_bits_eqb by lia.
  destruct (Z.eqb_spec k n) as [<-|Hne].
  - destruct (Z.testbit x k); [by rewrite Z.pow2_bits_true by lia|by rewrite Z.bits_0].
  - rewrite andb_false_r. destruct (Z.testbit x k); [by rewrite Z.pow2_bits_false by lia|by rewrite Z.bits_0].
Qed.

(** Reading back what was written gives the two bits that trap.c uses. *)
Lemma sstatus_roundtrip x :
  r_sstatus_compat (w_sstatus_compat x) = Z.land x (Z.lor SSTATUS_SPP SSTATUS_SPIE).
Proof.
  rewrite Z.land_lor_distr_r. unfold r_sstatus_compat, w_sstatus_compat, bits, SSTATUS_SPP, SSTATUS_SPIE.
  rewrite !(land_pow2 x) by lia. by destruct (Z.testbit x 8), (Z.testbit x 5).
Qed.

End LoongarchTrap.

