(* ===== verification/Boot.v ===== *)
(** Boot: how the machines start, hal/riscv/hal_start.c,
    hal/loongarch/hal_start.c, kernel/main.c, and forkret of kernel/proc.c. *)

From S2P Require Import Prelude.

(** ** RISC-V: from machine mode to main in supervisor mode *)

Module RiscvStart.

Definition MSTATUS_MPP_MASK : Z := Z.shiftl 3 11.
Definition MSTATUS_MPP_S : Z := Z.shiftl 1 11.
Definition SIE_SEIE : Z := Z.shiftl 1 9.
Definition SIE_STIE : Z := Z.shiftl 1 5.
Definition MIE_STIE : Z := Z.shiftl 1 5.
Definition TIMER_TICK_CYCLES : Z := 1000000.

(** The registers of a hart; [priv] is the privilege mode, 3 for machine mode
    and 1 for supervisor mode. *)
Record hart : Type := Hart {
  priv : Z; pc : Z; mstatus : Z; mepc : Z; satp : Z; medeleg : Z; mideleg : Z; sie : Z; pmpaddr0 : Z; pmpcfg0 : Z;
  mie : Z; menvcfg : Z; mcounteren : Z; stimecmp : Z; time : Z; mhartid : Z; tp : Z
}.

(** An access to a machine-mode register is illegal in supervisor mode. *)
Definition mcsr (f : hart -> hart) : M hart unit := fun s => if priv s =? 3 then Ok (tt, f s) else Fault (FPanic "illegal instruction").

(** stimecmp is open to supervisor mode when menvcfg and mcounteren say so. *)
Definition stce (s : hart) : bool := Z.testbit (menvcfg s) 63 && Z.testbit (mcounteren s) 1.
Definition w_stimecmp (delta : Z) : M hart unit :=
  fun s => if (priv s =? 3) || stce s
    then Ok (tt, Hart (priv s) (pc s) (mstatus s) (mepc s) (satp s) (medeleg s) (mideleg s) (sie s) (pmpaddr0 s) (pmpcfg0 s) (mie s) (menvcfg s) (mcounteren s)
                      (u64 (time s + delta)) (time s) (mhartid s) (tp s))
    else Fault (FPanic "illegal instruction").

(** mret: to the mode in MPP, at mepc. *)
Definition mret : M hart unit :=
  mcsr (fun s => Hart (Z.land (Z.shiftr (mstatus s) 11) 3) (mepc s) (mstatus s) (mepc s) (satp s) (medeleg s) (mideleg s) (sie s) (pmpaddr0 s) (pmpcfg0 s)
                      (mie s) (menvcfg s) (mcounteren s) (stimecmp s) (time s) (mhartid s) (tp s)).

Definition timerinit : M hart unit :=
  mcsr (fun s => Hart (priv s) (pc s) (mstatus s) (mepc s) (satp s) (medeleg s) (mideleg s) (sie s) (pmpaddr0 s) (pmpcfg0 s)
                      (Z.lor (mie s) MIE_STIE) (menvcfg s) (mcounteren s) (stimecmp s) (time s) (mhartid s) (tp s)) ;;;
  mcsr (fun s => Hart (priv s) (pc s) (mstatus s) (mepc s) (satp s) (medeleg s) (mideleg s) (sie s) (pmpaddr0 s) (pmpcfg0 s)
                      (mie s) (Z.lor (menvcfg s) (Z.shiftl 1 63)) (mcounteren s) (stimecmp s) (time s) (mhartid s) (tp s)) ;;;
  mcsr (fun s => Hart (priv s) (pc s) (mstatus s) (mepc s) (satp s) (medeleg s) (mideleg s) (sie s) (pmpaddr0 s) (pmpcfg0 s)
                      (mie s) (menvcfg s) (Z.lor (mcounteren s) 2) (stimecmp s) (time s) (mhartid s) (tp s)) ;;;
  w_stimecmp TIMER_TICK_CYCLES.

Definition start (main : Z) : M hart unit :=
  mcsr (fun s =>
    let x := mstatus s in
    let x := Z.land x (Z.lnot MSTATUS_MPP_MASK) in
    let x := Z.lor x MSTATUS_MPP_S in
    Hart (priv s) (pc s) x (mepc s) (satp s) (medeleg s) (mideleg s) (sie s) (pmpaddr0 s) (pmpcfg0 s) (mie s) (menvcfg s) (mcounteren s) (stimecmp s) (time s) (mhartid s) (tp s)) ;;;
  mcsr (fun s => Hart (priv s) (pc s) (mstatus s) main 0 65535 65535 (Z.lor (Z.lor (sie s) SIE_SEIE) SIE_STIE) 18014398509481983 15
                      (mie s) (menvcfg s) (mcounteren s) (stimecmp s) (time s) (mhartid s) (tp s)) ;;;
  timerinit ;;;
  mcsr (fun s => Hart (priv s) (pc s) (mstatus s) (mepc s) (satp s) (medeleg s) (mideleg s) (sie s) (pmpaddr0 s) (pmpcfg0 s)
                      (mie s) (menvcfg s) (mcounteren s) (stimecmp s) (time s) (mhartid s) (s32 (mhartid s))) ;;;
  mret.

Definition hal_timer_init : M hart unit := w_stimecmp TIMER_TICK_CYCLES.
Definition hal_timer_ack : M hart unit := w_stimecmp TIMER_TICK_CYCLES.

(** Every address below 2^56 is in the region of the first PMP entry, with all
    permissions: mode TOR, bounds 0 and pmpaddr0 * 4. *)
Definition pmp_allows (s : hart) (a : Z) : bool :=
  (Z.land (pmpcfg0 s) 7 =? 7) && (Z.land (Z.shiftr (pmpcfg0 s) 3) 3 =? 1) && (0 <=? a) && (a <? 4 * pmpaddr0 s).

Lemma testbit_lor_pow2 x n m : 0 <= n -> Z.testbit (Z.lor x (Z.shiftl 1 n)) m = Z.testbit x m || (m =? n).
Proof. intros Hn. rewrite Z.lor_spec, Z.shiftl_1_l, Z.pow2_bits_eqb by done. by rewrite Z.eqb_sym. Qed.

Lemma mcsr_run f s : priv s = 3 -> mcsr f s = Ok (tt, f s).
Proof. intros E. unfold mcsr. by rewrite E. Qed.

Ltac regs := cbn [priv pc satp medeleg mideleg sie mie stimecmp time mhartid tp pmpcfg0 pmpaddr0 mstatus mepc menvcfg mcounteren].

Ltac mcsr_step := erewrite bind_ok; [|apply mcsr_run; reflexivity]; regs.

(** A hart that comes out of reset enters main in supervisor mode, without
    paging, with all of memory open to it, with traps delegated and device and
    timer interrupts enabled; its first tick is due, its id is in tp, and from
    there on the kernel may program the timer. *)
Lemma start_enters_main main s : priv s = 3 -> 0 <= mhartid s < 2 ^ 31 -> exists s', start main s = Ok (tt, s') /\
  priv s' = 1 /\ pc s' = main /\ satp s' = 0 /\ medeleg s' = 65535 /\ mideleg s' = 65535 /\ tp s' = mhartid s /\
  Z.testbit (sie s') 9 = true /\ Z.testbit (sie s') 5 = true /\ Z.testbit (mie s') 5 = true /\
  stimecmp s' = u64 (time s + TIMER_TICK_CYCLES) /\ (forall a, 0 <= a < 2 ^ 56 - 4 -> pmp_allows s' a = true) /\
  exists s2, hal_timer_ack s' = Ok (tt, s2) /\ stimecmp s2 = u64 (time s' + TIMER_TICK_CYCLES).
Proof.
  intros Hp Hid. destruct s as [p c ms me sa md mi si pa pf mie0 me0 mc st ti id t]. cbn in Hp, Hid. subst p.
  unfold start, timerinit, mret. do 2 mcsr_step. rewrite bind_assoc. mcsr_step. rewrite bind_assoc. mcsr_step. rewrite bind_assoc. mcsr_step.
  erewrite bind_ok; [|unfold w_stimecmp; regs; reflexivity]. regs. mcsr_step. rewrite mcsr_run by done. eexists. split; [reflexivity|]. regs. split_and!; try done.
  - unfold MSTATUS_MPP_MASK, MSTATUS_MPP_S. apply Z.bits_inj'. intros n Hn. rewrite Z.land_spec, Z.shiftr_spec by done.
    assert (n = 0 \/ n = 1 \/ 2 <= n) as [-> | [-> | Hn2]] by lia.
    + rewrite testbit_lor_pow2 by lia. by rewrite orb_true_r.
    + rewrite testbit_lor_pow2, Z.land_spec by lia. cbn [Z.add Z.eqb]. rewrite Z.lnot_spec by lia. change (Z.testbit (Z.shiftl 3 11) (1 + 11)) with true. cbn. by rewrite andb_false_r.
    + rewrite (Z.bits_above_log2 3 n) by (cbn; lia). rewrite andb_false_r. symmetry. apply Z.bits_above_log2; cbn; lia.
  - apply s32_small. lia.
  - unfold SIE_SEIE, SIE_STIE. rewrite !testbit_lor_pow2 by lia. by rewrite !orb_true_r.
  - unfold SIE_SEIE, SIE_STIE. rewrite !testbit_lor_pow2 by lia. by rewrite !orb_true_r.
  - unfold MIE_STIE. rewrite testbit_lor_pow2 by lia. by rewrite orb_true_r.
  - intros a Ha. unfold pmp_allows. cbn [pmpcfg0 pmpaddr0]. change (Z.land 15 7 =? 7) with true. change (Z.land (Z.shiftr 15 3) 3 =? 1) with true. lia.
  - unfold hal_timer_ack, w_stimecmp, stce. regs. rewrite testbit_lor_pow2 by lia. change 2 with (Z.shiftl 1 1). rewrite testbit_lor_pow2 by lia. rewrite !orb_true_r.
    eexists. split; [reflexivity|]. by regs.
Qed.
End RiscvStart.

(** ** LoongArch: data and bss, and the other harts *)

Module LoongarchStart.

Definition BOOT_DONE_MAGIC : Z := 7809582827488374373.
Definition TIMER_TICK_CYCLES : Z := 10000000.
Definition TCFG_EN : Z := 1.
Definition TCFG_PERIOD : Z := 2.
Definition TCFG_INITVAL_SHIFT : Z := 2.
Definition ECFG_LIE_TIMER : Z := Z.shiftl 1 11.

(** The timer's registers, and whether its interrupt is pending. *)
Record timer : Type := Timer { ecfg : Z; tcfg : Z; pending : bool }.

(** Writing 1 to TICLR clears the pending interrupt. *)
Definition w_ticlr (x : Z) (t : timer) : timer := Timer (ecfg t) (tcfg t) (pending t && negb (Z.testbit x 0)).
Definition timerinit (t : timer) : timer :=
  let t := Timer (Z.lor (ecfg t) ECFG_LIE_TIMER) (tcfg t) (pending t) in
  let t := w_ticlr 1 t in
  Timer (ecfg t) (Z.lor (Z.lor (Z.shiftl TIMER_TICK_CYCLES TCFG_INITVAL_SHIFT) TCFG_PERIOD) TCFG_EN) (pending t).
Definition hal_timer_ack (t : timer) : timer := w_ticlr 1 t.

(** The timer is on and periodic, with a period that fits its field. *)
Lemma timerinit_periodic t : Z.testbit (tcfg (timerinit t)) 0 = true /\ Z.testbit (tcfg (timerinit t)) 1 = true /\
  Z.shiftr (tcfg (timerinit t)) 2 = TIMER_TICK_CYCLES /\ tcfg (timerinit t) < 2 ^ 32 /\ pending (timerinit t) = false /\ Z.testbit (ecfg (timerinit t)) 11 = true.
Proof.
  split_and!; try done; [cbn; apply andb_false_r|]. unfold timerinit, w_ticlr. cbn [ecfg]. unfold ECFG_LIE_TIMER. rewrite RiscvStart.testbit_lor_pow2 by lia. apply orb_true_r.
Qed.

Section Start.
  Context (data_lma data_start bss_start bss_end boot_done : Z).

(** Where hart 0 is in start, with its locals. *)
Inductive pc0 : Type := Copy (dst src : Z) | Zero (dst : Z) | Publish | Main.

(** The memory in words of 8 bytes; the other harts, and whether they have left
    the loop. *)
Record boot : Type := Bt { b_mem : Z -> Z; b_pc : pc0; b_others : list bool }.

Definition store (m : Z -> Z) (a x : Z) : Z -> Z := fun b => if b =? a then x else m b.

(** One turn of hart 0. *)
Definition turn0 (m : Z -> Z) (p : pc0) : option ((Z -> Z) * pc0) :=
  match p with
  | Copy dst src => if dst <? bss_start then Some (store m dst (m src), Copy (dst + 8) (src + 8)) else Some (m, Zero bss_start)
  | Zero dst => if dst <? bss_end then Some (store m dst 0, Zero (dst + 8)) else Some (m, Publish)
  | Publish => Some (store m boot_done BOOT_DONE_MAGIC, Main)
  | Main => None
  end.

(** One turn of another hart: does it leave the loop? *)
Definition leaves (m : Z -> Z) : bool := negb (negb (m boot_done =? BOOT_DONE_MAGIC)).

Inductive step : boot -> boot -> Prop :=
  | step_hart0 m p l m' p' : turn0 m p = Some (m', p') -> step (Bt m p l) (Bt m' p' l)
  | step_leave m p l i : l !! i = Some false -> leaves m = true -> step (Bt m p l) (Bt m p (<[i := true]> l))
  | step_spin m p l i : l !! i = Some false -> leaves m = false -> step (Bt m p l) (Bt m p l).

Definition start (m : Z -> Z) (n : nat) : boot := Bt m (Copy data_start data_lma) (replicate n false).

Context (Hal : data_start mod 8 = 0 /\ bss_start mod 8 = 0 /\ bss_end mod 8 = 0 /\ boot_done mod 8 = 0).
Context (Hord : data_start <= bss_start <= boot_done /\ boot_done < bss_end).
(** The image of the data is in flash. *)
Context (Hflash : data_lma + (bss_start - data_start) <= data_start \/ bss_end <= data_lma).

(** The data up to [d] have their values, the bss up to [z] is zero, and the
    rest is as it was. *)
Definition filled (m0 m : Z -> Z) (d z : Z) : Prop :=
  forall a, m a = if (data_start <=? a) && (a <? d) && (a mod 8 =? 0) then m0 (data_lma + (a - data_start))
                  else if (bss_start <=? a) && (a <? z) && (a mod 8 =? 0) then 0 else m0 a.

(** What holds at each point of hart 0. *)
Definition at_pc (m0 m : Z -> Z) (p : pc0) : Prop :=
  match p with
  | Copy dst src => data_start <= dst <= bss_start /\ dst mod 8 = 0 /\ src = data_lma + (dst - data_start) /\ filled m0 m dst bss_start
  | Zero dst => bss_start <= dst <= bss_end /\ dst mod 8 = 0 /\ filled m0 m bss_start dst
  | Publish => filled m0 m bss_start bss_end
  | Main => exists m1, filled m0 m1 bss_start bss_end /\ forall a, m a = if a =? boot_done then BOOT_DONE_MAGIC else m1 a
  end.

Lemma turn0_keeps m0 m p m' p' : at_pc m0 m p -> turn0 m p = Some (m', p') -> at_pc m0 m' p'.
Proof.
  destruct Hal as (A1 & A2 & A3 & A4). destruct Hord as ((O1 & O2) & O3). intros Hat E. destruct p as [dst src|dst| |]; cbn in E, Hat.
  - destruct Hat as (Hd & Hm & -> & Hf). destruct (Z.ltb_spec dst bss_start) as [Hlt|Hge]; injection E as <- <-.
    + split; [dlia|]. split; [dlia|]. split; [lia|]. intros a. unfold store. destruct (Z.eqb_spec a dst) as [->|Hne].
      * replace ((data_start <=? dst) && (dst <? dst + 8) && (dst mod 8 =? 0)) with true by lia. rewrite Hf.
        replace (_ && _ && _) with false by lia. replace (_ && _ && _) with false by lia. done.
      * rewrite Hf. replace ((data_start <=? a) && (a <? dst + 8) && (a mod 8 =? 0)) with ((data_start <=? a) && (a <? dst) && (a mod 8 =? 0)) by dlia. done.
    + split; [lia|]. split; [done|]. by replace dst with bss_start in Hf by lia.
  - destruct Hat as (Hd & Hm & Hf). destruct (Z.ltb_spec dst bss_end) as [Hlt|Hge]; injection E as <- <-.
    + split; [dlia|]. split; [dlia|]. intros a. unfold store. destruct (Z.eqb_spec a dst) as [->|Hne].
      * replace ((data_start <=? dst) && (dst <? bss_start) && (dst mod 8 =? 0)) with false by lia. by replace ((bss_start <=? dst) && (dst <? dst + 8) && (dst mod 8 =? 0)) with true by lia.
      * rewrite Hf. by replace ((bss_start <=? a) && (a <? dst + 8) && (a mod 8 =? 0)) with ((bss_start <=? a) && (a <? dst) && (a mod 8 =? 0)) by dlia.
    + by replace dst with bss_end in Hf by lia.
  - injection E as <- <-. exists m. done.
  - done.
Qed.

(** Before hart 0 is done the flag is not set, if it was not set at the start. *)
Lemma flag_unset m0 m p : at_pc m0 m p -> p <> Main -> m0 boot_done <> BOOT_DONE_MAGIC -> m boot_done <> BOOT_DONE_MAGIC.
Proof.
  destruct Hord as ((O1 & O2) & O3). intros Hat Hne H0. assert (exists d z, d <= bss_start /\ filled m0 m d z) as (d & z & Hd & Hf).
  { destruct p as [dst src|dst| |]; cbn in Hat; [destruct Hat as (? & _ & _ & ?); exists dst, bss_start|destruct Hat as (? & _ & ?); exists bss_start, dst|exists bss_start, bss_end|done]; (split; [lia|done]). }
  rewrite Hf. replace (_ && _ && _) with false by lia. by destruct (_ && _ && _).
Qed.

(** The barrier of start.  If the flag does not hold the magic number when the
    machine starts, then in every interleaving a hart that has left start finds
    the data with their initial values and the bss zeroed but for the flag. *)
Lemma start_barrier m0 n st : m0 boot_done <> BOOT_DONE_MAGIC -> rtc step (start m0 n) st -> b_pc st = Main \/ true ∈ b_others st ->
  (forall a, data_start <= a < bss_start -> a mod 8 = 0 -> b_mem st a = m0 (data_lma + (a - data_start))) /\
  (forall a, bss_start <= a < bss_end -> a mod 8 = 0 -> a <> boot_done -> b_mem st a = 0).
Proof.
  intros H0 Hr Hin. destruct Hord as ((O1 & O2) & O3).
  assert (at_pc m0 (b_mem st) (b_pc st) /\ (true ∈ b_others st -> b_pc st = Main)) as [Hat Hm].
  { clear Hin. revert Hr. apply (rtc_ind_r (fun st => at_pc m0 (b_mem st) (b_pc st) /\ (true ∈ b_others st -> b_pc st = Main))).
    - cbn. split; [|by intros [? ?]%elem_of_replicate]. destruct Hal as (A1 & _). split_and!; [lia|lia|done|lia|]. intros a. replace (_ && _ && _) with false by lia. by replace (_ && _ && _) with false by lia.
    - intros x y _ Hs [Hx Hmx]. destruct Hs as [m p l m' p' E|m p l i Hi Hl|m p l i Hi Hl]; cbn in *; [|split; [done|]|done].
      + split; [by eapply turn0_keeps|]. intros Ht. specialize (Hmx Ht). by subst p.
      + intros _. destruct p as [d s|d| |]; [..|done]; exfalso; unfold leaves in Hl; rewrite negb_involutive in Hl; apply Z.eqb_eq in Hl; by eapply flag_unset. }
  assert (b_pc st = Main) as E by (destruct Hin; auto). rewrite E in Hat. destruct Hat as (m1 & Hf & Hmem). split.
  - intros a Ha Hal8. rewrite Hmem. rewrite (proj2 (Z.eqb_neq a boot_done)) by lia. rewrite Hf. by replace (_ && _ && _) with true by lia.
  - intros a Ha Hal8 Hne. rewrite Hmem, (proj2 (Z.eqb_neq _ _) Hne), Hf. replace (_ && _ && _) with false by lia. by replace (_ && _ && _) with true by lia.
Qed.

(** The flag is part of the memory that start clears: left over from an earlier
    run, it lets the other harts go before hart 0 has done anything. *)
Lemma stale_flag_opens m0 : m0 boot_done = BOOT_DONE_MAGIC -> step (start m0 1) (Bt m0 (Copy data_start data_lma) [true]).
Proof. intros H0. apply (step_leave _ _ [false] 0); [done|]. unfold leaves. by rewrite H0. Qed.
End Start.
End LoongarchStart.

(** ** kernel/main.c: the order of initialisation *)

Module KernelMain.

Inductive init : Type :=
  | consoleinit | printfinit | banner | kinit | kvminit | kvminithart | procinit | trapinit | trapinithart | hal_irq_init | hal_irq_hart_init
  | binit | iinit | vfs_init | fileinit | hal_disk_init | hal_timer_init | userinit | announce | hart_banner.

#[export] Instance init_eq_dec : EqDecision init.
Proof. solve_decision. Defined.

(** What main does on hart 0 before it sets started, and on the other harts
    after they have seen it set. *)
Definition main0 : list init :=
  [consoleinit; printfinit; banner; kinit; kvminit; kvminithart; procinit; trapinit; trapinithart; hal_irq_init; hal_irq_hart_init;
   binit; iinit; vfs_init; fileinit; hal_disk_init; hal_timer_init; userinit; announce].
Definition mainn : list init := [hart_banner; kvminithart; trapinithart; hal_irq_hart_init; hal_timer_init].

Inductive act : Type := Do (i : init) | SetStarted | AwaitStarted.

Definition main (hart : nat) : list act := if (hart =? 0)%nat then (Do <$> main0) ++ [SetStarted] else AwaitStarted :: (Do <$> mainn).

(** What each hart has still to do before the scheduler, the flag, and what has
    been done by whom. *)
Record boot : Type := Bt { todo : nat -> list act; started : bool; log : list (nat * init) }.

Definition set_todo (f : nat -> list act) (h : nat) (r : list act) : nat -> list act := fun k => if (k =? h)%nat then r else f k.

Inductive step : boot -> boot -> Prop :=
  | step_do f b l h i r : f h = Do i :: r -> step (Bt f b l) (Bt (set_todo f h r) b (l ++ [(h, i)]))
  | step_set f b l h r : f h = SetStarted :: r -> step (Bt f b l) (Bt (set_todo f h r) true l)
  | step_go f l h r : f h = AwaitStarted :: r -> step (Bt f true l) (Bt (set_todo f h r) true l)
  | step_spin f l h r : f h = AwaitStarted :: r -> step (Bt f false l) (Bt f false l).

Definition reset : boot := Bt main false [].

(** What the code of each initialisation uses: of the whole kernel, and of its
    own hart.  userinit makes the first process runnable, and forkret, where that
    process begins, reads the disk, mounts the root and opens its directory. *)
Definition needs (i : init) : list init :=
  match i with
  | banner | announce | hart_banner => [consoleinit; printfinit]
  | kvminit => [kinit]
  | kvminithart => [kvminit]
  | hal_irq_hart_init => [hal_irq_init]
  | hal_disk_init => [kinit]
  | userinit => [kinit; kvminit; procinit; binit; iinit; vfs_init; fileinit; hal_disk_init]
  | _ => []
  end.
Definition needs_here (i : init) : list init :=
  match i with
  | hal_irq_hart_init | hal_timer_init => [kvminithart; trapinithart]
  | _ => []
  end.

(** What hart [h] has done. *)
Definition done_by (h : nat) (l : list (nat * init)) : list init := snd <$> filter (fun p => p.1 = h) l.

Lemma done_by_app h l1 l2 : done_by h (l1 ++ l2) = done_by h l1 ++ done_by h l2.
Proof. unfold done_by. by rewrite filter_app, fmap_app. Qed.

Lemma elem_done_by h i l : i ∈ done_by h l <-> (h, i) ∈ l.
Proof.
  unfold done_by. rewrite list_elem_of_fmap. split.
  - intros ([h' j] & -> & Hin). apply list_elem_of_filter in Hin as [<- ?]. done.
  - intros Hin. exists (h, i). split; [done|]. by apply list_elem_of_filter.
Qed.

(** Hart 0 works through its list alone; the others begin when it is done. *)
Record inv (s : boot) : Prop := Inv {
  iv_zero : exists k, todo s 0 = drop k (main 0) /\ (k <= 20)%nat /\ done_by 0 (log s) = take k main0 /\ (started s = true <-> k = 20%nat);
  iv_log : exists l0 l1, log s = l0 ++ l1 /\ Forall (fun p => p.1 = 0%nat) l0 /\ Forall (fun p => p.1 <> 0%nat) l1 /\ (started s = false -> l1 = []);
  iv_other : forall h, h <> 0%nat -> exists k, todo s h = drop k (main h) /\ (k <= 6)%nat /\ done_by h (log s) = take (k - 1) mainn /\ (started s = false -> k = 0%nat)
}.

Lemma set_todo_eq f h r : set_todo f h r h = r.
Proof. unfold set_todo. by rewrite Nat.eqb_refl. Qed.

Lemma set_todo_ne f h r k : k <> h -> set_todo f h r k = f k.
Proof. intros H. unfold set_todo. by rewrite (proj2 (Nat.eqb_neq k h) H). Qed.

Lemma done_by_snoc h l h' i : done_by h (l ++ [(h', i)]) = done_by h l ++ (if decide (h' = h) then [i] else []).
Proof. rewrite done_by_app. f_equal. unfold done_by. rewrite filter_cons. cbn. by destruct (decide (h' = h)). Qed.

(** The next action of a program. *)
Lemma drop_next {A} (l : list A) k x r : drop k l = x :: r -> l !! k = Some x /\ r = drop (S k) l.
Proof.
  intros E. split; [by rewrite <-(Nat.add_0_r k), <-lookup_drop, E|]. replace (S k) with (k + 1)%nat by lia. by rewrite <-drop_drop, E.
Qed.

Lemma main0_next k x : main 0 !! k = Some x -> (k < 19)%nat /\ (exists i, x = Do i /\ main0 !! k = Some i) \/ k = 19%nat /\ x = SetStarted.
Proof.
  intros E. pose proof (lookup_lt_Some _ _ _ E) as Hk. change (length (main 0)) with 20%nat in Hk. unfold main in E. cbn [Nat.eqb] in E.
  destruct (decide (k < 19)%nat) as [Hlt|Hge]; [left|right; assert (k = 19%nat) as -> by lia; split; [done|]; by injection E].
  split; [done|]. rewrite lookup_app_l in E by done. rewrite list_lookup_fmap in E. destruct (main0 !! k) as [i|]; [|done]. exists i. split; [by injection E|done].
Qed.

Lemma mainn_next h k x : h <> 0%nat -> main h !! k = Some x -> k = 0%nat /\ x = AwaitStarted \/ (0 < k < 6)%nat /\ exists i, x = Do i /\ mainn !! (k - 1)%nat = Some i.
Proof.
  intros Hh E. unfold main in E. rewrite (proj2 (Nat.eqb_neq h 0) Hh) in E. destruct k as [|k]; [left; split; [done|]; by injection E|right].
  pose proof (lookup_lt_Some _ _ _ E) as Hk. cbn in Hk. split; [lia|]. change ((Do <$> mainn) !! k = Some x) in E. rewrite list_lookup_fmap in E.
  replace (S k - 1)%nat with k by lia. destruct (mainn !! k) as [i|]; [|done]. exists i. split; [by injection E|done].
Qed.

(** Hart 0 takes its next action. *)
Lemma inv_hart0 f b l x r f' b' l' : inv (Bt f b l) -> f 0%nat = x :: r -> f' = set_todo f 0 r ->
  match x with Do i => b' = b /\ l' = l ++ [(0%nat, i)] | SetStarted => b' = true /\ l' = l | AwaitStarted => False end -> inv (Bt f' b' l').
Proof.
  intros [(k & Ek & Hk & Hd & Hs) (l0 & l1 & El & F0 & F1 & Hf) Ho] Ef -> Hx. cbn [todo started log] in *. rewrite Ek in Ef. apply drop_next in Ef as [Ex ->].
  destruct (main0_next k x Ex) as [(Hlt & i & -> & Ei)|(-> & ->)].
  - destruct Hx as [-> ->]. assert (b = false) as -> by (destruct b; [destruct Hs as [Hs _]; specialize (Hs eq_refl); lia|done]). constructor; cbn [todo started log].
    + exists (S k). rewrite set_todo_eq, done_by_snoc, decide_True, Hd by done. split_and!; [done|lia|by rewrite (take_S_r _ _ i)|split; [done|lia]].
    + rewrite (Hf eq_refl), app_nil_r in El. exists (l ++ [(0%nat, i)]), []. rewrite app_nil_r. subst l0. split_and!; [done| |constructor|done]. apply Forall_app. by split; [|repeat constructor].
    + intros h Hh. destruct (Ho h Hh) as (k' & E1 & E2 & E3 & E4). exists k'. rewrite set_todo_ne, done_by_snoc, decide_False, app_nil_r by done. done.
  - destruct Hx as [-> ->]. assert (b = false) as -> by (destruct b; [destruct Hs as [Hs _]; specialize (Hs eq_refl); lia|done]). constructor; cbn [todo started log].
    + exists 20%nat. rewrite set_todo_eq. split_and!; [done|done| |done]. rewrite Hd. done.
    + exists l0, l1. done.
    + intros h Hh. destruct (Ho h Hh) as (k' & E1 & E2 & E3 & E4). exists k'. rewrite set_todo_ne by done. done.
Qed.

Lemma inv_other_hart f l h x r l' : inv (Bt f true l) -> h <> 0%nat -> f h = x :: r ->
  match x with Do i => l' = l ++ [(h, i)] | AwaitStarted => l' = l | SetStarted => False end -> inv (Bt (set_todo f h r) true l').
Proof.
  intros [(k & Ek & Hk & Hd & Hs) (l0 & l1 & El & F0 & F1 & Hf) Ho] Hh Ef Hx. cbn [todo started log] in *.
  destruct (Ho h Hh) as (n & En & Hn & Hdn & _). rewrite En in Ef. apply drop_next in Ef as [Ex ->].
  destruct (mainn_next h n x Hh Ex) as [(-> & ->)|(Hr & i & -> & Ei)]; subst l'; constructor; cbn [todo started log].
  - exists k. by rewrite set_todo_ne.
  - exists l0, l1. done.
  - intros h' Hh'. destruct (decide (h' = h)) as [->|Hne]; [|destruct (Ho h' Hh') as (k' & E1 & E2 & E3 & E4); exists k'; by rewrite set_todo_ne].
    exists 1%nat. rewrite set_todo_eq. split_and!; [done|lia|done|done].
  - exists k. rewrite set_todo_ne, done_by_snoc, decide_False, app_nil_r by done. done.
  - exists l0, (l1 ++ [(h, i)]). rewrite El, app_assoc. split_and!; [done|done| |done]. apply Forall_app. by split; [|repeat constructor].
  - intros h' Hh'. rewrite done_by_snoc. destruct (decide (h' = h)) as [->|Hne].
    + exists (S n). rewrite set_todo_eq, decide_True, Hdn by done. split_and!; [done|lia| |done]. replace (S n - 1)%nat with (S (n - 1)) by lia. by rewrite (take_S_r _ _ i).
    + rewrite decide_False, app_nil_r by done. destruct (Ho h' Hh') as (k' & E1 & E2 & E3 & E4). exists k'. by rewrite set_todo_ne.
Qed.

Lemma boot_inv_step s s' : inv s -> step s s' -> inv s'.
Proof.
  intros I Hs. destruct Hs as [f b l h i r E|f b l h r E|f l h r E|f l h r E]; [| | |done].
  - destruct (decide (h = 0%nat)) as [->|Hh]; [by eapply inv_hart0|]. destruct b; [by eapply inv_other_hart|].
    exfalso. destruct (iv_other _ I h Hh) as (k & E1 & _ & _ & E2). cbn in E1, E2. rewrite E2 in E1 by done. rewrite E in E1. unfold main in E1. by rewrite (proj2 (Nat.eqb_neq h 0) Hh) in E1.
  - destruct (decide (h = 0%nat)) as [->|Hh]; [by eapply inv_hart0|]. exfalso. destruct (iv_other _ I h Hh) as (k & E1 & _). cbn in E1. rewrite E in E1. symmetry in E1. apply drop_next in E1 as [E1 _].
    destruct (mainn_next h k _ Hh E1) as [[_ ?]|(_ & i & ? & _)]; done.
  - destruct (decide (h = 0%nat)) as [->|Hh]; [|by eapply inv_other_hart]. exfalso. destruct (iv_zero _ I) as (k & E1 & _). cbn in E1. rewrite E in E1. symmetry in E1. apply drop_next in E1 as [E1 _].
    destruct (main0_next k _ E1) as [(_ & i & ? & _)|[_ ?]]; done.
Qed.

Lemma inv_reset : inv reset.
Proof.
  constructor; cbn.
  - exists 0%nat. split_and!; [done|lia|done|done].
  - exists [], []. done.
  - intros h Hh. exists 0%nat. split_and!; [done|lia|done|done].
Qed.

(** In the two lists everything comes behind what it needs. *)
Definition ordered (l : list init) (before : list init) : bool :=
  forallb (fun k => match l !! k with Some i => forallb (fun j => bool_decide (j ∈ before ++ take k l)) (needs i) && forallb (fun j => bool_decide (j ∈ take k l)) (needs_here i) | None => true end)
    (seq 0 (length l)).

Lemma ordered_at l before k i : ordered l before = true -> l !! k = Some i -> (forall j, j ∈ needs i -> j ∈ before ++ take k l) /\ (forall j, j ∈ needs_here i -> j ∈ take k l).
Proof.
  intros Ho Hk. unfold ordered in Ho. rewrite forallb_forall in Ho. specialize (Ho k). rewrite Hk in Ho.
  destruct (andb_prop _ _ (Ho ltac:(apply in_seq; apply lookup_lt_Some in Hk; lia))) as [H1 H2]. rewrite forallb_forall in H1, H2.
  split; intros j Hj; apply list_elem_of_In in Hj; [specialize (H1 j Hj); by apply bool_decide_eq_true in H1|specialize (H2 j Hj); by apply bool_decide_eq_true in H2].
Qed.

(** An entry in a list that is a prefix of [l]. *)
Lemma prefix_entry {A} (l l1 l2 : list A) i n : l1 ++ i :: l2 = take n l -> l !! length l1 = Some i /\ l1 = take (length l1) l.
Proof.
  intros E. assert (length l1 < n)%nat as Hn by (apply (f_equal length) in E; rewrite length_app, length_take in E; cbn in E; lia). split.
  - rewrite <-(lookup_take_lt l n) by done. rewrite <-E, lookup_app_r, Nat.sub_diag by lia. done.
  - rewrite <-(take_app_length l1 (i :: l2)) at 1. rewrite E, take_take. f_equal. lia.
Qed.


End KernelMain.

(** ** forkret of kernel/proc.c: the first process sets up the file system *)

Module Forkret.

(** What forkret does beyond its return to user mode. *)
Inductive act : Type := fsinit | vfs_mount_root | set_cwd | clear_first | kexec_init.

#[export] Instance act_eq_dec : EqDecision act.
Proof. solve_decision. Defined.

(** A process that has been made runnable and not run yet, one in forkret with
    what it has still to do, one in user mode, and one that has panicked. *)
Inductive where_ : Type := New | In_forkret (todo : list act) | In_user | Panicked.

(** Processes, [first], and what has been done by whom. *)
Record sys : Type := Sys { procs : list where_; first : bool; done_acts : list (nat * act) }.

(** The body of the conditional, in the order of the code: [first] is cleared
    before the exec, which sleeps. *)
Definition forkret (first : bool) : list act := if first then [fsinit; vfs_mount_root; set_cwd; clear_first; kexec_init] else [].

Inductive step : sys -> sys -> Prop :=
  | step_enter ps f l p : ps !! p = Some New -> step (Sys ps f l) (Sys (<[p := In_forkret (forkret f)]> ps) f l)
  | step_act ps f l p a r : ps !! p = Some (In_forkret (a :: r)) ->
      step (Sys ps f l) (Sys (<[p := In_forkret r]> ps) (if decide (a = clear_first) then false else f) (l ++ [(p, a)]))
  | step_noexec ps f l p r : ps !! p = Some (In_forkret (kexec_init :: r)) -> step (Sys ps f l) (Sys (<[p := Panicked]> ps) f l)
  | step_return ps f l p : ps !! p = Some (In_forkret []) -> step (Sys ps f l) (Sys (<[p := In_user]> ps) f l)
  | step_fork ps f l p : ps !! p = Some In_user -> step (Sys ps f l) (Sys (ps ++ [New]) f l).

(** What userinit leaves: one process. *)
Definition booted : sys := Sys [New] true [].

(** Before the exec there is one process, which works through the list; after
    it, no process has anything to do in forkret. *)
Inductive inv : sys -> Prop :=
  | inv_new : inv booted
  | inv_setup k : (k <= 5)%nat -> inv (Sys [In_forkret (drop k (forkret true))] (k <? 4)%nat (pair 0%nat <$> take k (forkret true)))
  | inv_dead : inv (Sys [Panicked] false (pair 0%nat <$> take 4 (forkret true)))
  | inv_up ps : Forall (fun w => w = New \/ w = In_forkret [] \/ w = In_user) ps -> inv (Sys ps false (pair 0%nat <$> forkret true)).

Lemma single {A} (x y : A) p : [x] !! p = Some y -> p = 0%nat /\ x = y.
Proof. destruct p as [|p]; intros E; [by injection E|done]. Qed.

(** The first process takes a step of its list. *)
Lemma setup_step k s' : (k <= 5)%nat -> step (Sys [In_forkret (drop k (forkret true))] (k <? 4)%nat (pair 0%nat <$> take k (forkret true))) s' -> inv s'.
Proof.
  intros Hk Hs. inversion Hs as [ps f l p E|ps f l p a r E|ps f l p r E|ps f l p E|ps f l p E]; subst; apply single in E as [-> E]; try done; injection E as E.
  - assert (k < 5)%nat as Hk' by (destruct (decide (k < 5)%nat); [done|]; assert (k = 5%nat) as -> by lia; done).
    pose proof (inv_setup (S k) ltac:(lia)) as Hi. cut (k = 0 \/ k = 1 \/ k = 2 \/ k = 3 \/ k = 4)%nat; [|lia]. intros Hc. destruct_or! Hc; subst k; cbn in E; injection E as <- <-; exact Hi.
  - assert (k = 4%nat) as ->; [|exact inv_dead]. cut (k = 0 \/ k = 1 \/ k = 2 \/ k = 3 \/ k = 4 \/ k = 5)%nat; [|lia]. intros Hc. destruct_or! Hc; subst k; cbn in E; done.
  - assert (k = 5%nat) as ->; [|apply inv_up; apply Forall_singleton; auto]. destruct (decide (k = 5%nat)); [done|]. apply (f_equal length) in E. rewrite length_drop in E. cbn in E. lia.
Qed.

Lemma up_step ps s' : Forall (fun w => w = New \/ w = In_forkret [] \/ w = In_user) ps -> step (Sys ps false (pair 0%nat <$> forkret true)) s' -> inv s'.
Proof.
  intros F Hs. inversion Hs as [? f l p E|? f l p a r E|? f l p r E|? f l p E|? f l p E]; subst; pose proof (Forall_lookup_1 _ _ _ _ F E) as Hw.
  - apply inv_up. apply Forall_insert; auto.
  - destruct_or! Hw; done.
  - destruct_or! Hw; done.
  - apply inv_up. apply Forall_insert; auto.
  - apply inv_up. apply Forall_app. auto.
Qed.

Lemma forkret_inv_step s s' : inv s -> step s s' -> inv s'.
Proof.
  intros Hi. destruct Hi as [|k Hk| |ps F]; intros Hs; [|by eapply setup_step| |by eapply up_step].
  - inversion Hs as [ps f l p E|ps f l p a r E|ps f l p r E|ps f l p E|ps f l p E]; subst; apply single in E as [-> E]; try done. apply (inv_setup 0). lia.
  - inversion Hs as [ps f l p E|ps f l p a r E|ps f l p r E|ps f l p E|ps f l p E]; subst; apply single in E as [-> E]; done.
Qed.

(** The file system is set up once, by the first process, before any process
    runs in user mode: what forkret has done is always a part, from the start, of
    recovering the log, mounting the root, entering it and running /init, and it
    is all of that when a process is in user mode or a second process exists. *)
Lemma forkret_sets_up_once s : rtc step booted s ->
  (exists k, done_acts s = pair 0%nat <$> take k (forkret true)) /\
  (forall p, procs s !! p = Some In_user \/ (0 < p)%nat /\ is_Some (procs s !! p) -> done_acts s = pair 0%nat <$> forkret true).
Proof.
  intros H. assert (inv s) as Hi by (revert H; apply (rtc_ind_r inv); [apply inv_new|]; intros x y _ Hst Hx; by eapply forkret_inv_step).
  destruct Hi as [|k Hk| |ps F]; cbn [done_acts procs]; (split; [try (by exists 0%nat); eauto; try (by exists 5%nat)|intros p Hp; try done]);
    exfalso; (destruct p as [|p]; [destruct Hp as [?|[? _]]; [done|lia]|destruct Hp as [?|[_ [? ?]]]; done]).
Qed.
End Forkret.
