(* ===== verification/Uart.v ===== *)
(** Uart: the 16550a serial driver, hal/riscv/hal_uart.c and
    hal/loongarch/hal_uart.c, which are the same code but for their constants
    in hal_console_init.

    The device is what the data sheet says of the registers that the driver
    uses: at its initialisation (Module UartInit) the control registers, two of
    which share their addresses with the baud rate, and afterwards a transmit holding register, whose contents
    are lost when it is written while full, a queue of received characters, and
    an interrupt that the emptying of the holding register raises.
    hal_console_write is cut where it sleeps; hal_putchar spins with tx_lock
    held, so it is two steps.  hal_putchar's behaviour after a panic is not
    modelled. *)

From S2P Require Import Prelude.

Definition LSR_RX_READY : Z := 1.
Definition LSR_TX_IDLE : Z := 32.

(** ** Initialisation *)

Module UartInit.

Definition IER : Z := 1.
Definition IER_RX_ENABLE : Z := 1.
Definition IER_TX_ENABLE : Z := 2.
Definition FCR : Z := 2.
Definition FCR_FIFO_ENABLE : Z := 1.
Definition FCR_FIFO_CLEAR : Z := Z.shiftl 3 1.
Definition LCR : Z := 3.
Definition LCR_EIGHT_BITS : Z := 3.
Definition LCR_BAUD_LATCH : Z := Z.shiftl 1 7.
Definition BAUD_DIV : Z := 3.

(** The control registers, the divisor, and what was written for sending. *)
Record regs : Type := Regs { ier : Z; fcr : Z; lcr : Z; dll : Z; dlm : Z; sent : list Z }.

(** The latch of the baud rate gives registers 0 and 1 their second meaning. *)
Definition WriteReg (reg v : Z) (s : regs) : regs :=
  let latch := Z.testbit (lcr s) 7 in
  if reg =? 0 then if latch then Regs (ier s) (fcr s) (lcr s) (u8 v) (dlm s) (sent s) else Regs (ier s) (fcr s) (lcr s) (dll s) (dlm s) (sent s ++ [u8 v])
  else if reg =? 1 then if latch then Regs (ier s) (fcr s) (lcr s) (dll s) (u8 v) (sent s) else Regs (u8 v) (fcr s) (lcr s) (dll s) (dlm s) (sent s)
  else if reg =? 2 then Regs (ier s) (u8 v) (lcr s) (dll s) (dlm s) (sent s)
  else if reg =? 3 then Regs (ier s) (fcr s) (u8 v) (dll s) (dlm s) (sent s)
  else s.

(** hal_console_init on RISC-V. *)
Definition riscv_console_init (s : regs) : regs :=
  let s := WriteReg IER 0 s in
  let s := WriteReg LCR LCR_BAUD_LATCH s in
  let s := WriteReg 0 3 s in
  let s := WriteReg 1 0 s in
  let s := WriteReg LCR LCR_EIGHT_BITS s in
  let s := WriteReg FCR (Z.lor FCR_FIFO_ENABLE FCR_FIFO_CLEAR) s in
  WriteReg IER (Z.lor IER_TX_ENABLE IER_RX_ENABLE) s.

(** hal_console_init on LoongArch. *)
Definition loongarch_console_init (s : regs) : regs :=
  let s := WriteReg IER 0 s in
  let s := WriteReg LCR LCR_BAUD_LATCH s in
  let s := WriteReg 0 (Z.land BAUD_DIV 255) s in
  let s := WriteReg 1 (Z.land (Z.shiftr BAUD_DIV 8) 255) s in
  let s := WriteReg LCR LCR_EIGHT_BITS s in
  let s := WriteReg FCR (Z.lor FCR_FIFO_ENABLE FCR_FIFO_CLEAR) s in
  WriteReg IER (Z.lor IER_TX_ENABLE IER_RX_ENABLE) s.

(** Both leave the same device, whatever the firmware has left, the latch
    included: eight bits, the divisor of 38400 baud, FIFOs on, both interrupts
    on, and nothing sent. *)
Lemma console_init_regs s : riscv_console_init s = Regs 3 7 3 3 0 (sent s) /\ loongarch_console_init s = Regs 3 7 3 3 0 (sent s).
Proof.
  assert (exists i m, WriteReg LCR LCR_BAUD_LATCH (WriteReg IER 0 s) = Regs i (fcr s) 128 (dll s) m (sent s)) as (i & m & E).
  { unfold WriteReg at 2. change (IER =? 0) with false. change (IER =? 1) with true. cbv iota. destruct (Z.testbit (lcr s) 7); by do 2 eexists. }
  unfold riscv_console_init, loongarch_console_init. cbv zeta. rewrite E. by vm_compute.
Qed.
End UartInit.

(** ** The driver *)

(** The device, with the characters that have gone out on the line, and
    tx_busy. *)
Record uart : Type := Uart { u_thr : option Z; u_rx : list Z; u_isr : bool; u_line : list Z; tx_busy : bool }.

Section Fields.
  Implicit Types s : uart.

Definition set_thr (x : option Z) s : uart := Uart x (u_rx s) (u_isr s) (u_line s) (tx_busy s).
Definition set_rx (x : list Z) s : uart := Uart (u_thr s) x (u_isr s) (u_line s) (tx_busy s).
Definition set_isr (x : bool) s : uart := Uart (u_thr s) (u_rx s) x (u_line s) (tx_busy s).
Definition set_busy (x : bool) s : uart := Uart (u_thr s) (u_rx s) (u_isr s) (u_line s) x.

(** ReadReg(LSR) *)
Definition lsr s : Z :=
  Z.lor (if u_rx s then 0 else LSR_RX_READY) (if u_thr s then 0 else LSR_TX_IDLE).

(** The holding register is sent. *)
Definition transmit s : option uart :=
  match u_thr s with
  | Some c => Some (Uart None (u_rx s) true (u_line s ++ [c]) (tx_busy s))
  | None => None
  end.

End Fields.

(** hal_console_write from the loop's head, with [l] to be written: what is
    left when it sleeps. *)
Fixpoint hal_console_write (l : list Z) : M uart (list Z) :=
  match l with
  | [] => ret []
  | c :: l' =>
      busy <- gets tx_busy ;;
      if (busy : bool) then ret l
      else
        modify (set_thr (Some c)) ;;;
        modify (set_busy true) ;;;
        hal_console_write l'
  end.

(** One turn of hal_putchar's wait, and what follows: whether it is done. *)
Definition hal_putchar (c : Z) : M uart bool :=
  r <- gets lsr ;;
  if Z.land r LSR_TX_IDLE =? 0 then ret false
  else
    modify (set_thr (Some c)) ;;;
    modify (set_busy true) ;;;
    ret true.

Definition uart_getc : M uart Z :=
  r <- gets lsr ;;
  if negb (Z.land r LSR_RX_READY =? 0) then
    l <- gets u_rx ;;
    modify (set_rx (tl l)) ;;;
    ret (hd 0 l)
  else ret (-1).

(** The part of hal_console_intr under tx_lock: whether it wakes tx_chan. *)
Definition intr_tx : M uart bool :=
  modify (set_isr false) ;;;
  r <- gets lsr ;;
  if negb (Z.land r LSR_TX_IDLE =? 0) then modify (set_busy false) ;;; ret true else ret false.

(** The loop of hal_console_intr, with the characters it has handed on. *)
Definition rx_body (got : list Z) : M uart (list Z + list Z) :=
  c <- uart_getc ;;
  if c =? -1 then ret (inr got) else ret (inl (got ++ [c])).

Definition intr_rx : M uart (list Z) :=
  l <- gets u_rx ;; loop (S (length l)) rx_body [].

(** *** Receiving *)

Lemma uart_getc_eq s : uart_getc s = match u_rx s with [] => Ok (-1, s) | c :: l => Ok (c, set_rx l s) end.
Proof. unfold uart_getc, lsr. mstep. destruct s as [[t|] [|c l] i o b]; done. Qed.

Lemma rx_loop l : forall n s got, u_rx s = l -> Forall is_byte l -> (length l < n)%nat -> loop n rx_body got s = Ok (got ++ l, set_rx [] s).
Proof.
  induction l as [|c l IH]; intros [|n] s got El Hb Hn; cbn [length] in Hn; try lia; cbn [loop]; pose proof (uart_getc_eq s) as Eg; rewrite El in Eg.
  - erewrite bind_ok; [|unfold rx_body; rewrite (bind_ok _ _ _ _ _ Eg); reflexivity]. rewrite app_nil_r. destruct s; cbn in *; by subst.
  - apply Forall_cons in Hb as [Hc Hb].
    assert (rx_body got s = Ok (inl (got ++ [c]), set_rx l s)) as Eb.
    { unfold rx_body. rewrite (bind_ok _ _ _ _ _ Eg). by replace (c =? -1) with false by (unfold is_byte in Hc; lia). }
    rewrite (bind_ok _ _ _ _ _ Eb).
    rewrite (IH n (set_rx l s)) by (done || lia). by rewrite <-app_assoc.
Qed.

(** Everything that has arrived is handed on, in order. *)
Lemma intr_rx_all s : Forall is_byte (u_rx s) -> intr_rx s = Ok (u_rx s, set_rx [] s).
Proof. intros Hb. unfold intr_rx, gets. unfold bind at 1. by rewrite (rx_loop (u_rx s)) by (done || lia). Qed.

(** *** Sending *)

(** A process that writes, and whether it sleeps; a process that spins in
    hal_putchar with the lock. *)
Inductive upc : Type := UIdle | UWrite (l : list Z) (asleep : bool) | USpin (c : Z).

(** What the process still has to send. *)
Definition rest (x : upc) : list Z :=
  match x with UIdle => [] | UWrite l _ => l | USpin c => [c] end.

(** Processes, device, the characters asked for and those given to the
    device, each with its process. *)
Record um : Type := Um { um_pc : nat -> upc; um_u : uart; um_asked : list (nat * Z); um_given : list (nat * Z) }.

Definition upd (P : nat -> upc) (p : nat) (x : upc) : nat -> upc := fun p' => if decide (p' = p) then x else P p'.
Definition unlocked (P : nat -> upc) : Prop := forall p c, P p <> USpin c.
(** wakeup(&tx_chan) *)
Definition wake_tx (P : nat -> upc) : nat -> upc := fun p => match P p with UWrite l _ => UWrite l false | x => x end.

Definition tag (p : nat) (l : list Z) : list (nat * Z) := pair p <$> l.

(** Where a section of hal_console_write leaves its process. *)
Definition wrote (l : list Z) : upc := match l with [] => UIdle | _ => UWrite l true end.

Inductive ustep : um -> um -> Prop :=
| u_write P s A G p l :
    P p = UIdle -> unlocked P -> ustep (Um P s A G) (Um (upd P p (UWrite l false)) s (A ++ tag p l) G)
| u_section P s A G p l l' s' :
    P p = UWrite l false -> unlocked P -> hal_console_write l s = Ok (l', s') ->
    ustep (Um P s A G) (Um (upd P p (wrote l')) s' A (G ++ tag p (take (length l - length l') l)))
| u_spin P s A G p c :
    P p = UIdle -> unlocked P -> ustep (Um P s A G) (Um (upd P p (USpin c)) s (A ++ tag p [c]) G)
| u_spun P s A G p c (r : bool) s' :
    P p = USpin c -> hal_putchar c s = Ok (r, s') ->
    ustep (Um P s A G) (Um (if r then upd P p UIdle else P) s' A (if r then G ++ tag p [c] else G))
| u_intr P s A G (r : bool) s' :
    unlocked P -> intr_tx s = Ok (r, s') -> ustep (Um P s A G) (Um (if r then wake_tx P else P) s' A G)
| u_transmit P s A G s' : transmit s = Some s' -> ustep (Um P s A G) (Um P s' A G)
| u_receive P s A G c : ustep (Um P s A G) (Um P (set_rx (u_rx s ++ [c]) s) A G).

Definition um_init : um := Um (fun _ => UIdle) (Uart None [] false [] false) [] [].

(** The characters of one process. *)
Definition of_proc (p : nat) (l : list (nat * Z)) : list Z := snd <$> filter (fun x => x.1 = p) l.

#[global] Arguments of_proc : simpl never.
#[global] Arguments tag : simpl never.

Record uinv (m : um) : Prop := Uinv {
  ui_busy : is_Some (u_thr (um_u m)) -> tx_busy (um_u m) = true;
  ui_irq : tx_busy (um_u m) = true -> is_Some (u_thr (um_u m)) \/ u_isr (um_u m) = true;
  ui_asleep : forall p l, um_pc m p = UWrite l true -> tx_busy (um_u m) = true;
  ui_line : u_line (um_u m) ++ option_list (u_thr (um_u m)) = snd <$> um_given m;
  ui_procs : forall p, of_proc p (um_asked m) = of_proc p (um_given m) ++ rest (um_pc m p)
}.

Lemma of_proc_app p l l' : of_proc p (l ++ l') = of_proc p l ++ of_proc p l'.
Proof. unfold of_proc. by rewrite filter_app, fmap_app. Qed.

Lemma of_proc_tag p q l : of_proc p (tag q l) = if decide (q = p) then l else [].
Proof.
  unfold of_proc, tag. induction l as [|c l IH]; [by case_decide|]. rewrite fmap_cons, filter_cons. cbn [fst].
  case_decide; [by rewrite fmap_cons, IH|done].
Qed.

Lemma snd_tag p l : snd <$> tag p l = l.
Proof. unfold tag. rewrite <-list_fmap_compose. by apply list_fmap_id. Qed.

(** Each process's characters, after process [p] has handed [l] on. *)
Lemma procs_given P A G p l x : (forall p', of_proc p' A = of_proc p' G ++ rest (P p')) -> rest (P p) = l ++ rest x ->
  forall p', of_proc p' A = of_proc p' (G ++ tag p l) ++ rest (upd P p x p').
Proof.
  intros H E p'. rewrite H, of_proc_app, of_proc_tag, <-app_assoc. unfold upd. destruct (decide (p' = p)) as [->|].
  - by rewrite decide_True, E.
  - by rewrite decide_False.
Qed.

(** A section gives the device at most one character, and none while it is
    busy. *)
Lemma hal_console_write_section l s : exists n s', hal_console_write l s = Ok (drop n l, s') /\ (n <= length l)%nat /\
  ((n = 0%nat /\ s' = s /\ (l = [] \/ tx_busy s = true)) \/
   (exists c, take n l = [c] /\ tx_busy s = false /\ s' = set_busy true (set_thr (Some c) s))).
Proof.
  destruct l as [|c l]; [exists 0%nat, s; split_and!; [done|done|by left; auto]|].
  cbn [hal_console_write]. unfold gets. unfold bind at 1. destruct (tx_busy s) eqn:Eb.
  - exists 0%nat, s. split_and!; [done|cbn; lia|left; auto].
  - exists 1%nat, (set_busy true (set_thr (Some c) s)). split_and!; [|cbn; lia|right; exists c; split_and!; done].
    unfold modify, bind. destruct l as [|c' l]; cbn; [done|]. reflexivity.
Qed.

Lemma uinv_init : uinv um_init.
Proof. constructor; cbn; [by intros [? ?]|done|done|done|done]. Qed.

Lemma rest_wrote l : rest (wrote l) = l.
Proof. by destruct l. Qed.

(** Asking for more. *)
Lemma procs_asked P A G p l x : (forall p', of_proc p' A = of_proc p' G ++ rest (P p')) -> P p = UIdle -> rest x = l ->
  forall p', of_proc p' (A ++ tag p l) = of_proc p' G ++ rest (upd P p x p').
Proof.
  intros H E El p'. rewrite of_proc_app, of_proc_tag, H. unfold upd. destruct (decide (p' = p)) as [->|].
  - rewrite decide_True by done. by rewrite E, El, app_nil_r.
  - rewrite decide_False by done. by rewrite app_nil_r.
Qed.

Lemma rest_wake P p : rest (wake_tx P p) = rest (P p).
Proof. unfold wake_tx. by destruct (P p). Qed.

Lemma lsr_idle s : (Z.land (lsr s) LSR_TX_IDLE =? 0) = bool_decide (is_Some (u_thr s)).
Proof. unfold lsr. by destruct (u_rx s), (u_thr s). Qed.

Lemma uinv_section P s A G p l l' s' : P p = UWrite l false -> hal_console_write l s = Ok (l', s') -> uinv (Um P s A G) ->
  uinv (Um (upd P p (wrote l')) s' A (G ++ tag p (take (length l - length l') l))).
Proof.
  intros Hpc E [Hb Hi Ha Hl Hp]; cbn in *. destruct (hal_console_write_section l s) as (n & s1 & E1 & Hn & Hcase).
  rewrite E1 in E. injection E as <- <-. replace (length l - length (drop n l))%nat with n by (rewrite length_drop; lia).
  assert (forall p', of_proc p' A = of_proc p' (G ++ tag p (take n l)) ++ rest (upd P p (wrote (drop n l)) p')) as Hp'.
  { apply procs_given; [done|]. by rewrite Hpc, rest_wrote, take_drop. }
  destruct Hcase as [(-> & -> & Hor)|(c & Ec & Ef & ->)].
  - constructor; cbn; [done|done| |by rewrite take_0, app_nil_r|done]. intros p' k. unfold upd. case_decide; [|by apply Ha].
    rewrite drop_0. destruct l; [done|]. intros _. by destruct Hor.
  - rewrite Ec in *. constructor; cbn; [done|by left; eexists|done| |done].
    destruct (u_thr s) as [c'|] eqn:Et; [rewrite Hb in Ef by (by eexists); done|]. cbn in Hl. rewrite app_nil_r in Hl.
    by rewrite Hl, fmap_app, snd_tag.
Qed.

Lemma uinv_putchar P s A G p c (r : bool) s' : P p = USpin c -> hal_putchar c s = Ok (r, s') -> uinv (Um P s A G) ->
  uinv (Um (if r then upd P p UIdle else P) s' A (if r then G ++ tag p [c] else G)).
Proof.
  intros Hpc E [Hb Hi Ha Hl Hp]; cbn in *. unfold hal_putchar, gets, modify, ret, bind in E. rewrite lsr_idle in E.
  destruct (u_thr s) as [c'|] eqn:Et; cbn in E; injection E as <- <-; constructor; cbn; rewrite ?Et; try done; [by left; eexists|..].
  - cbn in Hl. rewrite app_nil_r in Hl. by rewrite Hl, fmap_app, snd_tag.
  - apply procs_given; [done|]. by rewrite Hpc.
Qed.

Lemma uinv_intr P s A G (r : bool) s' : intr_tx s = Ok (r, s') -> uinv (Um P s A G) -> uinv (Um (if r then wake_tx P else P) s' A G).
Proof.
  intros E [Hb Hi Ha Hl Hp]; cbn in *. unfold intr_tx, gets, modify, ret, bind in E. rewrite lsr_idle in E. cbn in E.
  destruct (u_thr s) as [c'|] eqn:Et; cbn in E; injection E as <- <-; constructor; cbn; rewrite ?Et; try done; [by left; eexists|..].
  - intros p l. unfold wake_tx. by destruct (P p).
  - intros p. by rewrite rest_wake.
Qed.

Lemma uinv_step m m' : ustep m m' -> uinv m -> uinv m'.
Proof.
  destruct 1 as [P s A G p l Hpc Hu|P s A G p l l' s' Hpc Hu E|P s A G p c Hpc Hu|P s A G p c r s' Hpc E|P s A G r s' Hu E|P s A G s' E|P s A G c];
    [|by apply uinv_section| |by apply uinv_putchar|by apply uinv_intr|..]; intros [Hb Hi Ha Hl Hp]; cbn in *.
  - constructor; cbn; try done; [intros p' k; unfold upd; case_decide; [done|apply Ha]|by apply procs_asked].
  - constructor; cbn; try done; [intros p' k; unfold upd; case_decide; [done|apply Ha]|by apply procs_asked].
  - unfold transmit in E. destruct (u_thr s) as [c|] eqn:Et; [|done]. injection E as <-. constructor; cbn; try done; [by right|].
    by rewrite app_nil_r.
  - by constructor.
Qed.

(** C27: nothing written to the serial line is lost, repeated or reordered: what
    is on the line and in the holding register is what hal_console_write and
    hal_putchar gave to the device, and for every process that is, in order,
    what the process asked for, less what it is still waiting to send; the
    holding register is never written while it is full; and a process that
    sleeps is sure to be woken: a character is still being sent or an
    interrupt is pending. *)
Theorem uart_loses_nothing m : rtc ustep um_init m ->
  u_line (um_u m) ++ option_list (u_thr (um_u m)) = snd <$> um_given m /\
  (forall p, of_proc p (um_asked m) = of_proc p (um_given m) ++ rest (um_pc m p)) /\
  (tx_busy (um_u m) = false -> u_thr (um_u m) = None) /\
  (forall p l, um_pc m p = UWrite l true -> is_Some (u_thr (um_u m)) \/ u_isr (um_u m) = true).
Proof.
  intros Hr. assert (uinv m) as [Hb Hi Ha Hl Hp] by (revert m Hr; apply (rtc_ind_r uinv); [apply uinv_init|]; intros y z _ Hs Hy; by apply (uinv_step y)). split_and!; [done|done| |by eauto].
  intros Hf. destruct (u_thr (um_u m)); [|done]. rewrite Hb in Hf; [done|by eexists].
Qed.

(** Two characters, the second of which waits for the interrupt. *)
Lemma uart_loses_nothing_witness : exists m, rtc ustep um_init m /\ um_pc m 0%nat = UWrite [66] true /\
  u_line (um_u m) ++ option_list (u_thr (um_u m)) = [65] /\ snd <$> um_given m = [65].
Proof.
  eexists. assert (rtc ustep um_init (Um (upd (upd (fun _ => UIdle) 0%nat (UWrite [65; 66] false)) 0%nat (UWrite [66] true))
    (Uart (Some 65) [] false [] true) [(0%nat, 65); (0%nat, 66)] [(0%nat, 65)])) as Hr.
  { eapply rtc_l; [apply (u_write _ _ _ _ 0%nat [65; 66]); done|].
    eapply rtc_l; [eapply (u_section _ _ _ _ 0%nat [65; 66]); [done| |reflexivity]|apply rtc_refl].
    intros p c. unfold upd. by case_decide. }
  split; [exact Hr|]. split; [done|]. destruct (uart_loses_nothing _ Hr) as [E _]. split; [exact E|done].
Defined.
