(* ===== verification/Disk.v ===== *)
(** Disk: what the kernel expects of a disk driver.  The part of struct buf
    (kernel/buf.h) that drivers use, and an abstract disk: a map from bytes to
    values, on which every call of hal_disk_rw transfers its block once, at some
    moment between the call and its return.  VirtioOk and Ramdisk show that the
    two drivers are such disks. *)

From S2P Require Import Prelude.

Record vbuf : Type := Vbuf { vb_dev : Z; vb_blockno : Z; vb_disk : bool; vb_data : list Z }.
Definition set_bdisk (x : bool) (b : vbuf) : vbuf := Vbuf (vb_dev b) (vb_blockno b) x (vb_data b).
Definition set_bdata (x : list Z) (b : vbuf) : vbuf := Vbuf (vb_dev b) (vb_blockno b) (vb_disk b) x.

(** Blocks on a disk of bytes; a sector is 512 bytes. *)
Definition sector_bytes (disk : Z -> Z) (sector len : Z) : list Z := disk <$> seqZ (512 * sector) len.
Definition store_bytes (disk : Z -> Z) (sector : Z) (l : list Z) : Z -> Z :=
  fun a => if (512 * sector <=? a) && (a <? 512 * sector + zlen l) then getz l (a - 512 * sector) else disk a.

Definition setpc {A} (P : nat -> A) (p : nat) (x : A) : nat -> A := fun p' => if decide (p' = p) then x else P p'.

(** What can be seen from outside: a process calls hal_disk_rw, the call
    returns with these contents of its buffer, a buffer is changed. *)
Inductive event : Type := ECall (p b : nat) (w : bool) | ERet (p b : nat) (w : bool) (l : list Z) | EClient (b : nat) (l : list Z).

(** The events of a sequence of steps. *)
Inductive runs {S : Type} (step : S -> option event -> S -> Prop) : S -> list event -> S -> Prop :=
| runs_nil m : runs step m [] m
| runs_step m o m' tr tr' m'' : step m o m' -> runs step m' tr m'' -> tr' = option_list o ++ tr -> runs step m tr' m''.

(** A call has been made; its transfer has been made. *)
Inductive phase : Type := AIdle | APend (b : nat) (w : bool) | ADone (b : nat) (w : bool).
Definition ause (x : phase) (b : nat) : Prop :=
  match x with AIdle => False | APend b' _ | ADone b' _ => b' = b end.

(** The buffers, with their block numbers, and the disk. *)
Record dst : Type := Dst { a_pc : nat -> phase; a_bufs : list (Z * list Z); a_disk : Z -> Z }.

Inductive dstep : dst -> option event -> dst -> Prop :=
| d_call A B D p b w :
    A p = AIdle -> (forall p', ~ ause (A p') b) -> dstep (Dst A B D) (Some (ECall p b w)) (Dst (setpc A p (APend b w)) B D)
| d_read A B D p b n l :
    A p = APend b false -> B !! b = Some (n, l) ->
    dstep (Dst A B D) None (Dst (setpc A p (ADone b false)) (<[b := (n, sector_bytes D (2 * n) BSIZE)]> B) D)
| d_write A B D p b n l :
    A p = APend b true -> B !! b = Some (n, l) ->
    dstep (Dst A B D) None (Dst (setpc A p (ADone b true)) B (store_bytes D (2 * n) l))
| d_return A B D p b w n l :
    A p = ADone b w -> B !! b = Some (n, l) -> dstep (Dst A B D) (Some (ERet p b w l)) (Dst (setpc A p AIdle) B D)
| d_client A B D b n l l' :
    (forall p, ~ ause (A p) b) -> B !! b = Some (n, l) ->
    dstep (Dst A B D) (Some (EClient b l')) (Dst A (<[b := (n, l')]> B) D).

Lemma runs_one {S} (step : S -> option event -> S -> Prop) m o m' : step m o m' -> runs step m (option_list o) m'.
Proof. intros H. eapply runs_step; [done|apply runs_nil|by rewrite app_nil_r]. Qed.

(** The block numbers and the contents of the buffers. *)
Definition view (bufs : list vbuf) : list (Z * list Z) := (fun b => (vb_blockno b, vb_data b)) <$> bufs.

Lemma view_lookup bufs b x : bufs !! b = Some x -> view bufs !! b = Some (vb_blockno x, vb_data x).
Proof. intros Hx. unfold view. by rewrite list_lookup_fmap, Hx. Qed.

Lemma view_insert bufs b x x' : bufs !! b = Some x -> vb_blockno x' = vb_blockno x -> vb_data x' = vb_data x ->
  view (<[b := x']> bufs) = view bufs.
Proof. intros Hb En Ed. unfold view. rewrite list_fmap_insert, list_insert_id; [done|]. rewrite list_lookup_fmap, Hb. cbn. by rewrite En, Ed. Qed.
