(* ===== verification/Ramdisk.v ===== *)
(** Ramdisk: hal/loongarch/hal_ramdisk.c, the disks of the LoongArch machine,
    three images in low memory.  An operation completes before it returns, with
    the lock of its disk held throughout, so it is one step. *)

From S2P Require Import Prelude CString Disk.

Definition RAMDISK_BASE : Z := 0x09000000.
Definition RAMDISK_STRIDE : Z := 16 * 1024 * 1024.
Definition NRAMDISK : Z := 3.

(** Physical memory and the buffers. *)
Record rst : Type := Rst { rd_mem : memory; rd_bufs : list vbuf }.

(** The data pointer that ramdisk_init gives to a disk. *)
Definition ramdisk_init (idx : Z) : Z := RAMDISK_BASE + idx * RAMDISK_STRIDE.

Definition ramdisk_for_dev (dev : Z) : M rst Z :=
  if (dev <? 1) || (dev >? NRAMDISK) then panic "ramdisk_for_dev" else ret (ramdisk_init (dev - 1)).

Definition load (m : memory) (a n : Z) : list Z := m <$> seqZ a n.
Definition store (m : memory) (a : Z) (l : list Z) : memory :=
  fun x => if (a <=? x) && (x <? a + zlen l) then getz l (x - a) else m x.

Definition hal_disk_rw (bi : nat) (write : bool) : M rst unit :=
  bs <- gets rd_bufs ;;
  match bs !! bi with
  | None => fail FBounds
  | Some b =>
      data <- ramdisk_for_dev (vb_dev b) ;;
      if vb_blockno b >=? RAMDISK_STRIDE / BSIZE then panic "hal_disk_rw: beyond ramdisk"
      else
        let offset := u32 (vb_blockno b * BSIZE) in
        modify (fun s =>
          if write then Rst (store (rd_mem s) (data + offset) (vb_data b)) (rd_bufs s)
          else Rst (rd_mem s) (<[bi := set_bdata (load (rd_mem s) (data + offset) BSIZE) b]> (rd_bufs s))) ;;;
        modify (fun s => Rst (rd_mem s)
          (match rd_bufs s !! bi with Some b => <[bi := set_bdisk false b]> (rd_bufs s) | None => rd_bufs s end))
  end.

(** The disk with number [dev]. *)
Definition disk_of (dev : Z) (s : rst) : Z -> Z := fun a => rd_mem s (ramdisk_init (dev - 1) + a).

Definition rd_ok (b : vbuf) : Prop :=
  zlen (vb_data b) = BSIZE /\ 1 <= vb_dev b <= NRAMDISK /\ 0 <= vb_blockno b < RAMDISK_STRIDE / BSIZE.

Lemma setpc_back {A} (P : nat -> A) p x y z p' : P p = z -> setpc (setpc (setpc P p x) p y) p z p' = P p'.
Proof. intros <-. unfold setpc. by case_decide; subst. Qed.

Lemma load_sector s dev n : load (rd_mem s) (ramdisk_init (dev - 1) + 1024 * n) BSIZE = sector_bytes (disk_of dev s) (2 * n) BSIZE.
Proof.
  unfold load, sector_bytes, disk_of. apply list_eq. intros i. rewrite !list_lookup_fmap.
  destruct (decide (Z.of_nat i < BSIZE)) as [Hi|Hi].
  - rewrite !lookup_seqZ_lt by done. cbn. f_equal. f_equal. lia.
  - by rewrite !lookup_seqZ_ge by lia.
Qed.

Lemma store_sector m dev n l a : store m (ramdisk_init (dev - 1) + 1024 * n) l (ramdisk_init (dev - 1) + a) =
  store_bytes (fun a => m (ramdisk_init (dev - 1) + a)) (2 * n) l a.
Proof.
  unfold store, store_bytes. replace (512 * (2 * n)) with (1024 * n) by lia. set (d := ramdisk_init (dev - 1)).
  replace (d + 1024 * n <=? d + a) with (1024 * n <=? a) by lia. replace (d + a <? d + 1024 * n + zlen l) with (a <? 1024 * n + zlen l) by lia.
  by replace (d + a - (d + 1024 * n)) with (a - 1024 * n) by lia.
Qed.

(** A block is inside its own disk. *)
Lemma store_apart m dev dev' n l a : 0 <= n < RAMDISK_STRIDE / BSIZE -> zlen l = BSIZE -> dev <> dev' -> 0 <= a < RAMDISK_STRIDE ->
  store m (ramdisk_init (dev - 1) + 1024 * n) l (ramdisk_init (dev' - 1) + a) = m (ramdisk_init (dev' - 1) + a).
Proof.
  intros Hn Hl Hd Ha. unfold store. rewrite Hl. unfold ramdisk_init, RAMDISK_BASE, RAMDISK_STRIDE, BSIZE in *.
  change (16 * 1024 * 1024 / 1024) with 16384 in Hn. destruct (_ && _) eqn:E; [exfalso; lia|done].
Qed.

(** The two transfers. *)
Lemma hal_disk_rw_eq b x w s : rd_bufs s !! b = Some x -> rd_ok x ->
  let a := ramdisk_init (vb_dev x - 1) + 1024 * vb_blockno x in
  hal_disk_rw b w s = Ok (tt,
    if w then Rst (store (rd_mem s) a (vb_data x)) (<[b := set_bdisk false x]> (rd_bufs s))
    else Rst (rd_mem s) (<[b := set_bdisk false (set_bdata (load (rd_mem s) a BSIZE) x)]> (rd_bufs s))).
Proof.
  intros Hx (_ & Hdev & Hn) a. pose proof (lookup_lt_Some _ _ _ Hx) as Hlt. unfold RAMDISK_STRIDE, BSIZE in Hn. change (16 * 1024 * 1024 / 1024) with 16384 in Hn.
  unfold hal_disk_rw, gets, modify. unfold bind at 1. rewrite Hx. unfold ramdisk_for_dev.
  replace ((vb_dev x <? 1) || (vb_dev x >? NRAMDISK)) with false by lia. rewrite ret_bind.
  replace (vb_blockno x >=? RAMDISK_STRIDE / BSIZE) with false by (unfold RAMDISK_STRIDE, BSIZE; change (16 * 1024 * 1024 / 1024) with 16384; lia).
  rewrite u32_small by (unfold BSIZE; change (2 ^ 32) with 4294967296; lia). replace (vb_blockno x * BSIZE) with (1024 * vb_blockno x) by (unfold BSIZE; lia).
  unfold bind. destruct w; cbn [rd_bufs rd_mem]; [by rewrite Hx|]. rewrite list_lookup_insert_eq by done. by rewrite list_insert_insert_eq.
Qed.

(** The RAM disk driver is three disks: hal_disk_rw on a block of a disk is a
    call, one transfer and a return of the abstract disk that the virtio driver
    implements as well, and leaves the other disks as they were. *)
Theorem ramdisk_is_disk p b x w s : rd_bufs s !! b = Some x -> rd_ok x -> exists s' A D,
  hal_disk_rw b w s = Ok (tt, s') /\
  runs dstep (Dst (fun _ => AIdle) (view (rd_bufs s)) (disk_of (vb_dev x) s))
    [ECall p b w; ERet p b w (default [] (vb_data <$> rd_bufs s' !! b))] (Dst A (view (rd_bufs s')) D) /\
  (forall p', A p' = AIdle) /\ (forall a, D a = disk_of (vb_dev x) s' a) /\
  (forall dev a, dev <> vb_dev x -> 0 <= a < RAMDISK_STRIDE -> disk_of dev s' a = disk_of dev s a).
Proof.
  intros Hx Hok. pose proof (lookup_lt_Some _ _ _ Hx) as Hlt. pose proof (view_lookup _ _ _ Hx) as Hv. destruct (Hok) as (Hl & _ & Hn).
  rewrite (hal_disk_rw_eq b x w s Hx Hok). destruct w.
  - do 3 eexists. split; [reflexivity|]. split_and!.
    + cbn. rewrite list_lookup_insert_eq, (view_insert _ _ x) by done. cbn.
      eapply runs_step; [by apply (d_call _ _ _ p b true); [|intros p' ?]| |reflexivity].
      eapply runs_step; [eapply (d_write _ _ _ p b); [unfold setpc; by rewrite decide_True|exact Hv]| |reflexivity].
      eapply runs_step; [eapply (d_return _ _ _ p b true); [unfold setpc; by rewrite decide_True|exact Hv]|apply runs_nil|reflexivity].
    + intros p'. by rewrite setpc_back.
    + intros a. cbn. unfold disk_of. cbn. by rewrite store_sector.
    + intros dev a Hd Ha. by apply store_apart.
  - do 3 eexists. split; [reflexivity|]. split_and!.
    + cbn [rd_bufs]. rewrite list_lookup_insert_eq by done. unfold view at 2. rewrite list_fmap_insert.
      cbn [set_bdisk set_bdata vb_blockno vb_data fmap option_fmap option_map default]. rewrite load_sector.
      eapply runs_step; [by apply (d_call _ _ _ p b false); [|intros p' ?]| |reflexivity].
      eapply runs_step; [eapply (d_read _ _ _ p b (vb_blockno x)); [unfold setpc; by rewrite decide_True|exact Hv]| |reflexivity].
      eapply runs_step; [eapply (d_return _ _ _ p b false)|apply runs_nil|reflexivity]; [unfold setpc; by rewrite decide_True|].
      apply list_lookup_insert_eq. unfold view. by rewrite length_fmap.
    + intros p'. by rewrite setpc_back.
    + done.
    + done.
Qed.

Definition rbuf : vbuf := Vbuf 2 3 true (replicate 1024 9).

Lemma ramdisk_is_disk_witness : exists s', hal_disk_rw 0 true (Rst (fun _ => 0) [rbuf]) = Ok (tt, s') /\
  disk_of 2 s' 3072 = 9 /\ disk_of 1 s' 3072 = 0.
Proof.
  assert (rd_ok rbuf) as Hok by (repeat constructor; done).
  destruct (ramdisk_is_disk 0%nat 0%nat rbuf true (Rst (fun _ => 0) [rbuf]) eq_refl Hok) as (s' & A & D & E & _ & _ & _ & Ho).
  exists s'. split; [exact E|]. split; [|by rewrite Ho].
  rewrite (hal_disk_rw_eq 0%nat rbuf true (Rst (fun _ => 0) [rbuf]) eq_refl Hok) in E. injection E as <-. by vm_compute.
Defined.
