(* ===== verification/Virtio.v ===== *)
(** Virtio: hal/riscv/hal_virtio.c, the driver of the virtio disk.

    The driver and the device share memory: a table of descriptors, the ring of
    requests made available and the ring of requests done.  A pointer in a
    descriptor is the name of what it points to.  hal_disk_rw runs in sections
    between its sleeps, each under vdisk_lock; the interrupt handler is a
    section as well.  What a virtio block device may do with the shared memory
    (the virtio specification, sections 2.7 and 5.2) is [device_fetch] and
    [device_do]; requests can be completed in any order.  The registers of
    the initialisation are in VirtioInit; those that notify the device and
    acknowledge its interrupt are not modelled. *)

From S2P Require Import Prelude Disk.

Definition NUM : nat := 8.
Definition VRING_DESC_F_NEXT : Z := 1.
Definition VRING_DESC_F_WRITE : Z := 2.
Definition VIRTIO_BLK_T_IN : Z := 0.
Definition VIRTIO_BLK_T_OUT : Z := 1.
Definition NVIRTIO : Z := 3.

(** &ops[i], b->data, &info[i].status *)
Inductive addr : Type := ANull | AOp (i : nat) | AData (b : nat) | AStatus (i : nat).

Record virtq_desc : Type := Desc { d_addr : addr; d_len : Z; d_flags : Z; d_next : nat }.
Definition no_desc : virtq_desc := Desc ANull 0 0 0.
Record virtio_blk_req : Type := Req { r_type : Z; r_sector : Z }.

(** One disk, the buffers, and the device: its contents, how far it has read
    the ring of available requests, and the requests it is working on. *)
Record vst : Type := Vst {
  v_desc : list virtq_desc;
  v_avail : list nat; v_avail_idx : Z;
  v_used : list nat; v_used_dev : Z;          (* used->ring, used->idx *)
  v_free : list bool; v_used_idx : Z;
  v_info : list (option nat * Z);             (* info[i].b, info[i].status *)
  v_ops : list virtio_blk_req;
  v_bufs : list vbuf;
  v_disk : Z -> Z; v_fetched : Z; v_work : list nat
}.

Section Fields.
  Implicit Types s : vst.

Definition set_desc (i : nat) (x : virtq_desc) s : vst :=
  Vst (<[i := x]> (v_desc s)) (v_avail s) (v_avail_idx s) (v_used s) (v_used_dev s) (v_free s) (v_used_idx s)
    (v_info s) (v_ops s) (v_bufs s) (v_disk s) (v_fetched s) (v_work s).
Definition set_avail (l : list nat) (n : Z) s : vst :=
  Vst (v_desc s) l n (v_used s) (v_used_dev s) (v_free s) (v_used_idx s)
    (v_info s) (v_ops s) (v_bufs s) (v_disk s) (v_fetched s) (v_work s).
Definition set_free (i : nat) (x : bool) s : vst :=
  Vst (v_desc s) (v_avail s) (v_avail_idx s) (v_used s) (v_used_dev s) (<[i := x]> (v_free s)) (v_used_idx s)
    (v_info s) (v_ops s) (v_bufs s) (v_disk s) (v_fetched s) (v_work s).
Definition set_seen (n : Z) s : vst :=
  Vst (v_desc s) (v_avail s) (v_avail_idx s) (v_used s) (v_used_dev s) (v_free s) n
    (v_info s) (v_ops s) (v_bufs s) (v_disk s) (v_fetched s) (v_work s).
Definition set_info (i : nat) (x : option nat * Z) s : vst :=
  Vst (v_desc s) (v_avail s) (v_avail_idx s) (v_used s) (v_used_dev s) (v_free s) (v_used_idx s)
    (<[i := x]> (v_info s)) (v_ops s) (v_bufs s) (v_disk s) (v_fetched s) (v_work s).
Definition set_op (i : nat) (x : virtio_blk_req) s : vst :=
  Vst (v_desc s) (v_avail s) (v_avail_idx s) (v_used s) (v_used_dev s) (v_free s) (v_used_idx s)
    (v_info s) (<[i := x]> (v_ops s)) (v_bufs s) (v_disk s) (v_fetched s) (v_work s).
Definition set_buf (i : nat) (x : vbuf) s : vst :=
  Vst (v_desc s) (v_avail s) (v_avail_idx s) (v_used s) (v_used_dev s) (v_free s) (v_used_idx s)
    (v_info s) (v_ops s) (<[i := x]> (v_bufs s)) (v_disk s) (v_fetched s) (v_work s).
(** What the device changes. *)
Definition set_dev (disk : Z -> Z) (fetched : Z) (work : list nat) s : vst :=
  Vst (v_desc s) (v_avail s) (v_avail_idx s) (v_used s) (v_used_dev s) (v_free s) (v_used_idx s)
    (v_info s) (v_ops s) (v_bufs s) disk fetched work.
Definition set_used (l : list nat) (n : Z) s : vst :=
  Vst (v_desc s) (v_avail s) (v_avail_idx s) l n (v_free s) (v_used_idx s)
    (v_info s) (v_ops s) (v_bufs s) (v_disk s) (v_fetched s) (v_work s).

End Fields.

(** An element of an array. *)
Definition elt {A} (f : vst -> list A) (i : nat) : M vst A :=
  fun s => match f s !! i with Some x => Ok (x, s) | None => Fault FBounds end.

(** *** The driver *)

(** The index of a disk. *)
Definition disk_for_dev {S} (dev : Z) : M S Z :=
  if (dev <? 1) || (dev >? NVIRTIO) then panic "virtio disk dev" else ret (dev - 1).

(** The queue as hal_disk_init_one leaves it. *)
Definition queue_init (bufs : list vbuf) (disk : Z -> Z) : vst :=
  Vst (replicate NUM no_desc) (replicate NUM 0%nat) 0 (replicate NUM 0%nat) 0 (replicate NUM true) 0
    (replicate NUM (None, 0)) (replicate NUM (Req 0 0)) bufs disk 0 [].

Definition alloc_desc : M vst (option nat) :=
  for_upto NUM 0 (fun z =>
    let i := Z.to_nat z in
    f <- elt v_free i ;;
    if (f : bool) then modify (set_free i false) ;;; ret (Some i) else ret None).

Definition free_desc (i : nat) : M vst unit :=
  if (NUM <=? i)%nat then panic "free_desc 1"
  else
    f <- elt v_free i ;;
    if (f : bool) then panic "free_desc 2"
    else modify (set_desc i no_desc) ;;; modify (set_free i true).

Definition free_chain_body (i : nat) : M vst (nat + unit) :=
  d <- elt v_desc i ;;
  free_desc i ;;;
  if negb (Z.land (d_flags d) VRING_DESC_F_NEXT =? 0) then ret (inl (d_next d)) else ret (inr tt).

Definition free_chain (i : nat) : M vst unit := loop (S NUM) free_chain_body i.

(** The loop of alloc3_desc, with [n] descriptors to go and [idx] in hand. *)
Fixpoint alloc3_loop (n : nat) (idx : list nat) : M vst (option (list nat)) :=
  match n with
  | O => ret (Some idx)
  | S n' =>
      o <- alloc_desc ;;
      match o with
      | None => for_each idx free_desc ;;; ret None
      | Some i => alloc3_loop n' (idx ++ [i])
      end
  end.
Definition alloc3_desc : M vst (option (list nat)) := alloc3_loop 3 [].

(** hal_disk_rw from the descriptors to the notification. *)
Definition rw_submit (bi : nat) (write : bool) (i0 i1 i2 : nat) : M vst unit :=
  b <- elt v_bufs bi ;;
  let sector := u32 (vb_blockno b * (BSIZE / 512)) in
  modify (set_op i0 (Req (if write then VIRTIO_BLK_T_OUT else VIRTIO_BLK_T_IN) sector)) ;;;
  modify (set_desc i0 (Desc (AOp i0) 16 VRING_DESC_F_NEXT i1)) ;;;
  modify (set_desc i1 (Desc (AData bi) BSIZE
    (Z.lor (if write then 0 else VRING_DESC_F_WRITE) VRING_DESC_F_NEXT) i2)) ;;;
  '(ib, _) <- elt v_info i0 ;;
  modify (set_info i0 (ib, 255)) ;;;
  modify (set_desc i2 (Desc (AStatus i0) 1 VRING_DESC_F_WRITE 0)) ;;;
  modify (set_buf bi (set_bdisk true b)) ;;;
  modify (set_info i0 (Some bi, 255)) ;;;
  modify (fun s => set_avail (<[Z.to_nat (v_avail_idx s mod Z.of_nat NUM) := i0]> (v_avail s)) (v_avail_idx s) s) ;;;
  modify (fun s => set_avail (v_avail s) (u16 (v_avail_idx s + 1)) s).

(** One round of hal_disk_rw's first loop, with the lock held: the head of the
    request it has made, or [None] when it sleeps for descriptors. *)
Definition rw_try (bi : nat) (write : bool) : M vst (option nat) :=
  b <- elt v_bufs bi ;;
  disk_for_dev (vb_dev b) ;;;
  o <- alloc3_desc ;;
  match o with
  | Some [i0; i1; i2] => rw_submit bi write i0 i1 i2 ;;; ret (Some i0)
  | _ => ret None
  end.

(** What hal_disk_rw does when it is woken: whether it returns. *)
Definition rw_wake (bi i0 : nat) : M vst bool :=
  b <- elt v_bufs bi ;;
  if vb_disk b then ret false
  else
    '(_, st) <- elt v_info i0 ;;
    modify (set_info i0 (None, st)) ;;;
    free_chain i0 ;;;
    ret true.

(** hal_disk_intr_one *)
Definition intr_body (_ : unit) : M vst (unit + unit) :=
  seen <- gets v_used_idx ;;
  done <- gets v_used_dev ;;
  if seen =? done then ret (inr tt)
  else
    id <- elt v_used (Z.to_nat (seen mod Z.of_nat NUM)) ;;
    '(ob, st) <- elt v_info id ;;
    if negb (st =? 0) then panic "hal_disk_intr status"
    else
      match ob with
      | None => fail FNull
      | Some bi =>
          b <- elt v_bufs bi ;;
          modify (set_buf bi (set_bdisk false b)) ;;;
          modify (set_seen (u16 (seen + 1))) ;;;
          ret (inl tt)
      end.

Definition hal_disk_intr_one : M vst unit :=
  seen <- gets v_used_idx ;;
  done <- gets v_used_dev ;;
  loop (S (Z.to_nat (u16 (done - seen)))) intr_body tt.

(** *** The device *)

(** It takes the next available request. *)
Definition device_fetch (s : vst) : option vst :=
  if v_fetched s =? v_avail_idx s then None
  else
    h ← v_avail s !! Z.to_nat (v_fetched s mod Z.of_nat NUM);
    Some (set_dev (v_disk s) (u16 (v_fetched s + 1)) (v_work s ++ [h]) s).

(** It carries out one of the requests it has taken.  [None] is a chain that is
    not a request. *)
Definition device_do (h : nat) (s : vst) : option vst :=
  d0 ← v_desc s !! h;
  d1 ← v_desc s !! d_next d0;
  d2 ← v_desc s !! d_next d1;
  match d_addr d0, d_addr d1, d_addr d2 with
  | AOp k, AData bi, AStatus j =>
      if bool_decide (d_len d0 = 16 /\ Z.testbit (d_flags d0) 0 = true /\ Z.testbit (d_flags d1) 0 = true /\
                      Z.testbit (d_flags d2) 0 = false /\ Z.testbit (d_flags d2) 1 = true /\ d_len d2 = 1)
      then
        r ← v_ops s !! k;
        b ← v_bufs s !! bi;
        inf ← v_info s !! j;
        let done s :=
          set_used (<[Z.to_nat (v_used_dev s mod Z.of_nat NUM) := h]> (v_used s)) (u16 (v_used_dev s + 1))
            (set_info j (inf.1, 0) (set_dev (v_disk s) (v_fetched s) (filter (fun x => x <> h) (v_work s)) s)) in
        if r_type r =? VIRTIO_BLK_T_OUT
        then if Z.testbit (d_flags d1) 1 then None
             else Some (done (set_dev (store_bytes (v_disk s) (r_sector r) (take (Z.to_nat (d_len d1)) (vb_data b)))
                                (v_fetched s) (v_work s) s))
        else if r_type r =? VIRTIO_BLK_T_IN
        then if Z.testbit (d_flags d1) 1
             then Some (done (set_buf bi (set_bdata (sector_bytes (v_disk s) (r_sector r) (d_len d1)) b) s))
             else None
        else None
      else None
  | _, _, _ => None
  end.
