(* ===== verification/VirtioOk.v ===== *)
(** VirtioOk: the virtio driver implements a disk.  Processes, interrupts and
    the device interleave; the invariant says which request owns which
    descriptors and how far it has come, and a simulation shows that the whole
    behaves like a disk on which each call reads or writes its block once,
    between its start and its return. *)

From S2P Require Import Prelude Disk Virtio.

(** *** Processes, driver and device *)

Inductive pc : Type := PIdle | PTry (b : nat) (w : bool) | PWait (b : nat) (w : bool) (h : nat).
Definition uses (x : pc) (b : nat) : Prop :=
  match x with PIdle => False | PTry b' _ | PWait b' _ _ => b' = b end.

Definition mst : Type := (nat -> pc) * vst.

(** A process calls hal_disk_rw for a buffer that it has locked; buffers that
    are not in use may change. *)
Inductive vstep : mst -> option event -> mst -> Prop :=
| v_call P s p b w :
    P p = PIdle -> (forall p', ~ uses (P p') b) -> is_Some (v_bufs s !! b) ->
    vstep (P, s) (Some (ECall p b w)) (setpc P p (PTry b w), s)
| v_try P s p b w o s' :
    P p = PTry b w -> rw_try b w s = Ok (o, s') ->
    vstep (P, s) None (setpc P p (match o with Some h => PWait b w h | None => PTry b w end), s')
| v_wait P s p b w h s' : P p = PWait b w h -> rw_wake b h s = Ok (false, s') -> vstep (P, s) None (P, s')
| v_return P s p b w h x s' :
    P p = PWait b w h -> rw_wake b h s = Ok (true, s') -> v_bufs s' !! b = Some x ->
    vstep (P, s) (Some (ERet p b w (vb_data x))) (setpc P p PIdle, s')
| v_intr P s s' : hal_disk_intr_one s = Ok (tt, s') -> vstep (P, s) None (P, s')
| v_device_fetch P s s' : device_fetch s = Some s' -> vstep (P, s) None (P, s')
| v_device_do P s h s' : h ∈ v_work s -> device_do h s = Some s' -> vstep (P, s) None (P, s')
| v_client P s b x l :
    (forall p, ~ uses (P p) b) -> v_bufs s !! b = Some x -> zlen l = BSIZE ->
    vstep (P, s) (Some (EClient b l)) (P, set_buf b (set_bdata l x) s).

(** *** Windows of the rings *)

(** The entries of [ring] from index [from] up to [to] are [l]; the indices are
    16-bit numbers that are not reduced to the ring's size. *)
Record window (ring : list nat) (from : Z) (l : list nat) (to : Z) : Prop := Window {
  wi_from : 0 <= from < 2 ^ 16;
  wi_len : (length l <= NUM)%nat;
  wi_to : to = u16 (from + zlen l);
  wi_at : forall k x, l !! k = Some x -> ring !! Z.to_nat ((from + Z.of_nat k) mod 8) = Some x
}.

Ltac u16lia := unfold u16, zlen, NUM in *; change (2 ^ 16) with 65536 in *; dlia.

Lemma window_empty ring from l to : window ring from l to -> from = to -> l = [].
Proof.
  intros [H1 H2 H3 _] E. destruct l as [|x l]; [done|]. exfalso. unfold zlen in *. cbn [length] in *. u16lia.
Qed.

Lemma window_pop ring from x l to : window ring from (x :: l) to ->
  from <> to /\ ring !! Z.to_nat (from mod 8) = Some x /\ window ring (u16 (from + 1)) l to.
Proof.
  intros [H1 H2 H3 H4]. split_and!.
  - unfold zlen in *. cbn [length] in *. u16lia.
  - specialize (H4 0%nat x eq_refl). by rewrite Z.add_0_r in H4.
  - constructor; unfold zlen in *; cbn [length] in *; [u16lia|lia|u16lia|].
    intros k y Hk. specialize (H4 (S k) y Hk). replace ((u16 (from + 1) + Z.of_nat k) mod 8) with ((from + Z.of_nat (S k)) mod 8); [done|u16lia].
Qed.

Lemma window_push ring from l to x : window ring from l to -> (length l < NUM)%nat -> length ring = NUM ->
  window (<[Z.to_nat (to mod 8) := x]> ring) from (l ++ [x]) (u16 (to + 1)).
Proof.
  intros [H1 H2 H3 H4] Hl Hr. constructor; [done|rewrite length_app; cbn; lia|unfold zlen in *; rewrite length_app; cbn; u16lia|].
  intros k y Hk. destruct (decide (k < length l)%nat) as [Hlt|Hge].
  - rewrite lookup_app_l in Hk by done. rewrite list_lookup_insert_ne; [by apply H4|]. intros E. apply Z2Nat.inj in E; u16lia.
  - assert (k = length l) as -> by (apply lookup_lt_Some in Hk; rewrite length_app in Hk; cbn in Hk; lia).
    rewrite lookup_app_r, Nat.sub_diag in Hk by lia. injection Hk as ->.
    replace ((from + Z.of_nat (length l)) mod 8) with (to mod 8) by u16lia.
    apply list_lookup_insert_eq. rewrite Hr. u16lia.
Qed.

(** *** The invariant *)

(** Where a request is: in the available ring, taken by the device, in the used
    ring, seen by the interrupt handler. *)
Inductive stage : Type := SAvail | SDev | SUsed | SSeen.
#[export] Instance stage_eq_dec : EqDecision stage.
Proof. solve_decision. Defined.

(** A request: its process, its buffer and direction, and the descriptors
    behind its head. *)
Record rq : Type := Rq { q_p : nat; q_b : nat; q_w : bool; q_1 : nat; q_2 : nat; q_st : stage }.
Definition to_stage (x : stage) (q : rq) : rq := Rq (q_p q) (q_b q) (q_w q) (q_1 q) (q_2 q) x.

Definition staged (R : gmap nat rq) (x : stage) (h : nat) : Prop := exists q, R !! h = Some q /\ q_st q = x.

Lemma staged_upd R h q x h' : staged (<[h := q]> R) x h' <-> (h' = h /\ x = q_st q) \/ (h' <> h /\ staged R x h').
Proof.
  unfold staged. destruct (decide (h' = h)) as [->|Hne].
  - rewrite lookup_insert_eq. split; [intros (? & [= <-] & <-); by left|]. intros [[_ ->]|[? _]]; [|done]. eexists. by split.
  - rewrite lookup_insert_ne by done. split; [|intros [[? _]|[_ ?]]; done]. intros ?. by right.
Qed.

(** The request with head [h]; [O] says to which request a descriptor belongs. *)
Record rq_ok (s : vst) (O : gmap nat nat) (h : nat) (q : rq) : Prop := RqOk {
  ro_own : O !! h = Some h /\ O !! q_1 q = Some h /\ O !! q_2 q = Some h;
  ro_ne : h <> q_1 q /\ h <> q_2 q /\ q_1 q <> q_2 q;
  ro_d0 : v_desc s !! h = Some (Desc (AOp h) 16 1 (q_1 q));
  ro_d1 : v_desc s !! q_1 q = Some (Desc (AData (q_b q)) BSIZE (if q_w q then 1 else 3) (q_2 q));
  ro_d2 : v_desc s !! q_2 q = Some (Desc (AStatus h) 1 2 0);
  ro_buf : exists b, v_bufs s !! q_b q = Some b /\ vb_disk b = bool_decide (q_st q <> SSeen) /\
    v_ops s !! h = Some (Req (if q_w q then 1 else 0) (2 * vb_blockno b));
  ro_info : exists st, v_info s !! h = Some (Some (q_b q), st) /\ (q_st q = SUsed -> st = 0)
}.

Definition buf_ok (b : vbuf) : Prop := zlen (vb_data b) = BSIZE /\ 0 <= vb_blockno b < 2 ^ 31 /\ 1 <= vb_dev b <= NVIRTIO.

Record vinv (P : nat -> pc) (s : vst) (R : gmap nat rq) (O : gmap nat nat) (la lu : list nat) : Prop := Vinv {
  vi_len : length (v_desc s) = NUM /\ length (v_avail s) = NUM /\ length (v_used s) = NUM /\ length (v_free s) = NUM /\
    length (v_info s) = NUM /\ length (v_ops s) = NUM;
  vi_bufs : Forall buf_ok (v_bufs s);
  vi_rq : forall h q, R !! h = Some q -> rq_ok s O h q;
  vi_own : forall i h, O !! i = Some h -> (i < NUM)%nat /\ exists q, R !! h = Some q /\ (i = h \/ i = q_1 q \/ i = q_2 q);
  vi_free : forall i, (i < NUM)%nat -> v_free s !! i = Some (bool_decide (O !! i = None));
  vi_pc : forall p b w h, P p = PWait b w h <-> exists q, R !! h = Some q /\ q_p q = p /\ q_b q = b /\ q_w q = w;
  vi_uses : forall p p' b, uses (P p) b -> uses (P p') b -> p = p';
  vi_try : forall p b w, P p = PTry b w -> is_Some (v_bufs s !! b);
  vi_avail : window (v_avail s) (v_fetched s) la (v_avail_idx s);
  vi_used : window (v_used s) (v_used_idx s) lu (v_used_dev s);
  vi_la : NoDup la /\ forall h, h ∈ la <-> staged R SAvail h;
  vi_ld : NoDup (v_work s) /\ forall h, h ∈ v_work s <-> staged R SDev h;
  vi_lu : NoDup lu /\ forall h, h ∈ lu <-> staged R SUsed h
}.

Arguments vi_len {P s R O la lu}.
Arguments vi_bufs {P s R O la lu}.
Arguments vi_rq {P s R O la lu}.
Arguments vi_own {P s R O la lu}.
Arguments vi_free {P s R O la lu}.
Arguments vi_pc {P s R O la lu}.
Arguments vi_uses {P s R O la lu}.
Arguments vi_try {P s R O la lu}.
Arguments vi_avail {P s R O la lu}.
Arguments vi_used {P s R O la lu}.
Arguments vi_la {P s R O la lu}.
Arguments vi_ld {P s R O la lu}.
Arguments vi_lu {P s R O la lu}.
Arguments ro_own {s O h q}.

Lemma rq_ok_frame s s' O O' h q : rq_ok s O h q ->
  (forall i, O !! i = Some h -> v_desc s' !! i = v_desc s !! i /\ O' !! i = Some h) ->
  v_bufs s' !! q_b q = v_bufs s !! q_b q -> v_ops s' !! h = v_ops s !! h -> v_info s' !! h = v_info s !! h -> rq_ok s' O' h q.
Proof.
  intros [(Ho0 & Ho1 & Ho2) Hne H0 H1 H2 Hb Hi] Hf Eb Eo Ei.
  destruct (Hf _ Ho0) as [E0 P0], (Hf _ Ho1) as [E1 P1], (Hf _ Ho2) as [E2 P2]. constructor; try done.
  - congruence.
  - congruence.
  - congruence.
  - destruct Hb as (b & Hb & Hd & Hop). exists b. split_and!; congruence.
  - destruct Hi as (st & Hi & Hst). exists st. split; [congruence|done].
Qed.

(** A request that has moved on. *)
Lemma rq_ok_stage s O h q x : rq_ok s O h q -> x <> SSeen -> q_st q <> SSeen ->
  (x = SUsed -> exists ib, v_info s !! h = Some (ib, 0)) -> rq_ok s O h (to_stage x q).
Proof.
  intros [Hown Hne H0 H1 H2 (b & Hb & Hd & Hop) (st & Hi & Hst)] Hx Hq Hu. constructor; try done; cbn.
  - exists b. split_and!; [done| |done]. rewrite Hd. by rewrite !bool_decide_eq_true_2.
  - exists st. split; [done|]. intros E. destruct (Hu E) as [ib Hib]. congruence.
Qed.

(** The list of the requests at one stage, after [h] has moved to another
    ([b]: to this one). *)
Definition moved (b : Prop) (h : nat) (l l' : list nat) : Prop :=
  NoDup l -> NoDup l' /\ forall h', h' ∈ l' <-> (h' = h /\ b) \/ (h' <> h /\ h' ∈ l).

Lemma moved_same (b : Prop) h l : ~ b -> h ∉ l -> moved b h l l.
Proof. intros Hb Hh Hnd. split; [done|]. intros h'. destruct (decide (h' = h)) as [->|]; tauto. Qed.

Lemma moved_pop (b : Prop) h l : ~ b -> moved b h (h :: l) l.
Proof.
  intros Hb [Hh Hnd]%NoDup_cons. split; [done|]. intros h'. rewrite elem_of_cons. destruct (decide (h' = h)) as [->|]; tauto.
Qed.

Lemma moved_push (b : Prop) h l : b -> h ∉ l -> moved b h l (l ++ [h]).
Proof.
  intros Hb Hh Hnd. split.
  - apply NoDup_app. split_and!; [done| |apply NoDup_singleton]. by intros h' Hin ->%list_elem_of_singleton.
  - intros h'. rewrite elem_of_app, list_elem_of_singleton. destruct (decide (h' = h)) as [->|]; tauto.
Qed.

Lemma moved_filter (b : Prop) h l : ~ b -> moved b h l (filter (fun x => x <> h) l).
Proof. intros Hb Hnd. split; [by apply NoDup_filter|]. intros h'. rewrite list_elem_of_filter. tauto. Qed.

(** Descriptors fit into a ring. *)
Lemma indices_length l : NoDup l -> (forall h, h ∈ l -> (h < NUM)%nat) -> (length l <= NUM)%nat.
Proof.
  intros Hnd Hl. rewrite <-(length_seq NUM 0). apply submseteq_length, NoDup_submseteq; [done|].
  intros h Hh%Hl. apply elem_of_seq. lia.
Qed.

Section Inv.
  Context (P : nat -> pc) (s : vst) (R : gmap nat rq) (O : gmap nat nat) (la lu : list nat) (Hinv : vinv P s R O la lu).

Lemma heads_lt h q : R !! h = Some q -> (h < NUM)%nat.
Proof. intros Hq. destruct (ro_own (vi_rq Hinv h q Hq)) as [Ho _]. by apply (vi_own Hinv) in Ho as [? _]. Qed.

Lemma bufs_apart h h' q q' : R !! h = Some q -> R !! h' = Some q' -> q_b q = q_b q' -> h = h'.
Proof.
  intros Hq Hq' E. assert (P (q_p q) = PWait (q_b q) (q_w q) h) as E1 by (apply (vi_pc Hinv); eauto).
  assert (P (q_p q') = PWait (q_b q') (q_w q') h') as E2 by (apply (vi_pc Hinv); eauto).
  assert (q_p q = q_p q') as Ep by (apply (vi_uses Hinv _ _ (q_b q)); [by rewrite E1|by rewrite E2, E]).
  rewrite Ep, E2 in E1. congruence.
Qed.

Lemma heads_length l : NoDup l -> (forall h, h ∈ l -> exists q, R !! h = Some q) -> (length l <= NUM)%nat.
Proof. intros Hnd Hl. apply indices_length; [done|]. intros h [q Hq]%Hl. by apply heads_lt in Hq. Qed.

(** The process table does not mind how far a request is. *)
Lemma pc_stage h q x : R !! h = Some q -> forall p b w h',
  P p = PWait b w h' <-> exists q', <[h := to_stage x q]> R !! h' = Some q' /\ q_p q' = p /\ q_b q' = b /\ q_w q' = w.
Proof.
  intros Hq p b w h'. rewrite (vi_pc Hinv). destruct (decide (h' = h)) as [->|Hne].
  - rewrite lookup_insert_eq. split; [intros (q' & Hq' & ?); rewrite Hq in Hq'; injection Hq' as ->; by eexists|].
    intros (q' & [= <-] & ?). by exists q.
  - by rewrite lookup_insert_ne.
Qed.

Lemma own_stage h q x : R !! h = Some q -> forall i h', O !! i = Some h' ->
  (i < NUM)%nat /\ exists q', <[h := to_stage x q]> R !! h' = Some q' /\ (i = h' \/ i = q_1 q' \/ i = q_2 q').
Proof.
  intros Hq i h' Hi. destruct (vi_own Hinv i h' Hi) as (Hlt & q' & Hq' & Hor). split; [done|].
  destruct (decide (h' = h)) as [->|Hne]; [|exists q'; by rewrite lookup_insert_ne].
  rewrite lookup_insert_eq. replace q' with q in * by congruence. by eexists.
Qed.

Lemma moved_stage l l' h q x : moved (x = q_st q) h l l' ->
  (NoDup l /\ forall h', h' ∈ l <-> staged R x h') ->
  NoDup l' /\ forall h', h' ∈ l' <-> staged (<[h := q]> R) x h'.
Proof.
  intros Hm [Hnd Hl]. destruct (Hm Hnd) as [Hnd' Hl']. split; [done|]. intros h'. by rewrite Hl', staged_upd, Hl.
Qed.

(** A step that moves one request from a stage to another. *)
Lemma move_inv s' h q y la' lu' : R !! h = Some q -> rq_ok s' O h (to_stage y q) ->
  v_desc s' = v_desc s -> v_free s' = v_free s -> v_ops s' = v_ops s ->
  length (v_avail s') = NUM /\ length (v_used s') = NUM /\ length (v_info s') = NUM ->
  Forall buf_ok (v_bufs s') -> length (v_bufs s') = length (v_bufs s) ->
  (forall b, b <> q_b q -> v_bufs s' !! b = v_bufs s !! b) -> (forall i, i <> h -> v_info s' !! i = v_info s !! i) ->
  window (v_avail s') (v_fetched s') la' (v_avail_idx s') -> window (v_used s') (v_used_idx s') lu' (v_used_dev s') ->
  moved (SAvail = y) h la la' -> moved (SDev = y) h (v_work s) (v_work s') -> moved (SUsed = y) h lu lu' ->
  vinv P s' (<[h := to_stage y q]> R) O la' lu'.
Proof.
  intros Hq Hrq Ed Ef Eo (Hl1 & Hl2 & Hl3) Hb Hlb Ebuf Einfo Hwa Hwu Hma Hmd Hmu.
  constructor; try done.
  - rewrite Ed, Ef, Eo. destruct (vi_len Hinv) as (? & _ & _ & ? & _ & ?). done.
  - intros h' q'. destruct (decide (h' = h)) as [->|Hn]; [rewrite lookup_insert_eq; by intros [= <-]|].
    rewrite lookup_insert_ne by done. intros Hq'.
    eapply rq_ok_frame; [by apply (vi_rq Hinv)|by rewrite Ed| |by rewrite Eo|by apply Einfo].
    apply Ebuf. intros E. by apply Hn, (bufs_apart h' h q' q).
  - by apply own_stage.
  - rewrite Ef. apply (vi_free Hinv).
  - by apply pc_stage.
  - apply (vi_uses Hinv).
  - intros p b w Hp. apply lookup_lt_is_Some. rewrite Hlb. by eapply lookup_lt_is_Some, (vi_try Hinv).
  - eapply moved_stage; [|apply (vi_la Hinv)]. done.
  - eapply moved_stage; [|apply (vi_ld Hinv)]. done.
  - eapply moved_stage; [|apply (vi_lu Hinv)]. done.
Qed.

Lemma staged_notin l x h q : (NoDup l /\ forall h', h' ∈ l <-> staged R x h') -> R !! h = Some q -> q_st q <> x -> h ∉ l.
Proof. intros [_ Hl] Hq Hst (q' & Hq' & Hst')%Hl. congruence. Qed.

(** The device takes a request. *)
Lemma fetch_inv s' : device_fetch s = Some s' -> exists h q la', R !! h = Some q /\ q_st q = SAvail /\
  vinv P s' (<[h := to_stage SDev q]> R) O la' lu /\ v_bufs s' = v_bufs s /\ v_disk s' = v_disk s.
Proof.
  unfold device_fetch. destruct (Z.eqb_spec (v_fetched s) (v_avail_idx s)) as [|Hne]; [done|].
  pose proof (vi_avail Hinv) as Hwin. pose proof (vi_la Hinv) as Hla.
  assert (exists h la', la = h :: la') as (h & la' & Ela).
  { destruct la as [|h la']; [|by eexists _, _]. destruct Hne. rewrite (wi_to _ _ _ _ Hwin). pose proof (wi_from _ _ _ _ Hwin).
    unfold zlen. cbn [length]. u16lia. }
  rewrite Ela in Hwin, Hla. destruct (window_pop _ _ _ _ _ Hwin) as (_ & Eh & Hwin'). change (Z.of_nat NUM) with 8.
  rewrite Eh. intros [= <-]. destruct (proj1 (proj2 Hla h) ltac:(by left)) as (q & Hq & Hst).
  exists h, q, la'. split_and!; try done. pose proof (vi_len Hinv) as (? & ? & ? & ? & ? & ?).
  apply move_inv; try done; cbn.
  - apply rq_ok_stage; [|done|by rewrite Hst|done]. eapply rq_ok_frame; [by apply (vi_rq Hinv)|done..].
  - apply (vi_bufs Hinv).
  - apply (vi_used Hinv).
  - rewrite Ela. by apply moved_pop.
  - apply moved_push; [done|]. by eapply staged_notin; [apply (vi_ld Hinv)|done|rewrite Hst].
  - apply moved_same; [done|]. by eapply staged_notin; [apply (vi_lu Hinv)|done|rewrite Hst].
Qed.

(** A completed request reaches the handler. *)
Lemma intr_inv h lu' : lu = h :: lu' -> exists q b s', R !! h = Some q /\ q_st q = SUsed /\ v_bufs s !! q_b q = Some b /\
  intr_body tt s = Ok (inl tt, s') /\ vinv P s' (<[h := to_stage SSeen q]> R) O la lu' /\
  v_bufs s' = <[q_b q := set_bdisk false b]> (v_bufs s) /\ v_disk s' = v_disk s.
Proof.
  intros Elu. pose proof (vi_used Hinv) as Hwin. rewrite Elu in Hwin. destruct (window_pop _ _ _ _ _ Hwin) as (Hne & Eh & Hwin').
  destruct (proj1 (proj2 (vi_lu Hinv) h) ltac:(rewrite Elu; by left)) as (q & Hq & Hst).
  destruct (vi_rq Hinv h q Hq) as [Hown Hqne Hd0 Hd1 Hd2 (b & Hb & Hd & Hop) (st & Hi & Hst0)].
  exists q, b, (set_seen (u16 (v_used_idx s + 1)) (set_buf (q_b q) (set_bdisk false b) s)).
  split_and!; [done|done|done| | |reflexivity|reflexivity].
  { unfold intr_body, bind, gets, elt, modify, ret. rewrite (proj2 (Z.eqb_neq _ _) Hne). change (Z.of_nat NUM) with 8. rewrite Eh, Hi, (Hst0 Hst). cbn.
    by rewrite Hb. }
  pose proof (vi_len Hinv) as (Hl1 & Hl2 & Hl3 & Hl4 & Hl5 & Hl6).
  apply move_inv; cbn; try done.
  - constructor; try done; cbn.
    + eexists. rewrite list_lookup_insert_eq by (by eapply lookup_lt_Some). done.
    + by exists st.
  - apply Forall_insert; [apply (vi_bufs Hinv)|]. exact (Forall_lookup_1 _ _ _ _ (vi_bufs Hinv) Hb).
  - by rewrite length_insert.
  - intros j Hj. by rewrite list_lookup_insert_ne.
  - apply (vi_avail Hinv).
  - apply moved_same; [done|]. by eapply staged_notin; [apply (vi_la Hinv)|done|rewrite Hst].
  - apply moved_same; [done|]. by eapply staged_notin; [apply (vi_ld Hinv)|done|rewrite Hst].
  - rewrite Elu. by apply moved_pop.
Qed.

(** What carrying out the request does to the buffer and to the disk. *)
Definition transfer (q : rq) (b : vbuf) (s0 : vst) : vst :=
  if q_w q then set_dev (store_bytes (v_disk s0) (2 * vb_blockno b) (vb_data b)) (v_fetched s0) (v_work s0) s0
  else set_buf (q_b q) (set_bdata (sector_bytes (v_disk s0) (2 * vb_blockno b) BSIZE) b) s0.

Definition completed (h : nat) (s0 : vst) : vst :=
  set_used (<[Z.to_nat (v_used_dev s0 mod 8) := h]> (v_used s0)) (u16 (v_used_dev s0 + 1))
    (set_dev (v_disk s0) (v_fetched s0) (filter (fun x => x <> h) (v_work s0)) s0).

Lemma device_do_eq h q : R !! h = Some q -> exists b, v_bufs s !! q_b q = Some b /\
  device_do h s = Some (set_info h (Some (q_b q), 0) (completed h (transfer q b s))).
Proof.
  intros Hq. destruct (vi_rq Hinv h q Hq) as [_ _ H0 H1 H2 (b & Hb & _ & Hop) (st & Hi & _)].
  exists b. split; [done|]. unfold device_do. rewrite H0; cbn. rewrite H1; cbn. rewrite H2; cbn.
  rewrite bool_decide_eq_true_2 by (by destruct (q_w q)). rewrite Hop, Hb, Hi. cbn.
  assert (take (Z.to_nat BSIZE) (vb_data b) = vb_data b) as ->.
  { apply take_ge. destruct (Forall_lookup_1 _ _ _ _ (vi_bufs Hinv) Hb) as [Hl _]. unfold zlen in Hl. lia. }
  unfold completed, transfer. by destruct (q_w q).
Qed.

Lemma transfer_frame q b s0 : v_desc (transfer q b s0) = v_desc s0 /\ v_free (transfer q b s0) = v_free s0 /\
  v_ops (transfer q b s0) = v_ops s0 /\ v_info (transfer q b s0) = v_info s0 /\ v_avail (transfer q b s0) = v_avail s0 /\
  v_avail_idx (transfer q b s0) = v_avail_idx s0 /\ v_fetched (transfer q b s0) = v_fetched s0 /\ v_used (transfer q b s0) = v_used s0 /\
  v_used_dev (transfer q b s0) = v_used_dev s0 /\ v_used_idx (transfer q b s0) = v_used_idx s0 /\ v_work (transfer q b s0) = v_work s0.
Proof. unfold transfer. by destruct (q_w q). Qed.

(** The device carries out a request. *)
Lemma do_inv h : h ∈ v_work s -> exists q b s', R !! h = Some q /\ q_st q = SDev /\ v_bufs s !! q_b q = Some b /\
  device_do h s = Some s' /\ vinv P s' (<[h := to_stage SUsed q]> R) O la (lu ++ [h]) /\
  v_bufs s' = v_bufs (transfer q b s) /\ v_disk s' = v_disk (transfer q b s).
Proof.
  intros Hh. destruct (proj1 (proj2 (vi_ld Hinv) h) Hh) as (q & Hq & Hst). destruct (device_do_eq h q Hq) as (b & Hb & E).
  eexists q, b, _. split_and!; [done|done|done|exact E| |done|done].
  assert (h ∉ lu) as Hlu by (by eapply staged_notin; [apply (vi_lu Hinv)|done|rewrite Hst]).
  pose proof (vi_len Hinv) as (Hl1 & Hl2 & Hl3 & Hl4 & Hl5 & Hl6). pose proof (heads_lt h q Hq) as Hlt.
  assert (length lu < NUM)%nat as Hlen.
  { pose proof (heads_length (h :: lu)) as Hl. cbn in Hl. enough (S (length lu) <= NUM)%nat by lia. apply Hl.
    - apply NoDup_cons. split; [done|apply (vi_lu Hinv)].
    - intros h' [->|(q' & Hq' & _)%(proj2 (vi_lu Hinv))]%elem_of_cons; eauto. }
  assert (forall j, j <> q_b q -> v_bufs (transfer q b s) !! j = v_bufs s !! j) as Ebuf.
  { intros j Hj. unfold transfer. destruct (q_w q); [done|]. cbn. by rewrite list_lookup_insert_ne. }
  assert (exists b', v_bufs (transfer q b s) !! q_b q = Some b' /\ vb_disk b' = vb_disk b /\ vb_blockno b' = vb_blockno b) as Hb'.
  { unfold transfer. destruct (q_w q); [by exists b|]. cbn. eexists. rewrite list_lookup_insert_eq by (by apply lookup_lt_Some in Hb). done. }
  destruct (vi_rq Hinv h q Hq) as [Hown Hne H0 H1 H2 (b0 & Hb0 & Hd & Hop) (st & Hi' & _)].
  assert (b0 = b) as -> by congruence.
  destruct (transfer_frame q b s) as (Ed & Ef & Eo & Ei & Ea & Ea1 & Ea2 & Eu & Eu1 & Eu2 & Ew).
  apply move_inv; cbn; rewrite ?Ed, ?Ef, ?Eo, ?Ei, ?Ea, ?Ea1, ?Ea2, ?Eu, ?Eu1, ?Eu2, ?Ew; try done.
  - destruct Hb' as (b' & Eb' & Ed' & En'). constructor; cbn; rewrite ?Ed, ?Eo, ?Ei; try done.
    + exists b'. rewrite Ed', Hd, En'. split_and!; [done| |done]. by rewrite !bool_decide_eq_true_2 by (by rewrite Hst).
    + exists 0. split; [|done]. rewrite list_lookup_insert_eq; [done|lia].
  - by rewrite !length_insert.
  - unfold transfer; destruct (q_w q); cbn; [apply (vi_bufs Hinv)|]. apply Forall_insert; [apply (vi_bufs Hinv)|].
    destruct (Forall_lookup_1 _ _ _ _ (vi_bufs Hinv) Hb) as [_ ?]. split; [|done]. cbn. unfold sector_bytes, zlen. by rewrite length_fmap, length_seqZ.
  - unfold transfer; destruct (q_w q); cbn; [done|by rewrite length_insert].
  - intros i Hi0. by rewrite list_lookup_insert_ne.
  - apply (vi_avail Hinv).
  - apply window_push; try done; apply (vi_used Hinv).
  - apply moved_same; [done|]. by eapply staged_notin; [apply (vi_la Hinv)|done|rewrite Hst].
  - by apply moved_filter.
  - by apply moved_push.
Qed.

End Inv.

(** *** The interrupt handler *)

(** The transfer of the request with head [h] has been made. *)
Definition done_at (R : gmap nat rq) (h : nat) : bool :=
  match R !! h with Some q => bool_decide (q_st q = SUsed \/ q_st q = SSeen) | None => false end.

Lemma done_at_upd R h q y h' : R !! h = Some q -> bool_decide (y = SUsed \/ y = SSeen) = bool_decide (q_st q = SUsed \/ q_st q = SSeen) ->
  done_at (<[h := to_stage y q]> R) h' = done_at R h'.
Proof.
  intros Hq E. unfold done_at. destruct (decide (h' = h)) as [->|]; [by rewrite lookup_insert_eq, Hq|by rewrite lookup_insert_ne].
Qed.

Lemma intr_loop P O la : forall lu s R n, vinv P s R O la lu -> (length lu < n)%nat -> exists s' R',
  loop n intr_body tt s = Ok (tt, s') /\ vinv P s' R' O la [] /\ view (v_bufs s') = view (v_bufs s) /\ v_disk s' = v_disk s /\
  forall h, done_at R' h = done_at R h.
Proof.
  induction lu as [|h lu IH]; intros s R n Hinv Hn; (destruct n as [|n]; [lia|]); cbn [loop]; cbn [length] in Hn.
  - exists s, R. split_and!; try done. pose proof (vi_used Hinv) as [Hf _ Ht _]. unfold bind, intr_body, gets, bind.
    rewrite Ht. unfold zlen. cbn [length]. rewrite (proj2 (Z.eqb_eq _ _)) by u16lia. done.
  - destruct (intr_inv _ _ _ _ _ _ Hinv h lu eq_refl) as (q & b & s1 & Hq & Hst & Hb & E & Hinv' & Ebufs & Edisk).
    destruct (IH _ _ n Hinv' ltac:(lia)) as (s' & R' & E' & Hinv'' & Ev & Ed & Hd). exists s', R'.
    rewrite (bind_ok _ _ _ _ _ E). split_and!; [done|done| |congruence|].
    + rewrite Ev, Ebufs. by apply view_insert with (x := b).
    + intros h'. rewrite Hd. apply done_at_upd; [done|]. by rewrite Hst.
Qed.

Lemma intr_ok P s R O la lu : vinv P s R O la lu -> exists s' R',
  hal_disk_intr_one s = Ok (tt, s') /\ vinv P s' R' O la [] /\ view (v_bufs s') = view (v_bufs s) /\ v_disk s' = v_disk s /\
  forall h, done_at R' h = done_at R h.
Proof.
  intros Hinv. unfold hal_disk_intr_one, gets. unfold bind at 1 2. apply intr_loop with (lu := lu); [done|].
  pose proof (vi_used Hinv) as [Hf Hl Ht _]. rewrite Ht. u16lia.
Qed.

(** *** Descriptors *)

Lemma alloc_desc_ok s : length (v_free s) = NUM ->
  (exists i, (i < NUM)%nat /\ v_free s !! i = Some true /\ alloc_desc s = Ok (Some i, set_free i false s)) \/
  alloc_desc s = Ok (None, s).
Proof.
  intros Hl. edestruct (for_upto_find (fun z =>
    f <- elt v_free (Z.to_nat z) ;;
    if (f : bool) then modify (set_free (Z.to_nat z) false) ;;; ret (Some (Z.to_nat z)) else ret None)
    (fun z => default false (v_free s !! Z.to_nat z)) Z.to_nat (fun z => set_free (Z.to_nat z) false s) s NUM 0) as [(z & Hz & Hp & _ & E)|[_ E]].
  - intros z Hz. mstep. unfold elt. destruct (lookup_lt_is_Some_2 (v_free s) (Z.to_nat z)) as [x Hx]; [unfold NUM in *; lia|].
    rewrite Hx. cbn. by destruct x.
  - left. exists (Z.to_nat z). split_and!; [unfold NUM in *; lia| |exact E].
    destruct (lookup_lt_is_Some_2 (v_free s) (Z.to_nat z)) as [x Hx]; [unfold NUM in *; lia|]. rewrite Hx in *. cbn in Hp. by subst.
  - by right.
Qed.

Lemma free_desc_ok i s : (i < NUM)%nat -> v_free s !! i = Some false ->
  free_desc i s = Ok (tt, set_free i true (set_desc i no_desc s)).
Proof.
  intros Hi Hf. unfold free_desc. rewrite (proj2 (Nat.leb_gt _ _) Hi). mstep. unfold elt. by rewrite Hf.
Qed.

(** The state with other descriptors. *)
Definition with_desc (D : list virtq_desc) (s : vst) : vst :=
  Vst D (v_avail s) (v_avail_idx s) (v_used s) (v_used_dev s) (v_free s) (v_used_idx s)
    (v_info s) (v_ops s) (v_bufs s) (v_disk s) (v_fetched s) (v_work s).

Lemma unalloc s i D : v_free s !! i = Some true ->
  set_free i true (with_desc D (set_free i false s)) = with_desc D s.
Proof. intros Hi. unfold set_free, with_desc. cbn. by rewrite list_insert_insert_eq, list_insert_id. Qed.

(** Three descriptors are allocated, or the attempt leaves nothing behind but
    cleared descriptors that were free. *)
Lemma alloc3_ok s : length (v_free s) = NUM -> 
  (exists i0 i1 i2, (i0 < NUM)%nat /\ (i1 < NUM)%nat /\ (i2 < NUM)%nat /\ i0 <> i1 /\ i0 <> i2 /\ i1 <> i2 /\
     v_free s !! i0 = Some true /\ v_free s !! i1 = Some true /\ v_free s !! i2 = Some true /\
     alloc3_desc s = Ok (Some [i0; i1; i2], set_free i2 false (set_free i1 false (set_free i0 false s)))) \/
  (exists D, length D = length (v_desc s) /\ (forall i, v_free s !! i = Some false -> D !! i = v_desc s !! i) /\
     alloc3_desc s = Ok (None, with_desc D s)).
Proof.
  intros Hl. unfold alloc3_desc. cbn [alloc3_loop app].
  destruct (alloc_desc_ok s Hl) as [(i0 & H0 & F0 & E0)|E0]; rewrite (bind_ok _ _ _ _ _ E0);
    [|right; exists (v_desc s); split_and!; [done|done|by destruct s]].
  destruct (alloc_desc_ok (set_free i0 false s)) as [(i1 & H1 & F1 & E1)|E1]; [by cbn; rewrite length_insert|..]; rewrite (bind_ok _ _ _ _ _ E1).
  - assert (i0 <> i1) as N01 by (intros <-; cbn in F1; rewrite list_lookup_insert_eq in F1 by lia; done).
    cbn in F1. rewrite list_lookup_insert_ne in F1 by done.
    destruct (alloc_desc_ok (set_free i1 false (set_free i0 false s))) as [(i2 & H2 & F2 & E2)|E2];
      [by cbn; rewrite !length_insert|..]; rewrite (bind_ok _ _ _ _ _ E2).
    + left. cbn in F2. assert (i1 <> i2) as N12 by (intros <-; rewrite list_lookup_insert_eq in F2 by (rewrite length_insert; lia); done).
      rewrite list_lookup_insert_ne in F2 by done.
      assert (i0 <> i2) as N02 by (intros <-; rewrite list_lookup_insert_eq in F2 by lia; done).
      rewrite list_lookup_insert_ne in F2 by done. by exists i0, i1, i2.
    + right. exists (<[i1 := no_desc]> (<[i0 := no_desc]> (v_desc s))). split_and!; [by rewrite !length_insert| |].
      * intros i Hi. rewrite !list_lookup_insert_ne; [done|congruence..].
      * assert (for_each [i0; i1] free_desc (set_free i1 false (set_free i0 false s)) =
          Ok (tt, with_desc (<[i1 := no_desc]> (<[i0 := no_desc]> (v_desc s))) s)) as Ef; [|by rewrite (bind_ok _ _ _ _ _ Ef)].
        cbn [for_each].
        erewrite bind_ok; [|apply free_desc_ok; [done|cbn; rewrite list_lookup_insert_ne by done; apply list_lookup_insert_eq; lia]].
        erewrite bind_ok; [|apply free_desc_ok; [done|cbn; rewrite list_lookup_insert_ne by done; apply list_lookup_insert_eq; rewrite length_insert; lia]].
        unfold ret, set_free, set_desc, with_desc. cbn. rewrite list_insert_insert_ne with (i := i0) (j := i1) by done.
        by rewrite !list_insert_insert_eq, (list_insert_id (v_free s) i0), (list_insert_id (v_free s) i1).
  - right. exists (<[i0 := no_desc]> (v_desc s)). split_and!; [by rewrite length_insert| |].
    + intros i Hi. rewrite list_lookup_insert_ne; [done|congruence].
    + assert (for_each [i0] free_desc (set_free i0 false s) = Ok (tt, with_desc (<[i0 := no_desc]> (v_desc s)) s)) as Ef; [|by rewrite (bind_ok _ _ _ _ _ Ef)].
      cbn [for_each]. erewrite bind_ok; [|apply free_desc_ok; [done|apply list_lookup_insert_eq; lia]].
      by rewrite <-(unalloc s i0 _ F0).
Qed.

(** *** A process submits a request *)

Lemma uses_wait P p b w h p' b' : P p = PTry b w -> uses (setpc P p (PWait b w h) p') b' <-> uses (P p') b'.
Proof. intros Hp. unfold setpc. destruct (decide (p' = p)) as [->|]; [|done]. by rewrite Hp. Qed.

Section Submit.
  Context (P : nat -> pc) (s : vst) (R : gmap nat rq) (O : gmap nat nat) (la lu : list nat) (Hinv : vinv P s R O la lu).
  Context (p b : nat) (w : bool) (Hp : P p = PTry b w).

(** Descriptors that nobody owns do not matter. *)
Lemma with_desc_inv D : length D = length (v_desc s) -> (forall i, v_free s !! i = Some false -> D !! i = v_desc s !! i) ->
  vinv P (with_desc D s) R O la lu.
Proof.
  intros Hl HD. destruct Hinv. constructor; try done; [cbn; by rewrite Hl|].
  intros h q Hq. eapply rq_ok_frame; [by eauto| |done..]. intros i Hi. split; [|done]. apply HD.
  destruct (vi_own0 _ _ Hi) as [Hlt _]. rewrite vi_free0 by done. by rewrite bool_decide_eq_false_2 by (by rewrite Hi).
Qed.

Lemma free_unowned i : v_free s !! i = Some true -> O !! i = None /\ R !! i = None.
Proof.
  intros Hf. assert (i < NUM)%nat as Hi. { destruct (vi_len Hinv) as (_ & _ & _ & <- & _). by eapply lookup_lt_Some. }
  rewrite (vi_free Hinv) in Hf by done. injection Hf as Ho%bool_decide_eq_true. split; [done|].
  destruct (R !! i) as [q|] eqn:Hq; [|done]. destruct (ro_own (vi_rq Hinv i q Hq)) as [? _]. congruence.
Qed.

(** Nobody else uses the buffer. *)
Lemma try_apart h q : R !! h = Some q -> q_b q <> b.
Proof.
  intros Hq E. assert (P (q_p q) = PWait (q_b q) (q_w q) h) as E1 by (apply (vi_pc Hinv); eauto).
  assert (q_p q = p) as Ep by (apply (vi_uses Hinv _ _ b); [by rewrite E1|by rewrite Hp]). congruence.
Qed.

Lemma pc_submit i0 i1 i2 : R !! i0 = None -> forall p' b' w' h,
  setpc P p (PWait b w i0) p' = PWait b' w' h <->
  exists q, <[i0 := Rq p b w i1 i2 SAvail]> R !! h = Some q /\ q_p q = p' /\ q_b q = b' /\ q_w q = w'.
Proof.
  intros Hn p' b' w' h. unfold setpc. destruct (decide (h = i0)) as [->|Hh].
  - rewrite lookup_insert_eq. case_decide as Ep; [subst; split; [intros [= -> ->]; by eexists|by intros (q & [= <-] & _ & <- & <-)]|].
    split; [|by intros (q & [= <-] & <- & _)]. intros (q & Hq & _)%(vi_pc Hinv). congruence.
  - rewrite lookup_insert_ne by done. case_decide as Ep; [subst|by apply (vi_pc Hinv)].
    split; [congruence|]. intros H%(vi_pc Hinv). congruence.
Qed.

Definition submitted (x : vbuf) (i0 i1 i2 : nat) : vst :=
  Vst (<[i2 := Desc (AStatus i0) 1 2 0]> (<[i1 := Desc (AData b) BSIZE (if w then 1 else 3) i2]> (<[i0 := Desc (AOp i0) 16 1 i1]> (v_desc s))))
    (<[Z.to_nat (v_avail_idx s mod 8) := i0]> (v_avail s)) (u16 (v_avail_idx s + 1)) (v_used s) (v_used_dev s)
    (<[i2 := false]> (<[i1 := false]> (<[i0 := false]> (v_free s)))) (v_used_idx s)
    (<[i0 := (Some b, 255)]> (v_info s)) (<[i0 := Req (if w then 1 else 0) (2 * vb_blockno x)]> (v_ops s))
    (<[b := set_bdisk true x]> (v_bufs s)) (v_disk s) (v_fetched s) (v_work s).

Lemma rw_submit_ok x i0 i1 i2 : v_bufs s !! b = Some x -> buf_ok x -> (i0 < length (v_info s))%nat ->
  rw_submit b w i0 i1 i2 (set_free i2 false (set_free i1 false (set_free i0 false s))) = Ok (tt, submitted x i0 i1 i2).
Proof.
  clear Hp Hinv p P R O la lu. intros Hx (_ & Hn & _) Hi. unfold rw_submit, elt. mstep. cbn. rewrite Hx. cbn.
  destruct (lookup_lt_is_Some_2 _ _ Hi) as [[ib st] Hib]. rewrite Hib. cbn. change (Z.of_nat NUM) with 8.
  cbv [submitted set_avail set_info set_buf set_desc set_op set_free v_desc v_avail v_avail_idx v_used v_used_dev v_free v_used_idx v_info v_ops v_bufs
    v_disk v_fetched v_work]. rewrite (list_insert_insert_eq (v_info s)). change (BSIZE / 512) with 2.
  rewrite u32_small, (Z.mul_comm (vb_blockno x)) by (change (2 ^ 31) with 2147483648 in Hn; change (2 ^ 32) with 4294967296; lia). by destruct w.
Qed.

Lemma submitted_ok x i0 i1 i2 O' : v_bufs s !! b = Some x ->
  (i0 < NUM)%nat -> (i1 < NUM)%nat -> (i2 < NUM)%nat -> i0 <> i1 -> i0 <> i2 -> i1 <> i2 ->
  rq_ok (submitted x i0 i1 i2) (<[i2 := i0]> (<[i1 := i0]> (<[i0 := i0]> O'))) i0 (Rq p b w i1 i2 SAvail).
Proof.
  intros Hx L0 L1 L2 N01 N02 N12. pose proof (vi_len Hinv) as (Hl1 & Hl2 & Hl3 & Hl4 & Hl5 & Hl6).
  constructor; cbn [submitted q_1 q_2 q_b q_w q_st v_desc v_info v_ops v_bufs].
  - split_and!; [|by rewrite lookup_insert_ne, lookup_insert_eq|by rewrite lookup_insert_eq].
    by rewrite !lookup_insert_ne by done; rewrite lookup_insert_eq.
  - done.
  - rewrite !list_lookup_insert_ne by done. apply list_lookup_insert_eq. lia.
  - rewrite list_lookup_insert_ne by done. apply list_lookup_insert_eq. rewrite length_insert. lia.
  - apply list_lookup_insert_eq. rewrite !length_insert. lia.
  - eexists. rewrite !list_lookup_insert_eq by first [lia|by eapply lookup_lt_Some]. by split_and!.
  - exists 255. by rewrite list_lookup_insert_eq by lia.
Qed.

(** The request is in the available ring. *)
Lemma submit_inv x i0 i1 i2 : v_bufs s !! b = Some x ->
  (i0 < NUM)%nat -> (i1 < NUM)%nat -> (i2 < NUM)%nat -> i0 <> i1 -> i0 <> i2 -> i1 <> i2 ->
  v_free s !! i0 = Some true -> v_free s !! i1 = Some true -> v_free s !! i2 = Some true ->
  vinv (setpc P p (PWait b w i0)) (submitted x i0 i1 i2) (<[i0 := Rq p b w i1 i2 SAvail]> R)
    (<[i2 := i0]> (<[i1 := i0]> (<[i0 := i0]> O))) (la ++ [i0]) lu.
Proof.
  intros Hx L0 L1 L2 N01 N02 N12 F0 F1 F2.
  destruct (free_unowned i0 F0) as [O0 R0], (free_unowned i1 F1) as [O1 R1], (free_unowned i2 F2) as [O2 R2].
  pose proof (vi_len Hinv) as (Hl1 & Hl2 & Hl3 & Hl4 & Hl5 & Hl6).
  assert (forall l st, (NoDup l /\ forall h, h ∈ l <-> staged R st h) -> i0 ∉ l) as Hfresh.
  { intros l st [_ Hl] (q & Hq & _)%Hl. congruence. }
  constructor; cbn [submitted v_desc v_avail v_avail_idx v_used v_used_dev v_free v_used_idx v_info v_ops v_bufs v_disk v_fetched v_work].
  - by rewrite !length_insert.
  - apply Forall_insert; [apply (vi_bufs Hinv)|]. exact (Forall_lookup_1 _ _ _ _ (vi_bufs Hinv) Hx).
  - intros h q. destruct (decide (h = i0)) as [->|Hh].
    + rewrite lookup_insert_eq. intros [= <-]. by apply submitted_ok.
    + rewrite lookup_insert_ne by done. intros Hq. eapply rq_ok_frame; [by apply (vi_rq Hinv)|..]; cbn.
      * intros i Hi. rewrite !list_lookup_insert_ne, !lookup_insert_ne by congruence. done.
      * rewrite list_lookup_insert_ne; [done|]. intros E. by apply (try_apart h q).
      * by rewrite list_lookup_insert_ne.
      * by rewrite list_lookup_insert_ne.
  - intros i h. rewrite !lookup_insert_Some. intros [[<- <-]|[_ [[<- <-]|[_ [[<- <-]|[_ Hi]]]]]];
      [split; [done|]; eexists; rewrite lookup_insert_eq; cbn; eauto..|].
    destruct (vi_own Hinv i h Hi) as (Hlt & q & Hq & Hor). split; [done|]. exists q. rewrite lookup_insert_ne by congruence. done.
  - intros i Hi. pose proof (vi_free Hinv i Hi) as Hf.
    destruct (decide (i = i2)) as [->|?]; [rewrite list_lookup_insert_eq, lookup_insert_eq by (rewrite !length_insert; lia); done|].
    rewrite list_lookup_insert_ne, lookup_insert_ne by done.
    destruct (decide (i = i1)) as [->|?]; [rewrite list_lookup_insert_eq, lookup_insert_eq by (rewrite !length_insert; lia); done|].
    rewrite list_lookup_insert_ne, lookup_insert_ne by done.
    destruct (decide (i = i0)) as [->|?]; [rewrite list_lookup_insert_eq, lookup_insert_eq by lia; done|].
    by rewrite list_lookup_insert_ne, lookup_insert_ne.
  - by apply pc_submit.
  - intros p1 p2 b'. rewrite !uses_wait by done. apply (vi_uses Hinv).
  - intros p' b' w' Hp'. apply lookup_lt_is_Some. rewrite length_insert. apply lookup_lt_is_Some, (vi_try Hinv p' b' w'). unfold setpc in Hp'. by case_decide.
  - apply window_push; [apply (vi_avail Hinv)| |done].
    enough (length (i0 :: la) <= NUM)%nat by (cbn [length] in *; lia). apply indices_length.
    + apply NoDup_cons. split; [eapply Hfresh|]; apply (vi_la Hinv).
    + intros h [->|(q & Hq & _)%(proj2 (vi_la Hinv))]%elem_of_cons; [done|]. by eapply heads_lt.
  - apply (vi_used Hinv).
  - eapply moved_stage; [|apply (vi_la Hinv)]. apply moved_push; [done|]. eapply Hfresh, (vi_la Hinv).
  - eapply moved_stage; [|apply (vi_ld Hinv)]. apply moved_same; [done|]. eapply Hfresh, (vi_ld Hinv).
  - eapply moved_stage; [|apply (vi_lu Hinv)]. apply moved_same; [done|]. eapply Hfresh, (vi_lu Hinv).
Qed.

End Submit.

(** *** A process returns *)

Section Wake.
  Context (P : nat -> pc) (s : vst) (R : gmap nat rq) (O : gmap nat nat) (la lu : list nat) (Hinv : vinv P s R O la lu).
  Context (h : nat) (q : rq) (Hq : R !! h = Some q).

(** The descriptors of the request, cleared and free. *)
Definition freed (st : Z) : vst :=
  Vst (<[q_2 q := no_desc]> (<[q_1 q := no_desc]> (<[h := no_desc]> (v_desc s)))) (v_avail s) (v_avail_idx s) (v_used s) (v_used_dev s)
    (<[q_2 q := true]> (<[q_1 q := true]> (<[h := true]> (v_free s)))) (v_used_idx s)
    (<[h := (None, st)]> (v_info s)) (v_ops s) (v_bufs s) (v_disk s) (v_fetched s) (v_work s).

Lemma owned_busy i h' : O !! i = Some h' -> (i < NUM)%nat /\ v_free s !! i = Some false.
Proof.
  intros Hi. destruct (vi_own Hinv i h' Hi) as [Hlt _]. split; [done|]. rewrite (vi_free Hinv) by done.
  by rewrite bool_decide_eq_false_2 by (by rewrite Hi).
Qed.

Lemma free_chain_step i d n s0 : v_desc s0 !! i = Some d -> (i < NUM)%nat -> v_free s0 !! i = Some false ->
  loop (S n) free_chain_body i s0 =
  (if negb (Z.land (d_flags d) VRING_DESC_F_NEXT =? 0) then loop n free_chain_body (d_next d) else ret tt)
    (set_free i true (set_desc i no_desc s0)).
Proof.
  intros Hd Hi Hf. cbn [loop]. unfold free_chain_body, elt. unfold bind at 1 2. rewrite Hd. rewrite (bind_ok _ _ _ _ _ (free_desc_ok i s0 Hi Hf)).
  by destruct (negb _).
Qed.

Lemma rw_wake_free b : v_bufs s !! q_b q = Some b -> vb_disk b = false -> exists st, rw_wake (q_b q) h s = Ok (true, freed st).
Proof.
  intros Hb Hbd. destruct (vi_rq Hinv h q Hq) as [(O0 & O1 & O2) (N01 & N02 & N12) D0 D1 D2 _ (st & Hi & _)].
  destruct (owned_busy _ _ O0) as [L0 F0], (owned_busy _ _ O1) as [L1 F1], (owned_busy _ _ O2) as [L2 F2].
  exists st. unfold rw_wake, elt. unfold bind at 1. rewrite Hb, Hbd. unfold bind at 1. rewrite Hi. unfold modify. unfold bind at 1.
  unfold free_chain, NUM. erewrite bind_ok with (a := tt); [reflexivity|].
  rewrite (free_chain_step h (Desc (AOp h) 16 1 (q_1 q))) by done.
  change (negb _) with true. cbn [d_next].
  rewrite (free_chain_step (q_1 q) (Desc (AData (q_b q)) BSIZE (if q_w q then 1 else 3) (q_2 q))); [|cbn..].
  2: by rewrite list_lookup_insert_ne. 2: done. 2: by rewrite list_lookup_insert_ne.
  replace (negb _) with true by (by destruct (q_w q)). cbn [d_next].
  rewrite (free_chain_step (q_2 q) (Desc (AStatus h) 1 2 0)); [|cbn..].
  2: by rewrite !list_lookup_insert_ne. 2: done. 2: by rewrite !list_lookup_insert_ne.
  done.
Qed.

Lemma staged_delete l x : (NoDup l /\ forall h', h' ∈ l <-> staged R x h') -> q_st q <> x ->
  NoDup l /\ forall h', h' ∈ l <-> staged (delete h R) x h'.
Proof.
  intros [Hnd Hl] Hst. split; [done|]. intros h'. rewrite Hl. unfold staged.
  destruct (decide (h' = h)) as [->|]; [|by rewrite lookup_delete_ne].
  rewrite lookup_delete_eq. split; intros (q' & Hq' & ?); congruence.
Qed.

(** The request is gone. *)
Lemma freed_inv st : q_st q = SSeen ->
  vinv (setpc P (q_p q) PIdle) (freed st) (delete h R) (delete (q_2 q) (delete (q_1 q) (delete h O))) la lu.
Proof.
  intros Hst. destruct (vi_rq Hinv h q Hq) as [(O0 & O1 & O2) (N01 & N02 & N12) _ _ _ _ _].
  pose proof (vi_len Hinv) as (Hl1 & Hl2 & Hl3 & Hl4 & Hl5 & Hl6).
  assert (P (q_p q) = PWait (q_b q) (q_w q) h) as Hp by (apply (vi_pc Hinv); eauto).
  constructor; cbn.
  - by rewrite !length_insert.
  - apply (vi_bufs Hinv).
  - intros h' q' [Hne Hq']%lookup_delete_Some. eapply rq_ok_frame; [by apply (vi_rq Hinv)|cbn..]; [|done..|by rewrite list_lookup_insert_ne].
    intros i Hi. rewrite !list_lookup_insert_ne, !lookup_delete_ne by congruence. done.
  - intros i h'. rewrite !lookup_delete_Some. intros (Hi2 & Hi1 & Hi0 & Hi). destruct (vi_own Hinv i h' Hi) as (Hlt & q' & Hq' & Hor).
    split; [done|]. exists q'. split; [|done]. rewrite lookup_delete_ne; [done|]. intros <-. replace q' with q in * by congruence.
    destruct Hor as [|[|]]; congruence.
  - intros i Hi. pose proof (vi_free Hinv i Hi) as Hf.
    destruct (decide (i = q_2 q)) as [->|?]; [rewrite list_lookup_insert_eq, lookup_delete_eq by (rewrite !length_insert; lia); done|].
    rewrite list_lookup_insert_ne, lookup_delete_ne by done.
    destruct (decide (i = q_1 q)) as [->|?]; [rewrite list_lookup_insert_eq, lookup_delete_eq by (rewrite !length_insert; lia); done|].
    rewrite list_lookup_insert_ne, lookup_delete_ne by done.
    destruct (decide (i = h)) as [->|?]; [rewrite list_lookup_insert_eq, lookup_delete_eq by lia; done|].
    by rewrite list_lookup_insert_ne, lookup_delete_ne.
  - intros p b w h'. unfold setpc. case_decide as Ep.
    + split; [done|]. intros (q' & [Hne Hq']%lookup_delete_Some & E1 & E2 & E3).
      assert (P p = PWait b w h') as E by (apply (vi_pc Hinv); eauto). congruence.
    + rewrite (vi_pc Hinv). split; intros (q' & Hq' & E1 & E2 & E3); exists q'.
      * split; [|done]. rewrite lookup_delete_ne; [done|]. intros <-. congruence.
      * apply lookup_delete_Some in Hq' as [_ ?]. done.
  - intros p1 p2 b. unfold setpc. do 2 case_decide; try done. apply (vi_uses Hinv).
  - intros p b w. unfold setpc. case_decide; [done|]. apply (vi_try Hinv).
  - apply (vi_avail Hinv).
  - apply (vi_used Hinv).
  - eapply staged_delete; [apply (vi_la Hinv)|by rewrite Hst].
  - eapply staged_delete; [apply (vi_ld Hinv)|by rewrite Hst].
  - eapply staged_delete; [apply (vi_lu Hinv)|by rewrite Hst].
Qed.

End Wake.

(** *** Simulation *)

Definition phase_of (R : gmap nat rq) (x : pc) : phase :=
  match x with
  | PIdle => AIdle
  | PTry b w => APend b w
  | PWait b w h => if done_at R h then ADone b w else APend b w
  end.

Definition vrel (m : mst) (a : dst) : Prop := exists R O la lu,
  vinv m.1 m.2 R O la lu /\ (forall p, a_pc a p = phase_of R (m.1 p)) /\ a_bufs a = view (v_bufs m.2) /\ a_disk a = v_disk m.2.

Lemma ause_phase R x b : ause (phase_of R x) b <-> uses x b.
Proof. destruct x; cbn; [done|done|]. by destruct (done_at R h). Qed.

Lemma phase_setpc R A P p x : (forall p', A p' = phase_of R (P p')) ->
  forall p', setpc A p (phase_of R x) p' = phase_of R (setpc P p x p').
Proof. intros HA p'. unfold setpc. by case_decide. Qed.

(** What the invariant says about one process. *)
Lemma wait_rq P s R O la lu p b w h : vinv P s R O la lu -> P p = PWait b w h ->
  exists q, R !! h = Some q /\ q_p q = p /\ q_b q = b /\ q_w q = w.
Proof. intros Hinv Hp. by apply (vi_pc Hinv). Qed.

Lemma vinv_ext P P' s R O la lu : (forall p, P' p = P p) -> vinv P s R O la lu -> vinv P' s R O la lu.
Proof.
  intros E []. constructor; try done; intros *; rewrite ?E; eauto.
Qed.

(** A call that waits has a request with its head. *)
Lemma phase_frame P s R R' O la lu p : vinv P s R O la lu -> (forall h, is_Some (R !! h) -> (exists q, R !! h = Some q /\ q_p q = p) -> R' !! h = R !! h) ->
  phase_of R' (P p) = phase_of R (P p).
Proof.
  intros Hinv HR. destruct (P p) as [| |b w h] eqn:Hp; [done|done|]. destruct (wait_rq _ _ _ _ _ _ _ _ _ _ Hinv Hp) as (q & Hq & Hqp & _).
  cbn. unfold done_at. rewrite HR; [done|by eexists|eauto].
Qed.

(** A round of hal_disk_rw makes a request or leaves everything as it was. *)
Lemma rw_try_ok P s R O la lu p b w : vinv P s R O la lu -> P p = PTry b w -> exists o s' R' O' la',
  rw_try b w s = Ok (o, s') /\ vinv (setpc P p (match o with Some h => PWait b w h | None => PTry b w end)) s' R' O' la' lu /\
  view (v_bufs s') = view (v_bufs s) /\ v_disk s' = v_disk s /\
  (forall p', phase_of R' (setpc P p (match o with Some h => PWait b w h | None => PTry b w end) p') = phase_of R (P p')).
Proof.
  intros Hinv Hp. destruct (vi_try Hinv p b w Hp) as [x Hx]. pose proof (Forall_lookup_1 _ _ _ _ (vi_bufs Hinv) Hx) as Hok.
  pose proof (vi_len Hinv) as (Hl1 & Hl2 & Hl3 & Hl4 & Hl5 & Hl6).
  unfold rw_try, elt. unfold bind at 1. rewrite Hx. unfold disk_for_dev. destruct (Hok) as (_ & _ & Hdev).
  replace ((vb_dev x <? 1) || (vb_dev x >? NVIRTIO)) with false by lia. rewrite ret_bind.
  destruct (alloc3_ok s Hl4) as [(i0 & i1 & i2 & L0 & L1 & L2 & N01 & N02 & N12 & F0 & F1 & F2 & E)|(D & HlD & HD & E)]; rewrite (bind_ok _ _ _ _ _ E).
  - rewrite (bind_ok _ _ _ _ _ (rw_submit_ok s b w x i0 i1 i2 Hx Hok ltac:(lia))).
    pose proof (submit_inv _ _ _ _ _ _ Hinv p b w Hp x i0 i1 i2 Hx L0 L1 L2 N01 N02 N12 F0 F1 F2) as Hinv'.
    do 5 eexists. split; [reflexivity|]. split; [exact Hinv'|]. split_and!.
    + by apply view_insert with (x := x).
    + done.
    + intros p'. unfold setpc. case_decide as Ep; [subst; rewrite Hp; cbn; unfold done_at; by rewrite lookup_insert_eq|].
      eapply phase_frame; [exact Hinv|]. intros h Hh _. rewrite lookup_insert_ne; [done|]. intros <-.
      destruct (free_unowned _ _ _ _ _ _ Hinv i0 F0) as [_ Hn]. rewrite Hn in Hh. by destruct Hh.
  - exists None, (with_desc D s), R, O, la. split; [reflexivity|].
    assert (forall p', setpc P p (PTry b w) p' = P p') as Es by (intros p'; unfold setpc; case_decide; by subst).
    split_and!; [|done..|by intros p'; rewrite Es].
    eapply vinv_ext, with_desc_inv; done.
Qed.

(** A woken call goes back to sleep, or its transfer was made and it returns. *)
Lemma rw_wake_ok P s R O la lu p b w h : vinv P s R O la lu -> P p = PWait b w h ->
  rw_wake b h s = Ok (false, s) \/
  exists s' R' O', rw_wake b h s = Ok (true, s') /\ vinv (setpc P p PIdle) s' R' O' la lu /\ done_at R h = true /\
    v_bufs s' = v_bufs s /\ v_disk s' = v_disk s /\ forall p', p' <> p -> phase_of R' (P p') = phase_of R (P p').
Proof.
  intros Hinv Hp. destruct (wait_rq _ _ _ _ _ _ _ _ _ _ Hinv Hp) as (q & Hq & <- & <- & <-).
  destruct (vi_rq Hinv h q Hq) as [_ _ _ _ _ (x & Hx & Hd & _) _]. destruct (vb_disk x) eqn:Ed.
  { left. unfold rw_wake, elt. unfold bind. by rewrite Hx, Ed. }
  right. symmetry in Hd. apply bool_decide_eq_false in Hd. assert (q_st q = SSeen) as Hst by (by apply dec_stable).
  destruct (rw_wake_free _ _ _ _ _ _ Hinv h q Hq x Hx Ed) as [st E]. do 3 eexists. split; [exact E|].
  split; [by apply (freed_inv _ _ _ _ _ _ Hinv h q Hq)|]. split_and!; [|done|done|].
  - unfold done_at. rewrite Hq, Hst. done.
  - intros p' Hne. eapply phase_frame; [exact Hinv|]. intros h' _ (q' & Hq' & Ep). apply lookup_delete_ne. congruence.
Qed.

Lemma call_inv P s R O la lu p b w : vinv P s R O la lu -> P p = PIdle -> (forall p', ~ uses (P p') b) -> is_Some (v_bufs s !! b) ->
  vinv (setpc P p (PTry b w)) s R O la lu.
Proof.
  intros Hinv Hp Hu Hb. destruct Hinv. constructor; try done.
  - intros p' b' w' h. unfold setpc. case_decide; [subst|done]. rewrite <-vi_pc0, Hp. done.
  - intros p1 p2 b'. unfold setpc. do 2 case_decide; subst; [done| | |by eauto]; cbn; [intros <- Hx|intros Hx <-]; by apply Hu in Hx.
  - intros p' b' w'. unfold setpc. case_decide; [by intros [= <- <-]|by eauto].
Qed.

Lemma client_inv P s R O la lu b x l : vinv P s R O la lu -> (forall p, ~ uses (P p) b) -> v_bufs s !! b = Some x -> zlen l = BSIZE ->
  vinv P (set_buf b (set_bdata l x) s) R O la lu.
Proof.
  intros Hinv Hu Hx Hl. pose proof (Forall_lookup_1 _ _ _ _ (vi_bufs Hinv) Hx) as (_ & Hok). constructor; try apply Hinv.
  - apply Forall_insert; [apply (vi_bufs Hinv)|]. done.
  - intros h q Hq. eapply rq_ok_frame; [by apply (vi_rq Hinv)|done|cbn|done..]. apply list_lookup_insert_ne. intros ->.
    apply (Hu (q_p q)). rewrite (proj2 (vi_pc Hinv (q_p q) (q_b q) (q_w q) h)); [done|eauto].
  - intros p b' w Hp. apply lookup_lt_is_Some. cbn. rewrite length_insert. by eapply lookup_lt_is_Some, (vi_try Hinv).
Qed.

(** Carrying out a request is the abstract transfer. *)
Lemma do_sim P s R O la lu h s' A : vinv P s R O la lu -> h ∈ v_work s -> device_do h s = Some s' -> (forall p, A p = phase_of R (P p)) ->
  exists a', dstep (Dst A (view (v_bufs s)) (v_disk s)) None a' /\ vrel (P, s') a'.
Proof.
  intros Hinv Hh E HA. destruct (do_inv _ _ _ _ _ _ Hinv h Hh) as (q & x & s1 & Hq & Hst & Hx & E1 & Hinv' & Eb & Ed).
  rewrite E1 in E. injection E as ->. assert (P (q_p q) = PWait (q_b q) (q_w q) h) as Hp by (apply (vi_pc Hinv); eauto).
  assert (A (q_p q) = APend (q_b q) (q_w q)) as HAp by (rewrite HA, Hp; cbn; unfold done_at; by rewrite Hq, Hst).
  exists (Dst (setpc A (q_p q) (ADone (q_b q) (q_w q))) (view (v_bufs s')) (v_disk s')). split.
  - unfold view. rewrite Eb, Ed. unfold transfer. destruct (q_w q) eqn:Ew; cbn.
    + eapply d_write; [done|by apply view_lookup].
    + rewrite list_fmap_insert. eapply (d_read _ _ _ _ _ (vb_blockno x)); [done|by apply view_lookup].
  - do 4 eexists. split; [exact Hinv'|]. split_and!; [|done|done]. intros p. cbn. unfold setpc. case_decide as Ep.
    + subst. rewrite Hp. cbn. unfold done_at. by rewrite lookup_insert_eq.
    + rewrite HA. symmetry. eapply phase_frame; [exact Hinv|]. intros h' _ (q' & Hq' & Ep'). apply lookup_insert_ne. congruence.
Qed.

(** Returning is the abstract return. *)
Lemma return_sim P s R O la lu p b w h x s' A : vinv P s R O la lu -> P p = PWait b w h -> rw_wake b h s = Ok (true, s') ->
  v_bufs s' !! b = Some x -> (forall p, A p = phase_of R (P p)) ->
  exists a', dstep (Dst A (view (v_bufs s)) (v_disk s)) (Some (ERet p b w (vb_data x))) a' /\ vrel (setpc P p PIdle, s') a'.
Proof.
  intros Hinv Hp E Hx HA. destruct (rw_wake_ok _ _ _ _ _ _ _ _ _ _ Hinv Hp) as [E'|(s1 & R' & O' & E' & Hinv' & Hd & Eb & Ed & Hph)]; [congruence|].
  rewrite E' in E. injection E as ->. eexists. split.
  - eapply d_return; [by rewrite HA, Hp; cbn; rewrite Hd|]. apply view_lookup. congruence.
  - do 4 eexists. split; [exact Hinv'|]. unfold view. cbn. rewrite Eb, Ed. split_and!; [|done|done]. intros p'. unfold setpc.
    case_decide as Ep; [done|]. by rewrite HA, Hph.
Qed.

Lemma step_sim m o m' a : vstep m o m' -> vrel m a -> exists a', runs dstep a (option_list o) a' /\ vrel m' a'.
Proof.
  intros Hst. destruct a as [A B D]. intros (R & O & la & lu & Hinv & HA & EB & ED). cbn in HA, EB, ED. subst B D.
  destruct Hst as [P s p b w Hp Hu Hb|P s p b w o s' Hp E|P s p b w h s' Hp E|P s p b w h x s' Hp E Hx|P s s' E|P s s' E|P s h s' Hh E|P s b x l Hu Hx Hl];
    cbn [fst snd] in *.
  - eexists. split; [apply runs_one, d_call; [by rewrite HA, Hp|intros p'; rewrite HA, ause_phase; apply Hu]|].
    exists R, O, la, lu. split_and!; [by apply call_inv| |done|done]. cbn. intros p'. by apply (phase_setpc R A P p (PTry b w)).
  - destruct (rw_try_ok _ _ _ _ _ _ _ _ _ Hinv Hp) as (o1 & s1 & R' & O' & la' & E1 & Hinv' & Ev & Ed & Hph).
    rewrite E1 in E. injection E as -> ->. eexists. split; [apply runs_nil|]. exists R', O', la', lu. split_and!; [done|cbn..]; [|done|done].
    intros p'. by rewrite HA, Hph.
  - destruct (rw_wake_ok _ _ _ _ _ _ _ _ _ _ Hinv Hp) as [E'|(s1 & R' & O' & E' & _)]; [|congruence]. rewrite E' in E. injection E as <-.
    eexists. split; [apply runs_nil|]. by exists R, O, la, lu.
  - destruct (return_sim _ _ _ _ _ _ _ _ _ _ _ _ _ Hinv Hp E Hx HA) as (a' & Ha & Hr). eauto using runs_one.
  - destruct (intr_ok _ _ _ _ _ _ Hinv) as (s1 & R' & E1 & Hinv' & Ev & Ed & Hdone). rewrite E1 in E. injection E as ->.
    eexists. split; [apply runs_nil|]. exists R', O, la, []. split_and!; [done|cbn..]; [|done|done].
    intros p'. rewrite HA. destruct (P p') as [| |b w h]; [done|done|]. cbn. by rewrite Hdone.
  - destruct (fetch_inv _ _ _ _ _ _ Hinv s' E) as (h & q & la' & Hq & Hst & Hinv' & Eb & Ed).
    eexists. split; [apply runs_nil|]. do 4 eexists. split; [exact Hinv'|]. unfold view. cbn. rewrite Eb, Ed. split_and!; [|done|done].
    intros p'. rewrite HA. destruct (P p') as [| |b w h']; [done|done|]. cbn. rewrite done_at_upd; [done|done|by rewrite Hst].
  - destruct (do_sim _ _ _ _ _ _ _ _ _ Hinv Hh E HA) as (a' & Ha & Hr). exists a'. split; [exact (runs_one dstep _ None _ Ha)|done].
  - eexists. split; [apply runs_one; eapply d_client; [intros p; rewrite HA, ause_phase; apply Hu|by apply view_lookup]|].
    exists R, O, la, lu. split_and!; [by apply client_inv|done| |done]. unfold view. cbn. by rewrite list_fmap_insert.
Qed.

Lemma runs_sim m tr m' : runs vstep m tr m' -> forall a, vrel m a -> exists a', runs dstep a tr a' /\ vrel m' a'.
Proof.
  induction 1 as [m|m o m' tr tr' m'' Hst _ IH ->]; intros a Ha; [eauto using runs_nil|].
  destruct (step_sim _ _ _ _ Hst Ha) as (a1 & Hr1 & Ha1). destruct (IH a1 Ha1) as (a2 & Hr2 & Ha2). exists a2. split; [|done].
  clear -Hr1 Hr2. remember (option_list o) as l eqn:El. clear El. induction Hr1 as [|a o1 a1 l l' a2' Hst _ IH' ->]; [done|].
  eapply runs_step; [done|by apply IH'|by rewrite app_assoc].
Qed.

(** The driver and the device start with no requests. *)
Lemma init_rel bufs disk : Forall buf_ok bufs ->
  vrel (fun _ => PIdle, queue_init bufs disk) (Dst (fun _ => AIdle) (view bufs) disk).
Proof.
  intros Hok. exists ∅, ∅, [], []. split_and!; try done. constructor; cbn; try done.
  - intros i Hi. do 8 (destruct i as [|i]; [done|]). unfold NUM in Hi. lia.
  - intros p b w h. split; [done|]. by intros (q & ? & _).
  - constructor; [lia|cbn; lia|done|done].
  - constructor; [lia|cbn; lia|done|done].
  - split; [constructor|]. intros h. split; [by intros ?%elem_of_nil|by intros (q & ? & _)].
  - split; [constructor|]. intros h. split; [by intros ?%elem_of_nil|by intros (q & ? & _)].
  - split; [constructor|]. intros h. split; [by intros ?%elem_of_nil|by intros (q & ? & _)].
Qed.

(** No section of the driver panics or faults, and the device never finds a
    chain that is not a request. *)
Definition unfaulted (P : nat -> pc) (s : vst) : Prop :=
  (forall p b w, P p = PTry b w -> exists o s', rw_try b w s = Ok (o, s')) /\
  (forall p b w h, P p = PWait b w h -> exists r s', rw_wake b h s = Ok (r, s')) /\
  (exists s', hal_disk_intr_one s = Ok (tt, s')) /\
  (forall h, h ∈ v_work s -> is_Some (device_do h s)).

Lemma vrel_unfaulted P s a : vrel (P, s) a -> unfaulted P s.
Proof.
  intros (R & O & la & lu & Hinv & _). cbn in Hinv. split_and!.
  - intros p b w Hp. destruct (rw_try_ok _ _ _ _ _ _ _ _ _ Hinv Hp) as (o & s' & R' & O' & la' & E & _). eauto.
  - intros p b w h Hp. destruct (rw_wake_ok _ _ _ _ _ _ _ _ _ _ Hinv Hp) as [E|(s' & R' & O' & E & _)]; eauto.
  - destruct (intr_ok _ _ _ _ _ _ Hinv) as (s' & R' & E & _). eauto.
  - intros h Hh. destruct (do_inv _ _ _ _ _ _ Hinv h Hh) as (q & b & s' & _ & _ & _ & E & _). eauto.
Qed.


(** A block is written: the request is made, taken and carried out, the
    interrupt comes and the call returns. *)
Definition wbuf : vbuf := Vbuf 1 7 false (replicate 1024 5).
Definition w_init : vst := queue_init [wbuf] (fun _ => 0).
Definition after {A} (o : outcome (A * vst)) : vst := match o with Ok (_, s) => s | Fault _ => w_init end.
Definition w_made : vst := after (rw_try 0 true w_init).
Definition w_taken : vst := default w_init (device_fetch w_made).
Definition w_done : vst := default w_init (device_do 0 w_taken).
Definition w_seen : vst := after (hal_disk_intr_one w_done).
Definition w_end : vst := after (rw_wake 0 0 w_seen).

Lemma after_ok {A} (o : outcome (A * vst)) (x : A) : match o with Ok (y, _) => y = x | Fault _ => False end -> o = Ok (x, after o).
Proof. destruct o as [[y s]|]; [by intros ->|done]. Qed.

Lemma default_ok (o : option vst) : (if o then true else false) = true -> o = Some (default w_init o).
Proof. by destruct o. Qed.

Lemma made : rw_try 0 true w_init = Ok (Some 0%nat, w_made).
Proof. refine (after_ok (rw_try 0 true w_init) (Some 0%nat) _). by vm_compute. Qed.
Lemma taken : device_fetch w_made = Some w_taken.
Proof. refine (default_ok (device_fetch w_made) _). by vm_compute. Qed.
Lemma carried_out : device_do 0 w_taken = Some w_done.
Proof. refine (default_ok (device_do 0 w_taken) _). by vm_compute. Qed.
Lemma seen : hal_disk_intr_one w_done = Ok (tt, w_seen).
Proof. refine (after_ok (hal_disk_intr_one w_done) tt _). by vm_compute. Qed.
Lemma ended : rw_wake 0 0 w_seen = Ok (true, w_end).
Proof. refine (after_ok (rw_wake 0 0 w_seen) true _). by vm_compute. Qed.

Lemma w_runs : exists P, runs vstep (fun _ => PIdle, w_init) [ECall 0 0 true; ERet 0 0 true (replicate 1024 5)] (P, w_end).
Proof.
  eexists.
  eapply runs_step; [apply (v_call _ _ 0%nat 0%nat true); [done|by intros ? ?|by eexists]| |reflexivity].
  eapply runs_step; [apply (v_try _ _ 0%nat 0%nat true (Some 0%nat) w_made); [done|exact made]| |reflexivity].
  eapply runs_step; [apply (v_device_fetch _ _ w_taken); exact taken| |reflexivity].
  eapply runs_step; [apply (v_device_do _ _ 0%nat w_done); [|exact carried_out]| |reflexivity].
  { replace (v_work w_taken) with [0%nat] by (by vm_compute). by left. }
  eapply runs_step; [apply (v_intr _ _ w_seen); exact seen| |reflexivity].
  eapply runs_step; [apply (v_return _ _ 0%nat 0%nat true 0%nat wbuf w_end); [done|exact ended|by vm_compute]| |reflexivity].
  apply runs_nil.
Qed.

