(* ===== verification/VirtioInit.v ===== *)
(** VirtioInit: hal_disk_init of hal/riscv/hal_virtio.c, which finds the virtio
    disks, agrees on features with them and gives them their queues.

    The other side is a device with the registers of the virtio specification
    (version 1.1, section 4.2.2) that watches whether the driver keeps to the
    rules of section 3.1: [v_ok] turns false when a status bit is taken back or
    set out of order, when features are accepted that were not offered or too
    late, or when the registers of a queue in use are written. *)

From S2P Require Import Prelude CString Kalloc Virtio.

Definition MAGIC_VALUE : Z := 0.
Definition VERSION : Z := 4.
Definition DEVICE_ID : Z := 8.
Definition VENDOR_ID : Z := 12.
Definition DEVICE_FEATURES : Z := 16.
Definition DRIVER_FEATURES : Z := 32.
Definition QUEUE_SEL : Z := 48.
Definition QUEUE_NUM_MAX : Z := 52.
Definition QUEUE_NUM : Z := 56.
Definition QUEUE_READY : Z := 68.
Definition STATUS : Z := 112.
Definition QUEUE_DESC_LOW : Z := 128.
Definition QUEUE_DESC_HIGH : Z := 132.
Definition DRIVER_DESC_LOW : Z := 144.
Definition DRIVER_DESC_HIGH : Z := 148.
Definition DEVICE_DESC_LOW : Z := 160.
Definition DEVICE_DESC_HIGH : Z := 164.

Definition S_ACKNOWLEDGE : Z := 1.
Definition S_DRIVER : Z := 2.
Definition S_DRIVER_OK : Z := 4.
Definition S_FEATURES_OK : Z := 8.

Definition F_RO : Z := 5.
Definition F_SCSI : Z := 7.
Definition F_CONFIG_WCE : Z := 11.
Definition F_MQ : Z := 12.
Definition F_ANY_LAYOUT : Z := 27.
Definition F_INDIRECT_DESC : Z := 28.
Definition F_EVENT_IDX : Z := 29.

(** *** The device *)

(** What the device is: its identity, the features it offers, which of them it
    can do without, and the length of its queue. *)
Record hw : Type := Hw { h_magic : Z; h_version : Z; h_id : Z; h_vendor : Z; h_features : Z; h_accepts : Z -> bool; h_max : Z }.

Record mmio : Type := Mmio {
  v_hw : hw;
  v_status : Z; v_features : Z; v_sel : Z; v_num : Z; v_ready : Z;
  v_desc_lo : Z; v_desc_hi : Z; v_drv_lo : Z; v_drv_hi : Z; v_dev_lo : Z; v_dev_hi : Z;
  v_ok : bool
}.

Definition has (s bit : Z) : bool := negb (Z.land s bit =? 0).

Definition reg_read (r : Z) (v : mmio) : Z :=
  if r =? MAGIC_VALUE then h_magic (v_hw v)
  else if r =? VERSION then h_version (v_hw v)
  else if r =? DEVICE_ID then h_id (v_hw v)
  else if r =? VENDOR_ID then h_vendor (v_hw v)
  else if r =? DEVICE_FEATURES then h_features (v_hw v)
  else if r =? QUEUE_NUM_MAX then h_max (v_hw v)
  else if r =? QUEUE_READY then v_ready v
  else if r =? STATUS then v_status v
  else 0.

(** After a reset nothing is left of the earlier driver. *)
Definition reset (v : mmio) : mmio := Mmio (v_hw v) 0 0 0 0 0 0 0 0 0 0 0 true.

(** The order of the status bits. *)
Definition status_order (s : Z) : bool :=
  implb (has s S_DRIVER) (has s S_ACKNOWLEDGE) && implb (has s S_FEATURES_OK) (has s S_DRIVER) && implb (has s S_DRIVER_OK) (has s S_FEATURES_OK).

Definition write_status (x : Z) (v : mmio) : mmio :=
  if x =? 0 then reset v
  else
    let ok := v_ok v && (Z.land x (v_status v) =? v_status v) && status_order x in
    let x := if has x S_FEATURES_OK && negb (h_accepts (v_hw v) (v_features v)) then Z.ldiff x S_FEATURES_OK else x in
    Mmio (v_hw v) x (v_features v) (v_sel v) (v_num v) (v_ready v) (v_desc_lo v) (v_desc_hi v) (v_drv_lo v) (v_drv_hi v) (v_dev_lo v) (v_dev_hi v) ok.

Definition write_features (x : Z) (v : mmio) : mmio :=
  let ok := v_ok v && has (v_status v) S_DRIVER && negb (has (v_status v) S_FEATURES_OK) && (Z.ldiff x (h_features (v_hw v)) =? 0) in
  Mmio (v_hw v) (v_status v) x (v_sel v) (v_num v) (v_ready v) (v_desc_lo v) (v_desc_hi v) (v_drv_lo v) (v_drv_hi v) (v_dev_lo v) (v_dev_hi v) ok.

(** The registers of the selected queue may be written between FEATURES_OK and
    DRIVER_OK, while the queue is not ready. *)
Definition queue_open (v : mmio) : bool := v_ok v && has (v_status v) S_FEATURES_OK && negb (has (v_status v) S_DRIVER_OK) && (v_ready v =? 0).

Definition reg_write (r x : Z) (v : mmio) : mmio :=
  let q sel num ready dl dh al ah ul uh ok := Mmio (v_hw v) (v_status v) (v_features v) sel num ready dl dh al ah ul uh ok in
  let o := queue_open v in
  if r =? STATUS then write_status x v
  else if r =? DRIVER_FEATURES then write_features x v
  else if r =? QUEUE_SEL then q x (v_num v) (v_ready v) (v_desc_lo v) (v_desc_hi v) (v_drv_lo v) (v_drv_hi v) (v_dev_lo v) (v_dev_hi v) (o && (x =? 0))
  else if r =? QUEUE_NUM then q (v_sel v) x (v_ready v) (v_desc_lo v) (v_desc_hi v) (v_drv_lo v) (v_drv_hi v) (v_dev_lo v) (v_dev_hi v) (o && (x <=? h_max (v_hw v)))
  else if r =? QUEUE_READY then q (v_sel v) (v_num v) x (v_desc_lo v) (v_desc_hi v) (v_drv_lo v) (v_drv_hi v) (v_dev_lo v) (v_dev_hi v) (o && negb (v_num v =? 0))
  else if r =? QUEUE_DESC_LOW then q (v_sel v) (v_num v) (v_ready v) x (v_desc_hi v) (v_drv_lo v) (v_drv_hi v) (v_dev_lo v) (v_dev_hi v) o
  else if r =? QUEUE_DESC_HIGH then q (v_sel v) (v_num v) (v_ready v) (v_desc_lo v) x (v_drv_lo v) (v_drv_hi v) (v_dev_lo v) (v_dev_hi v) o
  else if r =? DRIVER_DESC_LOW then q (v_sel v) (v_num v) (v_ready v) (v_desc_lo v) (v_desc_hi v) x (v_drv_hi v) (v_dev_lo v) (v_dev_hi v) o
  else if r =? DRIVER_DESC_HIGH then q (v_sel v) (v_num v) (v_ready v) (v_desc_lo v) (v_desc_hi v) (v_drv_lo v) x (v_dev_lo v) (v_dev_hi v) o
  else if r =? DEVICE_DESC_LOW then q (v_sel v) (v_num v) (v_ready v) (v_desc_lo v) (v_desc_hi v) (v_drv_lo v) (v_drv_hi v) x (v_dev_hi v) o
  else if r =? DEVICE_DESC_HIGH then q (v_sel v) (v_num v) (v_ready v) (v_desc_lo v) (v_desc_hi v) (v_drv_lo v) (v_drv_hi v) (v_dev_lo v) x o
  else q (v_sel v) (v_num v) (v_ready v) (v_desc_lo v) (v_desc_hi v) (v_drv_lo v) (v_drv_hi v) (v_dev_lo v) (v_dev_hi v) false.

(** *** The driver *)

(** The fields of a struct virtio_disk that are set here. *)
Record vdisk : Type := Vdisk { k_desc : Z; k_avail : Z; k_used : Z; k_free : list bool }.

Record vini : Type := Vini { i_km : kmem; i_dev : list mmio; i_disk : list vdisk }.

(** [*R(d, r)] and [*R(d, r) = x]; the registers are 32 bits wide. *)
Definition R (d : nat) (r : Z) : M vini Z :=
  fun s => match i_dev s !! d with Some v => Ok (reg_read r v, s) | None => Fault FBounds end.
Definition W (d : nat) (r x : Z) : M vini unit :=
  fun s => match i_dev s !! d with Some v => Ok (tt, Vini (i_km s) (<[d := reg_write r (u32 x) v]> (i_dev s)) (i_disk s)) | None => Fault FBounds end.

Definition on_km {A} (m : M kmem A) : M vini A := zoom i_km (fun k s => Vini k (i_dev s) (i_disk s)) m.

(** [memset(p, 0, PGSIZE)] *)
Definition zero_page (p : Z) : M vini unit := on_km (modify (fun k => Kmem (memset p 0 (Z.to_nat PGSIZE) (km_mem k)) (km_freelist k))).

Definition check_id (d : nat) : M vini bool :=
  a <- R d MAGIC_VALUE ;;
  if negb (a =? 1953655158) then ret false
  else
    a <- R d VERSION ;;
    if negb (a =? 2) then ret false
    else
      a <- R d DEVICE_ID ;;
      if negb (a =? 2) then ret false
      else a <- R d VENDOR_ID ;; ret (a =? 1431127377).

Definition refuse (n features : Z) : Z := Z.land features (Z.lnot (Z.shiftl 1 n)).

Definition negotiate (d : nat) : M vini unit :=
  features <- R d DEVICE_FEATURES ;;
  let features := refuse F_RO features in
  let features := refuse F_SCSI features in
  let features := refuse F_CONFIG_WCE features in
  let features := refuse F_MQ features in
  let features := refuse F_ANY_LAYOUT features in
  let features := refuse F_EVENT_IDX features in
  let features := refuse F_INDIRECT_DESC features in
  W d DRIVER_FEATURES features.

(** The queue's memory and its registers. *)
Definition give_queue (d : nat) : M vini unit :=
  desc <- on_km kalloc ;;
  avail <- on_km kalloc ;;
  used <- on_km kalloc ;;
  if (desc =? 0) || (avail =? 0) || (used =? 0) then panic "virtio disk kalloc"
  else
    zero_page desc ;;; zero_page avail ;;; zero_page used ;;;
    W d QUEUE_NUM (Z.of_nat NUM) ;;;
    W d QUEUE_DESC_LOW desc ;;;
    W d QUEUE_DESC_HIGH (Z.shiftr desc 32) ;;;
    W d DRIVER_DESC_LOW avail ;;;
    W d DRIVER_DESC_HIGH (Z.shiftr avail 32) ;;;
    W d DEVICE_DESC_LOW used ;;;
    W d DEVICE_DESC_HIGH (Z.shiftr used 32) ;;;
    W d QUEUE_READY 1 ;;;
    modify (fun s => Vini (i_km s) (i_dev s) (<[d := Vdisk desc avail used (replicate NUM true)]> (i_disk s))).

Definition hal_disk_init_one (d : nat) : M vini unit :=
  ok <- check_id d ;;
  if negb ok then panic "could not find virtio disk"
  else
    let status := 0 in
    W d STATUS status ;;;
    let status := Z.lor status S_ACKNOWLEDGE in
    W d STATUS status ;;;
    let status := Z.lor status S_DRIVER in
    W d STATUS status ;;;
    negotiate d ;;;
    let status := Z.lor status S_FEATURES_OK in
    W d STATUS status ;;;
    status <- R d STATUS ;;
    if Z.land status S_FEATURES_OK =? 0 then panic "virtio disk FEATURES_OK unset"
    else
      W d QUEUE_SEL 0 ;;;
      ready <- R d QUEUE_READY ;;
      if negb (ready =? 0) then panic "virtio disk should not be ready"
      else
        max <- R d QUEUE_NUM_MAX ;;
        if max =? 0 then panic "virtio disk has no queue 0"
        else if max <? Z.of_nat NUM then panic "virtio disk max queue too short"
        else
          give_queue d ;;;
          W d STATUS (Z.lor status S_DRIVER_OK).

Definition hal_disk_init : M vini unit := for_each (seq 0 (Z.to_nat NVIRTIO)) hal_disk_init_one.

(** *** Runs *)

Definition with_dev (d : nat) (v : mmio) (s : vini) : vini := Vini (i_km s) (<[d := v]> (i_dev s)) (i_disk s).

Lemma with_dev_at d v s : (d < length (i_dev s))%nat -> i_dev (with_dev d v s) !! d = Some v.
Proof. intros Hd. cbn. by apply list_lookup_insert_eq. Qed.

Lemma with_dev_twice d v v' s : with_dev d v (with_dev d v' s) = with_dev d v s.
Proof. unfold with_dev. cbn. by rewrite list_insert_insert_eq. Qed.

Lemma R_run d r v s : (d < length (i_dev s))%nat -> R d r (with_dev d v s) = Ok (reg_read r v, with_dev d v s).
Proof. intros Hd. unfold R. by rewrite with_dev_at. Qed.

Lemma W_run d r x v s : (d < length (i_dev s))%nat -> W d r x (with_dev d v s) = Ok (tt, with_dev d (reg_write r (u32 x) v) s).
Proof. intros Hd. unfold W. rewrite with_dev_at by done. unfold with_dev. cbn. by rewrite list_insert_insert_eq. Qed.

(** The features that are left. *)
Definition agreed (f : Z) : Z :=
  refuse F_INDIRECT_DESC (refuse F_EVENT_IDX (refuse F_ANY_LAYOUT (refuse F_MQ (refuse F_CONFIG_WCE (refuse F_SCSI (refuse F_RO f)))))).

Lemma agreed_ldiff f : agreed f = Z.ldiff f (2 ^ F_RO + 2 ^ F_SCSI + 2 ^ F_CONFIG_WCE + 2 ^ F_MQ + 2 ^ F_ANY_LAYOUT + 2 ^ F_EVENT_IDX + 2 ^ F_INDIRECT_DESC).
Proof.
  unfold agreed, refuse. rewrite <-!Z.land_assoc, Z.ldiff_land. f_equal.
Qed.

Lemma ldiff_bounds f m n : 0 <= n -> 0 <= f < 2 ^ n -> 0 <= Z.ldiff f m < 2 ^ n.
Proof.
  intros Hn Hf. assert (0 <= Z.ldiff f m) as H0 by (apply Z.ldiff_nonneg; lia). split; [done|].
  rewrite <-(Z.mod_small f (2 ^ n)) by lia. rewrite <-Z.land_ones by done. rewrite Z.ldiff_land, <-Z.land_assoc, (Z.land_comm (Z.ones n)), Z.land_assoc, Z.land_ones by done.
  apply Z.mod_pos_bound. lia.
Qed.

Lemma agreed_offered f : 0 <= f < 2 ^ 32 -> u32 (agreed f) = agreed f /\ Z.ldiff (agreed f) f = 0.
Proof.
  intros Hf. rewrite agreed_ldiff. split; [apply u32_small, ldiff_bounds; [lia|done]|].
  apply Z.bits_inj_0. intros n. rewrite !Z.ldiff_spec. destruct (Z.testbit f n); cbn; [by rewrite andb_false_r|done].
Qed.

(** The first check that fails. *)
Definition verdict (h : hw) (pages : list Z) : option string :=
  if negb ((h_magic h =? 1953655158) && (h_version h =? 2) && (h_id h =? 2) && (h_vendor h =? 1431127377)) then Some "could not find virtio disk"%string
  else if negb (h_accepts h (agreed (h_features h))) then Some "virtio disk FEATURES_OK unset"%string
  else if h_max h =? 0 then Some "virtio disk has no queue 0"%string
  else if h_max h <? 8 then Some "virtio disk max queue too short"%string
  else if (length pages <? 3)%nat then Some "virtio disk kalloc"%string
  else None.

(** The device after negotiation. *)
Definition negotiated (h : hw) : mmio := Mmio h 11 (agreed (h_features h)) 0 0 0 0 0 0 0 0 0 true.

Lemma check_id_run d v s : (d < length (i_dev s))%nat -> check_id d (with_dev d v s) =
  Ok ((h_magic (v_hw v) =? 1953655158) && (h_version (v_hw v) =? 2) && (h_id (v_hw v) =? 2) && (h_vendor (v_hw v) =? 1431127377), with_dev d v s).
Proof.
  intros Hd. unfold check_id. rewrite (bind_ok _ _ _ _ _ (R_run _ _ _ _ Hd)). change (reg_read MAGIC_VALUE v) with (h_magic (v_hw v)). destruct (_ =? _); [|done].
  cbn [negb andb]. rewrite (bind_ok _ _ _ _ _ (R_run _ _ _ _ Hd)). change (reg_read VERSION v) with (h_version (v_hw v)). destruct (_ =? _); [|done].
  cbn [negb andb]. rewrite (bind_ok _ _ _ _ _ (R_run _ _ _ _ Hd)). change (reg_read DEVICE_ID v) with (h_id (v_hw v)). destruct (_ =? _); [|done].
  cbn [negb andb]. rewrite (bind_ok _ _ _ _ _ (R_run _ _ _ _ Hd)). done.
Qed.

Section Init.
  Context (kend PHYSTOP : Z) (kend_pos : 0 < kend) (phystop_64 : PHYSTOP < 2 ^ 64).

(** The page is zero and nothing outside it has changed. *)
Lemma zero_page_run p l s : kinv kend PHYSTOP (i_km s) l -> p mod PGSIZE = 0 -> p ∉ l -> exists k', zero_page p s = Ok (tt, Vini k' (i_dev s) (i_disk s)) /\
  kinv kend PHYSTOP k' l /\ forall a, km_mem k' a = if in_page p a then 0 else km_mem (i_km s) a.
Proof.
  intros (Hc & Hnd & Hok) Hp Hni. eexists. split; [reflexivity|]. cbn [km_mem km_freelist].
  assert (forall a, memset p 0 (Z.to_nat PGSIZE) (km_mem (i_km s)) a = if in_page p a then 0 else km_mem (i_km s) a) as Hm by (intros a; apply memset_page).
  split; [|exact Hm]. split; [|done]. eapply chain_outside; [exact Hp|done|done| |exact Hc]. intros a Ha. cbn. by rewrite Hm, Ha.
Qed.

Lemma on_km_run {A} (m : M kmem A) s a k : m (i_km s) = Ok (a, k) -> on_km m s = Ok (a, Vini k (i_dev s) (i_disk s)).
Proof. intros E. unfold on_km, zoom. by rewrite E. Qed.

(** The queue's registers, with the pages at [p1], [p2] and [p3]. *)
Definition queued (h : hw) (p1 p2 p3 : Z) (ready status : Z) : mmio :=
  Mmio h status (agreed (h_features h)) 0 8 ready (u32 p1) (u32 (Z.shiftr p1 32)) (u32 p2) (u32 (Z.shiftr p2 32)) (u32 p3) (u32 (Z.shiftr p3 32)) true.

(** What the initialisation of one disk changes. *)
Record inited (d : nat) (h : hw) (p1 p2 p3 : Z) (l : list Z) (s s' : vini) : Prop := Inited {
  in_dev : i_dev s' = <[d := queued h p1 p2 p3 1 15]> (i_dev s);
  in_disk : i_disk s' = <[d := Vdisk p1 p2 p3 (replicate NUM true)]> (i_disk s);
  in_km : kinv kend PHYSTOP (i_km s') l;
  in_mem : forall a, km_mem (i_km s') a = if in_page p1 a || in_page p2 a || in_page p3 a then 0 else km_mem (i_km s) a
}.

Lemma give_queue_run d h p1 p2 p3 l s : (d < length (i_dev s))%nat -> i_dev s !! d = Some (negotiated h) -> 8 <= h_max h ->
  kinv kend PHYSTOP (i_km s) (p1 :: p2 :: p3 :: l) ->
  exists s', give_queue d s = Ok (tt, s') /\ i_dev s' = <[d := queued h p1 p2 p3 1 11]> (i_dev s) /\ i_disk s' = <[d := Vdisk p1 p2 p3 (replicate NUM true)]> (i_disk s) /\
    kinv kend PHYSTOP (i_km s') l /\ forall a, km_mem (i_km s') a = if in_page p1 a || in_page p2 a || in_page p3 a then 0 else km_mem (i_km s) a.
Proof.
  intros Hd Hv Hmax K. pose proof K as (_ & Hnd & Hpg).
  apply NoDup_cons in Hnd as [N1 Hnd]. apply NoDup_cons in Hnd as [N2 Hnd]. apply NoDup_cons in Hnd as [N3 Hnd].
  apply Forall_cons in Hpg as [[P1 R1] Hpg]. apply Forall_cons in Hpg as [[P2 R2] Hpg]. apply Forall_cons in Hpg as [[P3 R3] Hpg].
  destruct (kalloc_ok kend PHYSTOP kend_pos _ _ K) as (k1 & E1 & K1 & M1).
  destruct (kalloc_ok kend PHYSTOP kend_pos _ _ K1) as (k2 & E2 & K2 & M2).
  destruct (kalloc_ok kend PHYSTOP kend_pos _ _ K2) as (k3 & E3 & K3 & M3).
  unfold give_queue. rewrite (bind_ok _ _ _ _ _ (on_km_run _ s _ _ E1)).
  rewrite (bind_ok _ _ _ _ _ (on_km_run _ (Vini k1 (i_dev s) (i_disk s)) _ _ E2)).
  rewrite (bind_ok _ _ _ _ _ (on_km_run _ (Vini k2 (i_dev s) (i_disk s)) _ _ E3)). cbn [i_dev i_disk].
  rewrite (proj2 (Z.eqb_neq p1 0)), (proj2 (Z.eqb_neq p2 0)), (proj2 (Z.eqb_neq p3 0)) by lia. cbn [orb].
  assert (p1 ∉ l /\ p2 ∉ l) as [L1 L2] by set_solver.
  destruct (zero_page_run p1 l (Vini k3 (i_dev s) (i_disk s))) as (k4 & E4 & K4 & M4); [done|done|done|]. rewrite (bind_ok _ _ _ _ _ E4). cbn [i_dev i_disk].
  destruct (zero_page_run p2 l (Vini k4 (i_dev s) (i_disk s))) as (k5 & E5 & K5 & M5); [done|done|done|]. rewrite (bind_ok _ _ _ _ _ E5). cbn [i_dev i_disk].
  destruct (zero_page_run p3 l (Vini k5 (i_dev s) (i_disk s))) as (k6 & E6 & K6 & M6); [done|done|done|]. rewrite (bind_ok _ _ _ _ _ E6). cbn [i_dev i_disk].
  set (s1 := Vini k6 (i_dev s) (i_disk s)). replace s1 with (with_dev d (negotiated h) s1) by (unfold with_dev, s1; cbn; by rewrite list_insert_id).
  assert (d < length (i_dev s1))%nat as Hd1 by done.
  assert (forall dl dh al ah ul uh num ok, reg_write QUEUE_NUM (u32 8) (Mmio h 11 (agreed (h_features h)) 0 num 0 dl dh al ah ul uh ok) =
    Mmio h 11 (agreed (h_features h)) 0 8 0 dl dh al ah ul uh ok) as Hnum.
  { intros. transitivity (Mmio h 11 (agreed (h_features h)) 0 8 0 dl dh al ah ul uh (ok && (8 <=? h_max h))); [by destruct ok|].
    by rewrite (proj2 (Z.leb_le 8 (h_max h)) Hmax), andb_true_r. }
  rewrite (bind_ok _ _ _ _ _ (W_run _ _ _ _ _ Hd1)). change (Z.of_nat NUM) with 8. unfold negotiated. rewrite Hnum.
  do 7 (rewrite (bind_ok _ _ _ _ _ (W_run _ _ _ _ _ Hd1))). eexists. split; [reflexivity|]. cbn [i_dev i_disk i_km with_dev s1]. split_and!; [|done|done|].
  - f_equal.
  - intros a. rewrite M6, M5, M4. cbn [i_km]. rewrite M3, M2, M1. destruct (in_page p1 a), (in_page p2 a), (in_page p3 a); done.
Qed.

(** kalloc of a list of free pages: the page, or 0. *)
Lemma kalloc_page l k : kinv kend PHYSTOP k l -> exists k', kalloc k = Ok (default 0 (head l), k') /\ kinv kend PHYSTOP k' (tl l).
Proof.
  intros K. pose proof (kalloc_ok kend PHYSTOP kend_pos _ _ K) as Ha. destruct l as [|p l]; [by exists k|]. destruct Ha as (k' & E & K' & _). by exists k'.
Qed.

Lemma give_queue_fails d l s : kinv kend PHYSTOP (i_km s) l -> (length l < 3)%nat -> give_queue d s = Fault (FPanic "virtio disk kalloc").
Proof.
  intros K Hl. destruct (kalloc_page _ _ K) as (k1 & E1 & K1). destruct (kalloc_page _ _ K1) as (k2 & E2 & K2). destruct (kalloc_page _ _ K2) as (k3 & E3 & K3).
  unfold give_queue. rewrite (bind_ok _ _ _ _ _ (on_km_run _ s _ _ E1)).
  rewrite (bind_ok _ _ _ _ _ (on_km_run _ (Vini k1 (i_dev s) (i_disk s)) _ _ E2)).
  rewrite (bind_ok _ _ _ _ _ (on_km_run _ (Vini k2 (i_dev s) (i_disk s)) _ _ E3)).
  destruct l as [|p1 [|p2 [|p3 l]]]; cbn [head tl default] in *; [done|..|cbn in Hl; lia]; cbn; by rewrite !orb_true_r.
Qed.

(** One disk: the driver refuses exactly the devices that fail a check, with
    the message of the first one. *)
Lemma init_one_run d v l s : (d < length (i_dev s))%nat -> i_dev s !! d = Some v -> 0 <= h_features (v_hw v) < 2 ^ 32 -> 0 <= h_max (v_hw v) -> kinv kend PHYSTOP (i_km s) l ->
  match verdict (v_hw v) l with
  | Some msg => hal_disk_init_one d s = Fault (FPanic msg)
  | None => exists p1 p2 p3 l' s', l = p1 :: p2 :: p3 :: l' /\ hal_disk_init_one d s = Ok (tt, s') /\ inited d (v_hw v) p1 p2 p3 l' s s'
  end.
Proof.
  intros Hd Hv Hf Hm K. set (h := v_hw v) in *.
  assert (s = with_dev d v s) as Es by (destruct s; unfold with_dev; cbn in *; by rewrite list_insert_id).
  assert (hal_disk_init_one d s = hal_disk_init_one d (with_dev d v s)) as -> by (by rewrite <-Es). clear Es. unfold hal_disk_init_one, verdict. rewrite (bind_ok _ _ _ _ _ (check_id_run _ _ _ Hd)). fold h. destruct (_ && _ && _ && _); cbn [negb]; [|done].
  rewrite (bind_ok _ _ _ _ _ (W_run _ _ _ _ _ Hd)). change (reg_write STATUS (u32 0) v) with (Mmio h 0 0 0 0 0 0 0 0 0 0 0 true).
  rewrite (bind_ok _ _ _ _ _ (W_run _ _ _ _ _ Hd)). change (reg_write STATUS _ _) with (Mmio h 1 0 0 0 0 0 0 0 0 0 0 true).
  rewrite (bind_ok _ _ _ _ _ (W_run _ _ _ _ _ Hd)). change (reg_write STATUS _ _) with (Mmio h 3 0 0 0 0 0 0 0 0 0 0 true).
  destruct (agreed_offered (h_features h) Hf) as [Eu Eo].
  assert (reg_write DRIVER_FEATURES (u32 (agreed (h_features h))) (Mmio h 3 0 0 0 0 0 0 0 0 0 0 true) = Mmio h 3 (agreed (h_features h)) 0 0 0 0 0 0 0 0 0 true) as En.
  { rewrite Eu. change (Mmio h 3 (agreed (h_features h)) 0 0 0 0 0 0 0 0 0 (Z.ldiff (agreed (h_features h)) (h_features h) =? 0) = Mmio h 3 (agreed (h_features h)) 0 0 0 0 0 0 0 0 0 true). by rewrite Eo. }
  unfold negotiate. rewrite bind_assoc, (bind_ok _ _ _ _ _ (R_run _ _ _ _ Hd)). change (reg_read DEVICE_FEATURES _) with (h_features h).
  cbv zeta. fold (agreed (h_features h)). rewrite (bind_ok _ _ _ _ _ (W_run _ _ _ _ _ Hd)), En. rewrite (bind_ok _ _ _ _ _ (W_run _ _ _ _ _ Hd)).
  rewrite (bind_ok _ _ _ _ _ (R_run _ _ _ _ Hd)).
  change (reg_write STATUS _ _) with (Mmio h (if true && negb (h_accepts h (agreed (h_features h))) then 3 else 11) (agreed (h_features h)) 0 0 0 0 0 0 0 0 0 true).
  destruct (h_accepts h (agreed (h_features h))) eqn:Ha; cbn [negb andb]; [|done]. fold (negotiated h). change (reg_read STATUS (negotiated h)) with 11. change (Z.land 11 S_FEATURES_OK =? 0) with false. cbv iota.
  rewrite (bind_ok _ _ _ _ _ (W_run _ _ _ _ _ Hd)). change (reg_write QUEUE_SEL _ _) with (negotiated h).
  rewrite (bind_ok _ _ _ _ _ (R_run _ _ _ _ Hd)). change (negb (reg_read QUEUE_READY (negotiated h) =? 0)) with false. cbv iota.
  rewrite (bind_ok _ _ _ _ _ (R_run _ _ _ _ Hd)). change (reg_read QUEUE_NUM_MAX (negotiated h)) with (h_max h). change (Z.of_nat NUM) with 8.
  destruct (Z.eqb_spec (h_max h) 0); [done|]. destruct (Z.ltb_spec (h_max h) 8); [done|].
  set (s1 := with_dev d (negotiated h) s). assert (kinv kend PHYSTOP (i_km s1) l) as K1 by done. assert (d < length (i_dev s1))%nat as Hd1 by (cbn; by rewrite length_insert).
  destruct (Nat.ltb_spec (length l) 3) as [Hl|Hl]; [unfold bind; by rewrite (give_queue_fails d l s1)|].
  destruct l as [|p1 [|p2 [|p3 l]]]; [cbn in Hl; lia..|].
  destruct (give_queue_run d h p1 p2 p3 l s1) as (s2 & E2 & D2 & I2 & K2 & M2); [done|by apply with_dev_at|done|done|].
  rewrite (bind_ok _ _ _ _ _ E2). assert (s2 = with_dev d (queued h p1 p2 p3 1 11) s2) as E3 by (destruct s2 as [k dv ds]; unfold with_dev; cbn in *; f_equal; symmetry; apply list_insert_id; rewrite D2; by apply list_lookup_insert_eq).
  assert (d < length (i_dev s2))%nat as Hd2 by (rewrite D2, length_insert; done).
  rewrite E3, W_run by done. eexists p1, p2, p3, l, _. split; [done|]. split; [reflexivity|]. constructor; try done.
  cbn [with_dev i_dev]. rewrite D2. cbn [s1 with_dev i_dev]. rewrite !list_insert_insert_eq. f_equal.
  change (queued h p1 p2 p3 1 (if true && negb (h_accepts h (agreed (h_features h))) then 7 else 15) = queued h p1 p2 p3 1 15). by rewrite Ha.
Qed.

(** The disk is live: the device has accepted the driver without a breach of
    protocol, and it has the three zeroed pages that the driver works with as
    the parts of a queue of NUM entries. *)
Record ready (s : vini) (d : nat) (h : hw) (p1 p2 p3 : Z) : Prop := Ready {
  rd_dev : i_dev s !! d = Some (queued h p1 p2 p3 1 15);
  rd_disk : i_disk s !! d = Some (Vdisk p1 p2 p3 (replicate NUM true));
  rd_zero : forall a, in_page p1 a || in_page p2 a || in_page p3 a = true -> km_mem (i_km s) a = 0
}.

(** The devices are tried in order, each takes three pages. *)
Fixpoint verdicts (hs : list hw) (pages : list Z) : option string :=
  match hs with
  | [] => None
  | h :: hs' => match verdict h pages with Some m => Some m | None => verdicts hs' (drop 3 pages) end
  end.

Definition sane (h : hw) : Prop := 0 <= h_features h < 2 ^ 32 /\ 0 <= h_max h.

Lemma init_from hs : forall d0 l s, v_hw <$> drop d0 (i_dev s) = hs -> length (i_disk s) = length (i_dev s) -> Forall sane hs -> kinv kend PHYSTOP (i_km s) l ->
  match verdicts hs l with
  | Some m => for_each (seq d0 (length hs)) hal_disk_init_one s = Fault (FPanic m)
  | None => exists s', for_each (seq d0 (length hs)) hal_disk_init_one s = Ok (tt, s') /\ kinv kend PHYSTOP (i_km s') (drop (3 * length hs) l) /\
      (forall i h, hs !! i = Some h -> exists p1 p2 p3, take 3 (drop (3 * i) l) = [p1; p2; p3] /\ ready s' (d0 + i) h p1 p2 p3) /\
      (forall d, (d < d0)%nat -> i_dev s' !! d = i_dev s !! d /\ i_disk s' !! d = i_disk s !! d) /\
      (forall a, km_mem (i_km s) a = 0 -> km_mem (i_km s') a = 0)
  end.
Proof.
  induction hs as [|h hs IH]; intros d0 l s Hh Hlen Hs K; cbn [verdicts length seq for_each].
  - exists s. split_and!; [done|by rewrite drop_0|by intros i h Hi|done|done].
  - destruct (drop d0 (i_dev s)) as [|v vs] eqn:Ed; [done|]. cbn in Hh. injection Hh as Eh Hvs.
    assert (i_dev s !! d0 = Some v) as Hv by (rewrite <-(Nat.add_0_r d0), <-lookup_drop, Ed; done).
    pose proof (lookup_lt_Some _ _ _ Hv) as Hd. apply Forall_cons in Hs as [[Hf Hm] Hs]. rewrite <-Eh in Hf, Hm.
    pose proof (init_one_run d0 v l s Hd Hv Hf Hm K) as H1. rewrite Eh in H1. destruct (verdict h l) as [m|]; [unfold bind; by rewrite H1|].
    destruct H1 as (p1 & p2 & p3 & l' & s1 & El & E1 & [D1 I1 K1 M1]).
    assert (drop 3 l = l') as Edl by (by rewrite El). rewrite Edl.
    specialize (IH (S d0) l' s1). assert (drop (S d0) (i_dev s1) = vs) as Edv.
    { rewrite D1, drop_insert_lt by lia. replace (S d0) with (d0 + 1)%nat by lia. rewrite <-drop_drop, Ed. done. }
    rewrite Edv in IH. specialize (IH Hvs ltac:(rewrite D1, I1, !length_insert; done) Hs K1).
    destruct (verdicts hs l') as [m|]; [by rewrite (bind_ok _ _ _ _ _ E1)|].
    destruct IH as (s2 & E2 & K2 & R2 & F2 & Z2). exists s2. rewrite (bind_ok _ _ _ _ _ E1). split_and!; [done| | | |].
    + rewrite <-Edl, drop_drop in K2. replace (3 * S (length hs))%nat with (3 + 3 * length hs)%nat by lia. done.
    + intros [|i] h' Hi; cbn in Hi.
      * injection Hi as <-. exists p1, p2, p3. rewrite El. split; [done|]. rewrite Nat.add_0_r. destruct (F2 d0 ltac:(lia)) as [G1 G2]. constructor.
        -- rewrite G1, D1. by apply list_lookup_insert_eq.
        -- rewrite G2, I1. apply list_lookup_insert_eq. by rewrite Hlen.
        -- intros a Ha. apply Z2. by rewrite M1, Ha.
      * destruct (R2 i h' Hi) as (q1 & q2 & q3 & Eq & Rq). exists q1, q2, q3. rewrite <-Edl, drop_drop in Eq. replace (3 * S i)%nat with (3 + 3 * i)%nat by lia. split; [done|].
        by replace (d0 + S i)%nat with (S d0 + i)%nat by lia.
    + intros d Hdl. destruct (F2 d ltac:(lia)) as [-> ->]. rewrite D1, I1, !list_lookup_insert_ne by lia. done.
    + intros a Ha. apply Z2. rewrite M1. by destruct (_ || _ || _).
Qed.
End Init.

(** A 64-bit address in two registers. *)
Lemma addr_halves p : 0 <= p < 2 ^ 64 -> u32 p + 2 ^ 32 * u32 (Z.shiftr p 32) = p.
Proof. intros Hp. rewrite Z.shiftr_div_pow2 by lia. unfold u32. dlia. Qed.


(** The page that the device puts done requests into. *)
Definition v_used_page (v : mmio) : Z := v_dev_lo v + 2 ^ 32 * v_dev_hi v.

Definition ex_hw : hw := Hw 1953655158 2 2 1431127377 (2 ^ 32 - 1) (fun f => negb (Z.testbit f F_RO)) 1024.
Definition ex_pages : list Z := (fun i => 4096 * Z.of_nat i) <$> seq 1 10.
Definition ex_mem : memory := foldr (fun p m => store64 m p (if p =? 40960 then 0 else p + 4096)) (fun _ => 1) ex_pages.
Definition ex_vini : vini := Vini (Kmem ex_mem 4096) (replicate 3 (Mmio ex_hw 4 0 0 0 1 0 0 0 0 0 0 false)) (replicate 3 (Vdisk 0 0 0 [])).

