(* ===== verification/Bio.v ===== *)
(** Bio: kernel/bio.c, the buffer cache.

    [bcache] is the array of buffers, the LRU list (from [head.next], the most
    recently used, to [head.prev]) as a list of buffer indices, and the disks.
    [view] is what the cache promises its clients: the contents of every block
    of every disk as seen through the cache.  The operations keep [inv] and
    act on [view] as reads and writes of a flat disk would. *)

From S2P Require Import Prelude Locks.

Definition NBUF : nat := 30.
Definition HAL_NDISK : Z := 3.

Record buf : Type := Buf {
  b_valid : bool;
  b_dev : Z;
  b_blockno : Z;
  b_lock : Sleep.sleeplock;
  b_refcnt : Z;
  b_data : list Z
}.

Record bcache : Type := Bcache {
  bufs : list buf;
  lru : list nat;
  disk : Z -> Z -> list Z
}.

Definition set_bufs (l : list buf) (s : bcache) : bcache := Bcache l (lru s) (disk s).
Definition set_lru (l : list nat) (s : bcache) : bcache := Bcache (bufs s) l (disk s).
Definition upd_buf (i : nat) (f : buf -> buf) (s : bcache) : bcache :=
  set_bufs (alter f i (bufs s)) s.

Definition set_valid (v : bool) (b : buf) : buf :=
  Buf v (b_dev b) (b_blockno b) (b_lock b) (b_refcnt b) (b_data b).
Definition set_lock (k : Sleep.sleeplock) (b : buf) : buf :=
  Buf (b_valid b) (b_dev b) (b_blockno b) k (b_refcnt b) (b_data b).
Definition add_ref (n : Z) (b : buf) : buf :=
  Buf (b_valid b) (b_dev b) (b_blockno b) (b_lock b) (b_refcnt b + n) (b_data b).
Definition set_data (d : list Z) (b : buf) : buf :=
  Buf (b_valid b) (b_dev b) (b_blockno b) (b_lock b) (b_refcnt b) d.

(** The buffer a pointer denotes. *)
Definition getbuf (i : nat) : M bcache buf :=
  fun s => match bufs s !! i with Some b => Ok (b, s) | None => Fault FNull end.

(** The lock operations on [b->lock]. *)
Definition on_lock {A} (i : nat) (m : M Sleep.sleeplock A) : M bcache A :=
  b <- getbuf i ;;
  fun s => match m (b_lock b) with
           | Ok (a, k) => Ok (a, upd_buf i (set_lock k) s)
           | Fault e => Fault e
           end.

Section bio.

(** The current process. *)
Context (mypid : Z).

(** Every buffer is linked in front of the previous one. *)
Definition binit (d : Z -> Z -> list Z) : bcache :=
  Bcache (replicate NBUF (Buf false 0 0 Sleep.initsleeplock 0 zero_block))
         (reverse (seq 0 NBUF)) d.

Definition is_block (dev blockno : Z) (b : buf) : bool :=
  (b_dev b =? dev) && (b_blockno b =? blockno).

(** First buffer of a list of indices that satisfies a test. *)
Fixpoint scan (p : buf -> bool) (l : list nat) (bs : list buf) : option nat :=
  match l with
  | [] => None
  | i :: l' =>
      match bs !! i with
      | Some b => if p b then Some i else scan p l' bs
      | None => scan p l' bs
      end
  end.

Definition bget (dev blockno : Z) : M bcache nat :=
  fun s =>
    match scan (is_block dev blockno) (lru s) (bufs s) with
    | Some i =>
        (modify (upd_buf i (add_ref 1)) ;;;
         on_lock i (Sleep.acquiresleep mypid) ;;; ret i) s
    | None =>
        match scan (fun b => b_refcnt b =? 0) (reverse (lru s)) (bufs s) with
        | Some i =>
            (modify (upd_buf i (fun b => Buf false dev blockno (b_lock b) 1 (b_data b))) ;;;
             on_lock i (Sleep.acquiresleep mypid) ;;; ret i) s
        | None => Fault (FPanic "bget: no buffers")
        end
    end.

(** The block device: [hal_disk_rw(b, 0)] reads, [hal_disk_rw(b, 1)] writes. *)
Definition hal_disk_rw (i : nat) (write : bool) : M bcache unit :=
  b <- getbuf i ;;
  if write
  then modify (fun s =>
         Bcache (bufs s) (lru s)
           (fun d n => if (d =? b_dev b) && (n =? b_blockno b) then b_data b else disk s d n))
  else modify (fun s => upd_buf i (set_data (disk s (b_dev b) (b_blockno b))) s).

Definition bread (dev blockno : Z) : M bcache (option nat) :=
  if (dev <? 1) || (dev >? HAL_NDISK) then ret None
  else
    i <- bget dev blockno ;;
    b <- getbuf i ;;
    when (negb (b_valid b))
      (hal_disk_rw i false ;;; modify (upd_buf i (set_valid true))) ;;;
    ret (Some i).

Definition bwrite (i : nat) : M bcache unit :=
  h <- on_lock i (Sleep.holdingsleep mypid) ;;
  if negb h then panic "bwrite" else hal_disk_rw i true.

(** Unlink from the LRU list and relink behind the head. *)
Definition to_front (i : nat) (l : list nat) : list nat :=
  i :: filter (fun j => j <> i) l.

Definition brelse (i : nat) : M bcache unit :=
  h <- on_lock i (Sleep.holdingsleep mypid) ;;
  if negb h then panic "brelse"
  else
    on_lock i Sleep.releasesleep ;;;
    modify (upd_buf i (add_ref (-1))) ;;;
    b <- getbuf i ;;
    when (b_refcnt b =? 0) (modify (fun s => set_lru (to_front i (lru s)) s)).

Definition bpin (i : nat) : M bcache unit := modify (upd_buf i (add_ref 1)).
Definition bunpin (i : nat) : M bcache unit := modify (upd_buf i (add_ref (-1))).

(** A store into [b->data] by the holder of the buffer. *)
Definition bstore (i : nat) (d : list Z) : M bcache unit := modify (upd_buf i (set_data d)).

(** *** The promise: one buffer per block, and the contents seen through it *)

Definition cached (s : bcache) (dev blockno : Z) : option buf :=
  match scan (is_block dev blockno) (lru s) (bufs s) with
  | Some i => bufs s !! i
  | None => None
  end.

Definition view (s : bcache) (dev blockno : Z) : list Z :=
  match cached s dev blockno with
  | Some b => if b_valid b then b_data b else disk s dev blockno
  | None => disk s dev blockno
  end.

Record inv (s : bcache) : Prop := Inv {
  inv_len : length (bufs s) = NBUF;
  inv_lru : lru s ≡ₚ seq 0 NBUF;
  inv_uniq : forall i j b c, bufs s !! i = Some b -> bufs s !! j = Some c ->
    b_dev b <> 0 -> b_dev b = b_dev c -> b_blockno b = b_blockno c -> i = j;
  inv_ref : forall i b, bufs s !! i = Some b ->
    0 <= b_refcnt b /\ (Sleep.sl_locked (b_lock b) = true -> 1 <= b_refcnt b);
  inv_valid : forall i b, bufs s !! i = Some b -> b_valid b = true -> b_dev b <> 0;
  inv_clean : forall i b, bufs s !! i = Some b -> b_refcnt b = 0 -> b_valid b = true ->
    b_data b = disk s (b_dev b) (b_blockno b)
}.

(** Process [mypid] holds buffer [i], which caches block [blockno] of [dev]. *)
Definition holds (s : bcache) (i : nat) (dev blockno : Z) : Prop :=
  exists b, bufs s !! i = Some b /\ b_dev b = dev /\ b_blockno b = blockno /\
    b_valid b = true /\ 1 <= b_refcnt b /\ b_lock b = Sleep.Sleeplock true mypid.

(** *** Lemmas *)

Lemma scan_Some p l bs i :
  scan p l bs = Some i -> i ∈ l /\ exists b, bs !! i = Some b /\ p b = true.
Proof.
  induction l as [|j l IH]; cbn; [done|].
  destruct (bs !! j) as [b|] eqn:E; [destruct (p b) eqn:Ep|]; intros H.
  - injection H as <-. split; [left|eauto].
  - destruct (IH H) as [? ?]. split; [by right|done].
  - destruct (IH H) as [? ?]. split; [by right|done].
Qed.

Lemma scan_None p l bs i b :
  scan p l bs = None -> i ∈ l -> bs !! i = Some b -> p b = false.
Proof.
  induction l as [|j l IH]; cbn; [by intros _ ?%elem_of_nil|].
  intros H Hi Hb. apply elem_of_cons in Hi as [->|Hi].
  - rewrite Hb in H. by destruct (p b).
  - apply IH; [|done..]. destruct (bs !! j) as [c|]; [by destruct (p c)|done].
Qed.

Lemma is_block_true dev n b : is_block dev n b = true <-> b_dev b = dev /\ b_blockno b = n.
Proof. unfold is_block. lia. Qed.

Lemma in_lru s i b : inv s -> bufs s !! i = Some b -> i ∈ lru s.
Proof.
  intros Hi Hb. rewrite (inv_lru s Hi). apply elem_of_seq.
  apply lookup_lt_Some in Hb. rewrite (inv_len s Hi) in Hb. lia.
Qed.

Lemma cached_Some s i b :
  inv s -> bufs s !! i = Some b -> b_dev b <> 0 ->
  scan (is_block (b_dev b) (b_blockno b)) (lru s) (bufs s) = Some i.
Proof.
  intros Hinv Hb Hd. destruct (scan _ _ _) as [j|] eqn:E.
  - apply scan_Some in E as (_ & c & Hc & Hp). apply is_block_true in Hp as [H1 H2].
    f_equal. symmetry. by eapply (inv_uniq s Hinv i j).
  - apply (scan_None _ _ _ i b) in E; [|by eapply in_lru|done].
    unfold is_block in E. lia.
Qed.

Lemma view_buf s i b :
  inv s -> bufs s !! i = Some b -> b_dev b <> 0 -> b_valid b = true ->
  view s (b_dev b) (b_blockno b) = b_data b.
Proof.
  intros Hinv Hb Hd Hv. unfold view, cached. rewrite (cached_Some s i b) by done.
  by rewrite Hb, Hv.
Qed.

(** The view read off any buffer that caches the block. *)
Lemma view_inv s dev n :
  inv s ->
  (exists i b, bufs s !! i = Some b /\ b_dev b = dev /\ b_blockno b = n /\
     b_valid b = true /\ view s dev n = b_data b) \/
  ((forall i b, bufs s !! i = Some b -> b_dev b = dev -> b_blockno b = n ->
      dev <> 0 -> b_valid b = false) /\ view s dev n = disk s dev n).
Proof.
  intros Hinv. unfold view, cached. destruct (scan _ _ _) as [i|] eqn:E.
  - pose proof E as E'. apply scan_Some in E as (_ & b & Hb & Hp).
    apply is_block_true in Hp as [H1 H2]. rewrite Hb. destruct (b_valid b) eqn:Ev.
    + left. eauto 10.
    + right. split; [|done]. intros j c Hc H3 H4 Hd.
      assert (i = j) as <- by (eapply (inv_uniq s Hinv i j b c); congruence).
      congruence.
  - right. split; [|done]. intros i b Hb H1 H2 Hd.
    apply (scan_None _ _ _ i b) in E; [|by eapply in_lru|done].
    unfold is_block in E. lia.
Qed.

Lemma view_ext s s' dev n :
  inv s -> inv s' -> dev <> 0 ->
  (forall i b, bufs s !! i = Some b -> b_dev b = dev -> b_blockno b = n -> b_valid b = true ->
     exists b', bufs s' !! i = Some b' /\ b_dev b' = dev /\ b_blockno b' = n /\
       b_valid b' = true /\ b_data b' = b_data b) ->
  (forall i b', bufs s' !! i = Some b' -> b_dev b' = dev -> b_blockno b' = n ->
     b_valid b' = true -> b_data b' = view s dev n) ->
  (view s dev n = disk s dev n -> disk s' dev n = disk s dev n \/
     exists i b', bufs s' !! i = Some b' /\ b_dev b' = dev /\ b_blockno b' = n /\ b_valid b' = true) ->
  view s' dev n = view s dev n.
Proof.
  intros Hi Hi' Hd H1 H2 H3.
  destruct (view_inv s' dev n Hi') as [(i & b & Hb & E1 & E2 & Hv & ->)|[Hnone Hd']].
  - eapply H2; eauto.
  - destruct (view_inv s dev n Hi) as [(i & b & Hb & E1 & E2 & Hv & Hvw)|[_ Hvw]].
    + destruct (H1 i b Hb E1 E2 Hv) as (b' & Hb' & E1' & E2' & Hv' & _).
      specialize (Hnone i b' Hb' E1' E2' Hd). congruence.
    + rewrite Hd', Hvw. destruct (H3 Hvw) as [->|(i & b' & Hb' & E1' & E2' & Hv')]; [done|].
      specialize (Hnone i b' Hb' E1' E2' Hd). congruence.
Qed.

(** Every operation rewrites one buffer: a normal form for the results. *)
Definition put (i : nat) (b : buf) (s : bcache) : bcache := set_bufs (<[i := b]> (bufs s)) s.

Lemma upd_put s i b f : bufs s !! i = Some b -> upd_buf i f s = put i (f b) s.
Proof.
  intros Hb. unfold upd_buf, put. f_equal. apply list_eq. intros j.
  destruct (decide (j = i)) as [->|Hne].
  - rewrite list_lookup_alter_eq, Hb, list_lookup_insert_eq; [done|].
    by eapply lookup_lt_Some.
  - by rewrite list_lookup_alter_ne, list_lookup_insert_ne by done.
Qed.

Lemma put_lookup s i b b' : bufs s !! i = Some b -> bufs (put i b' s) !! i = Some b'.
Proof. intros Hb. apply list_lookup_insert_eq. by eapply lookup_lt_Some. Qed.

Lemma put_lookup_ne s i j b' : j <> i -> bufs (put i b' s) !! j = bufs s !! j.
Proof. intros. by apply list_lookup_insert_ne. Qed.

Lemma put_put s i b b' : put i b' (put i b s) = put i b' s.
Proof. unfold put, set_bufs. cbn. by rewrite list_insert_insert_eq. Qed.

Lemma getbuf_ok s i b : bufs s !! i = Some b -> getbuf i s = Ok (b, s).
Proof. unfold getbuf. by intros ->. Qed.

Lemma getbuf_put s i b b' : bufs s !! i = Some b -> getbuf i (put i b' s) = Ok (b', put i b' s).
Proof. intros Hb. apply getbuf_ok. by eapply put_lookup. Qed.

Ltac putcases i j H :=
  destruct (decide (j = i)) as [->|?];
  [erewrite put_lookup in H by eassumption; injection H as <-
  |rewrite put_lookup_ne in H by done].

Lemma inv_put s i b b' :
  inv s -> bufs s !! i = Some b ->
  (forall j c, j <> i -> bufs s !! j = Some c -> b_dev b' <> 0 ->
     b_dev b' = b_dev c -> b_blockno b' = b_blockno c -> False) ->
  0 <= b_refcnt b' /\ (Sleep.sl_locked (b_lock b') = true -> 1 <= b_refcnt b') ->
  (b_valid b' = true -> b_dev b' <> 0) ->
  (b_refcnt b' = 0 -> b_valid b' = true ->
     b_data b' = disk s (b_dev b') (b_blockno b')) ->
  inv (put i b' s).
Proof.
  intros Hi Hb Hu Hr Hv Hc. constructor.
  - cbn. rewrite length_insert. apply Hi.
  - apply Hi.
  - intros j k c d Hj Hk Hd E1 E2. putcases i j Hj; putcases i k Hk.
    + done.
    + exfalso. by eapply (Hu k d).
    + exfalso. eapply (Hu j c); try done; congruence.
    + by eapply (inv_uniq s Hi j k).
  - intros j c Hj. putcases i j Hj; [done|]. by eapply (inv_ref s Hi).
  - intros j c Hj. putcases i j Hj; [done|]. by eapply (inv_valid s Hi).
  - intros j c Hj. putcases i j Hj; [done|]. by eapply (inv_clean s Hi).
Qed.

Lemma uniq_same s i b b' j c :
  inv s -> bufs s !! i = Some b -> b_dev b' = b_dev b -> b_blockno b' = b_blockno b ->
  j <> i -> bufs s !! j = Some c -> b_dev b' <> 0 ->
  b_dev b' = b_dev c -> b_blockno b' = b_blockno c -> False.
Proof.
  intros Hi Hb E1 E2 Hne Hj Hd E3 E4. apply Hne. symmetry.
  eapply (inv_uniq s Hi i j b c); congruence.
Qed.

(** The view after rewriting buffer [i]: on the block the new buffer caches,
    its data; on the others, the old view, provided the buffer's old contents
    were on disk when it changes block. *)
Lemma view_put_same s i b b' :
  inv s -> inv (put i b' s) -> bufs s !! i = Some b ->
  b_dev b' <> 0 -> b_valid b' = true ->
  view (put i b' s) (b_dev b') (b_blockno b') = b_data b'.
Proof. intros Hi Hi' Hb Hd Hv. apply (view_buf _ i); try done. by eapply put_lookup. Qed.

Lemma view_put_other s i b b' dev n :
  inv s -> inv (put i b' s) -> bufs s !! i = Some b -> dev <> 0 ->
  (b_dev b' <> dev \/ b_blockno b' <> n) ->
  (b_dev b <> dev \/ b_blockno b <> n \/ b_valid b = false \/ b_data b = disk s dev n) ->
  view (put i b' s) dev n = view s dev n.
Proof.
  intros Hi Hi' Hb Hd Hne Hold.
  destruct (view_inv s dev n Hi) as [(j & c & Hj & E1 & E2 & Hv & Hvw)|[Hnone Hvw]].
  - destruct (decide (j = i)) as [->|Hji].
    + assert (c = b) as -> by congruence.
      destruct (view_inv _ dev n Hi') as [(k & d & Hk & F1 & F2 & _)|[_ ->]].
      * putcases i k Hk; [destruct Hne; congruence|]. exfalso.
        assert (i = k) by (eapply (inv_uniq s Hi i k b d); congruence). congruence.
      * rewrite Hvw. cbn [put set_bufs disk].
        destruct Hold as [?|[?|[?|Ho]]]; congruence.
    + rewrite Hvw, <-E1, <-E2. apply (view_buf _ j); [done| |congruence|done].
      by rewrite put_lookup_ne.
  - rewrite Hvw. destruct (view_inv _ dev n Hi') as [(k & d & Hk & F1 & F2 & Hv & _)|[_ ->]].
    + putcases i k Hk; [destruct Hne; congruence|]. exfalso.
      specialize (Hnone k d Hk F1 F2 Hd). congruence.
    + done.
Qed.

(** What [bread] returns, case by case. *)
Definition unlocked (b : buf) : Prop := Sleep.sl_locked (b_lock b) = false.
Definition mine : Sleep.sleeplock := Sleep.Sleeplock true mypid.

Lemma on_lock_acquire s i b :
  bufs s !! i = Some b -> unlocked b ->
  on_lock i (Sleep.acquiresleep mypid) s = Ok (tt, put i (set_lock mine b) s).
Proof.
  intros Hb Hu. unfold on_lock. erewrite bind_ok by (by apply getbuf_ok).
  unfold Sleep.acquiresleep. rewrite Hu. by erewrite upd_put.
Qed.

Lemma bread_tail s i b dev n :
  bufs s !! i = Some b -> b_dev b = dev -> b_blockno b = n ->
  (b0 <- getbuf i ;;
   when (negb (b_valid b0)) (hal_disk_rw i false ;;; modify (upd_buf i (set_valid true))) ;;;
   ret (Some i)) s =
  Ok (Some i, put i (Buf true dev n (b_lock b) (b_refcnt b)
                       (if b_valid b then b_data b else disk s dev n)) s).
Proof.
  intros Hb <- <-. erewrite bind_ok by (by apply getbuf_ok).
  destruct b as [v d k lk r dt]; cbn in *. destruct v; cbn.
  - unfold bind, ret; cbn. do 2 f_equal. unfold put, set_bufs.
    rewrite list_insert_id by done. by destruct s.
  - unfold bind, hal_disk_rw, bind. rewrite (getbuf_ok s i _ Hb). cbn.
    rewrite (upd_put _ _ _ _ Hb). erewrite upd_put by (by eapply put_lookup).
    by rewrite put_put.
Qed.

Lemma bread_hit s dev n i b :
  1 <= dev <= HAL_NDISK ->
  scan (is_block dev n) (lru s) (bufs s) = Some i -> bufs s !! i = Some b -> unlocked b ->
  bread dev n s =
  Ok (Some i, put i (Buf true dev n mine (b_refcnt b + 1)
                       (if b_valid b then b_data b else disk s dev n)) s).
Proof.
  intros Hd Hs Hb Hu. unfold bread.
  assert (((dev <? 1) || (dev >? HAL_NDISK)) = false) as -> by lia.
  pose proof Hs as (_ & c & Hc & Hp)%scan_Some. assert (c = b) as -> by congruence.
  apply is_block_true in Hp as [E1 E2].
  assert (bget dev n s = Ok (i, put i (Buf (b_valid b) dev n mine (b_refcnt b + 1) (b_data b)) s)) as Hg.
  { unfold bget. rewrite Hs. unfold bind at 1, modify. rewrite (upd_put _ _ _ _ Hb).
    erewrite bind_ok by (apply on_lock_acquire; [by eapply put_lookup|done]).
    rewrite put_put. unfold ret. do 3 f_equal. unfold set_lock, add_ref; cbn. congruence. }
  rewrite (bind_ok _ _ _ _ _ Hg), (bread_tail _ _ _ dev n (put_lookup _ _ _ _ Hb)) by done.
  by rewrite put_put.
Qed.

Lemma bread_miss s dev n i b :
  inv s -> 1 <= dev <= HAL_NDISK ->
  scan (is_block dev n) (lru s) (bufs s) = None ->
  scan (fun b => b_refcnt b =? 0) (reverse (lru s)) (bufs s) = Some i ->
  bufs s !! i = Some b ->
  bread dev n s = Ok (Some i, put i (Buf true dev n mine 1 (disk s dev n)) s).
Proof.
  intros Hi Hd Hn Hs Hb. unfold bread.
  assert (((dev <? 1) || (dev >? HAL_NDISK)) = false) as -> by lia.
  pose proof Hs as (_ & c & Hc & Hp)%scan_Some. assert (c = b) as -> by congruence.
  assert (unlocked b) as Hu.
  { unfold unlocked. destruct (inv_ref s Hi i b Hb) as [_ Hl].
    destruct (Sleep.sl_locked (b_lock b)); [specialize (Hl eq_refl); lia|done]. }
  assert (bget dev n s = Ok (i, put i (Buf false dev n mine 1 (b_data b)) s)) as Hg.
  { unfold bget. rewrite Hn, Hs. unfold bind at 1, modify. rewrite (upd_put _ _ _ _ Hb).
    erewrite bind_ok by (apply on_lock_acquire; [by eapply put_lookup|done]).
    by rewrite put_put. }
  rewrite (bind_ok _ _ _ _ _ Hg), (bread_tail _ _ _ dev n (put_lookup _ _ _ _ Hb)) by done.
  by rewrite put_put.
Qed.

(** A block can be read: it is cached by an unlocked buffer, or it is not
    cached and some buffer is unused. *)
Definition can_read (s : bcache) (dev n : Z) : Prop :=
  match scan (is_block dev n) (lru s) (bufs s) with
  | Some i => exists b, bufs s !! i = Some b /\ unlocked b
  | None => is_Some (scan (fun b => b_refcnt b =? 0) (reverse (lru s)) (bufs s))
  end.

Lemma bread_ok s dev n :
  inv s -> 1 <= dev <= HAL_NDISK -> can_read s dev n ->
  exists i s', bread dev n s = Ok (Some i, s') /\ inv s' /\ holds s' i dev n /\
    (forall d k, 1 <= d -> view s' d k = view s d k) /\
    (forall j c d k, j <> i -> bufs s !! j = Some c -> holds s j d k -> holds s' j d k).
Proof.
  intros Hi Hd Hc. unfold can_read in Hc. destruct (scan _ _ _) as [i|] eqn:E.
  - destruct Hc as (b & Hb & Hu). pose proof (bread_hit s dev n i b Hd E Hb Hu) as Hr.
    pose proof E as (_ & c & Hc & Hp)%scan_Some. assert (c = b) as -> by congruence.
    apply is_block_true in Hp as [E1 E2].
    set (b' := Buf true dev n _ _ _) in Hr.
    pose proof (inv_ref s Hi i b Hb) as [Hr0 _].
    assert (inv (put i b' s)) as Hi'.
    { apply (inv_put s i b); cbn; try done; try lia.
      intros j c' Hne Hj. apply (uniq_same s i b b' j c'); try done; cbn; congruence. }
    eexists _, _. split; [exact Hr|]. split_and!; [done| | |].
    + exists b'. split; [by eapply put_lookup|]. cbn. split_and!; try done. lia.
    + intros d k Hd1. destruct (decide (d = dev /\ k = n)) as [[-> ->]|Hne].
      * etransitivity; [apply (view_put_same s i b b'); try done; cbn; lia|].
        cbn. unfold view, cached. rewrite E, Hb. done.
      * apply (view_put_other s i b); try done; [lia| |]; cbn;
          destruct (decide (d = dev)); destruct (decide (k = n)); intuition congruence.
    + intros j c' d k Hne _ (x & Hx & Hx'). exists x. by rewrite put_lookup_ne.
  - destruct Hc as [i Hs]. pose proof Hs as (_ & b & Hb & Hp)%scan_Some.
    pose proof (bread_miss s dev n i b Hi Hd E Hs Hb) as Hr.
    set (b' := Buf true dev n _ _ _) in Hr.
    assert (inv (put i b' s)) as Hi'.
    { apply (inv_put s i b); cbn; try done; try lia.
      intros j c' Hne Hj _ E1 E2. pose proof (scan_None _ _ _ j c' E) as Hf.
      rewrite (proj2 (is_block_true dev n c')) in Hf by done.
      discriminate Hf; [by eapply in_lru|done]. }
    eexists _, _. split; [exact Hr|]. split_and!; [done| | |].
    + exists b'. split; [by eapply put_lookup|]. done.
    + intros d k Hd1. destruct (decide (d = dev /\ k = n)) as [[-> ->]|Hne].
      * etransitivity; [apply (view_put_same s i b b'); try done; cbn; lia|].
        cbn. unfold view, cached. by rewrite E.
      * apply (view_put_other s i b); try done; [lia| |]; cbn.
        -- destruct (decide (d = dev)); destruct (decide (k = n)); intuition congruence.
        -- destruct (b_valid b) eqn:Ev; [|tauto].
           destruct (decide (b_dev b = d)) as [<-|]; [|tauto].
           destruct (decide (b_blockno b = k)) as [<-|]; [|tauto].
           right; right; right. apply (inv_clean s Hi i); [done|lia|done].
    + intros j c' d k Hne _ (x & Hx & Hx'). exists x. by rewrite put_lookup_ne.
Qed.

Lemma holds_holding s i dev n :
  holds s i dev n -> on_lock i (Sleep.holdingsleep mypid) s = Ok (true, s).
Proof.
  intros (b & Hb & _ & _ & _ & _ & Hl). unfold on_lock.
  erewrite bind_ok by (by apply getbuf_ok). rewrite Hl.
  unfold Sleep.holdingsleep, gets. cbn. rewrite Z.eqb_refl. do 2 f_equal.
  rewrite (upd_put _ _ _ _ Hb). unfold put, set_bufs.
  rewrite list_insert_id; [by destruct s|].
  rewrite Hb. unfold set_lock. rewrite <-Hl. by destruct b.
Qed.

Lemma bstore_ok s i dev n d :
  inv s -> 1 <= dev -> holds s i dev n ->
  exists s', bstore i d s = Ok (tt, s') /\ inv s' /\ holds s' i dev n /\
    view s' dev n = d /\ disk s' = disk s /\
    (forall e k, 1 <= e -> e <> dev \/ k <> n -> view s' e k = view s e k).
Proof.
  intros Hi Hd (b & Hb & E1 & E2 & Hv & Hr & Hl). unfold bstore, modify.
  rewrite (upd_put _ _ _ _ Hb). set (b' := set_data d b).
  assert (inv (put i b' s)) as Hi'.
  { apply (inv_put s i b); cbn; try done; try lia.
    intros j c' Hne Hj. by apply (uniq_same s i b b' j c'). }
  eexists. split; [done|]. split_and!; [done| | |done|].
  - exists b'. split; [by eapply put_lookup|]. done.
  - rewrite <-E1, <-E2. by apply (view_put_same s i b b'); cbn; try lia.
  - intros e k He Hne. apply (view_put_other s i b); try done; cbn; try lia;
      destruct Hne; solve [left; congruence | right; congruence | right; left; congruence].
Qed.

Lemma bwrite_ok s i dev n :
  inv s -> 1 <= dev -> holds s i dev n ->
  exists s', bwrite i s = Ok (tt, s') /\ inv s' /\ holds s' i dev n /\
    disk s' dev n = view s dev n /\
    (forall e k, 1 <= e -> view s' e k = view s e k) /\
    (forall e k, e <> dev \/ k <> n -> disk s' e k = disk s e k).
Proof.
  intros Hi Hd Hh. pose proof Hh as (b & Hb & E1 & E2 & Hv & Hr & Hl).
  unfold bwrite. rewrite (bind_ok _ _ _ _ _ (holds_holding s i dev n Hh)). cbn [negb].
  unfold hal_disk_rw. erewrite bind_ok by (by apply getbuf_ok). unfold modify.
  eexists. split; [reflexivity|].
  set (s' := Bcache _ _ _).
  assert (b_dev b <> 0) as Hd0 by lia.
  assert (inv s') as Hi'.
  { constructor; try apply Hi. intros j c Hj Hc Hcv. cbn.
    destruct (_ && _) eqn:E; [|by apply (inv_clean s Hi j)].
    assert (j = i) as -> by (eapply (inv_uniq s Hi j i c b); try done; lia).
    cbn in Hj. congruence. }
  split_and!; [done| | | |].
  - by exists b.
  - cbn. rewrite <-E1, <-E2, !Z.eqb_refl. cbn. symmetry. by apply (view_buf s i).
  - intros e k He. unfold view, cached. cbn. destruct (scan _ _ _) as [j|] eqn:E.
    + pose proof E as (_ & c & Hc & Hp)%scan_Some. apply is_block_true in Hp as [F1 F2].
      rewrite Hc. destruct (b_valid c) eqn:Ev; [done|].
      destruct (_ && _) eqn:Eq; [|done]. exfalso.
      assert (j = i) as -> by (eapply (inv_uniq s Hi j i c b); try done; lia).
      congruence.
    + destruct (_ && _) eqn:Eq; [|done]. exfalso.
      apply (scan_None _ _ _ i b) in E; [|by eapply in_lru|done].
      unfold is_block in E. lia.
  - intros e k Hne. cbn. destruct (_ && _) eqn:Eq; [|done]. lia.
Qed.

Lemma to_front_perm i l : NoDup l -> i ∈ l -> to_front i l ≡ₚ l.
Proof.
  intros Hnd Hi. unfold to_front.
  apply NoDup_Permutation; [|done|].
  - constructor; [|by apply NoDup_filter]. rewrite list_elem_of_filter. tauto.
  - intros x. rewrite elem_of_cons, list_elem_of_filter.
    destruct (decide (x = i)) as [->|]; [tauto|]. tauto.
Qed.

Lemma scan_uniq_perm p l l' bs :
  l ≡ₚ l' ->
  (forall i j b c, i ∈ l -> j ∈ l -> bs !! i = Some b -> bs !! j = Some c ->
     p b = true -> p c = true -> i = j) ->
  scan p l bs = scan p l' bs.
Proof.
  intros Hp Hu. destruct (scan p l bs) as [i|] eqn:E.
  - apply scan_Some in E as (Hi & b & Hb & Hpb). destruct (scan p l' bs) as [j|] eqn:E'.
    + apply scan_Some in E' as (Hj & c & Hc & Hpc). f_equal. rewrite <-Hp in Hj.
      by eapply Hu.
    + rewrite Hp in Hi. by rewrite (scan_None _ _ _ _ _ E' Hi Hb) in Hpb.
  - destruct (scan p l' bs) as [j|] eqn:E'; [|done].
    apply scan_Some in E' as (Hj & c & Hc & Hpc). rewrite <-Hp in Hj.
    by rewrite (scan_None _ _ _ _ _ E Hj Hc) in Hpc.
Qed.

Lemma set_lru_ok s l :
  inv s -> l ≡ₚ lru s ->
  inv (set_lru l s) /\ forall d k, 1 <= d -> view (set_lru l s) d k = view s d k.
Proof.
  intros Hi Hl. split.
  - constructor; try apply Hi. cbn. rewrite Hl. apply Hi.
  - intros d k Hd. unfold view, cached. cbn. rewrite (scan_uniq_perm _ l (lru s)); [done..|].
    intros i j b c _ _ Hb Hc Hpb Hpc. apply is_block_true in Hpb as [? ?], Hpc as [? ?].
    eapply (inv_uniq s Hi i j); eauto; congruence || lia.
Qed.

(** [brelse] of a buffer whose contents are on disk, or that stays
    referenced (pinned by the log). *)
Lemma brelse_ok s i dev n b :
  inv s -> 1 <= dev -> holds s i dev n -> bufs s !! i = Some b ->
  b_refcnt b <> 1 \/ disk s dev n = view s dev n ->
  exists s', brelse i s = Ok (tt, s') /\ inv s' /\
    disk s' = disk s /\
    (forall e k, 1 <= e -> view s' e k = view s e k) /\
    bufs s' !! i = Some (set_lock Sleep.initsleeplock (add_ref (-1) b)) /\
    (b_refcnt b = 1 -> lru s' = to_front i (lru s)).
Proof.
  intros Hi Hd Hh Hb Hclean. pose proof Hh as (b0 & Hb0 & E1 & E2 & Hv & Hr & Hl).
  assert (b0 = b) as -> by congruence.
  unfold brelse. rewrite (bind_ok _ _ _ _ _ (holds_holding s i dev n Hh)). cbn [negb].
  set (b' := set_lock Sleep.initsleeplock (add_ref (-1) b)).
  assert (view s dev n = b_data b) as Hvw.
  { rewrite <-E1, <-E2. apply (view_buf s i); try done. lia. }
  assert (inv (put i b' s)) as Hi'.
  { apply (inv_put s i b); try done; cbn; try lia.
    - intros j c' Hne Hj. by apply (uniq_same s i b b' j c').
    - intros H0 _. rewrite E1, E2, <-Hvw. destruct Hclean; [lia|done]. }
  assert (forall e k, 1 <= e -> view (put i b' s) e k = view s e k) as Hview.
  { intros e k He. destruct (decide (e = dev /\ k = n)) as [[-> ->]|Hne].
    - rewrite Hvw, <-E1, <-E2. apply (view_put_same s i b b'); try done. cbn. lia.
    - apply (view_put_other s i b); try done; [lia| |]; cbn;
        destruct (decide (e = dev)); destruct (decide (k = n)); intuition congruence. }
  assert (on_lock i Sleep.releasesleep s = Ok (tt, put i (set_lock Sleep.initsleeplock b) s)) as H1.
  { unfold on_lock. erewrite bind_ok by (by apply getbuf_ok).
    unfold Sleep.releasesleep. by rewrite (upd_put _ _ _ _ Hb). }
  rewrite (bind_ok _ _ _ _ _ H1). unfold bind at 1, modify.
  erewrite upd_put by (by eapply put_lookup). rewrite put_put.
  change (add_ref (-1) (set_lock Sleep.initsleeplock b)) with b'.
  rewrite (bind_ok _ _ _ _ _ (getbuf_put _ _ _ _ Hb)).
  unfold when. cbn [b' b_refcnt set_lock add_ref].
  destruct (Z.eqb_spec (b_refcnt b + -1) 0) as [Hz|Hz].
  - destruct (set_lru_ok (put i b' s) (to_front i (lru s)) Hi') as [Hi2 Hv2].
    { apply to_front_perm; [|by apply (in_lru s i b)].
      rewrite (inv_lru s Hi). apply NoDup_seq. }
    eexists. split; [reflexivity|]. split_and!; try done.
    + intros e k He. etransitivity; [by apply Hv2|by apply Hview].
    + by eapply (put_lookup s i b).
  - eexists. split; [reflexivity|]. split_and!; try done.
    + by eapply (put_lookup s i b).
    + lia.
Qed.

Lemma inv_binit d : inv (binit d).
Proof.
  assert (forall i b, bufs (binit d) !! i = Some b ->
    b = Buf false 0 0 Sleep.initsleeplock 0 zero_block) as Hb.
  { intros i b [-> _]%lookup_replicate. done. }
  constructor.
  - done.
  - cbn [binit lru]. apply reverse_Permutation.
  - intros i j b c Hi%Hb Hj%Hb Hd. subst. done.
  - intros i b ->%Hb. cbn. done.
  - intros i b ->%Hb. done.
  - intros i b ->%Hb. done.
Qed.

(** bread never writes a disk. *)
Lemma bget_disk dev n s i s' : bget dev n s = Ok (i, s') -> disk s' = disk s.
Proof.
  unfold bget. destruct (scan _ (lru s) _) as [j|]; [|destruct (scan _ (reverse _) _); [|done]];
    unfold bind, modify, on_lock, bind, getbuf; cbn;
    (destruct (alter _ _ _ !! _); [|done]);
    (destruct (Sleep.acquiresleep _ _) as [[? ?]|]; [|done]); by intros [= <- <-].
Qed.

Lemma bread_disk dev n s r s' : bread dev n s = Ok (r, s') -> disk s' = disk s.
Proof.
  unfold bread. destruct (_ || _); [by intros [= <- <-]|]. intros Hr.
  apply bind_inv in Hr as (j & t & Hg & Hr). rewrite <-(bget_disk _ _ _ _ _ Hg).
  revert Hr. unfold bind, getbuf. destruct (bufs t !! j) as [b|]; [|done].
  destruct (b_valid b); cbn; [by intros [= <- <-]|].
  unfold hal_disk_rw, bind, getbuf. destruct (bufs t !! j); [|done]. cbn.
  by intros [= <- <-].
Qed.

(** The first unreferenced buffer of a list of indices. *)
Lemma scan_free_split s l i :
  inv s -> scan (fun b => b_refcnt b =? 0) l (bufs s) = Some i ->
  exists l1 l2 b, l = l1 ++ i :: l2 /\ bufs s !! i = Some b /\ b_refcnt b = 0 /\
    forall j c, j ∈ l1 -> bufs s !! j = Some c -> 1 <= b_refcnt c.
Proof.
  intros Hi. induction l as [|k l IH]; cbn; [done|].
  destruct (bufs s !! k) as [b|] eqn:Ek; [destruct (Z.eqb_spec (b_refcnt b) 0)|]; intros H.
  1: injection H as <-; exists [], l, b; split_and!; try done; by intros ?? ?%elem_of_nil.
  all: destruct (IH H) as (l1 & l2 & c & -> & ? & ? & Hl1);
    exists (k :: l1), l2, c; split_and!; try done;
    intros j d [->|Hj]%elem_of_cons Hd; [|by eapply Hl1].
  - pose proof (inv_ref s Hi k b Ek). assert (d = b) as -> by congruence. lia.
  - congruence.
Qed.

(** *** Properties *)

(** C31: reading a block through the cache returns the locked buffer of that
    block with the block's current contents, whether it was cached, dirty or
    on disk; the cache stays consistent (one buffer per block, unused buffers
    clean) and no block's contents change, so recycling a buffer never loses
    data. *)
Theorem bread_coherent s dev n :
  inv s -> 1 <= dev <= HAL_NDISK -> can_read s dev n ->
  exists i s' b, bread dev n s = Ok (Some i, s') /\ inv s' /\
    bufs s' !! i = Some b /\ b_data b = view s dev n /\ holds s' i dev n /\
    (forall d k, 1 <= d -> view s' d k = view s d k).
Proof.
  intros Hi Hd Hc.
  destruct (bread_ok s dev n Hi Hd Hc) as (i & s' & Hr & Hi' & Hh & Hv & _).
  pose proof Hh as (b & Hb & E1 & E2 & Hval & _).
  exists i, s', b. split_and!; try done.
  rewrite <-Hv by lia. rewrite <-E1, <-E2. symmetry. apply (view_buf s' i); try done. lia.
Qed.

(** A read-modify-write cycle through the cache (bread, a store into the
    buffer, bwrite, brelse) behaves like one write to a flat disk: afterwards
    the block reads as the stored data, through the cache and on the disk,
    every other block reads as before, and the buffer is free again. *)
Theorem write_cycle_flat s dev n d :
  inv s -> 1 <= dev <= HAL_NDISK -> can_read s dev n ->
  exists s', (bp <- bread dev n ;;
              match bp with
              | None => fail FNull
              | Some i => bstore i d ;;; bwrite i ;;; brelse i
              end) s = Ok (tt, s') /\ inv s' /\
    view s' dev n = d /\ disk s' dev n = d /\
    (forall e k, 1 <= e -> e <> dev \/ k <> n -> view s' e k = view s e k) /\
    (forall e k, e <> dev \/ k <> n -> disk s' e k = disk s e k).
Proof.
  intros Hi Hd Hc.
  destruct (bread_ok s dev n Hi Hd Hc) as (i & s1 & Hr & Hi1 & Hh1 & Hv1 & _).
  rewrite (bind_ok _ _ _ _ _ Hr).
  destruct (bstore_ok s1 i dev n d Hi1 ltac:(lia) Hh1) as (s2 & H2 & Hi2 & Hh2 & Hv2 & Hd2 & Ho2).
  rewrite (bind_ok _ _ _ _ _ H2).
  destruct (bwrite_ok s2 i dev n Hi2 ltac:(lia) Hh2) as (s3 & H3 & Hi3 & Hh3 & Hd3 & Hv3 & Ho3).
  rewrite (bind_ok _ _ _ _ _ H3). pose proof Hh3 as (b3 & Hb3 & _).
  destruct (brelse_ok s3 i dev n b3 Hi3 ltac:(lia) Hh3 Hb3) as (s4 & H4 & Hi4 & Hd4 & Hv4 & _).
  { right. rewrite Hd3, Hv3 by lia. done. }
  pose proof (bread_disk _ _ _ _ _ Hr) as Hd1.
  exists s4. split_and!; try done.
  - by rewrite Hv4, Hv3 by lia.
  - by rewrite Hd4, Hd3.
  - intros e k He Hne. by rewrite Hv4, Hv3, Ho2, Hv1 by (done || lia).
  - intros e k Hne. by rewrite Hd4, Ho3, Hd2, Hd1 by done.
Qed.

(** When a block is not cached, bget recycles the least recently used
    buffer that nobody references (every buffer behind it in the LRU list is
    in use), and it panics exactly when every buffer is in use. *)
Theorem bget_recycles_lru s dev n :
  inv s -> scan (is_block dev n) (lru s) (bufs s) = None ->
  (forall i s', bget dev n s = Ok (i, s') ->
     exists l1 l2 b, lru s = l1 ++ i :: l2 /\ bufs s !! i = Some b /\ b_refcnt b = 0 /\
       forall j c, j ∈ l2 -> bufs s !! j = Some c -> 1 <= b_refcnt c) /\
  (bget dev n s = Fault (FPanic "bget: no buffers") <->
   forall j c, bufs s !! j = Some c -> 1 <= b_refcnt c).
Proof.
  intros Hi Hn. unfold bget. rewrite Hn.
  destruct (scan _ (reverse (lru s)) _) as [i|] eqn:E.
  - destruct (scan_free_split _ _ _ Hi E) as (l1 & l2 & b & Hl & Hb & H0 & Hl1).
    assert (lru s = reverse l2 ++ i :: reverse l1) as Hlru.
    { rewrite <-(reverse_involutive (lru s)), Hl, reverse_app, reverse_cons, <-app_assoc.
      done. }
    split.
    + intros j s' Hj. apply bind_inv in Hj as (? & s1 & _ & Hj).
      apply bind_inv in Hj as (? & s2 & _ & Hj). unfold ret in Hj. injection Hj as <- _.
      exists (reverse l2), (reverse l1), b. split_and!; try done.
      intros j c Hj. apply Hl1. by rewrite elem_of_reverse in Hj.
    + split.
      * intros Hp. exfalso. revert Hp. unfold bind at 1, modify.
        erewrite bind_ok; [done|]. apply on_lock_acquire.
        -- rewrite (upd_put _ _ _ _ Hb). by eapply put_lookup.
        -- unfold unlocked. cbn. destruct (inv_ref s Hi i b Hb) as [_ Hlk].
           destruct (Sleep.sl_locked (b_lock b)); [specialize (Hlk eq_refl); lia|done].
      * intros Hall. specialize (Hall i b Hb). lia.
  - split; [done|]. split; [|done]. intros _ j c Hj.
    pose proof (scan_None _ _ _ j c E) as Hf.
    rewrite elem_of_reverse in Hf. specialize (Hf (in_lru s j c Hi Hj) Hj).
    pose proof (inv_ref s Hi j c Hj). lia.
Qed.

End bio.

Lemma bread_coherent_witness :
  exists i s' b, bread 1 1 7 (binit (fun _ _ => zero_block)) = Ok (Some i, s') /\ inv s' /\
    bufs s' !! i = Some b /\ b_data b = view (binit (fun _ _ => zero_block)) 1 7 /\
    holds 1 s' i 1 7 /\
    (forall d k, 1 <= d -> view s' d k = view (binit (fun _ _ => zero_block)) d k).
Proof.
  apply bread_coherent; [apply inv_binit|vm_compute; by split|vm_compute; by eexists].
Defined.

Lemma write_cycle_flat_witness :
  exists s', (bp <- bread 1 1 7 ;;
              match bp with
              | None => fail FNull
              | Some i => bstore i [42] ;;; bwrite 1 i ;;; brelse 1 i
              end) (binit (fun _ _ => zero_block)) = Ok (tt, s') /\ inv s' /\
    view s' 1 7 = [42] /\ disk s' 1 7 = [42] /\
    (forall e k, 1 <= e -> e <> 1 \/ k <> 7 ->
       view s' e k = view (binit (fun _ _ => zero_block)) e k) /\
    (forall e k, e <> 1 \/ k <> 7 -> disk s' e k = disk (binit (fun _ _ => zero_block)) e k).
Proof.
  apply write_cycle_flat; [apply inv_binit|vm_compute; by split|vm_compute; by eexists].
Defined.

Lemma bget_recycles_lru_witness :
  let s := binit (fun _ _ => zero_block) in
  (forall i s', bget 1 1 7 s = Ok (i, s') ->
     exists l1 l2 b, lru s = l1 ++ i :: l2 /\ bufs s !! i = Some b /\ b_refcnt b = 0 /\
       forall j c, j ∈ l2 -> bufs s !! j = Some c -> 1 <= b_refcnt c) /\
  (bget 1 1 7 s = Fault (FPanic "bget: no buffers") <->
   forall j c, bufs s !! j = Some c -> 1 <= b_refcnt c).
Proof. apply bget_recycles_lru; [apply inv_binit|reflexivity]. Defined.
