(* ===== verification/Log.v ===== *)
(** Log: kernel/log.c, the redo log that makes file-system transactions
    atomic across crashes.

    The state holds, for the log's device, the durable disk, the contents seen
    through the buffer cache ([l_view], see Bio.view) and the sequence of block
    writes sent to the disk so far.  A crash keeps a prefix of the writes; the
    next boot runs [recover_from_log] on the disk it finds. *)

From S2P Require Import Prelude.

Definition MAXOPBLOCKS : Z := 10.
Definition LOGBLOCKS : Z := MAXOPBLOCKS * 3.

Definition block : Type := list Z.
Definition store : Type := Z -> block.

Definition supd (f : store) (b : Z) (d : block) : store :=
  fun x => if x =? b then d else f x.

(** Block writes applied in order. *)
Definition apply_writes (w : list (Z * block)) (f : store) : store :=
  fold_left (fun g '(b, d) => supd g b d) w f.

Record logheader : Type := Logheader { lh_n : Z; lh_block : list Z }.

Record log : Type := Log {
  l_start : Z;
  l_outstanding : Z;
  l_committing : bool;
  l_lh : logheader;
  l_pins : list Z;                 (* blocks bpin'ed, one entry per pin *)
  l_view : store;
  l_disk : store;
  l_trace : list (Z * block)
}.

Definition set_lh (h : logheader) (s : log) : log :=
  Log (l_start s) (l_outstanding s) (l_committing s) h (l_pins s) (l_view s) (l_disk s) (l_trace s).
Definition set_n (n : Z) (s : log) : log := set_lh (Logheader n (lh_block (l_lh s))) s.
Definition set_outstanding (n : Z) (s : log) : log :=
  Log (l_start s) n (l_committing s) (l_lh s) (l_pins s) (l_view s) (l_disk s) (l_trace s).
Definition set_committing (c : bool) (s : log) : log :=
  Log (l_start s) (l_outstanding s) c (l_lh s) (l_pins s) (l_view s) (l_disk s) (l_trace s).
Definition set_pins (p : list Z) (s : log) : log :=
  Log (l_start s) (l_outstanding s) (l_committing s) (l_lh s) p (l_view s) (l_disk s) (l_trace s).

(** bread's contents, and bwrite of a buffer holding block [b]. *)
Definition bread_data (b : Z) : M log block := gets (fun s => l_view s b).

Definition bwrite_data (b : Z) (d : block) : M log unit :=
  modify (fun s =>
    Log (l_start s) (l_outstanding s) (l_committing s) (l_lh s) (l_pins s)
        (supd (l_view s) b d) (supd (l_disk s) b d) (l_trace s ++ [(b, d)])).

Definition bpin (b : Z) : M log unit := modify (fun s => set_pins (b :: l_pins s) s).

Fixpoint remove1 (b : Z) (l : list Z) : list Z :=
  match l with [] => [] | x :: l' => if x =? b then l' else x :: remove1 b l' end.
Definition bunpin (b : Z) : M log unit := modify (fun s => set_pins (remove1 b (l_pins s)) s).

(** [for(tail = 0; tail < log.lh.n; tail++)] *)
Definition tails (n : Z) : list Z := Z.of_nat <$> seq 0 (Z.to_nat n).

Definition install_one (recovering : bool) (tail : Z) : M log unit :=
  start <- gets l_start ;;
  dst <- gets (fun s => getz (lh_block (l_lh s)) tail) ;;
  lbuf <- bread_data (start + tail + 1) ;;
  bwrite_data dst lbuf ;;;
  when (negb recovering) (bunpin dst).

Definition install_trans (recovering : bool) : M log unit :=
  n <- gets (fun s => lh_n (l_lh s)) ;;
  for_each (tails n) (install_one recovering).

Definition read_head_one (buf : block) (i : Z) : M log unit :=
  modify (fun s => set_lh (Logheader (lh_n (l_lh s))
    (putz (lh_block (l_lh s)) i (s32 (rd32 buf (4 + 4 * i))))) s).

Definition read_head : M log unit :=
  start <- gets l_start ;;
  buf <- bread_data start ;;
  let n := s32 (rd32 buf 0) in
  modify (set_n n) ;;;
  for_each (tails n) (read_head_one buf).

(** The header block with [n] and the first [n] block numbers stored in it. *)
Fixpoint encode_blocks (buf : block) (i : Z) (l : list Z) : block :=
  match l with
  | [] => buf
  | b :: l' => encode_blocks (wr32 buf (4 + 4 * i) b) (i + 1) l'
  end.

Definition encode_head (buf : block) (h : logheader) : block :=
  encode_blocks (wr32 buf 0 (lh_n h)) 0 (take (Z.to_nat (lh_n h)) (lh_block h)).

Definition write_head : M log unit :=
  start <- gets l_start ;;
  buf <- bread_data start ;;
  h <- gets l_lh ;;
  bwrite_data start (encode_head buf h).

Definition recover_from_log : M log unit :=
  read_head ;;; install_trans true ;;; modify (set_n 0) ;;; write_head.

(** sizeof(struct logheader) is 4 + 4*LOGBLOCKS. *)
Definition initlog (logstart : Z) : M log unit :=
  if 4 + 4 * LOGBLOCKS >=? BSIZE then panic "initlog: too big logheader"
  else
    modify (fun s => Log logstart (l_outstanding s) (l_committing s) (l_lh s) (l_pins s)
                         (l_view s) (l_disk s) (l_trace s)) ;;;
    recover_from_log.

(** begin_op of the only running process: a sleep would never end. *)
Definition begin_op : M log unit :=
  fun s =>
    if l_committing s then Fault FDeadlock
    else if lh_n (l_lh s) + (l_outstanding s + 1) * MAXOPBLOCKS >? LOGBLOCKS
    then Fault FDeadlock
    else Ok (tt, set_outstanding (l_outstanding s + 1) s).

Definition write_log_one (tail : Z) : M log unit :=
  start <- gets l_start ;;
  src <- gets (fun s => getz (lh_block (l_lh s)) tail) ;;
  from <- bread_data src ;;
  bwrite_data (start + tail + 1) from.

Definition write_log : M log unit :=
  n <- gets (fun s => lh_n (l_lh s)) ;;
  for_each (tails n) write_log_one.

Definition commit : M log unit :=
  n <- gets (fun s => lh_n (l_lh s)) ;;
  if n >? 0
  then write_log ;;; write_head ;;; install_trans false ;;; modify (set_n 0) ;;; write_head
  else ret tt.

(** end_op's first critical section: whether the caller must commit. *)
Definition end_op_enter : M log bool :=
  modify (fun s => set_outstanding (l_outstanding s - 1) s) ;;;
  c <- gets l_committing ;;
  if (c : bool) then panic "log.committing"
  else
    o <- gets l_outstanding ;;
    if o =? 0 then modify (set_committing true) ;;; ret true
    else ret false.

Definition end_op_commit : M log unit := commit ;;; modify (set_committing false).

Definition end_op : M log unit :=
  do_commit <- end_op_enter ;;
  when do_commit end_op_commit.

(** Index of [b] among the logged blocks, or their number. *)
Fixpoint find_block (b : Z) (l : list Z) (i : Z) : Z :=
  match l with
  | [] => i
  | x :: l' => if x =? b then i else find_block b l' (i + 1)
  end.

Definition log_write (b : Z) : M log unit :=
  fun s =>
    let h := l_lh s in
    if lh_n h >=? LOGBLOCKS then Fault (FPanic "too big a transaction")
    else if l_outstanding s <? 1 then Fault (FPanic "log_write outside of trans")
    else
      let i := find_block b (take (Z.to_nat (lh_n h)) (lh_block h)) 0 in
      let s1 := set_lh (Logheader (lh_n h) (putz (lh_block h) i b)) s in
      if i =? lh_n h
      then (bpin b ;;; modify (fun s => set_n (lh_n (l_lh s) + 1) s)) s1
      else Ok (tt, s1).

(** *** Crashes *)

(** The machine that boots on disk [d]: everything volatile is fresh and the
    cache is empty, so the view is the disk. *)
Definition boot (start : Z) (d : store) : log :=
  Log start 0 false (Logheader 0 (replicate 30 0)) [] d d [].

(** The disk a crash leaves when only the first [k] writes made it. *)
Definition crash (k : nat) (w : list (Z * block)) (d : store) : store :=
  apply_writes (take k w) d.

Definition in_log (start b : Z) : Prop := start <= b <= start + LOGBLOCKS.

(** The blocks of the current transaction. *)
Definition txn (s : log) : list Z := take (Z.to_nat (lh_n (l_lh s))) (lh_block (l_lh s)).

(** A transaction ready to commit: the log on disk is empty, the logged
    blocks are distinct data blocks, and every other block is unmodified in
    the cache. *)
Record ready (s : log) : Prop := Ready {
  rdy_n : 0 <= lh_n (l_lh s) <= LOGBLOCKS;
  rdy_len : length (lh_block (l_lh s)) = 30%nat;
  rdy_nodup : NoDup (txn s);
  rdy_range : Forall (fun b => 0 <= b < 2 ^ 31 /\ ~ in_log (l_start s) b) (txn s);
  rdy_head : rd32 (l_disk s (l_start s)) 0 = 0;
  rdy_hlen : length (l_disk s (l_start s)) = 1024%nat;
  rdy_clean : forall b, b ∉ txn s -> l_view s b = l_disk s b
}.

(** *** Lemmas: writes *)

(** Compute the fields of an updated log state. *)
Ltac lproj := cbn [l_start l_outstanding l_committing l_lh l_pins l_view l_disk l_trace
  set_lh set_n set_outstanding set_committing set_pins lh_n lh_block boot] in *.

Ltac inlog := unfold in_log, LOGBLOCKS, MAXOPBLOCKS in *; lia.

Lemma apply_writes_app w1 w2 f : apply_writes (w1 ++ w2) f = apply_writes w2 (apply_writes w1 f).
Proof. apply fold_left_app. Qed.

Lemma apply_writes_out w : forall f b, b ∉ w.*1 -> apply_writes w f b = f b.
Proof.
  induction w as [|[c d] w IH]; intros f b Hb; [done|].
  cbn in Hb. apply not_elem_of_cons in Hb as [Hne Hb].
  cbn. change (apply_writes w (supd f c d) b = f b). rewrite IH by done.
  unfold supd. by rewrite (proj2 (Z.eqb_neq b c)).
Qed.

Lemma apply_writes_in w : forall f b d,
  b ∈ w.*1 -> (forall d', (b, d') ∈ w -> d' = d) -> apply_writes w f b = d.
Proof.
  induction w as [|[c e] w IH]; intros f b d Hb Hd; [by apply elem_of_nil in Hb|].
  change (apply_writes w (supd f c e) b = d).
  destruct (decide (b ∈ w.*1)) as [Hin|Hni].
  - apply IH; [done|]. intros d' Hd'. apply Hd. by right.
  - rewrite apply_writes_out by done. cbn in Hb. apply elem_of_cons in Hb as [->|?]; [|done].
    unfold supd. rewrite Z.eqb_refl. apply Hd. left.
Qed.

Lemma elem_of_tails n i : i ∈ tails n <-> 0 <= i < n.
Proof.
  unfold tails. rewrite list_elem_of_fmap. split.
  - intros (k & -> & Hk%elem_of_seq). lia.
  - intros Hi. exists (Z.to_nat i). rewrite elem_of_seq. lia.
Qed.

Lemma length_tails n : length (tails n) = Z.to_nat n.
Proof. unfold tails. len. by rewrite length_seq. Qed.

(** *** Lemmas: runs that only write blocks *)

(** [t] is [s] after the block writes [w], with pins [p]. *)
Record ran (s : log) (w : list (Z * block)) (p : list Z) (t : log) : Prop := Ran {
  ran_start : l_start t = l_start s;
  ran_lh : l_lh t = l_lh s;
  ran_out : l_outstanding t = l_outstanding s;
  ran_com : l_committing t = l_committing s;
  ran_pins : l_pins t = p;
  ran_view : l_view t = apply_writes w (l_view s);
  ran_disk : l_disk t = apply_writes w (l_disk s);
  ran_trace : l_trace t = l_trace s ++ w
}.

Lemma ran_refl s : ran s [] (l_pins s) s.
Proof. constructor; try done. by rewrite app_nil_r. Qed.

Lemma ran_trans s w1 p1 t w2 p2 u : ran s w1 p1 t -> ran t w2 p2 u -> ran s (w1 ++ w2) p2 u.
Proof.
  intros [] []. constructor; rewrite ?apply_writes_app; try congruence.
  rewrite app_assoc. congruence.
Qed.

Lemma bwrite_ran s w p t b d :
  ran s w p t -> exists t', bwrite_data b d t = Ok (tt, t') /\ ran s (w ++ [(b, d)]) p t'.
Proof.
  intros H. eexists. split; [reflexivity|]. eapply ran_trans; [exact H|].
  constructor; try done. apply H.
Qed.

(** The two copying loops: they write [wf i] for each tail [i], provided no
    write disturbs what later iterations read. *)
Lemma copy_loop s l body wf (pf : list Z -> Z -> list Z) (ok : list (Z * block) -> Prop) :
  ok [] ->
  (forall w i, ok w -> i ∈ l -> ok (w ++ [wf i])) ->
  (forall w p t i, ok w -> i ∈ l -> ran s w p t ->
     exists t', body i t = Ok (tt, t') /\ ran s (w ++ [wf i]) (pf p i) t') ->
  exists t, for_each l body s = Ok (tt, t) /\
    ran s (wf <$> l) (fold_left pf l (l_pins s)) t.
Proof.
  intros H0 Hok Hb.
  destruct (for_each_rule body
    (fun rest t => exists dn, l = dn ++ rest /\ ok (wf <$> dn) /\
       ran s (wf <$> dn) (fold_left pf dn (l_pins s)) t) l s) as (t & Ht & dn & E & _ & Hr).
  - exists []. split_and!; [done|done|apply ran_refl].
  - intros i rest t (dn & E & Ho & Hr).
    assert (i ∈ l) as Hi by (rewrite E; apply elem_of_app; right; left).
    destruct (Hb _ _ _ i Ho Hi Hr) as (t' & Ht' & Hr'). exists t'. split; [done|].
    exists (dn ++ [i]). rewrite <-app_assoc, fmap_app, fold_left_app. split_and!; [done| |done].
    by apply Hok.
  - exists t. rewrite app_nil_r in E. subst dn. done.
Qed.

(** *** Lemmas: the header block *)

Lemma encode_blocks_len l : forall buf i,
  length buf = 1024%nat -> 0 <= i -> i + zlen l <= 255 ->
  length (encode_blocks buf i l) = 1024%nat.
Proof.
  induction l as [|b l IH]; intros buf i Hl Hi Hb; [done|]. unfold zlen in *. cbn [length encode_blocks] in *.
  apply IH; try lia. rewrite length_wr; unfold zlen; lia.
Qed.

Lemma encode_blocks_before l : forall buf i off,
  length buf = 1024%nat -> 0 <= i -> i + zlen l <= 255 -> 0 <= off -> off + 4 <= 4 + 4 * i ->
  rd32 (encode_blocks buf i l) off = rd32 buf off.
Proof.
  induction l as [|b l IH]; intros buf i off Hl Hi Hb Ho Ho'; [done|].
  unfold zlen in *. cbn [length encode_blocks] in *. rewrite IH; try lia.
  - apply rd_wr_ne; unfold zlen; lia.
  - rewrite length_wr; unfold zlen; lia.
Qed.

Lemma encode_blocks_get l : forall buf i k b,
  length buf = 1024%nat -> 0 <= i -> i + zlen l <= 255 ->
  l !! k = Some b -> rd32 (encode_blocks buf i l) (4 + 4 * (i + Z.of_nat k)) = b mod 2 ^ 32.
Proof.
  induction l as [|c l IH]; intros buf i k b Hl Hi Hb Hk; [done|].
  unfold zlen in *. cbn [length encode_blocks] in *.
  assert (length (wr32 buf (4 + 4 * i) c) = 1024%nat) by (rewrite length_wr; unfold zlen; lia).
  destruct k as [|k]; cbn in Hk.
  - injection Hk as ->. rewrite encode_blocks_before; unfold zlen; try lia.
    replace (4 + 4 * (i + Z.of_nat 0)) with (4 + 4 * i) by lia.
    apply rd_wr_eq; unfold zlen; lia.
  - replace (i + Z.of_nat (S k)) with (i + 1 + Z.of_nat k) by lia. apply IH; try done; lia.
Qed.

(** What [encode_head] stores. *)
Lemma encode_head_spec buf n bl :
  length buf = 1024%nat -> 0 <= n <= LOGBLOCKS -> length bl = 30%nat ->
  Forall (fun b => 0 <= b < 2 ^ 31) (take (Z.to_nat n) bl) ->
  length (encode_head buf (Logheader n bl)) = 1024%nat /\
  rd32 (encode_head buf (Logheader n bl)) 0 = n /\
  forall i, 0 <= i < n -> s32 (rd32 (encode_head buf (Logheader n bl)) (4 + 4 * i)) = getz bl i.
Proof.
  unfold LOGBLOCKS, MAXOPBLOCKS. intros Hl Hn Hbl Hr. unfold encode_head. cbn [lh_n lh_block].
  assert (length (wr32 buf 0 n) = 1024%nat) as Hl' by (rewrite length_wr; unfold zlen; lia).
  assert (zlen (take (Z.to_nat n) bl) = n) as Hz by (unfold zlen; len).
  split_and!.
  - apply encode_blocks_len; lia.
  - rewrite encode_blocks_before by lia. rewrite rd_wr_eq by (unfold zlen; lia).
    apply Z.mod_small. lia.
  - intros i Hi.
    assert (bl !! Z.to_nat i = Some (getz bl i)) as Hg by (apply getz_lookup; unfold zlen; lia).
    assert (take (Z.to_nat n) bl !! Z.to_nat i = Some (getz bl i)) as Hk
      by (by rewrite lookup_take_lt by lia).
    rewrite Forall_forall in Hr.
    assert (0 <= getz bl i < 2 ^ 31) as Hb by (apply Hr; by eapply list_elem_of_lookup_2).
    pose proof (encode_blocks_get (take (Z.to_nat n) bl) (wr32 buf 0 n) 0 (Z.to_nat i) _
      Hl' ltac:(lia) ltac:(lia) Hk) as E.
    rewrite Z.add_0_l, Z2Nat.id in E by lia. rewrite E.
    rewrite Z.mod_small by lia. apply s32_small. lia.
Qed.

(** *** Lemmas: the steps of commit and of recovery *)

Definition log_writes (s : log) (n : Z) : list (Z * block) :=
  (fun i => (l_start s + i + 1, l_view s (getz (lh_block (l_lh s)) i))) <$> tails n.

Definition home_writes (s : log) (n : Z) : list (Z * block) :=
  (fun i => (getz (lh_block (l_lh s)) i, l_view s (l_start s + i + 1))) <$> tails n.

Lemma write_log_run s :
  0 <= lh_n (l_lh s) <= LOGBLOCKS ->
  (forall i, 0 <= i < lh_n (l_lh s) -> ~ in_log (l_start s) (getz (lh_block (l_lh s)) i)) ->
  exists t, write_log s = Ok (tt, t) /\
    ran s (log_writes s (lh_n (l_lh s))) (l_pins s) t.
Proof.
  intros Hn Ho. unfold write_log. erewrite bind_ok by reflexivity.
  destruct (copy_loop s (tails (lh_n (l_lh s))) write_log_one
    (fun i => (l_start s + i + 1, l_view s (getz (lh_block (l_lh s)) i)))
    (fun p _ => p) (fun w => forall b, b ∈ w.*1 -> in_log (l_start s) b))
    as (t & Ht & Hr); cycle 3.
  - exists t. split; [exact Ht|]. replace (l_pins s) with
      (fold_left (fun (p : list Z) (_ : Z) => p) (tails (lh_n (l_lh s))) (l_pins s)); [done|].
    generalize (tails (lh_n (l_lh s))). intros l. by induction l.
  - intros b Hb. by apply elem_of_nil in Hb.
  - intros w i Hw Hi%elem_of_tails b. rewrite fmap_app, elem_of_app. intros [Hb|Hb]; [by apply Hw|].
    apply list_elem_of_singleton in Hb as ->. cbn. inlog.
  - intros w p t i Hw Hi%elem_of_tails Hr. cbv beta.
    unfold write_log_one, bind, gets, bread_data, gets. rewrite (ran_start _ _ _ _ Hr), (ran_lh _ _ _ _ Hr).
    rewrite (ran_view _ _ _ _ Hr), apply_writes_out; [by apply bwrite_ran|].
    intros Hin%Hw. by apply (Ho i).
Qed.

Lemma install_run s recovering :
  0 <= lh_n (l_lh s) <= LOGBLOCKS ->
  (forall i, 0 <= i < lh_n (l_lh s) -> ~ in_log (l_start s) (getz (lh_block (l_lh s)) i)) ->
  exists t, install_trans recovering s = Ok (tt, t) /\
    ran s (home_writes s (lh_n (l_lh s)))
      (if recovering then l_pins s else
       fold_left (fun p i => remove1 (getz (lh_block (l_lh s)) i) p)
         (tails (lh_n (l_lh s))) (l_pins s)) t.
Proof.
  intros Hn Ho. unfold install_trans. erewrite bind_ok by reflexivity.
  destruct (copy_loop s (tails (lh_n (l_lh s))) (install_one recovering)
    (fun i => (getz (lh_block (l_lh s)) i, l_view s (l_start s + i + 1)))
    (fun p i => if recovering then p else remove1 (getz (lh_block (l_lh s)) i) p)
    (fun w => forall b, b ∈ w.*1 -> ~ in_log (l_start s) b))
    as (t & Ht & Hr); cycle 3.
  - exists t. split; [exact Ht|]. destruct recovering; [|done].
    replace (l_pins s) with
      (fold_left (fun (p : list Z) (_ : Z) => p) (tails (lh_n (l_lh s))) (l_pins s)); [done|].
    generalize (tails (lh_n (l_lh s))). intros l. by induction l.
  - intros b Hb. by apply elem_of_nil in Hb.
  - intros w i Hw Hi%elem_of_tails b. rewrite fmap_app, elem_of_app. intros [Hb|Hb]; [by apply Hw|].
    apply list_elem_of_singleton in Hb as ->. by apply Ho.
  - intros w p t i Hw Hi%elem_of_tails Hr. cbv beta.
    unfold install_one, bind at 1 2 3, gets, bread_data, gets.
    rewrite (ran_start _ _ _ _ Hr), (ran_lh _ _ _ _ Hr).
    rewrite (ran_view _ _ _ _ Hr), apply_writes_out;
      [|intros Hin%Hw; inlog].
    destruct (bwrite_ran s w p t (getz (lh_block (l_lh s)) i)
      (l_view s (l_start s + i + 1)) Hr) as (t' & Ht' & Hr').
    rewrite (bind_ok _ _ _ _ _ Ht'). destruct recovering; cbn; [eauto|].
    eexists. split; [reflexivity|]. destruct Hr'. constructor; cbn; congruence.
Qed.

Lemma write_head_run s :
  exists t, write_head s = Ok (tt, t) /\
    ran s [(l_start s, encode_head (l_view s (l_start s)) (l_lh s))] (l_pins s) t.
Proof.
  unfold write_head, bind, gets, bread_data, gets.
  apply (bwrite_ran s [] (l_pins s) s). apply ran_refl.
Qed.

Lemma read_head_run s n :
  s32 (rd32 (l_view s (l_start s)) 0) = n -> 0 <= n <= LOGBLOCKS ->
  length (lh_block (l_lh s)) = 30%nat ->
  exists bl, read_head s = Ok (tt, set_lh (Logheader n bl) s) /\ length bl = 30%nat /\
    forall i, 0 <= i < n -> getz bl i = s32 (rd32 (l_view s (l_start s)) (4 + 4 * i)).
Proof.
  intros Hh Hn Hl. unfold read_head, bind at 1 2, gets, bread_data, gets. cbv zeta.
  rewrite Hh. unfold bind, modify. set (buf := l_view s (l_start s)) in *.
  destruct (for_each_rule (read_head_one buf)
    (fun rest t => exists dn bl, tails n = dn ++ rest /\ t = set_lh (Logheader n bl) s /\
       length bl = 30%nat /\
       forall i, i ∈ dn -> getz bl i = s32 (rd32 buf (4 + 4 * i))) (tails n) (set_n n s))
    as (t & Ht & dn & bl & E & -> & Hbl & Hg).
  - exists [], (lh_block (l_lh s)). split_and!; try done. intros i Hi. by apply elem_of_nil in Hi.
  - intros i rest t (dn & bl & E & -> & Hbl & Hg). eexists. split; [reflexivity|].
    exists (dn ++ [i]), (putz bl i (s32 (rd32 buf (4 + 4 * i)))).
    rewrite <-app_assoc. split_and!; try done; [by len|].
    assert (0 <= i < n) as Hi by (apply elem_of_tails; rewrite E, elem_of_app; right; left).
    intros j [Hj|Hj%list_elem_of_singleton]%elem_of_app.
    + assert (0 <= j < n) as Hj' by (apply elem_of_tails; rewrite E, elem_of_app; by left).
      destruct (decide (i = j)) as [->|Hne].
      * apply getz_putz_eq. unfold zlen. inlog.
      * rewrite getz_putz_ne by (done || lia). by apply Hg.
    + subst j. apply getz_putz_eq. unfold zlen. inlog.
  - exists bl. split_and!; try done. intros i Hi. apply Hg.
    rewrite app_nil_r in E. rewrite <-E. by apply elem_of_tails.
Qed.

(** What recovery copies home from disk [d]. *)
Definition rec_home (start : Z) (d : store) (n : Z) : list (Z * block) :=
  (fun i => (s32 (rd32 (d start) (4 + 4 * i)), d (start + i + 1))) <$> tails n.

Definition head_ok (start : Z) (d : store) (n : Z) : Prop :=
  length (d start) = 1024%nat /\ s32 (rd32 (d start) 0) = n /\ 0 <= n <= LOGBLOCKS /\
  forall i, 0 <= i < n -> ~ in_log start (s32 (rd32 (d start) (4 + 4 * i))).

Definition cleared (h : block) : Prop := length h = 1024%nat /\ rd32 h 0 = 0.

Lemma encode_head_0 buf bl :
  length buf = 1024%nat -> length bl = 30%nat -> cleared (encode_head buf (Logheader 0 bl)).
Proof.
  intros Hb Hl. destruct (encode_head_spec buf 0 bl) as (H1 & H2 & _); try done.
Qed.

Lemma recover_run start d n :
  head_ok start d n ->
  exists t h, recover_from_log (boot start d) = Ok (tt, t) /\ cleared h /\
    l_trace t = rec_home start d n ++ [(start, h)] /\
    l_disk t = apply_writes (l_trace t) d /\ l_view t = l_disk t /\ lh_n (l_lh t) = 0.
Proof.
  intros (Hlen & Hh & Hn & Ho). unfold recover_from_log.
  destruct (read_head_run (boot start d) n Hh Hn) as (bl & H1 & Hbl & Hg); [done|].
  rewrite (bind_ok _ _ _ _ _ H1). set (s1 := set_lh _ _).
  destruct (install_run s1 true) as (t2 & H2 & R2).
  { done. } { intros i Hi. cbn in Hi |- *. rewrite Hg by done. by apply Ho. }
  rewrite (bind_ok _ _ _ _ _ H2). unfold bind at 1, modify.
  assert (home_writes s1 (lh_n (l_lh s1)) = rec_home start d n) as Ehw.
  { apply list_fmap_ext. intros k i Hk. cbn. cbn in Hg. rewrite Hg; [done|].
    apply elem_of_tails. by eapply list_elem_of_lookup_2. }
  rewrite Ehw in R2.
  destruct (write_head_run (set_n 0 t2)) as (t3 & H3 & R3).
  exists t3, (encode_head (l_view t2 start) (Logheader 0 bl)). split; [|split].
  - exact H3.
  - apply encode_head_0; [|done]. rewrite (ran_view _ _ _ _ R2).
    change (l_view s1) with d.
    rewrite apply_writes_out; [done|]. unfold rec_home. rewrite <-list_fmap_compose.
    intros (i & E & Hi)%list_elem_of_fmap. cbn in E. apply elem_of_tails in Hi.
    apply (Ho i Hi). rewrite <-E. inlog.
  - destruct R2, R3. cbn in *. rewrite ran_lh0, ran_start0 in *. cbn in *. split_and!.
    + rewrite ran_trace1, ran_trace0. done.
    + rewrite ran_trace1, ran_disk1, ran_trace0, ran_disk0. by rewrite apply_writes_app.
    + congruence.
    + by rewrite ran_lh1.
Qed.

(** The part of the disk that is not the log, after recovery. *)
Lemma recover_data start d n t :
  head_ok start d n -> recover_from_log (boot start d) = Ok (tt, t) ->
  forall b, ~ in_log start b -> l_disk t b = apply_writes (rec_home start d n) d b.
Proof.
  intros Hok Ht b Hb. destruct (recover_run start d n Hok) as (t' & h & H1 & _ & Htr & Hd & _).
  assert (t' = t) as -> by congruence. rewrite Hd, Htr, apply_writes_app.
  apply apply_writes_out. cbn. intros ->%list_elem_of_singleton. apply Hb. inlog.
Qed.

Lemma apply_writes_agree w : forall f g b,
  b ∈ w.*1 -> apply_writes w f b = apply_writes w g b.
Proof.
  induction w as [|[c e] w IH]; intros f g b Hb; [by apply elem_of_nil in Hb|].
  change (apply_writes w (supd f c e) b = apply_writes w (supd g c e) b).
  destruct (decide (b ∈ w.*1)) as [Hin|Hni]; [by apply IH|].
  rewrite !apply_writes_out by done. cbn in Hb. apply elem_of_cons in Hb as [->|?]; [|done].
  unfold supd. by rewrite Z.eqb_refl.
Qed.

(** Replaying a list of writes over any prefix of it. *)
Lemma apply_writes_replay w j f b :
  apply_writes w (apply_writes (take j w) f) b = apply_writes w f b.
Proof.
  destruct (decide (b ∈ w.*1)) as [Hin|Hni]; [by apply apply_writes_agree|].
  rewrite !apply_writes_out; try done. rewrite fmap_take.
  intros H%(subseteq_take j). done.
Qed.

Lemma rec_home_out start d n j b :
  head_ok start d n -> in_log start b -> b ∉ (take j (rec_home start d n)).*1.
Proof.
  intros (_ & _ & _ & Ho) Hb. rewrite fmap_take. intros H%(subseteq_take j).
  unfold rec_home in H. rewrite <-list_fmap_compose in H.
  apply list_elem_of_fmap in H as (i & -> & Hi%elem_of_tails). by apply (Ho i).
Qed.

(** A disk on which recovery installs [data]. *)
Definition recovers_to (start : Z) (data : store) (d : store) : Prop :=
  exists n, head_ok start d n /\
    forall b, ~ in_log start b -> apply_writes (rec_home start d n) d b = data b.

(** A crash during recovery from [d], after some of its writes. *)
Definition crash_step (start : Z) (d d' : store) : Prop :=
  exists t j, initlog start (boot 0 d) = Ok (tt, t) /\ d' = crash j (l_trace t) d.

Lemma initlog_boot start d : initlog start (boot 0 d) = recover_from_log (boot start d).
Proof. done. Qed.

Lemma head_ok_0 start d : cleared (d start) -> head_ok start d 0.
Proof.
  intros [Hl H0]. split_and!; [done| |done|done|intros; lia]. rewrite H0. by apply s32_small.
Qed.

Lemma recovers_to_cleared start data d :
  cleared (d start) -> (forall b, ~ in_log start b -> d b = data b) -> recovers_to start data d.
Proof. intros Hc Hd. exists 0. split; [by apply head_ok_0|]. exact Hd. Qed.

Lemma crash_step_recovers start data d d' :
  recovers_to start data d -> crash_step start d d' -> recovers_to start data d'.
Proof.
  intros (n & Hok & Hd) (t & j & Ht & ->). rewrite initlog_boot in Ht.
  destruct (recover_run start d n Hok) as (t' & h & Ht' & Hc & Htr & _).
  assert (t' = t) as -> by congruence. rewrite Htr. unfold crash. rewrite take_app.
  destruct (take (j - length (rec_home start d n)) [(start, h)]) as [|x l] eqn:E.
  - rewrite app_nil_r. exists n.
    assert (forall b, in_log start b -> apply_writes (take j (rec_home start d n)) d b = d b) as Hsame
      by (intros b Hb; apply apply_writes_out; by apply rec_home_out).
    assert (in_log start start) as Hs by inlog.
    assert (rec_home start (apply_writes (take j (rec_home start d n)) d) n = rec_home start d n) as ->.
    { apply list_fmap_ext. intros k i Hk. rewrite !Hsame; [done| |done].
      apply list_elem_of_lookup_2, elem_of_tails in Hk. destruct Hok as (_ & _ & ? & _). inlog. }
    split.
    + unfold head_ok. rewrite Hsame by done. exact Hok.
    + intros b Hb. rewrite apply_writes_replay. by apply Hd.
  - destruct (j - length (rec_home start d n))%nat as [|m] eqn:Ej; [done|].
    rewrite take_ge by lia. assert (l = [] /\ x = (start, h)) as [-> ->].
    { cbn in E. destruct m; cbn in E; by simplify_eq. }
    rewrite apply_writes_app. apply recovers_to_cleared.
    + cbn. unfold supd. by rewrite Z.eqb_refl.
    + intros b Hb. rewrite apply_writes_out; [by apply Hd|].
      cbn. intros ->%list_elem_of_singleton. inlog.
Qed.

(** *** Lemmas: commit *)

Definition commit_home (s : log) (n : Z) : list (Z * block) :=
  (fun i => (getz (lh_block (l_lh s)) i, l_view s (getz (lh_block (l_lh s)) i))) <$> tails n.

Lemma txn_get s i :
  ready s -> 0 <= i < lh_n (l_lh s) -> getz (lh_block (l_lh s)) i ∈ txn s.
Proof.
  intros [Hn Hl _ _ _ _ _] Hi. apply (list_elem_of_lookup_2 _ (Z.to_nat i)). unfold txn.
  rewrite lookup_take_lt by lia. apply getz_lookup. unfold zlen. inlog.
Qed.

Lemma txn_out s i :
  ready s -> 0 <= i < lh_n (l_lh s) -> ~ in_log (l_start s) (getz (lh_block (l_lh s)) i).
Proof.
  intros Hr Hi. pose proof (rdy_range s Hr) as H. rewrite Forall_forall in H.
  apply H. by apply txn_get.
Qed.

Lemma txn_tails s b :
  ready s -> b ∈ txn s -> exists i, 0 <= i < lh_n (l_lh s) /\ getz (lh_block (l_lh s)) i = b.
Proof.
  intros [Hn Hl _ _ _ _ _] (k & Hk)%list_elem_of_lookup. unfold txn in Hk.
  apply lookup_take_Some in Hk as [Hk Hlt]. exists (Z.of_nat k). split; [lia|].
  apply lookup_getz. by rewrite Nat2Z.id.
Qed.

Lemma log_writes_out s n b : (b <= l_start s \/ l_start s + n < b) -> b ∉ (log_writes s n).*1.
Proof.
  intros Hb. unfold log_writes. rewrite <-list_fmap_compose.
  intros (i & -> & Hi%elem_of_tails)%list_elem_of_fmap. cbn in Hb. lia.
Qed.

Lemma log_writes_get s n f i :
  0 <= i < n ->
  apply_writes (log_writes s n) f (l_start s + i + 1) = l_view s (getz (lh_block (l_lh s)) i).
Proof.
  intros Hi. apply apply_writes_in.
  - unfold log_writes. rewrite <-list_fmap_compose. apply list_elem_of_fmap.
    exists i. split; [done|by apply elem_of_tails].
  - intros d' (j & E & Hj)%list_elem_of_fmap. injection E as E ->. f_equal. f_equal. lia.
Qed.

Lemma commit_home_dom s : ready s -> (commit_home s (lh_n (l_lh s))).*1 ≡ₚ txn s.
Proof.
  intros Hr. enough ((commit_home s (lh_n (l_lh s))).*1 = txn s) as -> by done.
  pose proof (rdy_n s Hr). pose proof (rdy_len s Hr).
  apply list_eq. intros k. unfold commit_home, txn, tails. rewrite <-!list_fmap_compose.
  rewrite list_lookup_fmap. destruct (decide (k < Z.to_nat (lh_n (l_lh s)))%nat) as [Hk|Hk].
  - rewrite lookup_seq_lt by done. rewrite lookup_take_lt by done. cbn. symmetry.
    pose proof (getz_lookup (lh_block (l_lh s)) (Z.of_nat k)) as Hg. rewrite Nat2Z.id in Hg.
    apply Hg. unfold zlen. inlog.
  - rewrite lookup_seq_ge by lia. rewrite lookup_take_ge by lia. done.
Qed.

Lemma commit_home_view s f b :
  ready s -> ((b ∈ txn s -> False) -> f b = l_view s b) ->
  apply_writes (commit_home s (lh_n (l_lh s))) f b = l_view s b.
Proof.
  intros Hr Hf. destruct (decide (b ∈ txn s)) as [Hin|Hni].
  - apply apply_writes_in; [by rewrite commit_home_dom|].
    intros d' (j & E & Hj)%list_elem_of_fmap. by injection E as -> ->.
  - rewrite apply_writes_out; [by apply Hf|]. by rewrite commit_home_dom.
Qed.

(** The header that makes the transaction durable. *)
Definition commit_head (s : log) : block := encode_head (l_view s (l_start s)) (l_lh s).

Lemma start_clean s : ready s -> l_view s (l_start s) = l_disk s (l_start s).
Proof.
  intros Hr. apply (rdy_clean s Hr). intros Hin. pose proof (rdy_range s Hr) as H.
  rewrite Forall_forall in H. destruct (H _ Hin) as [_ H']. apply H'. inlog.
Qed.

Lemma commit_head_spec s :
  ready s ->
  length (commit_head s) = 1024%nat /\ s32 (rd32 (commit_head s) 0) = lh_n (l_lh s) /\
  forall i, 0 <= i < lh_n (l_lh s) ->
    s32 (rd32 (commit_head s) (4 + 4 * i)) = getz (lh_block (l_lh s)) i.
Proof.
  intros Hr. pose proof (rdy_n s Hr) as Hn. unfold commit_head. rewrite (start_clean s Hr).
  pose proof (rdy_len s Hr) as Hl. pose proof (rdy_range s Hr) as Hg. unfold txn in Hg.
  destruct (l_lh s) as [n bl]. cbn [lh_n lh_block] in *.
  destruct (encode_head_spec (l_disk s (l_start s)) n bl) as (H1 & H2 & H3); try done.
  - apply Hr.
  - eapply Forall_impl; [exact Hg|]. by intros b [? _].
  - split_and!; try done. rewrite H2. apply s32_small. inlog.
Qed.

Lemma commit_run s :
  ready s -> 0 < lh_n (l_lh s) ->
  exists t h, commit s = Ok (tt, t) /\ cleared h /\
    ran s (log_writes s (lh_n (l_lh s)) ++ [(l_start s, commit_head s)] ++
           commit_home s (lh_n (l_lh s)) ++ [(l_start s, h)])
      (fold_left (fun p i => remove1 (getz (lh_block (l_lh s)) i) p)
         (tails (lh_n (l_lh s))) (l_pins s)) (set_lh (l_lh s) t) /\
    l_lh t = Logheader 0 (lh_block (l_lh s)).
Proof.
  intros Hr Hn0. unfold commit. erewrite bind_ok by reflexivity.
  rewrite (proj2 (Z.gtb_lt _ _)) by lia. pose proof (rdy_n s Hr) as Hn.
  destruct (write_log_run s) as (t1 & H1 & R1); [done|by intros; apply txn_out|].
  rewrite (bind_ok _ _ _ _ _ H1). destruct (write_head_run t1) as (t2 & H2 & R2).
  rewrite (bind_ok _ _ _ _ _ H2).
  assert (l_view t1 (l_start s) = l_view s (l_start s)) as Hv1
    by (rewrite (ran_view _ _ _ _ R1), apply_writes_out; [done|apply log_writes_out; lia]).
  rewrite (ran_start _ _ _ _ R1), Hv1, (ran_lh _ _ _ _ R1) in R2. fold (commit_head s) in R2.
  pose proof (ran_trans _ _ _ _ _ _ _ R1 R2) as R12.
  destruct (install_run t2 false) as (t3 & H3 & R3).
  { by rewrite (ran_lh _ _ _ _ R12). }
  { rewrite (ran_lh _ _ _ _ R12), (ran_start _ _ _ _ R12). intros. by apply txn_out. }
  rewrite (bind_ok _ _ _ _ _ H3). unfold bind at 1, modify.
  assert (home_writes t2 (lh_n (l_lh t2)) = commit_home s (lh_n (l_lh s))) as Eh.
  { unfold home_writes. rewrite (ran_lh _ _ _ _ R12), (ran_start _ _ _ _ R12), (ran_view _ _ _ _ R12).
    apply list_fmap_ext. intros k i Hk%list_elem_of_lookup_2%elem_of_tails.
    rewrite apply_writes_app, apply_writes_out, log_writes_get; [done|lia|].
    cbn. intros ?%list_elem_of_singleton. lia. }
  rewrite Eh, (ran_lh _ _ _ _ R12), (ran_pins _ _ _ _ R12), (ran_pins _ _ _ _ R1) in R3.
  pose proof (ran_trans _ _ _ _ _ _ _ R12 R3) as R.
  destruct (write_head_run (set_n 0 t3)) as (t4 & H4 & R4). exists t4, (encode_head (l_view t3 (l_start s)) (Logheader 0 (lh_block (l_lh s)))).
  split; [exact H4|]. split; [|split].
  - apply encode_head_0; [|apply Hr]. rewrite (ran_view _ _ _ _ R3), apply_writes_out.
    + rewrite (ran_view _ _ _ _ R2). cbn. unfold supd. rewrite Z.eqb_refl. by apply commit_head_spec.
    + rewrite commit_home_dom by done. intros Hin. pose proof (rdy_range s Hr) as Hf.
      rewrite Forall_forall in Hf. apply (Hf _ Hin). inlog.
  - destruct R as [Ra Rb Rc Rd Re Rf Rg Rh], R4 as [Qa Qb Qc Qd Qe Qf Qg Qh].
    lproj. rewrite Ra, Rb in *. constructor; lproj; try congruence.
    + by rewrite Qf, Rf, <-!apply_writes_app, <-!app_assoc.
    + by rewrite Qg, Rg, <-!apply_writes_app, <-!app_assoc.
    + by rewrite Qh, Rh, <-!app_assoc.
  - rewrite (ran_lh _ _ _ _ R4). cbn. by rewrite (ran_lh _ _ _ _ R).
Qed.

(** The writes a commit sends to the disk. *)
Definition commit_writes (s : log) (h : block) : list (Z * block) :=
  log_writes s (lh_n (l_lh s)) ++ [(l_start s, commit_head s)] ++
  commit_home s (lh_n (l_lh s)) ++ [(l_start s, h)].

Lemma log_writes_take_out s n k b :
  0 <= n <= LOGBLOCKS -> ~ in_log (l_start s) b \/ b = l_start s ->
  b ∉ (take k (log_writes s n)).*1.
Proof.
  intros Hn Hb. rewrite fmap_take. intros H%(subseteq_take k). revert H.
  apply log_writes_out. inlog.
Qed.

Lemma logged_out s h b :
  ready s -> ~ in_log (l_start s) b ->
  b ∉ (log_writes s (lh_n (l_lh s)) ++ [(l_start s, h)]).*1.
Proof.
  intros Hr Hb. pose proof (rdy_n s Hr). rewrite fmap_app, elem_of_app. intros [H'|H'].
  - revert H'. apply log_writes_out. inlog.
  - cbn in H'. apply list_elem_of_singleton in H'. inlog.
Qed.

(** Before the header reaches the disk, recovery finds an empty log. *)
Lemma crash_before s k :
  ready s ->
  recovers_to (l_start s) (l_disk s)
    (apply_writes (take k (log_writes s (lh_n (l_lh s)))) (l_disk s)).
Proof.
  intros Hr. pose proof (rdy_n s Hr). apply recovers_to_cleared.
  - rewrite apply_writes_out by (apply log_writes_take_out; auto). split; apply Hr.
  - intros b Hb. apply apply_writes_out, log_writes_take_out; auto.
Qed.

(** Once it has, recovery replays the whole transaction, whatever part of
    the installation was already done. *)
Lemma crash_after s j :
  ready s ->
  recovers_to (l_start s) (l_view s)
    (apply_writes (take j (commit_home s (lh_n (l_lh s))))
      (apply_writes (log_writes s (lh_n (l_lh s)) ++ [(l_start s, commit_head s)]) (l_disk s))).
Proof.
  intros Hr. pose proof (rdy_n s Hr) as Hn. pose proof (commit_head_spec s Hr) as (C1 & C2 & C3).
  set (n := lh_n (l_lh s)) in *. set (d0 := apply_writes (_ ++ _) _).
  set (d := apply_writes _ d0).
  assert (forall b, in_log (l_start s) b -> d b = d0 b) as Hin.
  { intros b Hb. apply apply_writes_out. rewrite fmap_take.
    intros H%(subseteq_take j). subst n. rewrite commit_home_dom in H by done.
    pose proof (rdy_range s Hr) as Hf. rewrite Forall_forall in Hf. by apply (Hf _ H). }
  assert (d (l_start s) = commit_head s) as Hhd.
  { rewrite Hin by inlog. unfold d0. rewrite apply_writes_app. cbn. unfold supd. by rewrite Z.eqb_refl. }
  assert (rec_home (l_start s) d n = commit_home s n) as Hrec.
  { apply list_fmap_ext. intros k i Hk%list_elem_of_lookup_2%elem_of_tails.
    rewrite Hhd, C3, Hin by (done || inlog). unfold d0.
    rewrite apply_writes_app, apply_writes_out, log_writes_get; [done|lia|].
    cbn. intros ?%list_elem_of_singleton. lia. }
  exists n. split.
  - unfold head_ok. rewrite Hhd. split_and!; try done; try lia.
    intros i Hi. rewrite C3 by done. by apply txn_out.
  - intros b Hb. rewrite Hrec. unfold d. subst n. rewrite apply_writes_replay.
    apply commit_home_view; [done|]. intros Hni. unfold d0. rewrite apply_writes_out.
    + symmetry. by apply (rdy_clean s Hr).
    + by apply logged_out.
Qed.

Lemma crash_commit s h k :
  ready s -> cleared h ->
  recovers_to (l_start s)
    (if (k <=? Z.to_nat (lh_n (l_lh s)))%nat then l_disk s else l_view s)
    (crash k (commit_writes s h) (l_disk s)).
Proof.
  intros Hr Hc. unfold crash, commit_writes. set (n := lh_n (l_lh s)).
  assert (length (log_writes s n) = Z.to_nat n) as Hl by (unfold log_writes; len; apply length_tails).
  destruct (Nat.leb_spec k (Z.to_nat n)) as [Hk|Hk].
  - rewrite take_app_le by lia. by apply crash_before.
  - rewrite take_app_ge by lia. destruct (k - length (log_writes s n))%nat as [|j] eqn:Ej; [lia|].
    rewrite app_assoc. cbn [app take]. rewrite take_app.
    destruct (take (j - length (commit_home s n)) [(l_start s, h)]) as [|x l] eqn:E.
    + rewrite app_nil_r. change (?a ++ ?b :: ?c) with (a ++ [b] ++ c).
      rewrite app_assoc, apply_writes_app. by apply crash_after.
    + destruct (j - length (commit_home s n))%nat as [|m] eqn:Em; [done|].
      assert (l = [] /\ x = (l_start s, h)) as [-> ->] by (cbn in E; destruct m; cbn in E; by simplify_eq).
      change (?a ++ ?b :: ?c ++ ?e) with (a ++ [b] ++ c ++ e). rewrite !app_assoc, apply_writes_app.
      apply recovers_to_cleared.
      * cbn. unfold supd. by rewrite Z.eqb_refl.
      * intros b Hb. rewrite apply_writes_out; [|cbn; intros ->%list_elem_of_singleton; inlog].
        rewrite apply_writes_app. rewrite take_ge by lia. apply commit_home_view; [done|].
        intros Hni. rewrite apply_writes_out; [symmetry; by apply (rdy_clean s Hr)|].
        by apply logged_out.
Qed.

(** *** Crash atomicity *)

(** C1: A transaction that is ready to commit commits without fault, and the
    commit is atomic: whatever prefix of its block writes reaches the disk,
    and however often the following recoveries crash and are restarted,
    recovery returns, empties the on-disk log, and leaves every block outside
    the log area with its contents from before the transaction (when the
    header block had not been written) or all of the blocks with their new
    contents (when it had).  With no crash, every block has its new contents. *)
Theorem commit_crash_atomic (s : log) (Hr : ready s) (Hn : 0 < lh_n (l_lh s)) :
  exists t w, commit s = Ok (tt, t) /\ l_trace t = l_trace s ++ w /\
    l_disk t = crash (length w) w (l_disk s) /\ lh_n (l_lh t) = 0 /\
    (forall b, ~ in_log (l_start s) b -> l_disk t b = l_view s b) /\
    forall k d, rtc (crash_step (l_start s)) (crash k w (l_disk s)) d ->
      exists t', initlog (l_start s) (boot 0 d) = Ok (tt, t') /\
        cleared (l_disk t' (l_start s)) /\
        forall b, ~ in_log (l_start s) b ->
          l_disk t' b = if (k <=? Z.to_nat (lh_n (l_lh s)))%nat then l_disk s b else l_view s b.
Proof.
  destruct (commit_run s Hr Hn) as (t & h & Hc & Hh & R & Hlh).
  exists t, (commit_writes s h). destruct R as [_ _ _ _ _ _ Rd Rt]. lproj.
  split_and!; [done|done| |by rewrite Hlh| |].
  - unfold crash. by rewrite take_ge.
  - intros b Hb. rewrite Rd. rewrite !apply_writes_app.
    rewrite apply_writes_out by (cbn; intros ->%list_elem_of_singleton; inlog).
    apply commit_home_view; [done|]. intros Hni. rewrite <-apply_writes_app, apply_writes_out by (by apply logged_out).
    symmetry. by apply (rdy_clean s Hr).
  - intros k d Hrtc. pose proof (crash_commit s h k Hr Hh) as H0.
    assert (recovers_to (l_start s) (if (k <=? Z.to_nat (lh_n (l_lh s)))%nat then l_disk s else l_view s) d)
      as (n & Hok & Hd).
    { revert H0. induction Hrtc as [|d1 d2 d3 Hs Hr' IH]; [done|].
      intros H0. apply IH. by eapply crash_step_recovers. }
    destruct (recover_run _ _ _ Hok) as (t' & h' & Ht' & Hc' & Htr & Hdt & _).
    exists t'. rewrite initlog_boot. split_and!; [done| |].
    + rewrite Hdt, Htr, apply_writes_app. cbn. unfold supd. by rewrite Z.eqb_refl.
    + intros b Hb. rewrite (recover_data _ _ _ _ Hok Ht') by done. rewrite Hd by done.
      by destruct (k <=? _)%nat.
Qed.

Definition wit_log : log :=
  Log 2 0 true (Logheader 1 (<[0%nat := 40]> (replicate 30 0))) [40]
    (supd (fun _ => zero_block) 40 (replicate 1024 7)) (fun _ => zero_block) [].

Lemma wit_log_ready : ready wit_log.
Proof.
  constructor; try reflexivity.
  - by vm_compute.
  - apply NoDup_singleton.
  - apply Forall_singleton. split; [by vm_compute|]. intros [_ H]. revert H. by vm_compute.
  - intros b Hb. cbn in *. unfold supd. rewrite (proj2 (Z.eqb_neq b 40)); [done|].
    intros ->. apply Hb. vm_compute. left.
Qed.

Lemma commit_crash_atomic_witness :
  exists t (w : list (Z * block)), commit wit_log = Ok (tt, t) /\ length w = 4%nat /\
    l_disk t 40 = replicate 1024 7.
Proof.
  destruct (commit_crash_atomic wit_log wit_log_ready) as (t & w & H1 & H2 & H3 & H4 & H5 & H6);
    [reflexivity|].
  exists t, w. split_and!; [exact H1| |].
  - assert (l_trace t = w) as <- by exact H2. revert H1. vm_compute. by intros [= <-].
  - apply H5. vm_compute. intros [_ H]. by apply H.
Defined.

(** *** Concurrent operations *)

(** The log shared by the system calls in progress; [c_used] has, for each
    of them, the number of log_writes it has made. *)
Record conc : Type := Conc { c_log : log; c_used : list Z }.

Definition set_view (v : store) (s : log) : log :=
  Log (l_start s) (l_outstanding s) (l_committing s) (l_lh s) (l_pins s) v (l_disk s) (l_trace s).

(** A caller's modification of block [b] in its buffer, then log_write. *)
Definition modify_block (b : Z) (d : block) : M log unit :=
  modify (fun s => set_view (supd (l_view s) b d) s) ;;; log_write b.

Definition data_block (start b : Z) : Prop := 0 <= b < 2 ^ 31 /\ ~ in_log start b.

(** Each step is one critical section of the log's lock; the commit itself
    runs without it. *)
Inductive lstep : conc -> conc -> Prop :=
| lstep_begin s t u :
    begin_op s = Ok (tt, t) -> lstep (Conc s u) (Conc t (0 :: u))
| lstep_write s t u1 x u2 b d :
    x < MAXOPBLOCKS -> data_block (l_start s) b -> modify_block b d s = Ok (tt, t) ->
    lstep (Conc s (u1 ++ x :: u2)) (Conc t (u1 ++ (x + 1) :: u2))
| lstep_end s t u1 x u2 r :
    end_op_enter s = Ok (r, t) -> lstep (Conc s (u1 ++ x :: u2)) (Conc t (u1 ++ u2))
| lstep_commit s t u :
    l_committing s = true -> end_op_commit s = Ok (tt, t) -> lstep (Conc s u) (Conc t u).

Fixpoint reserved (u : list Z) : Z :=
  match u with [] => 0 | x :: u' => (MAXOPBLOCKS - x) + reserved u' end.

Record linv (c : conc) : Prop := Linv {
  li_ready : ready (c_log c);
  li_pins : l_pins (c_log c) ≡ₚ txn (c_log c);
  li_out : l_outstanding (c_log c) = zlen (c_used c);
  li_used : Forall (fun x => 0 <= x <= MAXOPBLOCKS) (c_used c);
  li_space : lh_n (l_lh (c_log c)) + reserved (c_used c) <= LOGBLOCKS;
  li_com : l_committing (c_log c) = true -> c_used c = [];
  li_idle : c_used c = [] -> l_committing (c_log c) = false -> lh_n (l_lh (c_log c)) = 0
}.

Lemma reserved_app u v : reserved (u ++ v) = reserved u + reserved v.
Proof. induction u as [|x u IH]; cbn; lia. Qed.

Lemma reserved_bound u :
  Forall (fun x => 0 <= x <= MAXOPBLOCKS) u -> 0 <= reserved u <= MAXOPBLOCKS * zlen u.
Proof.
  unfold zlen, MAXOPBLOCKS. induction 1 as [|x u Hx Hu IH]; cbn [reserved length]; [done|].
  unfold MAXOPBLOCKS. lia.
Qed.

Lemma find_block_spec b l : forall i,
  (b ∈ l /\ i <= find_block b l i < i + zlen l /\ getz l (find_block b l i - i) = b) \/
  (b ∉ l /\ find_block b l i = i + zlen l).
Proof.
  induction l as [|x l IH]; intros i; unfold zlen in *; cbn [find_block length].
  - right. split; [apply not_elem_of_nil|lia].
  - destruct (Z.eqb_spec x b) as [->|Hne].
    + left. split_and!; [left|lia|lia|]. by rewrite Z.sub_diag.
    + destruct (IH (i + 1)) as [(H1 & H2 & H3)|(H1 & H2)].
      * left. split_and!; [by right|lia|lia|]. unfold getz in *.
        replace (Z.to_nat (find_block b l (i + 1) - i))
          with (S (Z.to_nat (find_block b l (i + 1) - (i + 1)))) by lia. done.
      * right. split; [|lia]. rewrite not_elem_of_cons. by split.
Qed.

(** log_write either absorbs the block or appends it to the transaction. *)
Lemma log_write_run s b :
  0 <= lh_n (l_lh s) < LOGBLOCKS -> length (lh_block (l_lh s)) = 30%nat -> 1 <= l_outstanding s ->
  (b ∈ txn s /\ log_write b s = Ok (tt, s)) \/
  (b ∉ txn s /\ exists bl, length bl = 30%nat /\
    take (Z.to_nat (lh_n (l_lh s) + 1)) bl = txn s ++ [b] /\
    log_write b s = Ok (tt, set_pins (b :: l_pins s) (set_lh (Logheader (lh_n (l_lh s) + 1) bl) s))).
Proof.
  intros Hn Hl Ho. unfold log_write. cbv zeta. fold (txn s).
  assert ((lh_n (l_lh s) >=? LOGBLOCKS) = false) as -> by lia.
  assert ((l_outstanding s <? 1) = false) as -> by lia.
  assert (zlen (txn s) = lh_n (l_lh s)) as Hz by (unfold txn, zlen; len; inlog).
  destruct (find_block_spec b (txn s) 0) as [(H1 & H2 & H3)|(H1 & H2)].
  - left. split; [done|]. rewrite Hz in H2. rewrite Z.sub_0_r in H3.
    set (i := find_block b (txn s) 0) in *.
    assert ((i =? lh_n (l_lh s)) = false) as -> by lia.
    assert (putz (lh_block (l_lh s)) i b = lh_block (l_lh s)) as ->.
    { apply list_insert_id. unfold txn in H3. unfold getz in H3. rewrite lookup_take_lt in H3 by lia.
      rewrite <-H3. apply (getz_lookup (lh_block (l_lh s))). unfold zlen. inlog. }
    by destruct s as [? ? ? [] ? ? ? ?].
  - right. split; [done|]. rewrite H2, Hz, Z.add_0_l, Z.eqb_refl.
    exists (putz (lh_block (l_lh s)) (lh_n (l_lh s)) b). split_and!; [by len| |done].
    replace (Z.to_nat (lh_n (l_lh s) + 1)) with (S (Z.to_nat (lh_n (l_lh s)))) by lia.
    unfold putz. erewrite take_S_r by (apply list_lookup_insert_eq; inlog).
    by rewrite take_insert_ge by lia.
Qed.

(** A block whose buffer is changed and logged stays accounted for. *)
Lemma ready_modify s b d :
  ready s -> lh_n (l_lh s) < LOGBLOCKS -> 1 <= l_outstanding s -> data_block (l_start s) b ->
  l_pins s ≡ₚ txn s ->
  exists t, modify_block b d s = Ok (tt, t) /\ ready t /\ l_pins t ≡ₚ txn t /\
    l_outstanding t = l_outstanding s /\ l_committing t = l_committing s /\
    lh_n (l_lh s) <= lh_n (l_lh t) <= lh_n (l_lh s) + 1 /\ l_view t b = d.
Proof.
  intros Hr Hn Ho Hb Hp. unfold modify_block. erewrite bind_ok by reflexivity.
  set (s1 := set_view (supd (l_view s) b d) s).
  assert (l_view s1 b = d) as Hv by (cbn; unfold supd; by rewrite Z.eqb_refl).
  assert (forall c, c <> b -> l_view s1 c = l_view s c) as Hv'
    by (intros c Hc; cbn; unfold supd; by rewrite (proj2 (Z.eqb_neq c b))).
  pose proof (rdy_n s Hr). pose proof (rdy_len s Hr).
  destruct (log_write_run s1 b) as [[Hin Hw]|(Hni & bl & Hl & Ht & Hw)]; try done;
    [change (0 <= lh_n (l_lh s) < LOGBLOCKS); lia| |].
  - exists s1. destruct Hr. split_and!; try done; try (cbn; lia).
    constructor; try done. intros c Hc. rewrite Hv'; [by apply rdy_clean0|].
    intros ->. by apply Hc.
  - eexists. split; [exact Hw|]. destruct Hr. subst s1. unfold txn, set_view in *. lproj.
    split_and!; try done; try lia.
    + constructor; unfold txn in *; lproj; try done.
      * lia.
      * rewrite Ht. apply NoDup_app. split_and!; [done| |apply NoDup_singleton].
        intros c Hc ->%list_elem_of_singleton. done.
      * rewrite Ht. apply Forall_app. split; [done|]. by apply Forall_singleton.
      * intros c Hc. rewrite Ht in Hc. rewrite elem_of_app, list_elem_of_singleton in Hc.
        unfold supd. rewrite (proj2 (Z.eqb_neq c b)) by tauto. apply rdy_clean0. tauto.
    + rewrite Ht, Hp. apply Permutation_cons_append.
Qed.

Lemma remove1_perm b p q : p ≡ₚ b :: q -> remove1 b p ≡ₚ q.
Proof.
  intros H. assert (b ∈ p) as Hin by (rewrite H; left).
  apply (Permutation_cons_inv (a := b)). rewrite <-H. clear H q. symmetry.
  induction p as [|x p IH]; [by apply elem_of_nil in Hin|]. cbn.
  destruct (Z.eqb_spec x b) as [->|Hne]; [done|].
  apply elem_of_cons in Hin as [?|Hin]; [done|]. rewrite (IH Hin) at 1. apply Permutation_swap.
Qed.

Lemma unpin_all (f : Z -> Z) l : forall p,
  p ≡ₚ f <$> l -> fold_left (fun p i => remove1 (f i) p) l p = [].
Proof.
  induction l as [|i l IH]; intros p Hp; [by apply Permutation_nil_r in Hp|].
  cbn. apply IH. by apply remove1_perm.
Qed.

Lemma end_op_commit_run s :
  ready s -> l_pins s ≡ₚ txn s ->
  exists t, end_op_commit s = Ok (tt, t) /\ ready t /\ l_pins t = [] /\ lh_n (l_lh t) = 0 /\
    l_outstanding t = l_outstanding s /\ l_committing t = false /\
    forall b, ~ in_log (l_start s) b -> l_disk t b = l_view s b.
Proof.
  intros Hr Hp. pose proof (rdy_n s Hr). unfold end_op_commit.
  destruct (decide (lh_n (l_lh s) = 0)) as [H0|H0].
  - exists (set_committing false s). unfold txn in Hp. rewrite H0 in Hp.
    apply Permutation_nil_r in Hp. split_and!; try done.
    + unfold commit, bind, gets. rewrite H0. done.
    + destruct Hr. by constructor.
    + intros b _. symmetry. apply (rdy_clean s Hr). unfold txn. rewrite H0. apply not_elem_of_nil.
  - destruct (commit_run s Hr) as (t & h & Hc & Hh & R & Hlh); [lia|].
    rewrite (bind_ok _ _ _ _ _ Hc). eexists. split; [reflexivity|].
    destruct R as [Ra Rb Rc Rd Re Rf Rg _]. lproj. rewrite Hlh. split_and!; try done.
    + fold (commit_writes s h) in *. assert (in_log (l_start s) (l_start s)) by inlog.
      constructor; unfold txn; lproj; rewrite ?Hlh, ?Ra; try done.
      * apply Hr.
      * apply NoDup_nil_2.
      * rewrite Rg. unfold commit_writes. rewrite !apply_writes_app. cbn. unfold supd.
        rewrite Z.eqb_refl. apply Hh.
      * rewrite Rg. unfold commit_writes. rewrite !apply_writes_app. cbn. unfold supd.
        rewrite Z.eqb_refl. apply Hh.
      * intros b _. rewrite Rf, Rg. destruct (decide (b ∈ (commit_writes s h).*1)) as [Hin|Hni].
        -- by apply apply_writes_agree.
        -- rewrite !apply_writes_out by done. apply (rdy_clean s Hr). intros Hb. apply Hni.
           unfold commit_writes. rewrite !fmap_app, !elem_of_app, commit_home_dom by done. tauto.
    + rewrite Re. apply unpin_all. rewrite Hp, <-(commit_home_dom s Hr).
      unfold commit_home. by rewrite <-list_fmap_compose.
    + intros b Hb. rewrite Rg, !apply_writes_app.
      rewrite apply_writes_out by (cbn; intros ->%list_elem_of_singleton; inlog).
      apply commit_home_view; [done|]. intros Hni.
      rewrite <-apply_writes_app, apply_writes_out by (by apply logged_out).
      symmetry. by apply (rdy_clean s Hr).
Qed.

Lemma end_op_commit_view s t :
  ready s -> end_op_commit s = Ok (tt, t) ->
  l_start t = l_start s /\ forall b, ~ in_log (l_start s) b -> l_view t b = l_view s b.
Proof.
  intros Hr H. pose proof (rdy_n s Hr) as Hn. unfold end_op_commit in H.
  destruct (decide (lh_n (l_lh s) = 0)) as [H0|H0].
  - unfold commit, bind, gets in H. rewrite H0 in H. cbn in H. by injection H as <-.
  - destruct (commit_run s Hr) as (t' & h & Hc & Hh & R & Hlh); [lia|].
    rewrite (bind_ok _ _ _ _ _ Hc) in H. injection H as <-.
    destruct R as [Ra Rb Rc Rd Re Rf Rg _]. lproj. split; [done|].
    intros b Hb. rewrite Rf, !apply_writes_app.
    rewrite apply_writes_out by (cbn; intros ->%list_elem_of_singleton; inlog).
    apply commit_home_view; [done|]. intros Hni.
    by rewrite <-apply_writes_app, apply_writes_out by (by apply logged_out).
Qed.

Lemma end_op_enter_run s :
  l_committing s = false ->
  end_op_enter s = Ok (l_outstanding s =? 1,
    set_committing (l_outstanding s =? 1) (set_outstanding (l_outstanding s - 1) s)).
Proof.
  intros Hc. destruct s as [st o c h p v d tr]. cbn in Hc. subst c.
  unfold end_op_enter, bind, modify, gets. lproj.
  destruct (Z.eqb_spec o 1) as [->|Hne]; [done|].
  by rewrite (proj2 (Z.eqb_neq (o - 1) 0)) by lia.
Qed.

Lemma linv_busy c u1 x u2 :
  linv c -> c_used c = u1 ++ x :: u2 ->
  l_committing (c_log c) = false /\ 1 <= l_outstanding (c_log c) /\ 0 <= x <= MAXOPBLOCKS /\
  0 <= reserved u1 /\ 0 <= reserved u2 /\
  lh_n (l_lh (c_log c)) + reserved u1 + (MAXOPBLOCKS - x) + reserved u2 <= LOGBLOCKS.
Proof.
  intros [_ _ Ho Hu Hs Hc _] E. rewrite E in *.
  apply Forall_app in Hu as [Hu1 [Hx Hu2]%Forall_cons]. rewrite reserved_app in Hs. cbn in Hs.
  pose proof (reserved_bound u1 Hu1). pose proof (reserved_bound u2 Hu2).
  split_and!; try lia.
  - destruct (l_committing (c_log c)); [|done]. by destruct u1; discriminate Hc.
  - rewrite Ho. unfold zlen. len.
Qed.

Lemma linv_step c c' : linv c -> lstep c c' -> linv c'.
Proof.
  intros Hi Hs. destruct Hs as [s t u Hb|s t u1 x u2 b d Hx Hd Hm|s t u1 x u2 r He|s t u Hc He].
  - revert Hb. unfold begin_op. destruct (l_committing s) eqn:Ec; [done|].
    destruct (_ >? _) eqn:Eg; [done|]. intros [= <-]. destruct Hi as [Hr Hp Ho Hu Hs _ _]. cbn [c_log c_used] in *.
    pose proof (reserved_bound u Hu). unfold zlen in *.
    constructor; cbn; try done; unfold zlen, LOGBLOCKS, MAXOPBLOCKS in *; cbn; try lia; try congruence.
    + destruct Hr. by constructor.
    + constructor; [lia|done].
  - destruct (linv_busy _ u1 x u2 Hi eq_refl) as (Hc & Ho & Hx' & H1 & H2 & Hsp). cbn [c_log c_used] in *.
    destruct Hi as [Hr Hp Ho' Hu Hs _ _]. cbn [c_log c_used] in *.
    destruct (ready_modify s b d) as (t' & Ht & Hr' & Hp' & Eo & Ec & En & _); try done; [lia|].
    assert (t' = t) as -> by congruence.
    apply Forall_app in Hu as [Hu1 [_ Hu2]%Forall_cons].
    constructor; cbn; try done; rewrite ?reserved_app; cbn; try lia.
    + rewrite Eo, Ho'. unfold zlen. by rewrite !length_app.
    + apply Forall_app. split; [done|]. constructor; [lia|done].
    + by destruct u1.
  - destruct (linv_busy _ u1 x u2 Hi eq_refl) as (Hc & Ho & Hx' & H1 & H2 & Hsp). cbn [c_log c_used] in *.
    rewrite end_op_enter_run in He by done. injection He as _ <-.
    destruct Hi as [Hr Hp Ho' Hu Hs _ _]. cbn [c_log c_used] in *.
    apply Forall_app in Hu as [Hu1 [_ Hu2]%Forall_cons].
    assert (zlen (u1 ++ u2) = l_outstanding s - 1) as Hz
      by (rewrite Ho'; unfold zlen; rewrite !length_app; cbn [length]; lia).
    constructor; cbn; try done; rewrite ?reserved_app; try lia.
    + destruct Hr. by constructor.
    + by apply Forall_app.
    + intros E. unfold zlen in Hz. destruct (u1 ++ u2); [done|]. cbn in Hz. lia.
    + intros E E'. rewrite E in Hz. unfold zlen in Hz. cbn in Hz. lia.
  - destruct Hi as [Hr Hp Ho Hu Hs Hcu _]. cbn [c_log c_used] in *. rewrite (Hcu Hc) in *.
    destruct (end_op_commit_run s Hr Hp) as (t' & Ht & Hr' & Hp' & Hn & Eo & Ec & _).
    assert (t' = t) as -> by congruence.
    constructor; cbn; try done; try lia.
    + rewrite Hp'. unfold txn. by rewrite Hn.
    + rewrite Hn. done.
Qed.

Lemma linv_boot start d : cleared (d start) -> linv (Conc (boot start d) []).
Proof.
  intros [Hl H0]. constructor; cbn; try done. constructor; cbn; try done. apply NoDup_nil_2.
Qed.

(** C2: Any number of system calls may use the log concurrently: as long as
    each logs at most MAXOPBLOCKS blocks between its begin_op and end_op,
    in every reachable state log_write and end_op never panic (the log never
    overflows), a pending commit finds a transaction that is ready to commit
    and installs it, unpinning every buffer, and begin_op only waits while
    some operation is in progress or being committed. *)
Theorem log_space_suffices (start : Z) (d : store) (c : conc)
    (Hd : cleared (d start)) (Hc : rtc lstep (Conc (boot start d) []) c) :
  (forall u1 x u2 b blk, c_used c = u1 ++ x :: u2 -> x < MAXOPBLOCKS ->
     data_block (l_start (c_log c)) b ->
     exists t, modify_block b blk (c_log c) = Ok (tt, t) /\ l_view t b = blk) /\
  (c_used c <> [] -> exists r t, end_op_enter (c_log c) = Ok (r, t)) /\
  (l_committing (c_log c) = true -> ready (c_log c) /\
     exists t, end_op_commit (c_log c) = Ok (tt, t) /\ l_pins t = [] /\
       forall b, ~ in_log (l_start (c_log c)) b -> l_disk t b = l_view (c_log c) b) /\
  (c_used c = [] -> l_committing (c_log c) = false -> exists t, begin_op (c_log c) = Ok (tt, t)).
Proof.
  assert (linv c) as Hi.
  { pose proof (linv_boot start d Hd) as H0. revert H0.
    induction Hc as [|c1 c2 c3 Hs _ IH]; [done|]. intros H0. apply IH. by eapply linv_step. }
  split_and!.
  - intros u1 x u2 b blk E Hx Hb. destruct (linv_busy _ _ _ _ Hi E) as (H1 & H2 & H3 & H4 & H5 & H6).
    destruct Hi. destruct (ready_modify (c_log c) b blk) as (t & Ht & _ & _ & _ & _ & _ & Hv); try done; [lia|].
    eauto.
  - intros Hne. destruct (c_used c) as [|x u] eqn:E; [done|].
    destruct (linv_busy _ [] x u Hi E) as (H1 & _). rewrite end_op_enter_run by done. eauto.
  - intros _. destruct Hi. split; [done|].
    destruct (end_op_commit_run (c_log c)) as (t & Ht & _ & Hp & _ & _ & _ & Hv); try done. eauto.
  - intros E Ec. unfold begin_op. rewrite Ec, (li_idle _ Hi E Ec), (li_out _ Hi), E. cbn. eauto.
Qed.

Lemma log_space_suffices_witness :
  exists c, rtc lstep (Conc (boot 2 (fun _ => zero_block)) []) c /\
    exists t, modify_block 40 (replicate 1024 7) (c_log c) = Ok (tt, t).
Proof.
  exists (Conc (set_outstanding 1 (boot 2 (fun _ => zero_block))) [0]).
  assert (rtc lstep (Conc (boot 2 (fun _ => zero_block)) [])
    (Conc (set_outstanding 1 (boot 2 (fun _ => zero_block))) [0])) as H.
  { eapply rtc_l; [|apply rtc_refl]. by apply lstep_begin. }
  split; [exact H|].
  destruct (log_space_suffices 2 (fun _ => zero_block) _ ltac:(by split) H) as (H1 & _).
  destruct (H1 [] 0 [] 40 (replicate 1024 7) eq_refl ltac:(done)) as (t & Ht & _).
  - split; [by vm_compute|]. intros [_ H']. revert H'. by vm_compute.
  - exists t. exact Ht.
Defined.
