(* ===== verification/Block.v ===== *)
(** Block: what the buffer cache and the log promise to the file systems.

    The file systems run above bread, bwrite, log_write, begin_op and end_op.
    Bio shows that the cache is coherent with one flat map from blocks to
    contents, and Log that a commit leaves that map as it was outside the log
    area; this file is that map, with the log's bookkeeping kept because
    log_write panics on it.  A buffer is read with [bread], changed in place
    with [bstore] (visible to every later bread at once) and made durable with
    [bwrite] or [log_write]; brelse has no effect at this level. *)

From S2P Require Import Prelude Log.

Record bst : Type := Bst {
  b_view : Z -> Z -> block;      (* device, block number *)
  b_log : list Z;                (* block numbers of the open transaction *)
  b_out : Z                      (* log.outstanding *)
}.

Definition bupd (v : Z -> Z -> block) (dev b : Z) (d : block) : Z -> Z -> block :=
  fun x y => if (x =? dev) && (y =? b) then d else v x y.

(** Loads and stores through a buffer of block [b] of device [dev]. *)
Definition bread (dev b : Z) : M bst block := gets (fun s => b_view s dev b).
Definition bstore (dev b : Z) (d : block) : M bst unit :=
  modify (fun s => Bst (bupd (b_view s) dev b d) (b_log s) (b_out s)).

(** Log absorption: a block already logged is not logged again. *)
Definition add_log (b : Z) (l : list Z) : list Z :=
  if bool_decide (b ∈ l) then l else l ++ [b].

Definition log_write (b : Z) : M bst unit :=
  fun s =>
    if zlen (b_log s) >=? LOGBLOCKS then Fault (FPanic "too big a transaction")
    else if b_out s <? 1 then Fault (FPanic "log_write outside of trans")
    else Ok (tt, Bst (b_view s) (add_log b (b_log s)) (b_out s)).

(** begin_op when no other process runs: a sleep would never end. *)
Definition begin_op : M bst unit :=
  fun s =>
    if zlen (b_log s) + (b_out s + 1) * MAXOPBLOCKS >? LOGBLOCKS then Fault FDeadlock
    else Ok (tt, Bst (b_view s) (b_log s) (b_out s + 1)).

Definition end_op : M bst unit :=
  fun s =>
    let o := b_out s - 1 in
    Ok (tt, Bst (b_view s) (if o =? 0 then [] else b_log s) o).

(** There is room for [k] more log_writes in the open transaction. *)
Definition room (s : bst) (k : Z) : Prop := zlen (b_log s) + k <= LOGBLOCKS /\ 1 <= b_out s.

(** *** Lemmas *)

Lemma bupd_eq v dev b d : bupd v dev b d dev b = d.
Proof. unfold bupd. by rewrite !Z.eqb_refl. Qed.

Lemma bupd_ne v dev b d dev' b' : (dev', b') <> (dev, b) -> bupd v dev b d dev' b' = v dev' b'.
Proof.
  intros H. unfold bupd. destruct (Z.eqb_spec dev' dev), (Z.eqb_spec b' b); try done. congruence.
Qed.

Lemma bupd_ne_b v dev b d b' : b' <> b -> bupd v dev b d dev b' = v dev b'.
Proof. intros H. apply bupd_ne. congruence. Qed.

Lemma room_weaken s k k' : room s k -> k' <= k -> room s k'.
Proof. unfold room. lia. Qed.

Lemma zlen_add_log b l : zlen (add_log b l) <= zlen l + 1.
Proof. unfold add_log, zlen. case_bool_decide; len. Qed.

(** log_write uses at most one block of the room there is. *)
Lemma log_write_ok s b k :
  room s k -> 1 <= k ->
  log_write b s = Ok (tt, Bst (b_view s) (add_log b (b_log s)) (b_out s)) /\
  room (Bst (b_view s) (add_log b (b_log s)) (b_out s)) (k - 1).
Proof.
  intros [Hr Ho] Hk. unfold log_write.
  assert ((zlen (b_log s) >=? LOGBLOCKS) = false) as -> by lia.
  assert ((b_out s <? 1) = false) as -> by lia.
  split; [done|]. split; [|done]. cbn. pose proof (zlen_add_log b (b_log s)). lia.
Qed.

(** *** The detailed log implements this interface *)

(** The detailed log's state [l] represents the block layer's state [s] on
    device [dev]: same transaction, same count of operations, same contents
    outside the log area, and no commit in progress. *)
Record reps (dev : Z) (l : log) (s : bst) : Prop := Reps {
  rp_inv : ready l /\ l_pins l ≡ₚ txn l;
  rp_log : b_log s = txn l;
  rp_out : b_out s = l_outstanding l;
  rp_com : l_committing l = false;
  rp_view : forall b, ~ in_log (l_start l) b -> b_view s dev b = l_view l b
}.

Lemma zlen_txn l : ready l -> zlen (txn l) = lh_n (l_lh l).
Proof. intros H. pose proof (rdy_n l H). pose proof (rdy_len l H). unfold txn, zlen. len. inlog. Qed.

(** begin_op, log_write and end_op of the detailed log, in a form the
    refinement proof can run. *)
Lemma detailed_log_write dev l s b d s' :
  reps dev l s -> data_block (l_start l) b ->
  (bstore dev b d ;;; log_write b) s = Ok (tt, s') ->
  exists l', modify_block b d l = Ok (tt, l') /\ reps dev l' s'.
Proof.
  intros [[Hr Hp] Hl Ho Hc Hv] Hb H. pose proof (zlen_txn l Hr) as Hz.
  unfold bind, bstore, modify in H. unfold log_write in H. cbn in H. rewrite Hl, Hz in H.
  destruct (lh_n (l_lh l) >=? LOGBLOCKS) eqn:En; [done|].
  destruct (b_out s <? 1) eqn:Eo; [done|]. injection H as <-.
  destruct (ready_modify l b d) as (l' & Hm & Hr' & Hp' & Eo' & Ec' & _ & _); try done; try lia.
  exists l'. split; [done|].
  assert (log_write_effect : l_start l' = l_start l /\ l_view l' = supd (l_view l) b d /\
    txn l' = add_log b (txn l)).
  { pose proof (rdy_n l Hr). pose proof (rdy_len l Hr).
    revert Hm. unfold modify_block. erewrite bind_ok by reflexivity.
    set (l1 := set_view _ _). intros Hm.
    destruct (log_write_run l1 b) as [[Hin Hw]|(Hni & bl & Hbl & Ht & Hw)];
      [change (0 <= lh_n (l_lh l) < LOGBLOCKS); lia|done|change (1 <= l_outstanding l); lia| |];
      rewrite Hw in Hm; injection Hm as <-; split_and!; try done;
      change (txn l1) with (txn l) in *.
    - unfold add_log. by rewrite bool_decide_eq_true_2.
    - unfold add_log. by rewrite bool_decide_eq_false_2. }
  destruct log_write_effect as (Es & Ev & Et).
  constructor; cbn; [done|by rewrite Et|lia|congruence|].
  intros b' Hb'. rewrite Es in Hb'. rewrite Ev. unfold bupd, supd. rewrite Z.eqb_refl. cbn.
  destruct (b' =? b); [done|]. by apply Hv.
Qed.

Lemma detailed_begin_op dev l s s' :
  reps dev l s -> begin_op s = Ok (tt, s') ->
  exists l', Log.begin_op l = Ok (tt, l') /\ reps dev l' s'.
Proof.
  intros [[Hr Hp] Hl Ho Hc Hv] H. unfold begin_op in H. rewrite Hl, (zlen_txn l Hr), Ho in H.
  unfold Log.begin_op. rewrite Hc. destruct (_ >? _); [done|]. injection H as <-.
  eexists. split; [reflexivity|]. constructor; cbn; try done.
  split; [|done]. destruct Hr. by constructor.
Qed.

Lemma detailed_end_op dev l s s' :
  reps dev l s -> 1 <= b_out s -> end_op s = Ok (tt, s') ->
  exists l', Log.end_op l = Ok (tt, l') /\ reps dev l' s' /\
    (b_out s = 1 -> forall b, ~ in_log (l_start l) b -> l_disk l' b = b_view s dev b).
Proof.
  intros [[Hr Hp] Hl Ho Hc Hv] H1 [= <-]. unfold Log.end_op.
  rewrite (bind_ok _ _ _ _ _ (end_op_enter_run l Hc)).
  destruct (Z.eqb_spec (l_outstanding l) 1) as [E1|E1]; cbn [when].
  - rewrite Ho, E1. cbn [Z.sub Z.opp Z.add Z.eqb Z.pos_sub].
    set (l1 := set_committing true _).
    assert (ready l1) as Hr1 by (destruct Hr; by constructor).
    destruct (end_op_commit_run l1 Hr1 Hp) as (l' & Hl' & Hr' & Hp' & Hn & Ho' & Hc' & Hd).
    exists l'. split; [done|].
    assert (l_start l' = l_start l /\ (forall b, ~ in_log (l_start l) b -> l_view l' b = l_view l b))
      as [Es Ev] by (by apply (end_op_commit_view l1 l' Hr1)).
    split; [|intros _ b Hb; rewrite Hv by done; by apply Hd].
    constructor; cbn; try done.
    + split; [done|]. rewrite Hp'. unfold txn. by rewrite Hn.
    + unfold txn. by rewrite Hn.
    + intros b Hb. rewrite Es in Hb. rewrite Ev by done. by apply Hv.
  - eexists. split; [reflexivity|]. split; [|lia].
    assert ((b_out s - 1 =? 0) = false) as -> by lia.
    constructor; cbn; try done; [|by rewrite Ho]. split; [|done]. destruct Hr. by constructor.
Qed.

(** C25: The log of kernel/log.c implements the block layer the file systems
    are written against: from corresponding states, begin_op, a logged
    modification of a data block, and end_op return in the detailed log
    whenever they return in the block layer, in corresponding states; and the
    end_op of the last operation makes every block's current contents durable. *)
Theorem log_refines_block_layer (dev : Z) (l : log) (s s' : bst) (H : reps dev l s) :
  (begin_op s = Ok (tt, s') -> exists l', Log.begin_op l = Ok (tt, l') /\ reps dev l' s') /\
  (forall b d, data_block (l_start l) b -> (bstore dev b d ;;; log_write b) s = Ok (tt, s') ->
     exists l', modify_block b d l = Ok (tt, l') /\ reps dev l' s') /\
  (1 <= b_out s -> end_op s = Ok (tt, s') ->
     exists l', Log.end_op l = Ok (tt, l') /\ reps dev l' s' /\
       (b_out s = 1 -> forall b, ~ in_log (l_start l) b -> l_disk l' b = b_view s dev b)).
Proof.
  split_and!.
  - by apply detailed_begin_op.
  - intros b d. by apply detailed_log_write.
  - by apply detailed_end_op.
Qed.

Lemma log_refines_block_layer_witness :
  exists l' s', end_op (Bst (fun _ => l_view wit_log) [40] 1) = Ok (tt, s') /\
    Log.end_op (set_committing false (set_outstanding 1 wit_log)) = Ok (tt, l') /\
    reps 1 l' s' /\ l_disk l' 40 = replicate 1024 7.
Proof.
  assert (reps 1 (set_committing false (set_outstanding 1 wit_log))
               (Bst (fun _ => l_view wit_log) [40] 1)) as H.
  { constructor; try done. split; [|done]. destruct wit_log_ready. by constructor. }
  destruct (log_refines_block_layer _ _ _ (Bst (fun _ => l_view wit_log) [] 0) H) as (_ & _ & H3).
  destruct (H3 ltac:(done) eq_refl) as (l' & H4 & H5 & H6).
  eexists l', _. split_and!; [reflexivity|exact H4|exact H5|].
  apply H6; [done|]. intros [_ H7]. revert H7. by vm_compute.
Defined.
