(* ===== verification/Umem.v ===== *)
(** Umem: the interface between the kernel's I/O paths and user memory.

    readi, writei, pipes and the console move bytes with copyin and copyout
    (kernel/vm.c), which may fail part of the way through a transfer.  The
    classes state the two operations and what their clients rely on; the
    instance is a flat memory with unreadable addresses.  For page tables the
    corresponding facts are in VmUser. *)

From S2P Require Import Prelude.

(** [copyout u a l]: store the bytes [l] at user address [a]; the flag is
    false when it returns -1 (a prefix may then have been stored).
    [copyin u a n]: the flag and the bytes copied, all [n] of them when the
    flag is true.  Either may fault pages in, so both return the memory. *)
Class UserMem (U : Type) : Type := {
  copyout : U -> Z -> list Z -> bool * U;
  copyin : U -> Z -> Z -> bool * list Z * U
}.

Class UserMemOk (U : Type) `{UserMem U} : Prop := {
  copyout_nil : forall u a, copyout u a [] = (true, u);
  copyout_app : forall u a l1 l2,
    copyout u a (l1 ++ l2) =
    let '(ok, u1) := copyout u a l1 in
    if ok then copyout u1 (a + zlen l1) l2 else (false, u1);
  copyin_nil : forall u a, copyin u a 0 = (true, [], u);
  copyin_app : forall u a n1 n2, 0 <= n1 -> 0 <= n2 ->
    copyin u a (n1 + n2) =
    let '(ok1, l1, u1) := copyin u a n1 in
    if ok1 then let '(ok2, l2, u2) := copyin u1 (a + n1) n2 in (ok2, l1 ++ l2, u2)
    else (false, l1, u1);
  copyin_full : forall u a n l u', 0 <= n -> copyin u a n = (true, l, u') -> zlen l = n;
  copyin_short : forall u a n ok l u', 0 <= n -> copyin u a n = (ok, l, u') -> zlen l <= n;
  copyout_copyin : forall u a l u', Forall is_byte l ->
    copyout u a l = (true, u') -> exists u'', copyin u' a (zlen l) = (true, l, u'')
}.

(** Where a read delivers its bytes (either_copyout) and where a write takes
    them from (either_copyin): a user address, or a buffer of the kernel. *)
Inductive dest : Type := DUser (a : Z) | DKernel.
Inductive source : Type := SUser (a : Z) | SKernel (l : list Z).

Section Either.
  Context {U : Type} `{UserMem U}.

(** either_copyout for the bytes that follow the first [tot] of a transfer;
    [acc] is what the kernel buffer holds so far. *)
Definition either_copyout (d : dest) (tot : Z) (acc : list Z) (bytes : list Z) (u : U) :
  bool * (list Z * U) :=
  match d with
  | DUser a => let '(ok, u') := copyout u (a + tot) bytes in (ok, (acc, u'))
  | DKernel => (true, (acc ++ bytes, u))
  end.

Definition either_copyin (sr : source) (tot m : Z) (u : U) : bool * list Z * U :=
  match sr with
  | SUser a => copyin u (a + tot) m
  | SKernel l => (true, slice l tot m, u)
  end.

Context `{!UserMemOk U}.

Lemma either_copyout_nil d acc u : either_copyout d 0 acc [] u = (true, (acc, u)).
Proof.
  destruct d as [a|]; cbn; [by rewrite copyout_nil|by rewrite app_nil_r].
Qed.

(** A transfer in two pieces is the transfer of the whole. *)
Lemma either_copyout_app d l1 l2 u acc u1 :
  either_copyout d 0 [] l1 u = (true, (acc, u1)) ->
  either_copyout d 0 [] (l1 ++ l2) u = either_copyout d (zlen l1) acc l2 u1.
Proof.
  destruct d as [a|]; cbn.
  - rewrite copyout_app, Z.add_0_r. destruct (copyout u a l1) as [ok u'].
    intros [= -> <- ->]. done.
  - by intros [= <- <-].
Qed.

Lemma either_copyout_fail d l1 l2 u acc u1 :
  either_copyout d 0 [] l1 u = (false, (acc, u1)) ->
  either_copyout d 0 [] (l1 ++ l2) u = (false, (acc, u1)).
Proof.
  destruct d as [a|]; cbn; [|done]. rewrite copyout_app, Z.add_0_r.
  destruct (copyout u a l1) as [ok u']. by intros [= -> <- ->].
Qed.

Lemma either_copyin_split sr n m u d u' :
  0 <= n -> 0 <= m -> (match sr with SUser _ => True | SKernel l => n + m <= zlen l end) ->
  either_copyin sr 0 (n + m) u = (true, d, u') ->
  exists u1, either_copyin sr 0 n u = (true, take (Z.to_nat n) d, u1) /\
    either_copyin sr n m u1 = (true, slice d n m, u').
Proof.
  intros Hn Hm Hl. destruct sr as [a|l]; cbn.
  - rewrite copyin_app, Z.add_0_r by done. destruct (copyin u a n) as [[ok1 l1] u1] eqn:E1.
    destruct ok1; [|done]. destruct (copyin u1 (a + n) m) as [[ok2 l2] u2] eqn:E2.
    intros [= -> <- ->]. exists u1. apply copyin_full in E1 as Hl1; [|done].
    apply copyin_full in E2 as Hl2; [|done]. unfold zlen in *.
    unfold slice. rewrite take_app_length' by lia. rewrite drop_app_length' by lia.
    rewrite take_ge by lia. done.
  - intros [= <- <-]. exists u. unfold slice, zlen in *. rewrite !drop_0, take_take.
    replace (Z.to_nat n `min` Z.to_nat (n + m))%nat with (Z.to_nat n) by lia.
    split; [done|]. by rewrite Z2Nat.inj_add, <-take_drop_commute, take_take, Nat.min_id by done.
Qed.
End Either.

(** *** A flat memory, to run the definitions on *)

Record flat : Type := Flat { fl_mem : Z -> Z; fl_top : Z }.

Fixpoint flat_out (m : Z -> Z) (a : Z) (l : list Z) (top : Z) : bool * (Z -> Z) :=
  match l with
  | [] => (true, m)
  | c :: l' => if (0 <=? a) && (a <? top)
               then flat_out (fun x => if x =? a then u8 c else m x) (a + 1) l' top
               else (false, m)
  end.

Fixpoint flat_in (m : Z -> Z) (a : Z) (n : nat) (top : Z) : bool * list Z :=
  match n with
  | O => (true, [])
  | S n' => if (0 <=? a) && (a <? top)
            then let '(ok, l) := flat_in m (a + 1) n' top in (ok, m a :: l)
            else (false, [])
  end.

#[export] Instance flat_UserMem : UserMem flat := {
  copyout u a l := let '(ok, m) := flat_out (fl_mem u) a l (fl_top u) in (ok, Flat m (fl_top u));
  copyin u a n := let '(ok, l) := flat_in (fl_mem u) a (Z.to_nat n) (fl_top u) in (ok, l, u)
}.

Lemma flat_out_app m a l1 l2 top :
  flat_out m a (l1 ++ l2) top =
  let '(ok, m1) := flat_out m a l1 top in
  if ok then flat_out m1 (a + zlen l1) l2 top else (false, m1).
Proof.
  revert m a. induction l1 as [|c l1 IH]; intros m a; cbn [app flat_out].
  - by rewrite Z.add_0_r.
  - destruct (_ && _); [|done]. rewrite IH. destruct (flat_out _ _ l1 _) as [ok m1].
    destruct ok; [|done]. f_equal. unfold zlen. cbn [length]. lia.
Qed.

Lemma flat_in_app m top n1 n2 : forall a,
  flat_in m a (n1 + n2) top =
  let '(ok, l1) := flat_in m a n1 top in
  if ok then let '(ok2, l2) := flat_in m (a + Z.of_nat n1) n2 top in (ok2, l1 ++ l2)
  else (false, l1).
Proof.
  induction n1 as [|n1 IH]; intros a; cbn [Nat.add flat_in].
  - rewrite Z.add_0_r. by destruct (flat_in m a n2 top).
  - destruct (_ && _); [|done]. rewrite IH. destruct (flat_in m (a + 1) n1 top) as [ok l1].
    replace (a + 1 + Z.of_nat n1) with (a + Z.of_nat (S n1)) by lia.
    destruct ok; [|done]. by destruct (flat_in m (a + Z.of_nat (S n1)) n2 top).
Qed.

Lemma flat_in_length m top n : forall a ok l,
  flat_in m a n top = (ok, l) -> (length l <= n)%nat /\ (ok = true -> length l = n).
Proof.
  induction n as [|n IH]; intros a ok l; cbn [flat_in].
  - by intros [= <- <-].
  - destruct (_ && _); [|intros [= <- <-]; cbn; split; [lia|done]].
    destruct (flat_in m (a + 1) n top) as [ok' l'] eqn:E. intros [= <- <-].
    apply IH in E as [H1 H2]. cbn. split; [lia|]. intros ?. by rewrite H2.
Qed.

Lemma flat_out_below l : forall m a top ok m' x,
  flat_out m a l top = (ok, m') -> x < a -> m' x = m x.
Proof.
  induction l as [|c l IH]; intros m a top ok m' x; cbn [flat_out].
  - by intros [= <- <-].
  - destruct (_ && _); [|by intros [= <- <-]]. intros E Hx. apply (IH _ _ _ _ _ x) in E; [|lia].
    rewrite E. by rewrite (proj2 (Z.eqb_neq x a)) by lia.
Qed.

Lemma flat_out_in l : forall m a top m',
  Forall is_byte l -> flat_out m a l top = (true, m') -> flat_in m' a (length l) top = (true, l).
Proof.
  induction l as [|c l IH]; intros m a top m' Hb; [done|]. cbn [flat_out flat_in length].
  apply Forall_cons in Hb as [Hc Hb]. destruct (_ && _); [|done]. intros E.
  pose proof (flat_out_below _ _ _ _ _ _ a E) as Ha. rewrite (IH _ _ _ _ Hb E), Ha by lia.
  by rewrite Z.eqb_refl, u8_small.
Qed.

#[export] Instance flat_UserMemOk : UserMemOk flat.
Proof.
  constructor; cbn.
  - by intros [m top] a.
  - intros [m top] a l1 l2. cbn. rewrite flat_out_app.
    destruct (flat_out m a l1 top) as [ok m1]. by destruct ok.
  - done.
  - intros [m top] a n1 n2 H1 H2. cbn. rewrite Z2Nat.inj_add, flat_in_app by done.
    destruct (flat_in m a (Z.to_nat n1) top) as [ok l1]. rewrite Z2Nat.id by done.
    destruct ok; [|done]. cbn. by destruct (flat_in m (a + n1) (Z.to_nat n2) top).
  - intros [m top] a n l u' Hn. cbn. destruct (flat_in _ _ _ _) as [ok l'] eqn:E. intros [= -> -> <-].
    apply flat_in_length in E as [_ E]. unfold zlen. rewrite E by done. lia.
  - intros [m top] a n ok l u' Hn. cbn. destruct (flat_in _ _ _ _) as [ok' l'] eqn:E. intros [= -> -> <-].
    apply flat_in_length in E as [E _]. unfold zlen. lia.
  - intros [m top] a l u' Hb. cbn. destruct (flat_out m a l top) as [ok m'] eqn:E. intros [= -> <-].
    exists (Flat m' top). cbn. unfold zlen. rewrite Nat2Z.id. by rewrite (flat_out_in _ _ _ _ _ Hb E).
Qed.
