(* ===== verification/Fs.v ===== *)
(** Fs: kernel/fs.c, the xv6 file system: block and inode allocation, the
    inode table, file contents and directories. *)

From S2P Require Import Prelude CString Locks Log Block Umem.

Definition NDIRECT : Z := 12.
Definition NINDIRECT : Z := 256.
Definition MAXFILE : Z := NDIRECT + NINDIRECT.
Definition IPB : Z := 16.
Definition BPB : Z := 8192.
Definition DIRSIZ : nat := 14.
Definition NINODE : nat := 50.
Definition FSMAGIC : Z := 270544960.
Definition T_DIR : Z := 1.
Definition T_FILE : Z := 2.
Definition T_DEVICE : Z := 3.

Record superblock : Type := Superblock {
  sb_magic : Z; sb_size : Z; sb_nblocks : Z; sb_ninodes : Z;
  sb_nlog : Z; sb_logstart : Z; sb_inodestart : Z; sb_bmapstart : Z
}.

Record inode : Type := Inode {
  i_dev : Z; i_inum : Z; i_ref : Z; i_lock : Sleep.sleeplock; i_valid : bool;
  i_type : Z; i_major : Z; i_minor : Z; i_nlink : Z; i_size : Z; i_addrs : list Z
}.

Definition IBLOCK (i : Z) (sb : superblock) : Z := i / IPB + sb_inodestart sb.
Definition BBLOCK (b : Z) (sb : superblock) : Z := b / BPB + sb_bmapstart sb.

(** The state fs.c works on; an inode pointer is an index of the table. *)
Record fs (U : Type) : Type := Fs {
  f_b : bst;
  f_sb : superblock;
  f_it : list inode;
  f_pid : Z;
  f_usr : U
}.
Arguments Fs {U}.
Arguments f_b {U}.
Arguments f_sb {U}.
Arguments f_it {U}.
Arguments f_pid {U}.
Arguments f_usr {U}.

Section Inode_updates.
Definition set_ref (r : Z) (ip : inode) : inode :=
  Inode (i_dev ip) (i_inum ip) r (i_lock ip) (i_valid ip) (i_type ip) (i_major ip)
        (i_minor ip) (i_nlink ip) (i_size ip) (i_addrs ip).
Definition set_ilock (k : Sleep.sleeplock) (ip : inode) : inode :=
  Inode (i_dev ip) (i_inum ip) (i_ref ip) k (i_valid ip) (i_type ip) (i_major ip)
        (i_minor ip) (i_nlink ip) (i_size ip) (i_addrs ip).
Definition set_ivalid (v : bool) (ip : inode) : inode :=
  Inode (i_dev ip) (i_inum ip) (i_ref ip) (i_lock ip) v (i_type ip) (i_major ip)
        (i_minor ip) (i_nlink ip) (i_size ip) (i_addrs ip).
Definition set_type (t : Z) (ip : inode) : inode :=
  Inode (i_dev ip) (i_inum ip) (i_ref ip) (i_lock ip) (i_valid ip) t (i_major ip)
        (i_minor ip) (i_nlink ip) (i_size ip) (i_addrs ip).
Definition set_size (n : Z) (ip : inode) : inode :=
  Inode (i_dev ip) (i_inum ip) (i_ref ip) (i_lock ip) (i_valid ip) (i_type ip) (i_major ip)
        (i_minor ip) (i_nlink ip) n (i_addrs ip).
Definition set_addrs (a : list Z) (ip : inode) : inode :=
  Inode (i_dev ip) (i_inum ip) (i_ref ip) (i_lock ip) (i_valid ip) (i_type ip) (i_major ip)
        (i_minor ip) (i_nlink ip) (i_size ip) a.
Definition set_meta (ty ma mi nl : Z) (ip : inode) : inode :=
  Inode (i_dev ip) (i_inum ip) (i_ref ip) (i_lock ip) (i_valid ip) ty ma mi nl
        (i_size ip) (i_addrs ip).
End Inode_updates.

Section Ops.
  Context {U : Type} `{UserMem U}.

Definition set_b (b : bst) (s : fs U) : fs U := Fs b (f_sb s) (f_it s) (f_pid s) (f_usr s).
Definition set_it (l : list inode) (s : fs U) : fs U := Fs (f_b s) (f_sb s) l (f_pid s) (f_usr s).
Definition set_usr (u : U) (s : fs U) : fs U := Fs (f_b s) (f_sb s) (f_it s) (f_pid s) u.

(** A block-layer operation. *)
Definition onb {A} (m : M bst A) : M (fs U) A := zoom f_b set_b m.

Definition getino (ip : nat) : M (fs U) inode :=
  fun s => match f_it s !! ip with Some x => Ok (x, s) | None => Fault FNull end.
Definition updino (ip : nat) (f : inode -> inode) : M (fs U) unit :=
  modify (fun s => set_it (alter f ip (f_it s)) s).

Definition readsb (dev : Z) : M (fs U) superblock :=
  bp <- onb (bread dev 1) ;;
  ret (Superblock (rd32 bp 0) (rd32 bp 4) (rd32 bp 8) (rd32 bp 12)
                  (rd32 bp 16) (rd32 bp 20) (rd32 bp 24) (rd32 bp 28)).

Definition bzero (dev bno : Z) : M (fs U) unit :=
  onb (bread dev bno) ;;;
  onb (bstore dev bno zero_block) ;;;
  onb (log_write bno).

(** balloc's inner loop over the bits of the bitmap block that starts at [b]:
    [Some None] leaves the loop, [Some (Some a)] returns [a] from balloc. *)
Definition balloc_bit (dev b : Z) (bi : Z) : M (fs U) (option (option Z)) :=
  sb <- gets f_sb ;;
  if negb (b + bi <? sb_size sb) then ret (Some None)
  else
    bp <- onb (bread dev (BBLOCK b sb)) ;;
    if negb (bm_get bp bi)
    then onb (bstore dev (BBLOCK b sb) (bm_set bp bi)) ;;;
         onb (log_write (BBLOCK b sb)) ;;;
         bzero dev (b + bi) ;;;
         ret (Some (Some (b + bi)))
    else ret None.

Definition balloc_block (dev : Z) (k : Z) : M (fs U) (option Z) :=
  r <- for_upto (Z.to_nat BPB) 0 (balloc_bit dev (k * BPB)) ;;
  ret (match r with Some (Some a) => Some a | _ => None end).

(** [for(b = 0; b < sb.size; b += BPB)], one iteration per bitmap block. *)
Definition balloc (dev : Z) : M (fs U) Z :=
  sb <- gets f_sb ;;
  r <- for_upto (Z.to_nat ((sb_size sb + BPB - 1) / BPB)) 0 (balloc_block dev) ;;
  ret (default 0 r).

Definition bfree (dev b : Z) : M (fs U) unit :=
  sb <- gets f_sb ;;
  bp <- onb (bread dev (BBLOCK b sb)) ;;
  let bi := b mod BPB in
  if negb (bm_get bp bi) then panic "freeing free block"
  else
    onb (bstore dev (BBLOCK b sb) (bm_clear bp bi)) ;;;
    onb (log_write (BBLOCK b sb)).

Definition iinit : list inode :=
  replicate NINODE (Inode 0 0 0 Sleep.initsleeplock false 0 0 0 0 0 (replicate 13 0)).

(** Offset of inode [inum]'s struct dinode in its block. *)
Definition dioff (inum : Z) : Z := 64 * (inum mod IPB).

(** iget's scan: a used entry for the inode, else the first free entry. *)
Fixpoint iget_scan (l : list inode) (i : nat) (dev inum : Z) (empty : option nat) :
  nat + option nat :=
  match l with
  | [] => inr empty
  | ip :: l' =>
      if (i_ref ip >? 0) && (i_dev ip =? dev) && (i_inum ip =? inum) then inl i
      else iget_scan l' (S i) dev inum
             (match empty with
              | None => if i_ref ip =? 0 then Some i else None
              | Some _ => empty
              end)
  end.

Definition iget (dev inum : Z) : M (fs U) nat :=
  l <- gets f_it ;;
  match iget_scan l 0 dev inum None with
  | inl i => updino i (fun ip => set_ref (i_ref ip + 1) ip) ;;; ret i
  | inr None => panic "iget: no inodes"
  | inr (Some i) =>
      updino i (fun ip => Inode dev inum 1 (i_lock ip) false (i_type ip) (i_major ip)
                            (i_minor ip) (i_nlink ip) (i_size ip) (i_addrs ip)) ;;;
      ret i
  end.

Definition ialloc_try (dev type : Z) (inum : Z) : M (fs U) (option nat) :=
  sb <- gets f_sb ;;
  bp <- onb (bread dev (IBLOCK inum sb)) ;;
  if s16 (rd16 bp (dioff inum)) =? 0
  then
    onb (bstore dev (IBLOCK inum sb)
          (wr16 (splice bp (dioff inum) (replicate 64 0)) (dioff inum) type)) ;;;
    onb (log_write (IBLOCK inum sb)) ;;;
    i <- iget dev inum ;;
    ret (Some i)
  else ret None.

Definition ialloc (dev type : Z) : M (fs U) (option nat) :=
  sb <- gets f_sb ;;
  for_upto (Z.to_nat (sb_ninodes sb - 1)) 1 (ialloc_try dev type).

(** The thirteen words of an inode's address array. *)
Fixpoint wr_addrs (bp : block) (off : Z) (l : list Z) : block :=
  match l with
  | [] => bp
  | a :: l' => wr_addrs (wr32 bp off a) (off + 4) l'
  end.

Definition rd_addrs (bp : block) (off : Z) : list Z :=
  (fun k => rd32 bp (off + 4 * Z.of_nat k)) <$> seq 0 13.

Definition put_dinode (bp : block) (off : Z) (ip : inode) : block :=
  wr_addrs
    (wr32 (wr16 (wr16 (wr16 (wr16 bp off (i_type ip)) (off + 2) (i_major ip))
                      (off + 4) (i_minor ip)) (off + 6) (i_nlink ip)) (off + 8) (i_size ip))
    (off + 12) (i_addrs ip).

Definition iupdate (ip : nat) : M (fs U) unit :=
  x <- getino ip ;;
  sb <- gets f_sb ;;
  bp <- onb (bread (i_dev x) (IBLOCK (i_inum x) sb)) ;;
  onb (bstore (i_dev x) (IBLOCK (i_inum x) sb) (put_dinode bp (dioff (i_inum x)) x)) ;;;
  onb (log_write (IBLOCK (i_inum x) sb)).

Definition idup (ip : nat) : M (fs U) nat :=
  updino ip (fun x => set_ref (i_ref x + 1) x) ;;; ret ip.

(** A sleep-lock operation on an inode's lock. *)
Definition on_ilock {A} (ip : nat) (m : M Sleep.sleeplock A) : M (fs U) A :=
  x <- getino ip ;;
  match m (i_lock x) with
  | Ok (a, k) => updino ip (set_ilock k) ;;; ret a
  | Fault e => fail e
  end.

Definition get_dinode (bp : block) (off : Z) (ip : inode) : inode :=
  Inode (i_dev ip) (i_inum ip) (i_ref ip) (i_lock ip) true
        (s16 (rd16 bp off)) (s16 (rd16 bp (off + 2))) (s16 (rd16 bp (off + 4)))
        (s16 (rd16 bp (off + 6))) (rd32 bp (off + 8)) (rd_addrs bp (off + 12)).

Definition ilock (ip : option nat) : M (fs U) unit :=
  match ip with
  | None => panic "ilock"
  | Some i =>
      x <- getino i ;;
      if i_ref x <? 1 then panic "ilock"
      else
        pid <- gets f_pid ;;
        on_ilock i (Sleep.acquiresleep pid) ;;;
        x <- getino i ;;
        if i_valid x then ret tt
        else
          sb <- gets f_sb ;;
          bp <- onb (bread (i_dev x) (IBLOCK (i_inum x) sb)) ;;
          updino i (get_dinode bp (dioff (i_inum x))) ;;;
          x' <- getino i ;;
          if i_type x' =? 0 then panic "ilock: no type" else ret tt
  end.

Definition iunlock (ip : option nat) : M (fs U) unit :=
  match ip with
  | None => panic "iunlock"
  | Some i =>
      pid <- gets f_pid ;;
      h <- on_ilock i (Sleep.holdingsleep pid) ;;
      x <- getino i ;;
      if negb h || (i_ref x <? 1) then panic "iunlock"
      else on_ilock i Sleep.releasesleep
  end.

Definition bmap (ip : nat) (bn : Z) : M (fs U) Z :=
  x <- getino ip ;;
  if bn <? NDIRECT
  then
    let addr := getz (i_addrs x) bn in
    if addr =? 0
    then
      addr <- balloc (i_dev x) ;;
      if addr =? 0 then ret 0
      else updino ip (fun x => set_addrs (putz (i_addrs x) bn addr) x) ;;; ret addr
    else ret addr
  else
    let bn := bn - NDIRECT in
    if bn <? NINDIRECT
    then
      let addr := getz (i_addrs x) NDIRECT in
      addr <- (if addr =? 0
               then
                 addr <- balloc (i_dev x) ;;
                 (if addr =? 0 then ret 0
                  else updino ip (fun x => set_addrs (putz (i_addrs x) NDIRECT addr) x) ;;;
                       ret addr)
               else ret addr) ;;
      if addr =? 0 then ret 0
      else
        bp <- onb (bread (i_dev x) addr) ;;
        let a := rd32 bp (4 * bn) in
        if a =? 0
        then
          a <- balloc (i_dev x) ;;
          (if a =? 0 then ret tt
           else
             bp <- onb (bread (i_dev x) addr) ;;
             onb (bstore (i_dev x) addr (wr32 bp (4 * bn) a)) ;;;
             onb (log_write addr)) ;;;
          ret a
        else ret a
    else panic "bmap: out of range".

Definition itrunc_direct (ip : nat) (i : Z) : M (fs U) unit :=
  x <- getino ip ;;
  if getz (i_addrs x) i =? 0 then ret tt
  else
    bfree (i_dev x) (getz (i_addrs x) i) ;;;
    updino ip (fun x => set_addrs (putz (i_addrs x) i 0) x).

Definition itrunc_indirect (dev ind : Z) (j : Z) : M (fs U) unit :=
  bp <- onb (bread dev ind) ;;
  let a := rd32 bp (4 * j) in
  if a =? 0 then ret tt else bfree dev a.

Definition upto (n : Z) : list Z := Z.of_nat <$> seq 0 (Z.to_nat n).

Definition itrunc (ip : nat) : M (fs U) unit :=
  for_each (upto NDIRECT) (itrunc_direct ip) ;;;
  x <- getino ip ;;
  (if getz (i_addrs x) NDIRECT =? 0 then ret tt
   else
     for_each (upto NINDIRECT) (itrunc_indirect (i_dev x) (getz (i_addrs x) NDIRECT)) ;;;
     bfree (i_dev x) (getz (i_addrs x) NDIRECT) ;;;
     updino ip (fun x => set_addrs (putz (i_addrs x) NDIRECT 0) x)) ;;;
  updino ip (set_size 0) ;;;
  iupdate ip.

Definition iput (ip : nat) : M (fs U) unit :=
  x <- getino ip ;;
  (if (i_ref x =? 1) && i_valid x && (i_nlink x =? 0)
   then
     pid <- gets f_pid ;;
     on_ilock ip (Sleep.acquiresleep pid) ;;;
     itrunc ip ;;;
     updino ip (set_type 0) ;;;
     iupdate ip ;;;
     updino ip (set_ivalid false) ;;;
     on_ilock ip Sleep.releasesleep
   else ret tt) ;;;
  updino ip (fun x => set_ref (i_ref x - 1) x).

Definition iunlockput (ip : nat) : M (fs U) unit := iunlock (Some ip) ;;; iput ip.

Definition ireclaim_one (dev inum : Z) : M (fs U) unit :=
  sb <- gets f_sb ;;
  bp <- onb (bread dev (IBLOCK inum sb)) ;;
  if negb (s16 (rd16 bp (dioff inum)) =? 0) && (s16 (rd16 bp (dioff inum + 6)) =? 0)
  then
    ip <- iget dev inum ;;
    onb begin_op ;;;
    ilock (Some ip) ;;;
    iunlock (Some ip) ;;;
    iput ip ;;;
    onb end_op
  else ret tt.

Definition ireclaim (dev : Z) : M (fs U) unit :=
  sb <- gets f_sb ;;
  for_each ((fun k => k + 1) <$> upto (sb_ninodes sb - 1)) (ireclaim_one dev).

(** initlog on this device: recovery may change the blocks (Log.initlog). *)
Definition initlog (dev logstart : Z) : M bst unit :=
  fun s => match Log.initlog logstart (boot 0 (b_view s dev)) with
           | Ok (_, t) =>
               Ok (tt, Bst (fun d b => if d =? dev then l_view t b else b_view s d b) [] 0)
           | Fault e => Fault e
           end.

Definition fsinit (dev : Z) : M (fs U) unit :=
  sb <- readsb dev ;;
  modify (fun s => Fs (f_b s) sb (f_it s) (f_pid s) (f_usr s)) ;;;
  if negb (sb_magic sb =? FSMAGIC) then panic "invalid file system"
  else onb (initlog dev (sb_logstart sb)) ;;; ireclaim dev.

Record stat : Type := Stat { st_dev : Z; st_ino : Z; st_type : Z; st_nlink : Z; st_size : Z }.

Definition stati (ip : nat) : M (fs U) stat :=
  x <- getino ip ;; ret (Stat (i_dev x) (i_inum x) (i_type x) (i_nlink x) (i_size x)).

(** One iteration of readi's loop; the locals are tot, off and the kernel
    buffer's contents. *)
Definition readi_body (ip : nat) (d : dest) (n : Z) (x : Z * Z * list Z) :
  M (fs U) (Z * Z * list Z + Z * list Z) :=
  let '(tot, off, acc) := x in
  if negb (tot <? n) then ret (inr (tot, acc))
  else
    addr <- bmap ip (off / BSIZE) ;;
    if addr =? 0 then ret (inr (tot, acc))
    else
      i <- getino ip ;;
      bp <- onb (bread (i_dev i) addr) ;;
      let m := Z.min (n - tot) (BSIZE - off mod BSIZE) in
      u <- gets f_usr ;;
      let '(ok, (acc', u')) := either_copyout d tot acc (slice bp (off mod BSIZE) m) u in
      modify (set_usr u') ;;;
      if (ok : bool) then ret (inl (tot + m, off + m, acc')) else ret (inr (-1, acc')).

(** Returns the count and, for a kernel destination, the bytes. *)
Definition readi (ip : nat) (d : dest) (off n : Z) : M (fs U) (Z * list Z) :=
  x <- getino ip ;;
  if (off >? i_size x) || (u32 (off + n) <? off) then ret (0, [])
  else
    let n := if u32 (off + n) >? i_size x then i_size x - off else n in
    loop (Z.to_nat (n / BSIZE) + 3) (readi_body ip d n) (0, off, []).

Definition writei_body (ip : nat) (sr : source) (n : Z) (x : Z * Z) :
  M (fs U) (Z * Z + Z * Z) :=
  let '(tot, off) := x in
  if negb (tot <? n) then ret (inr (tot, off))
  else
    addr <- bmap ip (off / BSIZE) ;;
    if addr =? 0 then ret (inr (tot, off))
    else
      i <- getino ip ;;
      bp <- onb (bread (i_dev i) addr) ;;
      let m := Z.min (n - tot) (BSIZE - off mod BSIZE) in
      u <- gets f_usr ;;
      let '(ok, bytes, u') := either_copyin sr tot m u in
      modify (set_usr u') ;;;
      onb (bstore (i_dev i) addr (splice bp (off mod BSIZE) bytes)) ;;;
      if (ok : bool)
      then onb (log_write addr) ;;; ret (inl (tot + m, off + m))
      else ret (inr (tot, off)).

Definition writei (ip : nat) (sr : source) (off n : Z) : M (fs U) Z :=
  x <- getino ip ;;
  if (off >? i_size x) || (u32 (off + n) <? off) then ret (-1)
  else if u32 (off + n) >? MAXFILE * BSIZE then ret (-1)
  else
    r <- loop (Z.to_nat (n / BSIZE) + 3) (writei_body ip sr n) (0, off) ;;
    let '(tot, off') := r in
    updino ip (fun x => if off' >? i_size x then set_size off' x else x) ;;;
    iupdate ip ;;;
    ret tot.

(** *** Directories *)

Definition namecmp (s t : list Z) : Z := strncmp s t DIRSIZ.

(** struct dirent: the inode number and the name field of its 16 bytes. *)
Definition de_inum (de : list Z) : Z := rd16 de 0.
Definition de_name (de : list Z) : list Z := drop 2 de.
Definition mk_dirent (inum : Z) (name : list Z) : list Z := le_enc 2 inum ++ name.

(** Iterations of [for(off = 0; off < dp->size; off += sizeof(de))]. *)
Definition dir_slots (size : Z) : nat := Z.to_nat ((size + 15) / 16).

Definition dirlookup_slot (dp : nat) (name : list Z) (k : Z) : M (fs U) (option (nat * Z)) :=
  '(r, de) <- readi dp DKernel (16 * k) 16 ;;
  if negb (r =? 16) then panic "dirlookup read"
  else if de_inum de =? 0 then ret None
  else if namecmp name (de_name de) =? 0
  then x <- getino dp ;; ip <- iget (i_dev x) (de_inum de) ;; ret (Some (ip, 16 * k))
  else ret None.

(** The inode found and the byte offset of its entry. *)
Definition dirlookup (dp : nat) (name : list Z) : M (fs U) (option (nat * Z)) :=
  x <- getino dp ;;
  if negb (i_type x =? T_DIR) then panic "dirlookup not DIR"
  else for_upto (dir_slots (i_size x)) 0 (dirlookup_slot dp name).

Definition dirlink_slot (dp : nat) (k : Z) : M (fs U) (option Z) :=
  '(r, de) <- readi dp DKernel (16 * k) 16 ;;
  if negb (r =? 16) then panic "dirlink read"
  else if de_inum de =? 0 then ret (Some (16 * k)) else ret None.

Definition dirlink (dp : nat) (name : list Z) (inum : Z) : M (fs U) Z :=
  r <- dirlookup dp name ;;
  match r with
  | Some (ip, _) => iput ip ;;; ret (-1)
  | None =>
      x <- getino dp ;;
      o <- for_upto (dir_slots (i_size x)) 0 (dirlink_slot dp) ;;
      let off := default (16 * Z.of_nat (dir_slots (i_size x))) o in
      r <- writei dp (SKernel (mk_dirent inum (strncpy_chars name DIRSIZ))) off 16 ;;
      ret (if r =? 16 then 0 else -1)
  end.

End Ops.
