(* ===== verification/FsAlloc.v ===== *)
(** FsAlloc: the block allocator of kernel/fs.c (balloc, bzero, bfree). *)

From S2P Require Import Prelude CString Locks Log Block Umem Fs.

(** The bitmap's bit for block [b], in the blocks [v] of the device. *)
Definition bit (sb : superblock) (v : Z -> block) (b : Z) : bool :=
  bm_get (v (BBLOCK b sb)) (b mod BPB).

(** The first data block: everything before holds the boot block, the
    superblock, the log, the inodes and the bitmap. *)
Definition nmeta (sb : superblock) : Z := sb_bmapstart sb + sb_size sb / BPB + 1.

(** The layout that mkfs computes. *)
Record geom (sb : superblock) : Prop := Geom {
  gm_inodes : 0 < sb_ninodes sb /\ 2 <= sb_inodestart sb /\
              sb_inodestart sb + sb_ninodes sb / IPB + 1 <= sb_bmapstart sb;
  gm_size : nmeta sb <= sb_size sb < 2 ^ 31
}.

(** A device whose metadata blocks are all marked in use. *)
Record disk_wf (sb : superblock) (v : Z -> block) : Prop := Disk_wf {
  dw_len : forall b, length (v b) = 1024%nat;
  dw_meta : forall b, 0 <= b < nmeta sb -> bit sb v b = true
}.

Ltac geo := unfold nmeta, BBLOCK, IBLOCK, MAXFILE, BPB, IPB, BSIZE, NDIRECT, NINDIRECT in *.

Section Alloc.
  Context {U : Type} `{UserMem U}.
  Implicit Types s : fs U.

Definition alloc_st (s : fs U) (dev a : Z) : fs U :=
  let bb := BBLOCK a (f_sb s) in
  let v := b_view (f_b s) in
  set_b (Bst (bupd (bupd v dev bb (bm_set (v dev bb) (a mod BPB))) dev a zero_block)
             (add_log a (add_log bb (b_log (f_b s)))) (b_out (f_b s))) s.

Lemma BBLOCK_block sb k bi : 0 <= bi < BPB -> BBLOCK (k * BPB + bi) sb = BBLOCK (k * BPB) sb.
Proof. intros. geo. f_equal. dlia. Qed.

Lemma onb_ok {A} (m : M bst A) s a b : m (f_b s) = Ok (a, b) -> onb m s = Ok (a, set_b b s).
Proof. unfold onb, zoom. by intros ->. Qed.

Lemma set_b_id s : set_b (f_b s) s = s.
Proof. by destruct s. Qed.

Lemma onb_bread dev b s : onb (bread dev b) s = Ok (b_view (f_b s) dev b, s).
Proof. unfold onb, zoom, bread, gets. by rewrite set_b_id. Qed.

Lemma onb_bstore dev b d s :
  onb (bstore dev b d) s =
  Ok (tt, set_b (Bst (bupd (b_view (f_b s)) dev b d) (b_log (f_b s)) (b_out (f_b s))) s).
Proof. done. Qed.

Lemma onb_log_write b s k :
  room (f_b s) k -> 1 <= k ->
  onb (log_write b) s =
  Ok (tt, set_b (Bst (b_view (f_b s)) (add_log b (b_log (f_b s))) (b_out (f_b s))) s).
Proof. intros Hr Hk. apply onb_ok. by apply (log_write_ok _ _ k). Qed.

Lemma room_bst v v' l l' o k k' :
  room (Bst v l o) k -> zlen l' + k' <= zlen l + k -> room (Bst v' l' o) k'.
Proof. unfold room. cbn. lia. Qed.

Lemma alloc_room s dev a k : room (f_b s) k -> room (f_b (alloc_st s dev a)) (k - 2).
Proof.
  destruct s as [[v l o] sb it pid u]. cbn. intros H'. eapply room_bst; [exact H'|].
  pose proof (zlen_add_log a (add_log (BBLOCK a sb) l)).
  pose proof (zlen_add_log (BBLOCK a sb) l). lia.
Qed.

Lemma balloc_bit_eq s dev k bi :
  room (f_b s) 2 -> 0 <= bi < BPB ->
  balloc_bit dev (k * BPB) bi s =
  if (sb_size (f_sb s) <=? k * BPB + bi) || negb (bit (f_sb s) (b_view (f_b s) dev) (k * BPB + bi))
  then Ok (Some (if k * BPB + bi <? sb_size (f_sb s) then Some (k * BPB + bi) else None),
           if k * BPB + bi <? sb_size (f_sb s) then alloc_st s dev (k * BPB + bi) else s)
  else Ok (None, s).
Proof.
  intros Hr Hb. unfold balloc_bit. erewrite bind_ok by reflexivity.
  rewrite Z.leb_antisym. destruct (Z.ltb_spec (k * BPB + bi) (sb_size (f_sb s))) as [Hlt|Hge]; [|done].
  cbn [negb orb]. rewrite (bind_ok _ _ _ _ _ (onb_bread _ _ s)).
  unfold bit. rewrite BBLOCK_block by done.
  assert ((k * BPB + bi) mod BPB = bi) as Hm by (geo; dlia). rewrite Hm.
  destruct (bm_get _ bi) eqn:Eb; [done|]. cbn [negb].
  rewrite (bind_ok _ _ _ _ _ (onb_bstore _ _ _ s)).
  erewrite bind_ok by (apply (onb_log_write _ _ 2); [exact Hr|lia]).
  set (s1 := set_b _ _).
  assert (bzero dev (k * BPB + bi) s1 = Ok (tt, alloc_st s dev (k * BPB + bi))) as Hz.
  { unfold bzero. rewrite (bind_ok _ _ _ _ _ (onb_bread _ _ _)), (bind_ok _ _ _ _ _ (onb_bstore _ _ _ _)).
    rewrite (onb_log_write _ _ 1); [| |lia].
    - unfold alloc_st, s1. cbn -[add_log]. by rewrite BBLOCK_block, Hm by done.
    - destruct s as [[v l o] sb it pid u]. cbn -[add_log] in *. eapply room_bst; [exact Hr|].
      pose proof (zlen_add_log (BBLOCK (k * BPB) sb) l). lia. }
  by rewrite (bind_ok _ _ _ _ _ Hz).
Qed.

(** balloc either finds every block in use and changes nothing, or returns a
    free block, marked and zeroed. *)
Lemma balloc_spec s dev :
  geom (f_sb s) -> disk_wf (f_sb s) (b_view (f_b s) dev) -> room (f_b s) 2 ->
  (balloc dev s = Ok (0, s) /\
   forall b, 0 <= b < sb_size (f_sb s) -> bit (f_sb s) (b_view (f_b s) dev) b = true) \/
  (exists a, balloc dev s = Ok (a, alloc_st s dev a) /\ nmeta (f_sb s) <= a < sb_size (f_sb s) /\
     bit (f_sb s) (b_view (f_b s) dev) a = false).
Proof.
  intros Hg Hw Hr. unfold balloc. erewrite bind_ok by reflexivity.
  set (sz := sb_size (f_sb s)) in *. set (B := bit (f_sb s) (b_view (f_b s) dev)) in *.
  destruct (for_upto_rule (balloc_block dev)
    (fun k t => t = s /\ forall b, 0 <= b < sz -> b < k * BPB -> B b = true)
    (fun a t => t = alloc_st s dev a /\ 0 <= a < sz /\ B a = false)
    0 (Z.to_nat ((sz + BPB - 1) / BPB)) s) as (r & t & Ht & Hq).
  - split; [done|]. intros. lia.
  - intros k t Hk [-> Hall]. unfold balloc_block.
    destruct (for_upto_find (balloc_bit dev (k * BPB))
      (fun bi => (sz <=? k * BPB + bi) || negb (B (k * BPB + bi)))
      (fun bi => if k * BPB + bi <? sz then Some (k * BPB + bi) else None)
      (fun bi => if k * BPB + bi <? sz then alloc_st s dev (k * BPB + bi) else s)
      s (Z.to_nat BPB) 0) as [(i & Hi & Hp & Hm & E)|[Hm E]].
    + intros bi Hbi. apply balloc_bit_eq; [done|geo; lia].
    + rewrite (bind_ok _ _ _ _ _ E). eexists _, _. split; [reflexivity|].
      destruct (Z.ltb_spec (k * BPB + i) sz) as [Hlt|Hge].
      * split; [done|]. apply orb_true_iff in Hp. destruct Hp as [?|Hp]; [lia|].
        apply negb_true_iff in Hp. geo. split; [lia|done].
      * split; [done|]. intros b Hb Hb'. destruct (Z.ltb_spec b (k * BPB)); [by apply Hall|].
        specialize (Hm (b - k * BPB)). apply orb_false_iff in Hm as [_ Hm]; [|lia].
        replace (k * BPB + (b - k * BPB)) with b in Hm by lia. by apply negb_false_iff.
    + rewrite (bind_ok _ _ _ _ _ E). eexists _, _. split; [reflexivity|]. split; [done|].
      intros b Hb Hb'. destruct (Z.ltb_spec b (k * BPB)); [by apply Hall|].
      specialize (Hm (b - k * BPB)). apply orb_false_iff in Hm as [_ Hm]; [|geo; lia].
      replace (k * BPB + (b - k * BPB)) with b in Hm by lia. by apply negb_false_iff.
  - rewrite (bind_ok _ _ _ _ _ Ht). destruct r as [a|].
    + destruct Hq as (-> & Ha & Hb). right. exists a. split_and!; try done; [|lia].
      destruct (Z.ltb_spec a (nmeta (f_sb s))); [|lia]. unfold B in Hb. by rewrite (dw_meta _ _ Hw) in Hb by lia.
    + destruct Hq as (-> & Hall). left. split; [done|]. intros b Hb. apply Hall; [done|].
      geo. dlia.
Qed.

(** The allocator's two effects on the device, seen as views of it. *)
Definition is_bm (sb : superblock) (y : Z) : Prop := sb_bmapstart sb <= y < nmeta sb.

Lemma BB_range sb b : 0 <= b < sb_size sb -> is_bm sb (BBLOCK b sb).
Proof. unfold is_bm. geo. intros. dlia. Qed.

Lemma BB_bits sb b : geom sb -> 0 <= b < sb_size sb -> 0 <= b mod BPB /\ b mod BPB / 8 < 1024.
Proof. intros _ Hb. geo. dlia. Qed.

Lemma alloc_view s dev a y :
  geom (f_sb s) -> nmeta (f_sb s) <= a < sb_size (f_sb s) ->
  (y = a \/ ~ is_bm (f_sb s) y) ->
  b_view (f_b (alloc_st s dev a)) dev y = if y =? a then zero_block else b_view (f_b s) dev y.
Proof.
  intros Hg Ha Hy. cbn -[add_log]. destruct (Z.eqb_spec y a) as [->|Hne]; [apply bupd_eq|].
  rewrite bupd_ne_b by done. apply bupd_ne_b. intros ->. destruct Hy as [?|Hy]; [done|].
  apply Hy, BB_range. destruct Hg as [? ?]. geo. dlia.
Qed.

Lemma bit_change sb v v' a (set : bool) :
  geom sb -> 0 <= a < sb_size sb -> length (v (BBLOCK a sb)) = 1024%nat ->
  v' (BBLOCK a sb) = (if set then bm_set else bm_clear) (v (BBLOCK a sb)) (a mod BPB) ->
  (forall y, is_bm sb y -> y <> BBLOCK a sb -> v' y = v y) ->
  forall b, 0 <= b < sb_size sb -> bit sb v' b = if b =? a then set else bit sb v b.
Proof.
  intros Hg Ha Hl Hv Hy b Hb. unfold bit.
  pose proof (BB_bits sb a Hg Ha) as [Ha1 Ha2]. pose proof (BB_bits sb b Hg Hb) as [Hb1 Hb2].
  destruct (Z.eqb_spec b a) as [->|Hne].
  - rewrite Hv. destruct set; [apply bm_get_set_eq|apply bm_get_clear_eq]; unfold zlen; lia.
  - destruct (decide (BBLOCK b sb = BBLOCK a sb)) as [E|E].
    + rewrite E, Hv. assert (a mod BPB <> b mod BPB) by (geo; dlia).
      destruct set; [apply bm_get_set_ne|apply bm_get_clear_ne]; unfold zlen; lia.
    + rewrite Hy by (done || by apply BB_range). done.
Qed.

Lemma alloc_bit s dev a b :
  geom (f_sb s) -> disk_wf (f_sb s) (b_view (f_b s) dev) ->
  nmeta (f_sb s) <= a < sb_size (f_sb s) -> 0 <= b < sb_size (f_sb s) ->
  bit (f_sb s) (b_view (f_b (alloc_st s dev a)) dev) b =
  if b =? a then true else bit (f_sb s) (b_view (f_b s) dev) b.
Proof.
  intros Hg Hw Ha Hb. assert (0 <= a < sb_size (f_sb s)) as Ha' by (destruct Hg; geo; dlia).
  pose proof (BB_range (f_sb s) a Ha') as Hbb. unfold is_bm in Hbb.
  apply (bit_change _ _ _ a true); try done.
  - apply Hw.
  - cbn -[add_log]. rewrite bupd_ne_b by lia. by rewrite bupd_eq.
  - intros y Hy Hne. cbn -[add_log]. rewrite bupd_ne_b by (unfold is_bm in Hy; lia).
    by apply bupd_ne_b.
Qed.

Lemma alloc_wf s dev a :
  geom (f_sb s) -> disk_wf (f_sb s) (b_view (f_b s) dev) ->
  nmeta (f_sb s) <= a < sb_size (f_sb s) ->
  disk_wf (f_sb s) (b_view (f_b (alloc_st s dev a)) dev).
Proof.
  intros Hg Hw Ha. constructor.
  - intros b. cbn -[add_log zero_block]. unfold bupd. rewrite Z.eqb_refl. cbn [andb].
    destruct (b =? a); [done|]. destruct (b =? _); [rewrite length_bm_set|]; apply Hw.
  - intros b Hb. rewrite alloc_bit; [|done..|destruct Hg; lia].
    destruct (b =? a); [done|]. by apply Hw.
Qed.

Definition free_st (s : fs U) (dev a : Z) : fs U :=
  let bb := BBLOCK a (f_sb s) in
  let v := b_view (f_b s) in
  set_b (Bst (bupd v dev bb (bm_clear (v dev bb) (a mod BPB)))
             (add_log bb (b_log (f_b s))) (b_out (f_b s))) s.

Lemma bfree_spec s dev a k :
  room (f_b s) k -> 1 <= k -> bit (f_sb s) (b_view (f_b s) dev) a = true ->
  bfree dev a s = Ok (tt, free_st s dev a) /\ room (f_b (free_st s dev a)) (k - 1).
Proof.
  intros Hr Hk Hb. unfold bfree. erewrite bind_ok by reflexivity.
  rewrite (bind_ok _ _ _ _ _ (onb_bread _ _ s)). fold (bit (f_sb s) (b_view (f_b s) dev) a).
  rewrite Hb. cbn [negb]. rewrite (bind_ok _ _ _ _ _ (onb_bstore _ _ _ s)).
  rewrite (onb_log_write _ _ k); [|exact Hr|lia]. split; [done|].
  destruct s as [[v l o] sb it pid u]. cbn -[add_log] in *. eapply room_bst; [exact Hr|].
  pose proof (zlen_add_log (BBLOCK a sb) l). lia.
Qed.

Lemma free_view s dev a y :
  0 <= a < sb_size (f_sb s) -> ~ is_bm (f_sb s) y ->
  b_view (f_b (free_st s dev a)) dev y = b_view (f_b s) dev y.
Proof.
  intros Ha Hy. cbn -[add_log]. apply bupd_ne_b. intros ->. by apply Hy, BB_range.
Qed.

Lemma free_bit s dev a b :
  geom (f_sb s) -> disk_wf (f_sb s) (b_view (f_b s) dev) ->
  0 <= a < sb_size (f_sb s) -> 0 <= b < sb_size (f_sb s) ->
  bit (f_sb s) (b_view (f_b (free_st s dev a)) dev) b =
  if b =? a then false else bit (f_sb s) (b_view (f_b s) dev) b.
Proof.
  intros Hg Hw Ha Hb. apply (bit_change _ _ _ a false); try done.
  - apply Hw.
  - cbn -[add_log]. by rewrite bupd_eq.
  - intros y Hy Hne. cbn -[add_log]. by apply bupd_ne_b.
Qed.

Lemma free_wf s dev a :
  geom (f_sb s) -> disk_wf (f_sb s) (b_view (f_b s) dev) ->
  nmeta (f_sb s) <= a < sb_size (f_sb s) ->
  disk_wf (f_sb s) (b_view (f_b (free_st s dev a)) dev).
Proof.
  intros Hg Hw Ha. assert (0 <= a) by (destruct Hg; geo; dlia). constructor.
  - intros b. cbn -[add_log]. unfold bupd. rewrite Z.eqb_refl. cbn [andb].
    destruct (b =? _); [rewrite length_bm_clear|]; apply Hw.
  - intros b Hb. rewrite free_bit; [|done|done|lia|destruct Hg; lia].
    destruct (Z.eqb_spec b a); [lia|]. by apply Hw.
Qed.
End Alloc.
