(* ===== verification/FsFile.v ===== *)
(** FsFile: the contents of files in kernel/fs.c: bmap, readi, writei and
    itrunc, against the byte sequence a file stands for. *)

From S2P Require Import Prelude CString Locks Log Block Umem Fs FsAlloc.

(** The blocks an inode points to: its data blocks by index, and, as slot
    MAXFILE, its indirect block; 0 where there is none. *)
Definition slot (v : Z -> block) (x : inode) (k : Z) : Z :=
  if k <? NDIRECT then getz (i_addrs x) k
  else if k =? MAXFILE then getz (i_addrs x) NDIRECT
  else if getz (i_addrs x) NDIRECT =? 0 then 0
  else rd32 (v (getz (i_addrs x) NDIRECT)) (4 * (k - NDIRECT)).

(** The byte at offset [o]; blocks that were never allocated read as zeros. *)
Definition content (v : Z -> block) (x : inode) (o : Z) : Z :=
  let a := slot v x (o / BSIZE) in
  if a =? 0 then 0 else getz (v a) (o mod BSIZE).

Definition contents (v : Z -> block) (x : inode) (off n : Z) : list Z :=
  (fun k => content v x (off + Z.of_nat k)) <$> seq 0 (Z.to_nat n).

(** An inode's blocks are distinct data blocks that the bitmap has in use. *)
Record file_wf (sb : superblock) (v : Z -> block) (x : inode) : Prop := File_wf {
  fw_len : length (i_addrs x) = 13%nat;
  fw_slot : forall k, 0 <= k <= MAXFILE ->
    slot v x k = 0 \/
    (nmeta sb <= slot v x k < sb_size sb /\ bit sb v (slot v x k) = true);
  fw_inj : forall j k, 0 <= j <= MAXFILE -> 0 <= k <= MAXFILE -> j <> k ->
    slot v x j <> 0 -> slot v x j <> slot v x k
}.

(** Every block below the size is allocated. *)
Definition full (v : Z -> block) (x : inode) : Prop :=
  0 <= i_size x <= MAXFILE * BSIZE /\
  forall k, 0 <= k -> k * BSIZE < i_size x -> slot v x k <> 0.

Section File.
  Context {U : Type} `{UserMem U}.
  Implicit Types s t : fs U.

Definition dview (s : fs U) (x : inode) : Z -> block := b_view (f_b s) (i_dev x).

(** Blocks were allocated to inode [ip], which was [x] and is [x']. *)
Record grown (ip : nat) (x x' : inode) (s s' : fs U) : Prop := Grown {
  gr_it : f_it s' = <[ip := x']> (f_it s);
  gr_sb : f_sb s' = f_sb s;
  gr_pid : f_pid s' = f_pid s;
  gr_usr : f_usr s' = f_usr s;
  gr_x : x' = set_addrs (i_addrs x') x;
  gr_dev : forall d y, d <> i_dev x -> b_view (f_b s') d y = b_view (f_b s) d y;
  gr_disk : disk_wf (f_sb s) (dview s' x);
  gr_file : file_wf (f_sb s) (dview s' x) x';
  gr_slot : forall k, 0 <= k <= MAXFILE -> slot (dview s' x) x' k = slot (dview s x) x k \/
    (slot (dview s x) x k = 0 /\ nmeta (f_sb s) <= slot (dview s' x) x' k < sb_size (f_sb s) /\
     bit (f_sb s) (dview s x) (slot (dview s' x) x' k) = false /\
     (k <> MAXFILE -> dview s' x (slot (dview s' x) x' k) = zero_block));
  gr_keep : forall y, ~ is_bm (f_sb s) y ->
    (y < nmeta (f_sb s) \/ sb_size (f_sb s) <= y \/ bit (f_sb s) (dview s x) y = true) ->
    y <> slot (dview s x) x MAXFILE -> dview s' x y = dview s x y;
  gr_bit : forall b, 0 <= b < sb_size (f_sb s) ->
    bit (f_sb s) (dview s x) b = true -> bit (f_sb s) (dview s' x) b = true
}.

Lemma slot_nbm sb v x k :
  geom sb -> file_wf sb v x -> 0 <= k <= MAXFILE -> slot v x k <> 0 ->
  nmeta sb <= slot v x k < sb_size sb /\ bit sb v (slot v x k) = true /\ ~ is_bm sb (slot v x k).
Proof.
  intros Hg Hf Hk Hne. destruct (fw_slot _ _ _ Hf k Hk) as [?|[? ?]]; [done|].
  split; [done|]. split; [done|]. unfold is_bm. lia.
Qed.

Lemma grown_refl ip x s :
  f_it s !! ip = Some x -> disk_wf (f_sb s) (dview s x) -> file_wf (f_sb s) (dview s x) x ->
  grown ip x x s s.
Proof.
  intros Hi Hd Hf. constructor; try done; auto.
  - by rewrite list_insert_id.
  - by destruct x.
Qed.

(** Adding the fresh block [a] in slot [k0]. *)
Lemma grown_add ip x x' s s' a k0 :
  geom (f_sb s) -> disk_wf (f_sb s) (dview s x) -> file_wf (f_sb s) (dview s x) x ->
  f_it s' = <[ip := x']> (f_it s) -> f_sb s' = f_sb s -> f_pid s' = f_pid s -> f_usr s' = f_usr s ->
  x' = set_addrs (i_addrs x') x -> length (i_addrs x') = 13%nat ->
  (forall d y, d <> i_dev x -> b_view (f_b s') d y = b_view (f_b s) d y) ->
  disk_wf (f_sb s) (dview s' x) ->
  nmeta (f_sb s) <= a < sb_size (f_sb s) -> bit (f_sb s) (dview s x) a = false ->
  (forall b, 0 <= b < sb_size (f_sb s) ->
     bit (f_sb s) (dview s' x) b = if b =? a then true else bit (f_sb s) (dview s x) b) ->
  0 <= k0 <= MAXFILE -> slot (dview s x) x k0 = 0 ->
  (forall k, 0 <= k <= MAXFILE ->
     slot (dview s' x) x' k = if k =? k0 then a else slot (dview s x) x k) ->
  (forall y, ~ is_bm (f_sb s) y -> y <> a -> y <> slot (dview s x) x MAXFILE ->
     dview s' x y = dview s x y) ->
  dview s' x a = zero_block ->
  grown ip x x' s s'.
Proof.
  intros Hg Hd Hf Hit Hsb Hpid Hus Hx Hl Hdev Hd' Ha Hfr Hb Hk0 Hz Hs Hv Hza.
  assert (0 <= a) as Ha0 by (destruct Hg; geo; dlia).
  assert (forall k, 0 <= k <= MAXFILE -> slot (dview s x) x k <> a) as Hna.
  { intros k Hk E. destruct (fw_slot _ _ _ Hf k Hk) as [?|[_ ?]]; [geo; destruct Hg; geo; dlia|congruence]. }
  constructor; try done.
  - constructor; [done| |].
    + intros k Hk. rewrite Hs by done. destruct (k =? k0).
      * right. split; [done|]. rewrite Hb by lia. by rewrite Z.eqb_refl.
      * destruct (fw_slot _ _ _ Hf k Hk) as [?|[? Hbt]]; [by left|right]. split; [done|].
        rewrite Hb by (destruct Hg; geo; dlia). by destruct (_ =? _).
    + intros j k Hj Hk Hjk. rewrite !Hs by done.
      destruct (Z.eqb_spec j k0), (Z.eqb_spec k k0); subst; try done.
      * intros _ E. by apply (Hna k).
      * intros _. by apply Hna.
      * by apply Hf.
  - intros k Hk. rewrite Hs by done. destruct (Z.eqb_spec k k0) as [->|]; [|by left].
    right. split_and!; try done; lia.
  - intros y Hy Hc Hne. apply Hv; try done. intros ->. destruct Hc as [?|[?|?]]; [lia|lia|congruence].
  - intros b Hb' Ht. rewrite Hb by done. by destruct (_ =? _).
Qed.

Lemma grown_trans ip x x1 x2 s s1 s2 :
  geom (f_sb s) ->
  grown ip x x1 s s1 -> grown ip x1 x2 s1 s2 -> grown ip x x2 s s2.
Proof.
  intros Hg G1 G2. pose proof (gr_x _ _ _ _ _ G1) as Hx1. pose proof (gr_x _ _ _ _ _ G2) as Hx2.
  assert (i_dev x1 = i_dev x) as Hd by (by rewrite Hx1).
  destruct G1 as [A1 A2 A3 A4 _ A6 A7 A8 A9 A10 A11], G2 as [B1 B2 B3 B4 _ B6 B7 B8 B9 B10 B11].
  unfold dview in *. rewrite Hd, A2 in *.
  assert (0 < nmeta (f_sb s)) by (destruct Hg; geo; dlia).
  constructor; unfold dview in *; try done; try congruence.
  - by rewrite B1, A1, list_insert_insert_eq.
  - rewrite Hx2, Hx1. done.
  - intros d y Hne. rewrite B6 by done. by apply A6.
  - intros k Hk. destruct (A9 k Hk) as [E'|(E0 & Er & Ef & Ez)].
    + rewrite <-E'. destruct (B9 k Hk) as [E|(E0 & Er & Ef & Ez)]; [by left|right].
      split_and!; try done; try lia. apply not_true_is_false. intros Ht.
      apply A11 in Ht; [congruence|lia].
    + destruct (B9 k Hk) as [E|(E0' & _)]; [|exfalso; lia]. right. rewrite E.
      split_and!; try done; try lia. intros Hne. rewrite B10; [by apply Ez| | |].
      * unfold is_bm. lia.
      * destruct (slot_nbm _ _ _ k Hg A8 Hk); [lia|]. tauto.
      * apply (fw_inj _ _ _ A8); geo; lia.
  - intros y Hy Hc Hne. rewrite B10; [by apply A10|done| |].
    + destruct Hc as [?|[?|Ht]]; [by left|by right; left|].
      destruct (decide (0 <= y < sb_size (f_sb s))); [|lia]. right. right. by apply A11.
    + destruct (A9 MAXFILE) as [E'|(E0 & Er & Ef & Ez)]; [geo; lia|congruence|].
      intros ->. destruct Hc as [?|[?|Ht]]; [lia|lia|congruence].
  - intros b Hb Ht. by apply B11, A11.
Qed.

(** Growing a file does not change its bytes. *)
Lemma grown_content ip x x' s s' o :
  geom (f_sb s) -> file_wf (f_sb s) (dview s x) x -> grown ip x x' s s' ->
  0 <= o < MAXFILE * BSIZE ->
  content (dview s' x) x' o = content (dview s x) x o.
Proof.
  intros Hg Hf G Ho. unfold content. assert (0 <= o / BSIZE < MAXFILE) as Hk by (geo; dlia).
  assert (0 < nmeta (f_sb s)) by (destruct Hg; geo; dlia).
  destruct (gr_slot _ _ _ _ _ G (o / BSIZE)) as [E|(E0 & Er & Ef & Ez)]; [lia| |].
  - rewrite E. destruct (Z.eqb_spec (slot (dview s x) x (o / BSIZE)) 0) as [|Hne]; [done|].
    destruct (slot_nbm _ _ _ (o / BSIZE) Hg Hf) as (? & ? & ?); [lia|done|].
    rewrite (gr_keep _ _ _ _ _ G); auto. apply Hf; geo; lia.
  - rewrite E0, Ez by lia. cbn [Z.eqb]. destruct (_ =? 0); [done|].
    unfold getz, zero_block. rewrite lookup_replicate_2; [done|].
    assert (0 <= o mod BSIZE < BSIZE) by (geo; dlia). unfold BSIZE in *. lia.
Qed.

(** *** bmap *)

Lemma updino_ok s ip x f :
  f_it s !! ip = Some x -> updino ip f s = Ok (tt, set_it (<[ip := f x]> (f_it s)) s).
Proof.
  intros Hi. unfold updino, modify. do 2 f_equal. rewrite list_insert_alter.
  f_equal. apply (list_alter_ext _ _ _ (f_it s)); [|done]. intros y Hy. congruence.
Qed.

Lemma getino_ok s ip x : f_it s !! ip = Some x -> getino ip s = Ok (x, s).
Proof. unfold getino. by intros ->. Qed.

Lemma rd_zero_block off : 0 <= off -> rd32 zero_block off = 0.
Proof.
  intros Ho. unfold rd, slice, zero_block. rewrite drop_replicate, take_replicate.
  generalize (Nat.min (Z.to_nat (Z.of_nat 4)) (1024 - Z.to_nat off)). intros n.
  induction n as [|n IH]; [done|]. cbn [replicate le_dec]. rewrite IH. lia.
Qed.

(** A fresh block stored in entry [j] of the address array. *)
Lemma grown_addr ip x s a j :
  geom (f_sb s) -> disk_wf (f_sb s) (dview s x) -> file_wf (f_sb s) (dview s x) x ->
  nmeta (f_sb s) <= a < sb_size (f_sb s) -> bit (f_sb s) (dview s x) a = false ->
  0 <= j <= NDIRECT -> getz (i_addrs x) j = 0 ->
  grown ip x (set_addrs (putz (i_addrs x) j a) x) s
    (set_it (<[ip := set_addrs (putz (i_addrs x) j a) x]> (f_it s)) (alloc_st s (i_dev x) a)).
Proof.
  intros Hg Hd Hf Ha Hb Hj Hz. pose proof (fw_len _ _ _ Hf) as Hl.
  assert (0 < nmeta (f_sb s)) as Hn by (destruct Hg; geo; dlia).
  set (s' := set_it _ _).
  assert (forall y, y = a \/ ~ is_bm (f_sb s) y ->
    dview s' x y = if y =? a then zero_block else dview s x y) as Hv by (intros y Hy; by apply alloc_view).
  assert (forall k, 0 <= k <= NDIRECT -> getz (putz (i_addrs x) j a) k =
    if k =? j then a else getz (i_addrs x) k) as Hget.
  { intros k Hk. destruct (Z.eqb_spec k j) as [->|]; [apply getz_putz_eq|apply getz_putz_ne]; try lia.
    unfold zlen. geo. lia. }
  apply (grown_add ip x _ s s' a (if j <? NDIRECT then j else MAXFILE)); try done.
  - cbn [i_addrs set_addrs]. by len.
  - intros d y Hd'. cbn -[add_log]. rewrite !bupd_ne by congruence. done.
  - by apply alloc_wf.
  - intros b Hb'. by apply alloc_bit.
  - destruct (j <? NDIRECT); geo; lia.
  - unfold slot. destruct (Z.ltb_spec j NDIRECT) as [Hlt|Hge]; [by rewrite (proj2 (Z.ltb_lt _ _) Hlt)|].
    assert (j = NDIRECT) as -> by lia. done.
  - intros k Hk. unfold slot. cbn [i_addrs set_addrs]. rewrite !(Hget NDIRECT) by (geo; lia).
    destruct (Z.ltb_spec k NDIRECT) as [Hk1|Hk1].
    + rewrite Hget by lia. destruct (Z.ltb_spec j NDIRECT); [done|].
      rewrite (proj2 (Z.eqb_neq k j)) by lia. rewrite (proj2 (Z.eqb_neq k MAXFILE)) by (geo; lia). done.
    + destruct (Z.eqb_spec k MAXFILE) as [->|Hk2].
      * rewrite (Z.eqb_sym NDIRECT j). destruct (Z.ltb_spec j NDIRECT).
        -- rewrite (proj2 (Z.eqb_neq j NDIRECT)), (proj2 (Z.eqb_neq MAXFILE j)) by (geo; lia). done.
        -- rewrite Z.eqb_refl. by rewrite (proj2 (Z.eqb_eq j NDIRECT)) by lia.
      * destruct (Z.ltb_spec j NDIRECT) as [Hj1|Hj1].
        -- rewrite (proj2 (Z.eqb_neq NDIRECT j)), (proj2 (Z.eqb_neq k j)) by lia.
           destruct (Z.eqb_spec (getz (i_addrs x) NDIRECT) 0) as [|Hne]; [done|].
           assert (slot (dview s x) x MAXFILE = getz (i_addrs x) NDIRECT) as Es by done.
           destruct (slot_nbm _ _ _ MAXFILE Hg Hf) as (H1 & H2 & H3); [geo; lia|by rewrite Es|].
           rewrite Es in *. rewrite Hv by auto. rewrite (proj2 (Z.eqb_neq _ a)); [done|]. congruence.
        -- replace j with NDIRECT in * by lia. rewrite Z.eqb_refl, Hz.
           rewrite (proj2 (Z.eqb_neq a 0)), (proj2 (Z.eqb_neq k MAXFILE)) by lia.
           rewrite Hv by auto. rewrite Z.eqb_refl. apply rd_zero_block. lia.
  - intros y Hy Hne _. rewrite Hv by auto. by rewrite (proj2 (Z.eqb_neq y a)).
  - rewrite Hv by auto. by rewrite Z.eqb_refl.
Qed.

(** A fresh block stored in an entry of the indirect block. *)
Lemma grown_entry ip x s a k b' :
  geom (f_sb s) -> disk_wf (f_sb s) (dview s x) -> file_wf (f_sb s) (dview s x) x ->
  f_it s !! ip = Some x ->
  nmeta (f_sb s) <= a < sb_size (f_sb s) -> bit (f_sb s) (dview s x) a = false ->
  NDIRECT <= k < MAXFILE -> getz (i_addrs x) NDIRECT <> 0 -> slot (dview s x) x k = 0 ->
  b_view b' = bupd (b_view (f_b (alloc_st s (i_dev x) a))) (i_dev x) (getz (i_addrs x) NDIRECT)
     (wr32 (dview s x (getz (i_addrs x) NDIRECT)) (4 * (k - NDIRECT)) a) ->
  grown ip x x s (set_b b' s).
Proof.
  intros Hg Hd Hf Hi Ha Hb Hk Hne Hz Hb'. set (ind := getz (i_addrs x) NDIRECT) in *.
  assert (slot (dview s x) x MAXFILE = ind) as Es by done.
  assert (0 < nmeta (f_sb s)) as Hn by (destruct Hg; geo; dlia).
  destruct (slot_nbm _ _ _ MAXFILE Hg Hf) as (Hi1 & Hi2 & Hi3); [geo; lia|by rewrite Es|].
  rewrite Es in *. assert (ind <> a) as Hia by congruence.
  set (s' := set_b b' s).
  assert (forall y, dview s' x y = if y =? ind then wr32 (dview s x ind) (4 * (k - NDIRECT)) a
    else b_view (f_b (alloc_st s (i_dev x) a)) (i_dev x) y) as Hv0.
  { intros y. unfold dview at 1, s'. cbn [f_b set_b]. rewrite Hb'.
    destruct (Z.eqb_spec y ind) as [->|]; [apply bupd_eq|by apply bupd_ne_b]. }
  assert (length (dview s x ind) = 1024%nat) as Hl by apply Hd.
  assert (0 <= 4 * (k - NDIRECT) /\ 4 * (k - NDIRECT) + 4 <= zlen (dview s x ind)) as [Ho1 Ho2]
    by (unfold zlen; geo; lia).
  assert (forall c, is_bm (f_sb s) (BBLOCK c (f_sb s)) -> bit (f_sb s) (dview s' x) c =
    bit (f_sb s) (b_view (f_b (alloc_st s (i_dev x) a)) (i_dev x)) c) as Hbit.
  { intros c Hc. unfold bit. rewrite Hv0.
    rewrite (proj2 (Z.eqb_neq _ ind)); [done|]. intros E. by rewrite E in Hc. }
  assert (disk_wf (f_sb s) (b_view (f_b (alloc_st s (i_dev x) a)) (i_dev x))) as Hw'
    by (by apply alloc_wf).
  apply (grown_add ip x x s s' a k); try done.
  - by rewrite list_insert_id.
  - by destruct x.
  - apply Hf.
  - intros d y Hd'. unfold s'. cbn [f_b set_b]. rewrite Hb', !bupd_ne by congruence.
    cbn -[add_log]. by rewrite !bupd_ne by congruence.
  - constructor.
    + intros y. rewrite Hv0. destruct (y =? ind); [by rewrite length_wr|apply Hw'].
    + intros c Hc. rewrite Hbit by (apply BB_range; destruct Hg; lia). by apply Hw'.
  - intros c Hc. rewrite Hbit by (by apply BB_range). by apply alloc_bit.
  - geo; lia.
  - intros k' Hk'. unfold slot. fold ind. rewrite (proj2 (Z.eqb_neq ind 0)) by done.
    rewrite Hv0, Z.eqb_refl. destruct (Z.ltb_spec k' NDIRECT).
    { by rewrite (proj2 (Z.eqb_neq k' k)) by lia. }
    destruct (Z.eqb_spec k' MAXFILE) as [->|]; [by rewrite (proj2 (Z.eqb_neq _ k)) by lia|].
    destruct (Z.eqb_spec k' k) as [->|].
    + rewrite rd_wr_eq by (unfold zlen in *; lia). apply Z.mod_small. destruct Hg. change (256 ^ Z.of_nat 4) with (2 ^ 32). lia.
    + apply rd_wr_ne; lia.
  - intros y Hy Hya Hyi. rewrite Hv0, (proj2 (Z.eqb_neq y ind)) by done.
    rewrite alloc_view by auto. by rewrite (proj2 (Z.eqb_neq y a)).
  - rewrite Hv0, (proj2 (Z.eqb_neq a ind)) by done. rewrite alloc_view by auto. by rewrite Z.eqb_refl.
Qed.

Lemma slot_direct v x bn : bn < NDIRECT -> slot v x bn = getz (i_addrs x) bn.
Proof. intros Hb. unfold slot. by rewrite (proj2 (Z.ltb_lt _ _) Hb). Qed.

Lemma slot_entry v x bn :
  NDIRECT <= bn < MAXFILE ->
  slot v x bn = if getz (i_addrs x) NDIRECT =? 0 then 0
                else rd32 (v (getz (i_addrs x) NDIRECT)) (4 * (bn - NDIRECT)).
Proof.
  intros Hb. unfold slot. by rewrite (proj2 (Z.ltb_ge _ _)), (proj2 (Z.eqb_neq bn MAXFILE)) by lia.
Qed.

(** A block that is already there is found without any change. *)
Lemma bmap_found ip x s bn :
  f_it s !! ip = Some x -> 0 <= bn < MAXFILE -> slot (dview s x) x bn <> 0 ->
  bmap ip bn s = Ok (slot (dview s x) x bn, s).
Proof.
  intros Hi Hb Hne. unfold bmap. rewrite (bind_ok _ _ _ _ _ (getino_ok _ _ _ Hi)).
  destruct (Z.ltb_spec bn NDIRECT) as [Hlt|Hge].
  - rewrite slot_direct in * by done. cbv zeta. by rewrite (proj2 (Z.eqb_neq _ 0)).
  - rewrite slot_entry in * by lia. cbv zeta.
    rewrite (proj2 (Z.ltb_lt _ NINDIRECT)) by (geo; lia).
    destruct (Z.eqb_spec (getz (i_addrs x) NDIRECT) 0) as [|Hni]; [done|].
    erewrite bind_ok by reflexivity. cbv beta. rewrite (proj2 (Z.eqb_neq _ 0)) by done.
    rewrite (bind_ok _ _ _ _ _ (onb_bread _ _ s)). fold (dview s x).
    by rewrite (proj2 (Z.eqb_neq _ 0)).
Qed.

(** bmap's entry step, when the indirect block is there and the entry empty. *)
Lemma bmap_entry ip x s bn k :
  geom (f_sb s) -> disk_wf (f_sb s) (dview s x) -> file_wf (f_sb s) (dview s x) x ->
  f_it s !! ip = Some x -> NDIRECT <= bn < MAXFILE -> room (f_b s) k -> 3 <= k ->
  getz (i_addrs x) NDIRECT <> 0 -> slot (dview s x) x bn = 0 ->
  exists a s', (a <- balloc (i_dev x) ;;
      (if a =? 0 then ret tt
       else bp <- onb (bread (i_dev x) (getz (i_addrs x) NDIRECT)) ;;
            onb (bstore (i_dev x) (getz (i_addrs x) NDIRECT) (wr32 bp (4 * (bn - NDIRECT)) a)) ;;;
            onb (log_write (getz (i_addrs x) NDIRECT))) ;;; ret a) s = Ok (a, s') /\
    a = slot (dview s' x) x bn /\ grown ip x x s s' /\ room (f_b s') (k - 3) /\
    (a = 0 -> forall b, 0 <= b < sb_size (f_sb s) -> bit (f_sb s) (dview s' x) b = true).
Proof.
  intros Hg Hd Hf Hi Hb Hr Hk Hne Hz.
  destruct (balloc_spec s (i_dev x)) as [[E Hfull]|(a & E & Ha & Hfr)]; try done.
  { eapply room_weaken; [done|lia]. }
  - rewrite (bind_ok _ _ _ _ _ E). cbn [Z.eqb]. exists 0, s. split_and!; try done.
    + by apply grown_refl.
    + eapply room_weaken; [done|lia].
  - assert (a <> 0) as Ha0 by (destruct Hg; geo; dlia).
    rewrite (bind_ok _ _ _ _ _ E), (proj2 (Z.eqb_neq a 0)) by done.
    pose proof (alloc_room s (i_dev x) a k Hr) as Hr'.
    set (s1 := alloc_st s (i_dev x) a) in *. set (ind := getz (i_addrs x) NDIRECT) in *.
    assert (b_view (f_b s1) (i_dev x) ind = dview s x ind) as Hind.
    { destruct (slot_nbm _ _ _ MAXFILE Hg Hf) as (? & ? & ?); [geo; lia|done|].
      change (slot (dview s x) x MAXFILE) with ind in *. unfold s1. rewrite alloc_view by auto.
      rewrite (proj2 (Z.eqb_neq ind a)); [done|]. unfold dview in *. congruence. }
    set (b' := Bst (bupd (b_view (f_b s1)) (i_dev x) ind (wr32 (dview s x ind) (4 * (bn - NDIRECT)) a))
                   (add_log ind (b_log (f_b s1))) (b_out (f_b s1))).
    exists a, (set_b b' s). split.
    { erewrite bind_ok; [reflexivity|]. cbn iota.
      rewrite (bind_ok _ _ _ _ _ (onb_bread _ _ s1)), (bind_ok _ _ _ _ _ (onb_bstore _ _ _ s1)).
      rewrite (onb_log_write _ _ (k - 2)); [|exact Hr'|lia]. by rewrite Hind. }
    assert (grown ip x x s (set_b b' s)) as G by (by apply (grown_entry ip x s a bn b')).
    split_and!; [|exact G| |done].
    + change (a = slot (dview (set_b b' s) x) x bn). rewrite slot_entry by done.
      rewrite (proj2 (Z.eqb_neq _ 0)) by done. unfold dview. cbn -[add_log wr rd].
      rewrite bupd_eq, rd_wr_eq; [|geo; lia|unfold zlen; rewrite (dw_len _ _ Hd); geo; lia].
      symmetry. apply Z.mod_small. change (256 ^ Z.of_nat 4) with (2 ^ 32). destruct Hg. geo. dlia.
    + destruct s1 as [[v l o] sb it pid u] eqn:Es1. cbn -[add_log] in *.
      eapply room_bst; [exact Hr'|]. pose proof (zlen_add_log ind l). lia.
Qed.

(** What a bmap call leaves behind. *)
Definition bmap_post (ip : nat) (x : inode) (s : fs U) (bn k : Z) (r : outcome (Z * fs U)) : Prop :=
  exists s' x', r = Ok (slot (dview s' x) x' bn, s') /\ grown ip x x' s s' /\ room (f_b s') k /\
    (slot (dview s' x) x' bn = 0 ->
     forall b, 0 <= b < sb_size (f_sb s) -> bit (f_sb s) (dview s' x) b = true).

Lemma bmap_direct ip x s bn k :
  geom (f_sb s) -> disk_wf (f_sb s) (dview s x) -> file_wf (f_sb s) (dview s x) x ->
  f_it s !! ip = Some x -> 0 <= bn < NDIRECT -> room (f_b s) k -> 2 <= k ->
  getz (i_addrs x) bn = 0 -> bmap_post ip x s bn (k - 2) (bmap ip bn s).
Proof.
  intros Hg Hd Hf Hi Hb Hr Hk Hz. unfold bmap. rewrite (bind_ok _ _ _ _ _ (getino_ok _ _ _ Hi)).
  rewrite (proj2 (Z.ltb_lt bn NDIRECT)) by lia. cbv zeta. rewrite Hz. cbn [Z.eqb].
  destruct (balloc_spec s (i_dev x)) as [[E Hfull]|(a & E & Ha & Hfr)]; try done.
  { eapply room_weaken; [done|lia]. }
  - rewrite (bind_ok _ _ _ _ _ E). cbn [Z.eqb]. exists s, x. rewrite slot_direct, Hz by lia.
    split_and!; try done; [by apply grown_refl|]. eapply room_weaken; [done|lia].
  - assert (a <> 0) as Ha0 by (destruct Hg; geo; dlia).
    rewrite (bind_ok _ _ _ _ _ E), (proj2 (Z.eqb_neq a 0)) by done.
    erewrite bind_ok by (apply updino_ok; exact Hi).
    exists (set_it (<[ip := set_addrs (putz (i_addrs x) bn a) x]> (f_it s)) (alloc_st s (i_dev x) a)),
      (set_addrs (putz (i_addrs x) bn a) x).
    split; [|split; [apply grown_addr; done || lia|]].
    + rewrite slot_direct by lia. cbn [i_addrs set_addrs]. rewrite getz_putz_eq; [done|].
      unfold zlen. rewrite (fw_len _ _ _ Hf). geo. lia.
    + rewrite slot_direct by lia. cbn [i_addrs set_addrs]. rewrite getz_putz_eq;
        [|unfold zlen; rewrite (fw_len _ _ _ Hf); geo; lia].
      split; [by apply (alloc_room s)|done].
Qed.

Lemma bmap_indirect ip x s bn k :
  geom (f_sb s) -> disk_wf (f_sb s) (dview s x) -> file_wf (f_sb s) (dview s x) x ->
  f_it s !! ip = Some x -> NDIRECT <= bn < MAXFILE -> room (f_b s) k -> 3 <= k ->
  getz (i_addrs x) NDIRECT <> 0 -> bmap_post ip x s bn (k - 3) (bmap ip bn s).
Proof.
  intros Hg Hd Hf Hi Hb Hr Hk Hne. destruct (decide (slot (dview s x) x bn = 0)) as [Hz|Hnz].
  - unfold bmap. rewrite (bind_ok _ _ _ _ _ (getino_ok _ _ _ Hi)).
    rewrite (proj2 (Z.ltb_ge bn NDIRECT)) by lia. cbv zeta.
    rewrite (proj2 (Z.ltb_lt _ NINDIRECT)) by (geo; lia).
    rewrite (proj2 (Z.eqb_neq (getz (i_addrs x) NDIRECT) 0)) by done.
    erewrite bind_ok by reflexivity. cbv beta.
    rewrite (proj2 (Z.eqb_neq (getz (i_addrs x) NDIRECT) 0)) by done.
    rewrite (bind_ok _ _ _ _ _ (onb_bread _ _ s)). fold (dview s x).
    pose proof Hz as Hz'. rewrite slot_entry in Hz' by done.
    rewrite (proj2 (Z.eqb_neq (getz (i_addrs x) NDIRECT) 0)) in Hz' by done.
    rewrite Hz'. cbn [Z.eqb].
    destruct (bmap_entry ip x s bn k) as (a & s' & E & Ea & G & Hr' & Hfull); try done.
    exists s', x. rewrite <-Ea. split_and!; done.
  - rewrite (bmap_found ip x); try done; [|geo; lia]. exists s, x. split_and!; try done.
    + by apply grown_refl.
    + eapply room_weaken; [done|lia].
Qed.

Lemma grown_lookup ip x x' s s' : f_it s !! ip = Some x -> grown ip x x' s s' -> f_it s' !! ip = Some x'.
Proof.
  intros Hi G. rewrite (gr_it _ _ _ _ _ G). apply list_lookup_insert_eq.
  by eapply lookup_lt_Some.
Qed.

Lemma bmap_spec ip x s bn k :
  geom (f_sb s) -> disk_wf (f_sb s) (dview s x) -> file_wf (f_sb s) (dview s x) x ->
  f_it s !! ip = Some x -> 0 <= bn < MAXFILE -> room (f_b s) k -> 5 <= k ->
  bmap_post ip x s bn (k - 5) (bmap ip bn s).
Proof.
  intros Hg Hd Hf Hi Hb Hr Hk.
  assert (forall k' r, k - 5 <= k' -> bmap_post ip x s bn k' r -> bmap_post ip x s bn (k - 5) r) as Hweak.
  { intros k' r Hk' (s' & x' & ? & ? & ? & ?). exists s', x'. split_and!; try done. by eapply room_weaken. }
  destruct (Z.ltb_spec bn NDIRECT) as [Hlt|Hge].
  { destruct (decide (getz (i_addrs x) bn = 0)) as [Hz|Hnz].
    - apply (Hweak (k - 2)); [lia|]. apply bmap_direct; done || lia.
    - rewrite (bmap_found ip x) by (done || (rewrite slot_direct by lia; done) || (geo; lia)). exists s, x.
      split_and!; try done; [by apply grown_refl|eapply room_weaken; [done|lia]|by rewrite slot_direct by lia]. }
  destruct (decide (getz (i_addrs x) NDIRECT = 0)) as [Hz|Hnz].
  2:{ apply (Hweak (k - 3)); [lia|]. apply bmap_indirect; done || lia. }
  destruct (balloc_spec s (i_dev x)) as [[E Hfull]|(a & E & Ha & Hfr)]; try done.
  { eapply room_weaken; [done|lia]. }
  - unfold bmap. rewrite (bind_ok _ _ _ _ _ (getino_ok _ _ _ Hi)).
    rewrite (proj2 (Z.ltb_ge bn NDIRECT)) by lia. cbv zeta.
    rewrite (proj2 (Z.ltb_lt _ NINDIRECT)) by (geo; lia). rewrite Hz. cbn [Z.eqb].
    erewrite bind_ok; [|rewrite (bind_ok _ _ _ _ _ E); reflexivity]. cbn [Z.eqb].
    exists s, x. rewrite slot_entry, Hz by lia. cbn [Z.eqb]. split_and!; try done; [by apply grown_refl|].
    eapply room_weaken; [done|lia].
  - assert (a <> 0) as Ha0 by (destruct Hg; geo; dlia).
    set (x1 := set_addrs (putz (i_addrs x) NDIRECT a) x).
    set (s1 := set_it (<[ip := x1]> (f_it s)) (alloc_st s (i_dev x) a)).
    assert (grown ip x x1 s s1) as G1 by (by apply grown_addr; geo; lia || done).
    assert (f_it s1 !! ip = Some x1) as Hi1 by (by eapply grown_lookup).
    assert (getz (i_addrs x1) NDIRECT = a) as Ha1.
    { apply getz_putz_eq. unfold zlen. rewrite (fw_len _ _ _ Hf). geo. lia. }
    assert (bmap ip bn s = bmap ip bn s1) as ->.
    { unfold bmap. rewrite (bind_ok _ _ _ _ _ (getino_ok _ _ _ Hi)), (bind_ok _ _ _ _ _ (getino_ok _ _ _ Hi1)).
      rewrite (proj2 (Z.ltb_ge bn NDIRECT)) by lia. cbv zeta.
      rewrite (proj2 (Z.ltb_lt _ NINDIRECT)) by (geo; lia). rewrite Hz, Ha1. cbn [Z.eqb].
      rewrite (proj2 (Z.eqb_neq a 0)) by done.
      erewrite (bind_ok _ _ s); [|rewrite (bind_ok _ _ _ _ _ E), (proj2 (Z.eqb_neq a 0)) by done;
        erewrite bind_ok by (apply updino_ok; exact Hi); reflexivity].
      done. }
    destruct (bmap_indirect ip x1 s1 bn (k - 2)) as (s2 & x2 & E2 & G2 & Hr2 & Hf2);
      try done; try lia; try (by apply G1); [by apply (alloc_room s)|].
    exists s2, x2. split_and!; [done|by eapply grown_trans|eapply room_weaken; [done|lia]|done].
Qed.

(** *** readi *)

Lemma length_contents v x off n : length (contents v x off n) = Z.to_nat n.
Proof. unfold contents. by rewrite length_fmap, length_seq. Qed.

Lemma zlen_contents v x off n : 0 <= n -> zlen (contents v x off n) = n.
Proof. intros. unfold zlen. rewrite length_contents. lia. Qed.

Lemma contents_app v x off n m :
  0 <= n -> 0 <= m -> contents v x off (n + m) = contents v x off n ++ contents v x (off + n) m.
Proof.
  intros Hn Hm. unfold contents. rewrite Z2Nat.inj_add, seq_app, fmap_app by done. f_equal.
  rewrite <-(Nat.add_0_r (Z.to_nat n)) at 1. rewrite Nat.add_0_l.
  rewrite <-fmap_add_seq, <-list_fmap_compose. apply list_fmap_ext. intros _ k _. cbn. f_equal. lia.
Qed.

(** A piece of a file inside one block. *)
Lemma contents_block v x off m :
  0 <= off -> 0 <= m -> off mod BSIZE + m <= BSIZE -> slot v x (off / BSIZE) <> 0 ->
  length (v (slot v x (off / BSIZE))) = 1024%nat ->
  contents v x off m = slice (v (slot v x (off / BSIZE))) (off mod BSIZE) m.
Proof.
  intros Ho Hm Hb Hne Hl. assert (0 <= off mod BSIZE < BSIZE) by (geo; dlia).
  apply list_eq. intros i. unfold contents, slice. rewrite list_lookup_fmap.
  destruct (decide (i < Z.to_nat m)%nat) as [Hi|Hi].
  - rewrite lookup_seq_lt, lookup_take_lt, lookup_drop by done. cbn. unfold content.
    assert ((off + Z.of_nat i) / BSIZE = off / BSIZE) as -> by (geo; dlia).
    assert ((off + Z.of_nat i) mod BSIZE = off mod BSIZE + Z.of_nat i) as -> by (geo; dlia).
    rewrite (proj2 (Z.eqb_neq _ 0)) by done.
    rewrite <-getz_lookup by (unfold zlen; geo; lia). f_equal. lia.
  - rewrite lookup_seq_ge, lookup_take_ge by lia. done.
Qed.

(** Iterations left in readi's and writei's loops. *)
Definition iters (n tot off : Z) : nat :=
  if tot <? n then Z.to_nat ((n - tot + off mod BSIZE + BSIZE - 1) / BSIZE) else O.

Lemma iters_step n tot off m :
  0 <= tot < n -> 0 <= off -> m = Z.min (n - tot) (BSIZE - off mod BSIZE) ->
  (iters n (tot + m) (off + m) < iters n tot off)%nat.
Proof.
  intros Ht Ho ->. unfold iters. assert (0 <= off mod BSIZE < BSIZE) by (geo; dlia).
  rewrite (proj2 (Z.ltb_lt tot n)) by lia.
  destruct (Z.ltb_spec (tot + Z.min (n - tot) (BSIZE - off mod BSIZE)) n) as [Hlt|].
  - rewrite Z.min_r in * by lia.
    assert ((off + (BSIZE - off mod BSIZE)) mod BSIZE = 0) as -> by (geo; dlia). geo. dlia.
  - geo. dlia.
Qed.

Lemma iters_start n off : 0 <= n -> 0 <= off -> (iters n 0 off < Z.to_nat (n / BSIZE) + 3)%nat.
Proof.
  intros Hn Ho. unfold iters. assert (0 <= off mod BSIZE < BSIZE) by (geo; dlia).
  destruct (_ <? _); [geo; dlia|lia].
Qed.

Definition read_len (x : inode) (off n : Z) : Z :=
  if (off >? i_size x) || (u32 (off + n) <? off) then 0
  else if u32 (off + n) >? i_size x then i_size x - off else n.

Context `{!UserMemOk U}.

Lemma set_usr_id s : set_usr (f_usr s) s = s.
Proof. by destruct s. Qed.

Lemma u32_no_overflow off n :
  0 <= off < 2 ^ 32 -> 0 <= n < 2 ^ 32 -> (u32 (off + n) <? off) = false -> u32 (off + n) = off + n.
Proof. unfold u32. intros Ho Hn Hc. destruct (Z.ltb_spec (off + n) (2 ^ 32)); [by apply Z.mod_small; lia|dlia]. Qed.

Lemma readi_loop ip x s d off n :
  f_it s !! ip = Some x -> (forall b, length (dview s x b) = 1024%nat) ->
  full (dview s x) x -> 0 <= off -> 0 <= n -> (0 < n -> off + n <= i_size x) ->
  loop (Z.to_nat (n / BSIZE) + 3) (readi_body ip d n) (0, off, []) s =
  let '(ok, (acc, u)) := either_copyout d 0 [] (contents (dview s x) x off n) (f_usr s) in
  Ok ((if ok then n else -1, acc), set_usr u s).
Proof.
  intros Hi Hl [Hs Hfull] Ho Hn Hsz.
  destruct (loop_rule (readi_body ip d n)
    (fun '(tot, o, acc) t => o = off + tot /\ 0 <= tot <= n /\
       exists u, either_copyout d 0 [] (contents (dview s x) x off tot) (f_usr s) = (true, (acc, u)) /\
         t = set_usr u s)
    (fun r t => Ok (r, t) =
       let '(ok, (acc, u)) := either_copyout d 0 [] (contents (dview s x) x off n) (f_usr s) in
       Ok ((if ok then n else -1, acc), set_usr u s))
    (fun '(tot, o, _) _ => iters n tot o)) with (fuel := (Z.to_nat (n / BSIZE) + 3)%nat)
    (x := (0, off, @nil Z)) (s := s) as (r & t & Hr & Hq); [| | |by rewrite Hr].
  - intros [[tot o] acc] t (-> & Ht & u & Hc & ->). unfold readi_body.
    destruct (Z.ltb_spec tot n) as [Hlt|Hge]; cbn [negb]; cycle 1.
    { eexists _, _. split; [reflexivity|]. cbv beta iota. replace n with tot by lia. by rewrite Hc. }
    set (bn := (off + tot) / BSIZE). assert (0 <= bn < MAXFILE) as Hbn by (unfold bn; geo; dlia).
    assert (slot (dview s x) x bn <> 0) as Hne by (apply Hfull; [lia|unfold bn; geo; dlia]).
    erewrite bind_ok by (apply (bmap_found ip x); [exact Hi|exact Hbn|exact Hne]).
    change (dview (set_usr u s) x) with (dview s x). rewrite (proj2 (Z.eqb_neq _ 0)) by done.
    erewrite bind_ok by (apply getino_ok; exact Hi). rewrite (bind_ok _ _ _ _ _ (onb_bread _ _ _)).
    erewrite bind_ok by reflexivity. set (m := Z.min _ _).
    assert (0 <= (off + tot) mod BSIZE < BSIZE) as Hmod by (geo; dlia).
    change (b_view (f_b (set_usr u s)) (i_dev x)) with (dview s x).
    assert (0 <= m <= n - tot) as Hm by lia.
    pose proof (contents_block (dview s x) x (off + tot) m) as Hcb. fold bn in Hcb.
    rewrite <-Hcb by (done || lia || apply Hl). clear Hcb.
    pose proof (either_copyout_app d _ (contents (dview s x) x (off + tot) m) _ _ _ Hc) as Happ.
    rewrite <-contents_app, zlen_contents in Happ by lia. cbn [f_usr set_usr].
    rewrite <-Happ. destruct (either_copyout d 0 [] (contents (dview s x) x off (tot + m)) (f_usr s))
      as [ok [acc' u']] eqn:Ec. erewrite bind_ok by reflexivity. destruct ok.
    + eexists _, _. split; [reflexivity|]. cbv beta iota. split; [|apply iters_step; lia].
      split_and!; try lia. exists u'. done.
    + eexists _, _. split; [reflexivity|]. cbv beta iota.
      replace n with (tot + m + (n - tot - m)) by lia. rewrite contents_app by lia.
      by rewrite (either_copyout_fail _ _ _ _ _ _ Ec).
  - split_and!; try lia. exists (f_usr s). rewrite set_usr_id. split; [|done]. apply either_copyout_nil.
  - cbv beta iota. by apply iters_start.
Qed.

Lemma readi_run ip x s d off n :
  f_it s !! ip = Some x -> (forall b, length (dview s x b) = 1024%nat) ->
  full (dview s x) x -> 0 <= off < 2 ^ 32 -> 0 <= n < 2 ^ 32 ->
  readi ip d off n s =
  let '(ok, (acc, u)) :=
    either_copyout d 0 [] (contents (dview s x) x off (read_len x off n)) (f_usr s) in
  Ok ((if ok then read_len x off n else -1, acc), set_usr u s).
Proof.
  intros Hi Hl Hfull Ho Hn. unfold readi. rewrite (bind_ok _ _ _ _ _ (getino_ok _ _ _ Hi)).
  unfold read_len. destruct ((off >? i_size x) || (u32 (off + n) <? off)) eqn:Ec.
  { change (contents (dview s x) x off 0) with (@nil Z). rewrite either_copyout_nil. by rewrite set_usr_id. }
  cbv zeta. apply orb_false_iff in Ec as [Ec1 Ec2]. apply u32_no_overflow in Ec2 as ->; try done.
  apply readi_loop; try done; try lia; destruct (off + n >? i_size x) eqn:Eg; lia.
Qed.

(** *** writei *)

(** The bytes of [x] with [data] stored from [off] on. *)
Definition overlay (off : Z) (data : list Z) (f : Z -> Z) (o : Z) : Z :=
  if (off <=? o) && (o <? off + zlen data) then getz data (o - off) else f o.

(** [data] was written to inode [ip] from offset [off] on, its size left as
    it was; blocks that are not the inode's and not free are untouched. *)
Record wrote (ip : nat) (x y : inode) (s t : fs U) (off : Z) (data : list Z) : Prop := Wrote {
  wr_off : 0 <= off;
  wr_it : f_it t = <[ip := y]> (f_it s);
  wr_sb : f_sb t = f_sb s;
  wr_pid : f_pid t = f_pid s;
  wr_x : y = set_addrs (i_addrs y) x;
  wr_dev : forall d z, d <> i_dev x -> b_view (f_b t) d z = b_view (f_b s) d z;
  wr_disk : disk_wf (f_sb s) (dview t x);
  wr_file : file_wf (f_sb s) (dview t x) y;
  wr_slot : forall k, 0 <= k <= MAXFILE -> slot (dview t x) y k = slot (dview s x) x k \/
    (slot (dview s x) x k = 0 /\ nmeta (f_sb s) <= slot (dview t x) y k < sb_size (f_sb s) /\
     bit (f_sb s) (dview s x) (slot (dview t x) y k) = false);
  wr_new : forall k, off / BSIZE <= k < MAXFILE -> k * BSIZE < off + zlen data -> slot (dview t x) y k <> 0;
  wr_keep : forall z, ~ is_bm (f_sb s) z ->
    (z < nmeta (f_sb s) \/ sb_size (f_sb s) <= z \/ bit (f_sb s) (dview s x) z = true) ->
    (forall k, 0 <= k <= MAXFILE -> z <> slot (dview s x) x k) -> dview t x z = dview s x z;
  wr_bit : forall b, 0 <= b < sb_size (f_sb s) ->
    bit (f_sb s) (dview s x) b = true -> bit (f_sb s) (dview t x) b = true;
  wr_content : forall o, 0 <= o < MAXFILE * BSIZE ->
    content (dview t x) y o = overlay off data (content (dview s x) x) o
}.

Lemma wrote_nil ip x s off :
  f_it s !! ip = Some x -> disk_wf (f_sb s) (dview s x) -> file_wf (f_sb s) (dview s x) x ->
  0 <= off -> (off mod BSIZE <> 0 -> slot (dview s x) x (off / BSIZE) <> 0) ->
  wrote ip x x s s off [].
Proof.
  intros Hi Hd Hf Ho Hs. constructor; try done; auto.
  - by rewrite list_insert_id.
  - by destruct x.
  - intros k [Hk _] Hk'. unfold zlen in Hk'. cbn in Hk'.
    assert (k = off / BSIZE) as -> by (geo; dlia). apply Hs. geo. dlia.
  - intros o Ho'. unfold overlay, zlen. cbn. destruct (_ && _) eqn:E; [lia|done].
Qed.

Lemma wrote_grown ip x y y' s t t' off data :
  geom (f_sb s) -> wrote ip x y s t off data -> grown ip y y' t t' ->
  wrote ip x y' s t' off data.
Proof.
  intros Hg W G. pose proof (wr_x _ _ _ _ _ _ _ W) as Hy. pose proof (gr_x _ _ _ _ _ G) as Hy'.
  assert (i_dev y = i_dev x) as Hdv by (by rewrite Hy).
  pose proof (wr_sb _ _ _ _ _ _ _ W) as Hsb.
  assert (0 < nmeta (f_sb s)) as Hn by (destruct Hg; geo; dlia).
  assert (forall o, 0 <= o < MAXFILE * BSIZE -> content (dview t' y) y' o = content (dview t y) y o) as Hct.
  { intros o Ho. eapply grown_content; [by rewrite Hsb| |exact G|done].
    rewrite Hsb. unfold dview. rewrite Hdv. apply W. }
  destruct W as [A0 A1 _ A3 _ A5 A6 A7 A8 A9 A10 A11 A12], G as [B1 B2 B3 _ _ B6 B7 B8 B9 B10 B11].
  unfold dview in *. rewrite Hdv, Hsb in *.
  constructor; unfold dview in *; try done; try congruence.
  - by rewrite B1, A1, list_insert_insert_eq.
  - by rewrite Hy', Hy.
  - intros d z Hd. rewrite B6 by done. by apply A5.
  - intros k Hk. destruct (A8 k Hk) as [E'|(E0 & Er & Ef)].
    + rewrite <-E'. destruct (B9 k Hk) as [E|(E0 & Er & Ef & _)]; [by left|right].
      split_and!; try done; try lia. apply not_true_is_false. intros Ht.
      apply A11 in Ht; [congruence|lia].
    + destruct (B9 k Hk) as [E|(E0' & _)]; [|exfalso; lia]. right. rewrite E. split_and!; try done; lia.
  - intros k Hk Hk'. destruct (B9 k) as [E|(E0' & ? & _)]; [geo; dlia|rewrite E; by apply A9|lia].
  - intros z Hz Hc Hne. rewrite B10; [by apply A10|done| |].
    + destruct Hc as [?|[?|Ht]]; [by left|by right; left|].
      destruct (decide (0 <= z < sb_size (f_sb s))); [|lia]. right. right. by apply A11.
    + destruct (A8 MAXFILE) as [E'|(E0 & Er & Ef)]; [geo; lia|rewrite E'; apply Hne; geo; lia|].
      intros ->. destruct Hc as [?|[?|Ht]]; [lia|lia|congruence].
  - intros b Hb Ht. by apply B11, A11.
  - intros o Ho. rewrite <-A12 by done. by apply Hct.
Qed.

Lemma getz_splice l o d i :
  0 <= o -> o + zlen d <= zlen l -> 0 <= i < zlen l ->
  getz (splice l o d) i = if (o <=? i) && (i <? o + zlen d) then getz d (i - o) else getz l i.
Proof.
  intros Ho Hd Hi. unfold getz. destruct (_ && _) eqn:E.
  - rewrite lookup_splice_in by (unfold zlen in *; lia). do 2 f_equal. lia.
  - rewrite lookup_splice_out by (unfold zlen in *; lia). done.
Qed.

Lemma overlay_app off d1 d2 f o :
  overlay off (d1 ++ d2) f o =
  if (off + zlen d1 <=? o) && (o <? off + zlen d1 + zlen d2)
  then getz d2 (o - (off + zlen d1)) else overlay off d1 f o.
Proof.
  assert (zlen (d1 ++ d2) = zlen d1 + zlen d2) as Hz by (unfold zlen; len).
  unfold overlay, getz. rewrite Hz. assert (0 <= zlen d1) by (unfold zlen; lia).
  assert (0 <= zlen d2) by (unfold zlen; lia).
  destruct ((off + zlen d1 <=? o) && _) eqn:E1.
  - assert ((off <=? o) && (o <? off + (zlen d1 + zlen d2)) = true) as -> by lia.
    unfold zlen in *. rewrite lookup_app_r by lia. do 2 f_equal. lia.
  - destruct ((off <=? o) && (o <? off + zlen d1)) eqn:E2.
    + assert ((off <=? o) && (o <? off + (zlen d1 + zlen d2)) = true) as -> by lia.
      unfold zlen in *. by rewrite lookup_app_l by lia.
    + by assert ((off <=? o) && (o <? off + (zlen d1 + zlen d2)) = false) as -> by lia.
Qed.

(** Storing into a data block of the file leaves its block map alone. *)
Lemma slot_store sb v v' y a k0 :
  file_wf sb v y -> 0 <= k0 < MAXFILE -> a = slot v y k0 -> a <> 0 ->
  (forall z, z <> a -> v' z = v z) ->
  forall k, 0 <= k <= MAXFILE -> slot v' y k = slot v y k.
Proof.
  intros Hf Hk0 -> Hne Hv k Hk. unfold slot at 1. unfold slot. destruct (k <? NDIRECT); [done|].
  destruct (k =? MAXFILE); [done|]. destruct (Z.eqb_spec (getz (i_addrs y) NDIRECT) 0); [done|].
  rewrite Hv; [done|]. change (getz (i_addrs y) NDIRECT) with (slot v y MAXFILE).
  apply not_eq_sym, (fw_inj _ _ _ Hf); geo; lia || done.
Qed.

Lemma wrote_store ip x y s t t' off data chunk a :
  let o := off + zlen data in
  geom (f_sb s) -> wrote ip x y s t off data -> o < MAXFILE * BSIZE ->
  a = slot (dview t x) y (o / BSIZE) -> a <> 0 -> o mod BSIZE + zlen chunk <= BSIZE ->
  f_it t' = f_it t -> f_sb t' = f_sb t -> f_pid t' = f_pid t ->
  b_view (f_b t') = bupd (b_view (f_b t)) (i_dev x) a (splice (dview t x a) (o mod BSIZE) chunk) ->
  wrote ip x y s t' off (data ++ chunk).
Proof.
  intros o Hg W Ho Ha Hne Hc Hit Hsb Hpid Hview.
  assert (0 <= zlen chunk) as Hc0 by (unfold zlen; lia).
  assert (0 <= zlen data) as Hd0 by (unfold zlen; lia).
  pose proof (wr_off _ _ _ _ _ _ _ W) as Hoff.
  assert (0 <= o / BSIZE < MAXFILE) as Hbn by (subst o; geo; dlia).
  destruct (slot_nbm (f_sb s) (dview t x) y (o / BSIZE)) as (Ha1 & Ha2 & Ha3);
    [done|apply W|lia|by rewrite <-Ha|]. rewrite <-Ha in *.
  assert (forall z, z <> a -> dview t' x z = dview t x z) as Hv
    by (intros z Hz; unfold dview; rewrite Hview; by apply bupd_ne_b).
  assert (dview t' x a = splice (dview t x a) (o mod BSIZE) chunk) as Hva
    by (unfold dview at 1; rewrite Hview; by apply bupd_eq).
  pose proof (slot_store _ _ (dview t' x) _ _ _ (wr_file _ _ _ _ _ _ _ W) Hbn Ha Hne Hv) as Hsl.
  assert (forall b, 0 <= b < sb_size (f_sb s) -> bit (f_sb s) (dview t' x) b = bit (f_sb s) (dview t x) b) as Hbt.
  { intros b Hb. unfold bit. rewrite Hv; [done|]. intros E. apply Ha3. rewrite <-E. by apply BB_range. }
  assert (0 <= o mod BSIZE < BSIZE) as Hmod by (geo; dlia).
  assert (zlen (dview t x a) = BSIZE) as Hl by (unfold zlen; rewrite (dw_len _ _ (wr_disk _ _ _ _ _ _ _ W)); done).
  destruct W as [_ A1 A2 A3 A4 A5 A6 A7 A8 A9 A10 A11 A12].
  assert (0 < nmeta (f_sb s)) as Hn by (destruct Hg; geo; dlia).
  constructor; try done; try congruence.
  - intros d z Hd. rewrite Hview, bupd_ne by congruence. by apply A5.
  - constructor.
    + intros b. destruct (decide (b = a)) as [->|Hb]; [|rewrite Hv by done; apply A6].
      rewrite Hva, length_splice by lia. apply A6.
    + intros b Hb. rewrite Hbt by (destruct Hg; lia). by apply A6.
  - constructor; [apply A7| |].
    + intros k Hk. rewrite Hsl by done. destruct (fw_slot _ _ _ A7 k Hk) as [?|[? ?]]; [by left|right].
      split; [done|]. by rewrite Hbt by lia.
    + intros j k Hj Hk Hjk. rewrite !Hsl by done. by apply A7.
  - intros k Hk. rewrite Hsl by done. by apply A8.
  - intros k Hk Hk'. rewrite Hsl by (geo; dlia).
    destruct (Z.ltb_spec (k * BSIZE) o); [by apply A9|].
    assert (zlen (data ++ chunk) = zlen data + zlen chunk) as Hz by (unfold zlen; len).
    assert (k = o / BSIZE) as -> by (rewrite Hz in Hk'; subst o; geo; dlia). by rewrite <-Ha.
  - intros z Hz Hcs Hzk. rewrite Hv; [by apply A10|]. intros ->.
    destruct (A8 (o / BSIZE)) as [E|(_ & _ & E)]; [lia|rewrite <-Ha in E; by apply (Hzk (o / BSIZE)); [lia|]|].
    rewrite <-Ha in E. destruct Hcs as [?|[?|?]]; [lia|lia|congruence].
  - intros b Hb Ht. rewrite Hbt by done. by apply A11.
  - intros i Hi. rewrite overlay_app. fold o. rewrite <-A12 by done. unfold content.
    assert (0 <= i / BSIZE < MAXFILE) as Hik by (geo; dlia). rewrite Hsl by lia.
    destruct (decide (i / BSIZE = o / BSIZE)) as [E|E].
    + rewrite E, <-Ha, (proj2 (Z.eqb_neq a 0)), Hva by done.
      rewrite getz_splice by (lia || (rewrite Hl; geo; dlia)).
      assert ((o mod BSIZE <=? i mod BSIZE) && (i mod BSIZE <? o mod BSIZE + zlen chunk) =
              (o <=? i) && (i <? o + zlen chunk)) as -> by (geo; apply eq_true_iff_eq; rewrite !andb_true_iff; dlia).
      destruct (_ && _) eqn:Er; [|done]. f_equal. geo. dlia.
    + assert ((o <=? i) && (i <? o + zlen chunk) = false) as -> by (geo; apply not_true_is_false; rewrite andb_true_iff; dlia).
      destruct (Z.eqb_spec (slot (dview t x) y (i / BSIZE)) 0) as [|Hnz]; [done|].
      rewrite Hv; [done|]. rewrite Ha. apply (fw_inj _ _ _ A7); lia || done.
Qed.

Definition src_ok (sr : source) (n : Z) : Prop :=
  match sr with SUser _ => True | SKernel l => n <= zlen l end.

Lemma src_chunk sr n tot m u0 data uN ut :
  src_ok sr n -> 0 <= tot -> 0 <= m -> tot + m <= n ->
  either_copyin sr 0 n u0 = (true, data, uN) ->
  either_copyin sr 0 tot u0 = (true, take (Z.to_nat tot) data, ut) ->
  exists u', either_copyin sr tot m ut = (true, slice data tot m, u') /\
    either_copyin sr 0 (tot + m) u0 = (true, take (Z.to_nat (tot + m)) data, u').
Proof.
  intros Hs Ht Hm Hn H0 H1.
  assert (forall a b, a + b <= n -> 0 <= a -> 0 <= b -> 
    match sr with SUser _ => True | SKernel l => a + b <= zlen l end) as Hok
    by (intros a b; destruct sr; cbn in Hs; lia).
  replace n with (tot + m + (n - tot - m)) in H0 by lia.
  apply either_copyin_split in H0 as (u1 & H2 & _); [|lia|lia|apply Hok; lia].
  pose proof H2 as H3. apply either_copyin_split in H3 as (u2 & H4 & H5); [|lia|lia|apply Hok; lia].
  assert (u2 = ut) as -> by congruence. exists u1. split; [|done].
  rewrite H5. do 2 f_equal. unfold slice.
  by rewrite Z2Nat.inj_add, <-take_drop_commute, take_take, Nat.min_id by done.
Qed.

Lemma src_length sr n u data uN :
  0 <= n -> src_ok sr n -> either_copyin sr 0 n u = (true, data, uN) -> zlen data = n.
Proof.
  intros Hn Hs. destruct sr as [a|l]; cbn.
  - intros Hc. eapply copyin_full; [done|exact Hc].
  - intros [= <- <-]. cbn in Hs. unfold slice, zlen in *. rewrite drop_0, length_take. lia.
Qed.

Lemma take_chunk (data : list Z) tot m :
  0 <= tot -> 0 <= m ->
  take (Z.to_nat (tot + m)) data = take (Z.to_nat tot) data ++ slice data tot m.
Proof. intros. unfold slice. rewrite Z2Nat.inj_add by done. by rewrite take_take_drop. Qed.

(** writei's loop invariant, and what holds when the loop ends. *)
Definition winv ip x s sr off n data (tot o : Z) (t : fs U) : Prop :=
  o = off + tot /\ 0 <= tot <= n /\ exists y,
    wrote ip x y s t off (take (Z.to_nat tot) data) /\
    room (f_b t) (6 * Z.of_nat (iters n tot o) + 1) /\
    either_copyin sr 0 tot (f_usr s) = (true, take (Z.to_nat tot) data, f_usr t).

Definition wdone ip x s off n data (tot o : Z) (t : fs U) : Prop :=
  o = off + tot /\ 0 <= tot <= n /\ exists y,
    wrote ip x y s t off (take (Z.to_nat tot) data) /\ room (f_b t) 1 /\
    (tot < n -> forall b, 0 <= b < sb_size (f_sb s) -> bit (f_sb s) (dview t x) b = true).

Lemma writei_step ip x s sr off n data uN tot t :
  geom (f_sb s) -> f_it s !! ip = Some x -> 0 <= off -> off + n <= MAXFILE * BSIZE -> src_ok sr n ->
  either_copyin sr 0 n (f_usr s) = (true, data, uN) -> zlen data = n ->
  winv ip x s sr off n data tot (off + tot) t -> tot < n ->
  exists r t', writei_body ip sr n (tot, off + tot) t = Ok (r, t') /\
    match r with
    | inl (tot', o') => winv ip x s sr off n data tot' o' t' /\
        (iters n tot' o' < iters n tot (off + tot))%nat
    | inr (tot', o') => wdone ip x s off n data tot' o' t'
    end.
Proof.
  intros Hg Hi Ho Hmax Hsrc Hdata Hlen (_ & Ht & y & W & R & Hc) Hlt. unfold writei_body.
  rewrite (proj2 (Z.ltb_lt tot n)) by done. cbn [negb].
  pose proof (wr_x _ _ _ _ _ _ _ W) as Hy. pose proof (wr_sb _ _ _ _ _ _ _ W) as Hsb.
  assert (i_dev y = i_dev x) as Hdv by (by rewrite Hy).
  assert (zlen (take (Z.to_nat tot) data) = tot) as Hzt by (unfold zlen in *; len).
  set (m := Z.min (n - tot) (BSIZE - (off + tot) mod BSIZE)).
  assert (0 <= (off + tot) mod BSIZE < BSIZE) as Hmod by (geo; dlia).
  pose proof (iters_step n tot (off + tot) m ltac:(lia) ltac:(lia) eq_refl) as Hit.
  assert (f_it t !! ip = Some y) as Hit'
    by (rewrite (wr_it _ _ _ _ _ _ _ W); apply list_lookup_insert_eq; by eapply lookup_lt_Some).
  destruct (bmap_spec ip y t ((off + tot) / BSIZE) (6 * Z.of_nat (iters n tot (off + tot)) + 1))
    as (t1 & y1 & E1 & G1 & R1 & F1); unfold dview in *; rewrite ?Hsb, ?Hdv in *;
    try (apply W); try done; try lia; [geo; dlia|].
  pose proof (wrote_grown _ _ _ _ _ _ _ _ _ Hg W G1) as W1.
  pose proof (grown_lookup _ _ _ _ _ Hit' G1) as Hit1.
  assert (i_dev y1 = i_dev x) as Hdv1 by (by rewrite (wr_x _ _ _ _ _ _ _ W1)).
  rewrite (bind_ok _ _ _ _ _ E1). set (a := slot _ y1 _) in *.
  destruct (Z.eqb_spec a 0) as [Ha|Ha].
  { exists (inr (tot, off + tot)), t1. split; [reflexivity|]. split_and!; try lia. exists y1.
    split_and!; [done|eapply room_weaken; [exact R1|lia]|]. intros _. by apply F1. }
  rewrite (bind_ok _ _ _ _ _ (getino_ok _ _ _ Hit1)), Hdv1.
  rewrite (bind_ok _ _ _ _ _ (onb_bread _ _ _)). erewrite bind_ok by reflexivity.
  assert (0 <= m /\ tot + m <= n) as [Hm0 Hm1] by lia.
  rewrite (gr_usr _ _ _ _ _ G1).
  destruct (src_chunk sr n tot m (f_usr s) data uN (f_usr t)) as (u' & Hch & Hc'); try done; try lia.
  rewrite Hch. erewrite bind_ok by reflexivity. rewrite (bind_ok _ _ _ _ _ (onb_bstore _ _ _ _)).
  set (t2 := set_b _ _).
  assert (wrote ip x y1 s t2 off (take (Z.to_nat (tot + m)) data)) as W2.
  { rewrite take_chunk by lia. apply (wrote_store ip x y1 s t1 t2 off _ _ a); rewrite ?Hzt; try done; [lia|].
    unfold slice, zlen in *. len. }
  erewrite bind_ok by (apply (onb_log_write _ _ (6 * Z.of_nat (iters n tot (off + tot)) - 4));
    [eapply (room_weaken (f_b t1)); [exact R1|lia]|lia]).
  eexists (inl (tot + m, off + tot + m)), _. split; [reflexivity|]. split; [|exact Hit].
  split_and!; try lia. exists y1. split_and!.
  - destruct W2. by constructor.
  - destruct t1 as [[v l o] sb it pid u]. cbn -[add_log] in *.
    eapply (room_bst _ _ l _ o _ _ R1). pose proof (zlen_add_log a l). lia.
  - exact Hc'.
Qed.

Lemma writei_loop ip x s sr off n data uN :
  geom (f_sb s) -> disk_wf (f_sb s) (dview s x) -> file_wf (f_sb s) (dview s x) x ->
  f_it s !! ip = Some x -> full (dview s x) x -> 0 <= off <= i_size x -> 0 <= n ->
  off + n <= MAXFILE * BSIZE -> src_ok sr n ->
  either_copyin sr 0 n (f_usr s) = (true, data, uN) ->
  room (f_b s) (6 * Z.of_nat (iters n 0 off) + 1) ->
  exists tot t, loop (Z.to_nat (n / BSIZE) + 3) (writei_body ip sr n) (0, off) s = Ok ((tot, off + tot), t) /\
    wdone ip x s off n data tot (off + tot) t.
Proof.
  intros Hg Hd Hf Hi [Hsz Hfull] Ho Hn Hmax Hsrc Hdata Hroom.
  pose proof (src_length _ _ _ _ _ Hn Hsrc Hdata) as Hlen.
  destruct (loop_rule (writei_body ip sr n)
    (fun '(tot, o) t => winv ip x s sr off n data tot o t)
    (fun '(tot, o) t => wdone ip x s off n data tot o t)
    (fun '(tot, o) _ => iters n tot o)) with (fuel := (Z.to_nat (n / BSIZE) + 3)%nat)
    (x := (0, off)) (s := s) as ([tot o] & t & Hr & Hq).
  - intros [tot o] t Hw. pose proof Hw as (-> & Ht & y & W & R & _).
    destruct (Z.ltb_spec tot n) as [Hlt|Hge].
    + destruct (writei_step ip x s sr off n data uN tot t) as (r & t' & Hb & Hp); try done; try lia.
      exists r, t'. split; [done|]. by destruct r as [[? ?]|[? ?]].
    + exists (inr (tot, off + tot)), t. unfold writei_body.
      rewrite (proj2 (Z.ltb_ge tot n)) by lia. split; [done|]. split_and!; try lia.
      exists y. split_and!; [done| |lia]. eapply room_weaken; [exact R|lia].
  - split_and!; try lia. exists x. split_and!; [|done|].
    + rewrite take_0. apply wrote_nil; try done; [lia|]. intros Hm. apply Hfull; geo; dlia.
    + change (Z.to_nat 0) with 0%nat. rewrite take_0.
      destruct sr as [a|l]; cbn; [by rewrite copyin_nil|done].
  - apply iters_start; lia.
  - pose proof Hq as (-> & _). eauto.
Qed.

(** *** iupdate *)

Lemma length_wr_addrs l : forall bp off,
  0 <= off -> off + 4 * zlen l <= zlen bp -> length (wr_addrs bp off l) = length bp.
Proof.
  induction l as [|a l IH]; intros bp off Ho Hl; [done|]. unfold zlen in Hl. cbn [length wr_addrs] in *.
  assert (off + Z.of_nat 4 <= zlen bp) by (unfold zlen; lia).
  rewrite IH; rewrite ?zlen_wr by done; try lia; [by apply length_wr|unfold zlen in *; lia].
Qed.

Lemma wr_addrs_out w l : forall bp off o,
  0 <= off -> off + 4 * zlen l <= zlen bp -> 0 <= o ->
  o + Z.of_nat w <= off \/ off + 4 * zlen l <= o ->
  rd w (wr_addrs bp off l) o = rd w bp o.
Proof.
  induction l as [|a l IH]; intros bp off o Ho Hl Ho' Hd; [done|].
  unfold zlen in Hl, Hd. cbn [length wr_addrs] in *.
  assert (off + Z.of_nat 4 <= zlen bp) by (unfold zlen; lia).
  rewrite IH; rewrite ?zlen_wr by done; try (unfold zlen in *; lia). apply rd_wr_ne; lia.
Qed.

Lemma wr_addrs_get l : forall bp off k a,
  0 <= off -> off + 4 * zlen l <= zlen bp -> l !! k = Some a ->
  rd32 (wr_addrs bp off l) (off + 4 * Z.of_nat k) = a mod 2 ^ 32.
Proof.
  induction l as [|c l IH]; intros bp off k a Ho Hl Hk; [done|].
  unfold zlen in Hl. cbn [length wr_addrs] in *.
  assert (off + Z.of_nat 4 <= zlen bp) by (unfold zlen; lia).
  destruct k as [|k]; cbn in Hk.
  - injection Hk as ->. rewrite wr_addrs_out; rewrite ?zlen_wr by done; try (unfold zlen in *; lia).
    replace (off + 4 * Z.of_nat 0) with off by lia. by rewrite rd_wr_eq.
  - replace (off + 4 * Z.of_nat (S k)) with (off + 4 + 4 * Z.of_nat k) by lia.
    apply IH; rewrite ?zlen_wr by done; try (unfold zlen in *; lia). done.
Qed.

(** The fields of an inode fit their on-disk widths. *)
Record ino_fits (x : inode) : Prop := Ino_fits {
  if_type : - 2 ^ 15 <= i_type x < 2 ^ 15;
  if_major : - 2 ^ 15 <= i_major x < 2 ^ 15;
  if_minor : - 2 ^ 15 <= i_minor x < 2 ^ 15;
  if_nlink : - 2 ^ 15 <= i_nlink x < 2 ^ 15;
  if_size : 0 <= i_size x < 2 ^ 32;
  if_addrs : length (i_addrs x) = 13%nat /\ Forall (fun a => 0 <= a < 2 ^ 32) (i_addrs x)
}.

Lemma s16_wrap v : - 2 ^ 15 <= v < 2 ^ 15 -> s16 (v mod 2 ^ 16) = v.
Proof. intros Hv. unfold s16. dlia. Qed.

Lemma length_put_dinode bp off x :
  0 <= off -> off + 64 <= zlen bp -> length (i_addrs x) = 13%nat ->
  length (put_dinode bp off x) = length bp.
Proof.
  intros Ho Hl Ha. unfold put_dinode.
  assert (zlen (i_addrs x) = 13) as Hz by (unfold zlen; lia).
  assert (forall w b o v, w = 2%nat \/ w = 4%nat -> zlen b = zlen bp -> off <= o <= off + 60 ->
    zlen (wr w b o v) = zlen bp) as Hlen by (intros w b o v [-> | ->] Hb Hoo; rewrite zlen_wr; lia).
  assert (zlen (wr32 (wr16 (wr16 (wr16 (wr16 bp off (i_type x)) (off + 2) (i_major x)) (off + 4)
    (i_minor x)) (off + 6) (i_nlink x)) (off + 8) (i_size x)) = zlen bp) as E
    by (repeat (apply Hlen; [by auto| |lia]); done).
  rewrite length_wr_addrs by lia. unfold zlen in E. lia.
Qed.

(** What iupdate stores, ilock reads back. *)
Lemma get_put_dinode bp off x :
  ino_fits x -> 0 <= off -> off + 64 <= zlen bp ->
  get_dinode (put_dinode bp off x) off x = set_ivalid true x.
Proof.
  intros [H1 H2 H3 H4 H5 [H6 H7]] Ho Hl. unfold get_dinode, put_dinode.
  assert (zlen (i_addrs x) = 13) as Hz by (unfold zlen; lia).
  assert (forall w b o v, w = 2%nat \/ w = 4%nat -> zlen b = zlen bp -> off <= o <= off + 60 ->
    zlen (wr w b o v) = zlen bp) as Hlen by (intros w b o v [-> | ->] Hb Hoo; rewrite zlen_wr; lia).
  set (b1 := wr16 bp off (i_type x)). set (b2 := wr16 b1 (off + 2) (i_major x)).
  set (b3 := wr16 b2 (off + 4) (i_minor x)). set (b4 := wr16 b3 (off + 6) (i_nlink x)).
  set (b5 := wr32 b4 (off + 8) (i_size x)).
  assert (zlen b1 = zlen bp) as L1 by (apply Hlen; auto; lia).
  assert (zlen b2 = zlen bp) as L2 by (apply Hlen; auto; lia).
  assert (zlen b3 = zlen bp) as L3 by (apply Hlen; auto; lia).
  assert (zlen b4 = zlen bp) as L4 by (apply Hlen; auto; lia).
  assert (zlen b5 = zlen bp) as L5 by (apply Hlen; auto; lia).
  unfold set_ivalid. f_equal.
  all: try (rewrite wr_addrs_out by lia).
  all: try (unfold b5; first [rewrite rd_wr_eq by lia; by apply Z.mod_small|rewrite rd_wr_ne by lia];
            unfold b4; first [rewrite rd_wr_eq by lia; by apply s16_wrap|rewrite rd_wr_ne by lia];
            unfold b3; first [rewrite rd_wr_eq by lia; by apply s16_wrap|rewrite rd_wr_ne by lia];
            unfold b2; first [rewrite rd_wr_eq by lia; by apply s16_wrap|rewrite rd_wr_ne by lia];
            unfold b1; rewrite rd_wr_eq by lia; by apply s16_wrap).
  unfold rd_addrs. apply list_eq. intros i. rewrite list_lookup_fmap.
  destruct (decide (i < 13)%nat) as [Hi|Hi].
  - rewrite lookup_seq_lt by done. cbn [fmap option_fmap option_map].
    destruct (lookup_lt_is_Some_2 (i_addrs x) i) as [a Ha]; [lia|]. rewrite Ha. cbn. f_equal.
    rewrite (wr_addrs_get _ _ _ i a) by (done || lia).
    rewrite Forall_forall in H7. apply Z.mod_small, H7. by eapply list_elem_of_lookup_2.
  - rewrite lookup_seq_ge, lookup_ge_None_2 by lia. done.
Qed.

Definition iupd_st (s : fs U) (x : inode) : fs U :=
  let ib := IBLOCK (i_inum x) (f_sb s) in
  set_b (Bst (bupd (b_view (f_b s)) (i_dev x) ib
                (put_dinode (b_view (f_b s) (i_dev x) ib) (dioff (i_inum x)) x))
             (add_log ib (b_log (f_b s))) (b_out (f_b s))) s.

Lemma iupdate_run ip x s :
  f_it s !! ip = Some x -> room (f_b s) 1 -> iupdate ip s = Ok (tt, iupd_st s x).
Proof.
  intros Hi Hr. unfold iupdate. rewrite (bind_ok _ _ _ _ _ (getino_ok _ _ _ Hi)).
  erewrite bind_ok by reflexivity. rewrite (bind_ok _ _ _ _ _ (onb_bread _ _ _)).
  rewrite (bind_ok _ _ _ _ _ (onb_bstore _ _ _ _)). by rewrite (onb_log_write _ _ 1).
Qed.

(** A change to a block before the bitmap is invisible to files. *)
Record meta_only (sb : superblock) (v v' : Z -> block) (z0 : Z) : Prop := Meta_only {
  mo_where : z0 < sb_bmapstart sb;
  mo_len : length (v' z0) = 1024%nat;
  mo_rest : forall z, z <> z0 -> v' z = v z
}.

Section Meta.
  Context (sb : superblock) (v v' : Z -> block) (z0 : Z).
  Context (Hg : geom sb) (Hm : meta_only sb v v' z0).

Lemma meta_bit b : 0 <= b < sb_size sb -> bit sb v' b = bit sb v b.
Proof.
  intros Hb. unfold bit. rewrite (mo_rest _ _ _ _ Hm); [done|].
  pose proof (BB_range sb b Hb). unfold is_bm in *. destruct Hm. lia.
Qed.

Lemma meta_slot y k : file_wf sb v y -> 0 <= k <= MAXFILE -> slot v' y k = slot v y k.
Proof.
  intros Hf Hk. unfold slot. destruct (k <? NDIRECT); [done|]. destruct (k =? MAXFILE); [done|].
  destruct (Z.eqb_spec (getz (i_addrs y) NDIRECT) 0); [done|]. rewrite (mo_rest _ _ _ _ Hm); [done|].
  destruct (slot_nbm sb v y MAXFILE Hg Hf) as (Hr & _); [geo; lia|done|].
  change (slot v y MAXFILE) with (getz (i_addrs y) NDIRECT) in Hr. destruct Hm, Hg. geo. dlia.
Qed.

Lemma meta_content y o : file_wf sb v y -> 0 <= o < MAXFILE * BSIZE -> content v' y o = content v y o.
Proof.
  intros Hf Ho. unfold content. assert (0 <= o / BSIZE < MAXFILE) by (geo; dlia).
  rewrite meta_slot by (done || lia). destruct (Z.eqb_spec (slot v y (o / BSIZE)) 0); [done|].
  rewrite (mo_rest _ _ _ _ Hm); [done|].
  destruct (slot_nbm sb v y (o / BSIZE) Hg Hf) as (Hr & _); [lia|done|]. destruct Hm, Hg. geo. dlia.
Qed.

Lemma meta_wf : disk_wf sb v -> disk_wf sb v'.
Proof.
  intros Hd. constructor.
  - intros b. destruct (decide (b = z0)) as [->|]; [apply Hm|]. rewrite (mo_rest _ _ _ _ Hm) by done. apply Hd.
  - intros b Hb. rewrite meta_bit by (destruct Hg; lia). by apply Hd.
Qed.

Lemma meta_file y y' : i_addrs y' = i_addrs y -> file_wf sb v y -> file_wf sb v' y'.
Proof.
  intros Ha Hf. assert (forall w k, slot w y' k = slot w y k) as Hs by (intros w k; unfold slot; by rewrite Ha).
  constructor.
  - rewrite Ha. apply Hf.
  - intros k Hk. rewrite Hs, meta_slot by done. destruct (fw_slot _ _ _ Hf k Hk) as [?|[? ?]]; [by left|right].
    split; [done|]. rewrite meta_bit; [done|]. destruct Hg. geo. dlia.
  - intros j k Hj Hk Hjk. rewrite !Hs, !meta_slot by done. by apply Hf.
Qed.
End Meta.

Definition inum_ok (sb : superblock) (x : inode) : Prop := 0 <= i_inum x < sb_ninodes sb.

Lemma iupd_meta s x :
  geom (f_sb s) -> disk_wf (f_sb s) (dview s x) -> inum_ok (f_sb s) x -> length (i_addrs x) = 13%nat ->
  meta_only (f_sb s) (dview s x) (dview (iupd_st s x) x) (IBLOCK (i_inum x) (f_sb s)).
Proof.
  intros Hg Hd Hi Ha. unfold inum_ok in Hi. constructor.
  - destruct Hg. geo. dlia.
  - pose proof (dw_len _ _ Hd (IBLOCK (i_inum x) (f_sb s))) as Hl. unfold dview in *. cbn -[add_log].
    rewrite bupd_eq, length_put_dinode; [done|unfold dioff; geo; dlia| |done].
    unfold zlen. rewrite Hl. unfold dioff. geo. dlia.
  - intros z Hz. by apply bupd_ne_b.
Qed.

Lemma writei_full ip x y1 y s t off tot data :
  wrote ip x y1 s t off (take (Z.to_nat tot) data) -> zlen data >= tot -> 0 <= tot ->
  0 <= off <= i_size x -> off + tot <= MAXFILE * BSIZE -> full (dview s x) x ->
  geom (f_sb s) -> file_wf (f_sb s) (dview s x) x ->
  i_addrs y = i_addrs y1 -> i_size y = Z.max (i_size x) (off + tot) -> full (dview t x) y.
Proof.
  intros W Hd Ht Ho Hm [Hsz Hfull] Hg Hf Ea Es.
  assert (forall k, slot (dview t x) y k = slot (dview t x) y1 k) as Hs by (intros k; unfold slot; by rewrite Ea).
  assert (zlen (take (Z.to_nat tot) data) = tot) as Hz by (unfold zlen in *; len).
  assert (0 < nmeta (f_sb s)) by (destruct Hg; geo; dlia).
  split; [lia|]. intros k Hk Hk'. rewrite Hs. rewrite Es in Hk'.
  destruct (Z.ltb_spec (k * BSIZE) (i_size x)) as [Hlt|Hge].
  - destruct (wr_slot _ _ _ _ _ _ _ W k) as [E|(_ & E & _)]; [geo; lia| |lia].
    rewrite E. by apply Hfull.
  - apply (wr_new _ _ _ _ _ _ _ W); [geo; dlia|]. rewrite Hz. lia.
Qed.

(** *** The theorems *)

Lemma fits_grown x y :
  ino_fits x -> i_type y = i_type x /\ i_major y = i_major x /\ i_minor y = i_minor x /\
    i_nlink y = i_nlink x -> 0 <= i_size y < 2 ^ 32 ->
  forall sb v, geom sb -> file_wf sb v y -> ino_fits y.
Proof.
  intros [H1 H2 H3 H4 H5 _] (E1 & E2 & E3 & E4) Hs sb v Hg Hf.
  constructor; rewrite ?E1, ?E2, ?E3, ?E4; try done. split; [apply Hf|].
  apply Forall_forall. intros a (i & Hi)%list_elem_of_lookup. apply lookup_lt_Some in Hi as Hlt.
  rewrite (fw_len _ _ _ Hf) in Hlt.
  set (k := if (i <? 12)%nat then Z.of_nat i else MAXFILE).
  assert (slot v y k = a) as Ea.
  { unfold slot, k. destruct (Nat.ltb_spec i 12).
    - rewrite (proj2 (Z.ltb_lt _ NDIRECT)) by (geo; lia). apply lookup_getz. by rewrite Nat2Z.id.
    - cbn. apply lookup_getz. by replace (Z.to_nat NDIRECT) with i by (geo; lia). }
  destruct (fw_slot _ _ _ Hf k) as [E|[Hr _]]; [unfold k; destruct (_ <? _)%nat eqn:?; geo; lia| |];
    rewrite Ea in *; destruct Hg; geo; dlia.
Qed.

(** A file system whose inode [ip] is a well-formed file. *)
Record file_ok (s : fs U) (ip : nat) (x : inode) : Prop := File_ok {
  fo_it : f_it s !! ip = Some x;
  fo_geom : geom (f_sb s);
  fo_inum : inum_ok (f_sb s) x;
  fo_disk : disk_wf (f_sb s) (dview s x);
  fo_file : file_wf (f_sb s) (dview s x) x;
  fo_full : full (dview s x) x
}.

(** C21: readi delivers exactly the file's bytes: it returns
    the number of bytes of the requested range that lie inside the file and
    hands those bytes to its destination in one piece (a kernel buffer, or
    user memory, where a fault makes it return -1), and nothing of the file
    system changes. *)
Theorem readi_reads_contents ip x s d off n
    (Hok : file_ok s ip x) (Ho : 0 <= off < 2 ^ 32) (Hn : 0 <= n < 2 ^ 32) :
  readi ip d off n s =
  let '(ok, (acc, u)) :=
    either_copyout d 0 [] (contents (dview s x) x off (read_len x off n)) (f_usr s) in
  Ok ((if ok then read_len x off n else -1, acc), set_usr u s).
Proof. destruct Hok as [? ? ? [? _] ? ?]. by apply readi_run. Qed.

(** What a successful write leaves behind. *)
Definition writei_post (ip : nat) (x : inode) (s : fs U) (off n : Z) (data : list Z)
    (r : outcome (Z * fs U)) : Prop :=
  exists tot t y, r = Ok (tot, t) /\ 0 <= tot <= n /\
    (tot < n -> forall b, 0 <= b < sb_size (f_sb s) -> bit (f_sb s) (dview t x) b = true) /\
    file_ok t ip y /\ i_size y = Z.max (i_size x) (off + tot) /\
    (forall o, 0 <= o < MAXFILE * BSIZE ->
       content (dview t x) y o = overlay off (take (Z.to_nat tot) data) (content (dview s x) x) o) /\
    get_dinode (dview t x (IBLOCK (i_inum x) (f_sb s))) (dioff (i_inum x)) y = set_ivalid true y /\
    (forall j, j <> ip -> f_it t !! j = f_it s !! j) /\
    (forall z, ~ is_bm (f_sb s) z -> z <> IBLOCK (i_inum x) (f_sb s) ->
       z < nmeta (f_sb s) \/ bit (f_sb s) (dview s x) z = true ->
       (forall k, 0 <= k <= MAXFILE -> z <> slot (dview s x) x k) -> dview t x z = dview s x z) /\
    y = set_size (i_size y) (set_addrs (i_addrs y) x).

Lemma writei_run ip x s sr off n data u :
  file_ok s ip x -> 0 <= off <= i_size x -> 0 <= n < 2 ^ 32 -> off + n <= MAXFILE * BSIZE ->
  src_ok sr n -> either_copyin sr 0 n (f_usr s) = (true, data, u) -> ino_fits x ->
  room (f_b s) (6 * Z.of_nat (iters n 0 off) + 1) ->
  writei_post ip x s off n data (writei ip sr off n s).
Proof.
  intros Hok Ho Hn Hmax Hsrc Hdata Hfits Hroom.
  destruct Hok as [Hi Hg Hin Hd Hf Hfu]. unfold writei. rewrite (bind_ok _ _ _ _ _ (getino_ok _ _ _ Hi)).
  assert ((off >? i_size x) = false) as -> by lia.
  rewrite u32_small by (geo; lia). assert ((off + n <? off) = false) as -> by lia.
  assert ((off + n >? MAXFILE * BSIZE) = false) as -> by lia. cbn [orb].
  destruct (writei_loop ip x s sr off n data u) as (tot & t1 & E & (_ & Ht & y1 & W & R & F)); try done; try lia.
  rewrite (bind_ok _ _ _ _ _ E). cbv beta iota.
  assert (f_it t1 !! ip = Some y1) as Hi1
    by (rewrite (wr_it _ _ _ _ _ _ _ W); apply list_lookup_insert_eq; by eapply lookup_lt_Some).
  erewrite bind_ok by (apply updino_ok; exact Hi1).
  set (y := if off + tot >? i_size y1 then set_size (off + tot) y1 else y1).
  set (t2 := set_it (<[ip := y]> (f_it t1)) t1).
  assert (f_it t2 !! ip = Some y) as Hi2 by (apply list_lookup_insert_eq; by eapply lookup_lt_Some).
  erewrite bind_ok by (apply (iupdate_run ip y t2); [exact Hi2|exact R]).
  pose proof (wr_x _ _ _ _ _ _ _ W) as Hy1. pose proof (wr_sb _ _ _ _ _ _ _ W) as Hsb.
  assert (i_dev y = i_dev x /\ i_inum y = i_inum x /\ i_addrs y = i_addrs y1 /\
    (i_type y = i_type x /\ i_major y = i_major x /\ i_minor y = i_minor x /\ i_nlink y = i_nlink x) /\
    i_size y = Z.max (i_size x) (off + tot)) as (E1 & E2 & E3 & E4 & E5).
  { unfold y. rewrite Hy1. cbn [set_addrs i_size]. destruct (off + tot >? i_size x) eqn:Eg; cbn; split_and!; try done; lia. }
  assert (file_wf (f_sb s) (dview t1 x) y) as Hfy.
  { destruct (wr_file _ _ _ _ _ _ _ W) as [L1 L2 L3].
    assert (forall k, slot (dview t1 x) y k = slot (dview t1 x) y1 k) as Hs by (intros k; unfold slot; by rewrite E3).
    constructor; [by rewrite E3| |]; intros *; rewrite !Hs; auto. }
  assert (dview t2 y = dview t1 x) as Ev by (unfold dview; by rewrite E1).
  assert (inum_ok (f_sb t2) y) as Hin2 by (unfold inum_ok; rewrite E2; cbn; by rewrite Hsb).
  assert (meta_only (f_sb s) (dview t1 x) (dview (iupd_st t2 y) x) (IBLOCK (i_inum x) (f_sb s))) as Hm.
  { pose proof (iupd_meta t2 y) as Hm. rewrite Ev, E2 in Hm. cbn [f_sb t2 set_it] in Hm. rewrite Hsb in Hm.
    unfold dview at 3 in Hm. rewrite E1 in Hm. apply Hm; [done|apply W| |apply Hfy].
    unfold inum_ok. by rewrite E2. }
  exists tot, (iupd_st t2 y), y. split; [done|]. split; [done|].
  pose proof (src_length sr n _ _ _ ltac:(lia) Hsrc Hdata) as Hlen.
  assert (full (dview t1 x) y) as Hfully by (apply (writei_full ip x y1 y s t1 off tot data); done || lia).
  split_and!.
  - intros Hlt b Hb. rewrite (meta_bit _ _ _ _ Hm) by done. by apply F.
  - constructor; try done; unfold dview; cbn [f_sb iupd_st set_b t2 set_it]; rewrite ?Hsb, ?E1; try done.
    + by eapply meta_wf, W.
    + by apply (meta_file _ _ _ _ Hg Hm y y).
    + destruct Hfully as [Hz Hfl]. split; [done|]. intros k Hk Hks.
      change (slot (dview (iupd_st t2 y) x) y k <> 0).
      rewrite (meta_slot _ _ _ _ Hg Hm) by (done || (geo; lia)). by apply Hfl.
  - done.
  - intros o Hoo. rewrite (meta_content _ _ _ _ Hg Hm) by done. rewrite <-(wr_content _ _ _ _ _ _ _ W) by done.
    unfold content, slot. by rewrite E3.
  - unfold dview. cbn -[add_log get_dinode put_dinode]. rewrite E1, E2, Hsb, bupd_eq.
    apply get_put_dinode.
    + eapply (fits_grown x y); try done. rewrite E5. destruct Hfu. geo. lia.
    + unfold dioff. geo. dlia.
    + unfold zlen. pose proof (dw_len _ _ (wr_disk _ _ _ _ _ _ _ W) (IBLOCK (i_inum x) (f_sb s))) as Hl.
      unfold dview in Hl. rewrite Hl. unfold dioff. geo. dlia.
  - intros j Hj. cbn. rewrite list_lookup_insert_ne by done. rewrite (wr_it _ _ _ _ _ _ _ W).
    by rewrite list_lookup_insert_ne by done.
  - intros z Hz Hzi Hc Hk. rewrite (mo_rest _ _ _ _ Hm) by done. apply (wr_keep _ _ _ _ _ _ _ W); tauto.
  - unfold y. destruct (off + tot >? i_size y1); rewrite Hy1; by destruct x.
Qed.

End File.

(** *** A small file system to run the definitions on: 100 blocks, of which
    35 hold metadata, and one file of 100 bytes in block 40. *)

Definition wit_sb : superblock := Superblock FSMAGIC 100 65 16 30 2 32 34.

Definition wit_blk (b : Z) : block :=
  if b =? 34 then [255; 255; 255; 255; 7; 1] ++ replicate 1018 0
  else if b =? 40 then replicate 1024 7 else zero_block.

Definition wit_ino : inode :=
  Inode 1 5 1 (Sleep.Sleeplock true 3) true T_FILE 0 0 1 100 (40 :: replicate 12 0).

Definition wit_mem : flat := Flat (fun _ => 9) 5000.

Definition wit_fs : fs flat := Fs (Bst (fun _ => wit_blk) [] 1) wit_sb [wit_ino] 3 wit_mem.

Lemma range_check (f : Z -> bool) (n : Z) :
  forallb f (upto n) = true -> forall k, 0 <= k < n -> f k = true.
Proof.
  intros Hf k Hk. rewrite forallb_forall in Hf. apply Hf. unfold upto.
  apply list_elem_of_In, list_elem_of_fmap. exists (Z.to_nat k). rewrite elem_of_seq. lia.
Qed.

Lemma wit_slot k : 0 < k <= MAXFILE -> slot wit_blk wit_ino k = 0.
Proof.
  intros Hk. assert ((k =? 0) || (slot wit_blk wit_ino k =? 0) = true) as Hb; [|lia].
  apply (range_check (fun k => (k =? 0) || (slot wit_blk wit_ino k =? 0)) 269);
    [by vm_compute|unfold MAXFILE, NDIRECT, NINDIRECT in Hk; lia].
Qed.

Lemma wit_geom : geom wit_sb.
Proof. constructor; [split_and!|split]; by vm_compute. Qed.

Lemma wit_disk : disk_wf wit_sb wit_blk.
Proof.
  constructor.
  - intros b. unfold wit_blk. by destruct (b =? 34), (b =? 40).
  - apply (range_check (bit wit_sb wit_blk)). by vm_compute.
Qed.

Lemma wit_file : file_wf wit_sb wit_blk wit_ino.
Proof.
  constructor; [done| |].
  - intros k Hk. destruct (decide (k = 0)) as [->|]; [right; split_and!; by vm_compute|left].
    apply wit_slot. lia.
  - intros j k Hj Hk Hjk Hne E. destruct (decide (j = 0)) as [->|].
    + rewrite (wit_slot k) in E by lia. done.
    + by rewrite wit_slot in Hne by lia.
Qed.

Lemma wit_ok : file_ok wit_fs 0 wit_ino.
Proof.
  constructor; [done|apply wit_geom|split; by vm_compute|apply wit_disk|apply wit_file|].
  split; [split; by vm_compute|]. intros k Hk Hs. cbn in Hs.
  assert (k = 0) as -> by (unfold BSIZE in Hs; lia). by vm_compute.
Qed.

Lemma wit_fits : ino_fits wit_ino.
Proof.
  unfold wit_ino, T_FILE. constructor; cbn; try lia. split; [done|]. repeat (apply Forall_cons; split; [lia|]). by apply Forall_nil.
Qed.

Lemma readi_reads_contents_witness :
  readi 0 DKernel 90 20 wit_fs = Ok ((10, replicate 10 7), wit_fs).
Proof.
  rewrite (readi_reads_contents 0 wit_ino wit_fs DKernel 90 20 wit_ok) by lia. by vm_compute.
Defined.

