(* ===== verification/FsTrunc.v ===== *)
(** FsTrunc: itrunc and iput of kernel/fs.c, which give a file's blocks back. *)

From S2P Require Import Prelude CString Locks Log Block Umem Fs FsAlloc FsFile.

Lemma add_log_idem b l : add_log b (add_log b l) = add_log b l.
Proof.
  unfold add_log. destruct (bool_decide (b ∈ l)) eqn:E; [by rewrite E|].
  rewrite bool_decide_eq_true_2; [done|]. apply elem_of_app. right. by apply list_elem_of_singleton.
Qed.

Section Trunc.
  Context {U : Type} `{UserMem U}.
  Implicit Types s t : fs U.

(** The blocks of inode [x] in the slots [K] have been freed.  The bitmap is
    one block, so freeing logs one block however many blocks are freed. *)
Record freed (ip : nat) (x : inode) (s t : fs U) (y : inode) (K : Z -> Prop) : Prop := Freed {
  fr_it : f_it t = <[ip := y]> (f_it s);
  fr_sb : f_sb t = f_sb s;
  fr_pid : f_pid t = f_pid s;
  fr_usr : f_usr t = f_usr s;
  fr_y : y = set_addrs (i_addrs y) x;
  fr_out : b_out (f_b t) = b_out (f_b s);
  fr_log : b_log (f_b t) = b_log (f_b s) \/
           b_log (f_b t) = add_log (sb_bmapstart (f_sb s)) (b_log (f_b s));
  fr_view : forall d z, d <> i_dev x \/ ~ is_bm (f_sb s) z ->
    b_view (f_b t) d z = b_view (f_b s) d z;
  fr_disk : disk_wf (f_sb s) (dview t x);
  fr_free : forall k, K k -> 0 <= k <= MAXFILE -> slot (dview s x) x k <> 0 ->
    bit (f_sb s) (dview t x) (slot (dview s x) x k) = false;
  fr_rest : forall b, 0 <= b < sb_size (f_sb s) ->
    (forall k, K k -> 0 <= k <= MAXFILE -> slot (dview s x) x k <> b) ->
    bit (f_sb s) (dview t x) b = bit (f_sb s) (dview s x) b
}.

Context (ip : nat) (x : inode) (s : fs U).
Context (Hg : geom (f_sb s)) (Hd : disk_wf (f_sb s) (dview s x)).
Context (Hf : file_wf (f_sb s) (dview s x) x) (Hi : f_it s !! ip = Some x).
Context (Hone : sb_size (f_sb s) <= BPB) (Hroom : room (f_b s) 2).

Lemma freed_nil : freed ip x s s x (fun _ => False).
Proof.
  constructor; try done; auto.
  - by rewrite list_insert_id.
  - by destruct x.
Qed.

Lemma freed_room t y K : freed ip x s t y K -> room (f_b t) 1.
Proof.
  intros [_ _ _ _ _ Ho Hl _ _ _ _]. destruct Hroom as [Hr1 Hr2]. unfold room. rewrite Ho.
  pose proof (zlen_add_log (sb_bmapstart (f_sb s)) (b_log (f_b s))).
  destruct Hl as [-> | ->]; lia.
Qed.

(** Freeing the block in one more slot. *)
Lemma freed_step t y K k0 :
  freed ip x s t y K -> 0 <= k0 <= MAXFILE -> ~ K k0 -> slot (dview s x) x k0 <> 0 ->
  exists t', bfree (i_dev x) (slot (dview s x) x k0) t = Ok (tt, t') /\
    freed ip x s t' y (fun k => K k \/ k = k0).
Proof.
  intros F Hk HK Hne. set (a := slot (dview s x) x k0) in *.
  destruct (slot_nbm _ _ _ k0 Hg Hf Hk Hne) as (Ha & Hbit & _). fold a in Ha, Hbit.
  pose proof (freed_room _ _ _ F) as Hr. pose proof (fr_sb _ _ _ _ _ _ F) as Hsb.
  assert (0 < nmeta (f_sb s)) as Hn by (destruct Hg; geo; dlia).
  assert (bit (f_sb s) (dview t x) a = true) as Hb.
  { rewrite (fr_rest _ _ _ _ _ _ F); [done|lia|]. intros k Hk' Hkr E.
    apply (fw_inj _ _ _ Hf k0 k); try done. intros ->. done. }
  destruct (bfree_spec t (i_dev x) a 1) as [E _]; [done|lia|by rewrite Hsb|].
  exists (free_st t (i_dev x) a). split; [done|].
  assert (BBLOCK a (f_sb s) = sb_bmapstart (f_sb s)) as EB by (geo; dlia).
  assert (0 <= a < sb_size (f_sb t)) as Ha' by (rewrite Hsb; lia).
  destruct F as [A1 A2 A3 A4 A5 A6 A7 A8 A9 A10 A11]. constructor; try done.
  - right. cbn -[add_log]. rewrite Hsb, EB. destruct A7 as [-> | ->]; [done|apply add_log_idem].
  - intros d z Hz. cbn -[add_log]. rewrite bupd_ne; [by apply A8|].
    intros [= -> ->]. rewrite Hsb in Hz. destruct Hz as [?|Hz]; [done|]. apply Hz, BB_range. lia.
  - pose proof (free_wf t (i_dev x) a) as Hw. rewrite Hsb in Hw. by apply Hw.
  - intros k Hk' Hkr Hs. pose proof (free_bit t (i_dev x) a) as Hfb. rewrite Hsb in Hfb.
    destruct (slot_nbm _ _ _ k Hg Hf Hkr Hs) as (? & _).
    unfold dview at 1. rewrite Hfb by (done || lia). destruct (Z.eqb_spec (slot (dview s x) x k) a) as [|Hna]; [done|].
    destruct Hk' as [Hk' | ->]; [by apply A10|done].
  - intros b Hb' Hall. pose proof (free_bit t (i_dev x) a) as Hfb. rewrite Hsb in Hfb.
    unfold dview at 1. rewrite Hfb by (done || lia).
    rewrite (proj2 (Z.eqb_neq b a)); [|intros ->; by apply (Hall k0); auto].
    apply A11; [done|]. intros k Hk' Hkr. apply Hall; auto.
Qed.

Lemma freed_addr t y K j a' :
  freed ip x s t y K ->
  freed ip x s (set_it (<[ip := set_addrs (putz (i_addrs y) j a') y]> (f_it t)) t)
    (set_addrs (putz (i_addrs y) j a') y) K.
Proof.
  intros [A1 A2 A3 A4 A5 A6 A7 A8 A9 A10 A11]. constructor; try done.
  - cbn. by rewrite A1, list_insert_insert_eq.
  - by rewrite A5.
Qed.

Lemma freed_ext t y (K K' : Z -> Prop) :
  (forall k, 0 <= k <= MAXFILE -> slot (dview s x) x k <> 0 -> K k <-> K' k) ->
  freed ip x s t y K -> freed ip x s t y K'.
Proof.
  intros HK [A1 A2 A3 A4 A5 A6 A7 A8 A9 A10 A11]. constructor; try done.
  - intros k Hk Hr Hne. apply A10; try done. by apply HK.
  - intros b Hb Hall. assert (0 < nmeta (f_sb s)) as Hn by (destruct Hg; geo; dlia).
    destruct (decide (b = 0)) as [->|Hb0].
    { by rewrite (dw_meta _ _ A9), (dw_meta _ _ Hd) by lia. }
    apply A11; [done|]. intros k Hk Hr E. apply (Hall k); try done. apply HK; try done. congruence.
Qed.

Lemma elem_of_upto n i : i ∈ upto n <-> 0 <= i < n.
Proof. apply (elem_of_tails n i). Qed.

Lemma freed_it t y K : freed ip x s t y K -> f_it t !! ip = Some y /\ i_dev y = i_dev x.
Proof.
  intros F. split; [|by rewrite (fr_y _ _ _ _ _ _ F)].
  rewrite (fr_it _ _ _ _ _ _ F). apply list_lookup_insert_eq. by eapply lookup_lt_Some.
Qed.

(** The first loop of itrunc frees the direct blocks. *)
Lemma direct_loop :
  exists t y, for_each (upto NDIRECT) (itrunc_direct ip) s = Ok (tt, t) /\
    freed ip x s t y (fun k => 0 <= k < NDIRECT) /\ length (i_addrs y) = 13%nat /\
    (forall j, 0 <= j < NDIRECT -> getz (i_addrs y) j = 0) /\
    getz (i_addrs y) NDIRECT = getz (i_addrs x) NDIRECT.
Proof.
  destruct (for_each_rule (itrunc_direct ip)
    (fun rest t => exists dn y, upto NDIRECT = dn ++ rest /\ freed ip x s t y (fun k => k ∈ dn) /\
       length (i_addrs y) = 13%nat /\
       (forall j, 0 <= j <= NDIRECT -> getz (i_addrs y) j = if bool_decide (j ∈ dn) then 0 else getz (i_addrs x) j))
    (upto NDIRECT) s) as (t & Ht & dn & y & E & F & Hl & Hget).
  - exists [], x. split_and!; try done; [|apply Hf].
    eapply freed_ext; [|exact freed_nil]. intros k _ _. by rewrite elem_of_nil.
  - intros i rest t (dn & y & E & F & Hl & Hget).
    assert (NoDup (upto NDIRECT)) as Hnd by (unfold upto; apply NoDup_fmap; [apply _|apply NoDup_seq]).
    rewrite E in Hnd. apply NoDup_app in Hnd as (_ & Hnd & _).
    assert (i ∉ dn) as Hni by (intros Hin; apply (Hnd i Hin); left).
    assert (0 <= i < NDIRECT) as Hir by (apply elem_of_upto; rewrite E, elem_of_app; right; left).
    destruct (freed_it _ _ _ F) as [Hit Hdv]. unfold itrunc_direct.
    rewrite (bind_ok _ _ _ _ _ (getino_ok _ _ _ Hit)), Hget by lia. rewrite bool_decide_eq_false_2 by done.
    assert (slot (dview s x) x i = getz (i_addrs x) i) as Es by (apply slot_direct; lia).
    destruct (Z.eqb_spec (getz (i_addrs x) i) 0) as [Hz|Hnz].
    + exists t. split; [done|]. exists (dn ++ [i]), y. rewrite <-app_assoc. split_and!; try done.
      * eapply freed_ext; [|exact F]. intros k Hk Hs. cbv beta. rewrite elem_of_app, list_elem_of_singleton.
        split; [by left|]. intros [?| ->]; [done|]. by rewrite Es in Hs.
      * intros j Hj. rewrite Hget by done. destruct (decide (j = i)) as [->|Hji].
        -- rewrite bool_decide_eq_false_2 by done. destruct (bool_decide _); [done|by rewrite Hz].
        -- erewrite bool_decide_ext; [reflexivity|]. rewrite elem_of_app, list_elem_of_singleton. tauto.
    + rewrite Hdv. destruct (freed_step t y _ i F) as (t1 & E1 & F1);
        [geo; lia|done|by rewrite Es|]. rewrite Es in E1. rewrite (bind_ok _ _ _ _ _ E1).
      destruct (freed_it _ _ _ F1) as [Hit1 _].
      rewrite (updino_ok _ _ _ _ Hit1). eexists. split; [reflexivity|].
      exists (dn ++ [i]), (set_addrs (putz (i_addrs y) i 0) y). rewrite <-app_assoc. split_and!; try done.
      * apply freed_addr. eapply freed_ext; [|exact F1]. intros k _ _. cbv beta.
        by rewrite elem_of_app, list_elem_of_singleton.
      * cbn [i_addrs set_addrs]. by len.
      * intros j Hj. cbn [i_addrs set_addrs]. destruct (decide (j = i)) as [->|Hji].
        -- rewrite getz_putz_eq by (unfold zlen; geo; lia).
           rewrite bool_decide_eq_true_2; [done|]. rewrite elem_of_app, list_elem_of_singleton. auto.
        -- rewrite getz_putz_ne, Hget by (done || lia). erewrite bool_decide_ext; [reflexivity|].
           rewrite elem_of_app, list_elem_of_singleton. tauto.
  - rewrite app_nil_r in E. subst dn. exists t, y. split_and!; try done.
    + eapply freed_ext; [|exact F]. intros k _ _. apply elem_of_upto.
    + intros j Hj. rewrite Hget by lia. rewrite bool_decide_eq_true_2; [done|by apply elem_of_upto].
    + rewrite Hget by (geo; lia). rewrite bool_decide_eq_false_2; [done|]. rewrite elem_of_upto. lia.
Qed.

(** The second loop frees the blocks the indirect block points to. *)
Lemma indirect_loop t y :
  freed ip x s t y (fun k => 0 <= k < NDIRECT) -> getz (i_addrs x) NDIRECT <> 0 ->
  exists t', for_each (upto NINDIRECT) (itrunc_indirect (i_dev x) (getz (i_addrs x) NDIRECT)) t = Ok (tt, t') /\
    freed ip x s t' y (fun k => 0 <= k < MAXFILE).
Proof.
  intros F0 Hind.
  destruct (slot_nbm _ _ _ MAXFILE Hg Hf) as (_ & _ & Hnb); [geo; lia|done|].
  change (slot (dview s x) x MAXFILE) with (getz (i_addrs x) NDIRECT) in Hnb.
  destruct (for_each_rule (itrunc_indirect (i_dev x) (getz (i_addrs x) NDIRECT))
    (fun rest u => exists dn, upto NINDIRECT = dn ++ rest /\
       freed ip x s u y (fun k => 0 <= k < NDIRECT \/ k - NDIRECT ∈ dn))
    (upto NINDIRECT) t) as (t' & Ht & dn & E & F).
  - exists []. split; [done|]. eapply freed_ext; [|exact F0]. intros k _ _. cbv beta.
    rewrite elem_of_nil. tauto.
  - intros j rest u (dn & E & F).
    assert (NoDup (upto NINDIRECT)) as Hnd by (unfold upto; apply NoDup_fmap; [apply _|apply NoDup_seq]).
    rewrite E in Hnd. apply NoDup_app in Hnd as (_ & Hnd & _).
    assert (j ∉ dn) as Hni by (intros Hin; apply (Hnd j Hin); left).
    assert (0 <= j < NINDIRECT) as Hir by (apply elem_of_upto; rewrite E, elem_of_app; right; left).
    unfold itrunc_indirect. rewrite (bind_ok _ _ _ _ _ (onb_bread _ _ _)).
    rewrite (fr_view _ _ _ _ _ _ F) by auto. fold (dview s x).
    assert (slot (dview s x) x (j + NDIRECT) = rd32 (dview s x (getz (i_addrs x) NDIRECT)) (4 * j)) as Es.
    { rewrite slot_entry by (geo; lia). rewrite (proj2 (Z.eqb_neq _ 0)) by done. do 2 f_equal. lia. }
    fold (dview s x (getz (i_addrs x) NDIRECT)). rewrite <-Es.
    assert (forall k, (k - NDIRECT ∈ dn ++ [j]) <-> (k - NDIRECT ∈ dn \/ k = j + NDIRECT)) as Hel.
    { intros k. rewrite elem_of_app, list_elem_of_singleton. split; intros [?|?]; auto; right; lia. }
    destruct (Z.eqb_spec (slot (dview s x) x (j + NDIRECT)) 0) as [Hz|Hnz].
    + exists u. split; [done|]. exists (dn ++ [j]). rewrite <-app_assoc. split; [done|].
      eapply freed_ext; [|exact F]. intros k Hk Hs. cbv beta. rewrite Hel. split; [tauto|].
      intros [?|[?| ->]]; [by left|by right|done].
    + destruct (freed_step u y _ (j + NDIRECT) F) as (u1 & E1 & F1); [geo; lia| |done|].
      { intros [?|Hin]; [geo; lia|]. apply Hni. by replace (j + NDIRECT - NDIRECT) with j in Hin by lia. }
      exists u1. split; [done|]. exists (dn ++ [j]). rewrite <-app_assoc. split; [done|].
      eapply freed_ext; [|exact F1]. intros k _ _. cbv beta. rewrite Hel. tauto.
  - rewrite app_nil_r in E. subst dn. exists t'. split; [done|]. eapply freed_ext; [|exact F].
    intros k Hk _. cbv beta. rewrite elem_of_upto. geo. lia.
Qed.

(** Both loops, and the indirect block itself. *)
Lemma trunc_blocks :
  exists t y, (for_each (upto NDIRECT) (itrunc_direct ip) ;;;
      x <- getino ip ;;
      (if getz (i_addrs x) NDIRECT =? 0 then ret tt
       else for_each (upto NINDIRECT) (itrunc_indirect (i_dev x) (getz (i_addrs x) NDIRECT)) ;;;
            bfree (i_dev x) (getz (i_addrs x) NDIRECT) ;;;
            updino ip (fun x => set_addrs (putz (i_addrs x) NDIRECT 0) x))) s = Ok (tt, t) /\
    freed ip x s t y (fun _ => True) /\ i_addrs y = replicate 13 0.
Proof.
  destruct direct_loop as (t & y & E & F & Hl & Hz & Hn). rewrite (bind_ok _ _ _ _ _ E).
  destruct (freed_it _ _ _ F) as [Hit Hdv]. rewrite (bind_ok _ _ _ _ _ (getino_ok _ _ _ Hit)), Hn, Hdv.
  assert (forall l : list Z, length l = 13%nat -> (forall j, 0 <= j <= NDIRECT -> getz l j = 0) ->
    l = replicate 13 0) as Hall.
  { intros l Hl' Hg'. apply list_eq. intros i. destruct (decide (i < 13)%nat) as [Hi'|Hi'].
    - rewrite lookup_replicate_2 by done. rewrite <-(Hg' (Z.of_nat i)) by (geo; lia).
      replace i with (Z.to_nat (Z.of_nat i)) at 1 by lia. apply getz_lookup. unfold zlen. lia.
    - rewrite !lookup_ge_None_2; rewrite ?length_replicate; try done; lia. }
  destruct (Z.eqb_spec (getz (i_addrs x) NDIRECT) 0) as [H0|H0].
  - exists t, y. split_and!; [done| |].
    + eapply freed_ext; [|exact F]. intros k Hk Hs. split; [done|]. intros _.
      destruct (Z.ltb_spec k NDIRECT); [lia|]. exfalso. apply Hs.
      destruct (decide (k = MAXFILE)) as [->|]; [done|]. rewrite slot_entry by lia. by rewrite H0.
    + apply Hall; [done|]. intros j Hj. destruct (decide (j = NDIRECT)) as [->|]; [congruence|apply Hz; lia].
  - destruct (indirect_loop t y F H0) as (t1 & E1 & F1). rewrite (bind_ok _ _ _ _ _ E1).
    destruct (freed_step t1 y _ MAXFILE F1) as (t2 & E2 & F2); [geo; lia|lia|done|].
    change (slot (dview s x) x MAXFILE) with (getz (i_addrs x) NDIRECT) in E2.
    rewrite (bind_ok _ _ _ _ _ E2). destruct (freed_it _ _ _ F2) as [Hit2 _].
    rewrite (updino_ok _ _ _ _ Hit2). eexists _, _. split_and!; [reflexivity| |].
    + apply freed_addr. eapply freed_ext; [|exact F2]. intros k Hk _. cbv beta. lia.
    + apply Hall; cbn [i_addrs set_addrs]; [by len|]. intros j Hj.
      destruct (decide (j = NDIRECT)) as [->|]; [apply getz_putz_eq; unfold zlen; geo; lia|].
      rewrite getz_putz_ne by lia. apply Hz. lia.
Qed.

Lemma itrunc_run :
  exists t y, itrunc ip s = Ok (tt, iupd_st (set_it (<[ip := set_size 0 y]> (f_it t)) t) (set_size 0 y)) /\
    freed ip x s t y (fun _ => True) /\ i_addrs y = replicate 13 0.
Proof.
  destruct trunc_blocks as (t & y & E & F & Ha). exists t, y. split; [|done].
  destruct (freed_it _ _ _ F) as [Hit _]. pose proof (freed_room _ _ _ F) as Hr.
  rewrite <-(iupdate_run ip (set_size 0 y) (set_it (<[ip := set_size 0 y]> (f_it t)) t));
    [|apply list_lookup_insert_eq; by eapply lookup_lt_Some|exact Hr].
  unfold itrunc. apply bind_inv in E as ([] & t0 & E0 & E1). rewrite (bind_ok _ _ _ _ _ E0).
  apply bind_inv in E1 as (x0 & t0' & E1 & E2). rewrite (bind_ok _ _ _ _ _ E1).
  rewrite (bind_ok _ _ _ _ _ E2). by rewrite (bind_ok _ _ _ _ _ (updino_ok _ _ _ _ Hit)).
Qed.
End Trunc.

Section Theorems.
  Context {U : Type} `{UserMem U}.

Definition truncated (x : inode) : inode := set_size 0 (set_addrs (replicate 13 0) x).

Lemma itrunc_spec ip x (s : fs U) :
  file_ok s ip x -> ino_fits x -> sb_size (f_sb s) <= BPB -> room (f_b s) 2 ->
  let y := truncated x in
  exists t, itrunc ip s = Ok (tt, t) /\ file_ok t ip y /\
    (f_it t = <[ip := y]> (f_it s) /\ f_sb t = f_sb s /\ f_pid t = f_pid s /\ f_usr t = f_usr s /\
     (room (f_b s) 3 -> room (f_b t) 1)) /\
    (forall k, 0 <= k <= MAXFILE -> slot (dview s x) x k <> 0 ->
       bit (f_sb s) (dview t x) (slot (dview s x) x k) = false) /\
    (forall b, 0 <= b < sb_size (f_sb s) ->
       (forall k, 0 <= k <= MAXFILE -> slot (dview s x) x k <> b) ->
       bit (f_sb s) (dview t x) b = bit (f_sb s) (dview s x) b) /\
    (forall z, ~ is_bm (f_sb s) z -> z <> IBLOCK (i_inum x) (f_sb s) -> dview t x z = dview s x z) /\
    get_dinode (dview t x (IBLOCK (i_inum x) (f_sb s))) (dioff (i_inum x)) y = set_ivalid true y.
Proof.
  intros [Hi Hg Hin Hd Hf Hfu] Hfits Hone Hroom z.
  destruct (itrunc_run ip x s Hg Hd Hf Hi Hone Hroom) as (t & y & E & F & Ha).
  pose proof (fr_y _ _ _ _ _ _ F) as Hy. pose proof (fr_sb _ _ _ _ _ _ F) as Hsb.
  destruct (freed_it _ _ _ Hi _ _ _ F) as [Hit Hdv].
  assert (set_size 0 y = z) as Ez by (unfold z, truncated; by rewrite Hy, Ha).
  rewrite Ez in *. set (t1 := set_it (<[ip := z]> (f_it t)) t) in *.
  assert (i_dev z = i_dev x /\ i_inum z = i_inum x) as [E1 E2] by done.
  assert (meta_only (f_sb s) (dview t x) (dview (iupd_st t1 z) x) (IBLOCK (i_inum x) (f_sb s))) as Hm.
  { pose proof (iupd_meta t1 z) as Hm. unfold dview in *. rewrite E1, E2 in Hm.
    cbn [f_sb f_b t1 set_it] in Hm. rewrite Hsb in Hm. apply Hm; [done|apply F| |].
    - unfold inum_ok. by rewrite E2.
    - done. }
  assert (forall v k, slot v z k = 0) as Hsl.
  { intros v k. unfold slot, z, truncated. cbn [i_addrs set_size set_addrs].
    assert (forall j, getz (replicate 13 0) j = 0) as Hz0.
    { intros j. unfold getz. destruct (replicate 13 0 !! _) as [w|] eqn:Ew; [|done].
      by apply lookup_replicate in Ew as [-> _]. }
    rewrite !Hz0. by destruct (k <? NDIRECT), (k =? MAXFILE). }
  exists (iupd_st t1 z). split; [done|]. split_and!; try done.
  - constructor; try done; unfold dview; cbn [f_sb iupd_st set_b t1 set_it]; rewrite ?Hsb, ?E1; try done.
    + cbn. rewrite list_lookup_insert_eq; [done|by eapply lookup_lt_Some].
    + eapply meta_wf; [done|exact Hm|apply F].
    + constructor; [done| |]; intros *; rewrite !Hsl; auto.
    + split; [cbn; geo; lia|]. cbn. intros. geo. lia.
  - cbn. rewrite (fr_it _ _ _ _ _ _ F). by rewrite list_insert_insert_eq.
  - apply F.
  - apply F.
  - intros [Hr1 Hr2]. unfold room. cbn -[add_log]. rewrite (fr_out _ _ _ _ _ _ F). split; [|done].
    pose proof (zlen_add_log (IBLOCK (i_inum x) (f_sb t)) (b_log (f_b t))).
    pose proof (zlen_add_log (sb_bmapstart (f_sb s)) (b_log (f_b s))).
    destruct (fr_log _ _ _ _ _ _ F) as [El | El]; rewrite El in *; lia.
  - intros k Hk Hne. destruct (slot_nbm _ _ _ k Hg Hf Hk Hne) as (? & _).
    rewrite (meta_bit _ _ _ _ Hm) by (destruct Hg; geo; dlia). by apply F.
  - intros b Hb Hall. rewrite (meta_bit _ _ _ _ Hm) by done. apply (fr_rest _ _ _ _ _ _ F); [done|].
    intros k _ Hk. by apply Hall.
  - intros w Hw Hne. rewrite (mo_rest _ _ _ _ Hm) by done. apply (fr_view _ _ _ _ _ _ F). by right.
  - unfold dview, iupd_st. rewrite E1, E2. cbn [f_b set_b b_view f_sb t1 set_it]. rewrite Hsb, bupd_eq.
    apply get_put_dinode; [|unfold dioff; geo; dlia|].
    + destruct Hfits as [F1 F2 F3 F4 F5 _]. constructor; cbn; try done.
      split; [done|]. apply (Forall_replicate _ 13). lia.
    + unfold zlen. pose proof (dw_len _ _ (fr_disk _ _ _ _ _ _ F) (IBLOCK (i_inum x) (f_sb s))) as Hl.
      unfold dview in Hl. rewrite Hl. unfold dioff. geo. dlia.
Qed.

End Theorems.

