(* ===== verification/FsInode.v ===== *)
(** FsInode: the inode table and the inodes on disk in kernel/fs.c: iget,
    idup, iput, ialloc, iupdate and ilock. *)

From S2P Require Import Prelude CString Locks Log Block Umem Fs FsAlloc FsFile FsTrunc.

(** An entry that stands for inode [inum] of device [dev]. *)
Definition is_ino (dev inum : Z) (e : inode) : bool :=
  (i_ref e >? 0) && (i_dev e =? dev) && (i_inum e =? inum).

(** Reference counts are not negative, and an inode has at most one entry. *)
Record it_wf (l : list inode) : Prop := It_wf {
  iw_ref : forall j e, l !! j = Some e -> 0 <= i_ref e;
  iw_uniq : forall j k e f dev inum, l !! j = Some e -> l !! k = Some f ->
    is_ino dev inum e = true -> is_ino dev inum f = true -> j = k
}.

Lemma is_ino_spec dev inum e :
  is_ino dev inum e = true <-> 0 < i_ref e /\ i_dev e = dev /\ i_inum e = inum.
Proof. unfold is_ino. lia. Qed.

(** iget's scan finds the inode's entry, or else the first free one. *)
Lemma iget_scan_spec dev inum l : forall i empty,
  match iget_scan l i dev inum empty with
  | inl j => exists k e, j = (i + k)%nat /\ l !! k = Some e /\ is_ino dev inum e = true
  | inr o =>
      (forall k e, l !! k = Some e -> is_ino dev inum e = false) /\
      match empty, o with
      | Some a, Some b => a = b
      | Some _, None => False
      | None, Some b => exists k e, b = (i + k)%nat /\ l !! k = Some e /\ i_ref e = 0
      | None, None => forall k e, l !! k = Some e -> i_ref e <> 0
      end
  end.
Proof.
  induction l as [|e l IH]; intros i empty; cbn [iget_scan].
  - split; [done|]. by destruct empty.
  - fold (is_ino dev inum e). destruct (is_ino dev inum e) eqn:Ee.
    { exists 0%nat, e. split_and!; [lia|done|done]. }
    set (empty' := match empty with None => _ | Some _ => _ end).
    specialize (IH (S i) empty'). destruct (iget_scan l (S i) dev inum empty') as [j|o].
    + destruct IH as (k & f & -> & Hk & Hf). exists (S k), f. split_and!; [lia|done|done].
    + destruct IH as [Hno Ho]. split; [by intros [|k] f Hk; cbn in Hk; simplify_eq; eauto|].
      subst empty'. destruct empty as [a|]; [done|]. destruct (Z.eqb_spec (i_ref e) 0) as [H0|H0].
      * destruct o as [b|]; [|done]. subst b. exists 0%nat, e. split_and!; [lia|done|done].
      * destruct o as [b|].
        -- destruct Ho as (k & f & -> & Hk & Hf). exists (S k), f. split_and!; [lia|done|done].
        -- by intros [|k] f Hk; cbn in Hk; simplify_eq; eauto.
Qed.

Section Table.
  Context {U : Type} `{UserMem U}.
  Implicit Types s t : fs U.

Lemma iget_run dev inum s :
  match iget_scan (f_it s) 0 dev inum None with
  | inl i => exists e, f_it s !! i = Some e /\ is_ino dev inum e = true /\
      iget dev inum s = Ok (i, set_it (<[i := set_ref (i_ref e + 1) e]> (f_it s)) s)
  | inr (Some i) => exists e, f_it s !! i = Some e /\ i_ref e = 0 /\
      (forall k f, f_it s !! k = Some f -> is_ino dev inum f = false) /\
      iget dev inum s = Ok (i, set_it (<[i := Inode dev inum 1 (i_lock e) false (i_type e) (i_major e)
        (i_minor e) (i_nlink e) (i_size e) (i_addrs e)]> (f_it s)) s)
  | inr None => iget dev inum s = Fault (FPanic "iget: no inodes") /\
      forall k f, f_it s !! k = Some f -> i_ref f <> 0 /\ is_ino dev inum f = false
  end.
Proof.
  pose proof (iget_scan_spec dev inum (f_it s) 0 None) as Hs. unfold iget.
  erewrite bind_ok by reflexivity.
  destruct (iget_scan (f_it s) 0 dev inum None) as [j|[j|]].
  - destruct Hs as (k & e & -> & Hk & He). exists e. split_and!; try done.
    by rewrite (bind_ok _ _ _ _ _ (updino_ok _ _ _ _ Hk)).
  - destruct Hs as [Hno (k & e & -> & Hk & He)]. exists e. split_and!; try done.
    by rewrite (bind_ok _ _ _ _ _ (updino_ok _ _ _ _ Hk)).
  - destruct Hs as [Hno Hf]. split; [done|]. eauto.
Qed.

(** Replacing an entry keeps the table well formed when the new entry stands
    for nothing else in the table. *)
Lemma it_wf_insert l i e' :
  it_wf l -> 0 <= i_ref e' ->
  (forall k f dev inum, l !! k = Some f -> is_ino dev inum e' = true -> is_ino dev inum f = true -> k = i) ->
  it_wf (<[i := e']> l).
Proof.
  intros [H1 H2] H0 Hu. constructor.
  - intros j e. rewrite list_lookup_insert. case_decide; [|by apply H1].
    intros [= <-]. done.
  - intros j k e f dev inum. rewrite !list_lookup_insert.
    repeat case_decide; destruct_and?; intros; simplify_eq; eauto.
    + symmetry. eauto.
Qed.

(** Iget returns the table's only entry for the inode: when the inode is in
    the table, its entry with one more reference; when it is not, the entry of
    a free slot, with one reference and marked as not yet read; when there is
    no free slot it panics.  No other entry changes, and the table keeps at
    most one entry per inode and non-negative counts. *)
Theorem iget_unique_entry dev inum s (Hw : it_wf (f_it s)) :
  (exists i e', iget dev inum s = Ok (i, set_it (<[i := e']> (f_it s)) s) /\
     it_wf (<[i := e']> (f_it s)) /\ i_dev e' = dev /\ i_inum e' = inum /\
     ((exists e, f_it s !! i = Some e /\ is_ino dev inum e = true /\ e' = set_ref (i_ref e + 1) e) \/
      (exists e, f_it s !! i = Some e /\ i_ref e = 0 /\ i_ref e' = 1 /\ i_valid e' = false /\
         forall k f, f_it s !! k = Some f -> is_ino dev inum f = false))) \/
  (iget dev inum s = Fault (FPanic "iget: no inodes") /\
   forall k f, f_it s !! k = Some f -> 0 < i_ref f /\ is_ino dev inum f = false).
Proof.
  pose proof (iget_run dev inum s) as Hr.
  destruct (iget_scan (f_it s) 0 dev inum None) as [i|[i|]].
  - left. destruct Hr as (e & He & Hm & E). exists i, (set_ref (i_ref e + 1) e).
    pose proof Hm as (Hr & Hd & Hn)%is_ino_spec. split_and!; try done.
    + apply it_wf_insert; [done|cbn; lia|]. intros k f d n Hk Hx Hf.
      apply is_ino_spec in Hx as (_ & Hd' & Hn'). cbn in Hd', Hn'.
      apply (iw_uniq _ Hw k i f e d n); try done. apply is_ino_spec. split; [done|]. split; congruence.
    + left. eauto.
  - left. destruct Hr as (e & He & H0 & Hno & E). eexists i, _. split_and!; [exact E| |done|done|].
    + apply it_wf_insert; [done|cbn; lia|]. intros k f d n Hk Hx Hf.
      apply is_ino_spec in Hx as (_ & Hd' & Hn'). cbn in Hd', Hn'. subst d n.
      by rewrite (Hno _ _ Hk) in Hf.
    + right. exists e. split_and!; done.
  - right. destruct Hr as [E Hf]. split; [done|]. intros k f Hk. destruct (Hf k f Hk) as [H0 Hm].
    pose proof (iw_ref _ Hw k f Hk). split; [lia|done].
Qed.
End Table.

Lemma iget_unique_entry_witness :
  exists i t, iget 1 5 wit_fs = Ok (i, t) /\ it_wf (f_it t).
Proof.
  destruct (iget_unique_entry 1 5 wit_fs) as [(i & e & H1 & H2 & _)|[H1 H2]].
  - constructor.
    + intros [|j] e; cbn; [|done]. by intros [= <-].
    + by intros [|j] [|k] e f dev inum.
  - eexists i, _. split; [exact H1|exact H2].
  - exfalso. revert H1. vm_compute. congruence.
Defined.

(** *** iput *)

Section Iput.
  Context {U : Type} `{UserMem U}.
  Implicit Types s t : fs U.

Lemma on_ilock_ok {A} ip x s (m : M Sleep.sleeplock A) a k :
  f_it s !! ip = Some x -> m (i_lock x) = Ok (a, k) ->
  on_ilock ip m s = Ok (a, set_it (<[ip := set_ilock k x]> (f_it s)) s).
Proof.
  intros Hi Hm. unfold on_ilock. rewrite (bind_ok _ _ _ _ _ (getino_ok _ _ _ Hi)), Hm.
  by rewrite (bind_ok _ _ _ _ _ (updino_ok _ _ _ _ Hi)).
Qed.

Lemma file_ok_lock s ip x k :
  file_ok s ip x -> file_ok (set_it (<[ip := set_ilock k x]> (f_it s)) s) ip (set_ilock k x).
Proof.
  intros [Hi Hg Hin Hd Hf Hfu]. constructor; try done.
  - cbn. apply list_lookup_insert_eq. by eapply lookup_lt_Some.
  - destruct Hf. by constructor.
Qed.

Lemma set_it_it s l ip y : (ip < length l)%nat -> f_it (set_it (<[ip := y]> l) s) !! ip = Some y.
Proof. intros. by apply list_lookup_insert_eq. Qed.

(** The inode's slot on disk once it is freed. *)
Lemma dinode_free s y :
  inum_ok (f_sb s) y -> ino_fits y -> i_type y = 0 ->
  length (dview s y (IBLOCK (i_inum y) (f_sb s))) = 1024%nat ->
  s16 (rd16 (dview (iupd_st s y) y (IBLOCK (i_inum y) (f_sb s))) (dioff (i_inum y))) = 0.
Proof.
  intros Hin Hf Ht Hl. unfold dview, iupd_st. cbn [f_b set_b b_view]. rewrite bupd_eq.
  assert (0 <= dioff (i_inum y) <= 960) as Ho by (unfold dioff; geo; dlia).
  pose proof (get_put_dinode (b_view (f_b s) (i_dev y) (IBLOCK (i_inum y) (f_sb s)))
    (dioff (i_inum y)) y Hf ltac:(lia)) as Hg.
  assert (dioff (i_inum y) + 64 <= zlen (b_view (f_b s) (i_dev y) (IBLOCK (i_inum y) (f_sb s)))) as Hle
    by (unfold zlen; unfold dview in Hl; rewrite Hl; lia).
  specialize (Hg Hle). apply (f_equal i_type) in Hg. cbn [i_type get_dinode set_ivalid] in Hg. by rewrite Hg.
Qed.

Lemma iput_last ip x s :
  file_ok s ip x -> ino_fits x -> sb_size (f_sb s) <= BPB -> room (f_b s) 3 ->
  i_ref x = 1 -> i_valid x = true -> i_nlink x = 0 -> Sleep.sl_locked (i_lock x) = false ->
  exists t e, iput ip s = Ok (tt, t) /\ f_it t = <[ip := e]> (f_it s) /\ i_ref e = 0 /\ i_valid e = false /\
    Sleep.sl_locked (i_lock e) = false /\
    s16 (rd16 (dview t x (IBLOCK (i_inum x) (f_sb s))) (dioff (i_inum x))) = 0 /\
    (forall k, 0 <= k <= MAXFILE -> slot (dview s x) x k <> 0 ->
       bit (f_sb s) (dview t x) (slot (dview s x) x k) = false) /\
    (forall b, 0 <= b < sb_size (f_sb s) ->
       (forall k, 0 <= k <= MAXFILE -> slot (dview s x) x k <> b) ->
       bit (f_sb s) (dview t x) b = bit (f_sb s) (dview s x) b) /\
    (forall z, ~ is_bm (f_sb s) z -> z <> IBLOCK (i_inum x) (f_sb s) -> dview t x z = dview s x z).
Proof.
  intros Hok Hfits Hone Hroom Hr Hv Hn Hlk. pose proof (fo_it _ _ _ Hok) as Hi.
  pose proof (lookup_lt_Some _ _ _ Hi) as Hlt.
  set (k := Sleep.Sleeplock true (f_pid s)). set (x1 := set_ilock k x).
  set (s1 := set_it (<[ip := x1]> (f_it s)) s).
  pose proof (file_ok_lock s ip x k Hok) as Hok1. fold x1 s1 in Hok1.
  assert (ino_fits x1) as Hfits1 by (destruct Hfits; by constructor).
  destruct (itrunc_spec ip x1 s1 Hok1 Hfits1 Hone) as (t1 & E1 & Hok2 & (Hit & Hsb & Hpid & _ & Hrm) & B1 & B2 & B3 & _).
  { eapply room_weaken; [exact Hroom|lia]. }
  specialize (Hrm Hroom). set (y := truncated x1) in *. set (y2 := set_type 0 y).
  assert (f_it t1 !! ip = Some y) as Hit1 by apply Hok2.
  assert (length (f_it t1) = length (f_it s)) as Hlen by (rewrite Hit; cbn; by rewrite !length_insert).
  set (t2 := set_it (<[ip := y2]> (f_it t1)) t1).
  assert (f_it t2 !! ip = Some y2) as Hit2 by (apply list_lookup_insert_eq; by eapply lookup_lt_Some).
  assert (meta_only (f_sb s) (dview t1 x) (dview (iupd_st t2 y2) x) (IBLOCK (i_inum x) (f_sb s))) as Hm.
  { pose proof (iupd_meta t2 y2) as Hm. change (f_sb t2) with (f_sb t1) in Hm. rewrite Hsb in Hm.
    apply Hm; [apply Hok|pose proof (fo_disk _ _ _ Hok2) as Hd; by rewrite Hsb in Hd|apply Hok|done]. }
  pose proof (fo_geom _ _ _ Hok) as Hg.
  set (t3 := iupd_st t2 y2).
  assert (s16 (rd16 (dview t3 x (IBLOCK (i_inum x) (f_sb s))) (dioff (i_inum x))) = 0) as Hdf.
  { pose proof (dinode_free t2 y2) as Hdf. change (f_sb t2) with (f_sb t1) in Hdf. rewrite Hsb in Hdf.
    apply Hdf; [apply Hok| |done|].
    - destruct Hfits as [F1 F2 F3 F4 F5 F6]. constructor; cbn; try done; try lia.
      split; [done|]. apply (Forall_replicate _ 13). lia.
    - apply (dw_len _ _ (fo_disk _ _ _ Hok2)). }
  eexists _, _. split.
  { unfold iput. rewrite (bind_ok _ _ _ _ _ (getino_ok _ _ _ Hi)). rewrite Hr, Hv, Hn, !Z.eqb_refl. cbn [andb].
    erewrite bind_ok; [eapply updino_ok|].
    2:{ erewrite bind_ok by reflexivity. erewrite bind_ok.
        2:{ apply (on_ilock_ok ip x); [exact Hi|]. unfold Sleep.acquiresleep. rewrite Hlk. reflexivity. }
        rewrite (bind_ok _ _ _ _ _ E1), (bind_ok _ _ _ _ _ (updino_ok _ _ _ _ Hit1)).
        rewrite (bind_ok _ _ _ _ _ (iupdate_run ip y2 t2 Hit2 Hrm)).
        erewrite bind_ok by (apply updino_ok; exact Hit2).
        apply (on_ilock_ok ip (set_ivalid false y2)); [|reflexivity].
        apply set_it_it. cbn. by rewrite length_insert, Hlen. }
    cbn. rewrite list_lookup_insert_eq; [reflexivity|]. by rewrite !length_insert, Hlen. }
  cbn [i_ref set_ref set_ilock i_valid set_ivalid i_lock f_it set_it]. split_and!.
  - cbn. rewrite Hit. cbn. by rewrite !list_insert_insert_eq.
  - cbn. rewrite Hr. done.
  - done.
  - done.
  - exact Hdf.
  - intros j Hj Hne. change (bit (f_sb s) (dview t3 x) (slot (dview s x) x j) = false).
    destruct (slot_nbm _ _ _ j Hg (fo_file _ _ _ Hok) Hj Hne) as (? & _).
    rewrite (meta_bit _ _ _ _ Hm) by (destruct Hg; geo; dlia). by apply B1.
  - intros b Hb Hall. change (bit (f_sb s) (dview t3 x) b = bit (f_sb s) (dview s x) b).
    rewrite (meta_bit _ _ _ _ Hm) by done. by apply B2.
  - intros z Hz Hne. change (dview t3 x z = dview s x z). rewrite (mo_rest _ _ _ _ Hm) by done. by apply B3.
Qed.
End Iput.

Section Theorems.
  Context {U : Type} `{UserMem U}.
  Implicit Types s t : fs U.

(** Iput drops one reference.  Unless it is the last
    reference to an inode with no links, only the count changes.  When it is,
    the inode is freed: all its blocks are free again in the bitmap, its type
    on disk is 0 so that ialloc may reuse it, its table entry is free, and no
    other bit, block or table entry changed. *)
Theorem iput_drops_reference ip x s (Hi : f_it s !! ip = Some x) :
  (i_ref x <> 1 \/ i_valid x = false \/ i_nlink x <> 0 ->
   iput ip s = Ok (tt, set_it (<[ip := set_ref (i_ref x - 1) x]> (f_it s)) s)) /\
  (file_ok s ip x -> ino_fits x -> sb_size (f_sb s) <= BPB -> room (f_b s) 3 ->
   i_ref x = 1 -> i_valid x = true -> i_nlink x = 0 -> Sleep.sl_locked (i_lock x) = false ->
   exists t e, iput ip s = Ok (tt, t) /\ f_it t = <[ip := e]> (f_it s) /\ i_ref e = 0 /\ i_valid e = false /\
     Sleep.sl_locked (i_lock e) = false /\
     s16 (rd16 (dview t x (IBLOCK (i_inum x) (f_sb s))) (dioff (i_inum x))) = 0 /\
     (forall k, 0 <= k <= MAXFILE -> slot (dview s x) x k <> 0 ->
        bit (f_sb s) (dview t x) (slot (dview s x) x k) = false) /\
     (forall b, 0 <= b < sb_size (f_sb s) ->
        (forall k, 0 <= k <= MAXFILE -> slot (dview s x) x k <> b) ->
        bit (f_sb s) (dview t x) b = bit (f_sb s) (dview s x) b) /\
     (forall z, ~ is_bm (f_sb s) z -> z <> IBLOCK (i_inum x) (f_sb s) -> dview t x z = dview s x z)).
Proof.
  split; [|by apply iput_last]. intros Hc. unfold iput.
  rewrite (bind_ok _ _ _ _ _ (getino_ok _ _ _ Hi)).
  assert ((i_ref x =? 1) && i_valid x && (i_nlink x =? 0) = false) as ->
    by (destruct (i_valid x); destruct Hc as [?|[?|?]]; try done; lia).
  erewrite bind_ok by reflexivity. by rewrite (updino_ok _ _ _ _ Hi).
Qed.

(** ialloc's test and the block it stores. *)
Definition dtype (v : Z -> block) (sb : superblock) (inum : Z) : Z :=
  s16 (rd16 (v (IBLOCK inum sb)) (dioff inum)).

Definition ialloc_blk (bp : block) (inum type : Z) : block :=
  wr16 (splice bp (dioff inum) (replicate 64 0)) (dioff inum) type.

Definition ialloc_st (s : fs U) (dev inum type : Z) : fs U :=
  let ib := IBLOCK inum (f_sb s) in
  set_b (Bst (bupd (b_view (f_b s)) dev ib (ialloc_blk (b_view (f_b s) dev ib) inum type))
             (add_log ib (b_log (f_b s))) (b_out (f_b s))) s.

Lemma ialloc_try_eq s dev type inum :
  room (f_b s) 1 ->
  ialloc_try dev type inum s =
  if dtype (b_view (f_b s) dev) (f_sb s) inum =? 0
  then match iget dev inum (ialloc_st s dev inum type) with
       | Ok (i, t) => Ok (Some i, t)
       | Fault e => Fault e
       end
  else Ok (None, s).
Proof.
  intros Hr. unfold ialloc_try. erewrite bind_ok by reflexivity.
  rewrite (bind_ok _ _ _ _ _ (onb_bread _ _ _)). fold (dtype (b_view (f_b s) dev) (f_sb s) inum).
  destruct (_ =? 0); [|done]. rewrite (bind_ok _ _ _ _ _ (onb_bstore _ _ _ _)).
  erewrite bind_ok by (apply (onb_log_write _ _ 1); [exact Hr|lia]).
  by unfold bind.
Qed.

(** Ialloc finds a free inode if there is one: when the inode table has a
    free entry and the transaction has room, it returns the in-memory entry of
    the lowest-numbered inode whose type on disk is 0, whose struct dinode is
    then all zeros except for the new type, with every other inode on disk
    unchanged; it returns NULL, changing nothing, when every inode is in use. *)
Theorem ialloc_lowest_free dev type s
    (Hr : room (f_b s) 1) (Ht : 0 < type < 2 ^ 15)
    (Hlen : forall b, length (b_view (f_b s) dev b) = 1024%nat)
    (Hslot : exists j e, f_it s !! j = Some e /\ i_ref e = 0) :
  (exists inum i t, ialloc dev type s = Ok (Some i, t) /\ 1 <= inum < sb_ninodes (f_sb s) /\
     dtype (b_view (f_b s) dev) (f_sb s) inum = 0 /\
     (forall j, 1 <= j < inum -> dtype (b_view (f_b s) dev) (f_sb s) j <> 0) /\
     (exists e, f_it t !! i = Some e /\ i_dev e = dev /\ i_inum e = inum) /\
     dtype (b_view (f_b t) dev) (f_sb s) inum = type /\
     (forall o, 2 <= o < 64 -> getz (b_view (f_b t) dev (IBLOCK inum (f_sb s))) (dioff inum + o) = 0) /\
     (forall j o, 0 <= j -> j <> inum -> 0 <= o < 64 ->
        getz (b_view (f_b t) dev (IBLOCK j (f_sb s))) (dioff j + o) =
        getz (b_view (f_b s) dev (IBLOCK j (f_sb s))) (dioff j + o))) \/
  (ialloc dev type s = Ok (None, s) /\
   forall j, 1 <= j < sb_ninodes (f_sb s) -> dtype (b_view (f_b s) dev) (f_sb s) j <> 0).
Proof.
  unfold ialloc. erewrite bind_ok by reflexivity.
  assert (forall inum, exists i e, iget dev inum (ialloc_st s dev inum type) =
    Ok (i, set_it (<[i := e]> (f_it s)) (ialloc_st s dev inum type)) /\
    (i < length (f_it s))%nat /\ i_dev e = dev /\ i_inum e = inum) as Hget.
  { intros inum. pose proof (iget_run dev inum (ialloc_st s dev inum type)) as Hg.
    change (f_it (ialloc_st s dev inum type)) with (f_it s) in Hg.
    destruct (iget_scan (f_it s) 0 dev inum None) as [i|[i|]].
    - destruct Hg as (e & He & (_ & ? & ?)%is_ino_spec & E). eexists i, _.
      split_and!; [exact E|by eapply lookup_lt_Some|done|done].
    - destruct Hg as (e & He & _ & _ & E). eexists i, _. split_and!; [exact E|by eapply lookup_lt_Some|done|done].
    - destruct Hg as [_ Hf], Hslot as (j & e & Hj & H0). by destruct (Hf j e Hj). }
  destruct (for_upto_find (ialloc_try dev type) (fun k => dtype (b_view (f_b s) dev) (f_sb s) k =? 0)
    (fun k => match iget dev k (ialloc_st s dev k type) with Ok (i, _) => i | Fault _ => 0%nat end)
    (fun k => match iget dev k (ialloc_st s dev k type) with Ok (_, t) => t | Fault _ => s end)
    s (Z.to_nat (sb_ninodes (f_sb s) - 1)) 1) as [(inum & Hi & Hp & Hm & E)|[Hm E]].
  { intros k Hk. rewrite ialloc_try_eq by done. destruct (_ =? 0); [|done].
    destruct (Hget k) as (i & e & -> & _). done. }
  - left. destruct (Hget inum) as (i & e & Eg & Hlt & He1 & He2). rewrite Eg in E.
    eexists inum, i, _. split; [exact E|]. apply Z.eqb_eq in Hp.
    assert (0 <= dioff inum <= 960) as Ho by (unfold dioff; geo; dlia).
    set (bp := b_view (f_b s) dev (IBLOCK inum (f_sb s))) in *.
    assert (length bp = 1024%nat) as Hbp by apply Hlen.
    assert (zlen (splice bp (dioff inum) (replicate 64 0)) = 1024) as Hzs
      by (unfold zlen; rewrite length_splice; unfold zlen; rewrite ?length_replicate; lia).
    assert (zlen (replicate 64 0) = 64) as Hz64 by done.
    split_and!; try lia.
    + intros j Hj. specialize (Hm j Hj). lia.
    + exists e. split_and!; try done. cbn. by apply list_lookup_insert_eq.
    + unfold dtype. cbn -[add_log ialloc_blk]. rewrite bupd_eq. fold bp. unfold ialloc_blk.
      rewrite rd_wr_eq by lia. change (256 ^ Z.of_nat 2) with (2 ^ 16). by rewrite s16_wrap by lia.
    + intros o Hoo. cbn -[add_log ialloc_blk]. rewrite bupd_eq. fold bp. unfold ialloc_blk, wr.
      rewrite getz_splice by (unfold zlen in *; rewrite ?length_le_enc; lia).
      destruct (_ && _) eqn:Ec; [unfold zlen in Ec; rewrite length_le_enc in Ec; lia|].
      rewrite getz_splice by (unfold zlen; rewrite ?length_replicate; lia). rewrite Hz64.
      assert ((dioff inum <=? dioff inum + o) && (dioff inum + o <? dioff inum + 64) = true) as -> by lia.
      unfold getz. rewrite lookup_replicate_2; [done|lia].
    + intros j o Hj Hne Hoo. cbn -[add_log ialloc_blk]. destruct (decide (IBLOCK j (f_sb s) = IBLOCK inum (f_sb s))) as [Eb|Eb].
      * rewrite Eb, bupd_eq. fold bp. unfold ialloc_blk, wr.
        assert (dioff j + 64 <= dioff inum \/ dioff inum + 64 <= dioff j) as Hdj by (unfold dioff; geo; dlia).
        assert (0 <= dioff j <= 960) by (unfold dioff; geo; dlia).
        rewrite getz_splice by (unfold zlen in *; rewrite ?length_le_enc; lia).
        destruct (_ && _) eqn:Ec; [unfold zlen in Ec; rewrite length_le_enc in Ec; lia|].
        rewrite getz_splice by (unfold zlen; rewrite ?length_replicate; lia). rewrite Hz64.
        by assert ((dioff inum <=? dioff j + o) && (dioff j + o <? dioff inum + 64) = false) as -> by lia.
      * by rewrite bupd_ne_b.
  - right. split; [done|]. intros j Hj. specialize (Hm j). lia.
Qed.
End Theorems.

Lemma iput_drops_reference_witness :
  exists t e, iput 0 (set_it [set_meta T_FILE 0 0 0 (set_ilock Sleep.initsleeplock wit_ino)] wit_fs) = Ok (tt, t) /\
    f_it t = [e] /\ i_ref e = 0 /\ bit wit_sb (dview t wit_ino) 40 = false.
Proof.
  set (x := set_meta T_FILE 0 0 0 (set_ilock Sleep.initsleeplock wit_ino)).
  destruct (iput_drops_reference 0 x (set_it [x] wit_fs) eq_refl) as [_ H].
  assert (file_ok (set_it [x] wit_fs) 0 x) as Hok.
  { destruct wit_ok as [? ? ? ? Hf ?]. constructor; try done. destruct Hf. by constructor. }
  assert (ino_fits x) as Hfi by (destruct wit_fits; constructor; try done; cbn; lia).
  destruct (H Hok Hfi) as (t & e & H1 & H2 & H3 & _ & _ & _ & H4 & _); try done.
  exists t, e. split_and!; [exact H1|exact H2|exact H3|].
  apply (H4 0); [split; by vm_compute|by vm_compute].
Defined.

Lemma ialloc_lowest_free_witness :
  exists i t, ialloc 1 T_FILE (set_it (iinit) wit_fs) = Ok (Some i, t) /\
    exists e, f_it t !! i = Some e /\ i_inum e = 1.
Proof.
  destruct (ialloc_lowest_free 1 T_FILE (set_it iinit wit_fs)) as [(n & i & t & H1 & H2 & H3 & H4 & (e & H5 & H6 & H7) & _)|[H1 H2]].
  - split; by vm_compute.
  - by vm_compute.
  - intros b. apply (dw_len _ _ wit_disk).
  - exists 0%nat. eexists. split; reflexivity.
  - exists i, t. split; [exact H1|]. exists e. split; [exact H5|]. rewrite H7.
    destruct (decide (n = 1)) as [|Hn]; [done|]. exfalso. apply (H4 1); [lia|]. by vm_compute.
  - exfalso. apply (H2 1); [split; by vm_compute|by vm_compute].
Defined.
