(* ===== verification/FsDir.v ===== *)
(** FsDir: directories in kernel/fs.c: dirlookup and dirlink. *)

From S2P Require Import Prelude CString Locks Log Block Umem Fs FsAlloc FsFile FsTrunc FsInode.

(** The [k]-th struct dirent of a directory, and whether it is an entry in
    use with the given name (names are compared up to DIRSIZ characters). *)
Definition dentry (v : Z -> block) (x : inode) (k : Z) : list Z := contents v x (16 * k) 16.

Definition has_name (v : Z -> block) (x : inode) (name : list Z) (k : Z) : Prop :=
  de_inum (dentry v x k) <> 0 /\
  take DIRSIZ (cstr name) = take DIRSIZ (cstr (de_name (dentry v x k))).

#[export] Instance has_name_dec v x name k : Decision (has_name v x name k).
Proof. unfold has_name. apply _. Defined.

Section Dir.
  Context {U : Type} `{UserMem U, !UserMemOk U}.
  Implicit Types s t : fs U.

(** A well-formed directory: a file of whole entries. *)
Record dir_ok (s : fs U) (dp : nat) (x : inode) : Prop := Dir_ok {
  do_file : file_ok s dp x;
  do_type : i_type x = T_DIR;
  do_size : i_size x mod 16 = 0
}.

Lemma dir_slots_eq x : i_size x mod 16 = 0 -> 0 <= i_size x -> Z.of_nat (dir_slots (i_size x)) = i_size x / 16.
Proof. intros Hm Hs. unfold dir_slots. dlia. Qed.

Lemma readi_dirent s dp x k :
  dir_ok s dp x -> 0 <= k < i_size x / 16 ->
  readi dp DKernel (16 * k) 16 s = Ok ((16, dentry (dview s x) x k), s).
Proof.
  intros [[Hi _ _ Hd _ Hf] _ Hm] Hk. pose proof Hf as [Hsz _].
  assert (i_size x <= 2 ^ 31) as Hb by (geo; lia).
  rewrite (readi_run dp x s DKernel (16 * k) 16); try done; [|apply Hd|dlia].
  assert (read_len x (16 * k) 16 = 16) as ->.
  { unfold read_len. rewrite u32_small by dlia.
    assert ((16 * k >? i_size x) = false) as -> by dlia.
    assert ((16 * k + 16 <? 16 * k) = false) as -> by lia. cbn [orb].
    by assert ((16 * k + 16 >? i_size x) = false) as -> by dlia. }
  cbn. by rewrite set_usr_id.
Qed.

Lemma namecmp_iff name de : namecmp name (de_name de) = 0 <->
  take DIRSIZ (cstr name) = take DIRSIZ (cstr (de_name de)).
Proof. apply strncmp_eq_iff. Qed.

(** iget cannot panic while the table has a free entry. *)
Definition it_room (s : fs U) : Prop := exists j e, f_it s !! j = Some e /\ i_ref e = 0.

Lemma iget_some dev inum s :
  it_room s -> exists i e, iget dev inum s = Ok (i, set_it (<[i := e]> (f_it s)) s) /\
    (i < length (f_it s))%nat /\ i_dev e = dev /\ i_inum e = inum.
Proof.
  intros (j & e & Hj & H0). pose proof (iget_run dev inum s) as Hg.
  destruct (iget_scan (f_it s) 0 dev inum None) as [i|[i|]].
  - destruct Hg as (f & Hf & (_ & ? & ?)%is_ino_spec & E). eexists i, _.
    split_and!; [exact E|by eapply lookup_lt_Some|done|done].
  - destruct Hg as (f & Hf & _ & _ & E). eexists i, _. split_and!; [exact E|by eapply lookup_lt_Some|done|done].
  - destruct Hg as [_ Hf]. by destruct (Hf j e Hj).
Qed.

Lemma dirlookup_slot_eq s dp x name k :
  dir_ok s dp x -> it_room s -> 0 <= k < i_size x / 16 ->
  dirlookup_slot dp name k s =
  if bool_decide (has_name (dview s x) x name k)
  then match iget (i_dev x) (de_inum (dentry (dview s x) x k)) s with
       | Ok (i, t) => Ok (Some (i, 16 * k), t)
       | Fault e => Fault e
       end
  else Ok (None, s).
Proof.
  intros Hok Hr Hk. unfold dirlookup_slot. rewrite (bind_ok _ _ _ _ _ (readi_dirent _ _ _ _ Hok Hk)).
  cbn [Z.eqb Pos.eqb negb]. set (de := dentry (dview s x) x k).
  destruct (Z.eqb_spec (de_inum de) 0) as [H0|H0].
  { rewrite bool_decide_eq_false_2; [done|]. by intros [? _]. }
  destruct (Z.eqb_spec (namecmp name (de_name de)) 0) as [Hn|Hn].
  - rewrite bool_decide_eq_true_2 by (split; [done|by apply namecmp_iff]).
    rewrite (bind_ok _ _ _ _ _ (getino_ok _ _ _ (fo_it _ _ _ (do_file _ _ _ Hok)))). by unfold bind.
  - rewrite bool_decide_eq_false_2; [done|]. intros [_ ?]. by apply Hn, namecmp_iff.
Qed.

Lemma dirlookup_run s dp x name :
  dir_ok s dp x -> it_room s ->
  (exists k i e, dirlookup dp name s = Ok (Some (i, 16 * k), set_it (<[i := e]> (f_it s)) s) /\
     (i < length (f_it s))%nat /\ 0 <= k < i_size x / 16 /\ has_name (dview s x) x name k /\
     (forall j, 0 <= j < k -> ~ has_name (dview s x) x name j) /\
     i_dev e = i_dev x /\ i_inum e = de_inum (dentry (dview s x) x k)) \/
  (dirlookup dp name s = Ok (None, s) /\
   forall k, 0 <= k < i_size x / 16 -> ~ has_name (dview s x) x name k).
Proof.
  intros Hok Hr. pose proof Hok as [Hfo Ht Hm]. unfold dirlookup.
  rewrite (bind_ok _ _ _ _ _ (getino_ok _ _ _ (fo_it _ _ _ Hfo))), Ht. cbn [Z.eqb Pos.eqb T_DIR negb].
  destruct (fo_full _ _ _ Hfo) as [Hsz _].
  pose proof (dir_slots_eq x Hm ltac:(lia)) as Hds.
  destruct (for_upto_find (dirlookup_slot dp name) (fun k => bool_decide (has_name (dview s x) x name k))
    (fun k => match iget (i_dev x) (de_inum (dentry (dview s x) x k)) s with
              | Ok (i, _) => (i, 16 * k) | Fault _ => (0%nat, 0) end)
    (fun k => match iget (i_dev x) (de_inum (dentry (dview s x) x k)) s with
              | Ok (_, t) => t | Fault _ => s end)
    s (dir_slots (i_size x)) 0) as [(k & Hk & Hp & Hmin & E)|[Hno E]].
  { intros k Hk. rewrite (dirlookup_slot_eq s dp x) by (done || lia). destruct (bool_decide _); [|done].
    destruct (iget_some (i_dev x) (de_inum (dentry (dview s x) x k)) s Hr) as (i & e & -> & _). done. }
  - left. apply bool_decide_eq_true in Hp.
    destruct (iget_some (i_dev x) (de_inum (dentry (dview s x) x k)) s Hr) as (i & e & Eg & Hi & He1 & He2).
    rewrite Eg in E. exists k, i, e. split_and!; try done; try lia.
    intros j Hj. eapply bool_decide_eq_false_1. by apply Hmin.
  - right. split; [done|]. intros k Hk. eapply bool_decide_eq_false_1. apply Hno. lia.
Qed.

(** Dirlookup returns the inode of the first entry in use
    with the given name, referenced in the inode table, and the entry's
    offset; it returns NULL and changes nothing exactly when the directory
    has no such entry. *)
Theorem dirlookup_first_match s dp x name (Hok : dir_ok s dp x) (Hr : it_room s) :
  (exists k i e, dirlookup dp name s = Ok (Some (i, 16 * k), set_it (<[i := e]> (f_it s)) s) /\
     (i < length (f_it s))%nat /\ 0 <= k < i_size x / 16 /\ has_name (dview s x) x name k /\
     (forall j, 0 <= j < k -> ~ has_name (dview s x) x name j) /\
     i_dev e = i_dev x /\ i_inum e = de_inum (dentry (dview s x) x k)) \/
  (dirlookup dp name s = Ok (None, s) /\
   forall k, 0 <= k < i_size x / 16 -> ~ has_name (dview s x) x name k).
Proof. by apply dirlookup_run. Qed.

(** *** dirlink *)

Lemma dirlink_slot_eq s dp x k :
  dir_ok s dp x -> 0 <= k < i_size x / 16 ->
  dirlink_slot dp k s =
  if de_inum (dentry (dview s x) x k) =? 0 then Ok (Some (16 * k), s) else Ok (None, s).
Proof.
  intros Hok Hk. unfold dirlink_slot. rewrite (bind_ok _ _ _ _ _ (readi_dirent _ _ _ _ Hok Hk)).
  cbn [Z.eqb Pos.eqb negb]. by destruct (_ =? 0).
Qed.

(** The first free slot, or the end of the directory. *)
Lemma dirlink_find s dp x :
  dir_ok s dp x ->
  exists k o, for_upto (dir_slots (i_size x)) 0 (dirlink_slot dp) s = Ok (o, s) /\
    default (16 * Z.of_nat (dir_slots (i_size x))) o = 16 * k /\ 0 <= k <= i_size x / 16 /\
    (k < i_size x / 16 -> de_inum (dentry (dview s x) x k) = 0).
Proof.
  intros Hok. pose proof Hok as [Hfo Ht Hm]. destruct (fo_full _ _ _ Hfo) as [Hsz _].
  pose proof (dir_slots_eq x Hm ltac:(lia)) as Hds.
  destruct (for_upto_find (dirlink_slot dp) (fun k => de_inum (dentry (dview s x) x k) =? 0)
    (fun k => 16 * k) (fun _ => s) s (dir_slots (i_size x)) 0) as [(k & Hk & Hp & Hmin & E)|[Hno E]].
  { intros k Hk. apply dirlink_slot_eq; [done|lia]. }
  - exists k, (Some (16 * k)). split_and!; try done; lia.
  - exists (i_size x / 16), None. split_and!; [done|cbn; lia|dlia|lia|lia].
Qed.

Lemma dentry_overlay v x v' y off data k :
  (forall o, 0 <= o < MAXFILE * BSIZE -> content v' y o = overlay off data (content v x) o) ->
  zlen data = 16 -> 0 <= k -> 16 * k + 16 <= MAXFILE * BSIZE -> off mod 16 = 0 ->
  dentry v' y k = if 16 * k =? off then data else dentry v x k.
Proof.
  intros Hc Hd Hk Hm Ho. unfold dentry, contents. destruct (Z.eqb_spec (16 * k) off) as [E|E].
  - apply list_eq. intros i. rewrite list_lookup_fmap. destruct (decide (i < 16)%nat) as [Hi|Hi].
    + rewrite lookup_seq_lt by done. cbn [fmap option_fmap option_map]. rewrite Hc by lia. unfold overlay.
      assert ((off <=? 16 * k + Z.of_nat (0 + i)) && (16 * k + Z.of_nat (0 + i) <? off + zlen data) = true) as -> by lia.
      replace (16 * k + Z.of_nat (0 + i) - off) with (Z.of_nat i) by lia.
      rewrite <-getz_lookup by lia. by rewrite Nat2Z.id.
    + rewrite lookup_seq_ge by lia. rewrite lookup_ge_None_2; [done|unfold zlen in Hd; lia].
  - apply list_fmap_ext. intros i j Hj. apply lookup_seq in Hj as [-> Hj]. rewrite Hc by lia. unfold overlay.
    by assert ((off <=? 16 * k + Z.of_nat (0 + i)) && (16 * k + Z.of_nat (0 + i) <? off + zlen data) = false) as -> by dlia.
Qed.

Lemma mk_dirent_name inum name :
  de_inum (mk_dirent inum (strncpy_chars name DIRSIZ)) = u16 inum /\
  take DIRSIZ (cstr (de_name (mk_dirent inum (strncpy_chars name DIRSIZ)))) = take DIRSIZ (cstr name).
Proof.
  unfold de_inum, de_name, mk_dirent. split.
  - unfold rd, slice. rewrite drop_0. change (Z.to_nat (Z.of_nat 2)) with 2%nat.
    rewrite take_app_length' by (by rewrite length_le_enc). rewrite le_dec_enc. done.
  - rewrite drop_app_length' by (by rewrite length_le_enc). rewrite strncpy_chars_spec.
    generalize DIRSIZ. intros n. pose proof (cstr_nz name) as Hnz. revert n.
    induction (cstr name) as [|c l IH]; intros n.
    + rewrite take_nil. cbn [length app]. destruct (n - 0)%nat; cbn; by rewrite take_nil.
    + apply Forall_cons in Hnz as [Hc Hnz]. destruct n as [|n]; [done|]. cbn [take app length].
      rewrite cstr_cons_nz by done. cbn [take]. f_equal. by apply IH.
Qed.

Lemma zlen_mk_dirent inum name : zlen (mk_dirent inum (strncpy_chars name DIRSIZ)) = 16.
Proof.
  unfold zlen, mk_dirent. rewrite length_app, length_le_enc, strncpy_chars_spec, length_app, length_take, length_replicate.
  unfold DIRSIZ. lia.
Qed.

(** C23: A name that dirlink adds is found again: in a directory with no entry
    of that name, inside a transaction with room, dirlink returns 0 with the
    directory holding one more entry, for the inode number given and with the
    name given, in a slot that was free or at the end, and all other entries
    as they were; a later dirlookup of the name finds that inode.  It returns
    -1 only when the disk has no free block.  A name that is already there is
    refused with -1. *)
Theorem dirlink_then_lookup s dp x name inum
    (Hok : dir_ok s dp x) (Hr : it_room s) (Hfits : ino_fits x) (Hi : 0 < inum < 65536)
    (Hspace : i_size x + 16 <= MAXFILE * BSIZE) (Hroom : room (f_b s) 7)
    (Hnew : forall k, 0 <= k < i_size x / 16 -> ~ has_name (dview s x) x name k) :
  exists t y, f_it t !! dp = Some y /\
    ((dirlink dp name inum s = Ok (0, t) /\ dir_ok t dp y /\
      exists k0, 0 <= k0 < i_size y / 16 /\
        (k0 < i_size x / 16 -> de_inum (dentry (dview s x) x k0) = 0) /\
        de_inum (dentry (dview t x) y k0) = inum /\ has_name (dview t x) y name k0 /\
        (forall k, 0 <= k < i_size y / 16 -> k <> k0 ->
           dentry (dview t x) y k = dentry (dview s x) x k) /\
        (it_room t -> exists i e t', dirlookup dp name t = Ok (Some (i, 16 * k0), t') /\
           f_it t' !! i = Some e /\ i_inum e = inum)) \/
     (dirlink dp name inum s = Ok (-1, t) /\
      forall b, 0 <= b < sb_size (f_sb s) -> bit (f_sb s) (dview t x) b = true)).
Proof.
  destruct (dirlookup_run s dp x name Hok Hr) as [(k & i & e & _ & _ & Hk & Hn & _)|[E1 _]];
    [by destruct (Hnew k Hk)|].
  pose proof Hok as [Hfo Ht Hm]. destruct (fo_full _ _ _ Hfo) as [Hsz _].
  destruct (dirlink_find s dp x Hok) as (k0 & o & E2 & Ho & Hk0 & Hfree).
  set (de := mk_dirent inum (strncpy_chars name DIRSIZ)).
  pose proof (zlen_mk_dirent inum name) as Hz. fold de in Hz.
  assert (either_copyin (SKernel de) 0 16 (f_usr s) = (true, de, f_usr s)) as Hsrc.
  { unfold either_copyin, slice. rewrite drop_0, take_ge by (unfold zlen in Hz; lia). done. }
  assert (iters 16 0 (16 * k0) = 1%nat) as Hit by (unfold iters; rewrite (proj2 (Z.ltb_lt 0 16)) by lia; geo; dlia).
  destruct (writei_run dp x s (SKernel de) (16 * k0) 16 de (f_usr s))
    as (tot & t & y & Ew & Htot & Hfull & Hfo' & Hys & Hc & _ & _ & _ & Hy);
    try done; [dlia|dlia|change (16 <= zlen de); lia|rewrite Hit; exact Hroom|].
  exists t, y. split; [apply Hfo'|].
  assert (dirlink dp name inum s = Ok (if tot =? 16 then 0 else -1, t)) as Edl.
  { unfold dirlink. rewrite (bind_ok _ _ _ _ _ E1).
    rewrite (bind_ok _ _ _ _ _ (getino_ok _ _ _ (fo_it _ _ _ Hfo))), (bind_ok _ _ _ _ _ E2). rewrite Ho.
    by rewrite (bind_ok _ _ _ _ _ Ew). }
  destruct (Z.eqb_spec tot 16) as [->|Hne]; [left|right; split; [done|apply Hfull; lia]].
  split; [done|]. rewrite take_ge in Hc by (unfold zlen in Hz; lia).
  assert (i_type y = T_DIR /\ i_dev y = i_dev x) as [Hty Hdv] by (by rewrite Hy).
  assert (dir_ok t dp y) as Hok'.
  { constructor; try done. rewrite Hys. dlia. }
  destruct (fo_full _ _ _ Hfo') as [Hsz' _].
  assert (forall k, 0 <= k < i_size y / 16 ->
    dentry (dview t x) y k = if 16 * k =? 16 * k0 then de else dentry (dview s x) x k) as Hde.
  { intros k Hk. apply dentry_overlay; try done; try lia; dlia. }
  assert (0 <= k0 < i_size y / 16) as Hk0' by (rewrite Hys; dlia).
  pose proof (mk_dirent_name inum name) as [Hin Hnm]. fold de in Hin, Hnm.
  rewrite u16_small in Hin by lia.
  assert (has_name (dview t x) y name k0) as Hhas
    by (unfold has_name; rewrite Hde, Z.eqb_refl by done; split; [lia|done]).
  split; [done|]. exists k0. split_and!; try done; try lia.
  - by rewrite Hde, Z.eqb_refl.
  - intros k Hk Hne. rewrite Hde by done. by rewrite (proj2 (Z.eqb_neq _ _)) by lia.
  - intros Hrt. assert (dview t y = dview t x) as Edv by (unfold dview; by rewrite Hdv).
    destruct (dirlookup_run t dp y name Hok' Hrt) as [(k & i & e & El & Hi' & Hk & Hn & Hmin & _ & He)|[_ Hno]];
      rewrite ?Edv in *; [|by destruct (Hno k0)].
    assert (k = k0) as ->.
    { destruct (decide (k = k0)) as [|Hkk]; [done|]. exfalso.
      unfold has_name in Hn. rewrite Hde in Hn by done. rewrite (proj2 (Z.eqb_neq _ _)) in Hn by lia.
      destruct (decide (k < i_size x / 16)) as [Hlt|Hge]; [by apply (Hnew k); [lia|]|].
      rewrite Hys in Hk. dlia. }
    eexists i, e, _. split_and!; [exact El|cbn; by apply list_lookup_insert_eq|].
    rewrite He, Hde, Z.eqb_refl by done. done.
Qed.
End Dir.

(** A directory with one entry, for inode 5 under the name 'a'. *)
Definition wit_dir : inode :=
  Inode 1 1 1 (Sleep.Sleeplock true 3) true T_DIR 0 0 1 16 (40 :: replicate 12 0).

Definition wit_dblk (b : Z) : block :=
  if b =? 40 then mk_dirent 5 (97 :: replicate 13 0) ++ replicate 1008 0 else wit_blk b.

Definition wit_dfs : fs flat := Fs (Bst (fun _ => wit_dblk) [] 1) wit_sb (wit_dir :: iinit) 3 wit_mem.

Lemma wit_dslot k : slot wit_dblk wit_dir k = slot wit_blk wit_ino k.
Proof.
  unfold slot. cbn [i_addrs wit_dir wit_ino].
  by change (getz (40 :: replicate 12 0) NDIRECT) with 0.
Qed.

Lemma wit_dir_ok : dir_ok wit_dfs 0 wit_dir.
Proof.
  constructor; [|done|done].
  assert (forall b, bit wit_sb wit_dblk b = bit wit_sb wit_blk b \/ BBLOCK b wit_sb = 40) as Hbit.
  { intros b. unfold bit, wit_dblk. destruct (Z.eqb_spec (BBLOCK b wit_sb) 40); [by right|by left]. }
  assert (forall b, 0 <= b < 100 -> bit wit_sb wit_dblk b = bit wit_sb wit_blk b) as Hbit'.
  { intros b Hb. destruct (Hbit b) as [?|E]; [done|]. exfalso. unfold BBLOCK, BPB in E.
    change (sb_bmapstart wit_sb) with 34 in E. dlia. }
  constructor; [done|apply wit_geom|split; by vm_compute| | |].
  - constructor.
    + intros b. change (length (wit_dblk b) = 1024%nat). unfold wit_dblk. destruct (b =? 40); [done|]. apply wit_disk.
    + intros b Hb. change (f_sb wit_dfs) with wit_sb in *. change (dview wit_dfs wit_dir) with wit_dblk.
      change (nmeta wit_sb) with 35 in Hb. rewrite Hbit' by lia. by apply wit_disk.
  - change (f_sb wit_dfs) with wit_sb. change (dview wit_dfs wit_dir) with wit_dblk.
    destruct wit_file as [H1 H2 H3]. constructor; [done| |].
    + intros k Hk. rewrite wit_dslot. destruct (H2 k Hk) as [?|[Hr Hb]]; [by left|right].
      split; [done|]. change (nmeta wit_sb) with 35 in Hr. change (sb_size wit_sb) with 100 in Hr.
      by rewrite Hbit' by lia.
    + intros j k. rewrite !wit_dslot. apply H3.
  - split; [split; by vm_compute|]. intros k Hk Hs. change (dview wit_dfs wit_dir) with wit_dblk.
    cbn in Hs. assert (k = 0) as -> by (unfold BSIZE in Hs; lia). by vm_compute.
Qed.

Lemma wit_it_room : it_room wit_dfs.
Proof. exists 1%nat. eexists. split; reflexivity. Qed.

Lemma dirlookup_first_match_witness :
  exists i t, dirlookup 0 [97] wit_dfs = Ok (Some (i, 0), t).
Proof.
  destruct (dirlookup_first_match wit_dfs 0 wit_dir [97] wit_dir_ok wit_it_room)
    as [(k & i & e & H1 & _ & H2 & _)|[_ H1]].
  - assert (k = 0) as -> by (change (i_size wit_dir / 16) with 1 in H2; lia). eexists i, _. exact H1.
  - exfalso. apply (H1 0); [by vm_compute|]. apply (bool_decide_unpack _). by vm_compute.
Defined.

Lemma dirlink_then_lookup_witness :
  exists t y, f_it t !! 0%nat = Some y /\ dirlink 0 [98] 7 wit_dfs = Ok (0, t).
Proof.
  destruct (dirlink_then_lookup wit_dfs 0 wit_dir [98] 7 wit_dir_ok wit_it_room) as (t & y & H1 & [[H2 _]|[H2 _]]).
  - unfold wit_dir, T_DIR. constructor; cbn; try lia. split; [done|].
    repeat (apply Forall_cons; split; [lia|]). by apply Forall_nil.
  - lia.
  - by vm_compute.
  - split; by vm_compute.
  - intros k Hk. assert (k = 0) as -> by (change (i_size wit_dir / 16) with 1 in Hk; lia).
    apply (bool_decide_unpack _). by vm_compute.
  - exists t, y. split; [exact H1|exact H2].
  - exfalso. assert (match dirlink 0 [98] 7 wit_dfs with Ok (r, _) => r | Fault _ => -2 end = 0) as E
      by (vm_compute; reflexivity). rewrite H2 in E. done.
Defined.
