(* ===== verification/Mkfs.v ===== *)
(** Mkfs: mkfs/mkfs.c, the host tool that makes the initial disk image with the
    user programs in it.

    The image is a file of blocks; lseek, read and write of the host work, but a
    read behind the end of the file fails.  An input file is the list of the
    pieces that successive reads return. *)

From S2P Require Import Prelude CString Locks Log Block Umem Fs.

Definition FSSIZE : Z := 2000.
Definition NINODES : Z := 200.
Definition LOGBLOCKS : Z := 30.
Definition ROOTINO : Z := 1.

Definition nbitmap : Z := FSSIZE / BPB + 1.
Definition ninodeblocks : Z := NINODES / IPB + 1.
Definition nlog : Z := LOGBLOCKS + 1.
Definition nmetablocks : Z := 2 + nlog + ninodeblocks + nbitmap.

Definition mk_sb : superblock :=
  Superblock FSMAGIC FSSIZE (FSSIZE - nmetablocks) NINODES nlog 2 (2 + nlog) (2 + nlog + ninodeblocks).

(** The image, its length in blocks, freeinode and freeblock. *)
Record mk : Type := Mk { k_blk : Z -> block; k_len : Z; k_freeinode : Z; k_freeblock : Z }.

Definition kupd (v : Z -> block) (b : Z) (d : block) : Z -> block := fun b' => if b' =? b then d else v b'.

Definition wsect (sec : Z) (buf : block) : M mk unit :=
  modify (fun s => Mk (kupd (k_blk s) sec buf) (Z.max (k_len s) (sec + 1)) (k_freeinode s) (k_freeblock s)).

Definition rsect (sec : Z) : M mk block :=
  fun s => if sec <? k_len s then Ok (k_blk s sec, s) else Fault (FPanic "read").

(** A struct dinode, as the part of an inode that is on disk. *)
Definition din0 : inode := Inode 0 0 0 Sleep.initsleeplock true 0 0 0 0 0 (replicate 13 0).

Definition winode (inum : Z) (ip : inode) : M mk unit :=
  buf <- rsect (IBLOCK inum mk_sb) ;;
  wsect (IBLOCK inum mk_sb) (put_dinode buf (dioff inum) ip).

Definition rinode (inum : Z) : M mk inode :=
  buf <- rsect (IBLOCK inum mk_sb) ;;
  ret (get_dinode buf (dioff inum) din0).

(** [freeblock++] *)
Definition take_block : M mk Z :=
  b <- gets k_freeblock ;;
  modify (fun s => Mk (k_blk s) (k_len s) (k_freeinode s) (u32 (b + 1))) ;;;
  ret b.

Definition ialloc (type : Z) : M mk Z :=
  inum <- gets k_freeinode ;;
  modify (fun s => Mk (k_blk s) (k_len s) (u32 (inum + 1)) (k_freeblock s)) ;;;
  winode inum (set_meta type 0 0 1 din0) ;;;
  ret inum.

Definition balloc (used : Z) : M mk unit :=
  if negb (used <? BPB) then panic "assert"
  else wsect (sb_bmapstart mk_sb) (foldl bm_set zero_block (seqZ 0 used)).

(** [if(din.addrs[k] == 0) din.addrs[k] = freeblock++;] *)
Definition fill_addr (k : Z) (din : inode) : M mk inode :=
  if getz (i_addrs din) k =? 0
  then b <- take_block ;; ret (set_addrs (putz (i_addrs din) k b) din)
  else ret din.

(** The block for index [fbn] of the file, allocated if it has none. *)
Definition block_for (fbn : Z) (din : inode) : M mk (inode * Z) :=
  if fbn <? NDIRECT then
    din <- fill_addr fbn din ;;
    ret (din, getz (i_addrs din) fbn)
  else
    din <- fill_addr NDIRECT din ;;
    ind <- rsect (getz (i_addrs din) NDIRECT) ;;
    let o := 4 * (fbn - NDIRECT) in
    if rd32 ind o =? 0 then
      b <- take_block ;;
      wsect (getz (i_addrs din) NDIRECT) (wr32 ind o b) ;;;
      ret (din, b)
    else ret (din, rd32 ind o).

(** One turn of iappend's loop; the locals are din, off and what p points to. *)
Definition iappend_body (st : inode * Z * list Z) : M mk (inode * Z * list Z + inode * Z) :=
  let '(din, off, p) := st in
  match p with
  | [] => ret (inr (din, off))
  | _ =>
      let fbn := off / BSIZE in
      if negb (fbn <? MAXFILE) then panic "assert"
      else
        '(din, x) <- block_for fbn din ;;
        let n1 := Z.min (zlen p) ((fbn + 1) * BSIZE - off) in
        buf <- rsect x ;;
        wsect x (splice buf (off - fbn * BSIZE) (take (Z.to_nat n1) p)) ;;;
        ret (inl (din, off + n1, drop (Z.to_nat n1) p))
  end.

Definition iappend (inum : Z) (p : list Z) : M mk unit :=
  din <- rinode inum ;;
  '(din, off) <- loop (S (length p)) iappend_body (din, i_size din, p) ;;
  winode inum (set_size off din).

(** A directory entry; the name is padded with NULs. *)
Definition dirent (inum : Z) (name : list Z) : list Z := mk_dirent inum (take DIRSIZ (name ++ replicate DIRSIZ 0)).

(** The name of an input file without user/, and without a leading underscore. *)
Definition strip_user (arg : list Z) : list Z := if strncmp arg [117; 115; 101; 114; 47] 5 =? 0 then drop 5 arg else arg.
Definition strip_underscore (s : list Z) : list Z := if hd 0 s =? 95 then tl s else s.

Definition shortname (arg : list Z) : M mk (list Z) :=
  let s := strip_user arg in
  if existsb (Z.eqb 47) s then panic "assert"
  else
    let s := strip_underscore s in
    if (DIRSIZ <? length s)%nat then panic "assert" else ret s.

Definition add_file (f : list Z * list (list Z)) : M mk unit :=
  name <- shortname f.1 ;;
  inum <- ialloc T_FILE ;;
  iappend ROOTINO (dirent inum name) ;;;
  for_each f.2 (iappend inum).

Definition sb_block : block :=
  splice zero_block 0 (le_enc 4 (sb_magic mk_sb) ++ le_enc 4 (sb_size mk_sb) ++ le_enc 4 (sb_nblocks mk_sb) ++ le_enc 4 (sb_ninodes mk_sb) ++
    le_enc 4 (sb_nlog mk_sb) ++ le_enc 4 (sb_logstart mk_sb) ++ le_enc 4 (sb_inodestart mk_sb) ++ le_enc 4 (sb_bmapstart mk_sb)).

(** The truncated file. *)
Definition empty_image : mk := Mk (fun _ => zero_block) 0 1 nmetablocks.

(** main, from the open image file on. *)
Definition main (files : list (list Z * list (list Z))) : M mk unit :=
  for_each (seqZ 0 FSSIZE) (fun i => wsect i zero_block) ;;;
  wsect 1 sb_block ;;;
  rootino <- ialloc T_DIR ;;
  if negb (rootino =? ROOTINO) then panic "assert"
  else
    iappend rootino (dirent rootino [46]) ;;;
    iappend rootino (dirent rootino [46; 46]) ;;;
    for_each files add_file ;;;
    din <- rinode rootino ;;
    winode rootino (set_size ((i_size din / BSIZE + 1) * BSIZE) din) ;;;
    b <- gets k_freeblock ;;
    balloc b.

Example small_image :
  match main [([117; 115; 101; 114; 47; 95; 99; 97; 116], [[1; 2; 3]; [4]])] empty_image with
  | Ok (_, s) => let x := get_dinode (k_blk s (IBLOCK 2 mk_sb)) (dioff 2) din0 in
      i_size x = 4 /\ take 4 (k_blk s (getz (i_addrs x) 0)) = [1; 2; 3; 4] /\ k_freeblock s = 49
  | Fault _ => False
  end.
Proof. vm_compute. done. Qed.
