(* ===== verification/MkfsOk.v ===== *)
(** MkfsOk: the image that mkfs makes.  Every inode of the image owns the blocks
    it points to and stands for a byte sequence; iappend appends to it. *)

From S2P Require Import Prelude CString Locks Log Block Umem Fs FsAlloc FsFile Mkfs.

(** Blocks that a file of [n] bytes takes, the indirect block included. *)
Definition nb (n : Z) : Z := (n + BSIZE - 1) / BSIZE + (if NDIRECT * BSIZE <? n then 1 else 0).

(** The inode [x] has blocks for [n] bytes, all of them its own and below [fb],
    and its contents are [d], followed by zeros. *)
Record ino_ok (v : Z -> block) (fb : Z) (x : inode) (d : list Z) (n : Z) : Prop := InoOk {
  io_len : length (i_addrs x) = 13%nat;
  io_max : 0 <= n <= MAXFILE * BSIZE;
  io_slot : forall k, 0 <= k < MAXFILE -> slot v x k <> 0 <-> k * BSIZE < n;
  io_ind : slot v x MAXFILE <> 0 <-> NDIRECT * BSIZE < n;
  io_in : forall k, 0 <= k <= MAXFILE -> slot v x k <> 0 -> nmetablocks <= slot v x k < fb;
  io_inj : forall j k, 0 <= j <= MAXFILE -> 0 <= k <= MAXFILE -> j <> k -> slot v x j <> 0 -> slot v x j <> slot v x k;
  io_data : forall o, 0 <= o < MAXFILE * BSIZE -> content v x o = getz d o
}.
Arguments io_len {v fb x d n}.
Arguments io_max {v fb x d n}.
Arguments io_slot {v fb x d n}.
Arguments io_ind {v fb x d n}.
Arguments io_in {v fb x d n}.
Arguments io_inj {v fb x d n}.
Arguments io_data {v fb x d n}.

(** The block [b] belongs to [x]. *)
Definition owns (v : Z -> block) (x : inode) (b : Z) : Prop := b <> 0 /\ exists k, 0 <= k <= MAXFILE /\ slot v x k = b.

Lemma slot_ind v x : slot v x MAXFILE = getz (i_addrs x) NDIRECT.
Proof. done. Qed.

(** Only the indirect block matters for the slots. *)
Lemma slot_frame v v' x x' k : i_addrs x' = i_addrs x -> (slot v x MAXFILE <> 0 -> v' (slot v x MAXFILE) = v (slot v x MAXFILE)) -> slot v' x' k = slot v x k.
Proof.
  intros Ea Hv. rewrite slot_ind in Hv. unfold slot. rewrite Ea. destruct (k <? NDIRECT); [done|]. destruct (k =? MAXFILE); [done|].
  destruct (Z.eqb_spec (getz (i_addrs x) NDIRECT) 0) as [|Hne]; [done|]. by rewrite Hv.
Qed.

Lemma ino_frame v v' fb fb' x x' d n : ino_ok v fb x d n -> i_addrs x' = i_addrs x -> fb <= fb' ->
  (forall b, owns v x b -> v' b = v b) -> ino_ok v' fb' x' d n.
Proof.
  intros Hok Ea Hfb Hv. assert (forall k, slot v' x' k = slot v x k) as Es.
  { intros k. apply slot_frame; [done|]. intros Hne. apply Hv. split; [done|]. exists MAXFILE. split; [geo; lia|done]. }
  destruct Hok. constructor; try done; intros *; rewrite ?Ea, ?Es; eauto.
  - intros Hk Hne. specialize (io_in0 _ Hk Hne). lia.
  - intros Ho. rewrite <-io_data0 by done. unfold content. rewrite Es. destruct (Z.eqb_spec (slot v x (o / BSIZE)) 0) as [|Hne]; [done|].
    rewrite Hv; [done|]. split; [done|]. exists (o / BSIZE). split; [geo; dlia|done].
Qed.

(** An inode with blocks for as many bytes, rounded up. *)
Lemma ino_round v fb x d n m : ino_ok v fb x d n -> 0 <= m <= MAXFILE * BSIZE -> (n + BSIZE - 1) / BSIZE = (m + BSIZE - 1) / BSIZE -> ino_ok v fb x d m.
Proof.
  intros [] Hm E. constructor; try done.
  - intros k Hk. rewrite io_slot0 by done. geo. split; dlia.
  - rewrite io_ind0. geo. split; dlia.
Qed.

(** *** Writing into a block of the file *)

Lemma kupd_eq v b d : kupd v b d b = d.
Proof. unfold kupd. by rewrite Z.eqb_refl. Qed.

Lemma kupd_ne v b d b' : b' <> b -> kupd v b d b' = v b'.
Proof. intros H. unfold kupd. by rewrite (proj2 (Z.eqb_neq _ _) H). Qed.

Lemma getz_app l1 l2 i : 0 <= i -> getz (l1 ++ l2) i = if i <? zlen l1 then getz l1 i else getz l2 (i - zlen l1).
Proof.
  intros Hi. unfold getz, zlen. destruct (Z.ltb_spec i (Z.of_nat (length l1))) as [H|H].
  - by rewrite lookup_app_l by lia.
  - rewrite lookup_app_r by lia. f_equal. f_equal. lia.
Qed.

Lemma getz_beyond l i : zlen l <= i -> getz l i = 0.
Proof. intros H. unfold getz, zlen in *. by rewrite lookup_ge_None_2 by lia. Qed.

Lemma ino_write v fb x d n q : ino_ok v fb x d n -> length (v (slot v x (zlen d / BSIZE))) = 1024%nat -> zlen d < MAXFILE * BSIZE ->
  zlen d / BSIZE * BSIZE < n -> zlen d mod BSIZE + zlen q <= BSIZE ->
  let a := slot v x (zlen d / BSIZE) in
  ino_ok (kupd v a (splice (v a) (zlen d mod BSIZE) q)) fb x (d ++ q) n.
Proof.
  intros Hok Hl Hmax Hn Hq a. set (k0 := zlen d / BSIZE) in *. assert (0 <= zlen d) as Hd by (unfold zlen; lia).
  assert (0 <= k0 < MAXFILE) as Hk0 by (unfold k0; geo; dlia).
  assert (a <> 0) as Ha by (apply (io_slot Hok); done).
  assert (a <> slot v x MAXFILE) as Hai by (apply (io_inj Hok); [lia|geo; lia|lia|done]).
  assert (forall k, slot (kupd v a (splice (v a) (zlen d mod BSIZE) q)) x k = slot v x k) as Es.
  { intros k. apply slot_frame; [done|]. intros _. apply kupd_ne. done. }
  destruct Hok. constructor; try done; intros *; rewrite ?Es; eauto.
  intros Ho. unfold content. rewrite Es. set (k := o / BSIZE). assert (0 <= k < MAXFILE) as Hk by (unfold k; geo; dlia).
  specialize (io_data0 o Ho). unfold content in io_data0. fold k in io_data0. rewrite getz_app by lia.
  destruct (Z.eqb_spec (slot v x k) 0) as [E0|E0].
  - assert (~ k * BSIZE < n) as Hkn by (intros H; by apply io_slot0 in H). rewrite <-io_data0.
    destruct (Z.ltb_spec o (zlen d)) as [|Hge]; [done|]. rewrite getz_beyond; [done|]. unfold k, k0 in *. geo. dlia.
  - destruct (Z.eq_dec k k0) as [Ek|Ek].
    + rewrite Ek. fold a. rewrite kupd_eq. rewrite Ek in io_data0. fold a in io_data0.
      assert (o mod BSIZE = o - k0 * BSIZE) as Em by (unfold k in Ek; geo; dlia).
      assert (zlen d mod BSIZE = zlen d - k0 * BSIZE) as Em' by (unfold k0; geo; dlia).
      assert (zlen (v a) = BSIZE) as Hz by (unfold zlen, a; by rewrite Hl).
      assert (0 <= zlen d mod BSIZE /\ 0 <= o mod BSIZE < BSIZE) as [Hm1 Hm2] by (geo; dlia).
      rewrite getz_splice by lia. rewrite Em, Em' in *.
      destruct (Z.ltb_spec o (zlen d)) as [Hlt|Hge].
      * replace (_ && _) with false by lia. done.
      * destruct (Z.ltb_spec (o - zlen d) (zlen q)) as [Hin|Hout].
        -- replace (_ && _) with true by lia. f_equal. lia.
        -- replace (_ && _) with false by lia. rewrite io_data0, !getz_beyond by lia. done.
    + rewrite kupd_ne; [|apply io_inj0; [lia|lia|done|done]]. rewrite io_data0. destruct (Z.ltb_spec o (zlen d)) as [|Hge]; [done|].
      rewrite !getz_beyond; [done| |done]. unfold k, k0 in *. geo. dlia.
Qed.

(** *** Allocating a block *)

Lemma getz_zero_block i : getz zero_block i = 0.
Proof. unfold getz, zero_block. destruct (decide (Z.to_nat i < 1024)%nat); [by rewrite lookup_replicate_2|by rewrite lookup_ge_None_2 by (rewrite length_replicate; lia)]. Qed.

(** The file gets the block [a] at its end, and perhaps an indirect block. *)
Lemma ino_extend v v' fb fb' x x' d k0 a : ino_ok v fb x d (k0 * BSIZE) -> zlen d = k0 * BSIZE -> 0 <= k0 < MAXFILE -> length (i_addrs x') = 13%nat ->
  slot v' x' k0 = a -> (forall k, 0 <= k < MAXFILE -> k <> k0 -> slot v' x' k = slot v x k) ->
  nmetablocks <= fb <= a -> a < fb' -> slot v' x' MAXFILE = slot v x MAXFILE \/ (fb <= slot v' x' MAXFILE < fb' /\ slot v' x' MAXFILE <> a) ->
  (slot v' x' MAXFILE <> 0 <-> NDIRECT <= k0) -> v' a = zero_block -> (forall b, b < fb -> b <> slot v x MAXFILE -> v' b = v b) ->
  ino_ok v' fb' x' d (k0 * BSIZE + 1).
Proof.
  intros Hok Hd Hk0 Hl Ea Es Hfb Ha Hi Hind Hz Hv.
  assert (0 < nmetablocks) as Hnm by done.
  assert (slot v x k0 = 0) as E0.
  { destruct (Z.eq_dec (slot v x k0) 0) as [|Hne]; [done|]. apply (io_slot Hok) in Hne; [lia|done]. }
  assert (forall k, 0 <= k <= MAXFILE -> slot v' x' k = slot v x k \/ fb <= slot v' x' k) as Hor.
  { intros k Hk. destruct (Z.eq_dec k MAXFILE) as [->|]; [destruct Hi as [->|[? _]]; [by left|right; lia]|].
    destruct (Z.eq_dec k k0) as [->|]; [right; lia|left; apply Es; lia]. }
  constructor; [done| | | | | |].
  - geo. lia.
  - intros k Hk. destruct (Z.eq_dec k k0) as [->|Hne]; [geo; lia|]. rewrite Es, (io_slot Hok) by done. geo. lia.
  - rewrite Hind. geo. lia.
  - intros k Hk Hne. destruct (Z.eq_dec k MAXFILE) as [->|Hm].
    + destruct Hi as [Hi|[Hi _]]; [|lia]. rewrite Hi in *. pose proof (io_in Hok MAXFILE ltac:(geo; lia) Hne). lia.
    + destruct (Z.eq_dec k k0) as [->|Hk']; [lia|]. rewrite Es in * by lia. pose proof (io_in Hok k ltac:(lia) Hne). lia.
  - assert (forall j k, 0 <= j < MAXFILE -> 0 <= k <= MAXFILE -> j <> k -> slot v' x' j <> 0 -> slot v' x' j <> slot v' x' k) as Hinj.
    { intros j k Hj Hk Hjk Hne. destruct (Z.eq_dec j k0) as [->|Hj0].
      - rewrite Ea in *. destruct (Z.eq_dec k MAXFILE) as [->|Hm]; [destruct Hi as [->|[_ Hi]]; [|congruence]|rewrite (Es k) by lia];
          intros E; (destruct (Z.eq_dec a 0) as [|_]; [lia|]); [pose proof (io_in Hok MAXFILE ltac:(geo; lia)) as H|pose proof (io_in Hok k ltac:(lia)) as H]; rewrite <-E in H; lia.
      - rewrite (Es j) in * by lia. pose proof (io_in Hok j ltac:(lia) Hne) as Hj'. destruct (Hor k Hk) as [->|]; [|lia]. apply (io_inj Hok); [lia|lia|done|done]. }
    intros j k Hj Hk Hjk Hne. destruct (Z.eq_dec j MAXFILE) as [->|Hm]; [|apply Hinj; [lia|done|done|done]].
    intros E. apply (Hinj k MAXFILE); [lia|geo; lia|lia|by rewrite <-E|done].
  - intros o Ho. unfold content. set (k := o / BSIZE). assert (0 <= k < MAXFILE) as Hk by (unfold k; geo; dlia).
    destruct (Z.eq_dec k k0) as [Ek|Ek].
    + rewrite Ek, Ea, Hz, getz_zero_block, getz_beyond by (unfold k in Ek; geo; dlia). by destruct (a =? 0).
    + rewrite Es by done. rewrite <-(io_data Hok o Ho). unfold content. fold k. destruct (Z.eqb_spec (slot v x k) 0) as [|Hne]; [done|].
      rewrite Hv; [done| |apply (io_inj Hok); [lia|geo; lia|lia|done]]. pose proof (io_in Hok k ltac:(lia) Hne). lia.
Qed.

(** The file [s] is an image in the making. *)
Record image (s : mk) : Prop := Image {
  im_len : k_len s = FSSIZE;
  im_blk : forall b, length (k_blk s b) = 1024%nat;
  im_free : nmetablocks <= k_freeblock s;
  im_zero : forall b, k_freeblock s <= b -> k_blk s b = zero_block
}.

Definition with_blk (v : Z -> block) (fb : Z) (s : mk) : mk := Mk v (k_len s) (k_freeinode s) fb.

Lemma take_block_ok s : 0 <= k_freeblock s < FSSIZE -> take_block s = Ok (k_freeblock s, with_blk (k_blk s) (k_freeblock s + 1) s).
Proof.
  intros H. unfold take_block. mstep. unfold with_blk. rewrite u32_small; [done|]. unfold FSSIZE in H. change (2 ^ 32) with 4294967296. lia.
Qed.

Lemma rsect_ok s b : image s -> b < FSSIZE -> rsect b s = Ok (k_blk s b, s).
Proof. intros Hi Hb. unfold rsect. rewrite (im_len _ Hi). by rewrite (proj2 (Z.ltb_lt _ _) Hb). Qed.

Lemma wsect_ok s b d : image s -> b < FSSIZE -> wsect b d s = Ok (tt, with_blk (kupd (k_blk s) b d) (k_freeblock s) s).
Proof. intros Hi Hb. unfold wsect. mstep. unfold with_blk. rewrite (im_len _ Hi). by rewrite Z.max_l by lia. Qed.

Lemma nb_step k : 0 <= k < MAXFILE -> nb (k * BSIZE + 1) = nb (k * BSIZE) + 1 + (if k =? NDIRECT then 1 else 0).
Proof.
  intros Hk. unfold nb. geo.
  destruct (Z.ltb_spec (12 * 1024) (k * 1024 + 1)), (Z.ltb_spec (12 * 1024) (k * 1024)), (Z.eqb_spec k 12); dlia.
Qed.

Lemma nb_same n k : 0 <= k -> k * BSIZE < n <= (k + 1) * BSIZE -> nb n = nb (k * BSIZE + 1).
Proof.
  intros Hk Hn. unfold nb. geo. destruct (Z.ltb_spec (12 * 1024) (k * 1024 + 1)), (Z.ltb_spec (12 * 1024) n); dlia.
Qed.

Lemma nb_mono m n : 0 <= m <= n -> nb m <= nb n.
Proof. intros H. unfold nb. geo. destruct (Z.ltb_spec (12 * 1024) m), (Z.ltb_spec (12 * 1024) n); dlia. Qed.

(** What appending to the inode [x] does to the image. *)
Record grew (s s' : mk) (x x' : inode) : Prop := Grew {
  ge_img : image s';
  ge_inode : k_freeinode s' = k_freeinode s;
  ge_x : x' = set_addrs (i_addrs x') x;
  ge_fb : k_freeblock s <= k_freeblock s';
  ge_own : forall b, owns (k_blk s') x' b -> owns (k_blk s) x b \/ k_freeblock s <= b;
  ge_keep : forall b, b < k_freeblock s -> ~ owns (k_blk s) x b -> k_blk s' b = k_blk s b
}.

Lemma set_addrs_id x : set_addrs (i_addrs x) x = x.
Proof. by destruct x. Qed.

Lemma grew_refl s x : image s -> grew s s x x.
Proof. intros Hi. constructor; [done|done|by rewrite set_addrs_id|lia|by left|done]. Qed.

Lemma grew_trans s s1 s2 x x1 x2 : grew s s1 x x1 -> grew s1 s2 x1 x2 -> grew s s2 x x2.
Proof.
  intros [I1 N1 X1 F1 O1 K1] [I2 N2 X2 F2 O2 K2]. constructor; [done|congruence|rewrite X2, X1; by destruct x|lia| |].
  - intros b Hb. destruct (O2 b Hb) as [Hb'|]; [by apply O1|right; lia].
  - intros b Hb Hno. rewrite K2, K1; [done|done|done|lia|]. intros Ho. destruct (O1 b Ho); [done|lia].
Qed.

Lemma getz_putz l j k a : 0 <= j < zlen l -> 0 <= k -> getz (putz l j a) k = if k =? j then a else getz l k.
Proof. intros Hj Hk. destruct (Z.eqb_spec k j) as [->|]; [by apply getz_putz_eq|by apply getz_putz_ne; lia]. Qed.

(** A new block in the array of addresses. *)
Lemma slot_addr v x j a k : length (i_addrs x) = 13%nat -> 0 <= j < NDIRECT -> 0 <= k <= MAXFILE ->
  slot v (set_addrs (putz (i_addrs x) j a) x) k = if k =? j then a else slot v x k.
Proof.
  intros Hl Hj Hk. assert (zlen (i_addrs x) = 13) as Hz by (unfold zlen; lia). unfold slot. cbn [i_addrs set_addrs].
  rewrite !getz_putz by (geo; lia). rewrite (proj2 (Z.eqb_neq NDIRECT j)) by lia.
  destruct (Z.ltb_spec k NDIRECT); [done|]. by rewrite (proj2 (Z.eqb_neq k j)) by lia.
Qed.

(** A new entry of the indirect block. *)
Lemma slot_entry_upd v x j a k : length (v (slot v x MAXFILE)) = 1024%nat -> slot v x MAXFILE <> 0 -> NDIRECT <= j < MAXFILE -> 0 <= k <= MAXFILE -> 0 <= a < 2 ^ 32 ->
  slot (kupd v (slot v x MAXFILE) (wr32 (v (slot v x MAXFILE)) (4 * (j - NDIRECT)) a)) x k = if k =? j then a else slot v x k.
Proof.
  rewrite slot_ind. intros Hl Hi Hj Hk Ha. unfold slot. rewrite (proj2 (Z.eqb_neq _ _) Hi), kupd_eq.
  destruct (Z.ltb_spec k NDIRECT); [by rewrite (proj2 (Z.eqb_neq k j)) by lia|].
  destruct (Z.eqb_spec k MAXFILE) as [->|Hm]; [by rewrite (proj2 (Z.eqb_neq MAXFILE j)) by lia|].
  destruct (Z.eqb_spec k j) as [->|Hn].
  - rewrite rd_wr_eq by (unfold zlen; geo; lia). apply Z.mod_small. done.
  - apply rd_wr_ne; unfold zlen; geo; lia.
Qed.

(** The block is there already. *)
Lemma block_for_found s x d k0 : image s -> ino_ok (k_blk s) (k_freeblock s) x d (zlen d) -> 0 <= k0 < MAXFILE -> k0 * BSIZE < zlen d ->
  k_freeblock s <= FSSIZE -> block_for k0 x s = Ok ((x, slot (k_blk s) x k0), s).
Proof.
  intros Him Hok Hk Hlt Hfb. pose proof (proj2 (io_slot Hok k0 Hk) Hlt) as Hne. unfold block_for, fill_addr.
  destruct (Z.ltb_spec k0 NDIRECT) as [Hd|Hd].
  - rewrite slot_direct in Hne |- * by done. rewrite (proj2 (Z.eqb_neq _ _) Hne). done.
  - assert (slot (k_blk s) x MAXFILE <> 0) as Hi by (apply (io_ind Hok); geo; lia).
    pose proof (io_in Hok MAXFILE ltac:(geo; lia) Hi) as Hin. rewrite slot_ind in Hi, Hin. rewrite (proj2 (Z.eqb_neq _ _) Hi), ret_bind.
    rewrite (bind_ok _ _ _ _ _ (rsect_ok s (getz (i_addrs x) NDIRECT) Him ltac:(lia))). rewrite slot_entry in Hne |- * by lia.
    rewrite (proj2 (Z.eqb_neq (getz (i_addrs x) NDIRECT) 0)) in Hne |- * by done. by rewrite (proj2 (Z.eqb_neq _ _) Hne).
Qed.

Lemma grew_intro s s' x x' : image s' -> k_freeinode s' = k_freeinode s -> x' = set_addrs (i_addrs x') x -> k_freeblock s <= k_freeblock s' ->
  (forall k, 0 <= k <= MAXFILE -> slot (k_blk s') x' k = slot (k_blk s) x k \/ k_freeblock s <= slot (k_blk s') x' k) ->
  (forall b, b < k_freeblock s -> ~ owns (k_blk s) x b -> k_blk s' b = k_blk s b) -> grew s s' x x'.
Proof.
  intros Hi Hn Hx Hf Hs Hk. constructor; try done. intros b (Hb & k & Hk' & <-). destruct (Hs k Hk') as [E|]; [left|by right].
  split; [done|]. exists k. by rewrite E.
Qed.

Lemma image_step s v n : image s -> 0 <= n -> (forall b, length (v b) = 1024%nat) ->
  (forall b, k_freeblock s + n <= b -> v b = zero_block) -> image (with_blk v (k_freeblock s + n) s).
Proof. intros [? ? ? ?] Hn Hl Hz. constructor; cbn; auto. lia. Qed.

Lemma block_for_direct s x k0 : image s -> 0 <= k0 < NDIRECT -> k_freeblock s < FSSIZE -> getz (i_addrs x) k0 = 0 -> length (i_addrs x) = 13%nat ->
  let a := k_freeblock s in
  block_for k0 x s = Ok ((set_addrs (putz (i_addrs x) k0 a) x, a), with_blk (k_blk s) (a + 1) s).
Proof.
  intros Him Hk Hfb E Hl a. unfold block_for, fill_addr. rewrite (proj2 (Z.ltb_lt _ _)) by lia. rewrite E, Z.eqb_refl.
  rewrite bind_assoc. pose proof (im_free _ Him) as Hf. assert (0 < nmetablocks) as Hnm by done.
  rewrite (bind_ok _ _ _ _ _ (take_block_ok s ltac:(lia))). rewrite ret_bind. unfold ret. cbn [i_addrs set_addrs]. 
  rewrite getz_putz_eq; [done|geo; unfold zlen; lia].
Qed.

Lemma block_for_entry s x k0 : image s -> NDIRECT <= k0 < MAXFILE -> k_freeblock s < FSSIZE ->
  let i := getz (i_addrs x) NDIRECT in let a := k_freeblock s in
  i <> 0 -> i < FSSIZE -> rd32 (k_blk s i) (4 * (k0 - NDIRECT)) = 0 ->
  block_for k0 x s = Ok ((x, a), with_blk (kupd (k_blk s) i (wr32 (k_blk s i) (4 * (k0 - NDIRECT)) a)) (a + 1) s).
Proof.
  intros Him Hk Hfb i a Hi Hi' E. unfold block_for, fill_addr. rewrite (proj2 (Z.ltb_ge _ _)) by lia. fold i.
  rewrite (proj2 (Z.eqb_neq _ _) Hi), ret_bind. fold i. rewrite (bind_ok _ _ _ _ _ (rsect_ok s i Him Hi')). cbn zeta. rewrite E, Z.eqb_refl.
  pose proof (im_free _ Him) as Hf. assert (0 < nmetablocks) as Hnm by done.
  rewrite (bind_ok _ _ _ _ _ (take_block_ok s ltac:(lia))). erewrite bind_ok; [|apply wsect_ok; [|done]]; [done|].
  apply image_step; [done|lia|apply (im_blk _ Him)|intros; apply (im_zero _ Him); lia].
Qed.

Lemma block_for_fresh s x k0 : NDIRECT <= k0 < MAXFILE -> 0 <= k_freeblock s < FSSIZE -> k_freeblock s <> 0 -> length (i_addrs x) = 13%nat -> getz (i_addrs x) NDIRECT = 0 ->
  block_for k0 x s = block_for k0 (set_addrs (putz (i_addrs x) NDIRECT (k_freeblock s)) x) (with_blk (k_blk s) (k_freeblock s + 1) s).
Proof.
  intros Hk Hfb Hne Hl E. unfold block_for, fill_addr. rewrite (proj2 (Z.ltb_ge _ _)) by lia. rewrite E, Z.eqb_refl, bind_assoc.
  rewrite (bind_ok _ _ _ _ _ (take_block_ok s Hfb)), !ret_bind. cbn [i_addrs set_addrs].
  rewrite getz_putz_eq by (geo; unfold zlen; lia). rewrite (proj2 (Z.eqb_neq _ _) Hne), ret_bind. cbn [i_addrs set_addrs]. by rewrite getz_putz_eq by (geo; unfold zlen; lia).
Qed.

Lemma slot_fresh v x a k : length (i_addrs x) = 13%nat -> getz (i_addrs x) NDIRECT = 0 -> v a = zero_block -> 0 <= k <= MAXFILE ->
  slot v (set_addrs (putz (i_addrs x) NDIRECT a) x) k = if k =? MAXFILE then a else slot v x k.
Proof.
  intros Hl E Hv Hk. assert (zlen (i_addrs x) = 13) as Hz by (unfold zlen; lia). unfold slot. cbn [i_addrs set_addrs].
  rewrite !getz_putz by (geo; lia). rewrite Z.eqb_refl, E, Hv.
  destruct (Z.ltb_spec k NDIRECT).
  - rewrite (proj2 (Z.eqb_neq k NDIRECT)), (proj2 (Z.eqb_neq k MAXFILE)) by (geo; lia). done.
  - destruct (k =? MAXFILE); [done|]. rewrite rd_zero_block by (geo; lia). by destruct (a =? 0).
Qed.

(** The outcome of allocating the block at the end of a file. *)
Definition appended (s : mk) (x : inode) (d : list Z) (k0 : Z) (s' : mk) (x' : inode) : Prop :=
  grew s s' x x' /\ ino_ok (k_blk s') (k_freeblock s') x' d (k0 * BSIZE + 1) /\ k_freeblock s' = k_freeblock s + (nb (k0 * BSIZE + 1) - nb (k0 * BSIZE)).

Section New.
  Context (s : mk) (x : inode) (d : list Z) (k0 : Z).
  Context (Him : image s) (Hok : ino_ok (k_blk s) (k_freeblock s) x d (k0 * BSIZE)) (Hd : zlen d = k0 * BSIZE) (Hk : 0 <= k0 < MAXFILE).
  Context (Hroom : k_freeblock s + (nb (k0 * BSIZE + 1) - nb (k0 * BSIZE)) <= FSSIZE).

Lemma slot_end : slot (k_blk s) x k0 = 0.
Proof. destruct (Z.eq_dec (slot (k_blk s) x k0) 0) as [|Hne]; [done|]. apply (io_slot Hok) in Hne; [lia|done]. Qed.

Lemma new_direct : k0 < NDIRECT -> exists s' x', block_for k0 x s = Ok ((x', slot (k_blk s') x' k0), s') /\ appended s x d k0 s' x'.
Proof.
  intros Hlt. rewrite nb_step in Hroom by done. rewrite (proj2 (Z.eqb_neq k0 NDIRECT)) in Hroom by lia.
  assert (0 < nmetablocks) as Hnm by done. pose proof (im_free _ Him) as Hf. pose proof (io_len Hok) as Hl.
  pose proof slot_end as E. rewrite slot_direct in E by done. set (a := k_freeblock s) in *.
  assert (slot (k_blk s) x MAXFILE = 0) as Ei.
  { destruct (Z.eq_dec (slot (k_blk s) x MAXFILE) 0) as [|Hne]; [done|]. apply (io_ind Hok) in Hne. geo. lia. }
  pose proof (slot_addr (k_blk s) x k0 a) as Hs.
  exists (with_blk (k_blk s) (a + 1) s), (set_addrs (putz (i_addrs x) k0 a) x). split; [|split; [|split]].
  - rewrite block_for_direct by (lia || done). cbn [with_blk k_blk]. rewrite Hs, Z.eqb_refl by (lia || done). done.
  - apply grew_intro; [apply image_step; [done|lia|apply (im_blk _ Him)|intros; apply (im_zero _ Him); lia]|done|done|cbn; lia| |done].
    intros k Hk'. cbn [with_blk k_blk]. rewrite Hs by (lia || done). destruct (k =? k0); [right; lia|by left].
  - cbn [with_blk k_blk k_freeblock]. eapply (ino_extend _ _ _ _ _ _ _ _ a Hok); try done.
    + cbn. unfold putz. by rewrite length_insert.
    + by rewrite Hs, Z.eqb_refl by (lia || done).
    + intros k Hk1 Hk2. rewrite Hs by (lia || done). by rewrite (proj2 (Z.eqb_neq _ _) Hk2).
    + lia.
    + left. rewrite Hs by (lia || geo; lia || done). rewrite (proj2 (Z.eqb_neq MAXFILE k0)) by lia. done.
    + rewrite Hs by (lia || geo; lia || done). rewrite (proj2 (Z.eqb_neq MAXFILE k0)) by lia. rewrite Ei. lia.
    + apply (im_zero _ Him). lia.
  - cbn [with_blk k_freeblock]. rewrite nb_step by done. rewrite (proj2 (Z.eqb_neq k0 NDIRECT)) by lia. lia.
Qed.

(** With the indirect block [i] in place, old or just allocated. *)
Lemma new_entry s1 x1 : NDIRECT <= k0 -> block_for k0 x s = block_for k0 x1 s1 ->
  let i := slot (k_blk s) x1 MAXFILE in
  s1 = with_blk (k_blk s) (k_freeblock s1) s -> x1 = set_addrs (i_addrs x1) x -> length (i_addrs x1) = 13%nat ->
  k_freeblock s1 = k_freeblock s + (if k0 =? NDIRECT then 1 else 0) -> i <> 0 -> nmetablocks <= i < k_freeblock s1 ->
  (forall k, 0 <= k < MAXFILE -> slot (k_blk s) x1 k = slot (k_blk s) x k) -> i = slot (k_blk s) x MAXFILE \/ k_freeblock s <= i ->
  exists s' x', block_for k0 x s = Ok ((x', slot (k_blk s') x' k0), s') /\ appended s x d k0 s' x'.
Proof.
  intros Hge Eb i Es1 Ex1 Hl Ef Hi Hib Hsl Hio. rewrite nb_step in Hroom by done.
  assert (0 < nmetablocks) as Hnm by done. pose proof (im_free _ Him) as Hf. set (a := k_freeblock s1) in *.
  assert (0 <= a - k_freeblock s <= 1) as Ha by (rewrite Ef; destruct (k0 =? NDIRECT); lia).
  assert (k_blk s1 = k_blk s) as Ev by (rewrite Es1; done).
  assert (image s1) as Him1.
  { rewrite Es1. replace a with (k_freeblock s + (a - k_freeblock s)) by lia. apply image_step; [done|lia|apply (im_blk _ Him)|intros; apply (im_zero _ Him); lia]. }
  assert (slot (k_blk s) x1 k0 = 0) as E0 by (rewrite Hsl by done; apply slot_end).
  rewrite slot_entry in E0 by lia. unfold i in Hi, Hib, Hio. rewrite slot_ind in Hi, Hib, Hio. rewrite (proj2 (Z.eqb_neq _ _) Hi) in E0.
  fold i in Hi, Hib, Hio, E0. change (getz (i_addrs x1) NDIRECT) with i in *.
  set (w := wr32 (k_blk s i) (4 * (k0 - NDIRECT)) a).
  assert (length w = 1024%nat) as Hw by (unfold w; pose proof (im_blk _ Him i); rewrite length_wr by (unfold zlen; geo; lia); done).
  assert (forall k, 0 <= k <= MAXFILE -> slot (kupd (k_blk s) i w) x1 k = if k =? k0 then a else slot (k_blk s) x1 k) as Hs.
  { intros k Hk'. apply slot_entry_upd; [apply (im_blk _ Him)|done|lia|done|]. unfold FSSIZE in Hroom. change (2 ^ 32) with 4294967296. lia. }
  exists (with_blk (kupd (k_blk s) i w) (a + 1) s1), x1. cbn [with_blk k_blk k_freeblock]. split; [|split; [|split]].
  - rewrite Eb, block_for_entry; rewrite ?Ev; [|done|lia|fold a; lia|done|change (getz (i_addrs x1) NDIRECT) with i; lia|done].
    rewrite Hs, Z.eqb_refl by lia. done.
  - apply grew_intro; [|by rewrite Es1|done|cbn; lia| |].
    + apply (image_step s1); [done|lia| |].
      * intros b. unfold kupd. destruct (b =? i); [done|apply (im_blk _ Him)].
      * intros b Hb. rewrite kupd_ne by (fold a in Hb; lia). apply (im_zero _ Him). fold a in Hb. lia.
    + intros k Hk'. cbn [with_blk k_blk]. rewrite Hs by done. destruct (k =? k0); [right; lia|].
      destruct (Z.eq_dec k MAXFILE) as [->|]; [exact Hio|left; apply Hsl; lia].
    + intros b Hb Hno. cbn [with_blk k_blk]. apply kupd_ne. intros ->. destruct Hio as [E|]; [|lia]. apply Hno. split; [done|]. exists MAXFILE. split; [geo; lia|by rewrite <-E].
  - cbn [with_blk k_blk k_freeblock]. eapply (ino_extend _ _ _ _ _ _ _ _ a Hok); try done; rewrite ?Hs by (geo; lia); rewrite ?Z.eqb_refl, ?(proj2 (Z.eqb_neq MAXFILE k0)) by lia.
    + done.
    + intros k Hk1 Hk2. rewrite Hs by lia. by rewrite (proj2 (Z.eqb_neq _ _) Hk2), Hsl.
    + lia.
    + lia.
    + fold i. lia.
    + rewrite kupd_ne by lia. apply (im_zero _ Him). lia.
    + intros b Hb Hne. apply kupd_ne. lia.
  - cbn [with_blk k_freeblock]. rewrite nb_step by done. lia.
Qed.

Lemma block_for_new : exists s' x', block_for k0 x s = Ok ((x', slot (k_blk s') x' k0), s') /\ appended s x d k0 s' x'.
Proof.
  destruct (Z.ltb_spec k0 NDIRECT) as [Hlt|Hge]; [by apply new_direct|].
  pose proof (io_len Hok) as Hl. pose proof (im_free _ Him) as Hf. assert (0 < nmetablocks) as Hnm by done.
  destruct (Z.eq_dec k0 NDIRECT) as [E|Hne].
  - assert (slot (k_blk s) x MAXFILE = 0) as Ei.
    { destruct (Z.eq_dec (slot (k_blk s) x MAXFILE) 0) as [|Hne]; [done|]. apply (io_ind Hok) in Hne. geo. lia. }
    pose proof (fun k => slot_fresh (k_blk s) x (k_freeblock s) k Hl Ei (im_zero _ Him (k_freeblock s) ltac:(lia))) as Hs. pose proof (nb_step k0 Hk) as Hnb. rewrite (proj2 (Z.eqb_eq _ _) E) in Hnb.
    apply (new_entry (with_blk (k_blk s) (k_freeblock s + 1) s) (set_addrs (putz (i_addrs x) NDIRECT (k_freeblock s)) x)); try done.
    + apply block_for_fresh; [lia|lia|lia|done|done].
    + cbn. unfold putz. by rewrite length_insert.
    + cbn. rewrite (proj2 (Z.eqb_eq _ _) E). done.
    + rewrite Hs by (geo; lia). rewrite Z.eqb_refl. lia.
    + rewrite Hs by (geo; lia). rewrite Z.eqb_refl. cbn. lia.
    + intros k Hk'. rewrite Hs by (geo; lia). by rewrite (proj2 (Z.eqb_neq k MAXFILE)) by lia.
    + right. rewrite Hs by (geo; lia). rewrite Z.eqb_refl. lia.
  - assert (slot (k_blk s) x MAXFILE <> 0) as Hi by (apply (io_ind Hok); geo; lia).
    pose proof (io_in Hok MAXFILE ltac:(geo; lia) Hi) as Hin.
    apply (new_entry s x); try done; [by destruct s|by rewrite set_addrs_id|rewrite (proj2 (Z.eqb_neq _ _) Hne); lia|by left].
Qed.
End New.

(** *** iappend *)

(** [q] is written behind the end of the file, into a block that is there. *)
Lemma write_block s x d n q : image s -> ino_ok (k_blk s) (k_freeblock s) x d n -> k_freeblock s <= FSSIZE -> zlen d < MAXFILE * BSIZE ->
  zlen d / BSIZE * BSIZE < n -> zlen d mod BSIZE + zlen q <= BSIZE ->
  let a := slot (k_blk s) x (zlen d / BSIZE) in
  let s' := with_blk (kupd (k_blk s) a (splice (k_blk s a) (zlen d mod BSIZE) q)) (k_freeblock s) s in
  a < FSSIZE /\ grew s s' x x /\ ino_ok (k_blk s') (k_freeblock s') x (d ++ q) n.
Proof.
  intros Him Hok Hfb Hmax Hn Hq a s'. assert (0 <= zlen d) as Hz by (unfold zlen; lia).
  assert (0 <= zlen d / BSIZE < MAXFILE) as Hk0 by (geo; dlia).
  assert (a <> 0) as Ha by (apply (io_slot Hok); done).
  pose proof (io_in Hok (zlen d / BSIZE) ltac:(lia) Ha) as Hin. fold a in Hin.
  assert (a <> slot (k_blk s) x MAXFILE) as Hai by (apply (io_inj Hok); [lia|geo; lia|lia|done]).
  split; [lia|]. split; [|apply ino_write; try done; apply (im_blk _ Him)].
  apply grew_intro; [|done|by rewrite set_addrs_id|cbn; lia| |].
  - unfold s'. replace (k_freeblock s) with (k_freeblock s + 0) by lia. apply image_step; [done|done| |].
    + intros b. unfold kupd. destruct (b =? a); [|apply (im_blk _ Him)]. rewrite length_splice; [apply (im_blk _ Him)|geo; dlia|].
      unfold zlen at 3. rewrite (im_blk _ Him). geo. lia.
    + intros b Hb. rewrite kupd_ne by lia. apply (im_zero _ Him). lia.
  - intros k Hk. left. apply slot_frame; [done|]. intros _. by apply kupd_ne.
  - intros b Hb Hno. apply kupd_ne. intros ->. apply Hno. split; [done|]. exists (zlen d / BSIZE). split; [lia|done].
Qed.

(** The block for the end of the file, old or new. *)
Lemma block_for_ok s x d : image s -> ino_ok (k_blk s) (k_freeblock s) x d (zlen d) -> zlen d < MAXFILE * BSIZE ->
  k_freeblock s + (nb (zlen d + 1) - nb (zlen d)) <= FSSIZE ->
  exists s' x' n, block_for (zlen d / BSIZE) x s = Ok ((x', slot (k_blk s') x' (zlen d / BSIZE)), s') /\ grew s s' x x' /\
    ino_ok (k_blk s') (k_freeblock s') x' d n /\ zlen d / BSIZE * BSIZE < n <= (zlen d / BSIZE + 1) * BSIZE /\
    k_freeblock s' = k_freeblock s + (nb (zlen d + 1) - nb (zlen d)).
Proof.
  intros Him Hok Hmax Hroom. assert (0 <= zlen d) as Hz by (unfold zlen; lia). set (k0 := zlen d / BSIZE) in *.
  assert (0 <= k0 < MAXFILE) as Hk0 by (unfold k0; geo; dlia).
  assert (k0 * BSIZE <= zlen d < (k0 + 1) * BSIZE) as Hr by (unfold k0; geo; dlia).
  destruct (Z.eq_dec (zlen d) (k0 * BSIZE)) as [E|Hne].
  - rewrite E in Hok, Hroom. destruct (block_for_new s x d k0) as (s' & x' & Hb & Hg & Hok' & Hf); try done.
    exists s', x', (k0 * BSIZE + 1). split_and!; try done; [lia|geo; lia|by rewrite E].
  - assert (nb (zlen d + 1) = nb (zlen d)) as En by (rewrite (nb_same (zlen d + 1) k0), (nb_same (zlen d) k0) by lia; done).
    exists s, x, (zlen d). split_and!; [|by apply grew_refl|done|lia|lia|lia]. apply (block_for_found s x d); [done|done|done|lia|lia].
Qed.

(** One turn of the loop. *)
Lemma iappend_turn s x d p : image s -> ino_ok (k_blk s) (k_freeblock s) x d (zlen d) -> p <> [] -> zlen d + zlen p <= MAXFILE * BSIZE ->
  k_freeblock s + (nb (zlen d + zlen p) - nb (zlen d)) <= FSSIZE ->
  exists s' x' n, iappend_body (x, zlen d, p) s = Ok (inl (x', zlen (d ++ take n p), drop n p), s') /\ (0 < n)%nat /\ grew s s' x x' /\
    ino_ok (k_blk s') (k_freeblock s') x' (d ++ take n p) (zlen (d ++ take n p)) /\
    k_freeblock s' = k_freeblock s + (nb (zlen (d ++ take n p)) - nb (zlen d)).
Proof.
  intros Him Hok Hp Hmax Hroom. assert (0 <= zlen d) as Hz by (unfold zlen; lia).
  assert (0 < zlen p) as Hp' by (destruct p; [done|unfold zlen; cbn; lia]). set (k0 := zlen d / BSIZE).
  set (n1 := Z.min (zlen p) ((k0 + 1) * BSIZE - zlen d)).
  assert (k0 * BSIZE <= zlen d < (k0 + 1) * BSIZE) as Hr by (unfold k0; geo; dlia).
  assert (0 <= k0 < MAXFILE) as Hk0 by (unfold k0; geo; dlia).
  assert (nb (zlen d + 1) = nb (zlen d + n1)) as En.
  { rewrite (nb_same (zlen d + 1) k0), (nb_same (zlen d + n1) k0) by lia. done. }
  assert (nb (zlen d + n1) <= nb (zlen d + zlen p)) as Hmono by (apply nb_mono; lia).
  destruct (block_for_ok s x d) as (s1 & x1 & n & Hb & G1 & Hok1 & Hn & F1); try done; [lia|lia|].
  pose proof (ge_img _ _ _ _ G1) as Him1. set (q := take (Z.to_nat n1) p). fold k0 in Hb, Hn.
  assert (zlen q = n1) as Hq by (unfold q, zlen in *; rewrite length_take; lia).
  assert (zlen d mod BSIZE = zlen d - k0 * BSIZE) as Em by (unfold k0; geo; dlia).
  destruct (write_block s1 x1 d n q) as (Ha & G2 & Hok2); try done; [lia|lia|fold k0; lia|lia|]. fold k0 in Ha, G2, Hok2.
  eexists _, x1, (Z.to_nat n1). fold q. assert (zlen (d ++ q) = zlen d + n1) as Hl by (rewrite zlen_app; lia). rewrite Hl. split_and!; [|lia|by eapply grew_trans| |].
  - unfold iappend_body. destruct p as [|c p']; [done|]. fold k0. rewrite (proj2 (Z.ltb_lt k0 MAXFILE)) by lia. cbn [negb].
    rewrite (bind_ok _ _ _ _ _ Hb). rewrite (bind_ok _ _ _ _ _ (rsect_ok s1 (slot (k_blk s1) x1 k0) Him1 Ha)). fold n1. fold q.
    rewrite <-Em. rewrite (bind_ok _ _ _ _ _ (wsect_ok s1 (slot (k_blk s1) x1 k0) _ Him1 Ha)). done.
  - eapply ino_round; [exact Hok2|lia|]. geo. dlia.
  - cbn [with_blk k_freeblock]. lia.
Qed.

Lemma iappend_loop fuel : forall s x d p, image s -> ino_ok (k_blk s) (k_freeblock s) x d (zlen d) -> zlen d + zlen p <= MAXFILE * BSIZE ->
  k_freeblock s + (nb (zlen d + zlen p) - nb (zlen d)) <= FSSIZE -> (length p < fuel)%nat ->
  exists s' x', loop fuel iappend_body (x, zlen d, p) s = Ok ((x', zlen (d ++ p)), s') /\ grew s s' x x' /\
    ino_ok (k_blk s') (k_freeblock s') x' (d ++ p) (zlen (d ++ p)) /\
    k_freeblock s' = k_freeblock s + (nb (zlen (d ++ p)) - nb (zlen d)).
Proof.
  induction fuel as [|fuel IH]; intros s x d p Him Hok Hmax Hroom Hf; [lia|]. cbn [loop].
  destruct (decide (p = [])) as [->|Hp].
  - exists s, x. rewrite app_nil_r. split_and!; [done|by apply grew_refl|done|lia].
  - destruct (iappend_turn s x d p) as (s1 & x1 & n & Ht & Hn & G1 & Hok1 & F1); try done. rewrite (bind_ok _ _ _ _ _ Ht).
    assert (zlen (d ++ take n p) + zlen (drop n p) = zlen d + zlen p) as El by (rewrite zlen_app; unfold zlen; rewrite length_take, length_drop; lia).
    destruct (IH s1 x1 (d ++ take n p) (drop n p)) as (s2 & x2 & Hl & G2 & Hok2 & F2); [apply (ge_img _ _ _ _ G1)|done|lia|rewrite El; lia| |].
    + rewrite length_drop. destruct p; [done|cbn in *; lia].
    + exists s2, x2. rewrite <-app_assoc, take_drop in Hl, Hok2, F2. split_and!; [done|by eapply grew_trans|done|lia].
Qed.
