(* ===== verification/MkfsImage.v ===== *)
(** MkfsImage: the whole image that mkfs makes.  The invariant of the image under
    construction, that ialloc, iappend and main keep it, and what a kernel that
    boots from the image finds. *)

From S2P Require Import Prelude CString Locks Log Block Umem Fs FsAlloc FsFile Mkfs MkfsOk.

(** The inode [i] of the image. *)
Definition dec (v : Z -> block) (i : Z) : inode := get_dinode (v (IBLOCK i mk_sb)) (dioff i) din0.

(** An inode as mkfs holds it: only the fields on disk count. *)
Definition plain (x : inode) : Prop := x = Inode 0 0 0 Sleep.initsleeplock true (i_type x) (i_major x) (i_minor x) (i_nlink x) (i_size x) (i_addrs x).

Lemma dec_plain v i : plain (dec v i).
Proof. done. Qed.

Lemma IBLOCK_range i : 0 <= i < NINODES -> 2 + nlog <= IBLOCK i mk_sb < sb_bmapstart mk_sb.
Proof. intros H. unfold NINODES in H. geo. change (sb_inodestart mk_sb) with 33. change (sb_bmapstart mk_sb) with 46. change (2 + nlog) with 33. dlia. Qed.

(** *** Storing an inode *)

Lemma rd_put_dinode_out w bp off x o : 0 <= off -> off + 64 <= zlen bp -> length (i_addrs x) = 13%nat -> 0 <= o ->
  o + Z.of_nat w <= off \/ off + 64 <= o -> rd w (put_dinode bp off x) o = rd w bp o.
Proof.
  intros Ho Hl Ha Ho' Hd. unfold put_dinode. assert (zlen (i_addrs x) = 13) as Hz by (unfold zlen; lia).
  assert (forall w b o v, w = 2%nat \/ w = 4%nat -> zlen b = zlen bp -> off <= o <= off + 60 ->
    zlen (wr w b o v) = zlen bp) as Hlen by (intros w' b o' v [-> | ->] Hb Hoo; rewrite zlen_wr; lia).
  rewrite wr_addrs_out; [|lia| |done|lia]; [|rewrite Hz; repeat (rewrite Hlen; [|by auto| |lia]); done || lia].
  repeat (rewrite rd_wr_ne; [|lia|repeat (rewrite Hlen; [|by auto| |lia]); done || lia|done|lia]). done.
Qed.

Lemma get_dinode_ext bp bp' off x : (forall w o, 0 <= o -> off <= o -> o + Z.of_nat w <= off + 64 -> rd w bp' o = rd w bp o) -> 0 <= off ->
  get_dinode bp' off x = get_dinode bp off x.
Proof.
  intros H Ho. unfold get_dinode. rewrite !H by lia. f_equal. unfold rd_addrs. apply list_fmap_ext. intros k j Hj.
  apply lookup_seq in Hj. apply H; lia.
Qed.

Record stored (s s' : mk) (i : Z) (x : inode) : Prop := Stored {
  so_img : image s';
  so_inode : k_freeinode s' = k_freeinode s;
  so_fb : k_freeblock s' = k_freeblock s;
  so_eq : dec (k_blk s') i = x;
  so_ne : forall j, 0 <= j -> j <> i -> dec (k_blk s') j = dec (k_blk s) j;
  so_keep : forall b, b <> IBLOCK i mk_sb -> k_blk s' b = k_blk s b
}.

Lemma winode_ok s i x : image s -> 0 <= i < NINODES -> plain x -> ino_fits x -> exists s', winode i x s = Ok (tt, s') /\ stored s s' i x.
Proof.
  intros Him Hi Hp Hfit. pose proof (IBLOCK_range i Hi) as Hb. change (2 + nlog) with 33 in Hb. change (sb_bmapstart mk_sb) with 46 in Hb.
  assert (0 < nmetablocks) as Hnm by done. pose proof (im_free _ Him) as Hf. pose proof (im_blk _ Him) as Hlen.
  set (b := IBLOCK i mk_sb) in *. set (d := put_dinode (k_blk s b) (dioff i) x).
  assert (0 <= dioff i /\ dioff i + 64 <= zlen (k_blk s b)) as [Ho Hl] by (unfold zlen; rewrite Hlen; unfold dioff; geo; dlia).
  destruct (if_addrs _ Hfit) as [Ha _].
  exists (with_blk (kupd (k_blk s) b d) (k_freeblock s) s). split.
  - unfold winode. fold b. rewrite (bind_ok _ _ _ _ _ (rsect_ok s b Him ltac:(unfold FSSIZE; lia))). apply wsect_ok; [done|unfold FSSIZE; lia].
  - assert (47 <= nmetablocks) as H47 by done. constructor; try done; cbn [with_blk k_blk].
    + replace (k_freeblock s) with (k_freeblock s + 0) by lia. apply image_step; [done|done| |].
      * intros b'. unfold kupd. destruct (b' =? b); [|done]. unfold d. rewrite length_put_dinode by done. done.
      * intros b' Hb'. rewrite kupd_ne by lia. apply (im_zero _ Him). lia.
    + unfold dec. fold b. rewrite kupd_eq. pose proof (get_put_dinode (k_blk s b) (dioff i) x Hfit Ho Hl) as E. fold d in E.
      rewrite Hp in E. rewrite Hp. exact E.
    + intros j Hj Hne. unfold dec. destruct (Z.eq_dec (IBLOCK j mk_sb) b) as [E|Hn]; [|by rewrite kupd_ne].
      rewrite E, kupd_eq. unfold b in E. apply get_dinode_ext; [|unfold dioff; geo; dlia]. intros w o Ho' Hw Hw'.
      apply rd_put_dinode_out; try done. unfold dioff in *. geo. dlia.
    + intros b' Hb'. by apply kupd_ne.
Qed.

(** *** The invariant of the image *)

(** Inode [i] has the given type and contents. *)
Record file_at (v : Z -> block) (fb i ty : Z) (d : list Z) : Prop := File_at {
  fa_type : i_type (dec v i) = ty /\ - 2 ^ 15 <= ty < 2 ^ 15;
  fa_dev : i_major (dec v i) = 0 /\ i_minor (dec v i) = 0;
  fa_nlink : i_nlink (dec v i) = 1;
  fa_size : i_size (dec v i) = zlen d;
  fa_ok : ino_ok v fb (dec v i) d (zlen d)
}.

(** Blocks that the files take together. *)
Definition used (I : list (Z * list Z)) : Z := foldr (fun p n => nb (zlen p.2) + n) 0 I.

(** The image holds the inodes [I], the types and the contents, from inode 1 on. *)
Record kinv (s : mk) (I : list (Z * list Z)) : Prop := Kinv {
  ki_img : image s;
  ki_next : k_freeinode s = zlen I + 1;
  ki_fb : k_freeblock s = nmetablocks + used I;
  ki_num : zlen I < NINODES;
  ki_file : forall i ty d, I !! i = Some (ty, d) -> file_at (k_blk s) (k_freeblock s) (Z.of_nat i + 1) ty d;
  ki_disj : forall i j b, (i < length I)%nat -> (j < length I)%nat -> i <> j ->
    owns (k_blk s) (dec (k_blk s) (Z.of_nat i + 1)) b -> ~ owns (k_blk s) (dec (k_blk s) (Z.of_nat j + 1)) b;
  ki_free : forall j, zlen I < j < NINODES -> i_type (dec (k_blk s) j) = 0;
  ki_sb : k_blk s 1 = sb_block;
  ki_log : forall b, 2 <= b < 2 + nlog -> k_blk s b = zero_block
}.

Lemma used_insert I i ty d d' : I !! i = Some (ty, d) -> used (<[i := (ty, d')]> I) = used I + (nb (zlen d') - nb (zlen d)).
Proof.
  revert i. induction I as [|[t e] I IH]; intros [|i] Hi; [done|done|cbn in *; injection Hi as -> ->; lia|].
  change (<[S i := (ty, d')]> ((t, e) :: I)) with ((t, e) :: <[i := (ty, d')]> I). cbn in Hi. specialize (IH i Hi). unfold used in *. cbn [foldr]. lia.
Qed.

Lemma used_app I J : used (I ++ J) = used I + used J.
Proof. unfold used. induction I as [|p I IH]; cbn [app foldr]; lia. Qed.

Lemma owns_frame v v' x x' b : i_addrs x' = i_addrs x -> (forall b, owns v x b -> v' b = v b) -> owns v' x' b <-> owns v x b.
Proof.
  intros Ea Hv. assert (forall k, slot v' x' k = slot v x k) as Es.
  { intros k. apply slot_frame; [done|]. intros Hne. apply Hv. split; [done|]. exists MAXFILE. split; [geo; lia|done]. }
  split; intros (Hb & k & Hk & E); (split; [done|]); exists k; by rewrite <-E, Es.
Qed.

Lemma owns_in v fb x d n b : ino_ok v fb x d n -> owns v x b -> nmetablocks <= b < fb.
Proof. intros Hok (Hb & k & Hk & <-). by apply (io_in Hok). Qed.

(** Its addresses are block numbers. *)
Lemma ino_ok_addrs v fb x d n : ino_ok v fb x d n -> fb <= FSSIZE -> Forall (fun a => 0 <= a < 2 ^ 32) (i_addrs x).
Proof.
  intros Hok Hfb. apply Forall_lookup. intros k a Hk. pose proof (lookup_lt_Some _ _ _ Hk) as Hl. rewrite (io_len Hok) in Hl.
  assert (getz (i_addrs x) (Z.of_nat k) = a) as E by (unfold getz; rewrite Nat2Z.id, Hk; done).
  assert (exists j, 0 <= j <= MAXFILE /\ slot v x j = a) as (j & Hj & Ej).
  { destruct (decide (k = 12%nat)) as [->|]; [exists MAXFILE; split; [geo; lia|by rewrite slot_ind]|].
    exists (Z.of_nat k). split; [geo; lia|]. rewrite slot_direct by (geo; lia). done. }
  unfold FSSIZE in Hfb. assert (0 < nmetablocks) as Hnm by done. change (2 ^ 32) with 4294967296.
  destruct (Z.eq_dec a 0) as [->|Hne]; [lia|]. rewrite <-Ej in Hne. pose proof (io_in Hok j Hj Hne). lia.
Qed.

Lemma file_fits v fb i ty d x : file_at v fb i ty d -> i_type x = ty -> i_major x = 0 -> i_minor x = 0 -> i_nlink x = 1 -> 0 <= i_size x <= MAXFILE * BSIZE ->
  length (i_addrs x) = 13%nat -> Forall (fun a => 0 <= a < 2 ^ 32) (i_addrs x) -> ino_fits x.
Proof. intros F E1 E2 E3 E4 Hs Hl Ha. destruct (fa_type _ _ _ _ _ F). constructor; rewrite ?E1, ?E2, ?E3, ?E4; try done. geo. lia. Qed.

(** A step that leaves the other files alone. *)
Lemma file_at_frame v v' fb fb' i ty d : file_at v fb i ty d -> dec v' i = dec v i -> fb <= fb' -> (forall b, owns v (dec v i) b -> v' b = v b) -> file_at v' fb' i ty d.
Proof. intros [F1 F2 F3 F4 F5] E Hf Hv. constructor; rewrite ?E; try done. eapply ino_frame; [exact F5|done|done|done]. Qed.

(** File [i] has new contents; the others have what they had. *)
Lemma kinv_put s s' I i ty d d' : kinv s I -> I !! i = Some (ty, d) -> image s' -> k_freeinode s' = k_freeinode s ->
  k_freeblock s' = k_freeblock s + (nb (zlen d') - nb (zlen d)) -> k_freeblock s <= k_freeblock s' ->
  let n := Z.of_nat i + 1 in
  file_at (k_blk s') (k_freeblock s') n ty d' -> (forall j, 0 <= j < NINODES -> j <> n -> dec (k_blk s') j = dec (k_blk s) j) ->
  (forall b, owns (k_blk s') (dec (k_blk s') n) b -> owns (k_blk s) (dec (k_blk s) n) b \/ k_freeblock s <= b) ->
  (forall b, b < k_freeblock s -> ~ owns (k_blk s) (dec (k_blk s) n) b -> b <> IBLOCK n mk_sb -> k_blk s' b = k_blk s b) ->
  kinv s' (<[i := (ty, d')]> I).
Proof.
  intros [K1 K2 K3 K4 K5 K6 K7 K8 K9] Hi Him En Ef Hle n Hfa Hdec Hown Hkeep. pose proof (lookup_lt_Some _ _ _ Hi) as Hil.
  assert (n < NINODES) as Hn by (unfold n, zlen in *; lia). pose proof (IBLOCK_range n ltac:(lia)) as Hib.
  change (2 + nlog) with 33 in *. change (sb_bmapstart mk_sb) with 46 in *. assert (nmetablocks = 47) as Hm by done.
  pose proof (im_free _ K1) as Hf. pose proof (fa_ok _ _ _ _ _ (K5 _ _ _ Hi)) as Hoki. fold n in Hoki.
  assert (zlen (<[i := (ty, d')]> I) = zlen I) as El by (unfold zlen; by rewrite length_insert).
  assert (forall b, b < 47 -> b <> IBLOCK n mk_sb -> k_blk s' b = k_blk s b) as Hmeta.
  { intros b Hb Hne. apply Hkeep; [lia| |done]. intros Ho. pose proof (owns_in _ _ _ _ _ _ Hoki Ho). lia. }
  assert (forall j, (j < length I)%nat -> j <> i -> dec (k_blk s') (Z.of_nat j + 1) = dec (k_blk s) (Z.of_nat j + 1) /\
    forall b, owns (k_blk s) (dec (k_blk s) (Z.of_nat j + 1)) b -> k_blk s' b = k_blk s b /\ b < k_freeblock s) as Hj.
  { intros j Hjl Hne. split; [apply Hdec; unfold n, zlen in *; lia|]. intros b Hb. destruct (lookup_lt_is_Some_2 I j Hjl) as [[tj dj] Ej].
    pose proof (owns_in _ _ _ _ _ _ (fa_ok _ _ _ _ _ (K5 _ _ _ Ej)) Hb) as Hr. split; [|lia]. apply Hkeep; [lia| |lia]. by apply (K6 j i). }
  assert (forall j b, (j < length I)%nat -> j <> i -> owns (k_blk s') (dec (k_blk s') (Z.of_nat j + 1)) b <-> owns (k_blk s) (dec (k_blk s) (Z.of_nat j + 1)) b) as Hoj.
  { intros j b Hjl Hne. destruct (Hj j Hjl Hne) as [-> Hb]. apply owns_frame; [done|]. intros b' Hb'. by apply Hb. }
  assert (forall j b, (j < length I)%nat -> j <> i -> owns (k_blk s') (dec (k_blk s') n) b -> ~ owns (k_blk s') (dec (k_blk s') (Z.of_nat j + 1)) b) as Hdis.
  { intros j b Hjl Hne Ho Hb. apply Hoj in Hb; [|done|done]. destruct (Hown _ Ho) as [Ho'|Hge]; [by apply (K6 i j b)|].
    destruct (Hj j Hjl Hne) as [_ Hb']. destruct (Hb' _ Hb). lia. }
  constructor; rewrite ?El; try done.
  - lia.
  - rewrite (used_insert _ _ _ _ _ Hi). lia.
  - intros j tj dj Hl. destruct (decide (j = i)) as [->|Hne]; [rewrite list_lookup_insert_eq in Hl by done; injection Hl as <- <-; done|].
    rewrite list_lookup_insert_ne in Hl by done. pose proof (lookup_lt_Some _ _ _ Hl) as Hjl. destruct (Hj j Hjl Hne) as [E Hb].
    eapply file_at_frame; [apply (K5 _ _ _ Hl)|done|lia|]. intros b Hb'. by apply Hb.
  - rewrite length_insert. intros j k b Hjl Hkl Hne Ho Ho'. destruct (decide (j = i)) as [->|Hji]; [by apply (Hdis k b)|].
    destruct (decide (k = i)) as [->|Hki]; [by apply (Hdis j b)|]. apply Hoj in Ho; [|done|done]. apply Hoj in Ho'; [|done|done]. by apply (K6 j k b).
  - intros j Hjr. rewrite Hdec; [by apply K7|unfold zlen in *; lia|unfold n, zlen in *; lia].
  - rewrite Hmeta; [done|lia|lia].
  - intros b Hb. change (2 + nlog) with 33 in Hb. rewrite Hmeta; [apply K9; lia|lia|lia].
Qed.

(** iappend appends to the contents of the file. *)
Lemma iappend_ok s I i ty d p : kinv s I -> I !! i = Some (ty, d) -> zlen d + zlen p <= MAXFILE * BSIZE ->
  nmetablocks + used (<[i := (ty, d ++ p)]> I) <= FSSIZE ->
  exists s', iappend (Z.of_nat i + 1) p s = Ok (tt, s') /\ kinv s' (<[i := (ty, d ++ p)]> I).
Proof.
  intros K Hi Hmax Hroom. pose proof (ki_file _ _ K _ _ _ Hi) as F. set (n := Z.of_nat i + 1) in *. set (x := dec (k_blk s) n) in *.
  pose proof (ki_img _ _ K) as Him. pose proof (lookup_lt_Some _ _ _ Hi) as Hil. pose proof (ki_num _ _ K) as Hnum.
  assert (0 <= n < NINODES) as Hn by (unfold n, zlen in *; lia). pose proof (IBLOCK_range n Hn) as Hib. change (sb_bmapstart mk_sb) with 46 in Hib.
  assert (forall j, 0 <= j < NINODES -> IBLOCK j mk_sb < nmetablocks) as Hib'.
  { intros j Hj. pose proof (IBLOCK_range j Hj) as [_ Hr]. change (sb_bmapstart mk_sb) with 46 in Hr. change nmetablocks with 47. lia. }
  rewrite (used_insert _ _ _ _ _ Hi) in Hroom. pose proof (ki_fb _ _ K) as Hfb. rewrite zlen_app in Hroom.
  destruct (iappend_loop (S (length p)) s x d p) as (s1 & x1 & Hl & G & Hok1 & F1); [done|apply (fa_ok _ _ _ _ _ F)|done|lia|lia|].
  pose proof (im_free _ Him) as Hfree. rewrite zlen_app in F1. set (y := set_size (zlen (d ++ p)) x1).
  assert (forall b, b < nmetablocks -> k_blk s1 b = k_blk s b) as Hmeta.
  { intros b Hb. apply (ge_keep _ _ _ _ G); [lia|]. intros Ho. pose proof (owns_in _ _ _ _ _ _ (fa_ok _ _ _ _ _ F) Ho). lia. }
  pose proof (ge_x _ _ _ _ G) as Ex.
  assert (plain y /\ i_type y = ty /\ i_major y = 0 /\ i_minor y = 0 /\ i_nlink y = 1) as (Hp & E1 & E2 & E3 & E4).
  { destruct F as [[Ft _] [Fa Fb] Fn _ _]. unfold y. rewrite Ex. pose proof (dec_plain (k_blk s) n) as Hpl. fold x in Hpl, Ft, Fa, Fb, Fn. split_and!; try done. }
  destruct (winode_ok s1 n y) as (s2 & Hw & W); [apply (ge_img _ _ _ _ G)|done|done| |].
  { eapply file_fits; [exact F|done|done|done|done| |apply (io_len Hok1)|].
    - unfold y. cbn. rewrite zlen_app. unfold zlen in *. lia.
    - eapply (ino_ok_addrs _ _ x1); [exact Hok1|lia]. }
  assert (forall b, owns (k_blk s1) x1 b -> k_blk s2 b = k_blk s1 b) as Hsame.
  { intros b Hb. apply (so_keep _ _ _ _ W). pose proof (owns_in _ _ _ _ _ _ Hok1 Hb). specialize (Hib' n Hn). lia. }
  exists s2. split.
  - unfold iappend, rinode. rewrite bind_assoc, (bind_ok _ _ _ _ _ (rsect_ok s (IBLOCK n mk_sb) Him ltac:(unfold FSSIZE; lia))), ret_bind.
    change (get_dinode (k_blk s (IBLOCK n mk_sb)) (dioff n) din0) with x. assert (i_size x = zlen d) as -> by apply (fa_size _ _ _ _ _ F). rewrite (bind_ok _ _ _ _ _ Hl). done.
  - assert (k_freeblock s <= k_freeblock s2) as Hle by (rewrite (so_fb _ _ _ _ W); apply (ge_fb _ _ _ _ G)).
    apply (kinv_put s s2 I i ty d); fold n; try done.
    + apply (so_img _ _ _ _ W).
    + rewrite (so_inode _ _ _ _ W). apply (ge_inode _ _ _ _ G).
    + rewrite (so_fb _ _ _ _ W), zlen_app. done.
    + constructor; rewrite ?(so_eq _ _ _ _ W); try done; [split; [done|apply (fa_type _ _ _ _ _ F)]|].
      rewrite (so_fb _ _ _ _ W). eapply ino_frame; [exact Hok1|done|lia|done].
    + intros j Hj Hne. rewrite (so_ne _ _ _ _ W) by (lia || done). unfold dec. by rewrite Hmeta by by apply Hib'.
    + intros b. rewrite (so_eq _ _ _ _ W). rewrite (owns_frame (k_blk s1) (k_blk s2) x1 y b) by done. apply (ge_own _ _ _ _ G).
    + intros b Hb Ho Hne. rewrite (so_keep _ _ _ _ W) by done. by apply (ge_keep _ _ _ _ G).
Qed.

(** A fresh inode has no contents. *)
Lemma slot_zero v x k : i_addrs x = replicate 13 0 -> slot v x k = 0.
Proof.
  intros Ea. assert (forall j, getz (i_addrs x) j = 0) as Hz.
  { intros j. rewrite Ea. unfold getz. destruct (replicate 13 0 !! Z.to_nat j) eqn:E; [|done]. by apply lookup_replicate in E as [-> _]. }
  unfold slot. rewrite !Hz. destruct (k <? NDIRECT); [done|]. by destruct (k =? MAXFILE).
Qed.

Lemma fresh_ok v fb x : i_addrs x = replicate 13 0 -> ino_ok v fb x [] 0 /\ forall b, ~ owns v x b.
Proof.
  intros Ea. pose proof (fun k => slot_zero v x k Ea) as Es. split; [|intros b (Hb & k & _ & E); by rewrite Es in E].
  constructor.
  - by rewrite Ea.
  - geo. lia.
  - intros k Hk. rewrite Es. geo. lia.
  - rewrite Es. geo. lia.
  - intros k Hk Hne. by rewrite Es in Hne.
  - intros j k Hj Hk Hne Hn. by rewrite Es in Hn.
  - intros o Ho. unfold content. by rewrite Es.
Qed.

(** ialloc makes the next inode, without contents. *)
Lemma ialloc_ok s I ty : kinv s I -> zlen I + 1 < NINODES -> - 2 ^ 15 <= ty < 2 ^ 15 -> exists s', ialloc ty s = Ok (zlen I + 1, s') /\ kinv s' (I ++ [(ty, [])]).
Proof.
  intros [K1 K2 K3 K4 K5 K6 K7 K8 K9] Hn Hty. set (n := zlen I + 1) in *. set (x := set_meta ty 0 0 1 din0).
  assert (0 <= zlen I) as Hz by (unfold zlen; lia). unfold NINODES in Hn.
  set (s0 := Mk (k_blk s) (k_len s) (n + 1) (k_freeblock s)).
  destruct (winode_ok s0 n x) as (s' & Hw & [W1 W2 W3 W4 W5 W6]).
  - by destruct K1.
  - unfold NINODES. lia.
  - done.
  - constructor; try done. split; [done|]. apply (Forall_replicate _ 13). lia.
  - assert (forall j, (j < length I)%nat -> dec (k_blk s') (Z.of_nat j + 1) = dec (k_blk s) (Z.of_nat j + 1)) as Hd.
    { intros j Hj. apply (W5 (Z.of_nat j + 1)); [lia|unfold n, zlen; lia]. }
    pose proof (IBLOCK_range n ltac:(unfold NINODES; lia)) as Hib. change (2 + nlog) with 33 in *. change (sb_bmapstart mk_sb) with 46 in *.
    assert (nmetablocks = 47) as Hm by done.
    assert (forall j b, (j < length I)%nat -> owns (k_blk s) (dec (k_blk s) (Z.of_nat j + 1)) b -> k_blk s' b = k_blk s b) as Hb.
    { intros j b Hj Ho. apply (W6 b). destruct (lookup_lt_is_Some_2 I j Hj) as [[tj dj] Ej].
      pose proof (owns_in _ _ _ _ _ _ (fa_ok _ _ _ _ _ (K5 _ _ _ Ej)) Ho). lia. }
    assert (forall j b, (j < length I)%nat -> owns (k_blk s') (dec (k_blk s') (Z.of_nat j + 1)) b -> owns (k_blk s) (dec (k_blk s) (Z.of_nat j + 1)) b) as Ho.
    { intros j b Hj. rewrite (Hd j Hj). rewrite (owns_frame (k_blk s) (k_blk s')); [done|done|]. intros b'. by apply Hb. }
    assert (ino_ok (k_blk s') (k_freeblock s') x [] 0) as Hx by by apply fresh_ok.
    assert (forall b, ~ owns (k_blk s') x b) as Hno by by apply fresh_ok.
    exists s'. split.
    + unfold ialloc. mstep. rewrite K2. fold n. rewrite u32_small by (change (2 ^ 32) with 4294967296; lia).
      fold s0. fold x. rewrite Hw. done.
    + constructor.
      * done.
      * rewrite W2. cbn. unfold n, zlen in *. rewrite length_app. cbn. lia.
      * rewrite W3. cbn [s0 k_freeblock]. rewrite used_app. rewrite K3. change (used [(ty, [])]) with 0. lia.
      * unfold n, zlen, NINODES in *. rewrite length_app. cbn. lia.
      * intros j tj dj Hl. destruct (decide (j < length I)%nat) as [Hj|Hj].
        -- rewrite lookup_app_l in Hl by done. eapply file_at_frame; [apply (K5 _ _ _ Hl)|by apply Hd|rewrite W3; done|]. intros b. by apply Hb.
        -- rewrite lookup_app_r in Hl by lia. destruct (j - length I)%nat eqn:Ej; [|done]. injection Hl as <- <-.
           replace (Z.of_nat j + 1) with n by (unfold n, zlen; lia). constructor; rewrite ?W4; try done.
      * rewrite length_app. cbn [length]. intros i j b Hi Hj Hne Ho1 Ho2.
        destruct (decide (i < length I)%nat) as [Hi'|Hi'], (decide (j < length I)%nat) as [Hj'|Hj']; [|..|lia].
        -- apply (K6 i j b); auto.
        -- replace (Z.of_nat j + 1) with n in Ho2 by (unfold n, zlen; lia). rewrite W4 in Ho2. by apply (Hno b).
        -- replace (Z.of_nat i + 1) with n in Ho1 by (unfold n, zlen; lia). rewrite W4 in Ho1. by apply (Hno b).
      * intros j Hj. rewrite W5; [apply K7|..]; unfold n, zlen in *; rewrite length_app in Hj; cbn in Hj; lia.
      * rewrite W6 by lia. done.
      * intros b Hb'. change (2 + nlog) with 33 in Hb'. rewrite W6 by lia. by apply K9.
Qed.

(** *** Files *)

Lemma nb_nonneg n : 0 <= n -> 0 <= nb n.
Proof. intros H. unfold nb. geo. destruct (12 * 1024 <? n); dlia. Qed.

Lemma used_nonneg I : 0 <= used I.
Proof. induction I as [|p I IH]; cbn; [done|]. pose proof (nb_nonneg (zlen p.2) ltac:(unfold zlen; lia)). unfold used in IH. lia. Qed.

(** The file is read piece by piece. *)
Lemma pieces_ok ps : forall s I i ty d, kinv s I -> I !! i = Some (ty, d) -> zlen d + zlen (concat ps) <= MAXFILE * BSIZE ->
  nmetablocks + used (<[i := (ty, d ++ concat ps)]> I) <= FSSIZE ->
  exists s', for_each ps (iappend (Z.of_nat i + 1)) s = Ok (tt, s') /\ kinv s' (<[i := (ty, d ++ concat ps)]> I).
Proof.
  induction ps as [|p ps IH]; intros s I i ty d K Hi Hmax Hroom; cbn [concat for_each] in *.
  - exists s. rewrite app_nil_r. split; [done|]. by rewrite list_insert_id.
  - rewrite zlen_app in Hmax. pose proof (lookup_lt_Some _ _ _ Hi) as Hl. assert (0 <= zlen d /\ 0 <= zlen p /\ 0 <= zlen (concat ps)) as (Hz1 & Hz2 & Hz3) by (unfold zlen; lia).
    rewrite (used_insert _ _ _ _ _ Hi), !zlen_app in Hroom.
    pose proof (nb_mono (zlen d + zlen p) (zlen d + (zlen p + zlen (concat ps))) ltac:(lia)) as Hm.
    destruct (iappend_ok s I i ty d p) as (s1 & H1 & K1); [done|done|lia|rewrite (used_insert _ _ _ _ _ Hi), zlen_app; lia|].
    rewrite (bind_ok _ _ _ _ _ H1).
    destruct (IH s1 (<[i := (ty, d ++ p)]> I) i ty (d ++ p)) as (s2 & H2 & K2); [done|by apply list_lookup_insert_eq|rewrite zlen_app; lia| |].
    + rewrite list_insert_insert_eq, (used_insert _ _ _ _ _ Hi), !zlen_app. rewrite <-Z.add_assoc. lia.
    + rewrite list_insert_insert_eq, <-app_assoc in K2. exists s2. done.
Qed.

(** The name in the directory. *)
Definition base (arg : list Z) : list Z := strip_underscore (strip_user arg).

Definition name_ok (arg : list Z) : Prop := existsb (Z.eqb 47) (strip_user arg) = false /\ (length (base arg) <= DIRSIZ)%nat.

Lemma shortname_ok arg s : name_ok arg -> shortname arg s = Ok (base arg, s).
Proof. intros [H1 H2]. unfold shortname, base in *. rewrite H1. destruct (Nat.ltb_spec DIRSIZ (length (strip_underscore (strip_user arg)))); [lia|done]. Qed.

Lemma zlen_dirent i name : zlen (dirent i name) = 16.
Proof. unfold dirent, mk_dirent. rewrite zlen_app. unfold zlen. rewrite length_le_enc, length_take, length_app, length_replicate. unfold DIRSIZ. lia. Qed.

Lemma insert_last {A} (r : A) F a b : <[S (length F) := b]> (r :: F ++ [a]) = r :: F ++ [b].
Proof. change (r :: <[length F := b]> (F ++ [a]) = r :: F ++ [b]). by rewrite insert_app_r_alt, Nat.sub_diag by lia. Qed.

Lemma add_file_ok s dd F f : kinv s ((T_DIR, dd) :: F) -> name_ok f.1 -> zlen F + 2 < NINODES -> zlen dd + 16 <= MAXFILE * BSIZE -> zlen (concat f.2) <= MAXFILE * BSIZE ->
  let I' := (T_DIR, dd ++ dirent (zlen F + 2) (base f.1)) :: F ++ [(T_FILE, concat f.2)] in
  nmetablocks + used I' <= FSSIZE -> exists s', add_file f s = Ok (tt, s') /\ kinv s' I'.
Proof.
  intros K Hn Hnum Hd Hc I' Hroom. unfold add_file. rewrite (bind_ok _ _ _ _ _ (shortname_ok f.1 s Hn)).
  assert (zlen ((T_DIR, dd) :: F) + 1 = zlen F + 2) as El by (unfold zlen; cbn; lia).
  destruct (ialloc_ok s ((T_DIR, dd) :: F) T_FILE K) as (s1 & H1 & K1); [lia|done|]. rewrite (bind_ok _ _ _ _ _ H1), El. cbn [app] in K1.
  set (e := dirent (zlen F + 2) (base f.1)) in *. assert (zlen e = 16) as He by apply zlen_dirent.
  assert (used I' = nb (zlen (dd ++ e)) + used F + nb (zlen (concat f.2))) as Eu by (unfold I'; cbn [used foldr]; fold (used (F ++ [(T_FILE, concat f.2)])); rewrite used_app; cbn; lia).
  assert (forall d c, used ((T_DIR, d) :: F ++ [(T_FILE, c)]) = nb (zlen d) + used F + nb (zlen c)) as Hu by (intros d c; cbn [used foldr]; fold (used (F ++ [(T_FILE, c)])); rewrite used_app; cbn; lia).
  destruct (iappend_ok s1 ((T_DIR, dd) :: F ++ [(T_FILE, [])]) 0 T_DIR dd e) as (s2 & H2 & K2); [done|done|lia| |].
  { cbn [insert list_insert]. rewrite Hu. pose proof (nb_nonneg (zlen (concat f.2)) ltac:(unfold zlen; lia)). change (nb (zlen [])) with 0. lia. }
  change (Z.of_nat 0 + 1) with ROOTINO in H2. rewrite (bind_ok _ _ _ _ _ H2). cbn [insert list_insert] in K2.
  destruct (pieces_ok f.2 s2 ((T_DIR, dd ++ e) :: F ++ [(T_FILE, [])]) (S (length F)) T_FILE []) as (s3 & H3 & K3); [done| |done| |].
  - change ((F ++ [(T_FILE, [])]) !! length F = Some (T_FILE, [])). rewrite lookup_app_r, Nat.sub_diag by lia. done.
  - by rewrite insert_last.
  - rewrite insert_last in K3. exists s3. replace (zlen F + 2) with (Z.of_nat (S (length F)) + 1) by (unfold zlen; lia). done.
Qed.
