(* ===== verification/MkfsMain.v ===== *)
(** MkfsMain: main of mkfs makes an image on which every file is installed. *)

From S2P Require Import Prelude CString Locks Log Block Umem Fs FsAlloc FsFile Mkfs MkfsOk MkfsImage.

(** The contents of the root directory and of the inodes. *)
Fixpoint entries (n : Z) (files : list (list Z * list (list Z))) : list Z :=
  match files with
  | [] => []
  | f :: files' => dirent n (base f.1) ++ entries (n + 1) files'
  end.

Definition root_dir (files : list (list Z * list (list Z))) : list Z := dirent 1 [46] ++ dirent 1 [46; 46] ++ entries 2 files.

Definition file_inodes (files : list (list Z * list (list Z))) : list (Z * list Z) := (fun f => (T_FILE, concat f.2)) <$> files.

Definition inodes (files : list (list Z * list (list Z))) : list (Z * list Z) := (T_DIR, root_dir files) :: file_inodes files.

(** The files have names for a directory and fit on the disk. *)
Record fits (files : list (list Z * list (list Z))) : Prop := Fits {
  ft_file : Forall (fun f => name_ok f.1 /\ zlen (concat f.2) <= MAXFILE * BSIZE) files;
  ft_num : zlen files + 1 < NINODES;
  ft_used : nmetablocks + used (inodes files) <= FSSIZE
}.

Lemma zlen_entries files : forall n, zlen (entries n files) = 16 * zlen files.
Proof. induction files as [|f files IH]; intros n; [done|]. cbn [entries]. rewrite zlen_app, zlen_dirent, IH. unfold zlen. cbn. lia. Qed.

Lemma used_cons ty d I : used ((ty, d) :: I) = nb (zlen d) + used I.
Proof. done. Qed.

Lemma add_files_ok files : forall s dd F, kinv s ((T_DIR, dd) :: F) -> Forall (fun f => name_ok f.1 /\ zlen (concat f.2) <= MAXFILE * BSIZE) files ->
  zlen dd = 16 * (zlen F + 2) -> zlen F + zlen files + 1 < NINODES ->
  let I' := (T_DIR, dd ++ entries (zlen F + 2) files) :: F ++ file_inodes files in
  nmetablocks + used I' <= FSSIZE -> exists s', for_each files add_file s = Ok (tt, s') /\ kinv s' I'.
Proof.
  induction files as [|f files IH]; intros s dd F K Hf Hdd Hnum I' Hroom.
  - exists s. unfold I'. cbn. by rewrite !app_nil_r.
  - apply Forall_cons in Hf as [[Hn Hc] Hf]. assert (zlen (f :: files) = zlen files + 1) as El by (unfold zlen; cbn; lia).
    assert (0 <= zlen files /\ 0 <= zlen F) as [Hz Hz'] by (unfold zlen; lia). unfold I' in *. clear I'.
    cbn [entries] in *. change (file_inodes (f :: files)) with ((T_FILE, concat f.2) :: file_inodes files) in *.
    set (e := dirent (zlen F + 2) (base f.1)) in *. assert (zlen e = 16) as He by apply zlen_dirent. unfold NINODES in Hnum.
    rewrite used_cons, used_app, used_cons in Hroom. rewrite !zlen_app, zlen_entries in Hroom.
    pose proof (used_nonneg (file_inodes files)) as Hu. pose proof (nb_mono (zlen dd + zlen e) (zlen dd + (zlen e + 16 * zlen files)) ltac:(lia)) as Hm.
    destruct (add_file_ok s dd F f K Hn) as (s1 & H1 & K1); [unfold NINODES; lia|geo; lia|done| |].
    { fold e. rewrite used_cons, used_app, used_cons, zlen_app. change (used []) with 0. lia. }
    fold e in K1. assert (zlen (F ++ [(T_FILE, concat f.2)]) = zlen F + 1) as El' by (rewrite zlen_app; unfold zlen; cbn; lia).
    destruct (IH s1 (dd ++ e) (F ++ [(T_FILE, concat f.2)]) K1 Hf) as (s2 & H2 & K2); rewrite ?El'; [rewrite zlen_app; lia|unfold NINODES; lia| |].
    + rewrite used_cons, !used_app, used_cons, !zlen_app, zlen_entries. change (used []) with 0. replace (zlen dd + zlen e + 16 * zlen files) with (zlen dd + (zlen e + 16 * zlen files)) by lia. lia.
    + cbn [for_each]. rewrite (bind_ok _ _ _ _ _ H1). rewrite El' in K2. replace (zlen F + 1 + 2) with (zlen F + 2 + 1) in K2 by lia.
      rewrite <-!app_assoc in K2. eauto.
Qed.

(** *** The superblock and the first inode *)

Lemma dec_zero_type v i : 0 <= i -> v (IBLOCK i mk_sb) = zero_block -> i_type (dec v i) = 0.
Proof.
  intros Hi Hv. unfold dec, get_dinode. cbn [i_type]. rewrite Hv. unfold rd, slice, zero_block. rewrite drop_replicate, take_replicate.
  assert (forall n, le_dec (replicate n 0) = 0) as Hd by (induction n as [|n IH]; cbn; lia). by rewrite Hd.
Qed.

(** All blocks are there and zero. *)
Lemma zeroed_ok n : exists s, for_each (seqZ 0 (Z.of_nat n)) (fun i => wsect i zero_block) empty_image = Ok (tt, s) /\
  k_len s = Z.of_nat n /\ k_freeinode s = 1 /\ k_freeblock s = nmetablocks /\ forall b, k_blk s b = zero_block.
Proof.
  induction n as [|n (s & E & Hl & Hi & Hf & Hz)]; [by exists empty_image|].
  replace (Z.of_nat (S n)) with (Z.of_nat n + 1) by lia. rewrite seqZ_app by lia. rewrite for_each_app, (bind_ok _ _ _ _ _ E), Z.add_0_l.
  change (seqZ (Z.of_nat n) 1) with [Z.of_nat n]. eexists. split; [reflexivity|]. cbn. rewrite Hl. split_and!; [lia|done|done|].
  intros b. unfold kupd. by destruct (b =? Z.of_nat n).
Qed.

Lemma start_ok : exists s, (for_each (seqZ 0 FSSIZE) (fun i => wsect i zero_block) ;;; wsect 1 sb_block) empty_image = Ok (tt, s) /\ kinv s [].
Proof.
  destruct (zeroed_ok 2000) as (s & E & Hl & Hn & Hf & Hz). change (Z.of_nat 2000) with FSSIZE in E, Hl. rewrite (bind_ok _ _ _ _ _ E).
  eexists. split; [reflexivity|]. assert (nmetablocks = 47) as Hm by done. cbn [k_len]. constructor; cbn [k_len k_blk k_freeinode k_freeblock]; try done.
  - constructor; cbn [k_len k_blk k_freeinode k_freeblock].
    + by rewrite Hl.
    + intros b. unfold kupd. destruct (b =? 1); [done|by rewrite Hz].
    + lia.
    + intros b Hb. by rewrite kupd_ne, Hz by lia.
  - intros i j b Hi. cbn in Hi. lia.
  - intros j Hj. change (zlen []) with 0 in Hj. pose proof (IBLOCK_range j ltac:(lia)) as Hr. change (2 + nlog) with 33 in Hr.
    apply dec_zero_type; [lia|]. by rewrite kupd_ne, Hz by lia.
  - intros b Hb. by rewrite kupd_ne, Hz by lia.
Qed.

(** The image before the size of the root directory is rounded up. *)
Lemma body_ok files : fits files -> exists s, kinv s (inodes files) /\
  main files empty_image = (din <- rinode ROOTINO ;; winode ROOTINO (set_size ((i_size din / BSIZE + 1) * BSIZE) din) ;;; b <- gets k_freeblock ;; balloc b) s.
Proof.
  intros [Hf Hn Hu]. destruct start_ok as (s0 & H0 & K0). unfold main. rewrite <-bind_assoc, (bind_ok _ _ _ _ _ H0).
  destruct (ialloc_ok s0 [] T_DIR K0) as (s1 & H1 & K1); [done|done|]. rewrite (bind_ok _ _ _ _ _ H1). change (negb (zlen [] + 1 =? ROOTINO)) with false. change (zlen [] + 1) with (Z.of_nat 0 + 1). cbn match. cbn [app] in K1.
  destruct (iappend_ok s1 [(T_DIR, [])] 0 T_DIR [] (dirent 1 [46]) K1 eq_refl) as (s2 & H2 & K2); [done|done|]. rewrite (bind_ok _ _ _ _ _ H2). cbn [insert list_insert app] in K2.
  destruct (iappend_ok s2 [(T_DIR, dirent 1 [46])] 0 T_DIR (dirent 1 [46]) (dirent 1 [46; 46]) K2 eq_refl) as (s3 & H3 & K3); [done|done|]. rewrite (bind_ok _ _ _ _ _ H3).
  change (<[0%nat := (T_DIR, dirent 1 [46] ++ dirent 1 [46; 46])]> [(T_DIR, dirent 1 [46])]) with [(T_DIR, dirent 1 [46] ++ dirent 1 [46; 46])] in K3.
  destruct (add_files_ok files s3 (dirent 1 [46] ++ dirent 1 [46; 46]) [] K3 Hf) as (s4 & H4 & K4); [done|done| |].
  - rewrite <-app_assoc. done.
  - exists s4. rewrite <-app_assoc in K4. split; [done|]. rewrite (bind_ok _ _ _ _ _ H4). done.
Qed.

(** *** The bitmap *)

Lemma bitmap_first n : forall b, 0 <= b < BPB -> Z.of_nat n <= BPB ->
  length (foldl bm_set zero_block (seqZ 0 (Z.of_nat n))) = 1024%nat /\ bm_get (foldl bm_set zero_block (seqZ 0 (Z.of_nat n))) b = (b <? Z.of_nat n).
Proof.
  intros b Hb. induction n as [|n IH]; intros Hn.
  - split; [done|]. rewrite bm_get_testbit by lia. change (foldl bm_set zero_block (seqZ 0 (Z.of_nat 0))) with zero_block. rewrite getz_zero_block, Z.bits_0.
    by rewrite (proj2 (Z.ltb_ge b (Z.of_nat 0))) by lia.
  - replace (Z.of_nat (S n)) with (Z.of_nat n + 1) by lia. rewrite seqZ_app by lia. rewrite foldl_app, Z.add_0_l. destruct IH as [Hl E]; [lia|].
    change (seqZ (Z.of_nat n) 1) with [Z.of_nat n]. cbn [foldl]. set (l := foldl bm_set zero_block (seqZ 0 (Z.of_nat n))) in *.
    assert (zlen l = BSIZE) as Hz by (unfold zlen; rewrite Hl; done). split; [by rewrite length_bm_set|].
    destruct (Z.eq_dec b (Z.of_nat n)) as [->|Hne].
    + rewrite bm_get_set_eq by (geo; dlia). symmetry. apply Z.ltb_lt. lia.
    + rewrite bm_get_set_ne by (geo; dlia). rewrite E. destruct (Z.ltb_spec b (Z.of_nat n)), (Z.ltb_spec b (Z.of_nat n + 1)); lia || done.
Qed.

(** *** The finished image *)

(** The inode [i] of the image holds the file [d]: its blocks are distinct data
    blocks that the bitmap has in use, the ones below the end of [d] are there,
    and behind the end there are zeros only. *)
Record installed (v : Z -> block) (i ty n : Z) (d : list Z) : Prop := Installed {
  in_type : i_type (dec v i) = ty;
  in_nlink : i_nlink (dec v i) = 1;
  in_size : i_size (dec v i) = n;
  in_wf : file_wf mk_sb v (dec v i);
  in_blocks : forall k, 0 <= k < MAXFILE -> slot v (dec v i) k <> 0 <-> k * BSIZE < zlen d;
  in_data : contents v (dec v i) 0 (zlen d) = d;
  in_zero : forall o, zlen d <= o < MAXFILE * BSIZE -> content v (dec v i) o = 0
}.

Lemma ino_installed v fb i ty n d : ino_ok v fb (dec v i) d (zlen d) -> fb <= FSSIZE -> (forall b, 0 <= b < fb -> bit mk_sb v b = true) ->
  i_type (dec v i) = ty -> i_nlink (dec v i) = 1 -> i_size (dec v i) = n -> installed v i ty n d.
Proof.
  intros Hok Hfb Hbit Ht Hn Hs. assert (nmeta mk_sb = nmetablocks /\ 0 < nmetablocks) as [Em Hp] by done. constructor; try done.
  - constructor; [apply (io_len Hok)| |apply (io_inj Hok)]. intros k Hk. destruct (Z.eq_dec (slot v (dec v i) k) 0) as [|Hne]; [by left|right].
    pose proof (io_in Hok k Hk Hne) as Hr. rewrite Em. change (sb_size mk_sb) with FSSIZE. split; [lia|]. apply Hbit. lia.
  - apply (io_slot Hok).
  - pose proof (io_max Hok) as Hm. unfold contents. apply list_eq. intros k. rewrite list_lookup_fmap.
    destruct (decide (k < length d)%nat) as [Hk|Hk].
    + rewrite lookup_seq_lt by (unfold zlen; lia). cbn. rewrite (io_data Hok) by (unfold zlen in *; lia). destruct (lookup_lt_is_Some_2 d k Hk) as [c Ec].
      rewrite Ec. unfold getz. rewrite Z.add_0_l, Nat2Z.id. cbn. by rewrite Ec.
    + rewrite lookup_seq_ge by (unfold zlen; lia). by rewrite lookup_ge_None_2 by lia.
  - intros o Ho. rewrite (io_data Hok) by (unfold zlen in *; lia). apply getz_beyond. lia.
Qed.

(** A file whose size is its length has all its blocks. *)
Lemma installed_full v i ty d : installed v i ty (zlen d) d -> zlen d <= MAXFILE * BSIZE -> full v (dec v i).
Proof.
  intros [] Hm. unfold full. rewrite in_size0. split; [unfold zlen in *; lia|]. intros k Hk Hlt. apply in_blocks0; [|done]. geo. lia.
Qed.

(** The kernel reads the superblock that mkfs computed. *)
Lemma readsb_image {U : Type} `{UserMem U} (t : fs U) dev : b_view (f_b t) dev 1 = sb_block -> readsb dev t = Ok (mk_sb, t).
Proof. intros E. unfold readsb. rewrite (bind_ok _ _ _ _ _ (onb_ok _ t _ _ eq_refl)). rewrite set_b_id, E. reflexivity. Qed.

(** What the last steps change: the size of the root directory and the bitmap. *)
Record finished (s s' : mk) (d : list Z) : Prop := Finished {
  fi_img : image s';
  fi_root : dec (k_blk s') 1 = set_size ((zlen d / BSIZE + 1) * BSIZE) (dec (k_blk s) 1);
  fi_dec : forall j, 0 <= j < NINODES -> j <> 1 -> dec (k_blk s') j = dec (k_blk s) j;
  fi_keep : forall b, b < 33 \/ nmetablocks <= b -> k_blk s' b = k_blk s b;
  fi_bits : forall b, 0 <= b < BPB -> bit mk_sb (k_blk s') b = (b <? k_freeblock s)
}.

Lemma finish_ok s I d : kinv s I -> I !! 0%nat = Some (T_DIR, d) -> zlen d < MAXFILE * BSIZE -> k_freeblock s <= FSSIZE ->
  exists s', (din <- rinode ROOTINO ;; winode ROOTINO (set_size ((i_size din / BSIZE + 1) * BSIZE) din) ;;; b <- gets k_freeblock ;; balloc b) s = Ok (tt, s') /\ finished s s' d.
Proof.
  intros K Hd Hmax Hfb. pose proof (ki_img _ _ K) as Him. pose proof (ki_file _ _ K _ _ _ Hd) as F. change (Z.of_nat 0 + 1) with 1 in F.
  set (x := dec (k_blk s) 1) in *. set (y := set_size ((zlen d / BSIZE + 1) * BSIZE) x). assert (0 <= zlen d) as Hz by (unfold zlen; lia).
  assert (nmetablocks = 47) as Hm by done. pose proof (im_free _ Him) as Hf. unfold FSSIZE in Hfb.
  destruct (winode_ok s 1 y) as (s1 & Hw & [W1 W2 W3 W4 W5 W6]); [done|done|done| |].
  { eapply file_fits; [exact F|apply F|apply F|apply F|apply F|unfold y; cbn [i_size set_size]; geo; dlia|apply (io_len (fa_ok _ _ _ _ _ F))|].
    eapply (ino_ok_addrs _ _ x); [apply (fa_ok _ _ _ _ _ F)|done]. }
  set (n := Z.to_nat (k_freeblock s)). assert (k_freeblock s = Z.of_nat n) as En by (unfold n; lia).
  set (bm := foldl bm_set zero_block (seqZ 0 (Z.of_nat n))).
  assert (Z.of_nat n <= BPB) as Hnb by (change BPB with 8192; lia).
  change (IBLOCK 1 mk_sb) with 33 in W6.
  exists (with_blk (kupd (k_blk s1) 46 bm) (k_freeblock s1) s1). split; [|constructor; try done].
  - unfold rinode. rewrite bind_assoc, (bind_ok _ _ _ _ _ (rsect_ok s (IBLOCK ROOTINO mk_sb) Him eq_refl)), ret_bind.
    change (get_dinode (k_blk s (IBLOCK ROOTINO mk_sb)) (dioff ROOTINO) din0) with x. assert (i_size x = zlen d) as -> by apply (fa_size _ _ _ _ _ F).
    fold y. rewrite (bind_ok _ _ _ _ _ Hw). rewrite (bind_ok _ _ _ _ _ (eq_refl : gets k_freeblock s1 = Ok (k_freeblock s1, s1))).
    unfold balloc. rewrite W3, En. rewrite (proj2 (Z.ltb_lt (Z.of_nat n) BPB)) by (change BPB with 8192; lia). cbn [negb].
    by rewrite wsect_ok, W3, En.
  - replace (k_freeblock s1) with (k_freeblock s1 + 0) by lia. apply image_step; [done|done| |].
    + intros b. unfold kupd. destruct (b =? 46); [|apply (im_blk _ W1)]. by apply (bitmap_first n 0).
    + intros b Hb. rewrite kupd_ne by lia. apply (im_zero _ W1). lia.
  - intros j Hj Hne. pose proof (IBLOCK_range j Hj) as Hr. change (sb_bmapstart mk_sb) with 46 in Hr. rewrite <-W5 by lia.
    unfold dec. cbn [with_blk k_blk]. by rewrite kupd_ne by lia.
  - intros b Hb. cbn [with_blk k_blk]. rewrite kupd_ne by lia. apply W6. lia.
  - intros b Hb. unfold bit. rewrite En. replace (BBLOCK b mk_sb) with 46 by (geo; change (sb_bmapstart mk_sb) with 46; dlia).
    cbn [with_blk k_blk]. rewrite kupd_eq. rewrite Z.mod_small by done. by apply bitmap_first.
Qed.

(** What a kernel that boots from the image finds. *)
Record made (v : Z -> block) (files : list (list Z * list (list Z))) : Prop := Made {
  md_geom : geom mk_sb;
  md_disk : disk_wf mk_sb v;
  md_sb : v 1 = sb_block;
  md_log : forall b, 2 <= b < 2 + nlog -> v b = zero_block;
  md_bits : forall b, 0 <= b < FSSIZE -> bit mk_sb v b = (b <? nmetablocks + used (inodes files));
  md_root : installed v ROOTINO T_DIR ((zlen (root_dir files) / BSIZE + 1) * BSIZE) (root_dir files);
  md_file : forall i f, files !! i = Some f -> installed v (Z.of_nat i + 2) T_FILE (zlen (concat f.2)) (concat f.2);
  md_disj : forall i j b, 1 <= i <= zlen files + 1 -> 1 <= j <= zlen files + 1 -> i <> j -> owns v (dec v i) b -> ~ owns v (dec v j) b;
  md_free : forall j, zlen files + 1 < j < NINODES -> i_type (dec v j) = 0
}.

Lemma zlen_root_dir files : zlen (root_dir files) = 16 * (zlen files + 2).
Proof. unfold root_dir. rewrite !zlen_app, !zlen_dirent, zlen_entries. lia. Qed.

Lemma zlen_inodes files : zlen (inodes files) = zlen files + 1.
Proof. unfold zlen, inodes, file_inodes. cbn [length]. rewrite length_fmap. lia. Qed.

Section Finished.
  Context (s s' : mk) (files : list (list Z * list (list Z))).
  Context (Hfit : fits files) (K : kinv s (inodes files)) (Fi : finished s s' (root_dir files)).

Lemma finished_inode i ty d : inodes files !! i = Some (ty, d) -> let n := Z.of_nat i + 1 in
  file_at (k_blk s) (k_freeblock s) n ty d /\ 0 <= n < NINODES /\
  i_addrs (dec (k_blk s') n) = i_addrs (dec (k_blk s) n) /\ i_type (dec (k_blk s') n) = ty /\ i_nlink (dec (k_blk s') n) = 1 /\
  forall b, owns (k_blk s) (dec (k_blk s) n) b -> k_blk s' b = k_blk s b.
Proof.
  intros Hi n. pose proof (ki_file _ _ K _ _ _ Hi) as F. fold n in F. pose proof (lookup_lt_Some _ _ _ Hi) as Hl. pose proof (zlen_inodes files) as Hzi. pose proof (ft_num _ Hfit) as Hnum.
  assert (0 <= n < NINODES) as Hn by (unfold n, zlen, NINODES in *; lia). split; [done|]. split; [done|]. destruct (fa_type _ _ _ _ _ F) as [Ft _]. pose proof (fa_nlink _ _ _ _ _ F) as Fn.
  assert (forall b, owns (k_blk s) (dec (k_blk s) n) b -> k_blk s' b = k_blk s b) as Ho.
  { intros b Ho. apply (fi_keep _ _ _ Fi). pose proof (owns_in _ _ _ _ _ _ (fa_ok _ _ _ _ _ F) Ho). lia. }
  destruct (Z.eq_dec n 1) as [E|Hne]; [rewrite E in *; rewrite (fi_root _ _ _ Fi); done|rewrite (fi_dec _ _ _ Fi n Hn Hne); done].
Qed.

Lemma finished_bits b : 0 <= b < FSSIZE -> bit mk_sb (k_blk s') b = (b <? nmetablocks + used (inodes files)).
Proof. intros Hb. rewrite (fi_bits _ _ _ Fi), (ki_fb _ _ K); [done|]. change BPB with 8192. unfold FSSIZE in Hb. lia. Qed.

Lemma finished_installed i ty d : inodes files !! i = Some (ty, d) -> installed (k_blk s') (Z.of_nat i + 1) ty (i_size (dec (k_blk s') (Z.of_nat i + 1))) d.
Proof.
  intros Hi. destruct (finished_inode i ty d Hi) as (F & _ & Ea & Et & En & Ho). pose proof (ft_used _ Hfit) as Hu. rewrite <-(ki_fb _ _ K) in Hu.
  eapply (ino_installed _ (k_freeblock s)); [|done| |done|done|done].
  - eapply ino_frame; [apply (fa_ok _ _ _ _ _ F)|done|done|done].
  - intros b Hb. rewrite finished_bits, <-(ki_fb _ _ K) by lia. apply Z.ltb_lt. lia.
Qed.

Lemma finished_owns n b : 1 <= n <= zlen files + 1 -> owns (k_blk s') (dec (k_blk s') n) b <-> owns (k_blk s) (dec (k_blk s) n) b.
Proof.
  intros Hn. pose proof (zlen_inodes files) as Hzi. destruct (lookup_lt_is_Some_2 (inodes files) (Z.to_nat (n - 1))) as [[t d] Hd]; [unfold zlen in *; lia|].
  destruct (finished_inode _ _ _ Hd) as (_ & _ & Ea & _ & _ & Ho). replace (Z.of_nat (Z.to_nat (n - 1)) + 1) with n in * by lia. by apply owns_frame.
Qed.

Lemma finished_disj i j b : 1 <= i <= zlen files + 1 -> 1 <= j <= zlen files + 1 -> i <> j -> owns (k_blk s') (dec (k_blk s') i) b -> ~ owns (k_blk s') (dec (k_blk s') j) b.
Proof.
  intros Hi Hj Hne. pose proof (zlen_inodes files) as Hzi. rewrite !finished_owns by done.
  replace i with (Z.of_nat (Z.to_nat (i - 1)) + 1) by lia. replace j with (Z.of_nat (Z.to_nat (j - 1)) + 1) by lia. apply (ki_disj _ _ K); unfold zlen in *; lia.
Qed.

Lemma finished_made : made (k_blk s') files.
Proof.
  pose proof (im_free _ (ki_img _ _ K)) as Hf. rewrite (ki_fb _ _ K) in Hf. assert (nmetablocks = 47) as Hm by done. constructor.
  - done.
  - constructor; [apply (im_blk _ (fi_img _ _ _ Fi))|]. intros b Hb. change (nmeta mk_sb) with 47 in Hb. rewrite finished_bits by (unfold FSSIZE; lia). apply Z.ltb_lt. lia.
  - rewrite (fi_keep _ _ _ Fi) by lia. apply (ki_sb _ _ K).
  - intros b Hb. change (2 + nlog) with 33 in Hb. rewrite (fi_keep _ _ _ Fi) by lia. by apply (ki_log _ _ K).
  - apply finished_bits.
  - pose proof (finished_installed 0%nat _ _ eq_refl) as Hi. change (Z.of_nat 0 + 1) with 1 in Hi. rewrite (fi_root _ _ _ Fi) in Hi. exact Hi.
  - intros i f Hl. assert (inodes files !! S i = Some (T_FILE, concat f.2)) as Hi by (change (file_inodes files !! i = Some (T_FILE, concat f.2)); unfold file_inodes; by rewrite list_lookup_fmap, Hl).
    pose proof (finished_installed _ _ _ Hi) as Hin. destruct (finished_inode _ _ _ Hi) as (F & Hn & _). replace (Z.of_nat (S i) + 1) with (Z.of_nat i + 2) in * by lia.
    rewrite (fi_dec _ _ _ Fi _ Hn) in Hin by lia. by rewrite (fa_size _ _ _ _ _ F) in Hin.
  - apply finished_disj.
  - intros j Hj. pose proof (zlen_inodes files) as Hzi. rewrite (fi_dec _ _ _ Fi) by (unfold zlen in *; lia). apply (ki_free _ _ K). lia.
Qed.
End Finished.

(** C24: mkfs makes an image with every file on it: with names that fit a directory
    entry and files that fit the disk, main does not fail, and the image has the
    superblock the kernel reads, an empty log, exactly the blocks in use marked,
    the root directory with an entry for every file, and every file's bytes in
    inodes that share no block. *)
Theorem mkfs_makes_image files : fits files -> exists s, main files empty_image = Ok (tt, s) /\ k_len s = FSSIZE /\ made (k_blk s) files /\
  forall (U : Type) (H : UserMem U) (t : fs U) dev, b_view (f_b t) dev = k_blk s -> readsb dev t = Ok (mk_sb, t).
Proof.
  intros Hfit. pose proof (ft_num _ Hfit) as Hnum. pose proof (ft_used _ Hfit) as Hu. destruct (body_ok files Hfit) as (s & K & ->). rewrite <-(ki_fb _ _ K) in Hu.
  pose proof (zlen_root_dir files) as Hrl. unfold NINODES in Hnum.
  destruct (finish_ok s (inodes files) (root_dir files) K eq_refl ltac:(geo; lia) Hu) as (s' & -> & Fi). exists s'.
  pose proof (finished_made s s' files Hfit K Fi) as Hm. split_and!; [done|apply (im_len _ (fi_img _ _ _ Fi))|done|].
  intros U H t dev Hv. apply readsb_image. rewrite Hv. apply (md_sb _ _ Hm).
Qed.

Definition ex_files : list (list Z * list (list Z)) := [([117; 115; 101; 114; 47; 95; 99; 97; 116], [[1; 2; 3]; [4]]); ([82], [[5]])].

(** Two files, one of them user/_cat. *)
Lemma mkfs_makes_image_witness : exists s, main ex_files empty_image = Ok (tt, s) /\ k_len s = FSSIZE /\ made (k_blk s) ex_files /\
  forall (U : Type) (H : UserMem U) (t : fs U) dev, b_view (f_b t) dev = k_blk s -> readsb dev t = Ok (mk_sb, t).
Proof.
  apply (mkfs_makes_image ex_files). constructor; [|vm_compute; done|vm_compute; done].
  repeat (apply Forall_cons; split; [split; [split|]; vm_compute; [done|lia|done]|]). by apply Forall_nil.
Defined.

(** ialloc never looks at NINODES: the inodes from 208 on are in the block that
    balloc writes the bitmap to. *)
Lemma inode_in_bitmap : IBLOCK 207 mk_sb < sb_bmapstart mk_sb /\ IBLOCK 208 mk_sb = sb_bmapstart mk_sb.
Proof. done. Qed.

(** The rounded size of the root directory is behind its last block when the
    entries fill their blocks: then the directory has a hole. *)
Lemma root_full_iff v files : fits files -> made v files -> full v (dec v ROOTINO) <-> (zlen files + 2) mod 64 <> 0.
Proof.
  intros Hfit Hm. pose proof (ft_num _ Hfit) as Hnum. unfold NINODES in Hnum. destruct (md_root _ _ Hm) as [_ _ Hs _ Hb _ _]. rewrite zlen_root_dir in Hs, Hb.
  assert (0 <= zlen files) as Hz by (unfold zlen; lia). unfold full. rewrite Hs. set (k0 := 16 * (zlen files + 2) / BSIZE). split.
  - intros [_ Hf] E. specialize (Hf k0). apply (Hb k0) in Hf; unfold k0 in *; geo; dlia.
  - intros Hne. split; [unfold k0; geo; dlia|]. intros k Hk Hlt. apply Hb; unfold k0 in *; geo; dlia.
Qed.
