(* ===== verification/Pipe.v ===== *)
(** Pipe: kernel/pipe.c, a ring buffer between writers and readers.

    The pipe's spin lock is held except while a process sleeps, so pipewrite
    and piperead are sequences of sections that each run without interruption
    from entry or wakeup to return or sleep.  A section is a definition here;
    the interleavings are sequences of sections. *)

From S2P Require Import Prelude Umem.

Definition PIPESIZE : Z := 512.

Record pipe : Type := Pipe {
  p_data : list Z; p_nread : Z; p_nwrite : Z; p_readopen : bool; p_writeopen : bool
}.

(** The pipe pipealloc sets up in a fresh page with contents [junk]. *)
Definition pipe_init (junk : list Z) : pipe := Pipe (take 512 junk) 0 0 true true.

(** pipeclose: the pipe, and whether its page is freed. *)
Definition pipeclose (pi : pipe) (writable : bool) : pipe * bool :=
  let pi' := if writable
             then Pipe (p_data pi) (p_nread pi) (p_nwrite pi) (p_readopen pi) false
             else Pipe (p_data pi) (p_nread pi) (p_nwrite pi) false (p_writeopen pi) in
  (pi', negb (p_readopen pi') && negb (p_writeopen pi')).

(** How a section ends: the call returns, or it sleeps having done [i]. *)
Inductive section_end : Type := Return (r : Z) | Sleeps (i : Z).

Section Ops.
  Context {U : Type} `{UserMem U}.

(** One iteration of pipewrite's loop; [killed] is killed(pr). *)
Definition pipewrite_body (killed : bool) (addr n : Z) (i : Z) :
  M (pipe * U) (Z + section_end) :=
  fun '(pi, u) =>
    if negb (i <? n) then Ok (inr (Return i), (pi, u))
    else if negb (p_readopen pi) || killed then Ok (inr (Return (-1)), (pi, u))
    else if p_nwrite pi =? u32 (p_nread pi + PIPESIZE) then Ok (inr (Sleeps i), (pi, u))
    else
      let '(ok, bytes, u') := copyin u (addr + i) 1 in
      if negb ok then Ok (inr (Return i), (pi, u'))
      else
        Ok (inl (i + 1),
            (Pipe (putz (p_data pi) (p_nwrite pi mod PIPESIZE) (getz bytes 0))
                  (p_nread pi) (u32 (p_nwrite pi + 1)) (p_readopen pi) (p_writeopen pi), u')).

(** The part of pipewrite from [i] bytes written to its return or next sleep. *)
Definition pipewrite (killed : bool) (addr n i : Z) : M (pipe * U) section_end :=
  loop (Z.to_nat (n - i) + 1) (pipewrite_body killed addr n) i.

(** One iteration of piperead's copying loop. *)
Definition piperead_body (addr n : Z) (i : Z) : M (pipe * U) (Z + Z) :=
  fun '(pi, u) =>
    if negb (i <? n) then Ok (inr i, (pi, u))
    else if p_nread pi =? p_nwrite pi then Ok (inr i, (pi, u))
    else
      let ch := getz (p_data pi) (p_nread pi mod PIPESIZE) in
      let '(ok, u') := copyout u (addr + i) [ch] in
      if negb ok then Ok (inr (if i =? 0 then -1 else i), (pi, u'))
      else Ok (inl (i + 1), (Pipe (p_data pi) (u32 (p_nread pi + 1)) (p_nwrite pi)
                                  (p_readopen pi) (p_writeopen pi), u')).

Definition piperead (killed : bool) (addr n : Z) : M (pipe * U) section_end :=
  fun '(pi, u) =>
    if (p_nread pi =? p_nwrite pi) && p_writeopen pi
    then Ok (if killed then Return (-1) else Sleeps 0, (pi, u))
    else (r <- loop (Z.to_nat n + 1) (piperead_body addr n) 0 ;; ret (Return r)) (pi, u).

(** *** The queue a pipe stands for *)

(** [R] and [W] are the total numbers of bytes read and written; the counters
    hold them modulo 2^32. *)
Record reps (pi : pipe) (R W : Z) (q : list Z) : Prop := Reps {
  rp_len : zlen (p_data pi) = PIPESIZE;
  rp_bounds : 0 <= R /\ W = R + zlen q /\ zlen q <= PIPESIZE;
  rp_nread : p_nread pi = u32 R;
  rp_nwrite : p_nwrite pi = u32 W;
  rp_data : forall k, 0 <= k < zlen q -> getz (p_data pi) ((R + k) mod PIPESIZE) = getz q k
}.

Lemma u32_mod_pipesize x : u32 x mod PIPESIZE = x mod PIPESIZE.
Proof. unfold u32, PIPESIZE. dlia. Qed.

Lemma reps_empty pi R W q : reps pi R W q -> (p_nread pi =? p_nwrite pi) = bool_decide (q = []).
Proof.
  intros [_ (HR & -> & Hq) Hr Hw _]. rewrite Hr, Hw. unfold u32, PIPESIZE, zlen in *.
  destruct q as [|c q].
  - rewrite bool_decide_eq_true_2 by done. cbn. rewrite Z.add_0_r. lia.
  - rewrite bool_decide_eq_false_2 by done. cbn [length] in *. dlia.
Qed.

Lemma reps_full pi R W q :
  reps pi R W q -> (p_nwrite pi =? u32 (p_nread pi + PIPESIZE)) = (zlen q =? PIPESIZE).
Proof.
  intros [_ (HR & -> & Hq) Hr Hw _]. rewrite Hr, Hw. unfold u32, PIPESIZE, zlen in *. dlia.
Qed.

(** Storing a byte appends it to the queue; dropping one removes its head. *)
Lemma reps_push pi R W q c :
  reps pi R W q -> zlen q < PIPESIZE ->
  reps (Pipe (putz (p_data pi) (p_nwrite pi mod PIPESIZE) c) (p_nread pi) (u32 (p_nwrite pi + 1))
             (p_readopen pi) (p_writeopen pi)) R (W + 1) (q ++ [c]).
Proof.
  intros [Hl (HR & -> & Hq) Hr Hw Hd] Hlt.
  assert (zlen (q ++ [c]) = zlen q + 1) as Hz by (unfold zlen; len; cbn; lia).
  assert (0 <= zlen q) by (unfold zlen; lia).
  constructor; cbn; try done.
  - by rewrite zlen_putz.
  - lia.
  - rewrite Hw. unfold u32. dlia.
  - intros k Hk. rewrite Hw, u32_mod_pipesize. rewrite Hz in Hk.
    destruct (decide (k = zlen q)) as [->|Hne].
    + rewrite getz_putz_eq by (rewrite Hl; unfold PIPESIZE; dlia).
      unfold getz, zlen. rewrite Nat2Z.id, lookup_app_r by lia. by rewrite Nat.sub_diag.
    + rewrite getz_putz_ne by (unfold PIPESIZE in *; dlia). rewrite Hd by lia.
      unfold getz, zlen in *. by rewrite lookup_app_l by lia.
Qed.

Lemma reps_pop pi R W c q :
  reps pi R W (c :: q) ->
  getz (p_data pi) (p_nread pi mod PIPESIZE) = c /\
  reps (Pipe (p_data pi) (u32 (p_nread pi + 1)) (p_nwrite pi) (p_readopen pi) (p_writeopen pi))
       (R + 1) W q.
Proof.
  intros [Hl (HR & -> & Hq) Hr Hw Hd].
  assert (zlen (c :: q) = zlen q + 1) as Hz by (unfold zlen; cbn [length]; lia).
  assert (0 <= zlen q) by (unfold zlen; lia). split.
  - rewrite Hr, u32_mod_pipesize. specialize (Hd 0 ltac:(lia)). by rewrite Z.add_0_r in Hd.
  - constructor; cbn; try done; [lia|rewrite Hr; unfold u32; dlia|].
    intros k Hk. specialize (Hd (k + 1) ltac:(lia)).
    replace (R + 1 + k) with (R + (k + 1)) by lia. rewrite Hd. unfold getz.
    by replace (Z.to_nat (k + 1)) with (S (Z.to_nat k)) by lia.
Qed.

Context `{!UserMemOk U}.

(** A write section appends what it copies in. *)
Lemma pipewrite_run killed addr n i pi u R W q :
  reps pi R W q -> 0 <= i <= n ->
  exists e pi' u' bs, pipewrite killed addr n i (pi, u) = Ok (e, (pi', u')) /\
    reps pi' R (W + zlen bs) (q ++ bs) /\
    p_readopen pi' = p_readopen pi /\ p_writeopen pi' = p_writeopen pi /\
    (exists ok l u1, copyin u (addr + i) (zlen bs) = (ok, l, u1) /\ l = bs /\ ok = true) /\
    match e with
    | Sleeps j => j = i + zlen bs /\ j < n /\ zlen (q ++ bs) = PIPESIZE
    | Return r => (r = -1 /\ bs = [] /\ (p_readopen pi = false \/ killed = true)) \/
                  (r = i + zlen bs /\ (r = n \/ (copyin u (addr + i) (zlen bs + 1)).1.1 = false))
    end.
Proof.
  intros Hrep Hi. unfold pipewrite.
  destruct (loop_rule (pipewrite_body killed addr n)
    (fun j '(pj, uj) => exists bs, j = i + zlen bs /\ j <= n /\ reps pj R (W + zlen bs) (q ++ bs) /\
       p_readopen pj = p_readopen pi /\ p_writeopen pj = p_writeopen pi /\
       copyin u (addr + i) (zlen bs) = (true, bs, uj) /\
       (bs <> [] -> p_readopen pi = true /\ killed = false))
    (fun e '(pj, uj) => exists bs, reps pj R (W + zlen bs) (q ++ bs) /\
       p_readopen pj = p_readopen pi /\ p_writeopen pj = p_writeopen pi /\
       (exists ok l u1, copyin u (addr + i) (zlen bs) = (ok, l, u1) /\ l = bs /\ ok = true) /\
       match e with
       | Sleeps j => j = i + zlen bs /\ j < n /\ zlen (q ++ bs) = PIPESIZE
       | Return r => (r = -1 /\ bs = [] /\ (p_readopen pi = false \/ killed = true)) \/
           (r = i + zlen bs /\ (r = n \/ (copyin u (addr + i) (zlen bs + 1)).1.1 = false))
       end)
    (fun j _ => Z.to_nat (n - j))) with (fuel := (Z.to_nat (n - i) + 1)%nat) (x := i) (s := (pi, u))
    as (e & [pi' u'] & E & bs & Hq).
  - intros j [pj uj] (bs & Hj & Hjn & Hr & Ho1 & Ho2 & Hc & Hb). unfold pipewrite_body.
    assert (0 <= zlen bs) as Hb0 by (unfold zlen; lia).
    destruct (Z.ltb_spec j n) as [Hlt|Hge]; cbn [negb]; cycle 1.
    { eexists _, _. split; [reflexivity|]. exists bs. split_and!; eauto 6. right. lia. }
    rewrite Ho1. destruct (negb (p_readopen pi) || killed) eqn:Ek.
    { eexists _, _. split; [reflexivity|]. exists bs. split_and!; eauto 6. left.
      apply orb_true_iff in Ek. rewrite negb_true_iff in Ek.
      destruct bs as [|b bs]; [by split_and!|]. destruct (Hb ltac:(done)). destruct Ek; congruence. }
    rewrite (reps_full _ _ _ _ Hr). destruct (Z.eqb_spec (zlen (q ++ bs)) PIPESIZE) as [Hf|Hnf].
    { eexists _, _. split; [reflexivity|]. exists bs. split_and!; eauto 6; lia. }
    apply orb_false_iff in Ek as [Ek1%negb_false_iff Ek2].
    pose proof (copyin_app u (addr + i) (zlen bs) 1 ltac:(lia) ltac:(lia)) as Happ. rewrite Hc in Happ.
    replace (addr + i + zlen bs) with (addr + j) in Happ by lia.
    destruct (copyin uj (addr + j) 1) as [[ok l] u2] eqn:E2. destruct ok; cbn [negb].
    + pose proof (copyin_full uj (addr + j) 1 l u2 ltac:(lia) E2) as Hl1. unfold zlen in Hl1.
      destruct l as [|c [|? ?]]; cbn in Hl1; try lia.
      eexists (inl _), _. split; [reflexivity|].
      assert (zlen (bs ++ [c]) = zlen bs + 1) as Hz by (unfold zlen; len; cbn; lia).
      split; [|lia]. exists (bs ++ [c]). rewrite Hz. cbn [p_readopen p_writeopen]. split_and!; try done; try lia.
      rewrite app_assoc, Z.add_assoc, <-Ho1. apply reps_push; [done|].
      destruct (rp_bounds _ _ _ _ Hr) as (_ & _ & ?). change (getz [c] 0) with c. lia.
    + eexists _, _. split; [reflexivity|]. exists bs. split_and!; eauto 6. right. split; [done|].
      right. by rewrite Happ.
  - exists []. rewrite app_nil_r. change (zlen (@nil Z)) with 0. rewrite !Z.add_0_r.
    split_and!; try done; try lia. by rewrite copyin_nil.
  - lia.
  - exists e, pi', u', bs. destruct Hq as (? & ? & ? & ? & ?). done.
Qed.

(** A read section delivers a prefix of the queue and removes it. *)
Lemma piperead_run killed addr n pi u R W q :
  reps pi R W q -> 0 <= n ->
  exists e pi' u' bs q', piperead killed addr n (pi, u) = Ok (e, (pi', u')) /\
    q = bs ++ q' /\ reps pi' (R + zlen bs) W q' /\
    p_readopen pi' = p_readopen pi /\ p_writeopen pi' = p_writeopen pi /\
    match e with
    | Sleeps _ => q = [] /\ p_writeopen pi = true /\ killed = false /\ pi' = pi /\ bs = []
    | Return r =>
        (r = -1 /\ bs = []) \/
        (r = zlen bs /\ (r = n \/ q' = [] \/ (copyout u addr (bs ++ take 1 q')).1 = false) /\
         (copyout u addr bs).1 = true)
    end.
Proof.
  intros Hrep Hn. unfold piperead. rewrite (reps_empty _ _ _ _ Hrep).
  destruct (bool_decide (q = []) && p_writeopen pi) eqn:Ew.
  { apply andb_true_iff in Ew as [Eq%bool_decide_eq_true Ew].
    eexists _, pi, u, [], q. change (zlen (@nil Z)) with 0. rewrite Z.add_0_r.
    split; [reflexivity|]. split_and!; try done. destruct killed; [by left|done]. }
  destruct (loop_rule (piperead_body addr n)
    (fun j '(pj, uj) => exists bs q', j = zlen bs /\ j <= n /\ q = bs ++ q' /\ reps pj (R + zlen bs) W q' /\
       p_readopen pj = p_readopen pi /\ p_writeopen pj = p_writeopen pi /\ copyout u addr bs = (true, uj))
    (fun r '(pj, uj) => exists bs q', q = bs ++ q' /\ reps pj (R + zlen bs) W q' /\
       p_readopen pj = p_readopen pi /\ p_writeopen pj = p_writeopen pi /\
       ((r = -1 /\ bs = []) \/
        (r = zlen bs /\ (r = n \/ q' = [] \/ (copyout u addr (bs ++ take 1 q')).1 = false) /\
         (copyout u addr bs).1 = true)))
    (fun j _ => Z.to_nat (n - j))) with (fuel := (Z.to_nat n + 1)%nat) (x := 0) (s := (pi, u))
    as (r & [pi' u'] & E & bs & q' & Hq).
  - intros j [pj uj] (bs & q' & Hj & Hjn & Hqq & Hr & Ho1 & Ho2 & Hc). unfold piperead_body.
    assert (0 <= zlen bs) as Hb0 by (unfold zlen; lia).
    destruct (Z.ltb_spec j n) as [Hlt|Hge]; cbn [negb]; cycle 1.
    { eexists _, _. split; [reflexivity|]. exists bs, q'. split_and!; try done. right. rewrite Hc. split_and!; auto; lia. }
    rewrite (reps_empty _ _ _ _ Hr). destruct q' as [|c q'].
    { rewrite bool_decide_eq_true_2 by done. eexists _, _. split; [reflexivity|]. exists bs, [].
      split_and!; try done. right. rewrite Hc. auto. }
    rewrite bool_decide_eq_false_2 by done. destruct (reps_pop _ _ _ _ _ Hr) as [-> Hr'].
    pose proof (copyout_app u addr bs [c]) as Happ. rewrite Hc, <-Hj in Happ.
    destruct (copyout uj (addr + j) [c]) as [ok u2]. destruct ok; cbn [negb].
    + assert (zlen (bs ++ [c]) = zlen bs + 1) as Hz by (unfold zlen; len; cbn; lia).
      eexists (inl _), _. split; [reflexivity|]. split; [|lia]. exists (bs ++ [c]), q'. rewrite Hz.
      cbn [p_readopen p_writeopen]. rewrite <-app_assoc. split_and!; try done; try lia.
      by rewrite Z.add_assoc.
    + eexists _, _. split; [reflexivity|]. exists bs, (c :: q'). split_and!; try done.
      destruct (Z.eqb_spec j 0) as [H0|H0].
      * left. split; [done|]. unfold zlen in Hj. destruct bs; [done|cbn in Hj; lia].
      * right. split; [done|]. rewrite Hc. split; [|done]. right. right. change (take 1 (c :: q')) with [c]. by rewrite Happ.
  - exists [], q. change (zlen (@nil Z)) with 0. rewrite Z.add_0_r. split_and!; try done. apply copyout_nil.
  - lia.
  - rewrite (bind_ok _ _ _ _ _ E). eexists _, pi', u', bs, q'. split; [reflexivity|]. tauto.
Qed.

(** *** Interleavings *)

(** Every byte that was put into the pipe and every byte that was taken out,
    in order, and the pipe. *)
Record hist : Type := Hist { h_in : list Z; h_out : list Z; h_pipe : pipe }.

(** One section of some process, with its own user memory; the bytes a
    section moves are those its counter moved over. *)
Inductive pstep : hist -> hist -> Prop :=
| pstep_write h killed addr n i u e pi' u' bs :
    0 <= i <= n ->
    pipewrite killed addr n i (h_pipe h, u) = Ok (e, (pi', u')) ->
    (copyin u (addr + i) (zlen bs)).1 = (true, bs) ->
    p_nwrite pi' = u32 (p_nwrite (h_pipe h) + zlen bs) -> zlen bs <= PIPESIZE ->
    pstep h (Hist (h_in h ++ bs) (h_out h) pi')
| pstep_read h killed addr n u e pi' u' bs :
    0 <= n ->
    piperead killed addr n (h_pipe h, u) = Ok (e, (pi', u')) ->
    p_nread pi' = u32 (p_nread (h_pipe h) + zlen bs) -> zlen bs <= PIPESIZE ->
    (e = Return (zlen bs) -> (copyout u addr bs).1 = true) ->
    (forall k, 0 <= k < zlen bs ->
       getz bs k = getz (p_data (h_pipe h)) ((p_nread (h_pipe h) + k) mod PIPESIZE)) ->
    pstep h (Hist (h_in h) (h_out h ++ bs) pi')
| pstep_close h writable :
    pstep h (Hist (h_in h) (h_out h) (pipeclose (h_pipe h) writable).1).

Definition pinv (h : hist) : Prop :=
  exists q, h_in h = h_out h ++ q /\ reps (h_pipe h) (zlen (h_out h)) (zlen (h_in h)) q.

Lemma u32_shift_eq x a b : 0 <= a <= PIPESIZE -> 0 <= b <= PIPESIZE -> u32 (u32 x + a) = u32 (x + b) -> a = b.
Proof. unfold u32, PIPESIZE. intros. dlia. Qed.

Lemma pinv_step h h' : pinv h -> pstep h h' -> pinv h'.
Proof.
  intros (q & Hin & Hr) Hs. destruct Hs as [h killed addr n i u e pi' u' bs Hi E Hb Hw Hlen
    |h killed addr n u e pi' u' bs Hn E Hw Hlen _ Hget|h writable]; cbn.
  - destruct (pipewrite_run killed addr n i (h_pipe h) u _ _ _ Hr Hi)
      as (e0 & pi0 & u0 & bs0 & E0 & Hr0 & _ & _ & (ok & l & u1 & Hc & -> & ->) & _).
    rewrite E in E0. injection E0 as <- <- <-.
    assert (zlen bs = zlen bs0) as Hz.
    { destruct (rp_bounds _ _ _ _ Hr0) as (_ & _ & Hq). rewrite zlen_app in Hq.
      apply (u32_shift_eq (zlen (h_in h))); [unfold zlen in *; lia|unfold zlen in *; lia|].
      by rewrite (rp_nwrite _ _ _ _ Hr), (rp_nwrite _ _ _ _ Hr0) in Hw. }
    assert (bs = bs0) as -> by (rewrite Hz, Hc in Hb; by injection Hb).
    exists (q ++ bs0). cbn. rewrite Hin, app_assoc. split; [done|]. rewrite <-Hin, zlen_app. done.
  - destruct (piperead_run killed addr n (h_pipe h) u _ _ _ Hr Hn)
      as (e0 & pi0 & u0 & bs0 & q' & E0 & Hq & Hr0 & _).
    rewrite E in E0. injection E0 as <- <- <-.
    destruct (rp_bounds _ _ _ _ Hr) as (HR & _ & Hql). rewrite Hq, zlen_app in Hql.
    assert (0 <= zlen q' /\ 0 <= zlen bs /\ 0 <= zlen bs0) as (? & ? & ?) by (unfold zlen; lia).
    assert (zlen bs = zlen bs0) as Hz.
    { apply (u32_shift_eq (zlen (h_out h))); [lia|lia|].
      by rewrite (rp_nread _ _ _ _ Hr), (rp_nread _ _ _ _ Hr0) in Hw. }
    assert (bs = bs0) as ->.
    { apply list_eq. intros k. destruct (decide (k < length bs)%nat) as [Hk|Hk].
      - pose proof (Hget (Z.of_nat k) ltac:(unfold zlen; lia)) as Hg.
        rewrite (rp_nread _ _ _ _ Hr) in Hg.
        assert ((u32 (zlen (h_out h)) + Z.of_nat k) mod PIPESIZE = (zlen (h_out h) + Z.of_nat k) mod PIPESIZE) as Em
          by (unfold u32, PIPESIZE; dlia).
        rewrite Em, (rp_data _ _ _ _ Hr) in Hg by (rewrite Hq, zlen_app; unfold zlen in *; lia).
        rewrite Hq in Hg. unfold getz in Hg. rewrite Nat2Z.id, lookup_app_l in Hg by (unfold zlen in *; lia).
        destruct (lookup_lt_is_Some_2 bs k) as [x Hx]; [done|].
        destruct (lookup_lt_is_Some_2 bs0 k) as [y Hy]; [unfold zlen in *; lia|]. rewrite Hx, Hy in *. cbn in Hg. congruence.
      - rewrite !lookup_ge_None_2; [done| |]; unfold zlen in *; lia. }
    exists q'. cbn. rewrite Hin, Hq, app_assoc. split; [done|]. rewrite zlen_app.
    replace (zlen ((h_out h ++ bs0) ++ q')) with (zlen (h_in h)) by (by rewrite Hin, Hq, app_assoc). done.
  - exists q. split; [done|]. destruct Hr. by destruct writable; constructor.
Qed.


(** What one call's section promises: pipewrite stops early only at a user
    memory fault, when the reader is gone, or when the process is killed, and
    sleeps only on a full pipe, having appended exactly the bytes it counts;
    piperead sleeps only on an empty pipe with an open write end, and otherwise
    removes and delivers a prefix of the queue, all of it if asked for enough. *)
Theorem pipe_sections pi (u : U) R W q killed addr n i
    (Hrep : reps pi R W q) (Hi : 0 <= i <= n) :
  (exists e pi' u' bs, pipewrite killed addr n i (pi, u) = Ok (e, (pi', u')) /\
    reps pi' R (W + zlen bs) (q ++ bs) /\
    p_readopen pi' = p_readopen pi /\ p_writeopen pi' = p_writeopen pi /\
    (exists ok l u1, copyin u (addr + i) (zlen bs) = (ok, l, u1) /\ l = bs /\ ok = true) /\
    match e with
    | Sleeps j => j = i + zlen bs /\ j < n /\ zlen (q ++ bs) = PIPESIZE
    | Return r => (r = -1 /\ bs = [] /\ (p_readopen pi = false \/ killed = true)) \/
                  (r = i + zlen bs /\ (r = n \/ (copyin u (addr + i) (zlen bs + 1)).1.1 = false))
    end) /\
  (exists e pi' u' bs q', piperead killed addr n (pi, u) = Ok (e, (pi', u')) /\
    q = bs ++ q' /\ reps pi' (R + zlen bs) W q' /\
    p_readopen pi' = p_readopen pi /\ p_writeopen pi' = p_writeopen pi /\
    match e with
    | Sleeps _ => q = [] /\ p_writeopen pi = true /\ killed = false /\ pi' = pi /\ bs = []
    | Return r =>
        (r = -1 /\ bs = []) \/
        (r = zlen bs /\ (r = n \/ q' = [] \/ (copyout u addr (bs ++ take 1 q')).1 = false) /\
         (copyout u addr bs).1 = true)
    end).
Proof. split; [by apply pipewrite_run|apply piperead_run; [done|lia]]. Qed.
End Ops.

Definition wit_pmem : flat := Flat (fun a => a mod 256) 4096.

Lemma wit_reps : reps (pipe_init (replicate 512 5)) 0 0 [].
Proof. constructor; try done. intros k Hk. unfold zlen in Hk. cbn in Hk. lia. Qed.

Lemma pipe_sections_witness :
  exists pi' u', pipewrite false 10 3 0 (pipe_init (replicate 512 5), wit_pmem) = Ok (Return 3, (pi', u')) /\
    reps pi' 0 3 [10; 11; 12].
Proof.
  destruct (pipe_sections (pipe_init (replicate 512 5)) wit_pmem 0 0 [] false 10 3 0 wit_reps ltac:(lia))
    as [(e & pi' & u' & bs & E & Hr & _ & _ & (ok & l & u1 & Hc & -> & ->) & He) _].
  assert (match pipewrite false 10 3 0 (pipe_init (replicate 512 5), wit_pmem) with
          | Ok (Return r, _) => r | _ => -2 end = 3) as Ev by (vm_compute; reflexivity).
  rewrite E in Ev. destruct e as [r|j]; [|done]. subst r.
  destruct He as [[? _]|[Hz _]]; [done|]. rewrite Z.add_0_l in Hz. rewrite <-Hz in Hc, Hr.
  exists pi', u'. split; [exact E|].
  assert (bs = [10; 11; 12]) as <- by (vm_compute in Hc; by injection Hc as <-). exact Hr.
Defined.

