(* ===== verification/Console.v ===== *)
(** Console: kernel/console.c, the line discipline between the UART's input
    interrupts and read()s of the console.

    Like pipes, consoleread runs in sections between sleeps; consoleintr is
    called for each input character.  The output is the list of characters
    passed to the HAL. *)

From S2P Require Import Prelude Umem.

Definition INPUT_BUF_SIZE : Z := 128.
Definition BACKSPACE : Z := 256.

(** Control-x. *)
Definition C (x : Z) : Z := x - 64.
Definition ctrl_P : Z := C 80.
Definition ctrl_U : Z := C 85.
Definition ctrl_H : Z := C 72.
Definition ctrl_D : Z := C 68.

Record cons : Type := Cons {
  c_buf : list Z; c_r : Z; c_w : Z; c_e : Z; c_echo : list Z
}.

Definition consputc (ch : Z) (s : cons) : cons :=
  Cons (c_buf s) (c_r s) (c_w s) (c_e s)
       (c_echo s ++ (if ch =? BACKSPACE then [8; 32; 8] else [ch])).

Definition dec_e (s : cons) : cons := Cons (c_buf s) (c_r s) (c_w s) (u32 (c_e s - 1)) (c_echo s).

(** The loop of kill line. *)
Definition kill_body (_ : unit) : M cons (unit + unit) :=
  fun s =>
    if negb (c_e s =? c_w s) &&
       negb (getz (c_buf s) (u32 (c_e s - 1) mod INPUT_BUF_SIZE) =? 10)
    then Ok (inl tt, consputc BACKSPACE (dec_e s))
    else Ok (inr tt, s).

(** The default case: store the character if there is room. *)
Definition store_char (ch : Z) (s : cons) : cons :=
  if negb (ch =? 0) && (u32 (c_e s - c_r s) <? INPUT_BUF_SIZE)
  then
    let ch := if ch =? 13 then 10 else ch in
    let s1 := consputc ch s in
    let e' := u32 (c_e s1 + 1) in
    let s2 := Cons (putz (c_buf s1) (c_e s1 mod INPUT_BUF_SIZE) ch) (c_r s1) (c_w s1) e' (c_echo s1) in
    if (ch =? 10) || (ch =? ctrl_D) || (u32 (e' - c_r s2) =? INPUT_BUF_SIZE)
    then Cons (c_buf s2) (c_r s2) e' e' (c_echo s2)
    else s2
  else s.

Definition consoleintr (ch : Z) : M cons unit :=
  fun s =>
    if ch =? ctrl_P then Ok (tt, s)
    else if ch =? ctrl_U then loop (Z.to_nat INPUT_BUF_SIZE + 1) kill_body tt s
    else if (ch =? ctrl_H) || (ch =? 127)
    then Ok (tt, if negb (c_e s =? c_w s) then consputc BACKSPACE (dec_e s) else s)
    else Ok (tt, store_char ch s).

Inductive read_end : Type := Return (r : Z) | Sleeps (n : Z).

Section Read.
  Context {U : Type} `{UserMem U}.

Definition set_r (r : Z) (s : cons) : cons := Cons (c_buf s) r (c_w s) (c_e s) (c_echo s).

(** One iteration of consoleread's loop; the local is the number of bytes
    still wanted. *)
Definition consoleread_body (killed : bool) (dst target : Z) (n : Z) :
  M (cons * U) (Z + read_end) :=
  fun '(s, u) =>
    if negb (n >? 0) then Ok (inr (Return (target - n)), (s, u))
    else if c_r s =? c_w s
    then Ok (inr (if killed then Return (-1) else Sleeps n), (s, u))
    else
      let ch := getz (c_buf s) (c_r s mod INPUT_BUF_SIZE) in
      let s1 := set_r (u32 (c_r s + 1)) s in
      if ch =? ctrl_D
      then Ok (inr (Return (target - n)), (if n <? target then set_r (c_r s) s1 else s1, u))
      else
        let '(ok, u') := copyout u (dst + (target - n)) [ch] in
        if negb ok then Ok (inr (Return (target - n)), (s1, u'))
        else if ch =? 10 then Ok (inr (Return (target - (n - 1))), (s1, u'))
        else Ok (inl (n - 1), (s1, u')).

(** consoleread from [n] of [target] bytes still wanted to return or sleep. *)
Definition consoleread (killed : bool) (dst target n : Z) : M (cons * U) read_end :=
  loop (Z.to_nat n + 1) (consoleread_body killed dst target) n.

(** consolewrite: the bytes handed to hal_console_write. *)
Definition consolewrite_body (src : source) (n : Z) (i : Z) : M (list Z * U) (Z + Z) :=
  fun '(out, u) =>
    if negb (i <? n) then Ok (inr i, (out, u))
    else
      let nn := if 32 >? n - i then n - i else 32 in
      let '(ok, bytes, u') := either_copyin src i nn u in
      if negb ok then Ok (inr i, (out, u'))
      else Ok (inl (i + nn), (out ++ bytes, u')).

Definition consolewrite (src : source) (n : Z) : M (list Z * U) Z :=
  loop (Z.to_nat n + 1) (consolewrite_body src n) 0.
End Read.

(** *** The abstract line editor *)

(** [q] has been committed for reading, [l] is the line being edited. *)
Record layout (s : cons) (q l : list Z) : Prop := Layout {
  rp_len : zlen (c_buf s) = INPUT_BUF_SIZE;
  rp_size : zlen q + zlen l <= INPUT_BUF_SIZE;
  rp_r : 0 <= c_r s < 2 ^ 32;
  rp_w : c_w s = u32 (c_r s + zlen q);
  rp_e : c_e s = u32 (c_r s + zlen q + zlen l);
  rp_data : forall k, 0 <= k < zlen (q ++ l) -> getz (c_buf s) ((c_r s + k) mod INPUT_BUF_SIZE) = getz (q ++ l) k
}.

(** The line being edited holds no line end. *)
Definition no_eol (l : list Z) : Prop := Forall (fun c => c <> 10 /\ c <> ctrl_D) l.
Definition reps (s : cons) (q l : list Z) : Prop := layout s q l /\ no_eol l.

Definition cons_init : cons := Cons (replicate 128 0) 0 0 0 [].

(** What an input character does to the committed input and the line. *)
Definition edit (ch : Z) (q l : list Z) : list Z * list Z :=
  if ch =? ctrl_P then (q, l)
  else if ch =? ctrl_U then (q, [])
  else if (ch =? ctrl_H) || (ch =? 127) then (q, take (length l - 1) l)
  else if (ch =? 0) || (zlen q + zlen l >=? INPUT_BUF_SIZE) then (q, l)
  else
    let c := if ch =? 13 then 10 else ch in
    let l' := l ++ [c] in
    if (c =? 10) || (c =? ctrl_D) || (zlen q + zlen l' =? INPUT_BUF_SIZE) then (q ++ l', []) else (q, l').

(** What a read of at most [n] bytes takes from the committed input: up to
    and including a newline, stopping before an end-of-file mark. *)
Fixpoint line_of (n : nat) (q : list Z) : list Z :=
  match n, q with
  | S n', c :: q' => if c =? ctrl_D then [] else if c =? 10 then [c] else c :: line_of n' q'
  | _, _ => []
  end.

Ltac consz := unfold u32, INPUT_BUF_SIZE, zlen in *.

Lemma u32_mod_buf x : u32 x mod INPUT_BUF_SIZE = x mod INPUT_BUF_SIZE.
Proof. unfold u32, INPUT_BUF_SIZE. dlia. Qed.

Lemma reps_ew s q l : reps s q l -> (c_e s =? c_w s) = bool_decide (l = []).
Proof.
  intros [[_ Hs Hr -> -> _] _]. destruct l as [|c l].
  - rewrite bool_decide_eq_true_2 by done. unfold zlen. cbn. rewrite Z.add_0_r. lia.
  - rewrite bool_decide_eq_false_2 by done. consz. cbn [length] in *. dlia.
Qed.

Lemma reps_room s q l : reps s q l -> u32 (c_e s - c_r s) = zlen q + zlen l.
Proof. intros [[_ Hs Hr _ -> _] _]. consz. dlia. Qed.

Lemma zlen_snoc (l : list Z) c : zlen (l ++ [c]) = zlen l + 1.
Proof. unfold zlen. len. Qed.

(** The characters echoed do not matter to the representation. *)
Lemma reps_echo s q l out : reps s q l -> reps (Cons (c_buf s) (c_r s) (c_w s) (c_e s) out) q l.
Proof. intros [[] ?]. split; [by constructor|done]. Qed.

Lemma reps_erase s q l c : reps s q (l ++ [c]) -> reps (dec_e s) q l.
Proof.
  intros [[H1 H2 H3 H4 H5 H6] H7]. rewrite zlen_snoc in *.
  assert (0 <= zlen q /\ 0 <= zlen l) as [? ?] by (unfold zlen; lia).
  split; [|by apply Forall_app in H7 as [? _]]. constructor; cbn; try done; try lia.
  - rewrite H5. consz. dlia.
  - intros k Hk. rewrite H6 by (rewrite app_assoc, zlen_snoc; lia).
    rewrite app_assoc. unfold getz. rewrite (lookup_app_l (q ++ l) [c]); [done|]. unfold zlen in Hk. lia.
Qed.

Lemma reps_last s q l c :
  reps s q (l ++ [c]) -> getz (c_buf s) (u32 (c_e s - 1) mod INPUT_BUF_SIZE) = c /\ c <> 10.
Proof.
  intros [[H1 H2 H3 H4 H5 H6] H7]. rewrite zlen_snoc in *.
  assert (0 <= zlen q /\ 0 <= zlen l) as [? ?] by (unfold zlen; lia). split.
  - specialize (H6 (zlen q + zlen l)). rewrite app_assoc, zlen_snoc, zlen_app in H6.
    rewrite H5. replace (u32 (u32 (c_r s + zlen q + (zlen l + 1)) - 1) mod INPUT_BUF_SIZE)
      with ((c_r s + (zlen q + zlen l)) mod INPUT_BUF_SIZE) by (consz; dlia).
    rewrite H6 by lia. unfold getz. replace (Z.to_nat (zlen q + zlen l)) with (length (q ++ l)) by (unfold zlen; len).
    rewrite lookup_app_r by lia. by rewrite Nat.sub_diag.
  - apply Forall_app in H7 as [_ H7]. by apply Forall_singleton in H7 as [? _].
Qed.

Lemma layout_store s q l c out :
  layout s q l -> zlen q + zlen l < INPUT_BUF_SIZE ->
  layout (Cons (putz (c_buf s) (c_e s mod INPUT_BUF_SIZE) c) (c_r s) (c_w s) (u32 (c_e s + 1)) out) q (l ++ [c]).
Proof.
  intros [H1 H2 H3 H4 H5 H6] Hlt.
  assert (0 <= zlen q /\ 0 <= zlen l) as [? ?] by (unfold zlen; lia).
  constructor; cbn; try done.
  - by rewrite zlen_putz.
  - rewrite zlen_snoc. lia.
  - rewrite zlen_snoc, H5. consz. dlia.
  - intros k Hk. rewrite app_assoc, zlen_snoc, zlen_app in Hk. rewrite H5, u32_mod_buf, app_assoc.
    destruct (decide (k = zlen q + zlen l)) as [->|Hne].
    + replace ((c_r s + (zlen q + zlen l)) mod INPUT_BUF_SIZE)
        with ((c_r s + zlen q + zlen l) mod INPUT_BUF_SIZE) by (f_equal; lia).
      rewrite getz_putz_eq by (rewrite H1; unfold INPUT_BUF_SIZE; dlia).
      unfold getz. replace (Z.to_nat (zlen q + zlen l)) with (length (q ++ l)) by (unfold zlen; len).
      rewrite lookup_app_r by lia. by rewrite Nat.sub_diag.
    + rewrite getz_putz_ne by (unfold INPUT_BUF_SIZE in *; dlia).
      rewrite H6 by (rewrite zlen_app; lia). unfold getz.
      rewrite (lookup_app_l (q ++ l) [c]); [done|]. unfold zlen in *. len.
Qed.

(** Committing the line makes it readable; nothing moves. *)
Lemma layout_commit s q l :
  layout s q l -> reps (Cons (c_buf s) (c_r s) (c_e s) (c_e s) (c_echo s)) (q ++ l) [].
Proof.
  intros [H1 H2 H3 H4 H5 H6]. split; [|by apply Forall_nil]. constructor; cbn; try done.
  - rewrite zlen_app. change (zlen (@nil Z)) with 0. lia.
  - rewrite H5, zlen_app. f_equal. lia.
  - rewrite H5, zlen_app. change (zlen (@nil Z)) with 0. f_equal. lia.
  - by rewrite app_nil_r.
Qed.

(** Kill line erases the whole line. *)
Lemma kill_line s q l :
  reps s q l -> exists s', loop (Z.to_nat INPUT_BUF_SIZE + 1) kill_body tt s = Ok (tt, s') /\ reps s' q [].
Proof.
  intros Hr.
  destruct (loop_rule kill_body (fun _ t => exists l', reps t q l') (fun _ t => reps t q [])
    (fun _ t => Z.to_nat (u32 (c_e t - c_w t)))) with (fuel := (Z.to_nat INPUT_BUF_SIZE + 1)%nat) (x := tt) (s := s)
    as ([] & s' & E & Hq).
  - intros [] t (l' & Ht). unfold kill_body. rewrite (reps_ew _ _ _ Ht).
    destruct l' as [|c l'] using rev_ind.
    { rewrite bool_decide_eq_true_2 by done. eexists _, _. split; [reflexivity|]. done. }
    rewrite bool_decide_eq_false_2 by (by destruct l'). destruct (reps_last _ _ _ _ Ht) as [-> Hc].
    rewrite (proj2 (Z.eqb_neq c 10)) by done. cbn [negb andb].
    eexists (inl tt), _. split; [reflexivity|]. split.
    + exists l'. apply reps_echo. by apply reps_erase in Ht.
    + destruct Ht as [[_ Hs Hr' Hw He _] _]. cbn. rewrite Hw, He, zlen_snoc in *.
      assert (0 <= zlen q /\ 0 <= zlen l') as [? ?] by (unfold zlen; lia). consz. dlia.
  - by exists l.
  - destruct Hr as [[_ Hs Hr' Hw He _] _]. rewrite Hw, He.
    assert (0 <= zlen q /\ 0 <= zlen l) as [? ?] by (unfold zlen; lia). consz. dlia.
  - eauto.
Qed.

Lemma store_char_run s q l ch :
  reps s q l -> 
  (ch =? ctrl_P) = false -> (ch =? ctrl_U) = false -> (ch =? ctrl_H) || (ch =? 127) = false ->
  let '(q', l') := edit ch q l in reps (store_char ch s) q' l'.
Proof.
  intros Hr E1 E2 E3. unfold edit, store_char. rewrite E1, E2, E3, (reps_room _ _ _ Hr).
  destruct (ch =? 0); [done|]. cbn [negb andb orb].
  destruct (Z.ltb_spec (zlen q + zlen l) INPUT_BUF_SIZE) as [Hlt|Hge]; cycle 1.
  { by assert ((zlen q + zlen l >=? INPUT_BUF_SIZE) = true) as -> by lia. }
  assert ((zlen q + zlen l >=? INPUT_BUF_SIZE) = false) as -> by lia.
  set (c := if ch =? 13 then 10 else ch). cbv zeta. unfold consputc. cbn [c_buf c_r c_w c_e c_echo].
  set (out := c_echo s ++ _). destruct Hr as [Hl Hn].
  pose proof (layout_store s q l c out Hl Hlt) as Hl'.
  assert (u32 (u32 (c_e s + 1) - c_r s) = zlen q + zlen (l ++ [c])) as ->.
  { destruct Hl' as [_ Hs Hr' _ He _]. cbn in *. rewrite He. consz. dlia. }
  destruct ((c =? 10) || (c =? ctrl_D) || _) eqn:Ec.
  - exact (layout_commit _ _ _ Hl').
  - split; [done|]. apply Forall_app. split; [done|]. apply Forall_singleton. lia.
Qed.

(** C29: Line editing: whatever the state of the console buffer, each input
    character has the effect it has on the abstract editor (erase, kill line,
    carriage return as newline, commit of the line at newline, control-D or a
    full buffer, refusal when the buffer is full), for any values of the
    wrapping 32-bit indices; kill line terminates. *)
Theorem consoleintr_edits s q l ch (Hr : reps s q l) :
  exists s', consoleintr ch s = Ok (tt, s') /\ reps s' (edit ch q l).1 (edit ch q l).2.
Proof.
  unfold consoleintr. destruct (ch =? ctrl_P) eqn:E1.
  { exists s. unfold edit. by rewrite E1. }
  destruct (ch =? ctrl_U) eqn:E2.
  { destruct (kill_line s q l Hr) as (s' & E & Hq). exists s'. unfold edit. by rewrite E1, E2. }
  destruct ((ch =? ctrl_H) || (ch =? 127)) eqn:E3.
  - eexists. split; [reflexivity|]. unfold edit. rewrite E1, E2, E3, (reps_ew _ _ _ Hr). cbn [fst snd].
    destruct l as [|c l _] using rev_ind.
    + by rewrite bool_decide_eq_true_2.
    + rewrite bool_decide_eq_false_2 by (by destruct l). apply reps_erase in Hr.
      rewrite length_app. cbn [length]. replace (length l + 1 - 1)%nat with (length l) by lia.
      rewrite take_app_length. by apply reps_echo.
  - eexists. split; [reflexivity|]. pose proof (store_char_run s q l ch Hr E1 E2 E3) as Hs.
    by destruct (edit ch q l).
Qed.

Lemma consoleintr_edits_witness :
  exists s', consoleintr 13 cons_init = Ok (tt, s') /\ reps s' [10] [].
Proof.
  apply (consoleintr_edits cons_init [] [] 13). split; [|by apply Forall_nil].
  constructor; try done. intros k Hk. unfold zlen in Hk. cbn in Hk. lia.
Defined.

(** *** Reading *)

Lemma reps_head s c q l :
  reps s (c :: q) l ->
  (c_r s =? c_w s) = false /\ getz (c_buf s) (c_r s mod INPUT_BUF_SIZE) = c /\
  reps (set_r (u32 (c_r s + 1)) s) q l.
Proof.
  intros [[H1 H2 H3 H4 H5 H6] H7].
  assert (zlen (c :: q) = zlen q + 1) as Hz by (unfold zlen; cbn [length]; lia).
  assert (zlen ((c :: q) ++ l) = zlen q + zlen l + 1) as Hz' by (rewrite zlen_app; lia).
  assert (0 <= zlen q /\ 0 <= zlen l) as [? ?] by (unfold zlen; lia). split_and!.
  - rewrite H4, Hz. consz. dlia.
  - specialize (H6 0 ltac:(lia)). by rewrite Z.add_0_r in H6.
  - split; [|done]. constructor; cbn; try done; try lia.
    + apply u32_range.
    + rewrite H4, Hz. consz. dlia.
    + rewrite H5, Hz. consz. dlia.
    + intros k Hk. rewrite zlen_app in Hk. specialize (H6 (k + 1) ltac:(lia)).
      replace ((u32 (c_r s + 1) + k) mod INPUT_BUF_SIZE) with ((c_r s + (k + 1)) mod INPUT_BUF_SIZE)
        by (consz; dlia).
      rewrite H6. unfold getz. by replace (Z.to_nat (k + 1)) with (S (Z.to_nat k)) by lia.
Qed.

Lemma cons_reps_empty s l : reps s [] l -> (c_r s =? c_w s) = true.
Proof. intros [[_ _ H3 H4 _ _] _]. rewrite H4. consz. cbn. dlia. Qed.

Section ReadSpec.
  Context {U : Type} `{UserMem U, !UserMemOk U}.

(** A console read returns one line: with committed input [q] and no fault
    in user memory, a read of up to [n] bytes delivers the longest prefix of [q]
    that ends at the first newline, before the first control-D, or at [n] bytes,
    and removes it (a control-D that ends a non-empty read stays for the next
    read, which then returns 0); it sleeps only when the committed input runs
    out first. *)
Theorem consoleread_line s (u : U) q l dst n
    (Hr : reps s q l) (Hn : 0 <= n)
    (Hu : forall bs, bs `prefix_of` q -> (copyout u dst bs).1 = true) :
  let out := line_of (Z.to_nat n) q in
  exists e s' u' q', consoleread false dst n n (s, u) = Ok (e, (s', u')) /\ reps s' q' l /\
    copyout u dst out = (true, u') /\
    match e with
    | Return r => r = zlen out /\
        (q = out ++ q' \/ (out = [] /\ q = ctrl_D :: q')) /\
        (q' = [] -> out = [] -> n = 0 \/ q = [ctrl_D])
    | Sleeps k => q = out /\ q' = [] /\ k = n - zlen out /\ 0 < k /\ Forall (fun c => c <> 10) out
    end.
Proof.
  cbv zeta. unfold consoleread.
  destruct (loop_rule (consoleread_body false dst n)
    (fun k '(t, v) => exists bs q1, 0 <= k <= n /\ k = n - zlen bs /\ q = bs ++ q1 /\ reps t q1 l /\
       copyout u dst bs = (true, v) /\ Forall (fun c => c <> 10) bs /\
       line_of (Z.to_nat n) q = bs ++ line_of (Z.to_nat k) q1)
    (fun e '(t, v) => exists q', reps t q' l /\ copyout u dst (line_of (Z.to_nat n) q) = (true, v) /\
       match e with
       | Return r => r = zlen (line_of (Z.to_nat n) q) /\
           (q = line_of (Z.to_nat n) q ++ q' \/ (line_of (Z.to_nat n) q = [] /\ q = ctrl_D :: q')) /\
           (q' = [] -> line_of (Z.to_nat n) q = [] -> n = 0 \/ q = [ctrl_D])
       | Sleeps k => q = line_of (Z.to_nat n) q /\ q' = [] /\ k = n - zlen (line_of (Z.to_nat n) q) /\ 0 < k /\
           Forall (fun c => c <> 10) (line_of (Z.to_nat n) q)
       end)
    (fun k _ => Z.to_nat k)) with (fuel := (Z.to_nat n + 1)%nat) (x := n) (s := (s, u))
    as (e & [s' u'] & E & q' & Hq).
  - intros k [t v] (bs & q1 & Hk & Ek & Eq & Ht & Hc & Hnl & El). unfold consoleread_body.
    assert (0 <= zlen bs) as Hb0 by (unfold zlen; lia). rewrite El.
    destruct (Z.gtb_spec k 0) as [Hgt|Hle]; cbn [negb]; cycle 1.
    { assert (k = 0) as -> by lia. cbn [Z.to_nat line_of]. rewrite app_nil_r.
      eexists _, _. split; [reflexivity|]. exists q1. split_and!; try done; auto; try lia.
      intros _ ->. left. unfold zlen in Ek. cbn in Ek. lia. }
    replace (Z.to_nat k) with (S (Z.to_nat (k - 1))) by lia.
    destruct q1 as [|c q1].
    { rewrite (cons_reps_empty _ _ Ht). cbn [line_of]. rewrite app_nil_r in *. eexists _, _. split; [reflexivity|].
      exists []. split_and!; try done. }
    destruct (reps_head _ _ _ _ Ht) as (-> & -> & Ht'). cbn [line_of].
    destruct (Z.eqb_spec c ctrl_D) as [->|HnD].
    { rewrite app_nil_r. destruct (Z.ltb_spec k n) as [Hkn|Hkn].
      - eexists _, _. split; [reflexivity|]. exists (ctrl_D :: q1).
        assert (set_r (c_r t) (set_r (u32 (c_r t + 1)) t) = t) as -> by (by destruct t).
        split_and!; try done; auto. lia.
      - assert (bs = []) as -> by (unfold zlen in *; destruct bs; [done|cbn [length] in *; lia]).
        eexists _, _. split; [reflexivity|]. exists q1. split_and!; try done; auto; [lia|].
        intros ->. by right. }
    pose proof (copyout_app u dst bs [c]) as Happ. rewrite Hc in Happ.
    replace (dst + zlen bs) with (dst + (n - k)) in Happ by lia.
    assert ((copyout u dst (bs ++ [c])).1 = true) as Hok
      by (apply Hu; rewrite Eq; exists q1; by rewrite <-app_assoc).
    rewrite Happ in Hok.
    destruct (copyout v (dst + (n - k)) [c]) as [ok v'] eqn:Ev. cbn [fst] in Hok. subst ok.
    cbn [negb]. destruct (Z.eqb_spec c 10) as [->|Hn10].
    + eexists _, _. split; [reflexivity|]. exists q1.
      split_and!; try done; [rewrite zlen_snoc; lia| |by destruct bs].
      left. by rewrite Eq, <-app_assoc.
    + eexists (inl _), _. split; [reflexivity|]. split; [|lia].
      exists (bs ++ [c]), q1. rewrite zlen_snoc. rewrite <-!app_assoc. split_and!; try done; try lia.
      apply Forall_app. split; [done|]. by apply Forall_singleton.
  - exists [], q. change (zlen (@nil Z)) with 0. split_and!; try done; try lia; [apply copyout_nil].
  - lia.
  - exists e, s', u', q'. split; [done|]. tauto.
Qed.
End ReadSpec.

Definition wit_cmem : flat := Flat (fun _ => 0) 100.

Lemma consoleread_line_witness :
  exists s' u', consoleread false 0 5 5 (Cons ([104; 105; 10] ++ replicate 125 0) 0 3 3 [], wit_cmem)
    = Ok (Return 3, (s', u')).
Proof.
  destruct (consoleread_line (Cons ([104; 105; 10] ++ replicate 125 0) 0 3 3 []) wit_cmem [104; 105; 10] [] 0 5)
    as (e & s' & u' & q' & E & _ & _ & He).
  - split; [|by apply Forall_nil]. constructor; try done. intros k Hk. unfold zlen in Hk. cbn in Hk.
    assert (k = 0 \/ k = 1 \/ k = 2) as [-> | [-> | ->]] by lia; reflexivity.
  - lia.
  - intros bs [r Hb]. destruct bs as [|a [|b [|c [|d bs]]]]; try reflexivity.
    + cbn in Hb. injection Hb as _ _ _ Hb. by destruct bs.
  - destruct e as [r|k].
    + destruct He as (-> & _). exists s', u'. exact E.
    + destruct He as (_ & _ & -> & _). exfalso. revert E. vm_compute. congruence.
Defined.
