(* ===== verification/FatNames.v ===== *)
(** FatNames: the name handling of kernel/fat32.c: 8.3 short names, VFAT long
    names, and the directory entries that carry them. *)

From S2P Require Import Prelude CString.

Definition is_lower (c : Z) : bool := (97 <=? c) && (c <=? 122).
Definition is_upper (c : Z) : bool := (65 <=? c) && (c <=? 90).
Definition upc (c : Z) : Z := if is_lower c then c - 32 else c.
Definition lowc (c : Z) : Z := if is_upper c then c + 32 else c.

(** *** Short names *)

(** name83's first loop: at most [n] characters up to the end or a dot. *)
Fixpoint copy_base (n : nat) (s : list Z) : list Z :=
  match n, s with
  | S n', c :: s' => if (c =? 0) || (c =? 46) then [] else upc c :: copy_base n' s'
  | _, _ => []
  end.

(** What follows the first dot. *)
Fixpoint find_ext (s : list Z) : list Z :=
  match s with
  | [] => []
  | c :: s' => if c =? 0 then [] else if c =? 46 then s' else find_ext s'
  end.

Fixpoint copy_ext (n : nat) (s : list Z) : list Z :=
  match n, s with
  | S n', c :: s' => if c =? 0 then [] else upc c :: copy_ext n' s'
  | _, _ => []
  end.

Definition pad (n : nat) (l : list Z) : list Z := l ++ replicate (n - length l) 32.

Definition name83 (s : list Z) : list Z :=
  pad 8 (copy_base 8 s) ++ pad 3 (copy_ext 3 (find_ext s)).

(** memcmp of two arrays of the same length. *)
Fixpoint memcmp_bytes (a b : list Z) : Z :=
  match a, b with
  | x :: a', y :: b' => if x =? y then memcmp_bytes a' b' else x - y
  | _, _ => 0
  end.

Definition ncmp (s n : list Z) : Z := memcmp_bytes (name83 s) n.

Fixpoint ncasecmp (a b : list Z) (maxlen : nat) : Z :=
  match maxlen with
  | O => 0
  | S m =>
      let ca := lowc (hd 0 a) in
      let cb := lowc (hd 0 b) in
      if negb (ca =? cb) then u8 ca - u8 cb
      else if ca =? 0 then 0
      else ncasecmp (tl a) (tl b) m
  end.

Fixpoint lfn_checksum_from (sum : Z) (sn : list Z) : Z :=
  match sn with
  | [] => sum
  | c :: sn' => lfn_checksum_from (u8 (Z.shiftl (Z.land sum 1) 7 + Z.shiftr sum 1 + c)) sn'
  end.

Definition lfn_checksum (sn : list Z) : Z := lfn_checksum_from 0 (take 11 sn).

Definition LFN_CHARS_PER_ENTRY : Z := 13.

Definition lfn_entries_needed (namelen : Z) : Z :=
  if namelen =? 0 then 0 else (namelen + LFN_CHARS_PER_ENTRY - 1) / LFN_CHARS_PER_ENTRY.

(** fits_83's loops over the short name: characters up to a space, in lower
    case. *)
Fixpoint unpad (l : list Z) : list Z :=
  match l with
  | [] => []
  | c :: l' => if c =? 32 then [] else lowc c :: unpad l'
  end.

Definition rebuilt (sn : list Z) : list Z :=
  unpad (take 8 sn) ++
  (if getz sn 8 =? 32 then [] else 46 :: unpad (drop 8 sn)).

(** The comparison loop: name[i] against rebuilt[i], whose terminator stops it. *)
Fixpoint same_lower (name r : list Z) : bool :=
  match name with
  | [] => true
  | c :: name' => (lowc c =? hd 0 r) && same_lower name' (tl r)
  end.

Definition fits_83 (name : list Z) : bool :=
  if strlen name =? 0 then false
  else same_lower (cstr name) (rebuilt (name83 name)).

Definition is_digit (c : Z) : bool := (48 <=? c) && (c <=? 57).

(** Up to six letters and digits of the name, in upper case. *)
Fixpoint collect6 (n : nat) (s : list Z) : list Z :=
  match s with
  | [] => []
  | c :: s' =>
      match n with
      | O => []
      | S n' =>
          if c =? 0 then []
          else if is_upper (upc c) || is_digit (upc c) then upc c :: collect6 n' s'
          else collect6 n s'
      end
  end.

Definition gen_short_name (name : list Z) (tail : Z) : list Z :=
  let t := collect6 6 name in
  let tmp := t ++ replicate (6 - length t) 95 in
  let ti := if tail >=? 100 then 99 else tail in
  if ti >=? 10
  then tmp ++ [126; 48 + ti / 10; 48 + ti mod 10] ++ replicate 2 32
  else tmp ++ [126; 48 + ti] ++ replicate 3 32.

(** *** Directory entries (32 bytes) *)

Definition ATTR_LONG_NAME : Z := 15.
Definition ATTR_DIRECTORY : Z := 16.
Definition ATTR_ARCHIVE : Z := 32.
Definition LFN_LAST : Z := 64.

Definition DIR_Name (d : list Z) : list Z := slice d 0 11.
Definition DIR_Attr (d : list Z) : Z := getz d 11.
Definition DIR_FstClus (d : list Z) : Z := Z.lor (Z.shiftl (rd16 d 20) 16) (rd16 d 26).
Definition DIR_FileSize (d : list Z) : Z := rd32 d 28.

(** The 13 UTF-16 characters of a long-name entry: name1, name2, name3. *)
Definition lfn_char_off (i : Z) : Z :=
  if i <? 5 then 1 + 2 * i else if i <? 11 then 14 + 2 * (i - 5) else 28 + 2 * (i - 11).
Definition lfn_char (d : list Z) (i : Z) : Z := rd16 d (lfn_char_off i).

(** dwrite_lfn's uname: the name, a terminator, and 0xFFFF up to [total]. *)
Definition uname (name : list Z) (total : Z) : list Z :=
  let u := (u8 <$> take (Z.to_nat total) (cstr name)) ++ [0] in
  u ++ replicate (Z.to_nat total - length u) 65535.

Fixpoint put_chars (d : list Z) (u : list Z) (base i : Z) (n : nat) : list Z :=
  match n with
  | O => d
  | S n' => put_chars (wr16 d (lfn_char_off i) (getz u (base + i))) u base (i + 1) n'
  end.

(** The long-name entry number [ei] (from 0) of [cnt]. *)
Definition lfn_entry (u : list Z) (cnt ei cksum : Z) : list Z :=
  let seq := if ei =? cnt - 1 then Z.lor (u8 (ei + 1)) LFN_LAST else u8 (ei + 1) in
  put_chars (putz (putz (putz (replicate 32 0) 0 seq) 11 ATTR_LONG_NAME) 13 cksum)
            u (ei * LFN_CHARS_PER_ENTRY) 0 13.

(** All long-name entries in the order dwrite_lfn writes them: last first. *)
Definition lfn_entries (name : list Z) (cnt cksum : Z) : list (list Z) :=
  (fun k => lfn_entry (uname name (cnt * LFN_CHARS_PER_ENTRY)) cnt (cnt - 1 - Z.of_nat k) cksum)
  <$> seq 0 (Z.to_nat cnt).

(** *** Accumulating a long name while scanning a directory (dlookup) *)

Record lfn_st : Type := Lfn {
  lfn_buf : list Z; lfn_chars : Z; lfn_cksum : Z; lfn_active : bool; lfn_next : Z
}.

Definition lfn_reset (st : lfn_st) : lfn_st :=
  Lfn (lfn_buf st) 0 (lfn_cksum st) false (lfn_next st).

(** lfn_buf[base + i] = ... for the 13 characters, each guarded by
    base + i < 260 only: a negative index is outside the array. *)
Fixpoint store_chars (buf d : list Z) (base i : Z) (n : nat) : outcome (list Z) :=
  match n with
  | O => Ok buf
  | S n' =>
      if base + i <? 260
      then if base + i <? 0 then Fault FBounds
           else store_chars (putz buf (base + i) (lfn_char d i)) d base (i + 1) n'
      else store_chars buf d base (i + 1) n'
  end.

(** dlookup's handling of a long-name entry [d]. *)
Definition lfn_step (st : lfn_st) (d : list Z) : outcome lfn_st :=
  let seq := Z.ldiff (getz d 0) LFN_LAST in
  let is_last := negb (Z.land (getz d 0) LFN_LAST =? 0) in
  let base := (seq - 1) * LFN_CHARS_PER_ENTRY in
  if is_last
  then match store_chars (lfn_buf st) d base 0 13 with
       | Ok buf => Ok (Lfn buf (seq * LFN_CHARS_PER_ENTRY) (getz d 13) true (seq - 1))
       | Fault e => Fault e
       end
  else if lfn_active st && (getz d 13 =? lfn_cksum st) && (seq =? lfn_next st)
  then match store_chars (lfn_buf st) d base 0 13 with
       | Ok buf => Ok (Lfn buf (lfn_chars st) (lfn_cksum st) true (lfn_next st - 1))
       | Fault e => Fault e
       end
  else Ok (lfn_reset st).

(** The ASCII string of the accumulated characters; [i] counts from 0 up to
    lfn_chars, and reading past the 260 characters of the buffer is outside
    the array. *)
Fixpoint lfn_collect (buf : list Z) (i : Z) (n : nat) (acc : list Z) : outcome (list Z) :=
  match n with
  | O => Ok acc
  | S n' =>
      if negb (zlen acc <? 255) then Ok acc
      else if i >=? 260 then Fault FBounds
      else
        let uc := getz buf i in
        if (uc =? 0) || (uc =? 65535) then Ok acc
        else lfn_collect buf (i + 1) n' (if uc <? 128 then acc ++ [uc] else acc)
  end.

Definition lfn_str (st : lfn_st) : outcome (list Z) :=
  lfn_collect (lfn_buf st) 0 (Z.to_nat (lfn_chars st)) [].

(** The two special names: on disk '.' and '..' followed by spaces. *)
Definition dot_match (nm sn : list Z) : bool :=
  ((getz nm 0 =? 46) && (getz nm 1 =? 0) && (getz sn 0 =? 46) && (getz sn 1 =? 32)) ||
  ((getz nm 0 =? 46) && (getz nm 1 =? 46) && (getz nm 2 =? 0) &&
   (getz sn 0 =? 46) && (getz sn 1 =? 46)).

(** dlookup's decision on a short entry: the long name when it matches
    ([Some l]), [Some []] for a match of the short name, [None] otherwise. *)
Definition match_entry (st : lfn_st) (d nm : list Z) : outcome (option (list Z)) :=
  let short :=
    Ok (if dot_match nm (DIR_Name d) || (ncmp nm (DIR_Name d) =? 0) then Some [] else None) in
  if lfn_active st && (lfn_chars st >? 0) && (lfn_checksum (DIR_Name d) =? lfn_cksum st)
  then match lfn_str st with
       | Ok l => if ncasecmp nm l 256 =? 0 then Ok (Some l) else short
       | Fault e => Fault e
       end
  else short.

(** *** Long names survive the directory *)

Definition u16s (u : list Z) : Prop := forall j, 0 <= getz u j < 65536.

Lemma lfn_char_off_range i : 0 <= i < 13 -> 1 <= lfn_char_off i <= 30.
Proof. unfold lfn_char_off. intros. destruct (i <? 5) eqn:?, (i <? 11) eqn:?; lia. Qed.

Lemma lfn_char_off_disj i j : 0 <= i < 13 -> 0 <= j < 13 -> i <> j ->
  lfn_char_off j + 2 <= lfn_char_off i \/ lfn_char_off i + 2 <= lfn_char_off j.
Proof.
  unfold lfn_char_off. intros.
  destruct (i <? 5) eqn:?, (i <? 11) eqn:?, (j <? 5) eqn:?, (j <? 11) eqn:?; lia.
Qed.

(** The bytes 0, 11, 12, 13 and 26, 27 are not characters. *)
Lemma lfn_char_off_fixed i k : 0 <= i < 13 -> k = 0 \/ k = 11 \/ k = 13 ->
  k < lfn_char_off i \/ lfn_char_off i + 2 <= k.
Proof. unfold lfn_char_off. intros. destruct (i <? 5) eqn:?, (i <? 11) eqn:?; lia. Qed.

Lemma length_put_chars n : forall d u base i,
  length d = 32%nat -> 0 <= i -> i + Z.of_nat n <= 13 -> length (put_chars d u base i n) = 32%nat.
Proof.
  induction n as [|n IH]; intros d u base i Hd Hi Hn; cbn [put_chars]; [done|].
  pose proof (lfn_char_off_range i ltac:(lia)).
  apply IH; [|lia..]. rewrite length_wr; unfold zlen; lia.
Qed.

Lemma put_chars_out n : forall d u base i w off,
  length d = 32%nat -> 0 <= i -> i + Z.of_nat n <= 13 -> 0 <= off ->
  (forall j, i <= j < i + Z.of_nat n ->
     off + Z.of_nat w <= lfn_char_off j \/ lfn_char_off j + 2 <= off) ->
  rd w (put_chars d u base i n) off = rd w d off.
Proof.
  induction n as [|n IH]; intros d u base i w off Hd Hi Hn Ho Hj; cbn [put_chars]; [done|].
  pose proof (lfn_char_off_range i ltac:(lia)).
  rewrite IH; [| |lia|lia|lia|intros; apply Hj; lia].
  - apply rd_wr_ne; unfold zlen; try lia. apply Hj. lia.
  - rewrite length_wr; unfold zlen; lia.
Qed.

Lemma put_chars_in n : forall d u base i j,
  u16s u -> length d = 32%nat -> 0 <= i -> i + Z.of_nat n <= 13 -> i <= j < i + Z.of_nat n ->
  lfn_char (put_chars d u base i n) j = getz u (base + j).
Proof.
  induction n as [|n IH]; intros d u base i j Hu Hd Hi Hn Hj; [lia|]. cbn [put_chars].
  pose proof (lfn_char_off_range i ltac:(lia)).
  assert (length (wr16 d (lfn_char_off i) (getz u (base + i))) = 32%nat) as Hl
    by (rewrite length_wr; unfold zlen; lia).
  destruct (decide (j = i)) as [->|Hne]; [|apply IH; auto; lia].
  unfold lfn_char. rewrite put_chars_out; [|done|lia..|].
  - rewrite rd_wr_eq by (unfold zlen; lia). apply Z.mod_small. apply Hu.
  - intros k Hk. pose proof (lfn_char_off_disj i k ltac:(lia) ltac:(lia) ltac:(lia)). lia.
Qed.

Lemma rd1_getz l off : 0 <= off < zlen l -> rd 1 l off = getz l off.
Proof.
  intros H. unfold rd, slice, getz, zlen in *. change (Z.to_nat (Z.of_nat 1)) with 1%nat.
  destruct (lookup_lt_is_Some_2 l (Z.to_nat off)) as [x Hx]; [lia|].
  rewrite (drop_S _ _ _ Hx), Hx. cbn -[Z.mul Z.add]. rewrite take_0. cbn -[Z.mul Z.add]. lia.
Qed.

Lemma put_chars_byte d u base k : length d = 32%nat -> k = 0 \/ k = 11 \/ k = 13 ->
  getz (put_chars d u base 0 13) k = getz d k.
Proof.
  intros Hd Hk.
  pose proof (length_put_chars 13 d u base 0 Hd ltac:(lia) ltac:(lia)) as Hp.
  rewrite <-(rd1_getz (put_chars d u base 0 13)), <-(rd1_getz d) by (unfold zlen; lia).
  apply put_chars_out; try lia. intros j Hj.
  pose proof (lfn_char_off_fixed j k ltac:(lia) Hk). lia.
Qed.

(** The sequence byte of entry [ei]. *)
Definition lfn_seq (cnt ei : Z) : Z :=
  if ei =? cnt - 1 then Z.lor (u8 (ei + 1)) LFN_LAST else u8 (ei + 1).

Lemma lfn_entry_fields u cnt ei ck : u16s u ->
  let d := lfn_entry u cnt ei ck in
  length d = 32%nat /\ getz d 0 = lfn_seq cnt ei /\ DIR_Attr d = ATTR_LONG_NAME /\
  getz d 13 = ck /\
  (forall i, 0 <= i < 13 -> lfn_char d i = getz u (ei * 13 + i)).
Proof.
  intros Hu d. unfold d, lfn_entry, DIR_Attr.
  set (d0 := putz _ 13 ck). assert (length d0 = 32%nat) as Hd by done.
  split_and!; [apply length_put_chars; lia|..].
  1-3: by rewrite put_chars_byte by (try done; lia).
  intros i Hi. apply put_chars_in; auto; lia.
Qed.

Lemma lfn_seq_parts cnt ei : 0 <= ei < cnt -> cnt <= 20 ->
  Z.ldiff (lfn_seq cnt ei) LFN_LAST = ei + 1 /\
  negb (Z.land (lfn_seq cnt ei) LFN_LAST =? 0) = (ei =? cnt - 1).
Proof.
  intros H Hc. assert (exists k, (k < 20)%nat /\ ei = Z.of_nat k) as (k & Hk & ->)
    by (exists (Z.to_nat ei); lia).
  unfold lfn_seq. destruct (Z.of_nat k =? cnt - 1);
    do 20 (destruct k as [|k]; [split; reflexivity|]); lia.
Qed.

Lemma store_chars_spec n : forall buf d base i,
  length buf = 260%nat -> 0 <= base -> 0 <= i ->
  exists buf', store_chars buf d base i n = Ok buf' /\ length buf' = 260%nat /\
    forall j, 0 <= j < 260 ->
      getz buf' j = if (base + i <=? j) && (j <? base + i + Z.of_nat n)
                    then lfn_char d (j - base) else getz buf j.
Proof.
  induction n as [|n IH]; intros buf d base i Hb H0 Hi; cbn [store_chars].
  - exists buf. split_and!; try done. intros j Hj.
    by assert ((base + i <=? j) && (j <? base + i + Z.of_nat 0) = false) as -> by lia.
  - assert (base + i <? 0 = false) as -> by lia. destruct (base + i <? 260) eqn:E.
    + destruct (IH (putz buf (base + i) (lfn_char d i)) d base (i + 1)) as (b' & -> & Hl & Hg);
        [by rewrite length_putz|lia..|].
      exists b'. split_and!; try done. intros j Hj. rewrite Hg by done.
      destruct (decide (j = base + i)) as [->|].
      * assert ((base + (i + 1) <=? base + i) && (base + i <? base + (i + 1) + Z.of_nat n) = false)
          as -> by lia.
        assert ((base + i <=? base + i) && (base + i <? base + i + Z.of_nat (S n)) = true)
          as -> by lia.
        rewrite getz_putz_eq by (unfold zlen; lia). f_equal. lia.
      * rewrite getz_putz_ne by lia.
        replace ((base + i <=? j) && (j <? base + i + Z.of_nat (S n)))
          with ((base + (i + 1) <=? j) && (j <? base + (i + 1) + Z.of_nat n)) by lia. done.
    + destruct (IH buf d base (i + 1)) as (b' & -> & Hl & Hg); [done|lia..|].
      exists b'. split_and!; try done. intros j Hj. rewrite Hg by done.
      assert ((base + (i + 1) <=? j) && (j <? base + (i + 1) + Z.of_nat n) = false) as -> by lia.
      by assert ((base + i <=? j) && (j <? base + i + Z.of_nat (S n)) = false) as -> by lia.
Qed.

(** Scanning a run of long-name entries. *)
Fixpoint lfn_run (st : lfn_st) (l : list (list Z)) : outcome lfn_st :=
  match l with
  | [] => Ok st
  | d :: l' => match lfn_step st d with Ok st' => lfn_run st' l' | Fault e => Fault e end
  end.

(** After the entries numbered above [m]: the upper part of the name is there. *)
Record lfn_have (st : lfn_st) (u : list Z) (cnt m ck : Z) : Prop := Lfn_have {
  lh_len : length (lfn_buf st) = 260%nat;
  lh_chars : m < cnt -> lfn_chars st = 13 * cnt /\ lfn_cksum st = ck /\
             lfn_active st = true /\ lfn_next st = m;
  lh_buf : forall j, 13 * m <= j < 13 * cnt -> getz (lfn_buf st) j = getz u j
}.

Lemma lfn_step_have st u cnt m ck :
  u16s u -> 0 < m <= cnt -> cnt <= 20 -> lfn_have st u cnt m ck ->
  exists st', lfn_step st (lfn_entry u cnt (m - 1) ck) = Ok st' /\ lfn_have st' u cnt (m - 1) ck.
Proof.
  intros Hu Hm Hc [Hl Hf Hb].
  destruct (lfn_entry_fields u cnt (m - 1) ck Hu) as (_ & E0 & _ & E13 & Ech).
  destruct (lfn_seq_parts cnt (m - 1)) as [Es El]; [lia..|].
  unfold lfn_step. rewrite E0, E13, Es, El.
  replace (m - 1 + 1 - 1) with (m - 1) by lia. unfold LFN_CHARS_PER_ENTRY.
  destruct (store_chars_spec 13 (lfn_buf st) (lfn_entry u cnt (m - 1) ck) ((m - 1) * 13) 0)
    as (b' & Eb & Hlb & Hg); [done|lia..|].
  assert (forall j, 13 * (m - 1) <= j < 13 * cnt -> getz b' j = getz u j) as Hb'.
  { intros j Hj. rewrite Hg by lia. destruct (_ && _) eqn:E.
    - rewrite Ech by lia. f_equal. lia.
    - apply Hb. lia. }
  destruct (m - 1 =? cnt - 1) eqn:Em.
  - rewrite Eb. eexists. split; [done|]. split; cbn; auto. intros _.
    split_and!; auto; lia.
  - destruct Hf as (F1 & F2 & F3 & F4); [lia|]. rewrite F3, F2, F4.
    assert (true && (ck =? ck) && (m - 1 + 1 =? m) = true) as -> by lia. rewrite Eb.
    eexists. split; [done|]. split; cbn; auto. 
Qed.

Lemma lfn_run_have u cnt ck k : forall st,
  u16s u -> cnt <= 20 -> Z.of_nat k <= cnt -> lfn_have st u cnt (Z.of_nat k) ck ->
  exists st', lfn_run st ((fun i => lfn_entry u cnt (cnt - 1 - Z.of_nat i) ck)
                          <$> seq (Z.to_nat (cnt - Z.of_nat k)) k) = Ok st' /\
              lfn_have st' u cnt 0 ck.
Proof.
  induction k as [|k IH]; intros st Hu Hc Hk Hh; [by exists st|].
  cbn [seq fmap list_fmap lfn_run].
  destruct (lfn_step_have st u cnt (Z.of_nat (S k)) ck) as (st' & E & Hh'); [done|lia..|done|].
  replace (cnt - 1 - Z.of_nat (Z.to_nat (cnt - Z.of_nat (S k)))) with (Z.of_nat (S k) - 1) by lia.
  rewrite E. replace (Z.of_nat (S k) - 1) with (Z.of_nat k) in Hh' by lia.
  destruct (IH st') as (st'' & E' & Hh''); [done|done|lia|done|].
  exists st''. split; [|done]. rewrite <-E'. by replace (S (Z.to_nat (cnt - Z.of_nat (S k))))
    with (Z.to_nat (cnt - Z.of_nat k)) by lia.
Qed.

(** A name of printable length whose characters are 7-bit and not NUL. *)
Record ascii_name (name : list Z) : Prop := Ascii_name {
  an_len : 1 <= zlen name <= 255;
  an_ch : Forall (fun c => 0 < c < 128) name
}.

Lemma ascii_cstr name : ascii_name name -> cstr name = name.
Proof. intros [_ H]. apply cstr_id. eapply Forall_impl; [done|]. cbn. lia. Qed.

Lemma ascii_getz name i : ascii_name name -> 0 <= i < zlen name -> 0 < getz name i < 128.
Proof.
  intros [_ H] Hi. eapply Forall_lookup_1 in H; [|by apply getz_lookup]. done.
Qed.

Lemma getz_app_l l1 l2 i : 0 <= i < zlen l1 -> getz (l1 ++ l2) i = getz l1 i.
Proof. intros. unfold getz, zlen in *. by rewrite lookup_app_l by lia. Qed.

Lemma getz_app_r l1 l2 i : zlen l1 <= i -> getz (l1 ++ l2) i = getz l2 (i - zlen l1).
Proof.
  intros. unfold getz, zlen in *. rewrite lookup_app_r by lia. do 2 f_equal. lia.
Qed.

Lemma uname_ascii name total : ascii_name name -> zlen name <= total ->
  uname name total = name ++ [0] ++ replicate (Z.to_nat total - S (length name)) 65535.
Proof.
  intros Ha Ht. unfold uname. rewrite (ascii_cstr _ Ha). unfold zlen in Ht.
  rewrite take_ge by lia.
  assert (u8 <$> name = name) as ->.
  { destruct Ha as [_ H]. clear -H. induction H as [|c l Hc _ IH]; [done|].
    cbn. rewrite IH, u8_small by lia. done. }
  rewrite <-app_assoc. do 2 f_equal. f_equal. len.
Qed.

Lemma uname_u16s name total : ascii_name name -> zlen name <= total -> u16s (uname name total).
Proof.
  intros Ha Ht j. rewrite uname_ascii by done. unfold getz.
  destruct (_ !! _) as [x|] eqn:E; [|cbn; lia]. cbn.
  apply lookup_app_Some in E as [E|[_ E]].
  - destruct Ha as [_ H]. eapply Forall_lookup_1 in H; [|done]. cbn in H. lia.
  - apply lookup_app_Some in E as [E|[_ E]].
    + apply list_elem_of_lookup_2, list_elem_of_singleton in E. lia.
    + apply lookup_replicate in E as [-> _]. lia.
Qed.

Lemma lfn_collect_name name n : forall buf i,
  ascii_name name ->
  (forall j, 0 <= j < zlen name -> getz buf j = getz name j) ->
  (Z.of_nat n + i > zlen name -> zlen name < 260 /\ getz buf (zlen name) = 0) ->
  0 <= i <= zlen name -> zlen name <= Z.of_nat n + i ->
  lfn_collect buf i n (take (Z.to_nat i) name) = Ok name.
Proof.
  induction n as [|n IH]; intros buf i Ha Hb H0 Hi Hn; cbn [lfn_collect].
  - rewrite take_ge; [done|]. unfold zlen in *. lia.
  - pose proof (an_len _ Ha).
    assert (zlen (take (Z.to_nat i) name) = i) as Et by (unfold zlen in *; len).
    rewrite Et. destruct (decide (i = zlen name)) as [Ei|Hne].
    + rewrite take_ge by (unfold zlen in *; lia).
      destruct (negb (i <? 255)) eqn:E; [done|]. assert (i >=? 260 = false) as -> by lia.
      rewrite Ei. destruct H0 as [_ ->]; [lia|]. done.
    + assert (negb (i <? 255) = false) as -> by lia. assert (i >=? 260 = false) as -> by lia.
      pose proof (ascii_getz name i Ha ltac:(lia)). rewrite Hb by lia.
      assert ((getz name i =? 0) || (getz name i =? 65535) = false) as -> by lia.
      assert (getz name i <? 128 = true) as -> by lia.
      rewrite <-take_S_r by (apply getz_lookup; lia).
      replace (S (Z.to_nat i)) with (Z.to_nat (i + 1)) by lia.
      apply IH; auto; lia.
Qed.

Lemma lowc_0 c : lowc c = 0 <-> c = 0.
Proof. unfold lowc, is_upper. destruct (_ && _) eqn:E; lia. Qed.

Lemma lowc_byte c : is_byte c -> is_byte (lowc c).
Proof. unfold lowc, is_upper, is_byte. destruct (_ && _) eqn:E; lia. Qed.

Lemma cstr_lowc a :
  lowc <$> cstr a =
  if hd 0 a =? 0 then [] else lowc (hd 0 a) :: (lowc <$> cstr (tl a)).
Proof.
  destruct (hd 0 a =? 0) eqn:E.
  - rewrite cstr_hd_0 by lia. done.
  - rewrite (cstr_hd_tl a) by lia. done.
Qed.

Lemma hd_byte a : Forall is_byte a -> is_byte (hd 0 a).
Proof. intros [|]; unfold is_byte; cbn; [lia|done]. Qed.
Lemma tl_byte a : Forall is_byte a -> Forall is_byte (tl a).
Proof. by intros [|]. Qed.

(** ncasecmp is equality of the strings up to case. *)
Lemma ncasecmp_spec n : forall a b,
  Forall is_byte a -> Forall is_byte b -> (length (cstr a) < n)%nat ->
  ncasecmp a b n = 0 <-> lowc <$> cstr a = lowc <$> cstr b.
Proof.
  induction n as [|n IH]; intros a b Ha Hb Hl; [lia|]. cbn [ncasecmp].
  pose proof (lowc_byte _ (hd_byte _ Ha)) as Ba. pose proof (lowc_byte _ (hd_byte _ Hb)) as Bb.
  unfold is_byte in Ba, Bb. rewrite (cstr_lowc a), (cstr_lowc b).
  pose proof (lowc_0 (hd 0 a)). pose proof (lowc_0 (hd 0 b)).
  destruct (negb (lowc (hd 0 a) =? lowc (hd 0 b))) eqn:E.
  - rewrite !u8_small by lia. split; [lia|].
    destruct (hd 0 a =? 0) eqn:E1, (hd 0 b =? 0) eqn:E2; intros Eq; simplify_eq; lia.
  - destruct (lowc (hd 0 a) =? 0) eqn:E0.
    + assert (hd 0 a =? 0 = true) as -> by lia. assert (hd 0 b =? 0 = true) as -> by lia. done.
    + assert (hd 0 a =? 0 = false) as -> by lia. assert (hd 0 b =? 0 = false) as -> by lia.
      rewrite (cstr_hd_tl a) in Hl by lia. cbn in Hl.
      rewrite IH by (auto using tl_byte; lia). assert (lowc (hd 0 a) = lowc (hd 0 b)) as -> by lia.
      split; [by intros ->|intros; by simplify_eq].
Qed.

Lemma lfn_entries_needed_bounds n : 1 <= n <= 255 ->
  1 <= lfn_entries_needed n <= 20 /\ n <= 13 * lfn_entries_needed n.
Proof.
  intros. unfold lfn_entries_needed, LFN_CHARS_PER_ENTRY.
  assert (n =? 0 = false) as -> by lia. dlia.
Qed.

(** Scanning the entries written for a name recovers the name. *)
Lemma lfn_scan_spec name cnt ck st :
  ascii_name name -> cnt = lfn_entries_needed (strlen name) -> length (lfn_buf st) = 260%nat ->
  exists st', lfn_run st (lfn_entries name cnt ck) = Ok st' /\
    lfn_active st' = true /\ lfn_chars st' = 13 * cnt /\ lfn_cksum st' = ck /\
    lfn_str st' = Ok name /\ length (lfn_buf st') = 260%nat.
Proof.
  intros Ha -> Hl. rewrite strlen_cstr, (ascii_cstr _ Ha).
  pose proof (lfn_entries_needed_bounds _ (an_len _ Ha)) as [Hc Hn].
  set (cnt := lfn_entries_needed (zlen name)) in *.
  assert (u16s (uname name (cnt * 13))) as Hu by (apply uname_u16s; [done|lia]).
  destruct (lfn_run_have (uname name (cnt * 13)) cnt ck (Z.to_nat cnt) st) as (st' & E & Hh);
    [done|lia|lia| |].
  { rewrite Z2Nat.id by lia. split; [done|lia|lia]. }
  exists st'. replace (Z.to_nat (cnt - Z.of_nat (Z.to_nat cnt))) with 0%nat in E by lia.
  split; [exact E|]. destruct Hh as [Hl' Hf Hb]. destruct Hf as (F1 & F2 & F3 & _); [lia|].
  split_and!; try done. unfold lfn_str. rewrite F1.
  apply (lfn_collect_name name _ _ 0 Ha); pose proof (an_len _ Ha); try lia.
  - intros j Hj. rewrite Hb by lia. rewrite uname_ascii by (auto; lia). by apply getz_app_l.
  - intros Hgt. split; [lia|]. rewrite Hb by lia. rewrite uname_ascii by (auto; lia).
    rewrite getz_app_r, Z.sub_diag by lia. done.
Qed.

(** The decision on the short entry that follows the entries of [name]. *)
Lemma match_after_scan name nm d st ck :
  ascii_name name -> Forall is_byte nm -> (length (cstr nm) < 256)%nat ->
  lfn_active st = true -> lfn_chars st > 0 -> lfn_cksum st = ck ->
  lfn_checksum (DIR_Name d) = ck -> lfn_str st = Ok name ->
  match_entry st d nm =
  if bool_decide (lowc <$> cstr nm = lowc <$> name) then Ok (Some name)
  else Ok (if dot_match nm (DIR_Name d) || (ncmp nm (DIR_Name d) =? 0) then Some [] else None).
Proof.
  intros Ha Hnm Hl F1 F2 F3 F4 F5. unfold match_entry. rewrite F1, F3, F4, F5.
  assert (true && (lfn_chars st >? 0) && (ck =? ck) = true) as -> by lia.
  assert (Forall is_byte name) as Hby.
  { eapply Forall_impl; [apply (an_ch _ Ha)|]. unfold is_byte. cbn. lia. }
  pose proof (ncasecmp_spec 256 nm name Hnm Hby Hl) as Hc. rewrite (ascii_cstr name Ha) in Hc.
  case_bool_decide as E.
  - by assert (ncasecmp nm name 256 =? 0 = true) as -> by (apply Hc in E; lia).
  - assert (ncasecmp nm name 256 =? 0 = false) as ->; [|done].
    apply Z.eqb_neq. intros E0. apply E. by apply Hc.
Qed.

(** C30: long names round-trip through a directory: whatever was scanned
    before, reading back the entries that dwrite_lfn writes for a name of 1
    to 255 ASCII characters (13 per entry, last entry first, with the
    checksum of the short name) and then the short entry makes dlookup's
    matching succeed for every spelling of that name that differs only in
    case, and return the name exactly as it was given. *)
Theorem lfn_roundtrip name nm d st (Ha : ascii_name name)
    (Hb : length (lfn_buf st) = 260%nat) (Hnm : Forall is_byte nm)
    (Hc : lowc <$> cstr nm = lowc <$> name) :
  exists st',
    lfn_run st (lfn_entries name (lfn_entries_needed (strlen name)) (lfn_checksum (DIR_Name d)))
      = Ok st' /\
    match_entry st' d nm = Ok (Some name).
Proof.
  destruct (lfn_scan_spec name _ (lfn_checksum (DIR_Name d)) st Ha eq_refl Hb)
    as (st' & E & F1 & F2 & F3 & F4 & _).
  exists st'. split; [done|].
  pose proof (lfn_entries_needed_bounds _ (an_len _ Ha)) as [Hn _].
  rewrite strlen_cstr, (ascii_cstr _ Ha) in F2.
  rewrite (match_after_scan name nm d st' (lfn_checksum (DIR_Name d)) Ha Hnm);
    [by rewrite bool_decide_true|..]; auto; [|lia].
  apply (f_equal length) in Hc. rewrite !length_fmap in Hc. rewrite Hc.
  pose proof (an_len _ Ha). unfold zlen in *. lia.
Qed.

Lemma lfn_roundtrip_witness :
  exists st',
    lfn_run (Lfn (replicate 260 7) 26 3 true 1)
      (lfn_entries [108; 111; 110; 103; 95; 110; 97; 109; 101; 46; 116; 101; 120; 116] 2
         (lfn_checksum (DIR_Name (replicate 32 65)))) = Ok st' /\
    match_entry st' (replicate 32 65)
      [76; 79; 78; 71; 95; 78; 65; 77; 69; 46; 84; 69; 88; 84; 0]
      = Ok (Some [108; 111; 110; 103; 95; 110; 97; 109; 101; 46; 116; 101; 120; 116]).
Proof.
  apply (lfn_roundtrip [108; 111; 110; 103; 95; 110; 97; 109; 101; 46; 116; 101; 120; 116]
           [76; 79; 78; 71; 95; 78; 65; 77; 69; 46; 84; 69; 88; 84; 0] (replicate 32 65)
           (Lfn (replicate 260 7) 26 3 true 1)); [|reflexivity| |reflexivity].
  - split; [vm_compute; split; discriminate|]. repeat (constructor; [lia|]). constructor.
  - repeat (constructor; [unfold is_byte; lia|]). constructor.
Defined.

(** *** Short names identify names that fit *)

Lemma copy_base_cstr n : forall s, copy_base n (cstr s) = copy_base n s.
Proof.
  induction n as [|n IH]; intros [|c s]; cbn [copy_base]; try done.
  destruct (c =? 0) eqn:E.
  - assert (c = 0) as -> by lia. done.
  - rewrite cstr_cons_nz by lia. cbn [copy_base]. by rewrite E, IH.
Qed.

Lemma find_ext_cstr s : cstr (find_ext (cstr s)) = cstr (find_ext s).
Proof.
  induction s as [|c s IH]; [done|]. destruct (c =? 0) eqn:E.
  - assert (c = 0) as -> by lia. done.
  - rewrite cstr_cons_nz by lia. cbn [find_ext]. rewrite E. destruct (c =? 46); [|done].
    apply cstr_id, cstr_nz.
Qed.

Lemma copy_ext_cstr n : forall s, copy_ext n (cstr s) = copy_ext n s.
Proof.
  induction n as [|n IH]; intros [|c s]; cbn [copy_ext]; try done.
  destruct (c =? 0) eqn:E.
  - assert (c = 0) as -> by lia. done.
  - rewrite cstr_cons_nz by lia. cbn [copy_ext]. by rewrite E, IH.
Qed.

Lemma name83_cstr s : name83 (cstr s) = name83 s.
Proof.
  unfold name83. rewrite copy_base_cstr. f_equal. f_equal.
  by rewrite <-(copy_ext_cstr _ (find_ext (cstr s))), find_ext_cstr, copy_ext_cstr.
Qed.

Lemma copy_base_length n : forall s, (length (copy_base n s) <= n)%nat.
Proof.
  induction n as [|n IH]; intros [|c s]; cbn; try lia.
  destruct (_ || _); cbn; [lia|]. specialize (IH s). lia.
Qed.

Lemma copy_ext_length n : forall s, (length (copy_ext n s) <= n)%nat.
Proof.
  induction n as [|n IH]; intros [|c s]; cbn; try lia.
  destruct (_ =? 0); cbn; [lia|]. specialize (IH s). lia.
Qed.

Lemma name83_length s : length (name83 s) = 11%nat.
Proof.
  unfold name83, pad. pose proof (copy_base_length 8 s). pose proof (copy_ext_length 3 (find_ext s)).
  len.
Qed.

(** name83 sees its argument only up to case. *)
Lemma lowc_upc c c' : lowc c = lowc c' ->
  upc c = upc c' /\ (c =? 0) = (c' =? 0) /\ (c =? 46) = (c' =? 46).
Proof.
  unfold lowc, upc, is_upper, is_lower. intros H.
  destruct ((65 <=? c) && (c <=? 90)) eqn:E1, ((65 <=? c') && (c' <=? 90)) eqn:E2,
    ((97 <=? c) && (c <=? 122)) eqn:E3, ((97 <=? c') && (c' <=? 122)) eqn:E4; lia.
Qed.

Lemma copy_base_case n : forall s t, lowc <$> s = lowc <$> t -> copy_base n s = copy_base n t.
Proof.
  induction n as [|n IH]; intros [|c s] [|c' t] H; try done. cbn in H. simplify_eq.
  destruct (lowc_upc c c') as (E1 & E2 & E3); [done|].
  cbn [copy_base]. rewrite E1, E2, E3. destruct ((c' =? 0) || (c' =? 46)); [done|]. f_equal. by apply IH.
Qed.

Lemma copy_ext_case n : forall s t, lowc <$> s = lowc <$> t -> copy_ext n s = copy_ext n t.
Proof.
  induction n as [|n IH]; intros [|c s] [|c' t] H; try done. cbn in H. simplify_eq.
  destruct (lowc_upc c c') as (E1 & E2 & E3); [done|].
  cbn [copy_ext]. rewrite E1, E2. destruct (c' =? 0); [done|]. f_equal. by apply IH.
Qed.

Lemma find_ext_case : forall s t, lowc <$> s = lowc <$> t -> lowc <$> find_ext s = lowc <$> find_ext t.
Proof.
  induction s as [|c s IH]; intros [|c' t] H; try done. cbn in H. simplify_eq.
  destruct (lowc_upc c c') as (E1 & E2 & E3); [done|].
  cbn [find_ext]. rewrite E2, E3. destruct (c' =? 0); [done|]. destruct (c' =? 46); auto.
Qed.

Lemma name83_case s t : lowc <$> cstr s = lowc <$> cstr t -> name83 s = name83 t.
Proof.
  intros H. rewrite <-(name83_cstr s), <-(name83_cstr t). unfold name83.
  rewrite (copy_base_case _ _ _ H), (copy_ext_case _ _ _ (find_ext_case _ _ H)). done.
Qed.

(** The rebuilt name is never longer than the name. *)
Lemma unpad_pad (l : list Z) n : (length (unpad (l ++ replicate n 32%Z)) <= length l)%nat.
Proof.
  induction l as [|c l IH]; cbn.
  - destruct n; done.
  - destruct (c =? 32); cbn; lia.
Qed.

Lemma split_dot_length n m : forall s,
  (length (copy_base n s) + (if copy_ext m (find_ext s) then 0 else 1)
   + length (copy_ext m (find_ext s)) <= length s)%nat.
Proof.
  assert (forall m s, length (copy_ext m s) <= length s)%nat as Hx.
  { clear. induction m as [|m IH]; intros [|c s]; cbn; try lia. destruct (_ =? 0); cbn; [lia|].
    specialize (IH s). lia. }
  intros s. revert n. induction s as [|c s IH]; intros n.
  - destruct n, m; cbn; lia.
  - destruct n as [|n].
    + specialize (IH O). cbn [copy_base length] in *. cbn [find_ext].
      destruct (c =? 0); [destruct m; cbn; lia|]. destruct (c =? 46).
      * specialize (Hx m s). destruct (copy_ext m s); cbn in *; lia.
      * lia.
    + cbn [copy_base find_ext]. destruct (c =? 0) eqn:E0; [destruct m; cbn; lia|].
      destruct (c =? 46) eqn:E1; cbn [orb].
      * specialize (Hx m s). destruct (copy_ext m s); cbn in *; lia.
      * specialize (IH n). cbn [length]. lia.
Qed.

Lemma rebuilt_length s : (length (rebuilt (name83 s)) <= length s)%nat.
Proof.
  pose proof (split_dot_length 8 3 s) as H. pose proof (copy_base_length 8 s) as H8.
  unfold rebuilt, name83.
  set (b := copy_base 8 s) in *. set (e := copy_ext 3 (find_ext s)) in *.
  assert (length (pad 8 b) = 8%nat) as Hp
    by (unfold pad; len).
  rewrite take_app_length', drop_app_length' by done.
  replace (getz (pad 8 b ++ pad 3 e) 8) with (getz (pad 3 e) 0).
  2:{ rewrite getz_app_r by (unfold zlen; lia). unfold zlen. by rewrite Hp. }
  pose proof (unpad_pad b (8 - length b)) as H1. pose proof (unpad_pad e (3 - length e)) as H2.
  fold (pad 8 b) in H1. fold (pad 3 e) in H2. rewrite length_app.
  clearbody b e. destruct e as [|c e]; cbn [length] in *;
    [change (getz (pad 3 []) 0 =? 32) with true; cbn [length]; lia|].
  destruct (getz (pad 3 (c :: e)) 0 =? 32); cbn [length]; lia.
Qed.

Lemma same_lower_prefix : forall l r,
  Forall (fun c => c <> 0) l -> same_lower l r = true -> (lowc <$> l) `prefix_of` r.
Proof.
  induction l as [|c l IH]; intros r Hz H; [apply prefix_nil|].
  cbn in H. apply andb_true_iff in H as [H1 H2]. inversion Hz; subst.
  pose proof (lowc_0 c). destruct r as [|x r]; cbn in *; [lia|].
  assert (x = lowc c) as -> by lia. apply prefix_cons. auto.
Qed.

Lemma fits_83_rebuilt s : fits_83 s = true -> lowc <$> cstr s = rebuilt (name83 s).
Proof.
  unfold fits_83. destruct (_ =? 0); [done|]. intros H.
  apply same_lower_prefix in H; [|apply cstr_nz].
  rewrite <-name83_cstr in *. pose proof (rebuilt_length (cstr s)) as Hl.
  destruct H as [k Hk]. rewrite Hk in Hl |- *. rewrite length_app, length_fmap in Hl.
  destruct k; [by rewrite app_nil_r|cbn in Hl; lia].
Qed.

Lemma memcmp_bytes_eq : forall a b, length a = length b -> memcmp_bytes a b = 0 <-> a = b.
Proof.
  induction a as [|x a IH]; intros [|y b] Hl; cbn in *; try done.
  destruct (x =? y) eqn:E.
  - rewrite IH by lia. assert (x = y) as -> by lia. split; [by intros ->|by intros [= ->]].
  - split; [lia|intros [= -> _]; lia].
Qed.

(** Short names are a faithful key for the names that need no long
    name: when fcreate stores two names without long-name entries (fits_83
    accepts both), dlookup's comparison of one against the stored 8.3 form
    of the other succeeds exactly when the two names are equal up to case. *)
Theorem short_names_faithful a b (Ha : fits_83 a = true) (Hb : fits_83 b = true) :
  ncmp a (name83 b) = 0 <-> lowc <$> cstr a = lowc <$> cstr b.
Proof.
  unfold ncmp. rewrite memcmp_bytes_eq by by rewrite !name83_length.
  split; [|apply name83_case]. intros H.
  by rewrite (fits_83_rebuilt _ Ha), (fits_83_rebuilt _ Hb), H.
Qed.

Lemma short_names_faithful_witness :
  ncmp [82; 101; 97; 100; 46; 77; 101; 0] (name83 [114; 69; 65; 68; 46; 109; 69; 0]) = 0 <->
  lowc <$> cstr [82; 101; 97; 100; 46; 77; 101; 0] = lowc <$> cstr [114; 69; 65; 68; 46; 109; 69; 0].
Proof. apply short_names_faithful; reflexivity. Defined.

(** A name that does not fit is compared by its truncation: "longfilename"
    is found when only "longfile" exists. *)
Example short_match_truncates :
  fits_83 [108; 111; 110; 103; 102; 105; 108; 101; 110; 97; 109; 101; 0] = false /\
  ncmp [108; 111; 110; 103; 102; 105; 108; 101; 110; 97; 109; 101; 0]
       (name83 [108; 111; 110; 103; 102; 105; 108; 101; 0]) = 0.
Proof. split; reflexivity. Qed.

(** A long-name entry with the LAST flag and sequence number 0 stores
    before the start of the buffer, whatever the state of the scan. *)
Lemma lfn_seq_zero_out_of_bounds st : lfn_step st (64 :: replicate 31 0) = Fault FBounds.
Proof. reflexivity. Qed.

(** *** Generated short names *)

Definition sn_char (c : Z) : Prop :=
  is_upper c = true \/ is_digit c = true \/ c = 95 \/ c = 126 \/ c = 32.

Lemma collect6_length n : forall s, (length (collect6 n s) <= n)%nat.
Proof.
  intros s. revert n. induction s as [|c s IH]; intros [|n]; cbn; try lia.
  destruct (_ =? 0); cbn; [lia|]. destruct (_ || _); cbn; [specialize (IH n)|apply IH]; lia.
Qed.

Lemma collect6_chars n : forall s, Forall sn_char (collect6 n s).
Proof.
  intros s. revert n. induction s as [|c s IH]; intros [|n]; cbn; try constructor.
  destruct (_ =? 0); [constructor|]. destruct (_ || _) eqn:E; [|apply IH].
  constructor; [|apply IH]. apply orb_true_iff in E as [E|E]; [by left|by right; left].
Qed.

Lemma sn_char_digit d : 0 <= d <= 9 -> sn_char (48 + d).
Proof. right. left. unfold is_digit. lia. Qed.

(** The six-character stem and the tail of a generated name. *)
Definition sn_tail (ti : Z) : list Z :=
  if ti >=? 10 then [126; 48 + ti / 10; 48 + ti mod 10] ++ replicate 2 32
  else [126; 48 + ti] ++ replicate 3 32.

Lemma gen_short_name_split name :
  exists stem, length stem = 6%nat /\ Forall sn_char stem /\
    forall t, 0 <= t < 100 -> gen_short_name name t = stem ++ sn_tail t.
Proof.
  exists (collect6 6 name ++ replicate (6 - length (collect6 6 name)) 95).
  pose proof (collect6_length 6 name). split_and!.
  - len.
  - apply Forall_app. split; [apply collect6_chars|].
    apply Forall_replicate. do 2 right. by left.
  - intros t Ht. unfold gen_short_name, sn_tail.
    assert (t >=? 100 = false) as -> by lia. by destruct (t >=? 10).
Qed.

(** The candidates that fcreate tries are usable and all different:
    for each tail from 1 to 99 the generated short name is 11 characters
    long, uses only upper-case letters, digits, '_', '~' and padding, and no
    two tails give the same name, so the 99 attempts really are 99 names. *)
Theorem gen_short_names_distinct name t t' (Ht : 1 <= t <= 99) (Ht' : 1 <= t' <= 99) :
  length (gen_short_name name t) = 11%nat /\ Forall sn_char (gen_short_name name t) /\
  (gen_short_name name t = gen_short_name name t' -> t = t').
Proof.
  destruct (gen_short_name_split name) as (stem & Hl & Hs & E).
  rewrite !E by lia. split_and!.
  - rewrite length_app, Hl. unfold sn_tail. by destruct (_ >=? 10).
  - apply Forall_app. split; [done|]. unfold sn_tail.
    assert (sn_char 126) by (unfold sn_char; tauto). assert (sn_char 32) by (unfold sn_char; tauto).
    destruct (t >=? 10) eqn:?; repeat apply Forall_cons_2; try done;
      try apply sn_char_digit; try dlia; apply Forall_nil_2.
  - intros H. apply app_inv_head in H. unfold sn_tail in H.
    destruct (t >=? 10) eqn:?, (t' >=? 10) eqn:?; cbn -[Z.div Z.modulo Z.add] in H;
      injection H; intros; dlia.
Qed.

Lemma gen_short_names_distinct_witness :
  length (gen_short_name [97; 46; 98; 0] 7) = 11%nat /\
  Forall sn_char (gen_short_name [97; 46; 98; 0] 7) /\
  (gen_short_name [97; 46; 98; 0] 7 = gen_short_name [97; 46; 98; 0] 12 -> 7 = 12).
Proof. apply gen_short_names_distinct; lia. Defined.
