(* ===== verification/Fat32.v ===== *)
(** Fat32: the on-disk operations of kernel/fat32.c: sectors, the file
    allocation table, cluster chains, directory scans, file data.

    The state is the block layer, the mount's sleep-lock and user memory; the
    mount's geometry ([fat32_mount]) does not change after mounting and is a
    parameter.  A [fat32_vnode] is passed and returned by value: each function
    works on one.  bread never returns 0 (Bio), so the [-1] that sread and
    swrite return for that case does not occur. *)

From S2P Require Import Prelude CString Locks Block Umem FatNames.

Definition FAT32_EOC_MIN : Z := 268435448.
Definition FAT32_EOC : Z := 268435455.
Definition FAT32_FREE : Z := 0.

Record fat32_mount : Type := Fm {
  fm_dev : Z; sec_per_clus : Z; rsvd_sec_cnt : Z; num_fats : Z; fat_sz : Z;
  first_data_sec : Z; root_clus : Z; tot_clus : Z; fm_bps : Z; fm_spb : Z
}.

Record fat32_vnode : Type := Fv {
  first_clus : Z; file_size : Z; attrs : Z; fv_dirty : bool; pdir_clus : Z; dent_off : Z
}.

Definition set_first_clus (c : Z) (v : fat32_vnode) : fat32_vnode :=
  Fv c (file_size v) (attrs v) (fv_dirty v) (pdir_clus v) (dent_off v).
Definition set_file_size (n : Z) (v : fat32_vnode) : fat32_vnode :=
  Fv (first_clus v) n (attrs v) (fv_dirty v) (pdir_clus v) (dent_off v).
Definition set_dirty (v : fat32_vnode) : fat32_vnode :=
  Fv (first_clus v) (file_size v) (attrs v) true (pdir_clus v) (dent_off v).

Record fat (U : Type) : Type := Fat {
  fa_b : bst; fa_lock : Sleep.sleeplock; fa_pid : Z; fa_usr : U
}.
Arguments Fat {U}.
Arguments fa_b {U}.
Arguments fa_lock {U}.
Arguments fa_pid {U}.
Arguments fa_usr {U}.

(** A counted loop that threads its locals [x]: [inl] goes on, [inr] returns. *)
Fixpoint fold_upto {S X R} (n : nat) (i : Z) (body : Z -> X -> M S (X + R)) (x : X) :
  M S (X + R) :=
  match n with
  | O => ret (inl x)
  | S n' =>
      r <- body i x ;;
      match r with
      | inl x' => fold_upto n' (i + 1) body x'
      | inr v => ret (inr v)
      end
  end.

Definition lift {S A} (o : outcome A) : M S A :=
  match o with Ok a => ret a | Fault e => fail e end.

Section Ops.
  Context {U : Type} `{UserMem U} (fm : fat32_mount).

Definition set_fb (b : bst) (s : fat U) : fat U := Fat b (fa_lock s) (fa_pid s) (fa_usr s).
Definition set_flock (k : Sleep.sleeplock) (s : fat U) : fat U :=
  Fat (fa_b s) k (fa_pid s) (fa_usr s).
Definition set_fusr (u : U) (s : fat U) : fat U := Fat (fa_b s) (fa_lock s) (fa_pid s) u.

Definition ondisk {A} (m : M bst A) : M (fat U) A := zoom fa_b set_fb m.

Definition lock_fm : M (fat U) unit :=
  pid <- gets fa_pid ;; zoom fa_lock set_flock (Sleep.acquiresleep pid).
Definition unlock_fm : M (fat U) unit := zoom fa_lock set_flock Sleep.releasesleep.

(** *** Sectors *)

Definition sec_blk (sec : Z) : Z := sec / fm_spb fm.
Definition sec_off (sec off : Z) : Z := (sec mod fm_spb fm) * fm_bps fm + off.

Definition sread (sec off n : Z) : M (fat U) (list Z) :=
  bp <- ondisk (bread (fm_dev fm) (sec_blk sec)) ;;
  ret (slice bp (sec_off sec off) n).

(** Changing [f] of one buffer of the device, and then of the corresponding
    buffer of the second FAT; the first buffer is still locked when the
    second is read, so a mirror in the same block is waited for forever. *)
Definition bmodify (blk : Z) (f : list Z -> list Z) : M (fat U) unit :=
  bp <- ondisk (bread (fm_dev fm) blk) ;;
  ondisk (bstore (fm_dev fm) blk (f bp)).

Definition bmirror (held blk2 : Z) (f : list Z -> list Z) : M (fat U) unit :=
  if blk2 =? held then fail FDeadlock else bmodify blk2 f.

Definition swrite (sec off : Z) (buf : list Z) : M (fat U) unit :=
  bmodify (sec_blk sec) (fun d => splice d (sec_off sec off) buf) ;;;
  when ((num_fats fm >? 1) && (sec >=? rsvd_sec_cnt fm) &&
        (sec <? u32 (rsvd_sec_cnt fm + fat_sz fm)))
       (let s2 := u32 (sec + fat_sz fm) in
        bmirror (sec_blk sec) (sec_blk s2) (fun d => splice d (sec_off s2 off) buf)).

Definition clus_to_sec (c : Z) : Z :=
  u32 (u32 (u32 (c - 2) * sec_per_clus fm) + first_data_sec fm).

(** *** The file allocation table *)

Definition fat_sec (c : Z) : Z := u32 (rsvd_sec_cnt fm + u32 (c * 4) / fm_bps fm).
Definition fat_eo (c : Z) : Z := u32 (c * 4) mod fm_bps fm.

Definition read_fat (c : Z) : M (fat U) Z :=
  bp <- ondisk (bread (fm_dev fm) (sec_blk (fat_sec c))) ;;
  ret (Z.land (rd32 bp (sec_off (fat_sec c) (fat_eo c))) 268435455).

(** [*e = ( *e & 0xF0000000) | (v & 0x0FFFFFFF)] *)
Definition put_ent (bo v : Z) (d : list Z) : list Z :=
  wr32 d bo (Z.lor (Z.land (rd32 d bo) 4026531840) (Z.land v 268435455)).

Definition write_fat (c v : Z) : M (fat U) unit :=
  bmodify (sec_blk (fat_sec c)) (put_ent (sec_off (fat_sec c) (fat_eo c)) v) ;;;
  when (num_fats fm >? 1)
       (let s2 := u32 (fat_sec c + fat_sz fm) in
        bmirror (sec_blk (fat_sec c)) (sec_blk s2) (put_ent (sec_off s2 (fat_eo c)) v)).

Definition alloc_try (c : Z) : M (fat U) (option Z) :=
  v <- read_fat c ;;
  if v =? FAT32_FREE then write_fat c FAT32_EOC ;;; unlock_fm ;;; ret (Some c) else ret None.

Definition alloc_clus : M (fat U) Z :=
  lock_fm ;;;
  r <- for_upto (Z.to_nat (u32 (tot_clus fm + 2) - 2)) 2 alloc_try ;;
  match r with
  | Some c => ret c
  | None => unlock_fm ;;; ret 0
  end.

(** [c >= 2 && c < FAT32_EOC_MIN] *)
Definition in_chain (c : Z) : bool := (2 <=? c) && (c <? FAT32_EOC_MIN).

(** A chain without a cycle has at most [tot_clus] clusters. *)
Definition chain_fuel : nat := Z.to_nat (tot_clus fm) + 2.

Definition free_body (c : Z) : M (fat U) (Z + unit) :=
  if negb (in_chain c) then ret (inr tt)
  else
    n <- read_fat c ;;
    write_fat c FAT32_FREE ;;;
    if n >=? FAT32_EOC_MIN then ret (inr tt) else ret (inl n).

Definition free_chain (c : Z) : M (fat U) unit :=
  lock_fm ;;; loop chain_fuel free_body c ;;; unlock_fm.

(** *** Directories *)

(** The entries of one cluster: [body sec b] for every sector and every
    32-byte slot of it. *)
Definition scan_cluster {X R} (c : Z) (body : Z -> Z -> X -> M (fat U) (X + R)) (x : X) :
  M (fat U) (X + R) :=
  fold_upto (Z.to_nat (sec_per_clus fm)) 0
    (fun s => fold_upto (Z.to_nat (fm_bps fm / 32)) 0
                (fun k => body (u32 (clus_to_sec c + s)) (32 * k))) x.

(** The loop over the chain that shortname_exists, dlookup, dfree and
    freaddir share. *)
Definition scan_chain {X R} (c : Z) (body : Z -> Z -> X -> M (fat U) (X + R)) (x : X) :
  M (fat U) (X + R) :=
  loop chain_fuel
    (fun '(c, x) =>
       if negb (in_chain c) then ret (inr (inl x))
       else
         r <- scan_cluster c body x ;;
         match r with
         | inl x' => n <- read_fat c ;; ret (inl (n, x'))
         | inr v => ret (inr (inr v))
         end) (c, x).

Definition is_dir (dv : fat32_vnode) : bool := negb (Z.land (attrs dv) ATTR_DIRECTORY =? 0).

Definition exists_body (sn : list Z) (sec b : Z) (_ : unit) : M (fat U) (unit + bool) :=
  f <- sread sec b 1 ;;
  if getz f 0 =? 0 then ret (inr false)
  else if getz f 0 =? 229 then ret (inl tt)
  else
    d <- sread sec b 32 ;;
    if DIR_Attr d =? ATTR_LONG_NAME then ret (inl tt)
    else if memcmp_bytes (DIR_Name d) sn =? 0 then ret (inr true) else ret (inl tt).

Definition shortname_exists (dv : fat32_vnode) (sn : list Z) : M (fat U) bool :=
  if negb (is_dir dv) then ret false
  else
    r <- scan_chain (first_clus dv) (exists_body sn) tt ;;
    ret (match r with inl _ => false | inr b => b end).

(** The entry found, its offset in the directory and its long name. *)
Definition dlookup_body (nm : list Z) (sec b : Z) (x : Z * lfn_st) :
  M (fat U) (Z * lfn_st + option (list Z * Z * list Z)) :=
  let '(pos, st) := x in
  let next := u32 (pos + 32) in
  f <- sread sec b 1 ;;
  if getz f 0 =? 0 then ret (inr None)
  else if getz f 0 =? 229 then ret (inl (next, lfn_reset st))
  else
    d <- sread sec b 32 ;;
    if DIR_Attr d =? ATTR_LONG_NAME
    then st' <- lift (lfn_step st d) ;; ret (inl (next, st'))
    else
      m <- lift (match_entry st d nm) ;;
      match m with
      | Some l => ret (inr (Some (d, pos, l)))
      | None => ret (inl (next, lfn_reset st))
      end.

(** [junk] is what the uninitialised array lfn_buf holds. *)
Definition dlookup (junk : list Z) (dv : fat32_vnode) (nm : list Z) :
  M (fat U) (option (list Z * Z * list Z)) :=
  if negb (is_dir dv) then ret None
  else
    r <- scan_chain (first_clus dv) (dlookup_body nm) (0, Lfn junk 0 0 false 0) ;;
    ret (match r with inl _ => None | inr o => o end).

(** Locals: pos, consec, first_free. *)
Definition dfree_body (needed : Z) (sec b : Z) (x : Z * Z * Z) : M (fat U) (Z * Z * Z + Z) :=
  let '(pos, consec, first) := x in
  f <- sread sec b 1 ;;
  if (getz f 0 =? 0) || (getz f 0 =? 229)
  then
    let first := if consec =? 0 then pos else first in
    if consec + 1 >=? needed then ret (inr first)
    else ret (inl (u32 (pos + 32), consec + 1, first))
  else ret (inl (u32 (pos + 32), 0, first)).

Definition zero_clus (c : Z) : M (fat U) unit :=
  for_each (seqZ 0 (sec_per_clus fm))
           (fun s => swrite (u32 (clus_to_sec c + s)) 0 (replicate 512 0)).

Definition last_body (c : Z) : M (fat U) (Z + Z) :=
  if negb (in_chain c) then ret (inr c)
  else n <- read_fat c ;; if n >=? FAT32_EOC_MIN then ret (inr c) else ret (inl n).

(** The offset of the first of [lfn_cnt + 1] consecutive free slots, and
    the directory's vnode. *)
Definition dfree (dv : fat32_vnode) (lfn_cnt : Z) : M (fat U) (option Z * fat32_vnode) :=
  r <- scan_chain (first_clus dv) (dfree_body (lfn_cnt + 1)) (0, 0, 0) ;;
  match r with
  | inr off => ret (Some off, dv)
  | inl (pos, _, _) =>
      if first_clus dv =? 0
      then
        newc <- alloc_clus ;;
        if newc =? 0 then ret (None, dv)
        else
          write_fat newc FAT32_EOC ;;;
          zero_clus newc ;;;
          ret (Some 0, set_first_clus newc dv)
      else
        c <- loop chain_fuel last_body (first_clus dv) ;;
        newc <- alloc_clus ;;
        if newc =? 0 then ret (None, dv)
        else
          write_fat c newc ;;;
          write_fat newc FAT32_EOC ;;;
          zero_clus newc ;;;
          ret (Some pos, set_dirty dv)
  end.

Definition clus_bytes : Z := u32 (sec_per_clus fm * fm_bps fm).

(** The walk to the cluster that holds offset [off]: [None] when the chain is
    too short. *)
Definition seek (c off : Z) : M (fat U) (option Z) :=
  r <- fold_upto (Z.to_nat (off / (clus_bytes / 32 * 32))) 0
         (fun _ c => n <- read_fat c ;;
                     if n >=? FAT32_EOC_MIN then ret (inr tt) else ret (inl n)) c ;;
  ret (match r with inl c' => Some c' | inr _ => None end).

(** The sector and the offset in it of byte [off] of a chain whose cluster is
    [c]. *)
Definition ent_sec (c off : Z) : Z := u32 (clus_to_sec c + off mod clus_bytes / fm_bps fm).
Definition ent_bo (off : Z) : Z := off mod clus_bytes mod fm_bps fm.

Definition dwrite_raw (dv : fat32_vnode) (off : Z) (entry : list Z) : M (fat U) Z :=
  o <- seek (first_clus dv) off ;;
  match o with
  | None => ret (-1)
  | Some c => swrite (ent_sec c off) (ent_bo off) entry ;;; ret 0
  end.

Definition dwrite (dv : fat32_vnode) (off : Z) (de : list Z) : M (fat U) Z := dwrite_raw dv off de.

(** DIR_FstClusHI, DIR_FstClusLO and DIR_FileSize of an entry. *)
Definition set_clus (c : Z) (de : list Z) : list Z :=
  wr16 (wr16 de 20 (Z.land (Z.shiftr c 16) 65535)) 26 (Z.land c 65535).
Definition set_size_de (n : Z) (de : list Z) : list Z := wr32 de 28 n.

Definition sync_dirent (fv : fat32_vnode) : M (fat U) Z :=
  if pdir_clus fv =? 0 then ret 0
  else
    o <- seek (pdir_clus fv) (dent_off fv) ;;
    match o with
    | None => ret (-1)
    | Some c =>
        de <- sread (ent_sec c (dent_off fv)) (ent_bo (dent_off fv)) 32 ;;
        swrite (ent_sec c (dent_off fv)) (ent_bo (dent_off fv))
               (set_clus (first_clus fv) (set_size_de (file_size fv) de)) ;;;
        ret 0
    end.

Definition dwrite_lfn (dv : fat32_vnode) (off lfn_cnt : Z) (name de : list Z) : M (fat U) Z :=
  if lfn_cnt =? 0 then dwrite dv off de
  else
    r <- fold_upto (Z.to_nat lfn_cnt) 0
           (fun k off =>
              w <- dwrite_raw dv off
                     (nth (Z.to_nat k) (lfn_entries name lfn_cnt (lfn_checksum (DIR_Name de))) []) ;;
              if w <? 0 then ret (inr tt) else ret (inl (u32 (off + 32)))) off ;;
    match r with
    | inl off' => dwrite_raw dv off' de
    | inr _ => ret (-1)
    end.

(** Locals: off, expected_seq, lfn_cnt. *)
Definition count_body (dv : fat32_vnode) (x : Z * Z * Z) : M (fat U) (Z * Z * Z + Z) :=
  let '(off, expected, cnt) := x in
  o <- seek (first_clus dv) off ;;
  match o with
  | None => ret (inr cnt)
  | Some c =>
      d <- sread (ent_sec c off) (ent_bo off) 32 ;;
      if negb (DIR_Attr d =? ATTR_LONG_NAME) then ret (inr cnt)
      else if Z.ldiff (getz d 0) LFN_LAST =? expected
      then if off =? 0 then ret (inr (cnt + 1))
           else ret (inl (u32 (off - 32), u8 (expected + 1), cnt + 1))
      else ret (inr cnt)
  end.

Definition count_lfn_backwards (dv : fat32_vnode) (short_off : Z) : M (fat U) Z :=
  if short_off <? 32 then ret 0
  else loop (Z.to_nat (short_off / 32) + 1) (count_body dv) (short_off - 32, 1, 0).

(** *** File data *)

Definition skip_body (_ : Z) (c : Z) : M (fat U) (Z + Z) :=
  if in_chain c then n <- read_fat c ;; ret (inl n) else ret (inr c).

(** Locals: c, in, total, and what a kernel destination holds so far. *)
Definition fread_body (d : dest) (n : Z) (x : Z * Z * Z * list Z) :
  M (fat U) (Z * Z * Z * list Z + Z * list Z) :=
  let '(c, inn, total, acc) := x in
  if negb ((total <? n) && in_chain c) then ret (inr (total, acc))
  else
    let sec := u32 (clus_to_sec c + inn / fm_bps fm) in
    let bo := inn mod fm_bps fm in
    let len := Z.min (fm_bps fm - bo) (n - total) in
    tmp <- sread sec bo len ;;
    u <- gets fa_usr ;;
    let '(ok, (acc', u')) := either_copyout d total acc tmp u in
    modify (set_fusr u') ;;;
    if negb ok then ret (inr (-1, acc'))
    else if inn + len >=? clus_bytes
    then c' <- read_fat c ;; ret (inl (c', 0, total + len, acc'))
    else ret (inl (c, inn + len, total + len, acc')).

(** fread and fread_kernel differ only in how they deliver the bytes. *)
Definition fread_to (d : dest) (fv : fat32_vnode) (n off : Z) : M (fat U) (Z * list Z) :=
  if off >=? file_size fv then ret (0, [])
  else
    let n := if u32 (off + n) >? file_size fv then file_size fv - off else u32 n in
    r <- fold_upto (Z.to_nat (off / clus_bytes)) 0 skip_body (first_clus fv) ;;
    let c := match r with inl c => c | inr c => c end in
    loop (Z.to_nat (n / fm_bps fm) + 3) (fread_body d n) (c, off mod clus_bytes, 0, []).

Definition fread (fv : fat32_vnode) (buf n off : Z) : M (fat U) Z :=
  r <- fread_to (DUser buf) fv n off ;; ret (s32 (fst r)).
Definition fread_kernel (fv : fat32_vnode) (n off : Z) : M (fat U) (Z * list Z) :=
  r <- fread_to DKernel fv n off ;; ret (s32 (fst r), snd r).

(** [nx = alloc_clus(fm); if(!nx) ...; write_fat(fm,c,nx); write_fat(fm,nx,EOC)] *)
Definition append_clus (c : Z) : M (fat U) Z :=
  nx <- alloc_clus ;;
  if nx =? 0 then ret 0 else write_fat c nx ;;; write_fat nx FAT32_EOC ;;; ret nx.

Definition wskip_body (_ : Z) (c : Z) : M (fat U) (Z + unit) :=
  nx <- read_fat c ;;
  if nx >=? FAT32_EOC_MIN
  then nx <- append_clus c ;; if nx =? 0 then ret (inr tt) else ret (inl nx)
  else ret (inl nx).

(** Locals: c, in, total.  [Some total] leaves the loop, [None] returns -1. *)
Definition fwrite_body (buf n : Z) (x : Z * Z * Z) : M (fat U) (Z * Z * Z + option Z) :=
  let '(c, inn, total) := x in
  if negb (total <? n) then ret (inr (Some total))
  else
    c1 <- (if c >=? FAT32_EOC_MIN then alloc_clus else ret c) ;;
    if (c >=? FAT32_EOC_MIN) && (c1 =? 0) then ret (inr (Some total))
    else
      let inn := if c >=? FAT32_EOC_MIN then 0 else inn in
      let sec := u32 (clus_to_sec c1 + inn / fm_bps fm) in
      let bo := inn mod fm_bps fm in
      let len := Z.min (fm_bps fm - bo) (n - total) in
      u <- gets fa_usr ;;
      let '(ok, tmp, u') := copyin u (buf + total) len in
      modify (set_fusr u') ;;;
      if negb ok then ret (inr None)
      else
        swrite sec bo tmp ;;;
        if inn + len >=? clus_bytes
        then
          nx <- read_fat c1 ;;
          if (nx >=? FAT32_EOC_MIN) && (total + len <? n)
          then nx <- append_clus c1 ;;
               if nx =? 0 then ret (inr (Some (total + len))) else ret (inl (nx, 0, total + len))
          else ret (inl (nx, 0, total + len))
        else ret (inl (c1, inn + len, total + len)).

(** The result, the vnode, and whether vp->size becomes the new size. *)
Definition fwrite (fv : fat32_vnode) (buf n off : Z) : M (fat U) (Z * fat32_vnode * bool) :=
  c0 <- (if first_clus fv =? 0 then alloc_clus else ret (first_clus fv)) ;;
  if c0 =? 0 then ret (-1, fv, false)
  else
    let fv := set_first_clus c0 fv in
    let n := u32 n in
    r <- fold_upto (Z.to_nat (off / clus_bytes)) 0 wskip_body c0 ;;
    match r with
    | inr _ => ret (-1, fv, false)
    | inl c =>
        o <- loop (Z.to_nat (n / fm_bps fm) + 3) (fwrite_body buf n) (c, off mod clus_bytes, 0) ;;
        match o with
        | None => ret (-1, fv, false)
        | Some total =>
            let grew := u32 (off + total) >? file_size fv in
            let fv := if grew then set_file_size (u32 (off + total)) fv else fv in
            (if is_dir fv then ret 0 else sync_dirent fv) ;;;
            ret (s32 total, fv, grew)
        end
    end.

(** Truncation to zero length; vp->size becomes 0 too. *)
Definition ftrunc (fv : fat32_vnode) : M (fat U) fat32_vnode :=
  when (negb (first_clus fv =? 0)) (free_chain (first_clus fv)) ;;;
  let fv := set_file_size 0 (set_first_clus 0 fv) in
  (if is_dir fv then ret 0 else sync_dirent fv) ;;;
  ret fv.

(** *** readdir *)

(** The walk of freaddir to an earlier entry stops at the end of the chain. *)
Definition seek_sat (c off : Z) : M (fat U) Z :=
  r <- fold_upto (Z.to_nat (off / (clus_bytes / 32 * 32))) 0
         (fun _ c => n <- read_fat c ;;
                     if n >=? FAT32_EOC_MIN then ret (inr c) else ret (inl n)) c ;;
  ret (match r with inl c' => c' | inr c' => c' end).

(** Locals of the backward scan: back_off, expected_seq, lfn_buf, total_lfn_chars. *)
Definition back_body (fv : fat32_vnode) (cksum : Z) (x : Z * Z * list Z * Z) :
  M (fat U) (Z * Z * list Z * Z + list Z * Z) :=
  let '(back, expected, buf, total) := x in
  if back <? 32 then ret (inr (buf, total))
  else
    let off := back - 32 in
    c <- seek_sat (first_clus fv) off ;;
    pf <- sread (ent_sec c off) (ent_bo off) 1 ;;
    if (getz pf 0 =? 0) || (getz pf 0 =? 229) then ret (inr (buf, total))
    else
      prev <- sread (ent_sec c off) (ent_bo off) 32 ;;
      if negb (DIR_Attr prev =? ATTR_LONG_NAME) || negb (getz prev 13 =? cksum) ||
         negb (Z.ldiff (getz prev 0) LFN_LAST =? expected)
      then ret (inr (buf, total))
      else
        let start := (expected - 1) * LFN_CHARS_PER_ENTRY in
        let put k0 k1 buf :=
          if start + k1 <=? 260
          then fold_left (fun b i => putz b (start + i) (lfn_char prev i)) (seqZ k0 (k1 - k0)) buf
          else buf in
        ret (inl (off, expected + 1, put 11 13 (put 5 11 (put 0 5 buf)), start + 13)).

(** The characters before the terminator, without padding and non-ASCII. *)
Fixpoint dirent_name (buf : list Z) (i : Z) (n : nat) (acc : list Z) : outcome (list Z) :=
  match n with
  | O => Ok acc
  | S n' =>
      if negb (zlen acc <? 255) then Ok acc
      else if i >=? 260 then Fault FBounds
      else
        let uc := getz buf i in
        if uc =? 0 then Ok acc
        else dirent_name buf (i + 1) n' (if uc <? 128 then acc ++ [uc] else acc)
  end.

(** struct vdirent: a 16-bit inode number and a 256-byte name; [junk] is what
    the bytes after the terminator hold. *)
Definition vdirent_bytes (inum : Z) (name junk : list Z) : list Z :=
  le_enc 2 inum ++ take 256 (name ++ [0] ++ junk).

Definition readdir_body (junkb junk : list Z) (fv : fat32_vnode) (buf off : Z) (sec b : Z) (pos : Z) :
  M (fat U) (Z + Z) :=
  let next := u32 (pos + 32) in
  if pos <? off then ret (inl next)
  else
    f <- sread sec b 1 ;;
    if getz f 0 =? 0 then ret (inr (-1))
    else if getz f 0 =? 229 then ret (inl next)
    else
      d <- sread sec b 32 ;;
      if DIR_Attr d =? ATTR_LONG_NAME then ret (inl next)
      else
        '(lbuf, total) <- loop (Z.to_nat (pos / 32) + 2)
                            (back_body fv (lfn_checksum (DIR_Name d))) (pos, 1, junkb, 0) ;;
        name <- (if total >? 0 then lift (dirent_name lbuf 0 (Z.to_nat total) [])
                 else ret (rebuilt (DIR_Name d))) ;;
        u <- gets fa_usr ;;
        let '(ok, u') := copyout u buf (vdirent_bytes (DIR_FstClus d) name junk) in
        modify (set_fusr u') ;;;
        ret (inr (if (ok : bool) then s32 next else -1)).

Definition freaddir (junkb junk : list Z) (fv : fat32_vnode) (buf off : Z) : M (fat U) Z :=
  if negb (is_dir fv) then ret (-1)
  else
    r <- scan_chain (first_clus fv) (readdir_body junkb junk fv buf off) 0 ;;
    ret (match r with inl _ => -1 | inr v => v end).

(** *** unlink *)

(** funlink's check that a directory holds nothing but "." and "..": the
    first 64 bytes of the first sector of the first cluster are skipped. *)
Definition empty_body (first : bool) (c : Z) : M (fat U) bool :=
  r <- fold_upto (Z.to_nat (sec_per_clus fm)) 0
         (fun s _ =>
            let skip := if first && (s =? 0) then 2 else 0 in
            fold_upto (Z.to_nat (fm_bps fm / 32 - skip)) skip
              (fun k _ =>
                 f <- sread (u32 (clus_to_sec c + s)) (32 * k) 1 ;;
                 if negb (getz f 0 =? 0) && negb (getz f 0 =? 229)
                 then ret (inr tt) else ret (inl tt)) tt) tt ;;
  ret (match r with inl _ => true | inr _ => false end).

Definition dir_is_empty (c : Z) : M (fat U) bool :=
  loop chain_fuel
    (fun '(c, first) =>
       if negb (in_chain c) then ret (inr true)
       else
         e <- empty_body first c ;;
         if (e : bool) then n <- read_fat c ;; ret (inl (n, false)) else ret (inr false))
    (c, true).

Definition funlink (junk : list Z) (dv : fat32_vnode) (nm : list Z) : M (fat U) Z :=
  r <- dlookup junk dv nm ;;
  match r with
  | None => ret (-1)
  | Some (de, off, _) =>
      ok <- (if negb (Z.land (DIR_Attr de) ATTR_DIRECTORY =? 0)
             then dir_is_empty (DIR_FstClus de) else ret true) ;;
      if negb ok then ret (-1)
      else
        when (negb (DIR_FstClus de =? 0)) (free_chain (DIR_FstClus de)) ;;;
        n <- count_lfn_backwards dv off ;;
        let first_off := u32 (off - n * 32) in
        r <- fold_upto (Z.to_nat (n + 1)) 0
               (fun i _ =>
                  let this := u32 (first_off + i * 32) in
                  o <- seek (first_clus dv) this ;;
                  match o with
                  | None => ret (inr tt)
                  | Some c => swrite (ent_sec c this) (ent_bo this) [229] ;;; ret (inl tt)
                  end) tt ;;
        ret (match r with inl _ => 0 | inr _ => -1 end)
  end.

End Ops.
