(* ===== verification/FatTable.v ===== *)
(** FatTable: the file allocation table as a map from clusters to successors:
    write_fat updates one entry of it (and of its mirror), alloc_clus takes
    the lowest free cluster, and free_chain frees exactly one chain. *)

From S2P Require Import Prelude Locks Log Block Umem FatNames Fat32.

(** The volumes the theorems speak of: 512-byte sectors, a table large enough
    for all clusters, and sector numbers that fit in 32 bits. *)
Record fat_geom (fm : fat32_mount) : Prop := Fat_geom {
  fg_bps : fm_bps fm = 512;
  fg_spb : fm_spb fm = 2;
  fg_spc : 1 <= sec_per_clus fm <= 128;
  fg_rsvd : 1 <= rsvd_sec_cnt fm < 65536;
  fg_nf : 1 <= num_fats fm <= 2;
  fg_sz : 2 <= fat_sz fm;
  fg_first : first_data_sec fm = rsvd_sec_cnt fm + num_fats fm * fat_sz fm;
  fg_tot : 0 <= tot_clus fm;
  fg_cover : 4 * (tot_clus fm + 2) <= 512 * fat_sz fm;
  fg_small : tot_clus fm + 2 < FAT32_EOC_MIN;
  fg_end : first_data_sec fm + tot_clus fm * sec_per_clus fm < 2 ^ 32
}.

(** *** The device as an array of bytes *)

(** [n] bytes from byte address [a] (inside one block). *)
Definition bytes (v : Z -> block) (a n : Z) : list Z := slice (v (a / 1024)) (a mod 1024) n.
Definition ent (v : Z -> block) (a : Z) : Z := le_dec (bytes v a 4).

Definition blocks_ok (v : Z -> block) : Prop :=
  forall b, length (v b) = 1024%nat /\ Forall is_byte (v b).

(** A range of addresses inside one block. *)
Definition inblk (a n : Z) : Prop := 0 <= a /\ 0 <= n /\ a mod 1024 + n <= 1024.

Definition vwr (v : Z -> block) (a : Z) (d : list Z) : Z -> block :=
  fun b => if b =? a / 1024 then splice (v b) (a mod 1024) d else v b.

Lemma bytes_vwr_eq v a d : blocks_ok v -> inblk a (zlen d) -> bytes (vwr v a d) a (zlen d) = d.
Proof.
  intros Hv (Ha & _ & Hi). unfold bytes, vwr. rewrite Z.eqb_refl.
  apply slice_splice_eq; [dlia|]. destruct (Hv (a / 1024)) as [Hl _]. unfold zlen in *. lia.
Qed.

Lemma bytes_vwr_ne v a d a' n :
  blocks_ok v -> inblk a (zlen d) -> inblk a' n -> a' + n <= a \/ a + zlen d <= a' ->
  bytes (vwr v a d) a' n = bytes v a' n.
Proof.
  intros Hv (Ha & _ & Hi) (Ha' & Hn & Hi') Hd. unfold bytes, vwr.
  destruct (a' / 1024 =? a / 1024) eqn:E; [|done].
  destruct (Hv (a' / 1024)) as [Hl _].
  apply slice_splice_ne; unfold zlen in *; try rewrite Hl; dlia.
Qed.

Lemma blocks_ok_vwr v a d :
  blocks_ok v -> inblk a (zlen d) -> Forall is_byte d -> blocks_ok (vwr v a d).
Proof.
  intros Hv (Ha & _ & Hi) Hd b. unfold vwr. destruct (Hv b) as [Hl Hb].
  destruct (b =? a / 1024); [|done]. split.
  - rewrite length_splice; [done|dlia|]. unfold zlen in *. lia.
  - unfold splice. rewrite !Forall_app. auto using Forall_take, Forall_drop.
Qed.

(** *** Table entries *)

(** Bit masks: the 28-bit value of an entry and its reserved high bits. *)
Definition val28 (x : Z) : Z := Z.land x 268435455.
Definition mix (e x : Z) : Z := Z.lor (Z.land e 4026531840) (Z.land x 268435455).

Lemma val28_ones x : val28 x = x mod 2 ^ 28.
Proof. unfold val28. change 268435455 with (Z.ones 28). by rewrite Z.land_ones. Qed.

Lemma val28_id x : 0 <= x <= FAT32_EOC -> val28 x = x.
Proof. intros. rewrite val28_ones. unfold FAT32_EOC in *. apply Z.mod_small. lia. Qed.

Lemma val28_range x : 0 <= val28 x < 2 ^ 28.
Proof. rewrite val28_ones. apply Z.mod_pos_bound. lia. Qed.

Lemma val28_mix e x : val28 (mix e x mod 256 ^ 4) = val28 x.
Proof.
  unfold val28, mix. change (256 ^ 4) with (2 ^ 32). rewrite <-Z.land_ones by lia.
  rewrite <-Z.land_assoc. change (Z.land (Z.ones 32) 268435455) with 268435455.
  rewrite Z.land_lor_distr_l, <-!Z.land_assoc.
  change (Z.land 4026531840 268435455) with 0.
  change (Z.land 268435455 268435455) with 268435455. by rewrite Z.land_0_r.
Qed.

Section Table.
  Context {U : Type} `{UserMem U} (fm : fat32_mount) (Hg : fat_geom fm).

Definition dvw (s : fat U) : Z -> block := b_view (fa_b s) (fm_dev fm).

(** Storing [d] at byte address [a] of the device. *)
Definition wr_at (a : Z) (d : list Z) (s : fat U) : fat U :=
  set_fb (Bst (bupd (b_view (fa_b s)) (fm_dev fm) (a / 1024)
                    (splice (dvw s (a / 1024)) (a mod 1024) d))
              (b_log (fa_b s)) (b_out (fa_b s))) s.

Lemma dvw_wr_at a d s b : dvw (wr_at a d s) b = vwr (dvw s) a d b.
Proof.
  unfold dvw, wr_at, vwr, bupd. cbn. rewrite Z.eqb_refl. cbn [andb].
  destruct (b =? a / 1024) eqn:E; [|done]. by assert (b = a / 1024) as -> by lia.
Qed.

Lemma bytes_ext v v' a n : (forall b, v b = v' b) -> bytes v a n = bytes v' a n.
Proof. intros E. unfold bytes. by rewrite E. Qed.

Lemma blocks_ok_ext v v' : (forall b, v b = v' b) -> blocks_ok v -> blocks_ok v'.
Proof. intros E Hv b. rewrite <-E. apply Hv. Qed.

Lemma bytes_wr_eq a d s :
  blocks_ok (dvw s) -> inblk a (zlen d) -> bytes (dvw (wr_at a d s)) a (zlen d) = d.
Proof.
  intros. rewrite (bytes_ext _ _ _ _ (dvw_wr_at a d s)). by apply bytes_vwr_eq.
Qed.

Lemma bytes_wr_ne a d s a' n :
  blocks_ok (dvw s) -> inblk a (zlen d) -> inblk a' n -> a' + n <= a \/ a + zlen d <= a' ->
  bytes (dvw (wr_at a d s)) a' n = bytes (dvw s) a' n.
Proof.
  intros. rewrite (bytes_ext _ _ _ _ (dvw_wr_at a d s)). by apply bytes_vwr_ne.
Qed.

Lemma blocks_ok_wr a d s :
  blocks_ok (dvw s) -> inblk a (zlen d) -> Forall is_byte d -> blocks_ok (dvw (wr_at a d s)).
Proof.
  intros. eapply blocks_ok_ext; [intros b; symmetry; apply dvw_wr_at|]. by apply blocks_ok_vwr.
Qed.

Lemma sec_addr sec off : 0 <= sec -> 0 <= off < 512 ->
  sec_blk fm sec = (512 * sec + off) / 1024 /\ sec_off fm sec off = (512 * sec + off) mod 1024.
Proof. intros. unfold sec_blk, sec_off. rewrite (fg_spb _ Hg), (fg_bps _ Hg). dlia. Qed.

(** The byte address of entry [c] of the first table. *)
Definition fa (c : Z) : Z := 512 * rsvd_sec_cnt fm + 4 * c.
Definition valid (c : Z) : Prop := 2 <= c < tot_clus fm + 2.

(** The successor of cluster [c] that the table records. *)
Definition next (s : fat U) (c : Z) : Z := val28 (ent (dvw s) (fa c)).

Lemma fat_sec_addr c : 0 <= c < tot_clus fm + 2 ->
  0 <= fat_sec fm c /\ (num_fats fm > 1 -> fat_sec fm c + fat_sz fm < 2 ^ 32) /\ 0 <= fat_eo fm c < 512 /\
  fa c = 512 * fat_sec fm c + fat_eo fm c /\ fat_eo fm c mod 4 = 0.
Proof.
  intros Hc. destruct Hg as [E1 E2 E3 E4 E5 E6 E7 E8 E9 E10 E11]. unfold fat_sec, fat_eo, fa, FAT32_EOC_MIN in *.
  rewrite E1. rewrite (u32_small (c * 4)) by lia.
  assert (0 <= tot_clus fm * sec_per_clus fm) by nia.
  assert (num_fats fm = 1 \/ num_fats fm = 2) as [En|En] by lia; rewrite En in *;
    rewrite u32_small by dlia; dlia.
Qed.

Lemma inblk_fa c : 0 <= c < tot_clus fm + 2 -> inblk (fa c) 4 /\ inblk (fa c + 512 * fat_sz fm) 4.
Proof.
  intros Hc. destruct (fg_rsvd _ Hg). pose proof (fg_sz _ Hg). unfold inblk, fa. dlia.
Qed.

Lemma read_fat_run c s : 0 <= c < tot_clus fm + 2 -> read_fat fm c s = Ok (next s c, s).
Proof.
  intros Hc. destruct (fat_sec_addr c Hc) as (H1 & H2 & H3 & H4 & _).
  destruct (sec_addr (fat_sec fm c) (fat_eo fm c)) as [E1 E2]; [done..|].
  unfold read_fat, ondisk, zoom, bind, bread, gets, ret. cbn. unfold next, ent, bytes, rd, val28.
  rewrite E1, E2, H4. destruct s as [b k p u], b as [v l o]. done.
Qed.

Lemma bmodify_wr blk bo d s a :
  blk = a / 1024 -> bo = a mod 1024 ->
  bmodify fm blk (fun x => splice x bo d) s = Ok (tt, wr_at a d s).
Proof. intros -> ->. done. Qed.

Lemma bmodify_ent blk bo x s a :
  blk = a / 1024 -> bo = a mod 1024 ->
  bmodify fm blk (put_ent bo x) s = Ok (tt, wr_at a (le_enc 4 (mix (ent (dvw s) a) x)) s).
Proof. intros -> ->. done. Qed.

(** The effect of write_fat. *)
Definition set_next (c x : Z) (s : fat U) : fat U :=
  let s1 := wr_at (fa c) (le_enc 4 (mix (ent (dvw s) (fa c)) x)) s in
  let a2 := fa c + 512 * fat_sz fm in
  if num_fats fm >? 1 then wr_at a2 (le_enc 4 (mix (ent (dvw s1) a2) x)) s1 else s1.

Lemma write_fat_run c x s :
  0 <= c < tot_clus fm + 2 -> write_fat fm c x s = Ok (tt, set_next c x s).
Proof.
  intros Hc. destruct (fat_sec_addr c Hc) as (H1 & H2 & H3 & H4 & _).
  destruct (sec_addr (fat_sec fm c) (fat_eo fm c)) as [E1 E2]; [done..|].
  pose proof (fg_sz _ Hg). unfold write_fat.
  erewrite bind_ok by (apply (bmodify_ent _ _ _ _ (fa c)); congruence).
  unfold set_next. destruct (num_fats fm >? 1) eqn:En; [|done]. cbn [when].
  assert (u32 (fat_sec fm c + fat_sz fm) = fat_sec fm c + fat_sz fm) as -> by (apply u32_small; lia).
  destruct (sec_addr (fat_sec fm c + fat_sz fm) (fat_eo fm c)) as [F1 F2]; [lia|done|].
  replace (512 * (fat_sec fm c + fat_sz fm) + fat_eo fm c) with (fa c + 512 * fat_sz fm) in F1, F2
    by lia.
  unfold bmirror. assert (sec_blk fm (fat_sec fm c + fat_sz fm) =? sec_blk fm (fat_sec fm c) = false)
    as -> by (unfold sec_blk; rewrite (fg_spb _ Hg); dlia).
  by apply bmodify_ent.
Qed.

(** [s'] is [s] with a different disk. *)
Definition same_but_disk (s s' : fat U) : Prop :=
  fa_lock s' = fa_lock s /\ fa_pid s' = fa_pid s /\ fa_usr s' = fa_usr s /\
  b_log (fa_b s') = b_log (fa_b s) /\ b_out (fa_b s') = b_out (fa_b s) /\
  forall dev b, dev <> fm_dev fm -> b_view (fa_b s') dev b = b_view (fa_b s) dev b.

Lemma same_but_disk_refl s : same_but_disk s s.
Proof. done. Qed.

Lemma same_but_disk_trans s s' s'' :
  same_but_disk s s' -> same_but_disk s' s'' -> same_but_disk s s''.
Proof.
  intros (A1 & A2 & A3 & A4 & A5 & A6) (B1 & B2 & B3 & B4 & B5 & B6).
  split_and!; try congruence. intros dev b Hd. by rewrite B6, A6.
Qed.

Lemma same_but_disk_wr a d s : same_but_disk s (wr_at a d s).
Proof.
  split_and!; try done. intros dev b Hd. unfold wr_at. cbn. apply bupd_ne. congruence.
Qed.

Lemma same_but_disk_set c x s : same_but_disk s (set_next c x s).
Proof.
  unfold set_next. destruct (_ >? 1); eauto using same_but_disk_trans, same_but_disk_wr.
Qed.

Lemma bytes_wr_eq4 a v s : blocks_ok (dvw s) -> inblk a 4 ->
  bytes (dvw (wr_at a (le_enc 4 v) s)) a 4 = le_enc 4 v.
Proof. apply (bytes_wr_eq a (le_enc 4 v) s). Qed.

Lemma bytes_wr_ne4 a v s a' n : blocks_ok (dvw s) -> inblk a 4 -> inblk a' n ->
  a' + n <= a \/ a + 4 <= a' ->
  bytes (dvw (wr_at a (le_enc 4 v) s)) a' n = bytes (dvw s) a' n.
Proof. apply (bytes_wr_ne a (le_enc 4 v) s). Qed.

Lemma blocks_ok_set c x s :
  0 <= c < tot_clus fm + 2 -> blocks_ok (dvw s) -> blocks_ok (dvw (set_next c x s)).
Proof.
  intros Hc Hv. destruct (inblk_fa c Hc) as [I1 I2]. unfold set_next.
  destruct (_ >? 1); repeat apply blocks_ok_wr; auto using le_enc_bytes.
Qed.

(** Bytes outside the entry and its mirror are untouched. *)
Lemma bytes_set_out c x s a n :
  0 <= c < tot_clus fm + 2 -> blocks_ok (dvw s) -> inblk a n ->
  a + n <= fa c \/ fa c + 4 <= a ->
  (num_fats fm > 1 -> a + n <= fa c + 512 * fat_sz fm \/ fa c + 512 * fat_sz fm + 4 <= a) ->
  bytes (dvw (set_next c x s)) a n = bytes (dvw s) a n.
Proof.
  intros Hc Hv Hi H1 H2. destruct (inblk_fa c Hc) as [I1 I2]. unfold set_next.
  destruct (_ >? 1) eqn:E.
  - rewrite bytes_wr_ne; auto; [|by apply blocks_ok_wr; auto using le_enc_bytes|apply H2; lia].
    rewrite bytes_wr_ne; auto.
  - rewrite bytes_wr_ne; auto.
Qed.

Lemma next_set_eq c x s :
  0 <= c < tot_clus fm + 2 -> blocks_ok (dvw s) -> next (set_next c x s) c = val28 x.
Proof.
  intros Hc Hv. destruct (inblk_fa c Hc) as [I1 I2]. unfold next, ent.
  assert (bytes (dvw (set_next c x s)) (fa c) 4 = le_enc 4 (mix (ent (dvw s) (fa c)) x)) as ->.
  { unfold set_next. pose proof (fg_sz _ Hg). destruct (_ >? 1).
    - rewrite bytes_wr_ne; auto using blocks_ok_wr, le_enc_bytes; [|left; lia].
      by apply bytes_wr_eq4.
    - by apply bytes_wr_eq4. }
  rewrite le_dec_enc. apply val28_mix.
Qed.

Lemma next_set_ne c c' x s :
  0 <= c < tot_clus fm + 2 -> 0 <= c' < tot_clus fm + 2 -> c' <> c -> blocks_ok (dvw s) ->
  next (set_next c x s) c' = next s c'.
Proof.
  intros Hc Hc' Hne Hv. destruct (inblk_fa c' Hc') as [I1 I2]. unfold next, ent.
  rewrite bytes_set_out; auto; unfold fa in *; [lia|]. pose proof (fg_cover _ Hg). lia.
Qed.

(** The second copy of the table agrees with the first. *)
Definition mirrored (s : fat U) : Prop :=
  num_fats fm > 1 -> forall c, 0 <= c < tot_clus fm + 2 ->
  val28 (ent (dvw s) (fa c + 512 * fat_sz fm)) = next s c.

Lemma mirrored_set c x s :
  0 <= c < tot_clus fm + 2 -> blocks_ok (dvw s) -> mirrored s -> mirrored (set_next c x s).
Proof.
  intros Hc Hv Hm Hn c' Hc'. destruct (inblk_fa c Hc) as [I1 I2], (inblk_fa c' Hc') as [J1 J2].
  pose proof (fg_cover _ Hg) as Hco. unfold set_next. assert (num_fats fm >? 1 = true) as En by lia.
  rewrite En. set (s1 := wr_at (fa c) _ s).
  assert (blocks_ok (dvw s1)) as Hv1 by (apply blocks_ok_wr; auto using le_enc_bytes).
  destruct (decide (c' = c)) as [->|Hne].
  - unfold ent at 1. rewrite bytes_wr_eq4 by done. rewrite le_dec_enc, val28_mix.
    symmetry. pose proof (next_set_eq c x s Hc Hv) as E. unfold set_next in E.
    rewrite En in E. exact E.
  - pose proof (next_set_ne c c' x s Hc Hc' Hne Hv) as E. unfold set_next in E. rewrite En in E.
    fold s1 in E. rewrite E, <-(Hm Hn c' Hc'). unfold ent at 1.
    rewrite bytes_wr_ne4; auto; [|unfold fa; lia].
    unfold s1. rewrite bytes_wr_ne4; auto. unfold fa; lia.
Qed.

(** Data areas: everything from the first data sector on. *)
Lemma bytes_set_data c x s a n :
  0 <= c < tot_clus fm + 2 -> blocks_ok (dvw s) -> inblk a n ->
  512 * first_data_sec fm <= a -> bytes (dvw (set_next c x s)) a n = bytes (dvw s) a n.
Proof.
  intros Hc Hv Hi Ha. pose proof (fg_cover _ Hg). pose proof (fg_sz _ Hg).
  rewrite (fg_first _ Hg) in Ha. pose proof (fg_nf _ Hg).
  apply bytes_set_out; auto; unfold fa; [right; nia|]. intros. right. nia.
Qed.

(** *** Chains *)

Inductive chain (s : fat U) : Z -> list Z -> Prop :=
| chain_last c : valid c -> FAT32_EOC_MIN <= next s c -> chain s c [c]
| chain_cons c l : valid c -> chain s (next s c) l -> chain s c (c :: l).

Lemma chain_valid s c l : chain s c l -> valid c.
Proof. by destruct 1. Qed.

Lemma chain_all_valid s c l : chain s c l -> Forall valid l.
Proof. induction 1; by constructor. Qed.

Lemma valid_in_chain c : valid c -> in_chain c = true.
Proof. unfold valid, in_chain. pose proof (fg_small _ Hg). lia. Qed.

Lemma valid_lt_eoc c : valid c -> c < FAT32_EOC_MIN.
Proof. unfold valid. pose proof (fg_small _ Hg). lia. Qed.

(** The table determines the chain of a cluster. *)
Lemma chain_unique s c l l' : chain s c l -> chain s c l' -> l = l'.
Proof.
  intros Hl. revert l'. induction Hl as [c Hc He|c l Hc Hl IH]; intros l' Hl'.
  - inversion Hl' as [|? l'' _ Hl'']; subst; [done|].
    apply chain_valid, valid_lt_eoc in Hl''. lia.
  - inversion Hl' as [? _ He|? l'' _ Hl'']; subst.
    + apply chain_valid, valid_lt_eoc in Hl. lia.
    + f_equal. by apply IH.
Qed.

Lemma chain_suffix s c l x : chain s c l -> x ∈ l -> exists l1 l2, l = l1 ++ l2 /\ chain s x l2.
Proof.
  induction 1 as [c Hc He|c l Hc Hl IH]; intros Hx.
  - apply list_elem_of_singleton in Hx as ->. exists [], [c]. split; [done|by constructor].
  - apply elem_of_cons in Hx as [->|Hx].
    + exists [], (c :: l). split; [done|by constructor].
    + destruct (IH Hx) as (l1 & l2 & -> & Hs). by exists (c :: l1), l2.
Qed.

(** A chain that ends never visits a cluster twice. *)
Lemma chain_nodup s c l : chain s c l -> NoDup l.
Proof.
  induction 1 as [c Hc He|c l Hc Hl IH]; [apply NoDup_singleton|].
  constructor; [|done]. intros Hx.
  destruct (chain_suffix _ _ _ _ Hl Hx) as (l1 & l2 & -> & Hs).
  assert (chain s c (c :: l1 ++ l2)) as Hc2 by (by constructor).
  pose proof (chain_unique _ _ _ _ Hs Hc2) as E. apply (f_equal length) in E.
  cbn in E. rewrite length_app in E. lia.
Qed.

Lemma chain_fits s c l : chain s c l -> (length l < chain_fuel fm)%nat.
Proof.
  intros Hc. pose proof (chain_nodup _ _ _ Hc) as Hn. pose proof (chain_all_valid _ _ _ Hc) as Hv.
  assert (length l <= length (seqZ 2 (tot_clus fm)))%nat as Hl.
  { apply submseteq_length, NoDup_submseteq; [done|]. intros x Hx.
    rewrite Forall_forall in Hv. apply Hv in Hx. unfold valid in Hx. apply elem_of_seqZ. lia. }
  rewrite length_seqZ in Hl. unfold chain_fuel. lia.
Qed.

Lemma chain_set s c0 x c l :
  valid c0 -> blocks_ok (dvw s) -> c0 ∉ l -> chain s c l -> chain (set_next c0 x s) c l.
Proof.
  intros H0 Hv Hn Hc. unfold valid in H0.
  induction Hc as [c Hc He|c l Hc Hl IH]; unfold valid in Hc; rewrite not_elem_of_cons in Hn.
  - constructor; [done|]. rewrite next_set_ne; auto; [lia|lia|naive_solver].
  - constructor; [done|]. rewrite next_set_ne; auto; [|lia|lia|naive_solver]. apply IH. tauto.
Qed.

(** What freeing the clusters of [l] leaves. *)
Record freed_clus (s s' : fat U) (l : list Z) : Prop := Freed_clus {
  fc_in : forall c, c ∈ l -> next s' c = FAT32_FREE;
  fc_out : forall c, valid c -> c ∉ l -> next s' c = next s c;
  fc_data : forall a n, inblk a n -> 512 * first_data_sec fm <= a ->
            bytes (dvw s') a n = bytes (dvw s) a n;
  fc_ok : blocks_ok (dvw s');
  fc_mirror : mirrored s -> mirrored s';
  fc_rest : same_but_disk s s'
}.

Lemma free_loop s c l :
  blocks_ok (dvw s) -> chain s c l -> forall fuel, (length l < fuel)%nat ->
  exists s', loop fuel (free_body fm) c s = Ok (tt, s') /\ freed_clus s s' l.
Proof.
  intros Hv Hc. pose proof (chain_nodup _ _ _ Hc) as Hn. revert s c Hv Hc Hn.
  induction l as [|c' l IH]; intros s c Hv Hc Hn fuel Hf; [inversion Hc|].
  destruct fuel as [|fuel]; [cbn in Hf; lia|]. cbn [loop length] in *.
  assert (c' = c) as -> by (by inversion Hc). apply NoDup_cons in Hn as [Hn1 Hn2].
  pose proof (chain_valid _ _ _ Hc) as Hva. pose proof Hva as Hva'. unfold valid in Hva'.
  assert (free_body fm c s = Ok (if next s c >=? FAT32_EOC_MIN then inr tt else inl (next s c),
                                 set_next c FAT32_FREE s)) as E.
  { unfold free_body. rewrite (valid_in_chain _ Hva). cbn [negb].
    rewrite (bind_ok _ _ _ _ _ (read_fat_run c s ltac:(lia))).
    rewrite (bind_ok _ _ _ _ _ (write_fat_run c FAT32_FREE s ltac:(lia))).
    by destruct (_ >=? _). }
  rewrite (bind_ok _ _ _ _ _ E). set (s1 := set_next c FAT32_FREE s) in *.
  assert (blocks_ok (dvw s1)) as Hv1 by (apply blocks_ok_set; [lia|done]).
  inversion Hc as [? _ He|? ? _ Hl]; subst.
  - assert (next s c >=? FAT32_EOC_MIN = true) as -> by lia. exists s1. split; [done|].
    split; auto.
    + intros x ->%list_elem_of_singleton. unfold s1. by rewrite next_set_eq by (auto; lia).
    + intros x Hx Hi. unfold valid in Hx. apply next_set_ne; auto; [lia|lia|].
      intros ->. apply Hi. by apply list_elem_of_singleton.
    + intros. apply bytes_set_data; auto. lia.
    + intros. apply mirrored_set; auto. lia.
    + apply same_but_disk_set.
  - pose proof (chain_valid _ _ _ Hl) as Hl'. pose proof (valid_lt_eoc _ Hl').
    assert (next s c >=? FAT32_EOC_MIN = false) as -> by lia.
    destruct (IH s1 (next s c)) with (fuel := fuel) as (s' & E' & [F1 F2 F3 F4 F5 F6]);
      [done|by apply chain_set|done|lia|].
    exists s'. split; [done|]. split; auto.
    + intros x [->|Hx]%elem_of_cons; [|by apply F1].
      rewrite F2 by done. unfold s1. by rewrite next_set_eq by (auto; lia).
    + intros x Hx Hi. rewrite not_elem_of_cons in Hi. rewrite F2 by tauto.
      unfold valid in Hx. apply next_set_ne; auto; [lia|lia|tauto].
    + intros a n Ha Hb. rewrite F3 by done. apply bytes_set_data; auto. lia.
    + intros Hm. apply F5, mirrored_set; auto. lia.
    + eapply same_but_disk_trans; [apply same_but_disk_set|exact F6].
Qed.

(** *** The mount's lock *)

Definition locked (s : fat U) : fat U := set_flock (Sleep.Sleeplock true (fa_pid s)) s.
Definition unlocked (s : fat U) : fat U := set_flock Sleep.initsleeplock s.

Lemma lock_run s : Sleep.sl_locked (fa_lock s) = false -> lock_fm s = Ok (tt, locked s).
Proof. intros E. unfold lock_fm, zoom, bind, gets, Sleep.acquiresleep. cbn. by rewrite E. Qed.

Lemma unlock_run s : unlock_fm s = Ok (tt, unlocked s).
Proof. done. Qed.

Lemma free_chain_run s c l :
  blocks_ok (dvw s) -> Sleep.sl_locked (fa_lock s) = false -> chain s c l ->
  exists s', free_chain fm c s = Ok (tt, s') /\ fa_lock s' = Sleep.initsleeplock /\
             freed_clus s (set_flock (fa_lock s) s') l.
Proof.
  intros Hv Hk Hc. unfold free_chain. rewrite (bind_ok _ _ _ _ _ (lock_run s Hk)).
  assert (chain (locked s) c l) as Hc'.
  { clear -Hc. induction Hc; by constructor. }
  destruct (free_loop (locked s) c l Hv Hc' (chain_fuel fm)) as (s' & E & [F1 F2 F3 F4 F5 F6]);
    [by eapply chain_fits|].
  rewrite (bind_ok _ _ _ _ _ E). exists (unlocked s'). split; [done|]. split; [done|].
  destruct F6 as (G1 & G2 & G3 & G4 & G5 & G6). split; auto. by split_and!.
Qed.

Lemma alloc_try_run s c : valid c ->
  alloc_try fm c s = if next s c =? 0 then Ok (Some c, unlocked (set_next c FAT32_EOC s))
                     else Ok (None, s).
Proof.
  intros Hc. unfold valid in Hc. unfold alloc_try.
  rewrite (bind_ok _ _ _ _ _ (read_fat_run c s ltac:(lia))).
  unfold FAT32_FREE. destruct (_ =? 0); [|done].
  by rewrite (bind_ok _ _ _ _ _ (write_fat_run c FAT32_EOC s ltac:(lia))).
Qed.

Lemma alloc_clus_run s :
  Sleep.sl_locked (fa_lock s) = false ->
  (exists c, valid c /\ next s c = FAT32_FREE /\ (forall c', 2 <= c' < c -> next s c' <> FAT32_FREE) /\
     alloc_clus fm s = Ok (c, unlocked (set_next c FAT32_EOC s))) \/
  ((forall c, valid c -> next s c <> FAT32_FREE) /\ alloc_clus fm s = Ok (0, unlocked s)).
Proof.
  intros Hk. pose proof (fg_tot _ Hg). pose proof (fg_small _ Hg). unfold FAT32_EOC_MIN in *.
  unfold alloc_clus. rewrite (bind_ok _ _ _ _ _ (lock_run s Hk)).
  replace (u32 (tot_clus fm + 2) - 2) with (tot_clus fm) by (rewrite u32_small by lia; lia).
  destruct (for_upto_find (alloc_try fm) (fun c => next s c =? 0) id
              (fun c => unlocked (set_next c FAT32_EOC (locked s))) (locked s)
              (Z.to_nat (tot_clus fm)) 2) as [(c & Hc & Hp & Hm & E)|[Hm E]].
  - intros i Hi. rewrite alloc_try_run by (unfold valid; lia). done.
  - left. exists c. split_and!; [unfold valid; lia|unfold FAT32_FREE; lia|..].
    + intros c' Hc'. specialize (Hm c'). unfold FAT32_FREE. lia.
    + rewrite (bind_ok _ _ _ _ _ E). unfold ret, id. unfold set_next. by destruct (_ >? 1).
  - right. split.
    + intros c Hc. specialize (Hm c). unfold FAT32_FREE, valid in *. lia.
    + by rewrite (bind_ok _ _ _ _ _ E).
Qed.

(** The file allocation table behaves as a map: after write_fat of a
    28-bit value to the entry of a cluster, read_fat returns that value for
    the cluster and the old one for every other, both copies of the table
    still agree, and no byte of the data area, of another device or of the
    rest of the state has changed. *)
Theorem fat_write_read s c x (Hv : blocks_ok (dvw s)) (Hc : valid c) (Hx : 0 <= x <= FAT32_EOC)
    (Hm : mirrored s) :
  exists s', write_fat fm c x s = Ok (tt, s') /\
    read_fat fm c s' = Ok (x, s') /\
    (forall c', valid c' -> c' <> c -> exists y,
        read_fat fm c' s = Ok (y, s) /\ read_fat fm c' s' = Ok (y, s')) /\
    mirrored s' /\ blocks_ok (dvw s') /\ same_but_disk s s' /\
    (forall a n, inblk a n -> 512 * first_data_sec fm <= a ->
       bytes (dvw s') a n = bytes (dvw s) a n).
Proof.
  unfold valid in *. exists (set_next c x s).
  rewrite write_fat_run, read_fat_run by lia. split_and!; try done.
  - rewrite next_set_eq, val28_id by (auto; lia). done.
  - intros c' Hc' Hne. exists (next s c'). rewrite !read_fat_run by lia.
    rewrite next_set_ne by (auto; lia). done.
  - apply mirrored_set; auto; lia.
  - apply blocks_ok_set; auto; lia.
  - apply same_but_disk_set.
  - intros. apply bytes_set_data; auto; lia.
Qed.

(** Alloc_clus takes the lowest free cluster and marks it as the end of
    a chain, changing no other entry and no data, or returns 0 exactly when
    no cluster is free; the mount's lock is released either way. *)
Theorem alloc_clus_lowest s (Hv : blocks_ok (dvw s)) (Hk : Sleep.sl_locked (fa_lock s) = false) :
  exists c s', alloc_clus fm s = Ok (c, s') /\ fa_lock s' = Sleep.initsleeplock /\
    ((valid c /\ next s c = FAT32_FREE /\ (forall c', 2 <= c' < c -> next s c' <> FAT32_FREE) /\
      next s' c = FAT32_EOC /\ (forall c', valid c' -> c' <> c -> next s' c' = next s c') /\
      (forall a n, inblk a n -> 512 * first_data_sec fm <= a ->
         bytes (dvw s') a n = bytes (dvw s) a n)) \/
     (c = 0 /\ (forall c, valid c -> next s c <> FAT32_FREE) /\ dvw s' = dvw s)).
Proof.
  destruct (alloc_clus_run s Hk) as [(c & Hc & Hf & Hl & E)|[Hn E]].
  - exists c, (unlocked (set_next c FAT32_EOC s)). split; [done|]. split; [done|]. left.
    unfold valid in Hc. split_and!; auto.
    + unfold unlocked. change (next (set_next c FAT32_EOC s) c = FAT32_EOC).
      by rewrite next_set_eq by (auto; lia).
    + intros c' Hc' Hne. unfold valid in Hc'.
      change (next (set_next c FAT32_EOC s) c' = next s c'). apply next_set_ne; auto; lia.
    + intros a n Ha Hb. change (bytes (dvw (set_next c FAT32_EOC s)) a n = bytes (dvw s) a n).
      apply bytes_set_data; auto; lia.
  - exists 0, (unlocked s). split_and!; auto.
Qed.

(** Free_chain terminates on every chain that ends (such a chain has no
    cycle) and frees exactly its clusters: their entries become free, every
    other entry, the data area and the rest of the state are as before, both
    copies of the table agree, and the mount's lock is released. *)
Theorem free_chain_frees s c l (Hv : blocks_ok (dvw s))
    (Hk : Sleep.sl_locked (fa_lock s) = false) (Hc : chain s c l) :
  exists s', free_chain fm c s = Ok (tt, s') /\ fa_lock s' = Sleep.initsleeplock /\
             NoDup l /\ freed_clus s (set_flock (fa_lock s) s') l.
Proof.
  destruct (free_chain_run s c l Hv Hk Hc) as (s' & E & F1 & F2).
  exists s'. split_and!; auto. by eapply chain_nodup.
Qed.

End Table.

(** *** A small volume *)

(** 1 reserved sector, two tables of 2 sectors, one sector per cluster, 100
    clusters; the chain 5 -> 9 -> end, cluster 2 in use, the rest free. *)
Definition wit_fm : fat32_mount := Fm 3 1 1 2 2 5 2 100 512 2.

Definition wit_fat_blk (b : Z) : block :=
  if b =? 0 then splice (splice (splice zero_block 520 (le_enc 4 FAT32_EOC))
                                532 (le_enc 4 9)) 548 (le_enc 4 FAT32_EOC)
  else if b =? 1 then splice (splice (splice zero_block 520 (le_enc 4 FAT32_EOC))
                                532 (le_enc 4 9)) 548 (le_enc 4 FAT32_EOC)
  else zero_block.

Definition wit_fat : fat flat :=
  Fat (Bst (fun _ => wit_fat_blk) [] 0) Sleep.initsleeplock 4 (Flat (fun _ => 0) 1000).

Lemma wit_fm_geom : fat_geom wit_fm.
Proof. split; cbn; unfold FAT32_EOC_MIN; lia. Qed.

Lemma wit_fat_ok : blocks_ok (dvw wit_fm wit_fat).
Proof.
  intros b. unfold dvw, wit_fat, wit_fat_blk; cbn [b_view fa_b].
  destruct (b =? 0), (b =? 1); split; try (vm_compute; reflexivity);
    apply (bool_decide_unpack _); vm_compute; exact I.
Qed.

Lemma wit_fat_mirrored : mirrored wit_fm wit_fat.
Proof.
  intros _ c Hc.
  assert (Forall (fun c => val28 (ent (dvw wit_fm wit_fat) (fa wit_fm c + 512 * fat_sz wit_fm)) =
                           next wit_fm wit_fat c) (seqZ 0 102)) as Hall
    by (apply (bool_decide_unpack _); vm_compute; exact I).
  rewrite Forall_forall in Hall. apply Hall, elem_of_seqZ. cbn in Hc. lia.
Qed.

Lemma fat_write_read_witness :
  exists s', write_fat wit_fm 7 9 wit_fat = Ok (tt, s') /\ read_fat wit_fm 7 s' = Ok (9, s').
Proof.
  destruct (fat_write_read wit_fm wit_fm_geom wit_fat 7 9 wit_fat_ok) as (s' & E & R & _);
    [split; cbn; lia|unfold FAT32_EOC; lia|apply wit_fat_mirrored|].
  exists s'. split; [exact E|exact R].
Defined.

Lemma alloc_clus_lowest_witness :
  exists s', alloc_clus wit_fm wit_fat = Ok (3, s') /\ next wit_fm s' 3 = FAT32_EOC.
Proof.
  destruct (alloc_clus_lowest wit_fm wit_fm_geom wit_fat wit_fat_ok eq_refl)
    as (c & s' & E & _ & H).
  assert (match alloc_clus wit_fm wit_fat with Ok (r, _) => r | Fault _ => -2 end = 3) as E3
    by (vm_compute; reflexivity).
  rewrite E in E3. subst c. exists s'. split; [exact E|].
  destruct H as [(_ & _ & _ & H & _)|[H _]]; [exact H|lia].
Defined.

Lemma free_chain_frees_witness :
  exists s', free_chain wit_fm 5 wit_fat = Ok (tt, s') /\
    next wit_fm (set_flock Sleep.initsleeplock s') 9 = FAT32_FREE.
Proof.
  destruct (free_chain_frees wit_fm wit_fm_geom wit_fat 5 [5; 9] wit_fat_ok eq_refl)
    as (s' & E & _ & _ & F).
  - constructor; [split; cbn; lia|].
    replace (next wit_fm wit_fat 5) with 9 by (vm_compute; reflexivity).
    constructor; [split; cbn; lia|vm_compute; discriminate].
  - exists s'. split; [exact E|]. apply (fc_in _ _ _ _ F). set_solver.
Defined.
