(* ===== verification/FatFile.v ===== *)
(** FatFile: reading a FAT32 file: the bytes of the file are those of the
    clusters of its chain, in order, and fread delivers them. *)

From S2P Require Import Prelude Locks Log Block Umem FatNames Fat32 FatTable.

Definition dbyte (v : Z -> block) (a : Z) : Z := getz (v (a / 1024)) (a mod 1024).

(** [n] bytes from address [a], wherever the block boundaries are. *)
Definition dbytes (v : Z -> block) (a n : Z) : list Z := (fun k => dbyte v (a + k)) <$> seqZ 0 n.

Lemma lookup_seqZ_map {A} (f : Z -> A) o n (i : nat) :
  (f <$> seqZ o n) !! i = if Z.of_nat i <? n then Some (f (o + Z.of_nat i)) else None.
Proof.
  rewrite list_lookup_fmap. destruct (Z.of_nat i <? n) eqn:E.
  - rewrite lookup_seqZ_lt by lia. done.
  - rewrite lookup_seqZ_ge by lia. done.
Qed.

Lemma bytes_dbytes v a n : blocks_ok v -> inblk a n -> bytes v a n = dbytes v a n.
Proof.
  intros Hv (Ha & Hn & Hi). destruct (Hv (a / 1024)) as [Hl _].
  unfold bytes, dbytes. apply list_eq. intros i. rewrite lookup_seqZ_map.
  destruct (Z.of_nat i <? n) eqn:E.
  - assert (slice (v (a / 1024)) (a mod 1024) n !! i =
            Some (getz (slice (v (a / 1024)) (a mod 1024) n) (Z.of_nat i))) as ->.
    { rewrite <-getz_lookup, Nat2Z.id; [done|]. unfold zlen.
      rewrite length_slice; [lia|dlia|lia|]. unfold zlen. rewrite Hl. lia. }
    f_equal. rewrite getz_slice by (dlia || lia). unfold dbyte.
    replace ((a + (0 + Z.of_nat i)) / 1024) with (a / 1024) by dlia. f_equal. dlia.
  - apply lookup_ge_None. rewrite length_slice; [lia|dlia|lia|]. unfold zlen. rewrite Hl. lia.
Qed.

Section File.
  Context {U : Type} `{UserMemOk U} (fm : fat32_mount) (Hg : fat_geom fm).
  Implicit Types s : fat U.

(** Bytes per cluster, and the address of byte [o] of a file with clusters [l]. *)
Definition bpc : Z := 512 * sec_per_clus fm.
Definition csec (c : Z) : Z := (c - 2) * sec_per_clus fm + first_data_sec fm.
Definition faddr (l : list Z) (o : Z) : Z := 512 * csec (getz l (o / bpc)) + o mod bpc.

(** The bytes [off] to [off + n] of the file. *)
Definition fcont (s : fat U) (l : list Z) (off n : Z) : list Z :=
  (fun k => dbyte (dvw fm s) (faddr l k)) <$> seqZ off n.

Lemma bpc_pos : 512 <= bpc <= 65536 /\ bpc mod 512 = 0 /\ clus_bytes fm = bpc.
Proof.
  pose proof (fg_spc _ Hg). unfold bpc, clus_bytes. rewrite (fg_bps _ Hg). split; [lia|].
  split; [dlia|]. rewrite u32_small by lia. lia.
Qed.

Lemma csec_run c : valid fm c ->
  clus_to_sec fm c = csec c /\ first_data_sec fm <= csec c /\
  csec c + sec_per_clus fm < 2 ^ 32 /\ 0 <= first_data_sec fm.
Proof.
  intros Hc. unfold valid in Hc. pose proof (fg_spc _ Hg). pose proof (fg_end _ Hg).
  pose proof (fg_first _ Hg). pose proof (fg_rsvd _ Hg). pose proof (fg_sz _ Hg).
  pose proof (fg_nf _ Hg). pose proof (fg_small _ Hg). unfold FAT32_EOC_MIN in *.
  unfold clus_to_sec, csec. assert (0 <= num_fats fm * fat_sz fm) by nia.
  assert ((c - 2) * sec_per_clus fm + sec_per_clus fm <= tot_clus fm * sec_per_clus fm) by nia.
  rewrite (u32_small (c - 2)) by lia. rewrite (u32_small ((c - 2) * _)) by nia.
  rewrite u32_small by nia. split; [done|]. nia.
Qed.

(** Successive clusters of a chain. *)
Lemma chain_step s c l (i : nat) x :
  chain fm s c l -> l !! i = Some x ->
  match l !! S i with Some y => next fm s x = y | None => FAT32_EOC_MIN <= next fm s x end.
Proof.
  intros Hc. revert i. induction Hc as [c Hc He|c l Hc Hl IH]; intros [|i] Hx; cbn in *.
  - by injection Hx as ->.
  - done.
  - injection Hx as ->. by inversion Hl; subst.
  - by apply IH.
Qed.

Lemma chain_at s c l i : chain fm s c l -> 0 <= i < zlen l -> valid fm (getz l i).
Proof.
  intros Hc Hi. pose proof (chain_all_valid _ _ _ _ Hc) as Hv.
  eapply Forall_lookup_1 in Hv; [|by apply getz_lookup]. done.
Qed.

Lemma chain_next s c l i : chain fm s c l -> 0 <= i < zlen l ->
  (i + 1 < zlen l -> next fm s (getz l i) = getz l (i + 1)) /\
  (i + 1 = zlen l -> FAT32_EOC_MIN <= next fm s (getz l i)).
Proof.
  intros Hc Hi. pose proof (chain_step s c l (Z.to_nat i) (getz l i) Hc) as Hs.
  rewrite <-Z2Nat.inj_succ in Hs by lia. unfold Z.succ in Hs.
  specialize (Hs (getz_lookup _ _ Hi)). split; intros Hl.
  - rewrite getz_lookup in Hs by lia. done.
  - rewrite lookup_ge_None_2 in Hs; [done|]. unfold zlen in *. lia.
Qed.

Lemma chain_head s c l : chain fm s c l -> 0 < zlen l /\ getz l 0 = c.
Proof. unfold zlen. by destruct 1; cbn. Qed.

(** The walk over whole clusters. *)
Lemma skip_run s c l (k : nat) : forall i,
  chain fm s c l -> 0 <= i -> i + Z.of_nat k < zlen l ->
  forall j, fold_upto k j (skip_body fm) (getz l i) s = Ok (inl (getz l (i + Z.of_nat k)), s).
Proof.
  induction k as [|k IH]; intros i Hc Hi Hk j; cbn [fold_upto].
  - by rewrite Z.add_0_r.
  - pose proof (chain_at s c l i Hc ltac:(lia)) as Hva. pose proof Hva as [Hv1 Hv2].
    assert (skip_body fm j (getz l i) s = Ok (inl (getz l (i + 1)), s)) as E.
    { unfold skip_body. rewrite (valid_in_chain fm Hg _ Hva).
      rewrite (bind_ok _ _ _ _ _ (read_fat_run fm Hg (getz l i) s ltac:(lia))).
      by rewrite (proj1 (chain_next s c l i Hc ltac:(lia)) ltac:(lia)). }
    rewrite (bind_ok _ _ _ _ _ E), IH by (auto; lia). do 4 f_equal. lia.
Qed.

Lemma sread_run s sec off n :
  0 <= sec -> 0 <= off < 512 -> 0 <= n -> off + n <= 512 -> blocks_ok (dvw fm s) ->
  sread fm sec off n s = Ok (dbytes (dvw fm s) (512 * sec + off) n, s).
Proof.
  intros Hs Ho Hn Hon Hv. destruct (sec_addr fm Hg sec off Hs Ho) as [E1 E2].
  unfold sread, ondisk, zoom, bind, bread, gets, ret. cbn. rewrite E1, E2.
  rewrite <-bytes_dbytes; [|done|unfold inblk; dlia]. destruct s as [b k p u], b as [v l o]. done.
Qed.

(** One sector's worth of the file. *)
Lemma fcont_sector s l o len :
  0 <= o -> 0 <= len -> o mod bpc mod 512 + len <= 512 ->
  dbytes (dvw fm s) (512 * (csec (getz l (o / bpc)) + o mod bpc / 512) + o mod bpc mod 512) len
  = fcont s l o len.
Proof.
  intros Ho Hl Hs. pose proof bpc_pos as (Hb & Hm & _). unfold dbytes, fcont.
  apply list_eq. intros i. rewrite !lookup_seqZ_map. destruct (_ <? len) eqn:E; [|done].
  f_equal. f_equal. unfold faddr.
  assert (0 <= o mod bpc < bpc) by (apply Z.mod_pos_bound; lia).
  assert (o mod bpc + Z.of_nat i < bpc) by dlia.
  assert ((o + Z.of_nat i) / bpc = o / bpc /\ (o + Z.of_nat i) mod bpc = o mod bpc + Z.of_nat i)
    as [-> ->].
  { rewrite (Z.div_mod o bpc) at 1 3 by lia.
    split; [symmetry; eapply Z.div_unique with (r := o mod bpc + Z.of_nat i)
           |symmetry; eapply Z.mod_unique with (q := o / bpc)]; lia. }
  dlia.
Qed.

Lemma fcont_app s l o n m : 0 <= n -> 0 <= m ->
  fcont s l o (n + m) = fcont s l o n ++ fcont s l (o + n) m.
Proof. intros. unfold fcont. rewrite seqZ_app by done. by rewrite fmap_app. Qed.

Lemma zlen_fcont s l o n : 0 <= n -> zlen (fcont s l o n) = n.
Proof. intros. unfold zlen, fcont. rewrite length_fmap, length_seqZ. lia. Qed.

(** The loop's position: [o] bytes into the file. *)
Definition at_pos (l : list Z) (o c inn : Z) : Prop :=
  inn = o mod bpc /\
  (o / bpc < zlen l -> c = getz l (o / bpc)) /\
  (o / bpc >= zlen l -> in_chain c = false).

Definition left (n off total : Z) : nat :=
  if n <=? total then 0%nat else Z.to_nat ((n - total + (off + total) mod 512 + 511) / 512).

(** What a transfer of [n] bytes of the file ends with. *)
Definition read_post (s : fat U) (l : list Z) (d : dest) (off n : Z) (r : Z * list Z) (t : fat U) :
  Prop :=
  exists ok acc u, either_copyout d 0 [] (fcont s l off n) (fa_usr s) = (ok, (acc, u)) /\
    t = set_fusr u s /\ r = (if (ok : bool) then n else -1, acc).

Definition read_inv (s : fat U) (l : list Z) (d : dest) (off n : Z) (x : Z * Z * Z * list Z)
    (t : fat U) : Prop :=
  let '(c, inn, total, acc) := x in
  0 <= total <= n /\ at_pos l (off + total) c inn /\
  exists u, t = set_fusr u s /\
    either_copyout d 0 [] (fcont s l off total) (fa_usr s) = (true, (acc, u)).

(** Moving [len] bytes on, to the end of a sector or of the transfer. *)
Lemma at_pos_step s c0 l o c len :
  chain fm s c0 l -> 0 <= o -> o / bpc < zlen l -> c = getz l (o / bpc) ->
  0 < len <= 512 - o mod bpc mod 512 ->
  (o mod bpc + len >= bpc ->
     at_pos l (o + len) (next fm s c) 0) /\
  (o mod bpc + len < bpc -> at_pos l (o + len) c (o mod bpc + len)).
Proof.
  intros Hc Ho Hl -> Hlen. pose proof bpc_pos as (Hb & Hm & _).
  assert (0 <= o mod bpc < bpc) by (apply Z.mod_pos_bound; lia).
  assert (0 <= o / bpc) by (apply Z.div_pos; lia).
  assert (o = bpc * (o / bpc) + o mod bpc) by (apply Z.div_mod; lia).
  split; intros Hle.
  - assert (o mod bpc + len = bpc) as E by dlia.
    assert ((o + len) / bpc = o / bpc + 1 /\ (o + len) mod bpc = 0) as [E1 E2].
    { split; [symmetry; apply Z.div_unique with (r := 0)
             |symmetry; apply Z.mod_unique with (q := o / bpc + 1)]; lia. }
    unfold at_pos. rewrite E1, E2. split; [done|].
    destruct (chain_next s c0 l (o / bpc) Hc) as [N1 N2]; [lia|]. split; intros Hn.
    + apply N1. lia.
    + unfold in_chain. specialize (N2 ltac:(lia)). lia.
  - assert ((o + len) / bpc = o / bpc /\ (o + len) mod bpc = o mod bpc + len) as [E1 E2].
    { split; [symmetry; apply Z.div_unique with (r := o mod bpc + len)
             |symmetry; apply Z.mod_unique with (q := o / bpc)]; lia. }
    unfold at_pos. rewrite E1, E2. split; [done|]. split; [done|lia].
Qed.

Lemma o_mod_512 o : o mod bpc mod 512 = o mod 512.
Proof.
  pose proof bpc_pos as (Hb & Hm & _). unfold bpc. rewrite Z.mul_comm.
  symmetry. rewrite <-Znumtheory.Zmod_div_mod; [done|lia| |]; unfold bpc in *; [lia|].
  exists (sec_per_clus fm). lia.
Qed.

Lemma fread_step s c0 l d off n x t :
  blocks_ok (dvw fm s) -> chain fm s c0 l -> 0 <= off -> off + n <= zlen l * bpc ->
  read_inv s l d off n x t ->
  exists r t', fread_body fm d n x t = Ok (r, t') /\
    match r with
    | inl x' => read_inv s l d off n x' t' /\ (left n off (snd (fst x')) < left n off (snd (fst x)))%nat
    | inr v => read_post s l d off n v t'
    end.
Proof.
  destruct x as [[[c inn] total] acc]. intros Hv Hc Ho Hs (Ht & (Hin & P1 & P2) & u & -> & Hu).
  pose proof bpc_pos as (Hb & Hm & Hcb). unfold fread_body.
  destruct (total <? n) eqn:Etn; cbn [andb]; [|].
  2:{ exists (inr (total, acc)), (set_fusr u s). split; [done|]. assert (total = n) as -> by lia.
      by exists true, acc, u. }
  assert ((off + total) / bpc < zlen l) as Hlt by (apply Z.div_lt_upper_bound; lia).
  specialize (P1 Hlt). subst inn. set (o := off + total) in *.
  assert (0 <= o / bpc) by (apply Z.div_pos; lia).
  pose proof (chain_at s c0 l (o / bpc) Hc ltac:(lia)) as Hva. rewrite <-P1 in Hva.
  rewrite (valid_in_chain fm Hg _ Hva). cbn [negb]. rewrite (fg_bps _ Hg), Hcb.
  set (len := Z.min (512 - o mod bpc mod 512) (n - total)).
  assert (0 <= o mod bpc < bpc) by (apply Z.mod_pos_bound; lia).
  assert (0 <= o mod bpc mod 512 < 512) by (apply Z.mod_pos_bound; lia).
  assert (0 < len <= 512 - o mod bpc mod 512 /\ len <= n - total) as [Hlen Hlen'] by lia.
  destruct (csec_run c Hva) as (Ec & Hc1 & Hc2 & Hc3).
  assert (u32 (clus_to_sec fm c + o mod bpc / 512) = csec c + o mod bpc / 512) as ->.
  { rewrite Ec. apply u32_small. unfold bpc in *. dlia. }
  erewrite bind_ok by (apply (sread_run (set_fusr u s)); [dlia|lia|lia|lia|done]).
  change (dvw fm (set_fusr u s)) with (dvw fm s). rewrite P1, fcont_sector by lia.
  unfold gets at 1. unfold bind at 1. cbn [fa_usr set_fusr].
  pose proof (either_copyout_app d _ (fcont s l o len) _ _ _ Hu) as Happ.
  rewrite zlen_fcont in Happ by lia. unfold o in Happ. rewrite <-fcont_app in Happ by lia.
  fold o in Happ.
  destruct (either_copyout d total acc (fcont s l o len) u) as [ok [acc' u']] eqn:Eo.
  unfold modify, bind. cbn beta iota.
  change (set_fusr u' (set_fusr u s)) with (set_fusr u' s). destruct ok; cbn [negb].
  - destruct (at_pos_step s c0 l o c len Hc ltac:(lia) Hlt P1 Hlen) as [Q1 Q2].
    assert (left n off (total + len) < left n off total)%nat as Hmu.
    { unfold left. assert (n <=? total = false) as -> by lia.
      pose proof (o_mod_512 o) as Eo512. fold o. 
      destruct (n <=? total + len) eqn:E; [dlia|]. replace (off + (total + len)) with (o + len) by lia.
      assert (len = 512 - o mod 512) as -> by lia. dlia. }
    assert (0 <= total + len <= n) by lia. replace (o + len) with (off + (total + len)) in * by lia.
    destruct (_ >=? bpc) eqn:E.
    + destruct Hva as [Hv1 Hv2]. rewrite <-P1.
      rewrite (read_fat_run fm Hg c (set_fusr u' s)) by lia. eexists (inl _), _. split; [done|].
      split; [|done]. split; [done|]. split; [apply Q1; lia|]. exists u'. by split.
    + eexists (inl _), _. split; [done|]. split; [|done]. split; [done|]. rewrite <-P1.
      split; [apply Q2; lia|]. exists u'. by split.
  - eexists (inr _), _. split; [done|]. exists false, acc', u'. split_and!; try done.
    replace n with (total + len + (n - total - len)) by lia. rewrite fcont_app by lia.
    by apply either_copyout_fail.
Qed.

(** The file that a vnode stands for: a chain long enough for its size. *)
Record fat_file (s : fat U) (fv : fat32_vnode) (l : list Z) : Prop := Fat_file {
  ff_chain : chain fm s (first_clus fv) l;
  ff_size : 0 <= file_size fv <= zlen l * bpc;
  ff_ok : blocks_ok (dvw fm s)
}.

Definition fread_len (fv : fat32_vnode) (off n : Z) : Z :=
  if off >=? file_size fv then 0 else Z.min n (file_size fv - off).

Lemma fread_run s fv l d off n :
  fat_file s fv l -> 0 <= off -> 0 <= n -> off + n < 2 ^ 32 ->
  exists r t, fread_to fm d fv n off s = Ok (r, t) /\ read_post s l d off (fread_len fv off n) r t.
Proof.
  intros [Hc Hs Hv] Ho Hn H32. pose proof bpc_pos as (Hb & Hm & Hcb).
  unfold fread_to, fread_len. destruct (off >=? file_size fv) eqn:E.
  { exists (0, []), s. split; [done|]. exists true, [], (fa_usr s).
    unfold fcont. rewrite seqZ_nil by lia. rewrite either_copyout_nil. split_and!; try done.
    by destruct s. }
  rewrite u32_small by lia. rewrite (u32_small n) by lia.
  replace (if off + n >? file_size fv then file_size fv - off else n)
    with (Z.min n (file_size fv - off)) by (destruct (_ >? _) eqn:?; lia).
  set (n' := Z.min n (file_size fv - off)). rewrite Hcb.
  assert (0 <= off / bpc) by (apply Z.div_pos; lia).
  assert (off / bpc < zlen l) by (apply Z.div_lt_upper_bound; lia).
  destruct (chain_head s _ l Hc) as [_ <-].
  rewrite (bind_ok _ _ _ _ _ (skip_run s _ l (Z.to_nat (off / bpc)) 0 Hc ltac:(lia) ltac:(lia) 0)).
  rewrite Z.add_0_l, Z2Nat.id by done.
  destruct (loop_rule (fread_body fm d n') (read_inv s l d off n')
              (fun v t => read_post s l d off n' v t)
              (fun x _ => left n' off (snd (fst x)))
              (fun x t => fread_step s _ l d off n' x t Hv Hc Ho ltac:(lia))
              (Z.to_nat (n' / fm_bps fm) + 3) (getz l (off / bpc), off mod bpc, 0, []) s)
    as (v & t & Ev & Pv).
  - split; [lia|]. split; [|exists (fa_usr s)].
    + rewrite Z.add_0_r. split_and!; [done|done|lia].
    + unfold fcont. rewrite seqZ_nil by lia. rewrite either_copyout_nil. split; [by destruct s|done].
  - rewrite (fg_bps _ Hg). cbn [snd fst]. unfold left. rewrite Z.add_0_r.
    destruct (n' <=? 0) eqn:?; [lia|]. dlia.
  - exists v, t. split; [exact Ev|exact Pv].
Qed.

(** Reading a FAT32 file returns its bytes: for a vnode whose chain is
    long enough for its size, fread_kernel returns exactly the bytes of the
    chain's clusters from the offset on, clipped at the size, and changes
    nothing; fread stores the same bytes at the user address and returns
    their number, or -1 when copyout fails on them. *)
Theorem fread_returns_contents s fv l off n buf (Hf : fat_file s fv l)
    (Ho : 0 <= off) (Hn : 0 <= n < 2 ^ 31) (H32 : off + n < 2 ^ 32) :
  let m := fread_len fv off n in
  fread_kernel fm fv n off s = Ok ((m, fcont s l off m), s) /\
  let '(ok, u) := copyout (fa_usr s) buf (fcont s l off m) in
  fread fm fv buf n off s = Ok (if (ok : bool) then m else -1, set_fusr u s).
Proof.
  intros m. assert (0 <= m < 2 ^ 31).
  { unfold m, fread_len. destruct (_ >=? _) eqn:?; lia. }
  split.
  - destruct (fread_run s fv l DKernel off n Hf Ho ltac:(lia) H32) as (r & t & E & P).
    unfold fread_kernel. rewrite (bind_ok _ _ _ _ _ E). destruct P as (ok & acc & u & Eo & -> & ->).
    cbn in Eo. injection Eo as <- <- <-. cbn [fst snd]. fold m. rewrite s32_small by lia.
    by destruct s.
  - destruct (copyout (fa_usr s) buf (fcont s l off m)) as [ok' u'] eqn:Ec.
    destruct (fread_run s fv l (DUser buf) off n Hf Ho ltac:(lia) H32) as (r & t & E & P).
    unfold fread. rewrite (bind_ok _ _ _ _ _ E). destruct P as (ok & acc & u & Eo & -> & ->).
    cbn in Eo. fold m in Eo. rewrite Z.add_0_r, Ec in Eo. injection Eo as <- <- <-. cbn [fst].
    fold m. destruct ok'; by rewrite s32_small by lia.
Qed.

End File.

Lemma fread_returns_contents_witness :
  fread_kernel wit_fm (Fv 5 700 32 false 2 64) 600 300 wit_fat
  = Ok ((400, replicate 400 0), wit_fat).
Proof.
  destruct (fread_returns_contents wit_fm wit_fm_geom wit_fat (Fv 5 700 32 false 2 64) [5; 9] 300 600 0)
    as [E _]; [|lia|lia|lia|].
  - split; [|split; vm_compute; discriminate|apply wit_fat_ok].
    constructor; [split; cbn; lia|].
    replace (next wit_fm wit_fat 5) with 9 by (vm_compute; reflexivity).
    constructor; [split; cbn; lia|vm_compute; discriminate].
  - rewrite E. vm_compute. reflexivity.
Defined.
