(* ===== verification/FatDir.v ===== *)
(** FatDir: FAT32 directories.  The nested loops over clusters, sectors and
    slots are a left-to-right pass over the directory's 32-byte entries, and
    dlookup on a directory of well-formed entries finds the name it is given. *)

From S2P Require Import Prelude CString Locks Log Block Umem FatNames Fat32 FatTable FatFile.

(** *** A pass over numbered entries *)

Fixpoint pfold {X R} (step : Z -> X -> outcome (X + R)) (n : nat) (i : Z) (x : X) :
  outcome (X + R) :=
  match n with
  | O => Ok (inl x)
  | S n' =>
      match step i x with
      | Ok (inl x') => pfold step n' (i + 1) x'
      | Ok (inr v) => Ok (inr v)
      | Fault e => Fault e
      end
  end.

Lemma pfold_app {X R} (step : Z -> X -> outcome (X + R)) n m : forall i x,
  pfold step (n + m) i x =
  match pfold step n i x with
  | Ok (inl x') => pfold step m (i + Z.of_nat n) x'
  | r => r
  end.
Proof.
  induction n as [|n IH]; intros i x; cbn [pfold Nat.add].
  - by rewrite Z.add_0_r.
  - destruct (step i x) as [[x'|v]|e]; try done. rewrite IH.
    replace (i + 1 + Z.of_nat n) with (i + Z.of_nat (S n)) by lia. done.
Qed.

Lemma pfold_ext {X R} (f g : Z -> X -> outcome (X + R)) n : forall i x,
  (forall j x, i <= j < i + Z.of_nat n -> f j x = g j x) -> pfold f n i x = pfold g n i x.
Proof.
  induction n as [|n IH]; intros i x Hj; cbn [pfold]; [done|]. rewrite Hj by lia.
  destruct (g i x) as [[x'|v]|e]; try done. apply IH. intros. apply Hj. lia.
Qed.

(** A loop of the code whose iterations each make [k] steps of the pass. *)
Lemma fold_upto_pfold {S X R} (body : Z -> X -> M S (X + R)) (step : Z -> X -> outcome (X + R))
    (k n : nat) (b0 : Z) (s : S) : forall j x,
  (forall j' x, j <= j' < j + Z.of_nat n ->
     body j' x s = lift (pfold step k (b0 + Z.of_nat k * j') x) s) ->
  fold_upto n j body x s = lift (pfold step (n * k) (b0 + Z.of_nat k * j) x) s.
Proof.
  induction n as [|n IH]; intros j x Hb; cbn [fold_upto]; [done|].
  cbn [Nat.mul]. rewrite pfold_app. unfold bind. rewrite Hb by lia.
  destruct (pfold step k _ x) as [[x'|v]|e]; cbn; try done.
  rewrite IH by (intros; apply Hb; lia).
  by replace (b0 + Z.of_nat k * j + Z.of_nat k) with (b0 + Z.of_nat k * (j + 1)) by lia.
Qed.

Section Dir.
  Context {U : Type} `{UserMemOk U} (fm : fat32_mount) (Hg : fat_geom fm).
  Implicit Types s : fat U.

(** Entries per cluster; entry number [i] of a directory with clusters [l]. *)
Definition epc : Z := 16 * sec_per_clus fm.
Definition dent (s : fat U) (l : list Z) (i : Z) : list Z := fcont fm s l (32 * i) 32.
Definition dents (s : fat U) (l : list Z) : list (list Z) := dent s l <$> seqZ 0 (zlen l * epc).

Lemma dent_addr p st k :
  0 <= p -> 0 <= st < sec_per_clus fm -> 0 <= k < 16 ->
  (32 * (epc * p + 16 * st + k)) / bpc fm = p /\
  (32 * (epc * p + 16 * st + k)) mod bpc fm = 512 * st + 32 * k.
Proof.
  intros. unfold epc, bpc. split.
  - symmetry. apply Z.div_unique with (r := 512 * st + 32 * k); lia.
  - symmetry. apply Z.mod_unique with (q := p); lia.
Qed.

(** Reading the first byte and the whole of a slot. *)
Lemma sread_dent s c0 l p st k :
  blocks_ok (dvw fm s) -> chain fm s c0 l -> 0 <= p < zlen l -> 0 <= st < sec_per_clus fm ->
  0 <= k < 16 ->
  let sec := u32 (clus_to_sec fm (getz l p) + st) in
  let e := dent s l (epc * p + 16 * st + k) in
  sread fm sec (32 * k) 32 s = Ok (e, s) /\ sread fm sec (32 * k) 1 s = Ok ([getz e 0], s).
Proof.
  intros Hv Hc Hp Hst Hk sec e. destruct (dent_addr p st k) as [E1 E2]; [lia..|].
  destruct (csec_run fm Hg (getz l p)) as (Ec & Hc1 & Hc2 & Hc3); [by eapply chain_at|].
  assert (sec = csec fm (getz l p) + st) as ->.
  { unfold sec. rewrite Ec, u32_small; lia. }
  set (a := 512 * (csec fm (getz l p) + st) + 32 * k).
  assert (e = dbytes (dvw fm s) a 32) as Ee.
  { assert (0 <= epc * p) by (unfold epc; nia). unfold e, dent.
    rewrite <-(fcont_sector fm Hg); [|lia|lia|rewrite E2; dlia]. rewrite E1, E2. f_equal. unfold a. dlia. }
  rewrite !(sread_run fm Hg) by (auto; lia). fold a. rewrite Ee. split; [done|].
  do 2 f_equal.
Qed.

(** A directory scan whose body looks at one entry and leaves the state
    alone is a pass over the entries. *)
Lemma scan_chain_pfold {X R} (body : Z -> Z -> X -> M (fat U) (X + R))
    (step : list Z -> X -> outcome (X + R)) s c0 l x :
  blocks_ok (dvw fm s) -> chain fm s c0 l ->
  (forall sec b e x, sread fm sec b 32 s = Ok (e, s) -> sread fm sec b 1 s = Ok ([getz e 0], s) ->
     body sec b x s = lift (step e x) s) ->
  scan_chain fm c0 body x s =
  lift (pfold (fun i => step (dent s l i)) (Z.to_nat (zlen l * epc)) 0 x) s.
Proof.
  intros Hv Hc Hb. pose proof (fg_spc _ Hg) as Hspc.
  assert (forall p x, 0 <= p < zlen l ->
    scan_cluster fm (getz l p) body x s =
    lift (pfold (fun i => step (dent s l i)) (Z.to_nat epc) (epc * p) x) s) as Hcl.
  { intros p y Hp. unfold scan_cluster. rewrite (fg_bps _ Hg).
    change (Z.to_nat (512 / 32)) with 16%nat.
    rewrite (fold_upto_pfold _ (fun i => step (dent s l i)) 16 _ (epc * p)).
    - replace (Z.to_nat (sec_per_clus fm) * 16)%nat with (Z.to_nat epc) by (unfold epc; lia).
      by replace (epc * p + Z.of_nat 16 * 0) with (epc * p) by lia.
    - intros st z Hst.
      rewrite (fold_upto_pfold _ (fun i => step (dent s l i)) 1 _ (epc * p + Z.of_nat 16 * st)).
      + by rewrite Z.mul_0_r, Z.add_0_r.
      + intros k w Hk. destruct (sread_dent s c0 l p st k) as [R1 R2]; [auto; lia..|].
        cbn [pfold]. rewrite (Hb _ _ _ _ R1 R2).
        replace (epc * p + Z.of_nat 16 * st + Z.of_nat 1 * k) with (epc * p + 16 * st + k) by lia.
        by destruct (step _ w) as [[]|]. }
  unfold scan_chain. pose proof (chain_fits fm Hg _ _ _ Hc) as Hf.
  set (F := fun '(c, y) => _) in |- *.
  assert (forall fuel p y, 0 <= p < zlen l -> (Z.to_nat (zlen l - p) < fuel)%nat ->
    loop fuel F (getz l p, y) s =
    lift (pfold (fun i => step (dent s l i)) (Z.to_nat ((zlen l - p) * epc)) (epc * p) y) s) as Hall.
  { induction fuel as [|fuel IH]; intros p y Hp Hfu; [lia|]. cbn [loop].
    pose proof (chain_at fm s c0 l p Hc Hp) as Hva. pose proof Hva as [Hv1 Hv2].
    replace (Z.to_nat ((zlen l - p) * epc))
      with (Z.to_nat epc + Z.to_nat ((zlen l - (p + 1)) * epc))%nat by (unfold epc; nia).
    rewrite pfold_app. unfold F at 1. rewrite (valid_in_chain fm Hg _ Hva). cbn [negb].
    rewrite bind_assoc. unfold bind at 1. rewrite Hcl by done.
    destruct (pfold _ (Z.to_nat epc) _ y) as [[y'|v]|e]; cbn [lift ret fail]; try done.
    rewrite bind_assoc, (bind_ok _ _ _ _ _ (read_fat_run fm Hg (getz l p) s ltac:(lia))).
    rewrite ret_bind. replace (epc * p + Z.of_nat (Z.to_nat epc)) with (epc * (p + 1))
      by (unfold epc; lia).
    destruct (chain_next fm s c0 l p Hc Hp) as [N1 N2].
    destruct (decide (p + 1 < zlen l)) as [Hlt|Hge].
    - rewrite N1 by done. apply IH; lia.
    - assert (zlen l - (p + 1) = 0) as -> by lia. specialize (N2 ltac:(lia)).
      destruct fuel as [|fuel]; [lia|]. cbn [loop pfold Z.mul Z.to_nat]. unfold F at 1.
      assert (in_chain (next fm s (getz l p)) = false) as -> by (unfold in_chain; lia). done. }
  destruct (chain_head fm s c0 l Hc) as [Hl0 <-].
  rewrite Hall by (unfold zlen in *; lia). by rewrite Z.sub_0_r, Z.mul_0_r.
Qed.

(** *** dlookup as a search in the list of entries *)

Definition dl_step (nm : list Z) (e : list Z) (x : Z * lfn_st) :
  outcome (Z * lfn_st + option (list Z * Z * list Z)) :=
  let '(pos, st) := x in
  let next := u32 (pos + 32) in
  if getz e 0 =? 0 then Ok (inr None)
  else if getz e 0 =? 229 then Ok (inl (next, lfn_reset st))
  else if DIR_Attr e =? ATTR_LONG_NAME
  then match lfn_step st e with Ok st' => Ok (inl (next, st')) | Fault f => Fault f end
  else match match_entry st e nm with
       | Ok (Some l) => Ok (inr (Some (e, pos, l)))
       | Ok None => Ok (inl (next, lfn_reset st))
       | Fault f => Fault f
       end.

Fixpoint lfold {X R} (step : list Z -> X -> outcome (X + R)) (es : list (list Z)) (x : X) :
  outcome (X + R) :=
  match es with
  | [] => Ok (inl x)
  | e :: es' => match step e x with
                | Ok (inl x') => lfold step es' x'
                | Ok (inr v) => Ok (inr v)
                | Fault f => Fault f
                end
  end.

Lemma pfold_lfold {X R} (step : list Z -> X -> outcome (X + R)) f n : forall i x,
  pfold (fun i => step (f i)) n i x = lfold step (f <$> seqZ i (Z.of_nat n)) x.
Proof.
  induction n as [|n IH]; intros i x; cbn [pfold]; [done|].
  rewrite seqZ_cons by lia. cbn [fmap list_fmap lfold].
  destruct (step (f i) x) as [[x'|v]|e]; try done. rewrite IH.
  by replace (Z.pred (Z.of_nat (S n))) with (Z.of_nat n) by lia.
Qed.

Lemma lfold_app {X R} (step : list Z -> X -> outcome (X + R)) es es' : forall x,
  lfold step (es ++ es') x =
  match lfold step es x with Ok (inl x') => lfold step es' x' | r => r end.
Proof.
  induction es as [|e es IH]; intros x; cbn; [done|].
  by destruct (step e x) as [[x'|v]|f].
Qed.

Lemma dlookup_lfold s junk dv l nm :
  blocks_ok (dvw fm s) -> chain fm s (first_clus dv) l -> is_dir dv = true ->
  dlookup fm junk dv nm s =
  match lfold (dl_step nm) (dents s l) (0, Lfn junk 0 0 false 0) with
  | Ok (inl _) => Ok (None, s)
  | Ok (inr o) => Ok (o, s)
  | Fault f => Fault f
  end.
Proof.
  intros Hv Hc Hd. unfold dlookup. rewrite Hd. cbn [negb]. unfold bind.
  rewrite (scan_chain_pfold _ (dl_step nm) s (first_clus dv) l); [|done|done|].
  - rewrite pfold_lfold. pose proof (fg_spc _ Hg). rewrite Z2Nat.id by (unfold zlen, epc; lia).
    fold (dents s l). by destruct (lfold _ _ _) as [[]|].
  - intros sec b e [pos st] R1 R32. unfold dlookup_body, dl_step.
    rewrite (bind_ok _ _ _ _ _ R32). change (getz [getz e 0] 0) with (getz e 0).
    destruct (getz e 0 =? 0); [done|]. destruct (getz e 0 =? 229); [done|].
    rewrite (bind_ok _ _ _ _ _ R1). destruct (DIR_Attr e =? ATTR_LONG_NAME).
    + by destruct (lfn_step st e).
    + by destruct (match_entry st e nm) as [[]|].
Qed.

(** *** Directories of well-formed entries *)

(** A short entry in use. *)
Record in_use (e : list Z) : Prop := In_use {
  iu_first : getz e 0 <> 0;
  iu_live : getz e 0 <> 229;
  iu_attr : DIR_Attr e <> ATTR_LONG_NAME
}.

(** ... whose short name is not [nm]. *)
Definition not_short (nm e : list Z) : Prop :=
  dot_match nm (DIR_Name e) || (ncmp nm (DIR_Name e) =? 0) = false.

(** The entries that fcreate makes for a long name. *)
Definition long_group (name e : list Z) : list (list Z) :=
  lfn_entries name (lfn_entries_needed (strlen name)) (lfn_checksum (DIR_Name e)) ++ [e].

(** Entries none of which is for [nm]: deleted entries, short names, long
    names with their short entries. *)
Inductive others (nm : list Z) : list (list Z) -> Prop :=
| others_nil : others nm []
| others_deleted e es : getz e 0 = 229 -> others nm es -> others nm (e :: es)
| others_short e es : in_use e -> not_short nm e -> others nm es -> others nm (e :: es)
| others_long name e es :
    in_use e -> not_short nm e -> ascii_name name -> lowc <$> cstr nm <> lowc <$> name ->
    others nm es -> others nm (long_group name e ++ es).

(** What a lookup of [nm] in entries [es] should give. *)
Inductive looked_up (nm : list Z) (es : list (list Z)) : option (list Z * Z * list Z) -> Prop :=
| lu_long pre name e post :
    es = pre ++ long_group name e ++ post -> others nm pre -> in_use e -> ascii_name name ->
    lowc <$> cstr nm = lowc <$> name ->
    looked_up nm es (Some (e, 32 * (zlen pre + lfn_entries_needed (strlen name)), name))
| lu_short pre e post :
    es = pre ++ e :: post -> others nm pre -> in_use e -> DIR_Name e = name83 nm ->
    looked_up nm es (Some (e, 32 * zlen pre, []))
| lu_end pre e post :
    es = pre ++ e :: post -> others nm pre -> getz e 0 = 0 -> looked_up nm es None
| lu_full : others nm es -> looked_up nm es None.

(** Between groups no long name is pending. *)
Definition idle (st : lfn_st) : Prop := lfn_active st = false /\ length (lfn_buf st) = 260%nat.

Lemma zlen_cons {A} (x : A) l : zlen (x :: l) = 1 + zlen l.
Proof. unfold zlen. cbn. lia. Qed.
Lemma match_idle st e nm : idle st ->
  match_entry st e nm =
  Ok (if dot_match nm (DIR_Name e) || (ncmp nm (DIR_Name e) =? 0) then Some [] else None).
Proof. intros [E _]. unfold match_entry. by rewrite E. Qed.

Lemma lfold_lfn nm es : forall pos st,
  0 <= pos -> pos + 32 * zlen es < 2 ^ 32 ->
  Forall (fun e => getz e 0 <> 0 /\ getz e 0 <> 229 /\ DIR_Attr e = ATTR_LONG_NAME) es ->
  lfold (dl_step nm) es (pos, st) =
  match lfn_run st es with Ok st' => Ok (inl (pos + 32 * zlen es, st')) | Fault f => Fault f end.
Proof.
  induction es as [|e es IH]; intros pos st Hp Hl Hes; cbn [lfold lfn_run].
  - by rewrite Z.add_0_r.
  - rewrite zlen_cons in *. apply Forall_cons in Hes as [(H1 & H2 & H3) Hes].
    assert (0 <= zlen es) by (unfold zlen; lia). unfold dl_step at 1.
    assert (getz e 0 =? 0 = false) as -> by lia. assert (getz e 0 =? 229 = false) as -> by lia.
    rewrite H3, Z.eqb_refl. destruct (lfn_step st e) as [st'|f]; [|done].
    rewrite u32_small by lia. rewrite IH by (auto; lia).
    destruct (lfn_run st' es); [|done]. do 3 f_equal. lia.
Qed.

Lemma lfn_seq_live cnt ei : 0 <= ei < cnt -> cnt <= 20 ->
  lfn_seq cnt ei <> 0 /\ lfn_seq cnt ei <> 229.
Proof.
  intros H1 Hc. assert (exists k, (k < 20)%nat /\ ei = Z.of_nat k) as (k & Hk & ->)
    by (exists (Z.to_nat ei); lia).
  unfold lfn_seq. destruct (Z.of_nat k =? cnt - 1);
    do 20 (destruct k as [|k]; [split; vm_compute; discriminate|]); lia.
Qed.

Lemma lfn_entries_live name ck : ascii_name name ->
  let cnt := lfn_entries_needed (strlen name) in
  zlen (lfn_entries name cnt ck) = cnt /\
  Forall (fun e => getz e 0 <> 0 /\ getz e 0 <> 229 /\ DIR_Attr e = ATTR_LONG_NAME)
         (lfn_entries name cnt ck).
Proof.
  intros Ha cnt. pose proof (an_len _ Ha) as Hl.
  pose proof (lfn_entries_needed_bounds _ Hl) as [Hc Hn].
  unfold cnt in *. rewrite strlen_cstr, (ascii_cstr _ Ha). split.
  - unfold zlen, lfn_entries. rewrite length_fmap, length_seq. unfold zlen in Hc. lia.
  - unfold lfn_entries. apply Forall_fmap, Forall_forall. intros k Hk%elem_of_seq. unfold compose. cbn beta.
    destruct (lfn_entry_fields (uname name (lfn_entries_needed (zlen name) * LFN_CHARS_PER_ENTRY))
                (lfn_entries_needed (zlen name)) (lfn_entries_needed (zlen name) - 1 - Z.of_nat k) ck)
      as (_ & -> & -> & _); [apply uname_u16s; [done|unfold LFN_CHARS_PER_ENTRY; lia]|].
    split_and!; [..|done]; apply lfn_seq_live; lia.
Qed.

(** Reaching the short entry of a long-name group. *)
Lemma lfold_long nm name ck pos st :
  ascii_name name -> idle st -> 0 <= pos ->
  pos + 32 * lfn_entries_needed (strlen name) < 2 ^ 32 ->
  exists st', lfold (dl_step nm) (lfn_entries name (lfn_entries_needed (strlen name)) ck) (pos, st)
      = Ok (inl (pos + 32 * lfn_entries_needed (strlen name), st')) /\
    lfn_active st' = true /\ lfn_chars st' > 0 /\ lfn_cksum st' = ck /\
    lfn_str st' = Ok name /\ length (lfn_buf st') = 260%nat.
Proof.
  intros Ha [_ Hb] Hp Hl.
  destruct (lfn_scan_spec name _ ck st Ha eq_refl Hb) as (st' & E & F1 & F2 & F3 & F4 & F5).
  destruct (lfn_entries_live name ck Ha) as [Hz Hlv]. exists st'.
  rewrite lfold_lfn; [|done|lia|done]. rewrite E, Hz. split_and!; try done.
  pose proof (lfn_entries_needed_bounds _ (an_len _ Ha)) as [Hc _].
  rewrite strlen_cstr, (ascii_cstr _ Ha) in F2. lia.
Qed.

Lemma lfold_short_skip nm e pos st :
  in_use e -> 0 <= pos -> pos + 32 < 2 ^ 32 -> match_entry st e nm = Ok None ->
  dl_step nm e (pos, st) = Ok (inl (pos + 32, lfn_reset st)).
Proof.
  intros [H1 H2 H3] Hp Hl Hm. unfold dl_step.
  assert (getz e 0 =? 0 = false) as -> by lia. assert (getz e 0 =? 229 = false) as -> by lia.
  assert (DIR_Attr e =? ATTR_LONG_NAME = false) as -> by lia. rewrite Hm, u32_small by lia. done.
Qed.

Lemma dl_step_hit nm e pos st l :
  in_use e -> match_entry st e nm = Ok (Some l) ->
  dl_step nm e (pos, st) = Ok (inr (Some (e, pos, l))).
Proof.
  intros [H1 H2 H3] Hm. unfold dl_step.
  assert (getz e 0 =? 0 = false) as -> by lia. assert (getz e 0 =? 229 = false) as -> by lia.
  assert (DIR_Attr e =? ATTR_LONG_NAME = false) as -> by lia. by rewrite Hm.
Qed.

Section Name.
  Context (nm : list Z) (Hby : Forall is_byte nm) (Hlen : (length (cstr nm) < 256)%nat).

(** Entries of other names are passed over. *)
Lemma lfold_others es : others nm es -> forall pos st,
  idle st -> 0 <= pos -> pos + 32 * zlen es < 2 ^ 32 ->
  exists st', lfold (dl_step nm) es (pos, st) = Ok (inl (pos + 32 * zlen es, st')) /\ idle st'.
Proof.
  induction 1 as [|e es He _ IH|e es Hu Hn _ IH|name e es Hu Hn Ha Hd _ IH]; intros pos st Hi Hp Hl.
  - exists st. cbn. by rewrite Z.add_0_r.
  - rewrite zlen_cons in *. assert (0 <= zlen es) by (unfold zlen; lia). cbn [lfold].
    unfold dl_step at 1. rewrite He. change (229 =? 0) with false. change (229 =? 229) with true.
    cbn iota. rewrite u32_small by lia. destruct Hi as [_ Hb].
    destruct (IH (pos + 32) (lfn_reset st)) as (st' & E & Hi'); [done|lia|lia|].
    exists st'. rewrite E. split; [|done]. do 3 f_equal. lia.
  - rewrite zlen_cons in *. assert (0 <= zlen es) by (unfold zlen; lia). cbn [lfold].
    rewrite lfold_short_skip; [|done|lia|lia|by rewrite match_idle, Hn by done].
    destruct Hi as [_ Hb].
    destruct (IH (pos + 32) (lfn_reset st)) as (st' & E & Hi'); [done|lia|lia|].
    exists st'. rewrite E. split; [|done]. do 3 f_equal. lia.
  - unfold long_group in *. rewrite !zlen_app in *. change (zlen [e]) with 1 in *.
    destruct (lfn_entries_live name (lfn_checksum (DIR_Name e)) Ha) as [Hz _]. rewrite Hz in *.
    assert (0 <= zlen es) by (unfold zlen; lia).
    destruct (lfold_long nm name (lfn_checksum (DIR_Name e)) pos st Ha Hi Hp ltac:(lia))
      as (st1 & E1 & F1 & F2 & F3 & F4 & F5).
    rewrite <-app_assoc, lfold_app, E1. cbn [app lfold].
    set (k := lfn_entries_needed (strlen name)) in *. 
    assert (0 <= k) by (rewrite <-Hz; unfold zlen; lia).
    rewrite lfold_short_skip; [|done|lia|lia|].
    2:{ rewrite (match_after_scan name nm e st1 _ Ha Hby Hlen F1 F2 F3 eq_refl F4).
        by rewrite bool_decide_false, Hn by done. }
    destruct (IH (pos + 32 * k + 32) (lfn_reset st1)) as (st' & E & Hi'); [done|lia|lia|].
    exists st'. rewrite E. split; [|done]. do 3 f_equal. lia.
Qed.

Lemma looked_up_lfold es r junk :
  looked_up nm es r -> length junk = 260%nat -> 32 * zlen es < 2 ^ 32 ->
  match lfold (dl_step nm) es (0, Lfn junk 0 0 false 0) with
  | Ok (inl _) => r = None | Ok (inr o) => o = r | Fault _ => False
  end.
Proof.
  intros Hr Hj Hl. assert (idle (Lfn junk 0 0 false 0)) as Hi by done.
  destruct Hr as [pre name e post -> Ho Hu Ha Hn|pre e post -> Ho Hu Hn|pre e post -> Ho He|Ho].
  - unfold long_group in *. rewrite !zlen_app in Hl. change (zlen [e]) with 1 in Hl.
    destruct (lfn_entries_live name (lfn_checksum (DIR_Name e)) Ha) as [Hz _]. rewrite Hz in Hl.
    assert (0 <= zlen post) by (unfold zlen; lia). assert (0 <= zlen pre) by (unfold zlen; lia).
    assert (0 <= lfn_entries_needed (strlen name)) by (rewrite <-Hz; unfold zlen; lia).
    destruct (lfold_others pre Ho 0 _ Hi) as (st1 & E1 & Hi1); [lia|lia|].
    rewrite lfold_app, E1, <-app_assoc, lfold_app. rewrite Z.add_0_l.
    destruct (lfold_long nm name (lfn_checksum (DIR_Name e)) (32 * zlen pre) st1 Ha Hi1)
      as (st2 & E2 & F1 & F2 & F3 & F4 & F5); [lia|lia|].
    rewrite E2. cbn [app lfold]. rewrite (dl_step_hit nm e _ _ name); [|done|].
    + do 3 f_equal. lia.
    + rewrite (match_after_scan name nm e st2 _ Ha Hby Hlen F1 F2 F3 eq_refl F4).
      by rewrite bool_decide_true.
  - rewrite zlen_app, zlen_cons in Hl. assert (0 <= zlen post) by (unfold zlen; lia).
    destruct (lfold_others pre Ho 0 _ Hi) as (st1 & E1 & Hi1); [lia|lia|].
    rewrite lfold_app, E1. cbn [lfold]. rewrite (dl_step_hit nm e _ _ []); [done|done|].
    rewrite match_idle by done. unfold ncmp. rewrite Hn.
    rewrite (proj2 (memcmp_bytes_eq (name83 nm) _ eq_refl) eq_refl). by rewrite orb_true_r.
  - rewrite zlen_app, zlen_cons in Hl. assert (0 <= zlen post) by (unfold zlen; lia).
    destruct (lfold_others pre Ho 0 _ Hi) as (st1 & E1 & Hi1); [lia|lia|].
    rewrite lfold_app, E1. cbn [lfold]. unfold dl_step. by rewrite He.
  - destruct (lfold_others es Ho 0 _ Hi) as (st1 & E1 & Hi1); [lia|lia|]. by rewrite E1.
Qed.

End Name.


End Dir.

(** *** Examples *)

(** A short entry with the name [n] (11 bytes) and attribute ARCHIVE. *)
Definition mk_short (n : list Z) : list Z := n ++ [ATTR_ARCHIVE] ++ replicate 20 0.

(** The volume of FatTable with [es] in the root directory (cluster 2). *)
Definition wit_dir_fat (es : list (list Z)) : fat flat :=
  Fat (Bst (fun _ b => if b =? 2 then splice zero_block 512 (concat es) else wit_fat_blk b) [] 0)
      Sleep.initsleeplock 4 (Flat (fun _ => 0) 1000).

Definition wit_root : fat32_vnode := Fv 2 0 ATTR_DIRECTORY false 0 0.

(** "a.c", and "long name" with its short entry. *)
Definition wit_long : list Z := [108; 111; 110; 103; 32; 110; 97; 109; 101].
Definition wit_long_e : list Z := mk_short (gen_short_name wit_long 1).
Definition wit_es : list (list Z) :=
  mk_short (name83 [97; 46; 99]) :: long_group wit_long wit_long_e.


(** fcreate's steps on the directory: find room for the long name's two
    entries, write them, look the name up. *)
Definition create_then_lookup (es : list (list Z)) : outcome (option Z * Z * bool) :=
  match dfree wit_fm wit_root 1 (wit_dir_fat es) with
  | Ok ((Some off, dv), s) =>
      match dwrite_lfn wit_fm dv off 1 wit_long wit_long_e s with
      | Ok (r, s') =>
          match dlookup wit_fm (replicate 260 0) dv wit_long s' with
          | Ok (o, _) => Ok (Some off, r, match o with Some _ => true | None => false end)
          | Fault e => Fault e
          end
      | Fault e => Fault e
      end
  | Ok ((None, _), _) => Ok (None, 0, false)
  | Fault e => Fault e
  end.

(** With two free slots the created name is found.  With 15 used entries and
    one end-mark slot, dfree appends a cluster and the entries go there, past
    an end mark that dlookup stops at: the file just created is not found. *)
Theorem create_past_end_mark_is_lost :
  create_then_lookup (replicate 14 (mk_short (name83 [97; 46; 99]))) = Ok (Some 448, 0, true) /\
  create_then_lookup (replicate 15 (mk_short (name83 [97; 46; 99]))) = Ok (Some 512, 0, false).
Proof. split; vm_compute; reflexivity. Qed.

(** An empty file (first cluster 0) is listed with inode number 0, which
    readers of directories take for an unused slot. *)
Theorem empty_file_listed_as_unused :
  match freaddir wit_fm (replicate 260 0) (replicate 256 0) wit_root 100 0
          (wit_dir_fat [mk_short (name83 [97; 46; 99])]) with
  | Ok (r, s) => r = 32 /\ (fl_mem (fa_usr s) 100 = 0 /\ fl_mem (fa_usr s) 101 = 0) /\
                 fl_mem (fa_usr s) 102 = 97
  | Fault _ => False
  end.
Proof. vm_compute. repeat split. Qed.
