(* ===== verification/Ext2.v ===== *)
(** Ext2: the on-disk operations of kernel/ext2.c: bitmaps, block and inode
    allocation, block mapping, file data, directories and truncation.

    The state is the block layer, the mount's in-memory superblock and lock,
    user memory and the clock; the mount's group descriptor and inode size do
    not change and are a parameter.  An [ext2_vnode_priv] is passed and
    returned by value: each function works on one, with the 128 bytes of the
    on-disk inode inside it.  bread never returns 0 (Bio), so the branches for
    that case do not occur. *)

From S2P Require Import Prelude CString Locks Log Block Umem.

Definition EXT2_NDIRECT : Z := 12.
Definition EXT2_NINDIRECT : Z := 256.
Definition EXT2_ROOT_INO : Z := 2.
Definition EXT2_MAGIC : Z := 61267.
Definition EXT2_FT_REG : Z := 1.
Definition EXT2_FT_DIR : Z := 2.
Definition EXT2_FT_CHRDEV : Z := 3.

Record ext2_mount_priv : Type := Em {
  em_dev : Z; inode_size : Z;
  bg_block_bitmap : Z; bg_inode_bitmap : Z; bg_inode_table : Z
}.

Record ext2_vnode_priv : Type := Ev {
  ev_ino : list Z; ev_inum : Z; ev_dirty : bool; ev_orphaned : bool
}.

Record ext (U : Type) : Type := Ext {
  x_b : bst; x_sb : list Z; x_lock : Sleep.sleeplock; x_pid : Z; x_usr : U; x_ticks : Z
}.
Arguments Ext {U}.
Arguments x_b {U}.
Arguments x_sb {U}.
Arguments x_lock {U}.
Arguments x_pid {U}.
Arguments x_usr {U}.
Arguments x_ticks {U}.

(** Fields of the superblock. *)
Definition s_inodes_count (sb : list Z) : Z := rd32 sb 0.
Definition s_blocks_count (sb : list Z) : Z := rd32 sb 4.
Definition s_free_blocks_count (sb : list Z) : Z := rd32 sb 12.
Definition s_free_inodes_count (sb : list Z) : Z := rd32 sb 16.
Definition add_free_blocks (k : Z) (sb : list Z) : list Z :=
  wr32 sb 12 (u32 (s_free_blocks_count sb + k)).
Definition add_free_inodes (k : Z) (sb : list Z) : list Z :=
  wr32 sb 16 (u32 (s_free_inodes_count sb + k)).

(** Fields of an on-disk inode. *)
Definition i_mode (ino : list Z) : Z := rd16 ino 0.
Definition i_size (ino : list Z) : Z := rd32 ino 4.
Definition i_links_count (ino : list Z) : Z := rd16 ino 26.
Definition i_blocks (ino : list Z) : Z := rd32 ino 28.
Definition i_block (ino : list Z) (k : Z) : Z := rd32 ino (40 + 4 * k).
Definition set_i_size (n : Z) (ino : list Z) : list Z := wr32 ino 4 n.
Definition set_i_links (n : Z) (ino : list Z) : list Z := wr16 ino 26 (u16 n).
Definition set_i_blocks (n : Z) (ino : list Z) : list Z := wr32 ino 28 (u32 n).
Definition set_i_block (k v : Z) (ino : list Z) : list Z := wr32 ino (40 + 4 * k) v.
Definition set_i_ctime (t : Z) (ino : list Z) : list Z := wr32 ino 12 t.

Definition set_ino (ino : list Z) (p : ext2_vnode_priv) : ext2_vnode_priv :=
  Ev ino (ev_inum p) (ev_dirty p) (ev_orphaned p).
Definition set_ev_dirty (d : bool) (p : ext2_vnode_priv) : ext2_vnode_priv :=
  Ev (ev_ino p) (ev_inum p) d (ev_orphaned p).

(** Directory entries inside a block: [sizeof(struct ext2_dir_entry)] is 8. *)
Definition d_inode (bp : list Z) (o : Z) : Z := rd32 bp o.
Definition d_rec_len (bp : list Z) (o : Z) : Z := rd16 bp (o + 4).
Definition d_name_len (bp : list Z) (o : Z) : Z := getz bp (o + 6).
Definition d_name (bp : list Z) (o : Z) : list Z := slice bp (o + 8) (d_name_len bp o).

(** [(n + 3) & ~3] *)
Definition align4 (n : Z) : Z := Z.ldiff (n + 3) 3.

(** [strncmp(de->name, name, de->name_len) == 0 && name[de->name_len] == 0] *)
Definition name_matches (bp : list Z) (o : Z) (name : list Z) : bool :=
  (strncmp (drop (Z.to_nat (o + 8)) bp) name (Z.to_nat (d_name_len bp o)) =? 0) &&
  (getz name (d_name_len bp o) =? 0).

Section Ops.
  Context {U : Type} `{UserMem U} (mp : ext2_mount_priv).

Definition set_xb (b : bst) (s : ext U) : ext U :=
  Ext b (x_sb s) (x_lock s) (x_pid s) (x_usr s) (x_ticks s).
Definition set_xsb (sb : list Z) (s : ext U) : ext U :=
  Ext (x_b s) sb (x_lock s) (x_pid s) (x_usr s) (x_ticks s).
Definition set_xlock (k : Sleep.sleeplock) (s : ext U) : ext U :=
  Ext (x_b s) (x_sb s) k (x_pid s) (x_usr s) (x_ticks s).
Definition set_xusr (u : U) (s : ext U) : ext U :=
  Ext (x_b s) (x_sb s) (x_lock s) (x_pid s) u (x_ticks s).

Definition onx {A} (m : M bst A) : M (ext U) A := zoom x_b set_xb m.
Definition rdb (b : Z) : M (ext U) block := onx (bread (em_dev mp) b).
Definition wrb (b : Z) (d : block) : M (ext U) unit := onx (bstore (em_dev mp) b d).

Definition lock_mp : M (ext U) unit :=
  pid <- gets x_pid ;; zoom x_lock set_xlock (Sleep.acquiresleep pid).
Definition unlock_mp : M (ext U) unit := zoom x_lock set_xlock Sleep.releasesleep.

(** *** Inodes on disk *)

Definition ino_block (inum : Z) : Z :=
  u32 (bg_inode_table mp + u32 (inum - 1) / (BSIZE / inode_size mp)).
Definition ino_offset (inum : Z) : Z :=
  (u32 (inum - 1) mod (BSIZE / inode_size mp)) * inode_size mp.

Definition read_inode (inum : Z) : M (ext U) (list Z) :=
  bp <- rdb (ino_block inum) ;; ret (slice bp (ino_offset inum) 128).

Definition write_inode (inum : Z) (ino : list Z) : M (ext U) unit :=
  bp <- rdb (ino_block inum) ;; wrb (ino_block inum) (splice bp (ino_offset inum) ino).

Definition ext2_update_time (p : ext2_vnode_priv) (access mod_ : bool) : M (ext U) ext2_vnode_priv :=
  t <- gets x_ticks ;;
  let ino := ev_ino p in
  let ino := if access then wr32 ino 8 t else ino in
  let ino := if mod_ then wr32 (wr32 ino 16 t) 12 t else ino in
  ret (if access || mod_ then set_ev_dirty true (set_ino ino p) else p).

Definition ext2_writeback (p : ext2_vnode_priv) : M (ext U) ext2_vnode_priv :=
  if ev_dirty p
  then write_inode (ev_inum p) (ev_ino p) ;;; ret (set_ev_dirty false p)
  else ret p.

(** *** Bitmaps *)

Definition bitmap_try (bb base : Z) (bp : block) (i : Z) : M (ext U) (option Z) :=
  if bm_get bp i then ret None
  else wrb bb (bm_set bp i) ;;; unlock_mp ;;; ret (Some (i + base)).

Definition bitmap_alloc (bb nbits base : Z) : M (ext U) Z :=
  bp <- rdb bb ;;
  lock_mp ;;;
  r <- for_upto (Z.to_nat (Z.min nbits (BSIZE * 8) - 1)) 1 (bitmap_try bb base bp) ;;
  match r with
  | Some n => ret n
  | None => unlock_mp ;;; ret (-1)
  end.

Definition bitmap_free (bb n base : Z) : M (ext U) unit :=
  bp <- rdb bb ;;
  lock_mp ;;;
  wrb bb (bm_clear bp (u32 (n - base))) ;;;
  unlock_mp.

Definition ext2_sb_write : M (ext U) unit :=
  sb <- gets x_sb ;; wrb 1 sb.

(** [acquiresleep; mp->sb... += k; ext2_sb_write; releasesleep] *)
Definition count_sb (f : list Z -> list Z) : M (ext U) unit :=
  lock_mp ;;; modify (fun s => set_xsb (f (x_sb s)) s) ;;; ext2_sb_write ;;; unlock_mp.

Definition ext2_balloc : M (ext U) Z :=
  sb <- gets x_sb ;;
  b <- bitmap_alloc (bg_block_bitmap mp) (s_blocks_count sb) 0 ;;
  if b <? 0 then ret 0 else count_sb (add_free_blocks (-1)) ;;; ret b.

Definition ext2_bfree (blockno : Z) : M (ext U) unit :=
  bitmap_free (bg_block_bitmap mp) blockno 0 ;;; count_sb (add_free_blocks 1).

(** The inode that ext2_ialloc leaves on disk. *)
Definition fresh_inode (mode t : Z) : list Z :=
  wr32 (wr32 (wr32 (wr16 (replicate 128 0) 0 mode) 8 t) 16 t) 12 t.

Definition ext2_ialloc (mode : Z) : M (ext U) Z :=
  sb <- gets x_sb ;;
  inum <- bitmap_alloc (bg_inode_bitmap mp) (s_inodes_count sb) 1 ;;
  if inum <? 0 then ret 0
  else
    t <- gets x_ticks ;;
    write_inode inum (fresh_inode mode t) ;;;
    count_sb (add_free_inodes (-1)) ;;;
    ret inum.

Definition ext2_ifree (inum : Z) : M (ext U) unit :=
  bitmap_free (bg_inode_bitmap mp) inum 1 ;;; count_sb (add_free_inodes 1).

(** *** Block mapping *)

(** A new block recorded in the inode's slot [k]: two more sectors. *)
Definition add_block (k b : Z) (p : ext2_vnode_priv) : ext2_vnode_priv :=
  set_ev_dirty true (set_ino (set_i_blocks (i_blocks (ev_ino p) + 2)
                                           (set_i_block k b (ev_ino p))) p).

Definition ext2_bmap (p : ext2_vnode_priv) (lbn : Z) (alloc : bool) :
  M (ext U) (Z * ext2_vnode_priv) :=
  if lbn <? EXT2_NDIRECT
  then
    if (i_block (ev_ino p) lbn =? 0) && alloc
    then
      b <- ext2_balloc ;;
      if b =? 0 then ret (0, p) else ret (b, add_block lbn b p)
    else ret (i_block (ev_ino p) lbn, p)
  else
    let lbn := lbn - EXT2_NDIRECT in
    if lbn <? EXT2_NINDIRECT
    then
      o <- (if (i_block (ev_ino p) 12 =? 0) && alloc
            then
              iblk <- ext2_balloc ;;
              if iblk =? 0 then ret None
              else rdb iblk ;;; wrb iblk zero_block ;;; ret (Some (add_block 12 iblk p))
            else ret (Some p)) ;;
      match o with
      | None => ret (0, p)
      | Some p =>
          if i_block (ev_ino p) 12 =? 0 then ret (0, p)
          else
            let ib := i_block (ev_ino p) 12 in
            bp <- rdb ib ;;
            if (rd32 bp (4 * lbn) =? 0) && alloc
            then
              b <- ext2_balloc ;;
              if b =? 0 then ret (0, p)
              else
                wrb ib (wr32 bp (4 * lbn) b) ;;;
                ret (b, set_ev_dirty true
                          (set_ino (set_i_blocks (i_blocks (ev_ino p) + 2) (ev_ino p)) p))
            else ret (rd32 bp (4 * lbn), p)
      end
    else ret (0, p).

(** *** Truncation *)

(** Locals of the first loop: the inode's private data. *)
Definition trunc_direct (lbn : Z) (p : ext2_vnode_priv) :
  M (ext U) (ext2_vnode_priv + ext2_vnode_priv) :=
  if i_block (ev_ino p) lbn =? 0 then ret (inr p)
  else
    ext2_bfree (i_block (ev_ino p) lbn) ;;;
    ret (inl (set_ino (set_i_block lbn 0 (ev_ino p)) p)).

(** The indirect block is held in [bp] while its blocks are freed. *)
Definition trunc_indirect (i : Z) (bp : block) : M (ext U) (block + block) :=
  if rd32 bp (4 * i) =? 0 then ret (inr bp)
  else ext2_bfree (rd32 bp (4 * i)) ;;; ret (inl (wr32 bp (4 * i) 0)).

End Ops.

(** A counted loop with an early [break]: both ways out keep the locals. *)
Fixpoint for_break {S X} (n : nat) (i : Z) (body : Z -> X -> M S (X + X)) (x : X) : M S X :=
  match n with
  | O => ret x
  | S n' =>
      r <- body i x ;;
      match r with inl x' => for_break n' (i + 1) body x' | inr x' => ret x' end
  end.

Section Ops2.
  Context {U : Type} `{UserMem U} (mp : ext2_mount_priv).
  Local Abbreviation MX := (M (ext U)).

Definition ext2_i_truncate (p : ext2_vnode_priv) : MX ext2_vnode_priv :=
  p1 <- for_break 12 0 (trunc_direct mp) p ;;
  p2 <- (if i_block (ev_ino p1) 12 =? 0 then ret p1
         else
           let ib := i_block (ev_ino p1) 12 in
           bp <- rdb mp ib ;;
           bp' <- for_break 256 0 (trunc_indirect mp) bp ;;
           wrb mp ib bp' ;;;
           ext2_bfree mp ib ;;;
           ret (set_ino (set_i_block 12 0 (ev_ino p1)) p1)) ;;
  ret (set_ev_dirty true (set_ino (set_i_size 0 (set_i_blocks 0 (ev_ino p2))) p2)).

(** *** File data *)

(** Locals: total, off, what a kernel destination holds, the private data. *)
Definition read_body (d : dest) (n : Z) (x : Z * Z * list Z * ext2_vnode_priv) :
  MX (Z * Z * list Z * ext2_vnode_priv + Z * list Z * ext2_vnode_priv) :=
  let '(total, off, acc, p) := x in
  if negb (total <? n) then ret (inr (total, acc, p))
  else
    '(blk, p) <- ext2_bmap mp p (off / BSIZE) false ;;
    let boff := off mod BSIZE in
    let len := Z.min (BSIZE - boff) (n - total) in
    bp <- (if blk =? 0 then ret zero_block else rdb mp blk) ;;
    u <- gets x_usr ;;
    let '(ok, (acc', u')) := either_copyout d total acc (slice bp boff len) u in
    modify (set_xusr u') ;;;
    if (ok : bool) then ret (inl (total + len, u32 (off + len), acc', p))
    else ret (inr (-1, acc', p)).

(** ext2_read and ext2_read_kernel differ only in how they deliver the bytes
    (a hole is read as zeroes). *)
Definition ext2_read_to (d : dest) (p : ext2_vnode_priv) (n off : Z) :
  MX (Z * list Z * ext2_vnode_priv) :=
  if off >=? i_size (ev_ino p) then ret (0, [], p)
  else
    let n := if u32 (off + n) >? i_size (ev_ino p) then s32 (i_size (ev_ino p) - off) else n in
    '(r, acc, p') <- loop (Z.to_nat (n / BSIZE) + 3) (read_body d n) (0, off, [], p) ;;
    if r <? 0 then ret (r, acc, p')
    else p'' <- ext2_update_time p' true false ;; ret (r, acc, p'').

Definition ext2_read (p : ext2_vnode_priv) (buf n off : Z) : MX (Z * ext2_vnode_priv) :=
  '(r, _, p') <- ext2_read_to (DUser buf) p n off ;; ret (r, p').
Definition ext2_read_kernel (p : ext2_vnode_priv) (n off : Z) :
  MX (Z * list Z * ext2_vnode_priv) := ext2_read_to DKernel p n off.

(** Locals: total, off, the private data; [None] returns -1. *)
Definition write_body (buf n : Z) (x : Z * Z * ext2_vnode_priv) :
  MX (Z * Z * ext2_vnode_priv + option Z * Z * ext2_vnode_priv) :=
  let '(total, off, p) := x in
  if negb (total <? n) then ret (inr (Some total, off, p))
  else
    '(blk, p) <- ext2_bmap mp p (off / BSIZE) true ;;
    if blk =? 0 then ret (inr (None, off, p))
    else
      let boff := off mod BSIZE in
      bp <- rdb mp blk ;;
      let len := Z.min (BSIZE - boff) (n - total) in
      u <- gets x_usr ;;
      let '(ok, bytes, u') := copyin u (buf + total) len in
      modify (set_xusr u') ;;;
      wrb mp blk (splice bp boff bytes) ;;;
      if (ok : bool) then ret (inl (total + len, u32 (off + len), p))
      else ret (inr (None, off, p)).

(** The result, the private data, and the new vp->size when it changes. *)
Definition ext2_write (p : ext2_vnode_priv) (buf n off : Z) :
  MX (Z * ext2_vnode_priv * option Z) :=
  '(o, off', p) <- loop (Z.to_nat (n / BSIZE) + 3) (write_body buf n) (0, off, p) ;;
  match o with
  | None => ret (-1, p, None)
  | Some total =>
      let grew := off' >? i_size (ev_ino p) in
      let p := if grew then set_ev_dirty true (set_ino (set_i_size off' (ev_ino p)) p) else p in
      p <- ext2_update_time p false true ;;
      p <- ext2_writeback mp p ;;
      ret (total, p, if grew then Some off' else None)
  end.

Definition ext2_truncate (p : ext2_vnode_priv) : MX ext2_vnode_priv :=
  p <- ext2_i_truncate p ;;
  p <- ext2_update_time p false true ;;
  ext2_writeback mp p.

(** *** Directories *)

(** The entries of one block: [body] gets the block, the offset in the block
    and the offset in the directory, and ends the scan or gives the record
    length to go on by.  A record never spans blocks. *)
Definition scan_block {R} (body : block -> Z -> Z -> MX (Z + R)) (bp : block) (off : Z) :
  MX (Z + R) :=
  loop 1025
    (fun '(boff, off) =>
       if negb (boff <? BSIZE) then ret (inr (inl off))
       else
         r <- body bp boff off ;;
         match r with
         | inl len => ret (inl (boff + len, u32 (off + len)))
         | inr v => ret (inr (inr v))
         end) (off mod BSIZE, off).

(** The loop over a directory: [inl] when the end is reached, with the
    offset there; [inr None] when a block is missing. *)
Definition scan_dir {R} (p : ext2_vnode_priv) (body : Z -> block -> Z -> Z -> MX (Z + R)) :
  MX (Z + option R) :=
  loop (Z.to_nat (i_size (ev_ino p) / BSIZE) + 2)
    (fun off =>
       if negb (off <? i_size (ev_ino p)) then ret (inr (inl off))
       else
         '(blk, _) <- ext2_bmap mp p (off / BSIZE) false ;;
         if blk =? 0 then ret (inr (inr None))
         else
           bp <- rdb mp blk ;;
           r <- scan_block (body blk) bp off ;;
           match r with
           | inl off' => ret (inl off')
           | inr v => ret (inr (inr (Some v)))
           end) 0.

(** The inode number found by ext2_dir_lookup; [Some None] for a corrupt
    record. *)
Definition lookup_body (name : list Z) (_ : Z) (bp : block) (boff _ : Z) : MX (Z + option Z) :=
  if negb (d_inode bp boff =? 0) && (d_name_len bp boff >? 0) && name_matches bp boff name
  then ret (inr (Some (d_inode bp boff)))
  else if d_rec_len bp boff =? 0 then ret (inr None)
  else ret (inl (d_rec_len bp boff)).

Definition ext2_dir_lookup (p : ext2_vnode_priv) (name : list Z) : MX (option Z) :=
  r <- scan_dir p (lookup_body name) ;;
  ret (match r with inr (Some (Some inum)) => Some inum | _ => None end).

(** [de->inode], [rec_len], [name_len], [file_type] and [name] stored. *)
Definition put_entry (bp : block) (o inum rec_len ftype : Z) (name : list Z) : block :=
  splice (putz (putz (wr16 (wr32 bp o inum) (o + 4) rec_len) (o + 6) (u8 (strlen name))) (o + 7) ftype)
         (o + 8) (cstr name).

Definition needlen (name : list Z) : Z := align4 (8 + strlen name).

(** Reusing a deleted entry keeps its record length; splitting an entry
    leaves it its real length.  [inr true]: added; [inr false]: corrupt. *)
Definition add_body (inum ftype : Z) (name : list Z) (blk : Z) (bp : block) (boff _ : Z) :
  MX (Z + bool) :=
  let reclen := d_rec_len bp boff in
  if reclen =? 0 then ret (inr false)
  else
    let real := align4 (8 + d_name_len bp boff) in
    if (d_inode bp boff =? 0) && (reclen >=? needlen name)
    then wrb mp blk (put_entry bp boff inum reclen ftype name) ;;; ret (inr true)
    else if u32 (reclen - real) >=? needlen name
    then
      wrb mp blk (put_entry (wr16 bp (boff + 4) real) (boff + real) inum (u16 (reclen - real)) ftype name) ;;;
      ret (inr true)
    else ret (inl reclen).

Definition ext2_dir_add (p : ext2_vnode_priv) (name : list Z) (inum ftype : Z) :
  MX (Z * ext2_vnode_priv) :=
  r <- scan_dir p (add_body inum ftype name) ;;
  match r with
  | inr (Some true) => ret (0, p)
  | inr _ => ret (-1, p)
  | inl off =>
      '(newblk, p) <- ext2_bmap mp p (off / BSIZE) true ;;
      if newblk =? 0 then ret (-1, p)
      else
        rdb mp newblk ;;;
        wrb mp newblk (put_entry zero_block 0 inum BSIZE ftype name) ;;;
        ret (0, set_ev_dirty true (set_ino (set_i_size (u32 (off + BSIZE)) (ev_ino p)) p))
  end.

(** ext2_unlink's check that a directory has only "." and ".."; a record of
    length 0 is not guarded against here. *)
Definition empty_body (p : ext2_vnode_priv) (doff : Z) : MX (Z + bool) :=
  if negb (doff <? i_size (ev_ino p)) then ret (inr true)
  else
    '(blk, _) <- ext2_bmap mp p (doff / BSIZE) false ;;
    bp <- rdb mp blk ;;
    let o := doff mod BSIZE in
    let dot := (d_name_len bp o =? 1) && (getz bp (o + 8) =? 46) in
    let dotdot := (d_name_len bp o =? 2) && (getz bp (o + 8) =? 46) && (getz bp (o + 9) =? 46) in
    if negb (d_inode bp o =? 0) && negb dot && negb dotdot then ret (inr false)
    else ret (inl (u32 (doff + d_rec_len bp o))).

Definition ext2_dir_empty (p : ext2_vnode_priv) : MX bool :=
  loop (Z.to_nat (i_size (ev_ino p)) + 1) (empty_body p) 0.

(** readdir: the entry at or after [off]: its inode number, its name and the
    offset behind it. *)
Definition readdir_body (p : ext2_vnode_priv) (off : Z) : MX (Z + option (Z * list Z * Z)) :=
  if negb (off <? i_size (ev_ino p)) then ret (inr None)
  else
    '(blk, _) <- ext2_bmap mp p (off / BSIZE) false ;;
    if blk =? 0 then ret (inr None)
    else
      bp <- rdb mp blk ;;
      let o := off mod BSIZE in
      if d_rec_len bp o =? 0 then ret (inr None)
      else if negb (d_inode bp o =? 0)
      then ret (inr (Some (d_inode bp o, slice bp (o + 8) (Z.min (d_name_len bp o) 255),
                           u32 (off + d_rec_len bp o))))
      else ret (inl (u32 (off + d_rec_len bp o))).

Definition ext2_readdir (junk : list Z) (p : ext2_vnode_priv) (buf off : Z) : MX Z :=
  o <- loop (Z.to_nat (i_size (ev_ino p)) + 1) (readdir_body p) off ;;
  match o with
  | None => ret (-1)
  | Some (inum, name, next) =>
      u <- gets x_usr ;;
      let '(ok, u') := copyout u buf (le_enc 2 inum ++ take 256 (name ++ [0] ++ junk)) in
      modify (set_xusr u') ;;;
      ret (if (ok : bool) then s32 next else -1)
  end.

End Ops2.
