(* ===== verification/Ext2Dir.v ===== *)
(** Ext2Dir: ext2 directories as sequences of records.  The nested loops over
    blocks and records are a search through the records in order; a name added
    by ext2_dir_add is found by ext2_dir_lookup, and all other names still give
    what they gave. *)

From S2P Require Import Prelude CString Locks Log Block Umem Ext2.

(** *** Records of a block *)

(** A used record's name is not empty and has no NUL in it. *)
Definition name_ok (bp : block) (o : Z) : Prop :=
  d_inode bp o <> 0 -> Forall (fun c => c <> 0) (d_name bp o) /\ 0 < d_name_len bp o.

(** The records from offset [o] to the end of the block start at [os]. *)
Inductive wf_recs (bp : block) : Z -> list Z -> Prop :=
| wr_end : wf_recs bp 1024 []
| wr_rec o os :
    0 <= o -> 8 + d_name_len bp o <= d_rec_len bp o -> d_rec_len bp o mod 4 = 0 ->
    0 <= d_name_len bp o -> o + d_rec_len bp o <= 1024 -> name_ok bp o ->
    wf_recs bp (o + d_rec_len bp o) os -> wf_recs bp o (o :: os).

(** The record that matches [name]. *)
Definition hit (bp : block) (name : list Z) (o : Z) : bool :=
  negb (d_inode bp o =? 0) && (d_name_len bp o >? 0) && name_matches bp o name.

Lemma take_cstr_nz k (l : list Z) :
  Forall (fun c => c <> 0) (take k l) -> take k (cstr l) = take k l.
Proof.
  revert l. induction k as [|k IH]; intros l Hf; [done|].
  destruct l as [|c l]; [done|]. cbn in Hf. apply Forall_cons in Hf as [Hc Hf].
  rewrite cstr_cons_nz by done. cbn. by rewrite IH.
Qed.

Lemma getz_cstr_len name k : 0 <= k -> (Z.to_nat k <= length (cstr name))%nat ->
  getz name k = 0 <-> length (cstr name) = Z.to_nat k.
Proof.
  intros Hk. unfold getz. revert name. induction (Z.to_nat k) as [|n IH]; intros name Hl.
  - destruct name as [|c name]; [done|]. cbn. destruct (c =? 0) eqn:E; cbn; [split; [done|lia]|].
    split; [lia|done].
  - destruct name as [|c name]; [cbn in Hl; lia|]. cbn in *. destruct (c =? 0); [cbn in Hl; lia|].
    cbn in Hl |- *. rewrite IH by lia. split; lia.
Qed.

Lemma name_matches_eq bp o name :
  0 <= o -> 0 <= d_name_len bp o -> o + 8 + d_name_len bp o <= zlen bp ->
  Forall (fun c => c <> 0) (d_name bp o) ->
  name_matches bp o name = bool_decide (cstr name = d_name bp o).
Proof.
  intros Ho Hk Hl Hn. unfold name_matches, d_name in *.
  set (k := d_name_len bp o) in *. set (D := drop (Z.to_nat (o + 8)) bp).
  assert (length (take (Z.to_nat k) D) = Z.to_nat k) as HD
    by (unfold D; rewrite length_take, length_drop; unfold zlen in Hl; lia).
  fold D in Hn. change (slice bp (o + 8) k) with (take (Z.to_nat k) D) in *.
  pose proof (strncmp_eq_iff (Z.to_nat k) D name) as Hs. rewrite take_cstr_nz in Hs by done.
  case_bool_decide as E.
  - assert (strncmp D name (Z.to_nat k) =? 0 = true) as ->.
    { apply Z.eqb_eq, Hs. rewrite E, take_take, Nat.min_id. done. }
    apply Z.eqb_eq, getz_cstr_len; [done|rewrite E; lia|rewrite E; lia].
  - destruct (strncmp D name (Z.to_nat k) =? 0) eqn:E0; [|done]. cbn.
    apply Z.eqb_eq, Hs in E0. apply Z.eqb_neq. intros E1. apply E.
    apply getz_cstr_len in E1; [|done|].
    + rewrite E0. by rewrite take_ge by lia.
    + rewrite <-HD, E0, length_take. lia.
Qed.

(** *** The names of a block *)

(** The name and inode number of a used record. *)
Definition rec_of (bp : block) (o : Z) : list (list Z * Z) :=
  if negb (d_inode bp o =? 0) && (d_name_len bp o >? 0) then [(d_name bp o, d_inode bp o)] else [].
Definition recs (bp : block) (os : list Z) : list (list Z * Z) := os ≫= rec_of bp.

(** [bp'] has the bytes of [bp] from [a] up to [b]. *)
Definition agree (bp bp' : block) (a b : Z) : Prop :=
  forall x n, a <= x -> 0 <= n -> x + n <= b -> slice bp' x n = slice bp x n.

Lemma getz_slice1 l o : 0 <= o -> getz l o = getz (slice l o 1) 0.
Proof.
  intros. unfold getz, slice. rewrite lookup_take_lt by (cbn; lia). rewrite lookup_drop.
  change (Z.to_nat 0) with 0%nat. by rewrite Nat.add_0_r.
Qed.

Lemma agree_fields bp bp' a b o : agree bp bp' a b -> 0 <= a -> a <= o -> o + 8 <= b ->
  d_inode bp' o = d_inode bp o /\ d_rec_len bp' o = d_rec_len bp o /\
  d_name_len bp' o = d_name_len bp o.
Proof.
  intros Ha H0 Ho Hb. unfold d_inode, d_rec_len, d_name_len, rd.
  rewrite !(getz_slice1 _ (o + 6)) by lia. rewrite !Ha by lia. done.
Qed.

Lemma agree_rec bp bp' a b o : agree bp bp' a b -> 0 <= a -> a <= o ->
  0 <= d_name_len bp o -> o + 8 + d_name_len bp o <= b -> rec_of bp' o = rec_of bp o.
Proof.
  intros Ha H0 Ho Hn Hb. destruct (agree_fields bp bp' a b o) as (E1 & E2 & E3); try done; [lia|].
  unfold rec_of, d_name. rewrite E1, E3, Ha by lia. done.
Qed.

Lemma agree_name_ok bp bp' a b o : agree bp bp' a b -> 0 <= a -> a <= o ->
  0 <= d_name_len bp o -> o + 8 + d_name_len bp o <= b -> name_ok bp o -> name_ok bp' o.
Proof.
  intros Ha H0 Ho Hn Hb Hk. destruct (agree_fields bp bp' a b o) as (E1 & E2 & E3); try done; [lia|].
  unfold name_ok, d_name in *. rewrite E1, E3, Ha by lia. done.
Qed.

Lemma agree_sub bp bp' a b a' b' : agree bp bp' a b -> a <= a' -> b' <= b -> agree bp bp' a' b'.
Proof. intros Ha ? ? x n ? ? ?. apply Ha; lia. Qed.

Lemma wf_recs_start bp a o os : wf_recs bp a (o :: os) -> a = o.
Proof. by inversion 1. Qed.

Lemma wf_recs_le bp a os : wf_recs bp a os -> a <= 1024 /\ forall o, o ∈ os -> a <= o.
Proof.
  induction 1 as [|o os H0 H1 H2 Hn H3 Hk Hw [IH1 IH2]]; [split; [lia|set_solver]|].
  split; [lia|]. intros x [->|Hx]%elem_of_cons; [lia|]. specialize (IH2 x Hx). lia.
Qed.

(** The records from a point on depend only on the bytes from there on. *)
Lemma wf_recs_agree bp bp' a os : wf_recs bp a os -> 0 <= a -> agree bp bp' a 1024 ->
  wf_recs bp' a os /\ recs bp' os = recs bp os.
Proof.
  induction 1 as [|o os H0 H1 H2 Hn H3 Hk Hw IH]; intros Ha Hag; [split; [constructor|done]|].
  destruct (agree_fields bp bp' o 1024 o) as (E1 & E2 & E3); try done; [lia..|].
  destruct IH as [IH1 IH2]; [lia|eapply agree_sub; [done|lia..]|]. split.
  - constructor; rewrite ?E2, ?E3; try done. apply (agree_name_ok bp bp' o 1024); auto; lia.
  - unfold recs in *. cbn [mbind list_bind]. rewrite IH2. f_equal.
    apply (agree_rec bp bp' o 1024); auto; lia.
Qed.

Lemma wf_recs_suffix bp pre : forall a o post,
  wf_recs bp a (pre ++ o :: post) -> wf_recs bp o (o :: post).
Proof.
  induction pre as [|x pre IH]; intros a o post Hw; cbn in Hw.
  - by pose proof (wf_recs_start _ _ _ _ Hw) as ->.
  - inversion Hw; subst. eauto.
Qed.

(** Replacing the records from [o] on. *)
Lemma wf_recs_replace bp bp' pre : forall a o post os',
  wf_recs bp a (pre ++ o :: post) -> 0 <= a -> agree bp bp' a o -> wf_recs bp' o os' ->
  wf_recs bp' a (pre ++ os') /\ recs bp' pre = recs bp pre.
Proof.
  induction pre as [|x pre IH]; intros a o post os' Hw Ha Hag Hw'; cbn [app] in *.
  { pose proof (wf_recs_start _ _ _ _ Hw) as ->. done. }
  inversion Hw as [|? ? H0 H1 H2 Hn H3 Hk Hw1]; subst. rename H0 into Hx0.
  pose proof (wf_recs_le _ _ _ Hw1) as [_ Hle].
  specialize (Hle o ltac:(set_solver)).
  destruct (agree_fields bp bp' x o x) as (E1 & E2 & E3); try done; [lia..|].
  destruct (IH (x + d_rec_len bp x) o post os') as (I1 & I2); auto; [lia| |].
  { eapply agree_sub; [done|lia..]. }
  split.
  - constructor; rewrite ?E2, ?E3; try done. apply (agree_name_ok bp bp' x o); auto; lia.
  - unfold recs in *. cbn [mbind list_bind]. rewrite I2. f_equal.
    apply (agree_rec bp bp' x o); auto; lia.
Qed.

Lemma recs_app bp a b : recs bp (a ++ b) = recs bp a ++ recs bp b.
Proof. apply bind_app. Qed.

(** *** Storing an entry *)

Lemma align4_spec n : 0 <= n -> n <= align4 n < n + 4 /\ align4 n mod 4 = 0.
Proof.
  intros Hn. unfold align4.
  assert (Z.ldiff (n + 3) 3 = (n + 3) / 4 * 4) as ->.
  { change 3 with (Z.ones 2) at 2. rewrite Z.ldiff_ones_r by lia.
    by rewrite Z.shiftr_div_pow2, Z.shiftl_mul_pow2 by lia. }
  split; dlia.
Qed.

Lemma putz_splice l i v : 0 <= i < zlen l -> putz l i v = splice l i [v].
Proof. intros [? ?]. unfold putz, splice, zlen in *. rewrite insert_take_drop by lia. cbn. by rewrite Nat.add_1_r. Qed.

Lemma put_entry_fields bp o inum len ftype name :
  zlen bp = 1024 -> 0 <= o -> o + 8 + strlen name <= 1024 -> 0 < inum < 2 ^ 32 ->
  0 <= len < 65536 -> 0 < strlen name <= 255 ->
  let bp' := put_entry bp o inum len ftype name in
  zlen bp' = 1024 /\ d_inode bp' o = inum /\ d_rec_len bp' o = len /\
  d_name_len bp' o = strlen name /\ d_name bp' o = cstr name /\
  agree bp bp' 0 o /\ agree bp bp' (o + 8 + strlen name) 1024.
Proof.
  intros Hl Ho Ho' Hi Hlen Hn bp'. pose proof (strlen_cstr name) as En.
  assert (forall l x d, zlen l = 1024 -> 0 <= x -> x + zlen d <= 1024 -> zlen (splice l x d) = 1024)
    as Hz by (intros; unfold zlen in *; rewrite length_splice; unfold zlen; lia).
  set (e1 := le_enc 4 inum). set (e2 := le_enc 2 len).
  assert (zlen e1 = 4 /\ zlen e2 = 2) as [Z1 Z2] by done.
  assert (zlen [strlen name] = 1 /\ zlen [ftype] = 1) as [Z3 Z4] by done.
  set (b1 := splice bp o e1). set (b2 := splice b1 (o + 4) e2).
  set (b3 := splice b2 (o + 6) [strlen name]). set (b4 := splice b3 (o + 7) [ftype]).
  assert (zlen b1 = 1024) as L1 by (apply Hz; lia).
  assert (zlen b2 = 1024) as L2 by (apply Hz; lia).
  assert (zlen b3 = 1024) as L3 by (apply Hz; lia).
  assert (zlen b4 = 1024) as L4 by (apply Hz; lia).
  assert (bp' = splice b4 (o + 8) (cstr name)) as ->.
  { unfold bp', put_entry, wr. fold e1 b1 e2 b2. rewrite u8_small by lia.
    rewrite (putz_splice b2) by lia. fold b3. by rewrite (putz_splice b3) by lia. }
  assert (forall x n, 0 <= x -> 0 <= n -> x + n <= o \/ o + 8 + strlen name <= x ->
    slice (splice b4 (o + 8) (cstr name)) x n = slice bp x n) as Hout.
  { intros x n Hx Hn' Hd. unfold b4, b3, b2, b1.
    rewrite !slice_splice_ne by (fold b1 b2 b3 b4; lia). done. }
  assert (d_name_len (splice b4 (o + 8) (cstr name)) o = strlen name) as HN.
  { unfold d_name_len. rewrite getz_slice1, slice_splice_ne by lia. unfold b4.
    rewrite slice_splice_ne by lia. unfold b3.
    change 1 with (zlen [strlen name]) at 1. by rewrite slice_splice_eq by lia. }
  split_and!.
  - apply Hz; lia.
  - unfold d_inode, rd. rewrite slice_splice_ne by lia. unfold b4, b3, b2.
    rewrite !slice_splice_ne by (fold b2 b3; lia). unfold b1.
    change (Z.of_nat 4) with (zlen e1). rewrite slice_splice_eq by lia. unfold e1.
    rewrite le_dec_enc. apply Z.mod_small. cbn. lia.
  - unfold d_rec_len, rd. rewrite slice_splice_ne by lia. unfold b4, b3.
    rewrite !slice_splice_ne by (fold b3; lia). unfold b2.
    change (Z.of_nat 2) with (zlen e2). rewrite slice_splice_eq by lia. unfold e2.
    rewrite le_dec_enc. apply Z.mod_small. cbn. lia.
  - done.
  - unfold d_name. rewrite HN, En. apply slice_splice_eq; lia.
  - intros x n ? ? ?. apply Hout; lia.
  - intros x n ? ? ?. apply Hout; lia.
Qed.

(** The block that add_body writes for the record at [o]. *)
Definition added (bp : block) (o inum ftype : Z) (name : list Z) : block :=
  if (d_inode bp o =? 0) && (d_rec_len bp o >=? needlen name)
  then put_entry bp o inum (d_rec_len bp o) ftype name
  else put_entry (wr16 bp (o + 4) (align4 (8 + d_name_len bp o)))
         (o + align4 (8 + d_name_len bp o)) inum
         (u16 (d_rec_len bp o - align4 (8 + d_name_len bp o))) ftype name.

(** There is room for [name] in the record or behind its name. *)
Definition fits (bp : block) (name : list Z) (o : Z) : bool :=
  ((d_inode bp o =? 0) && (d_rec_len bp o >=? needlen name)) ||
  (d_rec_len bp o - align4 (8 + d_name_len bp o) >=? needlen name).


Lemma rec_of_new bp o name inum :
  d_inode bp o = inum -> 0 < inum -> d_name_len bp o = strlen name -> 0 < strlen name ->
  d_name bp o = cstr name -> rec_of bp o = [(cstr name, inum)] /\ name_ok bp o.
Proof.
  intros E1 Hi E2 Hn E3. split.
  - unfold rec_of. rewrite E1, E2, E3. by assert (negb (inum =? 0) && (strlen name >? 0) = true) as -> by lia.
  - intros _. rewrite E2, E3. split; [apply cstr_nz|done].
Qed.

Lemma needlen_spec name : 8 + strlen name <= needlen name.
Proof. pose proof (align4_spec (8 + strlen name)). pose proof (strlen_nonneg name). unfold needlen. lia. Qed.

(** Reusing the deleted record at [o]. *)
Lemma reuse_spec bp pre o post name inum ftype :
  zlen bp = 1024 -> wf_recs bp 0 (pre ++ o :: post) -> 0 < inum < 2 ^ 32 -> 0 < strlen name <= 255 ->
  d_inode bp o = 0 -> needlen name <= d_rec_len bp o ->
  let bp' := put_entry bp o inum (d_rec_len bp o) ftype name in
  zlen bp' = 1024 /\ wf_recs bp' 0 (pre ++ o :: post) /\
  recs bp (pre ++ o :: post) = recs bp pre ++ recs bp post /\
  recs bp' (pre ++ o :: post) = recs bp pre ++ (cstr name, inum) :: recs bp post.
Proof.
  intros Hl Hw Hi Hn H0 Hr bp'. pose proof (needlen_spec name) as Hd.
  pose proof (wf_recs_suffix _ _ _ _ _ Hw) as Ho.
  inversion Ho as [|? ? O0 O1 O2 On O3 Oo Op]; subst.
  destruct (put_entry_fields bp o inum (d_rec_len bp o) ftype name)
    as (E0 & E1 & E2 & E3 & E4 & A1 & A2); [lia..|]. fold bp' in E0, E1, E2, E3, E4, A1, A2.
  destruct (rec_of_new bp' o name inum) as [N1 N2]; try done; [lia..|].
  destruct (wf_recs_agree bp bp' (o + d_rec_len bp o) post) as [P1 P2];
    [done|lia|eapply agree_sub; [exact A2|lia..]|].
  destruct (wf_recs_replace bp bp' pre 0 o post (o :: post)) as [Q1 Q2]; [done|lia|done| |].
  { constructor; rewrite ?E2, ?E3; auto; lia. }
  split_and!; [done..| |].
  - rewrite recs_app. f_equal. unfold recs. cbn [mbind list_bind]. unfold rec_of at 1. by rewrite H0.
  - rewrite recs_app, Q2. f_equal. unfold recs. cbn [mbind list_bind]. rewrite N1. cbn. f_equal. exact P2.
Qed.

(** Splitting the record at [o], which keeps [real] bytes. *)
Lemma split_spec bp pre o post name inum ftype :
  let real := align4 (8 + d_name_len bp o) in
  zlen bp = 1024 -> wf_recs bp 0 (pre ++ o :: post) -> 0 < inum < 2 ^ 32 -> 0 < strlen name <= 255 ->
  needlen name <= d_rec_len bp o - real ->
  let bp' := put_entry (wr16 bp (o + 4) real) (o + real) inum (u16 (d_rec_len bp o - real)) ftype name in
  zlen bp' = 1024 /\ wf_recs bp' 0 (pre ++ o :: (o + real) :: post) /\
  recs bp (pre ++ o :: post) = (recs bp pre ++ rec_of bp o) ++ recs bp post /\
  recs bp' (pre ++ o :: (o + real) :: post) =
    (recs bp pre ++ rec_of bp o) ++ (cstr name, inum) :: recs bp post.
Proof.
  intros real Hl Hw Hi Hn Hr bp'. pose proof (needlen_spec name) as Hd.
  pose proof (wf_recs_suffix _ _ _ _ _ Hw) as Ho.
  inversion Ho as [|? ? O0 O1 O2 On O3 Oo Op]; subst.
  pose proof (align4_spec (8 + d_name_len bp o) ltac:(lia)) as [R1 R2]. fold real in R1, R2.
  set (b1 := wr16 bp (o + 4) real) in *.
  assert (zlen b1 = 1024) as L1 by (unfold b1; rewrite zlen_wr; lia).
  assert (agree bp b1 0 (o + 4) /\ agree bp b1 (o + 6) 1024) as [B1 B2].
  { split; intros x n ? ? ?; unfold b1, wr; apply slice_splice_ne;
      change (zlen (le_enc 2 real)) with 2; lia. }
  assert (u16 (d_rec_len bp o - real) = d_rec_len bp o - real) as Eu by (apply u16_small; lia).
  destruct (put_entry_fields b1 (o + real) inum (d_rec_len bp o - real) ftype name)
    as (E0 & E1 & E2 & E3 & E4 & A1 & A2); [lia..|].
  rewrite <-Eu in E0, E1, E2, E3, E4, A1, A2 at 1. fold bp' in E0, E1, E2, E3, E4, A1, A2.
  destruct (rec_of_new bp' (o + real) name inum) as [N1 N2]; try done; [lia..|].
  assert (agree bp bp' 0 (o + 4) /\ agree bp bp' (o + 6) (o + real) /\
    agree bp bp' (o + d_rec_len bp o) 1024) as (C1 & C2 & C3).
  { split_and!; intros x n ? ? ?.
    - rewrite A1 by lia. by apply B1.
    - rewrite A1 by lia. apply B2; lia.
    - rewrite A2 by lia. apply B2; lia. }
  assert (d_inode bp' o = d_inode bp o) as F1 by (unfold d_inode, rd; rewrite C1 by lia; done).
  assert (d_name_len bp' o = d_name_len bp o) as F2.
  { unfold d_name_len. rewrite !(getz_slice1 _ (o + 6)) by lia. by rewrite C2 by lia. }
  assert (d_name bp' o = d_name bp o) as F3 by (unfold d_name; rewrite F2, C2 by lia; done).
  assert (d_rec_len bp' o = real) as F4.
  { unfold d_rec_len, rd. rewrite A1 by lia. change (le_dec (slice b1 (o + 4) (Z.of_nat 2)))
      with (rd16 b1 (o + 4)). unfold b1. rewrite rd_wr_eq by lia. apply Z.mod_small. cbn. lia. }
  assert (rec_of bp' o = rec_of bp o) as F5 by (unfold rec_of; by rewrite F1, F2, F3).
  destruct (wf_recs_agree bp bp' (o + d_rec_len bp o) post) as [P1 P2]; [done|lia|done|].
  destruct (wf_recs_replace bp bp' pre 0 o post (o :: (o + real) :: post)) as [Q1 Q2];
    [done|lia|eapply agree_sub; [exact C1|lia..]| |].
  { constructor; rewrite ?F4, ?F2; try lia.
    - unfold name_ok in *. by rewrite F1, F2, F3.
    - rewrite Eu in E2. constructor; rewrite ?E2, ?E3; auto; try lia; [dlia|].
      by replace (o + real + (d_rec_len bp o - real)) with (o + d_rec_len bp o) by lia. }
  split_and!; [done..| |].
  - rewrite recs_app, <-app_assoc. done.
  - rewrite recs_app, Q2, <-app_assoc. f_equal. unfold recs. cbn [mbind list_bind].
    rewrite F5, N1. do 2 f_equal. exact P2.
Qed.

Lemma added_spec bp pre o post name inum ftype :
  zlen bp = 1024 -> wf_recs bp 0 (pre ++ o :: post) -> 0 < inum < 2 ^ 32 -> 0 < strlen name <= 255 ->
  fits bp name o = true ->
  let bp' := added bp o inum ftype name in
  zlen bp' = 1024 /\ exists os' l1 l2, wf_recs bp' 0 os' /\
    recs bp (pre ++ o :: post) = l1 ++ l2 /\ recs bp' os' = l1 ++ (cstr name, inum) :: l2.
Proof.
  intros Hl Hw Hi Hn Hf. unfold added, fits in *. cbn zeta.
  destruct ((d_inode bp o =? 0) && (d_rec_len bp o >=? needlen name)) eqn:E.
  - destruct (reuse_spec bp pre o post name inum ftype) as (? & ? & ? & ?); [done || lia..|].
    split; [done|]. eauto 7.
  - destruct (split_spec bp pre o post name inum ftype) as (? & ? & ? & ?); [done || lia..|].
    split; [done|]. eauto 7.
Qed.

(** *** Searching a list of records *)

Section Scan.
  Context {U : Type} `{UserMem U} (mp : ext2_mount_priv).
  Implicit Types s : ext U.

(** The outcome of a search through [os] with test [t], result [v] and final
    state [g]. *)
Definition searched {A R} (t : A -> bool) (v : A -> R) (g : A -> ext U) (os : list A) (none : R)
    (s : ext U) (r : R) (s' : ext U) : Prop :=
  (exists pre o post, os = pre ++ o :: post /\ Forall (fun x => t x = false) pre /\ t o = true /\
     r = v o /\ s' = g o) \/
  (Forall (fun x => t x = false) os /\ r = none /\ s' = s).

Lemma scan_block_run {R} (body : block -> Z -> Z -> M (ext U) (Z + R)) bp off os
    (t : Z -> bool) (v : Z -> R) (g : Z -> ext U) s :
  wf_recs bp 0 os -> 0 <= off -> off mod BSIZE = 0 -> off + BSIZE < 2 ^ 32 ->
  (forall o off', o ∈ os -> body bp o off' s =
     if t o then Ok (inr (v o), g o) else Ok (inl (d_rec_len bp o), s)) ->
  exists r s', scan_block body bp off s = Ok (r, s') /\
    searched t (fun o => inr (v o)) g os (inl (off + BSIZE)) s r s'.
Proof.
  intros Hw Ho Hm H32 Hb. unfold scan_block. rewrite Hm.
  assert (forall o os', wf_recs bp o os' -> 0 <= o <= 1024 -> (forall x, x ∈ os' -> x ∈ os) ->
    forall fuel, (Z.to_nat (1024 - o) < fuel)%nat ->
    exists r s', loop fuel (fun '(boff, off) =>
       if negb (boff <? BSIZE) then ret (inr (inl off))
       else r <- body bp boff off ;;
            match r with
            | inl len => ret (inl (boff + len, u32 (off + len)))
            | inr v => ret (inr (inr v))
            end) (o, off + o) s = Ok (r, s') /\
      searched t (fun o => inr (v o)) g os' (inl (off + BSIZE)) s r s') as Hl.
  { intros o os' Hw'. induction Hw' as [|o os' H0 H1 H2 Hn H3 Hk Hw' IH]; intros Hr Hin fuel Hf.
    - destruct fuel as [|fuel]; [lia|]. exists (inl (off + BSIZE)), s. split; [done|]. by right.
    - destruct fuel as [|fuel]; [lia|]. cbn [loop].
      assert (o <? BSIZE = true) as -> by (unfold BSIZE; lia). cbn [negb].
      rewrite bind_assoc. assert (o ∈ os) as Hio by (apply Hin; set_solver).
      specialize (Hb o (off + o) Hio). destruct (t o) eqn:Et.
      + unfold bind at 1. rewrite Hb. exists (inr (v o)), (g o). split; [done|]. left.
        exists [], o, os'. by split_and!.
      + unfold bind at 1. rewrite Hb. cbn [bind ret]. rewrite u32_small by (unfold BSIZE in *; lia).
        replace (off + o + d_rec_len bp o) with (off + (o + d_rec_len bp o)) by lia.
        destruct (IH ltac:(lia) ltac:(set_solver) fuel ltac:(lia)) as (r & s' & E & Hs).
        exists r, s'. split; [exact E|].
        destruct Hs as [(pre & x & post & -> & Hp & Hx & Hv & Hg)|(Hp & Hv & Hg)].
        * left. exists (o :: pre), x, post. split_and!; auto.
        * right. split_and!; auto. }
  destruct (Hl 0 os Hw ltac:(lia) ltac:(done) 1025%nat ltac:(lia)) as (r & s' & E & Hs).
  rewrite Z.add_0_r in E. eauto.
Qed.

(** *** Directories *)

(** Block [i] of the directory; only direct and single-indirect blocks exist. *)
Definition dblk (s : ext U) (p : ext2_vnode_priv) (i : Z) : Z :=
  if i <? EXT2_NDIRECT then i_block (ev_ino p) i
  else if i_block (ev_ino p) 12 =? 0 then 0
  else rd32 (b_view (x_b s) (em_dev mp) (i_block (ev_ino p) 12)) (4 * (i - EXT2_NDIRECT)).

Definition vw (s : ext U) (b : Z) : block := b_view (x_b s) (em_dev mp) b.

Lemma rdb_run s b : rdb mp b s = Ok (vw s b, s).
Proof. by destruct s as [[] ? ? ? ? ?]. Qed.

Lemma bmap_read s p i : 0 <= i < EXT2_NDIRECT + EXT2_NINDIRECT ->
  ext2_bmap mp p i false s = Ok ((dblk s p i, p), s).
Proof.
  intros Hi. unfold ext2_bmap, dblk. unfold EXT2_NDIRECT, EXT2_NINDIRECT in *.
  destruct (i <? 12) eqn:E.
  - by rewrite andb_false_r.
  - assert (i - 12 <? 256 = true) as -> by lia. rewrite andb_false_r, ret_bind.
    destruct (i_block (ev_ino p) 12 =? 0); [done|].
    rewrite (bind_ok _ _ _ _ _ (rdb_run s _)). by rewrite andb_false_r.
Qed.

(** A directory of [length oss] blocks whose records start at [oss]. *)
Record dir_wf (s : ext U) (p : ext2_vnode_priv) (oss : list (list Z)) : Prop := Dir_wf {
  dw_size : i_size (ev_ino p) = BSIZE * zlen oss;
  dw_max : zlen oss <= EXT2_NDIRECT + EXT2_NINDIRECT;
  dw_blk : forall i, 0 <= i < zlen oss -> dblk s p i <> 0;
  dw_len : forall b, length (vw s b) = 1024%nat;
  dw_recs : forall i os, oss !! i = Some os -> wf_recs (vw s (dblk s p (Z.of_nat i))) 0 os;
  dw_inj : forall i j, 0 <= i < zlen oss -> 0 <= j < zlen oss -> dblk s p i = dblk s p j -> i = j;
  dw_ind : forall i, 0 <= i < zlen oss -> dblk s p i <> i_block (ev_ino p) 12
}.

(** All records, as block number and offset. *)
Fixpoint ents_from (s : ext U) (p : ext2_vnode_priv) (i : Z) (oss : list (list Z)) : list (Z * Z) :=
  match oss with
  | [] => []
  | os :: oss' => ((fun o => (dblk s p i, o)) <$> os) ++ ents_from s p (i + 1) oss'
  end.
Definition ents (s : ext U) (p : ext2_vnode_priv) (oss : list (list Z)) : list (Z * Z) :=
  ents_from s p 0 oss.

Lemma searched_none {R} (tt' : Z * Z -> bool) v g pre post (none : R) s r s' :
  Forall (fun x => tt' x = false) pre ->
  @searched (Z * Z) R tt' v g post none s r s' -> @searched (Z * Z) R tt' v g (pre ++ post) none s r s'.
Proof.
  intros Hp [(a & o & b & -> & Ha & Ho & Hv & Hg)|(Ha & Hv & Hg)].
  - left. exists (pre ++ a), o, b. rewrite app_assoc. split_and!; auto. by apply Forall_app.
  - right. split_and!; auto. by apply Forall_app.
Qed.

Lemma scan_dir_run {R} (body : Z -> block -> Z -> Z -> M (ext U) (Z + R)) p oss
    (t : Z * Z -> bool) (v : Z * Z -> R) (g : Z * Z -> ext U) s :
  dir_wf s p oss ->
  (forall b o off', (b, o) ∈ ents s p oss -> body b (vw s b) o off' s =
     if t (b, o) then Ok (inr (v (b, o)), g (b, o)) else Ok (inl (d_rec_len (vw s b) o), s)) ->
  exists r s', scan_dir mp p body s = Ok (r, s') /\
    searched t (fun x => inr (Some (v x))) g (ents s p oss) (inl (i_size (ev_ino p))) s r s'.
Proof.
  intros [Dsz Dmax Dblk Dlen Drec _ _] Hb. unfold scan_dir.
  match goal with |- context [loop _ ?f 0 _] => set (F := f) end.
  assert (forall oss' i, (forall j os, oss' !! j = Some os -> oss !! (i + j)%nat = Some os) ->
    (i + length oss' = length oss)%nat ->
    (forall x, x ∈ ents_from s p (Z.of_nat i) oss' -> x ∈ ents s p oss) ->
    forall fuel, (length oss' < fuel)%nat ->
    exists r s', loop fuel F (BSIZE * Z.of_nat i) s = Ok (r, s') /\
      searched t (fun x => inr (Some (v x))) g (ents_from s p (Z.of_nat i) oss')
        (inl (i_size (ev_ino p))) s r s') as Hl.
  { induction oss' as [|os oss' IH]; intros i Hsub Hlen Hin fuel Hf;
      (destruct fuel as [|fuel]; [cbn in Hf; lia|]); cbn [loop].
    - exists (inl (i_size (ev_ino p))), s. cbn in Hlen. split; [|by right]. unfold F at 1.
      assert (BSIZE * Z.of_nat i <? i_size (ev_ino p) = false) as ->
        by (rewrite Dsz; unfold zlen, BSIZE; lia).
      cbn. replace (BSIZE * Z.of_nat i) with (i_size (ev_ino p)); [done|]. rewrite Dsz. unfold zlen, BSIZE. lia.
    - cbn [length] in Hlen, Hf. pose proof (Hsub 0%nat os eq_refl) as Hos. rewrite Nat.add_0_r in Hos.
      unfold F at 1. unfold zlen, EXT2_NDIRECT, EXT2_NINDIRECT, BSIZE in *.
      assert (1024 * Z.of_nat i <? i_size (ev_ino p) = true) as -> by lia. cbn [negb].
      replace (1024 * Z.of_nat i / 1024) with (Z.of_nat i) by dlia.
      rewrite bind_assoc, (bind_ok _ _ _ _ _ (bmap_read s p (Z.of_nat i) ltac:(unfold EXT2_NDIRECT, EXT2_NINDIRECT; lia))).
      cbn beta iota zeta.
      assert (dblk s p (Z.of_nat i) =? 0 = false) as -> by (specialize (Dblk (Z.of_nat i)); lia).
      rewrite bind_assoc, (bind_ok _ _ _ _ _ (rdb_run s _)).
      set (b := dblk s p (Z.of_nat i)) in *.
      destruct (scan_block_run (body b) (vw s b) (1024 * Z.of_nat i) os (fun o => t (b, o))
                  (fun o => v (b, o)) (fun o => g (b, o)) s) as (r & s1 & E & Hs).
      + by apply Drec.
      + lia.
      + unfold BSIZE. dlia.
      + unfold BSIZE. lia.
      + intros o off' Ho. apply Hb, Hin. cbn. apply elem_of_app. left.
        apply list_elem_of_fmap. eauto.
      + rewrite bind_assoc, (bind_ok _ _ _ _ _ E). cbn [ents_from]. fold b.
        destruct Hs as [(pre & o & post & -> & Hp & Ht & -> & ->)|(Hp & -> & ->)].
        * exists (inr (Some (v (b, o)))), (g (b, o)). split; [done|]. left.
          exists ((fun o => (b, o)) <$> pre), (b, o),
            (((fun o => (b, o)) <$> post) ++ ents_from s p (Z.of_nat i + 1) oss').
          rewrite fmap_app, fmap_cons, <-app_assoc. split_and!; auto.
          apply Forall_fmap. exact Hp.
        * rewrite ret_bind. replace (1024 * Z.of_nat i + BSIZE) with (1024 * Z.of_nat (S i))
            by (unfold BSIZE; lia).
          destruct (IH (S i)) with (fuel := fuel) as (r & s' & E' & Hs'); [|lia| |lia|].
          -- intros j os' Hj. specialize (Hsub (S j) os' Hj). by rewrite Nat.add_succ_comm.
          -- intros x Hx. apply Hin. cbn. apply elem_of_app. right.
             by replace (Z.of_nat i + 1) with (Z.of_nat (S i)) by lia.
          -- exists r, s'. split; [exact E'|].
             replace (Z.of_nat i + 1) with (Z.of_nat (S i)) by lia.
             apply searched_none; [|exact Hs']. apply Forall_fmap. exact Hp. }
  destruct (Hl oss 0%nat) with (fuel := (Z.to_nat (i_size (ev_ino p) / BSIZE) + 2)%nat)
    as (r & s' & E & Hs); [done|done|done| |].
  - rewrite Dsz. unfold zlen, BSIZE. rewrite Z.mul_comm, Z.div_mul by lia. lia.
  - eauto.
Qed.

(** *** Lookup is a search in the directory's list of names *)

Fixpoint contents_from (s : ext U) (p : ext2_vnode_priv) (i : Z) (oss : list (list Z)) :
  list (list Z * Z) :=
  match oss with
  | [] => []
  | os :: oss' => recs (vw s (dblk s p i)) os ++ contents_from s p (i + 1) oss'
  end.
Definition contents (s : ext U) (p : ext2_vnode_priv) (oss : list (list Z)) : list (list Z * Z) :=
  contents_from s p 0 oss.

Definition rec_at (s : ext U) (x : Z * Z) : list (list Z * Z) := rec_of (vw s x.1) x.2.

Lemma contents_ents s p oss : forall i, contents_from s p i oss = ents_from s p i oss ≫= rec_at s.
Proof.
  induction oss as [|os oss IH]; intros i; cbn [contents_from ents_from]; [done|].
  rewrite bind_app, IH. f_equal. unfold recs. induction os as [|o os IHo]; [done|].
  rewrite fmap_cons. cbn [mbind list_bind]. by rewrite IHo.
Qed.

Lemma ents_elem s p oss : forall i b o, (b, o) ∈ ents_from s p i oss ->
  exists j os, oss !! j = Some os /\ o ∈ os /\ b = dblk s p (i + Z.of_nat j).
Proof.
  induction oss as [|os oss IH]; intros i b o Hin; cbn [ents_from] in Hin; [by apply elem_of_nil in Hin|].
  apply elem_of_app in Hin as [Hin|Hin].
  - apply list_elem_of_fmap in Hin as (o' & [= -> ->] & Hin). exists 0%nat, os.
    rewrite Z.add_0_r. done.
  - destruct (IH _ _ _ Hin) as (j & os' & Hj & Ho & ->). exists (S j), os'.
    by replace (i + 1 + Z.of_nat j) with (i + Z.of_nat (S j)) by lia.
Qed.

Lemma wf_recs_at bp a os o : wf_recs bp a os -> o ∈ os ->
  0 <= o /\ 8 + d_name_len bp o <= d_rec_len bp o /\ 0 <= d_name_len bp o /\
  o + d_rec_len bp o <= 1024 /\ d_rec_len bp o mod 4 = 0 /\ name_ok bp o.
Proof.
  induction 1 as [|x os H0 H1 H2 Hn H3 Hk Hw IH]; intros Ho; [by apply elem_of_nil in Ho|].
  apply elem_of_cons in Ho as [->|Ho]; [by split_and!|auto].
Qed.

Lemma ents_wf s p oss b o : dir_wf s p oss -> (b, o) ∈ ents s p oss ->
  0 <= o /\ 8 + d_name_len (vw s b) o <= d_rec_len (vw s b) o /\ 0 <= d_name_len (vw s b) o /\
  o + d_rec_len (vw s b) o <= 1024 /\ d_rec_len (vw s b) o mod 4 = 0 /\ name_ok (vw s b) o.
Proof.
  intros Hd Hin. destruct (ents_elem _ _ _ _ _ _ Hin) as (j & os & Hj & Ho & ->).
  cbn [Z.add]. eapply wf_recs_at; [|done]. by apply (dw_recs _ _ _ Hd).
Qed.

(** What a record says about [name]. *)
Lemma hit_rec_of bp o name :
  zlen bp = 1024 -> 0 <= o -> 8 + d_name_len bp o <= d_rec_len bp o -> 0 <= d_name_len bp o ->
  o + d_rec_len bp o <= 1024 -> name_ok bp o ->
  if hit bp name o then rec_of bp o = [(cstr name, d_inode bp o)]
  else Forall (fun e => e.1 <> cstr name) (rec_of bp o).
Proof.
  intros Hl H0 H1 H2 H3 Hk. unfold hit, rec_of.
  destruct (negb (d_inode bp o =? 0)) eqn:E0; cbn [andb]; [|done].
  destruct (d_name_len bp o >? 0) eqn:E1; cbn [andb]; [|done].
  destruct Hk as [Hk _]; [lia|]. rewrite name_matches_eq by (done || lia).
  case_bool_decide as E; [by rewrite E|]. by repeat constructor.
Qed.

(** Lookup in an association list: the first entry counts. *)
Fixpoint assoc (nm : list Z) (l : list (list Z * Z)) : option Z :=
  match l with
  | [] => None
  | (n, v) :: l' => if bool_decide (n = nm) then Some v else assoc nm l'
  end.

Lemma assoc_skip nm l1 l2 : Forall (fun e => e.1 <> nm) l1 -> assoc nm (l1 ++ l2) = assoc nm l2.
Proof.
  induction 1 as [|[n v] l1 Hn Hl IH]; [done|]. cbn in *. by rewrite bool_decide_eq_false_2.
Qed.

Lemma assoc_none nm l : assoc nm l = None <-> Forall (fun e => e.1 <> nm) l.
Proof.
  induction l as [|[n v] l IH]; cbn; [done|]. case_bool_decide as E.
  - split; [done|]. intros [? ?]%Forall_cons. done.
  - rewrite Forall_cons, IH. cbn. intuition.
Qed.

Lemma assoc_add nm n v l1 l2 : assoc n (l1 ++ l2) = None ->
  assoc nm (l1 ++ (n, v) :: l2) = if bool_decide (nm = n) then Some v else assoc nm (l1 ++ l2).
Proof.
  intros Hn. apply assoc_none, Forall_app in Hn as [Hn _]. case_bool_decide as E.
  - subst. rewrite assoc_skip by done. cbn. by rewrite bool_decide_eq_true_2.
  - clear Hn. induction l1 as [|[n' v'] l1 IH]; cbn.
    + by rewrite bool_decide_eq_false_2.
    + by case_bool_decide.
Qed.

Lemma lookup_run s p oss name : dir_wf s p oss ->
  ext2_dir_lookup mp p name s = Ok (assoc (cstr name) (contents s p oss), s).
Proof.
  intros Hd. unfold ext2_dir_lookup.
  pose proof (fun b => dw_len _ _ _ Hd b) as Hl.
  assert (forall x, x ∈ ents s p oss -> if hit (vw s x.1) name x.2
     then rec_at s x = [(cstr name, d_inode (vw s x.1) x.2)]
     else Forall (fun e => e.1 <> cstr name) (rec_at s x)) as Hr.
  { intros [b o] Hin. destruct (ents_wf _ _ _ _ _ Hd Hin) as (? & ? & ? & ? & ? & ?).
    apply hit_rec_of; auto. unfold zlen. by rewrite Hl. }
  destruct (scan_dir_run (lookup_body name) p oss (fun x => hit (vw s x.1) name x.2)
    (fun x => Some (d_inode (vw s x.1) x.2)) (fun _ => s) s Hd) as (r & s' & E & Hs).
  { intros b o off' Hin. destruct (ents_wf _ _ _ _ _ Hd Hin) as (? & ? & ? & ? & ? & ?).
    unfold lookup_body. cbn [fst snd]. fold (hit (vw s b) name o). destruct (hit _ _ _); [done|].
    by assert (d_rec_len (vw s b) o =? 0 = false) as -> by lia. }
  rewrite (bind_ok _ _ _ _ _ E). unfold contents. rewrite contents_ents. fold (ents s p oss).
  assert (forall pre post, ents s p oss = pre ++ post ->
    Forall (fun x => hit (vw s x.1) name x.2 = false) pre ->
    Forall (fun e => e.1 <> cstr name) (pre ≫= rec_at s)) as Hpre.
  { intros pre post Ee Hp. apply Forall_bind, Forall_forall. intros x Hx.
    specialize (Hr x ltac:(rewrite Ee; apply elem_of_app; by left)). rewrite Forall_forall in Hp. by rewrite Hp in Hr. }
  destruct Hs as [(pre & x & post & Ee & Hp & Ht & -> & ->)|(Hp & -> & ->)].
  - rewrite Ee, bind_app, assoc_skip by (eapply Hpre; eauto). rewrite bind_cons.
    specialize (Hr x ltac:(rewrite Ee; apply elem_of_app; right; apply elem_of_cons; by left)).
    rewrite Ht in Hr. rewrite Hr. cbn.
    by rewrite bool_decide_eq_true_2.
  - assert (assoc (cstr name) (ents s p oss ≫= rec_at s) = None) as ->; [|done].
    apply assoc_none. eapply Hpre; [|done]. by rewrite app_nil_r.
Qed.

(** *** Adding a name where there is room *)

Definition stored (s : ext U) (b : Z) (d : block) : ext U :=
  set_xb (Bst (bupd (b_view (x_b s)) (em_dev mp) b d) (b_log (x_b s)) (b_out (x_b s))) s.

Lemma wrb_run s b d : wrb mp b d s = Ok (tt, stored s b d).
Proof. done. Qed.

Lemma vw_stored_eq s b d : vw (stored s b d) b = d.
Proof. apply bupd_eq. Qed.
Lemma vw_stored_ne s b d b' : b' <> b -> vw (stored s b d) b' = vw s b'.
Proof. apply bupd_ne_b. Qed.

Lemma dblk_stored s p b d i : b <> i_block (ev_ino p) 12 -> dblk (stored s b d) p i = dblk s p i.
Proof.
  intros Hb. unfold dblk. destruct (_ <? _); [done|]. destruct (_ =? 0); [done|].
  fold (vw (stored s b d) (i_block (ev_ino p) 12)). by rewrite vw_stored_ne.
Qed.

Lemma contents_from_ext s s' p oss : forall i,
  (forall j, i <= j < i + zlen oss -> vw s' (dblk s' p j) = vw s (dblk s p j)) ->
  contents_from s' p i oss = contents_from s p i oss.
Proof.
  induction oss as [|os oss IH]; intros i Hj; cbn [contents_from]; [done|].
  rewrite Hj by (unfold zlen; cbn; lia). f_equal. apply IH. intros j Hj'. apply Hj.
  unfold zlen in *. cbn. lia.
Qed.

Lemma contents_from_app s p a b : forall i,
  contents_from s p i (a ++ b) = contents_from s p i a ++ contents_from s p (i + zlen a) b.
Proof.
  induction a as [|os a IH]; intros i; cbn [contents_from app].
  - by rewrite Z.add_0_r.
  - rewrite IH, <-app_assoc. do 3 f_equal. unfold zlen. cbn. lia.
Qed.

(** Replacing the contents of one block. *)
Lemma dir_store s p oss i os bp' os' l1 nw l2 :
  dir_wf s p oss -> oss !! i = Some os -> zlen bp' = 1024 -> wf_recs bp' 0 os' ->
  recs (vw s (dblk s p (Z.of_nat i))) os = l1 ++ l2 -> recs bp' os' = l1 ++ nw :: l2 ->
  let s' := stored s (dblk s p (Z.of_nat i)) bp' in
  let oss' := <[i := os']> oss in
  dir_wf s' p oss' /\ exists k1 k2, contents s p oss = k1 ++ k2 /\ contents s' p oss' = k1 ++ nw :: k2.
Proof.
  intros Hd Hi Hl Hw E1 E2 s' oss'. set (b := dblk s p (Z.of_nat i)) in *.
  assert (0 <= Z.of_nat i < zlen oss) as Hir by (apply lookup_lt_Some in Hi; unfold zlen; lia).
  assert (zlen oss' = zlen oss) as Hz by (unfold zlen, oss'; by rewrite length_insert).
  pose proof (dw_ind _ _ _ Hd _ Hir) as Hbi. fold b in Hbi.
  assert (forall j, dblk s' p j = dblk s p j) as Hdb by (intros; by apply dblk_stored).
  assert (forall j, 0 <= j < zlen oss -> j <> Z.of_nat i -> vw s' (dblk s p j) = vw s (dblk s p j)) as Hv.
  { intros j Hj Hne. apply vw_stored_ne. intros E. apply Hne. by apply (dw_inj _ _ _ Hd). }
  split.
  - destruct Hd as [D1 D2 D3 D4 D5 D6 D7]. constructor; rewrite ?Hz; try done.
    + intros j Hj. rewrite Hdb. by apply D3.
    + intros b'. destruct (decide (b' = b)) as [->|Hb].
      * unfold s'. rewrite vw_stored_eq. unfold zlen in Hl. lia.
      * unfold s'. rewrite vw_stored_ne by done. apply D4.
    + intros j os'' Hj. rewrite Hdb. destruct (decide (j = i)) as [->|Hne].
      * unfold oss' in Hj. rewrite list_lookup_insert_eq in Hj by (unfold zlen in Hir; lia).
        injection Hj as <-. fold b. unfold s'. by rewrite vw_stored_eq.
      * unfold oss' in Hj. rewrite list_lookup_insert_ne in Hj by done.
        rewrite Hv; [by apply D5| |lia]. apply lookup_lt_Some in Hj. unfold zlen. lia.
    + intros j k Hj Hk. rewrite !Hdb. by apply D6.
    + intros j Hj. rewrite Hdb. by apply D7.
  - assert (oss = take i oss ++ os :: drop (S i) oss) as Eo by (by rewrite take_drop_middle).
    assert (oss' = take i oss ++ os' :: drop (S i) oss) as Eo'.
    { unfold oss'. apply insert_take_drop. by eapply lookup_lt_Some. }
    assert (zlen (take i oss) = Z.of_nat i) as Ht by (unfold zlen in *; len).
    exists (contents_from s p 0 (take i oss) ++ l1),
      (l2 ++ contents_from s p (Z.of_nat i + 1) (drop (S i) oss)).
    unfold contents. split.
    + transitivity (contents_from s p 0 (take i oss ++ os :: drop (S i) oss)); [by rewrite <-Eo|].
      rewrite contents_from_app, Ht, Z.add_0_l. cbn [contents_from]. fold b. rewrite E1. by rewrite <-!app_assoc.
    + rewrite Eo', contents_from_app, Ht, Z.add_0_l. cbn [contents_from]. rewrite (contents_from_ext s s'), (contents_from_ext s s').
      * rewrite Hdb. fold b. unfold s'. rewrite vw_stored_eq, E2. by rewrite <-!app_assoc.
      * intros j Hj. rewrite Hdb. apply Hv; [|lia]. unfold zlen in *. len.
      * intros j Hj. rewrite Hdb. apply Hv; [|lia]. unfold zlen in *. len.
Qed.

Lemma add_run s p oss name inum ftype :
  dir_wf s p oss -> 0 < inum < 2 ^ 32 -> 0 < strlen name <= 255 ->
  Exists (fun x => fits (vw s x.1) name x.2 = true) (ents s p oss) ->
  exists s' oss' k1 k2, ext2_dir_add mp p name inum ftype s = Ok ((0, p), s') /\
    dir_wf s' p oss' /\ contents s p oss = k1 ++ k2 /\
    contents s' p oss' = k1 ++ (cstr name, inum) :: k2.
Proof.
  intros Hd Hi Hn Hf. unfold ext2_dir_add. pose proof (needlen_spec name) as Hnl.
  set (g := fun x : Z * Z => stored s x.1 (added (vw s x.1) x.2 inum ftype name)).
  destruct (scan_dir_run (add_body mp inum ftype name) p oss (fun x => fits (vw s x.1) name x.2)
    (fun x => true) g s Hd) as (r & s' & E & Hs).
  { intros b o off' Hin. destruct (ents_wf _ _ _ _ _ Hd Hin) as (? & ? & ? & ? & ? & ?).
    pose proof (align4_spec (8 + d_name_len (vw s b) o) ltac:(lia)) as [? ?].
    unfold add_body, fits, g, added. cbn [fst snd].
    assert (d_rec_len (vw s b) o =? 0 = false) as -> by lia.
    destruct ((d_inode (vw s b) o =? 0) && (d_rec_len (vw s b) o >=? needlen name)); [done|].
    cbn [orb]. rewrite u32_small; [by destruct (_ >=? _)|]. dlia. }
  rewrite (bind_ok _ _ _ _ _ E).
  destruct Hs as [(pre & [b o] & post & Ee & Hp & Ht & -> & ->)|(Hp & -> & ->)].
  - assert ((b, o) ∈ ents s p oss) as Hin by (rewrite Ee; apply elem_of_app; right; apply elem_of_cons; by left).
    destruct (ents_elem _ _ _ _ _ _ Hin) as (i & os & Hj & Ho & ->).
    apply list_elem_of_split in Ho as (q1 & q2 & ->). cbn [fst snd Z.add] in *.
    destruct (added_spec (vw s (dblk s p (Z.of_nat i))) q1 o q2 name inum ftype)
      as (L & os' & l1 & l2 & W1 & W2 & W3); auto.
    { unfold zlen. by rewrite (dw_len _ _ _ Hd). }
    { by apply (dw_recs _ _ _ Hd). }
    destruct (dir_store s p oss i _ _ os' l1 (cstr name, inum) l2 Hd Hj L W1 W2 W3)
      as (Hd' & k1 & k2 & K1 & K2).
    eexists _, _, k1, k2. split; [reflexivity|]. split_and!; [exact Hd'|exact K1|exact K2].
  - exfalso. apply Exists_exists in Hf as (x & Hx & Hf). rewrite Forall_forall in Hp.
    specialize (Hp x Hx). cbn in Hp. congruence.
Qed.


End Scan.

(** A directory with "." and "..", and the name "a" added to it. *)
Definition wit_mp : ext2_mount_priv := Em 2 128 3 4 5.
Definition wit_dir_block : block :=
  le_enc 4 2 ++ le_enc 2 12 ++ [1; 2; 46; 0; 0; 0] ++
  le_enc 4 2 ++ le_enc 2 1012 ++ [2; 2; 46; 46; 0; 0] ++ replicate 1000 0.
Definition wit_ext : ext flat :=
  Ext (Bst (fun _ b => if b =? 60 then wit_dir_block else zero_block) [] 0) zero_block
    Sleep.initsleeplock 1 (Flat (fun _ => 0) 4096) 0.
Definition wit_dir : ext2_vnode_priv :=
  Ev (set_i_block 0 60 (set_i_size 1024 (replicate 128 0))) 2 false false.

