(* ===== verification/Ext2Alloc.v ===== *)
(** Ext2Alloc: block allocation in ext2.  ext2_balloc takes the lowest free
    bit of the block bitmap and keeps the superblock's count, in memory and on
    disk; ext2_bfree gives the block back. *)

From S2P Require Import Prelude CString Locks Log Block Umem Ext2 Ext2Dir.

Section Alloc.
  Context {U : Type} `{UserMem U} (mp : ext2_mount_priv).
  Implicit Types s : ext U.

Local Abbreviation bb := (bg_block_bitmap mp).

(** No process holds the mount's lock, the blocks have their size, and the
    bitmap is not where the superblock is. *)
Record ext_ok (s : ext U) : Prop := Ext_ok {
  eo_lock : x_lock s = Sleep.initsleeplock;
  eo_len : forall b, length (vw mp s b) = 1024%nat;
  eo_sb : length (x_sb s) = 1024%nat;
  eo_bb : bb <> 1
}.

(** The bits of the block bitmap. *)
Definition bit (s : ext U) (i : Z) : bool := bm_get (vw mp s bb) i.

(** The superblock with [k] more free blocks, in memory and in block 1. *)
Definition counted (k : Z) (s : ext U) : ext U :=
  stored mp (set_xsb (add_free_blocks k (x_sb s)) s) 1 (add_free_blocks k (x_sb s)).

Lemma count_sb_run s k : x_lock s = Sleep.initsleeplock ->
  count_sb mp (add_free_blocks k) s = Ok (tt, counted k s).
Proof.
  intros Hl. unfold count_sb, lock_mp, unlock_mp, ext2_sb_write. destruct s as [b sb lk pid u t].
  cbn in Hl. subst lk. reflexivity.
Qed.

Lemma bitmap_alloc_run s nbits base : x_lock s = Sleep.initsleeplock ->
  (exists i, 1 <= i < Z.min nbits 8192 /\ bit s i = false /\ (forall j, 1 <= j < i -> bit s j = true) /\
     bitmap_alloc mp bb nbits base s = Ok (i + base, stored mp s bb (bm_set (vw mp s bb) i))) \/
  ((forall i, 1 <= i < Z.min nbits 8192 -> bit s i = true) /\
     bitmap_alloc mp bb nbits base s = Ok (-1, s)).
Proof.
  intros Hl. unfold bitmap_alloc. rewrite (bind_ok _ _ _ _ _ (rdb_run mp s bb)).
  set (s1 := set_xlock (Sleep.Sleeplock true (x_pid s)) s).
  assert (lock_mp s = Ok (tt, s1)) as El by (destruct s; cbn in Hl; subst; reflexivity).
  rewrite (bind_ok _ _ _ _ _ El).
  change (BSIZE * 8) with 8192.
  destruct (for_upto_find (bitmap_try mp bb base (vw mp s bb)) (fun i => negb (bit s i)) (fun i => i + base)
    (fun i => stored mp s bb (bm_set (vw mp s bb) i)) s1 (Z.to_nat (Z.min nbits 8192 - 1)) 1)
    as [(i & Hi & Hp & Hm & E)|[Hm E]].
  - intros i Hi. unfold bitmap_try. change (bm_get (vw mp s bb) i) with (bit s i).
    destruct (bit s i); [done|]. cbn [negb]. destruct s; cbn in Hl; subst; reflexivity.
  - left. exists i. split_and!; [lia|lia|by destruct (bit s i)| |].
    + intros j Hj. specialize (Hm j Hj). by destruct (bit s j).
    + by rewrite (bind_ok _ _ _ _ _ E).
  - right. split.
    + intros i Hi. specialize (Hm i ltac:(lia)). by destruct (bit s i).
    + rewrite (bind_ok _ _ _ _ _ E). destruct s; cbn in Hl; subst; reflexivity.
Qed.

Lemma counted_bit s k i : bb <> 1 -> bit (counted k s) i = bit s i.
Proof. intros Hb. unfold bit, counted. by rewrite vw_stored_ne. Qed.

Lemma counted_free s k : length (x_sb s) = 1024%nat ->
  s_free_blocks_count (x_sb (counted k s)) = u32 (s_free_blocks_count (x_sb s) + k).
Proof.
  intros Hl. unfold counted, add_free_blocks, s_free_blocks_count. cbn.
  rewrite rd_wr_eq by (unfold zlen; lia). apply Z.mod_small. apply u32_range.
Qed.

(** Storing a bit. *)
Lemma stored_bit s d i : bit (stored mp s bb d) i = bm_get d i.
Proof. unfold bit. by rewrite vw_stored_eq. Qed.

(** The effect of changing bit [b] and counting [k] on everything else. *)
Definition changed (b : Z) (v : bool) (k : Z) (s s' : ext U) : Prop :=
  bit s' b = v /\ (forall i, 0 <= i -> i <> b -> bit s' i = bit s i) /\
  s_free_blocks_count (x_sb s') = u32 (s_free_blocks_count (x_sb s) + k) /\
  vw mp s' 1 = x_sb s' /\ (forall i, i <> 1 -> i <> bb -> vw mp s' i = vw mp s i) /\ ext_ok s'.

Lemma changed_intro s d b v k :
  ext_ok s -> length d = 1024%nat -> bm_get d b = v ->
  (forall i, 0 <= i -> i <> b -> bm_get d i = bit s i) ->
  changed b v k s (counted k (stored mp s bb d)).
Proof.
  intros [Hl Hlen Hsb Hbb] Hd Hv Hi. split_and!.
  - by rewrite counted_bit, stored_bit.
  - intros i Hi0 Hne. rewrite counted_bit, stored_bit by done. by apply Hi.
  - by rewrite counted_free.
  - unfold counted. by rewrite vw_stored_eq.
  - intros i H1 H2. unfold counted. rewrite vw_stored_ne by done.
    change (vw mp (stored mp s bb d) i = vw mp s i). by apply vw_stored_ne.
  - assert (length (add_free_blocks k (x_sb s)) = 1024%nat) as Hc.
    { unfold add_free_blocks. rewrite length_wr; [done|lia|unfold zlen; lia]. }
    constructor; try done. intros b'. unfold counted.
    destruct (decide (b' = 1)) as [->|H1]; [by rewrite vw_stored_eq|].
    rewrite vw_stored_ne by done. change (length (vw mp (stored mp s bb d) b') = 1024%nat).
    destruct (decide (b' = bb)) as [->|H2]; [by rewrite vw_stored_eq|]. by rewrite vw_stored_ne.
Qed.

Lemma balloc_run s : ext_ok s -> let n := Z.min (s_blocks_count (x_sb s)) 8192 in
  (exists b s', ext2_balloc mp s = Ok (b, s') /\ 1 <= b < n /\ bit s b = false /\
     (forall j, 1 <= j < b -> bit s j = true) /\ changed b true (-1) s s') \/
  (ext2_balloc mp s = Ok (0, s) /\ forall i, 1 <= i < n -> bit s i = true).
Proof.
  intros Hok n. unfold ext2_balloc. unfold gets. rewrite (bind_ok _ _ s (x_sb s) s) by done.
  destruct (bitmap_alloc_run s (s_blocks_count (x_sb s)) 0 (eo_lock _ Hok))
    as [(b & Hb & Hf & Hm & E)|[Hm E]]; rewrite (bind_ok _ _ _ _ _ E).
  - left. rewrite Z.add_0_r. assert (b <? 0 = false) as -> by lia.
    eexists b, _. rewrite (bind_ok _ _ _ _ _ (count_sb_run (stored mp s bb (bm_set (vw mp s bb) b)) (-1) (eo_lock _ Hok))).
    split; [reflexivity|]. split_and!; [lia..|done|done|].
    pose proof (eo_len _ Hok bb) as Hl.
    assert (b / 8 < zlen (vw mp s bb)) by (unfold zlen; rewrite Hl; dlia).
    apply changed_intro; [done|by rewrite length_bm_set|apply bm_get_set_eq; lia|].
    intros i Hi Hne. apply bm_get_set_ne; auto; lia.
  - by right.
Qed.

Lemma bfree_run s b : ext_ok s -> 0 <= b < 8192 ->
  exists s', ext2_bfree mp b s = Ok (tt, s') /\ changed b false 1 s s'.
Proof.
  intros Hok Hb. pose proof (eo_lock _ Hok) as Hl. pose proof (eo_len _ Hok bb) as Hlen.
  assert (bitmap_free mp bb b 0 s = Ok (tt, stored mp s bb (bm_clear (vw mp s bb) b))) as E.
  { unfold bitmap_free. rewrite (bind_ok _ _ _ _ _ (rdb_run mp s bb)).
    rewrite Z.sub_0_r, u32_small by lia. destruct s; cbn in Hl; subst; reflexivity. }
  unfold ext2_bfree. rewrite (bind_ok _ _ _ _ _ E), (count_sb_run (stored mp s bb (bm_clear (vw mp s bb) b)) 1 Hl).
  eexists. split; [reflexivity|].
  assert (b / 8 < zlen (vw mp s bb)) by (unfold zlen; rewrite Hlen; dlia).
  apply changed_intro; [done|by rewrite length_bm_clear|apply bm_get_clear_eq; lia|].
  intros i Hi Hne. apply bm_get_clear_ne; auto; lia.
Qed.

(** Ext2_balloc returns the lowest block number from 1 on whose bitmap bit
    is clear, sets that bit and no other, decrements the count of free blocks
    in memory and in block 1, and changes no other block; it returns 0 and
    changes nothing exactly when no bit is clear.  ext2_bfree on the result
    clears that bit again: every bit and the count are then as they were. *)
Theorem balloc_lowest_bfree_undoes s (Hok : ext_ok s)
    (Hc : 0 <= s_free_blocks_count (x_sb s) < 2 ^ 32) :
  let n := Z.min (s_blocks_count (x_sb s)) 8192 in
  (ext2_balloc mp s = Ok (0, s) /\ forall i, 1 <= i < n -> bit s i = true) \/
  (exists b s' s'', ext2_balloc mp s = Ok (b, s') /\ 1 <= b < n /\ bit s b = false /\
     (forall j, 1 <= j < b -> bit s j = true) /\ changed b true (-1) s s' /\
     ext2_bfree mp b s' = Ok (tt, s'') /\ (forall i, 0 <= i -> bit s'' i = bit s i) /\
     s_free_blocks_count (x_sb s'') = s_free_blocks_count (x_sb s)).
Proof.
  intros n. destruct (balloc_run s Hok) as [(b & s' & E & Hb & Hf & Hm & Hch)|]; [right|by left].
  pose proof Hch as (C1 & C2 & C3 & C4 & C5 & C6).
  destruct (bfree_run s' b C6) as (s'' & E' & D1 & D2 & D3 & _); [unfold n in *; lia|].
  exists b, s', s''. split_and!; try done; try lia.
  - intros i Hi. destruct (decide (i = b)) as [->|Hne]; [congruence|]. by rewrite D2, C2.
  - rewrite D3, C3. unfold u32. rewrite Zplus_mod_idemp_l, Z.mod_small; lia.
Qed.

End Alloc.

Lemma balloc_lowest_bfree_undoes_witness :
  exists s' : ext flat, ext2_balloc wit_mp (set_xsb (wr32 (wr32 zero_block 4 100) 12 7) wit_ext) = Ok (1, s') /\
    s_free_blocks_count (x_sb s') = 6.
Proof.
  set (s := set_xsb (wr32 (wr32 zero_block 4 100) 12 7) wit_ext).
  destruct (balloc_lowest_bfree_undoes wit_mp s) as [[_ Hb]|(b & s' & s'' & E & Hb & _ & Hm & Hc & _)].
  - constructor; [done| |done|done]. intros b. unfold vw. cbn. by destruct (b =? 60).
  - split; vm_compute; [discriminate|done].
  - specialize (Hb 1 ltac:(split; by vm_compute)). by vm_compute in Hb.
  - exists s'. destruct (decide (b = 1)) as [->|Hne].
    + split; [exact E|]. destruct Hc as (_ & _ & Ec & _). rewrite Ec. vm_compute. reflexivity.
    + specialize (Hm 1 ltac:(lia)). by vm_compute in Hm.
Defined.
