(* ===== verification/Vfs.v ===== *)
(** Vfs: kernel/vfs.c, the virtual file system: the vnode table with its
    reference counts, the mount table, path resolution across mounts, and the
    dispatch to the file systems behind.

    The state is generic in what a file system keeps: [P] is the type of a
    vnode's private data and [X] the rest of the kernel's state.  A vnode
    pointer is an index of the vnode table; a mount pointer is a key of a heap
    of mount structures, and the mount table is the list of the keys in use.
    The operation tables of the file systems ([vnode_ops], [vfs_ops]) are
    records of functions over that state, selected by [Backends]. *)

From S2P Require Import Prelude CString Locks.

Definition V_FILE : Z := 1.
Definition V_DIR : Z := 2.
Definition V_DEV : Z := 3.
Definition NMOUNT : Z := 8.
Definition NVNODE : nat := 200.
Definition VDIRSIZ : Z := 256.
Definition O_WRONLY : Z := 1.
Definition O_RDWR : Z := 2.
Definition O_APPEND : Z := 16.
Definition O_CREATE : Z := 512.
Definition O_TRUNC : Z := 1024.

Definition has_flag (mode f : Z) : bool := negb (Z.land mode f =? 0).

Record vnode (P : Type) : Type := Vnode {
  v_type : Z; v_dev : Z; v_major : Z; v_minor : Z;
  v_ops : option nat;            (* which file system's operations *)
  v_mp : option nat;             (* owning mount *)
  v_ref : Z; v_lock : Sleep.sleeplock;
  v_inum : Z; v_ikey : Z; v_size : Z;
  v_priv : option P
}.
Arguments Vnode {P}.
Arguments v_type {P}.
Arguments v_dev {P}.
Arguments v_major {P}.
Arguments v_minor {P}.
Arguments v_ops {P}.
Arguments v_mp {P}.
Arguments v_ref {P}.
Arguments v_lock {P}.
Arguments v_inum {P}.
Arguments v_ikey {P}.
Arguments v_size {P}.
Arguments v_priv {P}.

Record mount : Type := Mount {
  mt_valid : bool; mt_ops : option nat; mt_root : option nat;
  mt_mountpoint : option nat; mt_dev : Z; mt_path : list Z
}.

Record vfs (P X : Type) : Type := Vfs {
  vtab : list (vnode P);
  mheap : gmap nat mount;
  mtab : list nat;
  fstypes : list (nat * list Z);
  cwd : option nat;
  vpid : Z;
  pages : Z;                     (* free pages of the page allocator *)
  vx : X
}.
Arguments Vfs {P X}.
Arguments vtab {P X}.
Arguments mheap {P X}.
Arguments mtab {P X}.
Arguments fstypes {P X}.
Arguments cwd {P X}.
Arguments vpid {P X}.
Arguments pages {P X}.
Arguments vx {P X}.

(** The operation tables; a missing operation is a null pointer.  lookup and
    create also give what they stored in the caller's variable: [None] when
    they did not store anything. *)
Record vnode_ops (S : Type) : Type := VnodeOps {
  op_lookup : option (nat -> list Z -> M S (Z * option (option nat)));
  op_mknod : option (nat -> list Z -> Z -> Z -> M S Z);
  op_read : option (nat -> Z -> Z -> Z -> M S Z);
  op_write : option (nat -> Z -> Z -> Z -> M S Z);
  op_stat : option (nat -> Z -> M S Z);
  op_readdir : option (nat -> Z -> Z -> M S Z);
  op_create : option (nat -> list Z -> Z -> M S (Z * option (option nat)));
  op_unlink : option (nat -> list Z -> M S Z);
  op_mkdir : option (nat -> list Z -> M S Z);
  op_link : option (nat -> list Z -> nat -> M S Z);
  op_read_kernel : option (nat -> Z -> Z -> M S (Z * list Z));
  op_truncate : option (nat -> M S Z)
}.
Arguments op_lookup {S}.
Arguments op_mknod {S}.
Arguments op_read {S}.
Arguments op_write {S}.
Arguments op_stat {S}.
Arguments op_readdir {S}.
Arguments op_create {S}.
Arguments op_unlink {S}.
Arguments op_mkdir {S}.
Arguments op_link {S}.
Arguments op_read_kernel {S}.
Arguments op_truncate {S}.

(** The [destroy] entry of each file system's vnode_ops.  It is a class of its
    own because vput is called from inside the other operations. *)
Class Destroys (P X : Type) : Type := {
  destroy_of : nat -> option (option P -> M (vfs P X) unit)
}.

(** The file systems compiled into the kernel. *)
Class Backends (P X : Type) : Type := {
  destroys :: Destroys P X;
  vops : nat -> vnode_ops (vfs P X);
  unmount : nat -> option (nat -> M (vfs P X) unit);
  mountfn : nat -> Z -> M (vfs P X) (option nat)
}.

(** *** Paths (path names are C strings; the end of the list is their NUL) *)

Fixpoint skip_slashes (p : list Z) : list Z :=
  match p with
  | c :: p' => if c =? 47 then skip_slashes p' else p
  | [] => []
  end.

Fixpoint take_elem (p : list Z) : list Z * list Z :=
  match p with
  | c :: p' => if (c =? 47) || (c =? 0) then ([], p)
               else let '(e, r) := take_elem p' in (c :: e, r)
  | [] => ([], [])
  end.

(** The rest of the path and the element, or [None] when there is none. *)
Definition skipelem (path : list Z) : option (list Z * list Z) :=
  let p := skip_slashes path in
  if hd 0 p =? 0 then None
  else let '(e, r) := take_elem p in
       Some (skip_slashes r, take (Z.to_nat (VDIRSIZ - 1)) e).

Section Vnodes.
  Context {P X : Type}.

Definition set_vtab (l : list (vnode P)) (s : vfs P X) : vfs P X :=
  Vfs l (mheap s) (mtab s) (fstypes s) (cwd s) (vpid s) (pages s) (vx s).
Definition set_mheap (h : gmap nat mount) (s : vfs P X) : vfs P X :=
  Vfs (vtab s) h (mtab s) (fstypes s) (cwd s) (vpid s) (pages s) (vx s).
Definition set_mtab (l : list nat) (s : vfs P X) : vfs P X :=
  Vfs (vtab s) (mheap s) l (fstypes s) (cwd s) (vpid s) (pages s) (vx s).
Definition set_fstypes (l : list (nat * list Z)) (s : vfs P X) : vfs P X :=
  Vfs (vtab s) (mheap s) (mtab s) l (cwd s) (vpid s) (pages s) (vx s).
Definition set_pages (n : Z) (s : vfs P X) : vfs P X :=
  Vfs (vtab s) (mheap s) (mtab s) (fstypes s) (cwd s) (vpid s) n (vx s).
Definition set_vx (x : X) (s : vfs P X) : vfs P X :=
  Vfs (vtab s) (mheap s) (mtab s) (fstypes s) (cwd s) (vpid s) (pages s) x.

Definition set_vref (r : Z) (v : vnode P) : vnode P :=
  Vnode (v_type v) (v_dev v) (v_major v) (v_minor v) (v_ops v) (v_mp v) r (v_lock v)
        (v_inum v) (v_ikey v) (v_size v) (v_priv v).
Definition set_vlock (k : Sleep.sleeplock) (v : vnode P) : vnode P :=
  Vnode (v_type v) (v_dev v) (v_major v) (v_minor v) (v_ops v) (v_mp v) (v_ref v) k
        (v_inum v) (v_ikey v) (v_size v) (v_priv v).
Definition set_vsize (n : Z) (v : vnode P) : vnode P :=
  Vnode (v_type v) (v_dev v) (v_major v) (v_minor v) (v_ops v) (v_mp v) (v_ref v) (v_lock v)
        (v_inum v) (v_ikey v) n (v_priv v).
Definition set_vpriv (x : option P) (v : vnode P) : vnode P :=
  Vnode (v_type v) (v_dev v) (v_major v) (v_minor v) (v_ops v) (v_mp v) (v_ref v) (v_lock v)
        (v_inum v) (v_ikey v) (v_size v) x.

Definition getvn (i : nat) : M (vfs P X) (vnode P) :=
  fun s => match vtab s !! i with Some v => Ok (v, s) | None => Fault FNull end.
Definition updvn (i : nat) (f : vnode P -> vnode P) : M (vfs P X) unit :=
  modify (fun s => set_vtab (alter f i (vtab s)) s).
Definition getmt (m : nat) : M (vfs P X) mount :=
  fun s => match mheap s !! m with Some x => Ok (x, s) | None => Fault FNull end.
Definition updmt (m : nat) (f : mount -> mount) : M (vfs P X) unit :=
  modify (fun s => set_mheap (alter f m (mheap s)) s).

(** kalloc and kfree, as far as they can fail: the number of free pages. *)
Definition kalloc_page : M (vfs P X) bool :=
  fun s => if pages s <=? 0 then Ok (false, s) else Ok (true, set_pages (pages s - 1) s).
Definition kfree_page : M (vfs P X) unit := modify (fun s => set_pages (pages s + 1) s).

Definition zero_vnode : vnode P :=
  Vnode 0 0 0 0 None None 0 Sleep.initsleeplock 0 0 0 None.

(** The fields that alloc_vnode resets; dev, size and the lock keep what the
    slot's last user left. *)
Definition fresh_vnode (v : vnode P) : vnode P :=
  Vnode 0 (v_dev v) 0 0 None None 1 (v_lock v) 0 0 (v_size v) None.

Fixpoint find_vn (f : vnode P -> bool) (l : list (vnode P)) (i : nat) : option nat :=
  match l with
  | [] => None
  | v :: l' => if f v then Some i else find_vn f l' (S i)
  end.

Definition alloc_vnode : M (vfs P X) (option nat) :=
  t <- gets vtab ;;
  match find_vn (fun v => v_ref v =? 0) t 0 with
  | Some i => updvn i fresh_vnode ;;; ret (Some i)
  | None => ret None
  end.

Definition vget (vp : option nat) : M (vfs P X) nat :=
  match vp with
  | None => fail FNull
  | Some i => v <- getvn i ;; updvn i (fun v => set_vref (v_ref v + 1) v) ;;; ret i
  end.

Definition same_id (mp : nat) (inum ikey : Z) (v : vnode P) : bool :=
  (v_ref v >? 0) && bool_decide (v_mp v = Some mp) && (v_inum v =? inum) && (v_ikey v =? ikey).

Definition vfs_iget (mp : nat) (inum ikey : Z) : M (vfs P X) (option nat) :=
  t <- gets vtab ;;
  match find_vn (same_id mp inum ikey) t 0 with
  | Some i => updvn i (fun v => set_vref (v_ref v + 1) v) ;;; ret (Some i)
  | None => ret None
  end.

Definition on_vlock {A} (i : nat) (m : M Sleep.sleeplock A) : M (vfs P X) A :=
  v <- getvn i ;;
  match m (v_lock v) with
  | Ok (a, k) => updvn i (set_vlock k) ;;; ret a
  | Fault e => fail e
  end.

Definition vn_lock (i : nat) : M (vfs P X) unit :=
  pid <- gets vpid ;; on_vlock i (Sleep.acquiresleep pid).
Definition vn_unlock (i : nat) : M (vfs P X) unit := on_vlock i Sleep.releasesleep.

End Vnodes.

Section Release.
  Context {P X : Type} `{Destroys P X}.

Definition vput (i : nat) : M (vfs P X) unit :=
  v <- getvn i ;;
  if v_ref v <? 1 then panic "vput: ref underflow"
  else if v_ref v - 1 =? 0
  then
    updvn i (fun v => Vnode 0 (v_dev v) (v_major v) (v_minor v) None None 0 (v_lock v)
                            (v_inum v) (v_ikey v) (v_size v) None) ;;;
    match v_ops v ≫= destroy_of with
    | Some destroy => destroy (v_priv v)
    | None => ret tt
    end
  else updvn i (set_vref (v_ref v - 1)).

End Release.

Section Ops.
  Context {P X : Type} `{Backends P X}.

(** The operations of a vnode; a vnode without operations has none. *)
Definition no_ops : vnode_ops (vfs P X) :=
  VnodeOps (vfs P X) None None None None None None None None None None None None.
Definition ops_of (v : vnode P) : vnode_ops (vfs P X) :=
  match v_ops v with Some o => vops o | None => no_ops end.

Definition vput_opt (o : option nat) : M (vfs P X) unit :=
  match o with Some i => vput i | None => ret tt end.

(** *** Mounts *)

Definition vfs_register (fn : nat) (name : list Z) : M (vfs P X) unit :=
  l <- gets fstypes ;;
  if zlen l >=? 8 then panic "vfs_register: too many fstypes"
  else modify (set_fstypes (l ++ [(fn, safestrcpy_chars name 16)])).

(** File systems 0, 1 and 2 are xv6fs, ext2 and fat32. *)
Definition vfs_init : M (vfs P X) unit :=
  modify (set_vtab (replicate NVNODE zero_vnode)) ;;;
  modify (set_mtab []) ;;;
  modify (set_fstypes []) ;;;
  vfs_register 0 [120; 118; 54; 102; 115] ;;;
  vfs_register 1 [101; 120; 116; 50] ;;;
  vfs_register 2 [102; 97; 116; 51; 50].

Definition vfs_root : M (vfs P X) (option nat) :=
  t <- gets mtab ;;
  match t with
  | [] => ret None
  | m :: _ => mt <- getmt m ;; v <- vget (mt_root mt) ;; ret (Some v)
  end.

(** Two vnodes name the same object of a device. *)
Definition same_obj (v w : vnode P) : bool :=
  (v_dev v =? v_dev w) && (v_inum v =? v_inum w).

(** The first mount of [l] whose vnode, selected by [f], is [vp]'s object. *)
Fixpoint find_mount (f : mount -> option nat) (vp : vnode P) (l : list nat) :
  M (vfs P X) (option nat) :=
  match l with
  | [] => ret None
  | m :: l' =>
      mt <- getmt m ;;
      match f mt with
      | None => find_mount f vp l'
      | Some i => w <- getvn i ;; if same_obj w vp then ret (Some m) else find_mount f vp l'
      end
  end.

Definition vfs_lookup_mount (vp : nat) : M (vfs P X) (option nat) :=
  v <- getvn vp ;; t <- gets mtab ;; find_mount mt_mountpoint v (tl t).

Definition vfs_find_mountpoint (vp : nat) : M (vfs P X) (option nat) :=
  v <- getvn vp ;; t <- gets mtab ;; find_mount mt_root v (tl t).

(** *** Path resolution *)

Definition path_start (path : list Z) : M (vfs P X) (option nat) :=
  if hd 0 path =? 47
  then vfs_root
  else
    c <- gets cwd ;;
    match c with
    | None => ret None
    | Some _ => v <- vget c ;; ret (Some v)
    end.

Definition cross_mount (vp : nat) : M (vfs P X) nat :=
  sub <- vfs_lookup_mount vp ;;
  match sub with
  | Some m => vput vp ;;; mt <- getmt m ;; vget (mt_root mt)
  | None => ret vp
  end.

(** [strncmp(name, "..", 15) == 0] *)
Definition is_dotdot (name : list Z) : bool := strncmp name [46; 46; 0] 15 =? 0.

(** The mountpoint that ".." leads out of: [vp] is the root of a mount that
    is attached somewhere. *)
Definition up_from (v : vnode P) : M (vfs P X) (option nat) :=
  match v_mp v with
  | None => ret None
  | Some m =>
      mt <- getmt m ;;
      match mt_mountpoint mt with
      | None => ret None
      | Some mp =>
          match mt_root mt with
          | None => fail FNull
          | Some r => w <- getvn r ;; ret (if same_obj v w then Some mp else None)
          end
      end
  end.

(** The variable [next]: [None] before anything was stored in it. *)
Definition nextvar : Type := option (option nat).

(** The value of [next] after a lookup that may not have stored one. *)
Definition stored (old new : nextvar) : nextvar :=
  match new with Some _ => new | None => old end.

(** One element of a path: from the directory [vp] (whose reference is
    consumed) to the next vnode, or [None] for failure. *)
Definition step_elem (vp : nat) (name : list Z) (nx : nextvar) :
  M (vfs P X) (option nat * nextvar) :=
  vn_lock vp ;;;
  v <- getvn vp ;;
  if negb (v_type v =? V_DIR)
  then vn_unlock vp ;;; vput vp ;;; ret (None, nx)
  else
    up <- (if is_dotdot name then up_from v else ret None) ;;
    match up with
    | Some mp0 =>
        mpoint <- vget (Some mp0) ;;
        vn_unlock vp ;;;
        vput vp ;;;
        vn_lock mpoint ;;;
        mv <- getvn mpoint ;;
        nx' <- match op_lookup (ops_of mv) with
               | Some lookup => '(_, o) <- lookup mpoint [46; 46; 0] ;; ret (stored nx o)
               | None => ret (Some None)
               end ;;
        vn_unlock mpoint ;;;
        vput mpoint ;;;
        match nx' with
        | None => fail FUninit
        | Some o => ret (o, nx')
        end
    | None =>
        match op_lookup (ops_of v) with
        | None => vn_unlock vp ;;; vput vp ;;; ret (None, nx)
        | Some lookup =>
            '(r, o) <- lookup vp name ;;
            let nx' := stored nx o in
            if negb (r =? 0) then vn_unlock vp ;;; vput vp ;;; ret (None, nx')
            else
              vn_unlock vp ;;;
              vput vp ;;;
              match nx' with
              | None => fail FUninit
              | Some None => fail FNull
              | Some (Some n) => w <- cross_mount n ;; ret (Some w, nx')
              end
        end
    end.

Definition namei_body (x : nat * list Z * nextvar) :
  M (vfs P X) (nat * list Z * nextvar + option nat) :=
  let '(vp, rest, nx) := x in
  match skipelem rest with
  | None => ret (inr (Some vp))
  | Some (rest', name) =>
      '(o, nx') <- step_elem vp name nx ;;
      match o with
      | None => ret (inr None)
      | Some w => ret (inl (w, rest', nx'))
      end
  end.

Definition vfs_namei (path : list Z) : M (vfs P X) (option nat) :=
  o <- path_start path ;;
  match o with
  | None => ret None
  | Some vp => loop (S (length path)) namei_body (vp, path, None)
  end.

(** The parent directory and the last element. *)
Definition nameiparent_body (x : nat * list Z * nextvar) :
  M (vfs P X) (nat * list Z * nextvar + option (nat * list Z)) :=
  let '(vp, rest, nx) := x in
  match skipelem rest with
  | None => vput vp ;;; ret (inr None)
  | Some (rest', buf) =>
      if hd 0 rest' =? 0
      then
        v <- getvn vp ;;
        if negb (v_type v =? V_DIR) then vput vp ;;; ret (inr None)
        else ret (inr (Some (vp, buf)))
      else
        '(o, nx') <- step_elem vp buf nx ;;
        match o with
        | None => ret (inr None)
        | Some w => ret (inl (w, rest', nx'))
        end
  end.

Definition vfs_nameiparent (path : list Z) : M (vfs P X) (option (nat * list Z)) :=
  o <- path_start path ;;
  match o with
  | None => ret None
  | Some vp => loop (S (length path)) nameiparent_body (vp, path, None)
  end.

(** *** Mounting *)

Fixpoint path_or_dev_used (path : list Z) (dev : Z) (l : list nat) : M (vfs P X) bool :=
  match l with
  | [] => ret false
  | m :: l' =>
      mt <- getmt m ;;
      if (strncmp (mt_path mt) path 128 =? 0) || (mt_dev mt =? dev) then ret true
      else path_or_dev_used path dev l'
  end.

Definition find_fs (fstype : list Z) (l : list (nat * list Z)) : option nat :=
  fst <$> head (filter (fun x : nat * list Z => strncmp (snd x) fstype 16 = 0) l).

(** [if(mp->ops && mp->ops->unmount) mp->ops->unmount(mp); kfree(mp);] *)
Definition undo_mount (m : nat) : M (vfs P X) unit :=
  mt <- getmt m ;;
  match mt_ops mt with
  | Some o => match unmount o with Some f => f m | None => ret tt end
  | None => ret tt
  end ;;;
  modify (fun s => set_mheap (delete m (mheap s)) s) ;;;
  kfree_page.

Definition set_mountpoint (o : option nat) (m : mount) : mount :=
  Mount (mt_valid m) (mt_ops m) (mt_root m) o (mt_dev m) (mt_path m).
Definition set_valid (b : bool) (m : mount) : mount :=
  Mount b (mt_ops m) (mt_root m) (mt_mountpoint m) (mt_dev m) (mt_path m).
Definition set_path_dev (path : list Z) (dev : Z) (m : mount) : mount :=
  Mount (mt_valid m) (mt_ops m) (mt_root m) (mt_mountpoint m) dev (safestrcpy_chars path 128).

(** The last steps of vfs_mount, once the mountpoint is set. *)
Definition finish_mount (path : list Z) (dev : Z) (m : nat) (mpoint : option nat) :
  M (vfs P X) (option nat) :=
  updmt m (set_path_dev path dev) ;;;
  t <- gets mtab ;;
  if zlen t >=? NMOUNT
  then vput_opt mpoint ;;; undo_mount m ;;; ret None
  else modify (set_mtab (t ++ [m])) ;;; updmt m (set_valid true) ;;; ret (Some m).

Definition vfs_mount (path : list Z) (dev : Z) (fstype : list Z) : M (vfs P X) (option nat) :=
  t <- gets mtab ;;
  used <- path_or_dev_used path dev t ;;
  if (used : bool) then ret None
  else
    fts <- gets fstypes ;;
    mo <- match find_fs fstype fts with Some f => mountfn f dev | None => ret None end ;;
    match mo with
    | None => ret None
    | Some m =>
        updmt m (set_valid false) ;;;
        if strncmp path [47; 0] 128 =? 0
        then updmt m (set_mountpoint None) ;;; finish_mount path dev m None
        else
          mpo <- vfs_namei path ;;
          match mpo with
          | None => undo_mount m ;;; ret None
          | Some mp =>
              v <- getvn mp ;;
              if negb (v_type v =? V_DIR) then vput mp ;;; undo_mount m ;;; ret None
              else
                taken <- vfs_lookup_mount mp ;;
                match taken with
                | Some _ => vput mp ;;; undo_mount m ;;; ret None
                | None => updmt m (set_mountpoint (Some mp)) ;;; finish_mount path dev m (Some mp)
                end
          end
    end.

Fixpoint find_path (path : list Z) (l : list nat) (idx : nat) :
  M (vfs P X) (option (nat * nat)) :=
  match l with
  | [] => ret None
  | m :: l' =>
      mt <- getmt m ;;
      if strncmp (mt_path mt) path 128 =? 0 then ret (Some (idx, m))
      else find_path path l' (S idx)
  end.

Definition vfs_umount (path : list Z) : M (vfs P X) Z :=
  t <- gets mtab ;;
  r <- find_path path t 0 ;;
  match r with
  | None => ret (-1)
  | Some (idx, m) =>
      mt <- getmt m ;;
      if negb (mt_valid mt) || (idx =? 0)%nat then ret (-1)
      else
        match mt_ops mt with
        | Some o => match unmount o with Some f => f m | None => ret tt end
        | None => ret tt
        end ;;;
        updmt m (set_valid false) ;;;
        modify (fun s => set_mtab (delete idx (mtab s)) s) ;;;
        mt' <- getmt m ;;
        vput_opt (mt_mountpoint mt') ;;;
        modify (fun s => set_mheap (delete m (mheap s)) s) ;;;
        kfree_page ;;;
        ret 0
  end.

(** *** Operations on vnodes *)

(** A caller that does not check the operation calls a null pointer. *)
Definition call {A} (o : option A) : M (vfs P X) A :=
  match o with Some f => ret f | None => fail FNull end.

Definition vfs_open (path : list Z) (mode : Z) : M (vfs P X) (option nat) :=
  ipo <- vfs_namei path ;;
  ipo' <- match ipo with
          | Some ip => ret (Some ip)
          | None =>
              if has_flag mode O_CREATE
              then
                pr <- vfs_nameiparent path ;;
                match pr with
                | None => ret None
                | Some (dir, name) =>
                    vn_lock dir ;;;
                    d <- getvn dir ;;
                    create <- call (op_create (ops_of d)) ;;
                    '(r, o) <- create dir name V_FILE ;;
                    vn_unlock dir ;;;
                    vput dir ;;;
                    if negb (r =? 0) then ret None
                    else match o with
                         | None => fail FUninit
                         | Some None => fail FNull
                         | Some (Some ip) => ret (Some ip)
                         end
                end
              else ret None
          end ;;
  match ipo' with
  | None => ret None
  | Some ip =>
      v <- getvn ip ;;
      if (has_flag mode O_CREATE && (v_type v =? V_DIR)) ||
         ((v_type v =? V_DIR) && has_flag mode (Z.lor O_WRONLY O_RDWR))
      then vput ip ;;; ret None
      else ret (Some ip)
  end.

Definition vfs_read (vp : nat) (buf n off : Z) : M (vfs P X) Z :=
  v <- getvn vp ;; match op_read (ops_of v) with Some f => f vp buf n off | None => ret (-1) end.
Definition vfs_write (vp : nat) (buf n off : Z) : M (vfs P X) Z :=
  v <- getvn vp ;; match op_write (ops_of v) with Some f => f vp buf n off | None => ret (-1) end.
Definition vfs_readdir (vp : nat) (buf off : Z) : M (vfs P X) Z :=
  v <- getvn vp ;; match op_readdir (ops_of v) with Some f => f vp buf off | None => ret (-1) end.
Definition vfs_stat (vp : nat) (addr : Z) : M (vfs P X) Z :=
  v <- getvn vp ;; match op_stat (ops_of v) with Some f => f vp addr | None => ret (-1) end.
Definition vfs_read_kernel (vp : nat) (n off : Z) : M (vfs P X) (Z * list Z) :=
  v <- getvn vp ;;
  match op_read_kernel (ops_of v) with Some f => f vp n off | None => ret (-1, []) end.
Definition vfs_truncate (vp : nat) : M (vfs P X) Z :=
  v <- getvn vp ;;
  match op_truncate (ops_of v) with
  | Some f => if negb (v_type v =? V_FILE) then ret (-1) else f vp
  | None => ret (-1)
  end.
Definition vfs_close (vp : nat) : M (vfs P X) Z := vput vp ;;; ret 0.

(** An operation on a directory, called with the directory locked. *)
Definition on_dir {A F} (dir : nat) (op : vnode_ops (vfs P X) -> option F) (err : A)
    (k : F -> M (vfs P X) A) : M (vfs P X) A :=
  d <- getvn dir ;;
  if negb (v_type d =? V_DIR) then ret err
  else match op (ops_of d) with
       | None => ret err
       | Some f => vn_lock dir ;;; r <- k f ;; vn_unlock dir ;;; ret r
       end.

Definition vfs_create (dir : nat) (name : list Z) (type : Z) : M (vfs P X) (Z * nextvar) :=
  on_dir dir op_create (-1, None) (fun f => f dir name type).
Definition vfs_unlink (dir : nat) (name : list Z) : M (vfs P X) Z :=
  on_dir dir op_unlink (-1) (fun f => f dir name).
Definition vfs_mkdir (dir : nat) (name : list Z) : M (vfs P X) Z :=
  on_dir dir op_mkdir (-1) (fun f => f dir name).
Definition vfs_mknod (dir : nat) (name : list Z) (major minor : Z) : M (vfs P X) Z :=
  on_dir dir op_mknod (-1) (fun f => f dir name major minor).
Definition vfs_link (old newdir : nat) (name : list Z) : M (vfs P X) Z :=
  o <- getvn old ;;
  d <- getvn newdir ;;
  if bool_decide (v_mp o <> v_mp d) then ret (-1)
  else on_dir newdir op_link (-1) (fun f => f newdir name old).

End Ops.
