(* ===== verification/VfsPath.v ===== *)
(** VfsPath: path resolution.  skipelem splits a path into its components;
    vfs_namei and vfs_nameiparent keep the vnode reference counts balanced,
    against an interface that states what the file systems' lookup and the
    release of a vnode promise. *)

From S2P Require Import Prelude CString Locks Vfs.

(** *** Components of a path *)

Definition flush (acc : list Z) : list (list Z) := match acc with [] => [] | _ => [acc] end.

(** The maximal runs of characters between slashes, up to the NUL. *)
Fixpoint comps (p acc : list Z) : list (list Z) :=
  match p with
  | [] => flush acc
  | c :: p' => if c =? 0 then flush acc
               else if c =? 47 then flush acc ++ comps p' []
               else comps p' (acc ++ [c])
  end.
Definition components (p : list Z) : list (list Z) := comps p [].

Lemma comps_skip p : components (skip_slashes p) = components p.
Proof.
  unfold components. induction p as [|c p IH]; cbn; [done|].
  destruct (c =? 47) eqn:E; [|cbn; by rewrite E]. assert (c =? 0 = false) as -> by lia. by rewrite IH.
Qed.

Lemma comps_elem p : forall acc e r, take_elem p = (e, r) ->
  comps p acc = flush (acc ++ e) ++ components r /\ (length r <= length p)%nat /\
  (hd 0 r = 47 \/ hd 0 r = 0).
Proof.
  induction p as [|c p IH]; intros acc e r Ht; cbn in Ht.
  - injection Ht as <- <-. rewrite !app_nil_r. cbn. auto.
  - destruct ((c =? 47) || (c =? 0)) eqn:E.
    + injection Ht as <- <-. rewrite app_nil_r. cbn [comps components].
      unfold components. cbn [comps].
      destruct (c =? 0) eqn:E0; [rewrite app_nil_r; split; [done|split; [done|right; cbn; lia]]|].
      assert (c =? 47 = true) as -> by lia. split; [done|split; [done|left; cbn; lia]].
    + destruct (take_elem p) as [e' r'] eqn:Et. injection Ht as <- <-.
      destruct (IH (acc ++ [c]) e' r' eq_refl) as (H1 & H2 & H3).
      cbn [comps]. assert (c =? 0 = false) as -> by lia. assert (c =? 47 = false) as -> by lia.
      rewrite H1, <-app_assoc. cbn. split; [done|]. split; [lia|done].
Qed.

Lemma skip_slashes_len p : (length (skip_slashes p) <= length p)%nat.
Proof. induction p as [|c p IH]; cbn; [done|]. destruct (c =? 47); cbn; lia. Qed.

Lemma take_elem_nonempty p e r : hd 0 p <> 0 -> hd 0 p <> 47 -> take_elem p = (e, r) ->
  e <> [] /\ (length r < length p)%nat.
Proof.
  destruct p as [|c p]; cbn; [done|]. intros H0 H47.
  assert ((c =? 47) || (c =? 0) = false) as -> by lia.
  destruct (take_elem p) as [e' r'] eqn:E. intros [= <- <-]. split; [done|].
  destruct (comps_elem p [] e' r' E) as (_ & Hl & _). lia.
Qed.

Lemma skip_slashes_hd p : hd 0 (skip_slashes p) <> 47.
Proof. induction p as [|c p IH]; cbn; [done|]. destruct (c =? 47) eqn:E; [done|cbn; lia]. Qed.

Lemma skipelem_spec path :
  match skipelem path with
  | None => components path = []
  | Some (rest, name) =>
      exists e, components path = e :: components rest /\ name = take 255 e /\ e <> [] /\
        (length rest < length path)%nat
  end.
Proof.
  unfold skipelem. pose proof (comps_skip path) as Hc. pose proof (skip_slashes_hd path) as Hh.
  pose proof (skip_slashes_len path) as Hl. set (p := skip_slashes path) in *.
  destruct (hd 0 p =? 0) eqn:E0.
  - rewrite <-Hc. destruct p as [|c p']; [done|]. cbn in E0. unfold components. cbn. by rewrite E0.
  - destruct (take_elem p) as [e r] eqn:Et.
    destruct (take_elem_nonempty p e r) as [He Hr]; [lia|done|done|].
    destruct (comps_elem p [] e r Et) as (H1 & _ & _).
    exists e. rewrite <-Hc. unfold components at 1. rewrite H1, comps_skip. cbn [app].
    pose proof (skip_slashes_len r). split_and!; [by destruct e|done|done|lia].
Qed.

(** Paths are walked component by component: skipelem returns 0 exactly
    when no component is left, and otherwise the first maximal run of
    characters between slashes (cut at 255 characters) together with a
    strictly shorter rest of the path that has exactly the remaining
    components, so the resolution loops end after one round per component. *)
Theorem skipelem_walks_components path :
  (skipelem path = None <-> components path = []) /\
  (forall rest name, skipelem path = Some (rest, name) ->
     exists e, components path = e :: components rest /\ name = take 255 e /\
       (length rest < length path)%nat /\
       (length (components rest) < length (components path))%nat).
Proof.
  pose proof (skipelem_spec path) as Hs. destruct (skipelem path) as [[rest name]|].
  - destruct Hs as (e & E & -> & He & Hl). split; [split; [done|by rewrite E]|].
    intros ? ? [= <- <-]. exists e. rewrite E. cbn. split_and!; auto.
  - split; [tauto|done].
Qed.

Definition wit_path : list Z := [47; 97; 47; 47; 98; 99; 0].
Definition wit_rest : list Z := [98; 99; 0].
Definition wit_name : list Z := [97].

Lemma skipelem_walks_components_witness :
  exists e, components wit_path = e :: components wit_rest /\ wit_name = take 255 e /\
    (length wit_rest < length wit_path)%nat /\
    (length (components wit_rest) < length (components wit_path))%nat.
Proof. apply (proj2 (skipelem_walks_components wit_path)). reflexivity. Defined.

(** *** What path resolution relies on *)

Section Interface.
  Context {P X : Type} `{Backends P X}.
  Implicit Types s : vfs P X.

(** What a live vnode is: everything but its count, lock, size and data. *)
Definition ident (v : vnode P) : Z * Z * Z * option nat * option nat :=
  (v_type v, v_dev v, v_inum v, v_ops v, v_mp v).

Definition same_mounts (s s' : vfs P X) : Prop :=
  mheap s' = mheap s /\ mtab s' = mtab s /\ cwd s' = cwd s /\ vpid s' = vpid s.

(** From [s] to [s'] the references of vnode [j] change by [d j], live vnodes
    stay what they are, and locks and mounts stay as they are. *)
Record vrel (d : nat -> Z) (s s' : vfs P X) : Prop := Vrel {
  vr_mounts : same_mounts s s';
  vr_tab : forall j, match vtab s !! j, vtab s' !! j with
           | Some v, Some v' =>
               v_ref v' = v_ref v + d j /\ 0 <= v_ref v' /\ v_lock v' = v_lock v /\
               (0 < v_ref v -> 0 < v_ref v' -> ident v' = ident v)
           | None, None => True
           | _, _ => False
           end
}.

(** One reference more, or less, for [i]. *)
Definition at_ (i : nat) (k : Z) : nat -> Z := fun j => if (j =? i)%nat then k else 0.
Definition nochange : nat -> Z := fun _ => 0.

End Interface.

(** The promises: an invariant of the file systems' own data that counting
    and locking vnodes cannot break, under which releasing a live vnode drops
    one reference, and a lookup in a live directory either fails without
    keeping references or stores one live vnode with one more reference. *)
Class NameOps (P X : Type) `{Backends P X} : Type := {
  vinv : vfs P X -> Prop;
  vinv_mp : forall s i v m, vinv s -> vtab s !! i = Some v -> 0 < v_ref v -> v_mp v = Some m ->
    is_Some (mheap s !! m);
  vinv_get : forall s i v, vinv s -> vtab s !! i = Some v -> 0 < v_ref v ->
    vinv (set_vtab (alter (fun v => set_vref (v_ref v + 1) v) i (vtab s)) s);
  vinv_lock : forall s i k, vinv s -> vinv (set_vtab (alter (set_vlock k) i (vtab s)) s);
  vput_ok : forall s i v, vinv s -> vtab s !! i = Some v -> 0 < v_ref v ->
    exists s', vput i s = Ok (tt, s') /\ vinv s' /\ vrel (at_ i (-1)) s s';
  lookup_ok : forall s i v f name, vinv s -> vtab s !! i = Some v -> 0 < v_ref v ->
    op_lookup (ops_of v) = Some f ->
    exists r o s', f i name s = Ok ((r, o), s') /\ vinv s' /\
      ((r = 0 /\ exists w, o = Some (Some w) /\ is_Some (vtab s !! w) /\ vrel (at_ w 1) s s') \/
       (r <> 0 /\ vrel nochange s s'))
}.

(** *** Reference counts across path resolution *)

Section Balance.
  Context {P X : Type} `{NameOps P X}.
  Implicit Types s : vfs P X.

Lemma vrel_refl s : (forall j v, vtab s !! j = Some v -> 0 <= v_ref v) -> vrel nochange s s.
Proof.
  intros Hr. split; [done|]. intros j. destruct (vtab s !! j) as [v|] eqn:E; [|done].
  unfold nochange. split_and!; eauto. lia.
Qed.

(** The state seen from the start [s0] of a resolution: [d j] references to
    vnode [j] are held in addition, no vnode lock is held except [lk]. *)
Record held (s0 : vfs P X) (d : nat -> Z) (lk : option nat) (s : vfs P X) : Prop := Held {
  hd_inv : vinv s;
  hd_mounts : same_mounts s0 s;
  hd_pos : forall j, 0 <= d j;
  hd_tab : forall j, match vtab s0 !! j, vtab s !! j with
           | Some v, Some v' =>
               v_ref v' = v_ref v + d j /\ 0 <= v_ref v /\
               (0 < v_ref v -> ident v' = ident v) /\
               (Some j <> lk -> Sleep.sl_locked (v_lock v') = false)
           | None, None => True
           | _, _ => False
           end
}.

(** The mounts of [s0] refer to live vnodes. *)
Definition live (s : vfs P X) (i : nat) : Prop := exists v, vtab s !! i = Some v /\ 0 < v_ref v.

Record mounts_live (s0 : vfs P X) : Prop := Mounts_live {
  ml_root : forall m mt, mheap s0 !! m = Some mt -> exists r, mt_root mt = Some r /\ live s0 r;
  ml_point : forall m mt p, mheap s0 !! m = Some mt -> mt_mountpoint mt = Some p -> live s0 p;
  ml_tab : Forall (fun m => is_Some (mheap s0 !! m)) (mtab s0);
  ml_cwd : forall c, cwd s0 = Some c -> live s0 c
}.

Lemma held_live s0 d lk s i : held s0 d lk s -> live s0 i -> live s i.
Proof.
  intros Hh (v & E & Hv). pose proof (hd_tab _ _ _ _ Hh i) as Ht. rewrite E in Ht.
  pose proof (hd_pos _ _ _ _ Hh i).
  destruct (vtab s !! i) as [v'|] eqn:E'; [|done]. exists v'. split; [done|]. lia.
Qed.

Lemma held_extra s0 d lk s i : held s0 d lk s -> is_Some (vtab s0 !! i) -> 0 < d i -> live s i.
Proof.
  intros Hh [v E] Hd. pose proof (hd_tab _ _ _ _ Hh i) as Ht. rewrite E in Ht.
  destruct (vtab s !! i) as [v'|] eqn:E'; [|done]. exists v'. split; [done|]. lia.
Qed.

Lemma held_in s0 d lk s i v : held s0 d lk s -> vtab s !! i = Some v -> is_Some (vtab s0 !! i).
Proof.
  intros Hh E. pose proof (hd_tab _ _ _ _ Hh i) as Ht. rewrite E in Ht.
  by destruct (vtab s0 !! i).
Qed.

(** A step that changes references by [e] keeps the bookkeeping. *)
Lemma held_vrel s0 d e d' lk s s' :
  held s0 d lk s -> vinv s' -> vrel e s s' -> (forall j, d' j = d j + e j) ->
  (forall j, 0 <= d' j) -> held s0 d' lk s'.
Proof.
  intros [Hi Hm Hp Ht] Hi' [Rm Rt] Hd Hp'. split; [done|..|done|].
  - destruct Hm as (A1 & A2 & A3 & A4), Rm as (B1 & B2 & B3 & B4). split_and!; congruence.
  - intros j. specialize (Ht j). specialize (Rt j). specialize (Hd j). specialize (Hp' j).
    specialize (Hp j).
    destruct (vtab s0 !! j) as [v0|], (vtab s !! j) as [v|], (vtab s' !! j) as [v'|]; try done.
    destruct Ht as (T1 & T2 & T4 & T5), Rt as (R1 & R2 & R3 & R4).
    split_and!; try lia.
    + intros Hl. rewrite R4 by lia. by apply T4.
    + intros Hne. rewrite R3. by apply T5.
Qed.

Lemma held_ext s0 d d' lk s : held s0 d lk s -> (forall j, d' j = d j) -> held s0 d' lk s.
Proof.
  intros [Hi Hm Hp Ht] E. split; [done..|intros j; by rewrite E|].
  intros j. specialize (Ht j). rewrite E. done.
Qed.

(** [n] references held to each of the vnodes in [l]. *)
Definition refs (l : list nat) : nat -> Z := fun j => Z.of_nat (length (filter (eq j) l)).

Lemma refs_cons i l j : refs (i :: l) j = refs l j + at_ i 1 j.
Proof.
  unfold refs, at_. rewrite filter_cons. destruct (Nat.eqb_spec j i) as [->|Hne].
  - rewrite decide_True by done. cbn. lia.
  - rewrite decide_False by done. lia.
Qed.

Lemma refs_pos l j : 0 <= refs l j.
Proof. unfold refs. lia. Qed.

Lemma vget_held s0 l lk s i :
  held s0 (refs l) lk s -> live s i ->
  exists s', vget (Some i) s = Ok (i, s') /\ held s0 (refs (i :: l)) lk s'.
Proof.
  intros Hh (v & E & Hv). eexists. split.
  - unfold vget, bind, getvn. rewrite E. done.
  - destruct Hh as [Hi Hm Hp Ht].
    split; [by eapply vinv_get|done|apply refs_pos|]. intros j. specialize (Ht j).
    rewrite refs_cons. unfold at_. cbn [vtab set_vtab]. destruct (Nat.eqb_spec j i) as [->|Hne].
    + rewrite list_lookup_alter_eq, E in *. cbn.
      destruct (vtab s0 !! i) as [v0|]; [|done]. destruct Ht as (T1 & T2 & T4 & T5).
      split_and!; auto; lia.
    + rewrite list_lookup_alter_ne by done. by rewrite Z.add_0_r.
Qed.

Lemma vput_held s0 l lk s i :
  held s0 (refs (i :: l)) lk s -> is_Some (vtab s0 !! i) ->
  exists s', vput i s = Ok (tt, s') /\ held s0 (refs l) lk s'.
Proof.
  intros Hh Hi. pose proof (refs_cons i l i) as Hc. unfold at_ in Hc. rewrite Nat.eqb_refl in Hc.
  pose proof (refs_pos l i).
  destruct (held_extra _ _ _ _ _ Hh Hi) as (v & E & Hv); [lia|].
  destruct (vput_ok s i v (hd_inv _ _ _ _ Hh) E Hv) as (s' & Ep & Hi' & Hr).
  exists s'. split; [done|]. eapply held_vrel; [done..| |apply refs_pos].
  intros j. rewrite refs_cons. unfold at_. destruct (j =? i)%nat; lia.
Qed.

(** Taking and releasing a vnode's lock. *)
Lemma lock_held s0 d s i :
  held s0 d None s -> is_Some (vtab s0 !! i) ->
  exists s', vn_lock i s = Ok (tt, s') /\ held s0 d (Some i) s'.
Proof.
  intros Hh [v0 E0]. pose proof (hd_tab _ _ _ _ Hh i) as Hti. rewrite E0 in Hti.
  destruct (vtab s !! i) as [v|] eqn:E; [|done]. destruct Hti as (_ & _ & _ & T5).
  eexists. split.
  - unfold vn_lock, on_vlock, bind, gets, getvn, Sleep.acquiresleep. rewrite E, T5 by done. done.
  - destruct Hh as [Hi Hm Hp Ht]. split; [by apply vinv_lock|done|done|].
    intros j. specialize (Ht j). cbn [vtab set_vtab].
    destruct (decide (j = i)) as [->|Hne].
    + rewrite list_lookup_alter_eq. rewrite E, E0 in *. cbn.
      destruct Ht as (A & B & C & D). split_and!; auto. congruence.
    + rewrite list_lookup_alter_ne by done.
      destruct (vtab s0 !! j), (vtab s !! j); try done.
      destruct Ht as (A & B & C & D). split_and!; auto.
Qed.

Lemma unlock_held s0 d s i :
  held s0 d (Some i) s -> is_Some (vtab s0 !! i) ->
  exists s', vn_unlock i s = Ok (tt, s') /\ held s0 d None s'.
Proof.
  intros Hh [v0 E0]. pose proof (hd_tab _ _ _ _ Hh i) as Hti. rewrite E0 in Hti.
  destruct (vtab s !! i) as [v|] eqn:E; [|done]. eexists. split.
  - unfold vn_unlock, on_vlock, bind, getvn, Sleep.releasesleep. rewrite E. done.
  - destruct Hh as [Hi Hm Hp Ht]. split; [by apply vinv_lock|done|done|].
    intros j. specialize (Ht j). cbn [vtab set_vtab].
    destruct (decide (j = i)) as [->|Hne].
    + rewrite list_lookup_alter_eq. rewrite E, E0 in *. cbn.
      destruct Ht as (A & B & C & D). split_and!; auto.
    + rewrite list_lookup_alter_ne by done.
      destruct (vtab s0 !! j), (vtab s !! j); try done.
      destruct Ht as (A & B & C & D). split_and!; auto. intros _. apply D. congruence.
Qed.

(** A lookup, with its directory locked. *)
Lemma lookup_held s0 l lk s i v f name :
  held s0 (refs l) lk s -> vtab s !! i = Some v -> 0 < v_ref v -> op_lookup (ops_of v) = Some f ->
  exists r o s', f i name s = Ok ((r, o), s') /\
    ((r = 0 /\ exists w, o = Some (Some w) /\ is_Some (vtab s0 !! w) /\
        held s0 (refs (w :: l)) lk s') \/
     (r <> 0 /\ held s0 (refs l) lk s')).
Proof.
  intros Hh E Hv Hf.
  destruct (lookup_ok s i v f name (hd_inv _ _ _ _ Hh) E Hv Hf) as (r & o & s' & Ef & Hi & Hr).
  exists r, o, s'. split; [done|]. destruct Hr as [(-> & w & -> & [vw Ew] & Hr)|(Hr0 & Hr)].
  - left. split; [done|]. exists w. split; [done|]. split; [by eapply held_in|].
    eapply held_vrel; [done..| |apply refs_pos]. intros j. apply refs_cons.
  - right. split; [done|]. eapply held_vrel; [done..| |apply refs_pos]. intros j. unfold nochange. lia.
Qed.

Lemma held_swap s0 i j l lk s :
  held s0 (refs (i :: j :: l)) lk s -> held s0 (refs (j :: i :: l)) lk s.
Proof. intros Hh. eapply held_ext; [done|]. intros k. rewrite !refs_cons. lia. Qed.

(** ** One path element *)

Context (s0 : vfs P X) (Hml : mounts_live s0).

(** Looking up ".." in a directory that something is mounted on succeeds. *)
Definition dotdot_ok : Prop := forall s mp v f m mt,
  vinv s -> mheap s !! m = Some mt -> mt_mountpoint mt = Some mp -> vtab s !! mp = Some v ->
  op_lookup (ops_of v) = Some f -> exists o s', f mp [46; 46; 0] s = Ok ((0, o), s').

Lemma in_table i : live s0 i -> is_Some (vtab s0 !! i).
Proof. intros (v & -> & _). eauto. Qed.

Lemma held_get d lk s i : held s0 d lk s -> is_Some (vtab s0 !! i) ->
  exists v, vtab s !! i = Some v /\ getvn i s = Ok (v, s).
Proof.
  intros Hh [v0 E0]. pose proof (hd_tab _ _ _ _ Hh i) as Ht. rewrite E0 in Ht.
  destruct (vtab s !! i) as [v|] eqn:E; [|done]. exists v. split; [done|].
  unfold getvn. by rewrite E.
Qed.

Lemma held_mount d lk s m : held s0 d lk s -> is_Some (mheap s0 !! m) ->
  exists mt, mheap s0 !! m = Some mt /\ getmt m s = Ok (mt, s).
Proof.
  intros Hh [mt E]. exists mt. split; [done|]. destruct (hd_mounts _ _ _ _ Hh) as (Em & _).
  unfold getmt. by rewrite Em, E.
Qed.

Lemma find_mount_held (f : mount -> option nat) d lk s v ms :
  held s0 d lk s -> (forall m mt i, mheap s0 !! m = Some mt -> f mt = Some i -> live s0 i) ->
  Forall (fun m => is_Some (mheap s0 !! m)) ms ->
  exists o, find_mount f v ms s = Ok (o, s) /\ (forall m, o = Some m -> is_Some (mheap s0 !! m)).
Proof.
  intros Hh Hf. induction 1 as [|m ms Hm _ IH]; cbn [find_mount]; [by exists None|].
  destruct (held_mount _ _ _ _ Hh Hm) as (mt & Em & Eg). rewrite (bind_ok _ _ _ _ _ Eg).
  destruct (f mt) as [i|] eqn:Ef; [|done].
  destruct (held_get _ _ _ i Hh) as (w & _ & Ew); [by eapply in_table, Hf|].
  rewrite (bind_ok _ _ _ _ _ Ew). destruct (same_obj w v); [|done].
  exists (Some m). split; [done|]. by intros ? [= <-].
Qed.

Lemma cross_mount_held l s n :
  held s0 (refs (n :: l)) None s -> is_Some (vtab s0 !! n) ->
  exists w s', cross_mount n s = Ok (w, s') /\ is_Some (vtab s0 !! w) /\
    held s0 (refs (w :: l)) None s'.
Proof.
  intros Hh Hn. destruct (held_get _ _ _ n Hh Hn) as (v & _ & Ev).
  assert (exists o, vfs_lookup_mount n s = Ok (o, s) /\
            (forall m, o = Some m -> is_Some (mheap s0 !! m))) as (o & Eo & Ho).
  { unfold vfs_lookup_mount. rewrite (bind_ok _ _ _ _ _ Ev). unfold gets at 1, bind at 1.
    destruct (hd_mounts _ _ _ _ Hh) as (_ & -> & _).
    eapply find_mount_held; [done|intros; by eapply ml_point|].
    destruct (ml_tab _ Hml); [constructor|done]. }
  unfold cross_mount. rewrite (bind_ok _ _ _ _ _ Eo). destruct o as [m|].
  - destruct (vput_held s0 l None s n Hh Hn) as (s1 & E1 & H1). rewrite (bind_ok _ _ _ _ _ E1).
    destruct (held_mount _ _ _ m H1) as (mt & Em & Eg); [by apply Ho|].
    rewrite (bind_ok _ _ _ _ _ Eg). destruct (ml_root _ Hml _ _ Em) as (r & -> & Hr).
    destruct (vget_held s0 l None s1 r H1) as (s2 & E2 & H2); [by eapply held_live|].
    exists r, s2. split; [done|]. split; [by apply in_table|done].
  - exists n, s. done.
Qed.

Lemma up_from_held d lk s i v :
  held s0 d lk s -> vtab s !! i = Some v -> 0 < v_ref v ->
  exists o, up_from v s = Ok (o, s) /\
    (forall p, o = Some p -> live s0 p /\ exists m mt, mheap s !! m = Some mt /\ mt_mountpoint mt = Some p).
Proof.
  intros Hh E Hv. unfold up_from. destruct (v_mp v) as [m|] eqn:Em; [|by exists None].
  pose proof (vinv_mp s i v m (hd_inv _ _ _ _ Hh) E Hv Em) as Hm.
  destruct (hd_mounts _ _ _ _ Hh) as (Eh & _). rewrite Eh in Hm.
  destruct (held_mount _ _ _ m Hh Hm) as (mt & Emt & Eg). rewrite (bind_ok _ _ _ _ _ Eg).
  destruct (mt_mountpoint mt) as [p|] eqn:Ep; [|by exists None].
  destruct (ml_root _ Hml _ _ Emt) as (r & -> & Hr).
  destruct (held_get _ _ _ r Hh) as (w & _ & Ew); [by apply in_table|].
  rewrite (bind_ok _ _ _ _ _ Ew). destruct (same_obj v w).
  - exists (Some p). split; [done|]. intros ? [= <-]. split; [by eapply ml_point|].
    exists m, mt. by rewrite Eh.
  - by exists None.
Qed.

(** What one element does to the references: that of [vp] is traded for one
    of the vnode reached, or released. *)
Definition step_post (o : option nat) (s' : vfs P X) : Prop :=
  match o with
  | Some w => is_Some (vtab s0 !! w) /\ held s0 (refs [w]) None s'
  | None => held s0 (refs []) None s'
  end.

Lemma step_back_out s vp nx :
  held s0 (refs [vp]) (Some vp) s -> is_Some (vtab s0 !! vp) ->
  exists s', (vn_unlock vp ;;; vput vp ;;; ret (None, nx)) s = Ok ((@None nat, nx : nextvar), s') /\
    step_post None s'.
Proof.
  intros Hh Hvp. destruct (unlock_held s0 _ s vp Hh Hvp) as (s1 & E1 & H1).
  rewrite (bind_ok _ _ _ _ _ E1). destruct (vput_held s0 [] None s1 vp H1 Hvp) as (s2 & E2 & H2).
  rewrite (bind_ok _ _ _ _ _ E2). by exists s2.
Qed.

(** ".." out of a mounted file system. *)
Lemma step_up_held s vp p nx :
  dotdot_ok -> held s0 (refs [vp]) (Some vp) s -> is_Some (vtab s0 !! vp) -> live s0 p ->
  (exists m mt, mheap s !! m = Some mt /\ mt_mountpoint mt = Some p) ->
  exists o nx' s',
    (mpoint <- vget (Some p) ;; vn_unlock vp ;;; vput vp ;;; vn_lock mpoint ;;;
     mv <- getvn mpoint ;;
     nx' <- match op_lookup (ops_of mv) with
            | Some lookup => '(_, o) <- lookup mpoint [46; 46; 0] ;; ret (stored nx o)
            | None => ret (Some None)
            end ;;
     vn_unlock mpoint ;;; vput mpoint ;;;
     match nx' with None => fail FUninit | Some o => ret (o, nx') end) s = Ok ((o, nx'), s') /\
    step_post o s'.
Proof.
  intros Hdd Hh Hvp Hp (m & mt & Em & Ep). pose proof (in_table _ Hp) as Hpt.
  destruct (vget_held s0 [vp] _ s p Hh) as (s1 & E1 & H1); [by eapply held_live|].
  rewrite (bind_ok _ _ _ _ _ E1). destruct (unlock_held s0 _ s1 vp H1 Hvp) as (s2 & E2 & H2).
  rewrite (bind_ok _ _ _ _ _ E2).
  destruct (vput_held s0 [p] None s2 vp (held_swap _ _ _ _ _ _ H2) Hvp) as (s3 & E3 & H3).
  rewrite (bind_ok _ _ _ _ _ E3). destruct (lock_held s0 _ s3 p H3 Hpt) as (s4 & E4 & H4).
  rewrite (bind_ok _ _ _ _ _ E4).
  destruct (held_get _ _ _ p H4 Hpt) as (v & Ev & Egv). rewrite (bind_ok _ _ _ _ _ Egv).
  destruct (held_live _ _ _ _ p H4 Hp) as (v' & Ev' & Hv'). rewrite Ev in Ev'. injection Ev' as <-.
  destruct (op_lookup (ops_of v)) as [f|] eqn:Ef.
  - destruct (lookup_held s0 [p] _ s4 p v f [46; 46; 0] H4 Ev Hv' Ef) as (r & o & s5 & E5 & H5).
    destruct (Hdd s4 p v f m mt (hd_inv _ _ _ _ H4)) as (o' & s5' & E5'); try done.
    { destruct (hd_mounts _ _ _ _ Hh) as (Ea & _), (hd_mounts _ _ _ _ H4) as (Eb & _). congruence. }
    rewrite E5 in E5'. injection E5' as -> -> ->.
    destruct H5 as [(_ & w & -> & Hw & H5)|(? & _)]; [|done].
    unfold bind at 1. rewrite (bind_ok _ _ _ _ _ E5). cbn [stored ret].
    destruct (unlock_held s0 _ s5' p H5 Hpt) as (s6 & E6 & H6). rewrite (bind_ok _ _ _ _ _ E6).
    destruct (vput_held s0 [w] None s6 p (held_swap _ _ _ _ _ _ H6) Hpt) as (s7 & E7 & H7).
    rewrite (bind_ok _ _ _ _ _ E7). by exists (Some w), (Some (Some w)), s7.
  - rewrite ret_bind. destruct (unlock_held s0 _ s4 p H4 Hpt) as (s6 & E6 & H6).
    rewrite (bind_ok _ _ _ _ _ E6).
    destruct (vput_held s0 [] None s6 p H6 Hpt) as (s7 & E7 & H7).
    rewrite (bind_ok _ _ _ _ _ E7). by exists None, (Some None), s7.
Qed.

Lemma step_elem_held s vp name nx :
  dotdot_ok -> held s0 (refs [vp]) None s -> is_Some (vtab s0 !! vp) ->
  exists o nx' s', step_elem vp name nx s = Ok ((o, nx'), s') /\ step_post o s'.
Proof.
  intros Hdd Hh Hvp. unfold step_elem.
  destruct (lock_held s0 _ s vp Hh Hvp) as (s1 & E1 & H1). rewrite (bind_ok _ _ _ _ _ E1).
  destruct (held_extra s0 _ _ s1 vp H1 Hvp) as (v & Ev & Hv).
  { rewrite refs_cons. unfold at_, refs. rewrite Nat.eqb_refl. cbn. lia. }
  assert (getvn vp s1 = Ok (v, s1)) as Eg by (unfold getvn; by rewrite Ev).
  rewrite (bind_ok _ _ _ _ _ Eg). destruct (negb (v_type v =? V_DIR)).
  { destruct (step_back_out s1 vp nx H1 Hvp) as (s' & E' & Hs'). by exists None, nx, s'. }
  destruct (up_from_held _ _ s1 vp v H1 Ev Hv) as (u & Eu & Hu).
  set (g := if is_dotdot name then up_from v else ret None).
  assert (exists u', g s1 = Ok (u', s1) /\ (u' = u \/ u' = None)) as (u' & Eg' & Hu').
  { unfold g. destruct (is_dotdot name); eauto. }
  rewrite (bind_ok _ _ _ _ _ Eg'). destruct u' as [p|].
  - destruct Hu' as [<-|]; [|done]. destruct (Hu p eq_refl) as [Hp Hm].
    by apply step_up_held.
  - destruct (op_lookup (ops_of v)) as [f|] eqn:Ef.
    2:{ destruct (step_back_out s1 vp nx H1 Hvp) as (s' & E' & Hs'). by exists None, nx, s'. }
    destruct (lookup_held s0 [vp] _ s1 vp v f name H1 Ev Hv Ef) as (r & o & s2 & E2 & H2).
    rewrite (bind_ok _ _ _ _ _ E2). destruct H2 as [(-> & w & -> & Hw & H2)|(Hr & H2)].
    + cbn [Z.eqb negb stored]. destruct (unlock_held s0 _ s2 vp H2 Hvp) as (s3 & E3 & H3).
      rewrite (bind_ok _ _ _ _ _ E3).
      destruct (vput_held s0 [w] None s3 vp (held_swap _ _ _ _ _ _ H3) Hvp) as (s4 & E4 & H4).
      rewrite (bind_ok _ _ _ _ _ E4).
      destruct (cross_mount_held [] s4 w H4 Hw) as (w' & s5 & E5 & Hw' & H5).
      rewrite (bind_ok _ _ _ _ _ E5). by exists (Some w'), (Some (Some w)), s5.
    + assert (negb (r =? 0) = true) as -> by lia.
      destruct (step_back_out s2 vp (stored nx o) H2 Hvp) as (s' & E' & Hs').
      by exists None, (stored nx o), s'.
Qed.

(** ** Whole paths *)

(** Nothing is locked, and counts are not negative. *)
Definition quiet (s : vfs P X) : Prop :=
  forall j v, vtab s !! j = Some v -> 0 <= v_ref v /\ Sleep.sl_locked (v_lock v) = false.

Lemma held_start : vinv s0 -> quiet s0 -> held s0 (refs []) None s0.
Proof.
  intros Hi Hq. split; [done|done|apply refs_pos|]. intros j.
  destruct (vtab s0 !! j) as [v|] eqn:E; [|done]. destruct (Hq j v E).
  unfold refs. cbn. split_and!; auto; lia.
Qed.

Lemma path_start_held path s :
  held s0 (refs []) None s -> exists o s', path_start path s = Ok (o, s') /\ step_post o s'.
Proof.
  intros Hh. destruct (hd_mounts _ _ _ _ Hh) as (Eh & Et & Ec & _). unfold path_start.
  destruct (hd 0 path =? 47).
  - unfold vfs_root, gets, bind at 1. rewrite Et. pose proof (ml_tab _ Hml) as Htab.
    destruct (mtab s0) as [|m ms]; [by exists None, s|]. apply Forall_cons in Htab as [Hm _].
    destruct (held_mount _ _ _ m Hh Hm) as (mt & Em & Eg). rewrite (bind_ok _ _ _ _ _ Eg).
    destruct (ml_root _ Hml _ _ Em) as (r & -> & Hr).
    destruct (vget_held s0 [] _ s r Hh) as (s1 & E1 & H1); [by eapply held_live|].
    rewrite (bind_ok _ _ _ _ _ E1). exists (Some r), s1. split; [done|].
    split; [by apply in_table|done].
  - unfold gets, bind at 1. rewrite Ec. destruct (cwd s0) as [c|] eqn:E; [|by exists None, s].
    pose proof (ml_cwd _ Hml c E) as Hc.
    destruct (vget_held s0 [] _ s c Hh) as (s1 & E1 & H1); [by eapply held_live|].
    rewrite (bind_ok _ _ _ _ _ E1). exists (Some c), s1. split; [done|].
    split; [by apply in_table|done].
Qed.

Definition walk_inv (x : nat * list Z * nextvar) (s : vfs P X) : Prop :=
  is_Some (vtab s0 !! x.1.1) /\ held s0 (refs [x.1.1]) None s.

Lemma namei_run path :
  dotdot_ok -> vinv s0 -> quiet s0 ->
  exists r s', vfs_namei path s0 = Ok (r, s') /\ step_post r s'.
Proof.
  intros Hdd Hi Hq. unfold vfs_namei.
  destruct (path_start_held path s0 (held_start Hi Hq)) as (o & s1 & E1 & H1).
  rewrite (bind_ok _ _ _ _ _ E1). destruct o as [vp|]; [|by exists None, s1].
  apply (loop_rule namei_body walk_inv step_post (fun x _ => length x.1.2)); [|exact H1|cbn; lia].
  intros [[v rest] nx] s [Hv Hh]. cbn [fst snd] in *. unfold namei_body.
  pose proof (skipelem_spec rest) as Hs. destruct (skipelem rest) as [[rest' name]|].
  - destruct Hs as (e & _ & _ & _ & Hl).
    destruct (step_elem_held s v name nx Hdd Hh Hv) as (o & nx' & s' & E & Hp).
    rewrite (bind_ok _ _ _ _ _ E). destruct o as [w|].
    + exists (inl (w, rest', nx')), s'. split; [done|]. split; [exact Hp|cbn; lia].
    + by exists (inr None), s'.
  - by exists (inr (Some v)), s.
Qed.

Lemma nameiparent_run path :
  dotdot_ok -> vinv s0 -> quiet s0 ->
  exists r s', vfs_nameiparent path s0 = Ok (r, s') /\ step_post (fst <$> r) s'.
Proof.
  intros Hdd Hi Hq. unfold vfs_nameiparent.
  destruct (path_start_held path s0 (held_start Hi Hq)) as (o & s1 & E1 & H1).
  rewrite (bind_ok _ _ _ _ _ E1). destruct o as [vp|]; [|by exists None, s1].
  apply (loop_rule nameiparent_body walk_inv (fun r s => step_post (fst <$> r) s)
           (fun x _ => length x.1.2)); [|exact H1|cbn; lia].
  intros [[v rest] nx] s [Hv Hh]. cbn [fst snd] in *. unfold nameiparent_body.
  pose proof (skipelem_spec rest) as Hs. destruct (skipelem rest) as [[rest' name]|].
  - destruct Hs as (e & _ & _ & _ & Hl). destruct (hd 0 rest' =? 0).
    + destruct (held_get _ _ _ v Hh Hv) as (x & _ & Ex). rewrite (bind_ok _ _ _ _ _ Ex).
      destruct (negb _); [|by exists (inr (Some (v, name))), s].
      destruct (vput_held s0 [] None s v Hh Hv) as (s2 & E2 & H2).
      rewrite (bind_ok _ _ _ _ _ E2). by exists (inr None), s2.
    + destruct (step_elem_held s v name nx Hdd Hh Hv) as (o & nx' & s' & E & Hp).
      rewrite (bind_ok _ _ _ _ _ E). destruct o as [w|].
      * exists (inl (w, rest', nx')), s'. split; [done|]. split; [exact Hp|cbn; lia].
      * by exists (inr None), s'.
  - destruct (vput_held s0 [] None s v Hh Hv) as (s2 & E2 & H2).
    rewrite (bind_ok _ _ _ _ _ E2). by exists (inr None), s2.
Qed.

(** The only lasting effect on the vnode table is one more reference to the
    result, if there is one. *)
Definition balanced (r : option nat) (s' : vfs P X) : Prop :=
  same_mounts s0 s' /\
  (forall j v, vtab s0 !! j = Some v ->
     exists v', vtab s' !! j = Some v' /\
       v_ref v' = v_ref v + (if bool_decide (r = Some j) then 1 else 0) /\
       Sleep.sl_locked (v_lock v') = false /\ (0 < v_ref v -> ident v' = ident v)) /\
  (forall w, r = Some w -> live s' w).

Lemma step_post_balanced r s' : step_post r s' -> balanced r s'.
Proof.
  intros Hp.
  assert (exists l, held s0 (refs l) None s' /\
    forall j, refs l j = if bool_decide (r = Some j) then 1 else 0) as (l & Hh & Hl).
  { destruct r as [w|]; [exists [w]|exists []]; cbn in Hp; (split; [tauto|]); intros j.
    - rewrite refs_cons. unfold at_, refs. cbn. destruct (Nat.eqb_spec j w) as [->|].
      + by rewrite bool_decide_true.
      + rewrite bool_decide_false by congruence. done.
    - done. }
  split; [apply Hh|]. split.
  - intros j v E. pose proof (hd_tab _ _ _ _ Hh j) as Ht. rewrite E in Ht.
    destruct (vtab s' !! j) as [v'|]; [|done]. exists v'. rewrite <-Hl. naive_solver.
  - intros w ->. destruct Hp as [Hw Hp]. eapply (held_extra s0 (refs [w])); [done|done|].
    rewrite refs_cons. unfold at_, refs. rewrite Nat.eqb_refl. cbn. lia.
Qed.


End Balance.

(** *** A file system to run the definitions on *)

(** A directory that contains itself as ".." and a directory "a", which gets
    a new vnode at every lookup; nothing else exists. *)
Definition toy_node (v : vnode unit) : vnode unit :=
  Vnode V_DIR 1 0 0 (Some 0%nat) (Some 0%nat) (v_ref v) (v_lock v) 7 0 0 None.

Definition toy_lookup (dir : nat) (name : list Z) : M (vfs unit unit) (Z * nextvar) :=
  if is_dotdot name then w <- vget (Some dir) ;; ret (0, Some (Some w))
  else if strncmp name [97; 0] 15 =? 0
  then o <- alloc_vnode ;;
       match o with
       | Some w => updvn w toy_node ;;; ret (0, Some (Some w))
       | None => ret (-1, Some None)
       end
  else ret (-1, None).

#[export] Instance toy_destroys : Destroys unit unit := {| destroy_of := fun _ => None |}.

#[export] Instance toy_backends : Backends unit unit := {|
  vops := fun _ => VnodeOps (vfs unit unit) (Some toy_lookup) None None None None None None
                            None None None None None;
  unmount := fun _ => None;
  mountfn := fun _ _ => ret None
|}.

Definition toy_inv (s : vfs unit unit) : Prop :=
  is_Some (mheap s !! 0%nat) /\
  forall i v, vtab s !! i = Some v ->
    0 <= v_ref v /\ (0 < v_ref v -> forall m, v_mp v = Some m -> is_Some (mheap s !! m)).

Lemma alter_vtab_inv {P X} (s : vfs P X) f i j v' :
  vtab (set_vtab (alter f i (vtab s)) s) !! j = Some v' ->
  exists v, vtab s !! j = Some v /\ v' = if (j =? i)%nat then f v else v.
Proof.
  cbn. destruct (Nat.eqb_spec j i) as [->|Hne].
  - rewrite list_lookup_alter_eq. destruct (vtab s !! i); [|done]. intros [= <-]. eauto.
  - rewrite list_lookup_alter_ne by done. eauto.
Qed.

Lemma alter_twice {A} (f g : A -> A) i (l : list A) :
  alter g i (alter f i l) = alter (fun x => g (f x)) i l.
Proof.
  apply list_eq. intros j. destruct (decide (j = i)) as [->|Hne].
  - rewrite !list_lookup_alter_eq. by destruct (l !! i).
  - by rewrite !list_lookup_alter_ne.
Qed.

(** Changing one entry changes only its count. *)
Lemma vrel_alter {P X} `{Backends P X} (s : vfs P X) f i (k : Z) :
  (forall j v, vtab s !! j = Some v -> 0 <= v_ref v) ->
  (forall v, vtab s !! i = Some v ->
     v_ref (f v) = v_ref v + k /\ 0 <= v_ref (f v) /\ v_lock (f v) = v_lock v /\
     (0 < v_ref v -> 0 < v_ref (f v) -> ident (f v) = ident v)) ->
  vrel (at_ i k) s (set_vtab (alter f i (vtab s)) s).
Proof.
  intros Hr Hf. split; [done|]. intros j. cbn. unfold at_.
  destruct (Nat.eqb_spec j i) as [->|Hne].
  - rewrite list_lookup_alter_eq. destruct (vtab s !! i) as [v|] eqn:E; [|done]. by apply Hf.
  - rewrite list_lookup_alter_ne by done. destruct (vtab s !! j) as [v|] eqn:E; [|done].
    split_and!; eauto; lia.
Qed.

Lemma find_vn_spec {P} (f : vnode P -> bool) l : forall i k,
  find_vn f l i = Some k ->
  exists j v, k = (i + j)%nat /\ l !! j = Some v /\ f v = true /\
    forall j' v', (j' < j)%nat -> l !! j' = Some v' -> f v' = false.
Proof.
  induction l as [|v l IH]; intros i k Hf; cbn in Hf; [done|]. destruct (f v) eqn:E.
  - injection Hf as <-. exists 0%nat, v. split_and!; [lia|done|done|]. intros; lia.
  - destruct (IH _ _ Hf) as (j & v' & -> & Hj & Hv & Hmin).
    exists (S j), v'. split_and!; [lia|done|done|].
    intros [|j'] v'' Hlt Hl; [cbn in Hl; congruence|]. eapply (Hmin j'); [lia|done].
Qed.

Lemma find_vn_none {P} (f : vnode P -> bool) l : forall i,
  find_vn f l i = None -> Forall (fun v => f v = false) l.
Proof.
  induction l as [|v l IH]; intros i Hf; cbn in Hf; [constructor|].
  destruct (f v) eqn:E; [done|]. constructor; eauto.
Qed.

Lemma toy_vrel s i (f : vnode unit -> vnode unit) k :
  toy_inv s ->
  (forall v, vtab s !! i = Some v ->
     v_ref (f v) = v_ref v + k /\ 0 <= v_ref (f v) /\ v_lock (f v) = v_lock v /\
     (0 < v_ref v -> 0 < v_ref (f v) -> ident (f v) = ident v) /\
     (0 < v_ref (f v) -> forall m, v_mp (f v) = Some m -> is_Some (mheap s !! m))) ->
  toy_inv (set_vtab (alter f i (vtab s)) s) /\ vrel (at_ i k) s (set_vtab (alter f i (vtab s)) s).
Proof.
  intros [Hm Ht] Hf. split.
  - split; [done|]. intros j v' (v & E & ->)%alter_vtab_inv.
    destruct (Nat.eqb_spec j i) as [->|]; [|by apply (Ht j)].
    destruct (Hf v E) as (H1 & H2 & H3 & H4 & H5). auto.
  - apply vrel_alter; [intros j v E; apply (Ht j v E)|]. intros v E.
    destruct (Hf v E) as (H1 & H2 & H3 & H4 & H5). auto.
Qed.

Lemma toy_lookup_ok s i v name :
  toy_inv s -> vtab s !! i = Some v -> 0 < v_ref v ->
  exists r o s', toy_lookup i name s = Ok ((r, o), s') /\ toy_inv s' /\
    ((r = 0 /\ exists w, o = Some (Some w) /\ is_Some (vtab s !! w) /\ vrel (at_ w 1) s s') \/
     (r <> 0 /\ vrel nochange s s')).
Proof.
  intros Hi E Hv. pose proof Hi as [Hm Ht]. unfold toy_lookup. destruct (is_dotdot name).
  - destruct (toy_vrel s i (fun v => set_vref (v_ref v + 1) v) 1 Hi) as [Hi' Hr].
    { intros x Hx. rewrite E in Hx. injection Hx as <-. cbn. destruct (Ht i v E) as [_ Hmp].
      split_and!; auto; lia. }
    eexists 0, _, _. split; [unfold vget, bind, getvn; rewrite E; done|]. split; [exact Hi'|].
    left. split; [done|]. exists i. by rewrite E.
  - destruct (strncmp name [97; 0] 15 =? 0).
    + unfold alloc_vnode, gets, bind.
      destruct (find_vn (fun v => v_ref v =? 0) (vtab s) 0) as [w|] eqn:Ef.
      * destruct (find_vn_spec _ _ _ _ Ef) as (j & x & -> & Hj & Hx & _). cbn [Nat.add] in *.
        destruct (toy_vrel s j (fun v => toy_node (fresh_vnode v)) 1 Hi) as [Hi' Hr].
        { intros y Hy. rewrite Hj in Hy. injection Hy as <-. cbn. split_and!; try lia; auto.
          intros _ m [= <-]. done. }
        assert (set_vtab (alter toy_node j (alter fresh_vnode j (vtab s)))
                  (set_vtab (alter fresh_vnode j (vtab s)) s) =
                set_vtab (alter (fun v => toy_node (fresh_vnode v)) j (vtab s)) s) as Es.
        { unfold set_vtab. cbn. f_equal. apply alter_twice. }
        eexists 0, _, _. split; [cbn; rewrite Es; reflexivity|]. split; [exact Hi'|]. left. split; [done|].
        exists j. split; [done|]. by rewrite Hj.
      * eexists (-1), _, s. split; [done|]. split; [done|]. right. split; [done|].
        apply vrel_refl. intros k y Hy. apply (Ht k y Hy).
    + eexists (-1), _, s. split; [done|]. split; [done|]. right. split; [done|].
      apply vrel_refl. intros k y Hy. apply (Ht k y Hy).
Qed.

Lemma toy_vput_ok s i v :
  toy_inv s -> vtab s !! i = Some v -> 0 < v_ref v ->
  exists s', vput i s = Ok (tt, s') /\ toy_inv s' /\ vrel (at_ i (-1)) s s'.
Proof.
  intros Hi E Hv. pose proof Hi as [Hm Ht]. destruct (Ht i v E) as [_ Hmp].
  unfold vput, bind, getvn. rewrite E. assert (v_ref v <? 1 = false) as -> by lia.
  destruct (v_ref v - 1 =? 0) eqn:E1.
  - set (f := fun v : vnode unit => Vnode 0 (v_dev v) (v_major v) (v_minor v) None None 0 (v_lock v)
                            (v_inum v) (v_ikey v) (v_size v) None).
    destruct (toy_vrel s i f (-1) Hi) as [Hi' Hr].
    { intros x Hx. rewrite E in Hx. injection Hx as <-. cbn. split_and!; auto; lia. }
    eexists. split; [|split; [exact Hi'|exact Hr]].
    unfold updvn, modify. by destruct (v_ops v).
  - destruct (toy_vrel s i (set_vref (v_ref v - 1)) (-1) Hi) as [Hi' Hr].
    { intros x Hx. rewrite E in Hx. injection Hx as <-. cbn. split_and!; auto; lia. }
    eexists. split; [done|]. by split.
Qed.

#[export] Instance toy_names : NameOps unit unit.
Proof.
  refine {| vinv := toy_inv |}.
  - intros s i v m [_ Ht] E Hv Em. by apply (proj2 (Ht i v E) Hv).
  - intros s i v Hi E Hv. eapply toy_vrel with (k := 1); [done|]. intros x Hx.
    rewrite E in Hx. injection Hx as <-. cbn. destruct Hi as [_ Ht]. destruct (Ht i v E) as [_ Hmp].
    split_and!; auto; lia.
  - intros s i k [Hm Ht]. split; [done|]. intros j v' (v & E & ->)%alter_vtab_inv.
    destruct (j =? i)%nat; by apply (Ht j v).
  - intros s i v. apply toy_vput_ok.
  - intros s i v f name Hi E Hv Hf. unfold ops_of in Hf.
    destruct (v_ops v) as [o|]; [|done]. injection Hf as <-. by eapply toy_lookup_ok.
Defined.

(** Two mounts: the root (vnode 0), and one (root vnode 2) on vnode 1. *)
Definition toy_vn (r inum dev mp : Z) : vnode unit :=
  Vnode V_DIR dev 0 0 (Some 0%nat) (Some (Z.to_nat mp)) r Sleep.initsleeplock inum 0 0 None.

Definition toy_state : vfs unit unit :=
  Vfs ([toy_vn 1 1 1 0; toy_vn 1 7 1 0; toy_vn 1 2 2 1] ++ replicate 5 zero_vnode)
      {[ 0%nat := Mount true (Some 0%nat) (Some 0%nat) None 1 [47; 0];
         1%nat := Mount true (Some 0%nat) (Some 2%nat) (Some 1%nat) 2 [47; 97; 0] ]}
      [0%nat; 1%nat] [] (Some 0%nat) 4 100 tt.

Lemma toy_state_cases (Q : nat -> vnode unit -> Prop) :
  Q 0%nat (toy_vn 1 1 1 0) -> Q 1%nat (toy_vn 1 7 1 0) -> Q 2%nat (toy_vn 1 2 2 1) ->
  (forall i, Q i zero_vnode) -> forall i v, vtab toy_state !! i = Some v -> Q i v.
Proof.
  intros H0 H1 H2 Hz i v E. do 3 (destruct i as [|i]; [cbn in E; by injection E as <-|]).
  cbn in E. do 5 (destruct i as [|i]; [cbn in E; injection E as <-; apply Hz|]). done.
Qed.

