(* ===== verification/Kern.v ===== *)
(** Kern: the kernel state that the file systems behind the VFS share: the
    block layer and inode table of fs.c, the mounts of FAT32 and ext2, user
    memory and the clock; and how each file system's operations run in it. *)

From S2P Require Import Prelude CString Locks Log Block Umem Fs FatNames Fat32 Ext2 Vfs.

(** A vnode's private data. *)
Inductive priv : Type :=
| PInode (ip : nat)
| PFat (m : nat) (fv : fat32_vnode)
| PExt2 (m : nat) (ev : ext2_vnode_priv).

(** Mount-private data, by mount. *)
Record fat_mnt : Type := FatMnt { fmt_fm : fat32_mount; fmt_lock : Sleep.sleeplock }.
Record ext_mnt : Type := ExtMnt { emt_mp : ext2_mount_priv; emt_sb : list Z; emt_lock : Sleep.sleeplock }.

Record kern (U : Type) : Type := Kern {
  k_fs : fs U;                   (* block layer, superblock, inode table, pid, user memory *)
  k_fat : gmap nat fat_mnt;
  k_ext : gmap nat ext_mnt;
  k_ticks : Z;
  k_junk : list Z                (* what uninitialised kernel memory holds *)
}.
Arguments Kern {U}.
Arguments k_fs {U}.
Arguments k_fat {U}.
Arguments k_ext {U}.
Arguments k_ticks {U}.
Arguments k_junk {U}.

Definition kvfs (U : Type) : Type := vfs priv (kern U).

Section Lenses.
  Context {U : Type}.

Definition set_fs (f : fs U) (k : kern U) : kern U :=
  Kern f (k_fat k) (k_ext k) (k_ticks k) (k_junk k).
Definition set_kfat (h : gmap nat fat_mnt) (k : kern U) : kern U :=
  Kern (k_fs k) h (k_ext k) (k_ticks k) (k_junk k).
Definition set_kext (h : gmap nat ext_mnt) (k : kern U) : kern U :=
  Kern (k_fs k) (k_fat k) h (k_ticks k) (k_junk k).

(** An operation of fs.c. *)
Definition onfs {A} (m : M (fs U) A) : M (kvfs U) A :=
  zoom (fun s => k_fs (vx s)) (fun f s => set_vx (set_fs f (vx s)) s) m.

(** A block-layer operation. *)
Definition onbuf {A} (m : M bst A) : M (kvfs U) A := onfs (onb m).

(** An operation of fat32.c on the volume of mount [m]. *)
Definition onfat {A} (m : nat) (op : fat32_mount -> M (fat U) A) : M (kvfs U) A :=
  fun s =>
    match k_fat (vx s) !! m with
    | None => Fault FNull
    | Some x =>
        let f := k_fs (vx s) in
        match op (fmt_fm x) (Fat (f_b f) (fmt_lock x) (f_pid f) (f_usr f)) with
        | Fault e => Fault e
        | Ok (a, t) =>
            Ok (a, set_vx (set_kfat (<[m := FatMnt (fmt_fm x) (fa_lock t)]> (k_fat (vx s)))
                             (set_fs (set_usr (fa_usr t) (set_b (fa_b t) f)) (vx s))) s)
        end
    end.

(** An operation of ext2.c on the volume of mount [m]. *)
Definition onext {A} (m : nat) (op : ext2_mount_priv -> M (ext U) A) : M (kvfs U) A :=
  fun s =>
    match k_ext (vx s) !! m with
    | None => Fault FNull
    | Some x =>
        let f := k_fs (vx s) in
        match op (emt_mp x) (Ext (f_b f) (emt_sb x) (emt_lock x) (f_pid f) (f_usr f) (k_ticks (vx s))) with
        | Fault e => Fault e
        | Ok (a, t) =>
            Ok (a, set_vx (set_kext (<[m := ExtMnt (emt_mp x) (x_sb t) (x_lock t)]> (k_ext (vx s)))
                             (set_fs (set_usr (x_usr t) (set_b (x_b t) f)) (vx s))) s)
        end
    end.

(** The inode behind an xv6fs vnode, the fat32_vnode and ext2_vnode_priv
    behind the others. *)
Definition inode_of (vp : nat) : M (kvfs U) nat :=
  v <- getvn vp ;; match v_priv v with Some (PInode ip) => ret ip | _ => fail FNull end.
Definition fat_of (vp : nat) : M (kvfs U) (nat * fat32_vnode) :=
  v <- getvn vp ;; match v_priv v with Some (PFat m fv) => ret (m, fv) | _ => fail FNull end.
Definition ext_of (vp : nat) : M (kvfs U) (nat * ext2_vnode_priv) :=
  v <- getvn vp ;; match v_priv v with Some (PExt2 m ev) => ret (m, ev) | _ => fail FNull end.

Definition set_fv (vp m : nat) (fv : fat32_vnode) : M (kvfs U) unit :=
  updvn vp (set_vpriv (Some (PFat m fv))).
Definition set_ev (vp m : nat) (ev : ext2_vnode_priv) : M (kvfs U) unit :=
  updvn vp (set_vpriv (Some (PExt2 m ev))).

(** [copyout(p->pagetable, ...)] of the current process. *)
Definition kcopyout `{UserMem U} (a : Z) (l : list Z) : M (kvfs U) bool :=
  fun s =>
    let '(ok, u) := copyout (f_usr (k_fs (vx s))) a l in
    Ok (ok, set_vx (set_fs (set_usr u (k_fs (vx s))) (vx s)) s).

(** struct stat as it lies in memory; [pad] is the hole before size. *)
Definition stat_bytes (st : stat) (pad : list Z) : list Z :=
  le_enc 4 (st_dev st) ++ le_enc 4 (st_ino st) ++ le_enc 2 (st_type st) ++
  le_enc 2 (st_nlink st) ++ take 4 (pad ++ replicate 4 0) ++ le_enc 8 (st_size st).

End Lenses.
