(* ===== verification/Xv6fs.v ===== *)
(** Xv6fs: kernel/xv6fs.c, the xv6 file system behind the VFS: each vnode
    holds a reference to an inode of fs.c. *)

From S2P Require Import Prelude CString Locks Log Block Umem Fs Vfs Kern.

Section Xv6fs.
  Context {U : Type} `{UserMem U}.
  Local Abbreviation MK := (M (kvfs U)).

Definition XV6FS : nat := 0.
Definition ROOTINO : Z := 1.

Definition kbegin_op : MK unit := onbuf begin_op.
Definition kend_op : MK unit := onbuf end_op.

Definition xv6fs_destroy (p : option priv) : MK unit :=
  match p with
  | Some (PInode ip) => kbegin_op ;;; onfs (iput ip) ;;; kend_op ;;; kfree_page
  | Some _ => fail FNull
  | None => ret tt
  end.

(** The release of the vnode that was just allocated, which has no
    operations yet. *)
Definition vput_fresh (vp : nat) : MK unit :=
  updvn vp (fun v => Vnode 0 (v_dev v) (v_major v) (v_minor v) None None (v_ref v - 1) (v_lock v)
                           (v_inum v) (v_ikey v) (v_size v) None).

Definition xv6fs_vnode (ip : nat) (i : inode) (dev : Z) (mp : option nat) (v : vnode priv) :
  vnode priv :=
  Vnode (if i_type i =? T_DIR then V_DIR else if i_type i =? T_DEVICE then V_DEV else V_FILE)
        dev (i_major i) (i_minor i) (Some XV6FS) mp (v_ref v) (v_lock v)
        (Fs.i_inum i) (v_ikey v) (i_size i) (Some (PInode ip)).

Definition xv6fs_vnode_from_inode (ip : nat) (dev : Z) (mp : option nat) : MK (option nat) :=
  o <- alloc_vnode ;;
  match o with
  | None => ret None
  | Some vp =>
      ok <- kalloc_page ;;
      if negb ok then vput_fresh vp ;;; ret None
      else i <- onfs (getino ip) ;; updvn vp (xv6fs_vnode ip i dev mp) ;;; ret (Some vp)
  end.

(** A mount structure: the next unused key of the heap. *)
Definition new_mount (mt : mount) : MK nat :=
  fun s => let m := fresh (dom (mheap s)) in Ok (m, set_mheap (<[m := mt]> (mheap s)) s).
Definition free_mount (m : nat) : MK unit :=
  modify (fun s => set_mheap (delete m (mheap s)) s) ;;; kfree_page.
Definition set_root (r : option nat) (mt : mount) : mount :=
  Mount (mt_valid mt) (mt_ops mt) r (mt_mountpoint mt) (mt_dev mt) (mt_path mt).

Definition xv6fs_mount (dev : Z) : MK (option nat) :=
  ok <- kalloc_page ;;
  if negb ok then ret None
  else
    m <- new_mount (Mount false (Some XV6FS) None None dev []) ;;
    ip <- onfs (iget dev ROOTINO) ;;
    onfs (ilock (Some ip)) ;;;
    r <- xv6fs_vnode_from_inode ip dev (Some m) ;;
    updmt m (set_root r) ;;;
    onfs (iunlock (Some ip)) ;;;
    match r with
    | None => free_mount m ;;; ret None
    | Some _ => ret (Some m)
    end.

Definition xv6fs_root (m : nat) : MK nat := mt <- getmt m ;; vget (mt_root mt).

Definition xv6fs_lookup (dir : nat) (name : list Z) : MK (Z * nextvar) :=
  dp <- inode_of dir ;;
  onfs (ilock (Some dp)) ;;;
  i <- onfs (getino dp) ;;
  if negb (i_type i =? T_DIR) then onfs (iunlock (Some dp)) ;;; ret (-1, None)
  else
    o <- onfs (dirlookup dp name) ;;
    onfs (iunlock (Some dp)) ;;;
    match o with
    | None => ret (-1, None)
    | Some (ip, _) =>
        onfs (ilock (Some ip)) ;;;
        d <- getvn dir ;;
        r <- xv6fs_vnode_from_inode ip (v_dev d) (v_mp d) ;;
        onfs (iunlock (Some ip)) ;;;
        ret (match r with None => -1 | Some _ => 0 end, Some r)
    end.

Definition xv6fs_read (vp : nat) (buf n off : Z) : MK Z :=
  ip <- inode_of vp ;;
  onfs (ilock (Some ip)) ;;;
  '(r, _) <- onfs (readi ip (DUser buf) off (u32 n)) ;;
  onfs (iunlock (Some ip)) ;;;
  ret (s32 r).

Definition xv6fs_read_kernel (vp : nat) (n off : Z) : MK (Z * list Z) :=
  ip <- inode_of vp ;;
  onfs (ilock (Some ip)) ;;;
  '(r, l) <- onfs (readi ip DKernel off (u32 n)) ;;
  onfs (iunlock (Some ip)) ;;;
  ret (s32 r, l).

(** [((MAXOPBLOCKS-1-1-2) / 2) * BSIZE] *)
Definition write_max : Z := ((MAXOPBLOCKS - 1 - 1 - 2) / 2) * BSIZE.

(** One transaction of xv6fs_write; the local is i. *)
Definition xv6fs_write_body (ip : nat) (buf n off : Z) (i : Z) : MK (Z + Z) :=
  if negb (i <? n) then ret (inr i)
  else
    let n1 := Z.min (n - i) write_max in
    kbegin_op ;;;
    onfs (ilock (Some ip)) ;;;
    r <- onfs (writei ip (SUser (buf + i)) (u32 (off + i)) n1) ;;
    onfs (iunlock (Some ip)) ;;;
    kend_op ;;;
    let i' := if r >? 0 then i + r else i in
    if r =? n1 then ret (inl i') else ret (inr i').

Definition xv6fs_write (vp : nat) (buf n off : Z) : MK Z :=
  ip <- inode_of vp ;;
  i <- loop (Z.to_nat (n / write_max) + 2) (xv6fs_write_body ip buf n off) 0 ;;
  x <- onfs (getino ip) ;;
  when ((i >? 0) && (u32 (off + i) >? u32 (s32 (i_size x)))) (updvn vp (set_vsize (i_size x))) ;;;
  ret (if i =? n then n else -1).

Definition xv6fs_stat (vp : nat) (addr : Z) : MK Z :=
  ip <- inode_of vp ;;
  onfs (ilock (Some ip)) ;;;
  st <- onfs (stati ip) ;;
  onfs (iunlock (Some ip)) ;;;
  pad <- gets (fun s => k_junk (vx s)) ;;
  ok <- kcopyout addr (stat_bytes st pad) ;;
  ret (if (ok : bool) then 0 else -1).

(** The scan for a used entry; the local is off. *)
Definition readdir_next (ip : nat) (off : Z) : MK (Z + option (list Z * Z)) :=
  '(r, de) <- onfs (readi ip DKernel off 16) ;;
  if negb (r =? 16) then ret (inr None)
  else if de_inum de =? 0 then ret (inl (u32 (off + 16)))
  else ret (inr (Some (de, u32 (off + 16)))).

Definition xv6fs_readdir (vp : nat) (buf off : Z) : MK Z :=
  ip <- inode_of vp ;;
  onfs (ilock (Some ip)) ;;;
  x <- onfs (getino ip) ;;
  if negb (i_type x =? T_DIR) then onfs (iunlock (Some ip)) ;;; ret (-1)
  else
    o <- loop (Z.to_nat (i_size x / 16) + 2) (readdir_next ip) off ;;
    onfs (iunlock (Some ip)) ;;;
    match o with
    | None => ret (-1)
    | Some (de, off') =>
        junk <- gets (fun s => k_junk (vx s)) ;;
        ok <- kcopyout buf (le_enc 2 (de_inum de) ++
                            take 256 (take 14 (de_name de) ++ [0] ++ junk)) ;;
        ret (if (ok : bool) then s32 off' else -1)
    end.

(** [for(off = 2 * sizeof(de); off < dp->size; off += sizeof(de))] *)
Definition empty_slot (dp : nat) (k : Z) : MK (option unit) :=
  '(r, de) <- onfs (readi dp DKernel (16 * k) 16) ;;
  if negb (r =? 16) then panic "isdirempty: readi"
  else if negb (de_inum de =? 0) then ret (Some tt) else ret None.

Definition isdirempty (dp : nat) : MK bool :=
  x <- onfs (getino dp) ;;
  r <- for_upto (dir_slots (i_size x) - 2) 2 (empty_slot dp) ;;
  ret (match r with None => true | Some _ => false end).

Definition set_nlink (n : Z) (x : inode) : inode :=
  set_meta (i_type x) (i_major x) (i_minor x) (s16 n) x.
Definition add_nlink (ip : nat) (k : Z) : MK unit :=
  onfs (updino ip (fun x => set_nlink (i_nlink x + k) x)) ;;; onfs (iupdate ip).

Definition fail_op (dp : nat) (ip : option nat) : MK (Z * nextvar) :=
  onfs (iunlock (Some dp)) ;;;
  match ip with Some i => onfs (iput i) | None => ret tt end ;;;
  kend_op ;;;
  ret (-1, None).

(** "." and ".." of a new directory; on failure the name is taken back. *)
Definition init_dir (dp ip : nat) (name : list Z) : MK bool :=
  onfs (ilock (Some ip)) ;;;
  x <- onfs (getino ip) ;;
  d <- onfs (getino dp) ;;
  r1 <- onfs (dirlink ip [46; 0] (Fs.i_inum x)) ;;
  r2 <- (if r1 <? 0 then ret (-1) else onfs (dirlink ip [46; 46; 0] (Fs.i_inum d))) ;;
  if r2 <? 0
  then
    t <- onfs (dirlookup dp name) ;;
    match t with
    | Some (tmp, off) =>
        if (tmp =? ip)%nat
        then onfs (writei dp (SKernel (replicate 16 0)) off 16) ;;; ret tt
        else ret tt
    | None => ret tt
    end ;;;
    onfs (iunlock (Some ip)) ;;;
    ret false
  else onfs (iunlock (Some ip)) ;;; ret true.

Definition xv6fs_create (dir : nat) (name : list Z) (type : Z) (new : bool) : MK (Z * nextvar) :=
  dp <- inode_of dir ;;
  dv <- getvn dir ;;
  kbegin_op ;;;
  onfs (ilock (Some dp)) ;;;
  d <- onfs (getino dp) ;;
  if negb (i_type d =? T_DIR) then fail_op dp None
  else
    o <- onfs (dirlookup dp name) ;;
    match o with
    | Some (ip, _) => fail_op dp (Some ip)
    | None =>
        io <- onfs (ialloc (v_dev dv) (if type =? V_DIR then T_DIR else T_FILE)) ;;
        match io with
        | None => fail_op dp None
        | Some ip =>
            onfs (ilock (Some ip)) ;;;
            onfs (updino ip (fun x => set_size 0 (set_nlink 1 x))) ;;;
            onfs (iupdate ip) ;;;
            onfs (iunlock (Some ip)) ;;;
            x <- onfs (getino ip) ;;
            r <- onfs (dirlink dp name (Fs.i_inum x)) ;;
            if r <? 0 then fail_op dp (Some ip)
            else
              ok <- (if type =? V_DIR then init_dir dp ip name else ret true) ;;
              if negb ok then fail_op dp (Some ip)
              else
                when (type =? V_DIR) (add_nlink dp 1) ;;;
                onfs (iunlock (Some dp)) ;;;
                kend_op ;;;
                if negb new then ret (0, None)
                else
                  onfs (ilock (Some ip)) ;;;
                  vo <- xv6fs_vnode_from_inode ip (v_dev dv) (v_mp dv) ;;
                  onfs (iunlock (Some ip)) ;;;
                  ret (match vo with None => -1 | Some _ => 0 end, Some vo)
        end
    end.

Definition xv6fs_unlink (dir : nat) (name : list Z) : MK Z :=
  dp <- inode_of dir ;;
  kbegin_op ;;;
  onfs (ilock (Some dp)) ;;;
  d <- onfs (getino dp) ;;
  if negb (i_type d =? T_DIR) then onfs (iunlock (Some dp)) ;;; kend_op ;;; ret (-1)
  else
    o <- onfs (dirlookup dp name) ;;
    match o with
    | None => onfs (iunlock (Some dp)) ;;; kend_op ;;; ret (-1)
    | Some (ip, off) =>
        onfs (ilock (Some ip)) ;;;
        x <- onfs (getino ip) ;;
        if i_nlink x <? 1 then panic "unlink: nlink < 1"
        else
          let isdir := i_type x =? T_DIR in
          e <- (if isdir then isdirempty ip else ret true) ;;
          if negb e
          then
            onfs (iunlock (Some ip)) ;;; onfs (iunlock (Some dp)) ;;; onfs (iput ip) ;;;
            kend_op ;;; ret (-1)
          else
            add_nlink ip (-1) ;;;
            onfs (iunlockput ip) ;;;
            r <- onfs (writei dp (SKernel (replicate 16 0)) off 16) ;;
            if negb (r =? 16) then panic "unlink: writei"
            else
              when isdir (add_nlink dp (-1)) ;;;
              onfs (iunlock (Some dp)) ;;;
              kend_op ;;;
              ret 0
    end.

Definition xv6fs_link (dir : nat) (name : list Z) (old : nat) : MK Z :=
  dp <- inode_of dir ;;
  ip <- inode_of old ;;
  kbegin_op ;;;
  onfs (ilock (Some ip)) ;;;
  x <- onfs (getino ip) ;;
  d <- onfs (getino dp) ;;
  if (i_type x =? T_DIR) || negb (i_dev x =? i_dev d)
  then onfs (iunlock (Some ip)) ;;; kend_op ;;; ret (-1)
  else
    add_nlink ip 1 ;;;
    onfs (iunlock (Some ip)) ;;;
    onfs (ilock (Some dp)) ;;;
    r <- onfs (dirlink dp name (Fs.i_inum x)) ;;
    onfs (iunlock (Some dp)) ;;;
    when (r <? 0)
      (onfs (ilock (Some ip)) ;;; add_nlink ip (-1) ;;; onfs (iunlock (Some ip))) ;;;
    kend_op ;;;
    ret r.

Definition xv6fs_mknod (dir : nat) (name : list Z) (major minor : Z) : MK Z :=
  dp <- inode_of dir ;;
  dv <- getvn dir ;;
  kbegin_op ;;;
  onfs (ilock (Some dp)) ;;;
  d <- onfs (getino dp) ;;
  if negb (i_type d =? T_DIR) then '(r, _) <- fail_op dp None ;; ret r
  else
    o <- onfs (dirlookup dp name) ;;
    match o with
    | Some (ip, _) => '(r, _) <- fail_op dp (Some ip) ;; ret r
    | None =>
        io <- onfs (ialloc (v_dev dv) T_DEVICE) ;;
        match io with
        | None => '(r, _) <- fail_op dp None ;; ret r
        | Some ip =>
            onfs (ilock (Some ip)) ;;;
            onfs (updino ip (fun x => set_meta (i_type x) (s16 major) (s16 minor) 1 x)) ;;;
            onfs (iupdate ip) ;;;
            onfs (iunlock (Some ip)) ;;;
            x <- onfs (getino ip) ;;
            r <- onfs (dirlink dp name (Fs.i_inum x)) ;;
            if r <? 0 then '(r, _) <- fail_op dp (Some ip) ;; ret r
            else onfs (iunlock (Some dp)) ;;; kend_op ;;; ret 0
        end
    end.

Definition xv6fs_truncate (vp : nat) : MK Z :=
  ip <- inode_of vp ;;
  kbegin_op ;;;
  onfs (ilock (Some ip)) ;;;
  onfs (itrunc ip) ;;;
  updvn vp (set_vsize 0) ;;;
  onfs (iunlock (Some ip)) ;;;
  kend_op ;;;
  ret 0.

Context `{Destroys priv (kern U)}.

Definition xv6fs_mkdir (dir : nat) (name : list Z) : MK Z :=
  '(r, o) <- xv6fs_create dir name V_DIR true ;;
  match o with
  | Some (Some n) => if r =? 0 then vput n ;;; ret r else ret r
  | _ => ret r
  end.

Definition xv6fs_vnops : vnode_ops (kvfs U) :=
  VnodeOps (kvfs U) (Some xv6fs_lookup) (Some xv6fs_mknod) (Some xv6fs_read) (Some xv6fs_write)
    (Some xv6fs_stat) (Some xv6fs_readdir) (Some (fun d n t => xv6fs_create d n t true))
    (Some xv6fs_unlink) (Some xv6fs_mkdir) (Some xv6fs_link) (Some xv6fs_read_kernel)
    (Some xv6fs_truncate).

End Xv6fs.
