(* ===== verification/FatVfs.v ===== *)
(** FatVfs: the vnode operations of kernel/fat32.c: the vnodes of FAT32
    entries and the operations that create, find and remove names. *)

From S2P Require Import Prelude CString Locks Log Block Umem Fs FatNames Fat32 Vfs Kern Xv6fs.

Section FatVfs.
  Context {U : Type} `{UserMem U}.
  Local Abbreviation MK := (M (kvfs U)).

Definition FAT32 : nat := 2.

Definition fdestroy (p : option priv) : MK unit :=
  match p with Some _ => kfree_page | None => ret tt end.

(** The vnode of an entry: cluster [c], size [sz], attributes [at_], parent
    directory's first cluster [pdir], offset of the entry in it [deoff]. *)
Definition fat_vnode (m : nat) (dev : Z) (fv : fat32_vnode) (v : vnode priv) : vnode priv :=
  Vnode (if is_dir fv then V_DIR else V_FILE) dev (v_major v) (v_minor v) (Some FAT32) (Some m)
        (v_ref v) (v_lock v) (pdir_clus fv) (dent_off fv) (file_size fv) (Some (PFat m fv)).

Definition fvalloc (m : nat) (c sz at_ pdir deoff : Z) : MK (option nat) :=
  hit <- vfs_iget m pdir deoff ;;
  match hit with
  | Some vp => ret (Some vp)
  | None =>
      o <- alloc_vnode ;;
      match o with
      | None => ret None
      | Some vp =>
          ok <- kalloc_page ;;
          if negb ok then vput_fresh vp ;;; ret None
          else
            dev <- onfat m (fun fm => ret (fm_dev fm)) ;;
            updvn vp (fat_vnode m dev (Fv c sz at_ false pdir deoff)) ;;;
            ret (Some vp)
      end
  end.

Definition flookup (dir : nat) (nm : list Z) : MK (Z * nextvar) :=
  '(m, dv) <- fat_of dir ;;
  rc <- onfat m (fun fm => ret (root_clus fm)) ;;
  if (strncmp nm [46; 0] 14 =? 0) ||
     ((strncmp nm [46; 46; 0] 14 =? 0) && (first_clus dv =? rc))
  then v <- vget (Some dir) ;; ret (0, Some (Some v))
  else
    junk <- gets (fun s => k_junk (vx s)) ;;
    o <- onfat m (fun fm => dlookup fm (take 260 (junk ++ replicate 260 0)) dv nm) ;;
    match o with
    | None => ret (-1, None)
    | Some (de, off, _) =>
        vo <- fvalloc m (DIR_FstClus de) (DIR_FileSize de) (DIR_Attr de) (first_clus dv) off ;;
        ret (match vo with Some _ => 0 | None => -1 end, Some vo)
    end.

Definition fat_read (vp : nat) (buf n off : Z) : MK Z :=
  '(m, fv) <- fat_of vp ;; onfat m (fun fm => fread fm fv buf n off).
Definition fat_read_kernel (vp : nat) (n off : Z) : MK (Z * list Z) :=
  '(m, fv) <- fat_of vp ;; onfat m (fun fm => fread_kernel fm fv n off).

Definition fat_write (vp : nat) (buf n off : Z) : MK Z :=
  '(m, fv) <- fat_of vp ;;
  '(r, fv', grew) <- onfat m (fun fm => fwrite fm fv buf n off) ;;
  set_fv vp m fv' ;;;
  when grew (updvn vp (set_vsize (file_size fv'))) ;;;
  ret r.

Definition fstat (vp : nat) (addr : Z) : MK Z :=
  '(m, fv) <- fat_of vp ;;
  v <- getvn vp ;;
  pad <- gets (fun s => k_junk (vx s)) ;;
  ok <- kcopyout addr (stat_bytes (Stat (v_dev v) (first_clus fv)
                                       (if is_dir fv then T_DIR else T_FILE) 1 (file_size fv)) pad) ;;
  ret (if (ok : bool) then 0 else -1).

Definition fat_readdir (vp : nat) (buf off : Z) : MK Z :=
  '(m, fv) <- fat_of vp ;;
  junk <- gets (fun s => k_junk (vx s)) ;;
  onfat m (fun fm => freaddir fm (take 260 (junk ++ replicate 260 0)) junk fv buf off).

Definition fat_unlink (dir : nat) (nm : list Z) : MK Z :=
  '(m, dv) <- fat_of dir ;;
  junk <- gets (fun s => k_junk (vx s)) ;;
  onfat m (fun fm => funlink fm (take 260 (junk ++ replicate 260 0)) dv nm).

Definition fat_truncate (vp : nat) : MK Z :=
  '(m, fv) <- fat_of vp ;;
  fv' <- onfat m (fun fm => ftrunc fm fv) ;;
  set_fv vp m fv' ;;;
  updvn vp (set_vsize 0) ;;;
  ret 0.

(** The short name of a new entry: the 8.3 form, or the first generated name
    that is not in the directory (the last one tried when all are). *)
Definition pick_short (m : nat) (dv : fat32_vnode) (nm : list Z) (lfn_cnt : Z) : MK (list Z) :=
  if lfn_cnt =? 0 then ret (name83 nm)
  else
    r <- for_upto 99 1 (fun tail =>
           e <- onfat m (fun fm => shortname_exists fm dv (gen_short_name nm tail)) ;;
           ret (if (e : bool) then None else Some (gen_short_name nm tail))) ;;
    ret (default (gen_short_name nm 99) r).

(** The first sector of a new directory: "." and "..". *)
Definition dot_entry (n : list Z) (c : Z) : list Z :=
  set_clus c (n ++ replicate (11 - length n) 32 ++ [ATTR_DIRECTORY] ++ replicate 20 0).
Definition dot_sector (c parent : Z) : list Z :=
  dot_entry [46] c ++ dot_entry [46; 46] parent ++ replicate 448 0.

Definition init_fat_dir (m : nat) (c parent : Z) : MK unit :=
  onfat m (fun fm =>
    let n := if sec_per_clus fm =? 0 then 1 else sec_per_clus fm in
    for_each (seqZ 0 n)
      (fun s => if s =? 0 then swrite fm (clus_to_sec fm c) 0 (dot_sector c parent)
                else swrite fm (u32 (clus_to_sec fm c + s)) 0 (replicate 512 0)) ;;;
    write_fat fm c FAT32_EOC).

Context `{Destroys priv (kern U)}.

Definition fcreate (dir : nat) (nm : list Z) (type : Z) (new : bool) : MK (Z * nextvar) :=
  '(m, dv) <- fat_of dir ;;
  d <- getvn dir ;;
  if negb (v_type d =? V_DIR) then ret (-1, None)
  else
    junk <- gets (fun s => k_junk (vx s)) ;;
    ex <- onfat m (fun fm => dlookup fm (take 260 (junk ++ replicate 260 0)) dv nm) ;;
    match ex with
    | Some _ => ret (-1, None)
    | None =>
        c <- (if type =? V_DIR then onfat m (fun fm => alloc_clus fm) else ret 0) ;;
        if (type =? V_DIR) && (c =? 0) then ret (-1, None)
        else
          let undo := when (negb (c =? 0)) (onfat m (fun fm => free_chain fm c)) in
          let lfn_cnt := if fits_83 nm then 0 else lfn_entries_needed (strlen nm) in
          '(offo, dv') <- onfat m (fun fm => dfree fm dv lfn_cnt) ;;
          set_fv dir m dv' ;;;
          match offo with
          | None => undo ;;; ret (-1, None)
          | Some off =>
              sn <- pick_short m dv' nm lfn_cnt ;;
              let at_ := if type =? V_DIR then ATTR_DIRECTORY else ATTR_ARCHIVE in
              let de := set_clus c (sn ++ [at_] ++ replicate 20 0) in
              vo <- (if new
                     then o <- fvalloc m c 0 at_ (first_clus dv') (u32 (off + lfn_cnt * 32)) ;;
                          ret (Some o)
                     else ret None) ;;
              match vo with
              | Some None => undo ;;; ret (-1, None)
              | _ =>
                  r <- onfat m (fun fm => dwrite_lfn fm dv' off lfn_cnt nm de) ;;
                  if r <? 0
                  then
                    match vo with Some (Some vn) => vput vn | _ => ret tt end ;;;
                    undo ;;;
                    ret (-1, if new then Some None else None)
                  else
                    when (type =? V_DIR) (init_fat_dir m c (first_clus dv')) ;;;
                    ret (0, vo)
              end
          end
    end.

Definition fmkdir (dir : nat) (nm : list Z) : MK Z :=
  '(r, o) <- fcreate dir nm V_DIR true ;;
  match o with
  | Some (Some n) => if r =? 0 then vput n ;;; ret r else ret r
  | _ => ret r
  end.

Definition froot (m : nat) : MK nat := mt <- getmt m ;; vget (mt_root mt).

Definition fumount (m : nat) : MK unit :=
  mt <- getmt m ;;
  has <- gets (fun s => bool_decide (is_Some (k_fat (vx s) !! m))) ;;
  when has
    (match mt_root mt with Some r => vput r | None => fail FNull end ;;;
     modify (fun s => set_vx (set_kfat (delete m (k_fat (vx s))) (vx s)) s) ;;;
     kfree_page) ;;;
  updmt m (fun mt => Mount (mt_valid mt) None None (mt_mountpoint mt) (mt_dev mt) (mt_path mt)).

(** The geometry in the boot sector, or [None] when it is not a FAT32 volume. *)
Definition read_bpb (dev : Z) (bp : block) : option fat32_mount :=
  let bps := rd16 bp 11 in
  let fatsz := rd32 bp 36 in
  if negb (bps =? 512) || (fatsz =? 0) then None
  else if negb (getz bp 510 =? 85) || negb (getz bp 511 =? 170) then None
  else
    let spc := getz bp 13 in
    let rsvd := rd16 bp 14 in
    let nf := getz bp 16 in
    let ts := if rd16 bp 19 =? 0 then rd32 bp 32 else rd16 bp 19 in
    let ds := u32 (ts - rsvd - u32 (nf * fatsz)) in
    Some (Fm dev spc rsvd nf fatsz (u32 (rsvd + u32 (nf * fatsz))) (rd32 bp 44) (ds / spc)
             bps (BSIZE / bps)).

Definition fat32_mount_fn (dev : Z) : MK (option nat) :=
  bp <- onbuf (bread dev 0) ;;
  match read_bpb dev bp with
  | None => ret None
  | Some fm =>
      ok <- kalloc_page ;;
      if negb ok then ret None
      else
        ok <- kalloc_page ;;
        if negb ok then kfree_page ;;; ret None
        else
          m <- new_mount (Mount false (Some FAT32) None None dev []) ;;
          modify (fun s => set_vx (set_kfat (<[m := FatMnt fm Sleep.initsleeplock]> (k_fat (vx s)))
                                    (vx s)) s) ;;;
          r <- fvalloc m (root_clus fm) 0 ATTR_DIRECTORY 0 0 ;;
          match r with
          | None =>
              modify (fun s => set_vx (set_kfat (delete m (k_fat (vx s))) (vx s)) s) ;;;
              kfree_page ;;;
              free_mount m ;;;
              ret None
          | Some _ => updmt m (set_root r) ;;; ret (Some m)
          end
  end.

Definition fat32_vnops : vnode_ops (kvfs U) :=
  VnodeOps (kvfs U) (Some flookup) None (Some fat_read) (Some fat_write) (Some fstat)
    (Some fat_readdir) (Some (fun d n t => fcreate d n t true)) (Some fat_unlink) (Some fmkdir)
    None (Some fat_read_kernel) (Some fat_truncate).

End FatVfs.
