(* ===== verification/FatVnodes.v ===== *)
(** FatVnodes: the vnode table as a cache of FAT32 entries.  An entry is
    identified by its mount, its directory's first cluster (inum) and its
    offset there (ikey); fvalloc keeps at most one live vnode for each. *)

From S2P Require Import Prelude CString Locks Log Block Umem Fs FatNames Fat32 Vfs VfsPath Kern Xv6fs FatVfs.

Section Vnodes.
  Context {U : Type} `{UserMem U}.
  Implicit Types s : kvfs U.

Definition entry_id (v : vnode priv) : option nat * Z * Z := (v_mp v, v_inum v, v_ikey v).

(** No two live vnodes of mounted file systems have the same identity. *)
Definition canonical (s : kvfs U) : Prop :=
  forall i j v w, vtab s !! i = Some v -> vtab s !! j = Some w -> 0 < v_ref v -> 0 < v_ref w ->
    is_Some (v_mp v) -> entry_id v = entry_id w -> i = j.

(** The slot [i] is the only one that differs. *)
Definition only_slot (i : nat) (v : vnode priv) (s s' : kvfs U) : Prop :=
  vtab s' = <[i := v]> (vtab s).

Lemma same_id_entry m inum ikey v :
  same_id m inum ikey v = true <-> 0 < v_ref v /\ entry_id v = (Some m, inum, ikey).
Proof.
  unfold same_id, entry_id. rewrite !andb_true_iff, bool_decide_eq_true, !Z.eqb_eq, Z.gtb_lt.
  split; [intros [[[? ->] ->] ->]; done|]. by intros [? [= -> -> ->]].
Qed.

Lemma alter_slot (f : vnode priv -> vnode priv) (i : nat) (l : list (vnode priv)) v :
  l !! i = Some v -> alter f i l = <[i := f v]> l.
Proof.
  intros Hv. apply list_eq. intros j. destruct (decide (i = j)) as [<-|Hne].
  - rewrite list_lookup_alter_eq, Hv. cbn. rewrite list_lookup_insert_eq; [done|].
    by eapply lookup_lt_Some.
  - by rewrite list_lookup_alter_ne, list_lookup_insert_ne.
Qed.

(** A vnode whose identity is in use nowhere else may be put in a slot. *)
Lemma canonical_insert s s' i v :
  canonical s -> only_slot i v s s' ->
  (0 < v_ref v -> is_Some (v_mp v) -> forall j w, j <> i -> vtab s !! j = Some w -> 0 < v_ref w ->
     entry_id w <> entry_id v) ->
  canonical s'.
Proof.
  intros Hc Hs Hi a b x y Ha Hb Hx Hy Hm He. rewrite Hs in Ha, Hb.
  destruct (decide (a = i)) as [->|Hai], (decide (b = i)) as [->|Hbi]; [done|..].
  - apply list_lookup_insert_Some in Ha as [(_ & <- & _)|[]]; [|done].
    rewrite list_lookup_insert_ne in Hb by done. exfalso. eapply (Hi Hx Hm b); eauto.
  - apply list_lookup_insert_Some in Hb as [(_ & <- & _)|[]]; [|done].
    rewrite list_lookup_insert_ne in Ha by done. exfalso. apply (Hi Hy) with a x; auto.
    unfold entry_id in He. injection He as <- _ _. done.
  - rewrite list_lookup_insert_ne in Ha, Hb by done. by apply (Hc a b x y).
Qed.

(** Results of fvalloc: a vnode already there, a new one, or none. *)
Lemma fvalloc_run s m x c sz at_ pdir deoff :
  k_fat (vx s) !! m = Some x ->
  (exists i v s', vtab s !! i = Some v /\ 0 < v_ref v /\ entry_id v = (Some m, pdir, deoff) /\
     fvalloc m c sz at_ pdir deoff s = Ok (Some i, s') /\
     only_slot i (set_vref (v_ref v + 1) v) s s' /\ pages s' = pages s /\ vx s' = vx s) \/
  ((forall i v, vtab s !! i = Some v -> 0 < v_ref v -> entry_id v <> (Some m, pdir, deoff)) /\
   ((exists i v s', vtab s !! i = Some v /\ v_ref v = 0 /\ 0 < pages s /\
       fvalloc m c sz at_ pdir deoff s = Ok (Some i, s') /\ pages s' = pages s - 1 /\
       only_slot i (fat_vnode m (fm_dev (fmt_fm x)) (Fv c sz at_ false pdir deoff) (fresh_vnode v)) s s') \/
    (exists s', fvalloc m c sz at_ pdir deoff s = Ok (None, s') /\
       ((vtab s' = vtab s /\ forall i v, vtab s !! i = Some v -> v_ref v <> 0) \/
        (pages s <= 0 /\ exists i v v', vtab s !! i = Some v /\ v_ref v = 0 /\ v_ref v' = 0 /\
           only_slot i v' s s'))))).
Proof.
  intros Hm. remember (fvalloc m c sz at_ pdir deoff s) as R eqn:ER.
  unfold fvalloc, vfs_iget in ER. rewrite bind_assoc in ER.
  rewrite (bind_ok _ _ s (vtab s) s) in ER by done.
  destruct (find_vn (same_id m pdir deoff) (vtab s) 0) as [i|] eqn:Ef.
  { left. apply find_vn_spec in Ef as (i' & v & -> & Hv & Hid & _).
    apply same_id_entry in Hid as [Hr Hid]. cbn [Nat.add] in ER.
    eexists i', v, _. split_and!; [done..|exact ER| |done|done].
    unfold only_slot. cbn. by rewrite (alter_slot _ _ _ v). }
  right. split.
  { intros i v Hv Hr Hid. apply find_vn_none in Ef. rewrite Forall_lookup in Ef.
    specialize (Ef i v Hv). assert (same_id m pdir deoff v = true) by (by apply same_id_entry). congruence. }
  cbn beta in ER. rewrite ret_bind in ER. unfold alloc_vnode in ER.
  rewrite bind_assoc, (bind_ok _ _ s (vtab s) s) in ER by done. cbn beta in ER.
  destruct (find_vn (fun v => v_ref v =? 0) (vtab s) 0) as [i|] eqn:Ef0.
  - apply find_vn_spec in Ef0 as (i' & v & -> & Hv & Hr & _). cbn [Nat.add] in ER.
    set (s1 := set_vtab (<[i' := fresh_vnode v]> (vtab s)) s).
    assert ((updvn i' fresh_vnode ;;; ret (Some i')) s = Ok (Some i', s1)) as E1.
    { unfold updvn, modify, bind, ret. by rewrite (alter_slot _ _ _ v). }
    rewrite (bind_ok _ _ _ _ _ E1) in ER.
    assert (vtab s1 !! i' = Some (fresh_vnode v)) as Hv1.
    { cbn. apply list_lookup_insert_eq. by eapply lookup_lt_Some. }
    unfold kalloc_page, bind at 1 in ER. change (pages s1) with (pages s) in ER.
    destruct (pages s <=? 0) eqn:Ep; cbn [negb] in ER.
    + right. eexists. split; [exact ER|]. right. split; [lia|].
      eexists i', v, _. split_and!; [done|lia| |].
      2: { unfold only_slot. cbn. rewrite (alter_slot _ _ _ (fresh_vnode v)) by done.
           apply list_insert_insert_eq. }
      reflexivity.
    + left. exists i', v. set (s2 := set_pages _ s1) in ER.
      assert (onfat m (fun fm => ret (fm_dev fm)) s2 = Ok (fm_dev (fmt_fm x), s2)) as E2.
      { unfold onfat. change (k_fat (vx s2)) with (k_fat (vx s)). rewrite Hm. cbn [ret].
        do 2 f_equal. unfold s2, s1, set_vx, set_kfat, set_fs, set_pages, set_vtab. cbn.
        rewrite insert_id by (by destruct x). destruct s as [? ? ? ? ? ? ? []]. cbn.
        unfold set_usr, set_b. cbn. by destruct k_fs. }
      rewrite (bind_ok _ _ _ _ _ E2) in ER.
      eexists. split_and!; [done|lia|lia|exact ER|done|].
      unfold only_slot. cbn. rewrite (alter_slot _ _ _ (fresh_vnode v)) by done.
      apply list_insert_insert_eq.
  - right. exists s. split; [exact ER|]. left. split; [done|].
    intros i v Hv. apply find_vn_none in Ef0. rewrite Forall_lookup in Ef0. specialize (Ef0 i v Hv). cbn in Ef0. lia.
Qed.

(** Fvalloc keeps the vnode table canonical.  It always returns; when a live
    vnode of the entry exists it returns that one with one more reference and
    changes nothing else; otherwise it returns a new vnode of the entry with one
    reference, or null when the table is full or memory is out.  No live vnode
    other than the one returned changes, and afterwards there is again at most
    one live vnode for each entry. *)
Theorem fvalloc_canonical s m x c sz at_ pdir deoff (Hm : k_fat (vx s) !! m = Some x)
    (Hc : canonical s) :
  exists o s', fvalloc m c sz at_ pdir deoff s = Ok (o, s') /\ canonical s' /\
    (forall i v, vtab s !! i = Some v -> 0 < v_ref v -> entry_id v = (Some m, pdir, deoff) ->
       o = Some i /\ vtab s' = <[i := set_vref (v_ref v + 1) v]> (vtab s)) /\
    (forall i, o = Some i -> exists v, vtab s' !! i = Some v /\ 0 < v_ref v /\
       entry_id v = (Some m, pdir, deoff)) /\
    (o = None -> pages s <= 0 \/ forall i v, vtab s !! i = Some v -> v_ref v <> 0) /\
    (forall j v, vtab s !! j = Some v -> 0 < v_ref v -> o <> Some j -> vtab s' !! j = Some v).
Proof.
  destruct (fvalloc_run s m x c sz at_ pdir deoff Hm)
    as [(i & v & s' & Hv & Hr & Hid & E & Hs & _)|[Hno Hcase]].
  - exists (Some i), s'. assert (i < length (vtab s))%nat by (by eapply lookup_lt_Some).
    split_and!; [done|..].
    + eapply canonical_insert; [done|exact Hs|]. intros _ Hmp j w Hj Hw Hrw He. apply Hj.
      apply (Hc j i w v); auto. unfold entry_id in He. injection He as -> _ _. done.
    + intros j w Hw Hrw Hidw. assert (j = i) as ->.
      { apply (Hc j i w v); auto; [|by rewrite Hidw]. unfold entry_id in Hidw.
        injection Hidw as -> _ _. done. }
      rewrite Hv in Hw. injection Hw as <-. done.
    + intros j [= <-]. eexists. rewrite Hs. split; [by apply list_lookup_insert_eq|].
      split; [cbn; lia|done].
    + done.
    + intros j w Hw Hrw Hne. rewrite Hs. rewrite list_lookup_insert_ne by congruence. done.
  - destruct Hcase as [(i & v & s' & Hv & Hr & Hp & E & Hpg & Hs)|(s' & E & Hcase)].
    + exists (Some i), s'. assert (i < length (vtab s))%nat by (by eapply lookup_lt_Some).
      split_and!; [done|..].
      * eapply canonical_insert; [done|exact Hs|]. intros _ _ j w Hj Hw Hrw He.
        by apply (Hno j w Hw Hrw).
      * intros j w Hw Hrw Hidw. by destruct (Hno j w Hw Hrw).
      * intros j [= <-]. eexists. rewrite Hs. split; [by apply list_lookup_insert_eq|].
        split; [cbn; lia|done].
      * done.
      * intros j w Hw Hrw Hne. rewrite Hs. by rewrite list_lookup_insert_ne by congruence.
    + exists None, s'. destruct Hcase as [[Ht Hfull]|(Hp & i & v & v' & Hv & Hr & Hr' & Hs)].
      * split_and!; [done|..].
        -- unfold canonical. by rewrite Ht.
        -- intros j w Hw Hrw Hidw. by destruct (Hno j w Hw Hrw).
        -- done.
        -- by right.
        -- intros j w Hw _ _. by rewrite Ht.
      * split_and!; [done|..].
        -- eapply canonical_insert; [done|exact Hs|]. lia.
        -- intros j w Hw Hrw Hidw. by destruct (Hno j w Hw Hrw).
        -- done.
        -- by left.
        -- intros j w Hw Hrw _. rewrite Hs. rewrite list_lookup_insert_ne; [done|]. intros ->.
           rewrite Hv in Hw. injection Hw as <-. lia.
Qed.

(** What vfs_lookup_mount compares is the device and inum; for FAT32 that is
    the directory an entry is in, so a file system mounted on one entry is also
    found at every other entry of the same directory. *)
Lemma mount_captures_siblings `{!Backends priv (kern U)} s m0 m1 mt i v j w :
  mtab s = [m0; m1] -> mheap s !! m1 = Some mt -> mt_mountpoint mt = Some i ->
  vtab s !! i = Some v -> vtab s !! j = Some w ->
  v_dev v = v_dev w -> v_inum v = v_inum w ->
  vfs_lookup_mount j s = Ok (Some m1, s).
Proof.
  intros Ht Hm Hp Hv Hw Hd Hi. unfold vfs_lookup_mount, getvn, bind, gets. rewrite Hw, Ht. cbn [tl find_mount].
  unfold getmt, getvn, bind. rewrite Hm, Hp, Hv. unfold same_obj. rewrite Hd, Hi, !Z.eqb_refl. done.
Qed.

Lemma fat_siblings_same_obj m dev a b v w :
  pdir_clus a = pdir_clus b -> same_obj (fat_vnode m dev a v) (fat_vnode m dev b w) = true.
Proof. intros E. unfold same_obj. cbn. by rewrite E, !Z.eqb_refl. Qed.

End Vnodes.

(** A table with the vnode of the entry at offset 64 of the directory at
    cluster 2 of mount 1. *)
Definition wit_kvfs : kvfs flat :=
  Vfs [fat_vnode 1 3 (Fv 5 700 32 false 2 64) (set_vref 1 zero_vnode); zero_vnode; zero_vnode]
    ∅ [] [] None 4 10
    (Kern (Fs (Bst (fun _ _ => zero_block) [] 0) (Superblock FSMAGIC 100 65 16 30 2 32 34) [] 4
             (Flat (fun _ => 0) 4096))
          {[1%nat := FatMnt (Fm 3 1 1 2 2 5 2 100 512 2) Sleep.initsleeplock]} ∅ 0 []).

Lemma fvalloc_canonical_witness :
  (exists s', fvalloc 1 5 700 32 2 64 wit_kvfs = Ok (Some 0%nat, s') /\ canonical s') /\
  (exists i s', fvalloc 1 0 0 32 2 96 wit_kvfs = Ok (Some i, s') /\ canonical s' /\
     vtab s' !! 0%nat = vtab wit_kvfs !! 0%nat).
Proof.
  assert (canonical wit_kvfs) as Hc.
  { intros [|[|[|i]]] [|[|[|j]]] v w Hv Hw Hr1 Hr2 _ _; try done; cbn in Hv, Hw;
      injection Hv as <-; injection Hw as <-; cbn in *; lia. }
  split.
  - destruct (fvalloc_canonical wit_kvfs 1 _ 5 700 32 2 64 eq_refl Hc) as (o & s' & E & C & H1 & _).
    destruct (H1 0%nat _ eq_refl) as [-> _]; [done|done|]. eauto.
  - destruct (fvalloc_canonical wit_kvfs 1 _ 0 0 32 2 96 eq_refl Hc) as (o & s' & E & C & _ & H2 & H3 & H4).
    destruct o as [i|].
    + exists i, s'. split_and!; [done|done|]. apply H4; [done|done|]. intros [= ->].
      destruct (H2 0%nat eq_refl) as (v & Hv & _ & Hid).
      assert (match fvalloc 1 0 0 32 2 96 wit_kvfs with
              | Ok (o, _) => o | Fault _ => None end = Some 1%nat) as E1 by (vm_compute; reflexivity).
      by rewrite E in E1.
    + destruct (H3 eq_refl) as [Hp|Hf]; [by cbn in Hp|]. by destruct (Hf 1%nat _ eq_refl).
Defined.
