(* ===== verification/ExtVfs.v ===== *)
(** ExtVfs: the vnode operations of kernel/ext2.c.  Private data lives in the
    vnode table and is read and stored there at each step, because two of the
    vnodes an operation handles can be the same one. *)

From S2P Require Import Prelude CString Locks Log Block Umem Fs Ext2 Vfs Kern Xv6fs.

Section ExtVfs.
  Context {U : Type} `{UserMem U}.
  Local Abbreviation MK := (M (kvfs U)).

Definition EXT2 : nat := 1.

Definition mod_ev (vp : nat) (f : ext2_vnode_priv -> ext2_vnode_priv) : MK unit :=
  '(m, ev) <- ext_of vp ;; set_ev vp m (f ev).

(** An operation on a vnode's private data that gives it back changed. *)
Definition run_ev {A} (vp : nat)
    (op : ext2_mount_priv -> ext2_vnode_priv -> M (ext U) (A * ext2_vnode_priv)) : MK A :=
  '(m, ev) <- ext_of vp ;;
  '(a, ev') <- onext m (fun mp => op mp ev) ;;
  set_ev vp m ev' ;;;
  ret a.

Definition time_vn (vp : nat) (access mod_ : bool) : MK unit :=
  run_ev vp (fun _ ev => e <- ext2_update_time ev access mod_ ;; ret (tt, e)).
Definition writeback_vn (vp : nat) : MK unit :=
  run_ev vp (fun mp ev => e <- ext2_writeback mp ev ;; ret (tt, e)).
Definition dir_add_vn (vp : nat) (name : list Z) (inum ftype : Z) : MK Z :=
  run_ev vp (fun mp ev => ext2_dir_add mp ev name inum ftype).

Definition ext2_destroy (p : option priv) : MK unit :=
  match p with
  | None => ret tt
  | Some (PExt2 m ev) =>
      (if ev_orphaned ev
       then onext m (fun mp => ext2_i_truncate mp ev ;;; ext2_ifree mp (ev_inum ev))
       else when (ev_dirty ev) (onext m (fun mp => write_inode mp (ev_inum ev) (ev_ino ev)))) ;;;
      kfree_page
  | Some _ => fail FNull
  end.

(** The type of a vnode and, for a device, its numbers, from the inode. *)
Definition ext_type (ino : list Z) : Z :=
  let mode := Z.land (i_mode ino) 61440 in
  if mode =? 16384 then V_DIR
  else if (mode =? 8192) || (mode =? 24576) then V_DEV
  else V_FILE.

Definition ext_vnode (m : nat) (dev inum : Z) (ino : list Z) (v : vnode priv) : vnode priv :=
  let isdev := ext_type ino =? V_DEV in
  Vnode (ext_type ino) dev
        (if isdev then Z.land (Z.shiftr (i_block ino 0) 8) 255 else 0)
        (if isdev then Z.land (i_block ino 0) 255 else 0)
        (Some EXT2) (Some m) (v_ref v) (v_lock v) inum 0 (i_size ino)
        (Some (PExt2 m (Ev ino inum false false))).

Definition ext2_vnode_alloc (m : nat) (inum : Z) (ino : list Z) : MK (option nat) :=
  o <- alloc_vnode ;;
  match o with
  | None => ret None
  | Some vp =>
      ok <- kalloc_page ;;
      if negb ok then vput_fresh vp ;;; ret None
      else
        dev <- onext m (fun mp => ret (em_dev mp)) ;;
        updvn vp (ext_vnode m dev inum ino) ;;;
        ret (Some vp)
  end.

Definition ext2_iget (m : nat) (inum : Z) : MK (option nat) :=
  hit <- vfs_iget m inum 0 ;;
  match hit with
  | Some vp => ret (Some vp)
  | None => ino <- onext m (fun mp => read_inode mp inum) ;; ext2_vnode_alloc m inum ino
  end.

Definition dir_lookup_vn (dir : nat) (name : list Z) : MK (Z * nextvar) :=
  '(m, ev) <- ext_of dir ;;
  o <- onext m (fun mp => ext2_dir_lookup mp ev name) ;;
  match o with
  | None => ret (-1, None)
  | Some inum => vo <- ext2_iget m inum ;; ret (match vo with Some _ => 0 | None => -1 end, Some vo)
  end.

Definition ext2_lookup (dir : nat) (name : list Z) : MK (Z * nextvar) :=
  time_vn dir true false ;;; dir_lookup_vn dir name.

Definition ext_read (vp : nat) (buf n off : Z) : MK Z :=
  run_ev vp (fun mp ev => ext2_read mp ev buf n off).
Definition ext_read_kernel (vp : nat) (n off : Z) : MK (Z * list Z) :=
  run_ev vp (fun mp ev => '(r, l, e) <- ext2_read_kernel mp ev n off ;; ret ((r, l), e)).

Definition ext_write (vp : nat) (buf n off : Z) : MK Z :=
  '(r, sz) <- run_ev vp (fun mp ev => '(r, e, sz) <- ext2_write mp ev buf n off ;; ret ((r, sz), e)) ;;
  match sz with Some k => updvn vp (set_vsize k) | None => ret tt end ;;;
  ret r.

Definition ext2_stat (vp : nat) (addr : Z) : MK Z :=
  '(m, ev) <- ext_of vp ;;
  v <- getvn vp ;;
  pad <- gets (fun s => k_junk (vx s)) ;;
  let ty := if v_type v =? V_DIR then T_DIR else if v_type v =? V_DEV then T_DEVICE else T_FILE in
  ok <- kcopyout addr (stat_bytes (Stat (v_dev v) (ev_inum ev) ty (i_links_count (ev_ino ev))
                                       (i_size (ev_ino ev))) pad) ;;
  ret (if (ok : bool) then 0 else -1).

Definition ext_readdir (vp : nat) (buf off : Z) : MK Z :=
  '(m, ev) <- ext_of vp ;;
  junk <- gets (fun s => k_junk (vx s)) ;;
  onext m (fun mp => ext2_readdir mp junk ev buf off).

Definition ext_truncate (vp : nat) : MK Z :=
  run_ev vp (fun mp ev => e <- ext2_truncate mp ev ;; ret (tt, e)) ;;;
  updvn vp (set_vsize 0) ;;;
  ret 0.

(** The search of ext2_unlink: no check for an empty name or record. *)
Definition unlink_body (name : list Z) (blk : Z) (bp : block) (boff _ : Z) :
  M (ext U) (Z + Z * block * Z) :=
  if negb (d_inode bp boff =? 0) && name_matches bp boff name
  then ret (inr (blk, bp, boff))
  else ret (inl (d_rec_len bp boff)).

Context `{Destroys priv (kern U)}.

(** [Some empty] for a directory that could be read. *)
Definition check_empty (m : nat) (inum : Z) : MK (option bool) :=
  vo <- ext2_iget m inum ;;
  match vo with
  | None => ret None
  | Some vdir =>
      '(_, vdp) <- ext_of vdir ;;
      e <- onext m (fun mp => ext2_dir_empty mp vdp) ;;
      vput vdir ;;;
      ret (Some e)
  end.

(** What follows the clearing of the entry: the inode's link count. *)
Definition drop_link (m : nat) (inum : Z) (ino : list Z) : MK unit :=
  if i_links_count ino =? 0
  then
    vo <- ext2_iget m inum ;;
    match vo with
    | None => ret tt
    | Some victim =>
        mod_ev victim (fun e => Ev (ev_ino e) (ev_inum e) (ev_dirty e) true) ;;;
        onext m (fun mp => write_inode mp inum ino) ;;;
        vput victim
    end
  else
    t <- gets (fun s => k_ticks (vx s)) ;;
    onext m (fun mp => write_inode mp inum (set_i_ctime t ino)).

Definition ext2_unlink (dir : nat) (name : list Z) : MK Z :=
  time_vn dir false true ;;;
  '(m, dp) <- ext_of dir ;;
  r <- onext m (fun mp => scan_dir mp dp (unlink_body name)) ;;
  match r with
  | inl _ => ret (-1)
  | inr None => ret (-1)
  | inr (Some (blk, bp, boff)) =>
      let inum := d_inode bp boff in
      ino <- onext m (fun mp => read_inode mp inum) ;;
      let isdir := Z.land (i_mode ino) 61440 =? 16384 in
      e <- (if isdir then check_empty m inum else ret (Some true)) ;;
      match e with
      | Some true =>
          when isdir
            (mod_ev dir (fun p => set_ev_dirty true
               (set_ino (set_i_links (i_links_count (ev_ino p) - 1) (ev_ino p)) p))) ;;;
          onext m (fun mp => wrb mp blk (wr32 bp boff 0)) ;;;
          let k := if isdir then 2 else 1 in
          drop_link m inum (set_i_links (i_links_count ino - k) ino) ;;;
          writeback_vn dir ;;;
          ret 0
      | _ => ret (-1)
      end
  end.

(** "." and ".." of a new directory. *)
Definition init_ext_dir (m dir : nat) (inum : Z) (name : list Z) : MK bool :=
  vo <- ext2_iget m inum ;;
  match vo with
  | None => ext2_unlink dir name ;;; ret false
  | Some newdir =>
      '(_, dp) <- ext_of dir ;;
      r1 <- dir_add_vn newdir [46; 0] inum EXT2_FT_DIR ;;
      r2 <- (if r1 <? 0 then ret (-1) else dir_add_vn newdir [46; 46; 0] (ev_inum dp) EXT2_FT_DIR) ;;
      if r2 <? 0
      then vput newdir ;;; ext2_unlink dir name ;;; ret false
      else
        mod_ev newdir (fun p => set_ev_dirty true (set_ino (set_i_links 2 (ev_ino p)) p)) ;;;
        vput newdir ;;;
        mod_ev dir (fun p => set_ev_dirty true
                               (set_ino (set_i_links (i_links_count (ev_ino p) + 1) (ev_ino p)) p)) ;;;
        ret true
  end.

Definition ext2_create (dir : nat) (name : list Z) (type : Z) (new : bool) : MK (Z * nextvar) :=
  '(m, _) <- ext_of dir ;;
  time_vn dir false true ;;;
  '(r, ex) <- dir_lookup_vn dir name ;;
  if r =? 0
  then match ex with Some (Some v) => vput v | _ => ret tt end ;;; ret (-1, None)
  else
    inum <- onext m (fun mp => ext2_ialloc mp (if type =? V_DIR then 16384 else 32768)) ;;
    if inum =? 0 then ret (-1, None)
    else
      onext m (fun mp => ino <- read_inode mp inum ;; write_inode mp inum (set_i_links 1 ino)) ;;;
      r <- dir_add_vn dir name inum (if type =? V_DIR then EXT2_FT_DIR else EXT2_FT_REG) ;;
      if r <? 0 then onext m (fun mp => ext2_ifree mp inum) ;;; ret (-1, None)
      else
        ok <- (if type =? V_DIR then init_ext_dir m dir inum name else ret true) ;;
        if negb ok then ret (-1, None)
        else if negb new then writeback_vn dir ;;; ret (0, None)
        else
          vo <- ext2_iget m inum ;;
          match vo with
          | None => ret (-1, Some None)
          | Some v => writeback_vn v ;;; writeback_vn dir ;;; ret (0, Some (Some v))
          end.

Definition ext2_mkdir (dir : nat) (name : list Z) : MK Z :=
  '(r, o) <- ext2_create dir name V_DIR true ;;
  match o with
  | Some (Some n) => if r =? 0 then vput n ;;; ret r else ret r
  | _ => ret r
  end.

Definition ext2_link (dir : nat) (name : list Z) (old : nat) : MK Z :=
  '(_, op) <- ext_of old ;;
  if Z.land (i_mode (ev_ino op)) 61440 =? 16384 then ret (-1)
  else
    '(r, ex) <- dir_lookup_vn dir name ;;
    if r =? 0
    then match ex with Some (Some v) => vput v | _ => ret tt end ;;; ret (-1)
    else
      t <- gets (fun s => k_ticks (vx s)) ;;
      mod_ev old (fun p => set_ev_dirty true
        (set_ino (set_i_ctime t (set_i_links (i_links_count (ev_ino p) + 1) (ev_ino p))) p)) ;;;
      time_vn dir false true ;;;
      r <- dir_add_vn dir name (ev_inum op) EXT2_FT_REG ;;
      if r <? 0
      then
        mod_ev old (fun p => set_ev_dirty true
          (set_ino (set_i_links (i_links_count (ev_ino p) - 1) (ev_ino p)) p)) ;;;
        ret (-1)
      else writeback_vn old ;;; writeback_vn dir ;;; ret 0.

Definition ext2_mknod (dir : nat) (name : list Z) (major minor : Z) : MK Z :=
  '(m, _) <- ext_of dir ;;
  time_vn dir false true ;;;
  '(r, ex) <- dir_lookup_vn dir name ;;
  if r =? 0
  then match ex with Some (Some v) => vput v | _ => ret tt end ;;; ret (-1)
  else
    inum <- onext m (fun mp => ext2_ialloc mp 8192) ;;
    if inum =? 0 then ret (-1)
    else
      let ino := set_i_block 0 (u32 (Z.lor (Z.shiftl major 8) (Z.land minor 255)))
                   (set_i_links 1 (wr16 (replicate 128 0) 0 8192)) in
      onext m (fun mp => write_inode mp inum ino) ;;;
      r <- dir_add_vn dir name inum EXT2_FT_CHRDEV ;;
      if r <? 0 then onext m (fun mp => ext2_ifree mp inum) ;;; ret (-1)
      else writeback_vn dir ;;; ret 0.

Definition ext2_root (m : nat) : MK nat := mt <- getmt m ;; vget (mt_root mt).

Definition ext2_unmount (m : nat) : MK unit :=
  mt <- getmt m ;;
  has <- gets (fun s => bool_decide (is_Some (k_ext (vx s) !! m))) ;;
  when has
    (match mt_root mt with Some r => vput r | None => fail FNull end ;;;
     modify (fun s => set_vx (set_kext (delete m (k_ext (vx s))) (vx s)) s) ;;;
     kfree_page) ;;;
  updmt m (fun mt => Mount (mt_valid mt) None None (mt_mountpoint mt) (mt_dev mt) (mt_path mt)).

Definition ext2_mount (dev : Z) : MK (option nat) :=
  sb <- onbuf (bread dev 1) ;;
  ok <- kalloc_page ;;
  if negb ok then ret None
  else if negb (rd16 sb 56 =? EXT2_MAGIC) || negb (rd32 sb 24 =? 0)
  then kfree_page ;;; ret None
  else
    let isz := rd16 sb 88 in
    bg <- onbuf (bread dev 2) ;;
    ok <- kalloc_page ;;
    if negb ok then kfree_page ;;; ret None
    else
      let mp := Em dev (if isz =? 0 then 128 else isz) (rd32 bg 0) (rd32 bg 4) (rd32 bg 8) in
      m <- new_mount (Mount false (Some EXT2) None None dev []) ;;
      modify (fun s => set_vx (set_kext (<[m := ExtMnt mp sb Sleep.initsleeplock]> (k_ext (vx s)))
                                (vx s)) s) ;;;
      r <- ext2_iget m EXT2_ROOT_INO ;;
      match r with
      | None =>
          modify (fun s => set_vx (set_kext (delete m (k_ext (vx s))) (vx s)) s) ;;;
          kfree_page ;;;
          free_mount m ;;;
          ret None
      | Some _ => updmt m (set_root r) ;;; ret (Some m)
      end.

Definition ext2_vnops : vnode_ops (kvfs U) :=
  VnodeOps (kvfs U) (Some ext2_lookup) (Some ext2_mknod) (Some ext_read) (Some ext_write)
    (Some ext2_stat) (Some ext_readdir) (Some (fun d n t => ext2_create d n t true))
    (Some ext2_unlink) (Some ext2_mkdir) (Some ext2_link) (Some ext_read_kernel) (Some ext_truncate).

End ExtVfs.
