(* ===== verification/File.v ===== *)
(** File: kernel/file.c and the file side of pipealloc: the table of open
    files and the operations on them, above the VFS, pipes and devices.

    A file pointer is an index of the table, a pipe pointer a key of a heap of
    pipes.  The call that would sleep in a pipe is never woken when no other
    process runs. *)

From S2P Require Import Prelude CString Locks Log Block Umem Fs Vfs Kern.
From S2P Require Pipe.

Definition NFILE : nat := 100.
Definition NOFILE : nat := 16.
Definition NDEV : Z := 10.

Inductive ftype : Type := FD_NONE | FD_PIPE | FD_INODE | FD_DEVICE.
#[export] Instance ftype_eq_dec : EqDecision ftype.
Proof. solve_decision. Defined.

Record file : Type := File {
  f_type : ftype; f_ref : Z; f_readable : bool; f_writable : bool; f_appendable : bool;
  f_pipe : nat; f_vnode : nat; f_off : Z; f_major : Z
}.

Record sys (U : Type) : Type := Sys {
  s_vfs : kvfs U;
  s_ftable : list file;
  s_pipes : gmap nat Pipe.pipe;
  s_ofile : list (option nat);   (* the current process's descriptors *)
  s_killed : bool
}.
Arguments Sys {U}.
Arguments s_vfs {U}.
Arguments s_ftable {U}.
Arguments s_pipes {U}.
Arguments s_ofile {U}.
Arguments s_killed {U}.

(** The device switch: what the drivers in devsw do. *)
Class Devices (U : Type) : Type := {
  dev_read : Z -> option (Z -> Z -> M (sys U) Z);
  dev_write : Z -> option (Z -> Z -> M (sys U) Z)
}.

Section Files.
  Context {U : Type} `{UserMem U} `{Backends priv (kern U)}.
  Local Abbreviation MS := (M (sys U)).

Definition set_vfs (v : kvfs U) (s : sys U) : sys U :=
  Sys v (s_ftable s) (s_pipes s) (s_ofile s) (s_killed s).
Definition set_ftable (l : list file) (s : sys U) : sys U :=
  Sys (s_vfs s) l (s_pipes s) (s_ofile s) (s_killed s).
Definition set_pipes (h : gmap nat Pipe.pipe) (s : sys U) : sys U :=
  Sys (s_vfs s) (s_ftable s) h (s_ofile s) (s_killed s).
Definition set_ofile (l : list (option nat)) (s : sys U) : sys U :=
  Sys (s_vfs s) (s_ftable s) (s_pipes s) l (s_killed s).

Definition onvfs {A} (m : M (kvfs U) A) : MS A := zoom s_vfs set_vfs m.

Definition getfile (f : nat) : MS file :=
  fun s => match s_ftable s !! f with Some x => Ok (x, s) | None => Fault FNull end.
Definition updfile (f : nat) (g : file -> file) : MS unit :=
  modify (fun s => set_ftable (alter g f (s_ftable s)) s).

Definition set_fref (r : Z) (x : file) : file :=
  File (f_type x) r (f_readable x) (f_writable x) (f_appendable x) (f_pipe x) (f_vnode x)
       (f_off x) (f_major x).
Definition set_ftype (t : ftype) (x : file) : file :=
  File t (f_ref x) (f_readable x) (f_writable x) (f_appendable x) (f_pipe x) (f_vnode x)
       (f_off x) (f_major x).
Definition set_foff (o : Z) (x : file) : file :=
  File (f_type x) (f_ref x) (f_readable x) (f_writable x) (f_appendable x) (f_pipe x) (f_vnode x)
       o (f_major x).
Definition set_fmajor (k : Z) (x : file) : file :=
  File (f_type x) (f_ref x) (f_readable x) (f_writable x) (f_appendable x) (f_pipe x) (f_vnode x)
       (f_off x) k.
Definition set_fpipe (rd wr : bool) (p : nat) (x : file) : file :=
  File FD_PIPE (f_ref x) rd wr (f_appendable x) p (f_vnode x) (f_off x) (f_major x).

Fixpoint find_file (l : list file) (i : nat) : option nat :=
  match l with
  | [] => None
  | x :: l' => if f_ref x =? 0 then Some i else find_file l' (S i)
  end.

Definition filealloc : MS (option nat) :=
  t <- gets s_ftable ;;
  match find_file t 0 with
  | Some f => updfile f (set_fref 1) ;;; ret (Some f)
  | None => ret None
  end.

Definition filedup (f : nat) : MS nat :=
  x <- getfile f ;;
  if f_ref x <? 1 then panic "filedup"
  else updfile f (set_fref (f_ref x + 1)) ;;; ret f.

(** pipeclose on the heap of pipes: the page goes when both ends are closed. *)
Definition pipe_close (p : nat) (writable : bool) : MS unit :=
  h <- gets s_pipes ;;
  match h !! p with
  | None => fail FNull
  | Some pi =>
      let '(pi', gone) := Pipe.pipeclose pi writable in
      if (gone : bool) then modify (set_pipes (delete p h)) ;;; onvfs kfree_page
      else modify (set_pipes (<[p := pi']> h))
  end.

Definition fileclose (f : nat) : MS unit :=
  ff <- getfile f ;;
  if f_ref ff <? 1 then panic "fileclose"
  else if f_ref ff - 1 >? 0 then updfile f (set_fref (f_ref ff - 1))
  else
    updfile f (fun x => set_ftype FD_NONE (set_fref 0 x)) ;;;
    match f_type ff with
    | FD_PIPE => pipe_close (f_pipe ff) (f_writable ff)
    | FD_INODE | FD_DEVICE => onvfs (vput (f_vnode ff))
    | FD_NONE => ret tt
    end.

Definition filestat (f : nat) (addr : Z) : MS Z :=
  x <- getfile f ;;
  match f_type x with
  | FD_INODE | FD_DEVICE => onvfs (vfs_stat (f_vnode x) addr)
  | _ => ret (-1)
  end.

(** A call on a pipe: a section that ends in sleep never returns here. *)
Definition onpipe (p : nat) (m : M (Pipe.pipe * U) Pipe.section_end) : MS Z :=
  fun s =>
    match s_pipes s !! p with
    | None => Fault FNull
    | Some pi =>
        let v := s_vfs s in
        match m (pi, f_usr (k_fs (vx v))) with
        | Fault e => Fault e
        | Ok (Pipe.Sleeps _, _) => Fault FDeadlock
        | Ok (Pipe.Return r, (pi', u)) =>
            Ok (r, set_pipes (<[p := pi']> (s_pipes s))
                     (set_vfs (set_vx (set_fs (set_usr u (k_fs (vx v))) (vx v)) v) s))
        end
    end.

(** sizeof(struct vdirent) *)
Definition VDIRENT : Z := 258.

Context `{Devices U}.

Definition dev_ok (k : Z) : bool := (0 <=? k) && (k <? NDEV).

Definition fileread (f : nat) (addr n : Z) : MS Z :=
  x <- getfile f ;;
  if negb (f_readable x) then ret (-1)
  else
    match f_type x with
    | FD_PIPE => k <- gets s_killed ;; onpipe (f_pipe x) (Pipe.piperead k addr n)
    | FD_DEVICE =>
        match (if dev_ok (f_major x) then dev_read (f_major x) else None) with
        | Some rd => rd addr n
        | None => ret (-1)
        end
    | FD_INODE =>
        onvfs (vn_lock (f_vnode x)) ;;;
        v <- onvfs (getvn (f_vnode x)) ;;
        r <- (if v_type v =? V_DIR
              then
                r <- onvfs (vfs_readdir (f_vnode x) addr (f_off x)) ;;
                if r >? 0 then updfile f (set_foff r) ;;; ret VDIRENT else ret r
              else
                r <- onvfs (vfs_read (f_vnode x) addr n (f_off x)) ;;
                when (r >? 0) (updfile f (set_foff (u32 (f_off x + r)))) ;;;
                ret r) ;;
        onvfs (vn_unlock (f_vnode x)) ;;;
        ret r
    | FD_NONE => panic "fileread"
    end.

Definition filewrite (f : nat) (addr n : Z) : MS Z :=
  x <- getfile f ;;
  if negb (f_writable x) then ret (-1)
  else
    match f_type x with
    | FD_PIPE => k <- gets s_killed ;; onpipe (f_pipe x) (Pipe.pipewrite k addr n 0)
    | FD_DEVICE =>
        match (if dev_ok (f_major x) then dev_write (f_major x) else None) with
        | Some wr => wr addr n
        | None => ret (-1)
        end
    | FD_INODE =>
        onvfs (vn_lock (f_vnode x)) ;;;
        v <- onvfs (getvn (f_vnode x)) ;;
        let off := if f_appendable x then v_size v else f_off x in
        updfile f (set_foff off) ;;;
        r <- onvfs (vfs_write (f_vnode x) addr n off) ;;
        when (r >? 0) (updfile f (set_foff (u32 (off + r)))) ;;;
        onvfs (vn_unlock (f_vnode x)) ;;;
        ret r
    | FD_NONE => panic "filewrite"
    end.

(** pipealloc: the reading and the writing end, or [None] with everything
    taken back. *)
Definition pipealloc : MS (option (nat * nat)) :=
  o0 <- filealloc ;;
  match o0 with
  | None => ret None
  | Some f0 =>
      o1 <- filealloc ;;
      match o1 with
      | None => fileclose f0 ;;; ret None
      | Some f1 =>
          ok <- onvfs kalloc_page ;;
          if negb ok then fileclose f0 ;;; fileclose f1 ;;; ret None
          else
            junk <- gets (fun s => k_junk (vx (s_vfs s))) ;;
            h <- gets s_pipes ;;
            let p := fresh (dom h) in
            modify (set_pipes (<[p := Pipe.pipe_init (junk ++ replicate 512 0)]> h)) ;;;
            updfile f0 (set_fpipe true false p) ;;;
            updfile f1 (set_fpipe false true p) ;;;
            ret (Some (f0, f1))
      end
  end.

End Files.
