(* ===== verification/Sysfile.v ===== *)
(** Sysfile: kernel/sysfile.c, the file system calls of one process.  The
    arguments are what argint, argaddr, argstr fetched; [None] is a string that
    argstr could not fetch. *)

From S2P Require Import Prelude CString Locks Log Block Umem Fs Vfs Kern File.

Section Sysfile.
  Context {U : Type} `{UserMem U} `{Backends priv (kern U)} `{Devices U}.
  Local Abbreviation MS := (M (sys U)).

(** The file behind descriptor [fd]. *)
Definition argfd (fd : Z) : MS (option nat) :=
  if (fd <? 0) || (fd >=? Z.of_nat NOFILE) then ret None
  else gets (fun s => s_ofile s !! Z.to_nat fd ≫= id).

Fixpoint find_fd (l : list (option nat)) (i : Z) : option Z :=
  match l with
  | [] => None
  | None :: _ => Some i
  | Some _ :: l' => find_fd l' (i + 1)
  end.

Definition setfd (fd : Z) (o : option nat) : MS unit :=
  modify (fun s => set_ofile (<[Z.to_nat fd := o]> (s_ofile s)) s).

Definition fdalloc (f : nat) : MS Z :=
  t <- gets s_ofile ;;
  match find_fd t 0 with
  | Some fd => setfd fd (Some f) ;;; ret fd
  | None => ret (-1)
  end.

Definition sys_dup (fd : Z) : MS Z :=
  o <- argfd fd ;;
  match o with
  | None => ret (-1)
  | Some f =>
      fd' <- fdalloc f ;;
      if fd' <? 0 then ret (-1) else filedup f ;;; ret fd'
  end.

Definition sys_read (fd p n : Z) : MS Z :=
  o <- argfd fd ;; match o with None => ret (-1) | Some f => fileread f p n end.
Definition sys_write (fd p n : Z) : MS Z :=
  o <- argfd fd ;; match o with None => ret (-1) | Some f => filewrite f p n end.
Definition sys_fstat (fd st : Z) : MS Z :=
  o <- argfd fd ;; match o with None => ret (-1) | Some f => filestat f st end.

Definition sys_close (fd : Z) : MS Z :=
  o <- argfd fd ;;
  match o with
  | None => ret (-1)
  | Some f => setfd fd None ;;; fileclose f ;;; ret 0
  end.

Definition sys_link (old new : option (list Z)) : MS Z :=
  match old, new with
  | Some old, Some new =>
      ipo <- onvfs (vfs_namei old) ;;
      match ipo with
      | None => ret (-1)
      | Some ip =>
          v <- onvfs (getvn ip) ;;
          if v_type v =? V_DIR then onvfs (vput ip) ;;; ret (-1)
          else
            pr <- onvfs (vfs_nameiparent new) ;;
            match pr with
            | None => onvfs (vput ip) ;;; ret (-1)
            | Some (dp, name) =>
                r <- onvfs (vfs_link ip dp name) ;;
                onvfs (vput dp) ;;;
                onvfs (vput ip) ;;;
                ret r
            end
      end
  | _, _ => ret (-1)
  end.

(** A call that looks up the parent of [path] and works in it. *)
Definition in_parent (path : option (list Z)) (k : nat -> list Z -> MS Z) : MS Z :=
  match path with
  | None => ret (-1)
  | Some path =>
      pr <- onvfs (vfs_nameiparent path) ;;
      match pr with
      | None => ret (-1)
      | Some (dp, name) => r <- k dp name ;; onvfs (vput dp) ;;; ret r
      end
  end.

Definition sys_unlink (path : option (list Z)) : MS Z :=
  match path with
  | Some p => if namecmp p [47; 0] =? 0 then ret (-1)
              else in_parent path (fun dp name =>
                     if (namecmp name [46; 0] =? 0) || (namecmp name [46; 46; 0] =? 0) then ret (-1)
                     else onvfs (vfs_unlink dp name))
  | None => ret (-1)
  end.

Definition sys_mkdir (path : option (list Z)) : MS Z :=
  in_parent path (fun dp name => onvfs (vfs_mkdir dp name)).

Definition sys_mknod (path : option (list Z)) (major minor : Z) : MS Z :=
  in_parent path (fun dp name => onvfs (vfs_mknod dp name major minor)).

(** The fields that sys_open sets at the end. *)
Definition opened (vp : nat) (omode : Z) (x : file) : file :=
  File (f_type x) (f_ref x) (negb (has_flag omode O_WRONLY))
       (has_flag omode O_WRONLY || has_flag omode O_RDWR) (has_flag omode O_APPEND)
       (f_pipe x) vp (f_off x) (f_major x).

Definition sys_open (path : option (list Z)) (omode : Z) : MS Z :=
  match path with
  | None => ret (-1)
  | Some path =>
      vo <- onvfs (vfs_open path omode) ;;
      match vo with
      | None => ret (-1)
      | Some vp =>
          fo <- filealloc ;;
          fd <- match fo with Some f => fdalloc f | None => ret (-1) end ;;
          match fo with
          | None => onvfs (vput vp) ;;; ret (-1)
          | Some f =>
              if fd <? 0 then fileclose f ;;; onvfs (vput vp) ;;; ret (-1)
              else
                v <- onvfs (getvn vp) ;;
                if (v_type v =? V_DEV) && negb (dev_ok (v_major v))
                then onvfs (vput vp) ;;; fileclose f ;;; ret (-1)
                else
                  (if v_type v =? V_DEV
                   then updfile f (fun x => set_fmajor (s16 (v_major v)) (set_ftype FD_DEVICE x))
                   else updfile f (fun x => set_foff 0 (set_ftype FD_INODE x))) ;;;
                  (if has_flag omode O_TRUNC && (v_type v =? V_FILE)
                   then onvfs (vfs_truncate vp) else ret 0) ;;;
                  updfile f (opened vp omode) ;;;
                  v <- onvfs (getvn vp) ;;
                  when (has_flag omode O_APPEND && (v_type v =? V_FILE))
                       (updfile f (set_foff (v_size v))) ;;;
                  ret fd
          end
      end
  end.

Definition set_cwd (c : option nat) (s : sys U) : sys U :=
  let v := s_vfs s in
  set_vfs (Vfs (vtab v) (mheap v) (mtab v) (fstypes v) c (vpid v) (pages v) (vx v)) s.

Definition sys_chdir (path : option (list Z)) : MS Z :=
  match path with
  | None => ret (-1)
  | Some path =>
      ipo <- onvfs (vfs_namei path) ;;
      match ipo with
      | None => ret (-1)
      | Some ip =>
          v <- onvfs (getvn ip) ;;
          if negb (v_type v =? V_DIR) then onvfs (vput ip) ;;; ret (-1)
          else
            c <- gets (fun s => cwd (s_vfs s)) ;;
            match c with Some d => onvfs (vput d) | None => fail FNull end ;;;
            modify (set_cwd (Some ip)) ;;;
            ret 0
      end
  end.

Definition sys_mount (path : option (list Z)) (dev : Z) (fstype : option (list Z)) : MS Z :=
  match path, fstype with
  | Some path, Some ty =>
      m <- onvfs (vfs_mount path dev ty) ;; ret (match m with Some _ => 0 | None => -1 end)
  | _, _ => ret (-1)
  end.

Definition sys_umount (path : option (list Z)) : MS Z :=
  match path with Some p => onvfs (vfs_umount p) | None => ret (-1) end.

Definition sys_pipe (fdarray : Z) : MS Z :=
  po <- pipealloc ;;
  match po with
  | None => ret (-1)
  | Some (rf, wf) =>
      fd0 <- fdalloc rf ;;
      fd1 <- (if fd0 <? 0 then ret (-1) else fdalloc wf) ;;
      if (fd0 <? 0) || (fd1 <? 0)
      then
        when (0 <=? fd0) (setfd fd0 None) ;;;
        fileclose rf ;;; fileclose wf ;;; ret (-1)
      else
        ok1 <- onvfs (kcopyout fdarray (le_enc 4 fd0)) ;;
        ok2 <- (if (ok1 : bool) then onvfs (kcopyout (fdarray + 4) (le_enc 4 fd1)) else ret false) ;;
        if negb ok2
        then setfd fd0 None ;;; setfd fd1 None ;;; fileclose rf ;;; fileclose wf ;;; ret (-1)
        else ret 0
  end.

End Sysfile.
