(* ===== verification/Kernel.v ===== *)
(** Kernel: the three file systems as the back ends of the VFS, and runs of
    system calls on small disks. *)

From S2P Require Import Prelude CString Locks Log Block Umem Fs FatNames Fat32 Ext2 Vfs Kern Xv6fs FatVfs ExtVfs File Sysfile.

Section Backend.
  Context {U : Type} `{UserMem U}.

#[export] Instance kern_destroys : Destroys priv (kern U) := {|
  destroy_of := fun fs =>
    match fs with
    | 0%nat => Some xv6fs_destroy
    | 1%nat => Some ext2_destroy
    | 2%nat => Some fdestroy
    | _ => None
    end
|}.

#[export] Instance kern_backends : Backends priv (kern U) := {|
  vops := fun fs =>
    match fs with
    | 0%nat => xv6fs_vnops
    | 1%nat => ext2_vnops
    | _ => fat32_vnops
    end;
  unmount := fun fs =>
    match fs with
    | 1%nat => Some ext2_unmount
    | 2%nat => Some fumount
    | _ => None
    end;
  mountfn := fun fs =>
    match fs with
    | 0%nat => xv6fs_mount
    | 1%nat => ext2_mount
    | _ => fat32_mount_fn
    end
|}.

End Backend.

(** *** A disk with one directory, a file and a device *)

(** Inode 1: the root directory; inode 2: the empty file "f"; inode 3: the
    device "d" with major number 99. *)
Definition dinode (ty ma mi nl sz : Z) (addrs : list Z) : list Z :=
  le_enc 2 ty ++ le_enc 2 ma ++ le_enc 2 mi ++ le_enc 2 nl ++ le_enc 4 sz ++
  concat (le_enc 4 <$> addrs).

Definition ex_sb : superblock := Superblock FSMAGIC 100 65 16 30 2 32 34.

Definition ex_blk (b : Z) : block :=
  if b =? 32 then
    splice (splice (splice zero_block 64 (dinode 1 0 0 1 32 (50 :: replicate 12 0)))
                   128 (dinode 2 0 0 1 0 (replicate 13 0)))
           192 (dinode 3 99 0 1 0 (replicate 13 0))
  else if b =? 34 then splice zero_block 0 (replicate 6 255 ++ [7])
  else if b =? 50 then
    splice zero_block 0 (mk_dirent 2 ([102] ++ replicate 13 0) ++ mk_dirent 3 ([100] ++ replicate 13 0))
  else zero_block.

(** After fsinit and the mount of the root file system; user memory holds its
    own addresses. *)
Definition ex_kern : kern flat :=
  Kern (Fs (Bst (fun _ => ex_blk) [] 0) ex_sb iinit 4 (Flat (fun a => a mod 256) 4096)) ∅ ∅ 0 [].

Definition no_devices : Devices flat := {| dev_read := fun _ => None; dev_write := fun _ => None |}.
#[local] Existing Instance no_devices.

Definition ex_boot : M (sys flat) Z :=
  onvfs vfs_init ;;; r <- sys_mount (Some [47; 0]) 1 (Some [120; 118; 54; 102; 115; 0]) ;; ret r.

Definition ex_sys : sys flat :=
  Sys (Vfs [] ∅ [] [] None 4 50 ex_kern) (replicate NFILE (File FD_NONE 0 false false false 0 0 0 0)) ∅
      (replicate NOFILE None) false.

(** Running a sequence of calls from boot. *)
Definition run {A} (m : M (sys flat) A) : outcome (A * sys flat) := (ex_boot ;;; m) ex_sys.

Definition result {A} (o : outcome (A * sys flat)) : outcome A :=
  match o with Ok (a, _) => Ok a | Fault e => Fault e end.

(** Opening a device node whose major number is out of range fails but
    leaves the descriptor pointing at the file structure that was just
    released: closing the descriptor (or exiting) panics. *)
Theorem open_bad_device_leaves_descriptor :
  result (run (r <- sys_open (Some [47; 100; 0]) 0 ;; t <- gets s_ofile ;;
               x <- getfile 0 ;; ret (r, t !! 0%nat, f_ref x))) = Ok (-1, Some (Some 0%nat), 0) /\
  result (run (sys_open (Some [47; 100; 0]) 0 ;;; sys_close 0)) = Fault (FPanic "fileclose").
Proof. split; vm_compute; reflexivity. Qed.

(** xv6fs_write updates the size that O_APPEND uses only when the end of the
    write lies beyond the inode's size, which writei has just raised to it:
    two appends of 3 bytes write the same 3 bytes of the file. *)
Theorem append_overwrites :
  result (run (fd <- sys_open (Some [47; 102; 0]) 18 ;;
               r1 <- sys_write fd 16 3 ;; r2 <- sys_write fd 32 3 ;;
               v <- onvfs (vfs_namei [47; 102; 0]) ;;
               '(n, l) <- onvfs (vfs_read_kernel (default 0%nat v) 10 0) ;;
               ret (fd, r1, r2, n, l))) = Ok (0, 3, 3, 3, [32; 33; 34]).
Proof. vm_compute. reflexivity. Qed.

(** Without O_APPEND the same two writes follow each other. *)
Example writes_follow :
  result (run (fd <- sys_open (Some [47; 102; 0]) 2 ;;
               r1 <- sys_write fd 16 3 ;; r2 <- sys_write fd 32 3 ;;
               v <- onvfs (vfs_namei [47; 102; 0]) ;;
               '(n, l) <- onvfs (vfs_read_kernel (default 0%nat v) 10 0) ;;
               ret (fd, r1, r2, n, l))) = Ok (0, 3, 3, 6, [16; 17; 18; 32; 33; 34]).
Proof. vm_compute. reflexivity. Qed.
