(* ===== verification/Printf.v ===== *)
(** Printf: kernel/printf.c, formatted output to the console.  The output is
    the list of the characters passed to consputc; a variable argument is the
    64-bit slot it is passed in, or a string. *)

From S2P Require Import Prelude CString Locks.

Definition s64 (x : Z) : Z := (x + 2 ^ 63) mod 2 ^ 64 - 2 ^ 63.

Inductive varg : Type := VNum (slot : Z) | VStr (s : option (list Z)).

Record printer : Type := Printer {
  panicking : bool; panicked : bool;
  pr_lock : Spin.st;                   (* pr.lock and the CPU that prints *)
  pr_out : list Z
}.

Definition digits : list Z := [48; 49; 50; 51; 52; 53; 54; 55; 56; 57; 97; 98; 99; 100; 101; 102].

Definition putc (c : Z) : M printer unit :=
  modify (fun s => Printer (panicking s) (panicked s) (pr_lock s) (pr_out s ++ [c])).

Section Printf.
  Context (me : nat).

(** [buf[i++] = c], on a buffer of 20 characters. *)
Definition push (c : Z) (buf : list Z) : M printer (list Z) :=
  if zlen buf <? 20 then ret (buf ++ [c]) else fail FBounds.

(** The do-while loop of printint; locals: x and buf[0..i). *)
Definition digits_body (base : Z) (st : Z * list Z) : M printer (Z * list Z + list Z) :=
  let '(x, buf) := st in
  buf <- push (getz digits (x mod base)) buf ;;
  let x := x / base in
  if x =? 0 then ret (inr buf) else ret (inl (x, buf)).

Definition printint (xx base : Z) (sign : bool) : M printer unit :=
  let neg := sign && (xx <? 0) in
  let x := if neg then u64 (- xx) else u64 xx in
  buf <- loop 64 (digits_body base) (x, []) ;;
  buf <- (if neg then push 45 buf else ret buf) ;;
  for_each (rev buf) putc.

Definition printptr_body (x : Z) (_ : Z) : M printer Z :=
  putc (getz digits (Z.shiftr x 60)) ;;; ret (u64 (Z.shiftl x 4)).

Fixpoint printptr_loop (n : nat) (x : Z) : M printer unit :=
  match n with
  | O => ret tt
  | S n' => x' <- printptr_body x 0 ;; printptr_loop n' x'
  end.

Definition printptr (x : Z) : M printer unit := putc 48 ;;; putc 120 ;;; printptr_loop 16 x.

Definition va_num (ap : list varg) : M printer (Z * list varg) :=
  match ap with VNum x :: ap' => ret (x, ap') | _ => fail FUninit end.
Definition va_str (ap : list varg) : M printer (option (list Z) * list varg) :=
  match ap with VStr s :: ap' => ret (s, ap') | _ => fail FUninit end.

(** [printint(va_arg(ap, T), base, sign)] with the conversion of T. *)
Definition va_print (conv : Z -> Z) (base : Z) (sign : bool) (ap : list varg) : M printer (list varg) :=
  '(x, ap') <- va_num ap ;; printint (conv x) base sign ;;; ret ap'.

(** One conversion: the characters c0, c1, c2 behind '%'.  The result is how
    far i moves beyond c0 and the remaining arguments; [None] ends the loop. *)
Definition conversion (c0 c1 c2 : Z) (ap : list varg) : M printer (option (nat * list varg)) :=
  let with_skip k m := ap' <- m ;; ret (Some (k, ap')) in
  if c0 =? 100 then with_skip 0%nat (va_print s32 10 true ap)
  else if (c0 =? 108) && (c1 =? 100) then with_skip 1%nat (va_print s64 10 true ap)
  else if (c0 =? 108) && (c1 =? 108) && (c2 =? 100) then with_skip 2%nat (va_print s64 10 true ap)
  else if c0 =? 117 then with_skip 0%nat (va_print u32 10 false ap)
  else if (c0 =? 108) && (c1 =? 117) then with_skip 1%nat (va_print s64 10 false ap)
  else if (c0 =? 108) && (c1 =? 108) && (c2 =? 117) then with_skip 2%nat (va_print s64 10 false ap)
  else if c0 =? 120 then with_skip 0%nat (va_print u32 16 false ap)
  else if (c0 =? 108) && (c1 =? 120) then with_skip 1%nat (va_print s64 16 false ap)
  else if (c0 =? 108) && (c1 =? 108) && (c2 =? 120) then with_skip 2%nat (va_print s64 16 false ap)
  else if c0 =? 112 then '(x, ap') <- va_num ap ;; printptr x ;;; ret (Some (0%nat, ap'))
  else if c0 =? 99 then '(x, ap') <- va_num ap ;; putc (s32 x) ;;; ret (Some (0%nat, ap'))
  else if c0 =? 115 then
    '(s, ap') <- va_str ap ;;
    for_each (cstr (default [40; 110; 117; 108; 108; 41] s)) putc ;;;
    ret (Some (0%nat, ap'))
  else if c0 =? 37 then putc 37 ;;; ret (Some (0%nat, ap))
  else if c0 =? 0 then ret None
  else putc 37 ;;; putc c0 ;;; ret (Some (0%nat, ap)).

(** The loop over the format; locals: i and ap.  Behind the end of the list
    is the format's NUL. *)
Definition printf_body (fmt : list Z) (st : nat * list varg) : M printer (nat * list varg + unit) :=
  let '(i, ap) := st in
  let at_ k := default 0 (fmt !! k) in
  if at_ i =? 0 then ret (inr tt)
  else if negb (at_ i =? 37) then putc (at_ i) ;;; ret (inl (S i, ap))
  else
    let i := S i in
    let c0 := at_ i in
    let c1 := if c0 =? 0 then 0 else at_ (S i) in
    let c2 := if c1 =? 0 then 0 else at_ (S (S i)) in
    r <- conversion c0 c1 c2 ap ;;
    match r with
    | None => ret (inr tt)
    | Some (k, ap') => ret (inl (S (i + k), ap'))
    end.

Definition on_lock (m : M Spin.st unit) : M printer unit :=
  zoom pr_lock (fun k s => Printer (panicking s) (panicked s) k (pr_out s)) m.

Definition printf (fmt : list Z) (ap : list varg) : M printer Z :=
  b <- gets panicking ;;
  when (negb b) (on_lock (Spin.acquire me)) ;;;
  loop (S (length fmt)) (printf_body fmt) (0%nat, ap) ;;;
  b <- gets panicking ;;
  when (negb b) (on_lock (Spin.release me)) ;;;
  ret 0.

(** panic, up to the endless loop. *)
Definition panic_prints (s : list Z) : M printer unit :=
  modify (fun st => Printer true (panicked st) (pr_lock st) (pr_out st)) ;;;
  printf [112; 97; 110; 105; 99; 58; 32] [] ;;;
  printf [37; 115; 10] [VStr (Some s)] ;;;
  modify (fun st => Printer (panicking st) true (pr_lock st) (pr_out st)).

Definition printfinit : M printer unit :=
  modify (fun s => Printer (panicking s) (panicked s)
                     (Spin.St (Spin.st_cpu (pr_lock s)) Spin.initlock) (pr_out s)).

End Printf.

(** *** Numbers *)

Definition set_out (o : list Z) (s : printer) : printer := Printer (panicking s) (panicked s) (pr_lock s) o.

(** The number that a string of digits, most significant first, stands for. *)
Definition digit_val (c : Z) : Z := if c <=? 57 then c - 48 else c - 87.
Fixpoint digits_val (base acc : Z) (l : list Z) : Z :=
  match l with
  | [] => acc
  | c :: l' => digits_val base (acc * base + digit_val c) l'
  end.
Definition number_of (base : Z) (l : list Z) : Z :=
  match l with
  | c :: l' => if c =? 45 then - digits_val base 0 l' else digits_val base 0 l
  | [] => 0
  end.

(** A digit of the base. *)
Definition is_digit (base c : Z) : Prop := 0 <= digit_val c < base /\ c <> 45 /\ c <> 0.

Lemma puts_run l : forall s, for_each l putc s = Ok (tt, set_out (pr_out s ++ l) s).
Proof.
  induction l as [|c l IH]; intros s; cbn [for_each].
  - rewrite app_nil_r. by destruct s.
  - unfold putc at 1, modify. rewrite (bind_ok _ _ s tt _) by reflexivity. rewrite IH. cbn.
    by rewrite <-app_assoc.
Qed.

Lemma digit_char d : 0 <= d < 16 -> digit_val (getz digits d) = d /\ getz digits d <> 45 /\ getz digits d <> 0.
Proof.
  intros Hd. assert (d ∈ seqZ 0 16) as Hin by (rewrite elem_of_seqZ; lia).
  clear Hd. revert d Hin. rewrite <-Forall_forall. by vm_compute; repeat constructor.
Qed.

Lemma digits_val_app base l1 : forall acc l2, digits_val base acc (l1 ++ l2) = digits_val base (digits_val base acc l1) l2.
Proof. induction l1 as [|c l1 IH]; intros acc l2; cbn; [done|]. by rewrite IH. Qed.

Lemma digits_step base x buf s : 2 <= base <= 16 -> zlen buf < 20 ->
  exists c, digits_body base (x, buf) s = Ok (if x / base =? 0 then inr (buf ++ [c]) else inl (x / base, buf ++ [c]), s) /\
    digit_val c = x mod base /\ is_digit base c.
Proof.
  intros Hb Hl. assert (0 <= x mod base < base) as Hd by (apply Z.mod_pos_bound; lia).
  destruct (digit_char (x mod base)) as (Hv & Hn45 & Hn0); [lia|].
  exists (getz digits (x mod base)). split_and!; [|done|unfold is_digit; by rewrite Hv].
  unfold digits_body, push. rewrite (proj2 (Z.ltb_lt _ _)) by lia. rewrite ret_bind.
  by destruct (x / base =? 0).
Qed.

(** [m] more digits after the first hold [x]; the loop appends them, lowest
    first. *)
Lemma digits_run base s : 2 <= base <= 16 -> forall m fuel x buf,
  (m < fuel)%nat -> 0 <= x < base ^ (Z.of_nat m + 1) -> zlen buf + Z.of_nat m < 20 ->
  exists ds, loop fuel (digits_body base) (x, buf) s = Ok (buf ++ ds, s) /\
    zlen ds <= Z.of_nat m + 1 /\ Forall (is_digit base) ds /\ digits_val base 0 (rev ds) = x /\
    (last ds = Some 48 -> x = 0) /\ ds <> [].
Proof.
  intros Hb. induction m as [|m IH]; intros fuel x buf Hf Hx Hbuf; (destruct fuel as [|fuel]; [lia|]);
    cbn [loop]; (destruct (digits_step base x buf s Hb) as (c & E & Hv & Hdc); [lia|]);
    rewrite (bind_ok _ _ _ _ _ E); pose proof (Z.div_mod x base ltac:(lia)) as Hdm;
    (assert (0 <= x / base) by (apply Z.div_pos; lia));
    (assert (c = 48 -> x mod base = 0) as H48 by (intros ->; by rewrite <-Hv));
    (destruct (Z.eqb_spec (x / base) 0) as [E0|E0];
     [exists [c]; cbn; rewrite E0 in Hdm; split_and!;
        [done|unfold zlen; cbn; lia|by apply Forall_singleton|lia|intros [= ->]; lia|done]|]).
  - exfalso. apply E0, Z.div_small. rewrite Z.pow_1_r in Hx. lia.
  - destruct (IH fuel (x / base) (buf ++ [c])) as (ds & E1 & Hl & Hds & Hval & Hlast & Hne); [lia| | |].
    + split; [done|]. apply Z.div_lt_upper_bound; [lia|].
      replace (Z.of_nat (S m) + 1) with (Z.succ (Z.of_nat m + 1)) in Hx by lia.
      rewrite Z.pow_succ_r in Hx by lia. lia.
    + rewrite zlen_app. unfold zlen at 2. cbn. lia.
    + exists (c :: ds). rewrite <-app_assoc in E1. cbn [app] in E1. split_and!; [done| |by constructor| | |done].
      * unfold zlen in *. cbn. lia.
      * cbn [rev]. rewrite digits_val_app, Hval. cbn. rewrite Hv. lia.
      * rewrite last_cons. destruct (last ds) eqn:E2; [|by apply last_None in E2].
        intros [= ->]. exfalso. by apply E0, Hlast.
Qed.

Lemma number_of_digits base ds : Forall (is_digit base) ds -> number_of base (rev ds) = digits_val base 0 (rev ds).
Proof.
  intros H. unfold number_of. destruct (rev ds) as [|c l] eqn:E; [done|].
  assert (is_digit base c) as (_ & Hc & _).
  { rewrite Forall_forall in H. apply H. apply list_elem_of_In, in_rev. rewrite E. by left. }
  by rewrite (proj2 (Z.eqb_neq c 45)).
Qed.

Lemma decimal_chars ds : Forall (is_digit 10) ds -> Forall (fun c => 45 <= c <= 96) (rev ds).
Proof.
  intros H. apply Forall_rev. eapply Forall_impl; [exact H|]. intros c ([H1 H2] & _). unfold digit_val in *. destruct (c <=? 57) eqn:E; lia.
Qed.

Lemma u64_small x : 0 <= x < 2 ^ 64 -> u64 x = x.
Proof. intros. by apply Z.mod_small. Qed.

(** Printing a number.  For every 64-bit value, in decimal or hexadecimal,
    signed or unsigned, printint stays inside its 20-character buffer, prints at
    most 20 characters, and what it prints is the canonical representation of
    the value: read back as a number it gives the value, signed or modulo 2^64,
    and only 0 starts with the digit 0; a decimal number has no letters. *)
Theorem printint_canonical xx base (sign : bool) s
    (Hb : base = 10 \/ base = 16) (Hx : - 2 ^ 63 <= xx < 2 ^ 63) :
  exists out, printint xx base sign s = Ok (tt, set_out (pr_out s ++ out) s) /\
    1 <= zlen out <= 20 /\ number_of base out = (if sign then xx else u64 xx) /\
    (head out = Some 48 -> xx = 0) /\ (base = 10 -> Forall (fun c => 45 <= c <= 96) out).
Proof.
  assert (0 <= u64 xx < 2 ^ 64) as Hu by (by apply Z.mod_pos_bound).
  unfold printint. destruct (sign && (xx <? 0)) eqn:En.
  - assert (sign = true /\ xx < 0) as [-> Hneg] by lia. rewrite u64_small by lia.
    destruct (digits_run base s ltac:(lia) 18 64 (- xx) []) as (ds & E & Hl & Hd & Hv & H0 & Hne);
      [lia| |by unfold zlen|].
    { split; [lia|]. destruct Hb as [-> | ->]; cbn; lia. }
    rewrite (bind_ok _ _ _ _ _ E). cbn [app]. unfold push. rewrite (proj2 (Z.ltb_lt _ _)) by lia.
    rewrite ret_bind, puts_run, rev_app_distr. cbn [rev app]. eexists. split; [done|].
    split_and!; [unfold zlen; cbn; lia|unfold zlen in *; cbn; rewrite length_rev; lia| |by intros [=]|].
    + cbn [number_of]. rewrite Hv. cbn. lia.
    + intros E10. constructor; [lia|]. by apply decimal_chars; rewrite <-E10.
  - destruct (digits_run base s ltac:(lia) 19 64 (u64 xx) []) as (ds & E & Hl & Hd & Hv & H0 & Hne);
      [lia| |by unfold zlen|].
    { split; [lia|]. destruct Hb as [-> | ->]; cbn; lia. }
    rewrite (bind_ok _ _ _ _ _ E), ret_bind, puts_run. cbn [app]. eexists. split; [done|].
    unfold zlen in *. rewrite length_rev. split_and!; [destruct ds; [done|cbn; lia]|lia| | |intros E10; by apply decimal_chars; rewrite <-E10].
    + rewrite number_of_digits, Hv by done. destruct sign; [|done]. apply u64_small. lia.
    + intros Hh. assert (u64 xx = 0) as Eu.
      { apply H0. destruct ds as [|c ds] using rev_ind; [done|]. rewrite rev_app_distr in Hh. cbn in Hh.
        by rewrite last_snoc. }
      destruct (Z.lt_ge_cases xx 0) as [Hlt|Hge]; [|by rewrite u64_small in Eu by lia].
      unfold u64 in Eu. rewrite <-(Z.mod_add xx 1), Z.mod_small in Eu by lia. lia.
Qed.

Definition wit_printer : printer := Printer false false (Spin.St (Spin.Cpu 0 false true) Spin.initlock) [].

(** The smallest 64-bit number takes the whole buffer. *)
Lemma printint_canonical_witness :
  exists out, printint (- 2 ^ 63) 10 true wit_printer = Ok (tt, set_out out wit_printer) /\
    number_of 10 out = - 2 ^ 63 /\ zlen out = 20.
Proof.
  destruct (printint_canonical (- 2 ^ 63) 10 true wit_printer) as (out & E & _ & Hn & _); [by left|lia|].
  exists out. split; [done|]. split; [done|]. vm_compute in E. injection E as <-. by vm_compute.
Defined.

(** A panic is printed whoever holds the lock of printf: it takes no lock. *)
Lemma panic_prints_unlocked me msg s :
  panic_prints me msg s =
  Ok (tt, Printer true true (pr_lock s) (pr_out s ++ [112; 97; 110; 105; 99; 58; 32] ++ cstr msg ++ [10])).
Proof.
  unfold panic_prints, modify. rewrite (bind_ok _ _ s tt _) by reflexivity.
  set (s1 := Printer true _ _ _).
  assert (printf me [112; 97; 110; 105; 99; 58; 32] [] s1 =
    Ok (0, set_out (pr_out s1 ++ [112; 97; 110; 105; 99; 58; 32]) s1)) as E1.
  { unfold s1, set_out, printf. cbn. by rewrite <-!app_assoc. }
  rewrite (bind_ok _ _ _ _ _ E1). set (s2 := set_out _ s1).
  assert (printf me [37; 115; 10] [VStr (Some msg)] s2 = Ok (0, set_out ((pr_out s2 ++ cstr msg) ++ [10]) s2)) as E2.
  { unfold printf, gets. rewrite (bind_ok _ _ s2 true s2) by reflexivity. cbn [negb when]. rewrite ret_bind.
    cbn [length loop]. unfold printf_body at 1, conversion. cbn.
    unfold bind at 1 2 3 4 5 6. cbn. rewrite puts_run. reflexivity. }
  rewrite (bind_ok _ _ _ _ _ E2). cbn. by rewrite <-!app_assoc.
Qed.
