(* ===== verification/Ulib.v ===== *)
(** Ulib: user/ulib.c, the library that user programs are linked with, and the
    system calls as a program sees them.

    The string routines run on character arrays and the [mem*] routines on a
    byte memory, as in CString.  Reading past the end of an array of the model
    yields NUL.  A plain char is a byte, as in the RISC-V ABI. *)

From S2P Require Import Prelude CString.

(** *** System calls *)

(** The calls that programs make on files; a negative result is an error.
    [read] gives the bytes it stored as well.  [U] is the rest of the world. *)
Class Unix (U : Type) : Type := {
  read : Z -> Z -> M U (Z * list Z);
  write : Z -> list Z -> M U Z;
  open : list Z -> Z -> M U Z;
  close : Z -> M U Z
}.

(** A descriptor that is a stream: [inp u] is what is still to be read from
    [fd], [out u] what was written to descriptor 1.  A read gives at least one
    byte of what is left, at most what was asked for, and none at the end. *)
Class StreamOk (U : Type) `{Unix U} (fd : Z) (inp out : U -> list Z) : Prop := {
  read_stream : forall n u, 0 <= n -> exists l u',
    read fd n u = Ok ((zlen l, l), u') /\ out u' = out u /\ inp u = l ++ inp u' /\ zlen l <= n /\
    (l = [] -> n = 0 \/ inp u = []);
  write_stream : forall l u, exists u',
    write 1 l u = Ok (zlen l, u') /\ inp u' = inp u /\ out u' = out u ++ l
}.

(** *** Strings and memory *)

Module User.

(** The characters that strcpy stores from [s] on. *)
Definition strcpy (s t : list Z) : list Z :=
  let cs := cstr t ++ [0] in cs ++ drop (length cs) s.

Fixpoint strcmp (p q : list Z) : Z :=
  match p with
  | c :: p' => if negb (c =? 0) && (c =? hd 0 q) then strcmp p' (tl q) else c - hd 0 q
  | [] => 0 - hd 0 q
  end.

(** [strchr(s, c)] as an offset from s. *)
Fixpoint strchr (s : list Z) (c : Z) : option nat :=
  match s with
  | [] => None
  | x :: s' => if x =? 0 then None else if x =? c then Some 0%nat else S <$> strchr s' c
  end.

Definition is_digit (c : Z) : bool := (48 <=? c) && (c <=? 57).

Fixpoint atoi_loop (n : Z) (s : list Z) : Z :=
  match s with
  | c :: s' => if is_digit c then atoi_loop (s32 (n * 10 + c - 48)) s' else n
  | [] => n
  end.
Definition atoi (s : list Z) : Z := atoi_loop 0 s.

Fixpoint strlen (s : list Z) : Z :=
  match s with
  | c :: s' => if c =? 0 then 0 else 1 + strlen s'
  | [] => 0
  end.

Fixpoint memcmp (n : nat) (p1 p2 : Z) (m : memory) : Z :=
  match n with
  | O => 0
  | S n' => if negb (m p1 =? m p2) then m p1 - m p2 else memcmp n' (p1 + 1) (p2 + 1) m
  end.

Definition memset (dst c : Z) (n : nat) (m : memory) : memory := memset_loop n 0 dst c m.

Definition memmove (dst src n : Z) (m : memory) : memory :=
  if src >? dst then copy_forward (Z.to_nat n) dst src m
  else copy_backward (Z.to_nat n) (dst + n) (src + n) m.

Definition memcpy (dst src n : Z) (m : memory) : memory := memmove dst src n m.

Section Gets.
  Context {U : Type} `{Unix U}.

(** The loop of gets; [buf] holds the characters stored so far. *)
Fixpoint gets_loop (n : nat) (buf : list Z) : M U (list Z) :=
  match n with
  | O => ret buf
  | S n' =>
      '(cc, l) <- read 0 1 ;;
      if cc <? 1 then ret buf
      else
        let c := hd 0 l in
        if (c =? 10) || (c =? 13) then ret (buf ++ [c]) else gets_loop n' (buf ++ [c])
  end.

(** [gets(buf, max)]: what it stores in buf. *)
Definition gets (max : Z) : M U (list Z) :=
  buf <- gets_loop (Z.to_nat (max - 1)) [] ;; ret (buf ++ [0]).

End Gets.

End User.

(** *** Lemmas *)

Lemma strcmp_eq p : forall q, User.strcmp p q = 0 <-> cstr p = cstr q.
Proof.
  induction p as [|c p IH]; intros q; cbn [User.strcmp cstr].
  - destruct (Z.eq_dec (hd 0 q) 0) as [E|E]; [by rewrite (cstr_hd_0 _ E), E|].
    rewrite (cstr_hd_tl _ E). split; [lia|done].
  - destruct (Z.eqb_spec c 0) as [->|Hc]; cbn [negb andb].
    + destruct (Z.eq_dec (hd 0 q) 0) as [E|E]; [by rewrite (cstr_hd_0 _ E), E|].
      rewrite (cstr_hd_tl _ E). split; [lia|done].
    + destruct (Z.eqb_spec c (hd 0 q)) as [E|E].
      * rewrite IH, (cstr_hd_tl q) by congruence. rewrite <-E. split; [by intros ->|by intros [= ->]].
      * destruct (Z.eq_dec (hd 0 q) 0) as [E0|E0]; [rewrite (cstr_hd_0 _ E0)|rewrite (cstr_hd_tl _ E0)];
          (split; [lia|congruence]).
Qed.

Lemma user_strlen_cstr s : User.strlen s = zlen (cstr s).
Proof. induction s as [|c s IH]; [done|]. cbn [User.strlen cstr]. destruct (c =? 0); [done|]. unfold zlen in *. cbn [length]. lia. Qed.

Lemma take_cstr s : take (Z.to_nat (User.strlen s)) s = cstr s.
Proof.
  rewrite user_strlen_cstr. unfold zlen. rewrite Nat2Z.id. induction s as [|c s IH]; [done|]. cbn [cstr]. destruct (c =? 0); [done|]. cbn. by rewrite IH.
Qed.

Lemma strcpy_str s t : cstr (User.strcpy s t) = cstr t.
Proof.
  unfold User.strcpy. rewrite cstr_app_0 by (apply Exists_app; right; by constructor).
  induction (cstr_nz t) as [|c l Hc _ IH]; [done|]. cbn. rewrite (proj2 (Z.eqb_neq c 0) Hc). by rewrite IH.
Qed.

(** strchr finds the first occurrence before the end of the string. *)
Lemma strchr_some s c i : User.strchr s c = Some i ->
  exists l r, s = l ++ c :: r /\ length l = i /\ Forall (fun x => x <> 0 /\ x <> c) l.
Proof.
  revert i. induction s as [|x s IH]; intros i; cbn; [done|].
  destruct (Z.eqb_spec x 0) as [->|Hx]; [done|]. destruct (Z.eqb_spec x c) as [->|Hc].
  - intros [= <-]. by exists [], s.
  - destruct (User.strchr s c) as [j|]; [|done]. intros [= <-]. destruct (IH j eq_refl) as (l & r & -> & <- & Hl).
    exists (x :: l), r. split_and!; [done|done|by constructor].
Qed.

Lemma strchr_app l c r : Forall (fun x => x <> 0 /\ x <> c) l -> c <> 0 -> User.strchr (l ++ c :: r) c = Some (length l).
Proof.
  intros Hl Hc. induction Hl as [|x l [H0 H1] _ IH]; cbn.
  - by rewrite (proj2 (Z.eqb_neq c 0) Hc), Z.eqb_refl.
  - by rewrite (proj2 (Z.eqb_neq x 0) H0), (proj2 (Z.eqb_neq x c) H1), IH.
Qed.

Lemma strchr_none s c : Forall (fun x => x <> c) (cstr s) -> User.strchr s c = None.
Proof.
  induction s as [|x s IH]; cbn; [done|]. destruct (x =? 0); [done|]. intros [Hx Hs]%Forall_cons.
  by rewrite (proj2 (Z.eqb_neq x c) Hx), IH.
Qed.

(** memmove of the library does what the kernel's does. *)
Lemma user_memmove_spec dst src n m a : 0 <= n ->
  User.memmove dst src n m a = CString.memmove dst src (Z.to_nat n) m a.
Proof.
  intros Hn. rewrite memmove_spec. unfold User.memmove. destruct (Z.gtb_spec src dst).
  - rewrite copy_forward_spec by lia. done.
  - rewrite copy_backward_spec by lia. rewrite !Z2Nat.id by lia. replace (dst + n - n) with dst by lia.
    destruct (_ && _); [|done]. f_equal. lia.
Qed.

(** *** A stream that is read in chunks *)

(** The chunks give how many bytes a read returns at most. *)
Record chunks : Type := Chunks { ch_in : list Z; ch_sizes : list nat; ch_out : list Z }.

#[export] Instance chunks_Unix : Unix chunks := {|
  read := fun _ n u =>
    let k := Nat.min (match ch_sizes u with [] => Z.to_nat n | k :: _ => S k end) (Z.to_nat n) in
    let l := take k (ch_in u) in
    Ok ((zlen l, l), Chunks (drop k (ch_in u)) (tail (ch_sizes u)) (ch_out u));
  write := fun fd l u => Ok (zlen l, Chunks (ch_in u) (ch_sizes u) (if fd =? 1 then ch_out u ++ l else ch_out u));
  open := fun _ _ => ret (-1);
  close := fun _ => ret 0
|}.

#[export] Instance chunks_StreamOk fd : StreamOk chunks fd ch_in ch_out.
Proof.
  split.
  - intros n u Hn. cbn. eexists _, _. split; [reflexivity|]. cbn. split; [done|]. split; [by rewrite take_drop|].
    unfold zlen. rewrite length_take. split; [lia|].
    intros E. apply (f_equal length) in E. rewrite length_take in E. cbn in E.
    destruct (ch_in u); [by right|left]. cbn in E. destruct (ch_sizes u); lia.
  - intros l u. by eexists.
Qed.
