(* ===== verification/Uprintf.v ===== *)
(** Uprintf: user/printf.c, the formatted output of user programs, and that it
    writes what the kernel's printf prints, but for the case of hexadecimal
    digits.  The arguments are as in Printf. *)

From S2P Require Import Prelude CString Locks Printf Ulib.

Module Uprintf.
Section Uprintf.
  Context {U : Type} `{Unix U} (fd : Z).

Definition digits : list Z := [48; 49; 50; 51; 52; 53; 54; 55; 56; 57; 65; 66; 67; 68; 69; 70].

Definition putc (c : Z) : M U unit := write fd [u8 c] ;;; ret tt.

(** [buf[i++] = c], on a buffer of 20 characters. *)
Definition push (c : Z) (buf : list Z) : M U (list Z) :=
  if zlen buf <? 20 then ret (buf ++ [c]) else fail FBounds.

(** The do-while loop of printint; locals: x and buf[0..i). *)
Definition digits_body (base : Z) (st : Z * list Z) : M U (Z * list Z + list Z) :=
  let '(x, buf) := st in
  buf <- push (getz digits (x mod base)) buf ;;
  let x := x / base in
  if x =? 0 then ret (inr buf) else ret (inl (x, buf)).

Definition printint (xx base : Z) (sgn : bool) : M U unit :=
  let neg := sgn && (xx <? 0) in
  let x := if neg then u64 (- xx) else u64 xx in
  buf <- loop 64 (digits_body base) (x, []) ;;
  buf <- (if neg then push 45 buf else ret buf) ;;
  for_each (rev buf) putc.

Fixpoint printptr_loop (n : nat) (x : Z) : M U unit :=
  match n with
  | O => ret tt
  | S n' => putc (getz digits (Z.shiftr x 60)) ;;; printptr_loop n' (u64 (Z.shiftl x 4))
  end.

Definition printptr (x : Z) : M U unit := putc 48 ;;; putc 120 ;;; printptr_loop 16 x.

Definition va_num (ap : list varg) : M U (Z * list varg) :=
  match ap with VNum x :: ap' => ret (x, ap') | _ => fail FUninit end.
Definition va_str (ap : list varg) : M U (option (list Z) * list varg) :=
  match ap with VStr s :: ap' => ret (s, ap') | _ => fail FUninit end.

(** [printint(fd, va_arg(ap, T), base, sgn)] with the conversion of T. *)
Definition va_print (conv : Z -> Z) (base : Z) (sgn : bool) (ap : list varg) : M U (list varg) :=
  '(x, ap') <- va_num ap ;; printint (conv x) base sgn ;;; ret ap'.

(** The characters c0, c1, c2 behind '%': how far i moves, and the arguments
    that are left. *)
Definition conversion (c0 c1 c2 : Z) (ap : list varg) : M U (nat * list varg) :=
  let with_skip k m := ap' <- m ;; ret (k, ap') in
  if c0 =? 100 then with_skip 0%nat (va_print s32 10 true ap)
  else if (c0 =? 108) && (c1 =? 100) then with_skip 1%nat (va_print s64 10 true ap)
  else if (c0 =? 108) && (c1 =? 108) && (c2 =? 100) then with_skip 2%nat (va_print s64 10 true ap)
  else if c0 =? 117 then with_skip 0%nat (va_print u32 10 false ap)
  else if (c0 =? 108) && (c1 =? 117) then with_skip 1%nat (va_print s64 10 false ap)
  else if (c0 =? 108) && (c1 =? 108) && (c2 =? 117) then with_skip 2%nat (va_print s64 10 false ap)
  else if c0 =? 120 then with_skip 0%nat (va_print u32 16 false ap)
  else if (c0 =? 108) && (c1 =? 120) then with_skip 1%nat (va_print s64 16 false ap)
  else if (c0 =? 108) && (c1 =? 108) && (c2 =? 120) then with_skip 2%nat (va_print s64 16 false ap)
  else if c0 =? 112 then '(x, ap') <- va_num ap ;; printptr x ;;; ret (0%nat, ap')
  else if c0 =? 99 then '(x, ap') <- va_num ap ;; putc (u32 x) ;;; ret (0%nat, ap')
  else if c0 =? 115 then
    '(s, ap') <- va_str ap ;;
    for_each (cstr (default [40; 110; 117; 108; 108; 41] s)) putc ;;;
    ret (0%nat, ap')
  else if c0 =? 37 then putc 37 ;;; ret (0%nat, ap)
  else putc 37 ;;; putc c0 ;;; ret (0%nat, ap).

(** The loop over the format; locals: i, whether state is '%', and ap.  Behind
    the end of the list is the format's NUL. *)
Definition vprintf_body (fmt : list Z) (st : nat * bool * list varg) : M U (nat * bool * list varg + unit) :=
  let '(i, state, ap) := st in
  let at_ k := default 0 (fmt !! k) in
  let c0 := at_ i in
  if c0 =? 0 then ret (inr tt)
  else if negb state then
    if c0 =? 37 then ret (inl (S i, true, ap)) else putc c0 ;;; ret (inl (S i, false, ap))
  else
    let c1 := at_ (S i) in
    let c2 := if c1 =? 0 then 0 else at_ (S (S i)) in
    '(k, ap') <- conversion c0 c1 c2 ap ;;
    ret (inl (S (i + k), false, ap')).

Definition vprintf (fmt : list Z) (ap : list varg) : M U unit :=
  loop (S (length fmt)) (vprintf_body fmt) (0%nat, false, ap).

End Uprintf.

Definition fprintf {U} `{Unix U} (fd : Z) (fmt : list Z) (ap : list varg) : M U unit := vprintf fd fmt ap.
Definition printf {U} `{Unix U} (fmt : list Z) (ap : list varg) : M U unit := vprintf 1 fmt ap.
End Uprintf.

(** *** The two printfs *)

(** The character [a] of the kernel and [b] of a program: the same byte, or a
    hexadecimal digit in lower and in upper case. *)
Definition same (a b : Z) : Prop := b = u8 a \/ (97 <= a <= 102 /\ b = a - 32).

Section Same.
  Context {U : Type} `{Unix U} (inp out : U -> list Z) {fd : Z} `{!StreamOk U fd inp out}.

(** The kernel printed [o] and the program wrote the same. *)
Definition printed (s s' : printer) (u u' : U) : Prop :=
  exists o o', s' = set_out (pr_out s ++ o) s /\ out u' = out u ++ o' /\ inp u' = inp u /\ Forall2 same o o'.

(** Whenever [mk] returns, so does [mu], with related results and the same output. *)
Definition sim {A B} (R : A -> B -> Prop) (mk : M printer A) (mu : M U B) : Prop :=
  forall s a s' u, mk s = Ok (a, s') -> exists b u', mu u = Ok (b, u') /\ R a b /\ printed s s' u u'.

Lemma printed_refl s u : printed s s u u.
Proof. exists [], []. rewrite !app_nil_r. split_and!; [by destruct s|done|done|constructor]. Qed.

Lemma printed_trans s s1 s2 u u1 u2 : printed s s1 u u1 -> printed s1 s2 u1 u2 -> printed s s2 u u2.
Proof.
  intros (o & o' & -> & E1 & I1 & F1) (p & p' & -> & E2 & I2 & F2). exists (o ++ p), (o' ++ p'). cbn.
  rewrite E2, E1, !app_assoc, I2, I1. split_and!; [done|done|done|by apply Forall2_app].
Qed.

Lemma sim_ret {A B} (R : A -> B -> Prop) a b : R a b -> sim R (ret a) (ret b).
Proof. intros HR s a' s' u [= <- <-]. exists b, u. split_and!; [done|done|apply printed_refl]. Qed.

Lemma sim_fail {A B} (R : A -> B -> Prop) e mu : sim R (fail e) mu.
Proof. by intros s a s' u Hf. Qed.

Lemma sim_bind {A B A' B'} (R : A -> B -> Prop) (Q : A' -> B' -> Prop) mk mu kk ku :
  sim R mk mu -> (forall a b, R a b -> sim Q (kk a) (ku b)) -> sim Q (bind mk kk) (bind mu ku).
Proof.
  intros Hm Hk s a s' u E. unfold bind in E. destruct (mk s) as [[a1 s1]|] eqn:E1; [|done].
  destruct (Hm s a1 s1 u E1) as (b1 & u1 & F1 & HR & P1). destruct (Hk a1 b1 HR s1 a s' u1 E) as (b & u' & F & HQ & P).
  exists b, u'. rewrite (bind_ok _ _ _ _ _ F1). split_and!; [done|done|by eapply printed_trans].
Qed.

Lemma sim_putc c c' : same c (u8 c') -> sim eq (putc c) (Uprintf.putc 1 c').
Proof.
  intros Hs s a s' u [= <- <-]. destruct (write_stream (fd := fd) (inp := inp) (out := out) [u8 c'] u) as (u' & E & Hi & Ho).
  exists tt, u'. unfold Uprintf.putc. rewrite (bind_ok _ _ _ _ _ E). split_and!; [done|done|]. exists [c], [u8 c']. split_and!; [done|done|done|constructor; [done|constructor]].
Qed.

Lemma sim_puts l l' : Forall2 (fun c c' => same c (u8 c')) l l' -> sim eq (for_each l putc) (for_each l' (Uprintf.putc 1)).
Proof.
  induction 1 as [|c c' l l' Hc _ IH]; [by apply sim_ret|]. cbn [for_each]. eapply sim_bind; [by apply sim_putc|]. by intros _ _ _.
Qed.

Lemma sim_loop {X X' R R'} (Q : X -> X' -> Prop) (P : R -> R' -> Prop) bk bu :
  (forall x x', Q x x' -> sim (fun r r' => match r, r' with inl y, inl y' => Q y y' | inr v, inr v' => P v v' | _, _ => False end) (bk x) (bu x')) ->
  forall fuel x x', Q x x' -> sim P (loop fuel bk x) (loop fuel bu x').
Proof.
  intros Hb fuel. induction fuel as [|fuel IH]; intros x x' HQ; [apply sim_fail|]. cbn [loop]. eapply sim_bind; [by apply Hb|].
  intros [y|v] [y'|v'] Hr; try done; [by apply IH|by apply sim_ret].
Qed.

(** Characters in a buffer. *)
Definition chars (l l' : list Z) : Prop := Forall2 (fun c c' => same c (u8 c')) l l'.

Lemma same_u8 c : same c (u8 c).
Proof. by left. Qed.

Lemma same_digit d : same (getz digits d) (u8 (getz Uprintf.digits d)).
Proof.
  unfold getz. destruct (decide (Z.to_nat d < 16)%nat) as [Hd|Hd]; [|rewrite !lookup_ge_None_2 by (cbn; lia); by left].
  assert (Z.to_nat d ∈ seq 0 16) as Hin by (apply elem_of_seq; lia). revert Hin. generalize (Z.to_nat d). apply Forall_forall.
  cbn [seq]. repeat (apply Forall_cons; split; [first [by left|right; by vm_compute]|]). by apply Forall_nil.
Qed.

Lemma sim_push c c' l l' : same c (u8 c') -> chars l l' -> sim chars (push c l) (Uprintf.push c' l').
Proof.
  intros Hc Hl. unfold push, Uprintf.push, zlen. rewrite (Forall2_length _ _ _ Hl). destruct (_ <? 20); [|apply sim_fail].
  apply sim_ret. apply Forall2_app; [done|]. constructor; [done|constructor].
Qed.

Lemma sim_printint xx base sign : sim eq (printint xx base sign) (Uprintf.printint 1 xx base sign).
Proof.
  unfold printint, Uprintf.printint. eapply (sim_bind chars).
  - eapply (sim_loop (fun st st' => st.1 = st'.1 /\ chars st.2 st'.2)); [|split; [done|constructor]].
    intros [x l] [x' l'] [E Hl]. cbn in E, Hl. subst x'. unfold digits_body, Uprintf.digits_body.
    eapply sim_bind; [apply sim_push; [apply same_digit|done]|]. intros k k' Hk. destruct (x / base =? 0); by apply sim_ret.
  - intros l l' Hl. eapply (sim_bind chars).
    + destruct (sign && (xx <? 0)); [apply sim_push; [by left|done]|by apply sim_ret].
    + intros k k' Hk. apply sim_puts. apply Forall2_reverse in Hk. unfold reverse in Hk. by rewrite <-!rev_alt in Hk.
Qed.

Lemma sim_printptr_loop n : forall x, sim eq (printptr_loop n x) (Uprintf.printptr_loop 1 n x).
Proof.
  induction n as [|n IH]; intros x; [by apply sim_ret|]. cbn [printptr_loop Uprintf.printptr_loop]. unfold printptr_body.
  intros s a s' u E. rewrite bind_assoc in E. revert s a s' u E. change (sim eq (putc (getz digits (Z.shiftr x 60)) ;;; y <- ret (u64 (Z.shiftl x 4)) ;; printptr_loop n y)
    (Uprintf.putc 1 (getz Uprintf.digits (Z.shiftr x 60)) ;;; Uprintf.printptr_loop 1 n (u64 (Z.shiftl x 4)))).
  eapply sim_bind; [apply sim_putc, same_digit|]. intros _ _ _ s a s' u E. rewrite ret_bind in E. by apply IH.
Qed.

Lemma sim_printptr x : sim eq (printptr x) (Uprintf.printptr 1 x).
Proof.
  unfold printptr, Uprintf.printptr. eapply sim_bind; [apply sim_putc; by left|]. intros _ _ _. eapply sim_bind; [apply sim_putc; by left|].
  intros _ _ _. apply sim_printptr_loop.
Qed.

Lemma sim_va_num ap : sim eq (va_num ap) (Uprintf.va_num ap).
Proof. destruct ap as [|[x|x] ap]; [apply sim_fail|by apply sim_ret|apply sim_fail]. Qed.

Lemma sim_va_str ap : sim eq (va_str ap) (Uprintf.va_str ap).
Proof. destruct ap as [|[x|x] ap]; [apply sim_fail|apply sim_fail|by apply sim_ret]. Qed.

Lemma sim_va_print conv base sign ap : sim eq (va_print conv base sign ap) (Uprintf.va_print 1 conv base sign ap).
Proof.
  eapply sim_bind; [apply sim_va_num|]. intros [x ap'] _ <-. eapply sim_bind; [apply sim_printint|]. intros _ _ _. by apply sim_ret.
Qed.

(** A conversion behind which the format goes on. *)
Lemma sim_conversion c0 c1 c2 ap : c0 <> 0 -> sim (fun r r' => r = Some r') (conversion c0 c1 c2 ap) (Uprintf.conversion 1 c0 c1 c2 ap).
Proof.
  intros Hc. unfold conversion, Uprintf.conversion.
  assert (forall (k : nat) (m : M printer (list varg)) (m' : M U (list varg)), sim eq m m' -> sim (fun r r' => r = Some r') (ap' <- m ;; ret (Some (k, ap'))) (ap' <- m' ;; ret (k, ap'))) as Hs.
  { intros k m m' Hm. eapply sim_bind; [exact Hm|]. intros ap1 _ <-. by apply sim_ret. }
  repeat (match goal with |- sim _ (if ?b then _ else _) _ => destruct b eqn:? end; [first [apply Hs, sim_va_print|idtac]|]).
  - eapply sim_bind; [apply sim_va_num|]. intros [x ap'] _ <-. eapply sim_bind; [apply sim_printptr|]. intros _ _ _. by apply sim_ret.
  - eapply sim_bind; [apply sim_va_num|]. intros [x ap'] _ <-. eapply sim_bind; [apply sim_putc|]; [left; unfold u8, u32, s32; dlia|]. intros _ _ _. by apply sim_ret.
  - eapply sim_bind; [apply sim_va_str|]. intros [x ap'] _ <-. eapply sim_bind; [apply sim_puts|intros _ _ _; by apply sim_ret]. apply Forall2_same_length_lookup_2; [done|].
    intros i a b Ha Hb. rewrite Ha in Hb. injection Hb as <-. by left.
  - eapply sim_bind; [apply sim_putc; by left|]. intros _ _ _. by apply sim_ret.
  - lia.
  - eapply sim_bind; [apply sim_putc; by left|]. intros _ _ _. eapply sim_bind; [apply sim_putc; by left|]. intros _ _ _. by apply sim_ret.
Qed.

Lemma format_sim fmt fuel : forall fuel' i ap s s' u, loop fuel (printf_body fmt) (i, ap) s = Ok (tt, s') -> (length fmt - i < fuel')%nat ->
  exists u', loop fuel' (Uprintf.vprintf_body 1 fmt) (i, false, ap) u = Ok (tt, u') /\ printed s s' u u'.
Proof.
  induction fuel as [|fuel IH]; intros fuel' i ap s s' u E Hf; [done|]. cbn [loop] in E. destruct fuel' as [|fuel']; [lia|]. cbn [loop].
  unfold printf_body at 1 in E. unfold Uprintf.vprintf_body at 1. cbv beta iota zeta in E |- *. set (c := default 0 (fmt !! i)) in *.
  revert E. destruct (Z.eqb_spec c 0) as [E0|Hc0]; intros E; [rewrite ret_bind in E; rewrite ret_bind; injection E as <-; exists u; split; [done|apply printed_refl]|].
  assert (i < length fmt)%nat as Hi by (destruct (decide (i < length fmt)%nat) as [|Hn]; [done|]; unfold c in Hc0; by rewrite lookup_ge_None_2 in Hc0 by lia).
  revert E. cbn [negb]. destruct (Z.eqb_spec c 37) as [E37|Hc]; cbn [negb]; intros E.
  - rewrite ret_bind. destruct fuel' as [|fuel']; [lia|]. cbn [loop]. unfold Uprintf.vprintf_body at 1. cbv beta iota zeta. set (c0 := default 0 (fmt !! S i)) in *.
    revert E. destruct (Z.eqb_spec c0 0) as [Ec|Hc1]; intros E.
    + rewrite Ec in E. change (conversion 0 _ _ ap) with (ret (S := printer) (@None (nat * list varg))) in E. rewrite bind_assoc, ret_bind, ret_bind in E. injection E as <-.
      rewrite ret_bind. exists u. split; [done|apply printed_refl].
    + assert (S i < length fmt)%nat as Hi' by (destruct (decide (S i < length fmt)%nat) as [|Hn]; [done|]; unfold c0 in Hc1; by rewrite lookup_ge_None_2 in Hc1 by lia).
      cbn [negb]. rewrite bind_assoc in E. set (c1 := default 0 (fmt !! S (S i))) in *. set (c2 := if c1 =? 0 then 0 else default 0 (fmt !! S (S (S i)))) in *.
      unfold bind at 1 in E. destruct (conversion c0 c1 c2 ap s) as [[r s1]|] eqn:Er; [|done].
      destruct (sim_conversion c0 c1 c2 ap Hc1 s r s1 u Er) as ([k ap'] & u1 & F1 & -> & P1). rewrite ret_bind in E.
      destruct (IH fuel' (S (S i + k)) ap' s1 s' u1 E) as (u' & F2 & P2); [lia|]. exists u'. split; [|by eapply printed_trans].
      rewrite bind_assoc, (bind_ok _ _ _ _ _ F1), ret_bind. exact F2.
  - rewrite bind_assoc in E. rewrite bind_assoc. unfold bind at 1 in E. destruct (putc c s) as [[[] s1]|] eqn:Ep; [|done].
    destruct (sim_putc c c (same_u8 c) s tt s1 u Ep) as (b & u1 & F1 & _ & P1). rewrite ret_bind in E.
    destruct (IH fuel' (S i) ap s1 s' u1 E) as (u' & F2 & P2); [lia|]. exists u'. split; [|by eapply printed_trans].
    rewrite (bind_ok _ _ _ _ _ F1), ret_bind. exact F2.
Qed.
End Same.

(** The lock of printf has no output. *)
Lemma lock_out (b : bool) m s s' : when b (on_lock m) s = Ok (tt, s') -> pr_out s' = pr_out s.
Proof. destruct b; [|by intros [= <-]]. cbn. unfold on_lock, zoom. destruct (m (pr_lock s)) as [[[] k]|]; [|done]. by intros [= <-]. Qed.


