(* ===== verification/Filters.v ===== *)
(** Filters: user/cat.c, user/wc.c and user/echo.c.  A program gives its exit
    status; exit inside a routine is the result [Some status]. *)

From S2P Require Import Prelude CString Locks Printf Ulib Uprintf.

(** The characters of a string constant. *)
Fixpoint text (s : string) : list Z :=
  match s with
  | EmptyString => []
  | String.String a s' => Z.of_N (Ascii.N_of_ascii a) :: text s'
  end.

Section Programs.
  Context {U : Type} `{Unix U}.

Definition NBUF : Z := 512.

(** *** cat *)

Definition cat_body (fd : Z) (_ : unit) : M U (unit + option Z) :=
  '(n, buf) <- read fd NBUF ;;
  if 0 <? n then
    k <- write 1 (take (Z.to_nat n) buf) ;;
    if negb (k =? n) then Uprintf.fprintf 2 (text "cat: write error" ++ [10]) [] ;;; ret (inr (Some 1))
    else ret (inl tt)
  else if n <? 0 then Uprintf.fprintf 2 (text "cat: read error" ++ [10]) [] ;;; ret (inr (Some 1))
  else ret (inr None).

Definition cat (fuel : nat) (fd : Z) : M U (option Z) := loop fuel (cat_body fd) tt.

Fixpoint cat_files (fuel : nat) (args : list (list Z)) : M U Z :=
  match args with
  | [] => ret 0
  | a :: args' =>
      fd <- open a 0 ;;
      if fd <? 0 then Uprintf.fprintf 2 (text "cat: cannot open %s" ++ [10]) [VStr (Some a)] ;;; ret 1
      else
        r <- cat fuel fd ;;
        match r with
        | Some st => ret st
        | None => close fd ;;; cat_files fuel args'
        end
  end.

(** main with the arguments behind argv[0]. *)
Definition cat_main (fuel : nat) (args : list (list Z)) : M U Z :=
  match args with
  | [] => r <- cat fuel 0 ;; ret (default 0 r)
  | _ => cat_files fuel args
  end.

(** *** wc *)

Record counts : Type := Counts { n_l : Z; n_w : Z; n_c : Z; inword : bool }.

Definition wc_char (st : counts) (b : Z) : counts :=
  let c := s32 (n_c st + 1) in
  let l := if b =? 10 then s32 (n_l st + 1) else n_l st in
  match User.strchr [32; 13; 9; 10; 11] b with
  | Some _ => Counts l (n_w st) c false
  | None => if inword st then Counts l (n_w st) c true else Counts l (s32 (n_w st + 1)) c true
  end.

Definition wc_body (fd : Z) (st : counts) : M U (counts + Z * counts) :=
  '(n, buf) <- read fd NBUF ;;
  if 0 <? n then ret (inl (foldl wc_char st (take (Z.to_nat n) buf))) else ret (inr (n, st)).

Definition wc (fuel : nat) (fd : Z) (name : list Z) : M U (option Z) :=
  '(n, st) <- loop fuel (wc_body fd) (Counts 0 0 0 false) ;;
  if n <? 0 then Uprintf.printf (text "wc: read error" ++ [10]) [] ;;; ret (Some 1)
  else Uprintf.printf (text "%d %d %d %s" ++ [10]) [VNum (u64 (n_l st)); VNum (u64 (n_w st)); VNum (u64 (n_c st)); VStr (Some name)] ;;; ret None.

Fixpoint wc_files (fuel : nat) (args : list (list Z)) : M U Z :=
  match args with
  | [] => ret 0
  | a :: args' =>
      fd <- open a 0 ;;
      if fd <? 0 then Uprintf.printf (text "wc: cannot open %s" ++ [10]) [VStr (Some a)] ;;; ret 1
      else
        r <- wc fuel fd a ;;
        match r with
        | Some st => ret st
        | None => close fd ;;; wc_files fuel args'
        end
  end.

Definition wc_main (fuel : nat) (args : list (list Z)) : M U Z :=
  match args with
  | [] => r <- wc fuel 0 [] ;; ret (default 0 r)
  | _ => wc_files fuel args
  end.

(** *** echo *)

Fixpoint echo (args : list (list Z)) : M U Z :=
  match args with
  | [] => ret 0
  | a :: args' =>
      write 1 (take (Z.to_nat (User.strlen a)) a) ;;;
      write 1 (if args' is [] then [10] else [32]) ;;;
      echo args'
  end.

End Programs.

(** *** The reference definitions *)

Definition space (c : Z) : bool := existsb (Z.eqb c) [32; 13; 9; 10; 11].

(** The fields of a text, cut at every space; a word is a field with a
    character in it. *)
Fixpoint fields (s : list Z) : list (list Z) :=
  match s with
  | [] => [[]]
  | c :: s' =>
      if space c then [] :: fields s'
      else match fields s' with f :: fs => (c :: f) :: fs | [] => [[c]] end
  end.

Definition words (s : list Z) : nat := length (filter (fun f => f <> []) (fields s)).
Definition lines (s : list Z) : nat := length (filter (fun c => c = 10) s).

Lemma strchr_space c : match User.strchr [32; 13; 9; 10; 11] c with Some _ => true | None => false end = space c.
Proof.
  unfold space. cbn [User.strchr existsb]. change (32 =? 0) with false. change (13 =? 0) with false. change (9 =? 0) with false.
  change (10 =? 0) with false. change (11 =? 0) with false. cbv beta iota. rewrite (Z.eqb_sym 32), (Z.eqb_sym 13), (Z.eqb_sym 9), (Z.eqb_sym 10), (Z.eqb_sym 11).
  destruct (c =? 32), (c =? 13), (c =? 9), (c =? 10), (c =? 11); done.
Qed.

Lemma fields_hd s : exists f fs, fields s = f :: fs /\ (f = [] <-> match s with [] => True | c :: _ => space c = true end).
Proof.
  destruct s as [|c s]; cbn [fields]; [by exists [], []|]. destruct (space c); [by exists [], (fields s)|].
  destruct (fields s) as [|f fs]; [by exists [c], []|by exists (c :: f), fs].
Qed.

(** A text that goes on with a word that has been counted. *)
Definition cont (inw : bool) (s : list Z) : Z := match s with c :: _ => if inw && negb (space c) then 1 else 0 | [] => 0 end.

Lemma words_cons c s : Z.of_nat (words (c :: s)) = Z.of_nat (words s) + (if space c then 0 else 1 - cont true s).
Proof.
  unfold words. cbn [fields]. destruct (fields_hd s) as (f & fs & -> & Hf). destruct (space c) eqn:Ec.
  - rewrite filter_cons. destruct (decide ([] <> [])); [done|]. lia.
  - rewrite !filter_cons. rewrite decide_True by done. cbn [cont]. destruct s as [|d s'].
    + rewrite decide_False by (intros Hn; apply Hn, Hf; done). cbn. lia.
    + cbn [cont andb]. destruct (space d).
      * rewrite decide_False by (intros Hn; apply Hn, Hf; done). cbn [negb length]. lia.
      * rewrite decide_True by (intros Hn; apply Hf in Hn; done). cbn [negb length]. lia.
Qed.

Lemma counts_small s : Z.of_nat (lines s) <= zlen s /\ Z.of_nat (words s) <= zlen s.
Proof.
  induction s as [|c s [IH1 IH2]]; [done|]. unfold zlen in *. cbn [length]. split.
  - unfold lines in *. rewrite filter_cons. destruct (decide (c = 10)); cbn [length]; lia.
  - rewrite words_cons. assert (0 <= cont true s) by (destruct s as [|d s]; cbn [cont andb]; [done|by destruct (space d)]). destruct (space c); lia.
Qed.

Definition bounded (st : counts) (s : list Z) : Prop :=
  0 <= n_l st /\ 0 <= n_w st /\ n_l st <= n_c st /\ n_w st <= n_c st /\ n_c st + zlen s < 2 ^ 31.

(** The loop over the characters counts lines, words and characters. *)
Lemma wc_fold s : forall st, bounded st s -> exists b,
  foldl wc_char st s = Counts (n_l st + Z.of_nat (lines s)) (n_w st + Z.of_nat (words s) - cont (inword st) s) (n_c st + zlen s) b.
Proof.
  induction s as [|c s IH]; intros st Hb.
  - exists (inword st). change (words []) with 0%nat. change (lines []) with 0%nat. destruct st as [l w n b]. unfold zlen. cbn. f_equal; lia.
  - destruct Hb as (H1 & H2 & H3 & H4 & H5). assert (zlen (c :: s) = zlen s + 1) as El by (unfold zlen; cbn; lia). assert (0 <= zlen s) as Hz by (unfold zlen; lia).
    assert (Z.of_nat (lines (c :: s)) = (if c =? 10 then 1 else 0) + Z.of_nat (lines s)) as Ell.
    { unfold lines. rewrite filter_cons. destruct (decide (c = 10)) as [->|Hne]; [cbn; lia|]. by rewrite (proj2 (Z.eqb_neq _ _) Hne). }
    assert (exists w', wc_char st c = Counts (n_l st + (if c =? 10 then 1 else 0)) w' (n_c st + 1) (negb (space c)) /\
      w' = n_w st + (if space c || inword st then 0 else 1)) as (w' & Ew & Hw).
    { unfold wc_char. rewrite !s32_small by lia. pose proof (strchr_space c) as Hs. eexists. split; [|reflexivity].
      destruct (User.strchr _ c), (space c); try done; [|destruct (inword st)]; cbn [orb negb]; f_equal; destruct (c =? 10); lia. }
    cbn [foldl]. rewrite Ew. destruct (IH (Counts (n_l st + (if c =? 10 then 1 else 0)) w' (n_c st + 1) (negb (space c)))) as [b Eb].
    + unfold bounded. cbn. destruct (c =? 10), (space c || inword st); lia.
    + exists b. rewrite Eb. cbn [n_l n_w n_c inword]. rewrite words_cons, Ell, El, Hw. cbn [cont]. 
      assert (cont (negb (space c)) s = if space c then 0 else cont true s) as -> by (destruct (space c), s; done).
      f_equal; destruct (space c), (inword st); cbn [orb andb negb]; lia.
Qed.

(** Words with spaces between them and a newline behind. *)
Fixpoint unwords (ws : list (list Z)) : list Z :=
  match ws with
  | [] => []
  | w :: ws' => w ++ (if ws' is [] then [10] else 32 :: unwords ws')
  end.

(** *** Programs on streams *)

Section Streams.
  Context {U : Type} `{Unix U} (inp out : U -> list Z) {fd : Z} `{!StreamOk U fd inp out}.

(** From [u] to [u'] the program wrote [o] and read nothing. *)
Definition wrote (u u' : U) (o : list Z) : Prop := out u' = out u ++ o /\ inp u' = inp u.

Lemma wrote_trans u u1 u2 o1 o2 : wrote u u1 o1 -> wrote u1 u2 o2 -> wrote u u2 (o1 ++ o2).
Proof. intros [H1 H2] [H3 H4]. split; [by rewrite H3, H1, app_assoc|congruence]. Qed.

Lemma put_run c u : is_byte c -> exists u', Uprintf.putc 1 c u = Ok (tt, u') /\ wrote u u' [c].
Proof.
  intros Hc. destruct (write_stream (fd := fd) (inp := inp) (out := out) [u8 c] u) as (u' & E & Hi & Ho). exists u'. unfold Uprintf.putc. rewrite (bind_ok _ _ _ _ _ E).
  split; [done|]. unfold u8, is_byte in *. rewrite Z.mod_small in Ho by lia. done.
Qed.

Lemma puts_wrote l : forall u, Forall is_byte l -> exists u', for_each l (Uprintf.putc 1) u = Ok (tt, u') /\ wrote u u' l.
Proof.
  induction l as [|c l IH]; intros u Hl; [exists u; split; [done|split; [by rewrite app_nil_r|done]]|].
  apply Forall_cons in Hl as [Hc Hl]. destruct (put_run c u Hc) as (u1 & E1 & W1). destruct (IH u1 Hl) as (u2 & E2 & W2).
  exists u2. cbn [for_each]. rewrite (bind_ok _ _ _ _ _ E1). split; [done|]. by apply (wrote_trans u u1 u2 [c] l).
Qed.

(** A decimal number. *)
Lemma printint_wrote x u : - 2 ^ 63 <= x < 2 ^ 63 -> exists o u', Uprintf.printint 1 x 10 true u = Ok (tt, u') /\ wrote u u' o /\ number_of 10 o = x.
Proof.
  intros Hx. destruct (printint_canonical x 10 true wit_printer (or_introl eq_refl) Hx) as (o & E & _ & Hn & _ & Hd).
  destruct (sim_printint inp out x 10 true wit_printer tt _ u E) as (b & u' & E' & <- & (k & o' & Hk & Ho & Hi & Hs)).
  assert (k = o) as -> by (apply (f_equal pr_out) in Hk; cbn in Hk; done).
  assert (o = o') as <-.
  { specialize (Hd eq_refl). clear -Hd Hs. induction Hs as [|a b l l' Hab _ IH]; [done|]. apply Forall_cons in Hd as [Ha Hd]. f_equal; [|by apply IH].
    destruct Hab as [->|[]]; [|lia]. unfold u8. rewrite Z.mod_small by lia. done. }
  exists o, u'. done.
Qed.

(** Steps of vprintf: a character, %d, %s and the end of the format. *)
Lemma vp_char fmt fuel i ap u c : fmt !! i = Some c -> c <> 0 -> c <> 37 -> is_byte c ->
  exists u', wrote u u' [c] /\ loop (S fuel) (Uprintf.vprintf_body 1 fmt) (i, false, ap) u = loop fuel (Uprintf.vprintf_body 1 fmt) (S i, false, ap) u'.
Proof.
  intros Hi H0 H37 Hb. destruct (put_run c u Hb) as (u' & E & W). exists u'. split; [done|]. cbn [loop]. unfold Uprintf.vprintf_body at 1. rewrite Hi. cbn [from_option id negb].
  rewrite (proj2 (Z.eqb_neq c 0) H0), (proj2 (Z.eqb_neq c 37) H37), bind_assoc, (bind_ok _ _ _ _ _ E), ret_bind. done.
Qed.

Lemma vp_percent fmt fuel i ap u : fmt !! i = Some 37 ->
  loop (S fuel) (Uprintf.vprintf_body 1 fmt) (i, false, ap) u = loop fuel (Uprintf.vprintf_body 1 fmt) (S i, true, ap) u.
Proof. intros Hi. cbn [loop]. unfold Uprintf.vprintf_body at 1. by rewrite Hi. Qed.

Lemma vp_num fmt fuel i ap u x : fmt !! i = Some 37 -> fmt !! S i = Some 100 -> exists o u', wrote u u' o /\ number_of 10 o = s32 x /\
  loop (S (S fuel)) (Uprintf.vprintf_body 1 fmt) (i, false, VNum x :: ap) u = loop fuel (Uprintf.vprintf_body 1 fmt) (S (S i), false, ap) u'.
Proof.
  intros Hi Hi'. destruct (printint_wrote (s32 x) u) as (o & u' & E & W & Hn); [unfold s32; dlia|]. exists o, u'. split; [done|]. split; [done|].
  rewrite vp_percent by done. cbn [loop]. unfold Uprintf.vprintf_body at 1. rewrite Hi'. cbn [from_option id negb]. unfold Uprintf.conversion. change (100 =? 100) with true.
  change (100 =? 0) with false. cbv iota zeta. unfold Uprintf.va_print, Uprintf.va_num. rewrite !bind_assoc, ret_bind, bind_assoc, (bind_ok _ _ _ _ _ E), !ret_bind.
  by rewrite Nat.add_0_r.
Qed.

Lemma vp_str fmt fuel i ap u s : fmt !! i = Some 37 -> fmt !! S i = Some 115 -> Forall is_byte (cstr s) -> exists u', wrote u u' (cstr s) /\
  loop (S (S fuel)) (Uprintf.vprintf_body 1 fmt) (i, false, VStr (Some s) :: ap) u = loop fuel (Uprintf.vprintf_body 1 fmt) (S (S i), false, ap) u'.
Proof.
  intros Hi Hi' Hs. destruct (puts_wrote (cstr s) u Hs) as (u' & E & W). exists u'. split; [done|].
  rewrite vp_percent by done. cbn [loop]. unfold Uprintf.vprintf_body at 1. rewrite Hi'. cbn [from_option id negb]. unfold Uprintf.conversion.
  change (115 =? 0) with false. change (115 =? 100) with false. change (115 =? 108) with false. change (115 =? 117) with false. change (115 =? 120) with false.
  change (115 =? 112) with false. change (115 =? 99) with false. change (115 =? 115) with true. cbn [andb]. cbv iota zeta.
  unfold Uprintf.va_str. rewrite !bind_assoc, ret_bind. cbn [from_option id]. rewrite bind_assoc, (bind_ok _ _ _ _ _ E), !ret_bind. by rewrite Nat.add_0_r.
Qed.

Lemma vp_end fmt fuel i state ap u : fmt !! i = None -> loop (S fuel) (Uprintf.vprintf_body 1 fmt) (i, state, ap) u = Ok (tt, u).
Proof. intros Hi. cbn [loop]. unfold Uprintf.vprintf_body at 1. by rewrite Hi. Qed.

(** The line that wc prints. *)
Lemma wc_line a b c name u : Forall is_byte (cstr name) -> 0 <= a < 2 ^ 31 -> 0 <= b < 2 ^ 31 -> 0 <= c < 2 ^ 31 -> exists o1 o2 o3 u',
  Uprintf.printf (text "%d %d %d %s" ++ [10]) [VNum (u64 a); VNum (u64 b); VNum (u64 c); VStr (Some name)] u = Ok (tt, u') /\
  wrote u u' (o1 ++ [32] ++ o2 ++ [32] ++ o3 ++ [32] ++ cstr name ++ [10]) /\ number_of 10 o1 = a /\ number_of 10 o2 = b /\ number_of 10 o3 = c.
Proof.
  intros Hn Ha Hb Hc. unfold Uprintf.printf, Uprintf.vprintf. set (fmt := text "%d %d %d %s" ++ [10]). change (S (length fmt)) with 13%nat.
  assert (forall x, 0 <= x < 2 ^ 31 -> s32 (u64 x) = x) as Hx by (intros x Hx; unfold u64; rewrite Z.mod_small by lia; apply s32_small; lia).
  destruct (vp_num fmt 11 0 [VNum (u64 b); VNum (u64 c); VStr (Some name)] u (u64 a)) as (o1 & u1 & W1 & N1 & ->); [done|done|].
  destruct (vp_char fmt 10 2 [VNum (u64 b); VNum (u64 c); VStr (Some name)] u1 32) as (u2 & W2 & ->); [done|done|done|done|].
  destruct (vp_num fmt 8 3 [VNum (u64 c); VStr (Some name)] u2 (u64 b)) as (o2 & u3 & W3 & N2 & ->); [done|done|].
  destruct (vp_char fmt 7 5 [VNum (u64 c); VStr (Some name)] u3 32) as (u4 & W4 & ->); [done|done|done|done|].
  destruct (vp_num fmt 5 6 [VStr (Some name)] u4 (u64 c)) as (o3 & u5 & W5 & N3 & ->); [done|done|].
  destruct (vp_char fmt 4 8 [VStr (Some name)] u5 32) as (u6 & W6 & ->); [done|done|done|done|].
  destruct (vp_str fmt 2 9 [] u6 name) as (u7 & W7 & ->); [done|done|done|].
  destruct (vp_char fmt 1 11 [] u7 10) as (u8 & W8 & ->); [done|done|done|done|]. rewrite vp_end by done.
  exists o1, o2, o3, u8. rewrite N1, N2, N3, !Hx by done. split_and!; try done. by repeat (eapply wrote_trans; [eassumption|]).
Qed.

(** Reading to the end in whatever pieces. *)
Lemma wc_read fuel : forall st u, (length (inp u) < fuel)%nat -> exists u',
  loop fuel (wc_body fd) st u = Ok ((0, foldl wc_char st (inp u)), u') /\ inp u' = [] /\ out u' = out u.
Proof.
  induction fuel as [|fuel IH]; intros st u Hf; [lia|]. destruct (read_stream (fd := fd) (inp := inp) (out := out) NBUF u) as (l & u1 & E & Ho & Hi & Hl & Hend); [done|].
  cbn [loop]. unfold wc_body at 1. rewrite bind_assoc, (bind_ok _ _ _ _ _ E). destruct l as [|c l].
  - destruct (Hend eq_refl) as [|Hn]; [done|]. exists u1. rewrite Hn in Hi |- *. cbn [app] in Hi. split_and!; done.
  - assert (0 < zlen (c :: l)) as Hp by (unfold zlen; cbn; lia). rewrite (proj2 (Z.ltb_lt _ _) Hp), ret_bind.
    replace (Z.to_nat (zlen (c :: l))) with (length (c :: l)) by (unfold zlen; lia). rewrite take_ge by lia.
    destruct (IH (foldl wc_char st (c :: l)) u1) as (u2 & E2 & Hi2 & Ho2).
    + apply (f_equal length) in Hi. rewrite length_app in Hi. cbn in Hi. lia.
    + exists u2. rewrite Hi, foldl_app. split_and!; [done|done|congruence].
Qed.

Lemma cat_read fuel : forall u, (length (inp u) < fuel)%nat -> exists u', cat fuel fd u = Ok (None, u') /\ inp u' = [] /\ out u' = out u ++ inp u.
Proof.
  unfold cat. induction fuel as [|fuel IH]; intros u Hf; [lia|]. destruct (read_stream (fd := fd) (inp := inp) (out := out) NBUF u) as (l & u1 & E & Ho & Hi & Hl & Hend); [done|].
  cbn [loop]. unfold cat_body at 1. rewrite bind_assoc, (bind_ok _ _ _ _ _ E). destruct l as [|c l].
  - destruct (Hend eq_refl) as [|Hn]; [done|]. exists u1. rewrite Hn in Hi |- *. cbn [app] in Hi. rewrite app_nil_r. split_and!; done.
  - assert (0 < zlen (c :: l)) as Hp by (unfold zlen; cbn; lia). rewrite (proj2 (Z.ltb_lt _ _) Hp), bind_assoc.
    replace (Z.to_nat (zlen (c :: l))) with (length (c :: l)) by (unfold zlen; lia). rewrite take_ge by lia.
    destruct (write_stream (fd := fd) (inp := inp) (out := out) (c :: l) u1) as (u2 & E2 & Hi2 & Ho2). rewrite (bind_ok _ _ _ _ _ E2), Z.eqb_refl. cbn [negb]. rewrite ret_bind.
    destruct (IH u2) as (u3 & E3 & Hi3 & Ho3); [rewrite Hi2; apply (f_equal length) in Hi; rewrite length_app in Hi; cbn in Hi; lia|].
    exists u3. split_and!; [done|done|]. rewrite Ho3, Ho2, Ho, Hi2, Hi, app_assoc. done.
Qed.

Lemma echo_run args : forall u, exists u', echo args u = Ok (0, u') /\ wrote u u' (unwords (cstr <$> args)).
Proof.
  induction args as [|a args IH]; intros u; [exists u; split; [done|]; split; [by rewrite app_nil_r|done]|].
  cbn [echo]. rewrite take_cstr. destruct (write_stream (fd := fd) (inp := inp) (out := out) (cstr a) u) as (u1 & E1 & Hi1 & Ho1). rewrite (bind_ok _ _ _ _ _ E1).
  set (sep := match args with [] => [10] | _ => [32] end). destruct (write_stream (fd := fd) (inp := inp) (out := out) sep u1) as (u2 & E2 & Hi2 & Ho2).
  rewrite (bind_ok _ _ _ _ _ E2). destruct (IH u2) as (u3 & E3 & Ho3 & Hi3). exists u3. split; [done|]. split; [|congruence]. rewrite Ho3, Ho2, Ho1, <-!app_assoc.
  do 2 f_equal. unfold sep. by destruct args as [|a' args]; cbn [fmap list_fmap unwords app].
Qed.
End Streams.

(** C35: wc counts right: however its reads cut the text, wc prints one line with the
    number of newlines, the number of words (maximal runs of characters that are
    not spaces) and the number of characters of the text, and the name, for
    every text shorter than 2 GB.  cat copies its input, and echo writes its
    arguments. *)
Theorem filters_correct {U : Type} `{Unix U} (inp out : U -> list Z) (fd : Z) {HS : StreamOk U fd inp out} fuel name args u
    (Hf : (length (inp u) < fuel)%nat) (Hs : zlen (inp u) < 2 ^ 31) (Hn : Forall is_byte (cstr name)) :
  (exists l w c u', wc fuel fd name u = Ok (None, u') /\ inp u' = [] /\
    out u' = out u ++ l ++ [32] ++ w ++ [32] ++ c ++ [32] ++ cstr name ++ [10] /\
    number_of 10 l = Z.of_nat (lines (inp u)) /\ number_of 10 w = Z.of_nat (words (inp u)) /\ number_of 10 c = zlen (inp u)) /\
  (exists u', cat fuel fd u = Ok (None, u') /\ inp u' = [] /\ out u' = out u ++ inp u) /\
  (exists u', echo args u = Ok (0, u') /\ inp u' = inp u /\ out u' = out u ++ unwords (cstr <$> args)).
Proof.
  split; [|split; [by apply cat_read|destruct (echo_run inp out args u) as (u' & E & Ho & Hi); eauto]].
  destruct (wc_read inp out fuel (Counts 0 0 0 false) u Hf) as (u1 & E & Hi & Ho).
  destruct (wc_fold (inp u) (Counts 0 0 0 false)) as [b Eb]; [unfold bounded; cbn; lia|]. cbn [n_l n_w n_c inword] in Eb.
  assert (cont false (inp u) = 0) as Ec by (by destruct (inp u)). rewrite Ec, Z.sub_0_r, !Z.add_0_l in Eb.
  destruct (counts_small (inp u)) as [Hl Hw].
  destruct (wc_line inp out (Z.of_nat (lines (inp u))) (Z.of_nat (words (inp u))) (zlen (inp u)) name u1) as (l & w & c & u2 & E2 & [Ho2 Hi2] & N1 & N2 & N3);
    [done|lia|lia|unfold zlen in *; lia|].
  exists l, w, c, u2. split_and!; [|congruence|congruence|done|done|done].
  unfold wc. rewrite (bind_ok _ _ _ _ _ E), Eb. cbn [n_l n_w n_c]. change (0 <? 0) with false. cbv iota. rewrite (bind_ok _ _ _ _ _ E2). done.
Qed.

(** "ab c" and "d" on two lines, read two characters at a time. *)
Lemma filters_correct_witness :
  let u := Chunks [97; 98; 32; 99; 10; 100] [1; 1; 1]%nat [] in
  exists l w c u', wc 7 0 [120] u = Ok (None, u') /\ ch_out u' = l ++ [32] ++ w ++ [32] ++ c ++ [32; 120; 10] /\
    number_of 10 l = 1 /\ number_of 10 w = 3 /\ number_of 10 c = 6.
Proof.
  intros u. destruct (filters_correct ch_in ch_out 0 7 [120] [] u) as [(l & w & c & u' & E & _ & Ho & N1 & N2 & N3) _].
  - cbn. lia.
  - vm_compute. done.
  - repeat constructor; done.
  - exists l, w, c, u'. split_and!; [exact E|exact Ho|exact N1|exact N2|exact N3].
Defined.
