(* ===== verification/Umalloc.v ===== *)
(** Umalloc: user/umalloc.c, the Kernighan and Ritchie allocator of user
    programs: a circular list of free blocks, sorted by address, threaded
    through the headers of the blocks.

    A header is found by its address; reading an address where no header was
    ever written, or touching memory outside the process, is a fault.  Sizes
    count headers of 16 bytes.  The kernel's decision on sbrk is a parameter. *)

From S2P Require Import Prelude.

Definition HDR : Z := 16.   (* sizeof(Header) *)

Record header : Type := Header { s_ptr : Z; s_size : Z }.

(** The headers, freep, and the end of the process's memory. *)
Record ma : Type := Ma { m_hdrs : gmap Z header; m_freep : Z; m_brk : Z }.
Definition set_freep (p : Z) (s : ma) : ma := Ma (m_hdrs s) p (m_brk s).

Section Malloc.
  (** The address of the variable base, the first address of the heap, and
      whether the kernel grows the process. *)
  Context (base lo : Z) (grow : Z -> Z -> bool).

Definition hdr (p : Z) : M ma header :=
  fun s => match m_hdrs s !! p with Some h => Ok (h, s) | None => Fault FUninit end.

Definition in_memory (p : Z) (s : ma) : bool := (p =? base) || ((lo <=? p) && (p + HDR <=? m_brk s)).
Definition put (p : Z) (h : header) : M ma unit :=
  fun s => if in_memory p s then Ok (tt, Ma (<[p := h]> (m_hdrs s)) (m_freep s) (m_brk s)) else Fault FBounds.
Definition set_ptr (p q : Z) : M ma unit := h <- hdr p ;; put p (Header q (s_size h)).
Definition set_size (p n : Z) : M ma unit := h <- hdr p ;; put p (Header (s_ptr h) n).
(** The size of a block whose header is not initialised. *)
Definition init_size (p n : Z) : M ma unit :=
  s <- gets m_hdrs ;; put p (Header (match s !! p with Some h => s_ptr h | None => 0 end) n).

(** [sbrk(n)], whose argument is an int. *)
Definition sbrk (n : Z) : M ma Z :=
  fun s => if grow (m_brk s) (s32 n) then Ok (m_brk s, Ma (m_hdrs s) (m_freep s) (m_brk s + s32 n)) else Ok (-1, s).

(** The loop of free. *)
Definition find_body (bp p : Z) : M ma (Z + Z) :=
  h <- hdr p ;;
  let nxt := s_ptr h in
  if (bp >? p) && (bp <? nxt) then ret (inr p)
  else if (p >=? nxt) && ((bp >? p) || (bp <? nxt)) then ret (inr p)
  else ret (inl nxt).

(** The block is joined with the one above it, and with the one below it. *)
Definition join_upper (bp p : Z) : M ma unit :=
  hp <- hdr p ;;
  hb <- hdr bp ;;
  if bp + HDR * s_size hb =? s_ptr hp then
    hn <- hdr (s_ptr hp) ;;
    set_size bp (u32 (s_size hb + s_size hn)) ;;;
    hp <- hdr p ;;
    hn <- hdr (s_ptr hp) ;;
    set_ptr bp (s_ptr hn)
  else set_ptr bp (s_ptr hp).

Definition join_lower (bp p : Z) : M ma unit :=
  hp <- hdr p ;;
  if p + HDR * s_size hp =? bp then
    hb <- hdr bp ;;
    set_size p (u32 (s_size hp + s_size hb)) ;;;
    hb <- hdr bp ;;
    set_ptr p (s_ptr hb)
  else set_ptr p bp.

Definition free (ap : Z) : M ma unit :=
  let bp := ap - HDR in
  s <- gets id ;;
  p <- loop (S (S (2 * size (m_hdrs s)))) (find_body bp) (m_freep s) ;;
  join_upper bp p ;;;
  join_lower bp p ;;;
  modify (set_freep p).

Definition morecore (nu : Z) : M ma Z :=
  let nu := if nu <? 4096 then 4096 else nu in
  p <- sbrk (nu * HDR) ;;
  if p =? -1 then ret 0
  else
    init_size p nu ;;;
    free (p + HDR) ;;;
    gets m_freep.

(** The loop of malloc, with prevp and p. *)
Definition fit_body (nunits : Z) (pp : Z * Z) : M ma (Z * Z + Z) :=
  let '(prevp, p) := pp in
  h <- hdr p ;;
  if s_size h >=? nunits then
    if s_size h =? nunits then
      set_ptr prevp (s_ptr h) ;;;
      modify (set_freep prevp) ;;;
      ret (inr (p + HDR))
    else
      let n := s_size h - nunits in
      set_size p n ;;;
      let p := p + HDR * n in
      init_size p nunits ;;;
      modify (set_freep prevp) ;;;
      ret (inr (p + HDR))
  else
    f <- gets m_freep ;;
    if p =? f then
      p <- morecore nunits ;;
      if p =? 0 then ret (inr 0)
      else h <- hdr p ;; ret (inl (p, s_ptr h))
    else ret (inl (p, s_ptr h)).

Definition units (nbytes : Z) : Z := (nbytes + HDR - 1) / HDR + 1.

Definition malloc (nbytes : Z) : M ma Z :=
  let nunits := u32 (units nbytes) in
  f <- gets m_freep ;;
  (if f =? 0 then
     put base (Header base 0) ;;;
     modify (set_freep base)
   else ret tt) ;;;
  s <- gets id ;;
  h <- hdr (m_freep s) ;;
  loop (2 * size (m_hdrs s) + 4) (fit_body nunits) (m_freep s, s_ptr h).

(** *** The free list *)

(** Blocks, with their sizes. *)
Abbreviation blocks := (list (Z * Z)).

Definition hd_addr (L : blocks) (e : Z) : Z := match L with [] => e | x :: _ => x.1 end.
Definition last_addr (q : Z) (L : blocks) : Z := default q (fst <$> last L).

(** The headers of the blocks [L], each pointing to the next and the last one
    to [e]. *)
Fixpoint chain (h : gmap Z header) (L : blocks) (e : Z) : Prop :=
  match L with
  | [] => True
  | x :: L' => h !! x.1 = Some (Header (hd_addr L' e) x.2) /\ chain h L' e
  end.

(** Ascending, with a gap between any two blocks. *)
Fixpoint gapped (L : blocks) : Prop :=
  match L with
  | [] => True
  | x :: L' => Forall (fun y => x.1 + HDR * x.2 < y.1) L' /\ gapped L'
  end.

Lemma hd_addr_app L1 L2 e : hd_addr (L1 ++ L2) e = hd_addr L1 (hd_addr L2 e).
Proof. by destruct L1. Qed.

Lemma last_addr_cons q x L : last_addr q (x :: L) = last_addr x.1 L.
Proof. unfold last_addr. rewrite last_cons. by destruct (last L). Qed.

Lemma last_addr_app q L1 L2 : last_addr q (L1 ++ L2) = last_addr (last_addr q L1) L2.
Proof. revert q. induction L1 as [|x L1 IH]; intros q; [done|]. cbn [app]. by rewrite !last_addr_cons, IH. Qed.

Lemma chain_app h L1 L2 e : chain h (L1 ++ L2) e <-> chain h L1 (hd_addr L2 e) /\ chain h L2 e.
Proof.
  induction L1 as [|x L1 IH]; cbn [chain app]; [tauto|]. rewrite IH, hd_addr_app. tauto.
Qed.

Lemma gapped_app L1 L2 : gapped (L1 ++ L2) <->
  gapped L1 /\ gapped L2 /\ forall x y, x ∈ L1 -> y ∈ L2 -> x.1 + HDR * x.2 < y.1.
Proof.
  induction L1 as [|x L1 IH]; cbn [gapped app].
  - split; [intros ?; split_and!; [done|done|]; by intros x y ?%elem_of_nil|tauto].
  - rewrite Forall_app, IH, !Forall_forall. split.
    + intros ((H1 & H2) & H3 & H4 & H5). split_and!; try done. intros y z [->|Hy]%elem_of_cons Hz; eauto.
    + intros ((H1 & H2) & H3 & H4). split_and!; try done; intros y ?; eauto; [apply H4; [by left|done]|].
      intros z Hz. apply H4; [by right|done].
Qed.

Lemma blocks_frame h h' L e : chain h L e -> (forall x, x ∈ L -> h' !! x.1 = h !! x.1) -> chain h' L e.
Proof.
  induction L as [|x L IH]; cbn [chain]; [done|]. intros [Hx HL] Hf. split; [by rewrite Hf by left|].
  apply IH; [done|]. intros y Hy. apply Hf. by right.
Qed.

(** A write to an address that is not in the list. *)
Lemma chain_other h L e a x : chain h L e -> a ∉ L.*1 -> chain (<[a := x]> h) L e.
Proof.
  intros Hc Ha. eapply blocks_frame; [done|]. intros y Hy. apply lookup_insert_ne. intros ->. apply Ha, list_elem_of_fmap. eauto.
Qed.

(** The last block is made to point elsewhere. *)
Lemma chain_set_last h L q s e e' : chain h (L ++ [(q, s)]) e -> q ∉ L.*1 -> chain (<[q := Header e' s]> h) (L ++ [(q, s)]) e'.
Proof.
  rewrite !chain_app. cbn. intros [HL _] Hq. split; [by apply chain_other|]. split; [|done]. apply lookup_insert_eq.
Qed.

(** *** free finds the place of a block *)

Lemma hdr_ok p h s : m_hdrs s !! p = Some h -> hdr p s = Ok (h, s).
Proof. intros E. unfold hdr. by rewrite E. Qed.

Definition sizes_nonneg (L : blocks) : Prop := Forall (fun x => 0 <= x.2) L.

(** The next block in [Y], or the wrap to [base]. *)
Lemma find_step bp s X p sp Y : chain (m_hdrs s) (X ++ (p, sp) :: Y) base ->
  find_body bp p s =
    Ok (if (bp >? p) && (bp <? hd_addr Y base) then inr p
        else if (p >=? hd_addr Y base) && ((bp >? p) || (bp <? hd_addr Y base)) then inr p else inl (hd_addr Y base), s).
Proof.
  rewrite chain_app. intros [_ [Hp _]]. cbn in Hp. unfold find_body. rewrite (bind_ok _ _ _ _ _ (hdr_ok _ _ _ Hp)). cbn [s_ptr].
  by destruct (_ && _); [|destruct (_ && _)].
Qed.

(** From a block below [bp] the search goes up to the last one below it. *)
Lemma find_up bp s : forall Y1 X p sp Y2 n, chain (m_hdrs s) (X ++ (p, sp) :: Y1 ++ Y2) base -> gapped (X ++ (p, sp) :: Y1 ++ Y2) ->
  sizes_nonneg (X ++ (p, sp) :: Y1 ++ Y2) -> base <= p ->
  Forall (fun x => x.1 < bp) ((p, sp) :: Y1) -> Forall (fun x => bp < x.1) Y2 -> (length Y1 < n)%nat ->
  loop n (find_body bp) p s = Ok (last_addr p Y1, s).
Proof.
  induction Y1 as [|[p1 s1] Y1 IH]; intros X p sp Y2 n Hc Hg Hs Hb Hlt Hgt Hn; (destruct n as [|n]; [cbn in Hn; lia|]); cbn [loop];
    pose proof (find_step bp s X p sp _ Hc) as E; apply Forall_cons in Hlt as [Hp Hlt]; cbn in Hp.
  - replace (if (bp >? p) && (bp <? hd_addr ([] ++ Y2) base) then inr p
        else if (p >=? hd_addr ([] ++ Y2) base) && ((bp >? p) || (bp <? hd_addr ([] ++ Y2) base)) then inr p else inl (hd_addr ([] ++ Y2) base)) with (inr p : Z + Z) in E.
    { by rewrite (bind_ok _ _ _ _ _ E). }
    cbn [app]. destruct Y2 as [|[p2 s2] Y2]; cbn [hd_addr fst].
    + replace (bp >? p) with true by lia. replace (p >=? base) with true by lia. cbn. by destruct (bp <? base).
    + apply Forall_cons in Hgt as [H2 _]. cbn in H2. replace (bp >? p) with true by lia. by replace (bp <? p2) with true by lia.
  - apply Forall_cons in Hlt as [Hp1 Hlt]; cbn in Hp1. cbn [app hd_addr fst] in E.
    assert (p < p1) as Hpp.
    { apply gapped_app in Hg as (_ & [Hg _] & _). apply Forall_cons in Hg as [Hg _]. cbn in Hg.
      apply Forall_app in Hs as [_ Hs]. apply Forall_cons in Hs as [Hs _]. cbn in Hs. unfold HDR in Hg. lia. }
    replace (bp <? p1) with false in E by lia. rewrite andb_false_r in E. replace (p >=? p1) with false in E by lia. cbn [andb] in E.
    rewrite (bind_ok _ _ _ _ _ E). rewrite (IH (X ++ [(p, sp)]) p1 s1 Y2 n).
    + by rewrite last_addr_cons.
    + by rewrite <-app_assoc.
    + by rewrite <-app_assoc.
    + by rewrite <-app_assoc.
    + lia.
    + by apply Forall_cons.
    + done.
    + cbn in Hn. lia.
Qed.

(** From a block above [bp] it goes to the end of the list and wraps. *)
Lemma find_wrap bp s : forall Y X p sp n, chain (m_hdrs s) (X ++ (p, sp) :: Y) base -> gapped (X ++ (p, sp) :: Y) ->
  sizes_nonneg (X ++ (p, sp) :: Y) -> base < bp -> Forall (fun x => bp < x.1) ((p, sp) :: Y) ->
  loop (S (length Y) + n) (find_body bp) p s = loop n (find_body bp) base s.
Proof.
  induction Y as [|[p1 s1] Y IH]; intros X p sp n Hc Hg Hs Hb Hgt; cbn [length Nat.add loop];
    pose proof (find_step bp s X p sp _ Hc) as E; apply Forall_cons in Hgt as [Hp Hgt]; cbn in Hp; cbn [hd_addr fst] in E.
  - replace (bp >? p) with false in E by lia. replace (bp <? base) with false in E by lia. cbn [andb orb] in E. rewrite andb_false_r in E.
    by rewrite (bind_ok _ _ _ _ _ E).
  - assert (p < p1) as Hpp.
    { apply gapped_app in Hg as (_ & [Hg _] & _). apply Forall_cons in Hg as [Hg _]. cbn in Hg.
      apply Forall_app in Hs as [_ Hs]. apply Forall_cons in Hs as [Hs _]. cbn in Hs. unfold HDR in Hg. lia. }
    replace (bp >? p) with false in E by lia. replace (p >=? p1) with false in E by lia. cbn [andb orb] in E.
    rewrite (bind_ok _ _ _ _ _ E). apply (IH (X ++ [(p, sp)]) p1 s1 n); by rewrite <-?app_assoc.
Qed.

(** Wherever it starts. *)
Lemma find_ok bp s L1 L2 f n : chain (m_hdrs s) ((base, 0) :: L1 ++ L2) base -> gapped ((base, 0) :: L1 ++ L2) ->
  sizes_nonneg (L1 ++ L2) -> base < bp -> Forall (fun x => x.1 < bp) L1 -> Forall (fun x => bp < x.1) L2 ->
  f ∈ base :: (L1 ++ L2).*1 -> (length (L1 ++ L2) + 2 <= n)%nat ->
  loop n (find_body bp) f s = Ok (last_addr base L1, s).
Proof.
  intros Hc Hg Hs Hb H1 H2 Hf Hn. assert (sizes_nonneg ((base, 0) :: L1 ++ L2)) as Hs0 by (by apply Forall_cons).
  rewrite length_app in Hn.
  assert (forall n, (length L1 < n)%nat -> loop n (find_body bp) base s = Ok (last_addr base L1, s)) as Hbase.
  { intros k Hk. by apply (find_up bp s L1 [] base 0 L2); [..|apply Forall_cons| |]. }
  apply elem_of_cons in Hf as [->|Hf]; [apply Hbase; lia|].
  rewrite fmap_app in Hf. apply elem_of_app in Hf as [Hf|Hf]; apply list_elem_of_fmap in Hf as ([f' sf] & -> & Hin);
    apply list_elem_of_split in Hin as (A & B & E); rewrite E in *; cbn [fst].
  - rewrite <-app_assoc in Hc, Hg, Hs0. cbn [app] in Hc, Hg, Hs0. rewrite last_addr_app, last_addr_cons. cbn [fst].
    apply Forall_app in H1 as [HA HB].
    apply (find_up bp s B ((base, 0) :: A) f' sf L2); cbn [app]; try done.
    + apply gapped_app with (L1 := [(base, 0)]) in Hg as (_ & _ & Hg).
      specialize (Hg (base, 0) (f', sf) ltac:(by left) ltac:(apply elem_of_app; right; by left)). cbn in Hg. unfold HDR in Hg. lia.
    + rewrite length_app in Hn. cbn in Hn. lia.
  - rewrite length_app in Hn. cbn [length] in Hn.
    apply Forall_app in H2 as [HA HB]. replace n with (S (length B) + (n - S (length B)))%nat by lia.
    rewrite (find_wrap bp s B ((base, 0) :: L1 ++ A) f' sf); [apply Hbase; lia|..]; cbn [app]; try done; by rewrite <-app_assoc.
Qed.

(** *** Blocks *)

Definition apart (x y : Z * Z) : Prop := x.1 + HDR * x.2 <= y.1 \/ y.1 + HDR * y.2 <= x.1.

Fixpoint pairwise (L : blocks) : Prop :=
  match L with [] => True | x :: L' => Forall (apart x) L' /\ pairwise L' end.

Definition total (L : blocks) : Z := foldr (fun x n => x.2 + n) 0 L.

(** The free blocks [F] and the allocated blocks [A] divide the heap up to
    [brk]; the free ones are sorted and no two of them touch. *)
Record layout (brk : Z) (F A : blocks) : Prop := Layout {
  ly_gap : gapped ((base, 0) :: F);
  ly_in : Forall (fun x => 1 <= x.2 /\ lo <= x.1 /\ x.1 + HDR * x.2 <= brk) (F ++ A);
  ly_apart : pairwise A /\ forall x y, x ∈ F -> y ∈ A -> apart x y;
  ly_total : HDR * (total F + total A) = brk - lo /\ brk - lo < 2 ^ 36
}.

Lemma total_app L1 L2 : total (L1 ++ L2) = total L1 + total L2.
Proof. induction L1 as [|x L1 IH]; cbn; [done|]. fold (total (L1 ++ L2)) (total L1). lia. Qed.

Lemma total_perm L L' : L ≡ₚ L' -> total L = total L'.
Proof. unfold total. induction 1; cbn; lia. Qed.

Lemma pairwise_perm L L' : L ≡ₚ L' -> pairwise L -> pairwise L'.
Proof.
  induction 1 as [|x L L' HL IH|x y L|L L' L'' H1 IH1 H2 IH2]; cbn; [done|..].
  - intros [Hx HL']. split; [by rewrite <-HL|auto].
  - rewrite !Forall_cons. unfold apart. tauto.
  - tauto.
Qed.

Lemma layout_perm brk F A A' : A ≡ₚ A' -> layout brk F A -> layout brk F A'.
Proof.
  intros HA [Hg Hi [Hp Hfa] Ht]. constructor; [done|by rewrite <-HA| |by rewrite <-(total_perm _ _ HA)].
  split; [by eapply pairwise_perm|]. intros x y Hx Hy. apply Hfa; [done|by rewrite HA].
Qed.

(** Where a block belongs in the free list. *)
Lemma split_at bp F : gapped F -> sizes_nonneg F -> bp ∉ F.*1 ->
  exists L1 L2, F = L1 ++ L2 /\ Forall (fun x => x.1 < bp) L1 /\ Forall (fun x => bp < x.1) L2.
Proof.
  induction F as [|[a s] F IH]; cbn [gapped fmap list_fmap]; intros Hg Hs Hbp; [by exists [], []|].
  destruct Hg as [Hga Hg]. apply Forall_cons in Hs as [Hs0 Hs]. apply not_elem_of_cons in Hbp as [Hne Hbp]. cbn in *.
  destruct (Z.lt_ge_cases a bp) as [Hlt|Hge].
  - destruct (IH Hg Hs Hbp) as (L1 & L2 & -> & H1 & H2). exists ((a, s) :: L1), L2. split_and!; [done|by apply Forall_cons|done].
  - exists [], ((a, s) :: F). split_and!; [done|done|]. apply Forall_cons. split; [cbn; lia|]. eapply Forall_impl; [exact Hga|].
    intros y Hy. cbn in Hy. unfold HDR in Hy. lia.
Qed.

Lemma layout_sizes brk F A : layout brk F A -> sizes_nonneg F.
Proof. intros [_ Hi _ _]. apply Forall_app in Hi as [Hi _]. eapply Forall_impl; [exact Hi|]. cbn. lia. Qed.

(** The heap grows by a block. *)
Lemma layout_grow brk F A n : lo <= brk -> 1 <= n -> brk + HDR * n - lo < 2 ^ 36 -> layout brk F A -> layout (brk + HDR * n) F ((brk, n) :: A).
Proof.
  intros Hlo Hn Hb [Hg Hi [Hp Hfa] [Ht _]]. unfold HDR in *. constructor; [done| | |]; unfold HDR.
  - apply Forall_app in Hi as [HF HA]. apply Forall_app. split; [|apply Forall_cons; split; [cbn; lia|]].
    + eapply Forall_impl; [exact HF|]. cbn. lia.
    + eapply Forall_impl; [exact HA|]. cbn. lia.
  - rewrite Forall_app, !Forall_forall in Hi. destruct Hi as [HF HA]. split; [split; [|done]|].
    + apply Forall_forall. intros y Hy. specialize (HA y Hy). unfold apart, HDR. cbn. lia.
    + intros x y Hx [->|Hy]%elem_of_cons; [|by apply Hfa]. specialize (HF x Hx). unfold apart, HDR. cbn. lia.
  - cbn [total foldr snd]. fold (total A). split; lia.
Qed.

Lemma layout_elem brk F A x : layout brk F A -> x ∈ F ++ A -> 1 <= x.2 /\ lo <= x.1 /\ x.1 + HDR * x.2 <= brk.
Proof. intros [_ Hi _ _]. rewrite Forall_forall in Hi. apply Hi. Qed.

(** A free block becomes allocated. *)
Lemma layout_take brk F1 p s F2 A : layout brk (F1 ++ (p, s) :: F2) A -> layout brk (F1 ++ F2) ((p, s) :: A).
Proof.
  intros Hly. pose proof (layout_elem _ _ _ (p, s) Hly ltac:(set_solver)) as Hps. destruct Hly as [Hg Hi [Hp Hfa] Ht]. constructor.
  - rewrite app_comm_cons in Hg |- *. rewrite !gapped_app in *. destruct Hg as (H1 & [_ H2] & H3). split_and!; [done|done|].
    intros x y Hx Hy. apply H3; [done|by right].
  - rewrite !Forall_app, Forall_cons in *. tauto.
  - split; [split; [|done]|].
    + apply Forall_forall. intros y Hy. apply Hfa; [set_solver|done].
    + intros x y Hx [->|Hy]%elem_of_cons; [|apply Hfa; [set_solver|done]].
      rewrite app_comm_cons, gapped_app in Hg. destruct Hg as (_ & [Hg2 _] & Hg3). rewrite Forall_forall in Hg2.
      apply elem_of_app in Hx as [Hx|Hx].
      * left. specialize (Hg3 x (p, s) ltac:(by right) ltac:(by left)). cbn in *. lia.
      * right. specialize (Hg2 x Hx). cbn in *. lia.
  - rewrite !total_app in *. cbn [total foldr snd] in *. fold (total F2) (total A) in *. lia.
Qed.

(** The upper part of a free block becomes allocated. *)
Lemma layout_cut brk F1 p s n F2 A : 1 <= n < s -> layout brk (F1 ++ (p, s) :: F2) A ->
  layout brk (F1 ++ (p, s - n) :: F2) ((p + HDR * (s - n), n) :: A).
Proof.
  intros Hn Hly. pose proof (layout_elem _ _ _ (p, s) Hly ltac:(set_solver)) as Hps. pose proof (layout_take _ _ _ _ _ _ Hly) as [_ _ [[Hpa _] Htake] _].
  destruct Hly as [Hg Hi [Hp Hfa] Ht]. unfold HDR in *. cbn in Hps. constructor; unfold HDR.
  - rewrite app_comm_cons in Hg |- *. rewrite !gapped_app in *. destruct Hg as (H1 & [H2 H2'] & H3). split_and!; [done| |].
    + split; [|done]. eapply Forall_impl; [exact H2|]. unfold HDR. cbn. lia.
    + intros x y Hx [->|Hy]%elem_of_cons; [|apply H3; [done|by right]]. specialize (H3 x (p, s) Hx ltac:(by left)). done.
  - rewrite !Forall_app, !Forall_cons in *. cbn in *. destruct Hi as [(Hi1 & _ & Hi2) Hi3]. split_and!; try done; lia.
  - split; [split; [|done]|].
    + rewrite Forall_forall in Hpa |- *. intros y Hy. specialize (Hpa y Hy).
      assert (1 <= y.2) as Hy2 by (rewrite Forall_app, !Forall_forall in Hi; by apply Hi). unfold apart, HDR in *. cbn in *. lia.
    + intros x y Hx Hy. apply elem_of_app in Hx as [Hx|[->|Hx]%elem_of_cons]; apply elem_of_cons in Hy as [->|Hy].
      * assert (apart x (p, s)) as Hx2 by (apply Htake; [set_solver|by left]).
        rewrite app_comm_cons, gapped_app in Hg. destruct Hg as (_ & _ & H3). specialize (H3 x (p, s) ltac:(by right) ltac:(by left)).
        left. unfold HDR in *. cbn in *. lia.
      * apply Hfa; [set_solver|done].
      * left. unfold HDR. cbn. lia.
      * assert (1 <= y.2) as Hy2 by (rewrite Forall_app, !Forall_forall in Hi; by apply Hi).
        assert (apart (p, s) y) as Ha by (apply Hfa; [set_solver|done]). unfold apart, HDR in *. cbn in *. lia.
      * rewrite app_comm_cons, gapped_app in Hg. destruct Hg as (_ & [H2 _] & _). rewrite Forall_forall in H2. specialize (H2 x Hx).
        right. unfold HDR in *. cbn in *. lia.
      * apply Hfa; [set_solver|done].
  - rewrite !total_app in *. cbn [total foldr snd] in *. fold (total F2) (total A) in *. lia.
Qed.

(** Two adjacent blocks are one. *)
Lemma layout_fuse brk F b s n A : layout brk F ((b + HDR * s, n) :: (b, s) :: A) -> layout brk F ((b, s + n) :: A).
Proof.
  intros [Hg Hi [Hp Hfa] Ht]. cbn [pairwise] in Hp. rewrite !Forall_cons in Hp. destruct Hp as ((_ & H1) & H2 & H3).
  rewrite !Forall_app, !Forall_cons in Hi. destruct Hi as (HF & Hn & Hs & HA). rewrite Forall_forall in H1, H2, HF, HA. unfold HDR in *. cbn in Hn, Hs.
  constructor; unfold HDR.
  - done.
  - rewrite Forall_app, Forall_cons, !Forall_forall. cbn. split_and!; try done; lia.
  - split; [split; [|done]|].
    + apply Forall_forall. intros y Hy. specialize (H1 y Hy). specialize (H2 y Hy). specialize (HA y Hy). unfold apart, HDR in *. cbn in *. lia.
    + intros x y Hx [->|Hy]%elem_of_cons; [|apply Hfa; [done|by right; right]].
      pose proof (Hfa x (b, s) Hx ltac:(by right; left)) as G1. pose proof (Hfa x (b + 16 * s, n) Hx ltac:(by left)) as G2.
      specialize (HF x Hx). unfold apart, HDR in *. cbn in *. lia.
  - cbn [total foldr snd] in *. fold (total A) in *. lia.
Qed.

(** A block that touches no free block becomes free. *)
Lemma layout_insert brk L R b s A : layout brk (L ++ R) ((b, s) :: A) -> base < b ->
  Forall (fun x => x.1 + HDR * x.2 < b) L -> Forall (fun x => b + HDR * s < x.1) R -> layout brk (L ++ (b, s) :: R) A.
Proof.
  intros [Hg Hi [[Hp1 Hp] Hfa] Ht] Hb HL HR. rewrite Forall_forall in Hp1. constructor.
  - rewrite app_comm_cons in Hg |- *. rewrite !gapped_app in *. destruct Hg as (H1 & H2 & H3). split_and!; [done|by split|].
    rewrite Forall_forall in HL. intros x y Hx [->|Hy]%elem_of_cons; [|by apply H3].
    apply elem_of_cons in Hx as [->|Hx]; [cbn; unfold HDR; lia|by apply HL].
  - rewrite !Forall_app, !Forall_cons in *. tauto.
  - split; [done|]. intros x y Hx Hy. apply elem_of_app in Hx as [Hx|[->|Hx]%elem_of_cons].
    + apply Hfa; [set_solver|by right].
    + by apply Hp1.
    + apply Hfa; [set_solver|by right].
  - rewrite !total_app in *. cbn [total foldr snd] in *. fold (total R) (total A) in *. lia.
Qed.

(** *** free *)

Lemma put_ok q h s : in_memory q s = true -> put q h s = Ok (tt, Ma (<[q := h]> (m_hdrs s)) (m_freep s) (m_brk s)).
Proof. intros E. unfold put. by rewrite E. Qed.

Lemma set_ptr_ok q h e s : m_hdrs s !! q = Some h -> in_memory q s = true ->
  set_ptr q e s = Ok (tt, Ma (<[q := Header e (s_size h)]> (m_hdrs s)) (m_freep s) (m_brk s)).
Proof. intros Hh Hm. unfold set_ptr. rewrite (bind_ok _ _ _ _ _ (hdr_ok _ _ _ Hh)). by apply put_ok. Qed.

Lemma set_size_ok q h n s : m_hdrs s !! q = Some h -> in_memory q s = true ->
  set_size q n s = Ok (tt, Ma (<[q := Header (s_ptr h) n]> (m_hdrs s)) (m_freep s) (m_brk s)).
Proof. intros Hh Hm. unfold set_size. rewrite (bind_ok _ _ _ _ _ (hdr_ok _ _ _ Hh)). by apply put_ok. Qed.

(** What joining with the block above makes of the block and of the list. *)
Definition upper (bp sz : Z) (L2 : blocks) : Z * blocks :=
  match L2 with
  | (nx, sn) :: R => if bp + HDR * sz =? nx then (sz + sn, R) else (sz, L2)
  | [] => (sz, [])
  end.

Lemma join_upper_ok s bp p q sz sp L2 : m_hdrs s !! p = Some (Header (hd_addr L2 base) sp) -> m_hdrs s !! bp = Some (Header q sz) ->
  chain (m_hdrs s) L2 base -> p <> bp -> bp ∉ L2.*1 -> base < bp -> 0 <= sz -> in_memory bp s = true ->
  Forall (fun x => 0 <= x.2 /\ sz + x.2 < 2 ^ 32) L2 ->
  join_upper bp p s = Ok (tt, Ma (<[bp := Header (hd_addr (upper bp sz L2).2 base) (upper bp sz L2).1]> (m_hdrs s)) (m_freep s) (m_brk s)).
Proof.
  intros Hp Hbp Hc Hne Hni Hb Hsz Hm Hsn. unfold join_upper.
  rewrite (bind_ok _ _ _ _ _ (hdr_ok _ _ _ Hp)), (bind_ok _ _ _ _ _ (hdr_ok _ _ _ Hbp)). cbn [s_ptr s_size].
  destruct L2 as [|[nx sn] R]; cbn [hd_addr upper fst].
  - replace (bp + HDR * sz =? base) with false by (unfold HDR; lia). rewrite (set_ptr_ok _ _ _ _ Hbp Hm). done.
  - destruct (Z.eqb_spec (bp + HDR * sz) nx) as [E|E]; [|by rewrite (set_ptr_ok _ _ _ _ Hbp Hm)].
    destruct Hc as [Hn _]. cbn in Hn. apply Forall_cons in Hsn as [Hsn _]. cbn in Hsn, Hni. apply not_elem_of_cons in Hni as [Hni _].
    rewrite (bind_ok _ _ _ _ _ (hdr_ok _ _ _ Hn)). cbn [s_size]. rewrite (bind_ok _ _ _ _ _ (set_size_ok _ _ _ _ Hbp Hm)).
    erewrite bind_ok; [|apply hdr_ok; cbn; rewrite lookup_insert_ne by done; exact Hp]. cbn [s_ptr hd_addr fst].
    erewrite bind_ok; [|apply hdr_ok; cbn; rewrite lookup_insert_ne by done; exact Hn]. cbn [s_ptr].
    erewrite set_ptr_ok; [|cbn; apply lookup_insert_eq|done]. cbn. rewrite insert_insert_eq, u32_small by lia. done.
Qed.

Lemma join_lower_ok s bp p e e' sz sp : m_hdrs s !! p = Some (Header e' sp) -> m_hdrs s !! bp = Some (Header e sz) ->
  p <> bp -> in_memory p s = true -> 0 <= sp -> 0 <= sz -> sp + sz < 2 ^ 32 ->
  join_lower bp p s = Ok (tt, Ma (<[p := if p + HDR * sp =? bp then Header e (sp + sz) else Header bp sp]> (m_hdrs s)) (m_freep s) (m_brk s)).
Proof.
  intros Hp Hbp Hne Hm H0 H1 Hs. unfold join_lower. rewrite (bind_ok _ _ _ _ _ (hdr_ok _ _ _ Hp)). cbn [s_size].
  destruct (Z.eqb_spec (p + HDR * sp) bp) as [E|E]; [|by rewrite (set_ptr_ok _ _ _ _ Hp Hm)].
  rewrite (bind_ok _ _ _ _ _ (hdr_ok _ _ _ Hbp)). cbn [s_size]. rewrite (bind_ok _ _ _ _ _ (set_size_ok _ _ _ _ Hp Hm)).
  erewrite bind_ok; [|apply hdr_ok; cbn; rewrite lookup_insert_ne by done; exact Hbp]. cbn [s_ptr].
  erewrite set_ptr_ok; [|cbn; apply lookup_insert_eq|done]. cbn. rewrite insert_insert_eq, u32_small by lia. done.
Qed.

Context (Hbase : 0 < base /\ base + HDR <= lo).

(** The allocator's state, with its free and its allocated blocks. *)
Record hok (s : ma) (F A : blocks) : Prop := Hok {
  hk_chain : chain (m_hdrs s) ((base, 0) :: F) base;
  hk_freep : m_freep s ∈ base :: F.*1;
  hk_layout : layout (m_brk s) F A;
  hk_alloc : Forall (fun x => exists q, m_hdrs s !! x.1 = Some (Header q x.2)) A;
  hk_brk : lo <= m_brk s
}.

Lemma total_elem L x : sizes_nonneg L -> x ∈ L -> x.2 <= total L.
Proof.
  assert (forall L, sizes_nonneg L -> 0 <= total L) as Hn.
  { clear. induction 1; cbn; [lia|]. fold (total l). lia. }
  induction 1 as [|y L Hy HL IH]; [by intros ?%elem_of_nil|]. cbn. fold (total L). specialize (Hn L HL).
  intros [->|Hx]%elem_of_cons; [lia|]. specialize (IH Hx). lia.
Qed.

Lemma total_nonneg L : sizes_nonneg L -> 0 <= total L.
Proof. induction 1; cbn; [lia|]. fold (total l). lia. Qed.

Lemma gapped_nodup L : gapped L -> sizes_nonneg L -> NoDup L.*1.
Proof.
  induction L as [|x L IH]; cbn [gapped fmap list_fmap]; intros Hg Hs; [constructor|]. destruct Hg as [Hx Hg].
  apply Forall_cons in Hs as [Hs0 Hs]. apply NoDup_cons. split; [|by apply IH].
  intros (y & E & Hy)%list_elem_of_fmap. rewrite Forall_forall in Hx. specialize (Hx y Hy). unfold HDR in Hx. lia.
Qed.

Lemma chain_lookup h L e x : chain h L e -> x ∈ L -> exists q, h !! x.1 = Some (Header q x.2).
Proof.
  induction L as [|y L IH]; [by intros _ ?%elem_of_nil|]. cbn. intros [Hy HL] [->|Hx]%elem_of_cons; eauto.
Qed.

Lemma chain_length h L e : chain h L e -> NoDup L.*1 -> (length L <= size h)%nat.
Proof.
  intros Hc Hnd. rewrite <-(length_fmap fst L), <-size_dom. rewrite <-(size_list_to_set (C := gset Z)) by done.
  apply subseteq_size. intros a Ha. apply elem_of_list_to_set, list_elem_of_fmap in Ha as (x & -> & Hx).
  destruct (chain_lookup _ _ _ _ Hc Hx) as [q E]. apply elem_of_dom. by eexists.
Qed.

Lemma upper_cases bp sz L2 : (upper bp sz L2 = (sz, L2) /\ hd_addr L2 (bp + HDR * sz + 1) <> bp + HDR * sz) \/
  exists sn R, L2 = (bp + HDR * sz, sn) :: R /\ upper bp sz L2 = (sz + sn, R).
Proof.
  destruct L2 as [|[nx sn] R]; cbn [upper hd_addr fst]; [left; split; [done|lia]|].
  destruct (Z.eqb_spec (bp + HDR * sz) nx) as [<-|E]; [right; eauto|left; split; [done|lia]].
Qed.

(** Joined with the block above, the block touches nothing above it. *)
Lemma layout_upper brk L1 L2 bp sz A : layout brk (L1 ++ L2) ((bp, sz) :: A) -> Forall (fun x => bp < x.1) L2 ->
  layout brk (L1 ++ (upper bp sz L2).2) ((bp, (upper bp sz L2).1) :: A) /\
  Forall (fun x => bp + HDR * (upper bp sz L2).1 < x.1) (upper bp sz L2).2 /\ sz <= (upper bp sz L2).1 /\
  (forall x, x ∈ (upper bp sz L2).2 -> x ∈ L2).
Proof.
  intros Hly H2. destruct (upper_cases bp sz L2) as [[-> E]|(sn & R & -> & ->)]; cbn [fst snd].
  - split_and!; [done| |lia|done]. destruct L2 as [|[nx sn] R]; [done|]. cbn in E.
    assert (bp + HDR * sz < nx) as Hnx.
    { destruct Hly as [_ Hi [_ Hfa] _]. apply Forall_cons in H2 as [H2 _]. cbn in H2.
      destruct (Hfa (nx, sn) (bp, sz) ltac:(set_solver) ltac:(by left)) as [Ha|Ha]; cbn in Ha; [|lia].
      rewrite Forall_app, Forall_app, Forall_cons in Hi. destruct Hi as [(_ & Hi & _) _]. cbn in Hi. unfold HDR in *. lia. }
    pose proof (layout_sizes _ _ _ Hly) as Hs. apply Forall_app in Hs as [_ Hs]. apply Forall_cons in Hs as [Hs _]. cbn in Hs.
    destruct (ly_gap _ _ _ Hly) as [_ Hg]. apply gapped_app in Hg as (_ & [Hg _] & _). apply Forall_cons. split; [done|].
    eapply Forall_impl; [exact Hg|]. cbn. unfold HDR in *. lia.
  - pose proof (layout_take _ _ _ _ _ _ Hly) as Ht. split_and!.
    + by apply layout_fuse.
    + destruct (ly_gap _ _ _ Hly) as [_ Hg]. apply gapped_app in Hg as (_ & [Hg _] & _). eapply Forall_impl; [exact Hg|]. cbn. unfold HDR. lia.
    + pose proof (layout_elem _ _ _ (bp + HDR * sz, sn) Hly ltac:(set_solver)) as Hn. cbn in Hn. lia.
    + intros x Hx. by right.
Qed.

(** Joined with the block below, it touches nothing. *)
Lemma layout_lower brk L R p sp bp sB A : layout brk (L ++ (p, sp) :: R) ((bp, sB) :: A) -> p + HDR * sp = bp ->
  Forall (fun x => bp + HDR * sB < x.1) R -> layout brk (L ++ (p, sp + sB) :: R) A.
Proof.
  intros Hly E HR. pose proof (ly_gap _ _ _ Hly) as Hg. apply layout_insert.
  - apply layout_fuse. rewrite E. eapply layout_perm; [|by apply layout_take]. constructor.
  - rewrite app_comm_cons in Hg. apply gapped_app in Hg as (_ & _ & Hg). specialize (Hg (base, 0) (p, sp) ltac:(by left) ltac:(by left)).
    cbn in Hg. unfold HDR in Hg. lia.
  - rewrite app_comm_cons in Hg. apply gapped_app in Hg as (_ & _ & Hg). apply Forall_forall. intros x Hx.
    apply (Hg x (p, sp)); [by right|by left].
  - eapply Forall_impl; [exact HR|]. cbn. unfold HDR in *. lia.
Qed.

(** Not joined with the block below, it touches nothing either. *)
Lemma layout_alone brk L1 R bp sB A : layout brk (L1 ++ R) ((bp, sB) :: A) -> Forall (fun x => x.1 < bp) L1 ->
  Forall (fun x => bp + HDR * sB < x.1) R -> (forall x, last L1 = Some x -> x.1 + HDR * x.2 <> bp) -> layout brk (L1 ++ (bp, sB) :: R) A.
Proof.
  intros Hly H1 HR Hlast. apply layout_insert; [done| | |done].
  - pose proof (layout_elem _ _ _ (bp, sB) Hly ltac:(set_solver)) as Hb. cbn in Hb. unfold HDR in *. lia.
  - destruct Hly as [[_ Hg] Hi [_ Hfa] _]. destruct L1 as [|[q sq] L1 _] using rev_ind; [constructor|].
    specialize (Hlast (q, sq) ltac:(by rewrite last_snoc)). rewrite Forall_app, !Forall_app, !Forall_cons in Hi. cbn in Hi, Hlast.
    apply Forall_app in H1 as [_ H1]. apply Forall_cons in H1 as [H1 _]. cbn in H1.
    assert (q + HDR * sq < bp) as Hq.
    { destruct (Hfa (q, sq) (bp, sB) ltac:(set_solver) ltac:(by left)) as [Ha|Ha]; cbn in Ha; [lia|]. unfold HDR in *. lia. }
    apply Forall_app. split; [|by constructor]. apply gapped_app in Hg as (Hg & _ & _). apply gapped_app in Hg as (_ & _ & Hg).
    apply Forall_forall. intros x Hx. specialize (Hg x (q, sq) Hx ltac:(by left)). cbn in Hg. unfold HDR in *. lia.
Qed.

(** The last block below [bp], base included. *)
Lemma last_below L1 : exists L0 sp, (base, 0) :: L1 = L0 ++ [(last_addr base L1, sp)] /\
  ((L1 = [] /\ L0 = [] /\ last_addr base L1 = base /\ sp = 0) \/ exists L, L1 = L ++ [(last_addr base L1, sp)] /\ L0 = (base, 0) :: L).
Proof.
  destruct L1 as [|[q sq] L _] using rev_ind; [exists [], 0; by split; [|left]|].
  exists ((base, 0) :: L), sq. unfold last_addr. rewrite last_snoc. cbn. split; [done|]. right. by exists L.
Qed.

(** The new free list, threaded through the headers: the block alone, or joined
    with the one below it. *)
Lemma chain_alone h L0 p sp e bp sB R : chain h (L0 ++ [(p, sp)]) e ->
  chain h R base -> p ∉ L0.*1 -> p ∉ R.*1 -> bp ∉ (L0 ++ [(p, sp)]).*1 -> bp ∉ R.*1 ->
  chain (<[p := Header bp sp]> (<[bp := Header (hd_addr R base) sB]> h)) ((L0 ++ [(p, sp)]) ++ (bp, sB) :: R) base.
Proof.
  intros He HR Hp0 HpR Hb0 HbR. apply chain_app. cbn [hd_addr fst chain]. split_and!.
  - eapply chain_set_last; [by apply chain_other|done].
  - rewrite lookup_insert_ne, lookup_insert_eq; [done|]. intros ->. apply Hb0. rewrite fmap_app. apply elem_of_app. right. by left.
  - by apply chain_other, HpR; apply chain_other.
Qed.

Lemma chain_joined h L0 p sp e n bp x R : chain h (L0 ++ [(p, sp)]) e ->
  chain h R base -> p ∉ L0.*1 -> p ∉ R.*1 -> bp ∉ L0.*1 -> bp ∉ R.*1 ->
  chain (<[p := Header (hd_addr R base) n]> (<[bp := x]> h)) (L0 ++ (p, n) :: R) base.
Proof.
  intros He HR Hp0 HpR Hb0 HbR.
  apply chain_app in He as [He _]. cbn [hd_addr fst] in He. apply chain_app. cbn [hd_addr fst chain]. split_and!.
  - by apply chain_other, Hp0; apply chain_other.
  - by rewrite lookup_insert_eq.
  - by apply chain_other, HpR; apply chain_other.
Qed.

Lemma layout_bound brk F A x y : layout brk F A -> x ∈ F -> y ∈ A -> x.2 + y.2 < 2 ^ 32.
Proof.
  intros Hly Hx Hy. destruct (ly_total _ _ _ Hly) as [Ht Hb]. pose proof (ly_in _ _ _ Hly) as Hi.
  assert (sizes_nonneg (F ++ A)) as Hs by (eapply Forall_impl; [exact Hi|]; cbn; lia). apply Forall_app in Hs as [HF HA].
  pose proof (total_elem _ _ HF Hx). pose proof (total_elem _ _ HA Hy). unfold HDR in *.
  change (2 ^ 36) with (16 * 2 ^ 32) in Hb. lia.
Qed.

Lemma layout_notin brk F A bp sz : layout brk F ((bp, sz) :: A) -> bp ∉ F.*1.
Proof.
  intros Hly ([b n] & -> & Hx)%list_elem_of_fmap. pose proof (layout_elem _ _ _ (b, n) Hly ltac:(set_solver)) as H1.
  pose proof (layout_elem _ _ _ (b, sz) Hly ltac:(set_solver)) as H2.
  destruct (proj2 (ly_apart _ _ _ Hly) (b, n) (b, sz) Hx ltac:(by left)) as [Ha|Ha]; cbn in *; unfold HDR in *; lia.
Qed.

Lemma layout_memory s F A x : layout (m_brk s) F A -> x ∈ F ++ A -> in_memory x.1 s = true.
Proof.
  intros Hly Hx. pose proof (layout_elem _ _ _ x Hly Hx) as Hb. unfold in_memory. unfold HDR in *.
  destruct (x.1 =? base); [done|]. cbn. apply andb_true_iff. split; lia.
Qed.

(** free, as far as its loop and the joins. *)
Lemma free_run s L1 L2 bp q sz A L0 sp : hok s (L1 ++ L2) ((bp, sz) :: A) -> m_hdrs s !! bp = Some (Header q sz) ->
  Forall (fun x => x.1 < bp) L1 -> Forall (fun x => bp < x.1) L2 -> (base, 0) :: L1 = L0 ++ [(last_addr base L1, sp)] -> 0 <= sp ->
  in_memory (last_addr base L1) s = true -> sp + (upper bp sz L2).1 < 2 ^ 32 ->
  let p := last_addr base L1 in
  let '(sB, R) := upper bp sz L2 in
  free (bp + HDR) s = Ok (tt, Ma (<[p := if p + HDR * sp =? bp then Header (hd_addr R base) (sp + sB) else Header bp sp]>
    (<[bp := Header (hd_addr R base) sB]> (m_hdrs s))) p (m_brk s)).
Proof.
  intros Hok Hq H1 H2 E0 Hsp Hm Hb p. pose proof (hk_layout _ _ _ Hok) as Hly. pose proof (hk_chain _ _ _ Hok) as Hc.
  pose proof (layout_elem _ _ _ (bp, sz) Hly ltac:(set_solver)) as Hbp. cbn in Hbp.
  pose proof (layout_sizes _ _ _ Hly) as Hs. pose proof (layout_notin _ _ _ _ _ Hly) as Hni.
  assert (NoDup ((base, 0) :: L1 ++ L2).*1) as Hnd by (apply gapped_nodup; [apply Hly|by apply Forall_cons]).
  destruct (layout_upper _ _ _ _ _ _ Hly H2) as (_ & _ & Hge & _). destruct (upper bp sz L2) as [sB R] eqn:EU. cbn in Hge, Hb.
  unfold free, gets, id. unfold bind at 1. replace (bp + HDR - HDR) with bp by lia.
  rewrite (bind_ok _ _ _ _ _ (find_ok bp s L1 L2 (m_freep s) (S (S (2 * size (m_hdrs s)))) Hc (ly_gap _ _ _ Hly) Hs ltac:(unfold HDR in *; lia) H1 H2 (hk_freep _ _ _ Hok)
    ltac:(pose proof (chain_length _ _ _ Hc Hnd) as Hlen; cbn in Hlen |- *; lia))). fold p.
  rewrite app_comm_cons, E0, chain_app in Hc. destruct Hc as [Hc1 Hc2]. apply chain_app in Hc1 as [_ [Hp _]]. cbn in Hp. fold p in Hp.
  assert (p <> bp) as Hpb.
  { assert (p ∈ ((base, 0) :: L1).*1) as Hin by (rewrite E0, fmap_app; apply elem_of_app; right; by left). intros E. rewrite E in Hin.
    apply elem_of_cons in Hin as [Hin|Hin]; [cbn in Hin; unfold HDR in *; lia|]. apply Hni. rewrite fmap_app. apply elem_of_app. by left. }
  erewrite bind_ok; [|eapply join_upper_ok; [exact Hp|exact Hq|done|done| |unfold HDR in *; lia|lia|by apply (layout_memory s (L1 ++ L2) ((bp, sz) :: A) (bp, sz)); [|set_solver]|]].
  2:{ intros Hin. apply Hni. rewrite fmap_app. apply elem_of_app. by right. }
  2:{ apply Forall_forall. intros x Hx. pose proof (layout_bound _ _ _ x (bp, sz) Hly ltac:(set_solver) ltac:(by left)). cbn in *.
      apply Forall_app in Hs as [_ Hs]. unfold sizes_nonneg in Hs. rewrite Forall_forall in Hs. specialize (Hs x Hx). cbn in Hs. lia. }
  rewrite EU. cbn [fst snd].
  erewrite bind_ok; [|eapply join_lower_ok; cbn [m_hdrs]; [by rewrite lookup_insert_ne|apply lookup_insert_eq|done|done|done|lia|done]].
  done.
Qed.

(** Other allocated blocks keep their headers. *)
Lemma alloc_frame (h h' : gmap Z header) (A : blocks) : Forall (fun x : Z * Z => exists q, h !! x.1 = Some (Header q x.2)) A ->
  (forall x, x ∈ A -> h' !! x.1 = h !! x.1) -> Forall (fun x : Z * Z => exists q, h' !! x.1 = Some (Header q x.2)) A.
Proof.
  rewrite !Forall_forall. intros HA Hf x Hx. rewrite Hf by done. by apply HA.
Qed.

(** Blocks that are not the same have different addresses. *)
Lemma layout_free_ne brk F A x y : layout brk F A -> x ∈ F -> y ∈ A -> x.1 <> y.1.
Proof.
  intros Hly Hx Hy E. pose proof (layout_elem _ _ _ x Hly ltac:(set_solver)). pose proof (layout_elem _ _ _ y Hly ltac:(set_solver)).
  destruct (proj2 (ly_apart _ _ _ Hly) x y Hx Hy) as [Ha|Ha]; unfold HDR in *; lia.
Qed.

Lemma layout_alloc_ne brk F A x y : layout brk F (x :: A) -> y ∈ A -> x.1 <> y.1.
Proof.
  intros Hly Hy E. pose proof (layout_elem _ _ _ x Hly ltac:(set_solver)). pose proof (layout_elem _ _ _ y Hly ltac:(set_solver)).
  destruct (ly_apart _ _ _ Hly) as [[Hp _] _]. rewrite Forall_forall in Hp. destruct (Hp y Hy) as [Ha|Ha]; unfold HDR in *; lia.
Qed.

(** The part of the free list above the block. *)
Lemma upper_chain h bp sz L2 : chain h L2 base -> bp ∉ L2.*1 ->
  chain h (upper bp sz L2).2 base /\ (length (upper bp sz L2).2 <= length L2)%nat /\ forall a, a ∉ L2.*1 -> a ∉ (upper bp sz L2).2.*1.
Proof.
  intros Hc Hb. destruct (upper_cases bp sz L2) as [[-> _]|(sn & R & -> & ->)]; cbn [snd]; [done|].
  split; [apply Hc|]. split; [cbn; lia|]. intros a Ha. apply not_elem_of_cons in Ha as [_ Ha]. done.
Qed.

(** The block below the one that is given back. *)
Lemma below_facts s L1 L2 R bp sz sB A L0 p sp : layout (m_brk s) (L1 ++ L2) ((bp, sz) :: A) -> layout (m_brk s) (L1 ++ R) ((bp, sB) :: A) ->
  (L1 = [] /\ L0 = [] /\ p = base /\ sp = 0) \/ (exists L, L1 = L ++ [(p, sp)] /\ L0 = (base, 0) :: L) ->
  0 <= sp /\ in_memory p s = true /\ sp + sB < 2 ^ 32 /\ (forall y, y ∈ A -> y.1 <> p).
Proof.
  intros Hly Hly' [(-> & _ & -> & ->)|(L & -> & _)].
  - split_and!; [lia|unfold in_memory; by rewrite Z.eqb_refl| |].
    + destruct (ly_total _ _ _ Hly') as [Ht Hb]. cbn [app total foldr snd] in Ht. fold (total R) (total A) in Ht.
      pose proof (ly_in _ _ _ Hly') as Hi. assert (sizes_nonneg (R ++ A)) as [HR HA]%Forall_app.
      { cbn in Hi. rewrite Forall_app, Forall_cons in Hi. apply Forall_app. split; [|destruct Hi as (_ & _ & Hi)];
          (eapply Forall_impl; [apply Hi|]; cbn; lia). }
      pose proof (total_nonneg _ HR). pose proof (total_nonneg _ HA). unfold HDR in *. change (2 ^ 36) with (16 * 2 ^ 32) in Hb. lia.
    + intros y Hy. pose proof (layout_elem _ _ _ y Hly ltac:(set_solver)). unfold HDR in *. lia.
  - pose proof (layout_elem _ _ _ (p, sp) Hly ltac:(set_solver)) as Hp. cbn in Hp. split_and!.
    + lia.
    + by apply (layout_memory s ((L ++ [(p, sp)]) ++ L2) ((bp, sz) :: A) (p, sp)); [|set_solver].
    + apply (layout_bound _ _ _ (p, sp) (bp, sB) Hly'); [set_solver|by left].
    + intros y Hy E. apply (layout_free_ne _ _ _ (p, sp) y Hly); [set_solver|by right|by rewrite E].
Qed.

(** An allocated block is given back; the free list takes it in. *)
Lemma free_ok s F A bp sz : hok s F ((bp, sz) :: A) -> exists s' F',
  free (bp + HDR) s = Ok (tt, s') /\ hok s' F' A /\ m_brk s' = m_brk s /\ (length F' <= S (length F))%nat /\ exists x, x ∈ F' /\ sz <= x.2.
Proof.
  intros Hok. pose proof (hk_layout _ _ _ Hok) as Hly. pose proof (layout_notin _ _ _ _ _ Hly) as Hni.
  pose proof (layout_sizes _ _ _ Hly) as Hs. pose proof (layout_elem _ _ _ (bp, sz) Hly ltac:(set_solver)) as Hbp. cbn in Hbp.
  destruct (split_at bp F (proj2 (ly_gap _ _ _ Hly)) Hs Hni) as (L1 & L2 & -> & H1 & H2).
  pose proof (hk_alloc _ _ _ Hok) as Hal. apply Forall_cons in Hal as [[q Hq] Hal]. cbn in Hq.
  destruct (last_below L1) as (L0 & sp & E0 & Hcase). set (p := last_addr base L1) in *.
  destruct (layout_upper _ _ _ _ _ _ Hly H2) as (Hly' & HR & Hge & Hsub).
  pose proof (free_run s L1 L2 bp q sz A L0 sp Hok Hq H1 H2 E0) as Hrun. fold p in Hrun. cbv zeta in Hrun.
  assert (NoDup ((base, 0) :: L1 ++ L2).*1) as Hnd by (apply gapped_nodup; [apply Hly|by apply Forall_cons]).
  pose proof (hk_chain _ _ _ Hok) as Hc. rewrite app_comm_cons, E0 in Hc, Hnd. apply chain_app in Hc as [Hc1 Hc2].
  rewrite fmap_app in Hnd. apply NoDup_app in Hnd as (Hnd0 & Hdis & _). rewrite fmap_app in Hnd0. apply NoDup_app in Hnd0 as (_ & Hdis0 & _).
  assert (bp ∉ L2.*1) as Hb2 by (intros Hin; apply Hni; rewrite fmap_app; apply elem_of_app; by right).
  destruct (upper_chain _ bp sz L2 Hc2 Hb2) as (HcR & HlR & HsubR). destruct (upper bp sz L2) as [sB R] eqn:EU. cbn [fst snd] in *.
  assert (p ∉ L0.*1) as Hp0 by (intros Hin; apply (Hdis0 p Hin); by left).
  assert (p ∉ L2.*1) as Hp2 by (apply Hdis; rewrite fmap_app; apply elem_of_app; right; by left).
  assert (0 <= sp /\ in_memory p s = true /\ sp + sB < 2 ^ 32 /\ (forall y, y ∈ A -> y.1 <> p)) as (Hsp & Hm & Hb & Hpa).
  { eapply below_facts; [exact Hly|exact Hly'|done]. }
  assert (forall h1 h2, Forall (fun x => exists q, <[p := h1]> (<[bp := h2]> (m_hdrs s)) !! x.1 = Some (Header q x.2)) A) as Hal'.
  { intros h1 h2. eapply alloc_frame; [exact Hal|]. intros y Hy. pose proof (layout_alloc_ne _ _ _ _ y Hly Hy) as Hne. cbn in Hne.
    rewrite !lookup_insert_ne; [done|done|]. intros E. by apply (Hpa y). }
  specialize (Hrun Hsp Hm Hb). rewrite Hrun. destruct (Z.eqb_spec (p + HDR * sp) bp) as [Ej|Ej].
  - destruct Hcase as [(-> & -> & Ep & ->)|(L & EL & ->)]; [rewrite Ep in Ej; unfold HDR in *; lia|].
    eexists _, (L ++ (p, sp + sB) :: R). split_and!; [reflexivity| |done|rewrite EL, !length_app; cbn; lia|].
    + constructor; cbn [m_hdrs m_freep m_brk].
      * rewrite app_comm_cons. eapply chain_joined; [exact Hc1|done|done|by apply HsubR| |by apply HsubR].
        intros [Hin|Hin]%elem_of_cons; [cbn in Hin; unfold HDR in *; lia|]. apply Hni. rewrite EL, !fmap_app. rewrite !elem_of_app. tauto.
      * right. rewrite fmap_app. apply elem_of_app. right. by left.
      * eapply layout_lower; [|done|done]. rewrite EL in Hly'. by rewrite <-app_assoc in Hly'.
      * apply Hal'.
      * apply Hok.
    + exists (p, sp + sB). split; [set_solver|cbn; lia].
  - eexists _, (L1 ++ (bp, sB) :: R). split_and!; [reflexivity| |done|rewrite !length_app; cbn; lia|].
    + constructor; cbn [m_hdrs m_freep m_brk].
      * rewrite app_comm_cons, E0. eapply chain_alone; [exact Hc1|done|done|by apply HsubR| |by apply HsubR].
        rewrite <-E0. intros [Hin|Hin]%elem_of_cons; [cbn in Hin; unfold HDR in *; lia|]. apply Hni. rewrite fmap_app. apply elem_of_app. by left.
      * destruct Hcase as [(_ & _ & -> & _)|(L & EL & _)]; [by left|]. right. rewrite EL, !fmap_app. rewrite !elem_of_app. left. right. by left.
      * apply layout_alone; [done..|]. intros x Hx. destruct Hcase as [(-> & _)|(L & EL & _)]; [done|].
        rewrite EL, last_snoc in Hx. by injection Hx as <-.
      * apply Hal'.
      * apply Hok.
    + exists (bp, sB). split; [set_solver|cbn; lia].
Qed.

(** *** malloc searches the list *)

Context (Hgrow : forall b n, grow b n = true -> 0 <= n -> b + n - lo < 2 ^ 36).

(** Memory from the kernel goes to the free list. *)
Lemma morecore_ok s F A nu : hok s F A -> 1 <= nu -> nu < 2 ^ 27 ->
  (morecore nu s = Ok (0, s) /\ exists n, nu <= n /\ grow (m_brk s) (HDR * n) = false) \/
  (exists s' F', morecore nu s = Ok (m_freep s', s') /\ m_freep s' <> 0 /\ hok s' F' A /\ (length F' <= S (length F))%nat /\
     exists x, x ∈ F' /\ nu <= x.2).
Proof.
  intros Hok Hnu Hmax. unfold morecore. set (n := if nu <? 4096 then 4096 else nu). assert (nu <= n /\ 1 <= n /\ n < 2 ^ 27) as Hn.
  { unfold n. change (2 ^ 27) with 134217728 in *. destruct (Z.ltb_spec nu 4096); lia. }
  assert (s32 (n * HDR) = HDR * n) as Es. { unfold HDR. rewrite s32_small; [lia|]. change (2 ^ 27) with 134217728 in *. change (2 ^ 31) with 2147483648. lia. }
  pose proof (hk_brk _ _ _ Hok) as Hlo. unfold sbrk. rewrite Es. destruct (grow (m_brk s) (HDR * n)) eqn:Eg.
  2:{ left. unfold bind at 1. rewrite Eg. split; [done|]. exists n. split; [lia|done]. }
  right. unfold bind at 1. rewrite Eg. replace (m_brk s =? -1) with false by (unfold HDR in *; lia).
  set (s1 := Ma (<[m_brk s := Header (match m_hdrs s !! m_brk s with Some h => s_ptr h | None => 0 end) n]> (m_hdrs s)) (m_freep s) (m_brk s + HDR * n)).
  assert (init_size (m_brk s) n (Ma (m_hdrs s) (m_freep s) (m_brk s + HDR * n)) = Ok (tt, s1)) as Ei.
  { unfold init_size, gets. unfold bind at 1. rewrite put_ok; [done|]. unfold in_memory, HDR in *. cbn [m_brk]. destruct (_ =? base); [done|]. cbn. lia. }
  assert (forall x, x ∈ F ++ A -> x.1 <> m_brk s) as Hne.
  { intros x Hx. pose proof (layout_elem _ _ _ x (hk_layout _ _ _ Hok) Hx). unfold HDR in *. lia. }
  assert (hok s1 F ((m_brk s, n) :: A)) as Hok1.
  { constructor; cbn [s1 m_hdrs m_freep m_brk].
    - apply chain_other; [apply Hok|]. intros [Hin|(x & E & Hx)%list_elem_of_fmap]%elem_of_cons; [cbn in Hin; unfold HDR in *; lia|].
      by apply (Hne x); [set_solver|].
    - apply Hok.
    - apply layout_grow; [done|lia| |apply Hok]. apply Hgrow in Eg; [lia|unfold HDR; lia].
    - apply Forall_cons. split; [eexists; apply lookup_insert_eq|]. eapply alloc_frame; [apply Hok|]. intros x Hx.
      apply lookup_insert_ne. intros E. by apply (Hne x); [set_solver|].
    - unfold HDR. lia. }
  destruct (free_ok s1 F A (m_brk s) n Hok1) as (s' & F' & E & Hok' & _ & Hlen & x & Hx & Hxn).
  exists s', F'. rewrite (bind_ok _ _ _ _ _ Ei), (bind_ok _ _ _ _ _ E). split_and!; [done| |done|done|exists x; split; [done|lia]].
  pose proof (hk_freep _ _ _ Hok') as Hf. apply elem_of_cons in Hf as [->|(y & -> & Hy)%list_elem_of_fmap]; [lia|].
  pose proof (layout_elem _ _ _ y (hk_layout _ _ _ Hok') ltac:(set_solver)). unfold HDR in *. lia.
Qed.

(** One turn of the search, past a block that is too small. *)
Lemma fit_skip s nunits q p sp nxt : m_hdrs s !! p = Some (Header nxt sp) -> sp < nunits -> p <> m_freep s ->
  fit_body nunits (q, p) s = Ok (inl (p, nxt), s).
Proof.
  intros Hp Hs Hne. unfold fit_body. rewrite (bind_ok _ _ _ _ _ (hdr_ok _ _ _ Hp)). cbn [s_size s_ptr].
  replace (sp >=? nunits) with false by lia. unfold gets. unfold bind. by rewrite (proj2 (Z.eqb_neq _ _) Hne).
Qed.

Lemma fit_walk s nunits Z1 : forall q e k, chain (m_hdrs s) Z1 e -> Forall (fun x => x.2 < nunits /\ x.1 <> m_freep s) Z1 ->
  loop (length Z1 + k) (fit_body nunits) (q, hd_addr Z1 e) s = loop k (fit_body nunits) (last_addr q Z1, e) s.
Proof.
  induction Z1 as [|[p sp] Z1 IH]; intros q e k Hc Hf; [done|]. cbn [chain] in Hc. destruct Hc as [Hp Hc].
  apply Forall_cons in Hf as [[Hs Hne] Hf]. cbn in Hp, Hs, Hne. cbn [length Nat.add loop hd_addr fst].
  rewrite (bind_ok _ _ _ _ _ (fit_skip s nunits q p sp _ Hp Hs Hne)). rewrite last_addr_cons. by apply IH.
Qed.

Lemma first_fit nunits (L : blocks) : Forall (fun x => x.2 < nunits) L \/
  exists L1 p sz L2, L = L1 ++ (p, sz) :: L2 /\ Forall (fun x => x.2 < nunits) L1 /\ nunits <= sz.
Proof.
  induction L as [|[p sz] L [IH|(L1 & p' & sz' & L2 & -> & H1 & H2)]]; [by left|..]; destruct (Z.lt_ge_cases sz nunits) as [Hlt|Hge].
  - left. by apply Forall_cons.
  - right. exists [], p, sz, L. done.
  - right. exists ((p, sz) :: L1), p', sz', L2. split_and!; [done|by apply Forall_cons|done].
  - right. exists [], p, sz, (L1 ++ (p', sz') :: L2). done.
Qed.

(** Where freep is. *)
Lemma freep_split s F A : hok s F A -> exists sf Y,
  (m_freep s = base /\ Y = F /\ sf = 0) \/ (exists X, F = X ++ (m_freep s, sf) :: Y).
Proof.
  intros Hok. destruct (elem_of_cons F.*1 (m_freep s) base) as [H _]. destruct (H (hk_freep _ _ _ Hok)) as [E|([f sf] & E & Hx)%list_elem_of_fmap].
  - exists 0, F. by left.
  - cbn in E. apply list_elem_of_split in Hx as (X & Y & ->). exists sf, Y. right. exists X. by rewrite E.
Qed.

Lemma hok_nodup s F A : hok s F A -> NoDup ((base, 0) :: F).*1.
Proof.
  intros Hok. apply gapped_nodup; [apply (ly_gap _ _ _ (hk_layout _ _ _ Hok))|]. apply Forall_cons. split; [done|].
  by eapply layout_sizes, (hk_layout _ _ _ Hok).
Qed.

(** The search over a stretch of the list without freep. *)
Lemma fit_segment s nunits Z1 q e k : chain (m_hdrs s) Z1 e -> m_freep s ∉ Z1.*1 ->
  (Forall (fun x => x.2 < nunits) Z1 /\
   loop (length Z1 + k) (fit_body nunits) (q, hd_addr Z1 e) s = loop k (fit_body nunits) (last_addr q Z1, e) s) \/
  (exists L1 p sz L2, Z1 = L1 ++ (p, sz) :: L2 /\ nunits <= sz /\
   loop (length Z1 + k) (fit_body nunits) (q, hd_addr Z1 e) s = loop (S (length L2 + k)) (fit_body nunits) (last_addr q L1, p) s).
Proof.
  intros Hc Hf. assert (forall L1 L2, Z1 = L1 ++ L2 -> Forall (fun x => x.2 < nunits) L1 -> Forall (fun x => x.2 < nunits /\ x.1 <> m_freep s) L1) as Hne.
  { intros L1 L2 -> H1. rewrite Forall_forall in *. intros x Hx. split; [by apply H1|]. intros E. apply Hf. rewrite <-E.
    apply list_elem_of_fmap. exists x. split; [done|]. apply elem_of_app. by left. }
  destruct (first_fit nunits Z1) as [Hall|(L1 & p & sz & L2 & E & H1 & H2)].
  - left. split; [done|]. apply fit_walk; [done|]. apply (Hne Z1 []); [by rewrite app_nil_r|done].
  - right. exists L1, p, sz, L2. split_and!; [done|done|]. pose proof (Hne L1 _ E H1) as Hw. rewrite E in *. apply chain_app in Hc as [Hc _].
    rewrite length_app, hd_addr_app. cbn [length hd_addr fst] in *. replace (length L1 + S (length L2) + k)%nat with (length L1 + S (length L2 + k))%nat by lia.
    by apply fit_walk.
Qed.

(** One round of the search finds a block that is large enough, with its
    predecessor, or comes back to freep. *)
Lemma fit_round s F A nunits k hf : hok s F A -> 1 <= nunits -> m_hdrs s !! m_freep s = Some hf ->
  exists prevp p k', loop (length F + S k) (fit_body nunits) (m_freep s, s_ptr hf) s = loop (S k') (fit_body nunits) (prevp, p) s /\ (k <= k')%nat /\
    ((exists F1 sz F2, F = F1 ++ (p, sz) :: F2 /\ prevp = last_addr base F1 /\ nunits <= sz) \/
     (p = m_freep s /\ Forall (fun x => x.2 < nunits) F)).
Proof.
  intros Hok Hnu Hf. pose proof (hk_chain _ _ _ Hok) as Hc. pose proof (hok_nodup _ _ _ Hok) as Hnd.
  destruct (freep_split _ _ _ Hok) as (sf & Y & [(Ef & -> & ->)|(X & EF)]).
  - destruct Hc as [Hb Hc]. cbn [fst snd] in Hb. assert (hf = Header (hd_addr F base) 0) as -> by (rewrite Ef in Hf; congruence). cbn [s_ptr].
    apply NoDup_cons in Hnd as [Hnb _]. cbn [fst] in Hnb. rewrite <-Ef in Hnb.
    destruct (fit_segment s nunits F (m_freep s) base (S k) Hc Hnb) as [[Hall ->]|(L1 & p & sz & L2 & -> & H2 & ->)].
    + eexists _, _, k. split_and!; [by rewrite <-Ef|lia|by right].
    + eexists _, p, _. split_and!; [reflexivity|lia|]. left. exists L1, sz, L2. by rewrite Ef.
  - rewrite EF in Hnd, Hc. rewrite app_comm_cons in Hc. apply chain_app in Hc as [HcX [Hp HcY]]. cbn [fst snd hd_addr] in Hp, HcX.
    rewrite Hp in Hf. injection Hf as <-. cbn [s_ptr].
    assert (m_freep s ∉ Y.*1 /\ m_freep s ∉ ((base, 0) :: X).*1) as [HnY HnX].
    { rewrite app_comm_cons, fmap_app in Hnd. apply NoDup_app in Hnd as (_ & Hd & HY). apply NoDup_cons in HY as [HY _]. split; [done|].
      intros Hin. apply (Hd _ Hin). by left. }
    assert (length F + S k = length Y + (length ((base, 0%Z) :: X) + S k))%nat as -> by (rewrite EF, length_app; cbn; lia).
    destruct (fit_segment s nunits Y (m_freep s) base (length ((base, 0) :: X) + S k) HcY HnY) as [[HY ->]|(L1 & p & sz & L2 & -> & H2 & ->)].
    2:{ eexists _, p, _. split_and!; [reflexivity|lia|]. left. exists (X ++ (m_freep s, sf) :: L1), sz, L2. rewrite last_addr_app, last_addr_cons.
        rewrite EF. split_and!; [by rewrite <-app_assoc|done|done]. }
    destruct (fit_segment s nunits ((base, 0) :: X) (last_addr (m_freep s) Y) (m_freep s) (S k) HcX HnX) as [[HX EX]|(L1 & p & sz & L2 & E & H2 & EX)];
      cbn [hd_addr fst] in EX; rewrite EX.
    + destruct (Z.lt_ge_cases sf nunits) as [Hlt|Hge].
      * eexists _, _, k. split_and!; [reflexivity|lia|]. right. split; [done|]. apply Forall_cons in HX as [_ HX]. rewrite EF. apply Forall_app. split; [done|].
        by apply Forall_cons.
      * eexists _, _, k. split_and!; [reflexivity|lia|]. left. exists X, sf, Y. by rewrite last_addr_cons.
    + destruct L1 as [|[b0 s0] L1]; [injection E as <- <- <-; lia|]. injection E as <- <- ->.
      eexists _, p, _. split_and!; [reflexivity|lia|]. left. exists L1, sz, (L2 ++ (m_freep s, sf) :: Y). rewrite last_addr_cons. rewrite EF, <-app_assoc. done.
Qed.

(** *** malloc takes a block *)

Lemma prev_facts s F A F1 F2 p sz L0 q sq : hok s F A -> F = F1 ++ (p, sz) :: F2 -> (base, 0) :: F1 = L0 ++ [(q, sq)] ->
  m_hdrs s !! q = Some (Header p sq) /\ in_memory q s = true /\ q <> p /\ q ∉ L0.*1 /\ q ∉ F2.*1 /\ q ∈ base :: F1.*1 /\ (forall y, y ∈ A -> y.1 <> q).
Proof.
  intros Hok -> E. pose proof (hk_chain _ _ _ Hok) as Hc. pose proof (hok_nodup _ _ _ Hok) as Hnd. pose proof (hk_layout _ _ _ Hok) as Hly.
  rewrite app_comm_cons, E in Hc, Hnd. apply chain_app in Hc as [Hc _]. apply chain_app in Hc as [_ [Hq _]]. cbn in Hq.
  rewrite !fmap_app in Hnd. apply NoDup_app in Hnd as (Hn0 & Hd & _). apply NoDup_app in Hn0 as (_ & Hd0 & _).
  assert (q ∈ L0.*1 ++ [(q, sq)].*1) as Hq0 by (apply elem_of_app; right; by left). apply Hd in Hq0. apply not_elem_of_cons in Hq0 as [Hqp Hq2].
  assert (q ∈ ((base, 0) :: F1).*1) as Hin by (rewrite E, fmap_app; apply elem_of_app; right; by left).
  split_and!; [done| |done| |done|done|].
  - apply elem_of_cons in Hin as [->|(x & -> & Hx)%list_elem_of_fmap]; [unfold in_memory; by rewrite Z.eqb_refl|].
    eapply layout_memory; [exact Hly|set_solver].
  - intros Hin0. apply (Hd0 q Hin0). by left.
  - intros y Hy Ey. apply elem_of_cons in Hin as [Eb|(x & Ex & Hx)%list_elem_of_fmap].
    + cbn in Eb. pose proof (layout_elem _ _ _ y Hly ltac:(set_solver)). unfold HDR in *. lia.
    + apply (layout_free_ne _ _ _ x y Hly); [set_solver|done|congruence].
Qed.

(** A block of the right size leaves the list. *)
Lemma fit_exact s F1 F2 A p sz : hok s (F1 ++ (p, sz) :: F2) A -> exists s',
  fit_body sz (last_addr base F1, p) s = Ok (inr (p + HDR), s') /\ hok s' (F1 ++ F2) ((p, sz) :: A).
Proof.
  intros Hok. destruct (last_below F1) as (L0 & sq & E0 & _). set (q := last_addr base F1) in *.
  destruct (prev_facts s _ A F1 F2 p sz L0 q sq Hok eq_refl E0) as (Hq & Hm & Hqp & Hq0 & Hq2 & Hqin & HqA).
  pose proof (hk_chain _ _ _ Hok) as Hc. rewrite app_comm_cons in Hc. apply chain_app in Hc as [Hc1 [Hp Hc2]]. cbn [fst snd hd_addr] in Hp, Hc1.
  eexists. split.
  { unfold fit_body. rewrite (bind_ok _ _ _ _ _ (hdr_ok _ _ _ Hp)). cbn [s_size s_ptr]. replace (sz >=? sz) with true by lia. rewrite Z.eqb_refl.
    rewrite (bind_ok _ _ _ _ _ (set_ptr_ok _ _ _ _ Hq Hm)). reflexivity. }
  constructor; cbn [m_hdrs m_freep m_brk set_freep s_size].
  - rewrite app_comm_cons, E0. apply chain_app. split; [|by apply chain_other]. eapply chain_set_last; [|done]. rewrite <-E0. exact Hc1.
  - rewrite fmap_app. apply elem_of_cons in Hqin as [->|Hin]; [by left|]. right. apply elem_of_app. by left.
  - apply layout_take, Hok.
  - apply Forall_cons. split; [eexists; rewrite lookup_insert_ne by done; exact Hp|]. eapply alloc_frame; [apply Hok|].
    intros y Hy. apply lookup_insert_ne. intros E. by apply (HqA y).
  - apply Hok.
Qed.

(** A larger one is cut. *)
Lemma fit_cut s F1 F2 A p sz n : hok s (F1 ++ (p, sz) :: F2) A -> 1 <= n < sz -> exists s',
  fit_body n (last_addr base F1, p) s = Ok (inr (p + HDR * (sz - n) + HDR), s') /\ hok s' (F1 ++ (p, sz - n) :: F2) ((p + HDR * (sz - n), n) :: A).
Proof.
  intros Hok Hn. destruct (last_below F1) as (L0 & sq & E0 & _). set (q := last_addr base F1) in *.
  destruct (prev_facts s _ A F1 F2 p sz L0 q sq Hok eq_refl E0) as (_ & _ & _ & _ & _ & Hqin & _).
  pose proof (hk_layout _ _ _ Hok) as Hly. pose proof (layout_cut _ _ _ _ n _ _ Hn Hly) as Hcut. set (p' := p + HDR * (sz - n)) in *.
  pose proof (layout_notin _ _ _ _ _ Hcut) as Hp'. pose proof (layout_elem _ _ _ (p', n) Hcut ltac:(set_solver)) as Hin'. cbn in Hin'.
  pose proof (hok_nodup _ _ _ Hok) as Hnd. pose proof (hk_chain _ _ _ Hok) as Hc. rewrite app_comm_cons in Hc, Hnd.
  apply chain_app in Hc as [Hc1 [Hp Hc2]]. cbn [fst snd hd_addr] in Hp, Hc1.
  rewrite fmap_app in Hnd. apply NoDup_app in Hnd as (_ & Hd & Hnd2). apply NoDup_cons in Hnd2 as [Hp2 _]. cbn [fst] in Hp2.
  assert (p ∉ ((base, 0) :: F1).*1) as Hp1 by (intros Hin; apply (Hd p Hin); by left).
  rewrite fmap_app in Hp'. apply not_elem_of_app in Hp' as [Hp'1 Hp'2]. apply not_elem_of_cons in Hp'2 as [Hp'p Hp'2]. cbn [fst] in Hp'p.
  eexists. split.
  { unfold fit_body. rewrite (bind_ok _ _ _ _ _ (hdr_ok _ _ _ Hp)). cbn [s_size s_ptr]. replace (sz >=? n) with true by lia. replace (sz =? n) with false by lia.
    rewrite (bind_ok _ _ _ _ _ (set_size_ok _ _ _ _ Hp ltac:(apply (layout_memory s (F1 ++ (p, sz) :: F2) A (p, sz)); [done|set_solver]))). cbn [s_ptr].
    unfold init_size, gets. fold p'. erewrite bind_ok; [|unfold bind at 1; apply put_ok; unfold in_memory, HDR in *; cbn [m_brk]; destruct (p' =? base); [done|]; cbn; lia].
    reflexivity. }
  constructor; cbn [m_hdrs m_freep m_brk set_freep].
  - rewrite app_comm_cons. apply chain_app. split; [|split]; cbn [hd_addr fst snd].
    + apply chain_other; [by apply chain_other|]. intros [Hin|Hin]%elem_of_cons; [cbn in Hin; unfold HDR in *; lia|done].
    + rewrite lookup_insert_ne by done. apply lookup_insert_eq.
    + by apply chain_other; [apply chain_other|].
  - rewrite fmap_app. apply elem_of_cons in Hqin as [->|Hin]; [by left|]. right. apply elem_of_app. by left.
  - done.
  - apply Forall_cons. split; [eexists; apply lookup_insert_eq|]. eapply alloc_frame; [apply Hok|]. intros y Hy.
    rewrite !lookup_insert_ne; [done| |].
    + intros E. apply (layout_free_ne _ _ _ (p, sz) y Hly); [set_solver|done|done].
    + intros E. by apply (layout_alloc_ne _ _ _ _ y Hcut).
  - apply Hok.
Qed.

Lemma fit_found s F A nunits F1 p sz F2 : hok s F A -> F = F1 ++ (p, sz) :: F2 -> 1 <= nunits <= sz -> exists a s' F',
  fit_body nunits (last_addr base F1, p) s = Ok (inr (a + HDR), s') /\ hok s' F' ((a, nunits) :: A).
Proof.
  intros Hok -> Hn. destruct (Z.eq_dec sz nunits) as [<-|Hne].
  - destruct (fit_exact _ _ _ _ _ _ Hok) as (s' & E & Hok'). eauto.
  - destruct (fit_cut _ _ _ _ _ _ nunits Hok ltac:(lia)) as (s' & E & Hok'). eauto.
Qed.

Lemma freep_lookup s F A : hok s F A -> exists hf, m_hdrs s !! m_freep s = Some hf.
Proof.
  intros Hok. pose proof (hk_freep _ _ _ Hok) as Hf. apply elem_of_cons in Hf as [->|(x & -> & Hx)%list_elem_of_fmap].
  - destruct (hk_chain _ _ _ Hok) as [Hb _]. eauto.
  - destruct (chain_lookup _ _ _ x (hk_chain _ _ _ Hok) ltac:(by right)) as [q Hq]. eauto.
Qed.

Lemma freep_header s F A nunits : hok s F A -> 1 <= nunits -> Forall (fun x => x.2 < nunits) F ->
  exists hf, m_hdrs s !! m_freep s = Some hf /\ s_size hf < nunits.
Proof.
  intros Hok Hn Hall. rewrite Forall_forall in Hall. pose proof (hk_chain _ _ _ Hok) as Hc.
  pose proof (hk_freep _ _ _ Hok) as Hf. apply elem_of_cons in Hf as [->|(x & -> & Hx)%list_elem_of_fmap].
  - destruct Hc as [Hb _]. eexists. split; [exact Hb|]. cbn. lia.
  - destruct (chain_lookup _ _ _ x Hc ltac:(by right)) as [q Hq]. eexists. split; [exact Hq|]. by apply Hall.
Qed.

(** The search returns a block, or the kernel has refused to grow the process. *)
Lemma malloc_loop s F A nunits k hf : hok s F A -> 1 <= nunits -> nunits < 2 ^ 27 -> m_hdrs s !! m_freep s = Some hf -> (length F + 3 <= k)%nat ->
  (exists n, nunits <= n /\ grow (m_brk s) (HDR * n) = false /\ loop (length F + k) (fit_body nunits) (m_freep s, s_ptr hf) s = Ok (0, s)) \/
  (exists a s' F', loop (length F + k) (fit_body nunits) (m_freep s, s_ptr hf) s = Ok (a + HDR, s') /\ hok s' F' ((a, nunits) :: A)).
Proof.
  intros Hok Hn Hmax Hf Hk. destruct k as [|k]; [lia|].
  destruct (fit_round s F A nunits k hf Hok Hn Hf) as (prevp & p & k1 & -> & Hk1 & [(F1 & sz & F2 & EF & -> & Hsz)|[-> Hall]]).
  { right. destruct (fit_found s F A nunits F1 p sz F2 Hok EF ltac:(lia)) as (a & s' & F' & E & Hok'). exists a, s', F'. cbn [loop].
    by rewrite (bind_ok _ _ _ _ _ E). }
  destruct (freep_header s F A nunits Hok Hn Hall) as (h & Hh & Hsz). cbn [loop].
  assert (fit_body nunits (prevp, m_freep s) s = (p <- morecore nunits ;; if p =? 0 then ret (inr 0) else h <- hdr p ;; ret (inl (p, s_ptr h))) s) as Eb.
  { unfold fit_body. rewrite (bind_ok _ _ _ _ _ (hdr_ok _ _ _ Hh)). replace (s_size h >=? nunits) with false by lia. unfold gets. unfold bind at 1. by rewrite Z.eqb_refl. }
  destruct (morecore_ok s F A nunits Hok Hn Hmax) as [[Em (n & Hn1 & Hg)]|(s1 & F' & Em & Hnz & Hok1 & Hlen & x & Hx & Hxn)]; rewrite (bind_ok _ _ _ _ _ Em) in Eb.
  { left. exists n. split_and!; [done|done|]. by rewrite (bind_ok _ _ _ _ _ Eb). }
  right. destruct (freep_lookup _ _ _ Hok1) as [h1 Hq1].
  rewrite (proj2 (Z.eqb_neq _ _) Hnz), (bind_ok _ _ _ _ _ (hdr_ok _ _ _ Hq1)) in Eb. rewrite (bind_ok _ _ _ _ _ Eb).
  replace k1 with (length F' + S (k1 - length F' - 1))%nat by lia.
  destruct (fit_round s1 F' A nunits (k1 - length F' - 1) _ Hok1 Hn Hq1) as (prevp1 & p1 & k2 & E2 & _ & [(F1 & sz & F2 & EF & -> & Hsz1)|[_ Hall1]]).
  2:{ exfalso. rewrite Forall_forall in Hall1. specialize (Hall1 x Hx). cbn in Hall1. lia. }
  rewrite E2. destruct (fit_found s1 F' A nunits F1 p1 sz F2 Hok1 EF ltac:(lia)) as (a & s' & F3 & E & Hok'). exists a, s', F3. cbn [loop].
  by rewrite (bind_ok _ _ _ _ _ E).
Qed.

(** Before the first call, and after it. *)
Definition heap (s : ma) (F A : blocks) : Prop :=
  (m_freep s = 0 /\ m_brk s = lo /\ F = [] /\ A = []) \/ (m_freep s <> 0 /\ hok s F A).

(** The largest request for which sbrk's argument is not negative. *)
Definition MAXREQ : Z := 2 ^ 31 - 64.

Lemma units_range n : 0 <= n < MAXREQ -> 1 <= units n < 2 ^ 27 /\ u32 (units n) = units n /\ n + HDR <= HDR * units n.
Proof.
  unfold MAXREQ, units, HDR. intros Hn. change (2 ^ 31) with 2147483648 in Hn. change (2 ^ 27) with 134217728.
  assert (1 <= (n + 16 - 1) / 16 + 1 < 134217728 /\ n + 16 <= 16 * ((n + 16 - 1) / 16 + 1)) as [H1 H2] by dlia.
  split_and!; [lia|lia| |lia]. apply u32_small. change (2 ^ 32) with 4294967296. lia.
Qed.

Lemma hok_freep s F A : hok s F A -> m_freep s <> 0.
Proof.
  intros Hok. pose proof (hk_freep _ _ _ Hok) as Hf. apply elem_of_cons in Hf as [->|(y & -> & Hy)%list_elem_of_fmap]; [lia|].
  pose proof (layout_elem _ _ _ y (hk_layout _ _ _ Hok) ltac:(set_solver)). unfold HDR in *. lia.
Qed.

Lemma malloc_ok s F A nbytes : heap s F A -> 0 <= nbytes < MAXREQ ->
  (exists s' n, units nbytes <= n /\ grow (m_brk s) (HDR * n) = false /\ malloc nbytes s = Ok (0, s') /\ heap s' F A) \/
  (exists a s' F', malloc nbytes s = Ok (a + HDR, s') /\ heap s' F' ((a, units nbytes) :: A)).
Proof.
  intros Hh Hn. destruct (units_range nbytes Hn) as ([Hu1 Hu2] & Eu & _).
  assert (exists s1, (f <- gets m_freep ;; (if f =? 0 then put base (Header base 0) ;;; modify (set_freep base) else ret tt)) s = Ok (tt, s1) /\
    m_brk s1 = m_brk s /\ hok s1 F A) as (s1 & E1 & Eb & Hok).
  { unfold gets. unfold bind at 1. destruct Hh as [(E0 & Ebrk & -> & ->)|[Hne Hok]].
    - rewrite E0. cbn [Z.eqb]. erewrite bind_ok; [|apply put_ok; unfold in_memory; by rewrite Z.eqb_refl].
      eexists. split; [reflexivity|]. split; [done|]. constructor; cbn.
      + by rewrite lookup_insert_eq.
      + by left.
      + constructor; cbn; [by repeat constructor|constructor|by split; [|intros x y ?%elem_of_nil]|]. rewrite Ebrk. change (2 ^ 36) with 68719476736. lia.
      + constructor.
      + lia.
    - rewrite (proj2 (Z.eqb_neq _ _) Hne). by exists s. }
  rewrite <-Eb.
  destruct (freep_lookup _ _ _ Hok) as [hf Hf].
  assert (malloc nbytes s = loop (2 * size (m_hdrs s1) + 4) (fit_body (units nbytes)) (m_freep s1, s_ptr hf) s1) as ->.
  { unfold malloc. rewrite Eu. rewrite <-bind_assoc, (bind_ok _ _ _ _ _ E1). unfold gets, id. unfold bind at 1.
    by rewrite (bind_ok _ _ _ _ _ (hdr_ok _ _ _ Hf)). }
  assert (length F + 1 <= size (m_hdrs s1))%nat as Hlen.
  { pose proof (chain_length _ _ _ (hk_chain _ _ _ Hok) (hok_nodup _ _ _ Hok)) as Hl. cbn in Hl. lia. }
  replace (2 * size (m_hdrs s1) + 4)%nat with (length F + (2 * size (m_hdrs s1) + 4 - length F))%nat by lia.
  destruct (malloc_loop s1 F A (units nbytes) (2 * size (m_hdrs s1) + 4 - length F) hf Hok Hu1 Hu2 Hf ltac:(lia)) as [(n & Hn1 & Hg & E)|(a & s' & F' & E & Hok')].
  - left. exists s1, n. split_and!; [done|done|exact E|]. right. split; [by eapply hok_freep|done].
  - right. exists a, s', F'. split; [exact E|]. right. split; [by eapply hok_freep|done].
Qed.

(** *** A program that allocates *)

(** The state with the pointers that the program holds and the bytes it asked
    for. *)
Inductive mstep : ma * list (Z * Z) -> ma * list (Z * Z) -> Prop :=
| st_malloc s A n a s' : 0 <= n < MAXREQ -> malloc n s = Ok (a, s') -> mstep (s, A) (s', if a =? 0 then A else (a, n) :: A)
| st_free s A1 a n A2 s' : free a s = Ok (tt, s') -> mstep (s, A1 ++ (a, n) :: A2) (s', A1 ++ A2).

Definition blk (x : Z * Z) : Z * Z := (x.1 - HDR, units x.2).

Definition minv (m : ma * list (Z * Z)) : Prop :=
  exists F, heap m.1 F (blk <$> m.2) /\ Forall (fun x => 0 <= x.2 < MAXREQ) m.2.

Lemma heap_hok s F A x : heap s F A -> x ∈ A -> hok s F A.
Proof. intros [(_ & _ & _ & ->)|[_ Hok]]; [by intros ?%elem_of_nil|done]. Qed.

Lemma hok_perm s F A A' : A ≡ₚ A' -> hok s F A -> hok s F A'.
Proof. intros HA []. constructor; try done; [by eapply layout_perm|by rewrite <-HA]. Qed.

Lemma free_heap s F A1 a n A2 : heap s F (blk <$> A1 ++ (a, n) :: A2) -> exists s' F', free a s = Ok (tt, s') /\ heap s' F' (blk <$> A1 ++ A2).
Proof.
  intros Hh. assert (hok s F (blk <$> A1 ++ (a, n) :: A2)) as Hok.
  { eapply heap_hok with (x := blk (a, n)); [done|]. apply list_elem_of_fmap. exists (a, n). split; [done|]. apply elem_of_app. right. by left. }
  destruct (free_ok s F (blk <$> A1 ++ A2) (a - HDR) (units n)) as (s' & F' & E & Hok' & _).
  { eapply hok_perm; [|exact Hok]. change (a - HDR, units n) with (blk (a, n)). rewrite <-fmap_cons. apply fmap_Permutation. symmetry. apply Permutation_middle. }
  replace (a - HDR + HDR) with a in E by lia. exists s', F'. split; [done|]. right. split; [by eapply hok_freep|done].
Qed.

Lemma minv_step m m' : mstep m m' -> minv m -> minv m'.
Proof.
  destruct 1 as [s A n a s' Hn E|s A1 a n A2 s' E]; intros (F & Hh & Hr); cbn [fst snd] in *.
  - destruct (malloc_ok s F _ n Hh Hn) as [(s1 & k & _ & _ & E1 & Hh1)|(b & s1 & F' & E1 & Hh1)]; rewrite E1 in E; injection E as <- <-; [by exists F|].
    assert (b + HDR <> 0) as Hb.
    { pose proof (layout_elem _ _ _ (b, units n) (hk_layout _ _ _ (heap_hok _ _ _ (b, units n) Hh1 ltac:(by left))) ltac:(set_solver)) as Hl. cbn in Hl. unfold HDR in *. lia. }
    rewrite (proj2 (Z.eqb_neq _ _) Hb). exists F'. cbn [fst snd]. split; [|by apply Forall_cons]. rewrite fmap_cons. unfold blk at 1. cbn [fst snd].
    by replace (b + HDR - HDR) with b by lia.
  - destruct (free_heap _ _ _ _ _ _ Hh) as (s1 & F' & E1 & Hh1). rewrite E1 in E. injection E as <-. exists F'. split; [done|]. cbn [snd].
    rewrite !Forall_app, Forall_cons in *. tauto.
Qed.

Lemma pairwise_lookup L i j x y : pairwise L -> i <> j -> L !! i = Some x -> L !! j = Some y -> apart x y.
Proof.
  revert i j. induction L as [|z L IH]; [done|]. intros [|i] [|j] [Hz HL] Hne Hi Hj; try done; cbn in Hi, Hj.
  - injection Hi as ->. rewrite Forall_forall in Hz. by eapply Hz, list_elem_of_lookup_2.
  - injection Hj as ->. rewrite Forall_forall in Hz. destruct (Hz x (list_elem_of_lookup_2 _ _ _ Hi)); [by right|by left].
  - apply (IH i j); try done. congruence.
Qed.

(** With nothing allocated the whole heap is one free block. *)
Lemma gapped_total brk : forall F a, gapped F -> Forall (fun x => 1 <= x.2 /\ a <= x.1 /\ x.1 + HDR * x.2 <= brk) F -> F <> [] -> HDR * total F = brk - a ->
  exists n, F = [(a, n)] /\ HDR * n = brk - a.
Proof.
  assert (forall F a, gapped F -> Forall (fun x => 1 <= x.2 /\ a <= x.1 /\ x.1 + HDR * x.2 <= brk) F -> a <= brk -> HDR * total F <= brk - a) as Hle.
  { unfold HDR. induction F as [|x F IH]; intros a Hg Hi Ha; cbn; [lia|]. fold (total F). destruct Hg as [Hx Hg]. apply Forall_cons in Hi as [Hix Hi]. cbn in Hix.
    specialize (IH (x.1 + 16 * x.2) Hg). assert (16 * total F <= brk - (x.1 + 16 * x.2)); [|lia]. apply IH; [|lia].
    rewrite Forall_forall in *. intros y Hy. specialize (Hx y Hy). specialize (Hi y Hy). unfold HDR in Hx. cbn in Hx, Hi |- *. lia. }
  intros F a Hg Hi Hne Ht. destruct F as [|x [|y F]]; [done|..].
  - exists x.2. apply Forall_cons in Hi as [Hix _]. cbn in Ht, Hix. unfold HDR in *. destruct x as [b n]. cbn in *. split; [f_equal; f_equal; lia|lia].
  - exfalso. destruct Hg as [Hx Hg]. apply Forall_cons in Hi as [Hix Hi]. apply Forall_cons in Hx as [Hxy Hx].
    specialize (Hle (y :: F) y.1 Hg). assert (HDR * total (y :: F) <= brk - y.1) as Hr.
    { apply Hle; [|apply Forall_cons in Hi as [Hi _]; cbn in Hi; unfold HDR in Hi; lia]. destruct Hg as [Hgy _]. rewrite Forall_forall in *. intros z Hz.
      pose proof (Hi y ltac:(by left)) as Hiy. specialize (Hi z Hz). apply elem_of_cons in Hz as [->|Hz]; [lia|]. specialize (Hgy z Hz).
      unfold HDR in *. cbn in *. lia. }
    cbn in Ht, Hix, Hxy, Hr. fold (total F) in Ht, Hr. unfold HDR in *. lia.
Qed.

Lemma heap_empty s F : heap s F [] -> lo < m_brk s ->
  m_hdrs s !! lo = Some (Header base ((m_brk s - lo) / HDR)) /\ m_hdrs s !! base = Some (Header lo 0).
Proof.
  intros [(_ & E & _)|[_ Hok]] Hlo; [lia|]. destruct (hk_layout _ _ _ Hok) as [[_ Hg] Hi _ [Ht _]]. rewrite app_nil_r in Hi. cbn [total foldr] in Ht.
  rewrite Z.add_0_r in Ht. destruct (gapped_total (m_brk s) F lo Hg Hi) as (n & -> & En); [|done|].
  { intros ->. cbn in Ht. unfold HDR in Ht. lia. }
  destruct (hk_chain _ _ _ Hok) as (Hb & Hl & _). cbn in Hb, Hl. rewrite <-En. unfold HDR. rewrite Z.mul_comm, Z.div_mul by lia. done.
Qed.

(** C6: malloc and free manage the heap correctly, in any order of calls: the
    objects of a program lie inside the heap, and neither they nor the headers
    in front of them overlap; every request below 2 GB is answered, with an
    object or, if the kernel refuses to grow the process, with 0; every object
    can be freed; no access leaves the process's memory or reads a header that
    was never written; and when all objects have been freed, the whole heap is
    one free block again. *)
Theorem malloc_free_correct s A : rtc mstep (Ma ∅ 0 lo, []) (s, A) ->
  Forall (fun x => lo + HDR <= x.1 /\ x.1 + x.2 <= m_brk s) A /\
  (forall i j x y, i <> j -> A !! i = Some x -> A !! j = Some y -> x.1 + x.2 <= y.1 - HDR \/ y.1 + y.2 <= x.1 - HDR) /\
  (forall n, 0 <= n < MAXREQ -> exists a s', malloc n s = Ok (a, s') /\ (a = 0 -> exists k, units n <= k /\ grow (m_brk s) (HDR * k) = false)) /\
  (forall x, x ∈ A -> exists s', free x.1 s = Ok (tt, s')) /\
  (A = [] -> lo < m_brk s -> m_hdrs s !! lo = Some (Header base ((m_brk s - lo) / HDR)) /\ m_hdrs s !! base = Some (Header lo 0)).
Proof.
  intros Hr. assert (minv (s, A)) as (F & Hh & Hn).
  { revert Hr. generalize (s, A). intros m Hr. revert m Hr. apply (rtc_ind_r minv).
    - exists []. split; [by left|constructor].
    - intros y z _ Hs Hy. by apply (minv_step y). }
  cbn [fst snd] in *. rewrite Forall_forall in Hn.
  assert (forall x, x ∈ A -> blk x ∈ blk <$> A) as Hblk by (intros x Hx; apply list_elem_of_fmap; eauto). split_and!.
  - apply Forall_forall. intros x Hx. destruct (units_range x.2 (Hn x Hx)) as (_ & _ & Hu).
    pose proof (layout_elem _ _ _ (blk x) (hk_layout _ _ _ (heap_hok _ _ _ _ Hh (Hblk x Hx))) ltac:(set_solver)) as Hl. cbn in Hl. unfold HDR in *. lia.
  - intros i j x y Hij Hx Hy. pose proof (list_elem_of_lookup_2 _ _ _ Hx) as Hx'. pose proof (list_elem_of_lookup_2 _ _ _ Hy) as Hy'.
    destruct (units_range x.2 (Hn x Hx')) as (_ & _ & Hux). destruct (units_range y.2 (Hn y Hy')) as (_ & _ & Huy).
    destruct (ly_apart _ _ _ (hk_layout _ _ _ (heap_hok _ _ _ _ Hh (Hblk x Hx')))) as [Hp _].
    destruct (pairwise_lookup _ i j (blk x) (blk y) Hp Hij) as [Ha|Ha]; [by rewrite list_lookup_fmap, Hx|by rewrite list_lookup_fmap, Hy|..]; cbn in Ha; unfold HDR in *; lia.
  - intros n Hn'. destruct (malloc_ok s F _ n Hh Hn') as [(s' & k & Hk & Hg & E & _)|(a & s' & F' & E & Hh')]; [by exists 0, s'; eauto|].
    exists (a + HDR), s'. split; [done|]. intros E0.
    pose proof (layout_elem _ _ _ (a, units n) (hk_layout _ _ _ (heap_hok _ _ _ (a, units n) Hh' ltac:(by left))) ltac:(set_solver)) as Hl. cbn in Hl. unfold HDR in *. lia.
  - intros [a n] (A1 & A2 & ->)%list_elem_of_split. destruct (free_heap _ _ _ _ _ _ Hh) as (s' & F' & E & _). eauto.
  - intros ->. by apply heap_empty with (F := F).
Qed.

End Malloc.

(** Two objects, the first of which is freed, in a heap of at most 1 MB. *)
Definition ex_grow (b n : Z) : bool := b + n <=? 2 ^ 20.
Definition ex_state {A} (o : outcome (A * ma)) : ma := match o with Ok (_, s) => s | Fault _ => Ma ∅ 0 0 end.
Definition ex_1 : ma := ex_state (malloc 64 4096 ex_grow 100 (Ma ∅ 0 4096)).
Definition ex_2 : ma := ex_state (malloc 64 4096 ex_grow 20 ex_1).
Definition ex_3 : ma := ex_state (free 64 4096 69520 ex_2).

Lemma ex_state_ok {A} (o : outcome (A * ma)) (x : A) : match o with Ok (y, _) => y = x | Fault _ => False end -> o = Ok (x, ex_state o).
Proof. destruct o as [[y s]|]; [by intros ->|done]. Qed.

Lemma ex_steps : rtc (mstep 64 4096 ex_grow) (Ma ∅ 0 4096, []) (ex_3, [(69472, 20)]).
Proof.
  eapply rtc_l; [apply (st_malloc 64 4096 ex_grow _ [] 100 69520 ex_1); [by unfold MAXREQ|]; refine (ex_state_ok (malloc 64 4096 ex_grow 100 _) _ _); by vm_compute|].
  eapply rtc_l; [apply (st_malloc 64 4096 ex_grow _ _ 20 69472 ex_2); [by unfold MAXREQ|]; refine (ex_state_ok (malloc 64 4096 ex_grow 20 ex_1) _ _); by vm_compute|].
  eapply rtc_l; [|apply rtc_refl]. apply (st_free 64 4096 ex_grow _ [(69472, 20)] 69520 100 []).
  refine (ex_state_ok (free 64 4096 69520 ex_2) _ _). by vm_compute.
Qed.

Lemma malloc_free_correct_witness : rtc (mstep 64 4096 ex_grow) (Ma ∅ 0 4096, []) (ex_3, [(69472, 20)]) /\
  Forall (fun x => 4096 + HDR <= x.1 /\ x.1 + x.2 <= m_brk ex_3) [(69472, 20)] /\ m_brk ex_3 = 69632.
Proof.
  split; [exact ex_steps|]. split; [|by vm_compute].
  refine (proj1 (malloc_free_correct 64 4096 ex_grow _ _ ex_3 [(69472, 20)] ex_steps)); [unfold HDR; lia|].
  intros b n. unfold ex_grow. change (2 ^ 20) with 1048576. change (2 ^ 36) with 68719476736. lia.
Defined.

(** A request of 4 GB less 16 bytes makes sbrk's argument 0, so that the header
    of the new block is written behind the end of the memory. *)
Example malloc_huge : malloc 64 4096 ex_grow 4294967280 (Ma ∅ 0 4096) = Fault FBounds.
Proof. vm_compute. done. Qed.
