(* ===== verification/Grep.v ===== *)
(** Grep: user/grep.c, a search for regular expressions with the operators
    ^ . * $ in the lines of a file.  A pattern means a set of strings; match
    decides whether a line contains one, and grep prints exactly the lines for
    which it does, however the file arrives in pieces. *)

From S2P Require Import Prelude CString Ulib.

(** *** The matcher *)

(** [matchstar(c, re, text)], where [here] is [matchhere(re, .)]. *)
Fixpoint matchstar (here : list Z -> bool) (c : Z) (text : list Z) : bool :=
  here text ||
  match text with
  | t :: text' => negb (t =? 0) && ((t =? c) || (c =? 46)) && matchstar here c text'
  | [] => false
  end.

Fixpoint matchhere (re text : list Z) : bool :=
  match re with
  | [] => true
  | r0 :: re' =>
      if r0 =? 0 then true
      else
        let single :=
          if (r0 =? 36) && (hd 0 re' =? 0) then hd 0 text =? 0
          else if negb (hd 0 text =? 0) && ((r0 =? 46) || (r0 =? hd 0 text)) then matchhere re' (tl text)
          else false in
        match re' with
        | r1 :: re2 => if r1 =? 42 then matchstar (matchhere re2) r0 text else single
        | [] => single
        end
  end.

(** The do-while loop of match. *)
Fixpoint match_any (re text : list Z) : bool :=
  matchhere re text ||
  match text with
  | t :: text' => negb (t =? 0) && match_any re text'
  | [] => false
  end.

Definition match_ (re text : list Z) : bool :=
  if hd 0 re =? 94 then matchhere (tl re) text else match_any re text.

(** *** What a pattern means *)

Inductive item : Type := One (c : Z) | Many (c : Z).

(** A character of the pattern matches a character. *)
Definition fits (c t : Z) : Prop := c = 46 \/ c = t.

Fixpoint lang (l : list item) (w : list Z) : Prop :=
  match l with
  | [] => w = []
  | One c :: l' => exists t w', w = t :: w' /\ fits c t /\ lang l' w'
  | Many c :: l' => exists u v, w = u ++ v /\ Forall (fits c) u /\ lang l' v
  end.

(** The items of a pattern, and whether it ends in $. *)
Fixpoint items (re : list Z) : list item * bool :=
  match re with
  | [] => ([], false)
  | r0 :: re' =>
      let single :=
        if (r0 =? 36) && (match re' with [] => true | _ => false end) then ([], true)
        else let '(l, e) := items re' in (One r0 :: l, e) in
      match re' with
      | r1 :: re2 => if r1 =? 42 then let '(l, e) := items re2 in (Many r0 :: l, e) else single
      | [] => single
      end
  end.

(** A string of the pattern starts [text], and ends it if there is a $. *)
Definition starts (p : list item * bool) (text : list Z) : Prop :=
  exists w post, text = w ++ post /\ lang p.1 w /\ (p.2 = true -> post = []).

(** The pattern occurs in [text], at its start if it begins with ^. *)
Definition occurs (re text : list Z) : Prop :=
  if decide (hd 0 re = 94) then starts (items (tl re)) text
  else exists pre post, text = pre ++ post /\ starts (items re) post.

(** *** Matching *)

Lemma starts_one c p text : starts (One c :: p.1, p.2) text <-> exists t text', text = t :: text' /\ fits c t /\ starts p text'.
Proof.
  split.
  - intros (w & post & -> & (t & w' & -> & Ht & Hw) & He). exists t, (w' ++ post). split_and!; [done..|]. by exists w', post.
  - intros (t & text' & -> & Ht & w & post & -> & Hw & He). exists (t :: w), post. split_and!; [done| |done].
    by exists t, w.
Qed.

Lemma starts_many c p text : starts (Many c :: p.1, p.2) text <->
  starts p text \/ exists t text', text = t :: text' /\ fits c t /\ starts (Many c :: p.1, p.2) text'.
Proof.
  split.
  - intros (w & post & -> & (u & v & -> & Hu & Hv) & He). destruct Hu as [|t u Ht Hu].
    + left. by exists v, post.
    + right. exists t, (u ++ v ++ post). split_and!; [by rewrite <-app_assoc|done|].
      exists (u ++ v), post. split_and!; [by rewrite app_assoc| |done]. by exists u, v.
  - intros [(w & post & -> & Hw & He)|(t & text' & -> & Ht & w & post & -> & (u & v & -> & Hu & Hv) & He)].
    + exists w, post. split_and!; [done| |done]. by exists [], w.
    + exists (t :: u ++ v), post. split_and!; [done| |done]. exists (t :: u), v. split_and!; [done|by constructor|done].
Qed.

Lemma matchstar_spec here c p text : Forall (fun x => x <> 0) text ->
  (forall t, Forall (fun x => x <> 0) t -> here t = true <-> starts p t) ->
  matchstar here c text = true <-> starts (Many c :: p.1, p.2) text.
Proof.
  intros Hnz Hh. induction Hnz as [|t text Ht Hnz IH]; cbn [matchstar]; rewrite orb_true_iff, starts_many, Hh by auto.
  - split; [intros [?|?]; [by left|done]|]. intros [?|(? & ? & ? & _)]; [by left|done].
  - rewrite !andb_true_iff, IH, negb_true_iff, Z.eqb_neq, orb_true_iff, !Z.eqb_eq. split.
    + intros [?|[[_ Hc] ?]]; [by left|]. right. exists t, text. split_and!; [done|unfold fits; naive_solver|done].
    + intros [?|(t' & text' & [= <- <-] & Hc & ?)]; [by left|]. right. unfold fits in Hc. naive_solver.
Qed.

Lemma starts_end text : starts ([], true) text <-> text = [].
Proof. split; [by intros (w & post & -> & Hw & He); cbn in *; rewrite Hw, He|intros ->; by exists [], []]. Qed.

(** By induction on a bound of the pattern's length, since * takes two
    characters. *)
Lemma matchhere_spec n : forall re text, (length re <= n)%nat -> Forall (fun x => x <> 0) re ->
  Forall (fun x => x <> 0) text -> matchhere re text = true <-> starts (items re) text.
Proof.
  induction n as [|n IH]; intros re text Hn Hre Ht.
  - destruct re; [|cbn in Hn; lia]. split; [|done]. intros _. by exists [], text.
  - destruct Hre as [|r0 re Hr0 Hre]; [split; [|done]; intros _; by exists [], text|]. cbn [length] in Hn.
    assert (forall e, (e = true <-> re = []) ->
      (if (r0 =? 36) && (hd 0 re =? 0) then hd 0 text =? 0
       else if negb (hd 0 text =? 0) && ((r0 =? 46) || (r0 =? hd 0 text)) then matchhere re (tl text) else false) = true <->
      starts (if (r0 =? 36) && e then ([], true) else let '(l, e) := items re in (One r0 :: l, e)) text) as Hsingle.
    { intros e He. assert ((hd 0 re =? 0) = e) as ->.
      { destruct Hre as [|r1 re Hr1 _]; cbn.
        - symmetry. by apply He.
        - rewrite (proj2 (Z.eqb_neq r1 0) Hr1). destruct e; [discriminate (proj1 He eq_refl)|done]. }
      destruct ((r0 =? 36) && e) eqn:Ed.
      - rewrite starts_end. destruct Ht as [|t text Ht0 Ht]; cbn; [done|].
        rewrite (proj2 (Z.eqb_neq t 0) Ht0). done.
      - pose proof (starts_one r0 (items re) text) as Hone. destruct (items re) as [l e'] eqn:Ei. cbn [fst snd] in Hone.
        rewrite Hone. destruct Ht as [|t text Ht0 Ht]; cbn [hd tl].
        + split; [done|]. by intros (? & ? & ? & _).
        + rewrite (proj2 (Z.eqb_neq t 0) Ht0). cbn [negb andb]. pose proof (IH re text ltac:(lia) Hre Ht) as Hr.
          rewrite Ei in Hr. destruct (Z.eqb_spec r0 46), (Z.eqb_spec r0 t); cbn [orb]; unfold fits;
            try rewrite Hr; split; naive_solver. }
    destruct re as [|r1 re2]; cbn [matchhere items]; rewrite (proj2 (Z.eqb_neq r0 0) Hr0).
    + apply (Hsingle true). done.
    + destruct (r1 =? 42) eqn:E1; [|by apply (Hsingle false)]. cbn [length] in Hn. apply Forall_cons in Hre as [_ Hre].
      pose proof (matchstar_spec (matchhere re2) r0 (items re2) text Ht (fun t Ht' => IH re2 t ltac:(lia) Hre Ht')) as Hs.
      destruct (items re2). exact Hs.
Qed.

(** The matcher stops at the NUL of its arguments. *)
Lemma matchstar_cstr here c text : (forall t, here t = here (cstr t)) -> matchstar here c text = matchstar here c (cstr text).
Proof.
  intros Hh. induction text as [|t text IH]; [done|]. cbn [matchstar]. rewrite Hh. cbn [cstr].
  destruct (t =? 0) eqn:E; cbn [negb andb matchstar]; [by rewrite orb_false_r|]. by rewrite E, IH.
Qed.

Lemma hd_cstr s : hd 0 (cstr s) = hd 0 s.
Proof. destruct s as [|c s]; cbn; [done|]. by destruct (Z.eqb_spec c 0) as [->|]. Qed.
Lemma tl_cstr s : hd 0 s <> 0 -> tl (cstr s) = cstr (tl s).
Proof. intros Hs. by rewrite (cstr_hd_tl _ Hs). Qed.

Lemma matchstar_ext here here' c text : (forall t, here t = here' t) -> matchstar here c text = matchstar here' c text.
Proof. intros Hh. induction text as [|t text IH]; cbn [matchstar]; by rewrite ?IH, Hh. Qed.
Lemma cstr_idem s : cstr (cstr s) = cstr s.
Proof. apply cstr_id, cstr_nz. Qed.
Lemma length_cstr s : (length (cstr s) <= length s)%nat.
Proof. induction s as [|c s IH]; cbn; [done|]. destruct (c =? 0); cbn; lia. Qed.

(** The case of a character without a star. *)
Definition single (r0 : Z) (re text : list Z) : bool :=
  if (r0 =? 36) && (hd 0 re =? 0) then hd 0 text =? 0
  else if negb (hd 0 text =? 0) && ((r0 =? 46) || (r0 =? hd 0 text)) then matchhere re (tl text) else false.

Lemma matchhere_cons r0 re text : matchhere (r0 :: re) text =
  if r0 =? 0 then true
  else match re with
       | r1 :: re2 => if r1 =? 42 then matchstar (matchhere re2) r0 text else single r0 re text
       | [] => single r0 re text
       end.
Proof. by destruct re. Qed.

Lemma matchhere_cstr n : forall re text, (length re <= n)%nat -> matchhere re text = matchhere (cstr re) (cstr text).
Proof.
  induction n as [|n IH]; intros re text Hn.
  - destruct re; [done|cbn in Hn; lia].
  - destruct re as [|r0 re]; [done|]. cbn [length] in Hn. rewrite matchhere_cons. cbn [cstr].
    destruct (r0 =? 0) eqn:E0; [done|]. rewrite matchhere_cons, E0.
    assert (single r0 re text = single r0 (cstr re) (cstr text)) as Hs.
    { unfold single. rewrite !hd_cstr. destruct (Z.eqb_spec (hd 0 text) 0) as [Eh|Eh]; [done|].
      by rewrite tl_cstr, <-IH by (done || lia). }
    destruct re as [|r1 re2]; [exact Hs|]. cbn [cstr] in *.
    destruct (Z.eqb_spec r1 0) as [->|_]; [exact Hs|]. destruct (r1 =? 42); [|exact Hs]. cbn [length] in Hn.
    pose proof (length_cstr re2) as Hl.
    rewrite (matchstar_ext _ (fun t => matchhere (cstr re2) (cstr t))) by (intros t; apply IH; lia).
    rewrite matchstar_cstr by (intros t; by rewrite cstr_idem).
    apply matchstar_ext. intros t. rewrite (IH (cstr re2) t) by lia. by rewrite cstr_idem.
Qed.

Lemma match_any_spec re text : Forall (fun x => x <> 0) re -> Forall (fun x => x <> 0) text ->
  match_any re text = true <-> exists pre post, text = pre ++ post /\ starts (items re) post.
Proof.
  intros Hre Ht. induction Ht as [|t text Ht0 Ht IH]; cbn [match_any]; rewrite orb_true_iff, (matchhere_spec _ _ _ (le_n _)) by auto.
  - split; [intros [?|?]; [by exists [], []|done]|]. intros (pre & post & E & Hs). left.
    by apply eq_sym, app_nil in E as [-> ->].
  - rewrite andb_true_iff, IH, (proj2 (Z.eqb_neq t 0) Ht0). cbn [negb]. split.
    + intros [?|[_ (pre & post & -> & ?)]]; [by exists [], (t :: text)|by exists (t :: pre), post].
    + intros (pre & post & E & Hs). destruct pre as [|t' pre]; cbn in E.
      * left. by rewrite E.
      * injection E as <- ->. right. split; [done|]. by exists pre, post.
Qed.

Lemma match_any_cstr re text : match_any re text = match_any (cstr re) (cstr text).
Proof.
  induction text as [|t text IH]; cbn [match_any]; rewrite (matchhere_cstr _ re _ (le_n _)); cbn [cstr match_any]; [done|].
  destruct (t =? 0) eqn:E; cbn [negb andb match_any]; [by rewrite orb_false_r|]. by rewrite E, IH.
Qed.

Lemma match_cstr re text : match_ re text = match_ re (cstr text).
Proof.
  unfold match_. rewrite !(matchhere_cstr _ (tl re) _ (le_n _)), !(match_any_cstr re). by rewrite !cstr_idem.
Qed.

(** C37: match decides whether a pattern occurs in a line.  For every pattern
    and text, match returns 1 exactly when some part of the text belongs to the
    set of strings that the pattern denotes, where [.] stands for any character,
    [c*] for any number of characters that c stands for, [^] ties the part to
    the start of the text and a final [$] to its end. *)
Theorem match_finds_pattern re text : match_ re text = true <-> occurs (cstr re) (cstr text).
Proof.
  unfold match_, occurs. pose proof (cstr_nz re) as Hre. pose proof (cstr_nz text) as Ht. rewrite hd_cstr.
  destruct (Z.eqb_spec (hd 0 re) 94) as [E|E].
  - rewrite decide_True, tl_cstr by congruence. rewrite (matchhere_cstr _ _ _ (le_n _)).
    apply (matchhere_spec _ _ _ (le_n _)); [apply cstr_nz|done].
  - rewrite decide_False by done. rewrite match_any_cstr. by apply match_any_spec.
Qed.

(** *** The loop over the file *)

Section Grep.
  Context {U : Type} `{Unix U}.

Definition BUFSIZE : Z := 1024.

(** The inner loop over the lines in buf, from [p] to the NUL: the line is cut
    off at its newline, matched, and written with the newline put back. *)
Definition grep_line (pattern p : list Z) : M U (list Z + list Z) :=
  match User.strchr p 10 with
  | None => ret (inr p)
  | Some q =>
      let p0 := <[q := 0]> p in
      (if match_ pattern p0 then write 1 (take (S q) (<[q := 10]> p0)) ;;; ret tt else ret tt) ;;;
      ret (inl (drop (S q) p0))
  end.

(** One turn of the outer loop; [buf] is what is left in the buffer. *)
Definition grep_body (pattern : list Z) (fd : Z) (buf : list Z) : M U (list Z + unit) :=
  '(n, l) <- read fd (BUFSIZE - zlen buf - 1) ;;
  if negb (n >? 0) then ret (inr tt)
  else
    let m := zlen buf + n in
    let text := buf ++ l ++ [0] in
    p <- loop (S (length text)) (grep_line pattern) text ;;
    let m := if m >? 0 then m - (zlen text - zlen p) else m in
    ret (inl (take (Z.to_nat m) p)).

Definition grep (fuel : nat) (pattern : list Z) (fd : Z) : M U unit := loop fuel (grep_body pattern fd) [].

End Grep.

(** *** Lines *)

(** The complete lines of a text, without their newlines, and what follows the
    last newline. *)
Fixpoint split_lines (s : list Z) : list (list Z) * list Z :=
  match s with
  | [] => ([], [])
  | c :: s' =>
      let '(ls, r) := split_lines s' in
      if c =? 10 then ([] :: ls, r)
      else match ls with [] => ([], c :: r) | l :: ls' => ((c :: l) :: ls', r) end
  end.

(** What grep should print. *)
Definition selected (pattern : list Z) (ls : list (list Z)) : list Z :=
  concat ((fun l => l ++ [10]) <$> filter (fun l => match_ pattern l = true) ls).

Lemma split_lines_none s : Forall (fun c => c <> 10) s -> split_lines s = ([], s).
Proof. induction 1 as [|c s Hc _ IH]; cbn; [done|]. by rewrite IH, (proj2 (Z.eqb_neq c 10) Hc). Qed.

Lemma split_lines_line l s : Forall (fun c => c <> 10) l ->
  split_lines (l ++ 10 :: s) = (l :: (split_lines s).1, (split_lines s).2).
Proof.
  induction 1 as [|c l Hc _ IH]; cbn.
  - by destruct (split_lines s).
  - by rewrite IH, (proj2 (Z.eqb_neq c 10) Hc).
Qed.

Lemma split_lines_app p s : split_lines (p ++ s) =
  ((split_lines p).1 ++ (split_lines ((split_lines p).2 ++ s)).1, (split_lines ((split_lines p).2 ++ s)).2).
Proof.
  induction p as [|c p IH]; cbn [app split_lines fst snd]; [by destruct (split_lines s)|]. rewrite IH.
  destruct (split_lines p) as [ls r] eqn:E. cbn [fst snd]. destruct (Z.eqb_spec c 10) as [->|Hc]; cbn [fst snd].
  - done.
  - destruct ls as [|l ls]; cbn [fst snd app split_lines]; [|done].
    destruct (split_lines (r ++ s)) as [ls' r']. cbn [fst snd]. rewrite (proj2 (Z.eqb_neq c 10) Hc). by destruct ls'.
Qed.

Lemma split_lines_rest s : Forall (fun c => c <> 10) (split_lines s).2.
Proof.
  induction s as [|c s IH]; cbn; [done|]. destruct (split_lines s) as [ls r]. cbn in *.
  destruct (Z.eqb_spec c 10); [done|]. destruct ls; [by constructor|done].
Qed.

Lemma split_lines_length s : (length (split_lines s).2 <= length s)%nat.
Proof.
  induction s as [|c s IH]; cbn; [done|]. destruct (split_lines s) as [ls r]. cbn in *.
  destruct (c =? 10); [cbn; lia|]. destruct ls; cbn; lia.
Qed.

Lemma split_lines_suffix s : ((split_lines s).1 = [] -> (split_lines s).2 = s) /\ exists d, s = d ++ (split_lines s).2.
Proof.
  induction s as [|c s [IH [d Ed]]]; cbn; [by split; [|exists []]|]. destruct (split_lines s) as [ls r]. cbn in *.
  destruct (c =? 10); [split; [done|]; exists (c :: d); cbn; by rewrite <-Ed|]. destruct ls as [|l ls]; cbn.
  - rewrite IH by done. split; [done|by exists []].
  - split; [done|]. exists (c :: d). cbn. by rewrite <-Ed.
Qed.

(** The lines of [p ++ s] that are longer than [n], if [p] is already. *)
Lemma split_lines_long p s : Forall (fun c => c <> 10) p ->
  (split_lines (p ++ s)).1 = [] \/ exists l ls, (split_lines (p ++ s)).1 = l :: ls /\ (length p <= length l)%nat.
Proof.
  induction 1 as [|c p Hc _ IH]; cbn.
  - destruct (split_lines s) as [[|l ls] r]; [by left|]. right. exists l, ls. split; [done|]. cbn. lia.
  - rewrite (proj2 (Z.eqb_neq c 10) Hc). destruct (split_lines (p ++ s)) as [[|l ls] r]; [by left|]. right.
    destruct IH as [|(l' & ls' & [= <- <-] & Hl)]; [done|]. exists (c :: l), ls. split; [done|]. cbn. lia.
Qed.

Lemma selected_app pattern l1 l2 : selected pattern (l1 ++ l2) = selected pattern l1 ++ selected pattern l2.
Proof. unfold selected. by rewrite filter_app, fmap_app, concat_app. Qed.

(** *** What grep prints *)

Section Prints.
  Context {U : Type} `{HU : Unix U} (fd : Z) (inp out : U -> list Z) `{!StreamOk U fd inp out}.

Lemma grep_line_run pattern l r u : Forall (fun c => c <> 0 /\ c <> 10) l ->
  exists u', grep_line pattern (l ++ 10 :: r) u = Ok (inl r, u') /\ inp u' = inp u /\ out u' = out u ++ selected pattern [l].
Proof.
  intros Hl. unfold grep_line. rewrite strchr_app by done. cbv zeta.
  assert (forall x y, <[length l := x]> (l ++ y :: r) = l ++ x :: r) as Hins.
  { intros x y. by rewrite insert_app_r_alt, Nat.sub_diag by lia. }
  rewrite !Hins. replace (S (length l)) with (length l + 1)%nat by lia. rewrite take_app_add, drop_app_add. cbn [take drop].
  assert (Forall (fun c => c <> 0) l) as Hnz by (eapply Forall_impl; [exact Hl|naive_solver]).
  rewrite match_cstr, cstr_app_nz by done. cbn [cstr Z.eqb]. rewrite app_nil_r.
  unfold selected. rewrite filter_cons, filter_nil. destruct (match_ pattern l).
  - destruct (write_stream (fd:=fd) (l ++ [10]) u) as (u' & E & Hi & Ho). exists u'.
    rewrite (bind_ok _ _ _ tt u') by (by rewrite (bind_ok _ _ _ _ _ E)). rewrite decide_True by done. cbn.
    by rewrite app_nil_r.
  - exists u. rewrite decide_False by done. cbn. by rewrite app_nil_r.
Qed.

Lemma grep_line_end pattern p u : Forall (fun c => c <> 10) p -> Forall (fun c => c <> 0) p ->
  grep_line pattern (p ++ [0]) u = Ok (inr (p ++ [0]), u).
Proof.
  intros Hp Hz. unfold grep_line. rewrite strchr_none; [done|]. rewrite cstr_app_nz by done. cbn. by rewrite app_nil_r.
Qed.

Lemma grep_lines_run pattern n : forall p u fuel, (length p <= n)%nat -> (length p < fuel)%nat -> Forall (fun c => c <> 0) p ->
  exists u', loop fuel (grep_line pattern) (p ++ [0]) u = Ok ((split_lines p).2 ++ [0], u') /\
    inp u' = inp u /\ out u' = out u ++ selected pattern (split_lines p).1.
Proof.
  induction n as [|n IH]; intros p u fuel Hn Hf Hp; (destruct fuel as [|fuel]; [lia|]); cbn [loop].
  - destruct p; [|cbn in Hn; lia]. exists u. rewrite (bind_ok _ _ _ _ _ (grep_line_end pattern [] u ltac:(done) ltac:(done))).
    cbn. by rewrite app_nil_r.
  - destruct (decide (10 ∈ p)) as [(l & r & -> & Hl)%list_elem_of_split_l|Hno].
    + assert (Forall (fun c => c <> 10) l) as Hl' by (apply Forall_forall; intros x Hx ->; done).
      apply Forall_app in Hp as [Hz [_ Hr]%Forall_cons]. rewrite length_app in Hn, Hf. cbn in Hn, Hf.
      destruct (grep_line_run pattern l (r ++ [0]) u) as (u1 & E1 & Hi1 & Ho1).
      { apply Forall_and. by split. }
      rewrite <-app_assoc. rewrite (bind_ok _ _ _ _ _ E1).
      destruct (IH r u1 fuel ltac:(lia) ltac:(lia) Hr) as (u2 & E2 & Hi2 & Ho2).
      exists u2. rewrite E2, split_lines_line by done. cbn [fst snd]. split_and!; [done|congruence|].
      rewrite Ho2, Ho1. change (l :: (split_lines r).1) with ([l] ++ (split_lines r).1).
      by rewrite selected_app, app_assoc.
    + assert (Forall (fun c => c <> 10) p) as Hp' by (apply Forall_forall; intros x Hx ->; done).
      exists u. rewrite (bind_ok _ _ _ _ _ (grep_line_end pattern p u Hp' Hp)), split_lines_none by done.
      cbn. by rewrite app_nil_r.
Qed.

(** The loop's invariant: the buffer holds the start of a line, and what was
    printed is what the lines read so far ask for. *)
Record reading (pattern goal buf : list Z) (u : U) : Prop := Reading {
  rg_buf : Forall (fun c => c <> 10) buf;
  rg_text : Forall (fun c => c <> 0) (buf ++ inp u);
  rg_len : zlen buf <= 1023;
  rg_out : out u ++ selected pattern (split_lines (buf ++ inp u)).1 = goal;
  rg_short : Forall (fun l => zlen l <= 1022) (split_lines (buf ++ inp u)).1
}.

Lemma grep_body_run pattern goal buf u : reading pattern goal buf u ->
  exists r u', grep_body pattern fd buf u = Ok (r, u') /\
    match r with inl buf' => reading pattern goal buf' u' /\ (length (inp u') < length (inp u))%nat | inr _ => out u' = goal end.
Proof.
  intros [Hb Ht Hl Ho Hs]. unfold grep_body, BUFSIZE.
  destruct (read_stream (fd:=fd) (1024 - zlen buf - 1) u ltac:(lia)) as (l & u1 & E & Ho1 & Hi & Hn & He).
  rewrite (bind_ok _ _ _ _ _ E). destruct l as [|c l0].
  - exists (inr tt), u1. split; [done|]. rewrite Ho1, <-Ho.
    assert ((split_lines (buf ++ inp u)).1 = []) as ->; [|by rewrite app_nil_r].
    destruct (He eq_refl) as [Hfull|Hend].
    + destruct (split_lines_long buf (inp u) Hb) as [|(l & ls & El & Hlen)]; [done|]. exfalso.
      rewrite El in Hs. apply Forall_cons in Hs as [Hs _]. unfold zlen in *. lia.
    + by rewrite Hend, app_nil_r, split_lines_none.
  - remember (c :: l0) as l eqn:El. assert (0 < zlen l) as Hpos by (subst l; unfold zlen; cbn; lia). clear El.
    rewrite (proj2 (Z.gtb_lt (zlen l) 0)) by lia. cbn [negb]. cbv zeta.
    rewrite Hi, app_assoc in Ht, Ho, Hs. apply Forall_app in Ht as [Ht Hrest].
    rewrite (app_assoc buf l). destruct (grep_lines_run pattern _ (buf ++ l) u1 (S (length ((buf ++ l) ++ [0]))) (le_n _))
      as (u2 & E2 & Hi2 & Ho2); [rewrite (length_app (buf ++ l)); lia|done|].
    rewrite (bind_ok _ _ _ _ _ E2). pose proof (split_lines_length (buf ++ l)) as Hlen. pose proof (split_lines_rest (buf ++ l)) as Hr.
    rewrite split_lines_app in Ho, Hs. cbn [fst] in Ho, Hs. apply Forall_app in Hs as [_ Hs].
    assert (exists d, buf ++ l = d ++ (split_lines (buf ++ l)).2) as [d Ed] by apply (split_lines_suffix (buf ++ l)).
    destruct (split_lines (buf ++ l)) as [ls r]. cbn [fst snd] in *.
    rewrite (proj2 (Z.gtb_lt (zlen buf + zlen l) 0)) by (unfold zlen in *; lia).
    replace (zlen buf + zlen l - (zlen ((buf ++ l) ++ [0]) - zlen (r ++ [0]))) with (zlen r)
      by (unfold zlen; rewrite !length_app; lia).
    replace (Z.to_nat (zlen r)) with (length r) by (unfold zlen; lia). rewrite take_app_length.
    exists (inl r), u2. split; [done|]. rewrite Hi2. split.
    + constructor; [done| | | |]; rewrite ?Hi2.
      * apply Forall_app. split; [|done]. rewrite Ed in Ht. by apply Forall_app in Ht as [_ ?].
      * unfold zlen in *. rewrite length_app in Hlen. lia.
      * rewrite <-Ho, Ho2, Ho1, selected_app. by rewrite app_assoc.
      * done.
    + rewrite Hi, length_app. unfold zlen in *. lia.
Qed.


End Prints.

