(* ===== verification/Tools.v ===== *)
(** Tools: user/ls.c, with stat of user/ulib.c, the main of user/grep.c, and the
    programs that hand their arguments to one system call: rm, mkdir, ln, kill,
    mount and umount.  Arguments are what follows argv[0]; a program gives its
    exit status. *)

From S2P Require Import Prelude CString Locks Printf Ulib Uprintf Filters Grep.

Record stat : Type := Stat { st_dev : Z; st_ino : Z; st_type : Z; st_nlink : Z; st_size : Z }.

Definition T_DIR : Z := 1.
Definition T_FILE : Z := 2.
Definition T_DEVICE : Z := 3.
Definition VDIRSIZ : nat := 256.

(** The calls on the file system and on processes that these programs make. *)
Class UnixFs (U : Type) `{Unix U} : Type := {
  fstat : Z -> M U (Z * stat);
  unlink : list Z -> M U Z;
  mkdir : list Z -> M U Z;
  link : list Z -> list Z -> M U Z;
  kill : Z -> M U Z;
  mount : list Z -> Z -> list Z -> M U Z;
  umount : list Z -> M U Z
}.

Section Programs.
  Context {U : Type} `{UnixFs U}.

(** stat of ulib.c; [st0] is what the caller's structure holds. *)
Definition stat_path (n : list Z) (st0 : stat) : M U (Z * stat) :=
  fd <- open n 0 ;;
  if fd <? 0 then ret (-1, st0)
  else
    '(r, st) <- fstat fd ;;
    close fd ;;;
    ret (r, if r <? 0 then st0 else st).

(** *** ls *)

(** The scan for a slash from index [p - 1] on, and the index behind it. *)
Fixpoint fmt_scan (path : list Z) (p : nat) : nat :=
  match p with
  | O => O
  | S p' => if default 0 (path !! p') =? 47 then S p' else fmt_scan path p'
  end.
Definition fmtname (path : list Z) : list Z := drop (fmt_scan path (S (Z.to_nat (User.strlen path)))) path.

(** strcpy to index [p] of an array. *)
Definition strcpy_at (buf : list Z) (p : nat) (t : list Z) : M U (list Z) :=
  if (p + length (cstr t) + 1 <=? length buf)%nat then ret (take p buf ++ User.strcpy (drop p buf) t) else fail FBounds.

(** printf("%s %d %d %d\n", fmtname(path), st.type, st.ino, (int) st.size) *)
Definition print_entry (path : list Z) (st : stat) : M U unit :=
  Uprintf.printf (text "%s %d %d %d" ++ [10]) [VStr (Some (fmtname path)); VNum (u64 (st_type st)); VNum (u64 (st_ino st)); VNum (u64 (s32 (st_size st)))].

(** One turn of the loop over the directory.  A name that fills its array is
    read past the array's end. *)
Definition ls_body (fd : Z) (p : nat) (s : list Z * stat) : M U ((list Z * stat) + unit) :=
  let '(buf, st) := s in
  '(n, de) <- read fd 258 ;;
  if negb (n =? 258) then ret (inr tt)
  else
    let inum := le_dec (take 2 de) in
    let name := take VDIRSIZ (drop 2 de) in
    if inum =? 0 then ret (inl (buf, st))
    else if negb (existsb (Z.eqb 0) name) then fail FBounds
    else
      buf <- strcpy_at buf p name ;;
      '(r, st) <- stat_path buf st ;;
      if r <? 0 then
        Uprintf.printf (text "ls: cannot stat %s" ++ [10]) [VStr (Some buf)] ;;;
        ret (inl (buf, st))
      else
        print_entry buf st ;;;
        ret (inl (buf, st)).

(** [buf0] is the array of 1024 characters. *)
Definition ls (fuel : nat) (buf0 path : list Z) : M U unit :=
  fd <- open path 0 ;;
  if fd <? 0 then Uprintf.fprintf 2 (text "ls: cannot open %s" ++ [10]) [VStr (Some path)]
  else
    '(r, st) <- fstat fd ;;
    if r <? 0 then
      Uprintf.fprintf 2 (text "ls: cannot stat %s" ++ [10]) [VStr (Some path)] ;;;
      close fd ;;; ret tt
    else
      (if (st_type st =? T_DEVICE) || (st_type st =? T_FILE) then print_entry path st
       else if st_type st =? T_DIR then
         if User.strlen path + 1 + Z.of_nat VDIRSIZ + 1 >? 1024 then Uprintf.printf (text "ls: path too long" ++ [10]) []
         else
           buf <- strcpy_at buf0 0 path ;;
           let p := Z.to_nat (User.strlen buf) in
           loop fuel (ls_body fd (S p)) (<[p := 47]> buf, st)
       else ret tt) ;;;
      close fd ;;; ret tt.

Definition ls_main (fuel : nat) (buf0 : list Z) (args : list (list Z)) : M U Z :=
  match args with
  | [] => ls fuel buf0 [46] ;;; ret 0
  | _ => for_each args (ls fuel buf0) ;;; ret 0
  end.

(** *** grep's main *)

Fixpoint grep_files (fuel : nat) (pattern : list Z) (args : list (list Z)) : M U Z :=
  match args with
  | [] => ret 0
  | a :: args' =>
      fd <- open a 0 ;;
      if fd <? 0 then Uprintf.printf (text "grep: cannot open %s" ++ [10]) [VStr (Some a)] ;;; ret 1
      else
        grep fuel pattern fd ;;;
        close fd ;;;
        grep_files fuel pattern args'
  end.

Definition grep_main (fuel : nat) (args : list (list Z)) : M U Z :=
  match args with
  | [] => Uprintf.fprintf 2 (text "usage: grep pattern [file ...]" ++ [10]) [] ;;; ret 1
  | [pattern] => grep fuel pattern 0 ;;; ret 0
  | pattern :: files => grep_files fuel pattern files
  end.

(** *** rm, mkdir, ln, kill, mount, umount *)

Fixpoint rm_files (args : list (list Z)) : M U Z :=
  match args with
  | [] => ret 0
  | a :: args' =>
      r <- unlink a ;;
      if r <? 0 then Uprintf.fprintf 2 (text "rm: %s failed to delete" ++ [10]) [VStr (Some a)] ;;; ret 0 else rm_files args'
  end.
Definition rm_main (args : list (list Z)) : M U Z :=
  match args with [] => Uprintf.fprintf 2 (text "Usage: rm files..." ++ [10]) [] ;;; ret 1 | _ => rm_files args end.

Fixpoint mkdir_files (args : list (list Z)) : M U Z :=
  match args with
  | [] => ret 0
  | a :: args' =>
      r <- mkdir a ;;
      if r <? 0 then Uprintf.fprintf 2 (text "mkdir: %s failed to create" ++ [10]) [VStr (Some a)] ;;; ret 0 else mkdir_files args'
  end.
Definition mkdir_main (args : list (list Z)) : M U Z :=
  match args with [] => Uprintf.fprintf 2 (text "Usage: mkdir files..." ++ [10]) [] ;;; ret 1 | _ => mkdir_files args end.

Definition ln_main (args : list (list Z)) : M U Z :=
  match args with
  | [old; new] =>
      r <- link old new ;;
      (if r <? 0 then Uprintf.fprintf 2 (text "link %s %s: failed" ++ [10]) [VStr (Some old); VStr (Some new)] else ret tt) ;;;
      ret 0
  | _ => Uprintf.fprintf 2 (text "Usage: ln old new" ++ [10]) [] ;;; ret 1
  end.

Definition kill_main (args : list (list Z)) : M U Z :=
  match args with
  | [] => Uprintf.fprintf 2 (text "usage: kill pid..." ++ [10]) [] ;;; ret 1
  | _ => for_each args (fun a => kill (User.atoi a) ;;; ret tt) ;;; ret 0
  end.

Definition mount_main (args : list (list Z)) : M U Z :=
  match args with
  | [path; dev; fstype] =>
      let dev := User.atoi dev in
      r <- mount path dev fstype ;;
      if r <? 0 then Uprintf.fprintf 2 (text "mount: failed" ++ [10]) [] ;;; ret 1 else ret 0
  | _ => Uprintf.fprintf 2 (text "Usage: mount path dev fstype" ++ [10]) [] ;;; ret 1
  end.

Definition umount_main (args : list (list Z)) : M U Z :=
  match args with
  | [path] =>
      r <- umount path ;;
      if r <? 0 then Uprintf.fprintf 2 (text "umount: failed" ++ [10]) [] ;;; ret 1 else ret 0
  | _ => Uprintf.fprintf 2 (text "Usage: umount path" ++ [10]) [] ;;; ret 1
  end.

(** *** One call for each argument *)

(** The state after calls of [f] that all succeeded. *)
Fixpoint all_ok (f : list Z -> M U Z) (l : list (list Z)) (u : U) : option U :=
  match l with
  | [] => Some u
  | a :: l' => match f a u with Ok (r, u') => if r <? 0 then None else all_ok f l' u' | Fault _ => None end
  end.

(** rm and mkdir work through their arguments up to the first that fails, report
    that one, and leave the rest alone; the status is 0 all the same. *)
Lemma rm_stops pre a post u u1 u2 r : all_ok unlink pre u = Some u1 -> unlink a u1 = Ok (r, u2) ->
  rm_files pre u = Ok (0, u1) /\
  rm_files (pre ++ a :: post) u =
    if r <? 0 then (Uprintf.fprintf 2 (text "rm: %s failed to delete" ++ [10]) [VStr (Some a)] ;;; ret 0) u2 else rm_files post u2.
Proof.
  intros Hp Ha. revert u Hp. induction pre as [|b pre IH]; intros u Hp; cbn [all_ok app rm_files] in *.
  - injection Hp as ->. rewrite (bind_ok _ _ _ _ _ Ha). split; [done|]. by destruct (r <? 0).
  - destruct (unlink b u) as [[q u']|] eqn:E; [|done]. rewrite !(bind_ok _ _ _ _ _ E). destruct (q <? 0); [done|]. by apply IH.
Qed.

Lemma mkdir_stops pre a post u u1 u2 r : all_ok mkdir pre u = Some u1 -> mkdir a u1 = Ok (r, u2) ->
  mkdir_files pre u = Ok (0, u1) /\
  mkdir_files (pre ++ a :: post) u =
    if r <? 0 then (Uprintf.fprintf 2 (text "mkdir: %s failed to create" ++ [10]) [VStr (Some a)] ;;; ret 0) u2 else mkdir_files post u2.
Proof.
  intros Hp Ha. revert u Hp. induction pre as [|b pre IH]; intros u Hp; cbn [all_ok app mkdir_files] in *.
  - injection Hp as ->. rewrite (bind_ok _ _ _ _ _ Ha). split; [done|]. by destruct (r <? 0).
  - destruct (mkdir b u) as [[q u']|] eqn:E; [|done]. rewrite !(bind_ok _ _ _ _ _ E). destruct (q <? 0); [done|]. by apply IH.
Qed.
End Programs.

(** *** Names *)

Lemma fmt_scan_at path k p : (k <= p)%nat -> (forall i, (k <= i < p)%nat -> default 0 (path !! i) <> 47) -> (k = 0%nat \/ path !! (k - 1)%nat = Some 47) -> fmt_scan path p = k.
Proof.
  intros Hk Hno Hs. induction p as [|p IH]; [cbn; lia|]. cbn [fmt_scan]. destruct (decide (k = S p)) as [->|Hne].
  - destruct Hs as [|Hs]; [lia|]. replace (S p - 1)%nat with p in Hs by lia. by rewrite Hs.
  - rewrite (proj2 (Z.eqb_neq _ _) (Hno p ltac:(lia))). apply IH; [lia|]. intros i Hi. apply Hno. lia.
Qed.

Lemma cstr_app l r : Forall (fun c => c <> 0) l -> cstr (l ++ 0 :: r) = l.
Proof. induction 1 as [|c l Hc _ IH]; [done|]. cbn [app cstr]. rewrite (proj2 (Z.eqb_neq c 0) Hc). by rewrite IH. Qed.

(** The name is what follows the last slash. *)
Lemma fmtname_last dir name r : Forall (fun c => c <> 0) dir -> Forall (fun c => c <> 0 /\ c <> 47) name -> cstr (fmtname (dir ++ 47 :: name ++ 0 :: r)) = name.
Proof.
  intros Hd Hn. assert (Forall (fun c => c <> 0) name) as Hn0 by (eapply Forall_impl; [exact Hn|]; cbn; tauto).
  assert (dir ++ 47 :: name ++ 0 :: r = (dir ++ 47 :: name) ++ 0 :: r) as Ea by (by rewrite <-app_assoc). unfold fmtname. rewrite user_strlen_cstr. rewrite Ea at 2.
  rewrite cstr_app by (apply Forall_app; split; [done|]; by constructor). unfold zlen. rewrite Nat2Z.id, length_app. cbn [length].
  rewrite (fmt_scan_at _ (S (length dir))); [|lia| |].
  - replace (S (length dir)) with (length (dir ++ [47])) by (rewrite length_app; cbn; lia).
    replace (dir ++ 47 :: name ++ 0 :: r) with ((dir ++ [47]) ++ name ++ 0 :: r) by (by rewrite <-app_assoc). rewrite drop_app_length. by apply cstr_app.
  - intros i Hi. replace (dir ++ 47 :: name ++ 0 :: r) with ((dir ++ [47]) ++ name ++ 0 :: r) by (by rewrite <-app_assoc). rewrite lookup_app_r by (rewrite length_app; cbn; lia).
    rewrite length_app. cbn [length]. destruct (decide (i - (length dir + 1) < length name)%nat) as [Hlt|Hge].
    + rewrite lookup_app_l by done. destruct (lookup_lt_is_Some_2 name _ Hlt) as [c Hc]. rewrite Hc. by destruct (Forall_lookup_1 _ _ _ _ Hn Hc).
    + rewrite lookup_app_r by lia. by replace (i - (length dir + 1) - length name)%nat with 0%nat by lia.
  - right. replace (S (length dir) - 1)%nat with (length dir) by lia. by rewrite list_lookup_middle.
Qed.

(** strcpy behind the path's slash. *)
Lemma strcpy_at_run {U} buf dir name (t : list Z) (u : U) : length buf = 1024%nat -> take (S (length dir)) buf = dir ++ [47] -> cstr t = name -> (length dir + length name + 2 <= 1024)%nat ->
  exists r, strcpy_at (U := U) buf (S (length dir)) t u = Ok (dir ++ 47 :: name ++ 0 :: r, u) /\ length (dir ++ 47 :: name ++ 0 :: r) = 1024%nat.
Proof.
  intros Hl Ht En Hlen. unfold strcpy_at. rewrite En, (proj2 (Nat.leb_le _ _)) by lia. unfold User.strcpy. rewrite En, Ht, <-!app_assoc.
  eexists. split; [reflexivity|]. rewrite length_app. cbn [length app]. rewrite length_app. cbn [length]. rewrite !length_drop, length_app. cbn. lia.
Qed.

(** *** Directories *)

(** A weaker property of all elements. *)
Ltac weaken H := eapply Forall_impl; [exact H|]; cbn; tauto.

(** A world in which [fd] is an open directory: its records come one by one,
    [info] says what the other paths name, and asking for it changes nothing. *)
Class DirOk (U : Type) `{UnixFs U} (fd : Z) (info : list Z -> option stat) (inp out : U -> list Z) : Prop := {
  dir_stream :: StreamOk U fd inp out;
  dir_read : forall u, exists u', read fd 258 u = Ok ((zlen (take 258 (inp u)), take 258 (inp u)), u') /\ inp u' = drop 258 (inp u) /\ out u' = out u;
  dir_open : forall p u, exists d u', open p 0 u = Ok (d, u') /\ inp u' = inp u /\ out u' = out u /\
    match info (cstr p) with
    | Some st => 0 <= d /\ exists u2, fstat d u' = Ok ((0, st), u2) /\ inp u2 = inp u /\ out u2 = out u
    | None => d < 0
    end;
  dir_close : forall d u, exists r u', close d u = Ok (r, u') /\ inp u' = inp u /\ out u' = out u
}.

(** A record of a directory, as read gives it. *)
Definition vdirent (e : Z * list Z) : list Z := le_enc 2 e.1 ++ e.2 ++ replicate (VDIRSIZ - length e.2) 0.

Definition name_ok (e : Z * list Z) : Prop := 0 <= e.1 < 2 ^ 16 /\ (length e.2 < VDIRSIZ)%nat /\ Forall (fun c => is_byte c /\ c <> 0 /\ c <> 47) e.2.

(** What ls prints for an entry of [dir]. *)
Definition listed (info : list Z -> option stat) (dir : list Z) (e : Z * list Z) (o : list Z) : Prop :=
  match info (dir ++ 47 :: e.2) with
  | Some st => exists t i s, o = e.2 ++ [32] ++ t ++ [32] ++ i ++ [32] ++ s ++ [10] /\
      number_of 10 t = s32 (st_type st) /\ number_of 10 i = s32 (st_ino st) /\ number_of 10 s = s32 (st_size st)
  | None => o = text "ls: cannot stat " ++ dir ++ 47 :: e.2 ++ [10]
  end.

Lemma vdirent_length e : name_ok e -> length (vdirent e) = 258%nat.
Proof. intros (_ & Hl & _). unfold vdirent. rewrite !length_app, length_le_enc, length_replicate. unfold VDIRSIZ in *. lia. Qed.

Lemma vdirent_fields e : name_ok e -> le_dec (take 2 (vdirent e)) = e.1 /\ take VDIRSIZ (drop 2 (vdirent e)) = e.2 ++ replicate (VDIRSIZ - length e.2) 0.
Proof.
  intros (Hi & Hl & _). unfold vdirent. replace 2%nat with (length (le_enc 2 e.1)) at 1 3 by apply length_le_enc. rewrite take_app_length, drop_app_length, le_dec_enc. split.
  - change (256 ^ Z.of_nat 2) with (2 ^ 16). by apply Z.mod_small.
  - apply take_ge. rewrite length_app, length_replicate. lia.
Qed.

Lemma name_terminated e : name_ok e -> existsb (Z.eqb 0) (e.2 ++ replicate (VDIRSIZ - length e.2) 0) = true /\ cstr (e.2 ++ replicate (VDIRSIZ - length e.2) 0) = e.2.
Proof.
  intros (_ & Hl & Hn). replace (VDIRSIZ - length e.2)%nat with (S (VDIRSIZ - length e.2 - 1)) by lia. cbn [replicate]. split.
  - rewrite existsb_app. cbn [existsb]. by rewrite Z.eqb_refl, orb_true_r.
  - apply cstr_app. weaken Hn.
Qed.

Section Ls.
  Context {U : Type} `{UnixFs U} (fd : Z) (info : list Z -> option stat) (inp out : U -> list Z) {HD : DirOk U fd info inp out}.

Lemma stat_path_run p st0 u : exists r st u', stat_path p st0 u = Ok ((r, st), u') /\ inp u' = inp u /\ out u' = out u /\
  match info (cstr p) with Some x => r = 0 /\ st = x | None => r < 0 end.
Proof.
  destruct (dir_open (fd := fd) p u) as (d & u1 & E1 & Hi1 & Ho1 & Hc). unfold stat_path. rewrite (bind_ok _ _ _ _ _ E1). destruct (info (cstr p)) as [x|].
  - destruct Hc as (Hd & u2 & E2 & Hi2 & Ho2). rewrite (proj2 (Z.ltb_ge _ _) Hd), (bind_ok _ _ _ _ _ E2). destruct (dir_close (fd := fd) (info := info) d u2) as (r & u3 & E3 & Hi3 & Ho3).
    rewrite (bind_ok _ _ _ _ _ E3). exists 0, x, u3. split_and!; [done|congruence|congruence|done|done].
  - rewrite (proj2 (Z.ltb_lt _ _) Hc). exists (-1), st0, u1. split_and!; done || lia.
Qed.

(** The line of an entry. *)
Lemma print_entry_run path st u : Forall is_byte (cstr (fmtname path)) -> exists t i s u', print_entry path st u = Ok (tt, u') /\ inp u' = inp u /\
  out u' = out u ++ cstr (fmtname path) ++ [32] ++ t ++ [32] ++ i ++ [32] ++ s ++ [10] /\
  number_of 10 t = s32 (st_type st) /\ number_of 10 i = s32 (st_ino st) /\ number_of 10 s = s32 (st_size st).
Proof.
  intros Hb. unfold print_entry, Uprintf.printf, Uprintf.vprintf. set (fmt := text "%s %d %d %d" ++ [10]). change (S (length fmt)) with 13%nat. set (nm := fmtname path) in *.
  assert (forall x, s32 (u64 x) = s32 x) as Hx by (intros x; unfold s32, u64; dlia). assert (s32 (s32 (st_size st)) = s32 (st_size st)) as Hs by (unfold s32; dlia).
  destruct (vp_str inp out (fd := fd) fmt 11 0 [VNum (u64 (st_type st)); VNum (u64 (st_ino st)); VNum (u64 (s32 (st_size st)))] u nm) as (u1 & W1 & ->); [done|done|done|].
  destruct (vp_char inp out (fd := fd) fmt 10 2 [VNum (u64 (st_type st)); VNum (u64 (st_ino st)); VNum (u64 (s32 (st_size st)))] u1 32) as (u2 & W2 & ->); [done|done|done|done|].
  destruct (vp_num inp out (fd := fd) fmt 8 3 [VNum (u64 (st_ino st)); VNum (u64 (s32 (st_size st)))] u2 (u64 (st_type st))) as (o1 & u3 & W3 & N1 & ->); [done|done|].
  destruct (vp_char inp out (fd := fd) fmt 7 5 [VNum (u64 (st_ino st)); VNum (u64 (s32 (st_size st)))] u3 32) as (u4 & W4 & ->); [done|done|done|done|].
  destruct (vp_num inp out (fd := fd) fmt 5 6 [VNum (u64 (s32 (st_size st)))] u4 (u64 (st_ino st))) as (o2 & u5 & W5 & N2 & ->); [done|done|].
  destruct (vp_char inp out (fd := fd) fmt 4 8 [VNum (u64 (s32 (st_size st)))] u5 32) as (u6 & W6 & ->); [done|done|done|done|].
  destruct (vp_num inp out (fd := fd) fmt 2 9 [] u6 (u64 (s32 (st_size st)))) as (o3 & u7 & W7 & N3 & ->); [done|done|].
  destruct (vp_char inp out (fd := fd) fmt 1 11 [] u7 10) as (u8 & W8 & ->); [done|done|done|done|]. rewrite vp_end by done.
  assert (wrote inp out u u8 (cstr nm ++ [32] ++ o1 ++ [32] ++ o2 ++ [32] ++ o3 ++ [10])) as [Ho Hi] by (by repeat (eapply wrote_trans; [eassumption|])).
  exists o1, o2, o3, u8. rewrite N1, N2, N3, !Hx, Hs. split_and!; done.
Qed.

(** A piece of the format without conversions. *)
Lemma vp_text fmt ap l : forall i fuel u, (forall k c, l !! k = Some c -> fmt !! (i + k)%nat = Some c) -> Forall (fun c => is_byte c /\ c <> 0 /\ c <> 37) l ->
  exists u', wrote inp out u u' l /\ loop (length l + fuel) (Uprintf.vprintf_body 1 fmt) (i, false, ap) u = loop fuel (Uprintf.vprintf_body 1 fmt) ((i + length l)%nat, false, ap) u'.
Proof.
  induction l as [|c l IH]; intros i fuel u Hl Hc.
  - exists u. rewrite Nat.add_0_r. split; [|done]. split; [by rewrite app_nil_r|done].
  - apply Forall_cons in Hc as [(Hb & Hz & H37) Hc]. pose proof (Hl 0%nat c eq_refl) as Hi. rewrite Nat.add_0_r in Hi.
    destruct (vp_char inp out (fd := fd) fmt (length l + fuel) i ap u c) as (u1 & W1 & E1); [done..|].
    destruct (IH (S i) fuel u1) as (u2 & W2 & E2); [|done|].
    { intros k x Hk. specialize (Hl (S k) x Hk). by replace (S i + k)%nat with (i + S k)%nat by lia. }
    exists u2. split; [by apply (wrote_trans inp out u u1 u2 [c] l)|]. cbn [length]. change (S (length l) + fuel)%nat with (S (length l + fuel)).
    rewrite E1, E2. by replace (S i + length l)%nat with (i + S (length l))%nat by lia.
Qed.

Lemma cannot_stat_run buf u : Forall is_byte (cstr buf) -> exists u', Uprintf.printf (text "ls: cannot stat %s" ++ [10]) [VStr (Some buf)] u = Ok (tt, u') /\
  inp u' = inp u /\ out u' = out u ++ text "ls: cannot stat " ++ cstr buf ++ [10].
Proof.
  intros Hb. unfold Uprintf.printf, Uprintf.vprintf. set (fmt := text "ls: cannot stat %s" ++ [10]). change (S (length fmt)) with (length (text "ls: cannot stat ") + 4)%nat.
  destruct (vp_text fmt [VStr (Some buf)] (text "ls: cannot stat ") 0 4 u) as (u1 & W1 & E1).
  - intros k c Hk. assert (k < 16)%nat as Hlt by (by apply lookup_lt_Some in Hk). change fmt with (text "ls: cannot stat " ++ [37; 115; 10]). by rewrite lookup_app_l.
  - repeat (apply Forall_cons; split; [by vm_compute|]). by apply Forall_nil.
  - rewrite E1. change (0 + length (text "ls: cannot stat "))%nat with 16%nat. destruct (vp_str inp out (fd := fd) fmt 2 16 [] u1 buf) as (u2 & W2 & ->); [done|done|done|].
    destruct (vp_char inp out (fd := fd) fmt 1 18 [] u2 10) as (u3 & W3 & ->); [done|done|done|done|]. rewrite vp_end by done.
    assert (wrote inp out u u3 (text "ls: cannot stat " ++ cstr buf ++ [10])) as [Ho Hi] by (by repeat (eapply wrote_trans; [eassumption|])). exists u3. done.
Qed.

(** The buffer during the loop: the directory's path and a slash, in 1024
    characters. *)
Definition buf_ok (dir buf : list Z) : Prop := length buf = 1024%nat /\ take (S (length dir)) buf = dir ++ [47].

(** One turn of the loop: a record is listed, or skipped when it is unused. *)
Lemma ls_turn dir buf st e rest u : Forall (fun c => is_byte c /\ c <> 0) dir -> (length dir + 258 <= 1024)%nat -> buf_ok dir buf -> name_ok e -> inp u = vdirent e ++ rest ->
  exists o buf' st' u', ls_body fd (S (length dir)) (buf, st) u = Ok (inl (buf', st'), u') /\ buf_ok dir buf' /\ inp u' = rest /\ out u' = out u ++ o /\
    (if e.1 =? 0 then o = [] else listed info dir e o).
Proof.
  intros Hd Hlen [Hl Ht] He Hin. destruct (dir_read (fd := fd) (info := info) u) as (u1 & E1 & Hi1 & Ho1). pose proof (vdirent_length e He) as Hv.
  assert (take 258 (inp u) = vdirent e /\ drop 258 (inp u) = rest) as [Et Ed] by (rewrite Hin, <-Hv; by rewrite take_app_length, drop_app_length).
  rewrite Et in E1. rewrite Ed in Hi1. assert (zlen (vdirent e) = 258) as Hz by (unfold zlen; by rewrite Hv). rewrite Hz in E1.
  unfold ls_body. rewrite (bind_ok _ _ _ _ _ E1), Z.eqb_refl. cbn [negb]. destruct (vdirent_fields e He) as [-> ->]. destruct (e.1 =? 0) eqn:E0.
  - exists [], buf, st, u1. rewrite app_nil_r. split_and!; done.
  - destruct (name_terminated e He) as [-> Ec]. cbn [negb]. destruct He as (_ & Hnl & Hn). unfold VDIRSIZ in Hnl.
    destruct (strcpy_at_run buf dir e.2 _ u1 Hl Ht Ec) as (r & E2 & Hl2); [lia|]. rewrite (bind_ok _ _ _ _ _ E2). set (buf' := dir ++ 47 :: e.2 ++ 0 :: r) in *.
    assert (buf_ok dir buf') as Hb'.
    { split; [done|]. unfold buf'. replace (dir ++ 47 :: e.2 ++ 0 :: r) with ((dir ++ [47]) ++ e.2 ++ 0 :: r) by (by rewrite <-app_assoc).
      replace (S (length dir)) with (length (dir ++ [47])) by (rewrite length_app; cbn; lia). by rewrite take_app_length. }
    assert (cstr buf' = dir ++ 47 :: e.2) as Ecs.
    { unfold buf'. replace (dir ++ 47 :: e.2 ++ 0 :: r) with ((dir ++ 47 :: e.2) ++ 0 :: r) by (by rewrite <-app_assoc). apply cstr_app. apply Forall_app. split; [weaken Hd|].
      constructor; [done|]. weaken Hn. }
    destruct (stat_path_run buf' st u1) as (q & st' & u2 & E3 & Hi2 & Ho2 & Hq). rewrite (bind_ok _ _ _ _ _ E3). rewrite Ecs in Hq. unfold listed. destruct (info (dir ++ 47 :: e.2)) as [x|].
    + destruct Hq as [-> ->]. change (0 <? 0) with false. cbv iota. assert (cstr (fmtname buf') = e.2) as Ef.
      { apply fmtname_last; [weaken Hd|weaken Hn]. }
      destruct (print_entry_run buf' x u2) as (t & i & s & u3 & E4 & Hi3 & Ho3 & N); [rewrite Ef; weaken Hn|].
      rewrite (bind_ok _ _ _ _ _ E4). rewrite Ef in Ho3. eexists _, buf', x, u3. split_and!; [done|done|congruence|by rewrite Ho3, Ho2, Ho1|]. exists t, i, s. split; [reflexivity|done].
    + rewrite (proj2 (Z.ltb_lt _ _) Hq). destruct (cannot_stat_run buf' u2) as (u3 & E4 & Hi3 & Ho3).
      { rewrite Ecs. apply Forall_app. split; [weaken Hd|]. constructor; [done|]. weaken Hn. }
      rewrite (bind_ok _ _ _ _ _ E4). rewrite Ecs in Ho3. eexists _, buf', st', u3. split_and!; [done|done|congruence| |reflexivity]. rewrite Ho3, Ho2, Ho1, <-!app_assoc. done.
Qed.

(** The loop: the entries in use are listed in their order. *)
Lemma ls_loop dir es : forall fuel buf st u, Forall (fun c => is_byte c /\ c <> 0) dir -> (length dir + 258 <= 1024)%nat -> buf_ok dir buf -> Forall name_ok es ->
  inp u = concat (vdirent <$> es) -> (length es < fuel)%nat ->
  exists os u', loop fuel (ls_body fd (S (length dir))) (buf, st) u = Ok (tt, u') /\ inp u' = [] /\ out u' = out u ++ concat os /\
    Forall2 (listed info dir) (filter (fun e => e.1 <> 0) es) os.
Proof.
  induction es as [|e es IH]; intros [|fuel] buf st u Hd Hlen Hb Hes Hin Hf; cbn [length] in Hf; try lia; cbn [loop].
  - cbn in Hin. destruct (dir_read (fd := fd) (info := info) u) as (u1 & E1 & Hi1 & Ho1). rewrite Hin in E1, Hi1. cbn in E1, Hi1.
    exists [], u1. unfold ls_body. rewrite bind_assoc, (bind_ok _ _ _ _ _ E1). cbn [zlen negb Z.eqb length Z.of_nat]. rewrite app_nil_r. split_and!; [done|done|done|constructor].
  - apply Forall_cons in Hes as [He Hes]. cbn [fmap list_fmap concat] in Hin.
    destruct (ls_turn dir buf st e (concat (vdirent <$> es)) u Hd Hlen Hb He Hin) as (o & buf' & st' & u1 & E1 & Hb' & Hi1 & Ho1 & Hcase). rewrite (bind_ok _ _ _ _ _ E1).
    destruct (IH fuel buf' st' u1 Hd Hlen Hb' Hes Hi1 ltac:(lia)) as (os & u2 & E2 & Hi2 & Ho2 & F2). rewrite filter_cons. destruct (Z.eqb_spec e.1 0) as [E0|E0].
    + exists os, u2. rewrite decide_False by (by intros Hn). subst o. rewrite app_nil_r in Ho1. split_and!; [done|done|congruence|done].
    + exists (o :: os), u2. rewrite decide_True by done. split_and!; [done|done| |by constructor]. cbn [concat]. by rewrite Ho2, Ho1, app_assoc.
Qed.
End Ls.


(** *** A small world *)

(** A directory "d" that is open, with the output and the path opened last; in
    it there is a file "a" of 300 bytes, and an entry "b" without a file. *)
Record small : Type := Small { sm_in : list Z; sm_out : list Z; sm_last : list Z }.

Definition small_info (p : list Z) : option stat :=
  if decide (p = [100]) then Some (Stat 1 1 T_DIR 1 774) else if decide (p = [100; 47; 97]) then Some (Stat 1 5 T_FILE 1 300) else None.

#[export] Instance small_Unix : Unix small := {|
  read := fun _ n u => let l := take (Z.to_nat n) (sm_in u) in Ok ((zlen l, l), Small (drop (Z.to_nat n) (sm_in u)) (sm_out u) (sm_last u));
  write := fun fd l u => Ok (zlen l, Small (sm_in u) (if fd =? 1 then sm_out u ++ l else sm_out u) (sm_last u));
  open := fun p _ u => Ok (if small_info (cstr p) then 3 else -1, Small (sm_in u) (sm_out u) (cstr p));
  close := fun _ => ret 0
|}.

#[export] Instance small_UnixFs : UnixFs small := {|
  fstat := fun _ u => Ok (match small_info (sm_last u) with Some st => (0, st) | None => (-1, Stat 0 0 0 0 0) end, u);
  unlink := fun _ => ret (-1); mkdir := fun _ => ret (-1); link := fun _ _ => ret (-1); kill := fun _ => ret (-1);
  mount := fun _ _ _ => ret (-1); umount := fun _ => ret (-1)
|}.

#[export] Instance small_DirOk : DirOk small 3 small_info sm_in sm_out.
Proof.
  split.
  - split.
    + intros n u Hn. cbn. eexists _, _. split; [reflexivity|]. cbn. split; [done|]. split; [by rewrite take_drop|]. unfold zlen. rewrite length_take. split; [lia|].
      intros E. apply (f_equal length) in E. rewrite length_take in E. cbn in E. destruct (sm_in u); [by right|left]. cbn in E. lia.
    + intros l u. by eexists.
  - intros u. by eexists.
  - intros p u. cbn. eexists _, _. split; [reflexivity|]. cbn. split; [done|]. split; [done|]. destruct (small_info (cstr p)) eqn:E; [|done]. split; [done|]. by eexists.
  - intros d u. by eexists _, _.
Qed.

