(* ===== verification/Init.v ===== *)
(** Init: user/init.c.  The first process opens the console, makes the mount
    points, and then keeps a shell running; it also reaps the processes that the
    kernel gives to it when their parents exit. *)

From S2P Require Import Prelude CString Locks Printf Ulib Uprintf Filters Grep Tools.

(** *** The start *)

(** The calls of init's start that the other programs do not make. *)
Class UnixDev (U : Type) `{UnixFs U} : Type := {
  mknod : list Z -> Z -> Z -> M U Z;
  dup : Z -> M U Z
}.

Definition CONSOLE : Z := 1.
Definition O_WRONLY : Z := 1.
Definition O_RDWR : Z := 2.
Definition O_CREATE : Z := 512.

Section Start.
  Context {U : Type} `{UnixDev U}.

Definition setup : M U unit :=
  fd <- open (text "console") O_RDWR ;;
  (if fd <? 0 then
     mknod (text "console") CONSOLE 0 ;;;
     open (text "console") O_RDWR ;;;
     ret tt
   else ret tt) ;;;
  dup 0 ;;;
  dup 0 ;;;
  mkdir (text "/mnt") ;;;
  mkdir (text "/fat") ;;;
  fd <- open (text "/hello.c") (Z.lor O_WRONLY O_CREATE) ;;
  if fd >=? 0 then write fd (text "hello from xv6fs" ++ [10]) ;;; close fd ;;; ret tt else ret tt.

(** [tbl u] are the files behind the descriptors, which are in use from 0 on.
    An open that succeeds takes the next descriptor; the console can be opened
    once its device file is there. *)
Class Descriptors (tbl : U -> list (list Z)) (present : U -> bool) : Prop := {
  fd_open : forall p fl u, exists d u', open p fl u = Ok (d, u') /\ present u' = present u /\
    (d < 0 /\ tbl u' = tbl u \/ d = zlen (tbl u) /\ tbl u' = tbl u ++ [p]) /\ (p = text "console" -> (0 <= d <-> present u = true));
  fd_mknod : forall u, exists r u', mknod (text "console") CONSOLE 0 u = Ok (r, u') /\ tbl u' = tbl u /\ present u' = true;
  fd_dup : forall d u p, 0 <= d -> tbl u !! Z.to_nat d = Some p -> exists r u', dup d u = Ok (r, u') /\ tbl u' = tbl u ++ [p];
  fd_mkdir : forall p u, exists r u', mkdir p u = Ok (r, u') /\ tbl u' = tbl u;
  fd_write : forall d l u, exists r u', write d l u = Ok (r, u') /\ tbl u' = tbl u;
  fd_close : forall u p l, tbl u = l ++ [p] -> exists r u', close (zlen l) u = Ok (r, u') /\ tbl u' = l
}.

Context (tbl : U -> list (list Z)) (present : U -> bool) {HD : Descriptors tbl present}.

(** The console is opened, made first when it is not there. *)
Lemma console_run u : tbl u = [] -> exists u',
  (fd <- open (text "console") O_RDWR ;;
   if fd <? 0 then mknod (text "console") CONSOLE 0 ;;; open (text "console") O_RDWR ;;; ret tt else ret tt) u = Ok (tt, u') /\ tbl u' = [text "console"].
Proof.
  intros Ht. destruct (fd_open (text "console") O_RDWR u) as (d & u1 & E1 & Hp1 & Hc & Hd). rewrite (bind_ok _ _ _ _ _ E1). rewrite Ht in Hc. destruct Hc as [[Hneg T1]|[-> T1]].
  - rewrite (proj2 (Z.ltb_lt _ _) Hneg). destruct (fd_mknod u1) as (r & u2 & E2 & T2 & P2). rewrite (bind_ok _ _ _ _ _ E2).
    destruct (fd_open (text "console") O_RDWR u2) as (d2 & u3 & E3 & _ & Hc3 & Hd3). rewrite (bind_ok _ _ _ _ _ E3). exists u3. split; [done|]. specialize (Hd3 eq_refl).
    rewrite T2, T1 in Hc3. destruct Hc3 as [[Hn _]|[_ ->]]; [|done]. exfalso. apply Hd3 in P2. lia.
  - change (zlen [] <? 0) with false. exists u1. split; [done|exact T1].
Qed.

(** Descriptors 0, 1 and 2 are the console when init starts its shell, and no
    other is left open. *)
Lemma setup_descriptors u : tbl u = [] -> exists u', setup u = Ok (tt, u') /\ tbl u' = [text "console"; text "console"; text "console"].
Proof.
  intros Ht. destruct (console_run u Ht) as (u1 & E1 & T1). unfold setup. rewrite <-bind_assoc, (bind_ok _ _ _ _ _ E1).
  destruct (fd_dup 0 u1 (text "console")) as (r2 & u2 & E2 & T2); [lia|by rewrite T1|]. rewrite (bind_ok _ _ _ _ _ E2). rewrite T1 in T2.
  destruct (fd_dup 0 u2 (text "console")) as (r3 & u3 & E3 & T3); [lia|by rewrite T2|]. rewrite (bind_ok _ _ _ _ _ E3). rewrite T2 in T3.
  destruct (fd_mkdir (text "/mnt") u3) as (r4 & u4 & E4 & T4). rewrite (bind_ok _ _ _ _ _ E4). destruct (fd_mkdir (text "/fat") u4) as (r5 & u5 & E5 & T5). rewrite (bind_ok _ _ _ _ _ E5).
  assert (tbl u5 = [text "console"; text "console"; text "console"]) as T by (by rewrite T5, T4, T3).
  destruct (fd_open (text "/hello.c") (Z.lor O_WRONLY O_CREATE) u5) as (d & u6 & E6 & _ & Hc & _). rewrite (bind_ok _ _ _ _ _ E6). destruct Hc as [[Hn T6]|[-> T6]].
  - replace (d >=? 0) with false by lia. exists u6. split; [done|]. by rewrite T6.
  - rewrite T in T6 |- *. change (zlen [_; _; _] >=? 0) with true. cbv iota. set (n := zlen [text "console"; text "console"; text "console"]) in *.
    destruct (fd_write n (text "hello from xv6fs" ++ [10]) u6) as (r7 & u7 & E7 & T7). rewrite (bind_ok _ _ _ _ _ E7). rewrite <-T7 in T6.
    destruct (fd_close u7 _ _ T6) as (r8 & u8 & E8 & T8). fold n in E8. rewrite (bind_ok _ _ _ _ _ E8). exists u8. done.
Qed.
End Start.

(** *** The loop *)

Module Supervisor.

(** Where init is: before a fork, waiting for the shell [pid], or gone. *)
Inductive ipc : Type := AtFork | AtWait (pid : Z) | Exited.

(** What init does with the result of fork, and with that of wait. *)
Definition after_fork (pid : Z) : ipc := if pid <? 0 then Exited else AtWait pid.
Definition after_wait (pid wpid : Z) : ipc :=
  if wpid =? pid then AtFork
  else if wpid <? 0 then Exited
  else AtWait pid.

(** init's children, with whether they have exited; the pids that fork returned
    to init, the newest first, and whether a fork failed. *)
Record sys : Type := Sys { at_ : ipc; kids : list (Z * bool); forked : list Z; failed : bool }.

Definition fresh (p : Z) (s : sys) : Prop := 0 < p /\ p ∉ (kids s).*1 /\ p ∉ forked s.

(** fork and wait as the kernel does them, a child that exits, and an orphan
    that init is given.  wait returns -1 to a process without children, and
    sleeps while none of them has exited. *)
Inductive step : sys -> sys -> Prop :=
  | step_fork s p : at_ s = AtFork -> fresh p s -> step s (Sys (after_fork p) (kids s ++ [(p, false)]) (p :: forked s) (failed s))
  | step_fork_fails s : at_ s = AtFork -> step s (Sys (after_fork (-1)) (kids s) (forked s) true)
  | step_exit s k1 k2 p : kids s = k1 ++ (p, false) :: k2 -> step s (Sys (at_ s) (k1 ++ (p, true) :: k2) (forked s) (failed s))
  | step_orphan s p b : fresh p s -> step s (Sys (at_ s) (kids s ++ [(p, b)]) (forked s) (failed s))
  | step_reap s pid k1 k2 p : at_ s = AtWait pid -> kids s = k1 ++ (p, true) :: k2 -> step s (Sys (after_wait pid p) (k1 ++ k2) (forked s) (failed s))
  | step_no_child s pid : at_ s = AtWait pid -> kids s = [] -> step s (Sys (after_wait pid (-1)) [] (forked s) (failed s)).

Definition start : sys := Sys AtFork [] [] false.

(** The children that init forked are the shell it waits for. *)
Record inv (s : sys) : Prop := Inv {
  iv_pos : Forall (fun p => 0 < p) ((kids s).*1);
  iv_nodup : NoDup ((kids s).*1);
  iv_wait : match at_ s with
            | AtFork => forall p, p ∈ forked s -> p ∉ (kids s).*1
            | AtWait pid => pid ∈ (kids s).*1 /\ (forall p, p ∈ forked s -> p ∈ (kids s).*1 -> p = pid)
            | Exited => failed s = true
            end
}.

Lemma kids_app (k1 k2 : list (Z * bool)) : (k1 ++ k2).*1 = k1.*1 ++ k2.*1.
Proof. apply fmap_app. Qed.

Lemma add_kid l p : 0 < p -> p ∉ l -> Forall (fun q => 0 < q) l -> NoDup l -> Forall (fun q => 0 < q) (l ++ [p]) /\ NoDup (l ++ [p]).
Proof.
  intros Hp Hn Hf Hd. split; [apply Forall_app; by split; [|constructor]|]. apply NoDup_app. split_and!; [done| |apply NoDup_singleton].
  intros q Hq Hq'. apply list_elem_of_singleton in Hq' as ->. done.
Qed.

Lemma inv_reap s pid k1 k2 p : inv s -> at_ s = AtWait pid -> kids s = k1 ++ (p, true) :: k2 -> inv (Sys (after_wait pid p) (k1 ++ k2) (forked s) (failed s)).
Proof.
  intros [Hp Hd Hw] Ea Ek. rewrite Ea in Hw. destruct Hw as [Hin Hone]. rewrite Ek in *. rewrite kids_app in *. cbn in *. apply Forall_app in Hp as [Hp1 Hp2]. apply Forall_cons in Hp2 as [Hpos Hp2].
  apply NoDup_app in Hd as (Hd1 & Hd12 & Hd2). apply NoDup_cons in Hd2 as [Hp2' Hd2]. assert (p ∉ k1.*1) as Hp1' by (intros Hq; apply (Hd12 p Hq), elem_of_cons; by left).
  constructor; cbn [at_ kids forked failed]; rewrite kids_app.
  - by apply Forall_app.
  - apply NoDup_app. split_and!; [done| |done]. intros q Hq Hq'. apply (Hd12 q Hq), elem_of_cons. by right.
  - unfold after_wait. destruct (Z.eqb_spec p pid) as [->|Hne].
    + intros q Hq Hk. assert (q = pid) as -> by (apply Hone; [done|]; apply elem_of_app in Hk as [?|?]; apply elem_of_app; [by left|right; apply elem_of_cons; by right]).
      apply elem_of_app in Hk as [?|?]; done.
    + rewrite (proj2 (Z.ltb_ge p 0)) by lia. split.
      * apply elem_of_app in Hin as [?|Hin]; apply elem_of_app; [by left|]. apply elem_of_cons in Hin as [?|?]; [done|by right].
      * intros q Hq Hk. apply Hone; [done|]. apply elem_of_app in Hk as [?|?]; apply elem_of_app; [by left|right; apply elem_of_cons; by right].
Qed.

Lemma inv_preserved s s' : inv s -> step s s' -> inv s'.
Proof.
  intros I Hs. destruct Hs as [s p Ea (Hp & Hk & Hf)|s Ea|s k1 k2 p Ek|s p b (Hp & Hk & Hf)|s pid k1 k2 p Ea Ek|s pid Ea Ek]; [| | | |by eapply inv_reap|]; destruct I as [I1 I2 I3].
  - rewrite Ea in I3. destruct (add_kid _ p Hp Hk I1 I2) as [A1 A2]. constructor; cbn [at_ kids forked failed]; rewrite kids_app; [done|done|]. unfold after_fork. rewrite (proj2 (Z.ltb_ge p 0)) by lia.
    split; [apply elem_of_app; right; by constructor|]. intros q Hq Hin. apply elem_of_cons in Hq as [->|Hq]; [done|]. apply elem_of_app in Hin as [Hin|Hin]; [by destruct (I3 q Hq)|].
    by apply list_elem_of_singleton in Hin.
  - by constructor.
  - rewrite Ek in *. constructor; cbn [at_ kids forked failed]; rewrite kids_app in *; done.
  - destruct (add_kid _ p Hp Hk I1 I2) as [A1 A2]. constructor; cbn [at_ kids forked failed]; rewrite kids_app; [done|done|]. cbn [fmap list_fmap fst]. destruct (at_ s) as [|pid|]; [| |done].
    + intros q Hq Hin. apply elem_of_app in Hin as [Hin|Hin]; [by apply (I3 q)|]. apply list_elem_of_singleton in Hin as ->. done.
    + destruct I3 as [I3 I4]. split; [apply elem_of_app; by left|]. intros q Hq Hin. apply elem_of_app in Hin as [Hin|Hin]; [by apply I4|]. apply list_elem_of_singleton in Hin as ->. done.
  - rewrite Ea, Ek in I3. by destruct I3 as [I3%not_elem_of_nil _].
Qed.


End Supervisor.
