(* ===== verification/Sh.v ===== *)
(** Sh: user/sh.c, the shell: its lexer and recursive-descent parser, and what
    it does with a parsed command.

    A pointer into the line is a position in [buf]; *ps is the state of the
    parser.  malloc is taken to succeed.  An execcmd is filled in while
    redircmds are already wrapped around it: parseexec collects the two and
    builds the command at the end.  The processes and descriptors that runcmd
    makes are described by a [script] of system calls. *)

From S2P Require Import Prelude CString Ulib.

Definition MAXARGS : nat := 10.
Definition O_RDONLY : Z := 0x000.
Definition O_WRONLY : Z := 0x001.
Definition O_CREATE : Z := 0x200.
Definition O_TRUNC : Z := 0x400.

(** A string is its first position and the one behind it. *)
Inductive cmd : Type :=
| EXEC (args : list (nat * nat))
| REDIR (c : cmd) (file : nat * nat) (mode fd : Z)
| PIPE (left right : cmd)
| LIST (left right : cmd)
| BACK (c : cmd).

Definition whitespace : list Z := [32; 9; 13; 10; 11].
Definition symbols : list Z := [60; 124; 62; 38; 59; 40; 41].

(** strchr(set, c), where only the truth of the result matters. *)
Definition among (set : list Z) (c : Z) : bool :=
  match User.strchr set c with Some _ => true | None => false end.

Section Parser.
  Context (buf : list Z) (es : nat).
  Local Abbreviation P := (M nat).

(** The character at position [s], behind the end NUL. *)
Definition ch (s : nat) : Z := default 0 (buf !! s).

(** [while(s < es && p( *s )) s++;], with [n] characters left before es *)
Fixpoint scan (p : Z -> bool) (n : nat) (s : nat) : nat :=
  match n with
  | O => s
  | S n' => if p (ch s) then scan p n' (S s) else s
  end.
Definition skip_ws (s : nat) : nat := scan (among whitespace) (es - s) s.
Definition word_char (c : Z) : bool := negb (among whitespace c) && negb (among symbols c).

(** The result is ret, q and eq. *)
Definition gettoken : P (Z * (nat * nat)) :=
  fun s =>
    let q := skip_ws s in
    let c := ch q in
    let '(r, eq) :=
      if c =? 0 then (0, q)
      else if among [124; 40; 41; 59; 38; 60] c then (c, S q)
      else if c =? 62 then (if ch (S q) =? 62 then (43, S (S q)) else (62, S q))
      else (97, scan word_char (es - q) q) in
    Ok ((r, (q, eq)), skip_ws eq).

Definition peek (toks : list Z) : P bool :=
  fun s => let s := skip_ws s in Ok (negb (ch s =? 0) && among toks (ch s), s).

(** The redirections that parseredirs wraps around its command, the first one
    innermost. *)
Definition redir : Type := (nat * nat) * Z * Z.

Definition redirs_body (rs : list redir) : P (list redir + list redir) :=
  b <- peek [60; 62] ;;
  if negb b then ret (inr rs)
  else
    '(tok, _) <- gettoken ;;
    '(r, f) <- gettoken ;;
    if negb (r =? 97) then panic "missing file for redirection"
    else if tok =? 60 then ret (inl (rs ++ [(f, O_RDONLY, 0)]))
    else if tok =? 62 then ret (inl (rs ++ [(f, Z.lor O_WRONLY (Z.lor O_CREATE O_TRUNC), 1)]))
    else if tok =? 43 then ret (inl (rs ++ [(f, Z.lor O_WRONLY O_CREATE, 1)]))
    else ret (inl rs).

Definition parseredirs : P (list redir) := loop (S es) redirs_body [].

Definition redircmds (c : cmd) (rs : list redir) : cmd :=
  foldl (fun c '(f, mode, fd) => REDIR c f mode fd) c rs.

(** One turn of parseexec's loop; the locals are argv and the redirections. *)
Definition args_body (st : list (nat * nat) * list redir) : P (list (nat * nat) * list redir + list (nat * nat) * list redir) :=
  let '(argv, rs) := st in
  b <- peek [124; 41; 38; 59] ;;
  if (b : bool) then ret (inr st)
  else
    '(tok, w) <- gettoken ;;
    if tok =? 0 then ret (inr st)
    else if negb (tok =? 97) then panic "syntax"
    else
      let argv := argv ++ [w] in
      if (MAXARGS <=? length argv)%nat then panic "too many args"
      else rs' <- parseredirs ;; ret (inl (argv, rs ++ rs')).

(** parseblock, given parseline. *)
Definition parseblock (line : P cmd) : P cmd :=
  b <- peek [40] ;;
  if negb b then panic "parseblock"
  else
    gettoken ;;;
    c <- line ;;
    b <- peek [41] ;;
    if negb b then panic "syntax - missing )"
    else gettoken ;;; rs <- parseredirs ;; ret (redircmds c rs).

(** parseexec, given parseline. *)
Definition parseexec (line : P cmd) : P cmd :=
  b <- peek [40] ;;
  if (b : bool) then parseblock line
  else
    rs <- parseredirs ;;
    '(argv, rs) <- loop (S (S es)) args_body ([], rs) ;;
    ret (redircmds (EXEC argv) rs).

(** [while(peek(ps, es, "&"))] of parseline. *)
Definition back_body (c : cmd) : P (cmd + cmd) :=
  b <- peek [38] ;;
  if (b : bool) then gettoken ;;; ret (inl (BACK c)) else ret (inr c).

Fixpoint parseline (n : nat) : P cmd :=
  match n with
  | O => fail FFuel
  | S n' =>
      c <- parsepipe n' ;;
      c <- loop (S es) back_body c ;;
      b <- peek [59] ;;
      if (b : bool) then gettoken ;;; r <- parseline n' ;; ret (LIST c r) else ret c
  end
with parsepipe (n : nat) : P cmd :=
  match n with
  | O => fail FFuel
  | S n' =>
      c <- parseexec (parseline n') ;;
      b <- peek [124] ;;
      if (b : bool) then gettoken ;;; r <- parsepipe n' ;; ret (PIPE c r) else ret c
  end.

End Parser.

(** *** nulterminate *)

Definition put_nul (buf : list Z) (i : nat) : list Z := <[i := 0]> buf.

Fixpoint nulterminate (c : cmd) (buf : list Z) : list Z :=
  match c with
  | EXEC args => foldl (fun b w => put_nul b w.2) buf args
  | REDIR c file _ _ => put_nul (nulterminate c buf) file.2
  | PIPE l r => nulterminate r (nulterminate l buf)
  | LIST l r => nulterminate r (nulterminate l buf)
  | BACK c => nulterminate c buf
  end.

(** [parsecmd(s)] on the line that starts at [s] in [buf]: the command, and the
    buffer with its strings terminated. *)
Definition parsecmd (s : nat) (buf : list Z) : outcome (cmd * list Z) :=
  let es := (s + length (cstr (drop s buf)))%nat in
  match (c <- parseline buf es (2 * es + 2) ;; peek buf es [] ;;; ret c) s with
  | Ok (c, s') => if negb (s' =? es)%nat then Fault (FPanic "syntax") else Ok (c, nulterminate c buf)
  | Fault e => Fault e
  end.

(** *** runcmd *)

(** What a process does from here on.  Descriptors 0, 1, 2 and those of the
    last pipe. *)
Inductive fdname : Type := Fd (n : Z) | PipeIn | PipeOut.

Inductive script : Type :=
| SExit (status : Z)
| SExecve (argv : list (list Z)) (k : script)      (* k runs when exec fails *)
| SClose (fd : fdname) (k : script)
| SDup (fd : fdname) (k : script)
| SOpen (file : list Z) (mode : Z) (bad ok : script)
| SMakePipe (bad ok : script)
| SFork (bad child parent : script)
| SWait (k : script).

(** [panic(s)] prints and exits. *)
Definition spanic : script := SExit 1.

(** The string at a position. *)
Definition string_of (buf : list Z) (w : nat * nat) : list Z := cstr (drop w.1 buf).

Fixpoint runcmd (buf : list Z) (c : cmd) : script :=
  match c with
  | EXEC args =>
      match args with
      | [] => SExit 1
      | _ => SExecve (string_of buf <$> args) (SExit 0)
      end
  | REDIR c file mode fd =>
      SClose (Fd fd) (SOpen (string_of buf file) mode (SExit 1) (runcmd buf c))
  | LIST l r => SFork spanic (runcmd buf l) (SWait (runcmd buf r))
  | PIPE l r =>
      SMakePipe spanic
        (SFork spanic
           (SClose (Fd 1) (SDup PipeOut (SClose PipeIn (SClose PipeOut (runcmd buf l)))))
           (SFork spanic
              (SClose (Fd 0) (SDup PipeIn (SClose PipeIn (SClose PipeOut (runcmd buf r)))))
              (SClose PipeIn (SClose PipeOut (SWait (SWait (SExit 0)))))))
  | BACK c => SFork spanic (runcmd buf c) (SExit 0)
  end.

(** *** The main loop *)

(** [getcmd(buf, 100)]: the line in buf, or [None] at the end of the input. *)
Definition getcmd {U} `{Unix U} : M U (option (list Z)) :=
  write 2 [36; 32] ;;;
  buf <- User.gets 100 ;;
  ret (if hd 0 buf =? 0 then None else Some buf).

(** What the shell itself does with a line: nothing, change its directory, or
    fork a child and wait for it. *)
Inductive turn : Type := TBlank | TChdir (dir : list Z) | TChild (child : script).

Definition blank (c : Z) : bool := (c =? 32) || (c =? 9).

Fixpoint skip_blanks (buf : list Z) : nat :=
  match buf with
  | c :: buf' => if blank c then S (skip_blanks buf') else O
  | [] => O
  end.

(** One turn of main's loop. *)
Definition main_turn (buf : list Z) : turn :=
  let s := skip_blanks buf in
  let at_ (i : nat) := ch buf (s + i) in
  if at_ 0%nat =? 10 then TBlank
  else if (at_ 0%nat =? 99) && (at_ 1%nat =? 100) && (at_ 2%nat =? 32) then
    let buf := put_nul buf (s + length (cstr (drop s buf)) - 1) in
    TChdir (cstr (drop (s + 3) buf))
  else TChild (match parsecmd s buf with Ok (c, buf) => runcmd buf c | Fault _ => spanic end).

(** [cd dir] and the newline. *)
Lemma main_turn_cd (pre dir : list Z) : Forall (fun c => blank c = true) pre -> Forall (fun c => c <> 0) dir ->
  main_turn (pre ++ [99; 100; 32] ++ dir ++ [10; 0]) = TChdir dir.
Proof.
  intros Hpre Hdir. assert (skip_blanks (pre ++ [99; 100; 32] ++ dir ++ [10; 0]) = length pre) as Es.
  { induction Hpre as [|c pre Hc _ IH]; [done|]. cbn [app skip_blanks] in *. by rewrite Hc, IH. }
  set (cd := [99; 100; 32] ++ dir) in *. replace (pre ++ [99; 100; 32] ++ dir ++ [10; 0]) with ((pre ++ cd) ++ [10; 0]) in *
    by (unfold cd; by rewrite <-!app_assoc).
  assert (cstr (drop (length pre) ((pre ++ cd) ++ [10; 0])) = cd ++ [10]) as Ec.
  { rewrite <-app_assoc, drop_app_length. rewrite cstr_app_nz; [done|]. repeat (constructor; [done|]). done. }
  assert (forall i, ch ((pre ++ cd) ++ [10; 0]) (length pre + i) = ch (cd ++ [10; 0]) i) as Ech.
  { intros i. unfold ch. rewrite <-app_assoc, lookup_app_r by lia. by rewrite Nat.add_comm, Nat.add_sub. }
  unfold main_turn. rewrite Es, Ec, !Ech. change (ch (cd ++ [10; 0]) 0) with 99. change (ch (cd ++ [10; 0]) 1) with 100.
  change (ch (cd ++ [10; 0]) 2) with 32. cbn -[app length drop put_nul Nat.sub].
  f_equal. unfold put_nul.
  replace (length pre + length (cd ++ [10%Z]) - 1)%nat with (length (pre ++ cd) + 0)%nat by (rewrite !length_app; cbn [length]; lia).
  rewrite insert_app_r. unfold cd. rewrite (app_assoc pre), <-app_assoc.
  replace (length pre + 3)%nat with (length (pre ++ [99%Z; 100%Z; 32%Z])) by (rewrite length_app; done).
  rewrite drop_app_length, cstr_app_nz by done. cbn. by rewrite app_nil_r.
Qed.

(** A line that ended without a newline loses its last character. *)
Example cd_without_newline : main_turn [99; 100; 32; 97; 98; 0] = TChdir [97].
Proof. vm_compute. done. Qed.

Example parse_pipe :
  match parsecmd 0 [97; 32; 98; 62; 99; 32; 124; 100; 38; 10; 0] with
  | Ok (c, b) => c = BACK (PIPE (REDIR (EXEC [(0, 1); (2, 3)]%nat) (4, 5)%nat 0x601 1) (EXEC [(7, 8)]%nat)) /\
                 string_of b (2, 3)%nat = [98] /\ string_of b (4, 5)%nat = [99]
  | Fault _ => False
  end.
Proof. vm_compute. done. Qed.
