(* ===== verification/ShParse.v ===== *)
(** ShParse: the shell reads a command line as it is meant.  A command is
    written as a sequence of tokens, with parentheses where the grammar needs
    them and any white space between; parsecmd gives the command back, with its
    strings terminated, and it ends on every line. *)

From S2P Require Import Prelude CString Ulib Sh.

(** *** Commands and how they are written *)

Inductive rkind : Type := RIn | ROut | RApp.

Inductive scmd : Type :=
| CExec (args : list (list Z))
| CRedir (c : scmd) (file : list Z) (k : rkind)
| CPipe (l r : scmd)
| CList (l r : scmd)
| CBack (c : scmd).

Inductive tok : Type := TWord (w : list Z) | TSym (c : Z) | TApp.

Definition rtok (k : rkind) : tok := match k with RIn => TSym 60 | ROut => TSym 62 | RApp => TApp end.

Definition wrap (b : bool) (l : list tok) : list tok := if b then TSym 40 :: l ++ [TSym 41] else l.

(** The tokens of a command where the grammar wants a line (0), a pipe with
    &s (1), a pipe (2) or a simple command (3). *)
Fixpoint toks (lvl : nat) (c : scmd) : list tok :=
  match c with
  | CExec args => TWord <$> args
  | CRedir c f k => toks 3 c ++ [rtok k; TWord f]
  | CPipe l r => wrap (3 <=? lvl)%nat (toks 3 l ++ TSym 124 :: toks 2 r)
  | CList l r => wrap (1 <=? lvl)%nat (toks 1 l ++ TSym 59 :: toks 0 r)
  | CBack c => wrap (2 <=? lvl)%nat (toks 1 c ++ [TSym 38])
  end.

Definition text (t : tok) : list Z := match t with TWord w => w | TSym c => [c] | TApp => [62; 62] end.

Definition is_word (w : list Z) : Prop := w <> [] /\ Forall (fun c => c <> 0 /\ word_char c = true) w.
Definition tok_ok (t : tok) : Prop :=
  match t with TWord w => is_word w | TSym c => c ∈ symbols | TApp => True end.
(** What may follow a token without white space. *)
Definition parted (t : tok) (rest : list Z) : Prop :=
  match t with
  | TWord _ => rest = [] \/ word_char (hd 0 rest) = false
  | TSym c => c = 62 -> hd 0 rest <> 62
  | TApp => True
  end.

Definition blank (s : list Z) : Prop := Forall (fun c => among whitespace c = true) s.

(** A line that consists of these tokens. *)
Inductive spells : list tok -> list Z -> Prop :=
| sp_nil ws : blank ws -> spells [] ws
| sp_cons ws t ts rest : blank ws -> tok_ok t -> parted t rest -> spells ts rest ->
    spells (t :: ts) (ws ++ text t ++ rest).

(** Commands the shell can take: words are words, and at most nine of them. *)
Fixpoint writable (c : scmd) : Prop :=
  match c with
  | CExec args => (length args < MAXARGS)%nat
  | CRedir c _ _ => writable c
  | CPipe l r => writable l /\ writable r
  | CList l r => writable l /\ writable r
  | CBack c => writable c
  end.

Definition rmode (k : rkind) : Z := match k with RIn => 0 | ROut => 0x601 | RApp => 0x201 end.
Definition rfd (k : rkind) : Z := match k with RIn => 0 | _ => 1 end.

(** The parsed command, its strings read from [buf], is [c]. *)
Fixpoint shows (buf : list Z) (t : cmd) (c : scmd) : Prop :=
  match t, c with
  | EXEC ws, CExec args => string_of buf <$> ws = args
  | REDIR t f mode fd, CRedir c f' k => shows buf t c /\ string_of buf f = f' /\ mode = rmode k /\ fd = rfd k
  | PIPE l r, CPipe l' r' => shows buf l l' /\ shows buf r r'
  | LIST l r, CList l' r' => shows buf l l' /\ shows buf r r'
  | BACK t, CBack c => shows buf t c
  | _, _ => False
  end.

(** *** The lexer *)

Lemma among_elem set c : c <> 0 -> 0 ∉ set -> among set c = true <-> c ∈ set.
Proof.
  intros Hc H0. unfold among. induction set as [|x set IH]; cbn; [split; [done|by intros ?%not_elem_of_nil]|].
  apply not_elem_of_cons in H0 as [Hx H0]. rewrite (proj2 (Z.eqb_neq x 0)) by done. rewrite elem_of_cons.
  destruct (Z.eqb_spec x c) as [->|Hne]; [split; auto|].
  destruct (User.strchr set c); cbn; naive_solver.
Qed.

Lemma among_true set c : among set c = true -> c ∈ set.
Proof.
  unfold among. induction set as [|x set IH]; cbn; [done|]. destruct (x =? 0); [done|]. rewrite elem_of_cons.
  destruct (Z.eqb_spec x c) as [->|]; [by left|]. destruct (User.strchr set c); [|done]. right. by apply IH.
Qed.

Lemma among_0 set : among set 0 = false.
Proof. unfold among. induction set as [|x set IH]; cbn; [done|]. destruct (x =? 0); [done|]. by destruct (User.strchr set 0). Qed.

Lemma symbol_nz c : c ∈ symbols -> c <> 0.
Proof. unfold symbols. set_solver. Qed.

Section Lexer.
  Context (buf : list Z) (es : nat) (Hes : (es <= length buf)%nat) (Hnul : ch buf es = 0).

(** What is left of the line. *)
Definition rem (s : nat) : list Z := take (es - s) (drop s buf).

Lemma rem_cons s c r : rem s = c :: r -> (s < es)%nat /\ ch buf s = c /\ rem (S s) = r.
Proof.
  unfold rem. intros E. destruct (es - s)%nat as [|n] eqn:En; [done|].
  destruct (drop s buf) as [|x l] eqn:Ed; [done|]. cbn in E. injection E as -> <-.
  split_and!; [lia| |].
  - unfold ch. rewrite <-(Nat.add_0_r s), <-lookup_drop, Ed. done.
  - replace (es - S s)%nat with n by lia. replace (S s) with (s + 1)%nat by lia. rewrite <-drop_drop, Ed. done.
Qed.

Lemma rem_nil s : rem s = [] -> (es <= s)%nat.
Proof. unfold rem. intros E. apply (f_equal length) in E. rewrite length_take, length_drop in E. cbn in E. lia. Qed.

Lemma rem_app s l r : rem s = l ++ r -> rem (s + length l) = r.
Proof.
  revert s. induction l as [|c l IH]; intros s E; cbn in *; [by rewrite Nat.add_0_r|].
  apply rem_cons in E as (_ & _ & E). replace (s + S (length l))%nat with (S s + length l)%nat by lia. by apply IH.
Qed.

Lemma scan_run p s l r : rem s = l ++ r -> Forall (fun c => p c = true) l -> (r = [] \/ p (hd 0 r) = false) ->
  scan buf p (es - s) s = (s + length l)%nat.
Proof.
  intros E Hl Hr. revert s E. induction Hl as [|c l Hc _ IH]; intros s E; cbn [app length] in *.
  - rewrite Nat.add_0_r. destruct r as [|c r].
    + apply rem_nil in E. by replace (es - s)%nat with 0%nat by lia.
    + destruct Hr as [|Hr]; [done|]. cbn in Hr. destruct (rem_cons _ _ _ E) as (Hs & Ec & _).
      destruct (es - s)%nat; [done|]. cbn. by rewrite Ec, Hr.
  - destruct (rem_cons _ _ _ E) as (Hs & Ec & E'). replace (es - s)%nat with (S (es - S s)) by lia. cbn.
    rewrite Ec, Hc, IH by done. lia.
Qed.

(** The parser is at [s] and these tokens are to come. *)
Definition at_ (ts : list tok) (s : nat) : Prop := (s <= es)%nat /\ spells ts (rem s).

(** The same, without white space. *)
Definition tight (ts : list tok) (s : nat) : Prop :=
  (s <= es)%nat /\
  match ts with
  | [] => rem s = []
  | t :: ts => exists rest, rem s = text t ++ rest /\ tok_ok t /\ parted t rest /\ spells ts rest
  end.

Lemma tok_first t : tok_ok t -> exists c r, text t = c :: r /\ c <> 0 /\ among whitespace c = false.
Proof.
  destruct t as [w|c|]; cbn.
  - intros [Hw Hf]. destruct Hf as [|c w [Hc Hwc] _]; [done|]. exists c, w. split_and!; [done|done|].
    unfold word_char in Hwc. by destruct (among whitespace c).
  - intros Hc. exists c, []. split_and!; [done|by apply symbol_nz|].
    revert c Hc. apply Forall_forall. unfold symbols. by repeat constructor.
  - intros _. by exists 62, [62].
Qed.

Lemma skip_ws_run ts s : at_ ts s -> tight ts (skip_ws buf es s) /\ (s <= skip_ws buf es s)%nat.
Proof.
  intros [Hs Hsp]. unfold skip_ws. remember (rem s) as r eqn:Er. symmetry in Er. destruct Hsp as [ws Hws|ws t ts rest Hws Ht Hp Hsp].
  - rewrite <-(app_nil_r ws) in Er. rewrite (scan_run _ s ws []) by (auto || by left). pose proof (rem_app _ _ _ Er) as E.
    assert (length ws <= es - s)%nat.
    { apply (f_equal length) in Er. unfold rem in Er. rewrite length_take, length_app in Er. cbn in Er. lia. }
    split; [|lia]. split; [lia|done].
  - destruct (tok_first t Ht) as (c & x & Ec & Hc & Hcw).
    rewrite (scan_run _ s ws (text t ++ rest)) by (auto || (right; by rewrite Ec)). pose proof (rem_app _ _ _ Er) as E.
    assert (length ws <= es - s)%nat.
    { apply (f_equal length) in Er. unfold rem in Er. rewrite length_take, length_app in Er. lia. }
    split; [|lia]. split; [lia|]. by exists rest.
Qed.

Lemma tight_at ts s : tight ts s -> at_ ts s.
Proof.
  intros [Hs Ht]. split; [done|]. destruct ts as [|t ts].
  - rewrite Ht. apply sp_nil. constructor.
  - destruct Ht as (rest & -> & Ht & Hp & Hsp). apply (sp_cons [] t ts rest); auto. constructor.
Qed.

(** The next token is a symbol of [set]. *)
Definition sees (set : list Z) (ts : list tok) : bool :=
  match ts with
  | TSym c :: _ => among set c
  | TApp :: _ => among set 62
  | _ => false
  end.

Lemma peek_run set ts s : at_ ts s -> Forall (fun c => c ∈ symbols) set ->
  exists s', peek buf es set s = Ok (sees set ts, s') /\ tight ts s'.
Proof.
  intros Ha Hset. destruct (skip_ws_run ts s Ha) as [[Hs Ht] _]. unfold peek. eexists. split; [|done]. do 2 f_equal.
  assert (0 ∉ set) as H0 by (intros Hc; apply (symbol_nz 0); [by apply (proj1 (Forall_forall _ _) Hset)|done]).
  destruct ts as [|t ts].
  - apply rem_nil in Ht. replace (skip_ws buf es s) with es by lia. by rewrite Hnul.
  - destruct Ht as (rest & E & Hok & _). destruct (tok_first t Hok) as (c & x & Ec & Hc & _).
    rewrite Ec in E. apply rem_cons in E as (_ & -> & _). rewrite (proj2 (Z.eqb_neq c 0) Hc). cbn [negb andb].
    destruct t as [w|c'|]; cbn in Ec |- *; [|by injection Ec as -> _..].
    destruct Hok as [_ Hw]. rewrite Ec in Hw. apply Forall_cons in Hw as [[_ Hw] _].
    destruct (among set c) eqn:Ea; [|done]. apply among_elem in Ea; [|done..].
    apply (proj1 (Forall_forall _ _) Hset) in Ea. unfold word_char in Hw.
    rewrite (proj2 (among_elem symbols c Hc ltac:(unfold symbols; set_solver)) Ea) in Hw. by destruct (among whitespace c).
Qed.

(** A word stands between two positions, and what is behind it is not part of
    a word. *)
Definition word_at (w : list Z) (p : nat * nat) : Prop :=
  is_word w /\ (p.2 = p.1 + length w)%nat /\ (p.2 <= es)%nat /\ take (length w) (drop p.1 buf) = w /\
  (p.2 = es \/ word_char (ch buf p.2) = false).

Definition code (t : tok) : Z := match t with TWord _ => 97 | TSym c => c | TApp => 43 end.

Lemma rem_take s l r : rem s = l ++ r -> take (length l) (drop s buf) = l /\ (s <= es -> s + length l <= es)%nat.
Proof.
  unfold rem. intros E. split.
  - apply (f_equal (take (length l))) in E. rewrite take_app_length, take_take in E. rewrite <-E at 2. f_equal.
    pose proof (f_equal length E) as El. rewrite length_take in El. lia.
  - intros Hs. apply (f_equal length) in E. rewrite length_take, length_app in E. lia.
Qed.

Lemma gettoken_run t ts s : at_ (t :: ts) s ->
  exists p s', gettoken buf es s = Ok ((code t, p), s') /\ at_ ts s' /\
    match t with TWord w => word_at w p | _ => True end.
Proof.
  intros Ha. destruct (skip_ws_run _ s Ha) as [[Hs Ht] _]. unfold gettoken. set (q := skip_ws buf es s) in *. clearbody q.
  destruct Ht as (rest & E & Hok & Hp & Hsp). destruct (rem_take _ _ _ E) as [Htake Hle]. specialize (Hle Hs).
  pose proof (rem_app _ _ _ E) as Er.
  assert (forall k, k = (q + length (text t))%nat -> at_ ts (skip_ws buf es k)) as Hskip.
  { intros k ->. apply tight_at, skip_ws_run. split; [lia|]. by rewrite Er. }
  destruct (tok_first t Hok) as (c & x & Ec & Hc & Hcw). pose proof E as E'. rewrite Ec in E'.
  apply rem_cons in E' as (_ & Eq & E'). rewrite Eq, (proj2 (Z.eqb_neq c 0) Hc).
  destruct t as [w|c'|]; cbn [text code length] in *.
  - destruct Hok as [Hw Hf]. pose proof Hf as Hf'. rewrite Ec in Hf'. apply Forall_cons in Hf' as [[_ Hwc] _].
    assert (among symbols c = false) as Hsym by (unfold word_char in Hwc; by destruct (among whitespace c), (among symbols c)).
    assert (forall x, x ∈ symbols -> c <> x) as Hne.
    { intros y Hy ->. rewrite (proj2 (among_elem symbols y Hc ltac:(unfold symbols; set_solver)) Hy) in Hsym. done. }
    assert (among [124; 40; 41; 59; 38; 60] c = false) as ->.
    { apply not_true_iff_false. intros Hm%among_elem; [|done|set_solver]. apply (Hne c); [|done]. unfold symbols. set_solver. }
    rewrite (proj2 (Z.eqb_neq c 62)) by (apply Hne; unfold symbols; set_solver).
    rewrite (scan_run word_char q w rest E); [|eapply Forall_impl; [exact Hf|naive_solver]|done].
    eexists (q, _), _. split; [reflexivity|]. split; [by apply Hskip|]. split_and!; [done|done|done|done|].
    cbn. destruct rest as [|y rest]; [left; apply rem_nil in Er; lia|right].
    apply rem_cons in Er as (_ & -> & _). by destruct Hp.
  - injection Ec as -> <-. destruct (Z.eq_dec c 62) as [->|Hne].
    + assert (ch buf (S q) <> 62) as Hn.
      { destruct rest as [|y rest].
        - replace (S q) with es by (apply rem_nil in E'; lia). by rewrite Hnul.
        - apply rem_cons in E' as (_ & -> & _). by apply Hp. }
      rewrite (proj2 (Z.eqb_neq _ _) Hn). cbn. eexists (q, _), _. split; [reflexivity|]. split; [apply Hskip; lia|done].
    + assert (among [124; 40; 41; 59; 38; 60] c = true) as ->.
      { apply among_elem; [done|set_solver|]. unfold symbols in Hok. set_solver. }
      eexists (q, _), _. split; [reflexivity|]. split; [apply Hskip; lia|done].
  - injection Ec as <- <-. cbn in E'. apply rem_cons in E' as (_ & -> & _). cbn.
    eexists (q, _), _. split; [reflexivity|]. split; [apply Hskip; lia|done].
Qed.

Lemma gettoken_end s : at_ [] s -> exists p s', gettoken buf es s = Ok ((0, p), s') /\ at_ [] s'.
Proof.
  intros Ha. destruct (skip_ws_run _ s Ha) as [[Hs Ht] _]. unfold gettoken. set (q := skip_ws buf es s) in *. clearbody q.
  pose proof (rem_nil _ Ht). assert (q = es) as -> by lia. rewrite Hnul. cbn. eexists (es, es), _. split; [reflexivity|].
  apply tight_at, skip_ws_run. split; [done|]. rewrite Ht. apply sp_nil. constructor.
Qed.

Lemma spells_length ts r : spells ts r -> (length ts <= length r)%nat.
Proof.
  induction 1 as [|ws t ts rest _ Ht _ _ IH]; [cbn; lia|]. destruct (tok_first t Ht) as (c & x & -> & _).
  rewrite !length_app. cbn. lia.
Qed.

Lemma at_length ts s : at_ ts s -> (length ts <= es - s)%nat.
Proof. intros [_ H]. apply spells_length in H. unfold rem in H. rewrite length_take in H. lia. Qed.

(** *** Redirections and arguments *)

Definition rtoks (rs : list (list Z * rkind)) : list tok := concat ((fun '(f, k) => [rtok k; TWord f]) <$> rs).

Definition redir_at (r : redir) (x : list Z * rkind) : Prop :=
  let '(p, mode, fd) := r in word_at x.1 p /\ mode = rmode x.2 /\ fd = rfd x.2.

Lemma sees_rtok k f ts : sees [60; 62] (rtok k :: TWord f :: ts) = true.
Proof. by destruct k. Qed.

Ltac in_symbols := unfold symbols; repeat constructor; set_solver.

Lemma redirs_loop rs : forall acc ts s fuel, (length rs < fuel)%nat -> at_ (rtoks rs ++ ts) s -> sees [60; 62] ts = false ->
  exists rs' s', loop fuel (redirs_body buf es) acc s = Ok (acc ++ rs', s') /\ at_ ts s' /\ Forall2 redir_at rs' rs.
Proof.
  induction rs as [|[f k] rs IH]; intros acc ts s fuel Hf Ha Hts; (destruct fuel as [|fuel]; [cbn in Hf; lia|]);
    cbn [loop]; unfold redirs_body at 1; rewrite bind_assoc.
  - destruct (peek_run [60; 62] ts s Ha ltac:(in_symbols)) as (s1 & E1 & Ht1). rewrite (bind_ok _ _ _ _ _ E1), Hts.
    exists [], s1. rewrite app_nil_r. split; [done|]. split; [by apply tight_at|constructor].
  - change (rtoks ((f, k) :: rs) ++ ts) with (rtok k :: TWord f :: rtoks rs ++ ts) in Ha.
    destruct (peek_run [60; 62] _ s Ha ltac:(in_symbols)) as (s1 & E1 & Ht1%tight_at). rewrite (bind_ok _ _ _ _ _ E1), sees_rtok.
    cbn [negb]. rewrite bind_assoc. destruct (gettoken_run _ _ _ Ht1) as (p1 & s2 & E2 & Ha2 & _).
    rewrite (bind_ok _ _ _ _ _ E2). rewrite bind_assoc. destruct (gettoken_run _ _ _ Ha2) as (p & s3 & E3 & Ha3 & Hw).
    rewrite (bind_ok _ _ _ _ _ E3). cbn [code negb Z.eqb Pos.eqb].
    assert (exists r, redir_at r (f, k) /\
      (if code (rtok k) =? 60 then ret (inl (acc ++ [(p, O_RDONLY, 0)]))
       else if code (rtok k) =? 62 then ret (inl (acc ++ [(p, Z.lor O_WRONLY (Z.lor O_CREATE O_TRUNC), 1)]))
       else if code (rtok k) =? 43 then ret (inl (acc ++ [(p, Z.lor O_WRONLY O_CREATE, 1)]))
       else ret (inl acc)) s3 = Ok (inl (acc ++ [r]) : list redir + list redir, s3)) as (r & Hr & Er).
    { destruct k; cbn; eexists (_, _, _); (split; [|reflexivity]); by split_and!. }
    cbn in Hf. destruct (IH (acc ++ [r]) ts s3 fuel ltac:(lia) Ha3 Hts) as (rs' & s4 & E4 & Ha4 & Hrs).
    exists (r :: rs'), s4. rewrite (bind_ok _ _ _ _ _ Er). rewrite E4, <-app_assoc. split; [done|]. split; [done|]. by constructor.
Qed.

Lemma rtoks_length rs ts s : at_ (rtoks rs ++ ts) s -> (length rs <= es)%nat.
Proof.
  intros Ha. apply at_length in Ha. rewrite length_app in Ha.
  assert (length rs <= length (rtoks rs))%nat; [|lia]. clear. unfold rtoks. induction rs as [|[f k] rs IH]; cbn; lia.
Qed.

Lemma parseredirs_run rs ts s : at_ (rtoks rs ++ ts) s -> sees [60; 62] ts = false ->
  exists rs' s', parseredirs buf es s = Ok (rs', s') /\ at_ ts s' /\ Forall2 redir_at rs' rs.
Proof.
  intros Ha Hts. unfold parseredirs. apply (redirs_loop rs []); [|done|done]. pose proof (rtoks_length _ _ _ Ha). lia.
Qed.

(** What may follow a simple command. *)
Definition follows (set : list Z) (ts : list tok) : Prop := ts = [] \/ sees set ts = true.

Lemma follows_weaken set set' ts : follows set ts -> (forall c, among set c = true -> among set' c = true) -> follows set' ts.
Proof. intros [->|Hs] Hset; [by left|]. right. destruct ts as [|[]]; cbn in *; auto. Qed.

Lemma follows_not set set' ts : follows set ts -> (forall c, among set c = true -> among set' c = false) -> sees set' ts = false.
Proof. intros [->|Hs] Hset; [done|]. destruct ts as [|[]]; cbn in *; auto. Qed.

Ltac sets :=
  let H := fresh in intros ? H; apply among_true in H; repeat (apply elem_of_cons in H as [->|H]; [done|]); by apply not_elem_of_nil in H.

Lemma args_loop args : forall argv rs0 rs ts s fuel, (length args < fuel)%nat -> (length argv + length args < MAXARGS)%nat ->
  at_ ((TWord <$> args) ++ (if decide (args = []) then [] else rtoks rs) ++ ts) s -> follows [124; 41; 38; 59] ts ->
  exists ws rs' s', loop fuel (args_body buf es) (argv, rs0) s = Ok ((argv ++ ws, rs0 ++ rs'), s') /\ at_ ts s' /\
    Forall2 word_at args ws /\ (if decide (args = []) then rs' = [] else Forall2 redir_at rs' rs).
Proof.
  induction args as [|a args IH]; intros argv rs0 rs ts s fuel Hf Hn Ha Hts; (destruct fuel as [|fuel]; [cbn in Hf; lia|]);
    cbn [loop]; unfold args_body at 1; rewrite bind_assoc.
  - cbn in Ha. destruct (peek_run [124; 41; 38; 59] ts s Ha ltac:(in_symbols)) as (s1 & E1 & Ht1%tight_at).
    rewrite (bind_ok _ _ _ _ _ E1). destruct Hts as [->|Hts].
    + cbn [sees]. rewrite bind_assoc. destruct (gettoken_end _ Ht1) as (p & s2 & E2 & Ha2).
      rewrite (bind_ok _ _ _ _ _ E2). exists [], [], s2. rewrite !app_nil_r. split; [done|]. split; [done|]. split; [constructor|done].
    + rewrite Hts. exists [], [], s1. rewrite !app_nil_r. split; [done|]. split; [done|]. split; [constructor|done].
  - rewrite decide_False in Ha by done. cbn [fmap list_fmap app] in Ha. cbn [length] in Hf, Hn.
    destruct (peek_run [124; 41; 38; 59] _ s Ha ltac:(in_symbols)) as (s1 & E1 & Ht1%tight_at).
    rewrite (bind_ok _ _ _ _ _ E1). cbn [sees]. rewrite bind_assoc.
    destruct (gettoken_run _ _ _ Ht1) as (p & s2 & E2 & Ha2 & Hw). rewrite (bind_ok _ _ _ _ _ E2). cbn [code Z.eqb Pos.eqb negb].
    rewrite length_app. cbn [length]. rewrite (proj2 (Nat.leb_gt _ _)) by lia.
    assert (sees [60; 62] ts = false) as Hno by (eapply follows_not; [exact Hts|sets]).
    assert (exists rs1 s3, parseredirs buf es s2 = Ok (rs1, s3) /\
      at_ ((TWord <$> args) ++ (if decide (args = []) then [] else rtoks rs) ++ ts) s3 /\
      (if decide (args = []) then Forall2 redir_at rs1 rs else rs1 = [])) as (rs1 & s3 & E3 & Ha3 & Hrs1).
    { destruct args as [|b args].
      - destruct (parseredirs_run rs ts s2 Ha2 Hno) as (rs1 & s3 & ? & ? & ?). by exists rs1, s3.
      - destruct (parseredirs_run [] _ s2 Ha2 eq_refl) as (rs1 & s3 & ? & ? & ->%Forall2_nil_inv_r). by exists [], s3. }
    rewrite bind_assoc, (bind_ok _ _ _ _ _ E3). rewrite ret_bind.
    destruct (IH (argv ++ [p]) (rs0 ++ rs1) rs ts s3 fuel ltac:(lia) ltac:(rewrite length_app; cbn; lia) Ha3 Hts)
      as (ws & rs' & s4 & E4 & Ha4 & Hws & Hrs).
    exists (p :: ws), (rs1 ++ rs'), s4. rewrite E4, <-!app_assoc. split; [done|]. split; [done|]. split; [by constructor|].
    rewrite decide_False by done. destruct (decide (args = [])); subst; [by rewrite app_nil_r|done].
Qed.

(** *** The grammar *)

(** The parsed command is [c], its words standing in the line. *)
Fixpoint means (t : cmd) (c : scmd) : Prop :=
  match t, c with
  | EXEC ws, CExec args => Forall2 word_at args ws
  | REDIR t f mode fd, CRedir c f' k => means t c /\ word_at f' f /\ mode = rmode k /\ fd = rfd k
  | PIPE l r, CPipe l' r' => means l l' /\ means r r'
  | LIST l r, CList l' r' => means l l' /\ means r r'
  | BACK t, CBack c => means t c
  | _, _ => False
  end.

Definition credirs (c : scmd) (rs : list (list Z * rkind)) : scmd := foldl (fun c '(f, k) => CRedir c f k) c rs.

Lemma means_redirs rs' rs : Forall2 redir_at rs' rs -> forall t c, means t c -> means (redircmds t rs') (credirs c rs).
Proof.
  induction 1 as [|[[p mode] fd] [f k] rs' rs (Hw & Hm & Hfd) _ IH]; intros t c Ht; [done|]. cbn.
  apply (IH (REDIR t p mode fd) (CRedir c f k)). by split_and!.
Qed.

(** [p] parses the tokens [l] as [c] where [set] may follow. *)
Definition parses (p : M nat cmd) (l : list tok) (set : list Z) (c : scmd) : Prop :=
  forall ts s, at_ (l ++ ts) s -> follows set ts -> exists t s', p s = Ok (t, s') /\ at_ ts s' /\ means t c.

(** The four levels, with enough fuel for the tokens; a simple command may be
    followed by redirections, and a pipe by &s. *)
Record parsed (c : scmd) : Prop := Parsed {
  pd_exec : forall n rs, (2 * length (toks 3 c) <= n)%nat ->
    parses (parseexec buf es (parseline buf es n)) (toks 3 c ++ rtoks rs) [124; 38; 59; 41] (credirs c rs);
  pd_pipe : forall n, (2 * length (toks 2 c) + 1 <= n)%nat -> parses (parsepipe buf es n) (toks 2 c) [38; 59; 41] c;
  pd_back : forall n k, (2 * length (toks 1 c) + 1 <= n)%nat ->
    parses (t <- parsepipe buf es n ;; loop (S es) (back_body buf es) t) (toks 1 c ++ replicate k (TSym 38)) [59; 41]
      (Nat.iter k CBack c);
  pd_line : forall n, (2 * length (toks 0 c) + 2 <= n)%nat -> parses (parseline buf es n) (toks 0 c) [41] c
}.

Lemma exec_to_pipe c : toks 2 c = toks 3 c ->
  (forall n rs, (2 * length (toks 3 c) <= n)%nat ->
    parses (parseexec buf es (parseline buf es n)) (toks 3 c ++ rtoks rs) [124; 38; 59; 41] (credirs c rs)) ->
  forall n, (2 * length (toks 2 c) + 1 <= n)%nat -> parses (parsepipe buf es n) (toks 2 c) [38; 59; 41] c.
Proof.
  intros E He n Hn ts s Ha Hts. rewrite E in Hn, Ha. destruct n as [|n]; [lia|]. cbn [parsepipe].
  assert (follows [124; 38; 59; 41] ts) as Hts' by (eapply follows_weaken; [exact Hts|sets]).
  destruct (He n [] ltac:(lia) ts s) as (t & s1 & E1 & Ha1 & Ht); [by rewrite app_nil_r|done|].
  rewrite (bind_ok _ _ _ _ _ E1). destruct (peek_run [124] ts s1 Ha1 ltac:(in_symbols)) as (s2 & E2 & Ha2%tight_at).
  rewrite (bind_ok _ _ _ _ _ E2), (follows_not _ [124] _ Hts) by sets. by exists t, s2.
Qed.

Lemma back_loop c k : forall ts s t fuel, (k < fuel)%nat -> at_ (replicate k (TSym 38) ++ ts) s -> sees [38] ts = false ->
  means t c -> exists t' s', loop fuel (back_body buf es) t s = Ok (t', s') /\ at_ ts s' /\ means t' (Nat.iter k CBack c).
Proof.
  revert c. induction k as [|k IH]; intros c ts s t fuel Hf Ha Hts Ht; (destruct fuel as [|fuel]; [lia|]); cbn [loop];
    unfold back_body at 1; rewrite bind_assoc.
  - destruct (peek_run [38] ts s Ha ltac:(in_symbols)) as (s1 & E1 & Ha1%tight_at).
    rewrite (bind_ok _ _ _ _ _ E1), Hts. by exists t, s1.
  - cbn [replicate app] in Ha. destruct (peek_run [38] _ s Ha ltac:(in_symbols)) as (s1 & E1 & Ha1%tight_at).
    rewrite (bind_ok _ _ _ _ _ E1). change (sees [38] (TSym 38 :: _)) with true. cbv iota.
    rewrite bind_assoc. destruct (gettoken_run _ _ _ Ha1) as (p & s2 & E2 & Ha2 & _). rewrite (bind_ok _ _ _ _ _ E2), ret_bind.
    destruct (IH (CBack c) ts s2 (BACK t) fuel ltac:(lia) Ha2 Hts Ht) as (t' & s3 & E3 & Ha3 & Ht').
    exists t', s3. split; [done|]. split; [done|]. by rewrite Nat.iter_succ_r.
Qed.

Lemma pipe_to_back c : toks 1 c = toks 2 c ->
  (forall n, (2 * length (toks 2 c) + 1 <= n)%nat -> parses (parsepipe buf es n) (toks 2 c) [38; 59; 41] c) ->
  forall n k, (2 * length (toks 1 c) + 1 <= n)%nat ->
    parses (t <- parsepipe buf es n ;; loop (S es) (back_body buf es) t) (toks 1 c ++ replicate k (TSym 38)) [59; 41]
      (Nat.iter k CBack c).
Proof.
  intros E Hp n k Hn ts s Ha Hts. rewrite E in Hn, Ha. rewrite <-app_assoc in Ha.
  assert (follows [38; 59; 41] (replicate k (TSym 38) ++ ts)) as Hts'.
  { destruct k; [|by right]. eapply follows_weaken; [exact Hts|sets]. }
  destruct (Hp n Hn _ s Ha Hts') as (t & s1 & E1 & Ha1 & Ht). rewrite (bind_ok _ _ _ _ _ E1).
  apply (back_loop c); [|done|by eapply follows_not; [exact Hts|sets]|done].
  apply at_length in Ha1. rewrite length_app, length_replicate in Ha1. lia.
Qed.

Lemma back_to_line c : toks 0 c = toks 1 c ->
  (forall n k, (2 * length (toks 1 c) + 1 <= n)%nat ->
    parses (t <- parsepipe buf es n ;; loop (S es) (back_body buf es) t) (toks 1 c ++ replicate k (TSym 38)) [59; 41]
      (Nat.iter k CBack c)) ->
  forall n, (2 * length (toks 0 c) + 2 <= n)%nat -> parses (parseline buf es n) (toks 0 c) [41] c.
Proof.
  intros E Hb n Hn ts s Ha Hts. rewrite E in Hn, Ha. destruct n as [|n]; [lia|]. cbn [parseline].
  destruct (Hb n 0%nat ltac:(lia) ts s) as (t & s1 & E1 & Ha1 & Ht); [by rewrite app_nil_r|eapply follows_weaken; [exact Hts|sets]|].
  rewrite <-bind_assoc. rewrite (bind_ok _ _ _ _ _ E1).
  destruct (peek_run [59] ts s1 Ha1 ltac:(in_symbols)) as (s2 & E2 & Ha2%tight_at).
  rewrite (bind_ok _ _ _ _ _ E2), (follows_not _ [59] _ Hts) by sets. by exists t, s2.
Qed.

(** A block. *)
Lemma line_to_exec c : toks 3 c = wrap true (toks 0 c) ->
  (forall n, (2 * length (toks 0 c) + 2 <= n)%nat -> parses (parseline buf es n) (toks 0 c) [41] c) ->
  forall n rs, (2 * length (toks 3 c) <= n)%nat ->
    parses (parseexec buf es (parseline buf es n)) (toks 3 c ++ rtoks rs) [124; 38; 59; 41] (credirs c rs).
Proof.
  intros E Hl n rs Hn ts s Ha Hts. rewrite E in Hn, Ha. unfold wrap in *. cbn [length app] in Hn, Ha.
  rewrite length_app in Hn. cbn [length] in Hn. rewrite <-!app_assoc in Ha. cbn [app] in Ha.
  unfold parseexec. destruct (peek_run [40] _ s Ha ltac:(in_symbols)) as (s1 & E1 & Ha1%tight_at).
  rewrite (bind_ok _ _ _ _ _ E1). change (sees [40] (TSym 40 :: _)) with true. cbv iota. unfold parseblock.
  destruct (peek_run [40] _ s1 Ha1 ltac:(in_symbols)) as (s2 & E2 & Ha2%tight_at). rewrite (bind_ok _ _ _ _ _ E2).
  change (sees [40] (TSym 40 :: _)) with true. cbn [negb].
  destruct (gettoken_run _ _ _ Ha2) as (p & s3 & E3 & Ha3 & _). rewrite (bind_ok _ _ _ _ _ E3).
  destruct (Hl n ltac:(lia) _ s3 Ha3 ltac:(by right)) as (t & s4 & E4 & Ha4 & Ht). rewrite (bind_ok _ _ _ _ _ E4).
  destruct (peek_run [41] _ s4 Ha4 ltac:(in_symbols)) as (s5 & E5 & Ha5%tight_at). rewrite (bind_ok _ _ _ _ _ E5).
  change (sees [41] (TSym 41 :: _)) with true. cbn [negb].
  destruct (gettoken_run _ _ _ Ha5) as (p' & s6 & E6 & Ha6 & _). rewrite (bind_ok _ _ _ _ _ E6).
  destruct (parseredirs_run rs ts s6 Ha6) as (rs' & s7 & E7 & Ha7 & Hrs); [by eapply follows_not; [exact Hts|sets]|].
  rewrite (bind_ok _ _ _ _ _ E7). exists (redircmds t rs'), s7. split_and!; [done|done|by apply means_redirs].
Qed.

Lemma words_exec args n rs : (length args < MAXARGS)%nat ->
  parses (parseexec buf es (parseline buf es n)) ((TWord <$> args) ++ rtoks rs) [124; 38; 59; 41] (credirs (CExec args) rs).
Proof.
  intros Hargs ts s Ha Hts. rewrite <-app_assoc in Ha. unfold parseexec.
  assert (sees [60; 62] ts = false) as Hno by (eapply follows_not; [exact Hts|sets]).
  destruct (peek_run [40] _ s Ha ltac:(in_symbols)) as (s1 & E1 & Ha1%tight_at). rewrite (bind_ok _ _ _ _ _ E1).
  assert (sees [40] ((TWord <$> args) ++ rtoks rs ++ ts) = false) as ->.
  { destruct args as [|a args]; [|done]. destruct rs as [|[f []] rs]; [|done..]. by eapply follows_not; [exact Hts|sets]. }
  assert (exists rs1 s2, parseredirs buf es s1 = Ok (rs1, s2) /\
    at_ ((TWord <$> args) ++ (if decide (args = []) then [] else rtoks rs) ++ ts) s2 /\
    (if decide (args = []) then Forall2 redir_at rs1 rs else rs1 = [])) as (rs1 & s2 & E2 & Ha2 & Hrs1).
  { destruct args as [|b args].
    - destruct (parseredirs_run rs ts s1 Ha1 Hno) as (rs1 & s2 & ? & ? & ?). by exists rs1, s2.
    - destruct (parseredirs_run [] _ s1 Ha1 eq_refl) as (rs1 & s2 & ? & ? & ->%Forall2_nil_inv_r). by exists [], s2. }
  rewrite (bind_ok _ _ _ _ _ E2).
  destruct (args_loop args [] rs1 rs ts s2 (S (S es))) as (ws & rs2 & s3 & E3 & Ha3 & Hws & Hrs2); [|done|done| |].
  { apply at_length in Ha2. rewrite length_app, length_fmap in Ha2. lia. }
  { eapply follows_weaken; [exact Hts|sets]. }
  rewrite (bind_ok _ _ _ _ _ E3). cbn [app]. eexists _, s3. split; [reflexivity|]. split; [done|].
  apply means_redirs; [|done]. destruct (decide (args = [])); subst; [by rewrite app_nil_r|done].
Qed.

Lemma pipe_parses l r : parsed l -> parsed r -> forall n, (2 * length (toks 2 (CPipe l r)) + 1 <= n)%nat ->
  parses (parsepipe buf es n) (toks 2 (CPipe l r)) [38; 59; 41] (CPipe l r).
Proof.
  intros IHl IHr. intros n Hn ts s Ha Hts. cbn [toks wrap Nat.leb] in Hn, Ha. rewrite length_app in Hn. cbn [length] in Hn.
  rewrite <-app_assoc in Ha. cbn [app] in Ha. destruct n as [|n]; [lia|]. cbn [parsepipe].
  destruct (pd_exec l IHl n [] ltac:(lia) (TSym 124 :: toks 2 r ++ ts) s) as (t & s1 & E1 & Ha1 & Ht);
    [by rewrite app_nil_r|by right|]. rewrite (bind_ok _ _ _ _ _ E1).
  destruct (peek_run [124] _ s1 Ha1 ltac:(in_symbols)) as (s2 & E2 & Ha2%tight_at). rewrite (bind_ok _ _ _ _ _ E2).
  change (sees [124] (TSym 124 :: _)) with true. cbv iota.
  destruct (gettoken_run _ _ _ Ha2) as (p & s3 & E3 & Ha3 & _). rewrite (bind_ok _ _ _ _ _ E3).
  destruct (pd_pipe r IHr n ltac:(lia) ts s3 Ha3 Hts) as (t' & s4 & E4 & Ha4 & Ht'). rewrite (bind_ok _ _ _ _ _ E4).
  exists (PIPE t t'), s4. by split_and!.
Qed.

Lemma list_parses l r : parsed l -> parsed r -> forall n, (2 * length (toks 0 (CList l r)) + 2 <= n)%nat ->
  parses (parseline buf es n) (toks 0 (CList l r)) [41] (CList l r).
Proof.
  intros IHl IHr. intros n Hn ts s Ha Hts. cbn [toks wrap Nat.leb] in Hn, Ha. rewrite length_app in Hn. cbn [length] in Hn.
  rewrite <-app_assoc in Ha. cbn [app] in Ha. destruct n as [|n]; [lia|]. cbn [parseline].
  destruct (pd_back l IHl n 0%nat ltac:(lia) (TSym 59 :: toks 0 r ++ ts) s) as (t & s1 & E1 & Ha1 & Ht);
    [by rewrite app_nil_r|by right|]. rewrite <-bind_assoc, (bind_ok _ _ _ _ _ E1).
  destruct (peek_run [59] _ s1 Ha1 ltac:(in_symbols)) as (s2 & E2 & Ha2%tight_at). rewrite (bind_ok _ _ _ _ _ E2).
  change (sees [59] (TSym 59 :: _)) with true. cbv iota.
  destruct (gettoken_run _ _ _ Ha2) as (p & s3 & E3 & Ha3 & _). rewrite (bind_ok _ _ _ _ _ E3).
  destruct (pd_line r IHr n ltac:(lia) ts s3 Ha3 Hts) as (t' & s4 & E4 & Ha4 & Ht'). rewrite (bind_ok _ _ _ _ _ E4).
  exists (LIST t t'), s4. by split_and!.
Qed.

(** Every command is parsed at every level. *)
Lemma parsed_all c : writable c -> parsed c.
Proof.
  assert (forall c, toks 3 c = toks 2 c -> toks 2 c = toks 1 c -> toks 1 c = toks 0 c ->
    (forall n rs, (2 * length (toks 3 c) <= n)%nat ->
      parses (parseexec buf es (parseline buf es n)) (toks 3 c ++ rtoks rs) [124; 38; 59; 41] (credirs c rs)) -> parsed c) as Hdown.
  { intros c0 H3 H2 H1 He. pose proof (exec_to_pipe c0 (eq_sym H3) He) as Hp. pose proof (pipe_to_back c0 (eq_sym H2) Hp) as Hb.
    constructor; auto. by apply back_to_line. }
  induction c as [args|c IH f k|l IHl r IHr|l IHl r IHr|c IH]; intros Hw; cbn in Hw.
  - apply Hdown; [done..|]. intros n rs _. by apply words_exec.
  - apply Hdown; [done..|]. intros n rs Hn. cbn [toks] in *. rewrite length_app in Hn. cbn [length] in Hn.
    rewrite <-app_assoc. apply (pd_exec c (IH Hw) n ((f, k) :: rs)). lia.
  - destruct Hw as [Hl Hr]. specialize (IHl Hl). specialize (IHr Hr).
    pose proof (pipe_parses l r IHl IHr) as Hp.
    pose proof (pipe_to_back (CPipe l r) eq_refl Hp) as Hb. pose proof (back_to_line (CPipe l r) eq_refl Hb) as Hli.
    constructor; [by apply line_to_exec|done..].
  - destruct Hw as [Hl Hr]. specialize (IHl Hl). specialize (IHr Hr).
    pose proof (list_parses l r IHl IHr) as Hli.
    pose proof (line_to_exec (CList l r) eq_refl Hli) as He. pose proof (exec_to_pipe (CList l r) eq_refl He) as Hp.
    constructor; [done|done|by apply pipe_to_back|done].
  - specialize (IH Hw).
    assert (forall n k, (2 * length (toks 1 (CBack c)) + 1 <= n)%nat ->
      parses (t <- parsepipe buf es n ;; loop (S es) (back_body buf es) t) (toks 1 (CBack c) ++ replicate k (TSym 38)) [59; 41]
        (Nat.iter k CBack (CBack c))) as Hb.
    { intros n k Hn. cbn [toks wrap Nat.leb] in *. rewrite length_app in Hn. cbn [length] in Hn.
      rewrite <-app_assoc, <-Nat.iter_succ_r. apply (pd_back c IH n (S k)). lia. }
    pose proof (back_to_line (CBack c) eq_refl Hb) as Hli. pose proof (line_to_exec (CBack c) eq_refl Hli) as He.
    constructor; [done|by apply exec_to_pipe|done|done].
Qed.

(** *** nulterminate *)

Fixpoint ends (t : cmd) : list nat :=
  match t with
  | EXEC ws => snd <$> ws
  | REDIR t f _ _ => ends t ++ [f.2]
  | PIPE l r | LIST l r => ends l ++ ends r
  | BACK t => ends t
  end.

Lemma put_nul_lookup b i j : (j < length b)%nat -> put_nul b i !! j = if decide (j = i) then Some 0 else b !! j.
Proof.
  intros Hj. unfold put_nul. destruct (decide (j = i)) as [->|Hne]; [by apply list_lookup_insert_eq|].
  by apply list_lookup_insert_ne.
Qed.

Lemma nulterminate_lookup t : forall b j, (j < length b)%nat ->
  length (nulterminate t b) = length b /\
  nulterminate t b !! j = if decide (j ∈ ends t) then Some 0 else b !! j.
Proof.
  assert (forall (x y : nat) (A : Type) (u v : A) (P Q : Prop) `{Decision P, Decision Q}, (P <-> Q) ->
    (if decide P then u else v) = (if decide Q then u else v)) as Hext.
  { intros x y A u v P Q ? ? HPQ. destruct (decide P), (decide Q); tauto. }
  induction t as [ws|t IH f m d|l IHl r IHr|l IHl r IHr|t IH]; intros b j Hj; cbn [nulterminate ends].
  - revert b Hj. induction ws as [|w ws IH]; intros b Hj; cbn [foldl fmap list_fmap].
    + split; [done|]. by rewrite decide_False by apply not_elem_of_nil.
    + assert (length (put_nul b w.2) = length b) as El by apply length_insert.
      destruct (IH (put_nul b w.2)) as [E1 E2]; [by rewrite El|]. rewrite E2, put_nul_lookup by done. split; [congruence|].
      destruct (decide (j ∈ snd <$> ws)) as [Hin|Hin]; [rewrite decide_True by (by right); done|].
      apply Hext; [exact 0%nat|exact 0%nat|]. rewrite elem_of_cons. tauto.
  - destruct (IH b j Hj) as [E1 E2]. unfold put_nul at 1. rewrite length_insert. split; [done|].
    rewrite put_nul_lookup by (by rewrite E1). rewrite E2. destruct (decide (j = f.2)) as [->|Hne].
    + by rewrite decide_True by (apply elem_of_app; right; by left).
    + apply Hext; [exact 0%nat|exact 0%nat|]. rewrite elem_of_app, list_elem_of_singleton. tauto.
  - destruct (IHl b j Hj) as [E1 E2]. destruct (IHr (nulterminate l b) j) as [E3 E4]; [by rewrite E1|].
    rewrite E4, E2. split; [congruence|]. destruct (decide (j ∈ ends r)) as [Hin|Hin].
    + by rewrite decide_True by (apply elem_of_app; by right).
    + apply Hext; [exact 0%nat|exact 0%nat|]. rewrite elem_of_app. tauto.
  - destruct (IHl b j Hj) as [E1 E2]. destruct (IHr (nulterminate l b) j) as [E3 E4]; [by rewrite E1|].
    rewrite E4, E2. split; [congruence|]. destruct (decide (j ∈ ends r)) as [Hin|Hin].
    + by rewrite decide_True by (apply elem_of_app; by right).
    + apply Hext; [exact 0%nat|exact 0%nat|]. rewrite elem_of_app. tauto.
  - by apply IH.
Qed.

(** Where words end, no word goes on. *)
Lemma means_ends t : forall c, means t c -> Forall (fun e => (e <= es)%nat /\ (e = es \/ word_char (ch buf e) = false)) (ends t).
Proof.
  induction t as [ws|t IH f m d|l IHl r IHr|l IHl r IHr|t IH]; intros [args|c f' k|l' r'|l' r'|c]; cbn [means ends]; try done.
  - induction 1 as [|a w args ws Hw _ IH]; cbn; constructor; [|done]. by destruct Hw as (_ & _ & ? & _ & ?).
  - intros (Ht & (_ & _ & ? & _ & ?) & _). apply Forall_app. split; [by eapply IH|]. by apply Forall_singleton.
  - intros [Hl Hr]. apply Forall_app. split; [by eapply IHl|by eapply IHr].
  - intros [Hl Hr]. apply Forall_app. split; [by eapply IHl|by eapply IHr].
  - apply IH.
Qed.

Lemma means_shows b t : forall c, means t c -> (forall w p, word_at w p -> p.2 ∈ ends t -> string_of b p = w) -> shows b t c.
Proof.
  induction t as [ws|t IH f m d|l IHl r IHr|l IHl r IHr|t IH]; intros [args|c f' k|l' r'|l' r'|c]; cbn [means shows ends]; try done.
  - induction 1 as [|a w args ws Hw _ IH]; cbn; [done|]. intros Hs. rewrite IH.
    + rewrite (Hs a w Hw) by (by left). done.
    + intros w' p Hp Hin. apply Hs; [done|by right].
  - intros (Ht & Hf & Hm & Hd) Hs. split_and!; [|apply Hs; [done|apply elem_of_app; right; by left]|done|done].
    apply IH; [done|]. intros w p Hp Hin. apply Hs; [done|]. apply elem_of_app. by left.
  - intros [Hl Hr] Hs. split; [apply IHl|apply IHr]; try done; intros w p Hp Hin; (apply Hs; [done|apply elem_of_app; auto]).
  - intros [Hl Hr] Hs. split; [apply IHl|apply IHr]; try done; intros w p Hp Hin; (apply Hs; [done|apply elem_of_app; auto]).
  - intros Hc Hs. by apply IH.
Qed.

Lemma terminated_shows t c : (es < length buf)%nat -> means t c -> shows (nulterminate t buf) t c.
Proof.
  intros Hlen Hm. apply means_shows; [done|]. intros w [q e] (Hw & Ee & Hle & Htake & _) Hin. cbn in *. subst e.
  pose proof (proj1 (Forall_forall _ _) (means_ends t c Hm)) as Hends. unfold string_of. cbn [fst].
  assert (drop q (nulterminate t buf) = w ++ 0 :: drop (S (q + length w)) (nulterminate t buf)) as ->.
  - apply list_eq. intros k. rewrite lookup_drop. destruct (decide (k < length w)%nat) as [Hk|Hk].
    + rewrite lookup_app_l by done. destruct (nulterminate_lookup t buf (q + k)) as [_ ->]; [lia|].
      assert (buf !! (q + k)%nat = w !! k) as Ek.
      { rewrite <-Htake at 1. by rewrite lookup_take_lt, lookup_drop by done. }
      rewrite decide_False; [done|]. intros [_ He]%Hends. destruct He as [He|He]; [lia|].
      destruct Hw as [_ Hw]. destruct (lookup_lt_is_Some_2 w k Hk) as [x Hx].
      unfold ch in He. rewrite Ek, Hx in He. cbn in He. apply (Forall_lookup_1 _ _ _ _ Hw) in Hx as [_ Hx]. congruence.
    + rewrite lookup_app_r by lia. destruct (decide (k = length w)) as [->|Hne].
      * rewrite Nat.sub_diag. destruct (nulterminate_lookup t buf (q + length w)) as [_ ->]; [lia|]. by rewrite decide_True.
      * rewrite lookup_cons_ne_0, lookup_drop by lia. f_equal. lia.
  - destruct Hw as [_ Hw]. rewrite cstr_app_nz by (eapply Forall_impl; [exact Hw|naive_solver]). cbn. apply app_nil_r.
Qed.

End Lexer.

(** *** The parser ends *)

Section Ends.
  Context (buf : list Z) (es : nat) (Hnul : ch buf es = 0).

(** From [s] on: the parser stays on the line, or stops, but not for want of
    fuel. *)
Definition onward {A} (s : nat) (o : outcome (A * nat)) : Prop :=
  match o with Ok (_, s') => (s <= s' <= es)%nat | Fault e => e <> FFuel end.

Lemma onward_bind {A B} (p : M nat A) (k : A -> M nat B) s : onward s (p s) ->
  (forall a s', p s = Ok (a, s') -> (s <= s' <= es)%nat -> onward s' (k a s')) -> onward s (bind p k s).
Proof.
  intros Hp Hk. unfold bind. destruct (p s) as [[a s']|e] eqn:E; [|done]. cbn in Hp. specialize (Hk a s' eq_refl Hp).
  unfold onward in *. destruct (k a s') as [[b s'']|e]; [lia|done].
Qed.

Lemma onward_trans {A} s s' (o : outcome (A * nat)) : onward s' o -> (s <= s')%nat -> onward s o.
Proof. unfold onward. destruct o as [[a s'']|e]; [lia|done]. Qed.

Lemma onward_ret {A} (a : A) s : (s <= es)%nat -> onward s (ret a s).
Proof. cbn. lia. Qed.

Lemma scan_bound p n : forall s, (s <= scan buf p n s <= s + n)%nat.
Proof. induction n as [|n IH]; intros s; cbn; [lia|]. destruct (p _); [|lia]. specialize (IH (S s)). lia. Qed.
Lemma skip_bound s : (s <= es)%nat -> (s <= skip_ws buf es s <= es)%nat.
Proof. intros Hs. unfold skip_ws. pose proof (scan_bound (among whitespace) (es - s) s). lia. Qed.

Lemma nonnul_lt q : (q <= es)%nat -> ch buf q <> 0 -> (q < es)%nat.
Proof. intros Hq Hc. destruct (decide (q = es)) as [->|]; [done|lia]. Qed.

(** A word that is begun has a character, unless white space is left, which
    skip_ws has passed. *)
Lemma scan_stop p n : forall s, (n <= es - s)%nat -> (scan buf p n s < s + n)%nat -> p (ch buf (scan buf p n s)) = false.
Proof.
  induction n as [|n IH]; intros s Hn; cbn; [lia|]. destruct (p (ch buf s)) eqn:E; [|done]. intros Hlt. apply IH; lia.
Qed.

(** gettoken goes on by a character at least, unless the line is at its end. *)
Lemma gettoken_onward s : (s <= es)%nat ->
  exists r p s', gettoken buf es s = Ok ((r, p), s') /\ (s <= s' <= es)%nat /\ (ch buf (skip_ws buf es s) <> 0 -> (s < s')%nat) /\
    (ch buf (skip_ws buf es s) = 0 -> r = 0).
Proof.
  intros Hs. unfold gettoken. pose proof (skip_bound s Hs) as Hq.
  assert (ch buf (skip_ws buf es s) <> 0 -> among whitespace (ch buf (skip_ws buf es s)) = false) as Hws.
  { intros Hc. pose proof (nonnul_lt _ (proj2 Hq) Hc). apply (scan_stop (among whitespace) (es - s) s); [lia|]. unfold skip_ws in *. lia. }
  set (q := skip_ws buf es s) in *. clearbody q. destruct (Z.eqb_spec (ch buf q) 0) as [E|E].
  - eexists _, _, _. split; [reflexivity|]. pose proof (skip_bound q (proj2 Hq)). split_and!; [lia|lia|done|done].
  - pose proof (nonnul_lt q (proj2 Hq) E) as Hlt. specialize (Hws E).
    assert (forall (r : Z) k, (q < k <= es)%nat -> exists r' p s', Ok ((r, (q, k)), skip_ws buf es k) = Ok ((r', p), s') /\
      (s <= s' <= es)%nat /\ (ch buf q <> 0 -> (s < s')%nat) /\ (ch buf q = 0 -> r' = 0)) as Hgo.
    { intros r k Hk. eexists _, _, _. split; [reflexivity|]. pose proof (skip_bound k (proj2 Hk)). split_and!; [lia|lia|lia|done]. }
    destruct (among [124; 40; 41; 59; 38; 60] (ch buf q)) eqn:Es; [apply Hgo; lia|].
    destruct (Z.eqb_spec (ch buf q) 62) as [E62|E62].
    + destruct (Z.eqb_spec (ch buf (S q)) 62) as [E2|E2]; apply Hgo; [|lia].
      pose proof (nonnul_lt (S q) ltac:(lia) ltac:(by rewrite E2)). lia.
    + apply Hgo. pose proof (scan_bound word_char (es - q) q) as Hb. split; [|lia].
      replace (es - q)%nat with (S (es - S q)) by lia. cbn. unfold word_char at 1. rewrite Hws.
      assert (among symbols (ch buf q) = false) as ->.
      { apply not_true_iff_false. intros Hm%among_true. apply not_true_iff_false in Es. apply Es.
        apply among_elem; [done|set_solver|]. unfold symbols in Hm. set_solver. }
      cbn. pose proof (scan_bound word_char (es - S q) (S q)). lia.
Qed.

Lemma peek_onward set s : (s <= es)%nat -> exists b s', peek buf es set s = Ok (b, s') /\ (s <= s' <= es)%nat /\
  skip_ws buf es s' = s' /\ (b = true -> ch buf s' <> 0).
Proof.
  intros Hs. unfold peek. pose proof (skip_bound s Hs) as Hq. eexists _, _. split; [reflexivity|]. split; [done|]. split.
  - set (q := skip_ws buf es s) in *. unfold skip_ws at 1. destruct (es - q)%nat as [|n] eqn:En; [done|]. cbn.
    assert (among whitespace (ch buf q) = false) as ->; [|done].
    apply (scan_stop (among whitespace) (es - s) s); [lia|]. unfold q, skip_ws in *. lia.
  - intros [E _]%andb_true_iff. apply negb_true_iff, Z.eqb_neq in E. done.
Qed.

(** A loop each of whose turns goes on by a character. *)
Lemma loop_onward {X R} (body : X -> M nat (X + R)) :
  (forall x s, (s <= es)%nat ->
     match body x s with Ok (inl _, s') => (s < s' <= es)%nat | Ok (inr _, s') => (s <= s' <= es)%nat | Fault e => e <> FFuel end) ->
  forall n x s, (s <= es)%nat -> (es - s < n)%nat -> onward s (loop n body x s).
Proof.
  intros Hb. induction n as [|n IH]; intros x s Hs Hn; [lia|]. cbn. specialize (Hb x s Hs). unfold bind.
  destruct (body x s) as [[[x'|r] s']|e]; [|cbn; lia|done]. eapply onward_trans; [apply IH; lia|lia].
Qed.

Lemma parseredirs_onward s : (s <= es)%nat -> onward s (parseredirs buf es s).
Proof.
  intros Hs. unfold parseredirs. apply loop_onward; [|done|lia]. clear s Hs. intros rs s Hs. unfold redirs_body.
  destruct (peek_onward [60; 62] s Hs) as (b & s1 & E1 & Hs1 & Hsk & Hb). rewrite (bind_ok _ _ _ _ _ E1).
  destruct b; cbn [negb]; [|cbn; lia]. specialize (Hb eq_refl).
  destruct (gettoken_onward s1 (proj2 Hs1)) as (tok & p & s2 & E2 & Hs2 & Hgt & _). rewrite Hsk in Hgt. specialize (Hgt Hb).
  rewrite (bind_ok _ _ _ _ _ E2). destruct (gettoken_onward s2 (proj2 Hs2)) as (r & f & s3 & E3 & Hs3 & _). rewrite (bind_ok _ _ _ _ _ E3).
  destruct (r =? 97); cbn [negb]; [|done]. destruct (tok =? 60), (tok =? 62), (tok =? 43); cbn; lia.
Qed.

Lemma args_onward s argv rs : (s <= es)%nat ->
  match args_body buf es (argv, rs) s with
  | Ok (inl _, s') => (s < s' <= es)%nat | Ok (inr _, s') => (s <= s' <= es)%nat | Fault e => e <> FFuel end.
Proof.
  intros Hs. unfold args_body. destruct (peek_onward [124; 41; 38; 59] s Hs) as (b & s1 & E1 & Hs1 & Hsk & _).
  rewrite (bind_ok _ _ _ _ _ E1). destruct b; [cbn; lia|].
  destruct (gettoken_onward s1 (proj2 Hs1)) as (tok & p & s2 & E2 & Hs2 & Hgt & H0). rewrite Hsk in Hgt, H0.
  rewrite (bind_ok _ _ _ _ _ E2). destruct (Z.eqb_spec tok 0) as [_|Htok]; [cbn; lia|].
  assert (s1 < s2)%nat by (apply Hgt; intros Hc; by apply Htok, H0).
  destruct (tok =? 97); cbn [negb]; [|done]. destruct (_ <=? _)%nat; [done|].
  pose proof (parseredirs_onward s2 (proj2 Hs2)) as Hr. unfold bind. destruct (parseredirs buf es s2) as [[rs' s3]|e]; cbn in *; [lia|done].
Qed.

Lemma parseexec_onward line s : (s <= es)%nat -> (forall s', (s < s' <= es)%nat -> onward s' (line s')) ->
  onward s (parseexec buf es line s).
Proof.
  intros Hs Hl. unfold parseexec. destruct (peek_onward [40] s Hs) as (b & s1 & E1 & Hs1 & Hsk & Hb). rewrite (bind_ok _ _ _ _ _ E1).
  eapply onward_trans; [|apply Hs1]. destruct b.
  - specialize (Hb eq_refl). unfold parseblock. destruct (peek_onward [40] s1 (proj2 Hs1)) as (b & s2 & E2 & Hs2 & Hsk2 & Hb2).
    rewrite (bind_ok _ _ _ _ _ E2). eapply onward_trans; [|apply Hs2]. destruct b; cbn [negb]; [|done].
    destruct (gettoken_onward s2 (proj2 Hs2)) as (tok & p & s3 & E3 & Hs3 & Hgt & _). rewrite Hsk2 in Hgt. specialize (Hgt (Hb2 eq_refl)).
    rewrite (bind_ok _ _ _ _ _ E3). eapply onward_trans; [|apply Hs3]. apply onward_bind; [apply Hl; lia|]. intros c s4 _ Hs4.
    destruct (peek_onward [41] s4 (proj2 Hs4)) as (b & s5 & E5 & Hs5 & _). rewrite (bind_ok _ _ _ _ _ E5).
    eapply onward_trans; [|apply Hs5]. destruct b; cbn [negb]; [|done].
    destruct (gettoken_onward s5 (proj2 Hs5)) as (tok' & p' & s6 & E6 & Hs6 & _). rewrite (bind_ok _ _ _ _ _ E6).
    eapply onward_trans; [|apply Hs6]. apply onward_bind; [apply parseredirs_onward; lia|]. intros rs s7 _ Hs7. apply onward_ret. lia.
  - apply onward_bind; [apply parseredirs_onward; lia|]. intros rs s2 _ Hs2. apply onward_bind.
    + apply loop_onward; [|lia|lia]. intros [argv rs'] s' Hs'. by apply args_onward.
    + intros [argv rs'] s3 _ Hs3. apply onward_ret. lia.
Qed.

Lemma back_onward t s : (s <= es)%nat -> onward s (loop (S es) (back_body buf es) t s).
Proof.
  intros Hs. apply loop_onward; [|done|lia]. clear t s Hs. intros c s Hs. unfold back_body.
  destruct (peek_onward [38] s Hs) as (b & s1 & E1 & Hs1 & Hsk & Hb). rewrite (bind_ok _ _ _ _ _ E1).
  destruct b; [|cbn; lia]. destruct (gettoken_onward s1 (proj2 Hs1)) as (tok & p & s2 & E2 & Hs2 & Hgt & _).
  rewrite Hsk in Hgt. specialize (Hgt (Hb eq_refl)). rewrite (bind_ok _ _ _ _ _ E2). cbn. lia.
Qed.

(** What parseline and parsepipe do after an operator. *)
Lemma operator_onward (set : list Z) (rest : M nat cmd) (f : cmd -> cmd) (c : cmd) s : (s <= es)%nat ->
  (forall s', (s < s' <= es)%nat -> onward s' (rest s')) ->
  onward s ((b <- peek buf es set ;; if (b : bool) then gettoken buf es ;;; r <- rest ;; ret (f r) else ret c) s).
Proof.
  intros Hs Hr. destruct (peek_onward set s Hs) as (b & s1 & E1 & Hs1 & Hsk & Hb). rewrite (bind_ok _ _ _ _ _ E1).
  eapply onward_trans; [|apply Hs1]. destruct b; [|apply onward_ret; lia].
  destruct (gettoken_onward s1 (proj2 Hs1)) as (tok & p & s2 & E2 & Hs2 & Hgt & _). rewrite Hsk in Hgt. specialize (Hgt (Hb eq_refl)).
  rewrite (bind_ok _ _ _ _ _ E2). eapply onward_trans; [|apply Hs2]. apply onward_bind; [apply Hr; lia|].
  intros r s3 _ Hs3. apply onward_ret. lia.
Qed.

Lemma parse_onward n : forall s, (s <= es)%nat ->
  ((2 * (es - s) + 1 <= n)%nat -> onward s (parsepipe buf es n s)) /\
  ((2 * (es - s) + 2 <= n)%nat -> onward s (parseline buf es n s)).
Proof.
  induction n as [|n IH]; intros s Hs; (split; intros Hn; [try lia|try lia]).
  - cbn [parsepipe]. apply onward_bind; [apply parseexec_onward; [done|]; intros s' Hs'; apply IH; lia|].
    intros c s1 _ Hs1. apply operator_onward; [lia|]. intros s2 Hs2. apply IH; lia.
  - cbn [parseline]. apply onward_bind; [apply IH; lia|]. intros c s1 _ Hs1.
    apply onward_bind; [apply back_onward; lia|]. intros c' s2 _ Hs2.
    apply operator_onward; [lia|]. intros s3 Hs3. apply IH; lia.
Qed.

End Ends.

(** parsecmd ends on every line, with a command or a message. *)
Lemma parsecmd_ends s buf : (s <= length buf)%nat -> parsecmd s buf <> Fault FFuel.
Proof.
  intros Hs. unfold parsecmd. set (es := (s + length (cstr (drop s buf)))%nat).
  assert (ch buf es = 0) as Hnul.
  { unfold ch, es. rewrite <-lookup_drop. generalize (drop s buf). intros l. induction l as [|c l IH]; [done|]. cbn.
    destruct (Z.eqb_spec c 0) as [->|]; cbn; [done|exact IH]. }
  assert (onward es s ((c <- parseline buf es (2 * es + 2) ;; peek buf es [] ;;; ret c) s)) as Ho.
  { apply onward_bind; [apply (proj2 (parse_onward buf es Hnul _ s ltac:(unfold es; lia))); lia|]. intros c s1 _ Hs1.
    destruct (peek_onward buf es [] s1 (proj2 Hs1)) as (b & s2 & E2 & Hs2 & _). rewrite (bind_ok _ _ _ _ _ E2). cbn. lia. }
  revert Ho. generalize ((c <- parseline buf es (2 * es + 2) ;; peek buf es [] ;;; ret c) s). intros [[c s']|e] Ho.
  - by destruct (negb _).
  - intros [= ->]. by apply Ho.
Qed.

(** C7: the shell reads what was meant.  For every command (programs with at
    most nine words, redirections, pipes, lists, background commands, nested in
    any way) and every way to write its tokens down with white space, parsecmd
    returns, and the command it returns has the same structure, with strings
    that, after nulterminate, are exactly the words written. *)
Theorem parsecmd_reads_command c line junk (Hc : writable c) (Hs : spells (toks 0 c) line) (Hz : Forall (fun x => x <> 0) line) :
  exists t b, parsecmd 0 (line ++ 0 :: junk) = Ok (t, b) /\ shows b t c.
Proof.
  unfold parsecmd. set (buf := line ++ 0 :: junk). rewrite drop_0.
  assert (cstr buf = line) as -> by (unfold buf; rewrite cstr_app_nz by done; cbn; apply app_nil_r). cbn [Nat.add].
  set (es := length line). assert (es < length buf)%nat as Hlen by (unfold buf; rewrite length_app; cbn; lia).
  assert (ch buf es = 0) as Hnul.
  { unfold ch, buf, es. rewrite lookup_app_r, Nat.sub_diag by lia. done. }
  assert (at_ buf es (toks 0 c ++ []) 0) as Ha.
  { split; [lia|]. rewrite app_nil_r. unfold rem. rewrite drop_0, Nat.sub_0_r. unfold buf, es. by rewrite take_app_length. }
  assert (length (toks 0 c ++ []) <= es - 0)%nat as Hle by (eapply at_length; eauto; lia). rewrite app_nil_r, Nat.sub_0_r in Hle.
  destruct (pd_line _ _ _ (parsed_all buf es ltac:(lia) Hnul c Hc) (2 * es + 2) ltac:(lia) [] 0%nat Ha ltac:(by left))
    as (t & s1 & E1 & Ha1 & Ht).
  rewrite (bind_ok _ _ _ _ _ E1). destruct (peek_run buf es ltac:(lia) Hnul [] [] s1 Ha1 ltac:(constructor)) as (s2 & E2 & [Hs2 Hr]).
  rewrite (bind_ok _ _ _ _ _ E2). cbn. apply rem_nil in Hr; [|lia]. replace s2 with es by lia.
  rewrite Nat.eqb_refl. cbn. exists t. eexists. split; [reflexivity|]. apply (terminated_shows buf es); first [done|lia].
Qed.

(** ["( a b>c ;d ) | e &"] *)
Definition wit_cmd : scmd :=
  CBack (CPipe (CList (CRedir (CExec [[97]; [98]]) [99] ROut) (CExec [[100]])) (CExec [[101]])).
Definition wit_line : list Z := [40; 32; 97; 32; 98; 62; 99; 32; 59; 100; 32; 41; 32; 124; 32; 101; 32; 38].

Lemma parsecmd_reads_command_witness : exists t b, parsecmd 0 (wit_line ++ 0 :: [0; 0]) = Ok (t, b) /\ shows b t wit_cmd.
Proof.
  apply parsecmd_reads_command.
  - cbn. unfold MAXARGS. lia.
  - assert (forall x, word_char x = true -> x <> 0 -> is_word [x]) as Hw by (intros; split; [done|]; by repeat constructor).
    apply (sp_cons [] (TSym 40) _ [32; 97; 32; 98; 62; 99; 32; 59; 100; 32; 41; 32; 124; 32; 101; 32; 38]); [constructor|cbn; unfold symbols; set_solver|done|].
    apply (sp_cons [32] (TWord [97]) _ [32; 98; 62; 99; 32; 59; 100; 32; 41; 32; 124; 32; 101; 32; 38]); [by repeat constructor|by apply Hw|by right|].
    apply (sp_cons [32] (TWord [98]) _ [62; 99; 32; 59; 100; 32; 41; 32; 124; 32; 101; 32; 38]); [by repeat constructor|by apply Hw|by right|].
    apply (sp_cons [] (TSym 62) _ [99; 32; 59; 100; 32; 41; 32; 124; 32; 101; 32; 38]); [constructor|cbn; unfold symbols; set_solver|done|].
    apply (sp_cons [] (TWord [99]) _ [32; 59; 100; 32; 41; 32; 124; 32; 101; 32; 38]); [constructor|by apply Hw|by right|].
    apply (sp_cons [32] (TSym 59) _ [100; 32; 41; 32; 124; 32; 101; 32; 38]); [by repeat constructor|cbn; unfold symbols; set_solver|done|].
    apply (sp_cons [] (TWord [100]) _ [32; 41; 32; 124; 32; 101; 32; 38]); [constructor|by apply Hw|by right|].
    apply (sp_cons [32] (TSym 41) _ [32; 124; 32; 101; 32; 38]); [by repeat constructor|cbn; unfold symbols; set_solver|done|].
    apply (sp_cons [32] (TSym 124) _ [32; 101; 32; 38]); [by repeat constructor|cbn; unfold symbols; set_solver|done|].
    apply (sp_cons [32] (TWord [101]) _ [32; 38]); [by repeat constructor|by apply Hw|by right|].
    apply (sp_cons [32] (TSym 38) _ []); [by repeat constructor|cbn; unfold symbols; set_solver|done|].
    apply sp_nil. constructor.
  - repeat constructor; done.
Defined.
