(* ===== verification/ShRun.v ===== *)
(** ShRun: what the shell's processes are connected to.  The script of runcmd
    is run on descriptor tables as the kernel keeps them (fdalloc takes the
    lowest free descriptor); every program is then started with exactly the
    three standard descriptors, connected as the command says. *)

From S2P Require Import Prelude CString Ulib Sh ShParse.

(** What a descriptor refers to; a pipe is named by the process that made it,
    which is named by the forks that led to it. *)
Inductive obj : Type :=
| OStd (n : nat)
| OFile (file : list Z) (mode : Z)
| OPipeR (p : list bool)
| OPipeW (p : list bool).

(** ofile[NOFILE] *)
Definition fdtab : Type := list (option obj).
Definition NOFILE : nat := 16.

Fixpoint lowest (t : fdtab) : nat :=
  match t with
  | Some _ :: t' => S (lowest t')
  | _ => 0%nat
  end.
Definition alloc_fd (x : obj) (t : fdtab) : fdtab := <[lowest t := Some x]> t.

Section Trace.
  Context (opens : list Z -> bool).

Definition fd_of (p0 p1 : nat) (f : fdname) : nat :=
  match f with Fd n => Z.to_nat n | PipeIn => p0 | PipeOut => p1 end.

(** The programs that a process and its children start, each with its
    descriptors.  Forks and pipes succeed, and files open as [opens] says.
    [p0], [p1] are the descriptors of the last pipe. *)
Fixpoint trace (s : script) (t : fdtab) (p0 p1 : nat) (id : list bool) : list (list (list Z) * fdtab) :=
  match s with
  | SExit _ => []
  | SExecve argv _ => [(argv, t)]
  | SClose f k => trace k (<[fd_of p0 p1 f := None]> t) p0 p1 id
  | SDup f k =>
      match t !! fd_of p0 p1 f with
      | Some (Some x) => trace k (alloc_fd x t) p0 p1 id
      | _ => trace k t p0 p1 id
      end
  | SOpen file mode bad ok => if opens file then trace ok (alloc_fd (OFile file mode) t) p0 p1 id else trace bad t p0 p1 id
  | SMakePipe _ ok =>
      let t1 := alloc_fd (OPipeR id) t in
      trace ok (alloc_fd (OPipeW id) t1) (lowest t) (lowest t1) id
  | SFork _ child parent => trace child t p0 p1 (id ++ [true]) ++ trace parent t p0 p1 (id ++ [false])
  | SWait k => trace k t p0 p1 id
  end.

(** Just the three standard descriptors. *)
Definition std (i o e : obj) : fdtab := [Some i; Some o; Some e] ++ replicate (NOFILE - 3) None.

(** What a command should do: the programs, and what they read and write. *)
Fixpoint wiring (c : scmd) (i o e : obj) (id : list bool) : list (list (list Z) * fdtab) :=
  match c with
  | CExec [] => []
  | CExec args => [(args, std i o e)]
  | CRedir c f k =>
      if opens f
      then match k with
           | RIn => wiring c (OFile f (rmode k)) o e id
           | _ => wiring c i (OFile f (rmode k)) e id
           end
      else []
  | CPipe l r => wiring l i (OPipeW id) e (id ++ [true]) ++ wiring r (OPipeR id) o e ((id ++ [false]) ++ [true])
  | CList l r => wiring l i o e (id ++ [true]) ++ wiring r i o e (id ++ [false])
  | CBack c => wiring c i o e (id ++ [true])
  end.


End Trace.

